(* ===== verification/_CoqProject ===== *)
-Q . S2P
Prelude.v
Timebase.v
Stopwatch.v
Kservice.v
Kprintf.v
Oled.v
Gpio.v
Ui.v
Cli.v
Ringbuffer.v
Ring.v
Mem.v
Owner.v
Kalloc.v
RtList.v
Slist.v
Kernel.v
Idle.v
Sched.v
Timer.v
Ipc.v
Kcall.v
Thread.v
Tick.v
Semaphore.v
Mutex.v
Event.v
Mailbox.v
Dataqueue.v
Mempool.v
Ringblk.v
MsgQueue.v
Completion.v
Waitqueue.v
Workqueue.v
Device.v
Pin.v
Board.v
Pipe.v
Serial.v
Msh.v
Shell.v
Console.v
Usart.v
Startup.v
