(* ===== verification/Prelude.v ===== *)
(** * RT_Thread_Stopwatch: a verification library

    The firmware is a stopwatch on an STM32F103 board: an application (src/applications)
    on the RT-Thread kernel (src/rt-thread), with an OLED display (src/qu_dong).
    This library models the code the firmware runs, from the cycle counter up to
    the display and from the heap up to the scheduler and the objects threads wait
    on, and proves what each part promises to the parts that use it.

    ** Files

    - [Prelude]: C integers with their wrap-around ([wrap], [swrap] and their
      abbreviations [u32], [i16], ...), list and byte-memory helpers, the error codes,
      [assert] (a failed RT_ASSERT is [None]), tactics and hints.
    - [Timebase] (applications/timebase.c): the microsecond time base over the cycle
      counter or the tick.  It exports the interface [TimeSource] with its laws
      [TimeSourceLaws].
    - [Stopwatch] (stopwatch.c): the stopwatch service, proved against any time source
      that has the laws; [timebase_samples] discharges them.
    - [Ui] (ui_oled.c, notifier_buzzer.c, indicator_led.c, sensor_light.c) and [Cli]
      (stopwatch_cli.c): display pages, buzzer, LEDs, light sensor and the shell
      commands, against the interface [StopwatchApi] that the service implements
      ([service_api]).
    - [Oled] (OLED.c): the display buffer, drawing, and the bit-banged I2C bus seen by
      a receiver.
    - [Gpio] (stm32f1xx_hal_gpio.c, stm32f1xx_hal_cortex.c): the HAL's functions for pins and
      interrupts over the registers of the GPIO ports, AFIO, EXTI and NVIC, behind the
      interface [Hardware] with its laws [HardwareLaws]; [Pin] (drivers/drv_gpio.c,
      drivers/misc/pin.c): the pin driver and its external interrupts; [Board]: the pins of
      the application from the start of main on, which connects the levels that [Ui]
      and [Oled] keep with the registers.
    - [Kservice] and [Kprintf] (kservice.c): memory and string routines; rt_vsnprintf.
    - [Ring]: circular arrays as queues, shared by the components that keep one;
      [Ringbuffer] (drivers/src/ringbuffer.c), [Mem] (mem.c), [RtList] (rtservice.h);
      [Kalloc] (kservice.c): rt_malloc_align, rt_free_align and rt_strdup over the heap;
      [Slist] (rtservice.h): singly linked lists.
    - [Kernel] (object.c, scheduler.c, thread.c, timer.c, clock.c, irq.c, idle.c): the
      kernel's state and all its operations in one file, because they call each other;
      [Sched] and [Timer] have the theorems about the scheduler and about timers;
      [Idle] (idle.c): the hooks the idle thread runs, and its loop.
    - [Tick] (timer.c, thread.c): what the timer interrupt does with the timers that are due, time-outs of
      threads and callbacks of users, behind [Thread], whose invariant it needs.
    - [Owner]: the regions of the heap in use as blocks with owners; [Kcall]: the calls of
      the kernel that create and destroy nothing, as one relation; [Thread]: the invariant
      of the whole kernel, threads and timers with the heap they lie in, kept by every
      step, their creation, end and reclamation included; [Startup] (components.c,
      main.c, finsh_system_init): the firmware from the reset to the loop of main.
    - [Ipc] (ipc.c): the waiting lists; [Semaphore], [Mutex], [Event], [Mailbox] and
      [MsgQueue]: the objects of ipc.c; [Mempool] (mempool.c).
    - drivers/src: [Completion] (completion.c), [Waitqueue] (waitqueue.c), [Dataqueue]
      (dataqueue.c), [Workqueue] (workqueue.c: the queue, its thread and delayed work) and
      [Ringblk] (ringblk_buf.c), [Pipe] (pipe.c): what drivers wait on and hand over with.
      [Pipe] is a [mutex] of [Mutex] around a buffer of [Ringbuffer], and an instance of
      [DriverLaws].
    - [Device] (device.c): reference counts and flags of devices, proved for any driver
      with the laws [DriverLaws]; [Serial] (drivers/serial/serial.c, interrupt mode): its
      receive and transmit paths over the interface [Uart] of a port with its laws [UartLaws], among them
      how many characters it holds until it is read; [Console]
      (the console of kservice.c, the device of finsh/shell.c): from a byte on the wire to
      the shell, and from rt_kprintf to the wire.
    - [Usart] (drivers/drv_usart.c, stm32f1xx_hal_uart.c, stm32f1xx_hal_rcc.c): the UART driver on the
      registers of USART1, behind the interface [Usart] with its laws [UsartLaws] (a receiver of one
      character, a transmitter that takes time); an instance of [Uart] and [UartLaws].  Sending is
      modelled from one register access to the next.
    - [Msh] (finsh/msh.c): a command line is split, looked up, executed, completed;
      [Shell] (finsh/shell.c): the line editor with its history and what it shows on
      the terminal.

    ** How code corresponds to definitions

    A definition has the name of its C function (or a name in its spirit for a part
    of one) and its cases in the order of the code.  A struct is a [Record], a file's
    static variables are fields of a record that every function takes and returns.  A function that
    can fail an assertion, index out of range or run out of fuel returns an [option];
    error codes are values.  Pointers to kernel objects are addresses: the [kernel] maps addresses to
    threads and timers, and the position of a thread in the intrusive lists is the contents of its
    [queues].  [RtList] justifies this: it models the pointer operations and proves
    that they are the sequence operations ([rt_list_refines_seq]).
    A thread that blocks: the call ends with the outcome [Waiting] (or [Blocked]) in
    the kernel in which another thread runs; what it does when it runs again is a
    function of its own ([rt_sem_take_end], [rt_mb_send_again], ...), so that any
    interleaving of threads is a sequence of steps.  A section between
    rt_hw_interrupt_disable and rt_hw_interrupt_enable is one step, and so is the
    call of rt_schedule at its end: an interrupt between the two is not modelled.

    ** What the theorems show

    - Time and stopwatch: [timebase_samples_exact] (the samples are exact as long as the counter is
      read in time), [stopwatch_refines_spec] (the service is the abstract
      stopwatch), with the lemmas [laps_partition_total] and [sw_step_wf].
    - User interface: [ui_always_safe], [light_debounced],
      [OLED_Update_received], the shell commands.
      [light_debounced] is about the switch between dark and bright and about the buzzer; for the display period in
      the dark the code and its document differ.
    - Kernel services: [rt_memset_spec], [rt_memmove_memcpy_spec], [rt_string_spec],
      [rt_vsnprintf_layout].
    - Data structures: [ringbuffer_is_queue], [rt_list_refines_seq],
      [rt_malloc_spec], [rt_free_spec], [malloc_align_roundtrip] (the pointer that was
      stored below an aligned block gives the block back), [rbb_blocks_disjoint] (the
      blocks that a ring block buffer lists never overlap, whatever is allocated and freed, as long as
      an allocation asks for a byte and at most for the size of the buffer; what a queue_get took is not listed).
    - The whole kernel: [system_reachable_ok] (in every state that calls, interrupts of the
      timer, creations, ends and reclamations of threads and uses of the heap reach, the queues,
      the bitmap and the states of the threads agree, and the heap in use is what its
      owners hold), [dead_threads_reclaimed], [rt_thread_exit_spec], [firmware_starts] (the
      firmware comes up when its heap has room).
    - Scheduler and timers: [rt_schedule_picks_highest], [rt_timer_start_ordered],
      [rt_timer_check_fires_due] (the interrupt ends, and has fired the timers that are due and no other, when the
      time-outs among them are those of suspended threads, the callbacks of the others touch no timer, and no periodic one has
      period 0), with the lemmas [kernel_ok_reachable] and [rt_thread_yield_rotates].
    - Waiting: [rt_sem_take_spec], [semaphore_conserves], [mutex_exclusive] (in every run
      of threads that take and release a mutex, one thread at most is inside),
      [rt_event_send_spec], [mailbox_fifo], [message_queue_refines],
      [mempool_exclusive].  They rest on [ipc_wait_ok], [wake_ok] and
      [wait_timeout_ok] of [Ipc], which hold in any kernel with the invariant.
    - Devices: [device_references], [serial_input_is_queue] (what the port received and
      nobody read yet, in order, under any interleaving of interrupts and readers),
      [input_wakes_shell], the lemma [kprintf_reaches_uart], [completion_exact], [data_queue_fifo],
      [pipe_atomic] (what goes into a pipe comes out in order, and any number of threads that read and write it
      act as if one after the other; each call takes its lock itself, and a call for 64 KB or more has its own case),
      [work_queue_refines] (a work starts only when it was submitted and not cancelled since, in order, until the
      worker takes a work from an empty list, which [cancelled_too_early] shows it can; that a work
      does start is not promised: [wakeup_lost]), with the lemma [work_completion_wakes].
    - UART: [usart_exact] (on the registers, while characters, interrupts and reads come between any two register
      accesses of the one thread that writes: what the receiver kept is read in order, what is written is
      sent in order, and the thread finishes unless an interrupt without a character comes while it waits for a
      frame, which [isr_stalls_putc] shows to stop it for ever), [uart_baud_rate].  [poll_run_is_loop] ties the
      steps to the loop of serial.c.
    - Pins: [pin_irq_refines] (which functions are attached, enabled and called is what
      a specification by lines says), with the lemma [pins_independent] (a pin is what the calls for it
      make of it), [board_levels] (the registers of every pin of the board hold what the
      module that owns it gave it).
    - Shell: [shell_refines_editor] (any sequence of characters does what an abstract
      editor does, and stays inside of the line), [typed_command_runs] (from the keys to the call of the command).
      [full_line_overflows] shows what a line of 80
      characters leads to.

    ** Bounds and fuel

    Loops over data recurse on the data, or on a [nat] computed from it (the length of the
    list or of the area), and a theorem says that it is enough: the heap's search
    ([rt_malloc_spec] returns), the formatter, the timer interrupt
    ([rt_timer_check_fires_due] returns when no periodic timer has period 0;
    [rt_timer_check_zero_period] shows that it does not otherwise), the writing thread of a UART ([write_steps]).  Times of waits are below
    [WINDOW], half the range of the tick, as rt_timer_start asserts.

    ** Parameters

    What is not in the sources is an argument: counter and tick readings, ADC samples, atoi of
    the C library, the callbacks of timers and threads ([Callbacks], with the laws [CallbackLaws] of [Thread]; [quiet_callbacks] is an
    instance; for the timer interrupt [timers_left_alone] of [Tick]), where the linker puts entries of threads and static stacks, the contents of
    fresh memory and the base address of the heap, the operations of a device's driver
    ([device_ops]), the operations of a serial port (the class [Uart] with its laws
    [UartLaws]), how the pins' inputs and the read-only registers follow the
    written ones (the class [Hardware] with [HardwareLaws]; [demo_hardware] is an instance),
    what is behind the status and data register of USART1 (the class [Usart] with [UsartLaws];
    [demo_usart] is an instance), what functions attached to pins do ([run_hdr]), idle hooks ([run_hook]), the wakeup functions of wait queue nodes, the
    functions of work items, the address of the work queue's timeout function, and the
    error numbers EINVAL and ENODEV of the C library.

    ** Not modelled

    The set-up of clocks and of the system timer (drv_clk.c, drv_common.c, board.c) and delays: they
    are I/O; so [Startup] begins behind them.  Hooks (RT_USING_HOOK) other than the idle hooks: they are empty unless set.  The
    vendor's libraries (CMSIS, HAL) but for GPIO, EXTI, the NVIC and the UART.  Components that rtconfig.h does not configure (SMP,
    signals, slab, memheap, file systems, network, lwp, vmm, POSIX pipes, the system work
    queue).  Of the shell: finsh_set_prompt (never called), the listing commands (cmd.c).
    Of serial.c: DMA, poll mode reception and POSIX files, and the messages it prints. *)
From Stdlib Require Export ZArith Lia Sorted.
From stdpp Require Export base list gmap numbers strings.
From Stdlib Require Import Ascii.

Open Scope Z_scope.

(** ** Machine integers

    A C integer of width [w] is the mathematical integer it denotes; every
    assignment that can overflow goes through one of the casts below. *)
Definition wrap (w x : Z) : Z := x mod 2 ^ w.
Definition swrap (w x : Z) : Z := (x + 2 ^ (w - 1)) mod 2 ^ w - 2 ^ (w - 1).

Abbreviation u8 := (wrap 8).
Abbreviation u16 := (wrap 16).
Abbreviation u32 := (wrap 32).
Abbreviation u64 := (wrap 64).
Abbreviation i8 := (swrap 8).
Abbreviation i16 := (swrap 16).
Abbreviation i32 := (swrap 32).

(** [x] is representable on [w] bits, unsigned. *)
Definition fits (w x : Z) : Prop := 0 <= x < 2 ^ w.

#[global] Instance fits_dec w x : Decision (fits w x).
Proof. unfold fits. apply _. Defined.

Lemma wrap_fits w x : 0 <= w -> fits w (wrap w x).
Proof. intros Hw. apply Z.mod_pos_bound. lia. Qed.

Lemma wrap_id w x : fits w x -> wrap w x = x.
Proof. intros H. apply Z.mod_small, H. Qed.

Lemma map_wrap_id w l : Forall (fits w) l -> wrap w <$> l = l.
Proof. induction 1 as [|x l Hx _ IH]; [done|]. by rewrite fmap_cons, wrap_id, IH. Qed.

Lemma wrap_wrap w x : wrap w (wrap w x) = wrap w x.
Proof. apply Zmod_mod. Qed.

Lemma wrap_add_l w x y : wrap w (wrap w x + y) = wrap w (x + y).
Proof. apply Zplus_mod_idemp_l. Qed.

Lemma wrap_add_r w x y : wrap w (x + wrap w y) = wrap w (x + y).
Proof. apply Zplus_mod_idemp_r. Qed.

Lemma wrap_sub_l w x y : wrap w (wrap w x - y) = wrap w (x - y).
Proof. apply Zminus_mod_idemp_l. Qed.

Lemma wrap_sub_r w x y : wrap w (x - wrap w y) = wrap w (x - y).
Proof. apply Zminus_mod_idemp_r. Qed.

Lemma wrap_narrow v w x : 0 <= v <= w -> wrap v (wrap w x) = wrap v x.
Proof.
  intros H. unfold wrap. apply Z.mod_mod_divide.
  exists (2 ^ (w - v)). rewrite <- Z.pow_add_r by lia. f_equal. lia.
Qed.

Lemma wrap_bound w x : 0 <= w -> 0 <= wrap w x < 2 ^ w.
Proof. intros Hw. apply (wrap_fits w x Hw). Qed.

(** Congruence modulo [2 ^ w]: the equivalence two machine values of width
    [w] have when they are the same value. *)
Definition eqm (w x y : Z) : Prop := wrap w x = wrap w y.

#[global] Instance eqm_equiv w : Equivalence (eqm w).
Proof. split; unfold eqm; red; congruence. Qed.

#[global] Instance eqm_add w : Proper (eqm w ==> eqm w ==> eqm w) Z.add.
Proof.
  intros x x' Hx y y' Hy. unfold eqm in *.
  rewrite <- (wrap_add_l w x), <- (wrap_add_r w _ y), Hx, Hy.
  by rewrite wrap_add_l, wrap_add_r.
Qed.

#[global] Instance eqm_sub w : Proper (eqm w ==> eqm w ==> eqm w) Z.sub.
Proof.
  intros x x' Hx y y' Hy. unfold eqm in *.
  rewrite <- (wrap_sub_l w x), <- (wrap_sub_r w _ y), Hx, Hy.
  by rewrite wrap_sub_l, wrap_sub_r.
Qed.

#[global] Instance eqm_wrap_proper w : Proper (eqm w ==> eq) (wrap w).
Proof. intros x y H. exact H. Qed.

Lemma eqm_wrap w x : eqm w (wrap w x) x.
Proof. apply wrap_wrap. Qed.

(** ** Error codes of rtdef.h (functions return the negated code) *)
Definition RT_EOK : Z := 0.
Definition RT_ERROR : Z := 1.
Definition RT_ETIMEOUT : Z := 2.
Definition RT_EFULL : Z := 3.
Definition RT_EEMPTY : Z := 4.
Definition RT_ENOMEM : Z := 5.
Definition RT_ENOSYS : Z := 6.
Definition RT_EBUSY : Z := 7.
Definition RT_EIO : Z := 8.
Definition RT_EINTR : Z := 9.
Definition RT_EINVAL : Z := 10.

(** ** C arrays as lists indexed by [Z] *)
Definition nthZ {A} (d : A) (l : list A) (i : Z) : A := nth (Z.to_nat i) l d.
Definition updZ {A} (l : list A) (i : Z) (x : A) : list A :=
  <[Z.to_nat i := x]> l.
Definition lenZ {A} (l : list A) : Z := Z.of_nat (length l).

(** [memmove(&a[dst], &a[src], n * sizeof a[0])] inside one array, the two
    ranges being within it. *)
Definition arr_move {A} (dst src n : nat) (l : list A) : list A :=
  take dst l ++ take n (drop src l) ++ drop (dst + n) l.

Lemma lenZ_app {A} (l k : list A) : lenZ (l ++ k) = lenZ l + lenZ k.
Proof. unfold lenZ. rewrite length_app. lia. Qed.

Lemma lenZ_updZ {A} (l : list A) i x : lenZ (updZ l i x) = lenZ l.
Proof. unfold lenZ, updZ. by rewrite length_insert. Qed.

Lemma nthZ_updZ_eq {A} d (l : list A) i x :
  0 <= i < lenZ l -> nthZ d (updZ l i x) i = x.
Proof.
  unfold lenZ, nthZ, updZ. intros H.
  apply nth_lookup_Some. apply list_lookup_insert_eq. lia.
Qed.

Lemma nthZ_updZ_ne {A} d (l : list A) i j x :
  0 <= i -> 0 <= j -> i <> j -> nthZ d (updZ l i x) j = nthZ d l j.
Proof.
  unfold nthZ, updZ. intros Hi Hj Hne.
  rewrite !nth_lookup, list_lookup_insert_ne; [done | lia].
Qed.

(** ** Text as lists of byte codes *)
Definition code (c : ascii) : Z := Z.of_N (N_of_ascii c).
Definition bytes (s : string) : list Z := map code (String.list_ascii_of_string s).

(** ** Tactics and hints *)

(** Linear arithmetic with [/] and [mod] by constants. *)
Ltac dlia := Z.div_mod_to_equations; lia.

(** Split a boolean comparison in the goal or a hypothesis. *)
Ltac case_cmp :=
  match goal with
  | |- context [?a <? ?b] => destruct (Z.ltb_spec a b)
  | |- context [?a <=? ?b] => destruct (Z.leb_spec a b)
  | |- context [?a =? ?b] => destruct (Z.eqb_spec a b)
  | H : context [?a <? ?b] |- _ => destruct (Z.ltb_spec a b)
  | H : context [?a <=? ?b] |- _ => destruct (Z.leb_spec a b)
  | H : context [?a =? ?b] |- _ => destruct (Z.eqb_spec a b)
  end.

Create HintDb cint discriminated.
Create Rewrite HintDb cint.
#[export] Hint Rewrite wrap_wrap wrap_add_l wrap_add_r wrap_sub_l wrap_sub_r : cint.
#[export] Hint Resolve wrap_fits eqm_wrap : cint.

(** RT_ASSERT: a failed assertion never returns. *)
Definition assert (b : bool) : option unit := if b then Some tt else None.

(** The error monad, one step at a time. *)
Lemma some_bind {A B} (x : A) (f : A -> option B) : (Some x ≫= f) = f x.
Proof. done. Qed.

(** Sums of integers. *)
Definition sumZ (l : list Z) : Z := foldr Z.add 0 l.

Lemma sumZ_app l k : sumZ (l ++ k) = sumZ l + sumZ k.
Proof. induction l; simpl; unfold sumZ in *; lia. Qed.

Lemma arr_move_length {A} dst src n (l : list A) :
  (src + n <= length l)%nat -> (dst + n <= length l)%nat ->
  length (arr_move dst src n l) = length l.
Proof.
  intros. unfold arr_move.
  rewrite !length_app, !length_take, !length_drop. lia.
Qed.

(** The last [n] elements of a list. *)
Definition lastn {A} (n : nat) (l : list A) : list A := drop (length l - n) l.

Lemma length_lastn {A} n (l : list A) : length (lastn n l) = (n `min` length l)%nat.
Proof. unfold lastn. rewrite length_drop. lia. Qed.

Lemma lastn_all {A} n (l : list A) : (length l <= n)%nat -> lastn n l = l.
Proof. intros. unfold lastn. by replace (length l - n)%nat with 0%nat by lia. Qed.

Lemma lastn_snoc_lt {A} n (l : list A) x :
  (length l < n)%nat -> lastn n (l ++ [x]) = lastn n l ++ [x].
Proof.
  intros. rewrite !lastn_all; [done|lia|]. rewrite length_app. simpl. lia.
Qed.

Lemma lastn_snoc_ge {A} n (l : list A) x :
  (0 < n)%nat -> (n <= length l)%nat -> lastn n (l ++ [x]) = drop 1 (lastn n l) ++ [x].
Proof.
  intros H0 H. unfold lastn. rewrite length_app, drop_drop. simpl.
  replace (length l + 1 - n)%nat with (length l - n + 1)%nat by lia.
  rewrite drop_app_le by lia. done.
Qed.

(** Overwriting a C array: what the prefix of valid entries becomes. *)
Lemma take_updZ_snoc {A} (l v : list A) (n : nat) (x : A) :
  (n < length l)%nat -> take n l = v -> take (S n) (updZ l (Z.of_nat n) x) = v ++ [x].
Proof.
  intros Hn <-. unfold updZ. rewrite Nat2Z.id.
  rewrite (take_S_r _ _ x) by (apply list_lookup_insert_eq; done).
  rewrite take_insert_ge by lia. done.
Qed.

Lemma take_arr_shift {A} (l v : list A) (n : nat) (x : A) :
  length l = S n -> take (S n) l = v ->
  take (S n) (updZ (arr_move 0 1 n l) (Z.of_nat n) x) = drop 1 v ++ [x].
Proof.
  intros Hl Hv.
  apply take_updZ_snoc.
  - rewrite arr_move_length; lia.
  - rewrite take_ge in Hv by lia. subst v. unfold arr_move. simpl.
    rewrite take_app_length' by (rewrite length_take, length_drop; lia).
    rewrite take_ge; [done|]. rewrite length_drop. lia.
Qed.

(** ** C loops

    [while fuel c f s] runs [while (c) f;] for at most [fuel] rounds.  The
    rule below is how every loop is proved: an invariant and a measure that
    decreases give partial correctness and that the fuel was enough. *)
Fixpoint while {S : Type} (fuel : nat) (c : S -> bool) (f : S -> S) (s : S) : S :=
  match fuel with
  | O => s
  | S fuel => if c s then while fuel c f (f s) else s
  end.

Lemma while_rule {S} (P : S -> Prop) (mu : S -> nat) fuel c f s :
  (forall x, P x -> c x = true -> P (f x) /\ (mu (f x) < mu x)%nat) ->
  P s -> (mu s <= fuel)%nat ->
  P (while fuel c f s) /\ c (while fuel c f s) = false.
Proof.
  intros Hstep. revert s. induction fuel as [|fuel IH]; intros s Hs Hm; simpl.
  - split; [done|]. destruct (c s) eqn:E; [|done].
    destruct (Hstep s Hs E). lia.
  - destruct (c s) eqn:E; [|done]. destruct (Hstep s Hs E). apply IH; [done|lia].
Qed.

(** Whether [x] is in the interval [a, a + n). *)
Definition in_range (a n x : Z) : bool := (a <=? x) && (x <? a + n).

Lemma in_range_spec a n x : in_range a n x = true <-> a <= x < a + n.
Proof. unfold in_range. lia. Qed.

Lemma in_range_false a n x : in_range a n x = false <-> ~ (a <= x < a + n).
Proof. unfold in_range. lia. Qed.

(** ** Byte-addressed memory *)
Definition mem := Z -> Z.

Definition store8 (a v : Z) (m : mem) : mem := fun x => if x =? a then wrap 8 v else m x.

(** A little-endian 32-bit word. *)
Definition load32 (a : Z) (m : mem) : Z :=
  m a + 2 ^ 8 * m (a + 1) + 2 ^ 16 * m (a + 2) + 2 ^ 24 * m (a + 3).
Definition store32 (a v : Z) (m : mem) : mem :=
  store8 (a + 3) (v / 2 ^ 24) (store8 (a + 2) (v / 2 ^ 16)
    (store8 (a + 1) (v / 2 ^ 8) (store8 a v m))).

(** Every cell holds a byte. *)
Definition mem_ok (m : mem) : Prop := forall a, fits 8 (m a).

Lemma store8_at a v m x : store8 a v m x = if x =? a then wrap 8 v else m x.
Proof. done. Qed.

Lemma store8_ok a v m : mem_ok m -> mem_ok (store8 a v m).
Proof. intros H x. unfold store8. case_cmp; [by apply wrap_fits|apply H]. Qed.

Lemma store32_at a v m x :
  store32 a v m x =
    if in_range a 4 x then u8 (v / 2 ^ (8 * (x - a))) else m x.
Proof.
  unfold store32, store8, in_range.
  destruct (Z.leb_spec a x); [destruct (Z.ltb_spec x (a + 4))|]; simpl;
    repeat case_cmp; try lia; try done; f_equal.
  - by replace (x - a) with 3 by lia.
  - by replace (x - a) with 2 by lia.
  - by replace (x - a) with 1 by lia.
  - subst. by rewrite Z.sub_diag, Z.div_1_r.
Qed.

Lemma store32_ok a v m : mem_ok m -> mem_ok (store32 a v m).
Proof. intros H. unfold store32. by do 4 apply store8_ok. Qed.

Lemma load32_byte a m i :
  mem_ok m -> 0 <= i < 4 -> u8 (load32 a m / 2 ^ (8 * i)) = m (a + i).
Proof.
  intros H Hi. unfold load32, wrap.
  pose proof (H a). pose proof (H (a + 1)). pose proof (H (a + 2)). pose proof (H (a + 3)).
  unfold fits in *.
  assert (i = 0 \/ i = 1 \/ i = 2 \/ i = 3) as [-> | [-> | [-> | ->]]] by lia;
    rewrite ?Z.add_0_r; dlia.
Qed.

(** A boolean property of every value below [n], decided by enumeration. *)
Definition all_below (n : nat) (f : Z -> bool) : bool := forallb f (map Z.of_nat (seq 0 n)).

Lemma all_below_spec n f x : all_below n f = true -> 0 <= x < Z.of_nat n -> f x = true.
Proof.
  intros H Hx. unfold all_below in H. rewrite forallb_forall in H. apply H.
  apply in_map_iff. exists (Z.to_nat x). split; [lia|]. apply in_seq. lia.
Qed.

(** [while_inv P mu x]: reason about the innermost loop of the goal with invariant [P] and
    measure [mu]; leaves the three premises of [while_rule], then the goal with
    the loop's result named [x]. *)
Ltac while_inv P mu x :=
  match goal with
  | |- context [while ?fuel ?c ?f ?s] =>
      tryif (match s with context [@while] => idtac end) then fail else idtac;
      let Hinv := fresh "Hinv" in
      let Hend := fresh "Hend" in
      assert (P (while fuel c f s) /\ c (while fuel c f s) = false) as [Hinv Hend];
      [ apply (while_rule P mu)
      | set (x := while fuel c f s) in *; clearbody x; cbv beta in Hend ]
  end.

(** ** Filters *)
Lemma last_default {A} (l : list A) y d d' : List.last (y :: l) d = List.last (y :: l) d'.
Proof. revert y. induction l as [|z l IH]; intros y; [done|]. apply IH. Qed.

Lemma filter_none {A} (P : A -> Prop) `{forall x, Decision (P x)} (l : list A) :
  (forall x, x ∈ l -> ~ P x) -> filter P l = [].
Proof.
  induction l as [|x l IH]; intros Hl; [done|]. rewrite filter_cons_False by (apply Hl; left).
  apply IH. intros y Hy. apply Hl. by right.
Qed.

Lemma filter_all {A} (P : A -> Prop) `{forall x, Decision (P x)} (l : list A) :
  (forall x, x ∈ l -> P x) -> filter P l = l.
Proof.
  induction l as [|x l IH]; intros Hl; [done|]. rewrite filter_cons_True by (apply Hl; left).
  f_equal. apply IH. intros y Hy. apply Hl. by right.
Qed.

(** ** Linked lists in memory

    The words of a memory that matter, by address. *)
Abbreviation wmem := (gmap Z Z).

(** The singly linked list from [a]; 0 is the null pointer. *)
Inductive chain (m : wmem) : Z -> list Z -> Prop :=
| chain_nil : chain m 0 []
| chain_cons a n l : a <> 0 -> m !! a = Some n -> chain m n l -> chain m a (a :: l).

Lemma chain_insert m a l x v : chain m a l -> x ∉ l -> chain (<[x := v]> m) a l.
Proof.
  induction 1 as [|a n l Ha Hn _ IH]; intros Hx; [constructor|]. apply not_elem_of_cons in Hx as [Hxa Hx].
  econstructor; [done| |by apply IH]. by rewrite lookup_insert_ne.
Qed.

Lemma chain_same m m' a l : chain m a l -> (forall x, x ∈ l -> m' !! x = m !! x) -> chain m' a l.
Proof.
  induction 1 as [|a n l Ha Hn _ IH]; intros Hx; [constructor|]. econstructor; [done|rewrite Hx; [done|left]|].
  apply IH. intros x Hin. apply Hx. by right.
Qed.

Lemma chain_inv m b a l : chain m b (a :: l) -> b = a /\ a <> 0 /\ exists n, m !! a = Some n /\ chain m n l.
Proof. intros H. inversion H; subst. eauto 6. Qed.

Lemma chain_nonzero m a l x : chain m a l -> x ∈ l -> x <> 0.
Proof.
  induction 1 as [|a n l Ha _ _ IH]; intros Hx; [by apply elem_of_nil in Hx|].
  apply elem_of_cons in Hx as [->|Hx]; [done|by apply IH].
Qed.
