(* ===== verification/Timebase.v ===== *)
(** * The microsecond time base (applications/timebase.c)

    The state of the file's static variables, the two functions of the file,
    and the interface [TimeSource] through which the stopwatch uses them.
    Real time is the number [t] of CPU cycles since the cycle counter was
    cleared; the 32-bit register CYCCNT shows [t mod 2^32]. *)
From S2P Require Import Prelude.

(** ** State and operations *)

(** The static variables of timebase.c. *)
Record timebase := {
  cpu_hz : Z;      (* uint32_t *)
  dwt_ok : Z;      (* uint8_t *)
  last_cyc : Z;    (* uint32_t *)
  total_cyc : Z    (* uint64_t *)
}.

(** Their static initialisers. *)
Definition timebase_reset_state : timebase :=
  {| cpu_hz := 72000000; dwt_ok := 0; last_cyc := 0; total_cyc := 0 |}.

(** What one read of the hardware and of the kernel tick returns. *)
Record hwread := { rd_cyccnt : Z; rd_tick : Z }.

Definition DWT_CTRL_CYCCNTENA_Msk : Z := 1.
Definition RT_TICK_PER_SECOND : Z := 1000.

(** [dwt_init]: [ctrl] is the value DWT->CTRL reads back after the enable bit
    has been written (0 on a core without the unit). *)
Definition dwt_init (ctrl : Z) (s : timebase) : timebase :=
  {| s with dwt_ok := if Z.land ctrl DWT_CTRL_CYCCNTENA_Msk =? 0 then 0 else 1 |}.

Definition timebase_init (SystemCoreClock ctrl : Z) (hw : hwread) (s : timebase)
  : Z * timebase :=
  let s := if SystemCoreClock =? 0 then s else {| s with cpu_hz := SystemCoreClock |} in
  let s := dwt_init ctrl s in
  let s := if dwt_ok s =? 0 then s
           else {| s with last_cyc := rd_cyccnt hw; total_cyc := 0 |} in
  (RT_EOK, s).

Definition timebase_get_us (hw : hwread) (s : timebase) : Z * timebase :=
  if dwt_ok s =? 0 then
    (u64 (rd_tick hw * 1000000) / RT_TICK_PER_SECOND, s)
  else
    let cur := rd_cyccnt hw in
    let delta := u32 (cur - last_cyc s) in
    let s := {| s with last_cyc := cur; total_cyc := u64 (total_cyc s + delta) |} in
    (u64 (total_cyc s * 1000000) / cpu_hz s, s).

(** ** The interface the stopwatch relies on *)

(** A microsecond clock with a state of its own. *)
Class TimeSource := {
  ts_state : Type;
  ts_init : hwread -> ts_state -> ts_state;
  ts_get_us : hwread -> ts_state -> Z * ts_state
}.

(** What it promises: in step with real time [t] (in the source's own unit),
    a read taken at [t'] within the source's window returns the number of
    microseconds of [t'] and stays in step. *)
Class TimeSourceLaws (TS : TimeSource) := {
  ts_sync : ts_state -> Z -> Prop;
  ts_shows : hwread -> Z -> Prop;
  ts_window : Z -> Z -> Prop;
  ts_us : Z -> Z;
  ts_window_le : forall t t', ts_window t t' -> t <= t';
  ts_us_mono : forall t t', t <= t' -> ts_us t <= ts_us t';
  ts_get_us_ok : forall s t hw t',
    ts_sync s t -> ts_window t t' -> ts_shows hw t' ->
    fst (ts_get_us hw s) = ts_us t' /\ ts_sync (snd (ts_get_us hw s)) t';
  ts_us_fits : forall s t hw t',
    ts_sync s t -> ts_window t t' -> ts_shows hw t' -> fits 64 (ts_us t')
}.

(** ** The cycle counter as a time source *)

(** The register shows the cycle count [t] modulo its width. *)
Definition shows_cycles (hw : hwread) (t : Z) : Prop := rd_cyccnt hw = u32 t.

(** [s] was last sampled at cycle [t], having been initialised at cycle [t0]. *)
Definition dwt_sync (hz t0 : Z) (s : timebase) (t : Z) : Prop :=
  dwt_ok s = 1 /\ cpu_hz s = hz /\ last_cyc s = u32 t /\
  total_cyc s = u64 (t - t0) /\ t0 <= t.

(** The next sample comes before the 32-bit counter wraps past the last one
    and before the microsecond product leaves 64 bits. *)
Definition dwt_window (t0 t t' : Z) : Prop :=
  t <= t' < t + 2 ^ 32 /\ (t' - t0) * 1000000 < 2 ^ 64.

(** Without the unit the tick counter is used: real time is in ticks. *)
Definition tick_sync (s : timebase) (t : Z) : Prop := dwt_ok s = 0 /\ 0 <= t.
Definition tick_window (t t' : Z) : Prop := t <= t' < 2 ^ 32.

Lemma u32_delta t t' : t <= t' < t + 2 ^ 32 -> u32 (u32 t' - u32 t) = t' - t.
Proof.
  intros H. rewrite wrap_sub_l, wrap_sub_r. apply wrap_id. unfold fits. lia.
Qed.

Lemma dwt_total_step t0 t t' :
  t <= t' < t + 2 ^ 32 -> t0 <= t ->
  u64 (u64 (t - t0) + u32 (u32 t' - u32 t)) = u64 (t' - t0).
Proof.
  intros H H0. rewrite u32_delta by done. rewrite wrap_add_l. f_equal. lia.
Qed.

Section DWT.
Context (hz t0 : Z) (hz_pos : 0 < hz).

Definition cyc_us (t : Z) : Z := (t - t0) * 1000000 / hz.

Lemma cyc_us_mono t t' : t <= t' -> cyc_us t <= cyc_us t'.
Proof. intros H. apply Z.div_le_mono; lia. Qed.

(** One sample, whatever the gap since the last one: the 32-bit difference
    is what is accumulated. *)
Lemma timebase_step s t hw t' :
  dwt_sync hz t0 s t -> t <= t' -> shows_cycles hw t' ->
  let r := timebase_get_us hw s in
  last_cyc (snd r) = u32 t' /\
  total_cyc (snd r) = u64 (t - t0 + (t' - t) mod 2 ^ 32) /\
  fst r = u64 (u64 (t - t0 + (t' - t) mod 2 ^ 32) * 1000000) / hz.
Proof.
  intros (Hok & Hhz & Hl & Ht & _) _ Hr. unfold timebase_get_us, shows_cycles in *.
  rewrite Hok. simpl. rewrite Hhz, Hl, Ht, Hr, wrap_sub_l, wrap_sub_r, wrap_add_l.
  done.
Qed.

Lemma timebase_sync_step s t hw t' :
  dwt_sync hz t0 s t -> t <= t' < t + 2 ^ 32 -> shows_cycles hw t' ->
  dwt_sync hz t0 (snd (timebase_get_us hw s)) t'.
Proof.
  intros Hs Hw Hr. destruct (timebase_step s t hw t' Hs (proj1 Hw) Hr) as (Hl & Ht & _).
  destruct Hs as (Hok & Hhz & _ & _ & H0). unfold dwt_sync.
  rewrite Hl, Ht, Z.mod_small by lia.
  unfold timebase_get_us. rewrite Hok. simpl. repeat split; try done; [f_equal; lia | lia].
Qed.

Lemma timebase_value s t hw t' :
  dwt_sync hz t0 s t -> dwt_window t0 t t' -> shows_cycles hw t' ->
  fst (timebase_get_us hw s) = cyc_us t'.
Proof.
  intros Hs [Hw Hb] Hr. destruct (timebase_step s t hw t' Hs (proj1 Hw) Hr) as (_ & _ & ->).
  destruct Hs as (_ & _ & _ & _ & H0).
  rewrite Z.mod_small by lia. unfold cyc_us.
  rewrite (wrap_id 64 (t - t0 + (t' - t))) by (unfold fits; lia).
  rewrite wrap_id by (unfold fits; lia). do 2 f_equal; lia.
Qed.
End DWT.

(** Reads taken one after another. *)
Fixpoint timebase_samples (hws : list hwread) (s : timebase) : list Z * timebase :=
  match hws with
  | [] => ([], s)
  | hw :: hws =>
      let '(us, s1) := timebase_get_us hw s in
      let '(l, s2) := timebase_samples hws s1 in (us :: l, s2)
  end.

(** The sample times [ts] start at or after [t] and each is in the window of
    the one before it. *)
Fixpoint dwt_schedule (t0 t : Z) (ts : list Z) : Prop :=
  match ts with
  | [] => True
  | t' :: ts => dwt_window t0 t t' /\ dwt_schedule t0 t' ts
  end.

#[global] Instance dwt_schedule_dec t0 t ts : Decision (dwt_schedule t0 t ts).
Proof. revert t. induction ts; intros; simpl; unfold dwt_window; apply _. Defined.

Lemma dwt_schedule_sorted hz t0 t ts :
  0 < hz -> dwt_schedule t0 t ts -> Sorted Z.le (map (cyc_us hz t0) ts).
Proof.
  intros Hz. revert t. induction ts as [|t1 ts IH]; intros t H; simpl; constructor.
  - by apply (IH t1), H.
  - destruct ts as [|t2 ts]; simpl; constructor.
    apply cyc_us_mono; [done|]. destruct H as (_ & [[? _] _] & _). done.
Qed.

(** C17: sampled at least once per wrap of the 32-bit cycle counter, and while
    the elapsed microseconds times the clock fit 64 bits, every reading is
    exactly the elapsed time since initialisation and the readings never
    decrease, although the hardware counter itself wraps. *)
Theorem timebase_samples_exact hz t0 s t hws ts :
  0 < hz -> dwt_sync hz t0 s t -> dwt_schedule t0 t ts -> Forall2 shows_cycles hws ts ->
  fst (timebase_samples hws s) = map (cyc_us hz t0) ts /\
  Sorted Z.le (fst (timebase_samples hws s)).
Proof.
  intros Hz Hs Hsch HF.
  assert (fst (timebase_samples hws s) = map (cyc_us hz t0) ts) as Heq.
  { clear -Hz Hs Hsch HF. revert s t Hs Hsch.
    induction HF as [|hw t' hws ts Hr _ IH]; intros s t Hs Hsch; [done|].
    simpl in Hsch. destruct Hsch as [Hw Hsch]. simpl.
    pose proof (timebase_value hz t0 s t hw t' Hs Hw Hr) as Hv.
    pose proof (timebase_sync_step hz t0 s t hw t' Hs (proj1 Hw) Hr) as Hs'.
    destruct (timebase_get_us hw s) as [us s1]. simpl in Hv, Hs'.
    specialize (IH s1 t' Hs' Hsch).
    destruct (timebase_samples hws s1) as [l s2]. simpl in *. by rewrite Hv, IH. }
  split; [done|]. rewrite Heq. by apply (dwt_schedule_sorted hz t0 t).
Qed.

Lemma timebase_samples_exact_witness :
  Sorted Z.le (fst (timebase_samples
    [ {| rd_cyccnt := 4294967000; rd_tick := 0 |}; {| rd_cyccnt := 704; rd_tick := 0 |} ]
    {| cpu_hz := 72000000; dwt_ok := 1; last_cyc := 100; total_cyc := 0 |})).
Proof.
  apply (timebase_samples_exact 72000000 100 _ 100 _ [4294967000; 4294968000]).
  - lia.
  - repeat split; vm_compute; congruence.
  - apply (bool_decide_unpack _). vm_compute. exact I.
  - repeat constructor.
Defined.

(** The accumulation only sees the counter modulo [2^32]: when [g] cycles
    pass between two samples the time base advances by [g mod 2^32], so every
    full wrap (59.6 s at 72 MHz) that goes unsampled is lost. *)
Lemma timebase_gap_lost hz t0 s t hw g :
  dwt_sync hz t0 s t -> 0 <= g -> shows_cycles hw (t + g) ->
  total_cyc (snd (timebase_get_us hw s)) = u64 (total_cyc s + g mod 2 ^ 32).
Proof.
  intros Hs Hg Hr. destruct (timebase_step hz t0 s t hw (t + g) Hs) as (_ & -> & _); try done; [lia|].
  destruct Hs as (_ & _ & _ & -> & _). rewrite wrap_add_l. do 3 f_equal. lia.
Qed.

Lemma timebase_gap_lost_witness :
  total_cyc (snd (timebase_get_us {| rd_cyccnt := 5; rd_tick := 0 |}
    {| cpu_hz := 72000000; dwt_ok := 1; last_cyc := 0; total_cyc := 0 |})) = 5.
Proof.
  rewrite (timebase_gap_lost 72000000 0 _ 0 _ (2 ^ 32 + 5)); [reflexivity | | lia | reflexivity].
  repeat split; vm_compute; congruence.
Defined.

(** The product [total_cyc * 1000000] is computed on 64 bits, so the
    clock runs backwards once 18446744073709 cycles (71 hours at 72 MHz) have
    been accumulated: the next sample, one second later, is smaller. *)
Lemma timebase_product_overflow t0 s hw :
  let t := t0 + 18446744073709 in
  dwt_sync 72000000 t0 s t -> shows_cycles hw (t + 72000000) ->
  fst (timebase_get_us hw s) < cyc_us 72000000 t0 t.
Proof.
  intros t Hs Hr.
  destruct (timebase_step 72000000 t0 s t hw (t + 72000000) Hs) as (_ & _ & ->); [lia|done|].
  replace (t + 72000000 - t) with 72000000 by lia. unfold cyc_us.
  replace (t - t0) with 18446744073709 by (unfold t; lia). reflexivity.
Qed.

Lemma timebase_product_overflow_witness :
  fst (timebase_get_us {| rd_cyccnt := u32 (18446744073709 + 72000000); rd_tick := 0 |}
    {| cpu_hz := 72000000; dwt_ok := 1; last_cyc := u32 18446744073709;
       total_cyc := 18446744073709 |}) < 256204778801.
Proof.
  apply (timebase_product_overflow 0); [|reflexivity].
  repeat split; vm_compute; congruence.
Defined.

(** ** The implementation discharges the interface *)

#[global] Instance timebase_source (SystemCoreClock ctrl : Z) : TimeSource := {|
  ts_state := timebase;
  ts_init := fun hw s => snd (timebase_init SystemCoreClock ctrl hw s);
  ts_get_us := timebase_get_us
|}.

(** Initialising on a core with the counter puts the source in step. *)
Lemma timebase_init_sync hz hw s t0 :
  0 < hz -> shows_cycles hw t0 ->
  dwt_sync hz t0 (snd (timebase_init hz 1 hw s)) t0.
Proof.
  intros Hz Hr. unfold timebase_init, dwt_init, dwt_sync.
  destruct (Z.eqb_spec hz 0); [lia|]. simpl. rewrite Hr, Z.sub_diag. repeat split; lia.
Qed.

#[global] Instance timebase_dwt_laws (hz t0 : Z) (Hz : 0 < hz) :
  TimeSourceLaws (timebase_source hz 1).
Proof.
  refine {| ts_sync := dwt_sync hz t0 : @ts_state (timebase_source hz 1) -> Z -> Prop;
            ts_shows := shows_cycles; ts_window := dwt_window t0;
            ts_us := cyc_us hz t0 |}.
  - by intros t t' [[? _] _].
  - intros. by apply cyc_us_mono.
  - intros s t hw t' Hs Hw Hr. split; [by apply (timebase_value hz t0 s t)|].
    by apply (timebase_sync_step hz t0 s t hw t' Hs (proj1 Hw)).
  - intros s t hw t' (_ & _ & _ & _ & H0) [Hw Hb] _. unfold fits, cyc_us. split.
    + apply Z.div_pos; lia.
    + apply Z.div_lt_upper_bound; nia.
Defined.

#[global] Instance timebase_tick_laws (SystemCoreClock ctrl : Z) :
  TimeSourceLaws (timebase_source SystemCoreClock ctrl).
Proof.
  refine {| ts_sync := tick_sync : @ts_state (timebase_source SystemCoreClock ctrl) -> Z -> Prop;
            ts_shows := fun hw t => rd_tick hw = t; ts_window := tick_window;
            ts_us := fun t => t * 1000000 / RT_TICK_PER_SECOND |}.
  - by intros t t' [? _].
  - intros. apply Z.div_le_mono; unfold RT_TICK_PER_SECOND; lia.
  - intros s t hw t' [Hs H0] [Hw Hb] <-. simpl. unfold timebase_get_us. rewrite Hs. simpl.
    rewrite wrap_id by (unfold fits; lia). split; [done|]. split; [done|lia].
  - intros s t hw t' [Hs H0] [Hw Hb] _. unfold fits, RT_TICK_PER_SECOND. dlia.
Defined.
