(* ===== verification/Stopwatch.v ===== *)
(** * The stopwatch service (applications/stopwatch.c)

    [Section Service] holds the file's static state and its functions over an
    arbitrary microsecond clock ([TimeSource]); [Module Spec] is the abstract
    stopwatch they implement, and the rest is the refinement between the two. *)
From S2P Require Import Prelude Timebase.

(** ** Data *)
Inductive stopwatch_state_t :=
  | STOPWATCH_STATE_IDLE
  | STOPWATCH_STATE_RUNNING
  | STOPWATCH_STATE_PAUSED.

#[global] Instance stopwatch_state_eq_dec : EqDecision stopwatch_state_t.
Proof. solve_decision. Defined.

Definition STOPWATCH_MAX_LAPS : nat := 20.

(** [stopwatch_ctx_t]; the lock handle is [true] once the mutex exists. *)
Record stopwatch_ctx := {
  state : stopwatch_state_t;
  state_start_tick : Z;         (* rt_tick_t *)
  accumulated_ms : Z;           (* uint32 *)
  state_start_us : Z;           (* uint64 *)
  last_lap_total_ms : Z;        (* uint32 *)
  lap_durations_ms : list Z;    (* uint32 [STOPWATCH_MAX_LAPS] *)
  lap_count : Z;                (* uint16 *)
  lock : bool
}.

(** [memset(&g_sw, 0, sizeof(g_sw))]; 0 is STOPWATCH_STATE_IDLE. *)
Definition ctx_zero : stopwatch_ctx :=
  {| state := STOPWATCH_STATE_IDLE; state_start_tick := 0; accumulated_ms := 0;
     state_start_us := 0; last_lap_total_ms := 0;
     lap_durations_ms := replicate STOPWATCH_MAX_LAPS 0; lap_count := 0; lock := false |}.

(** What one call meets in its environment: the clock at the call, the clock
    at initialisation if the call initialises, and whether a mutex can be
    allocated. *)
Record sw_env := { e_hw : hwread; e_init : hwread; e_mutex : bool }.

Section Service.
Context {TS : TimeSource}.

(** The static variables of the file, the time base they use, and the number
    of times the calling thread holds [g_sw.lock]. *)
Record sw_world := {
  g_sw : stopwatch_ctx;
  g_inited : Z;
  tb : ts_state;
  held : Z
}.

Definition set_ctx (c : stopwatch_ctx) (w : sw_world) : sw_world := {| w with g_sw := c |}.
Definition swlock_take (w : sw_world) : sw_world := {| w with held := held w + 1 |}.
Definition swlock_release (w : sw_world) : sw_world := {| w with held := held w - 1 |}.

Definition timebase_read (hw : hwread) (w : sw_world) : Z * sw_world :=
  let '(us, s) := ts_get_us hw (tb w) in (us, {| w with tb := s |}).

(** ** Operations *)
Definition get_now_total_ms_unsafe (hw : hwread) (w : sw_world) : Z * sw_world :=
  let c := g_sw w in
  if bool_decide (state c = STOPWATCH_STATE_RUNNING) && negb (state_start_us c =? 0) then
    let '(now_us, w) := timebase_read hw w in
    let delta_us := u64 (now_us - state_start_us c) in
    (u32 (accumulated_ms c + u32 (delta_us / 1000)), w)
  else (accumulated_ms c, w).

Definition stopwatch_init (e : sw_env) (w : sw_world) : Z * sw_world :=
  if negb (g_inited w =? 0) then (RT_EOK, w)
  else
    let w := set_ctx {| ctx_zero with lock := e_mutex e |} w in
    if negb (e_mutex e) then (- RT_ENOMEM, w)
    else (RT_EOK, {| w with tb := ts_init (e_init e) (tb w); g_inited := 1 |}).

(** [if (!g_inited) { if (stopwatch_init() != RT_EOK) return; }] *)
Definition ensure_init (e : sw_env) (w : sw_world) : Z * sw_world :=
  if g_inited w =? 0 then stopwatch_init e w else (RT_EOK, w).

Definition stopwatch_start (e : sw_env) (w : sw_world) : sw_world :=
  let '(r, w) := ensure_init e w in
  if negb (r =? RT_EOK) then w else
  let w := swlock_take w in
  if decide (state (g_sw w) = STOPWATCH_STATE_RUNNING) then swlock_release w
  else
    let c := {| (g_sw w) with state_start_tick := rd_tick (e_hw e) |} in
    let '(us, w) := timebase_read (e_hw e) w in
    let c := {| c with state_start_us := us; state := STOPWATCH_STATE_RUNNING |} in
    swlock_release (set_ctx c w).

Definition stopwatch_stop (e : sw_env) (w : sw_world) : sw_world :=
  let '(r, w) := ensure_init e w in
  if negb (r =? RT_EOK) then w else
  let w := swlock_take w in
  let w :=
    if decide (state (g_sw w) = STOPWATCH_STATE_RUNNING) then
      let w :=
        if negb (state_start_us (g_sw w) =? 0) then
          let '(now_us, w) := timebase_read (e_hw e) w in
          let c := g_sw w in
          set_ctx {| c with
            accumulated_ms :=
              u32 (accumulated_ms c + u32 (u64 (now_us - state_start_us c) / 1000));
            state_start_us := 0 |} w
        else w in
      set_ctx {| (g_sw w) with state := STOPWATCH_STATE_PAUSED |} w
    else w in
  swlock_release w.

Definition stopwatch_reset (e : sw_env) (w : sw_world) : sw_world :=
  let '(r, w) := ensure_init e w in
  if negb (r =? RT_EOK) then w else
  let w := swlock_take w in
  let c := {| (g_sw w) with
    accumulated_ms := 0; last_lap_total_ms := 0; lap_count := 0;
    lap_durations_ms := replicate STOPWATCH_MAX_LAPS 0 |} in
  let w :=
    if decide (state c = STOPWATCH_STATE_RUNNING) then
      let '(us, w) := timebase_read (e_hw e) w in
      set_ctx {| c with state_start_tick := rd_tick (e_hw e); state_start_us := us |} w
    else set_ctx {| c with state := STOPWATCH_STATE_IDLE; state_start_us := 0 |} w in
  swlock_release w.

(** The lap table after one more lap of [lap_ms]. *)
Definition push_lap (lap_ms : Z) (c : stopwatch_ctx) : stopwatch_ctx :=
  if lap_count c <? Z.of_nat STOPWATCH_MAX_LAPS then
    {| c with lap_durations_ms := updZ (lap_durations_ms c) (lap_count c) lap_ms;
              lap_count := u16 (lap_count c + 1) |}
  else
    let moved := arr_move 0 1 (STOPWATCH_MAX_LAPS - 1) (lap_durations_ms c) in
    {| c with lap_durations_ms := updZ moved (Z.of_nat STOPWATCH_MAX_LAPS - 1) lap_ms |}.

(** Returns the error code and the value stored through [out_lap_ms]
    ([None]: not stored). *)
Definition stopwatch_lap (e : sw_env) (w : sw_world) : Z * option Z * sw_world :=
  let '(r, w) := ensure_init e w in
  if negb (r =? RT_EOK) then (r, None, w) else
  let w := swlock_take w in
  let '(total_ms, w) := get_now_total_ms_unsafe (e_hw e) w in
  let lap_ms := u32 (total_ms - last_lap_total_ms (g_sw w)) in
  let c := push_lap lap_ms (g_sw w) in
  let w := set_ctx {| c with last_lap_total_ms := total_ms |} w in
  (RT_EOK, Some lap_ms, swlock_release w).

Definition stopwatch_get_state (w : sw_world) : stopwatch_state_t * sw_world :=
  if g_inited w =? 0 then (STOPWATCH_STATE_IDLE, w) else
  let w := swlock_take w in
  (state (g_sw w), swlock_release w).

Definition stopwatch_get_total_ms (e : sw_env) (w : sw_world) : Z * sw_world :=
  if g_inited w =? 0 then (0, w) else
  let w := swlock_take w in
  let '(v, w) := get_now_total_ms_unsafe (e_hw e) w in
  (v, swlock_release w).

Definition stopwatch_get_lap_count (w : sw_world) : Z * sw_world :=
  if g_inited w =? 0 then (0, w) else
  let w := swlock_take w in
  (lap_count (g_sw w), swlock_release w).

Definition stopwatch_get_lap_ms (index : Z) (w : sw_world) : Z * sw_world :=
  if g_inited w =? 0 then (0, w) else
  let w := swlock_take w in
  let c := g_sw w in
  let v := if index <? lap_count c then nthZ 0 (lap_durations_ms c) index else 0 in
  (v, swlock_release w).

Definition stopwatch_get_latest_lap_ms (w : sw_world) : Z * sw_world :=
  if g_inited w =? 0 then (0, w) else
  let w := swlock_take w in
  let c := g_sw w in
  let v := if 0 <? lap_count c then nthZ 0 (lap_durations_ms c) (lap_count c - 1) else 0 in
  (v, swlock_release w).

Definition stopwatch_clear_laps (e : sw_env) (w : sw_world) : sw_world :=
  if g_inited w =? 0 then w else
  let w := swlock_take w in
  let w := set_ctx {| (g_sw w) with lap_count := 0 |} w in
  let '(total_ms, w) := get_now_total_ms_unsafe (e_hw e) w in
  let w := set_ctx {| (g_sw w) with last_lap_total_ms := total_ms;
             lap_durations_ms := replicate STOPWATCH_MAX_LAPS 0 |} w in
  swlock_release w.
End Service.

Arguments sw_world : clear implicits.

(** ** The service as one step function *)
Inductive sw_op :=
  | OpStart | OpStop | OpReset | OpLap | OpClearLaps
  | OpGetState | OpGetTotal | OpGetCount | OpGetLap (index : Z) | OpGetLatest.

Inductive sw_out :=
  | OutUnit
  | OutState (s : stopwatch_state_t)
  | OutVal (v : Z)
  | OutLap (err : Z) (ms : option Z).

Definition sw_step {TS : TimeSource} (op : sw_op) (e : sw_env) (w : sw_world TS)
  : sw_out * sw_world TS :=
  match op with
  | OpStart => (OutUnit, stopwatch_start e w)
  | OpStop => (OutUnit, stopwatch_stop e w)
  | OpReset => (OutUnit, stopwatch_reset e w)
  | OpLap => let '(r, ms, w) := stopwatch_lap e w in (OutLap r ms, w)
  | OpClearLaps => (OutUnit, stopwatch_clear_laps e w)
  | OpGetState => let '(s, w) := stopwatch_get_state w in (OutState s, w)
  | OpGetTotal => let '(v, w) := stopwatch_get_total_ms e w in (OutVal v, w)
  | OpGetCount => let '(v, w) := stopwatch_get_lap_count w in (OutVal v, w)
  | OpGetLap i => let '(v, w) := stopwatch_get_lap_ms i w in (OutVal v, w)
  | OpGetLatest => let '(v, w) := stopwatch_get_latest_lap_ms w in (OutVal v, w)
  end.

Fixpoint sw_run {TS : TimeSource} (ops : list (sw_op * sw_env)) (w : sw_world TS)
  : list sw_out * sw_world TS :=
  match ops with
  | [] => ([], w)
  | (op, e) :: ops =>
      let '(o, w) := sw_step op e w in
      let '(os, w) := sw_run ops w in (o :: os, w)
  end.

(** ** Well-formedness *)

(** Holds of every reachable state, whatever the clock returns and whether or
    not initialisation succeeds. *)
Record ctx_wf (c : stopwatch_ctx) : Prop := {
  wf_count : 0 <= lap_count c <= Z.of_nat STOPWATCH_MAX_LAPS;
  wf_laps : length (lap_durations_ms c) = STOPWATCH_MAX_LAPS;
  wf_acc : fits 32 (accumulated_ms c);
  wf_idle : state c <> STOPWATCH_STATE_RUNNING -> state_start_us c = 0
}.

Definition sw_wf {TS : TimeSource} (w : sw_world TS) : Prop :=
  ctx_wf (g_sw w) /\ (g_inited w <> 0 -> lock (g_sw w) = true).

(** The boot state: .bss is zero. *)
Definition sw_boot {TS : TimeSource} (s : ts_state) : sw_world TS :=
  {| g_sw := ctx_zero; g_inited := 0; tb := s; held := 0 |}.

(** ** The abstract stopwatch

    Time is unbounded microseconds, durations are unbounded milliseconds and
    every lap is remembered. *)
Module Spec.
Record t := {
  running : option Z;      (* the instant it was last started *)
  paused : bool;
  segments : list Z;       (* completed running segments, in ms *)
  laps : list Z;           (* every lap since the last reset or clear *)
  base : Z                 (* total at the last lap, reset or clear *)
}.

Definition zero : t :=
  {| running := None; paused := false; segments := []; laps := []; base := 0 |}.

Definition total (us : Z) (s : t) : Z :=
  sumZ (segments s) + match running s with Some s0 => (us - s0) / 1000 | None => 0 end.

Definition state_of (s : t) : stopwatch_state_t :=
  match running s with
  | Some _ => STOPWATCH_STATE_RUNNING
  | None => if paused s then STOPWATCH_STATE_PAUSED else STOPWATCH_STATE_IDLE
  end.

(** The laps the service remembers: the latest twenty. *)
Definition visible (s : t) : list Z :=
  lastn STOPWATCH_MAX_LAPS (laps s).

Definition step (op : sw_op) (us : Z) (s : t) : sw_out * t :=
  match op with
  | OpStart =>
      (OutUnit, match running s with
                | Some _ => s
                | None => {| s with running := Some us; paused := false |}
                end)
  | OpStop =>
      (OutUnit, match running s with
                | Some s0 => {| s with running := None; paused := true;
                                       segments := segments s ++ [(us - s0) / 1000] |}
                | None => s
                end)
  | OpReset =>
      (OutUnit, {| zero with running := match running s with
                                        | Some _ => Some us | None => None end |})
  | OpLap =>
      let d := total us s - base s in
      (OutLap RT_EOK (Some d), {| s with laps := laps s ++ [d]; base := total us s |})
  | OpClearLaps => (OutUnit, {| s with laps := []; base := total us s |})
  | OpGetState => (OutState (state_of s), s)
  | OpGetTotal => (OutVal (total us s), s)
  | OpGetCount => (OutVal (lenZ (visible s)), s)
  | OpGetLap i => (OutVal (nthZ 0 (visible s) i), s)
  | OpGetLatest => (OutVal (default 0 (last (visible s))), s)
  end.

Fixpoint run (ops : list (sw_op * Z)) (s : t) : list sw_out * t :=
  match ops with
  | [] => ([], s)
  | (op, us) :: ops =>
      let '(o, s) := step op us s in
      let '(os, s) := run ops s in (o :: os, s)
  end.
End Spec.

(** The 32-bit image of an abstract answer. *)
Definition out32 (o : sw_out) : sw_out :=
  match o with
  | OutVal v => OutVal (u32 v)
  | OutLap r ms => OutLap r (u32 <$> ms)
  | o => o
  end.

(** ** Invariant preservation *)
Section Invariant.
Context {TS : TimeSource}.
Implicit Types w : sw_world TS.

(** [w'] is [w] after a call that keeps the invariant and the lock balance. *)
Definition keeps w w' : Prop := sw_wf w' /\ held w' = held w.

Lemma keeps_intro w w' :
  ctx_wf (g_sw w') -> lock (g_sw w') = lock (g_sw w) -> g_inited w' = g_inited w ->
  held w' = held w -> sw_wf w -> keeps w w'.
Proof. intros Hc Hl Hi Hh [_ Hk]. split; [|done]. split; [done|]. by rewrite Hl, Hi. Qed.

Lemma now_total_frame hw w v w' :
  get_now_total_ms_unsafe hw w = (v, w') ->
  g_sw w' = g_sw w /\ g_inited w' = g_inited w /\ held w' = held w.
Proof.
  unfold get_now_total_ms_unsafe, timebase_read. intros H.
  destruct (_ && _); [destruct (ts_get_us hw (tb w))|]; by simplify_eq/=.
Qed.

Lemma push_lap_wf ms c x :
  ctx_wf c ->
  ctx_wf {| (push_lap ms c) with last_lap_total_ms := x |} /\
  lock (push_lap ms c) = lock c.
Proof.
  intros [Hc Hl Ha Hi]. unfold push_lap, STOPWATCH_MAX_LAPS in *.
  destruct (Z.ltb_spec (lap_count c) (Z.of_nat 20)); (split; [split|]); simpl; try done;
    unfold updZ; rewrite ?length_insert, ?arr_move_length by lia; try done.
  unfold STOPWATCH_MAX_LAPS. rewrite wrap_id by (unfold fits; lia). lia.
Qed.

Lemma ctx_wf_zero b : ctx_wf {| ctx_zero with lock := b |}.
Proof. by split. Qed.

Lemma ensure_init_keeps e w r w1 :
  ensure_init e w = (r, w1) -> sw_wf w -> keeps w w1.
Proof.
  unfold ensure_init, stopwatch_init. intros H Hw.
  destruct (Z.eqb_spec (g_inited w) 0) as [Hi|Hi]; [|by simplify_eq].
  simpl in H. destruct (e_mutex e); simplify_eq/=; split; try done;
    (split; [apply ctx_wf_zero|]); simpl; congruence.
Qed.

(** The operations below start with [ensure_init]; what remains is shown for
    a world that is already well formed. *)
Lemma after_init e w (f : sw_world TS -> sw_world TS) :
  sw_wf w -> (forall w1, sw_wf w1 -> keeps w1 (f w1)) ->
  keeps w (let '(r, w1) := ensure_init e w in if negb (r =? RT_EOK) then w1 else f w1).
Proof.
  intros Hw Hf. destruct (ensure_init e w) as [r w1] eqn:E.
  destruct (ensure_init_keeps e w r w1 E Hw) as [H1 Hh].
  destruct (negb _); [done|]. destruct (Hf w1 H1) as [H2 Hh2]. split; [done|congruence].
Qed.

Ltac keeps_tac :=
  apply keeps_intro; simpl; try done; try lia; try (by split).

Lemma start_keeps e w : sw_wf w -> keeps w (stopwatch_start e w).
Proof.
  intros Hw. apply after_init; [done|]. clear w Hw. intros w Hw. destruct (proj1 Hw).
  simpl. destruct (decide _); [by keeps_tac|].
  unfold timebase_read. simpl. destruct (ts_get_us _ _) as [us s].
  by keeps_tac.
Qed.

Lemma stop_keeps e w : sw_wf w -> keeps w (stopwatch_stop e w).
Proof.
  intros Hw. apply after_init; [done|]. clear w Hw. intros w Hw. destruct (proj1 Hw).
  simpl. destruct (decide _); [|by keeps_tac].
  destruct (Z.eqb_spec (state_start_us (g_sw w)) 0); simpl.
  - by keeps_tac.
  - unfold timebase_read. simpl. destruct (ts_get_us _ _) as [us s].
    keeps_tac. split; try done. by apply wrap_fits.
Qed.

Lemma reset_keeps e w : sw_wf w -> keeps w (stopwatch_reset e w).
Proof.
  intros Hw. apply after_init; [done|]. clear w Hw. intros w Hw. destruct (proj1 Hw).
  simpl. destruct (decide _) as [Hr|Hr].
  - unfold timebase_read. simpl. destruct (ts_get_us _ _) as [us s].
    by keeps_tac.
  - by keeps_tac.
Qed.

Lemma lap_keeps e w : sw_wf w -> keeps w (snd (stopwatch_lap e w)).
Proof.
  intros Hw. unfold stopwatch_lap. destruct (ensure_init e w) as [r w1] eqn:E.
  destruct (ensure_init_keeps e w r w1 E Hw) as [H1 Hh].
  destruct (negb _); [done|]. cut (keeps w1 (snd (
    let '(total_ms, w2) := get_now_total_ms_unsafe (e_hw e) (swlock_take w1) in
    let lap_ms := u32 (total_ms - last_lap_total_ms (g_sw w2)) in
    let c := push_lap lap_ms (g_sw w2) in
    (RT_EOK, Some lap_ms, swlock_release (set_ctx {| c with last_lap_total_ms := total_ms |} w2))))).
  { intros [Hk Hh2]. split; [exact Hk|]. rewrite <- Hh. exact Hh2. }
  destruct (get_now_total_ms_unsafe _ _) as [v w2] eqn:E2. simpl.
  apply now_total_frame in E2 as (Hg & Hi & Hhe). simpl in *. rewrite Hg.
  destruct (push_lap_wf (u32 (v - last_lap_total_ms (g_sw w1))) (g_sw w1) v (proj1 H1)).
  by keeps_tac.
Qed.

Lemma clear_keeps e w : sw_wf w -> keeps w (stopwatch_clear_laps e w).
Proof.
  intros Hw. unfold stopwatch_clear_laps. case_cmp; [done|].
  destruct (get_now_total_ms_unsafe _ _) as [v w2] eqn:E2.
  apply now_total_frame in E2 as (Hg & Hi & Hhe). simpl in *. rewrite Hg.
  destruct (proj1 Hw). by keeps_tac.
Qed.

Lemma total_keeps e w : sw_wf w -> keeps w (snd (stopwatch_get_total_ms e w)).
Proof.
  intros Hw. unfold stopwatch_get_total_ms. case_cmp; [done|].
  destruct (get_now_total_ms_unsafe _ _) as [v w2] eqn:E2. simpl.
  apply now_total_frame in E2 as (Hg & Hi & Hhe). simpl in *.
  keeps_tac; rewrite Hg; try done. apply Hw.
Qed.
End Invariant.

Lemma sw_step_keeps {TS : TimeSource} (op : sw_op) (e : sw_env) (w : sw_world TS) :
  sw_wf w -> keeps w (snd (sw_step op e w)).
Proof.
  intros Hw. assert (keeps w (swlock_release (swlock_take w))) as Hget.
  { apply keeps_intro; simpl; try done; [apply Hw|lia]. }
  destruct op; simpl.
  - by apply start_keeps.
  - by apply stop_keeps.
  - by apply reset_keeps.
  - pose proof (lap_keeps e w Hw) as H. by destruct (stopwatch_lap e w) as [[? ?] ?].
  - by apply clear_keeps.
  - unfold stopwatch_get_state. by case_cmp.
  - pose proof (total_keeps e w Hw) as H. by destruct (stopwatch_get_total_ms e w).
  - unfold stopwatch_get_lap_count. by case_cmp.
  - unfold stopwatch_get_lap_ms. by destruct (g_inited w =? 0).
  - unfold stopwatch_get_latest_lap_ms. by destruct (g_inited w =? 0).
Qed.

(** Every operation of the service, from any well-formed state and with
    any clock and any outcome of the allocation, keeps the lap table within
    its twenty entries and its other fields well formed, and releases the
    stopwatch lock exactly as often as it takes it, on every return path. *)
Lemma sw_step_wf {TS : TimeSource} (op : sw_op) (e : sw_env) (w : sw_world TS) :
  sw_wf w ->
  sw_wf (snd (sw_step op e w)) /\ held (snd (sw_step op e w)) = held w.
Proof. apply sw_step_keeps. Qed.

Lemma sw_step_wf_witness :
  let e := {| e_hw := {| rd_cyccnt := 7; rd_tick := 0 |};
              e_init := {| rd_cyccnt := 3; rd_tick := 0 |}; e_mutex := false |} in
  let w := @sw_boot (timebase_source 72000000 1) timebase_reset_state in
  sw_wf (snd (sw_step OpLap e w)).
Proof.
  intros e w. apply (sw_step_wf OpLap e w). split; [by split|by intros []].
Defined.

(** ** Refinement of the abstract stopwatch *)
Section Refinement.
Context {TS : TimeSource} {L : TimeSourceLaws TS}.
Implicit Types (w : sw_world TS) (s : Spec.t).

(** [w] implements [s], its clock last sampled at time [t]. *)
Record refines w s (t : Z) : Prop := {
  r_inited : g_inited w = 1;
  r_sync : ts_sync (tb w) t;
  r_state : state (g_sw w) = Spec.state_of s;
  r_acc : accumulated_ms (g_sw w) = u32 (sumZ (Spec.segments s));
  r_base : last_lap_total_ms (g_sw w) = u32 (Spec.base s);
  r_run : match Spec.running s with
          | Some s0 => state_start_us (g_sw w) = s0 /\ 0 < s0 <= ts_us t
          | None => True
          end;
  r_count : lap_count (g_sw w) = lenZ (Spec.visible s);
  r_len : length (lap_durations_ms (g_sw w)) = STOPWATCH_MAX_LAPS;
  r_laps : take (length (Spec.visible s)) (lap_durations_ms (g_sw w)) =
           map u32 (Spec.visible s)
}.

(** Whether [op] reads the clock in abstract state [s], and whether it
    starts a running segment. *)
Definition samples (op : sw_op) s : bool :=
  match op with
  | OpStart => bool_decide (Spec.running s = None)
  | OpStop | OpReset | OpLap | OpClearLaps | OpGetTotal =>
      bool_decide (Spec.running s <> None)
  | _ => false
  end.

Definition starts (op : sw_op) : bool :=
  match op with OpStart | OpReset => true | _ => false end.

(** The conditions under which one call at time [t'] is exact: its clock
    read is in the window of the previous one, and a segment does not start
    at microsecond 0 (the value the code uses for "not running"). *)
Definition op_ok (op : sw_op) s (e : sw_env) (t t' : Z) : Prop :=
  (if samples op s then
     ts_window t t' /\ ts_shows (e_hw e) t' /\ (starts op = true -> ts_us t' <> 0)
   else True) /\
  match op with OpGetLap i => 0 <= i | _ => True end.

Definition op_next (op : sw_op) s (t t' : Z) : Z := if samples op s then t' else t.

Fixpoint run_ok s (t : Z) (ops : list (sw_op * sw_env * Z)) : Prop :=
  match ops with
  | [] => True
  | (op, e, t') :: ops =>
      op_ok op s e t t' /\
      run_ok (snd (Spec.step op (ts_us t') s)) (op_next op s t t') ops
  end.

Lemma read_ok w s t hw t' :
  refines w s t -> ts_window t t' -> ts_shows hw t' ->
  exists sig, timebase_read hw w = (ts_us t', {| w with tb := sig |}) /\ ts_sync sig t'.
Proof.
  intros R Hw Hr. destruct (ts_get_us_ok _ t hw t' (r_sync _ _ _ R) Hw Hr) as [E1 E2].
  unfold timebase_read. destruct (ts_get_us hw (tb w)) as [us sig]. simpl in *. subst us.
  by exists sig.
Qed.

Lemma refines_sync w s t t' (sig : ts_state) :
  refines w s t -> ts_window t t' -> ts_sync sig t' -> refines {| w with tb := sig |} s t'.
Proof.
  intros [] Hw Hs. split; simpl; try done.
  destruct (Spec.running s); [|done].
  pose proof (ts_us_mono t t' (ts_window_le t t' Hw)). destruct r_run0; split; [done|lia].
Qed.

Lemma refines_lock w s t h : refines w s t -> refines {| w with held := h |} s t.
Proof. by intros []. Qed.

Lemma segment_u64 w s t hw t' (us0 : Z) :
  refines w s t -> ts_window t t' -> ts_shows hw t' -> Spec.running s = Some us0 ->
  u64 (ts_us t' - state_start_us (g_sw w)) = ts_us t' - us0.
Proof.
  intros R Hw Hr Hs. pose proof (r_run _ _ _ R) as Hrun. rewrite Hs in Hrun.
  destruct Hrun as [-> Hb].
  pose proof (ts_us_fits _ t hw t' (r_sync _ _ _ R) Hw Hr) as Hf.
  pose proof (ts_us_mono t t' (ts_window_le t t' Hw)).
  apply wrap_id. unfold fits in *. lia.
Qed.

(** The current total, running or not. *)
Lemma total_ok w s t hw t' :
  refines w s t -> (Spec.running s <> None -> ts_window t t' /\ ts_shows hw t') ->
  exists w1, get_now_total_ms_unsafe hw w = (u32 (Spec.total (ts_us t') s), w1) /\
    refines w1 s (if bool_decide (Spec.running s <> None) then t' else t) /\
    g_sw w1 = g_sw w.
Proof.
  intros R Hsam. unfold get_now_total_ms_unsafe, Spec.total.
  pose proof (r_state _ _ _ R) as Hst. pose proof (r_run _ _ _ R) as Hrun.
  unfold Spec.state_of in Hst. rewrite Hst, (r_acc _ _ _ R).
  destruct (Spec.running s) as [s0|] eqn:Es.
  - destruct Hsam as [Hw Hr]; [done|]. destruct Hrun as [Hs0 Hb].
    destruct (read_ok w s t hw t' R Hw Hr) as (sig & -> & Hsync).
    rewrite bool_decide_eq_true_2 by done. destruct (Z.eqb_spec (state_start_us (g_sw w)) 0); [lia|].
    simpl. rewrite (segment_u64 w s t hw t' s0) by done. rewrite wrap_add_l, wrap_add_r.
    eexists. split; [done|]. split; [|done]. eapply refines_sync; eauto.
  - rewrite bool_decide_eq_false_2 by (destruct (Spec.paused s); done).
    rewrite bool_decide_eq_false_2 by (intros Hn; by apply Hn). simpl.
    rewrite Z.add_0_r. by exists w.
Qed.

Lemma push_lap_ok s c d b :
  lap_count c = lenZ (Spec.visible s) ->
  length (lap_durations_ms c) = STOPWATCH_MAX_LAPS ->
  take (length (Spec.visible s)) (lap_durations_ms c) = map u32 (Spec.visible s) ->
  let s' := {| s with Spec.laps := Spec.laps s ++ [d]; Spec.base := b |} in
  let c' := push_lap (u32 d) c in
  lap_count c' = lenZ (Spec.visible s') /\
  take (length (Spec.visible s')) (lap_durations_ms c') = map u32 (Spec.visible s').
Proof.
  intros Hc Hl Ht s' c'. unfold c', push_lap. rewrite Hc.
  pose proof (length_lastn STOPWATCH_MAX_LAPS (Spec.laps s)) as Hlen.
  fold (Spec.visible s) in Hlen. unfold lenZ.
  destruct (Z.ltb_spec (Z.of_nat (length (Spec.visible s))) (Z.of_nat STOPWATCH_MAX_LAPS)) as [Hlt|Hge].
  - assert (Spec.visible s' = Spec.visible s ++ [d]) as ->.
    { apply lastn_snoc_lt. lia. }
    rewrite length_app, map_app, Nat.add_1_r. cbn [lap_count lap_durations_ms]. split.
    + rewrite wrap_id; unfold fits, STOPWATCH_MAX_LAPS in *; lia.
    + apply take_updZ_snoc; [lia|done].
  - assert (length (Spec.visible s) = 20%nat) as H20 by (unfold STOPWATCH_MAX_LAPS in *; lia).
    assert (Spec.visible s' = drop 1 (Spec.visible s) ++ [d]) as ->.
    { apply lastn_snoc_ge; unfold STOPWATCH_MAX_LAPS in *; lia. }
    rewrite length_app, length_drop, H20. cbn [lap_count lap_durations_ms].
    split; [by rewrite ?Hc, ?H20|].
    rewrite map_app, <- skipn_map.
    apply (take_arr_shift _ _ 19); [by rewrite Hl|]. by rewrite <- Ht, H20.
Qed.

Lemma ensure_init_done e w : g_inited w = 1 -> ensure_init e w = (RT_EOK, w).
Proof. intros H. unfold ensure_init. by rewrite H. Qed.

Lemma state_running w s t :
  refines w s t ->
  state (g_sw w) = STOPWATCH_STATE_RUNNING <-> Spec.running s <> None.
Proof.
  intros R. rewrite (r_state _ _ _ R). unfold Spec.state_of.
  destruct (Spec.running s); [naive_solver|]. destruct (Spec.paused s); naive_solver.
Qed.

(** [w'] answers as [s'] does. *)
Definition step_refines (op : sw_op) (e : sw_env) w s t t' : Prop :=
  fst (sw_step op e w) = out32 (fst (Spec.step op (ts_us t') s)) /\
  refines (snd (sw_step op e w)) (snd (Spec.step op (ts_us t') s)) (op_next op s t t').

Lemma start_refines e w s t t' :
  refines w s t -> op_ok OpStart s e t t' -> step_refines OpStart e w s t t'.
Proof.
  intros R [Hok _]. split; [done|]. simpl in *. unfold op_next, stopwatch_start. simpl.
  rewrite (ensure_init_done e w (r_inited _ _ _ R)). simpl.
  destruct (decide _) as [Hr|Hr]; rewrite (state_running w s t R) in Hr.
  - rewrite bool_decide_eq_false_2 by done. destruct (Spec.running s) eqn:Es; [|done].
    by apply (refines_lock _ s t), (refines_lock _ s t).
  - assert (Spec.running s = None) as Es by (destruct (Spec.running s); naive_solver).
    rewrite Es in *. rewrite bool_decide_eq_true_2 in * by done.
    destruct Hok as (Hw & Hs & Hne).
    destruct (read_ok (swlock_take w) s t (e_hw e) t') as (sig & Er & Hsync); try done.
    { by apply refines_lock. }
    rewrite Er. specialize (Hne eq_refl).
    pose proof (ts_us_fits _ t (e_hw e) t' (r_sync _ _ _ R) Hw Hs) as Hf. unfold fits in Hf.
    destruct R as [? ? ? Ra Rb ? Rc Rl Rt]. split; simpl; try done. split; [done|lia].
Qed.

Lemma stop_refines e w s t t' :
  refines w s t -> op_ok OpStop s e t t' -> step_refines OpStop e w s t t'.
Proof.
  intros R [Hok _]. split; [done|]. simpl in *. unfold op_next, stopwatch_stop. simpl.
  rewrite (ensure_init_done e w (r_inited _ _ _ R)). simpl.
  destruct (decide _) as [Hr|Hr]; rewrite (state_running w s t R) in Hr.
  - rewrite bool_decide_eq_true_2 in * by done. destruct Hok as (Hw & Hs & _).
    destruct (Spec.running s) as [us0|] eqn:Es; [|done].
    pose proof (r_run _ _ _ R) as Hrun. rewrite Es in Hrun. destruct Hrun as [Hus Hb].
    destruct (Z.eqb_spec (state_start_us (g_sw w)) 0); [lia|]. simpl.
    destruct (read_ok (swlock_take w) s t (e_hw e) t') as (sig & Er & Hsync); try done.
    { by apply refines_lock. }
    rewrite Er. simpl. rewrite (segment_u64 w s t (e_hw e) t' us0) by done.
    destruct R as [? ? ? Ra Rb ? Rc Rl Rt]. split; simpl; try done.
    rewrite Ra, sumZ_app, wrap_add_l, wrap_add_r. simpl. f_equal. lia.
  - rewrite bool_decide_eq_false_2 by done. destruct (Spec.running s) eqn:Es; [by destruct Hr; intros ?|].
    by apply (refines_lock _ s t), (refines_lock _ s t).
Qed.

Lemma reset_refines e w s t t' :
  refines w s t -> op_ok OpReset s e t t' -> step_refines OpReset e w s t t'.
Proof.
  intros R [Hok _]. split; [done|]. simpl in *. unfold op_next, stopwatch_reset. simpl.
  rewrite (ensure_init_done e w (r_inited _ _ _ R)). simpl.
  destruct (decide _) as [Hr|Hr]; rewrite (state_running w s t R) in Hr.
  - rewrite bool_decide_eq_true_2 in * by done. destruct Hok as (Hw & Hs & Hne).
    destruct (read_ok (swlock_take w) s t (e_hw e) t') as (sig & Er & Hsync); try done.
    { by apply refines_lock. }
    rewrite Er. specialize (Hne eq_refl).
    pose proof (ts_us_fits _ t (e_hw e) t' (r_sync _ _ _ R) Hw Hs) as Hf. unfold fits in Hf.
    pose proof (state_running w s t R) as Hst.
    destruct R as [? ? ? Ra Rb ? Rc Rl Rt].
    destruct (Spec.running s) as [us0|] eqn:Es; [|done]. split; simpl; try done.
    + by apply Hst.
    + split; [done|lia].
  - rewrite bool_decide_eq_false_2 by done. destruct (Spec.running s) eqn:Es; [by destruct Hr; intros ?|].
    destruct R as [? ? ? Ra Rb ? Rc Rl Rt]. split; simpl; done.
Qed.

Lemma lap_refines e w s t t' :
  refines w s t -> op_ok OpLap s e t t' -> step_refines OpLap e w s t t'.
Proof.
  intros R [Hok _]. unfold step_refines. simpl in *. unfold op_next, stopwatch_lap. simpl.
  rewrite (ensure_init_done e w (r_inited _ _ _ R)). simpl.
  destruct (total_ok (swlock_take w) s t (e_hw e) t') as (w1 & -> & R1 & Hg).
  { by apply refines_lock. }
  { intros Hn. rewrite bool_decide_eq_true_2 in Hok by done. by destruct Hok as (? & ? & _). }
  simpl. rewrite (r_base _ _ _ R1), wrap_sub_l, wrap_sub_r. split; [done|].
  destruct R1 as [? ? Rst Ra Rb Rr Rc Rl Rt].
  destruct (push_lap_ok s (g_sw w1) (Spec.total (ts_us t') s - Spec.base s)
              (Spec.total (ts_us t') s) Rc Rl Rt) as [Hc Ht].
  split; simpl; try done; unfold push_lap in *; case_cmp; simpl; try done;
    unfold updZ; by rewrite length_insert, ?arr_move_length by (rewrite Rl; unfold STOPWATCH_MAX_LAPS; lia).
Qed.

Lemma clear_refines e w s t t' :
  refines w s t -> op_ok OpClearLaps s e t t' -> step_refines OpClearLaps e w s t t'.
Proof.
  intros R [Hok _]. split; [done|]. simpl in *. unfold op_next, stopwatch_clear_laps. simpl.
  rewrite (r_inited _ _ _ R). simpl.
  set (s0 := {| s with Spec.laps := [] |}).
  destruct (total_ok (set_ctx {| (g_sw w) with lap_count := 0 |} (swlock_take w)) s0 t
              (e_hw e) t') as (w1 & -> & R1 & Hg).
  { destruct R as [? ? ? Ra Rb ? Rc Rl Rt]. by split. }
  { intros Hn. rewrite bool_decide_eq_true_2 in Hok by done. by destruct Hok as (? & ? & _). }
  destruct R1 as [? ? Rst Ra Rb Rr Rc Rl Rt]. by split.
Qed.

Lemma total_refines e w s t t' :
  refines w s t -> op_ok OpGetTotal s e t t' -> step_refines OpGetTotal e w s t t'.
Proof.
  intros R [Hok _]. unfold step_refines. simpl in *.
  unfold op_next, stopwatch_get_total_ms. simpl. rewrite (r_inited _ _ _ R). simpl.
  destruct (total_ok (swlock_take w) s t (e_hw e) t') as (w1 & -> & R1 & Hg).
  { by apply refines_lock. }
  { intros Hn. rewrite bool_decide_eq_true_2 in Hok by done. by destruct Hok as (? & ? & _). }
  split; [done|]. by apply (refines_lock _ s).
Qed.

(** Entry [i] of the table, for [i] below the lap count. *)
Lemma lap_entry w s t i :
  refines w s t -> 0 <= i < lap_count (g_sw w) ->
  nthZ 0 (lap_durations_ms (g_sw w)) i = u32 (nthZ 0 (Spec.visible s) i).
Proof.
  intros R Hi. rewrite (r_count _ _ _ R) in Hi. unfold lenZ in Hi. unfold nthZ.
  change 0 with (u32 0) at 2. rewrite <- (map_nth u32), <- (r_laps _ _ _ R).
  rewrite !nth_lookup, lookup_take_lt by lia. done.
Qed.

Lemma latest_entry (v : list Z) :
  0 < lenZ v -> nthZ 0 v (lenZ v - 1) = default 0 (last v).
Proof.
  unfold lenZ, nthZ. intros Hv. rewrite last_lookup, nth_lookup. do 2 f_equal. lia.
Qed.

Lemma query_refines op e w s t t' :
  refines w s t -> op_ok op s e t t' ->
  match op with OpGetState | OpGetCount | OpGetLap _ | OpGetLatest => True | _ => False end ->
  step_refines op e w s t t'.
Proof.
  intros R [_ Hok] Hop. pose proof (r_inited _ _ _ R) as Hi. unfold step_refines.
  assert (refines (swlock_release (swlock_take w)) s t) as Rl.
  { by apply refines_lock, refines_lock. }
  pose proof (r_count _ _ _ R) as Hc.
  assert (0 <= lenZ (Spec.visible s) <= 20) as Hv.
  { unfold lenZ, Spec.visible. rewrite length_lastn. unfold STOPWATCH_MAX_LAPS. lia. }
  destruct op; try done; simpl in Hok |- *;
    unfold stopwatch_get_state, stopwatch_get_lap_count, stopwatch_get_lap_ms,
      stopwatch_get_latest_lap_ms; rewrite Hi; simpl; (split; [|exact Rl]); f_equal.
  - apply (r_state _ _ _ R).
  - rewrite Hc, wrap_id; [done|]. unfold fits. lia.
  - case_cmp; [by apply (lap_entry w s t)|]. unfold nthZ.
    rewrite nth_overflow; [done|]. unfold lenZ in *. lia.
  - rewrite Hc. case_cmp.
    + rewrite (lap_entry w s t) by (done || lia). by rewrite latest_entry.
    + destruct (Spec.visible s); [done|]. unfold lenZ in *. simpl in *. lia.
Qed.

Lemma sw_step_refines op e w s t t' :
  refines w s t -> op_ok op s e t t' -> step_refines op e w s t t'.
Proof.
  intros R Hok. destruct op.
  - by apply start_refines.
  - by apply stop_refines.
  - by apply reset_refines.
  - by apply lap_refines.
  - by apply clear_refines.
  - by apply query_refines.
  - by apply total_refines.
  - by apply query_refines.
  - by apply query_refines.
  - by apply query_refines.
Qed.
End Refinement.

(** C5: the service implements the abstract stopwatch. Started in related
    states, any sequence of calls whose clock reads stay inside the time
    source's window answers exactly (on 32 bits) what the unbounded stopwatch
    answers: totals are the completed running segments plus the current one,
    pauses do not count, laps are the differences between successive totals
    and the table is the twenty latest of them. *)
Theorem stopwatch_refines_spec {TS : TimeSource} {L : TimeSourceLaws TS}
    (ops : list (sw_op * sw_env * Z)) (w : sw_world TS) (s : Spec.t) (t : Z) :
  refines w s t -> run_ok s t ops ->
  fst (sw_run (map (fun x => (x.1.1, x.1.2)) ops) w) =
  map out32 (fst (Spec.run (map (fun x => (x.1.1, ts_us x.2)) ops) s)).
Proof.
  revert w s t. induction ops as [|[[op e] t'] ops IH]; intros w s t R H; [done|].
  destruct H as [Hok H]. destruct (sw_step_refines op e w s t t' R Hok) as [Ho R'].
  simpl in *. destruct (sw_step op e w) as [o w1]. destruct (Spec.step op (ts_us t') s) as [o' s1].
  simpl in *. specialize (IH w1 s1 _ R' H).
  destruct (sw_run _ w1) as [os w2]. destruct (Spec.run _ s1) as [os' s2].
  simpl in *. by rewrite Ho, IH.
Qed.

(** The clock, counter and calls of the witnesses below: 72 MHz, counter
    cleared 72 cycles before initialisation. *)
Definition demo_env (cyc : Z) : sw_env :=
  {| e_hw := {| rd_cyccnt := u32 cyc; rd_tick := 0 |};
     e_init := {| rd_cyccnt := 72; rd_tick := 0 |}; e_mutex := true |}.

Definition demo_world : sw_world (timebase_source 72000000 1) :=
  snd (stopwatch_init (demo_env 0) (sw_boot (TS := timebase_source 72000000 1) timebase_reset_state)).

(** Initialisation from the boot state establishes the refinement. *)
Lemma boot_refines (hz t0 : Z) (Hz : 0 < hz) (e : sw_env) (s : timebase) :
  e_mutex e = true -> shows_cycles (e_init e) t0 ->
  @refines _ (timebase_dwt_laws hz t0 Hz)
    (snd (stopwatch_init e (sw_boot (TS := timebase_source hz 1) s))) Spec.zero t0.
Proof.
  intros He Hr. unfold stopwatch_init. simpl. rewrite He. simpl.
  split; simpl; try done. by apply timebase_init_sync.
Qed.

Definition demo_laws := timebase_dwt_laws 72000000 72 eq_refl.

Lemma stopwatch_refines_spec_witness :
  fst (sw_run (map (fun x => (x.1.1, x.1.2))
    [ (OpStart, demo_env 72072, 72072); (OpLap, demo_env 144072072, 144072072);
      (OpStop, demo_env 216072072, 216072072); (OpGetTotal, demo_env 0, 0) ]) demo_world) =
  [OutUnit; OutLap 0 (Some 2000); OutUnit; OutVal 3000].
Proof.
  etransitivity.
  - apply (@stopwatch_refines_spec _ demo_laws _ _ Spec.zero 72).
    + apply boot_refines; done.
    + repeat split; vm_compute; congruence.
  - vm_compute. reflexivity.
Defined.

(** ** Consequences *)

(** The laps the calls report since the last reset, oldest first. *)
Fixpoint reported (ops : list sw_op) (outs : list sw_out) (acc : list Z) : list Z :=
  match ops, outs with
  | OpReset :: ops, _ :: outs => reported ops outs []
  | OpLap :: ops, OutLap _ (Some d) :: outs => reported ops outs (acc ++ [d])
  | _ :: ops, _ :: outs => reported ops outs acc
  | _, _ => acc
  end.

Definition no_clear (op : sw_op) : bool :=
  match op with OpClearLaps => false | _ => true end.

(** As long as the laps are not cleared, the lap times the service has
    reported since the last reset add up (modulo 2^32) to the total at the
    last lap, so nothing is lost or counted twice between laps, across pauses
    and however many laps the table has dropped. *)
Lemma laps_partition_total {TS : TimeSource} {L : TimeSourceLaws TS}
    (ops : list (sw_op * sw_env * Z)) (w : sw_world TS) (s : Spec.t) (t : Z) (acc : list Z) :
  refines w s t -> run_ok s t ops -> forallb (fun x => no_clear x.1.1) ops = true ->
  eqm 32 (sumZ acc) (Spec.base s) ->
  let r := sw_run (map (fun x => (x.1.1, x.1.2)) ops) w in
  eqm 32 (sumZ (reported (map (fun x => x.1.1) ops) (fst r) acc))
         (last_lap_total_ms (g_sw (snd r))).
Proof.
  revert w s t acc. induction ops as [|[[op e] t'] ops IH]; intros w s t acc R H Hn Ha.
  { simpl. by rewrite (r_base _ _ _ R), Ha, eqm_wrap. }
  destruct H as [Hok H]. destruct (sw_step_refines op e w s t t' R Hok) as [Ho R'].
  simpl in Hn. apply andb_prop in Hn as [Hop Hn]. simpl.
  destruct (sw_step op e w) as [o w1] eqn:Eo. simpl in Ho, R'.
  assert (eqm 32 (sumZ (reported [op] [o] acc)) (Spec.base (snd (Spec.step op (ts_us t') s)))) as Hstep.
  { rewrite Ho. destruct op; try done; simpl; try (by rewrite Ha); try (by destruct (Spec.running s)).
    rewrite sumZ_app. simpl. rewrite eqm_wrap, Z.add_0_r, Ha. unfold eqm. f_equal. lia. }
  specialize (IH w1 _ _ (reported [op] [o] acc) R' H Hn Hstep). simpl in IH.
  destruct (sw_run _ w1) as [os w2]. simpl in *.
  destruct op; try done; simpl in *; rewrite Ho in *; exact IH.
Qed.

Lemma laps_partition_total_witness :
  let r := sw_run [ (OpStart, demo_env 72072); (OpLap, demo_env 144072072);
                    (OpLap, demo_env 216072072) ] demo_world in
  eqm 32 (2000 + (1000 + 0)) (last_lap_total_ms (g_sw (snd r))).
Proof.
  apply (@laps_partition_total _ demo_laws
    [ (OpStart, demo_env 72072, 72072); (OpLap, demo_env 144072072, 144072072);
      (OpLap, demo_env 216072072, 216072072) ] demo_world Spec.zero 72 []).
  - apply boot_refines; done.
  - repeat split; vm_compute; congruence.
  - reflexivity.
  - reflexivity.
Defined.

(** The service uses start time 0 to mean "no start time", so a start at
    which the clock still reads 0 us (within the first microsecond after
    initialisation) leaves the stopwatch RUNNING with a total that never
    advances, whatever the clock says later. *)
Lemma start_at_zero_stuck {TS : TimeSource} (e e' : sw_env) (w : sw_world TS) :
  g_inited w <> 0 -> state (g_sw w) <> STOPWATCH_STATE_RUNNING ->
  fst (ts_get_us (e_hw e) (tb w)) = 0 ->
  let w1 := stopwatch_start e w in
  state (g_sw w1) = STOPWATCH_STATE_RUNNING /\
  fst (stopwatch_get_total_ms e' w1) = accumulated_ms (g_sw w).
Proof.
  intros Hi Hs H0. unfold stopwatch_start, ensure_init.
  destruct (Z.eqb_spec (g_inited w) 0) as [?|_]; [done|]. simpl.
  rewrite decide_False by done. unfold timebase_read. simpl.
  destruct (ts_get_us (e_hw e) (tb w)) as [us sig]. simpl in H0. subst us. split; [done|].
  unfold stopwatch_get_total_ms. simpl. destruct (Z.eqb_spec (g_inited w) 0) as [?|_]; [done|].
  reflexivity.
Qed.

Lemma start_at_zero_stuck_witness :
  fst (stopwatch_get_total_ms (demo_env 7200000000) (stopwatch_start (demo_env 100) demo_world)) = 0.
Proof.
  apply (start_at_zero_stuck (demo_env 100) (demo_env 7200000000) demo_world);
    vm_compute; congruence.
Defined.
