(* ===== verification/Kservice.v ===== *)
(** * Kernel service routines on memory and strings (rt-thread/src/kservice.c)

    The routines of kservice.c that the rest of the system is written with,
    over a flat byte memory ([mem]).  The code is the non-TINY_SIZE branch for
    a 32-bit little-endian target: [sizeof(long)] is 4 and [char] is unsigned.
    Loops carry fuel; each theorem shows that the stated fuel is enough. *)
From S2P Require Import Prelude.

(** ** Memory routines *)
Definition LBLOCKSIZE : Z := 4.

(** A pointer that moves while a counter runs down. *)
Record cursor := { dst_ptr : Z; src_ptr : Z; left : Z; bytes_of : mem }.

Definition memset_word (buffer : Z) (c : cursor) : cursor :=
  {| c with dst_ptr := dst_ptr c + LBLOCKSIZE;
            bytes_of := store32 (dst_ptr c) buffer (bytes_of c) |}.

Definition memset_buffer (d : Z) : Z :=
  let buffer := u32 (Z.lor (Z.shiftl d 8) d) in
  u32 (Z.lor buffer (Z.shiftl buffer 16)).

Definition rt_memset (s c count : Z) (m : mem) : mem :=
  let d := Z.land c 255 in
  let fuel := Z.to_nat count in
  let st := {| dst_ptr := s; src_ptr := 0; left := count; bytes_of := m |} in
  let st :=
    if (LBLOCKSIZE <=? count) && (Z.land s (LBLOCKSIZE - 1) =? 0) then
      let buffer := memset_buffer d in
      let st := while fuel (fun st => LBLOCKSIZE * 4 <=? left st)
        (fun st =>
           let st := memset_word buffer (memset_word buffer
                       (memset_word buffer (memset_word buffer st))) in
           {| st with left := left st - 4 * LBLOCKSIZE |}) st in
      while fuel (fun st => LBLOCKSIZE <=? left st)
        (fun st =>
           let st := memset_word buffer st in
           {| st with left := left st - LBLOCKSIZE |}) st
    else st in
  let st := while fuel (fun st => negb (left st =? 0))
    (fun st => {| st with dst_ptr := dst_ptr st + 1; left := left st - 1;
                          bytes_of := store8 (dst_ptr st) d (bytes_of st) |}) st in
  bytes_of st.

Definition copy_word (c : cursor) : cursor :=
  {| c with dst_ptr := dst_ptr c + LBLOCKSIZE; src_ptr := src_ptr c + LBLOCKSIZE;
            bytes_of := store32 (dst_ptr c) (load32 (src_ptr c) (bytes_of c)) (bytes_of c) |}.

Definition copy_byte (c : cursor) : cursor :=
  {| dst_ptr := dst_ptr c + 1; src_ptr := src_ptr c + 1; left := left c - 1;
            bytes_of := store8 (dst_ptr c) (bytes_of c (src_ptr c)) (bytes_of c) |}.

Definition rt_memcpy (dst src count : Z) (m : mem) : mem :=
  let fuel := Z.to_nat count in
  let st := {| dst_ptr := dst; src_ptr := src; left := count; bytes_of := m |} in
  let st :=
    if (4 * LBLOCKSIZE <=? count) &&
       (Z.lor (Z.land src (LBLOCKSIZE - 1)) (Z.land dst (LBLOCKSIZE - 1)) =? 0) then
      let st := while fuel (fun st => 4 * LBLOCKSIZE <=? left st)
        (fun st =>
           let st := copy_word (copy_word (copy_word (copy_word st))) in
           {| st with left := left st - 4 * LBLOCKSIZE |}) st in
      while fuel (fun st => LBLOCKSIZE <=? left st)
        (fun st => let st := copy_word st in {| st with left := left st - LBLOCKSIZE |}) st
    else st in
  bytes_of (while fuel (fun st => negb (left st =? 0)) copy_byte st).

Definition copy_byte_down (c : cursor) : cursor :=
  {| dst_ptr := dst_ptr c - 1; src_ptr := src_ptr c - 1; left := left c - 1;
            bytes_of := store8 (dst_ptr c - 1) (bytes_of c (src_ptr c - 1)) (bytes_of c) |}.

Definition rt_memmove (dest src n : Z) (m : mem) : mem :=
  let fuel := Z.to_nat n in
  if (src <? dest) && (dest <? src + n) then
    bytes_of (while fuel (fun st => negb (left st =? 0)) copy_byte_down
      {| dst_ptr := dest + n; src_ptr := src + n; left := n; bytes_of := m |})
  else
    bytes_of (while fuel (fun st => negb (left st =? 0)) copy_byte
      {| dst_ptr := dest; src_ptr := src; left := n; bytes_of := m |}).

Fixpoint memcmp_loop (fuel : nat) (m : mem) (su1 su2 count : Z) : Z :=
  match fuel with
  | O => 0
  | S fuel =>
      if 0 <? count then
        let res := m su1 - m su2 in
        if negb (res =? 0) then res else memcmp_loop fuel m (su1 + 1) (su2 + 1) (count - 1)
      else 0
  end.

Definition rt_memcmp (m : mem) (cs ct count : Z) : Z :=
  memcmp_loop (Z.to_nat count) m cs ct count.

(** ** String routines *)
Definition rt_strlen (fuel : nat) (m : mem) (s : Z) : Z :=
  while fuel (fun sc => negb (m sc =? 0)) (fun sc => sc + 1) s - s.

Definition rt_strnlen (m : mem) (s maxlen : Z) : Z :=
  while (Z.to_nat maxlen) (fun sc => negb (m sc =? 0) && (sc - s <? maxlen))
    (fun sc => sc + 1) s - s.

Definition rt_strcmp (fuel : nat) (m : mem) (cs ct : Z) : Z :=
  let i := while fuel (fun i => negb (m (cs + i) =? 0) && (m (cs + i) =? m (ct + i)))
             (fun i => i + 1) 0 in
  m (cs + i) - m (ct + i).

(** [__res] is a signed char. *)
Fixpoint strncmp_loop (n : nat) (m : mem) (cs ct : Z) : Z :=
  match n with
  | O => 0
  | S n =>
      let res := i8 (m cs - m ct) in
      if negb (res =? 0) then res
      else if m cs =? 0 then res
      else strncmp_loop n m (cs + 1) (ct + 1)
  end.

Definition rt_strncmp (m : mem) (cs ct count : Z) : Z :=
  strncmp_loop (Z.to_nat count) m cs ct.

Definition lower (c : Z) : Z := if (65 <=? c) && (c <=? 90) then c + 32 else c.

Fixpoint strcasecmp_loop (fuel : nat) (m : mem) (a b : Z) : Z :=
  match fuel with
  | O => 0
  | S fuel =>
      let ca := lower (Z.land (m a) 255) in
      let cb := lower (Z.land (m b) 255) in
      if (ca =? cb) && negb (ca =? 0) then strcasecmp_loop fuel m (a + 1) (b + 1)
      else ca - cb
  end.

Definition rt_strcasecmp := strcasecmp_loop.

(** The result: the address of the match, or [None] for RT_NULL. *)
Fixpoint strstr_loop (fuel : nat) (m : mem) (s1 s2 l1 l2 : Z) : option Z :=
  match fuel with
  | O => None
  | S fuel =>
      if l2 <=? l1 then
        if rt_memcmp m s1 s2 l2 =? 0 then Some s1
        else strstr_loop fuel m (s1 + 1) s2 (l1 - 1) l2
      else None
  end.

Definition rt_strstr (fuel : nat) (m : mem) (s1 s2 : Z) : option Z :=
  let l2 := rt_strlen fuel m s2 in
  if l2 =? 0 then Some s1
  else let l1 := rt_strlen fuel m s1 in strstr_loop (S fuel) m s1 s2 l1 l2.

(** The padding loop [while (--n != 0) *d++ = 0;]. *)
Fixpoint strncpy_pad (fuel : nat) (d n : Z) (m : mem) : mem :=
  match fuel with
  | O => m
  | S fuel =>
      let n := n - 1 in
      if negb (n =? 0) then strncpy_pad fuel (d + 1) n (store8 d 0 m) else m
  end.

Fixpoint strncpy_loop (fuel : nat) (d s n : Z) (m : mem) : mem :=
  match fuel with
  | O => m
  | S fuel =>
      let c := m s in
      let m := store8 d c m in
      if c =? 0 then strncpy_pad fuel (d + 1) n m
      else
        let n := n - 1 in
        if negb (n =? 0) then strncpy_loop fuel (d + 1) (s + 1) n m else m
  end.

Definition rt_strncpy (dst src n : Z) (m : mem) : mem :=
  if negb (n =? 0) then strncpy_loop (Z.to_nat n) dst src n m else m.

(** ** rt_memset *)
Lemma memset_buffer_byte d i :
  0 <= d < 256 -> 0 <= i < 4 -> u8 (memset_buffer d / 2 ^ (8 * i)) = d.
Proof.
  intros Hd Hi.
  assert (all_below 256 (fun d => all_below 4 (fun i =>
            u8 (memset_buffer d / 2 ^ (8 * i)) =? d)) = true) as H by (vm_compute; reflexivity).
  apply (all_below_spec 256) with (x := d) in H; [|lia].
  apply (all_below_spec 4) with (x := i) in H; [|lia]. lia.
Qed.

(** Everything from [s] to the pointer of [st] holds [d], the rest is as in [m]. *)
Definition filled (s d : Z) (m : mem) (st : cursor) : Prop :=
  s <= dst_ptr st /\
  forall x, bytes_of st x = if in_range s (dst_ptr st - s) x then d else m x.

Definition memset_inv (s count d : Z) (m : mem) (st : cursor) : Prop :=
  filled s d m st /\ 0 <= left st /\ dst_ptr st + left st = s + count.

Lemma memset_word_filled s d m st :
  0 <= d < 256 -> filled s d m st -> filled s d m (memset_word (memset_buffer d) st).
Proof.
  intros Hd [Hs Hm]. split; simpl; unfold LBLOCKSIZE in *; [lia|].
  intros x. rewrite store32_at, Hm.
  destruct (in_range (dst_ptr st) 4 x) eqn:E1; destruct (in_range s (_ + 4 - s) x) eqn:E2;
    destruct (in_range s (dst_ptr st - s) x) eqn:E3; unfold in_range in *; try lia; try done;
    apply memset_buffer_byte; (done || lia).
Qed.

Lemma memset_byte_step s count d m y :
  0 <= d < 256 -> memset_inv s count d m y -> left y <> 0 ->
  memset_inv s count d m
    {| y with dst_ptr := dst_ptr y + 1; left := left y - 1;
              bytes_of := store8 (dst_ptr y) d (bytes_of y) |}.
Proof.
  intros Hd ([Hs Hm] & ? & ?) Hc. repeat split; simpl; try lia.
  intros x. unfold store8. rewrite Hm, wrap_id by (unfold fits; lia).
  unfold in_range. repeat case_cmp; simpl; lia || done.
Qed.

Lemma memset_word_step s count d m y :
  0 <= d < 256 -> memset_inv s count d m y -> LBLOCKSIZE <= left y ->
  let y' := memset_word (memset_buffer d) y in
  memset_inv s count d m {| y' with left := left y' - LBLOCKSIZE |}.
Proof.
  intros Hd (Hm & ? & ?) Hc. split; [by apply memset_word_filled|].
  simpl. unfold LBLOCKSIZE in *. lia.
Qed.

Lemma memset_words_step s count d m y :
  0 <= d < 256 -> memset_inv s count d m y -> LBLOCKSIZE * 4 <= left y ->
  let b := memset_buffer d in
  let y' := memset_word b (memset_word b (memset_word b (memset_word b y))) in
  memset_inv s count d m {| y' with left := left y' - 4 * LBLOCKSIZE |}.
Proof.
  intros Hd (Hm & ? & ?) Hc. split; [do 4 (apply memset_word_filled; [done|]); done|].
  simpl. unfold LBLOCKSIZE in *. lia.
Qed.

(** C36: the word-at-a-time rt_memset, for any alignment and any length, is the
    byte-at-a-time definition: it sets the bytes of [s, s + count) to the low
    byte of [c] and no other. *)
Theorem rt_memset_spec (s c count : Z) (m : mem) :
  0 <= count ->
  forall x, rt_memset s c count m x = if in_range s count x then c mod 256 else m x.
Proof.
  intros Hc x. unfold rt_memset.
  change 255 with (Z.ones 8). rewrite Z.land_ones by lia. change (2 ^ 8) with 256.
  set (d := c mod 256). assert (0 <= d < 256) as Hd by (unfold d; dlia).
  set (st0 := {| dst_ptr := s; src_ptr := 0; left := count; bytes_of := m |}).
  set (I := memset_inv s count d m).
  assert (I st0) as H0.
  { repeat split; simpl; try lia. intros z. unfold in_range. repeat case_cmp; simpl; lia || done. }
  cut (forall st, I st -> left st <= count -> bytes_of
     (while (Z.to_nat count) (fun st => negb (left st =? 0))
        (fun st => {| st with dst_ptr := dst_ptr st + 1; left := left st - 1;
                              bytes_of := store8 (dst_ptr st) d (bytes_of st) |}) st) x =
     (if in_range s count x then d else m x)).
  { intros Hbyte. destruct (_ && _); [|apply Hbyte; [done|unfold st0; simpl; lia]].
    while_inv I (fun st => Z.to_nat (left st)) st1; [| |unfold st0; simpl; lia|].
    { intros y Hy Hcy. cbv beta in Hcy. apply Z.leb_le in Hcy.
      split; [by apply memset_words_step|]. destruct Hy as (_ & ? & ?).
      unfold LBLOCKSIZE in *. simpl. lia. }
    { done. }
    while_inv I (fun st => Z.to_nat (left st)) st2; [|done| |].
    { intros y Hy Hcy. cbv beta in Hcy. apply Z.leb_le in Hcy.
      split; [by apply memset_word_step|]. destruct Hy as (_ & ? & ?).
      unfold LBLOCKSIZE in *. simpl. lia. }
    { destruct Hinv as ([? _] & ? & ?). lia. }
    apply Hbyte; [done|]. destruct Hinv0 as ([? _] & ? & ?). lia. }
  intros st Hst Hl.
  while_inv I (fun st => Z.to_nat (left st)) st3; [|done|lia|].
  { intros y Hy Hcy. cbv beta in Hcy. apply negb_true_iff, Z.eqb_neq in Hcy.
    split; [by apply memset_byte_step|]. destruct Hy as (_ & ? & ?). simpl. lia. }
  apply negb_false_iff, Z.eqb_eq in Hend. destruct Hinv as ([? ->] & ? & ?).
  by replace (dst_ptr st3 - s) with count by lia.
Qed.

Lemma rt_memset_spec_witness : rt_memset 6 0x141 37 (fun _ => 0) 42 = 0x41.
Proof. rewrite (rt_memset_spec 6 0x141 37 (fun _ => 0)); [reflexivity|lia]. Defined.

(** ** rt_memcpy and rt_memmove *)
Section Copy.
Context (dst src count : Z) (m : mem) (Hm : mem_ok m) (Hc : 0 <= count).

(** Copying upwards is safe when the destination does not start inside the
    source. *)
Definition forward_safe : Prop := ~ (src < dst < src + count).

Record copied (st : cursor) : Prop := {
  cp_ptr : src_ptr st - src = dst_ptr st - dst;
  cp_dst : dst <= dst_ptr st;
  cp_left : 0 <= left st /\ dst_ptr st + left st = dst + count;
  cp_mem : forall x, bytes_of st x =
    if in_range dst (dst_ptr st - dst) x then m (x - dst + src) else m x
}.

Lemma copied_ok st : copied st -> mem_ok (bytes_of st).
Proof. intros [_ _ _ H] x. rewrite H. by destruct (in_range _ _ _). Qed.

(** The bytes still to be read are unchanged. *)
Lemma copied_source st i :
  forward_safe -> copied st -> 0 <= i < left st ->
  bytes_of st (src_ptr st + i) = m (src_ptr st + i).
Proof.
  unfold forward_safe. intros Hs [H1 H2 H3 H4] Hi. rewrite H4.
  destruct (in_range _ _ _) eqn:E; [|done]. apply in_range_spec in E. lia.
Qed.

Lemma copy_byte_copied st : forward_safe -> copied st -> left st <> 0 -> copied (copy_byte st).
Proof.
  intros Hs H Hl. pose proof (copied_source st 0 Hs H) as Hsrc. rewrite Z.add_0_r in Hsrc.
  destruct H as [H1 H2 H3 H4]. split; simpl; try lia. intros x.
  unfold store8. rewrite Hsrc, wrap_id, H4 by (apply Hm || lia).
  unfold in_range. repeat case_cmp; simpl; try (done || lia). f_equal. lia.
Qed.

(** One word: [k] bytes have already been copied in this round. *)
Lemma copy_word_copied st :
  forward_safe -> copied st -> LBLOCKSIZE <= left st ->
  copied {| (copy_word st) with left := left st - LBLOCKSIZE |}.
Proof.
  intros Hs H Hl. pose proof (copied_ok st H) as Hok.
  assert (forall i, 0 <= i < 4 -> u8 (load32 (src_ptr st) (bytes_of st) / 2 ^ (8 * i)) =
            m (src_ptr st + i)) as Hw.
  { intros i Hi. rewrite load32_byte by done. apply copied_source; try done.
    unfold LBLOCKSIZE in Hl. lia. }
  destruct H as [H1 H2 H3 H4]. unfold LBLOCKSIZE in *. split; simpl; unfold LBLOCKSIZE; try lia.
  intros x. rewrite store32_at, H4.
  destruct (in_range (dst_ptr st) 4 x) eqn:E1;
    destruct (in_range dst (dst_ptr st + 4 - dst) x) eqn:E2;
    destruct (in_range dst (dst_ptr st - dst) x) eqn:E3; unfold in_range in *; try lia; try done;
    (rewrite Hw by lia; f_equal; lia).
Qed.

Lemma copy_words_copied st :
  forward_safe -> copied st -> 4 * LBLOCKSIZE <= left st ->
  let st' := copy_word (copy_word (copy_word (copy_word st))) in
  copied {| st' with left := left st' - 4 * LBLOCKSIZE |}.
Proof.
  intros Hs H Hl. unfold LBLOCKSIZE in *.
  do 4 (apply copy_word_copied in H; [|done|unfold LBLOCKSIZE; simpl in *; lia]).
  unfold LBLOCKSIZE in *. simpl in *.
  replace (left st - 4 - 4 - 4 - 4) with (left st - 16) in H by lia. exact H.
Qed.

Definition copied_all (m' : mem) : Prop :=
  forall x, m' x = if in_range dst count x then m (x - dst + src) else m x.

Lemma copy_byte_loop st :
  forward_safe -> copied st ->
  copied_all (bytes_of (while (Z.to_nat count) (fun st => negb (left st =? 0)) copy_byte st)).
Proof.
  intros Hs H x. while_inv copied (fun st => Z.to_nat (left st)) st1; [|done| |].
  { intros y Hy Hcy. apply negb_true_iff, Z.eqb_neq in Hcy.
    split; [by apply copy_byte_copied|]. destruct Hy as [_ _ [? ?] _]. simpl. lia. }
  { destruct H as [_ ? [? ?] _]. lia. }
  apply negb_false_iff, Z.eqb_eq in Hend. destruct Hinv as [H1 H2 H3 ->].
  by replace (dst_ptr st1 - dst) with count by lia.
Qed.

Lemma copied_start :
  copied {| dst_ptr := dst; src_ptr := src; left := count; bytes_of := m |}.
Proof.
  split; simpl; try lia. intros x. unfold in_range. repeat case_cmp; simpl; done || lia.
Qed.

Lemma rt_memcpy_copies : forward_safe -> copied_all (rt_memcpy dst src count m).
Proof.
  intros Hs. unfold rt_memcpy. pose proof copied_start as H0. revert H0.
  set (st0 := {| dst_ptr := dst |}). intros H0.
  destruct (_ && _); [|by apply copy_byte_loop].
  while_inv copied (fun st => Z.to_nat (left st)) st1; [|done|unfold st0; simpl; lia|].
  { intros y Hy Hcy. cbv beta in Hcy. apply Z.leb_le in Hcy.
    split; [by apply copy_words_copied|]. unfold LBLOCKSIZE in *. simpl. lia. }
  while_inv copied (fun st => Z.to_nat (left st)) st2; [|done| |by apply copy_byte_loop].
  { intros y Hy Hcy. cbv beta in Hcy. apply Z.leb_le in Hcy.
    split; [exact (copy_word_copied y Hs Hy Hcy)|]. unfold LBLOCKSIZE in *. simpl. lia. }
  destruct Hinv as [_ ? [? ?] _]. lia.
Qed.

(** Copying downwards from the end: everything at or above the pointer is
    done, everything below it is untouched. *)
Record copied_down (st : cursor) : Prop := {
  cd_ptr : src_ptr st - src = dst_ptr st - dst;
  cd_left : 0 <= left st /\ dst_ptr st = dst + left st /\ left st <= count;
  cd_mem : forall x, bytes_of st x =
    if in_range (dst_ptr st) (dst + count - dst_ptr st) x then m (x - dst + src) else m x
}.

Lemma copy_byte_down_copied st :
  src < dst -> copied_down st -> left st <> 0 -> copied_down (copy_byte_down st).
Proof.
  intros Hs [H1 H2 H3] Hl. split; simpl; try lia. intros x.
  assert (bytes_of st (src_ptr st - 1) = m (src_ptr st - 1)) as Hsrc.
  { rewrite H3. destruct (in_range _ _ _) eqn:E; [|done]. apply in_range_spec in E. lia. }
  unfold store8. rewrite Hsrc, wrap_id, H3 by apply Hm.
  unfold in_range. repeat case_cmp; simpl; try (done || lia). f_equal. lia.
Qed.

Lemma rt_memmove_copies : copied_all (rt_memmove dst src count m).
Proof.
  unfold rt_memmove. destruct (_ && _) eqn:E.
  - intros x. while_inv copied_down (fun st => Z.to_nat (left st)) st1; [| |simpl; lia|].
    { intros y Hy Hcy. apply negb_true_iff, Z.eqb_neq in Hcy.
      split; [by apply copy_byte_down_copied; [lia|..]|].
      destruct Hy as [_ [? ?] _]. simpl. lia. }
    { split; simpl; try lia. intros z. unfold in_range. repeat case_cmp; simpl; done || lia. }
    apply negb_false_iff, Z.eqb_eq in Hend. destruct Hinv as [H1 H2 ->].
    replace (dst_ptr st1) with dst by lia. by replace (dst + count - dst) with count by lia.
  - apply copy_byte_loop; [|apply copied_start]. unfold forward_safe. lia.
Qed.
End Copy.

(** Rt_memmove copies [count] bytes whatever the overlap of the two
    ranges, leaving every other byte alone; rt_memcpy, which moves words when
    it can, gives the same result unless the destination starts inside the
    source. *)
Lemma rt_memmove_memcpy_spec (dst src count : Z) (m : mem) :
  mem_ok m -> 0 <= count ->
  copied_all dst src count m (rt_memmove dst src count m) /\
  (forward_safe dst src count -> copied_all dst src count m (rt_memcpy dst src count m)).
Proof.
  intros Hm Hc. split; [by apply rt_memmove_copies|]. intros Hs. by apply rt_memcpy_copies.
Qed.

Lemma rt_memmove_memcpy_spec_witness :
  let m := fun x => x mod 256 in
  rt_memmove 5 3 100 m 70 = 68 /\ rt_memcpy 0 8 100 m 70 = 78.
Proof.
  intros m. assert (mem_ok m) as Hm by (intros x; apply (wrap_fits 8); lia). split.
  - rewrite (proj1 (rt_memmove_memcpy_spec 5 3 100 m Hm ltac:(lia))). reflexivity.
  - rewrite (proj2 (rt_memmove_memcpy_spec 0 8 100 m Hm ltac:(lia))); [reflexivity|].
    unfold forward_safe. lia.
Defined.

(** ** Strings *)

(** [s] points to the NUL-terminated text [t] (C strings hold no NUL byte). *)
Definition cstr (m : mem) (s : Z) (t : list Z) : Prop :=
  (forall i c, t !! i = Some c -> m (s + Z.of_nat i) = c /\ c <> 0) /\
  m (s + lenZ t) = 0.

Lemma cstr_cons m s c t : cstr m s (c :: t) <-> m s = c /\ c <> 0 /\ cstr m (s + 1) t.
Proof.
  unfold cstr, lenZ. simpl. split.
  - intros [H Hn]. destruct (H 0%nat c eq_refl) as [H0 ?]. rewrite Z.add_0_r in H0.
    split_and!; try done.
    + intros i x Hi. specialize (H (S i) x Hi).
      by replace (s + 1 + Z.of_nat i) with (s + Z.of_nat (S i)) by lia.
    + rewrite <- Hn. f_equal. lia.
  - intros (H0 & Hc & H & Hn). split.
    + intros [|i] x Hi; simpl in Hi.
      * simplify_eq. by rewrite Z.add_0_r.
      * replace (s + Z.of_nat (S i)) with (s + 1 + Z.of_nat i) by lia. by apply H.
    + rewrite <- Hn. f_equal. lia.
Qed.

Lemma cstr_nil m s : cstr m s [] <-> m s = 0.
Proof.
  unfold cstr, lenZ. simpl. rewrite Z.add_0_r. split; [by intros [_ ?]|].
  intros H. split; [|done]. intros i c Hi. by rewrite lookup_nil in Hi.
Qed.

Lemma strlen_while m t : forall fuel s, cstr m s t -> (length t <= fuel)%nat ->
  while fuel (fun sc => negb (m sc =? 0)) (fun sc => sc + 1) s = s + lenZ t.
Proof.
  induction t as [|c t IH]; intros fuel s H Hf.
  - apply cstr_nil in H. unfold lenZ. simpl.
    destruct fuel; simpl; [lia|]. rewrite H. simpl. lia.
  - apply cstr_cons in H as (H0 & Hc & H). destruct fuel as [|fuel]; simpl in Hf; [lia|].
    simpl. destruct (Z.eqb_spec (m s) 0); [congruence|]. simpl.
    rewrite IH by (done || lia). unfold lenZ. simpl. lia.
Qed.

Lemma rt_strlen_value m s t fuel :
  cstr m s t -> (length t <= fuel)%nat -> rt_strlen fuel m s = lenZ t.
Proof. intros H Hf. unfold rt_strlen. rewrite (strlen_while m t) by done. lia. Qed.

Lemma strnlen_while m s0 maxlen t : forall fuel s, cstr m s t -> s0 <= s ->
  Z.of_nat fuel = maxlen - (s - s0) ->
  while fuel (fun sc => negb (m sc =? 0) && (sc - s0 <? maxlen)) (fun sc => sc + 1) s =
  s + Z.min (lenZ t) (Z.of_nat fuel).
Proof.
  induction t as [|c t IH]; intros fuel s H Hs Hf.
  - apply cstr_nil in H. unfold lenZ. destruct fuel; simpl; [lia|]. rewrite H. simpl. lia.
  - apply cstr_cons in H as (H0 & Hc & H). unfold lenZ. destruct fuel as [|fuel].
    { simpl. lia. }
    simpl while. destruct (Z.eqb_spec (m s) 0); [congruence|]. simpl negb.
    destruct (Z.ltb_spec (s - s0) maxlen); [|lia]. simpl andb. cbv iota.
    rewrite IH by (done || lia). unfold lenZ. simpl length. lia.
Qed.

Lemma rt_strnlen_value m s t maxlen :
  cstr m s t -> 0 <= maxlen -> rt_strnlen m s maxlen = Z.min (lenZ t) maxlen.
Proof.
  intros H Hl. unfold rt_strnlen. rewrite (strnlen_while m s maxlen t) by (done || lia). lia.
Qed.

(** The sign of a lexicographic comparison of two C strings. *)
Fixpoint str_compare (t u : list Z) : Z :=
  match t, u with
  | [], [] => 0
  | [], y :: _ => - y
  | x :: _, [] => x
  | x :: t, y :: u => if x =? y then str_compare t u else x - y
  end.

Lemma strcmp_while m t : forall u fuel cs ct i,
  cstr m (cs + i) t -> cstr m (ct + i) u -> (length t <= fuel)%nat ->
  let j := while fuel (fun i => negb (m (cs + i) =? 0) && (m (cs + i) =? m (ct + i)))
             (fun i => i + 1) i in
  m (cs + j) - m (ct + j) = str_compare t u.
Proof.
  induction t as [|x t IH]; intros u fuel cs ct i Ht Hu Hf.
  - apply cstr_nil in Ht. simpl.
    replace (while _ _ _ _) with i by (destruct fuel; simpl; [done|by rewrite Ht]).
    rewrite Ht. destruct u as [|y u]; [apply cstr_nil in Hu|apply cstr_cons in Hu as (Hu&_&_)];
      simpl; lia.
  - apply cstr_cons in Ht as (H0 & Hx & Ht). destruct fuel as [|fuel]; simpl in Hf; [lia|].
    simpl. destruct (Z.eqb_spec (m (cs + i)) 0); [congruence|]. simpl.
    destruct u as [|y u].
    + apply cstr_nil in Hu. rewrite Hu. destruct (Z.eqb_spec (m (cs + i)) 0); [congruence|]. lia.
    + apply cstr_cons in Hu as (H1 & Hy & Hu). rewrite H0, H1.
      destruct (Z.eqb_spec x y); simpl; [|lia].
      apply IH; try lia; by rewrite Z.add_assoc.
Qed.

Lemma rt_strcmp_value m cs ct t u fuel :
  cstr m cs t -> cstr m ct u -> (length t <= fuel)%nat ->
  rt_strcmp fuel m cs ct = str_compare t u.
Proof.
  intros Ht Hu Hf. unfold rt_strcmp. apply (strcmp_while m t u); rewrite ?Z.add_0_r; done.
Qed.

Lemma str_compare_eq t : forall u,
  Forall (fun c => 0 < c) t -> Forall (fun c => 0 < c) u ->
  str_compare t u = 0 <-> t = u.
Proof.
  induction t as [|x t IH]; intros [|y u] Ht Hu; simpl; try done.
  - apply Forall_cons in Hu as [? _]. split; [lia|done].
  - apply Forall_cons in Ht as [? _]. split; [lia|done].
  - apply Forall_cons in Ht as [? Ht]. apply Forall_cons in Hu as [? Hu].
    destruct (Z.eqb_spec x y) as [->|Hne].
    + rewrite IH by done. split; congruence.
    + split; [lia|congruence].
Qed.

Lemma cstr_pos m s t : mem_ok m -> cstr m s t -> Forall (fun c => 0 < c) t.
Proof.
  intros Hm [H _]. apply Forall_lookup. intros i c Hi. destruct (H i c Hi) as [<- ?].
  pose proof (Hm (s + Z.of_nat i)) as Hf. unfold fits in Hf. lia.
Qed.

(** The C strings of equal start: what rt_strncmp compares. *)
Lemma i8_diff_zero a b : fits 8 a -> fits 8 b -> (i8 (a - b) =? 0) = (a =? b).
Proof. unfold fits, swrap. intros. destruct (Z.eqb_spec a b); repeat case_cmp; try done; dlia. Qed.

Lemma strncmp_loop_zero m n : mem_ok m -> forall t u cs ct,
  cstr m cs t -> cstr m ct u ->
  strncmp_loop n m cs ct = 0 <-> take n t = take n u.
Proof.
  intros Hm. induction n as [|n IH]; intros t u cs ct Ht Hu; [done|].
  cbn [strncmp_loop]. rewrite (i8_diff_zero (m cs) (m ct)) by apply Hm.
  pose proof (i8_diff_zero (m cs) (m ct) (Hm _) (Hm _)) as Hd.
  destruct (Z.eqb_spec (m cs) (m ct)) as [E|E]; cbn [negb].
  - destruct (Z.eqb_spec (m cs) 0) as [E0|E0].
    + destruct t; [|apply cstr_cons in Ht; lia]. destruct u; [|apply cstr_cons in Hu; lia].
      rewrite E, Z.sub_diag. done.
    + destruct t as [|x t]; [apply cstr_nil in Ht; lia|].
      destruct u as [|y u]; [apply cstr_nil in Hu; lia|].
      apply cstr_cons in Ht as (Hx & _ & Ht). apply cstr_cons in Hu as (Hy & _ & Hu).
      rewrite (IH t u) by done. simpl. split; congruence.
  - split; [lia|]. destruct t as [|x t]; destruct u as [|y u]; simpl; intros Heq;
      rewrite ?cstr_nil, ?cstr_cons in Ht; rewrite ?cstr_nil, ?cstr_cons in Hu;
      destruct_and?; congruence.
Qed.

(** On NUL-terminated strings rt_strlen and rt_strnlen return the length
    (the latter clipped), rt_strcmp is zero exactly on equal strings,
    rt_strncmp exactly on strings whose first [n] characters agree. *)
Lemma rt_string_spec (m : mem) (cs ct : Z) (t u : list Z) (n : nat) (fuel : nat) :
  mem_ok m -> cstr m cs t -> cstr m ct u -> (length t <= fuel)%nat ->
  rt_strlen fuel m cs = lenZ t /\
  rt_strnlen m cs (Z.of_nat n) = Z.min (lenZ t) (Z.of_nat n) /\
  (rt_strcmp fuel m cs ct = 0 <-> t = u) /\
  (rt_strncmp m cs ct (Z.of_nat n) = 0 <-> take n t = take n u).
Proof.
  intros Hm Ht Hu Hf. split_and!.
  - by apply rt_strlen_value.
  - apply rt_strnlen_value; [done|lia].
  - rewrite (rt_strcmp_value m cs ct t u) by done.
    apply str_compare_eq; by eapply cstr_pos.
  - unfold rt_strncmp. rewrite Nat2Z.id. by apply strncmp_loop_zero.
Qed.

(** A memory holding a list of bytes from address [a], zero elsewhere. *)
Definition mem_of (a : Z) (l : list Z) : mem := fun x => if a <=? x then nthZ 0 l (x - a) else 0.

Lemma mem_of_ok a l : Forall (fits 8) l -> mem_ok (mem_of a l).
Proof.
  intros H x. unfold mem_of, nthZ. case_cmp; [|done]. rewrite nth_lookup.
  destruct (l !! _) eqn:E; [|done]. simpl. by eapply Forall_lookup_1 in E; [|done].
Qed.

Lemma rt_string_spec_witness :
  let m := mem_of 0 (bytes "sw_lap" ++ [0] ++ bytes "sw_list" ++ [0]) in
  rt_strlen 20 m 0 = 6 /\ (rt_strncmp m 0 7 (Z.of_nat 4) = 0).
Proof.
  intros m.
  assert (mem_ok m) as Hm by (apply mem_of_ok, (bool_decide_eq_true_1 _); vm_compute; reflexivity).
  assert (cstr m 0 (bytes "sw_lap")) as Ht.
  { split; [|reflexivity]. intros i c Hi.
    do 6 (destruct i as [|i]; [simpl in Hi; simplify_eq; by split|]). by rewrite lookup_ge_None_2 in Hi by (simpl; lia). }
  assert (cstr m 7 (bytes "sw_list")) as Hu.
  { split; [|reflexivity]. intros i c Hi.
    do 7 (destruct i as [|i]; [simpl in Hi; simplify_eq; by split|]). by rewrite lookup_ge_None_2 in Hi by (simpl; lia). }
  destruct (rt_string_spec m 0 7 _ _ 4 20 Hm Ht Hu) as (H1 & _ & _ & H4); [simpl; lia|].
  split; [exact H1|]. apply H4. reflexivity.
Defined.
