(* ===== verification/Kprintf.v ===== *)
(** * Formatted output (rt-thread/src/kservice.c)

    [rt_vsnprintf] and the functions it is made of, with RT_PRINTF_PRECISION
    on and RT_PRINTF_SPECIAL and RT_PRINTF_LONGLONG off, as kservice.c has them.  The C statement pair [if (str < end) *str = c; ++str;] is the [put]
    of a sink, so that one definition of the formatter runs on the bounded
    buffer of the code and on the plain list that specifies it.  Arguments are
    the values [va_arg] reads; a [%s] argument is the content of a C string, or
    [AStr None] for a null pointer.  Reading an argument of the wrong kind is
    undefined behaviour: the result is then [None]. *)
From S2P Require Import Prelude.

Inductive arg := AInt (z : Z) | AStr (s : option (list Z)).

#[global] Instance arg_eq_dec : EqDecision arg.
Proof. solve_decision. Defined.

Definition ZEROPAD : Z := 1.
Definition SIGN : Z := 2.
Definition PLUS : Z := 4.
Definition SPACE : Z := 8.
Definition LEFT : Z := 16.
Definition SPECIAL : Z := 32.
Definition LARGE : Z := 64.

(** [type & FLAG] as a condition. *)
Definition has (type flag : Z) : bool := negb (Z.land type flag =? 0).

Definition ISDIGIT (c : Z) : bool := u32 (c - 48) <? 10.

(** [divide(&n, base)]: the digit and the new [n]. *)
Definition divide (n base : Z) : Z * Z :=
  if base =? 10 then (i32 (u32 n mod 10), i32 (u32 n / 10))
  else (i32 (u32 n mod 16), i32 (u32 n / 16)).

(** The number read and the rest of the format. *)
Fixpoint skip_atoi_loop (i : Z) (s : list Z) : Z * list Z :=
  match s with
  | c :: s' => if ISDIGIT c then skip_atoi_loop (i * 10 + c - 48) s' else (i, s)
  | [] => (i, s)
  end.
Definition skip_atoi := skip_atoi_loop 0.

Definition small_digits : list Z := bytes "0123456789abcdef".
Definition large_digits : list Z := bytes "0123456789ABCDEF".

(** [while (num != 0) tmp[i++] = digits[divide(&num, base)];], least digit first. *)
Fixpoint number_digits (fuel : nat) (digits : list Z) (num base : Z) : list Z :=
  match fuel with
  | O => []
  | S fuel =>
      if negb (num =? 0) then
        let '(res, num) := divide num base in
        nthZ 0 digits res :: number_digits fuel digits num base
      else []
  end.

Section Formatter.
Context {S : Type} (put : Z -> S -> S).

(** [while (size-- > 0) put(c);]: the sink and the final [size]. *)
Definition pad (c size : Z) (st : S) : Z * S :=
  let '(size, st) :=
    while (Z.to_nat size) (fun '(size, _) => 0 <? size)
      (fun '(size, st) => (size - 1, put c st)) (size, st) in
  (size - 1, st).

(** [while (i-- > 0) put(tmp[i]);] *)
Fixpoint put_tmp (i : nat) (tmp : list Z) (st : S) : S :=
  match i with
  | O => st
  | Datatypes.S i => put_tmp i tmp (put (nth i tmp 0) st)
  end.

Definition print_number (num base s precision type : Z) (st : S) : S :=
  let precision_bak := precision in
  let size := s in
  let digits := if has type LARGE then large_digits else small_digits in
  let type := if has type LEFT then Z.land type (Z.lnot ZEROPAD) else type in
  let c := if has type ZEROPAD then 48 else 32 in
  let '(sign, num) :=
    if has type SIGN then
      if num <? 0 then (45, i32 (- num))
      else if has type PLUS then (43, num)
      else if has type SPACE then (32, num) else (0, num)
    else (0, num) in
  let tmp := if num =? 0 then [48] else number_digits 16 digits num base in
  let i := lenZ tmp in
  let precision := if precision <? i then i else precision in
  let size := size - precision in
  let '(size, st) :=
    if negb (has type (Z.lor ZEROPAD LEFT)) then
      let size := if negb (sign =? 0) && (0 <? size) then size - 1 else size in
      pad 32 size st
    else (size, st) in
  let '(size, st) := if negb (sign =? 0) then (size - 1, put sign st) else (size, st) in
  let '(size, st) := if negb (has type LEFT) then pad c size st else (size, st) in
  let '(_, st) := pad 48 (precision - i) st in
  let st := if negb (precision_bak =? 0) then put_tmp (length tmp) tmp st else st in
  let '(_, st) := pad 32 size st in
  st.

(** The flags loop; its first round skips the ['%']. *)
Fixpoint get_flags (flags : Z) (fmt : list Z) : Z * list Z :=
  match fmt with
  | c :: fmt' =>
      if c =? 45 then get_flags (Z.lor flags LEFT) fmt'
      else if c =? 43 then get_flags (Z.lor flags PLUS) fmt'
      else if c =? 32 then get_flags (Z.lor flags SPACE) fmt'
      else if c =? 35 then get_flags (Z.lor flags SPECIAL) fmt'
      else if c =? 48 then get_flags (Z.lor flags ZEROPAD) fmt'
      else (flags, fmt)
  | [] => (flags, [])
  end.

Definition va_int (args : list arg) : option (Z * list arg) :=
  match args with AInt z :: args => Some (i32 z, args) | _ => None end.

(** The character at the format pointer, NUL at the end. *)
Definition cur (fmt : list Z) : Z := nthZ 0 fmt 0.

Definition get_width (flags : Z) (fmt : list Z) (args : list arg)
  : option (Z * Z * list Z * list arg) :=
  if ISDIGIT (cur fmt) then
    let '(field_width, fmt) := skip_atoi fmt in Some (field_width, flags, fmt, args)
  else if cur fmt =? 42 then
    '(field_width, args) ← va_int args;
    if field_width <? 0 then Some (- field_width, Z.lor flags LEFT, drop 1 fmt, args)
    else Some (field_width, flags, drop 1 fmt, args)
  else Some (-1, flags, fmt, args).

Definition get_precision (fmt : list Z) (args : list arg)
  : option (Z * list Z * list arg) :=
  if cur fmt =? 46 then
    let fmt := drop 1 fmt in
    '(precision, fmt, args) ←
      (if ISDIGIT (cur fmt) then
         let '(precision, fmt) := skip_atoi fmt in Some (precision, fmt, args)
       else if cur fmt =? 42 then
         '(precision, args) ← va_int args; Some (precision, drop 1 fmt, args)
       else Some (-1, fmt, args));
    Some (if precision <? 0 then 0 else precision, fmt, args)
  else Some (-1, fmt, args).

Definition get_qualifier (fmt : list Z) : Z * list Z :=
  if (cur fmt =? 104) || (cur fmt =? 108) then (cur fmt, drop 1 fmt) else (0, fmt).

(** [while (--w > 0) put(' ');], the loop of case 'c'. *)
Definition pad_char (w : Z) (st : S) : Z * S :=
  let '(n, st) := pad 32 (w - 1) st in (n + 1, st).

Definition print_char (z field_width flags : Z) (st : S) : S :=
  let '(field_width, st) :=
    if negb (has flags LEFT) then pad_char field_width st else (field_width, st) in
  let st := put (u8 z) st in
  let '(_, st) := pad_char field_width st in st.

(** [while (len < w--) put(' ');], the loop of case 's'. *)
Definition pad_str (len w : Z) (st : S) : Z * S :=
  let '(n, st) := pad 32 (w - len) st in (n + len, st).

Definition put_all (l : list Z) (st : S) : S := fold_left (fun st c => put c st) l st.

Definition print_str (s : option (list Z)) (field_width precision flags : Z) (st : S) : S :=
  let s := match s with Some s => s | None => bytes "(NULL)" end in
  let len := lenZ s in
  let len := if (0 <? precision) && (precision <? len) then precision else len in
  let '(field_width, st) :=
    if negb (has flags LEFT) then pad_str len field_width st else (field_width, st) in
  let st := put_all (take (Z.to_nat len) s) st in
  let '(_, st) := pad_str len field_width st in st.

(** The number formats, after the switch: read the argument at its size. *)
Definition print_int (base field_width precision qualifier flags : Z)
    (args : list arg) (st : S) : option (S * list arg) :=
  '(z, args) ← va_int args;
  let num :=
    if qualifier =? 108 then if has flags SIGN then u32 (i32 z) else u32 z
    else if qualifier =? 104 then
      if has flags SIGN then u32 (i16 (u16 z)) else u16 z
    else if has flags SIGN then u32 (i32 z) else u32 z in
  Some (print_number (i32 num) base field_width precision flags st, args).

(** One conversion: [fmt] is just after the ['%']. *)
Definition conversion (fmt : list Z) (args : list arg) (st : S)
  : option (S * list Z * list arg) :=
  let '(flags, fmt) := get_flags 0 fmt in
  '(field_width, flags, fmt, args) ← get_width flags fmt args;
  '(precision, fmt, args) ← get_precision fmt args;
  let '(qualifier, fmt) := get_qualifier fmt in
  let next := drop 1 fmt in
  let int base flags :=
    '(st, args) ← print_int base field_width precision qualifier flags args st;
    Some (st, next, args) in
  let c := cur fmt in
  if c =? 99 then
    '(z, args) ← va_int args; Some (print_char z field_width flags st, next, args)
  else if c =? 115 then
    match args with
    | AStr s :: args => Some (print_str s field_width precision flags st, next, args)
    | _ => None
    end
  else if c =? 112 then
    '(z, args) ← va_int args;
    let '(field_width, flags) :=
      if field_width =? -1 then (8, Z.lor flags ZEROPAD) else (field_width, flags) in
    Some (print_number z 16 field_width precision flags st, next, args)
  else if c =? 37 then Some (put 37 st, next, args)
  else if c =? 111 then int 8 flags
  else if c =? 88 then int 16 (Z.lor flags LARGE)
  else if c =? 120 then int 16 flags
  else if (c =? 100) || (c =? 105) then int 10 (Z.lor flags SIGN)
  else if c =? 117 then int 10 flags
  else
    let st := put 37 st in
    Some (if negb (c =? 0) then put c st else st, next, args).

Fixpoint format_loop (fuel : nat) (fmt : list Z) (args : list arg) (st : S) : option S :=
  match fuel, fmt with
  | _, [] => Some st
  | O, _ => None
  | Datatypes.S fuel, c :: fmt =>
      if negb (c =? 37) then format_loop fuel fmt args (put c st)
      else
        '(st, fmt, args) ← conversion fmt args st;
        format_loop fuel fmt args st
  end.

Definition format (fmt : list Z) : list arg -> S -> option S := format_loop (length fmt) fmt.
End Formatter.

(** ** The bounded buffer *)
Record sink := { str : Z; out : mem }.

Definition put_bounded (end_ c : Z) (st : sink) : sink :=
  {| str := str st + 1;
     out := if str st <? end_ then store8 (str st) c (out st) else out st |}.

(** The value returned and the memory afterwards. *)
Definition rt_vsnprintf (buf size : Z) (fmt : list Z) (args : list arg) (m : mem)
  : option (Z * mem) :=
  let end_ := u32 (buf + size) in
  let '(end_, size) := if end_ <? buf then (4294967295, 4294967295 - buf) else (end_, size) in
  st ← format (put_bounded end_) fmt args {| str := buf; out := m |};
  let m :=
    if 0 <? size then
      if str st <? end_ then store8 (str st) 0 (out st) else store8 (end_ - 1) 0 (out st)
    else out st in
  Some (i32 (str st - buf), m).

Definition rt_snprintf := rt_vsnprintf.
Definition rt_vsprintf (buf : Z) := rt_vsnprintf buf (u32 (-1)).
Definition rt_sprintf := rt_vsprintf.

(** ** The console *)
Definition RT_CONSOLEBUF_SIZE : Z := 256.

(** The bytes given to the console device, and the memory with the static
    buffer (at [rt_log_buf]) afterwards. *)
Definition rt_kprintf (rt_log_buf : Z) (fmt : list Z) (args : list arg) (m : mem)
  : option (list Z * mem) :=
  '(n, m) ← rt_vsnprintf rt_log_buf (RT_CONSOLEBUF_SIZE - 1) fmt args m;
  let length := u32 n in
  let length := if RT_CONSOLEBUF_SIZE - 1 <? length then RT_CONSOLEBUF_SIZE - 1 else length in
  Some (map (fun i => m (rt_log_buf + Z.of_nat i)) (seq 0 (Z.to_nat length)), m).

(** ** What is printed does not depend on the sink *)

(** The list sink: the text printed so far. *)
Definition text_of (fmt : list Z) (args : list arg) : option (list Z) :=
  format (fun c l => l ++ [c]) fmt args [].

Lemma put_all_app {S} (put : Z -> S -> S) l k st :
  put_all put (l ++ k) st = put_all put k (put_all put l st).
Proof. apply fold_left_app. Qed.

Lemma put_all_snoc l : forall k : list Z, put_all (fun c l => l ++ [c]) l k = k ++ l.
Proof.
  induction l as [|c l IH]; intros k; simpl; [by rewrite app_nil_r|].
  unfold put_all in *. rewrite IH. by rewrite <- app_assoc.
Qed.

Lemma pad_put_all {S} (put : Z -> S -> S) c size st :
  pad put c size st = (Z.min size 0 - 1, put_all put (replicate (Z.to_nat size) c) st).
Proof.
  unfold pad.
  assert (forall n size st, Z.to_nat size = n ->
    while n (fun '(size, _) => 0 <? size) (fun '(size, st) => (size - 1, put c st)) (size, st) =
    (Z.min size 0, put_all put (replicate n c) st)) as H.
  { induction n as [|n IH]; intros sz s0 Hn; simpl.
    - f_equal. lia.
    - destruct (Z.ltb_spec 0 sz); [|lia]. rewrite IH by lia. f_equal. lia. }
  by rewrite (H (Z.to_nat size)).
Qed.

Lemma put_tmp_put_all {S} (put : Z -> S -> S) tmp : forall st,
  put_tmp put (length tmp) tmp st = put_all put (rev tmp) st.
Proof.
  induction tmp as [|c tmp IH] using rev_ind; intros st; [done|].
  rewrite length_app, rev_app_distr. simpl. rewrite Nat.add_1_r. simpl.
  rewrite app_nth2, Nat.sub_diag by lia. simpl. rewrite <- IH.
  generalize (put c st). clear st.
  assert (forall i s, (i <= length tmp)%nat -> put_tmp put i (tmp ++ [c]) s = put_tmp put i tmp s) as H.
  { induction i as [|i IHi]; intros s Hi; [done|]. simpl. rewrite app_nth1 by lia. apply IHi. lia. }
  intros s. by apply H.
Qed.

(** The digits of [num] in [base] (16 unless it is 10), most significant first. *)
Definition digits_text (num base type : Z) : list Z :=
  if num =? 0 then [48]
  else rev (number_digits 16 (if has type LARGE then large_digits else small_digits) num base).

(** The sign character, if any, and the magnitude. *)
Definition sign_text (num type : Z) : list Z * Z :=
  if has type SIGN then
    if num <? 0 then ([45], i32 (- num))
    else if has type PLUS then ([43], num)
    else if has type SPACE then ([32], num) else ([], num)
  else ([], num).

(** The field: sign, zeros up to the precision and digits, filled up to the
    width on the left with blanks or zeros, or on the right with blanks. *)
Definition number_text (num base width precision type : Z) : list Z :=
  let '(sign, num) := sign_text num type in
  let ds := digits_text num base type in
  let zeros := replicate (Z.to_nat (precision - lenZ ds)) 48 in
  let shown := if precision =? 0 then [] else ds in
  let fill := Z.to_nat (width - Z.max precision (lenZ ds) - lenZ sign) in
  if has type LEFT then sign ++ zeros ++ shown ++ replicate fill 32
  else if has type ZEROPAD then sign ++ replicate fill 48 ++ zeros ++ shown
  else replicate fill 32 ++ sign ++ zeros ++ shown.

Lemma has_clear_zeropad type flag :
  0 <= flag -> Z.land flag ZEROPAD = 0 ->
  has (Z.land type (Z.lnot ZEROPAD)) flag = has type flag.
Proof.
  intros H0 H. unfold has. do 2 f_equal. apply Z.bits_inj'. intros n Hn.
  rewrite !Z.land_spec, Z.lnot_spec by done.
  assert (Z.testbit (Z.land flag ZEROPAD) n = false) as Hf by (rewrite H; apply Z.bits_0).
  rewrite Z.land_spec in Hf.
  destruct (Z.testbit type n), (Z.testbit flag n), (Z.testbit ZEROPAD n); simpl in *; done.
Qed.

Lemma has_lor type a b : has type (Z.lor a b) = has type a || has type b.
Proof.
  unfold has. rewrite Z.land_lor_distr_r.
  destruct (Z.eqb_spec (Z.lor (Z.land type a) (Z.land type b)) 0) as [E|E];
  destruct (Z.eqb_spec (Z.land type a) 0) as [E1|E1]; destruct (Z.eqb_spec (Z.land type b) 0) as [E2|E2];
    simpl; try done; try (apply Z.lor_eq_0_iff in E; lia).
  by rewrite E1, E2 in E.
Qed.

Lemma has_cleared_zeropad type : has (Z.land type (Z.lnot ZEROPAD)) ZEROPAD = false.
Proof.
  unfold has. apply negb_false_iff, Z.eqb_eq.
  rewrite <- Z.land_assoc. change (Z.land (Z.lnot ZEROPAD) ZEROPAD) with 0. apply Z.land_0_r.
Qed.

Lemma put_put_all {S} (put : Z -> S -> S) c st : put c st = put_all put [c] st.
Proof. done. Qed.

Lemma replicate_nonpos {A} (x : A) n : n <= 0 -> replicate (Z.to_nat n) x = [].
Proof. intros. by replace (Z.to_nat n) with 0%nat by lia. Qed.

(** The part of print_number after the digits are known. *)
Lemma print_number_layout {S} (put : Z -> S -> S) sign c width precision p0 tmp left zero (st : S) :
  (left = true -> zero = false) -> c = (if zero then 48 else 32) ->
  let i := lenZ tmp in
  let precision := if precision <? i then i else precision in
  let size := width - precision in
  (let '(size, st') :=
    if negb (zero || left) then
      let size := if negb (sign =? 0) && (0 <? size) then size - 1 else size in
      pad put 32 size st
    else (size, st) in
  let '(size, st') := if negb (sign =? 0) then (size - 1, put sign st') else (size, st') in
  let '(size, st') := if negb left then pad put c size st' else (size, st') in
  let '(_, st') := pad put 48 (precision - i) st' in
  let st' := if p0 : bool then put_tmp put (length tmp) tmp st' else st' in
  let '(_, st') := pad put 32 size st' in
  st') = put_all put
    (let sg := if sign =? 0 then [] else [sign] in
     let zeros := replicate (Z.to_nat (precision - i)) 48 in
     let shown := if p0 then rev tmp else [] in
     let fill := Z.to_nat (width - Z.max precision i - lenZ sg) in
     if left then sg ++ zeros ++ shown ++ replicate fill 32
     else if zero then sg ++ replicate fill 48 ++ zeros ++ shown
     else replicate fill 32 ++ sg ++ zeros ++ shown) st.
Proof.
  intros Hlz -> i prec size.
  assert (Z.max prec i = prec) as Hmax by (unfold prec; case_cmp; lia).
  cbv zeta. rewrite Hmax. fold size. clearbody size.
  destruct left, zero; try (by discriminate Hlz); clear Hlz; cbn [negb orb];
    destruct (Z.eqb_spec sign 0); cbn [negb andb];
    change (lenZ (@nil Z)) with 0; change (lenZ [sign]) with 1;
    try destruct (Z.ltb_spec 0 size);
    repeat (rewrite ?pad_put_all; cbn [negb andb]);
    rewrite ?(put_put_all put sign), ?put_tmp_put_all;
    destruct p0; rewrite ?put_tmp_put_all, <- ?put_all_app;
    rewrite ?Z.sub_0_r, <- ?app_assoc;
    repeat match goal with
      | |- context [replicate (Z.to_nat ?n) ?c] => rewrite (replicate_nonpos c n) by lia
      end; simpl; rewrite ?app_nil_r; try done.
Qed.

Lemma print_number_text {S} (put : Z -> S -> S) num base width precision type st :
  print_number put num base width precision type st =
  put_all put (number_text num base width precision type) st.
Proof.
  unfold print_number, number_text, sign_text, digits_text.
  set (left := has type LEFT).
  assert (forall f, f = SIGN \/ f = PLUS \/ f = SPACE \/ f = LEFT ->
    has (if left then Z.land type (Z.lnot ZEROPAD) else type) f = has type f) as Hf.
  { intros f Hf. destruct left; [|done]. apply has_clear_zeropad; destruct_or! Hf; by subst. }
  assert (has (if left then Z.land type (Z.lnot ZEROPAD) else type) ZEROPAD =
            if left then false else has type ZEROPAD) as Hz.
  { destruct left; [apply has_cleared_zeropad|done]. }
  rewrite has_lor, (Hf SIGN), (Hf PLUS), (Hf SPACE), (Hf LEFT), Hz by tauto. fold left.
  set (zero := if left then false else has type ZEROPAD).
  assert (left = true -> zero = false) as Hlz by (unfold zero; by intros ->).
  set (digits := if has type LARGE then large_digits else small_digits).
  assert (forall sg sgn n,
    sgn = (if sg =? 0 then [] else [sg]) ->
    let tmp := if n =? 0 then [48] else number_digits 16 digits n base in
    let ds := if n =? 0 then [48] else rev (number_digits 16 digits n base) in
    put_all put
    (let i := lenZ tmp in
     let prec := if precision <? i then i else precision in
     let zeros := replicate (Z.to_nat (prec - i)) 48 in
     let shown := if negb (precision =? 0) then rev tmp else [] in
     let fill := Z.to_nat (width - Z.max prec i - lenZ (if sg =? 0 then [] else [sg])) in
     if left then (if sg =? 0 then [] else [sg]) ++ zeros ++ shown ++ replicate fill 32
     else if zero then (if sg =? 0 then [] else [sg]) ++ replicate fill 48 ++ zeros ++ shown
     else replicate fill 32 ++ (if sg =? 0 then [] else [sg]) ++ zeros ++ shown) st =
    put_all put
    (let zeros := replicate (Z.to_nat (precision - lenZ ds)) 48 in
     let shown := if precision =? 0 then [] else ds in
     let fill := Z.to_nat (width - Z.max precision (lenZ ds) - lenZ sgn) in
     if left then sgn ++ zeros ++ shown ++ replicate fill 32
     else if has type ZEROPAD then sgn ++ replicate fill 48 ++ zeros ++ shown
     else replicate fill 32 ++ sgn ++ zeros ++ shown) st) as Heq.
  { intros sg sgn n -> tmp ds.
    assert (ds = rev tmp) as -> by (unfold ds, tmp; by destruct (n =? 0)).
    cbv zeta. replace (lenZ (rev tmp)) with (lenZ tmp) by (unfold lenZ; by rewrite length_rev).
    replace (Z.max (if precision <? lenZ tmp then lenZ tmp else precision) (lenZ tmp))
      with (Z.max precision (lenZ tmp)) by (case_cmp; lia).
    replace (Z.to_nat ((if precision <? lenZ tmp then lenZ tmp else precision) - lenZ tmp))
      with (Z.to_nat (precision - lenZ tmp)) by (case_cmp; lia).
    unfold zero. destruct (precision =? 0), left; done. }
  destruct (has type SIGN); [destruct (num <? 0); [|destruct (has type PLUS); [|destruct (has type SPACE)]]|];
    [set (sg := 45)|set (sg := 43)|set (sg := 32)|set (sg := 0) at 1 2|set (sg := 0) at 1 2];
  (etransitivity; [exact (print_number_layout put sg _ width precision
     (negb (precision =? 0)) _ left zero st Hlz eq_refl)|]);
  by apply Heq.
Qed.

(** The text of [%c] and [%s]. *)
Definition char_text (z width flags : Z) : list Z :=
  let fill := replicate (Z.to_nat (width - 1)) 32 in
  if has flags LEFT then u8 z :: fill else fill ++ [u8 z].

Definition str_text (s : option (list Z)) (width precision flags : Z) : list Z :=
  let s := match s with Some s => s | None => bytes "(NULL)" end in
  let shown := if 0 <? precision then take (Z.to_nat precision) s else s in
  let fill := replicate (Z.to_nat (width - lenZ shown)) 32 in
  if has flags LEFT then shown ++ fill else fill ++ shown.

Lemma print_char_text {S} (put : Z -> S -> S) z width flags st :
  print_char put z width flags st = put_all put (char_text z width flags) st.
Proof.
  unfold print_char, char_text, pad_char.
  destruct (has flags LEFT); cbn [negb]; rewrite ?pad_put_all; cbv beta iota zeta;
    rewrite ?pad_put_all, ?(put_put_all put (u8 z)), <- ?put_all_app; [done|].
  rewrite (replicate_nonpos 32 (Z.min _ _ - 1 + 1 - 1)) by lia. by rewrite app_nil_r.
Qed.

Lemma print_str_text {S} (put : Z -> S -> S) s width precision flags st :
  print_str put s width precision flags st = put_all put (str_text s width precision flags) st.
Proof.
  unfold print_str, str_text, pad_str.
  set (t := match s with Some s => s | None => bytes "(NULL)" end).
  set (len := if (0 <? precision) && (precision <? lenZ t) then precision else lenZ t).
  assert ((if 0 <? precision then take (Z.to_nat precision) t else t) = take (Z.to_nat len) t /\
          lenZ (take (Z.to_nat len) t) = len) as [-> ->].
  { unfold len, lenZ. repeat case_cmp; simpl; rewrite ?Nat2Z.id, ?firstn_all, ?length_take;
      split; try done; try lia. rewrite firstn_all2 by lia. done. }
  destruct (has flags LEFT); cbn [negb]; rewrite ?pad_put_all; cbv beta iota zeta;
    rewrite ?pad_put_all, <- ?put_all_app; [done|].
  rewrite (replicate_nonpos 32 (Z.min _ _ - 1 + len - len)) by lia. by rewrite app_nil_r.
Qed.


Lemma print_int_text base width precision qualifier flags args :
  (forall S (put : Z -> S -> S) st,
     print_int put base width precision qualifier flags args st = None) \/
  exists l args', forall S (put : Z -> S -> S) st,
    print_int put base width precision qualifier flags args st = Some (put_all put l st, args').
Proof.
  unfold print_int. destruct (va_int args) as [[z args']|]; [|by left].
  right. eexists _, _. intros. simpl. by rewrite print_number_text.
Qed.

(** One conversion: nothing for every sink, or the same text for every sink. *)
Lemma conversion_text fmt args :
  (forall S (put : Z -> S -> S) st, conversion put fmt args st = None) \/
  exists l fmt' args', forall S (put : Z -> S -> S) st,
    conversion put fmt args st = Some (put_all put l st, fmt', args').
Proof.
  unfold conversion.
  destruct (get_flags 0 fmt) as [flags0 fmt1].
  destruct (get_width flags0 fmt1 args) as [[[[width flags] fmt2] args2]|]; [|by left].
  simpl. destruct (get_precision fmt2 args2) as [[[precision fmt3] args3]|]; [|by left].
  simpl. destruct (get_qualifier fmt3) as [qualifier fmt4].
  set (next := drop 1 fmt4). set (c := cur fmt4).
  assert (forall base flags,
    (forall S (put : Z -> S -> S) st,
       ('(st, args) ← print_int put base width precision qualifier flags args3 st;
        Some (st, next, args)) = None) \/
    exists l fmt' args', forall S (put : Z -> S -> S) st,
       ('(st, args) ← print_int put base width precision qualifier flags args3 st;
        Some (st, next, args)) = Some (put_all put l st, fmt', args')) as Hint.
  { intros base fl. destruct (print_int_text base width precision qualifier fl args3)
      as [H|(l & args' & H)]; [left|right; exists l, next, args']; intros; by rewrite H. }
  destruct (c =? 99); [|destruct (c =? 115); [|destruct (c =? 112); [|destruct (c =? 37);
    [|destruct (c =? 111); [by apply Hint|destruct (c =? 88); [by apply Hint|
      destruct (c =? 120); [by apply Hint|]]]]]]].
  - destruct (va_int args3) as [[z args4]|]; [|by left].
    right. eexists _, _, _. intros. simpl. by rewrite print_char_text.
  - destruct args3 as [|[z|s] args3]; [by left|by left|].
    right. eexists _, _, _. intros. by rewrite print_str_text.
  - destruct (va_int args3) as [[z args4]|]; [|by left].
    right. simpl. destruct (width =? -1); eexists _, _, _; intros; by rewrite print_number_text.
  - right. by exists [37], next, args3.
  - destruct (_ || _); [apply Hint|]. destruct (c =? 117); [apply Hint|].
    right. destruct (negb (c =? 0)); [by exists [37; c], next, args3|by exists [37], next, args3].
Qed.

Lemma format_loop_text fuel : forall fmt args,
  (forall S (put : Z -> S -> S) st, format_loop put fuel fmt args st = None) \/
  exists l, forall S (put : Z -> S -> S) st,
    format_loop put fuel fmt args st = Some (put_all put l st).
Proof.
  induction fuel as [|fuel IH]; intros [|c fmt] args; simpl;
    try (by right; exists []); try (by left).
  destruct (negb (c =? 37)).
  - destruct (IH fmt args) as [H|[l H]]; [left|right; exists (c :: l)]; intros; by rewrite H.
  - destruct (conversion_text fmt args) as [H|(l & fmt' & args' & H)].
    { left. intros. by rewrite H. }
    destruct (IH fmt' args') as [H'|[l' H']]; [left|right; exists (l ++ l')]; intros;
      rewrite H; simpl; rewrite H'; [done|by rewrite put_all_app].
Qed.

Lemma format_text {S} (put : Z -> S -> S) fmt args st :
  format put fmt args st = (fun l => put_all put l st) <$> text_of fmt args.
Proof.
  unfold text_of, format.
  destruct (format_loop_text (length fmt) fmt args) as [H|[l H]]; rewrite !H; [done|].
  simpl. by rewrite put_all_snoc.
Qed.

(** ** The bounded buffer holds the text, cut to its size *)
Lemma put_all_bounded end_ l : forall p m,
  let st := put_all (put_bounded end_) l {| str := p; out := m |} in
  str st = p + lenZ l /\
  forall x, out st x = if in_range p (lenZ l) x && (x <? end_) then u8 (nthZ 0 l (x - p)) else m x.
Proof.
  induction l as [|c l IH]; intros p m st.
  - split; [unfold lenZ; simpl; lia|]. intros x.
    destruct (in_range _ _ _) eqn:E; [|done]. apply in_range_spec in E. unfold lenZ in E.
    simpl in E. lia.
  - destruct (IH (p + 1) (if p <? end_ then store8 p c m else m)) as [H1 H2].
    change st with (put_all (put_bounded end_) l
      {| str := p + 1; out := if p <? end_ then store8 p c m else m |}).
    rewrite H1. split; [unfold lenZ; simpl; lia|]. intros x. rewrite H2.
    unfold lenZ. simpl length.
    unfold in_range. destruct (Z.eqb_spec x p) as [->|Hne].
    + rewrite (proj2 (Z.leb_gt (p + 1) p)), Z.leb_refl by lia. simpl.
      rewrite (proj2 (Z.ltb_lt p (p + _))) by lia. simpl.
      case_cmp; [|done]. rewrite store8_at, Z.eqb_refl. by rewrite Z.sub_diag.
    + replace (p <=? x) with (p + 1 <=? x) by lia.
      replace (p + Z.of_nat (S (length l))) with (p + 1 + Z.of_nat (length l)) by lia.
      destruct (Z.leb_spec (p + 1) x); simpl.
      * unfold nthZ. replace (Z.to_nat (x - p)) with (S (Z.to_nat (x - (p + 1)))) by lia. simpl.
        destruct (_ && _); [done|]. case_cmp; [|done]. rewrite store8_at. case_cmp; [lia|done].
      * case_cmp; [|done]. rewrite store8_at. case_cmp; [lia|done].
Qed.

Lemma vsnprintf_layout buf size fmt args m text :
  0 <= buf -> 0 < size -> buf + size < 2 ^ 32 ->
  text_of fmt args = Some text -> lenZ text < 2 ^ 31 ->
  exists m', rt_vsnprintf buf size fmt args m = Some (lenZ text, m') /\
    forall x, m' x =
      let shown := Z.min (lenZ text) (size - 1) in
      if in_range buf shown x then u8 (nthZ 0 text (x - buf))
      else if x =? buf + shown then 0 else m x.
Proof.
  intros Hb Hs He Ht Hl. unfold rt_vsnprintf, wrap. rewrite (Z.mod_small (buf + size)) by lia.
  destruct (Z.ltb_spec (buf + size) buf); [lia|]. cbv beta iota.
  rewrite format_text, Ht. cbn -[put_all in_range].
  destruct (put_all_bounded (buf + size) text buf m) as [Hstr Hout].
  destruct (Z.ltb_spec 0 size); [|lia]. eexists. split.
  { rewrite Hstr. replace (buf + lenZ text - buf) with (lenZ text) by lia.
    unfold swrap. rewrite Z.mod_small; [|unfold lenZ in *; lia]. by rewrite Z.add_simpl_r. }
  intros x. cbv zeta. unfold in_range.
  destruct (Z.ltb_spec (buf + lenZ text) (buf + size)).
  - rewrite Z.min_l, store8_at, Hout by lia. unfold in_range.
    repeat case_cmp; simpl; try done; try lia.
  - rewrite Z.min_r, store8_at, Hout by lia. unfold in_range.
    repeat case_cmp; simpl; try done; try lia.
Qed.

(** C33: rt_vsnprintf returns the length of the whole text and leaves in the
    buffer its first [size - 1] characters followed by a NUL, writing no byte
    outside the buffer whatever the format and the arguments are. *)
Theorem rt_vsnprintf_layout (buf size : Z) (fmt : list Z) (args : list arg) (m : mem)
    (text : list Z) :
  0 <= buf -> 0 < size -> buf + size < 2 ^ 32 ->
  text_of fmt args = Some text -> lenZ text < 2 ^ 31 ->
  exists m', rt_vsnprintf buf size fmt args m = Some (lenZ text, m') /\
    forall x, m' x =
      let shown := Z.min (lenZ text) (size - 1) in
      if in_range buf shown x then u8 (nthZ 0 text (x - buf))
      else if x =? buf + shown then 0 else m x.
Proof. apply vsnprintf_layout. Qed.

Lemma rt_vsnprintf_layout_witness :
  exists m', rt_snprintf 16 5 (bytes "%02u:%-3s|") [AInt 7; AStr (Some (bytes "ab"))] (fun _ => 255)
    = Some (7, m') /\ m' 19 = 97 /\ m' 20 = 0 /\ m' 21 = 255.
Proof.
  destruct (rt_vsnprintf_layout 16 5 (bytes "%02u:%-3s|") [AInt 7; AStr (Some (bytes "ab"))]
    (fun _ => 255) (bytes "07:ab |")) as (m' & H & Hm); try lia; try reflexivity.
  exists m'. split; [exact H|]. rewrite !Hm. by split_and!.
Defined.

(** ** Decimal numbers *)

(** The value of decimal digits, least significant first. *)
Definition dec_value (ds : list Z) : Z := foldr (fun c v => c - 48 + 10 * v) 0 ds.

Lemma small_digit res : 0 <= res < 10 -> nthZ 0 small_digits res = 48 + res.
Proof.
  intros H. assert (all_below 10 (fun r => nthZ 0 small_digits r =? 48 + r) = true) as E
    by reflexivity.
  apply (all_below_spec 10) with (x := res) in E; lia.
Qed.

Lemma large_digit res : 0 <= res < 10 -> nthZ 0 large_digits res = 48 + res.
Proof.
  intros H. assert (all_below 10 (fun r => nthZ 0 large_digits r =? 48 + r) = true) as E
    by reflexivity.
  apply (all_below_spec 10) with (x := res) in E; lia.
Qed.

Lemma u32_i32 n : u32 (i32 n) = u32 n.
Proof. unfold wrap, swrap. rewrite Zminus_mod_idemp_l. f_equal. lia. Qed.

Lemma i32_zero n : fits 32 n -> (i32 n =? 0) = (n =? 0).
Proof. unfold fits, swrap. intros. repeat case_cmp; try done; dlia. Qed.

Lemma number_digits_dec type fuel : forall n, 0 <= n < 2 ^ 32 -> n < 10 ^ Z.of_nat fuel ->
  let ds := number_digits fuel (if has type LARGE then large_digits else small_digits) (i32 n) 10 in
  Forall (fun c => 48 <= c < 58) ds /\ dec_value ds = n.
Proof.
  induction fuel as [|fuel IH]; intros n Hn Hf; [simpl in *; split; [done|lia]|].
  cbn [number_digits]. rewrite i32_zero by done.
  destruct (Z.eqb_spec n 0) as [->|Hne]; [by split|]. simpl negb. cbv iota.
  unfold divide. cbn [Z.eqb Pos.eqb]. rewrite u32_i32, (wrap_id 32 n) by done.
  replace (i32 (n mod 10)) with (n mod 10) by (unfold swrap; dlia).
  assert (nthZ 0 (if has type LARGE then large_digits else small_digits) (n mod 10)
            = 48 + n mod 10) as ->.
  { destruct (has type LARGE); [apply large_digit|apply small_digit]; dlia. }
  destruct (IH (n / 10)) as [H1 H2]; [dlia| |].
  { apply Z.div_lt_upper_bound; [lia|]. rewrite Nat2Z.inj_succ, Z.pow_succ_r in Hf by lia. lia. }
  cbv zeta. split; [constructor; [dlia|done]|]. simpl. rewrite H2. dlia.
Qed.

Lemma skip_atoi_digits ds rest : forall i,
  Forall (fun c => 48 <= c < 58) ds -> ISDIGIT (cur rest) = false ->
  skip_atoi_loop i (rev ds ++ rest) = (i * 10 ^ lenZ ds + dec_value ds, rest).
Proof.
  induction ds as [|c ds IH] using rev_ind; intros i Hds Hr.
  - simpl. destruct rest as [|c rest]; simpl skip_atoi_loop; [f_equal; unfold lenZ; simpl; lia|].
    change (cur (c :: rest)) with c in Hr. rewrite Hr. f_equal. unfold lenZ. simpl. lia.
  - apply Forall_app in Hds as [Hds Hc]. apply Forall_cons in Hc as [Hc _].
    rewrite rev_app_distr. simpl.
    assert (ISDIGIT c = true) as -> by (unfold ISDIGIT, wrap; rewrite Z.mod_small; lia).
    rewrite IH by done. f_equal. rewrite lenZ_app. change (lenZ [c]) with 1.
    rewrite Z.pow_add_r by (unfold lenZ; lia).
    assert (forall l, dec_value (l ++ [c]) = dec_value l + 10 ^ lenZ l * (c - 48)) as ->.
    { clear. induction l as [|d l IH]; simpl; [unfold lenZ; simpl; lia|]. rewrite IH.
      replace (lenZ (d :: l)) with (Z.succ (lenZ l)) by (unfold lenZ; simpl; lia).
      rewrite Z.pow_succ_r by (unfold lenZ; lia). lia. }
    lia.
Qed.

(** Printing a 32-bit number in decimal and reading it back with
    skip_atoi gives the number, whatever text follows it. *)
Lemma decimal_roundtrip (n type : Z) (rest : list Z) :
  0 <= n < 2 ^ 32 -> ISDIGIT (cur rest) = false ->
  skip_atoi (digits_text (i32 n) 10 type ++ rest) = (n, rest).
Proof.
  intros Hn Hr. unfold skip_atoi, digits_text. rewrite i32_zero by done.
  destruct (Z.eqb_spec n 0) as [->|Hne].
  - simpl. destruct rest as [|c rest]; [done|].
    change (cur (c :: rest)) with c in Hr. simpl. by rewrite Hr.
  - destruct (number_digits_dec type 16 n) as [H1 H2]; [done|lia|].
    rewrite skip_atoi_digits by done. by rewrite H2.
Qed.

Lemma decimal_roundtrip_witness :
  skip_atoi (digits_text (i32 4294967295) 10 0 ++ bytes "ms") = (4294967295, bytes "ms").
Proof. apply (decimal_roundtrip 4294967295 0 (bytes "ms")); [lia|reflexivity]. Defined.

(** [%o] prints the same digits as [%x]: [divide] knows only 10 and 16. *)
Lemma number_text_octal num width precision type :
  number_text num 8 width precision type = number_text num 16 width precision type.
Proof.
  assert (forall fuel ds n, number_digits fuel ds n 8 = number_digits fuel ds n 16) as H.
  { induction fuel as [|fuel IH]; intros ds n; [done|]. simpl. destruct (negb _); [|done].
    by rewrite IH. }
  unfold number_text, digits_text. destruct (sign_text num type) as [sg n]. by rewrite !H.
Qed.

(** The fuel of [format], the length of the format, is enough: no format runs
    out of it. *)
Lemma drop_length_le {A} n (l : list A) : (length (drop n l) <= length l)%nat.
Proof. rewrite length_drop. lia. Qed.

Lemma get_flags_shorter fmt : forall flags flags' fmt',
  get_flags flags fmt = (flags', fmt') -> (length fmt' <= length fmt)%nat.
Proof.
  induction fmt as [|c fmt IH]; intros flags flags' fmt' H; simpl in H; [by simplify_eq|].
  repeat (destruct (c =? _); [apply IH in H; simpl; lia|]). by simplify_eq.
Qed.

Lemma skip_atoi_shorter s : forall i n s',
  skip_atoi_loop i s = (n, s') -> (length s' <= length s)%nat.
Proof.
  induction s as [|c s IH]; intros i n s' H; simpl in H; [by simplify_eq|].
  destruct (ISDIGIT c); [|by simplify_eq]. apply IH in H. simpl. lia.
Qed.

Lemma get_width_shorter flags fmt args w flags' fmt' args' :
  get_width flags fmt args = Some (w, flags', fmt', args') -> (length fmt' <= length fmt)%nat.
Proof.
  unfold get_width. intros H. destruct (ISDIGIT _).
  - destruct (skip_atoi fmt) as [n s] eqn:E. apply skip_atoi_shorter in E. by simplify_eq.
  - destruct (cur fmt =? 42); [|by simplify_eq].
    destruct (va_int args) as [[z r]|]; [|done]. simpl in H. pose proof (drop_length_le 1 fmt).
    destruct (z <? 0); by simplify_eq.
Qed.

Lemma get_precision_shorter fmt args p fmt' args' :
  get_precision fmt args = Some (p, fmt', args') -> (length fmt' <= length fmt)%nat.
Proof.
  unfold get_precision. intros H. pose proof (drop_length_le 1 fmt).
  destruct (cur fmt =? 46); [|by simplify_eq].
  destruct (ISDIGIT _).
  - destruct (skip_atoi _) as [n s] eqn:E. apply skip_atoi_shorter in E. simpl in H.
    simplify_eq. lia.
  - destruct (cur (drop 1 fmt) =? 42); [|simpl in H; simplify_eq; lia].
    destruct (va_int args) as [[z r]|]; [|done]. simpl in H. simplify_eq.
    pose proof (drop_length_le 1 (drop 1 fmt)). lia.
Qed.

Lemma get_qualifier_shorter fmt q fmt' :
  get_qualifier fmt = (q, fmt') -> (length fmt' <= length fmt)%nat.
Proof.
  unfold get_qualifier. pose proof (drop_length_le 1 fmt). destruct (_ || _); intros [= _ <-]; lia.
Qed.

Lemma conversion_shorter {S} (put : Z -> S -> S) fmt args st st' fmt' args' :
  conversion put fmt args st = Some (st', fmt', args') -> (length fmt' <= length fmt)%nat.
Proof.
  unfold conversion. destruct (get_flags 0 fmt) as [flags0 fmt1] eqn:E1.
  apply get_flags_shorter in E1.
  destruct (get_width flags0 fmt1 args) as [[[[width flags] fmt2] args2]|] eqn:E2; [|done].
  apply get_width_shorter in E2. simpl.
  destruct (get_precision fmt2 args2) as [[[precision fmt3] args3]|] eqn:E3; [|done].
  apply get_precision_shorter in E3. simpl.
  destruct (get_qualifier fmt3) as [qualifier fmt4] eqn:E4. apply get_qualifier_shorter in E4.
  pose proof (drop_length_le 1 fmt4). unfold print_int.
  intros H'. cut (fmt' = drop 1 fmt4); [intros ->; lia|]. revert H'.
  repeat (case_match; simpl; try done; try (by intros; simplify_eq)).
  all: destruct (va_int args3) as [[? ?]|]; simpl; try done; intros; by simplify_eq.
Qed.

Lemma format_fuel {S} (put : Z -> S -> S) fuel : forall fmt args st,
  (length fmt <= fuel)%nat -> format_loop put fuel fmt args st = format put fmt args st.
Proof.
  assert (forall f1 f2 fmt args st, (length fmt <= f1)%nat -> (length fmt <= f2)%nat ->
    format_loop put f1 fmt args st = format_loop put f2 fmt args st) as H.
  { induction f1 as [|f1 IH]; intros [|f2] [|c fmt] args st H1 H2; simpl in *; try done; try lia.
    destruct (negb _); [apply IH; lia|].
    destruct (conversion put fmt args st) as [[[st' fmt'] args']|] eqn:E; [|done]. simpl.
    apply conversion_shorter in E. apply IH; lia. }
  intros fmt args st Hf. by apply H.
Qed.

(** rt_kprintf sends the text when it has less than 255 characters; a longer
    one is sent as its first 254 characters and the terminating NUL. *)
Lemma rt_kprintf_sends buf fmt args m text :
  0 <= buf -> buf + RT_CONSOLEBUF_SIZE < 2 ^ 32 ->
  text_of fmt args = Some text -> lenZ text < 2 ^ 31 ->
  exists m', rt_kprintf buf fmt args m =
    Some (if lenZ text <? 255 then map u8 text else map u8 (take 254 text) ++ [0], m').
Proof.
  intros Hb He Ht Hl. unfold rt_kprintf, RT_CONSOLEBUF_SIZE in *. change (256 - 1) with 255.
  destruct (vsnprintf_layout buf 255 fmt args m text) as (m' & -> & Hm); try done; try lia.
  exists m'. cbn [mbind option_bind]. rewrite (wrap_id 32) by (unfold fits, lenZ in *; lia).
  f_equal. f_equal. apply list_eq. intros i. unfold lenZ in *.
  assert (forall k, (i < k)%nat -> map (fun j => m' (buf + Z.of_nat j)) (seq 0 k) !! i =
            Some (m' (buf + Z.of_nat i))) as Hin.
  { intros k Hk. rewrite list_lookup_fmap, lookup_seq_lt by done. done. }
  assert (forall k, (k <= i)%nat -> map (fun j => m' (buf + Z.of_nat j)) (seq 0 k) !! i = None) as Hout.
  { intros k Hk. apply lookup_ge_None_2. by rewrite length_map, length_seq. }
  assert (forall k, (i < k)%nat -> (k <= length text)%nat -> (k <= 254)%nat ->
            Some (m' (buf + Z.of_nat i)) = u8 <$> text !! i) as Hval.
  { intros k H1 H2 H3. rewrite Hm. unfold in_range, nthZ. cbv zeta.
    destruct (lookup_lt_is_Some_2 text i) as [c Hc]; [lia|].
    replace (Z.to_nat (buf + Z.of_nat i - buf)) with i by lia.
    rewrite nth_lookup, Hc. simpl. repeat case_cmp; simpl; try done; lia. }
  destruct (Z.ltb_spec (Z.of_nat (length text)) 255).
  - destruct (Z.ltb_spec 255 (Z.of_nat (length text))); [lia|].
    rewrite Nat2Z.id. destruct (decide (i < length text)%nat) as [Hi|Hi].
    + rewrite Hin, list_lookup_fmap by done. apply (Hval (length text)); lia.
    + rewrite Hout, list_lookup_fmap, lookup_ge_None_2 by lia. done.
  - replace (Z.to_nat _) with 255%nat by (case_cmp; lia).
    destruct (decide (i < 254)%nat) as [Hi|Hi].
    + rewrite Hin, lookup_app_l, list_lookup_fmap, lookup_take_lt
        by (rewrite ?length_map, ?length_take; lia).
      apply (Hval 254%nat); lia.
    + assert (length (map u8 (take 254 text)) = 254%nat) as H254.
      { rewrite length_map, length_take. lia. }
      rewrite lookup_app_r, H254 by lia.
      destruct (decide (i = 254%nat)) as [->|Hne].
      * rewrite Hin by lia. simpl. rewrite Hm. unfold in_range. cbv zeta.
        repeat case_cmp; simpl; try done; lia.
      * rewrite Hout by lia. destruct (i - 254)%nat as [|k] eqn:E; [lia|]. done.
Qed.

(** What a buffer of [size] bytes holds as a C string after
    [rt_snprintf(buf, size, fmt, ...)]: the text, cut. *)
Definition snprintf_text (size : Z) (fmt : list Z) (args : list arg) : option (list Z) :=
  take (Z.to_nat (size - 1)) <$> text_of fmt args.

(** The buffer of a call of rt_snprintf holds that string. *)
Lemma snprintf_text_stored buf size fmt args m text :
  0 <= buf -> 0 < size -> buf + size < 2 ^ 32 ->
  text_of fmt args = Some text -> lenZ text < 2 ^ 31 -> Forall (fits 8) text ->
  exists n m' shown, rt_snprintf buf size fmt args m = Some (n, m') /\
    snprintf_text size fmt args = Some shown /\
    (forall i c, shown !! i = Some c -> m' (buf + Z.of_nat i) = c) /\ m' (buf + lenZ shown) = 0.
Proof.
  intros Hb Hs He Ht Hl Hok.
  destruct (vsnprintf_layout buf size fmt args m text) as (m' & H & Hm); try done.
  exists (lenZ text), m', (take (Z.to_nat (size - 1)) text). unfold lenZ in *. split_and!; try done.
  - unfold snprintf_text. by rewrite Ht.
  - intros i c Hi. apply lookup_take_Some in Hi as [Hi Hlt].
    pose proof (lookup_lt_Some _ _ _ Hi). rewrite Hm. unfold in_range, nthZ. cbv zeta.
    replace (Z.to_nat (buf + Z.of_nat i - buf)) with i by lia. rewrite nth_lookup, Hi. simpl.
    rewrite wrap_id by (by eapply Forall_lookup_1). repeat case_cmp; simpl; try done; lia.
  - rewrite length_take, Hm. unfold in_range. cbv zeta. repeat case_cmp; simpl; try done; lia.
Qed.

(** ** Evaluating formats *)
Lemma format_char {S} (put : Z -> S -> S) c fmt args st :
  c <> 37 -> format put (c :: fmt) args st = format put fmt args (put c st).
Proof.
  intros Hc. unfold format at 1. simpl. destruct (Z.eqb_spec c 37); [done|]. simpl.
  by apply format_fuel.
Qed.

Lemma format_conv {S} (put : Z -> S -> S) fmt args st st' fmt' args' :
  conversion put fmt args st = Some (st', fmt', args') ->
  format put (37 :: fmt) args st = format put fmt' args' st'.
Proof.
  intros H. unfold format at 1. simpl. rewrite H. simpl. apply format_fuel.
  by apply conversion_shorter in H.
Qed.

(** An unsigned decimal field of [z] (taken on 32 bits), zero-filled to [w]. *)
Definition dec (w z : Z) : list Z :=
  let ds := digits_text (i32 z) 10 0 in replicate (Z.to_nat (w - lenZ ds)) 48 ++ ds.

Lemma i32_u32 n : i32 (u32 n) = i32 n.
Proof. unfold swrap, wrap. by rewrite Zplus_mod_idemp_l. Qed.

Lemma i32_i32 n : i32 (i32 n) = i32 n.
Proof. by rewrite <- i32_u32, u32_i32, i32_u32. Qed.

Lemma digits_text_nonempty z base type : 1 <= lenZ (digits_text z base type).
Proof.
  unfold digits_text. destruct (Z.eqb_spec z 0) as [|H]; [done|].
  unfold lenZ. rewrite length_rev. cbn [number_digits].
  destruct (Z.eqb_spec z 0); [done|]. simpl. destruct (divide z base). simpl. lia.
Qed.

Lemma number_text_dec z w type :
  (type = 0 /\ w <= 1) \/ type = ZEROPAD ->
  number_text (i32 (u32 (i32 z))) 10 w (-1) type = dec w z.
Proof.
  intros H. rewrite i32_u32, i32_i32. unfold number_text, sign_text, dec.
  assert (digits_text (i32 z) 10 type = digits_text (i32 z) 10 0) as Hd
    by (destruct H as [[-> _]| ->]; done).
  pose proof (digits_text_nonempty (i32 z) 10 0) as Hne.
  assert (has type SIGN = false /\ has type LEFT = false) as [-> ->]
    by (destruct H as [[-> _]| ->]; done).
  cbv beta iota zeta. rewrite Hd. set (ds := digits_text (i32 z) 10 0) in *.
  change (-1 =? 0) with false. cbv iota. change (lenZ []) with 0. rewrite !Z.sub_0_r.
  rewrite (replicate_nonpos 48 (-1 - lenZ ds)), Z.max_r by lia.
  destruct H as [[-> Hw]| ->].
  - change (has 0 ZEROPAD) with false. cbv iota. rewrite (replicate_nonpos _ (w - lenZ ds)) by lia.
    by rewrite replicate_nonpos by lia.
  - done.
Qed.

Section Conversions.
Context {S : Type} (put : Z -> S -> S).

Lemma conv_u z fmt args st :
  conversion put (117 :: fmt) (AInt z :: args) st = Some (put_all put (dec 0 z) st, fmt, args).
Proof.
  transitivity (Some (print_number put (i32 (u32 (i32 z))) 10 (-1) (-1) 0 st, fmt, args));
    [reflexivity|rewrite print_number_text].
  rewrite number_text_dec by (left; lia). unfold dec.
  pose proof (digits_text_nonempty (i32 z) 10 0). by rewrite !replicate_nonpos by lia.
Qed.

(** [%0wu] for a one-digit width. *)
Lemma conv_0u w z fmt args st :
  1 <= w <= 9 ->
  conversion put (48 :: 48 + w :: 117 :: fmt) (AInt z :: args) st =
  Some (put_all put (dec w z) st, fmt, args).
Proof.
  intros Hw.
  assert (w = 1 \/ w = 2 \/ w = 3 \/ w = 4 \/ w = 5 \/ w = 6 \/ w = 7 \/ w = 8 \/ w = 9) as H by lia.
  transitivity (Some (print_number put (i32 (u32 (i32 z))) 10 w (-1) ZEROPAD st, fmt, args));
    [by destruct_or! H; subst|].
  rewrite print_number_text, number_text_dec by (by right). done.
Qed.

Definition conv_02u z fmt args st := conv_0u 2 z fmt args st ltac:(lia)
  : conversion put (48 :: 50 :: 117 :: fmt) (AInt z :: args) st = _.
Definition conv_03u z fmt args st := conv_0u 3 z fmt args st ltac:(lia)
  : conversion put (48 :: 51 :: 117 :: fmt) (AInt z :: args) st = _.

Lemma conv_s s fmt args st :
  conversion put (115 :: fmt) (AStr (Some s) :: args) st = Some (put_all put s st, fmt, args).
Proof.
  transitivity (Some (print_str put (Some s) (-1) (-1) 0 st, fmt, args));
    [reflexivity|rewrite print_str_text; unfold str_text].
  change (0 <? -1) with false. change (has 0 LEFT) with false. cbv iota.
  by rewrite replicate_nonpos by (unfold lenZ; lia).
Qed.
End Conversions.

(** The characters of a decimal field. *)
Lemma dec_digits w z : Forall (fun c => 48 <= c < 58) (dec w z).
Proof.
  unfold dec. apply Forall_app. split; [apply Forall_replicate; lia|].
  unfold digits_text. destruct (i32 z =? 0); [repeat constructor; lia|].
  apply Forall_rev. rewrite <- i32_u32. apply (number_digits_dec 0 16).
  - apply (wrap_bound 32). lia.
  - pose proof (wrap_bound 32 z). simpl. lia.
Qed.

Lemma skip_atoi_zeros n l : forall i, skip_atoi_loop i (replicate n 48 ++ l) =
  skip_atoi_loop (i * 10 ^ Z.of_nat n) l.
Proof.
  induction n as [|n IH]; intros i; [simpl; f_equal; lia|]. cbn [replicate app skip_atoi_loop].
  change (ISDIGIT 48) with true. cbv iota. rewrite IH. f_equal.
  rewrite Nat2Z.inj_succ, Z.pow_succ_r by lia. lia.
Qed.

(** Reading a decimal field back gives the number. *)
Lemma skip_atoi_dec w z rest :
  0 <= z < 2 ^ 32 -> ISDIGIT (cur rest) = false -> skip_atoi (dec w z ++ rest) = (z, rest).
Proof.
  intros Hz Hr. unfold dec. rewrite <- app_assoc. unfold skip_atoi. rewrite skip_atoi_zeros.
  change (0 * _) with 0. unfold digits_text. rewrite i32_zero by done.
  destruct (Z.eqb_spec z 0) as [->|Hne].
  - simpl. destruct rest as [|c rest]; [done|].
    change (cur (c :: rest)) with c in Hr. simpl. by rewrite Hr.
  - destruct (number_digits_dec 0 16 z) as [H1 H2]; [done|simpl; lia|].
    rewrite skip_atoi_digits by done. by rewrite H2.
Qed.

(** The length of a field: the width, or the digits of a number that fits. *)
Lemma number_digits_length ds base fuel : forall n, (length (number_digits fuel ds n base) <= fuel)%nat.
Proof.
  induction fuel as [|fuel IH]; intros n; [done|]. simpl.
  destruct (negb _); [|simpl; lia]. destruct (divide n base) as [r q]. simpl. specialize (IH q). lia.
Qed.

Lemma number_digits_short type k fuel : forall n,
  0 <= n < 2 ^ 32 -> n < 10 ^ Z.of_nat k -> (k <= fuel)%nat ->
  (length (number_digits fuel (if has type LARGE then large_digits else small_digits) (i32 n) 10)
     <= k)%nat.
Proof.
  revert fuel. induction k as [|k IH]; intros fuel n Hn Hk Hf.
  - simpl in Hk. replace n with 0 by lia. destruct fuel; simpl; lia.
  - destruct fuel as [|fuel]; [lia|]. cbn [number_digits]. rewrite i32_zero by done.
    destruct (Z.eqb_spec n 0) as [->|Hne]; [simpl; lia|]. simpl negb. cbv iota.
    unfold divide. cbn [Z.eqb Pos.eqb]. rewrite u32_i32, (wrap_id 32 n) by done.
    simpl. apply le_n_S. apply IH; [dlia| |lia].
    apply Z.div_lt_upper_bound; [lia|]. rewrite Nat2Z.inj_succ, Z.pow_succ_r in Hk by lia. lia.
Qed.

Lemma dec_length w z k :
  0 <= z < 2 ^ 32 -> z < 10 ^ Z.of_nat k -> (1 <= k <= 16)%nat ->
  lenZ (dec w z) <= Z.max w (Z.of_nat k).
Proof.
  intros Hz Hk H1. unfold dec. rewrite lenZ_app. unfold lenZ at 1. rewrite length_replicate.
  assert (lenZ (digits_text (i32 z) 10 0) <= Z.of_nat k); [|lia].
  unfold digits_text. destruct (i32 z =? 0); [unfold lenZ; simpl; lia|].
  unfold lenZ. rewrite length_rev. apply Nat2Z.inj_le, (number_digits_short 0 k 16); done || lia.
Qed.

(** Evaluate [format] on a literal format. *)
Ltac format_steps :=
  repeat first
    [ rewrite format_char by (vm_compute; discriminate)
    | rewrite (format_conv _ _ _ _ _ _ _ (conv_u _ _ _ _ _))
    | rewrite (format_conv _ _ _ _ _ _ _ (conv_02u _ _ _ _ _))
    | rewrite (format_conv _ _ _ _ _ _ _ (conv_03u _ _ _ _ _))
    | rewrite (format_conv _ _ _ _ _ _ _ (conv_s _ _ _ _ _)) ].

Lemma put_all_list l k : put_all (fun c l => l ++ [c]) l k = k ++ l.
Proof. apply put_all_snoc. Qed.

(** [text_of] of a literal format, as a concatenation. *)
Ltac text_steps :=
  unfold text_of; cbn [bytes map String.list_ascii_of_string app];
  format_steps; cbn [format format_loop length];
  rewrite ?put_all_list, <- ?app_assoc; reflexivity.
