(* ===== verification/Oled.v ===== *)
(** * The OLED driver (qu_dong/OLED/OLED.c, OLED_Data.c)

    The frame buffer OLED_DisplayBuf is flat memory: byte [128 * page + column].
    The bit-banged I2C bus is the sequence of levels written to the two pins.
    [int16_t] and [uint8_t] loop counters wrap.  Delays have no
    effect in the model; [Board] connects the levels with the registers of the pins. *)
From S2P Require Import Prelude.

(** ** Counted loops

    [for (i = lo; i < hi; i = next(i)) body(i);], for [hi - lo] rounds at most. *)
Definition for_loop {S} (next : Z -> Z) (lo hi : Z) (body : Z -> S -> S) (s : S) : S :=
  snd (while (Z.to_nat (hi - lo)) (fun '(i, _) => i <? hi)
         (fun '(i, s) => (next i, body i s)) (lo, s)).

Definition next_i16 (i : Z) : Z := i16 (i + 1).
Definition next_u8 (i : Z) : Z := u8 (i + 1).

(** ** The 6x8 font *)
Definition OLED_F6x8 : list (list Z) := [
  [0x00; 0x00; 0x00; 0x00; 0x00; 0x00];
  [0x00; 0x00; 0x00; 0x2F; 0x00; 0x00];
  [0x00; 0x00; 0x07; 0x00; 0x07; 0x00];
  [0x00; 0x14; 0x7F; 0x14; 0x7F; 0x14];
  [0x00; 0x24; 0x2A; 0x7F; 0x2A; 0x12];
  [0x00; 0x23; 0x13; 0x08; 0x64; 0x62];
  [0x00; 0x36; 0x49; 0x55; 0x22; 0x50];
  [0x00; 0x00; 0x00; 0x07; 0x00; 0x00];
  [0x00; 0x00; 0x1C; 0x22; 0x41; 0x00];
  [0x00; 0x00; 0x41; 0x22; 0x1C; 0x00];
  [0x00; 0x14; 0x08; 0x3E; 0x08; 0x14];
  [0x00; 0x08; 0x08; 0x3E; 0x08; 0x08];
  [0x00; 0x00; 0x00; 0xA0; 0x60; 0x00];
  [0x00; 0x08; 0x08; 0x08; 0x08; 0x08];
  [0x00; 0x00; 0x60; 0x60; 0x00; 0x00];
  [0x00; 0x20; 0x10; 0x08; 0x04; 0x02];
  [0x00; 0x3E; 0x51; 0x49; 0x45; 0x3E];
  [0x00; 0x00; 0x42; 0x7F; 0x40; 0x00];
  [0x00; 0x42; 0x61; 0x51; 0x49; 0x46];
  [0x00; 0x21; 0x41; 0x45; 0x4B; 0x31];
  [0x00; 0x18; 0x14; 0x12; 0x7F; 0x10];
  [0x00; 0x27; 0x45; 0x45; 0x45; 0x39];
  [0x00; 0x3C; 0x4A; 0x49; 0x49; 0x30];
  [0x00; 0x01; 0x71; 0x09; 0x05; 0x03];
  [0x00; 0x36; 0x49; 0x49; 0x49; 0x36];
  [0x00; 0x06; 0x49; 0x49; 0x29; 0x1E];
  [0x00; 0x00; 0x36; 0x36; 0x00; 0x00];
  [0x00; 0x00; 0x56; 0x36; 0x00; 0x00];
  [0x00; 0x08; 0x14; 0x22; 0x41; 0x00];
  [0x00; 0x14; 0x14; 0x14; 0x14; 0x14];
  [0x00; 0x00; 0x41; 0x22; 0x14; 0x08];
  [0x00; 0x02; 0x01; 0x51; 0x09; 0x06];
  [0x00; 0x3E; 0x49; 0x55; 0x59; 0x2E];
  [0x00; 0x7C; 0x12; 0x11; 0x12; 0x7C];
  [0x00; 0x7F; 0x49; 0x49; 0x49; 0x36];
  [0x00; 0x3E; 0x41; 0x41; 0x41; 0x22];
  [0x00; 0x7F; 0x41; 0x41; 0x22; 0x1C];
  [0x00; 0x7F; 0x49; 0x49; 0x49; 0x41];
  [0x00; 0x7F; 0x09; 0x09; 0x09; 0x01];
  [0x00; 0x3E; 0x41; 0x49; 0x49; 0x7A];
  [0x00; 0x7F; 0x08; 0x08; 0x08; 0x7F];
  [0x00; 0x00; 0x41; 0x7F; 0x41; 0x00];
  [0x00; 0x20; 0x40; 0x41; 0x3F; 0x01];
  [0x00; 0x7F; 0x08; 0x14; 0x22; 0x41];
  [0x00; 0x7F; 0x40; 0x40; 0x40; 0x40];
  [0x00; 0x7F; 0x02; 0x0C; 0x02; 0x7F];
  [0x00; 0x7F; 0x04; 0x08; 0x10; 0x7F];
  [0x00; 0x3E; 0x41; 0x41; 0x41; 0x3E];
  [0x00; 0x7F; 0x09; 0x09; 0x09; 0x06];
  [0x00; 0x3E; 0x41; 0x51; 0x21; 0x5E];
  [0x00; 0x7F; 0x09; 0x19; 0x29; 0x46];
  [0x00; 0x46; 0x49; 0x49; 0x49; 0x31];
  [0x00; 0x01; 0x01; 0x7F; 0x01; 0x01];
  [0x00; 0x3F; 0x40; 0x40; 0x40; 0x3F];
  [0x00; 0x1F; 0x20; 0x40; 0x20; 0x1F];
  [0x00; 0x3F; 0x40; 0x38; 0x40; 0x3F];
  [0x00; 0x63; 0x14; 0x08; 0x14; 0x63];
  [0x00; 0x07; 0x08; 0x70; 0x08; 0x07];
  [0x00; 0x61; 0x51; 0x49; 0x45; 0x43];
  [0x00; 0x00; 0x7F; 0x41; 0x41; 0x00];
  [0x00; 0x02; 0x04; 0x08; 0x10; 0x20];
  [0x00; 0x00; 0x41; 0x41; 0x7F; 0x00];
  [0x00; 0x04; 0x02; 0x01; 0x02; 0x04];
  [0x00; 0x40; 0x40; 0x40; 0x40; 0x40];
  [0x00; 0x00; 0x01; 0x02; 0x04; 0x00];
  [0x00; 0x20; 0x54; 0x54; 0x54; 0x78];
  [0x00; 0x7F; 0x48; 0x44; 0x44; 0x38];
  [0x00; 0x38; 0x44; 0x44; 0x44; 0x20];
  [0x00; 0x38; 0x44; 0x44; 0x48; 0x7F];
  [0x00; 0x38; 0x54; 0x54; 0x54; 0x18];
  [0x00; 0x08; 0x7E; 0x09; 0x01; 0x02];
  [0x00; 0x18; 0xA4; 0xA4; 0xA4; 0x7C];
  [0x00; 0x7F; 0x08; 0x04; 0x04; 0x78];
  [0x00; 0x00; 0x44; 0x7D; 0x40; 0x00];
  [0x00; 0x40; 0x80; 0x84; 0x7D; 0x00];
  [0x00; 0x7F; 0x10; 0x28; 0x44; 0x00];
  [0x00; 0x00; 0x41; 0x7F; 0x40; 0x00];
  [0x00; 0x7C; 0x04; 0x18; 0x04; 0x78];
  [0x00; 0x7C; 0x08; 0x04; 0x04; 0x78];
  [0x00; 0x38; 0x44; 0x44; 0x44; 0x38];
  [0x00; 0xFC; 0x24; 0x24; 0x24; 0x18];
  [0x00; 0x18; 0x24; 0x24; 0x18; 0xFC];
  [0x00; 0x7C; 0x08; 0x04; 0x04; 0x08];
  [0x00; 0x48; 0x54; 0x54; 0x54; 0x20];
  [0x00; 0x04; 0x3F; 0x44; 0x40; 0x20];
  [0x00; 0x3C; 0x40; 0x40; 0x20; 0x7C];
  [0x00; 0x1C; 0x20; 0x40; 0x20; 0x1C];
  [0x00; 0x3C; 0x40; 0x30; 0x40; 0x3C];
  [0x00; 0x44; 0x28; 0x10; 0x28; 0x44];
  [0x00; 0x1C; 0xA0; 0xA0; 0xA0; 0x7C];
  [0x00; 0x44; 0x64; 0x54; 0x4C; 0x44];
  [0x00; 0x00; 0x08; 0x7F; 0x41; 0x00];
  [0x00; 0x00; 0x00; 0x7F; 0x00; 0x00];
  [0x00; 0x00; 0x41; 0x7F; 0x08; 0x00];
  [0x00; 0x08; 0x04; 0x08; 0x10; 0x08]
].

(** ** State *)

(** A level written to a pin; the bus is the levels written so far. *)
Inductive level := SCL (b : bool) | SDA (b : bool).

Definition pins := list level.

Record oled := { OLED_DisplayBuf : mem; s_oled_addr : Z; bus : pins }.

(** ** Software I2C *)
Definition OLED_W_SCL (BitValue : Z) (p : pins) : pins := p ++ [SCL (negb (BitValue =? 0))].
Definition OLED_W_SDA (BitValue : Z) (p : pins) : pins := p ++ [SDA (negb (BitValue =? 0))].

Definition OLED_I2C_Start (p : pins) : pins :=
  OLED_W_SCL 0 (OLED_W_SDA 0 (OLED_W_SCL 1 (OLED_W_SDA 1 p))).

Definition OLED_I2C_Stop (p : pins) : pins :=
  OLED_W_SDA 1 (OLED_W_SCL 1 (OLED_W_SDA 0 p)).

Definition OLED_I2C_SendByte (Byte : Z) (p : pins) : pins :=
  let p := for_loop next_u8 0 8 (fun i p =>
    let b := if Z.land Byte (Z.shiftr 0x80 i) =? 0 then 0 else 1 in
    OLED_W_SCL 0 (OLED_W_SCL 1 (OLED_W_SDA b p))) p in
  OLED_W_SCL 0 (OLED_W_SCL 1 (OLED_W_SDA 1 p)).

Definition OLED_SetI2CAddress (addr : Z) (o : oled) : oled := {| o with s_oled_addr := addr |}.

Definition on_bus (f : pins -> pins) (o : oled) : oled := {| o with bus := f (bus o) |}.

Definition OLED_WriteCommand (Command : Z) (o : oled) : oled :=
  on_bus (fun p =>
    let p := OLED_I2C_Start p in
    let p := OLED_I2C_SendByte (s_oled_addr o) p in
    let p := OLED_I2C_SendByte 0x00 p in
    let p := OLED_I2C_SendByte Command p in
    OLED_I2C_Stop p) o.

(** [Data] is the index of the first byte in the frame buffer. *)
Definition OLED_WriteData (Data Count : Z) (o : oled) : oled :=
  on_bus (fun p =>
    let p := OLED_I2C_Start p in
    let p := OLED_I2C_SendByte (s_oled_addr o) p in
    let p := OLED_I2C_SendByte 0x40 p in
    let p := for_loop next_u8 0 Count
      (fun i => OLED_I2C_SendByte (OLED_DisplayBuf o (Data + i))) p in
    OLED_I2C_Stop p) o.

Definition OLED_SetCursor (Page X : Z) (o : oled) : oled :=
  let o := OLED_WriteCommand (Z.lor 0xB0 Page) o in
  let o := OLED_WriteCommand (Z.lor 0x10 (Z.shiftr (Z.land X 0xF0) 4)) o in
  OLED_WriteCommand (Z.lor 0x00 (Z.land X 0x0F)) o.

Definition OLED_Update (o : oled) : oled :=
  for_loop next_u8 0 8 (fun j o => OLED_WriteData (128 * j) 128 (OLED_SetCursor j 0 o)) o.

(** C division truncates: [Z.quot] and [Z.rem]. *)
Definition OLED_UpdateArea (X Y Width Height : Z) (o : oled) : oled :=
  let Page := i16 (Z.quot Y 8) in
  let Page1 := i16 (Z.quot (Y + Height - 1) 8 + 1) in
  let '(Page, Page1) := if Y <? 0 then (i16 (Page - 1), i16 (Page1 - 1)) else (Page, Page1) in
  for_loop next_i16 Page Page1 (fun j o =>
    if (0 <=? X) && (X <=? 127) && (0 <=? j) && (j <=? 7) then
      OLED_WriteData (128 * j + X) Width (OLED_SetCursor (u8 j) (u8 X) o)
    else o) o.

(** ** Drawing in the frame buffer *)
Definition set_buf (m : mem) (o : oled) : oled := {| o with OLED_DisplayBuf := m |}.

Definition OLED_Clear (o : oled) : oled :=
  set_buf (for_loop next_u8 0 8 (fun j =>
    for_loop next_u8 0 128 (fun i => store8 (128 * j + i) 0)) (OLED_DisplayBuf o)) o.

Definition clear_pixel (i j : Z) (m : mem) : mem :=
  if (0 <=? i) && (i <=? 127) && (0 <=? j) && (j <=? 63) then
    let a := 128 * Z.quot j 8 + i in
    store8 a (Z.land (m a) (Z.lnot (Z.shiftl 1 (Z.rem j 8)))) m
  else m.

Definition clear_area (X Y Width Height : Z) : mem -> mem :=
  for_loop next_i16 Y (Y + Height) (fun j =>
    for_loop next_i16 X (X + Width) (fun i => clear_pixel i j)).

Definition OLED_ClearArea (X Y Width Height : Z) (o : oled) : oled :=
  set_buf (clear_area X Y Width Height (OLED_DisplayBuf o)) o.

(** One column of eight pixels of an image. *)
Definition show_column (X Y Width : Z) (Image : Z -> Z) (j i : Z) (m : mem) : mem :=
  if (0 <=? X + i) && (X + i <=? 127) then
    let Page := i16 (Z.quot Y 8) in
    let Shift := i16 (Z.rem Y 8) in
    let '(Page, Shift) := if Y <? 0 then (i16 (Page - 1), i16 (Shift + 8)) else (Page, Shift) in
    let m :=
      if (0 <=? Page + j) && (Page + j <=? 7) then
        let a := 128 * (Page + j) + (X + i) in
        store8 a (Z.lor (m a) (Z.shiftl (Image (j * Width + i)) Shift)) m
      else m in
    if (0 <=? Page + j + 1) && (Page + j + 1 <=? 7) then
      let a := 128 * (Page + j + 1) + (X + i) in
      store8 a (Z.lor (m a) (Z.shiftr (Image (j * Width + i)) (8 - Shift))) m
    else m
  else m.

Definition show_image (X Y Width Height : Z) (Image : Z -> Z) (m : mem) : mem :=
  for_loop next_u8 0 (Z.quot (Height - 1) 8 + 1) (fun j =>
    for_loop next_u8 0 Width (show_column X Y Width Image j))
    (clear_area X Y Width Height m).

Definition OLED_ShowImage (X Y Width Height : Z) (Image : Z -> Z) (o : oled) : oled :=
  set_buf (show_image X Y Width Height Image (OLED_DisplayBuf o)) o.

Definition OLED_DrawPoint (X Y : Z) (o : oled) : oled :=
  if (0 <=? X) && (X <=? 127) && (0 <=? Y) && (Y <=? 63) then
    let a := 128 * Z.quot Y 8 + X in
    set_buf (store8 a (Z.lor (OLED_DisplayBuf o a) (Z.shiftl 1 (Z.rem Y 8)))
               (OLED_DisplayBuf o)) o
  else o.

Definition OLED_GetPoint (X Y : Z) (o : oled) : Z :=
  if (0 <=? X) && (X <=? 127) && (0 <=? Y) && (Y <=? 63) then
    if negb (Z.land (OLED_DisplayBuf o (128 * Z.quot Y 8 + X)) (Z.shiftl 1 (Z.rem Y 8)) =? 0)
    then 1 else 0
  else 0.

Definition OLED_8X16 : Z := 8.
Definition OLED_6X8 : Z := 6.

(** The glyph of a character; a code outside the font reads out of bounds. *)
Definition glyph (Char : Z) : option (list Z) :=
  let k := Char - 32 in
  if k <? 0 then None else OLED_F6x8 !! Z.to_nat k.

Definition OLED_ShowChar (X Y Char FontSize : Z) (o : oled) : option oled :=
  if (FontSize =? OLED_8X16) || (FontSize =? OLED_6X8) then
    g ← glyph Char; Some (OLED_ShowImage X Y 6 8 (nthZ 0 g) o)
  else Some o.

(** The characters of the string from the current one on. *)
Fixpoint show_string (X Y : Z) (text : list Z) (XOffset FontSize : Z) (o : oled)
  : option oled :=
  match text with
  | [] => Some o
  | c :: text =>
      o ← OLED_ShowChar (i16 (X + XOffset)) Y c FontSize o;
      show_string X Y text (u16 (XOffset + FontSize)) FontSize o
  end.

Definition OLED_ShowString (X Y : Z) (text : list Z) (FontSize : Z) (o : oled)
  : option oled := show_string X Y text 0 FontSize o.

Definition init_commands : list Z :=
  [0xAE; 0xD5; 0x80; 0xA8; 0x3F; 0xD3; 0x00; 0x40; 0xA1; 0xC8; 0xDA; 0x12; 0x81; 0xFF;
   0xD9; 0xF1; 0xDB; 0x30; 0xA4; 0xA6; 0x8D; 0x14; 0xAF].

Definition OLED_Init (o : oled) : oled :=
  let o := on_bus (fun p => OLED_W_SDA 1 (OLED_W_SCL 1 p)) o in
  let o := fold_left (fun o c => OLED_WriteCommand c o) init_commands o in
  OLED_Update (OLED_Clear o).

(** ** Loops as folds *)
Lemma for_loop_fold {S} next lo hi (body : Z -> S -> S) s :
  (forall i, lo <= i < hi -> next i = i + 1) ->
  for_loop next lo hi body s = fold_left (fun s i => body i s) (seqZ lo (hi - lo)) s.
Proof.
  intros Hn. unfold for_loop.
  assert (forall n lo s, (forall i, lo <= i < hi -> next i = i + 1) -> n = Z.to_nat (hi - lo) ->
    snd (while n (fun '(i, _) => i <? hi) (fun '(i, s) => (next i, body i s)) (lo, s)) =
    fold_left (fun s i => body i s) (seqZ lo (hi - lo)) s) as H.
  { clear. induction n as [|n IH]; intros lo s Hn Hl.
    - by rewrite seqZ_nil by lia.
    - simpl. destruct (Z.ltb_spec lo hi); [|lia].
      rewrite Hn, IH by (intros; rewrite ?Hn; lia || done).
      rewrite (seqZ_cons lo (hi - lo)) by lia. simpl.
      by replace (Z.pred (hi - lo)) with (hi - Z.succ lo) by lia. }
  by apply H.
Qed.

Lemma for_u8 {S} hi (body : Z -> S -> S) s :
  hi <= 255 -> for_loop next_u8 0 hi body s = fold_left (fun s i => body i s) (seqZ 0 hi) s.
Proof.
  intros Hh. rewrite for_loop_fold, Z.sub_0_r; [done|].
  intros i Hi. unfold next_u8, wrap. rewrite Z.mod_small; lia.
Qed.

Lemma for_i16 {S} lo hi (body : Z -> S -> S) s :
  -32768 <= lo -> hi <= 32767 ->
  for_loop next_i16 lo hi body s = fold_left (fun s i => body i s) (seqZ lo (hi - lo)) s.
Proof.
  intros Hl Hh. apply for_loop_fold. intros i Hi. unfold next_i16, swrap.
  rewrite Z.mod_small; lia.
Qed.

(** An [int16_t] counter never reaches 32768: the loops over a rectangle that
    ends there do not stop. *)
Lemma for_i16_diverges {S} lo (body : Z -> S -> S) s fuel :
  -32768 <= lo <= 32767 ->
  fst (while fuel (fun '(i, _) => i <? 32768)
         (fun '(i, s) => (next_i16 i, body i s)) (lo, s)) < 32768.
Proof.
  revert lo s. induction fuel as [|fuel IH]; intros lo s Hl; simpl; [lia|].
  destruct (Z.ltb_spec lo 32768); simpl; [|lia]. apply IH. unfold next_i16, swrap. dlia.
Qed.

(** ** Pixels *)
Definition pixel (m : mem) (x y : Z) : bool := Z.testbit (m (128 * (y / 8) + x)) (y mod 8).

(** A value at an index of a loop that is written where [f] holds. *)
Lemma fold_written {A S} (get : S -> A) (body : Z -> S -> S) (f : Z -> bool) v l : forall s,
  (forall i s, i ∈ l -> get (body i s) = if f i then v else get s) ->
  get (fold_left (fun s i => body i s) l s) = if existsb f l then v else get s.
Proof.
  induction l as [|i l IH]; intros s H; [done|]. simpl.
  rewrite IH by (intros; apply H; by right). rewrite H by left.
  destruct (f i), (existsb f l); done.
Qed.

Lemma existsb_range (g : Z -> bool) a lo n :
  existsb (fun i => (i =? a) && g i) (seqZ lo n) = in_range lo n a && g a.
Proof.
  apply eq_true_iff_eq. rewrite existsb_exists, andb_true_iff, in_range_spec. split.
  - intros (i & Hi & H). apply list_elem_of_In, elem_of_seqZ in Hi.
    apply andb_true_iff in H as [Ha Hg]. apply Z.eqb_eq in Ha. subst. split; [lia|done].
  - intros [Hi Hg]. exists a. rewrite Z.eqb_refl. split; [|done].
    apply list_elem_of_In, elem_of_seqZ. lia.
Qed.

Lemma on_page y : 0 <= y < 64 -> y / 8 = Z.quot y 8 /\ y mod 8 = Z.rem y 8 /\ 0 <= y / 8 < 8.
Proof.
  intros Hy. rewrite Z.quot_div_nonneg, Z.rem_mod_nonneg by lia. split_and!; try done; dlia.
Qed.

Lemma testbit_store8 a v m x n :
  0 <= n < 8 -> Z.testbit (store8 a v m x) n = if x =? a then Z.testbit v n else Z.testbit (m x) n.
Proof.
  intros Hn. rewrite store8_at. case_cmp; [|done]. unfold wrap.
  rewrite Z.mod_pow2_bits_low by lia. done.
Qed.

(** The byte of a pixel and its bit determine the pixel. *)
Lemma same_byte x y x' y' :
  0 <= x < 128 -> 0 <= x' < 128 ->
  (128 * (y' / 8) + x' =? 128 * (y / 8) + x) = (x' =? x) && (y' / 8 =? y / 8).
Proof. intros. repeat case_cmp; simpl; lia. Qed.

Lemma bit_mask_testbit k n : 0 <= k -> 0 <= n -> Z.testbit (Z.shiftl 1 k) n = (n =? k).
Proof.
  intros. rewrite Z.shiftl_1_l. destruct (Z.eqb_spec n k) as [->|].
  - by apply Z.pow2_bits_true.
  - apply Z.pow2_bits_false. lia.
Qed.

Lemma clear_pixel_pixel i j m x y :
  0 <= x < 128 -> 0 <= y < 64 ->
  pixel (clear_pixel i j m) x y = if (x =? i) && (y =? j) then false else pixel m x y.
Proof.
  intros Hx Hy. unfold clear_pixel.
  destruct ((0 <=? i) && (i <=? 127) && (0 <=? j) && (j <=? 63)) eqn:E;
    [|destruct (Z.eqb_spec x i), (Z.eqb_spec y j); simpl; done || lia].
  destruct (on_page y Hy) as (_ & _ & Hp). destruct (on_page j) as (<- & <- & Hpj); [lia|].
  unfold pixel. rewrite testbit_store8, same_byte by dlia.
  destruct (Z.eqb_spec x i) as [->|]; simpl; [|done].
  destruct (Z.eqb_spec (y / 8) (j / 8)) as [E8|E8].
  - rewrite Z.land_spec, Z.lnot_spec, bit_mask_testbit, E8 by dlia.
    destruct (Z.eqb_spec (y mod 8) (j mod 8)); destruct (Z.eqb_spec y j); simpl;
      rewrite ?andb_false_r, ?andb_true_r; try done; dlia.
  - destruct (Z.eqb_spec y j); [congruence|done].
Qed.

Lemma clear_area_pixel X Y Width Height m x y :
  fits 8 Width -> fits 8 Height ->
  -32768 <= X -> X + Width <= 32767 -> -32768 <= Y -> Y + Height <= 32767 ->
  0 <= x < 128 -> 0 <= y < 64 ->
  pixel (clear_area X Y Width Height m) x y =
  if in_range X Width x && in_range Y Height y then false else pixel m x y.
Proof.
  intros HW HH HX HX' HY HY' Hx Hy. unfold clear_area. rewrite for_i16 by done.
  rewrite Z.add_simpl_l.
  rewrite (fold_written (fun m => pixel m x y) _ (fun j => (j =? y) && in_range X Width x) false).
  - rewrite (existsb_range (fun _ => in_range X Width x)). by rewrite andb_comm.
  - intros j s Hj. rewrite for_i16, Z.add_simpl_l by done.
    rewrite (fold_written (fun m => pixel m x y) _ (fun i => (i =? x) && (j =? y)) false).
    + rewrite (existsb_range (fun _ => j =? y)). by rewrite andb_comm.
    + intros i s' _. rewrite clear_pixel_pixel by done.
      by rewrite (Z.eqb_sym x i), (Z.eqb_sym y j).
Qed.

(** The page and the shift of a row: [Y = 8 * Page + Shift]. *)
Lemma page_shift Y :
  -32768 <= Y <= 32767 ->
  let Page := i16 (Z.quot Y 8) in
  let Shift := i16 (Z.rem Y 8) in
  let '(P, sh) := if Y <? 0 then (i16 (Page - 1), i16 (Shift + 8)) else (Page, Shift) in
  Y = 8 * P + sh /\ 0 <= sh <= 8.
Proof.
  intros HY. pose proof (Z.quot_rem' Y 8) as HQ.
  assert (Y < 0 -> -8 < Z.rem Y 8 <= 0) as Hn.
  { intros. pose proof (Z.rem_bound_pos_neg Y 8 ltac:(lia) ltac:(lia)). lia. }
  assert (0 <= Y -> 0 <= Z.rem Y 8 < 8) as Hp.
  { intros. pose proof (Z.rem_bound_pos_pos Y 8 ltac:(lia) ltac:(lia)). lia. }
  assert (forall z, -32768 <= z <= 32767 -> i16 z = z) as Hi.
  { intros z Hz. unfold swrap. rewrite Z.mod_small; lia. }
  cbv zeta. destruct (Z.ltb_spec Y 0); rewrite !Hi by (rewrite ?Hi; lia); lia.
Qed.

Lemma or_byte_pixel m p x v x' y' :
  0 <= x < 128 -> 0 <= x' < 128 -> 0 <= y' < 64 ->
  pixel (store8 (128 * p + x) (Z.lor (m (128 * p + x)) v) m) x' y' =
  if (x' =? x) && (y' / 8 =? p) && Z.testbit v (y' mod 8) then true else pixel m x' y'.
Proof.
  intros Hx Hx' Hy'. unfold pixel. rewrite testbit_store8 by dlia.
  replace (128 * (y' / 8) + x' =? 128 * p + x) with ((x' =? x) && (y' / 8 =? p))
    by (repeat case_cmp; simpl; lia).
  destruct (Z.eqb_spec x' x) as [->|]; destruct (Z.eqb_spec (y' / 8) p) as [->|]; simpl; try done.
  rewrite Z.lor_spec. destruct (Z.testbit v _); [apply orb_true_r|apply orb_false_r].
Qed.

Lemma testbit_byte v n : fits 8 v -> n < 0 \/ 8 <= n -> Z.testbit v n = false.
Proof.
  intros Hv [Hn|Hn]; [by apply Z.testbit_neg_r|].
  rewrite <- (Z.mod_small v (2 ^ 8)) by done. apply Z.mod_pow2_bits_high. lia.
Qed.

Lemma show_column_pixel X Y Width Image j i m x y :
  -32768 <= Y <= 32767 -> fits 8 (Image (j * Width + i)) ->
  0 <= x < 128 -> 0 <= y < 64 ->
  pixel (show_column X Y Width Image j i m) x y =
  if (i =? x - X) && Z.testbit (Image (j * Width + i)) (y - Y - 8 * j) then true
  else pixel m x y.
Proof.
  intros HY Himg Hx Hy. unfold show_column.
  pose proof (page_shift Y HY) as Hps. cbv zeta in *.
  destruct (if Y <? 0 then _ else _) as [P sh]. destruct Hps as [HYP HS].
  set (b := Image (j * Width + i)) in *.
  destruct (Z.eqb_spec i (x - X)) as [->|Hne]; simpl.
  2:{ destruct (_ && _) eqn:E; [|done].
      repeat case_match; rewrite ?or_byte_pixel by lia;
        destruct (Z.eqb_spec x (X + i)); simpl; done || lia. }
  replace (X + (x - X)) with x by lia.
  destruct ((0 <=? x) && (x <=? 127)) eqn:E; [|lia].
  pose proof (Z.div_mod y 8 ltac:(lia)) as Hdm. pose proof (Z.mod_pos_bound y 8 ltac:(lia)) as Hm8.
  destruct (on_page y Hy) as (_ & _ & Hp8).
  set (m1 := if (0 <=? P + j) && (P + j <=? 7) then _ else m).
  assert (pixel m1 x y = if (y / 8 =? P + j) && Z.testbit b (y mod 8 - sh) then true
                         else pixel m x y) as Hm1.
  { unfold m1. destruct ((0 <=? P + j) && (P + j <=? 7)) eqn:E1.
    - rewrite or_byte_pixel, Z.eqb_refl by done. simpl. by rewrite Z.shiftl_spec by lia.
    - destruct (Z.eqb_spec (y / 8) (P + j)); [lia|done]. }
  assert (forall v, (if (0 <=? P + j + 1) && (P + j + 1 <=? 7)
            then pixel (store8 (128 * (P + j + 1) + x) (Z.lor (m1 (128 * (P + j + 1) + x)) v) m1) x y
            else pixel m1 x y) =
          if (y / 8 =? P + j + 1) && Z.testbit v (y mod 8) then true else pixel m1 x y) as Hm2.
  { intros v. destruct ((0 <=? P + j + 1) && (P + j + 1 <=? 7)) eqn:E2.
    - by rewrite or_byte_pixel, Z.eqb_refl.
    - destruct (Z.eqb_spec (y / 8) (P + j + 1)); [lia|done]. }
  specialize (Hm2 (Z.shiftr b (8 - sh))). revert Hm2.
  destruct ((0 <=? P + j + 1) && (P + j + 1 <=? 7)); intros ->;
    rewrite Hm1, Z.shiftr_spec by lia;
    destruct (Z.eqb_spec (y / 8) (P + j + 1)); destruct (Z.eqb_spec (y / 8) (P + j)); try lia; simpl.
  all: first
    [ rewrite (testbit_byte b (y - Y - 8 * j)) by (done || lia); done
    | replace (y - Y - 8 * j) with (y mod 8 + (8 - sh)) by lia; done
    | replace (y - Y - 8 * j) with (y mod 8 - sh) by lia; done ].
Qed.

(** Drawing an image replaces exactly the pixels of its rectangle by the
    pixels of the image, clipped to the screen, for positions off the screen
    and between pages too. *)
Lemma show_image_pixel (X Y Width Height : Z) (Image : Z -> Z) (m : mem) (x y : Z) :
  fits 8 Width -> fits 8 Height -> 0 < Height -> (forall k, fits 8 (Image k)) ->
  -32768 <= X -> X + Width <= 32767 -> -32768 <= Y -> Y + Height <= 32767 ->
  Height mod 8 = 0 -> 0 <= x < 128 -> 0 <= y < 64 ->
  pixel (show_image X Y Width Height Image m) x y =
  if in_range X Width x && in_range Y Height y
  then Z.testbit (Image ((y - Y) / 8 * Width + (x - X))) ((y - Y) mod 8)
  else pixel m x y.
Proof.
  intros HW HH HH0 Himg HX HX' HY HY' HH8 Hx Hy. unfold show_image. unfold fits in HW, HH.
  assert (Z.quot (Height - 1) 8 + 1 = Height / 8) as ->.
  { rewrite Z.quot_div_nonneg by lia. dlia. }
  rewrite for_u8 by dlia.
  set (bit := fun j => Z.testbit (Image (j * Width + (x - X))) (y - Y - 8 * j)).
  rewrite (fold_written (fun m => pixel m x y) _
    (fun j => (j =? (y - Y) / 8) && (in_range 0 Width (x - X) && bit j)) true).
  - rewrite (existsb_range (fun j => in_range 0 Width (x - X) && bit j)).
    rewrite clear_area_pixel by done. unfold bit.
    replace (y - Y - 8 * ((y - Y) / 8)) with ((y - Y) mod 8) by dlia.
    destruct (in_range X Width x) eqn:E1; destruct (in_range Y Height y) eqn:E2;
      destruct (in_range 0 (Height / 8) ((y - Y) / 8)) eqn:E3;
      destruct (in_range 0 Width (x - X)) eqn:E4; unfold in_range in *; simpl; try done;
      try (exfalso; dlia).
    by destruct (Z.testbit _ _).
  - intros j s Hj. rewrite for_u8 by lia.
    rewrite (fold_written (fun m => pixel m x y) _
      (fun i => (i =? x - X) && Z.testbit (Image (j * Width + i)) (y - Y - 8 * j)) true).
    + rewrite (existsb_range (fun i => Z.testbit (Image (j * Width + i)) (y - Y - 8 * j))).
      fold (bit j). destruct (in_range 0 Width (x - X)); simpl; [|by rewrite andb_false_r].
      destruct (Z.eqb_spec j ((y - Y) / 8)) as [|Hne]; simpl; [done|].
      unfold bit. rewrite testbit_byte; [done|apply Himg|]. dlia.
    + intros i s' Hi. apply show_column_pixel; try done. lia.
Qed.

Lemma show_image_pixel_witness :
  pixel (show_image (-2) 13 6 8 (fun k => k mod 256) (fun _ => 255)) 1 14 = true /\
  pixel (show_image (-2) 13 6 8 (fun k => k mod 256) (fun _ => 255)) 1 15 = false.
Proof.
  split; (rewrite (show_image_pixel (-2) 13 6 8 (fun k => k mod 256) (fun _ => 255));
    [reflexivity|..]; try done; intros; apply (wrap_fits 8); lia).
Defined.

(** ** The bus protocol

    A receiver on the bus, from the I2C specification: START is a fall of SDA
    while SCL is high and STOP a rise, a bit is read when SCL rises, eight bits
    and an acknowledge slot are a byte, most significant bit first. *)
Module I2C.
Record rx := {
  scl : bool; sda : bool;
  bits : list bool;              (** of the byte being received *)
  frame : option (list Z);       (** bytes since START *)
  frames : list (list Z)         (** complete transactions *)
}.

Definition byte_of (l : list bool) : Z := fold_left (fun v b => 2 * v + Z.b2z b) l 0.

Definition sample (r : rx) : rx :=
  let l := bits r ++ [sda r] in
  if (length l =? 9)%nat then
    {| r with bits := []; frame := (fun f => f ++ [byte_of (take 8 l)]) <$> frame r |}
  else {| r with bits := l |}.

Definition step (r : rx) (e : level) : rx :=
  match e with
  | SCL b => let r := if b && negb (scl r) then sample r else r in {| r with scl := b |}
  | SDA b =>
      let r :=
        if scl r && sda r && negb b then {| r with frame := Some []; bits := [] |}
        else if scl r && negb (sda r) && b then
          {| r with frame := None; bits := []; frames := frames r ++ option_list (frame r) |}
        else r in
      {| r with sda := b |}
  end.

Definition receive (r : rx) (l : list level) : rx := fold_left step l r.

Definition idle (fs : list (list Z)) : rx :=
  {| scl := true; sda := true; bits := []; frame := None; frames := fs |}.

(** Between two bytes of a transaction: SCL is low. *)
Definition open_frame (sda : bool) (f : list Z) (fs : list (list Z)) : rx :=
  {| scl := false; sda := sda; bits := []; frame := Some f; frames := fs |}.
End I2C.

(** The levels an operation adds to the bus, whatever the bus carried before. *)
Definition sends (f : oled -> oled) (ev : oled -> pins) : Prop :=
  forall o, f o = {| o with bus := bus o ++ ev o |}.

Definition bit_levels (b : bool) : pins := [SDA b; SCL true; SCL false].

Definition byte_bits (v : Z) : list bool := map (fun i => Z.testbit v (7 - i)) (seqZ 0 8).

Definition byte_levels (v : Z) : pins :=
  mjoin (map bit_levels (byte_bits v)) ++ bit_levels true.

Definition frame_levels (l : list Z) : pins :=
  [SDA true; SCL true; SDA false; SCL false] ++ mjoin (map byte_levels l) ++
  [SDA false; SCL true; SDA true].

Lemma byte_bit_test v i :
  0 <= i < 8 -> (Z.land v (Z.shiftr 0x80 i) =? 0) = negb (Z.testbit v (7 - i)).
Proof.
  intros Hi. assert (Z.shiftr 0x80 i = 2 ^ (7 - i)) as ->.
  { change 0x80 with (2 ^ 7). rewrite Z.shiftr_div_pow2, <- Z.pow_sub_r by lia. done. }
  destruct (Z.testbit v (7 - i)) eqn:E; simpl.
  - apply Z.eqb_neq. intros H. apply (f_equal (fun z => Z.testbit z (7 - i))) in H.
    rewrite Z.land_spec, E, Z.pow2_bits_true, Z.bits_0 in H by lia. done.
  - apply Z.eqb_eq, Z.bits_inj'. intros k Hk. rewrite Z.land_spec, Z.bits_0.
    destruct (Z.eq_dec (7 - i) k) as [<-|]; [by rewrite E|].
    rewrite Z.pow2_bits_false by lia. apply andb_false_r.
Qed.

Lemma OLED_I2C_SendByte_sends v p : OLED_I2C_SendByte v p = p ++ byte_levels v.
Proof.
  unfold OLED_I2C_SendByte, byte_levels, byte_bits. rewrite for_u8 by lia.
  assert (forall i p, 0 <= i < 8 ->
    OLED_W_SCL 0 (OLED_W_SCL 1 (OLED_W_SDA (if Z.land v (Z.shiftr 0x80 i) =? 0 then 0 else 1) p)) =
    p ++ bit_levels (Z.testbit v (7 - i))) as H.
  { intros i s Hi. rewrite byte_bit_test by done. unfold OLED_W_SCL, OLED_W_SDA.
    rewrite <- !app_assoc. by destruct (Z.testbit v (7 - i)). }
  change (seqZ 0 8) with [0; 1; 2; 3; 4; 5; 6; 7]. cbn [fold_left map mjoin list_join].
  rewrite !H by lia. unfold OLED_W_SCL, OLED_W_SDA. by rewrite <- !app_assoc.
Qed.

Lemma send_bytes_sends l : forall p,
  fold_left (fun p v => OLED_I2C_SendByte v p) l p = p ++ mjoin (map byte_levels l).
Proof.
  induction l as [|v l IH]; intros p; [by rewrite app_nil_r|].
  simpl fold_left. rewrite IH, OLED_I2C_SendByte_sends, <- app_assoc. done.
Qed.

Lemma frame_sends l p :
  OLED_I2C_Stop (fold_left (fun p v => OLED_I2C_SendByte v p) l (OLED_I2C_Start p)) =
  p ++ frame_levels l.
Proof.
  rewrite send_bytes_sends. unfold OLED_I2C_Stop, OLED_I2C_Start, OLED_W_SCL, OLED_W_SDA.
  unfold frame_levels. by rewrite <- !app_assoc.
Qed.

Lemma OLED_WriteCommand_sends c :
  sends (OLED_WriteCommand c) (fun o => frame_levels [s_oled_addr o; 0; c]).
Proof. intros o. cbv beta. by rewrite <- (frame_sends [s_oled_addr o; 0; c]). Qed.

Lemma fold_map {A B C} (f : B -> A) (g : C -> A -> C) l : forall s,
  fold_left g (map f l) s = fold_left (fun s i => g s (f i)) l s.
Proof. induction l as [|x l IH]; intros s; [done|]. apply IH. Qed.

(** [n] bytes of the frame buffer from index [a]. *)
Definition buf_bytes (m : mem) (a n : Z) : list Z := map (fun i => m (a + i)) (seqZ 0 n).

Lemma OLED_WriteData_sends a n :
  n <= 255 ->
  sends (OLED_WriteData a n)
    (fun o => frame_levels (s_oled_addr o :: 0x40 :: buf_bytes (OLED_DisplayBuf o) a n)).
Proof.
  intros Hn o. unfold OLED_WriteData, on_bus. rewrite for_u8 by done. cbv beta.
  rewrite <- frame_sends. cbn [fold_left]. unfold buf_bytes.
  by rewrite fold_map.
Qed.

Lemma OLED_SetCursor_sends p x :
  sends (OLED_SetCursor p x) (fun o =>
    frame_levels [s_oled_addr o; 0; Z.lor 0xB0 p] ++
    frame_levels [s_oled_addr o; 0; Z.lor 0x10 (Z.shiftr (Z.land x 0xF0) 4)] ++
    frame_levels [s_oled_addr o; 0; Z.lor 0x00 (Z.land x 0x0F)]).
Proof.
  intros o. unfold OLED_SetCursor. rewrite !OLED_WriteCommand_sends. simpl.
  by rewrite <- !app_assoc.
Qed.

(** The transactions that send [n] bytes of the frame buffer to page [p] from
    column [x] on. *)
Definition page_frames (addr : Z) (m : mem) (p x n : Z) : list (list Z) :=
  [[addr; 0; Z.lor 0xB0 p]; [addr; 0; Z.lor 0x10 (Z.shiftr (Z.land x 0xF0) 4)];
   [addr; 0; Z.lor 0x00 (Z.land x 0x0F)];
   addr :: 0x40 :: buf_bytes m (128 * p + x) n].

Definition frames_levels (fs : list (list Z)) : list level := mjoin (map frame_levels fs).

Lemma page_sends p x n :
  n <= 255 ->
  sends (fun o => OLED_WriteData (128 * p + x) n (OLED_SetCursor p x o))
    (fun o => frames_levels (page_frames (s_oled_addr o) (OLED_DisplayBuf o) p x n)).
Proof.
  intros Hn o. rewrite OLED_WriteData_sends, OLED_SetCursor_sends by done. simpl.
  unfold frames_levels. simpl. by rewrite app_nil_r, <- !app_assoc.
Qed.

(** ** What the receiver gets *)
Lemma receive_app r l k : I2C.receive r (l ++ k) = I2C.receive (I2C.receive r l) k.
Proof. apply fold_left_app. Qed.

Lemma byte_of_bits v : fits 8 v -> I2C.byte_of (byte_bits v) = v.
Proof.
  intros Hv. assert (all_below 256 (fun v => I2C.byte_of (byte_bits v) =? v) = true) as H
    by (vm_compute; reflexivity).
  apply (all_below_spec 256) with (x := v) in H; [lia|]. unfold fits in Hv. lia.
Qed.

Lemma receive_byte v d f fs :
  fits 8 v ->
  I2C.receive (I2C.open_frame d f fs) (byte_levels v) = I2C.open_frame true (f ++ [v]) fs.
Proof.
  intros Hv. rewrite <- (byte_of_bits v Hv) at 2.
  unfold byte_levels. generalize (eq_refl (length (byte_bits v))).
  change (length (byte_bits v)) with 8%nat at 1.
  destruct (byte_bits v) as [|b0 [|b1 [|b2 [|b3 [|b4 [|b5 [|b6 [|b7 [|]]]]]]]]]; try done.
Qed.

Lemma receive_bytes l : forall f d fs,
  Forall (fits 8) l ->
  I2C.receive (I2C.open_frame d f fs) (mjoin (map byte_levels l)) =
  I2C.open_frame (match l with [] => d | _ => true end) (f ++ l) fs.
Proof.
  induction l as [|v l IH]; intros f d fs Hl; [simpl; by rewrite app_nil_r|].
  apply Forall_cons in Hl as [Hv Hl].
  change (mjoin (map byte_levels (v :: l))) with (byte_levels v ++ mjoin (map byte_levels l)).
  rewrite receive_app, receive_byte, IH by done.
  rewrite <- app_assoc. by destruct l.
Qed.

Lemma receive_frame l fs :
  Forall (fits 8) l -> I2C.receive (I2C.idle fs) (frame_levels l) = I2C.idle (fs ++ [l]).
Proof.
  intros Hl. unfold frame_levels. rewrite receive_app.
  change (I2C.receive (I2C.idle fs) [SDA true; SCL true; SDA false; SCL false])
    with (I2C.open_frame false [] fs).
  rewrite receive_app, receive_bytes by done. by destruct l.
Qed.

Lemma receive_frames l : forall fs,
  Forall (Forall (fits 8)) l ->
  I2C.receive (I2C.idle fs) (frames_levels l) = I2C.idle (fs ++ l).
Proof.
  induction l as [|f l IH]; intros fs Hl; [simpl; by rewrite app_nil_r|].
  apply Forall_cons in Hl as [Hf Hl].
  change (frames_levels (f :: l)) with (frame_levels f ++ frames_levels l).
  rewrite receive_app, receive_frame, IH by done. by rewrite <- app_assoc.
Qed.

(** Every byte of the frame buffer is a byte, and so is the address. *)
Definition oled_ok (o : oled) : Prop := mem_ok (OLED_DisplayBuf o) /\ fits 8 (s_oled_addr o).

(** The transactions of one OLED_Update. *)
Definition update_frames (o : oled) : list (list Z) :=
  mjoin (map (fun j => page_frames (s_oled_addr o) (OLED_DisplayBuf o) j 0 128) (seqZ 0 8)).

Lemma frames_levels_app l k : frames_levels (l ++ k) = frames_levels l ++ frames_levels k.
Proof. unfold frames_levels. induction l as [|f l IH]; [done|]. simpl. by rewrite IH, app_assoc. Qed.

Lemma fold_pages_sends n (l : list Z) : n <= 255 -> forall x o,
  fold_left (fun o j => OLED_WriteData (128 * j + x) n (OLED_SetCursor j x o)) l o =
  {| o with bus := bus o ++ frames_levels
       (mjoin (map (fun j => page_frames (s_oled_addr o) (OLED_DisplayBuf o) j x n) l)) |}.
Proof.
  intros Hn x. induction l as [|j l IH]; intros o.
  - simpl. unfold frames_levels. simpl. rewrite app_nil_r. by destruct o.
  - simpl fold_left. rewrite (page_sends j x n Hn o), IH.
    rewrite map_cons. cbn [mjoin list_join]. rewrite frames_levels_app, app_assoc. done.
Qed.

Lemma OLED_Update_sends : sends OLED_Update (fun o => frames_levels (update_frames o)).
Proof.
  intros o. unfold OLED_Update. rewrite for_u8 by lia. unfold update_frames.
  rewrite <- (fold_pages_sends 128 (seqZ 0 8) ltac:(lia) 0 o).
  generalize (seqZ 0 8). intros l. revert o. induction l as [|j l IH]; intros o; [done|].
  simpl fold_left. rewrite Z.add_0_r. apply IH.
Qed.

Lemma buf_bytes_ok m a n : mem_ok m -> Forall (fits 8) (buf_bytes m a n).
Proof.
  intros Hm. apply Forall_forall. intros v Hv. apply list_elem_of_fmap in Hv as (i & -> & _).
  apply Hm.
Qed.

Lemma page_frames_ok addr m p x n :
  mem_ok m -> fits 8 addr -> 0 <= p < 8 -> 0 <= x < 128 ->
  Forall (Forall (fits 8)) (page_frames addr m p x n).
Proof.
  intros Hm Ha Hp Hx. unfold page_frames.
  assert (forall k v, 0 <= k < 256 -> 0 <= v < 256 -> fits 8 (Z.lor k v)) as Hor.
  { intros k v Hk Hv.
    assert (all_below 256 (fun k => all_below 256 (fun v => (0 <=? Z.lor k v) && (Z.lor k v <? 256)))
            = true) as H by (vm_compute; reflexivity).
    apply (all_below_spec 256) with (x := k) in H; [|lia].
    apply (all_below_spec 256) with (x := v) in H; [|lia]. unfold fits. lia. }
  assert (0 <= Z.land x 0x0F < 256 /\ 0 <= Z.shiftr (Z.land x 0xF0) 4 < 256) as [H1 H2].
  { assert (all_below 128 (fun x => (0 <=? Z.land x 0x0F) && (Z.land x 0x0F <? 256) &&
      (0 <=? Z.shiftr (Z.land x 0xF0) 4) && (Z.shiftr (Z.land x 0xF0) 4 <? 256)) = true) as H
      by (vm_compute; reflexivity).
    apply (all_below_spec 128) with (x := x) in H; lia. }
  repeat (apply Forall_cons; split); try done; try (apply Hor; lia); try (unfold fits; lia).
  by apply buf_bytes_ok.
Qed.

(** C37: a receiver on the I2C bus that was idle gets from OLED_Update exactly
    the transactions that put every byte of the frame buffer, page after page,
    at column 0 of its page, and is idle again. *)
Theorem OLED_Update_received (o : oled) (fs : list (list Z)) :
  oled_ok o ->
  exists ev, bus (OLED_Update o) = bus o ++ ev /\
    I2C.receive (I2C.idle fs) ev = I2C.idle (fs ++ update_frames o).
Proof.
  intros [Hm Ha]. exists (frames_levels (update_frames o)). split.
  - by rewrite OLED_Update_sends.
  - apply receive_frames. unfold update_frames. apply Forall_join, Forall_fmap, Forall_seqZ.
    intros j Hj. apply page_frames_ok; try done; lia.
Qed.

Lemma OLED_Update_received_witness :
  let o := {| OLED_DisplayBuf := fun a => a mod 256; s_oled_addr := 0x78; bus := [] |} in
  exists ev, bus (OLED_Update o) = ev /\
    I2C.frames (I2C.receive (I2C.idle []) ev) !! 11%nat =
      Some ([0x78; 0x40] ++ map Z.of_nat (seq 0 128)).
Proof.
  intros o. destruct (OLED_Update_received o []) as (ev & H1 & H2).
  - split; [intros x; apply (wrap_fits 8); lia|by split].
  - exists ev. split; [exact H1|]. rewrite H2. vm_compute. reflexivity.
Defined.

(** For [Y] in -15..-1 an area that reaches row 0 or below loses its last
    page: here 16 rows from row -8 would need page 0. *)
Lemma OLED_UpdateArea_negative_Y o X Width :
  OLED_UpdateArea X (-8) Width 16 o = o.
Proof.
  unfold OLED_UpdateArea. change (i16 (Z.quot (-8) 8)) with (-1).
  change (i16 (Z.quot (-8 + 16 - 1) 8 + 1)) with 1. simpl.
  unfold for_loop. simpl. by rewrite !andb_false_r.
Qed.

(** Reading back a point: drawing changes that point and no other. *)
Lemma OLED_GetPoint_pixel o x y :
  0 <= x < 128 -> 0 <= y < 64 ->
  OLED_GetPoint x y o = Z.b2z (pixel (OLED_DisplayBuf o) x y).
Proof.
  intros Hx Hy. unfold OLED_GetPoint, pixel.
  destruct ((0 <=? x) && (x <=? 127) && (0 <=? y) && (y <=? 63)) eqn:E; [|lia].
  destruct (on_page y Hy) as (<- & <- & _). set (b := OLED_DisplayBuf o _).
  assert (0 <= y mod 8 < 8) as Hm by dlia. rewrite Z.shiftl_1_l.
  destruct (Z.testbit b (y mod 8)) eqn:Eb.
  - destruct (Z.eqb_spec (Z.land b (2 ^ (y mod 8))) 0) as [H0|]; [|done].
    apply (f_equal (fun z => Z.testbit z (y mod 8))) in H0.
    rewrite Z.land_spec, Z.bits_0, Eb, Z.pow2_bits_true in H0 by lia. done.
  - replace (Z.land b (2 ^ (y mod 8))) with 0; [done|]. symmetry. apply Z.bits_inj'. intros n Hn.
    rewrite Z.land_spec, Z.bits_0. destruct (Z.eq_dec n (y mod 8)) as [->|]; [by rewrite Eb|].
    rewrite Z.pow2_bits_false by lia. apply andb_false_r.
Qed.

Lemma OLED_DrawPoint_pixel o x y x' y' :
  0 <= x < 128 -> 0 <= y < 64 -> 0 <= x' < 128 -> 0 <= y' < 64 ->
  OLED_GetPoint x' y' (OLED_DrawPoint x y o) =
  if (x' =? x) && (y' =? y) then 1 else OLED_GetPoint x' y' o.
Proof.
  intros Hx Hy Hx' Hy'. rewrite !OLED_GetPoint_pixel by done. unfold OLED_DrawPoint.
  destruct ((0 <=? x) && (x <=? 127) && (0 <=? y) && (y <=? 63)) eqn:E; [|lia].
  destruct (on_page y Hy) as (<- & <- & _). simpl.
  rewrite or_byte_pixel, bit_mask_testbit by (done || dlia).
  destruct (Z.eqb_spec x' x); destruct (Z.eqb_spec y' y); destruct (Z.eqb_spec (y' / 8) (y / 8));
    destruct (Z.eqb_spec (y' mod 8) (y mod 8)); simpl; subst; try done; exfalso; dlia.
Qed.

(** A string of printable ASCII reads only glyphs of the font. *)
Lemma OLED_ShowString_total X Y text FontSize o :
  Forall (fun c => 32 <= c < 127) text ->
  is_Some (OLED_ShowString X Y text FontSize o).
Proof.
  intros H. unfold OLED_ShowString. generalize 0 as off. revert o.
  induction H as [|c text Hc _ IH]; intros o off; [by eexists|]. simpl.
  assert (is_Some (OLED_ShowChar (i16 (X + off)) Y c FontSize o)) as [o' ->].
  { unfold OLED_ShowChar. destruct (_ || _); [|by eexists]. unfold glyph.
    destruct (Z.ltb_spec (c - 32) 0); [lia|].
    destruct (lookup_lt_is_Some_2 OLED_F6x8 (Z.to_nat (c - 32))) as [g ->]; [simpl; lia|].
    by eexists. }
  apply IH.
Qed.
