(* ===== verification/Gpio.v ===== *)
(** * GPIO registers (libraries/STM32F1xx_HAL_Driver/Src/stm32f1xx_hal_gpio.c)

    The part of the HAL that the pin driver and the display call: ports, the lines of external interrupts, and the
    interrupt controller.  A register that holds what was written to it is a number.  What a write to a
    set or clear register does to the register behind it is done by the hardware: the interface [Hardware], with the
    laws of the reference manual ([HardwareLaws]).  Clock gating, delays and assert_param (which is
    compiled to nothing) have no effect. *)
From S2P Require Import Prelude.

(** ** Levels (drivers/pin.h) *)
Definition PIN_LOW : Z := 0.
Definition PIN_HIGH : Z := 1.

(** ** Registers of ports *)
Definition GPIO_PIN_8 : Z := 0x0100.
Definition GPIO_PIN_RESET : Z := 0.
Definition GPIO_PIN_SET : Z := 1.

Definition GPIO_MODE_INPUT : Z := 0x00000000.
Definition GPIO_MODE_OUTPUT_PP : Z := 0x00000001.
Definition GPIO_MODE_OUTPUT_OD : Z := 0x00000011.
Definition GPIO_MODE_AF_PP : Z := 0x00000002.
Definition GPIO_MODE_AF_OD : Z := 0x00000012.
Definition GPIO_MODE_ANALOG : Z := 0x00000003.
Definition GPIO_MODE_IT_RISING : Z := 0x10110000.
Definition GPIO_MODE_IT_FALLING : Z := 0x10210000.
Definition GPIO_MODE_IT_RISING_FALLING : Z := 0x10310000.
Definition GPIO_MODE_EVT_RISING : Z := 0x10120000.
Definition GPIO_MODE_EVT_FALLING : Z := 0x10220000.
Definition GPIO_MODE_EVT_RISING_FALLING : Z := 0x10320000.

Definition GPIO_SPEED_FREQ_LOW : Z := 2.
Definition GPIO_SPEED_FREQ_MEDIUM : Z := 1.
Definition GPIO_SPEED_FREQ_HIGH : Z := 3.
Definition GPIO_NOPULL : Z := 0.
Definition GPIO_PULLUP : Z := 1.
Definition GPIO_PULLDOWN : Z := 2.

Definition EXTI_MODE : Z := 0x10000000.
Definition GPIO_MODE_IT : Z := 0x00010000.
Definition GPIO_MODE_EVT : Z := 0x00020000.
Definition RISING_EDGE : Z := 0x00100000.
Definition FALLING_EDGE : Z := 0x00200000.

Definition GPIO_CR_MODE_INPUT : Z := 0x0.
Definition GPIO_CR_CNF_ANALOG : Z := 0x0.
Definition GPIO_CR_CNF_INPUT_FLOATING : Z := 0x4.
Definition GPIO_CR_CNF_INPUT_PU_PD : Z := 0x8.
Definition GPIO_CR_CNF_GP_OUTPUT_PP : Z := 0x0.
Definition GPIO_CR_CNF_GP_OUTPUT_OD : Z := 0x4.
Definition GPIO_CR_CNF_AF_OUTPUT_PP : Z := 0x8.
Definition GPIO_CR_CNF_AF_OUTPUT_OD : Z := 0xC.

Definition RCC_APB2ENR_AFIOEN : Z := 0x1.

Record GPIO_InitTypeDef := { Pin : Z; Mode : Z; Pull : Z; Speed : Z }.

Record GPIO_TypeDef := { CRL : Z; CRH : Z; IDR : Z; ODR : Z }.

(** The ports A to E (a port is its GPIO_GET_INDEX), the clock enables of RCC, EXTICR of AFIO, the registers of
    EXTI, and those of the interrupt controller. *)
Record gpio := {
  ports : list GPIO_TypeDef;
  APB2ENR : Z;
  EXTICR : list Z;
  IMR : Z; EMR : Z; RTSR : Z; FTSR : Z; PR : Z;
  ISER : list Z;                 (** as it reads: the enabled interrupts *)
  IP : list Z;
  AIRCR : Z
}.

(** What the hardware makes of ODR, PR and ISER when BSRR, BRR, PR, ISER and ICER are written. *)
Class Hardware := {
  bsrr_write : Z -> Z -> Z;
  brr_write : Z -> Z -> Z;
  pr_write : Z -> Z -> Z;
  iser_write : Z -> Z -> Z;
  icer_write : Z -> Z -> Z
}.

Class HardwareLaws {H : Hardware} : Prop := {
  bsrr_bit odr v n : 0 <= n < 16 -> Z.testbit (bsrr_write odr v) n =
    if Z.testbit v n then true else if Z.testbit v (n + 16) then false else Z.testbit odr n;
  brr_bit odr v n : 0 <= n < 16 -> Z.testbit (brr_write odr v) n = Z.testbit odr n && negb (Z.testbit v n);
  pr_bit pr v n : 0 <= n < 16 -> Z.testbit (pr_write pr v) n = Z.testbit pr n && negb (Z.testbit v n);
  iser_bit e v n : 0 <= n < 32 -> Z.testbit (iser_write e v) n = Z.testbit e n || Z.testbit v n;
  icer_bit e v n : 0 <= n < 32 -> Z.testbit (icer_write e v) n = Z.testbit e n && negb (Z.testbit v n)
}.

(** ** Register macros (stm32f1xx.h) *)
Definition SET_BIT (reg b : Z) : Z := Z.lor reg b.
Definition CLEAR_BIT (reg b : Z) : Z := Z.ldiff reg b.
Definition MODIFY_REG (reg clearmask setmask : Z) : Z := Z.lor (Z.ldiff reg clearmask) setmask.

Definition GPIO_GET_INDEX (x : Z) : Z :=
  if x =? 0 then 0 else if x =? 1 then 1 else if x =? 2 then 2 else if x =? 3 then 3 else 4.

Definition set_ports (l : list GPIO_TypeDef) (g : gpio) : gpio := {| g with ports := l |}.
Definition set_port (x : Z) (p : GPIO_TypeDef) (g : gpio) : gpio := set_ports (updZ (ports g) x p) g.
Definition set_odr (v : Z) (p : GPIO_TypeDef) : GPIO_TypeDef := {| p with ODR := v |}.

Section Hal.
Context {H : Hardware}.

(** ** HAL_GPIO_Init

    The switch over the mode: the value of [config], which keeps the one of the pin before in a mode the switch does
    not know, and the port. *)
Definition init_config (i : GPIO_InitTypeDef) (config ioposition : Z) (p : GPIO_TypeDef) : Z * GPIO_TypeDef :=
  let m := Mode i in
  if m =? GPIO_MODE_OUTPUT_PP then (u32 (Speed i + GPIO_CR_CNF_GP_OUTPUT_PP), p)
  else if m =? GPIO_MODE_OUTPUT_OD then (u32 (Speed i + GPIO_CR_CNF_GP_OUTPUT_OD), p)
  else if m =? GPIO_MODE_AF_PP then (u32 (Speed i + GPIO_CR_CNF_AF_OUTPUT_PP), p)
  else if m =? GPIO_MODE_AF_OD then (u32 (Speed i + GPIO_CR_CNF_AF_OUTPUT_OD), p)
  else if (m =? GPIO_MODE_INPUT) || (m =? GPIO_MODE_IT_RISING) || (m =? GPIO_MODE_IT_FALLING) ||
          (m =? GPIO_MODE_IT_RISING_FALLING) || (m =? GPIO_MODE_EVT_RISING) || (m =? GPIO_MODE_EVT_FALLING) ||
          (m =? GPIO_MODE_EVT_RISING_FALLING) then
    if Pull i =? GPIO_NOPULL then (GPIO_CR_MODE_INPUT + GPIO_CR_CNF_INPUT_FLOATING, p)
    else if Pull i =? GPIO_PULLUP then
      (GPIO_CR_MODE_INPUT + GPIO_CR_CNF_INPUT_PU_PD, set_odr (bsrr_write (ODR p) ioposition) p)
    else (GPIO_CR_MODE_INPUT + GPIO_CR_CNF_INPUT_PU_PD, set_odr (brr_write (ODR p) ioposition) p)
  else if m =? GPIO_MODE_ANALOG then (GPIO_CR_MODE_INPUT + GPIO_CR_CNF_ANALOG, p)
  else (config, p).

(** The write of [config] to CRL or CRH. *)
Definition put_config (iocurrent position config : Z) (p : GPIO_TypeDef) : GPIO_TypeDef :=
  let registeroffset := if iocurrent <? GPIO_PIN_8 then Z.shiftl position 2 else Z.shiftl (position - 8) 2 in
  let reg r := MODIFY_REG r (u32 (Z.shiftl 0xF registeroffset)) (u32 (Z.shiftl config registeroffset)) in
  if iocurrent <? GPIO_PIN_8 then {| p with CRL := reg (CRL p) |} else {| p with CRH := reg (CRH p) |}.

(** [if ((Mode & bits) == bits) SET_BIT(reg, line); else CLEAR_BIT(reg, line);] *)
Definition set_if (i : GPIO_InitTypeDef) (b reg iocurrent : Z) : Z :=
  if Z.land (Mode i) b =? b then SET_BIT reg iocurrent else CLEAR_BIT reg iocurrent.

Definition init_exti (x : Z) (i : GPIO_InitTypeDef) (iocurrent position : Z) (g : gpio) : option gpio :=
  if Z.land (Mode i) EXTI_MODE =? EXTI_MODE then
    let off := 4 * Z.land position 0x03 in
    temp ← EXTICR g !! Z.to_nat (Z.shiftr position 2);
    let temp := CLEAR_BIT temp (u32 (Z.shiftl 0x0F off)) in
    let temp := SET_BIT temp (u32 (Z.shiftl (GPIO_GET_INDEX x) off)) in
    Some {| g with APB2ENR := SET_BIT (APB2ENR g) RCC_APB2ENR_AFIOEN;
                   EXTICR := updZ (EXTICR g) (Z.shiftr position 2) temp;
                   IMR := set_if i GPIO_MODE_IT (IMR g) iocurrent; EMR := set_if i GPIO_MODE_EVT (EMR g) iocurrent;
                   RTSR := set_if i RISING_EDGE (RTSR g) iocurrent; FTSR := set_if i FALLING_EDGE (FTSR g) iocurrent |}
  else Some g.

Definition init_pin (x : Z) (i : GPIO_InitTypeDef) (position config : Z) (g : gpio) : option (Z * gpio) :=
  let ioposition := u32 (Z.shiftl 1 position) in
  let iocurrent := Z.land (Pin i) ioposition in
  if iocurrent =? ioposition then
    p ← ports g !! Z.to_nat x;
    let '(config, p) := init_config i config ioposition p in
    let p := put_config iocurrent position config p in
    g ← init_exti x i iocurrent position (set_port x p g);
    Some (config, g)
  else Some (config, g).

Fixpoint init_loop (fuel : nat) (x : Z) (i : GPIO_InitTypeDef) (position config : Z) (g : gpio) : option gpio :=
  if Z.shiftr (Pin i) position =? 0 then Some g
  else match fuel with
  | O => None
  | S fuel => '(config, g) ← init_pin x i position config g; init_loop fuel x i (position + 1) config g
  end.

Definition HAL_GPIO_Init (x : Z) (i : GPIO_InitTypeDef) (g : gpio) : option gpio := init_loop 32 x i 0 0 g.

(** ** HAL_GPIO_DeInit *)
Definition deinit_exti (x iocurrent position : Z) (g : gpio) : option gpio :=
  let off := 4 * Z.land position 0x03 in
  cr ← EXTICR g !! Z.to_nat (Z.shiftr position 2);
  let tmp := Z.land cr (u32 (Z.shiftl 0x0F off)) in
  if tmp =? u32 (Z.shiftl (GPIO_GET_INDEX x) off) then
    let tmp := u32 (Z.shiftl 0x0F off) in
    Some {| g with EXTICR := updZ (EXTICR g) (Z.shiftr position 2) (CLEAR_BIT cr tmp);
                   IMR := CLEAR_BIT (IMR g) iocurrent; EMR := CLEAR_BIT (EMR g) iocurrent;
                   RTSR := CLEAR_BIT (RTSR g) iocurrent; FTSR := CLEAR_BIT (FTSR g) iocurrent |}
  else Some g.

Definition deinit_pin (x pin position : Z) (g : gpio) : option gpio :=
  let iocurrent := Z.land pin (u32 (Z.shiftl 1 position)) in
  if negb (iocurrent =? 0) then
    g ← deinit_exti x iocurrent position g;
    p ← ports g !! Z.to_nat x;
    let p := put_config iocurrent position 0x4 p in
    Some (set_port x (set_odr (CLEAR_BIT (ODR p) iocurrent) p) g)
  else Some g.

Fixpoint deinit_loop (fuel : nat) (x pin position : Z) (g : gpio) : option gpio :=
  if Z.shiftr pin position =? 0 then Some g
  else match fuel with
  | O => None
  | S fuel => g ← deinit_pin x pin position g; deinit_loop fuel x pin (position + 1) g
  end.

Definition HAL_GPIO_DeInit (x pin : Z) (g : gpio) : option gpio := deinit_loop 32 x pin 0 g.

(** ** Reading and writing pins *)
Definition HAL_GPIO_ReadPin (x pin : Z) (g : gpio) : option Z :=
  p ← ports g !! Z.to_nat x;
  Some (if negb (Z.land (IDR p) pin =? GPIO_PIN_RESET) then GPIO_PIN_SET else GPIO_PIN_RESET).

Definition HAL_GPIO_WritePin (x pin state : Z) (g : gpio) : option gpio :=
  p ← ports g !! Z.to_nat x;
  let v := if negb (state =? GPIO_PIN_RESET) then pin else u32 (Z.shiftl pin 16) in
  Some (set_port x (set_odr (bsrr_write (ODR p) v) p) g).

Definition HAL_GPIO_TogglePin (x pin : Z) (g : gpio) : option gpio :=
  p ← ports g !! Z.to_nat x;
  Some (set_port x (set_odr (if negb (Z.land (ODR p) pin =? 0) then brr_write (ODR p) pin
                             else bsrr_write (ODR p) pin) p) g).

(** ** External interrupts: the pins of [GPIO_Pin] for which the callback is to be called *)
Definition HAL_GPIO_EXTI_IRQHandler (pin : Z) (g : gpio) : bool * gpio :=
  if negb (Z.land (PR g) pin =? 0) then (true, {| g with PR := pr_write (PR g) pin |}) else (false, g).

(** ** The interrupt controller (core_cm3.h, stm32f1xx_hal_cortex.c) *)
Definition __NVIC_PRIO_BITS : Z := 4.

Definition NVIC_GetPriorityGrouping (g : gpio) : Z := Z.shiftr (Z.land (AIRCR g) (Z.shiftl 7 8)) 8.

Definition NVIC_EncodePriority (group preempt sub : Z) : Z :=
  let tmp := Z.land group 7 in
  let preempt_bits := if __NVIC_PRIO_BITS <? 7 - tmp then __NVIC_PRIO_BITS else 7 - tmp in
  let sub_bits := if tmp + __NVIC_PRIO_BITS <? 7 then 0 else u32 (u32 (tmp - 7) + __NVIC_PRIO_BITS) in
  Z.lor (u32 (Z.shiftl (Z.land preempt (Z.shiftl 1 preempt_bits - 1)) sub_bits))
        (Z.land sub (Z.shiftl 1 sub_bits - 1)).

(** NVIC_EnableIRQ, NVIC_DisableIRQ and NVIC_SetPriority, for an interrupt of a device. *)
Definition HAL_NVIC_EnableIRQ (irq : Z) (g : gpio) : option gpio :=
  e ← ISER g !! Z.to_nat (Z.shiftr irq 5);
  Some {| g with ISER := updZ (ISER g) (Z.shiftr irq 5) (iser_write e (u32 (Z.shiftl 1 (Z.land irq 0x1F)))) |}.

Definition HAL_NVIC_DisableIRQ (irq : Z) (g : gpio) : option gpio :=
  e ← ISER g !! Z.to_nat (Z.shiftr irq 5);
  Some {| g with ISER := updZ (ISER g) (Z.shiftr irq 5) (icer_write e (u32 (Z.shiftl 1 (Z.land irq 0x1F)))) |}.

Definition HAL_NVIC_SetPriority (irq preempt sub : Z) (g : gpio) : option gpio :=
  let priority := NVIC_EncodePriority (NVIC_GetPriorityGrouping g) preempt sub in
  _ ← IP g !! Z.to_nat irq;
  Some {| g with IP := updZ (IP g) irq (u8 (Z.land (u32 (Z.shiftl priority (8 - __NVIC_PRIO_BITS))) 0xFF)) |}.

End Hal.

(** ** Fields and bits of registers *)
Definition field (r n : Z) : Z := Z.land (Z.shiftr r (4 * n)) 15.

Lemma shiftl_bit a n m : Z.testbit (Z.shiftl a n) m = (0 <=? m) && Z.testbit a (m - n).
Proof.
  destruct (Z.leb_spec 0 m); [by rewrite Z.shiftl_spec by done|]. by rewrite Z.testbit_neg_r.
Qed.

Lemma high_bit w a n : fits w a -> w <= n -> Z.testbit a n = false.
Proof.
  intros Ha Hn. destruct (Z.ltb_spec 0 w) as [Hw|Hw].
  - apply Z.bits_above_log2; [apply Ha|]. destruct (Z.eqb_spec a 0) as [->|]; [simpl; lia|].
    enough (Z.log2 a < w) by lia. apply Z.log2_lt_pow2; destruct Ha; lia.
  - unfold fits in Ha. destruct (Z.eqb_spec w 0) as [->|]; [|rewrite Z.pow_neg_r in Ha; lia].
    replace a with 0 by lia. apply Z.bits_0.
Qed.

Lemma field_bit r n i : 0 <= n -> 0 <= i -> Z.testbit (field r n) i = (i <? 4) && Z.testbit r (i + 4 * n).
Proof.
  intros Hn Hi. unfold field. rewrite Z.land_spec, Z.shiftr_spec by done.
  change 15 with (Z.ones 4). rewrite Z.testbit_ones_nonneg by lia. apply andb_comm.
Qed.

(** A write to a field changes this field only. *)
Lemma field_modify r n m v : 0 <= n -> 0 <= m -> fits 4 v ->
  field (MODIFY_REG r (Z.shiftl 15 (4 * n)) (Z.shiftl v (4 * n))) m = if m =? n then v else field r m.
Proof.
  intros Hn Hm Hv. apply Z.bits_inj'. intros i Hi. rewrite field_bit by done.
  unfold MODIFY_REG. rewrite Z.lor_spec, Z.ldiff_spec, !shiftl_bit, (proj2 (Z.leb_le 0 _)) by lia. simpl andb.
  change 15 with (Z.ones 4).
  destruct (Z.eqb_spec m n) as [->|Hne].
  - rewrite Z.add_simpl_r, Z.testbit_ones_nonneg by lia. destruct (Z.ltb_spec i 4) as [H4|H4]; simpl.
    + by rewrite andb_false_r.
    + symmetry. by apply (high_bit 4).
  - rewrite field_bit by done. destruct (Z.ltb_spec i 4) as [H4|H4]; [|done]. simpl.
    destruct (Z.ltb_spec m n).
    + rewrite !(Z.testbit_neg_r _ (i + 4 * m - 4 * n)) by lia. by rewrite andb_true_r, orb_false_r.
    + rewrite (Z.testbit_ones_nonneg 4) by lia. rewrite (proj2 (Z.ltb_ge _ _)) by lia.
      rewrite (high_bit 4 v) by (done || lia). by rewrite andb_true_r, orb_false_r.
Qed.

Lemma bit_u32 n : 0 <= n < 32 -> u32 (Z.shiftl 1 n) = 2 ^ n.
Proof.
  intros Hn. rewrite Z.shiftl_1_l. apply wrap_id. split; [lia|]. by apply Z.pow_lt_mono_r; lia.
Qed.

Lemma land_bit a n : 0 <= n -> Z.land a (2 ^ n) = if Z.testbit a n then 2 ^ n else 0.
Proof.
  intros Hn. apply Z.bits_inj'. intros i Hi. rewrite Z.land_spec, Z.pow2_bits_eqb by done.
  destruct (Z.eqb_spec n i) as [<-|Hne].
  - rewrite andb_true_r. destruct (Z.testbit a n) eqn:E; [by rewrite Z.pow2_bits_true|by rewrite Z.bits_0].
  - rewrite andb_false_r. destruct (Z.testbit a n); [by rewrite Z.pow2_bits_false|by rewrite Z.bits_0].
Qed.

Lemma pow2_pos n : 0 <= n -> 0 < 2 ^ n.
Proof. intros. lia. Qed.

(** The bit of a pin is below GPIO_PIN_8 when the pin is. *)
Lemma bit_low n : 0 <= n -> (2 ^ n <? GPIO_PIN_8) = (n <? 8).
Proof.
  intros Hn. change GPIO_PIN_8 with (2 ^ 8). destruct (Z.ltb_spec n 8).
  - apply Z.ltb_lt. by apply Z.pow_lt_mono_r.
  - apply Z.ltb_ge. by apply Z.pow_le_mono_r.
Qed.

Lemma set_bit_at r n m : 0 <= n -> 0 <= m -> Z.testbit (SET_BIT r (2 ^ n)) m = (m =? n) || Z.testbit r m.
Proof.
  intros Hn Hm. unfold SET_BIT. rewrite Z.lor_spec, Z.pow2_bits_eqb, (Z.eqb_sym n m) by done. apply orb_comm.
Qed.

Lemma clear_bit_at r n m : 0 <= n -> 0 <= m -> Z.testbit (CLEAR_BIT r (2 ^ n)) m = negb (m =? n) && Z.testbit r m.
Proof.
  intros Hn Hm. unfold CLEAR_BIT. rewrite Z.ldiff_spec, Z.pow2_bits_eqb, (Z.eqb_sym n m) by done. apply andb_comm.
Qed.

Lemma set_if_at i b r n m : 0 <= n -> 0 <= m -> Z.testbit (set_if i b r (2 ^ n)) m =
  if m =? n then Z.land (Mode i) b =? b else Z.testbit r m.
Proof.
  intros Hn Hm. unfold set_if. destruct (_ =? b); [rewrite set_bit_at|rewrite clear_bit_at]; try done; by destruct (m =? n).
Qed.

Lemma nibble_u32 v n : 0 <= n < 8 -> fits 4 v -> u32 (Z.shiftl v (4 * n)) = Z.shiftl v (4 * n).
Proof.
  intros Hn Hv. rewrite Z.shiftl_mul_pow2 by lia. apply wrap_id. unfold fits in *.
  assert (2 ^ (4 * n) <= 2 ^ 28) by (apply Z.pow_le_mono_r; lia). nia.
Qed.

(** ** What a port and a line are

    A pin: its configuration, its output latch, and what it reads; a line of EXTI: the port it listens to and its masks
    and edges. *)
Record pin_view := { v_config : Z; v_latch : bool; v_reads : bool }.
Record line_view := { v_source : Z; v_interrupt : bool; v_event : bool; v_rising : bool; v_falling : bool }.

Definition pin_at (p : GPIO_TypeDef) (n : Z) : pin_view :=
  {| v_config := if n <? 8 then field (CRL p) n else field (CRH p) (n - 8);
     v_latch := Z.testbit (ODR p) n; v_reads := Z.testbit (IDR p) n |}.

Definition view (g : gpio) (x n : Z) : option pin_view := p ← ports g !! Z.to_nat x; Some (pin_at p n).

Definition line_of (g : gpio) (n : Z) : option line_view :=
  cr ← EXTICR g !! Z.to_nat (n / 4);
  Some {| v_source := field cr (n mod 4); v_interrupt := Z.testbit (IMR g) n; v_event := Z.testbit (EMR g) n;
          v_rising := Z.testbit (RTSR g) n; v_falling := Z.testbit (FTSR g) n |}.

Definition enabled (g : gpio) (irq : Z) : bool :=
  match ISER g !! Z.to_nat (irq / 32) with Some e => Z.testbit e (irq mod 32) | None => false end.

Record gpio_shape (g : gpio) : Prop := {
  gs_ports : length (ports g) = 5%nat; gs_exticr : length (EXTICR g) = 4%nat;
  gs_iser : length (ISER g) = 8%nat; gs_ip : length (IP g) = 240%nat
}.

(** Nothing but ports, lines and clocks differs. *)
Record same_control (g g' : gpio) : Prop := {
  sc_pr : PR g' = PR g; sc_iser : ISER g' = ISER g; sc_ip : IP g' = IP g; sc_aircr : AIRCR g' = AIRCR g
}.

#[global] Instance same_control_refl : Reflexive same_control.
Proof. by intros g. Qed.
#[global] Instance same_control_trans : Transitive same_control.
Proof. intros g1 g2 g3 [] []. split; congruence. Qed.

(** What HAL_GPIO_Init asks for. *)
Definition input_mode (m : Z) : bool :=
  (m =? GPIO_MODE_INPUT) || (m =? GPIO_MODE_IT_RISING) || (m =? GPIO_MODE_IT_FALLING) ||
  (m =? GPIO_MODE_IT_RISING_FALLING) || (m =? GPIO_MODE_EVT_RISING) || (m =? GPIO_MODE_EVT_FALLING) ||
  (m =? GPIO_MODE_EVT_RISING_FALLING).
Definition output_cnf (m : Z) : option Z :=
  if m =? GPIO_MODE_OUTPUT_PP then Some 0 else if m =? GPIO_MODE_OUTPUT_OD then Some 4
  else if m =? GPIO_MODE_AF_PP then Some 8 else if m =? GPIO_MODE_AF_OD then Some 12 else None.
Definition exti_mode (m : Z) : bool := Z.land m EXTI_MODE =? EXTI_MODE.

Definition asked (i : GPIO_InitTypeDef) (v : pin_view) : pin_view :=
  {| v_config := match output_cnf (Mode i) with
                 | Some c => Speed i + c
                 | None => if input_mode (Mode i) then if Pull i =? GPIO_NOPULL then 4 else 8 else 0
                 end;
     v_latch := if input_mode (Mode i) && negb (Pull i =? GPIO_NOPULL) then Pull i =? GPIO_PULLUP else v_latch v;
     v_reads := v_reads v |}.

Definition asked_line (x : Z) (i : GPIO_InitTypeDef) : line_view :=
  let on b := Z.land (Mode i) b =? b in
  {| v_source := x; v_interrupt := on GPIO_MODE_IT; v_event := on GPIO_MODE_EVT; v_rising := on RISING_EDGE;
     v_falling := on FALLING_EDGE |}.

(** What HAL_GPIO_DeInit leaves: a floating input, and a line that is off when it listened to the port. *)
Definition reset_pin (v : pin_view) : pin_view := {| v_config := 4; v_latch := false; v_reads := v_reads v |}.
Definition off_line : line_view :=
  {| v_source := 0; v_interrupt := false; v_event := false; v_rising := false; v_falling := false |}.
Definition deinit_line (x : Z) (l : line_view) : line_view := if v_source l =? x then off_line else l.

Section HalProofs.
Context {H : Hardware} {L : HardwareLaws}.

Lemma get_index x : 0 <= x < 5 -> GPIO_GET_INDEX x = x.
Proof. intros Hx. unfold GPIO_GET_INDEX. repeat case_cmp; lia. Qed.

(** The part of a pin's view that init_config decides. *)
Lemma init_config_ok i c n p c' p' : 0 <= n < 16 -> fits 2 (Speed i) -> c = 0 \/ c = v_config (asked i (pin_at p n)) ->
  init_config i c (2 ^ n) p = (c', p') ->
  c' = v_config (asked i (pin_at p n)) /\ CRL p' = CRL p /\ CRH p' = CRH p /\ IDR p' = IDR p /\
  (forall m, 0 <= m < 16 -> Z.testbit (ODR p') m = if m =? n then v_latch (asked i (pin_at p n)) else Z.testbit (ODR p) m).
Proof.
  intros Hn Hs. unfold init_config, asked, output_cnf. cbn [v_config v_latch pin_at].
  fold (input_mode (Mode i)). intros Hc E.
  assert (forall m, 0 <= m < 16 -> Z.testbit (bsrr_write (ODR p) (2 ^ n)) m = if m =? n then true else Z.testbit (ODR p) m) as Hset.
  { intros m Hm. rewrite bsrr_bit, !Z.pow2_bits_eqb, (Z.eqb_sym n m) by lia. destruct (m =? n); [done|].
    by rewrite (proj2 (Z.eqb_neq n (m + 16))) by lia. }
  assert (forall m, 0 <= m < 16 -> Z.testbit (brr_write (ODR p) (2 ^ n)) m = if m =? n then false else Z.testbit (ODR p) m) as Hrst.
  { intros m Hm. rewrite brr_bit, !Z.pow2_bits_eqb, (Z.eqb_sym n m) by lia. destruct (m =? n); [by rewrite andb_false_r|apply andb_true_r]. }
  assert (forall b, 0 <= b < 16 -> u32 (Speed i + b) = Speed i + b) as Hu
    by (intros b Hb; apply wrap_id; unfold fits in *; lia).
  assert (forall m, 0 <= m < 16 -> Z.testbit (ODR p) m = if m =? n then Z.testbit (ODR p) n else Z.testbit (ODR p) m) as Hk
    by (intros m _; by destruct (Z.eqb_spec m n) as [->|]).
  revert E Hc.
  do 4 (case_cmp; [match goal with E : Mode i = _ |- _ => rewrite E end; intros [= <- <-] _; rewrite Hu by (split; [discriminate|reflexivity]); repeat (split; [done|]); exact Hk|]).
  destruct (input_mode (Mode i)) eqn:Ei; simpl.
  - destruct (Pull i =? GPIO_NOPULL); simpl; [intros [= <- <-] _; by repeat (split; [done|])|].
    destruct (Pull i =? GPIO_PULLUP); intros [= <- <-] _; by repeat (split; [done|]).
  - destruct (Mode i =? GPIO_MODE_ANALOG); intros [= <- <-] Hc; (split; [by destruct Hc|by repeat (split; [done|])]).
Qed.

Lemma asked_fits i v : fits 2 (Speed i) -> fits 4 (v_config (asked i v)).
Proof. unfold fits, asked, output_cnf. simpl. intros Hs. repeat case_match; repeat case_cmp; simplify_eq; lia. Qed.

Lemma put_config_ok n c p m : 0 <= n < 16 -> 0 <= m < 16 -> fits 4 c ->
  pin_at (put_config (2 ^ n) n c p) m =
    if m =? n then {| (pin_at p m) with v_config := c |} else pin_at p m.
Proof.
  intros Hn Hm Hc. unfold put_config, pin_at. rewrite bit_low by lia. rewrite !(Z.shiftl_mul_pow2 _ 2) by lia.
  change (2 ^ 2) with 4. rewrite <- !(Z.mul_comm 4).
  assert (fits 4 15) by (unfold fits; lia).
  destruct (Z.ltb_spec n 8), (Z.ltb_spec m 8); simpl; rewrite ?(nibble_u32 15), ?(nibble_u32 c), ?field_modify by lia || done.
  - by destruct (m =? n).
  - by rewrite (proj2 (Z.eqb_neq _ _)) by lia.
  - by rewrite (proj2 (Z.eqb_neq _ _)) by lia.
  - destruct (Z.eqb_spec m n) as [->|]; [by rewrite Z.eqb_refl|]. by rewrite (proj2 (Z.eqb_neq _ _)) by lia.
Qed.

(** A port or an EXTICR register that is replaced. *)
Lemma view_set_port x p g y m : gpio_shape g -> 0 <= x < 5 -> 0 <= y ->
  view (set_port x p g) y m = if y =? x then Some (pin_at p m) else view g y m.
Proof.
  intros [Hp _ _ _] Hx Hy. unfold view, set_port, updZ. simpl. destruct (Z.eqb_spec y x) as [->|Hne].
  - by rewrite list_lookup_insert_eq by lia.
  - by rewrite list_lookup_insert_ne by lia.
Qed.

Lemma source_modify l n m cr v : 0 <= n < 16 -> 0 <= m < 16 -> length l = 4%nat -> fits 4 v -> l !! Z.to_nat (n / 4) = Some cr ->
  exists c c', l !! Z.to_nat (m / 4) = Some c /\
    updZ l (n / 4) (MODIFY_REG cr (Z.shiftl 15 (4 * (n mod 4))) (Z.shiftl v (4 * (n mod 4)))) !! Z.to_nat (m / 4) = Some c' /\
    field c' (m mod 4) = if m =? n then v else field c (m mod 4).
Proof.
  intros Hn Hm Hl Hv Hcr. destruct (lookup_lt_is_Some_2 l (Z.to_nat (m / 4))) as [c Hc]; [dlia|].
  exists c. unfold updZ. destruct (Z.eq_dec (m / 4) (n / 4)) as [Heq|Hne].
  - rewrite Heq in *. simplify_eq. rewrite list_lookup_insert_eq by dlia. eexists. split_and!; [done..|].
    rewrite field_modify by done || dlia.
    replace (m mod 4 =? n mod 4) with (m =? n); [done|].
    destruct (Z.eqb_spec m n) as [->|]; [by rewrite Z.eqb_refl|]. symmetry. apply Z.eqb_neq. dlia.
  - rewrite list_lookup_insert_ne by dlia. exists c. split_and!; [done..|].
    by rewrite (proj2 (Z.eqb_neq _ _)) by (intros ->; lia).
Qed.

Lemma exticr_place n : 0 <= n < 16 -> Z.shiftr n 2 = n / 4 /\ Z.land n 3 = n mod 4.
Proof.
  intros Hn. split; [by rewrite Z.shiftr_div_pow2|]. change 3 with (Z.ones 2). by rewrite Z.land_ones.
Qed.

(** The EXTI part of HAL_GPIO_Init, for one line. *)
Lemma init_exti_ok x i n g : gpio_shape g -> 0 <= x < 5 -> 0 <= n < 16 ->
  exists g', init_exti x i (2 ^ n) n g = Some g' /\ gpio_shape g' /\ same_control g g' /\ ports g' = ports g /\
    forall m, 0 <= m < 16 -> line_of g' m =
      if (m =? n) && exti_mode (Mode i) then Some (asked_line x i) else line_of g m.
Proof.
  intros [Hp He Hi Hip] Hx Hn. unfold init_exti. fold (exti_mode (Mode i)).
  destruct (exti_mode (Mode i)); [|exists g; split_and!; [done|by split|done|done|intros m _; by rewrite andb_false_r]].
  destruct (exticr_place n Hn) as [-> ->].
  destruct (lookup_lt_is_Some_2 (EXTICR g) (Z.to_nat (n / 4))) as [cr Hcr]; [dlia|]. rewrite Hcr. simpl.
  rewrite get_index, (nibble_u32 15), (nibble_u32 x) by first [done | dlia | unfold fits; lia].
  eexists. split_and!; [done|split; simpl; unfold updZ; by rewrite ?length_insert|done|done|].
  intros m Hm. unfold line_of. simpl.
  destruct (source_modify (EXTICR g) n m cr x) as (c & c' & Hc & Hc' & Hf); [done..|unfold fits; lia|done|].
  unfold MODIFY_REG in Hc'. unfold SET_BIT at 1, CLEAR_BIT at 1. rewrite Hc, Hc'. simpl. rewrite Hf, !set_if_at by lia. by destruct (m =? n).
Qed.

(** One pin. *)
Lemma init_pin_ok x i n c g p : gpio_shape g -> 0 <= x < 5 -> 0 <= n < 16 -> fits 2 (Speed i) ->
  ports g !! Z.to_nat x = Some p -> c = 0 \/ c = v_config (asked i (pin_at p n)) ->
  Z.testbit (Pin i) n = true ->
  exists c' g', init_pin x i n c g = Some (c', g') /\ (forall v, c' = v_config (asked i v)) /\ gpio_shape g' /\ same_control g g' /\
    (forall y m, 0 <= y -> 0 <= m < 16 -> view g' y m = if (y =? x) && (m =? n) then asked i <$> view g y m else view g y m) /\
    (forall m, 0 <= m < 16 -> line_of g' m = if (m =? n) && exti_mode (Mode i) then Some (asked_line x i) else line_of g m).
Proof.
  intros Hg Hx Hn Hs Hp Hc Hb. unfold init_pin. rewrite bit_u32, land_bit, Hb, Z.eqb_refl by lia. rewrite Hp. simpl.
  destruct (init_config i c (2 ^ n) p) as [c' p1] eqn:E.
  destruct (init_config_ok i c n p c' p1) as (-> & Hl & Hh & Hd & Ho); [done..|].
  set (v := v_config _). set (g1 := set_port x _ g).
  assert (gpio_shape g1) as Hg1 by (destruct Hg; split; simpl; unfold updZ; by rewrite ?length_insert).
  destruct (init_exti_ok x i n g1) as (g' & -> & Hg' & Hsame & Hports & Hlines); [done..|]. simpl.
  eexists _, g'. split_and!; [done|done|done|by destruct Hsame| |].
  - intros y m Hy Hm. unfold view at 1. rewrite Hports. fold (view g1 y m).
    unfold g1. rewrite view_set_port by done.
    destruct (Z.eqb_spec y x) as [->|]; [|done]. unfold view. rewrite Hp. simpl.
    rewrite put_config_ok by (done || apply asked_fits; done).
    assert (pin_at p1 m = {| (pin_at p m) with v_latch := if m =? n then v_latch (asked i (pin_at p n)) else Z.testbit (ODR p) m |}) as ->
      by (unfold pin_at; rewrite Hl, Hh, Hd, Ho by done; done).
    destruct (Z.eqb_spec m n) as [->|]; done.
  - intros m Hm. by rewrite Hlines.
Qed.

Lemma shiftr_zero a n m : 0 <= n <= m -> Z.shiftr a n = 0 -> Z.testbit a m = false.
Proof. intros Hn E. replace m with (m - n + n) by lia. by rewrite <- Z.shiftr_spec, E, Z.bits_0 by lia. Qed.

Lemma shiftr_all a : fits 16 a -> Z.shiftr a 16 = 0.
Proof. intros Ha. rewrite Z.shiftr_div_pow2 by lia. by apply Z.div_small. Qed.

(** The loop of HAL_GPIO_Init from pin [n] on. *)
Lemma init_loop_ok x i fuel : 0 <= x < 5 -> fits 2 (Speed i) -> fits 16 (Pin i) -> forall n c g,
  gpio_shape g -> 0 <= n <= 16 -> (16 - n <= Z.of_nat fuel) ->
  (forall v, c = 0 \/ c = v_config (asked i v)) ->
  exists g', init_loop fuel x i n c g = Some g' /\ gpio_shape g' /\ same_control g g' /\
    (forall y m, 0 <= y -> 0 <= m < 16 -> view g' y m =
      if (y =? x) && (n <=? m) && Z.testbit (Pin i) m then asked i <$> view g y m else view g y m) /\
    (forall m, 0 <= m < 16 -> line_of g' m =
      if (n <=? m) && Z.testbit (Pin i) m && exti_mode (Mode i) then Some (asked_line x i) else line_of g m).
Proof.
  intros Hx Hs Hpin. induction fuel as [|fuel IH]; intros n c g Hg Hn Hf Hc; simpl;
    destruct (Z.eqb_spec (Z.shiftr (Pin i) n) 0) as [E|Hne].
  1,3: exists g; split_and!; [done..| |];
    [intros y m _ Hm|intros m Hm]; destruct (Z.leb_spec n m); rewrite ?(shiftr_zero _ n m) by (done || lia);
    by rewrite ?andb_false_r.
  { exfalso. apply Hne. replace n with 16 by lia. by apply shiftr_all. }
  assert (n < 16) by (destruct (Z.eq_dec n 16) as [->|]; [by rewrite shiftr_all in Hne|lia]).
  destruct (Z.testbit (Pin i) n) eqn:Hb.
  - destruct (lookup_lt_is_Some_2 (ports g) (Z.to_nat x)) as [p Hp]; [rewrite (gs_ports _ Hg); lia|].
    destruct (init_pin_ok x i n c g p) as (c1 & g1 & -> & Hc1 & Hg1 & Hs1 & Hv1 & Hl1); [done || lia..|]. simpl.
    destruct (IH (n + 1) c1 g1) as (g' & -> & Hg' & Hs' & Hv' & Hl');
      [done || lia..|by right|].
    exists g'. split_and!; [done..|by transitivity g1| |].
    + intros y m Hy Hm. rewrite Hv', Hv1 by done. destruct (y =? x); [simpl|done].
      destruct (Z.eqb_spec m n) as [->|]; [by rewrite Hb, (proj2 (Z.leb_gt _ _)), Z.leb_refl by lia|].
      by replace (n + 1 <=? m) with (n <=? m) by lia.
    + intros m Hm. rewrite Hl', Hl1 by done.
      destruct (Z.eqb_spec m n) as [->|]; [by rewrite Hb, (proj2 (Z.leb_gt _ _)), Z.leb_refl by lia|].
      by replace (n + 1 <=? m) with (n <=? m) by lia.
  - unfold init_pin at 1. rewrite bit_u32, land_bit, Hb by lia.
    rewrite (proj2 (Z.eqb_neq 0 (2 ^ n))) by lia. simpl.
    destruct (IH (n + 1) c g) as (g' & -> & Hg' & Hs' & Hv' & Hl'); [done || lia..|].
    exists g'. split_and!; [done..| |].
    + intros y m Hy Hm. rewrite Hv' by done. destruct (Z.eqb_spec m n) as [->|].
      * by rewrite Hb, !andb_false_r.
      * by replace (n + 1 <=? m) with (n <=? m) by lia.
    + intros m Hm. rewrite Hl' by done. destruct (Z.eqb_spec m n) as [->|].
      * by rewrite Hb, !andb_false_r.
      * by replace (n + 1 <=? m) with (n <=? m) by lia.
Qed.

(** HAL_GPIO_Init: every pin that was asked for, and no other pin and no other line, is configured as asked. *)
Lemma gpio_init_ok x i g : gpio_shape g -> 0 <= x < 5 -> fits 2 (Speed i) -> fits 16 (Pin i) ->
  exists g', HAL_GPIO_Init x i g = Some g' /\ gpio_shape g' /\ same_control g g' /\
    (forall y m, 0 <= y -> 0 <= m < 16 -> view g' y m =
      if (y =? x) && Z.testbit (Pin i) m then asked i <$> view g y m else view g y m) /\
    (forall m, 0 <= m < 16 -> line_of g' m =
      if Z.testbit (Pin i) m && exti_mode (Mode i) then Some (asked_line x i) else line_of g m).
Proof.
  intros Hg Hx Hs Hp. destruct (init_loop_ok x i 32 Hx Hs Hp 0 0 g) as (g' & E & Hg' & Hc & Hv & Hl);
    [done|lia|lia|by left|].
  exists g'. split_and!; [done..| |].
  - intros y m Hy Hm. rewrite Hv, (proj2 (Z.leb_le 0 m)) by lia. by rewrite andb_true_r.
  - intros m Hm. by rewrite Hl, (proj2 (Z.leb_le 0 m)) by lia.
Qed.

(** ** HAL_GPIO_DeInit *)
Lemma field_masked r k : 0 <= k -> Z.land r (Z.shiftl 15 (4 * k)) = Z.shiftl (field r k) (4 * k).
Proof.
  intros Hk. apply Z.bits_inj'. intros i Hi. rewrite Z.land_spec, !shiftl_bit, (proj2 (Z.leb_le 0 i)) by done. simpl.
  change 15 with (Z.ones 4). destruct (Z.leb_spec (4 * k) i).
  - rewrite field_bit, Z.testbit_ones_nonneg, Z.sub_add by lia. apply andb_comm.
  - rewrite !(Z.testbit_neg_r _ (i - 4 * k)) by lia. apply andb_false_r.
Qed.

Lemma shiftl_eqb a b n : 0 <= n -> (Z.shiftl a n =? Z.shiftl b n) = (a =? b).
Proof.
  intros Hn. rewrite !Z.shiftl_mul_pow2 by done. pose proof (pow2_pos n Hn).
  destruct (Z.eqb_spec a b) as [->|]; [by rewrite Z.eqb_refl|]. apply Z.eqb_neq. nia.
Qed.

Lemma line_of_some g m : gpio_shape g -> 0 <= m < 16 -> exists cr l, EXTICR g !! Z.to_nat (m / 4) = Some cr /\
  line_of g m = Some l /\ v_source l = field cr (m mod 4).
Proof.
  intros Hg Hm. destruct (lookup_lt_is_Some_2 (EXTICR g) (Z.to_nat (m / 4))) as [cr Hcr];
    [rewrite (gs_exticr _ Hg); dlia|].
  exists cr. eexists. split; [done|]. unfold line_of. rewrite Hcr. simpl. by split.
Qed.

Lemma deinit_exti_ok x n g : gpio_shape g -> 0 <= x < 5 -> 0 <= n < 16 ->
  exists g', deinit_exti x (2 ^ n) n g = Some g' /\ gpio_shape g' /\ same_control g g' /\ ports g' = ports g /\
    forall m, 0 <= m < 16 -> line_of g' m = if m =? n then deinit_line x <$> line_of g m else line_of g m.
Proof.
  intros Hg Hx Hn. unfold deinit_exti. destruct (exticr_place n Hn) as [-> ->].
  destruct (line_of_some g n Hg Hn) as (cr & l & Hcr & Hl & Hsrc). rewrite Hcr. simpl.
  rewrite get_index, (nibble_u32 15), (nibble_u32 x) by first [done | dlia | unfold fits; lia].
  rewrite field_masked, shiftl_eqb by dlia. destruct (Z.eqb_spec (field cr (n mod 4)) x) as [Hf|Hf].
  - destruct Hg as [Hp He Hi Hip].
    eexists. split_and!; [done|split; simpl; unfold updZ; by rewrite ?length_insert|done|done|].
    intros m Hm. unfold line_of. simpl.
    destruct (source_modify (EXTICR g) n m cr 0) as (c & c' & Hc & Hc' & Hfm); [done..|unfold fits; lia|done|].
    unfold MODIFY_REG in Hc'. rewrite Z.shiftl_0_l, Z.lor_0_r in Hc'. fold (CLEAR_BIT cr (Z.shiftl 15 (4 * (n mod 4)))) in Hc'. rewrite Hc, Hc'. simpl.
    rewrite Hfm, !clear_bit_at by lia. destruct (Z.eqb_spec m n) as [->|]; [|done].
    simplify_eq. unfold deinit_line. simpl. by rewrite Z.eqb_refl.
  - exists g. split_and!; [done..|]. intros m Hm. destruct (Z.eqb_spec m n) as [->|]; [|done].
    rewrite Hl. simpl. unfold deinit_line. by rewrite Hsrc, (proj2 (Z.eqb_neq _ _)) by done.
Qed.

Lemma deinit_pin_ok x pin n g : gpio_shape g -> 0 <= x < 5 -> 0 <= n < 16 -> Z.testbit pin n = true ->
  exists g', deinit_pin x pin n g = Some g' /\ gpio_shape g' /\ same_control g g' /\
    (forall y m, 0 <= y -> 0 <= m < 16 -> view g' y m = if (y =? x) && (m =? n) then reset_pin <$> view g y m else view g y m) /\
    (forall m, 0 <= m < 16 -> line_of g' m = if m =? n then deinit_line x <$> line_of g m else line_of g m).
Proof.
  intros Hg Hx Hn Hb. unfold deinit_pin. rewrite bit_u32, land_bit, Hb by lia.
  rewrite (proj2 (Z.eqb_neq (2 ^ n) 0)) by lia. simpl.
  destruct (deinit_exti_ok x n g) as (g1 & -> & Hg1 & Hs1 & Hp1 & Hl1); [done..|]. simpl.
  destruct (lookup_lt_is_Some_2 (ports g1) (Z.to_nat x)) as [p Hp]; [rewrite (gs_ports _ Hg1); lia|]. rewrite Hp. simpl.
  eexists. split_and!; [done|destruct Hg1; split; simpl; unfold updZ; by rewrite ?length_insert|by destruct Hs1| |done].
  intros y m Hy Hm. rewrite view_set_port by done. unfold view. rewrite <- Hp1.
  destruct (Z.eqb_spec y x) as [->|]; [|done]. rewrite Hp. simpl.
  pose proof (put_config_ok n 4 p m Hn Hm ltac:(unfold fits; lia)) as E.
  set (q := put_config (2 ^ n) n 4 p) in *.
  transitivity (Some {| (pin_at q m) with v_latch := negb (m =? n) && Z.testbit (ODR q) m |}).
  { unfold pin_at. simpl. by rewrite clear_bit_at by lia. }
  assert (Z.testbit (ODR q) m = v_latch (pin_at p m)) as ->
    by (change (Z.testbit (ODR q) m) with (v_latch (pin_at q m)); rewrite E; by destruct (m =? n)).
  rewrite E. by destruct (m =? n).
Qed.

Lemma deinit_loop_ok x pin fuel : 0 <= x < 5 -> fits 16 pin -> forall n g,
  gpio_shape g -> 0 <= n <= 16 -> (16 - n <= Z.of_nat fuel) ->
  exists g', deinit_loop fuel x pin n g = Some g' /\ gpio_shape g' /\ same_control g g' /\
    (forall y m, 0 <= y -> 0 <= m < 16 -> view g' y m =
      if (y =? x) && (n <=? m) && Z.testbit pin m then reset_pin <$> view g y m else view g y m) /\
    (forall m, 0 <= m < 16 -> line_of g' m =
      if (n <=? m) && Z.testbit pin m then deinit_line x <$> line_of g m else line_of g m).
Proof.
  intros Hx Hpin. induction fuel as [|fuel IH]; intros n g Hg Hn Hf; simpl;
    destruct (Z.eqb_spec (Z.shiftr pin n) 0) as [E|Hne].
  1,3: exists g; split_and!; [done..| |];
    [intros y m _ Hm|intros m Hm]; destruct (Z.leb_spec n m); rewrite ?(shiftr_zero _ n m) by (done || lia);
    by rewrite ?andb_false_r.
  { exfalso. apply Hne. replace n with 16 by lia. by apply shiftr_all. }
  assert (n < 16) by (destruct (Z.eq_dec n 16) as [->|]; [by rewrite shiftr_all in Hne|lia]).
  destruct (Z.testbit pin n) eqn:Hb.
  - destruct (deinit_pin_ok x pin n g) as (g1 & -> & Hg1 & Hs1 & Hv1 & Hl1); [done || lia..|]. simpl.
    destruct (IH (n + 1) g1) as (g' & -> & Hg' & Hs' & Hv' & Hl'); [done || lia..|].
    exists g'. split_and!; [done..|by transitivity g1| |].
    + intros y m Hy Hm. rewrite Hv', Hv1 by done. destruct (y =? x); [simpl|done].
      destruct (Z.eqb_spec m n) as [->|]; [by rewrite Hb, (proj2 (Z.leb_gt _ _)), Z.leb_refl by lia|].
      by replace (n + 1 <=? m) with (n <=? m) by lia.
    + intros m Hm. rewrite Hl', Hl1 by done.
      destruct (Z.eqb_spec m n) as [->|]; [by rewrite Hb, (proj2 (Z.leb_gt _ _)), Z.leb_refl by lia|].
      by replace (n + 1 <=? m) with (n <=? m) by lia.
  - unfold deinit_pin at 1. rewrite bit_u32, land_bit, Hb by lia. simpl.
    destruct (IH (n + 1) g) as (g' & -> & Hg' & Hs' & Hv' & Hl'); [done || lia..|].
    exists g'. split_and!; [done..| |].
    + intros y m Hy Hm. rewrite Hv' by done. destruct (Z.eqb_spec m n) as [->|].
      * by rewrite Hb, !andb_false_r.
      * by replace (n + 1 <=? m) with (n <=? m) by lia.
    + intros m Hm. rewrite Hl' by done. destruct (Z.eqb_spec m n) as [->|].
      * by rewrite Hb, !andb_false_r.
      * by replace (n + 1 <=? m) with (n <=? m) by lia.
Qed.

Lemma gpio_deinit_ok x pin g : gpio_shape g -> 0 <= x < 5 -> fits 16 pin ->
  exists g', HAL_GPIO_DeInit x pin g = Some g' /\ gpio_shape g' /\ same_control g g' /\
    (forall y m, 0 <= y -> 0 <= m < 16 -> view g' y m =
      if (y =? x) && Z.testbit pin m then reset_pin <$> view g y m else view g y m) /\
    (forall m, 0 <= m < 16 -> line_of g' m =
      if Z.testbit pin m then deinit_line x <$> line_of g m else line_of g m).
Proof.
  intros Hg Hx Hp. destruct (deinit_loop_ok x pin 32 Hx Hp 0 g) as (g' & E & Hg' & Hc & Hv & Hl); [done|lia..|].
  exists g'. split_and!; [done..| |].
  - intros y m Hy Hm. rewrite Hv, (proj2 (Z.leb_le 0 m)) by lia. by rewrite andb_true_r.
  - intros m Hm. by rewrite Hl, (proj2 (Z.leb_le 0 m)) by lia.
Qed.

(** ** Reading and writing *)
Lemma port_some g x : gpio_shape g -> 0 <= x < 5 -> exists p, ports g !! Z.to_nat x = Some p.
Proof. intros Hg Hx. apply lookup_lt_is_Some_2. rewrite (gs_ports _ Hg). lia. Qed.

(** HAL_GPIO_WritePin changes the latches of the pins it was given. *)
Lemma gpio_write_ok x pin state g : gpio_shape g -> 0 <= x < 5 -> fits 16 pin ->
  exists g', HAL_GPIO_WritePin x pin state g = Some g' /\ gpio_shape g' /\ same_control g g' /\
    (forall y m, 0 <= y -> 0 <= m < 16 -> view g' y m =
      if (y =? x) && Z.testbit pin m then (fun v => {| v with v_latch := negb (state =? 0) |}) <$> view g y m else view g y m) /\
    (forall m, line_of g' m = line_of g m).
Proof.
  intros Hg Hx Hp. unfold HAL_GPIO_WritePin. destruct (port_some g x Hg Hx) as [p E]. rewrite E. simpl.
  eexists. split_and!; [done|destruct Hg; split; simpl; unfold updZ; by rewrite ?length_insert|done| |done].
  intros y m Hy Hm. rewrite view_set_port by done. destruct (Z.eqb_spec y x) as [->|]; [|done].
  unfold view. rewrite E. unfold pin_at, set_odr. simpl. rewrite bsrr_bit by done. change GPIO_PIN_RESET with 0.
  destruct (state =? 0); simpl.
  - rewrite wrap_id by (rewrite Z.shiftl_mul_pow2 by lia; unfold fits in *; lia).
    rewrite !shiftl_bit, !(proj2 (Z.leb_le 0 _)), (Z.testbit_neg_r _ (m - 16)), Z.add_simpl_r by lia. simpl.
    by destruct (Z.testbit pin m).
  - rewrite (high_bit 16 pin (m + 16)) by (done || lia). by destruct (Z.testbit pin m).
Qed.

(** HAL_GPIO_ReadPin tells whether one of the pins it was given reads as 1. *)
Lemma gpio_read_ok x n g v : 0 <= n < 16 -> view g x n = Some v ->
  HAL_GPIO_ReadPin x (2 ^ n) g = Some (Z.b2z (v_reads v)).
Proof.
  unfold view, HAL_GPIO_ReadPin. intros Hn. destruct (_ !! _) as [p|]; [simpl|done]. intros [= <-]. simpl.
  rewrite land_bit by lia. change GPIO_PIN_RESET with 0.
  destruct (Z.testbit (IDR p) n); simpl; [|done]. by rewrite (proj2 (Z.eqb_neq (2 ^ n) 0)) by lia.
Qed.

Lemma gpio_toggle_ok x n g : gpio_shape g -> 0 <= x < 5 -> 0 <= n < 16 ->
  exists g', HAL_GPIO_TogglePin x (2 ^ n) g = Some g' /\
    forall y m, 0 <= y -> 0 <= m < 16 -> view g' y m =
      if (y =? x) && (m =? n) then (fun v => {| v with v_latch := negb (v_latch v) |}) <$> view g y m else view g y m.
Proof.
  intros Hg Hx Hn. unfold HAL_GPIO_TogglePin. destruct (port_some g x Hg Hx) as [p E]. rewrite E. simpl.
  eexists. split; [done|]. intros y m Hy Hm. rewrite view_set_port by done.
  destruct (Z.eqb_spec y x) as [->|]; [|done]. unfold view. rewrite E. unfold pin_at, set_odr. simpl.
  rewrite land_bit by lia. destruct (Z.testbit (ODR p) n) eqn:Hb.
  - rewrite (proj2 (Z.eqb_neq (2 ^ n) 0)) by lia. simpl. rewrite brr_bit, Z.pow2_bits_eqb, (Z.eqb_sym n m) by lia.
    destruct (Z.eqb_spec m n) as [->|]; simpl; [by rewrite Hb|by rewrite andb_true_r].
  - simpl. rewrite bsrr_bit, !Z.pow2_bits_eqb, (Z.eqb_sym n m), (proj2 (Z.eqb_neq n (m + 16))) by lia.
    destruct (Z.eqb_spec m n) as [->|]; simpl; [by rewrite Hb|done].
Qed.

(** ** Interrupts *)
Lemma exti_irq_ok n g : 0 <= n < 16 -> exists g',
  HAL_GPIO_EXTI_IRQHandler (2 ^ n) g = (Z.testbit (PR g) n, g') /\
  (forall m, 0 <= m < 16 -> Z.testbit (PR g') m = negb (m =? n) && Z.testbit (PR g) m) /\
  ports g' = ports g /\ EXTICR g' = EXTICR g /\ IMR g' = IMR g /\ EMR g' = EMR g /\ RTSR g' = RTSR g /\ FTSR g' = FTSR g /\
  ISER g' = ISER g /\ IP g' = IP g.
Proof.
  intros Hn. unfold HAL_GPIO_EXTI_IRQHandler. rewrite land_bit by lia. destruct (Z.testbit (PR g) n) eqn:Hb.
  - rewrite (proj2 (Z.eqb_neq (2 ^ n) 0)) by lia. eexists. split_and!; try done. simpl.
    intros m Hm. rewrite pr_bit, Z.pow2_bits_eqb, (Z.eqb_sym n m) by lia. apply andb_comm.
  - exists g. split_and!; try done. intros m Hm. by destruct (Z.eqb_spec m n) as [->|].
Qed.

Lemma iser_place irq : 0 <= irq -> Z.shiftr irq 5 = irq / 32 /\ Z.land irq 31 = irq mod 32.
Proof. intros Hn. split; [by rewrite Z.shiftr_div_pow2|]. change 31 with (Z.ones 5). by rewrite Z.land_ones. Qed.

Lemma enabled_update g irq j (e e' : Z) : 0 <= irq -> 0 <= j -> ISER g !! Z.to_nat (irq / 32) = Some e ->
  (forall n, 0 <= n < 32 -> n <> irq mod 32 -> Z.testbit e' n = Z.testbit e n) ->
  enabled {| g with ISER := updZ (ISER g) (irq / 32) e' |} j =
    if j =? irq then Z.testbit e' (irq mod 32) else enabled g j.
Proof.
  intros Hi Hj He Hs. unfold enabled, updZ. simpl. pose proof (lookup_lt_Some _ _ _ He).
  destruct (Z.eq_dec (j / 32) (irq / 32)) as [E|Hne].
  - rewrite E, list_lookup_insert_eq, He by done. destruct (Z.eqb_spec j irq) as [->|]; [done|]. apply Hs; dlia.
  - rewrite list_lookup_insert_ne by dlia. destruct (Z.eqb_spec j irq) as [->|]; [done|done].
Qed.

Lemma iser_some g irq : gpio_shape g -> 0 <= irq < 240 -> exists e, ISER g !! Z.to_nat (irq / 32) = Some e.
Proof. intros Hg Hi. apply lookup_lt_is_Some_2. rewrite (gs_iser _ Hg). dlia. Qed.

(** Nothing but the enabled interrupts and their priorities differs. *)
Record same_pins (g g' : gpio) : Prop := {
  sp_ports : ports g' = ports g; sp_exticr : EXTICR g' = EXTICR g; sp_pr : PR g' = PR g;
  sp_imr : IMR g' = IMR g; sp_emr : EMR g' = EMR g; sp_rtsr : RTSR g' = RTSR g; sp_ftsr : FTSR g' = FTSR g
}.

Lemma nvic_set_ok irq g b : gpio_shape g -> 0 <= irq < 240 ->
  exists g', (if b : bool then HAL_NVIC_EnableIRQ irq g else HAL_NVIC_DisableIRQ irq g) = Some g' /\ gpio_shape g' /\ same_pins g g' /\
    forall j, 0 <= j -> enabled g' j = if j =? irq then b else enabled g j.
Proof.
  intros Hg Hi. destruct (iser_some g irq Hg Hi) as [e He]. unfold HAL_NVIC_EnableIRQ, HAL_NVIC_DisableIRQ.
  destruct (iser_place irq ltac:(lia)) as [-> ->]. rewrite bit_u32 by dlia. rewrite He. simpl.
  destruct b; eexists; (split_and!; [done|destruct Hg; split; simpl; unfold updZ; by rewrite ?length_insert|done|]);
    intros j Hj; rewrite (enabled_update g irq j e) by
      (done || lia || (intros n Hn Hne; rewrite ?iser_bit, ?icer_bit, Z.pow2_bits_false by dlia;
                       by rewrite ?orb_false_r, ?andb_true_r));
    rewrite ?iser_bit, ?icer_bit, Z.pow2_bits_true by dlia; by rewrite ?orb_true_r, ?andb_false_r.
Qed.

Lemma nvic_priority_ok irq a b g : gpio_shape g -> 0 <= irq < 240 ->
  exists g', HAL_NVIC_SetPriority irq a b g = Some g' /\ gpio_shape g' /\ same_pins g g' /\ ISER g' = ISER g.
Proof.
  intros Hg Hi. unfold HAL_NVIC_SetPriority. destruct (lookup_lt_is_Some_2 (IP g) (Z.to_nat irq)) as [v Hv];
    [rewrite (gs_ip _ Hg); lia|]. rewrite Hv. simpl. eexists.
  split_and!; [done|destruct Hg; split; simpl; unfold updZ; by rewrite ?length_insert|done|done].
Qed.
End HalProofs.

(** ** Registers that follow the manual, and the registers after a reset *)
Definition demo_hardware : Hardware := {|
  bsrr_write odr v := Z.lor (Z.ldiff odr (Z.shiftr v 16)) (Z.land v 0xFFFF);
  brr_write odr v := Z.ldiff odr v;
  pr_write pr v := Z.ldiff pr v;
  iser_write e v := Z.lor e v;
  icer_write e v := Z.ldiff e v
|}.

Lemma demo_hardware_laws : @HardwareLaws demo_hardware.
Proof.
  split; simpl; intros r v n Hn; rewrite ?Z.lor_spec, ?Z.ldiff_spec, ?Z.land_spec, ?Z.shiftr_spec by lia; try done.
  change 65535 with (Z.ones 16). rewrite Z.testbit_ones_nonneg, (proj2 (Z.ltb_lt n 16)) by lia.
  destruct (Z.testbit v n), (Z.testbit v (n + 16)), (Z.testbit r n); done.
Qed.

Definition reset_regs : gpio :=
  {| ports := replicate 5 {| CRL := 0x44444444; CRH := 0x44444444; IDR := 0; ODR := 0 |}; APB2ENR := 0; EXTICR := replicate 4 0;
     IMR := 0; EMR := 0; RTSR := 0; FTSR := 0; PR := 0; ISER := replicate 8 0; IP := replicate 240 0; AIRCR := 0x300 |}.

Lemma reset_regs_shape : gpio_shape reset_regs.
Proof. by split. Qed.

(** ** What HAL_GPIO_Init and HAL_GPIO_TogglePin do not do *)

(** The pull-up is not switched on for an output: the register is the same as without. *)
Lemma output_loop_no_pull {H : Hardware} x i pull : output_cnf (Mode i) <> None -> forall fuel n c g,
  init_loop fuel x {| i with Pull := pull |} n c g = init_loop fuel x i n c g.
Proof.
  intros Hm fuel. induction fuel as [|fuel IH]; intros n c g; simpl; [done|].
  assert (init_pin x {| i with Pull := pull |} n c g = init_pin x i n c g) as ->.
  { unfold init_pin. simpl. destruct (_ =? _); [|done]. destruct (_ !! _) as [p|]; [|done]. simpl.
    assert (init_config {| i with Pull := pull |} c (u32 (Z.shiftl 1 n)) p = init_config i c (u32 (Z.shiftl 1 n)) p) as ->; [|done].
    unfold output_cnf in Hm. unfold init_config. simpl. by repeat case_match. }
  destruct (_ =? 0); [done|]. destruct (init_pin x i n c g) as [[c' g']|]; [|done]. simpl. apply IH.
Qed.

Lemma output_has_no_pull {H : Hardware} x i pull g :
  output_cnf (Mode i) <> None -> HAL_GPIO_Init x {| i with Pull := pull |} g = HAL_GPIO_Init x i g.
Proof. intros Hm. exact (output_loop_no_pull x i pull Hm 32 0 0 g). Qed.

(** Several pins are not toggled each for itself: one that is high clears them all. *)
Lemma toggle_clears_all : exists g', @HAL_GPIO_TogglePin demo_hardware 0 3
  (set_port 0 {| CRL := 0x44444444; CRH := 0x44444444; IDR := 0; ODR := 1 |} reset_regs) = Some g' /\
  v_latch <$> view g' 0 0 = Some false /\ v_latch <$> view g' 0 1 = Some false.
Proof. eexists. split; [vm_compute; reflexivity|]. split; reflexivity. Qed.
