(* ===== verification/Ui.v ===== *)
(** * The OLED pages, the buzzer, the LEDs and the light sensor
    (applications/ui_oled.c, notifier_buzzer.c, indicator_led.c, sensor_light.c)

    The threads of the application, one iteration of each thread's loop being
    one step.  They use the stopwatch through the interface [StopwatchApi].
    Pins are levels written and read; [rt_thread_mdelay] is the delay the step
    ends with. *)
From S2P Require Import Prelude Gpio Kprintf Timebase Stopwatch Oled.

(** ** The stopwatch as its clients see it *)
Class StopwatchApi := {
  api_state : Type;
  api_call : sw_op -> api_state -> sw_out * api_state
}.

(** The calls that return an integer. *)
Definition api_val {A : StopwatchApi} (op : sw_op) (s : api_state) : Z * api_state :=
  let '(o, s) := api_call op s in
  (match o with OutVal v => v | _ => 0 end, s).

Definition api_get_state {A : StopwatchApi} (s : api_state) : stopwatch_state_t * api_state :=
  let '(o, s) := api_call OpGetState s in
  (match o with OutState st => st | _ => STOPWATCH_STATE_IDLE end, s).

(** What the clients rely on: the number of laps is at most 20 and asking does
    not change the answer. *)
Class StopwatchApiLaws (A : StopwatchApi) := {
  api_wf : api_state -> Prop;
  api_laps : api_state -> Z;
  api_laps_le : forall s, api_wf s -> 0 <= api_laps s <= 20;
  api_call_wf : forall op s, api_wf s -> api_wf (snd (api_call op s));
  api_count : forall s, api_wf s -> fst (api_val OpGetCount s) = api_laps s;
  api_query_laps : forall op s, api_wf s ->
    match op with
    | OpGetState | OpGetTotal | OpGetCount | OpGetLap _ | OpGetLatest =>
        api_laps (snd (api_call op s)) = api_laps s
    | _ => True
    end
}.

(** The service itself, each call meeting the next environment of a supply. *)
Definition service_api (TS : TimeSource) (env : nat -> sw_env) : StopwatchApi := {|
  api_state := sw_world TS * nat;
  api_call := fun op '(w, n) => let '(o, w) := sw_step op (env n) w in (o, (w, S n))
|}.

(** ** ui_oled.c *)
Record ui := {
  s_oled_enabled : Z;
  s_refresh_ms : Z;        (* uint16 *)
  s_page_drawn : Z;
  s_laps_offset : Z;       (* uint16 *)
  s_page : Z;
  dev : oled
}.

Definition ui_boot (d : oled) : ui :=
  {| s_oled_enabled := 1; s_refresh_ms := 10; s_page_drawn := 0; s_laps_offset := 0;
     s_page := 0; dev := d |}.

Definition format_time_ms (total_ms buf_len : Z) : option (list Z) :=
  let cs := total_ms / 10 mod 100 in
  let sec := total_ms / 1000 mod 60 in
  let min := total_ms / 60000 in
  snprintf_text buf_len (bytes "%02u:%02u.%02u") [AInt min; AInt sec; AInt cs].

Definition format_time_sscc (total_ms buf_len : Z) : option (list Z) :=
  let cs := total_ms / 10 mod 100 in
  let sec := total_ms / 1000 mod 60 in
  snprintf_text buf_len (bytes "%02u.%02u") [AInt sec; AInt cs].

Section Pages.
Context {A : StopwatchApi}.

Definition draw_main_page (u : ui) (s : api_state) : option (ui * api_state) :=
  let '(total, s) := api_val OpGetTotal s in
  buf ← format_time_ms total 24;
  u ← (if s_page_drawn u =? 0 then
         o ← OLED_ShowString 0 0 (bytes "Stopwatch") OLED_6X8 (OLED_Clear (dev u));
         o ← OLED_ShowString 0 36 (bytes "Lap:") OLED_6X8 o;
         Some {| u with dev := OLED_Update o; s_page_drawn := 1 |}
       else Some u);
  o ← OLED_ShowString 0 16 buf OLED_8X16 (OLED_ClearArea 0 16 128 16 (dev u));
  let o := OLED_UpdateArea 0 16 128 16 o in
  let '(cnt, s) := api_val OpGetCount s in
  let o := OLED_ClearArea 30 36 98 8 o in
  '(o, s) ←
    (if 0 <? cnt then
       let '(last, s) := api_val OpGetLatest s in
       buf ← format_time_ms last 24;
       o ← OLED_ShowString 30 36 buf OLED_6X8 o; Some (o, s)
     else Some (o, s));
  Some ({| u with dev := OLED_UpdateArea 30 36 98 8 o |}, s).

(** The lines of the page from line [i] on, [n] at most. *)
Fixpoint draw_laps (n : nat) (i offset cnt : Z) (o : oled) (s : api_state)
  : option (oled * api_state) :=
  match n with
  | O => Some (o, s)
  | S n =>
      let idx := u16 (offset + i) in
      if cnt <=? idx then Some (o, s)
      else
        let '(ms, s) := api_val (OpGetLap idx) s in
        tbuf ← format_time_ms ms 16;
        line ← snprintf_text 24 (bytes "#%u %s") [AInt (idx + 1); AStr (Some tbuf)];
        o ← OLED_ShowString 0 (8 * (i + 1)) line OLED_6X8 o;
        draw_laps n (u16 (i + 1)) offset cnt o s
  end.

(** Minimum, maximum and sum of the laps from index [i] on, [n] of them. *)
Fixpoint lap_stats (n : nat) (i : Z) (min_ms max_ms sum_ms : Z) (s : api_state)
  : Z * Z * Z * api_state :=
  match n with
  | O => (min_ms, max_ms, sum_ms, s)
  | S n =>
      let '(v, s) := api_val (OpGetLap i) s in
      let min_ms := if v <? min_ms then v else min_ms in
      let max_ms := if max_ms <? v then v else max_ms in
      lap_stats n (u16 (i + 1)) min_ms max_ms (u32 (sum_ms + v)) s
  end.

Definition draw_laps_page (u : ui) (s : api_state) : option (ui * api_state) :=
  o ← OLED_ShowString 0 0 (bytes "Laps") OLED_6X8 (OLED_Clear (dev u));
  let '(cnt, s) := api_val OpGetCount s in
  let offset := if cnt <=? s_laps_offset u then 0 else s_laps_offset u in
  '(o, s) ← draw_laps 6 0 offset cnt o s;
  '(o, s) ←
    (if 0 <? cnt then
       let '(min_ms, max_ms, sum_ms, s) := lap_stats (Z.to_nat cnt) 0 0xFFFFFFFF 0 0 s in
       let avg_ms := sum_ms / cnt in
       stat ← snprintf_text 24 (bytes "m%u M%u a%u") [AInt min_ms; AInt max_ms; AInt avg_ms];
       o ← OLED_ShowString 0 56 stat OLED_6X8 o; Some (o, s)
     else Some (o, s));
  Some ({| u with dev := OLED_Update o; s_laps_offset := offset |}, s).

(** One round of [ui_entry]: the new state and the delay. *)
Definition ui_step (u : ui) (s : api_state) : option (ui * api_state * Z) :=
  '(u, s) ←
    (if negb (s_oled_enabled u =? 0) then
       if s_page u =? 0 then draw_main_page u s else draw_laps_page u s
     else Some (u, s));
  Some (u, s, s_refresh_ms u).

(** The screen part of ui_oled_init; creating the thread is a kernel call. *)
Definition ui_oled_init (u : ui) : option ui :=
  let o := OLED_Clear (OLED_Init (OLED_SetI2CAddress 0x78 (dev u))) in
  o ← OLED_ShowString 0 0 (bytes "RT-Thread") OLED_6X8 o;
  o ← OLED_ShowString 0 16 (bytes "Stopwatch") OLED_8X16 o;
  Some {| u with dev := OLED_Update o |}.

Definition ui_oled_set_refresh_ms (ms : Z) (u : ui) : ui :=
  {| u with s_refresh_ms := if ms <? 10 then 10 else ms |}.

Definition ui_oled_set_enabled (enabled : Z) (u : ui) : ui :=
  {| u with s_oled_enabled := if negb (enabled =? 0) then 1 else 0 |}.

Definition ui_oled_set_page (page : Z) (u : ui) : ui :=
  {| u with s_page := if negb (page =? 0) then 1 else 0; s_page_drawn := 0 |}.

Definition ui_oled_laps_prev (u : ui) : ui :=
  {| u with s_laps_offset :=
       if 6 <=? s_laps_offset u then u16 (s_laps_offset u - 6) else 0 |}.

Definition ui_oled_laps_next (u : ui) (s : api_state) : ui * api_state :=
  let '(cnt, s) := api_val OpGetCount s in
  (if s_laps_offset u + 6 <? cnt
   then {| u with s_laps_offset := u16 (s_laps_offset u + 6) |} else u, s).

Definition ui_oled_laps_reset (u : ui) : ui := {| u with s_laps_offset := 0 |}.
End Pages.

(** ** notifier_buzzer.c *)

(** [buz_level]: what was last written to the pin; the buzzer sounds on low. *)
Record buzzer := { s_beep_enabled : Z; buz_level : Z }.

Definition buz_set (on : Z) (b : buzzer) : buzzer :=
  {| b with buz_level := if negb (on =? 0) then PIN_LOW else PIN_HIGH |}.

Definition notifier_buzzer_init (b : buzzer) : Z * buzzer := (RT_EOK, buz_set 0 b).

Definition notifier_beep_enable (enable : Z) (b : buzzer) : buzzer :=
  let b := {| b with s_beep_enabled := if negb (enable =? 0) then 1 else 0 |} in
  if s_beep_enabled b =? 0 then buz_set 0 b else b.

Definition notifier_beep_is_enabled (b : buzzer) : Z := s_beep_enabled b.

(** The states before and after the delay of [ms] during which another thread
    can run ([during]). *)
Definition notifier_beep_once (ms : Z) (during : buzzer -> buzzer) (b : buzzer) : buzzer :=
  if s_beep_enabled b =? 0 then b
  else buz_set 0 (during (buz_set 1 b)).

(** ** indicator_led.c *)
Record leds := { led_run : Z; led_pause : Z; led_err : Z; blink : Z }.

Definition led_level (on : Z) : Z := if negb (on =? 0) then PIN_HIGH else PIN_LOW.

(** One round of [indicator_led_entry] and its delay. *)
Definition indicator_led_step (s : stopwatch_state_t) (l : leds) : leds * Z :=
  match s with
  | STOPWATCH_STATE_RUNNING =>
      let b := if blink l =? 0 then 1 else 0 in
      ({| led_run := led_level b; led_pause := led_level 0; led_err := led_level 0;
          blink := b |}, 500)
  | STOPWATCH_STATE_PAUSED =>
      ({| led_run := led_level 0; led_pause := led_level 1; led_err := led_level 0;
          blink := blink l |}, 200)
  | STOPWATCH_STATE_IDLE =>
      ({| led_run := led_level 0; led_pause := led_level 0; led_err := led_level 0;
          blink := blink l |}, 200)
  end.

(** ** sensor_light.c *)

(** [dark_cnt] and [light_cnt] are the [rt_uint8_t] locals of the thread. *)
Record sensor := { s_enabled : Z; s_dark : Z; s_invert : Z; dark_cnt : Z; light_cnt : Z }.

(** The sensor with the two components it drives. *)
Record env_state := { sns : sensor; bz : buzzer; scr : ui }.

Definition read_do (v : Z) (s : sensor) : Z :=
  let dark := if negb (v =? 0) then 0 else 1 in
  if negb (s_invert s =? 0) then (if dark =? 0 then 1 else 0) else dark.

Definition apply_state (dark : Z) (e : env_state) : env_state :=
  let s := {| (sns e) with s_dark := if negb (dark =? 0) then 1 else 0 |} in
  if negb (s_dark s =? 0) then
    {| sns := s; bz := notifier_beep_enable 0 (bz e); scr := ui_oled_set_refresh_ms 300 (scr e) |}
  else
    {| sns := s; bz := notifier_beep_enable 1 (bz e); scr := ui_oled_set_refresh_ms 10 (scr e) |}.

(** One round of [light_thread_entry] with [v] on the input pin. *)
Definition light_step (v : Z) (e : env_state) : env_state :=
  let s := sns e in
  if negb (s_enabled s =? 0) then
    let dark_now := read_do v s in
    let s :=
      if negb (dark_now =? 0)
      then {| s with dark_cnt := u8 (dark_cnt s + 1); light_cnt := 0 |}
      else {| s with light_cnt := u8 (light_cnt s + 1); dark_cnt := 0 |} in
    let e := {| e with sns := s |} in
    if (s_dark s =? 0) && (3 <=? dark_cnt s) then apply_state 1 e
    else if negb (s_dark s =? 0) && (3 <=? light_cnt s) then apply_state 0 e
    else e
  else e.

(** sensor_light_init up to the creation of the thread, whose counters start at 0. *)
Definition sensor_light_init (v : Z) (e : env_state) : env_state :=
  let e := apply_state (read_do v (sns e)) e in
  {| e with sns := {| (sns e) with dark_cnt := 0; light_cnt := 0 |} |}.

Definition sensor_light_enable (enable : Z) (s : sensor) : sensor :=
  {| s with s_enabled := if negb (enable =? 0) then 1 else 0 |}.

Definition sensor_light_is_enabled (s : sensor) : Z := s_enabled s.

Definition sensor_light_set_invert (invert : Z) (s : sensor) : sensor :=
  {| s with s_invert := if negb (invert =? 0) then 1 else 0 |}.

Definition sensor_light_get_invert (s : sensor) : Z := s_invert s.

(** ** Time strings *)
Lemma text_mm_ss_cc a b c :
  text_of (bytes "%02u:%02u.%02u") [AInt a; AInt b; AInt c] =
  Some (dec 2 a ++ [58] ++ dec 2 b ++ [46] ++ dec 2 c).
Proof. text_steps. Qed.

Lemma text_lap_line a s :
  text_of (bytes "#%u %s") [AInt a; AStr (Some s)] = Some ([35] ++ dec 0 a ++ [32] ++ s).
Proof. text_steps. Qed.

Lemma text_stat a b c :
  text_of (bytes "m%u M%u a%u") [AInt a; AInt b; AInt c] =
  Some ([109] ++ dec 0 a ++ [32; 77] ++ dec 0 b ++ [32; 97] ++ dec 0 c).
Proof. text_steps. Qed.

(** Reading "mm:ss.cc" back. *)
Definition read_time (t : list Z) : Z * Z * Z :=
  let '(min, t) := skip_atoi t in
  let '(sec, t) := skip_atoi (drop 1 t) in
  let '(cs, _) := skip_atoi (drop 1 t) in (min, sec, cs).

Lemma format_time_ms_text ms len :
  0 <= ms < 2 ^ 32 -> 12 <= len ->
  format_time_ms ms len =
  Some (dec 2 (ms / 60000) ++ [58] ++ dec 2 (ms / 1000 mod 60) ++ [46] ++ dec 2 (ms / 10 mod 100)).
Proof.
  intros Hms Hl. unfold format_time_ms, snprintf_text. rewrite text_mm_ss_cc. cbn [fmap option_fmap option_map].
  f_equal. apply take_ge.
  pose proof (dec_length 2 (ms / 60000) 5 ltac:(dlia) ltac:(simpl; dlia) ltac:(lia)).
  pose proof (dec_length 2 (ms / 1000 mod 60) 2 ltac:(dlia) ltac:(simpl; dlia) ltac:(lia)).
  pose proof (dec_length 2 (ms / 10 mod 100) 2 ltac:(dlia) ltac:(simpl; dlia) ltac:(lia)).
  rewrite !length_app. unfold lenZ in *. simpl. lia.
Qed.

(** The time shown on the display is the total: for every 32-bit number
    of milliseconds the string "mm:ss.cc" fits in both buffers it is written
    to, and reading it back gives the minutes, the seconds and the hundredths. *)
Lemma format_time_ms_roundtrip (ms : Z) :
  0 <= ms < 2 ^ 32 ->
  exists t, format_time_ms ms 24 = Some t /\ format_time_ms ms 16 = Some t /\
    let '(min, sec, cs) := read_time t in
    ms / 10 = (min * 60 + sec) * 100 + cs /\ sec < 60 /\ cs < 100.
Proof.
  intros Hms. eexists. split_and!; [apply format_time_ms_text; lia|apply format_time_ms_text; lia|].
  unfold read_time. rewrite skip_atoi_dec by (dlia || reflexivity). cbn [app]; rewrite ?skipn_cons, ?drop_0.
  rewrite skip_atoi_dec by (dlia || reflexivity). cbn [app]; rewrite ?skipn_cons, ?drop_0.
  rewrite <- (app_nil_r (dec 2 (ms / 10 mod 100))), skip_atoi_dec by (dlia || reflexivity).
  dlia.
Qed.

Lemma format_time_ms_roundtrip_witness :
  exists t, format_time_ms 4294967295 24 = Some t /\ read_time t = (71582, 47, 29).
Proof.
  destruct (format_time_ms_roundtrip 4294967295 ltac:(lia)) as (t & H & _ & _).
  exists t. split; [exact H|]. vm_compute in H. injection H as <-. reflexivity.
Defined.

(** ** The pages *)
Definition printable (t : list Z) : Prop := Forall (fun c => 32 <= c < 127) t.

Lemma printable_app t u : printable (t ++ u) <-> printable t /\ printable u.
Proof. apply Forall_app. Qed.

Lemma printable_dec w z : printable (dec w z).
Proof. eapply Forall_impl; [apply dec_digits|]. simpl. lia. Qed.

Lemma printable_lit t : forallb (fun c => (32 <=? c) && (c <? 127)) t = true -> printable t.
Proof.
  intros H. apply Forall_forall. intros c Hc. rewrite forallb_forall in H.
  specialize (H c (proj1 (list_elem_of_In _ _) Hc)). lia.
Qed.

Create HintDb text discriminated.
#[export] Hint Resolve printable_dec : text.
#[export] Hint Extern 1 (printable (_ ++ _)) => apply printable_app; split : text.
#[export] Hint Extern 2 (printable _) => apply printable_lit; reflexivity : text.

Lemma format_time_ms_some ms len : exists t, format_time_ms ms len = Some t /\ printable t.
Proof.
  unfold format_time_ms, snprintf_text. rewrite text_mm_ss_cc. eexists. split; [done|].
  apply Forall_take. fold (printable (dec 2 (ms / 60000) ++ [58] ++ dec 2 (ms / 1000 mod 60) ++
    [46] ++ dec 2 (ms / 10 mod 100))). auto with text.
Qed.

Lemma printable_take n t : printable t -> printable (take n t).
Proof. apply Forall_take. Qed.

(** What every operation of the file keeps. *)
Record ui_inv (u : ui) : Prop := {
  ui_rate : 10 <= s_refresh_ms u <= 65535;
  ui_offset : 0 <= s_laps_offset u < 20 /\ s_laps_offset u mod 6 = 0;
  ui_flags : s_page u = 0 \/ s_page u = 1
}.

(** The ways the other threads and the shell use the display. *)
Inductive ui_op :=
  | UiDraw | UiRate (ms : Z) | UiEnable (b : Z) | UiPage (p : Z)
  | UiPrev | UiNext | UiReset.

Definition ui_exec {A : StopwatchApi} (op : ui_op) (u : ui) (s : api_state)
  : option (ui * api_state) :=
  match op with
  | UiDraw => '(u, s, _) ← ui_step u s; Some (u, s)
  | UiRate ms => Some (ui_oled_set_refresh_ms (u16 ms) u, s)
  | UiEnable b => Some (ui_oled_set_enabled b u, s)
  | UiPage p => Some (ui_oled_set_page p u, s)
  | UiPrev => Some (ui_oled_laps_prev u, s)
  | UiNext => Some (ui_oled_laps_next u s)
  | UiReset => Some (ui_oled_laps_reset u, s)
  end.

Fixpoint ui_run {A : StopwatchApi} (ops : list ui_op) (u : ui) (s : api_state)
  : option (ui * api_state) :=
  match ops with
  | [] => Some (u, s)
  | op :: ops => '(u, s) ← ui_exec op u s; ui_run ops u s
  end.

(** Draw a printable string in the goal and go on with the new screen. *)
Ltac show_string o' :=
  match goal with
  | |- context [OLED_ShowString ?x ?y ?t ?f ?o] =>
      let H := fresh in
      assert (is_Some (OLED_ShowString x y t f o)) as [o' H]
        by (apply OLED_ShowString_total; fold (printable t); auto with text);
      rewrite H; clear H; cbn [mbind option_bind]
  end.

Ltac show_time t Ht :=
  match goal with
  | |- context [format_time_ms ?ms ?len] =>
      let H := fresh in
      destruct (format_time_ms_some ms len) as (t & H & Ht); rewrite H; clear H;
      cbn [mbind option_bind]
  end.

Section Safe.
Context {A : StopwatchApi} {L : StopwatchApiLaws A}.

Lemma api_val_wf op s v s' : api_wf s -> api_val op s = (v, s') -> api_wf s'.
Proof.
  intros Hs H. unfold api_val in H. pose proof (api_call_wf op s Hs).
  destruct (api_call op s) as [o s1]. by simplify_eq.
Qed.

Lemma api_count_val s v s' : api_wf s -> api_val OpGetCount s = (v, s') -> 0 <= v <= 20.
Proof.
  intros Hs H. pose proof (api_count s Hs) as Hc. rewrite H in Hc. simpl in Hc. subst.
  by apply api_laps_le.
Qed.

Lemma draw_main_total u s :
  api_wf s -> ui_inv u -> exists u' s', draw_main_page u s = Some (u', s') /\ api_wf s' /\ ui_inv u'.
Proof.
  intros Hs [H1 H2 H3]. unfold draw_main_page.
  destruct (api_val OpGetTotal s) as [total s1] eqn:E1. apply api_val_wf in E1; [|done].
  show_time buf Hbuf.
  assert (exists u1, (if s_page_drawn u =? 0 then
     o ← OLED_ShowString 0 0 (bytes "Stopwatch") OLED_6X8 (OLED_Clear (dev u));
     o ← OLED_ShowString 0 36 (bytes "Lap:") OLED_6X8 o;
     Some {| u with dev := OLED_Update o; s_page_drawn := 1 |}
     else Some u) = Some u1 /\ ui_inv u1) as (u1 & -> & Hu1).
  { case_cmp; [|by exists u]. show_string o1. show_string o2. by eexists. }
  cbn [mbind option_bind]. show_string o1.
  destruct (api_val OpGetCount s1) as [cnt s2] eqn:E2.
  apply api_val_wf in E2; [|done].
  case_cmp.
  - destruct (api_val OpGetLatest s2) as [last s3] eqn:E3. apply api_val_wf in E3; [|done].
    show_time b2 Hb2. show_string o2. eexists _, _. split; [done|]. split; [done|].
    by destruct Hu1.
  - cbn [mbind option_bind]. eexists _, _. split; [done|]. split; [done|]. by destruct Hu1.
Qed.

Lemma draw_laps_total n : forall i offset cnt o s, api_wf s ->
  exists o' s', draw_laps n i offset cnt o s = Some (o', s') /\ api_wf s'.
Proof.
  induction n as [|n IH]; intros i offset cnt o s Hs; cbn [draw_laps]; [by eexists _, _|].
  cbv zeta.
  case_cmp; [by eexists _, _|].
  destruct (api_val _ s) as [ms s1] eqn:E. apply api_val_wf in E; [|done].
  show_time tbuf Htbuf. unfold snprintf_text. rewrite text_lap_line. cbn [fmap option_fmap option_map mbind option_bind].
  assert (forall k, printable (take k ([35] ++ dec 0 (u16 (offset + i) + 1) ++ [32] ++ tbuf))).
  { intros k. apply printable_take. auto 10 with text. }
  show_string o1. by apply IH.
Qed.

Lemma lap_stats_wf n : forall i a b c s a' b' c' s', api_wf s ->
  lap_stats n i a b c s = (a', b', c', s') -> api_wf s'.
Proof.
  induction n as [|n IH]; intros i a b c s a' b' c' s' Hs H; simpl in H; [by simplify_eq|].
  destruct (api_val _ s) as [ms s1] eqn:E. apply api_val_wf in E; [|done]. by eapply IH in H.
Qed.

Lemma draw_laps_page_total u s :
  api_wf s -> ui_inv u -> exists u' s', draw_laps_page u s = Some (u', s') /\ api_wf s' /\ ui_inv u'.
Proof.
  intros Hs [H1 H2 H3]. unfold draw_laps_page. show_string o1.
  destruct (api_val OpGetCount s) as [cnt s1] eqn:E1. apply api_val_wf in E1; [|done].
  set (offset := if cnt <=? s_laps_offset u then 0 else s_laps_offset u).
  assert (forall o, ui_inv {| u with dev := o; s_laps_offset := offset |}) as Hinv.
  { intros o. split; simpl; try done. unfold offset. case_cmp; [done|lia]. }
  destruct (draw_laps_total 6 0 offset cnt o1 s1 E1) as (o2 & s2 & -> & Hs2).
  cbn [mbind option_bind]. case_cmp.
  - destruct (lap_stats _ _ _ _ _ _) as [[[a b] c] s3] eqn:E3. apply lap_stats_wf in E3; [|done].
    unfold snprintf_text. rewrite text_stat. cbn [fmap option_fmap option_map mbind option_bind].
    assert (forall k, printable (take k
      ([109] ++ dec 0 a ++ [32; 77] ++ dec 0 b ++ [32; 97] ++ dec 0 (c / cnt)))).
    { intros k. apply printable_take. auto 10 with text. }
    show_string o3. eexists _, _. split; [done|]. split; [done|apply Hinv].
  - cbn [mbind option_bind]. eexists _, _. split; [done|]. split; [done|apply Hinv].
Qed.

Lemma ui_exec_total op u s :
  api_wf s -> ui_inv u -> exists u' s', ui_exec op u s = Some (u', s') /\ api_wf s' /\ ui_inv u'.
Proof.
  intros Hs Hu. destruct op; simpl.
  - unfold ui_step. destruct (negb _).
    + destruct (s_page u =? 0);
        [destruct (draw_main_total u s Hs Hu) as (u' & s' & -> & H)
        |destruct (draw_laps_page_total u s Hs Hu) as (u' & s' & -> & H)];
        simpl; by eexists _, _.
    + simpl. by eexists _, _.
  - eexists _, _. split; [done|]. split; [done|]. destruct Hu as [H1 H2 H3].
    split; simpl; try done. pose proof (wrap_bound 16 ms). case_cmp; lia.
  - eexists _, _. split; [done|]. split; [done|]. by destruct Hu.
  - eexists _, _. split; [done|]. split; [done|]. destruct Hu as [H1 H2 H3].
    split; simpl; try done. case_match; tauto.
  - eexists _, _. split; [done|]. split; [done|]. destruct Hu as [H1 H2 H3].
    split; simpl; try done. case_cmp; [|done]. rewrite wrap_id by (unfold fits; lia). split; [lia|dlia].
  - unfold ui_oled_laps_next. destruct (api_val OpGetCount s) as [cnt s1] eqn:E.
    pose proof (api_count_val _ _ _ Hs E). apply api_val_wf in E; [|done].
    eexists _, _. split; [done|]. split; [done|]. destruct Hu as [H1 H2 H3].
    case_cmp; [|done]. split; simpl; try done. rewrite wrap_id by (unfold fits; lia).
    split; [lia|dlia].
  - eexists _, _. split; [done|]. split; [done|]. destruct Hu as [H1 H2 H3].
    split; simpl; done.
Qed.

Lemma ui_run_total ops : forall u s,
  api_wf s -> ui_inv u -> exists u' s', ui_run ops u s = Some (u', s') /\ api_wf s' /\ ui_inv u'.
Proof.
  induction ops as [|op ops IH]; intros u s Hs Hu; simpl; [by eexists _, _|].
  destruct (ui_exec_total op u s Hs Hu) as (u' & s' & -> & Hs' & Hu'). simpl. by apply IH.
Qed.
End Safe.

(** The service implements the interface, whatever its clock and its
    environment do. *)
Section ServiceLaws.
Context (TS : TimeSource) (env : nat -> sw_env).

Definition service_laps (s : sw_world TS * nat) : Z :=
  if g_inited (fst s) =? 0 then 0 else lap_count (g_sw (fst s)).

Lemma service_laps_le (s : sw_world TS * nat) : sw_wf (fst s) -> 0 <= service_laps s <= 20.
Proof.
  intros [[Hc _ _ _] _]. unfold service_laps, STOPWATCH_MAX_LAPS in *. case_cmp; lia.
Qed.

Lemma service_call_wf op (s : @api_state (service_api TS env)) :
  sw_wf (fst s) -> sw_wf (fst (snd (@api_call (service_api TS env) op s))).
Proof.
  destruct s as [w n]. simpl. intros Hw. destruct (sw_step_keeps op (env n) w Hw) as [H _].
  by destruct (sw_step op (env n) w).
Qed.

Lemma service_count (s : @api_state (service_api TS env)) :
  sw_wf (fst s) -> fst (@api_val (service_api TS env) OpGetCount s) = service_laps s.
Proof.
  destruct s as [w n]. intros _. unfold api_val, service_laps. simpl.
  unfold stopwatch_get_lap_count. by destruct (g_inited w =? 0).
Qed.

Lemma service_query_laps op (s : @api_state (service_api TS env)) :
  sw_wf (fst s) ->
  match op with
  | OpGetState | OpGetTotal | OpGetCount | OpGetLap _ | OpGetLatest =>
      service_laps (snd (@api_call (service_api TS env) op s)) = service_laps s
  | _ => True
  end.
Proof.
  destruct s as [w n]. intros _. unfold service_laps. destruct op; simpl; try done.
  - unfold stopwatch_get_state. destruct (g_inited w =? 0) eqn:E0; simpl; rewrite ?E0; done.
  - unfold stopwatch_get_total_ms. destruct (g_inited w =? 0) eqn:E0; [simpl; by rewrite E0|].
    destruct (get_now_total_ms_unsafe _ _) as [v w'] eqn:E.
    apply now_total_frame in E as (Hg & Hi & _). simpl in *. by rewrite Hg, Hi, E0.
  - unfold stopwatch_get_lap_count. destruct (g_inited w =? 0) eqn:E0; simpl; rewrite ?E0; done.
  - unfold stopwatch_get_lap_ms. destruct (g_inited w =? 0) eqn:E0; simpl; rewrite ?E0; done.
  - unfold stopwatch_get_latest_lap_ms. destruct (g_inited w =? 0) eqn:E0; simpl; rewrite ?E0; done.
Qed.

Definition service_wf (s : @api_state (service_api TS env)) : Prop := sw_wf (fst s).

#[export] Instance service_laws : StopwatchApiLaws (service_api TS env) := {|
  api_wf := service_wf;
  api_laps := service_laps;
  api_laps_le := service_laps_le;
  api_call_wf := service_call_wf;
  api_count := service_count;
  api_query_laps := service_query_laps
|}.
End ServiceLaws.

(** C38: whatever the stopwatch holds and however the shell and the light
    sensor use the display, drawing never reads outside the font, the laps page
    always starts at a lap number that is a multiple of six below twenty, and
    the refresh period is at least 10 ms. *)
Theorem ui_always_safe {A : StopwatchApi} {L : StopwatchApiLaws A} (ops : list ui_op) (d : oled)
    (s : api_state) :
  api_wf s ->
  exists u' s', ui_run ops (ui_boot d) s = Some (u', s') /\ ui_inv u'.
Proof.
  intros Hs. destruct (ui_run_total ops (ui_boot d) s Hs) as (u' & s' & H & _ & Hu).
  - split; simpl; [lia|by split|by left].
  - by exists u', s'.
Qed.

Lemma ui_always_safe_witness :
  let A := service_api (timebase_source 72000000 1)
             (fun n => demo_env (72 * 1000 * Z.of_nat n)) in
  let d := {| OLED_DisplayBuf := fun _ => 0; s_oled_addr := 0x78; bus := [] |} in
  exists u' s', @ui_run A [UiPage 1; UiNext; UiRate 70000; UiDraw] (ui_boot d) (demo_world, 0%nat)
    = Some (u', s') /\ ui_inv u'.
Proof.
  intros A d.
  apply (@ui_always_safe A (service_laws (timebase_source 72000000 1)
    (fun n => demo_env (72 * 1000 * Z.of_nat n)))).
  split; [split; vm_compute; by intuition congruence|by vm_compute].
Defined.

(** Turning to the next page again and again shows every lap: page [k] starts
    at lap [6 k] as long as there is one. *)
Lemma ui_next_pages {A : StopwatchApi} {L : StopwatchApiLaws A} u s k :
  api_wf s -> 0 <= k -> s_laps_offset u = 6 * k -> 6 * (k + 1) < api_laps s ->
  s_laps_offset (fst (ui_oled_laps_next u s)) = 6 * (k + 1).
Proof.
  intros Hs Hk Hu Hl. unfold ui_oled_laps_next. pose proof (api_count s Hs) as Hc.
  pose proof (api_laps_le s Hs).
  destruct (api_val OpGetCount s) as [cnt s']. simpl in Hc. subst.
  case_cmp; [|lia]. simpl. rewrite wrap_id; unfold fits; lia.
Qed.

(** ** The light sensor *)

(** The thread over a sequence of pin levels. *)
Definition light_run (l : list bool) (e : env_state) : env_state :=
  fold_left (fun e v => light_step (Z.b2z v) e) l e.

(** What a pin level means, given the inversion flag. *)
Definition is_dark (inv v : bool) : bool := if inv then v else negb v.

Lemma read_do_dark v s :
  read_do (Z.b2z v) s = Z.b2z (is_dark (negb (s_invert s =? 0)) v).
Proof. unfold read_do, is_dark. by destruct v, (s_invert s =? 0). Qed.

(** After the (dark or light) samples [l], latest last, the thread reports [d];
    the counter that matters holds how many samples at the end contradict it,
    and the outputs follow [d]. *)
Record light_inv (inv d : bool) (l : list bool) (e : env_state) : Prop := {
  li_enabled : s_enabled (sns e) = 1;
  li_invert : negb (s_invert (sns e) =? 0) = inv;
  li_dark : s_dark (sns e) = Z.b2z d;
  li_count : exists r l0, (r <= 2)%nat /\ l = l0 ++ replicate r (negb d) /\
    last l0 <> Some (negb d) /\
    (if d then light_cnt (sns e) else dark_cnt (sns e)) = Z.of_nat r;
  li_beep : s_beep_enabled (bz e) = Z.b2z (negb d);
  li_rate : s_refresh_ms (scr e) = if d then 300 else 10
}.

Lemma light_step_inv inv d l e v :
  light_inv inv d l e ->
  let c := is_dark inv v in
  exists d', light_inv inv d' (l ++ [c]) (light_step (Z.b2z v) e) /\
    (d' <> d -> exists l0, l ++ [c] = l0 ++ [c; c; c] /\ d' = c) /\
    (forall l0, l ++ [c] = l0 ++ [c; c; c] -> d' = c).
Proof.
  intros [He Hi Hd (r & l0 & Hr & Hl & Hmax & Hc) Hb Hrate] c. unfold light_step.
  rewrite He, read_do_dark, Hi. fold c. cbn [Z.eqb negb].
  assert (forall k, (k <= 2)%nat -> u8 (Z.of_nat k + 1) = Z.of_nat k + 1) as Hu.
  { intros k Hk. apply wrap_id. unfold fits. lia. }
  assert (forall x, x = negb c -> last (l ++ [c]) <> Some x) as Hlast
    by (intros x ->; rewrite last_snoc; by destruct c).
  destruct (decide (c = d)) as [Hcd|Hcd]; [|assert (c = negb d) as Hc' by (destruct c, d; done)].
  - exists d. split; [|split; [done|intros; congruence]].
    revert Hlast. generalize (l ++ [c]). intros h Hlast.
    destruct d, c; try done; simpl; rewrite Hd; simpl; (split; try done);
      exists 0%nat, h; rewrite app_nil_r; (split; [lia|]); (split; [done|]);
      (split; [by apply Hlast|done]).
  - destruct (decide (r = 2%nat)) as [->|Hr2].
    + exists c. split; [|split; [intros _; exists l0; split; [|done]|done]].
      * revert Hlast. generalize (l ++ [c]). intros h Hlast.
        destruct d, c; try done; simpl; rewrite Hd; simpl; rewrite Hc; simpl;
          (split; try done); exists 0%nat, h; rewrite app_nil_r; (split; [lia|]); (split; [done|]);
          (split; [by apply Hlast|done]).
      * subst l. rewrite <- app_assoc, Hc'. done.
    + exists d. split; [|split; [done|]].
      * assert ((3 <=? Z.of_nat r + 1) = false) as H3 by lia.
        assert (l ++ [c] = l0 ++ replicate (S r) (negb d)) as Hl'.
        { subst l. rewrite <- app_assoc, Hc'. by rewrite <- replicate_cons_app. }
        revert Hl'. generalize (l ++ [c]). intros h Hl'.
        destruct d, c; try done; simpl; rewrite Hd; simpl; rewrite Hc, Hu, H3 by lia; simpl;
          (split; try done); exists (S r), l0; (split; [lia|]); (split; [done|]);
          (split; [done|simpl; lia]).
      * intros l1 Hl1. exfalso. change [c; c; c] with ([c; c] ++ [c]) in Hl1.
        rewrite app_assoc in Hl1. apply app_inj_tail in Hl1 as [Hl2 _].
        destruct r as [|[|r]]; [| |lia]; rewrite Hl in Hl2; simpl in Hl2; apply Hmax.
        -- rewrite app_nil_r in Hl2. subst l0. by rewrite last_app, Hc'.
        -- change [c; c] with ([c] ++ [c]) in Hl2. rewrite app_assoc in Hl2.
           apply app_inj_tail in Hl2 as [-> _]. by rewrite last_snoc, Hc'.
Qed.

(** C40: the light sensor is debounced.  From power-up, with the linkage on,
    the reported state changes only at the third equal sample in a row and
    always changes then, so one or two wrong samples never matter; the beep is
    enabled exactly while the reported state is light. *)
Theorem light_debounced (v0 : bool) (l : list bool) (v : bool) (e : env_state) :
  s_enabled (sns e) = 1 ->
  let inv := negb (s_invert (sns e) =? 0) in
  let dark l := negb (s_dark (sns (light_run l (sensor_light_init (Z.b2z v0) e))) =? 0) in
  let e' := light_run (l ++ [v]) (sensor_light_init (Z.b2z v0) e) in
  let seen := map (is_dark inv) (l ++ [v]) in
  dark [] = is_dark inv v0 /\
  (dark (l ++ [v]) <> dark l -> exists l0 c, seen = l0 ++ [c; c; c] /\ dark (l ++ [v]) = c) /\
  (forall l0 c, seen = l0 ++ [c; c; c] -> dark (l ++ [v]) = c) /\
  notifier_beep_is_enabled (bz e') = Z.b2z (negb (dark (l ++ [v]))).
Proof.
  intros He inv dark e' seen.
  assert (forall l, exists d, light_inv inv d (map (is_dark inv) l)
            (light_run l (sensor_light_init (Z.b2z v0) e)) /\ dark l = d /\ (l = [] -> d = is_dark inv v0)) as H.
  { induction l0 as [|x l0 IH] using rev_ind.
    - exists (is_dark inv v0). unfold dark, light_run, sensor_light_init, apply_state. simpl.
      rewrite read_do_dark. fold inv.
      destruct (is_dark inv v0); simpl; (split; [|done]); (split; try done);
        exists 0%nat, []; split_and!; done || lia.
    - destruct IH as (d & Hi & Hd & _). unfold light_run in *. rewrite fold_left_app, map_app. simpl.
      destruct (light_step_inv inv d _ _ x Hi) as (d' & Hi' & _ & _).
      exists d'. split; [done|]. split; [|by destruct l0].
      unfold dark, light_run. rewrite fold_left_app. simpl. rewrite (li_dark _ _ _ _ Hi').
      by destruct d'. }
  destruct (H []) as (d0 & _ & -> & Hd0). split; [by apply Hd0|].
  destruct (H l) as (d & Hi & -> & _). destruct (H (l ++ [v])) as (d2 & Hi2 & -> & _).
  destruct (light_step_inv inv d _ _ v Hi) as (d' & Hi' & Hch & H3).
  assert (d2 = d') as ->.
  { pose proof (li_dark _ _ _ _ Hi2) as E2. unfold light_run in E2. rewrite fold_left_app in E2.
    simpl in E2. pose proof (li_dark _ _ _ _ Hi') as E1. unfold light_run in E1. rewrite E1 in E2.
    by destruct d2, d'. }
  unfold seen. rewrite map_app. simpl map. split_and!.
  - intros Hne. destruct (Hch Hne) as (l0 & Hl0 & ->). by eexists l0, _.
  - intros l0 c Hl0. assert (is_dark inv v = c) as Hc.
    { change [c; c; c] with ([c; c] ++ [c]) in Hl0. rewrite app_assoc in Hl0.
      by apply app_inj_tail in Hl0 as [_ ?]. }
    rewrite <- Hc in *. by eapply H3.
  - exact (li_beep _ _ _ _ Hi2).
Qed.

Lemma light_debounced_witness :
  let e := {| sns := {| s_enabled := 1; s_dark := 0; s_invert := 1; dark_cnt := 0; light_cnt := 0 |};
              bz := {| s_beep_enabled := 1; buz_level := 1 |};
              scr := ui_boot {| OLED_DisplayBuf := fun _ => 0; s_oled_addr := 0x78; bus := [] |} |} in
  notifier_beep_is_enabled (bz (light_run [true; true; false; true; true; true] (sensor_light_init 0 e))) = 0.
Proof.
  intros e.
  destruct (light_debounced false [true; true; false; true; true] true e eq_refl)
    as (_ & _ & H3 & H4).
  rewrite (H3 [true; true; false] true eq_refl) in H4. exact H4.
Defined.
