(* ===== verification/Cli.v ===== *)
(** * The shell commands of the stopwatch (applications/stopwatch_cli.c)

    Each command is a function of its argument vector on the state of the
    application, in a state-and-error monad: [None] is a failed assertion or an
    out-of-bounds read.  The timer service is used through the interface
    [SoftTimer]; [atoi] is the C library's.  Console output is the sequence of
    strings given to rt_kprintf, each cut as that function cuts it. *)
From S2P Require Import Prelude Kprintf Timebase Stopwatch Oled Ui.

(** The timer of the CSV stream, as its client uses it. *)
Class SoftTimer := {
  st_state : Type;
  st_create : Z -> st_state -> bool * st_state;      (** rt_timer_create: time in ticks *)
  st_set_time : Z -> st_state -> st_state;           (** RT_TIMER_CTRL_SET_TIME *)
  st_start : st_state -> option st_state;            (** [None]: the assertion fails *)
  st_stop : st_state -> st_state
}.

Definition format_time (total_ms buf_len : Z) : option (list Z) :=
  let ms := total_ms mod 1000 in
  let sec := total_ms / 1000 mod 60 in
  let min := total_ms / 60000 mod 60 in
  let hr := total_ms / 3600000 in
  if 0 <? hr then
    snprintf_text buf_len (bytes "%02u:%02u:%02u.%03u") [AInt hr; AInt min; AInt sec; AInt ms]
  else snprintf_text buf_len (bytes "%02u:%02u.%03u") [AInt min; AInt sec; AInt ms].

Definition ms_to_ticks (ms : Z) : Z :=
  let ticks := u64 (u64 (u64 (ms * RT_TICK_PER_SECOND) + 999) / 1000) in
  let ticks := if ticks =? 0 then 1 else ticks in
  u32 ticks.

Section Commands.
Context {A : StopwatchApi} {T : SoftTimer} (atoi : list Z -> Z).

Record world := {
  sw : api_state;
  env : env_state;             (** sensor, buzzer and display *)
  tm : st_state;
  csv_timer : bool;            (** the timer exists *)
  csv_period_ms : Z;
  csv_header : Z;
  csv_human : Z;
  console : list (list Z)
}.

(** ** The command monad *)
Definition M (R : Type) : Type := world -> option (R * world).
Definition ret {R} (x : R) : M R := fun w => Some (x, w).
Definition bind {R Q} (c : M R) (k : R -> M Q) : M Q :=
  fun w => '(x, w) ← c w; k x w.
Definition fail {R} : M R := fun _ => None.
Definition modify (f : world -> world) : M unit := fun w => Some (tt, f w).
Definition get {R} (f : world -> R) : M R := fun w => Some (f w, w).

Local Notation "x <- c ;; k" := (bind c (fun x => k)) (at level 100, c at next level, k at level 200, right associativity).
Local Notation "c ;;; k" := (bind c (fun _ => k)) (at level 100, k at level 200, right associativity).

Definition lift {R} (o : option R) : M R := fun w => '(x) ← o; Some (x, w).

Definition kprintf (fmt : list Z) (args : list arg) : M unit :=
  fun w => '(line, _) ← rt_kprintf 0 fmt args (fun _ => 0);
           Some (tt, {| w with console := console w ++ [line] |}).

Definition call_val (op : sw_op) : M Z :=
  fun w => let '(v, s) := api_val op (sw w) in Some (v, {| w with sw := s |}).
Definition call_state : M stopwatch_state_t :=
  fun w => let '(v, s) := api_get_state (sw w) in Some (v, {| w with sw := s |}).
Definition call_unit (op : sw_op) : M unit :=
  fun w => let '(_, s) := api_call op (sw w) in Some (tt, {| w with sw := s |}).

Definition with_buzzer (f : buzzer -> buzzer) : M unit :=
  modify (fun w => {| w with env := {| (env w) with bz := f (bz (env w)) |} |}).
Definition with_sensor (f : sensor -> sensor) : M unit :=
  modify (fun w => {| w with env := {| (env w) with sns := f (sns (env w)) |} |}).
Definition with_ui (f : ui -> ui) : M unit :=
  modify (fun w => {| w with env := {| (env w) with scr := f (scr (env w)) |} |}).

(** The beep with no other thread touching the buzzer meanwhile. *)
Definition beep (ms : Z) : M unit := with_buzzer (notifier_beep_once ms id).

Definition argc (argv : list (list Z)) : Z := lenZ argv.
Definition arg_n (n : nat) (argv : list (list Z)) : list Z := nth n argv [].

(** [!strcmp(argv[1], s)] *)
Definition is_arg1 (s : string) (argv : list (list Z)) : bool :=
  bool_decide (arg_n 1 argv = bytes s).

(** ** Commands *)
Definition cmd_sw_start (argv : list (list Z)) : M Z :=
  call_unit OpStart ;;; kprintf (bytes "sw: start" ++ [10]) [] ;;; beep 50 ;;; ret 0.

Definition cmd_sw_stop (argv : list (list Z)) : M Z :=
  call_unit OpStop ;;; kprintf (bytes "sw: stop" ++ [10]) [] ;;; beep 100 ;;; ret 0.

Definition cmd_sw_reset (argv : list (list Z)) : M Z :=
  call_unit OpReset ;;; kprintf (bytes "sw: reset" ++ [10]) [] ;;; beep 30 ;;; ret 0.

Definition cmd_sw_lap (argv : list (list Z)) : M Z :=
  o <- (fun w => let '(o, s) := api_call OpLap (sw w) in Some (o, {| w with sw := s |})) ;;
  match o with
  | OutLap r ms =>
      if r =? RT_EOK then
        let lap_ms := default 0 ms in
        let cs := lap_ms / 10 mod 100 in
        let ss := lap_ms / 1000 mod 60 in
        let mm := lap_ms / 60000 mod 100 in
        kprintf (bytes "sw: lap=%02u:%02u.%02u" ++ [10]) [AInt mm; AInt ss; AInt cs] ;;;
        beep 40 ;;; ret 0
      else kprintf (bytes "sw: lap failed" ++ [10]) [] ;;; ret 0
  | _ => fail
  end.

Definition state_name (s : stopwatch_state_t) : list Z :=
  match s with
  | STOPWATCH_STATE_RUNNING => bytes "RUNNING"
  | STOPWATCH_STATE_PAUSED => bytes "PAUSED"
  | STOPWATCH_STATE_IDLE => bytes "IDLE"
  end.

Definition print_stat (name : string) (ms : Z) : M unit :=
  buf <- lift (format_time ms 24) ;;
  kprintf (bytes name ++ bytes "%u ms (%s)" ++ [10]) [AInt ms; AStr (Some buf)].

Definition cmd_sw_status (argv : list (list Z)) : M Z :=
  s <- call_state ;;
  total <- call_val OpGetTotal ;;
  cnt <- call_val OpGetCount ;;
  stats <- (fun w =>
    let '(mn, mx, sum, st) := lap_stats (Z.to_nat cnt) 0 0xFFFFFFFF 0 0 (sw w) in
    Some ((mn, mx, sum), {| w with sw := st |})) ;;
  let '(min_ms, max_ms, sum_ms) := stats in
  totalbuf <- lift (format_time total 24) ;;
  kprintf (bytes "state: %s" ++ [10]) [AStr (Some (state_name s))] ;;;
  kprintf (bytes "total: %u ms (%s)" ++ [10]) [AInt total; AStr (Some totalbuf)] ;;;
  kprintf (bytes "laps:  %u" ++ [10]) [AInt cnt] ;;;
  (if 0 <? cnt then
     print_stat "min:   " min_ms ;;;
     print_stat "max:   " max_ms ;;;
     print_stat "avg:   " (sum_ms / cnt)
   else ret tt) ;;;
  ret 0.

Definition cmd_sw_clear_laps (argv : list (list Z)) : M Z :=
  call_unit OpClearLaps ;;; kprintf (bytes "sw: clear laps" ++ [10]) [] ;;; ret 0.

(** ** The CSV stream *)
Definition csv_timer_cb : M unit :=
  t <- call_val OpGetTotal ;;
  n <- call_val OpGetCount ;;
  lap <- (if 0 <? n then call_val OpGetLatest else ret 0) ;;
  header <- get csv_header ;;
  (if negb (header =? 0) then
     kprintf (bytes "t,lap_idx,lap_ms,total" ++ [10]) [] ;;;
     modify (fun w => {| w with csv_header := 0 |})
   else ret tt) ;;;
  human <- get csv_human ;;
  if human =? 0 then
    kprintf (bytes "%u,%u,%u,%u" ++ [10]) [AInt t; AInt n; AInt lap; AInt t]
  else
    tb <- lift (format_time t 24) ;;
    lb <- lift (format_time lap 24) ;;
    kprintf (bytes "%s,%u,%s,%s" ++ [10])
      [AStr (Some tb); AInt n; AStr (Some lb); AStr (Some tb)].

Definition usage (s : string) : M Z := kprintf (bytes s ++ [10]) [] ;;; ret (- RT_ERROR).

Definition say (s : string) : M Z := kprintf (bytes s ++ [10]) [] ;;; ret 0.

Definition csv_usage : M Z := usage "usage: sw.csv on [period_ms]|off".

Definition cmd_sw_csv (argv : list (list Z)) : M Z :=
  if argc argv <? 2 then csv_usage
  else if is_arg1 "on" argv then
    (if 3 <=? argc argv then
       let p := u32 (atoi (arg_n 2 argv)) in
       modify (fun w => {| w with csv_period_ms := if p <? 10 then 10 else p |})
     else ret tt) ;;;
    period <- get csv_period_ms ;;
    exists_ <- get csv_timer ;;
    ok <- (if negb exists_ then
             r <- (fun w => let '(r, t) := st_create (ms_to_ticks period) (tm w) in
                            Some (r, {| w with tm := t; csv_timer := r |})) ;;
             (if r : bool then ret true
              else kprintf (bytes "sw.csv: create timer failed" ++ [10]) [] ;;; ret false)
           else
             modify (fun w => {| w with tm := st_set_time (ms_to_ticks period) (tm w) |}) ;;;
             ret true) ;;
    if ok : bool then
      (fun w => '(t) ← st_start (tm w); Some (tt, {| w with tm := t |})) ;;;
      kprintf (bytes "sw.csv: on, %u ms" ++ [10]) [AInt period] ;;; ret 0
    else ret (- RT_ENOMEM)
  else if is_arg1 "off" argv then
    exists_ <- get csv_timer ;;
    (if exists_ : bool then modify (fun w => {| w with tm := st_stop (tm w) |}) else ret tt) ;;;
    say "sw.csv: off"
  else csv_usage.

Definition cmd_sw_csv_header (argv : list (list Z)) : M Z :=
  if argc argv <? 2 then usage "usage: sw_csv_header on|off"
  else if is_arg1 "on" argv then
    modify (fun w => {| w with csv_header := 1 |}) ;;; say "sw_csv_header: on"
  else if is_arg1 "off" argv then
    modify (fun w => {| w with csv_header := 0 |}) ;;; say "sw_csv_header: off"
  else usage "usage: sw_csv_header on|off".

Definition cmd_sw_timefmt (argv : list (list Z)) : M Z :=
  if argc argv <? 2 then usage "usage: sw_timefmt human|ms"
  else if is_arg1 "human" argv then
    modify (fun w => {| w with csv_human := 1 |}) ;;; say "sw_timefmt: human"
  else if is_arg1 "ms" argv then
    modify (fun w => {| w with csv_human := 0 |}) ;;; say "sw_timefmt: ms"
  else usage "usage: sw_timefmt human|ms".

Definition cmd_sw_beep (argv : list (list Z)) : M Z :=
  if argc argv <? 2 then usage "usage: sw_beep on|off"
  else if is_arg1 "on" argv then with_buzzer (notifier_beep_enable 1) ;;; say "sw_beep: on"
  else if is_arg1 "off" argv then with_buzzer (notifier_beep_enable 0) ;;; say "sw_beep: off"
  else usage "usage: sw_beep on|off".

Definition cmd_sw_light (argv : list (list Z)) : M Z :=
  if argc argv <? 2 then usage "usage: sw_light on|off"
  else if is_arg1 "on" argv then with_sensor (sensor_light_enable 1) ;;; say "sw_light: on"
  else if is_arg1 "off" argv then with_sensor (sensor_light_enable 0) ;;; say "sw_light: off"
  else usage "usage: sw_light on|off".

Definition cmd_sw_light_invert (argv : list (list Z)) : M Z :=
  if argc argv <? 2 then usage "usage: sw_light_invert on|off"
  else if is_arg1 "on" argv then
    with_sensor (sensor_light_set_invert 1) ;;; say "sw_light_invert: on"
  else if is_arg1 "off" argv then
    with_sensor (sensor_light_set_invert 0) ;;; say "sw_light_invert: off"
  else usage "usage: sw_light_invert on|off".

Definition cmd_sw_oled_rate (argv : list (list Z)) : M Z :=
  if argc argv <? 2 then usage "usage: sw_oled_rate <ms>"
  else
    let ms := atoi (arg_n 1 argv) in
    let ms := if ms <? 10 then 10 else ms in
    with_ui (ui_oled_set_refresh_ms (u16 ms)) ;;;
    kprintf (bytes "sw_oled_rate: %d ms" ++ [10]) [AInt ms] ;;; ret 0.

Definition cmd_sw_page (argv : list (list Z)) : M Z :=
  if argc argv <? 2 then usage "usage: sw_page main|laps"
  else if is_arg1 "main" argv then with_ui (ui_oled_set_page 0) ;;; say "sw_page: main"
  else if is_arg1 "laps" argv then with_ui (ui_oled_set_page 1) ;;; say "sw_page: laps"
  else usage "usage: sw_page main|laps".

Definition cmd_sw_laps_prev (argv : list (list Z)) : M Z :=
  with_ui ui_oled_laps_prev ;;; say "sw_laps_prev".

Definition cmd_sw_laps_next (argv : list (list Z)) : M Z :=
  (fun w => let '(u, s) := ui_oled_laps_next (scr (env w)) (sw w) in
            Some (tt, {| w with sw := s; env := {| (env w) with scr := u |} |})) ;;;
  say "sw_laps_next".

(** The exported commands, by the name given to MSH_CMD_EXPORT_ALIAS. *)
Definition commands : list (list Z * (list (list Z) -> M Z)) :=
  [(bytes "sw_start", cmd_sw_start); (bytes "sw_stop", cmd_sw_stop);
   (bytes "sw_reset", cmd_sw_reset); (bytes "sw_lap", cmd_sw_lap);
   (bytes "sw_status", cmd_sw_status); (bytes "sw_clear_laps", cmd_sw_clear_laps);
   (bytes "sw_csv", cmd_sw_csv); (bytes "sw_csv_header", cmd_sw_csv_header);
   (bytes "sw_timefmt", cmd_sw_timefmt); (bytes "sw_beep", cmd_sw_beep);
   (bytes "sw_light", cmd_sw_light); (bytes "sw_light_invert", cmd_sw_light_invert);
   (bytes "sw_oled_rate", cmd_sw_oled_rate); (bytes "sw_page", cmd_sw_page);
   (bytes "sw_laps_prev", cmd_sw_laps_prev); (bytes "sw_laps_next", cmd_sw_laps_next)].
End Commands.

Arguments world A T : clear implicits.

(** ** Times as text *)
Lemma text_hms a b c d :
  text_of (bytes "%02u:%02u:%02u.%03u") [AInt a; AInt b; AInt c; AInt d] =
  Some (dec 2 a ++ [58] ++ dec 2 b ++ [58] ++ dec 2 c ++ [46] ++ dec 3 d).
Proof. text_steps. Qed.

Lemma text_ms a b c :
  text_of (bytes "%02u:%02u.%03u") [AInt a; AInt b; AInt c] =
  Some (dec 2 a ++ [58] ++ dec 2 b ++ [46] ++ dec 3 c).
Proof. text_steps. Qed.

Lemma format_time_text ms len :
  0 <= ms < 2 ^ 32 -> 24 <= len ->
  format_time ms len =
  Some ((if 0 <? ms / 3600000 then dec 2 (ms / 3600000) ++ [58] else []) ++
        dec 2 (ms / 60000 mod 60) ++ [58] ++ dec 2 (ms / 1000 mod 60) ++ [46] ++ dec 3 (ms mod 1000)).
Proof.
  intros Hms Hl. unfold format_time, snprintf_text.
  pose proof (dec_length 2 (ms / 3600000) 4 ltac:(dlia) ltac:(simpl; dlia) ltac:(lia)).
  pose proof (dec_length 2 (ms / 60000 mod 60) 2 ltac:(dlia) ltac:(simpl; dlia) ltac:(lia)).
  pose proof (dec_length 2 (ms / 1000 mod 60) 2 ltac:(dlia) ltac:(simpl; dlia) ltac:(lia)).
  pose proof (dec_length 3 (ms mod 1000) 3 ltac:(dlia) ltac:(simpl; dlia) ltac:(lia)).
  destruct (0 <? ms / 3600000); [rewrite text_hms|rewrite text_ms];
    cbn [fmap option_fmap option_map]; f_equal; rewrite ?app_nil_l, <- ?app_assoc;
    apply take_ge; rewrite !length_app; unfold lenZ in *; simpl length in *; lia.
Qed.

(** Reading "mm:ss.mmm" or "hh:mm:ss.mmm" back, in milliseconds. *)
Definition read_ms (t : list Z) : Z :=
  let '(a, t) := skip_atoi t in
  let '(b, t) := skip_atoi (drop 1 t) in
  let sep := cur t in
  let '(c, t) := skip_atoi (drop 1 t) in
  if sep =? 46 then (a * 60 + b) * 1000 + c
  else let '(d, _) := skip_atoi (drop 1 t) in ((a * 60 + b) * 60 + c) * 1000 + d.

(** The time strings of the shell commands lose nothing: for every 32-bit
    number of milliseconds the string fits in the 24-byte buffer used for it
    and reading it back, with or without the hours, gives the number. *)
Lemma format_time_roundtrip (ms : Z) :
  0 <= ms < 2 ^ 32 -> exists t, format_time ms 24 = Some t /\ read_ms t = ms.
Proof.
  intros Hms. eexists. split; [apply format_time_text; lia|]. unfold read_ms.
  assert (forall w z, 0 <= z < 2 ^ 32 -> skip_atoi (dec w z) = (z, [])) as Hlast.
  { intros w z Hz. rewrite <- (app_nil_r (dec w z)). by apply skip_atoi_dec. }
  case_cmp; rewrite <- ?app_assoc, ?app_nil_l;
    repeat (rewrite skip_atoi_dec by (dlia || reflexivity);
            cbn [app]; rewrite ?skipn_cons, ?drop_0);
    rewrite Hlast by dlia; unfold cur, nthZ; change (Z.to_nat 0) with 0%nat; cbn [nth];
    [change (58 =? 46) with false|change (46 =? 46) with true]; cbv iota; dlia.
Qed.

Lemma format_time_roundtrip_witness :
  exists t, format_time 4294967295 24 = Some t /\ read_ms t = 4294967295.
Proof. apply (format_time_roundtrip 4294967295). lia. Defined.

(** ** The console *)
Lemma kprintf_text {A : StopwatchApi} {T : SoftTimer} fmt args t (w : world A T) :
  text_of fmt args = Some t -> lenZ t < 255 ->
  kprintf fmt args w = Some (tt, {| w with console := console w ++ [map u8 t] |}).
Proof.
  intros Ht Hl. unfold kprintf.
  destruct (rt_kprintf_sends 0 fmt args (fun _ => 0) t ltac:(lia)
    ltac:(unfold RT_CONSOLEBUF_SIZE; lia) Ht ltac:(lia)) as (m' & ->).
  destruct (Z.ltb_spec (lenZ t) 255); [done|lia].
Qed.

(** The tick count is the number of milliseconds, at least one. *)
Lemma ms_to_ticks_value ms : 0 <= ms < 2 ^ 32 -> ms_to_ticks ms = Z.max 1 ms.
Proof.
  intros Hms. unfold ms_to_ticks, RT_TICK_PER_SECOND.
  assert (u64 (u64 (u64 (ms * 1000) + 999) / 1000) = ms) as ->.
  { rewrite (wrap_id 64 (ms * 1000)) by (unfold fits; lia).
    rewrite (wrap_id 64 (_ + 999)) by (unfold fits; lia). rewrite wrap_id by (unfold fits; dlia). dlia. }
  case_cmp; rewrite wrap_id by (unfold fits; lia); lia.
Qed.

(** The sizes of the fields of a line. *)
Lemma dec_bound w z : lenZ (dec w z) <= Z.max w 10.
Proof.
  unfold dec. rewrite <- i32_u32. fold (dec w (u32 z)).
  apply (dec_length w (u32 z) 10); [apply (wrap_bound 32); lia| |lia].
  pose proof (wrap_bound 32 z). simpl. lia.
Qed.

Section Props.
Context {A : StopwatchApi} {T : SoftTimer} (atoi : list Z -> Z).
Implicit Types w : world A T.

(** The line an on/off command prints. *)
Lemma say_line (s : string) w :
  text_of (bytes s ++ [10]) [] = Some (bytes s ++ [10]) -> lenZ (bytes s) < 200 ->
  exists l, say s w = Some (0, {| w with console := console w ++ [l] |}).
Proof.
  intros Ht Hl. eexists. unfold say, bind. erewrite kprintf_text; [done|exact Ht|].
  rewrite lenZ_app. change (lenZ [10]) with 1. lia.
Qed.

Lemma usage_line (s : string) w :
  text_of (bytes s ++ [10]) [] = Some (bytes s ++ [10]) -> lenZ (bytes s) < 200 ->
  exists l, usage s w = Some (- RT_ERROR, {| w with console := console w ++ [l] |}).
Proof.
  intros Ht Hl. eexists. unfold usage, bind. erewrite kprintf_text; [done|exact Ht|].
  rewrite lenZ_app. change (lenZ [10]) with 1. lia.
Qed.

(** The commands that select one of two words, and the words. *)
Definition two_way : list ((list (list Z) -> @M A T Z) * string * string) :=
  [(cmd_sw_csv_header, "on", "off"); (cmd_sw_timefmt, "human", "ms");
   (cmd_sw_beep, "on", "off"); (cmd_sw_light, "on", "off");
   (cmd_sw_light_invert, "on", "off"); (cmd_sw_page, "main", "laps")]%string.
End Props.

(** One command: its two words, then everything else. *)
Ltac two_way_tac :=
  unfold cmd_sw_csv_header, cmd_sw_timefmt, cmd_sw_beep, cmd_sw_light, cmd_sw_light_invert,
    cmd_sw_page, is_arg1;
  let Hd := fresh in let Hw := fresh in
  case_bool_decide as Hd;
  [ destruct Hd as [? Hw];
    match goal with |- context [argc ?argv <? 2] => destruct (Z.ltb_spec (argc argv) 2) end; [lia|];
    destruct Hw as [-> | ->]; rewrite ?bool_decide_true by done;
    [|rewrite bool_decide_false by (by vm_compute); rewrite ?bool_decide_true by done];
    unfold with_buzzer, with_sensor, with_ui, bind, modify; cbn [mbind option_bind];
    (edestruct say_line as [? ->]; [reflexivity|reflexivity|by eexists])
  | match goal with |- context [argc ?argv <? 2] => destruct (Z.ltb_spec (argc argv) 2) end;
    [|rewrite !bool_decide_false by tauto];
    (apply usage_line; reflexivity) ].

(** A command that takes one of two words changes nothing but the console
    and returns -RT_ERROR when the word is missing or is neither, and returns 0
    otherwise. *)
Lemma two_way_usage {A : StopwatchApi} {T : SoftTimer} (cmd : list (list Z) -> @M A T Z)
    (on off : string) (argv : list (list Z)) (w : world A T) :
  (cmd, on, off) ∈ two_way ->
  if bool_decide (2 <= argc argv /\ (arg_n 1 argv = bytes on \/ arg_n 1 argv = bytes off))
  then exists w', cmd argv w = Some (0, w')
  else exists l, cmd argv w = Some (- RT_ERROR, {| w with console := console w ++ [l] |}).
Proof.
  intros Hin. apply list_elem_of_In in Hin. simpl in Hin.
  destruct_or! Hin; simplify_eq; two_way_tac.
Qed.

(** A concrete timer for the examples: the time set and whether it runs; like
    the kernel's it refuses to start beyond half the tick range. *)
Definition demo_timer : SoftTimer := {|
  st_state := Z * bool;
  st_create := fun t _ => (true, (t, false));
  st_set_time := fun t s => (t, snd s);
  st_start := fun s => if fst s <? 2 ^ 31 - 1 then Some (fst s, true) else None;
  st_stop := fun s => (fst s, false)
|}.

Definition demo_api : StopwatchApi :=
  service_api (timebase_source 72000000 1) (fun n => demo_env (72 * 1000 * Z.of_nat n)).

Definition demo_cli : world demo_api demo_timer :=
  {| sw := (demo_world, 0%nat) : @api_state demo_api;
     env := {| sns := {| s_enabled := 1; s_dark := 0; s_invert := 1; dark_cnt := 0; light_cnt := 0 |};
               bz := {| s_beep_enabled := 1; buz_level := 1 |};
               scr := ui_boot {| OLED_DisplayBuf := fun _ => 0; s_oled_addr := 0x78; bus := [] |} |};
     tm := (0, false) : @st_state demo_timer; csv_timer := false; csv_period_ms := 200;
     csv_header := 0; csv_human := 0; console := [] |}.

Lemma two_way_usage_witness :
  exists l, cmd_sw_beep [bytes "sw_beep"; bytes "loud"] demo_cli =
    Some (-1, {| demo_cli with console := [l] |}).
Proof.
  apply (two_way_usage cmd_sw_beep "on" "off" [bytes "sw_beep"; bytes "loud"] demo_cli).
  apply list_elem_of_In. right. right. left. reflexivity.
Defined.

(** "sw_csv on <period>" starts a soft timer whose period in ticks is the
    number of milliseconds asked for, at least ten, and reports that period;
    if the timer cannot be created it returns -RT_ENOMEM. *)
Lemma csv_on_period {A : StopwatchApi} {T : SoftTimer} (atoi : list Z -> Z) (p : list Z)
    (w : world A T) (t1 : st_state) (created : bool) :
  csv_timer w = false ->
  let period := Z.max 10 (u32 (atoi p)) in
  st_create period (tm w) = (created, t1) ->
  let result := cmd_sw_csv atoi [bytes "sw_csv"; bytes "on"; p] w in
  if created then
    match st_start t1 with
    | Some t2 => exists w', result = Some (0, w') /\
        tm w' = t2 /\ csv_timer w' = true /\ csv_period_ms w' = period /\
        console w' = console w ++ [map u8 (bytes "sw.csv: on, " ++ dec 0 period ++ bytes " ms" ++ [10])]
    | None => result = None
    end
  else exists w', result = Some (- RT_ENOMEM, w') /\ tm w' = t1.
Proof.
  intros Hex period Hc result. unfold result, cmd_sw_csv.
  change (argc _ <? 2) with false. change (is_arg1 "on" _) with true.
  change (3 <=? argc _) with true. change (arg_n 2 _) with p. cbv iota.
  pose proof (wrap_bound 32 (atoi p) ltac:(lia)) as Hb.
  assert ((if u32 (atoi p) <? 10 then 10 else u32 (atoi p)) = period) as Hp
    by (unfold period; case_cmp; lia).
  unfold bind, modify, get, ret. cbn [mbind option_bind csv_timer csv_period_ms].
  rewrite Hp, Hex. cbn [negb]. cbv iota. cbn [mbind option_bind tm].
  rewrite ms_to_ticks_value, Z.max_r, Hc by lia. cbn [mbind option_bind].
  destruct created.
  - cbn [mbind option_bind tm csv_period_ms]. destruct (st_start t1) as [t2|]; [|done].
    cbn [mbind option_bind]. erewrite kprintf_text; cycle 1.
    { instantiate (1 := bytes "sw.csv: on, " ++ dec 0 period ++ bytes " ms" ++ [10]). text_steps. }
    { rewrite !lenZ_app. pose proof (dec_bound 0 period). simpl. unfold lenZ in *. simpl length. lia. }
    eexists. split; [done|]. by split_and!.
  - erewrite kprintf_text; [|reflexivity|reflexivity]. cbn [mbind option_bind]. by eexists.
Qed.

Lemma csv_on_period_witness :
  exists w', cmd_sw_csv (fun _ => 50) [bytes "sw_csv"; bytes "on"; bytes "50"] demo_cli
    = Some (0, w') /\ csv_period_ms w' = 50.
Proof.
  destruct (csv_on_period (fun _ => 50) (bytes "50") demo_cli (50, false) true eq_refl eq_refl)
    as (w' & H & _ & _ & Hp & _).
  exists w'. split; [exact H|exact Hp].
Defined.

(** A period that [atoi] reads as negative becomes a tick count that the kernel
    refuses by assertion. *)
Lemma csv_on_negative (atoi : list Z -> Z) (p : list Z) :
  atoi p = -1 -> cmd_sw_csv atoi [bytes "sw_csv"; bytes "on"; p] demo_cli = None.
Proof.
  intros Hp. unfold cmd_sw_csv. change (argc _ <? 2) with false. change (is_arg1 "on" _) with true.
  change (3 <=? argc _) with true. change (arg_n 2 _) with p. cbv iota. rewrite Hp. reflexivity.
Qed.

(** A rate of 65536 ms is reported as such but sets 10 ms. *)
Lemma oled_rate_truncated (atoi : list Z -> Z) (p : list Z) :
  atoi p = 65536 ->
  exists w', cmd_sw_oled_rate atoi [bytes "sw_oled_rate"; p] demo_cli = Some (0, w') /\
    s_refresh_ms (scr (env w')) = 10 /\ console w' = [bytes "sw_oled_rate: 65536 ms" ++ [10]].
Proof.
  intros Hp. unfold cmd_sw_oled_rate. change (argc _ <? 2) with false. change (arg_n 1 _) with p.
  cbv iota. rewrite Hp. change (65536 <? 10) with false. cbv iota.
  unfold with_ui, bind, modify. cbn [mbind option_bind].
  erewrite (kprintf_text _ _ (bytes "sw_oled_rate: 65536 ms" ++ [10]));
    [|vm_compute; reflexivity|reflexivity].
  cbn [mbind option_bind]. eexists. split; [reflexivity|]. by split.
Qed.
