(* ===== verification/Ringbuffer.v ===== *)
(** * Ring buffers (rt-thread/components/drivers/src/ringbuffer.c)

    [struct rt_ringbuffer] with its pool as a list of bytes; the mirror bits are
    booleans and the indices 15-bit.  [rb_content] is the queue a buffer holds,
    and the theorems show that the operations are the operations of a bounded
    FIFO queue. *)
From S2P Require Import Prelude.

(** ** Data *)
Record rt_ringbuffer := {
  buffer_ptr : list Z;
  read_mirror : bool;
  read_index : Z;        (* 15 bits *)
  write_mirror : bool;
  write_index : Z;       (* 15 bits *)
  buffer_size : Z        (* int16 *)
}.

Inductive rt_ringbuffer_state := RT_RINGBUFFER_EMPTY | RT_RINGBUFFER_FULL | RT_RINGBUFFER_HALFFULL.

#[global] Instance rt_ringbuffer_state_eq_dec : EqDecision rt_ringbuffer_state.
Proof. solve_decision. Defined.

Definition RT_ALIGN_DOWN (size align : Z) : Z := Z.land size (Z.lnot (align - 1)).
Definition RT_ALIGN_SIZE : Z := 4.

(** [memcpy(&dst[i], src, |src|)] *)
Definition blit (i : Z) (src dst : list Z) : list Z := list_inserts (Z.to_nat i) src dst.
Definition slice (i n : Z) (l : list Z) : list Z := take (Z.to_nat n) (drop (Z.to_nat i) l).

(** ** Operations *)
Definition rt_ringbuffer_status (rb : rt_ringbuffer) : rt_ringbuffer_state :=
  if read_index rb =? write_index rb then
    if eqb (read_mirror rb) (write_mirror rb) then RT_RINGBUFFER_EMPTY else RT_RINGBUFFER_FULL
  else RT_RINGBUFFER_HALFFULL.

Definition rt_ringbuffer_data_len (rb : rt_ringbuffer) : Z :=
  match rt_ringbuffer_status rb with
  | RT_RINGBUFFER_EMPTY => 0
  | RT_RINGBUFFER_FULL => buffer_size rb
  | RT_RINGBUFFER_HALFFULL =>
      if read_index rb <? write_index rb then write_index rb - read_index rb
      else buffer_size rb - (read_index rb - write_index rb)
  end.

Definition rt_ringbuffer_space_len (rb : rt_ringbuffer) : Z :=
  buffer_size rb - rt_ringbuffer_data_len rb.

(** [None]: the assertion [size > 0] fails. *)
Definition rt_ringbuffer_init (pool : list Z) (size : Z) : option rt_ringbuffer :=
  if size <=? 0 then None
  else Some {| buffer_ptr := pool; read_mirror := false; read_index := 0;
               write_mirror := false; write_index := 0;
               buffer_size := i16 (RT_ALIGN_DOWN size RT_ALIGN_SIZE) |}.

(** The bytes at [ptr] and their number; the number stored. *)
Definition rt_ringbuffer_put (ptr : list Z) (length : Z) (rb : rt_ringbuffer)
  : Z * rt_ringbuffer :=
  let size := u16 (rt_ringbuffer_space_len rb) in
  if size =? 0 then (0, rb)
  else
    let length := if size <? length then size else length in
    if length <? buffer_size rb - write_index rb then
      (length,
       {| rb with buffer_ptr := blit (write_index rb) (slice 0 length ptr) (buffer_ptr rb);
                  write_index := wrap 15 (write_index rb + length) |})
    else
      let n := buffer_size rb - write_index rb in
      let b := blit (write_index rb) (slice 0 n ptr) (buffer_ptr rb) in
      let b := blit 0 (slice n (length - n) ptr) b in
      (length,
       {| rb with buffer_ptr := b; write_mirror := negb (write_mirror rb);
                  write_index := wrap 15 (length - n) |}).

Definition rt_ringbuffer_put_force (ptr : list Z) (length : Z) (rb : rt_ringbuffer)
  : Z * rt_ringbuffer :=
  let space_length := u16 (rt_ringbuffer_space_len rb) in
  let '(ptr, length) :=
    if buffer_size rb <? length
    then (slice (length - buffer_size rb) (buffer_size rb) ptr, u16 (buffer_size rb))
    else (ptr, length) in
  if length <? buffer_size rb - write_index rb then
    let rb := {| rb with
      buffer_ptr := blit (write_index rb) (slice 0 length ptr) (buffer_ptr rb);
      write_index := wrap 15 (write_index rb + length) |} in
    (length,
     if space_length <? length then {| rb with read_index := write_index rb |} else rb)
  else
    let n := buffer_size rb - write_index rb in
    let b := blit (write_index rb) (slice 0 n ptr) (buffer_ptr rb) in
    let b := blit 0 (slice n (length - n) ptr) b in
    let rb := {| rb with buffer_ptr := b; write_mirror := negb (write_mirror rb);
                         write_index := wrap 15 (length - n) |} in
    (length,
     if space_length <? length
     then {| rb with read_mirror := negb (read_mirror rb); read_index := write_index rb |}
     else rb).

(** The number of bytes read and the bytes stored at [ptr]. *)
Definition rt_ringbuffer_get (length : Z) (rb : rt_ringbuffer) : Z * list Z * rt_ringbuffer :=
  let size := rt_ringbuffer_data_len rb in
  if size =? 0 then (0, [], rb)
  else
    let length := if size <? length then u16 size else length in
    if length <? buffer_size rb - read_index rb then
      (length, slice (read_index rb) length (buffer_ptr rb),
       {| rb with read_index := wrap 15 (read_index rb + length) |})
    else
      let n := buffer_size rb - read_index rb in
      (length, slice (read_index rb) n (buffer_ptr rb) ++ slice 0 (length - n) (buffer_ptr rb),
       {| rb with read_mirror := negb (read_mirror rb); read_index := wrap 15 (length - n) |}).

(** The size and the index of the first byte shown ([None]: no data). *)
Definition rt_ringbuffer_peak (rb : rt_ringbuffer) : Z * option Z * rt_ringbuffer :=
  let size := rt_ringbuffer_data_len rb in
  if size =? 0 then (0, None, rb)
  else
    let ptr := Some (read_index rb) in
    if size <? buffer_size rb - read_index rb then
      (size, ptr, {| rb with read_index := wrap 15 (read_index rb + size) |})
    else
      (buffer_size rb - read_index rb, ptr,
       {| rb with read_mirror := negb (read_mirror rb); read_index := 0 |}).

Definition rt_ringbuffer_putchar (ch : Z) (rb : rt_ringbuffer) : Z * rt_ringbuffer :=
  if rt_ringbuffer_space_len rb =? 0 then (0, rb)
  else
    let b := updZ (buffer_ptr rb) (write_index rb) ch in
    if write_index rb =? buffer_size rb - 1 then
      (1, {| rb with buffer_ptr := b; write_mirror := negb (write_mirror rb); write_index := 0 |})
    else (1, {| rb with buffer_ptr := b; write_index := wrap 15 (write_index rb + 1) |}).

Definition rt_ringbuffer_putchar_force (ch : Z) (rb : rt_ringbuffer) : Z * rt_ringbuffer :=
  let old_state := rt_ringbuffer_status rb in
  let full := bool_decide (old_state = RT_RINGBUFFER_FULL) in
  let b := updZ (buffer_ptr rb) (write_index rb) ch in
  if write_index rb =? buffer_size rb - 1 then
    let rb := {| rb with buffer_ptr := b; write_mirror := negb (write_mirror rb);
                         write_index := 0 |} in
    (1, if full then {| rb with read_mirror := negb (read_mirror rb);
                                read_index := write_index rb |} else rb)
  else
    let rb := {| rb with buffer_ptr := b; write_index := wrap 15 (write_index rb + 1) |} in
    (1, if full then {| rb with read_index := write_index rb |} else rb).

Definition rt_ringbuffer_getchar (rb : rt_ringbuffer) : Z * option Z * rt_ringbuffer :=
  if rt_ringbuffer_data_len rb =? 0 then (0, None, rb)
  else
    let ch := nthZ 0 (buffer_ptr rb) (read_index rb) in
    if read_index rb =? buffer_size rb - 1 then
      (1, Some ch, {| rb with read_mirror := negb (read_mirror rb); read_index := 0 |})
    else (1, Some ch, {| rb with read_index := wrap 15 (read_index rb + 1) |}).

Definition rt_ringbuffer_reset (rb : rt_ringbuffer) : rt_ringbuffer :=
  {| rb with read_mirror := false; read_index := 0; write_mirror := false; write_index := 0 |}.

(** ** The queue a buffer holds *)
Record rb_wf (rb : rt_ringbuffer) : Prop := {
  wf_size : 0 < buffer_size rb <= 32767;
  wf_pool : buffer_size rb <= lenZ (buffer_ptr rb);
  wf_read : 0 <= read_index rb < buffer_size rb;
  wf_write : 0 <= write_index rb < buffer_size rb;
  wf_mirror : if eqb (read_mirror rb) (write_mirror rb)
              then read_index rb <= write_index rb else write_index rb <= read_index rb
}.

(** [n] bytes from index [r] on, going round. *)
Definition ring (size : Z) (b : list Z) (r n : Z) : list Z :=
  map (fun k => nthZ 0 b ((r + k) mod size)) (seqZ 0 n).

Definition rb_content (rb : rt_ringbuffer) : list Z :=
  ring (buffer_size rb) (buffer_ptr rb) (read_index rb) (rt_ringbuffer_data_len rb).

Lemma data_len_wf rb :
  rb_wf rb ->
  rt_ringbuffer_data_len rb =
    (if eqb (read_mirror rb) (write_mirror rb)
     then write_index rb - read_index rb
     else buffer_size rb - read_index rb + write_index rb) /\
  0 <= rt_ringbuffer_data_len rb <= buffer_size rb.
Proof.
  intros [H1 H2 H3 H4 H5]. unfold rt_ringbuffer_data_len, rt_ringbuffer_status.
  destruct (eqb _ _); repeat case_cmp; lia.
Qed.

Lemma length_ring size b r n : 0 <= n -> lenZ (ring size b r n) = n.
Proof. intros. unfold ring, lenZ. rewrite length_map, length_seqZ. lia. Qed.

Lemma nthZ_ring size b r n k :
  0 <= k < n -> nthZ 0 (ring size b r n) k = nthZ 0 b ((r + k) mod size).
Proof.
  intros Hk. unfold nthZ at 1. rewrite nth_lookup. unfold ring. rewrite list_lookup_fmap.
  rewrite (proj2 (lookup_seqZ 0 n (Z.to_nat k) k)) by lia. done.
Qed.

Lemma list_eq_nthZ (l k : list Z) :
  lenZ l = lenZ k -> (forall i, 0 <= i < lenZ l -> nthZ 0 l i = nthZ 0 k i) -> l = k.
Proof.
  unfold lenZ. intros Hl H. apply (nth_ext _ _ 0 0); [lia|]. intros n Hn.
  specialize (H (Z.of_nat n) ltac:(lia)). unfold nthZ in H. by rewrite Nat2Z.id in H.
Qed.

Lemma nthZ_app (l k : list Z) i :
  0 <= i -> nthZ 0 (l ++ k) i = if i <? lenZ l then nthZ 0 l i else nthZ 0 k (i - lenZ l).
Proof.
  intros Hi. unfold nthZ, lenZ. destruct (Z.ltb_spec i (Z.of_nat (length l))).
  - apply app_nth1. lia.
  - rewrite app_nth2 by lia. f_equal. lia.
Qed.

Lemma lenZ_slice i n l : 0 <= i -> 0 <= n -> i + n <= lenZ l -> lenZ (slice i n l) = n.
Proof. unfold lenZ, slice. intros. rewrite length_take, length_drop. lia. Qed.

Lemma nthZ_slice i n l k : 0 <= i -> 0 <= k < n -> nthZ 0 (slice i n l) k = nthZ 0 l (i + k).
Proof.
  intros Hi Hk. unfold nthZ, slice. rewrite !nth_lookup, lookup_take_lt, lookup_drop by lia.
  do 2 f_equal. lia.
Qed.

Lemma lenZ_blit i s d : lenZ (blit i s d) = lenZ d.
Proof. unfold lenZ, blit. by rewrite length_inserts. Qed.

Lemma nthZ_blit i s d k :
  0 <= i -> 0 <= k -> i + lenZ s <= lenZ d ->
  nthZ 0 (blit i s d) k = if in_range i (lenZ s) k then nthZ 0 s (k - i) else nthZ 0 d k.
Proof.
  intros Hi Hk Hl. unfold nthZ, blit, lenZ, in_range in *. rewrite !nth_lookup.
  destruct (Z.leb_spec i k); simpl.
  - destruct (Z.ltb_spec k (i + Z.of_nat (length s))).
    + rewrite list_lookup_inserts by lia. do 2 f_equal. lia.
    + rewrite list_lookup_inserts_ge by lia. done.
  - rewrite list_lookup_inserts_lt by lia. done.
Qed.

(** [b'] is [b] with the bytes [d] written from index [w] on, going round. *)
Definition ring_written (size w : Z) (d b b' : list Z) : Prop :=
  lenZ b' = lenZ b /\
  forall i, 0 <= i < size ->
    nthZ 0 b' i = if (i - w) mod size <? lenZ d then nthZ 0 d ((i - w) mod size) else nthZ 0 b i.

Lemma mod_shift size i w :
  0 <= i < size -> 0 <= w < size -> (i - w) mod size = if w <=? i then i - w else i - w + size.
Proof.
  intros Hi Hw. case_cmp; [rewrite Z.mod_small; lia|].
  rewrite <- (Z.mod_add _ 1), Z.mul_1_l by lia. apply Z.mod_small. lia.
Qed.

(** One memcpy when the data ends before the end of the pool, two otherwise. *)
Lemma blit_written size w n d b :
  0 <= w < size -> size <= lenZ b -> 0 <= n <= size -> n <= lenZ d ->
  let d' := slice 0 n d in
  if n <? size - w then ring_written size w d' b (blit w d' b)
  else ring_written size w d' b
         (blit 0 (slice (size - w) (n - (size - w)) d) (blit w (slice 0 (size - w) d) b)).
Proof.
  intros Hw Hb Hn Hd d'. assert (lenZ d' = n) as Hd' by (apply lenZ_slice; lia).
  destruct (Z.ltb_spec n (size - w)).
  - split; [apply lenZ_blit|]. intros i Hi. rewrite nthZ_blit, Hd', mod_shift by lia.
    unfold in_range. repeat case_cmp; simpl; try done; try lia.
  - split; [by rewrite !lenZ_blit|]. intros i Hi.
    rewrite nthZ_blit, nthZ_blit, !lenZ_slice, Hd', mod_shift by (rewrite ?lenZ_blit, ?lenZ_slice; lia).
    unfold in_range. repeat case_cmp; simpl; try lia;
      unfold d'; rewrite ?nthZ_slice by lia; try done; f_equal; lia.
Qed.

(** Writing right behind the content appends to it. *)
Lemma ring_append size r n d b b' :
  0 < size -> 0 <= r < size -> 0 <= n -> n + lenZ d <= size ->
  ring_written size ((r + n) mod size) d b b' ->
  ring size b' r (n + lenZ d) = ring size b r n ++ d.
Proof.
  intros Hs Hr Hn Hd [_ Hw]. assert (0 <= lenZ d) by (unfold lenZ; lia).
  apply list_eq_nthZ; [rewrite lenZ_app, !length_ring; lia|].
  intros k Hk. rewrite length_ring in Hk by lia.
  rewrite nthZ_ring, nthZ_app, length_ring, Hw by (apply Z.mod_pos_bound || lia; lia).
  assert (((r + k) mod size - (r + n) mod size) mod size = (k - n) mod size) as ->.
  { rewrite <- Zminus_mod. f_equal. lia. }
  destruct (Z.ltb_spec k n).
  - rewrite nthZ_ring by lia. assert ((k - n) mod size = k - n + size) as ->.
    { rewrite <- (Z.mod_add _ 1), Z.mul_1_l by lia. apply Z.mod_small. lia. }
    case_cmp; [lia|done].
  - rewrite Z.mod_small by lia. case_cmp; [done|lia].
Qed.

(** Writing over the oldest data leaves the last [size] bytes. *)
Lemma ring_overwrite size r n d b b' :
  0 < size -> 0 <= r < size -> 0 <= n <= size -> lenZ d <= size -> size <= n + lenZ d ->
  ring_written size ((r + n) mod size) d b b' ->
  ring size b' ((r + n + lenZ d) mod size) size = lastn (Z.to_nat size) (ring size b r n ++ d).
Proof.
  intros Hs Hr Hn Hd Ho [_ Hw].
  assert (lenZ (lastn (Z.to_nat size) (ring size b r n ++ d)) = size) as Hl.
  { unfold lenZ. rewrite length_lastn, length_app. pose proof (length_ring size b r n).
    unfold lenZ in *. lia. }
  apply list_eq_nthZ; [rewrite length_ring; lia|].
  intros k Hk. rewrite length_ring in Hk by lia. rewrite nthZ_ring by lia.
  rewrite Zplus_mod_idemp_l, Hw by (apply Z.mod_pos_bound; lia).
  assert (nthZ 0 (lastn (Z.to_nat size) (ring size b r n ++ d)) k =
          nthZ 0 (ring size b r n ++ d) (n + lenZ d - size + k)) as ->.
  { unfold lastn, nthZ. rewrite !nth_lookup, lookup_drop. do 2 f_equal.
    pose proof (length_ring size b r n). rewrite length_app. unfold lenZ in *. lia. }
  rewrite nthZ_app, length_ring by lia.
  assert (((r + n + lenZ d + k) mod size - (r + n) mod size) mod size = (lenZ d + k) mod size) as ->.
  { rewrite <- Zminus_mod. f_equal. lia. }
  destruct (Z.ltb_spec (n + lenZ d - size + k) n).
  - rewrite (Z.mod_small (lenZ d + k)) by (unfold lenZ in *; lia). case_cmp; [lia|].
    rewrite nthZ_ring by lia. f_equal.
    replace (r + (n + lenZ d - size + k)) with (r + n + lenZ d + k + (-1) * size) by lia.
    by rewrite Z.mod_add by lia.
  - assert ((lenZ d + k) mod size = lenZ d + k - size) as ->.
    { rewrite <- (Z.mod_add _ (-1)) by lia. apply Z.mod_small. lia. }
    case_cmp; [f_equal; lia|lia].
Qed.

(** The oldest bytes, and what is left without them. *)
Lemma ring_split size b r n k :
  0 < size -> 0 <= k <= n ->
  take (Z.to_nat k) (ring size b r n) = ring size b r k /\
  drop (Z.to_nat k) (ring size b r n) = ring size b ((r + k) mod size) (n - k).
Proof.
  intros Hs Hk. assert (ring size b r n = ring size b r k ++ ring size b ((r + k) mod size) (n - k)) as ->.
  { apply list_eq_nthZ; [rewrite lenZ_app, !length_ring; lia|].
    intros i Hi. rewrite length_ring in Hi by lia.
    rewrite nthZ_app, nthZ_ring, length_ring by lia. case_cmp; rewrite nthZ_ring by lia; [done|].
    rewrite Zplus_mod_idemp_l. do 2 f_equal. lia. }
  pose proof (length_ring size b r k). unfold lenZ in *.
  split; [apply take_app_length'|apply drop_app_length']; lia.
Qed.

Lemma write_position rb :
  rb_wf rb -> (read_index rb + rt_ringbuffer_data_len rb) mod buffer_size rb = write_index rb.
Proof.
  intros H. destruct (data_len_wf rb H) as [-> _]. destruct H as [H1 H2 H3 H4 H5].
  destruct (eqb _ _).
  - rewrite Z.mod_small; lia.
  - rewrite <- (Z.mod_add _ (-1)) by lia. rewrite Z.mod_small; lia.
Qed.

(** The buffer after the write index moved by [n] and the bytes [d] were
    written: the queue grew by [d]. *)
Lemma content_append rb rb' d :
  rb_wf rb -> lenZ d <= rt_ringbuffer_space_len rb ->
  buffer_size rb' = buffer_size rb -> read_index rb' = read_index rb ->
  read_mirror rb' = read_mirror rb ->
  ring_written (buffer_size rb) (write_index rb) d (buffer_ptr rb) (buffer_ptr rb') ->
  (if write_index rb + lenZ d <? buffer_size rb
   then write_index rb' = write_index rb + lenZ d /\ write_mirror rb' = write_mirror rb
   else write_index rb' = write_index rb + lenZ d - buffer_size rb /\
        write_mirror rb' = negb (write_mirror rb)) ->
  rb_wf rb' /\ rb_content rb' = rb_content rb ++ d.
Proof.
  intros H Hd Hs Hr Hrm Hw Hi. pose proof (data_len_wf rb H) as [Hlen Hb].
  unfold rt_ringbuffer_space_len in Hd. rewrite <- (write_position rb H) in Hw.
  assert (0 <= lenZ d) as Hd0 by (unfold lenZ; lia).
  assert (rb_wf rb') as Hwf.
  { destruct H as [H1 H2 H3 H4 H5]. split; rewrite ?Hs, ?Hr, ?Hrm; try done.
    - destruct Hw as [-> _]. done.
    - case_cmp; destruct Hi as [-> _]; destruct (read_mirror rb), (write_mirror rb); simpl in *; lia.
    - case_cmp; destruct Hi as [-> ->]; destruct (read_mirror rb), (write_mirror rb); simpl in *; lia. }
  split; [done|]. unfold rb_content.
  assert (rt_ringbuffer_data_len rb' = rt_ringbuffer_data_len rb + lenZ d) as ->.
  { rewrite (proj1 (data_len_wf rb' Hwf)), Hlen, Hs, Hr, Hrm. destruct H as [H1 H2 H3 H4 H5].
    case_cmp; destruct Hi as [-> ->]; destruct (read_mirror rb), (write_mirror rb); simpl in *; lia. }
  rewrite Hs, Hr. destruct H. apply ring_append; try done; lia.
Qed.

Lemma rt_ringbuffer_put_ok ptr length rb :
  rb_wf rb -> 0 <= length < 2 ^ 16 -> length <= lenZ ptr ->
  let n := Z.min length (rt_ringbuffer_space_len rb) in
  let '(r, rb') := rt_ringbuffer_put ptr length rb in
  r = n /\ rb_wf rb' /\ rb_content rb' = rb_content rb ++ take (Z.to_nat n) ptr.
Proof.
  intros H Hl Hp n. unfold rt_ringbuffer_put.
  pose proof (data_len_wf rb H) as [_ Hb]. pose proof H as [H1 H2 H3 H4 _].
  assert (u16 (rt_ringbuffer_space_len rb) = rt_ringbuffer_space_len rb) as ->.
  { apply wrap_id. unfold fits, rt_ringbuffer_space_len. lia. }
  unfold rt_ringbuffer_space_len in *.
  destruct (Z.eqb_spec (buffer_size rb - rt_ringbuffer_data_len rb) 0).
  { replace n with 0 by (unfold n; lia). split_and!; try done. by rewrite app_nil_r. }
  replace (if _ <? length then _ else length) with n by (unfold n; case_cmp; lia).
  assert (0 <= n <= length /\ n <= buffer_size rb - rt_ringbuffer_data_len rb) as Hnb
    by (unfold n; lia).
  assert (take (Z.to_nat n) ptr = slice 0 n ptr) as -> by done.
  assert (lenZ (slice 0 n ptr) = n) as Hn by (apply lenZ_slice; lia).
  pose proof (blit_written (buffer_size rb) (write_index rb) n ptr (buffer_ptr rb)
    ltac:(lia) ltac:(lia) ltac:(lia) ltac:(lia)) as Hw. cbv zeta in Hw. revert Hw.
  destruct (Z.ltb_spec n (buffer_size rb - write_index rb)); intros Hw; (split; [done|]);
    (eapply content_append; [done|unfold rt_ringbuffer_space_len; lia|try done..]); simpl;
    try exact Hw; rewrite Hn; case_cmp; try lia;
    rewrite wrap_id by (unfold fits; lia); (split; [lia|done]).
Qed.

Lemma content_remove rb rb' n :
  rb_wf rb -> 0 <= n <= rt_ringbuffer_data_len rb ->
  buffer_size rb' = buffer_size rb -> write_index rb' = write_index rb ->
  write_mirror rb' = write_mirror rb -> buffer_ptr rb' = buffer_ptr rb ->
  (if read_index rb + n <? buffer_size rb
   then read_index rb' = read_index rb + n /\ read_mirror rb' = read_mirror rb
   else read_index rb' = read_index rb + n - buffer_size rb /\
        read_mirror rb' = negb (read_mirror rb)) ->
  rb_wf rb' /\ rb_content rb' = drop (Z.to_nat n) (rb_content rb).
Proof.
  intros H Hn Hs Hw Hwm Hp Hi. pose proof (data_len_wf rb H) as [Hlen Hb].
  assert (rb_wf rb') as Hwf.
  { destruct H as [H1 H2 H3 H4 H5]. split; rewrite ?Hs, ?Hw, ?Hwm, ?Hp; try done.
    - case_cmp; destruct Hi as [-> _]; destruct (read_mirror rb), (write_mirror rb); simpl in *; lia.
    - case_cmp; destruct Hi as [-> ->]; destruct (read_mirror rb), (write_mirror rb); simpl in *; lia. }
  split; [done|]. unfold rb_content.
  rewrite (proj2 (ring_split (buffer_size rb) (buffer_ptr rb) (read_index rb) _ n ltac:(destruct H; lia) Hn)).
  rewrite Hs, Hp. f_equal.
  - destruct H as [H1 H2 H3 H4 H5]. case_cmp; destruct Hi as [-> _].
    + rewrite Z.mod_small; lia.
    + rewrite <- (Z.mod_add _ (-1)) by lia. rewrite Z.mod_small; lia.
  - rewrite (proj1 (data_len_wf rb' Hwf)), Hlen, Hs, Hw, Hwm. destruct H as [H1 H2 H3 H4 H5].
    case_cmp; destruct Hi as [-> ->]; destruct (read_mirror rb), (write_mirror rb); simpl in *; lia.
Qed.

Lemma take_content rb n :
  rb_wf rb -> 0 <= n <= rt_ringbuffer_data_len rb ->
  take (Z.to_nat n) (rb_content rb) = ring (buffer_size rb) (buffer_ptr rb) (read_index rb) n.
Proof. intros H Hn. apply ring_split; [destruct H; lia|done]. Qed.

Lemma ring_slices size b r n :
  0 <= r < size -> size <= lenZ b -> 0 <= n <= size ->
  ring size b r n =
  if n <? size - r then slice r n b else slice r (size - r) b ++ slice 0 (n - (size - r)) b.
Proof.
  intros Hr Hb Hn. case_cmp; apply list_eq_nthZ;
    rewrite ?lenZ_app, ?length_ring, ?lenZ_slice by lia; try lia; intros i Hi; rewrite nthZ_ring by lia.
  - rewrite nthZ_slice, Z.mod_small by lia. done.
  - rewrite nthZ_app, lenZ_slice by lia. case_cmp; rewrite nthZ_slice by lia.
    + by rewrite Z.mod_small by lia.
    + f_equal. rewrite <- (Z.mod_add _ (-1)) by lia. rewrite Z.mod_small; lia.
Qed.

Lemma rt_ringbuffer_get_ok length rb :
  rb_wf rb -> 0 <= length < 2 ^ 16 ->
  let n := Z.min length (rt_ringbuffer_data_len rb) in
  let '(r, d, rb') := rt_ringbuffer_get length rb in
  r = n /\ rb_wf rb' /\ d = take (Z.to_nat n) (rb_content rb) /\
  rb_content rb' = drop (Z.to_nat n) (rb_content rb).
Proof.
  intros H Hl n. unfold rt_ringbuffer_get.
  pose proof (data_len_wf rb H) as [_ Hb]. pose proof H as [H1 H2 H3 H4 _].
  destruct (Z.eqb_spec (rt_ringbuffer_data_len rb) 0).
  { replace n with 0 by (unfold n; lia). by split_and!. }
  replace (if _ <? length then _ else length) with n.
  2:{ unfold n. case_cmp; [rewrite wrap_id by (unfold fits; lia)|]; lia. }
  assert (0 <= n <= rt_ringbuffer_data_len rb) as Hnb by (unfold n; lia).
  rewrite take_content, ring_slices by (done || lia).
  destruct (Z.ltb_spec n (buffer_size rb - read_index rb)); (split; [done|]);
    match goal with |- rb_wf ?r /\ _ => destruct (content_remove rb r n) as [? ?] end;
    try done; try lia; simpl; case_cmp; try lia;
    rewrite wrap_id by (unfold fits; lia); (split; [lia|done]).
Qed.

Lemma lenZ_content rb : rb_wf rb -> lenZ (rb_content rb) = rt_ringbuffer_data_len rb.
Proof. intros H. apply length_ring. apply (data_len_wf rb H). Qed.

(** A single character is a put or a get of length one. *)
Lemma rt_ringbuffer_putchar_put ch rb :
  rb_wf rb -> rt_ringbuffer_putchar ch rb = rt_ringbuffer_put [ch] 1 rb.
Proof.
  intros H. unfold rt_ringbuffer_putchar, rt_ringbuffer_put.
  pose proof (data_len_wf rb H) as [_ Hb]. pose proof H as [H1 H2 H3 H4 _].
  rewrite (wrap_id 16) by (unfold fits, rt_ringbuffer_space_len; lia).
  unfold rt_ringbuffer_space_len.
  destruct (Z.eqb_spec (buffer_size rb - rt_ringbuffer_data_len rb) 0); [done|].
  destruct (Z.ltb_spec (buffer_size rb - rt_ringbuffer_data_len rb) 1); [lia|].
  destruct (Z.eqb_spec (write_index rb) (buffer_size rb - 1));
    destruct (Z.ltb_spec 1 (buffer_size rb - write_index rb)); try lia; [|done].
  replace (buffer_size rb - write_index rb) with 1 by lia. done.
Qed.

Lemma rt_ringbuffer_getchar_get rb :
  rb_wf rb ->
  rt_ringbuffer_getchar rb =
  let '(n, d, rb') := rt_ringbuffer_get 1 rb in (n, head d, rb').
Proof.
  intros H. unfold rt_ringbuffer_getchar, rt_ringbuffer_get.
  pose proof (data_len_wf rb H) as [_ Hb]. pose proof H as [H1 H2 H3 H4 _].
  destruct (Z.eqb_spec (rt_ringbuffer_data_len rb) 0); [done|].
  destruct (Z.ltb_spec (rt_ringbuffer_data_len rb) 1); [lia|].
  assert (forall n, 1 <= n -> head (slice (read_index rb) n (buffer_ptr rb)) =
            Some (nthZ 0 (buffer_ptr rb) (read_index rb))) as Hh.
  { intros k Hk. unfold slice, nthZ, lenZ in *. rewrite (head_lookup (take _ _)).
    rewrite lookup_take_lt, lookup_drop, Nat.add_0_r by lia.
    destruct (lookup_lt_is_Some_2 (buffer_ptr rb) (Z.to_nat (read_index rb))) as [c Hc]; [lia|].
    by rewrite nth_lookup, Hc. }
  destruct (Z.eqb_spec (read_index rb) (buffer_size rb - 1));
    destruct (Z.ltb_spec 1 (buffer_size rb - read_index rb)); try lia.
  - replace (buffer_size rb - read_index rb) with 1 by lia. simpl.
    change (slice 0 0 (buffer_ptr rb)) with (@nil Z). rewrite app_nil_r, Hh by lia. done.
  - by rewrite Hh by lia.
Qed.

(** ** The queue operations *)
Inductive rb_op := RbPut (d : list Z) | RbPutchar (c : Z) | RbGet (n : Z) | RbGetchar | RbReset.

(** The bytes an operation gives back, and the buffer after it. *)
Definition rb_exec (op : rb_op) (rb : rt_ringbuffer) : list Z * rt_ringbuffer :=
  match op with
  | RbPut d => ([], snd (rt_ringbuffer_put d (lenZ d) rb))
  | RbPutchar c => ([], snd (rt_ringbuffer_putchar c rb))
  | RbGet n => let '(_, d, rb) := rt_ringbuffer_get n rb in (d, rb)
  | RbGetchar => let '(_, d, rb) := rt_ringbuffer_getchar rb in (option_list d, rb)
  | RbReset => ([], rt_ringbuffer_reset rb)
  end.

Fixpoint rb_run (ops : list rb_op) (rb : rt_ringbuffer) : list Z * rt_ringbuffer :=
  match ops with
  | [] => ([], rb)
  | op :: ops =>
      let '(d, rb) := rb_exec op rb in
      let '(ds, rb) := rb_run ops rb in (d ++ ds, rb)
  end.

(** The specification: a queue of at most [size] bytes. *)
Definition queue_exec (size : nat) (op : rb_op) (q : list Z) : list Z * list Z :=
  match op with
  | RbPut d => ([], q ++ take (size - length q) d)
  | RbPutchar c => ([], q ++ take (size - length q) [c])
  | RbGet n => (take (Z.to_nat n) q, drop (Z.to_nat n) q)
  | RbGetchar => (take 1 q, drop 1 q)
  | RbReset => ([], [])
  end.

Fixpoint queue_run (size : nat) (ops : list rb_op) (q : list Z) : list Z * list Z :=
  match ops with
  | [] => ([], q)
  | op :: ops =>
      let '(d, q) := queue_exec size op q in
      let '(ds, q) := queue_run size ops q in (d ++ ds, q)
  end.

Definition op_ok (op : rb_op) : Prop :=
  match op with RbPut d => lenZ d < 2 ^ 16 | RbGet n => 0 <= n < 2 ^ 16 | _ => True end.

Lemma rb_size_kept op rb : buffer_size (snd (rb_exec op rb)) = buffer_size rb.
Proof.
  destruct op; simpl; unfold rt_ringbuffer_put, rt_ringbuffer_putchar, rt_ringbuffer_get,
    rt_ringbuffer_getchar; repeat case_match; simplify_eq/=; done.
Qed.

Lemma put_queue d rb :
  rb_wf rb -> lenZ d < 2 ^ 16 ->
  let rb' := snd (rt_ringbuffer_put d (lenZ d) rb) in
  rb_wf rb' /\
  rb_content rb' = rb_content rb ++ take (Z.to_nat (buffer_size rb) - length (rb_content rb)) d.
Proof.
  intros H Hd. pose proof (rt_ringbuffer_put_ok d (lenZ d) rb H) as Hp.
  pose proof (lenZ_content rb H) as Hl. pose proof (data_len_wf rb H) as [_ Hb].
  cbv zeta in *. destruct (rt_ringbuffer_put _ _ _) as [r rb']. cbn [snd].
  destruct Hp as (_ & Hwf & ->); [unfold lenZ in *; lia|lia|]. split; [done|]. f_equal.
  unfold rt_ringbuffer_space_len, lenZ in *.
  destruct (decide (length d <= Z.to_nat (buffer_size rb) - length (rb_content rb))%nat).
  - rewrite !take_ge by lia. done.
  - f_equal. lia.
Qed.

Lemma rb_exec_queue op rb :
  rb_wf rb -> op_ok op ->
  let '(d, rb') := rb_exec op rb in
  let '(d', q') := queue_exec (Z.to_nat (buffer_size rb)) op (rb_content rb) in
  d = d' /\ rb_wf rb' /\ rb_content rb' = q'.
Proof.
  intros H Hop. destruct op; simpl in *.
  - split; [done|by apply put_queue].
  - rewrite rt_ringbuffer_putchar_put by done. split; [done|].
    apply (put_queue [c]); [done|]. unfold lenZ. simpl. lia.
  - pose proof (rt_ringbuffer_get_ok n rb H Hop) as Hg. cbv zeta in Hg.
    destruct (rt_ringbuffer_get n rb) as [[r d] rb']. destruct Hg as (_ & Hwf & -> & ->).
    pose proof (lenZ_content rb H) as Hl. unfold lenZ in Hl.
    destruct (decide (n <= rt_ringbuffer_data_len rb)).
    + rewrite Z.min_l by lia. done.
    + rewrite Z.min_r by lia.
      rewrite (take_ge _ (Z.to_nat n)), (drop_ge _ (Z.to_nat n)), take_ge, drop_ge by lia. done.
  - rewrite rt_ringbuffer_getchar_get by done.
    pose proof (rt_ringbuffer_get_ok 1 rb H ltac:(lia)) as Hg. cbv zeta in Hg.
    destruct (rt_ringbuffer_get 1 rb) as [[r d] rb']. destruct Hg as (_ & Hwf & -> & ->).
    pose proof (lenZ_content rb H) as Hl. unfold lenZ in Hl.
    destruct (rb_content rb) as [|c q].
    + replace (rt_ringbuffer_data_len rb) with 0 by (simpl in Hl; lia). done.
    + rewrite Z.min_l by (simpl in Hl; lia). done.
  - split; [done|]. split; [|done]. destruct H as [H1 H2 H3 H4 H5]. split; simpl; lia.
Qed.

(** C23: a ring buffer is a FIFO queue.  For any sequence of puts, gets and
    resets on a well-formed buffer, whatever the positions of its indices, the
    bytes read are the bytes the bounded queue gives: each byte accepted comes
    out exactly once, in order, across the mirror. *)
Theorem ringbuffer_is_queue (ops : list rb_op) (rb : rt_ringbuffer) :
  rb_wf rb -> Forall op_ok ops ->
  let '(d, rb') := rb_run ops rb in
  rb_wf rb' /\ queue_run (Z.to_nat (buffer_size rb)) ops (rb_content rb) = (d, rb_content rb').
Proof.
  intros H Hops. revert rb H. induction Hops as [|op ops Hop _ IH]; intros rb H; [done|]. simpl.
  pose proof (rb_exec_queue op rb H Hop) as Hx. pose proof (rb_size_kept op rb) as Hs.
  destruct (rb_exec op rb) as [d rb1]. destruct (queue_exec _ op _) as [d' q1].
  destruct Hx as (<- & H1 & <-). specialize (IH rb1 H1). simpl in Hs. rewrite Hs in IH.
  destruct (rb_run ops rb1) as [ds rb2]. destruct IH as [? ->]. done.
Qed.

Lemma ringbuffer_is_queue_witness :
  let rb := {| buffer_ptr := [0; 0; 0; 0]; read_mirror := false; read_index := 3;
               write_mirror := false; write_index := 3; buffer_size := 4 |} in
  fst (rb_run [RbPut [1; 2; 3; 4; 5]; RbGet 2; RbPut [6]; RbGetchar; RbGet 9] rb) = [1; 2; 3; 4; 6].
Proof.
  intros rb.
  pose proof (ringbuffer_is_queue [RbPut [1; 2; 3; 4; 5]; RbGet 2; RbPut [6]; RbGetchar; RbGet 9] rb) as H.
  destruct (rb_run _ rb) as [d rb'].
  destruct H as [_ H]; [by split; vm_compute|by repeat constructor|].
  vm_compute in H. simpl. by injection H.
Defined.


(** ** Forced writes *)
Lemma lastn_app_lastn {A} n (l k : list A) :
  (n <= length k)%nat -> lastn n (l ++ k) = lastn n k.
Proof.
  intros H. unfold lastn. rewrite length_app.
  replace (length l + length k - n)%nat with (length l + (length k - n))%nat by lia.
  rewrite <- drop_drop, drop_app_length. done.
Qed.

(** A buffer whose read index follows its write index, with the data going
    round: full or, when the mirrors agree, empty. *)
Lemma content_overwrite rb rb' d :
  rb_wf rb -> rt_ringbuffer_space_len rb < lenZ d <= buffer_size rb ->
  buffer_size rb' = buffer_size rb ->
  ring_written (buffer_size rb) (write_index rb) d (buffer_ptr rb) (buffer_ptr rb') ->
  write_index rb' = (write_index rb + lenZ d) mod buffer_size rb ->
  read_index rb' = write_index rb' ->
  rb_wf rb' /\
  rb_content rb' =
    if eqb (read_mirror rb') (write_mirror rb') then []
    else lastn (Z.to_nat (buffer_size rb)) (rb_content rb ++ d).
Proof.
  intros H Hd Hs Hw Hwi Hri. pose proof (data_len_wf rb H) as [Hlen Hb].
  pose proof (write_position rb H) as Hpos. unfold rt_ringbuffer_space_len in Hd.
  assert (rb_wf rb') as Hwf.
  { destruct H as [H1 H2 H3 H4 H5]. rewrite Hwi in Hri.
    pose proof (Z.mod_pos_bound (write_index rb + lenZ d) (buffer_size rb)).
    split; rewrite ?Hs, ?Hri, ?Hwi; try done; try lia.
    - destruct Hw as [-> _]. done.
    - destruct (eqb (read_mirror rb') (write_mirror rb')); lia. }
  split; [done|]. unfold rb_content at 1. rewrite (proj1 (data_len_wf rb' Hwf)), Hri, Hs.
  destruct (eqb (read_mirror rb') (write_mirror rb')).
  - rewrite Z.sub_diag. done.
  - replace (buffer_size rb - write_index rb' + write_index rb') with (buffer_size rb) by lia.
    rewrite Hwi, <- Hpos, Zplus_mod_idemp_l. unfold rb_content. rewrite <- Hpos in Hw.
    destruct H. apply ring_overwrite; try done; lia.
Qed.

Lemma put_force_clipped d rb :
  rb_wf rb -> lenZ d <= buffer_size rb ->
  let '(r, rb') := rt_ringbuffer_put_force d (lenZ d) rb in
  r = lenZ d /\ rb_wf rb' /\
  rb_content rb' =
    (if (rt_ringbuffer_space_len rb <? lenZ d) && eqb (read_mirror rb) (write_mirror rb) then []
     else lastn (Z.to_nat (buffer_size rb)) (rb_content rb ++ d)).
Proof.
  intros H Hd. unfold rt_ringbuffer_put_force.
  pose proof (data_len_wf rb H) as [Hlen Hb]. pose proof H as [H1 H2 H3 H4 H5].
  assert (u16 (rt_ringbuffer_space_len rb) = rt_ringbuffer_space_len rb) as ->.
  { apply wrap_id. unfold fits, rt_ringbuffer_space_len. lia. }
  destruct (Z.ltb_spec (buffer_size rb) (lenZ d)); [lia|].
  assert (0 <= lenZ d) as Hd0 by (unfold lenZ; lia).
  assert (slice 0 (lenZ d) d = d) as Hsl.
  { unfold slice, lenZ. rewrite Nat2Z.id. apply firstn_all. }
  pose proof (blit_written (buffer_size rb) (write_index rb) (lenZ d) d (buffer_ptr rb)
    ltac:(lia) ltac:(lia) ltac:(lia) ltac:(lia)) as Hw. cbv zeta in Hw. rewrite Hsl in *. revert Hw.
  destruct (Z.ltb_spec (rt_ringbuffer_space_len rb) (lenZ d)) as [Hover|Hfit];
  destruct (Z.ltb_spec (lenZ d) (buffer_size rb - write_index rb)) as [Hnw|Hwr]; intros Hw;
    (split; [done|]); cbn [andb].
  - match goal with |- rb_wf ?r /\ _ => destruct (content_overwrite rb r d) as [? Hc] end;
      try done; simpl; rewrite ?(wrap_id 15) by (unfold fits; lia); by rewrite Z.mod_small by lia.
  - match goal with |- rb_wf ?r /\ _ => destruct (content_overwrite rb r d) as [? Hc] end;
      try done; simpl.
    + rewrite (wrap_id 15) by (unfold fits; lia). symmetry.
      rewrite <- (Z.mod_add _ (-1)) by lia. rewrite Z.mod_small; lia.
    + simpl in Hc. split; [done|]. rewrite Hc. by destruct (read_mirror rb), (write_mirror rb).
  - match goal with |- rb_wf ?r /\ _ => destruct (content_append rb r d) as [? ->] end; try done; simpl.
    { case_cmp; [|lia]. rewrite (wrap_id 15) by (unfold fits; lia). done. }
    split; [done|]. rewrite lastn_all; [done|]. rewrite length_app.
    pose proof (lenZ_content rb H). unfold rt_ringbuffer_space_len, lenZ in *. lia.
  - match goal with |- rb_wf ?r /\ _ => destruct (content_append rb r d) as [? ->] end; try done; simpl.
    { case_cmp; [lia|]. rewrite (wrap_id 15) by (unfold fits; lia). split; [lia|done]. }
    split; [done|]. rewrite lastn_all; [done|]. rewrite length_app.
    pose proof (lenZ_content rb H). unfold rt_ringbuffer_space_len, lenZ in *. lia.
Qed.

(** A forced put keeps the last [buffer_size] bytes of the queue followed
    by the new data, except that when data must be dropped while the two
    mirrors agree (the content does not go round the end) the whole buffer
    becomes empty. *)
Lemma put_force_spec (d : list Z) (rb : rt_ringbuffer) :
  rb_wf rb -> lenZ d < 2 ^ 16 ->
  let '(r, rb') := rt_ringbuffer_put_force d (lenZ d) rb in
  r = Z.min (lenZ d) (buffer_size rb) /\ rb_wf rb' /\
  rb_content rb' =
    (if (rt_ringbuffer_space_len rb <? r) && eqb (read_mirror rb) (write_mirror rb) then []
     else lastn (Z.to_nat (buffer_size rb)) (rb_content rb ++ d)).
Proof.
  intros H Hd. destruct (Z.ltb_spec (buffer_size rb) (lenZ d)).
  - pose proof H as [H1 _ _ _ _].
    set (d' := slice (lenZ d - buffer_size rb) (buffer_size rb) d).
    assert (lenZ d' = buffer_size rb) as Hd' by (apply lenZ_slice; lia).
    assert (rt_ringbuffer_put_force d (lenZ d) rb = rt_ringbuffer_put_force d' (lenZ d') rb) as ->.
    { unfold rt_ringbuffer_put_force. fold d'. rewrite Hd'.
      destruct (Z.ltb_spec (buffer_size rb) (lenZ d)); [|lia].
      destruct (Z.ltb_spec (buffer_size rb) (buffer_size rb)); [lia|].
      by rewrite (wrap_id 16) by (unfold fits; lia). }
    pose proof (put_force_clipped d' rb H ltac:(lia)) as Hp.
    destruct (rt_ringbuffer_put_force d' _ rb) as [r rb']. destruct Hp as (-> & Hwf & ->).
    split; [lia|]. split; [done|]. destruct (_ && _); [done|].
    unfold lenZ in *. rewrite !lastn_app_lastn by lia.
    unfold lastn at 1. rewrite (proj2 (Nat.sub_0_le (length d') _)) by lia.
    rewrite drop_0. unfold d', slice, lastn. rewrite take_ge by (rewrite length_drop; unfold lenZ; lia).
    f_equal. unfold lenZ. lia.
  - pose proof (put_force_clipped d rb H ltac:(lia)) as Hp.
    destruct (rt_ringbuffer_put_force d _ rb) as [r rb']. destruct Hp as (-> & Hwf & ->).
    split; [lia|]. done.
Qed.

Lemma put_force_spec_witness :
  let rb := {| buffer_ptr := [1; 2; 3; 4; 5; 6; 0; 0]; read_mirror := false; read_index := 2;
               write_mirror := false; write_index := 6; buffer_size := 8 |} in
  rb_content rb = [3; 4; 5; 6] /\
  rb_content (snd (rt_ringbuffer_put_force [7; 8; 9; 10; 11] 5 rb)) = [].
Proof.
  intros rb. split; [reflexivity|].
  pose proof (put_force_spec [7; 8; 9; 10; 11] rb) as H. 
  change (lenZ [7; 8; 9; 10; 11]) with 5 in H.
  destruct (rt_ringbuffer_put_force _ 5 rb) as [r rb'].
  destruct H as (-> & _ & H); [by split; vm_compute|lia|exact H].
Defined.
