(* ===== verification/Ring.v ===== *)
(** * Circular arrays

    Mailboxes, the receive buffer of the serial driver and the data queue keep a
    queue in an array whose indices start again at 0.  [ring d l start n] is the
    queue of the [n] elements from index [start] on, the oldest first; the
    lemmas say what storing behind the last one and leaving the first one do.
    [fifo_reach] are the runs of a component that queues. *)
From S2P Require Import Prelude.

(** An index in range finds its element. *)
Lemma lookup_nthZ {A} (d : A) l i : 0 <= i < lenZ l -> l !! Z.to_nat i = Some (nthZ d l i).
Proof.
  unfold lenZ, nthZ. intros Hi. destruct (lookup_lt_is_Some_2 l (Z.to_nat i)) as [x Hx]; [lia|].
  by rewrite (nth_lookup_Some _ _ _ _ Hx).
Qed.

(** The index behind [i] in an array of [size] elements, as the code has it. *)
Lemma next_mod size i : 0 <= i < size -> (if size <=? i + 1 then 0 else i + 1) = (i + 1) mod size.
Proof.
  intros Hi. case_cmp; [|by rewrite Z.mod_small by lia].
  replace (i + 1) with size by lia. by rewrite Z.mod_same by lia.
Qed.

Lemma mod_distinct a b s : 0 < b - a < s -> b mod s <> a mod s.
Proof.
  intros H He. pose proof (Z.div_mod b s ltac:(lia)) as D1. pose proof (Z.div_mod a s ltac:(lia)) as D2.
  rewrite He in D1. assert (b / s - a / s <= 0 \/ 1 <= b / s - a / s) as [Hq|Hq] by lia; nia.
Qed.

(** How far [b] is behind [a] on the circle. *)
Lemma distance_mod a n s : 0 <= a < s -> 0 <= n < s ->
  n = if a <=? (a + n) mod s then (a + n) mod s - a else s - (a - (a + n) mod s).
Proof.
  intros Ha Hn. destruct (Z_lt_ge_dec (a + n) s) as [H|H].
  - rewrite Z.mod_small by lia. case_cmp; lia.
  - rewrite <- (Z.mod_unique_pos (a + n) s 1 (a + n - s)) by lia. case_cmp; lia.
Qed.

Section Ring.
Context {A : Type} (d : A).

Definition ring (l : list A) (start n : Z) : list A :=
  (fun i => nthZ d l ((start + i) mod lenZ l)) <$> seqZ 0 n.

Lemma ring_length l start n : 0 <= n -> lenZ (ring l start n) = n.
Proof. intros Hn. unfold lenZ, ring. rewrite length_fmap, length_seqZ. lia. Qed.

Lemma ring_nil l start : ring l start 0 = [].
Proof. done. Qed.

Lemma ring_nil_iff l start n : 0 <= n -> ring l start n = [] <-> n = 0.
Proof.
  intros Hn. split; [|by intros ->]. intros H. pose proof (ring_length l start n Hn) as Hl.
  rewrite H in Hl. unfold lenZ in Hl. simpl in Hl. lia.
Qed.

Lemma ring_start_mod l start n : ring l (start mod lenZ l) n = ring l start n.
Proof. unfold ring. apply list_fmap_ext. intros i j _. by rewrite Zplus_mod_idemp_l. Qed.

(** Behind the last element there is a free place. *)
Lemma ring_push l start n v : 0 <= n < lenZ l ->
  ring (updZ l ((start + n) mod lenZ l) v) start (n + 1) = ring l start n ++ [v].
Proof.
  intros Hn. assert (0 <= (start + n) mod lenZ l < lenZ l) as Hb by (apply Z.mod_pos_bound; lia).
  unfold ring. rewrite seqZ_app, fmap_app by lia. rewrite lenZ_updZ. f_equal.
  - apply list_fmap_ext. intros i j Hj. apply lookup_seqZ in Hj as [-> Hj].
    apply nthZ_updZ_ne; [lia|apply Z.mod_pos_bound; lia|].
    apply mod_distinct. lia.
  - change (seqZ (0 + n) 1) with [0 + n]. simpl. rewrite Z.add_0_l. by rewrite nthZ_updZ_eq.
Qed.

Lemma ring_pop l start n : 0 < n ->
  ring l start n = nthZ d l (start mod lenZ l) :: ring l (start + 1) (n - 1).
Proof.
  intros Hn. unfold ring. rewrite seqZ_cons by lia. cbn [fmap list_fmap]. rewrite Z.add_0_r. f_equal.
  change (Z.succ 0) with (1 + 0). rewrite <- (fmap_add_seqZ 1 0), <- list_fmap_compose.
  replace (Z.pred n) with (n - 1) by lia. apply list_fmap_ext. intros i j _. simpl. by rewrite Z.add_assoc.
Qed.

(** All places are taken: the new element takes that of the oldest one. *)
Lemma ring_full_push l start v : 0 < lenZ l ->
  ring (updZ l (start mod lenZ l) v) (start + 1) (lenZ l) = drop 1 (ring l start (lenZ l)) ++ [v].
Proof.
  intros Hl. rewrite (ring_pop l start) by done. simpl. rewrite drop_0.
  rewrite <- ring_push by lia. replace (start + 1 + (lenZ l - 1)) with (start + 1 * lenZ l) by lia.
  rewrite Z_mod_plus_full. f_equal. lia.
Qed.
End Ring.

(** ** Runs of a queue

    A step is labelled with the elements it put into the queue and those it took
    out; a run has all of them in order.  When every step keeps the elements in
    order, so does every run. *)
Section Fifo.
Context {S A : Type} (step : S -> list A * list A -> S -> Prop) (ok : S -> Prop) (held : S -> list A).

Inductive fifo_reach (x0 : S) : list A -> list A -> S -> Prop :=
| fifo_start : fifo_reach x0 [] [] x0
| fifo_next ins outs x d x' : fifo_reach x0 ins outs x -> step x d x' ->
    fifo_reach x0 (ins ++ fst d) (outs ++ snd d) x'.

Lemma fifo_reach_held : (forall x d x', ok x -> step x d x' -> ok x' /\ held x ++ fst d = snd d ++ held x') ->
  forall x0 ins outs x, ok x0 -> fifo_reach x0 ins outs x -> ok x /\ held x0 ++ ins = outs ++ held x.
Proof.
  intros Hstep x0 ins outs x H0 Hr. induction Hr as [|ins outs x d x' _ [IH1 IH2] Hs]; [by rewrite app_nil_r|].
  destruct (Hstep x d x' IH1 Hs) as [H1 H2]. split; [done|]. by rewrite app_assoc, IH2, <- !app_assoc, H2.
Qed.
End Fifo.
