(* ===== verification/Mem.v ===== *)
(** * The kernel heap (rt-thread/src/mem.c)

    The heap is seen through its block headers: a map from offset (relative to
    [heap_ptr]) to [struct heap_mem]; pointers are offsets and a null pointer is
    [None].  A failed assertion or a header read where there is none gives
    [None] as the whole result.  The configuration has no RT_USING_MEMTRACE,
    so a header takes 12 bytes.  The semaphore that serialises the operations
    is not part of the state: each operation is one critical section. *)
From S2P Require Import Prelude.

(** ** State *)
Definition HEAP_MAGIC : Z := 0x1ea0.
Definition SIZEOF_STRUCT_MEM : Z := 12.
Definition MIN_SIZE : Z := 12.
Definition MIN_SIZE_ALIGNED : Z := 12.
Definition RT_ALIGN_SIZE : Z := 4.

(** [RT_ALIGN] and [RT_ALIGN_DOWN] on 32-bit unsigned values. *)
Definition RT_ALIGN (size align : Z) : Z :=
  Z.land (u32 (size + align - 1)) (u32 (Z.lnot (align - 1))).
Definition RT_ALIGN_DOWN (size align : Z) : Z := Z.land size (u32 (Z.lnot (align - 1))).

Record heap_mem := { magic : Z; used : Z; next : Z; prev : Z }.

Record heap := {
  hdrs : gmap Z heap_mem;
  lfree : Z;
  mem_size_aligned : Z;
  used_mem : Z;
  max_mem : Z
}.

Definition heap_end (h : heap) : Z := mem_size_aligned h + SIZEOF_STRUCT_MEM.

Definition put_hdr (off : Z) (b : heap_mem) (h : heap) : heap :=
  {| h with hdrs := <[off := b]> (hdrs h) |}.

Definition mod_hdr (off : Z) (f : heap_mem -> heap_mem) (h : heap) : option heap :=
  b ← hdrs h !! off; Some (put_hdr off (f b) h).

Definition stat_add (n : Z) (h : heap) : heap :=
  let u := u32 (used_mem h + n) in
  {| h with used_mem := u; max_mem := if max_mem h <? u then u else max_mem h |}.

Definition stat_sub (n : Z) (h : heap) : heap := {| h with used_mem := u32 (used_mem h - n) |}.

(** ** Operations *)

(** The state is unchanged when the region is too small. *)
Definition rt_system_heap_init (begin_addr end_addr : Z) (h : heap) : heap :=
  let begin_align := RT_ALIGN begin_addr RT_ALIGN_SIZE in
  let end_align := RT_ALIGN_DOWN end_addr RT_ALIGN_SIZE in
  if (2 * SIZEOF_STRUCT_MEM <? end_align) &&
     (begin_align <=? end_align - 2 * SIZEOF_STRUCT_MEM) then
    let msa := end_align - begin_align - 2 * SIZEOF_STRUCT_MEM in
    let e := msa + SIZEOF_STRUCT_MEM in
    let h := {| h with mem_size_aligned := msa; lfree := 0 |} in
    let h := put_hdr 0 {| magic := HEAP_MAGIC; used := 0; next := e; prev := 0 |} h in
    put_hdr e {| magic := HEAP_MAGIC; used := 1; next := e; prev := e |} h
  else h.

Definition plug_holes (m : Z) (h : heap) : option heap :=
  _ ← assert ((0 <=? m) && (m <? heap_end h));
  mem ← hdrs h !! m;
  _ ← assert (used mem =? 0);
  let n := next mem in
  nmem ← hdrs h !! n;
  h ← (if negb (m =? n) && (used nmem =? 0) && negb (n =? heap_end h) then
         let h := if lfree h =? n then {| h with lfree := m |} else h in
         h ← mod_hdr m (fun b => {| b with next := next nmem |}) h;
         mod_hdr (next nmem) (fun b => {| b with prev := m |}) h
       else Some h);
  mem ← hdrs h !! m;
  let p := prev mem in
  pmem ← hdrs h !! p;
  if negb (p =? m) && (used pmem =? 0) then
    let h := if lfree h =? m then {| h with lfree := p |} else h in
    h ← mod_hdr p (fun b => {| b with next := next mem |}) h;
    mod_hdr (next mem) (fun b => {| b with prev := p |}) h
  else Some h.

(** [while (lfree->used && lfree != heap_end) lfree = &heap_ptr[lfree->next];] *)
Fixpoint advance_lfree (fuel : nat) (h : heap) : option heap :=
  match fuel with
  | O => None
  | S fuel =>
      b ← hdrs h !! lfree h;
      if negb (used b =? 0) && negb (lfree h =? heap_end h)
      then advance_lfree fuel {| h with lfree := next b |}
      else Some h
  end.

(** The block [mem] at [ptr] is taken for [size] bytes of data. *)
Definition take_block (ptr size : Z) (mem : heap_mem) (h : heap) : option (option Z * heap) :=
  h ← (if size + SIZEOF_STRUCT_MEM + MIN_SIZE_ALIGNED <=?
          next mem - (ptr + SIZEOF_STRUCT_MEM) then
         let ptr2 := ptr + SIZEOF_STRUCT_MEM + size in
         let mem2 := {| magic := HEAP_MAGIC; used := 0; next := next mem; prev := ptr |} in
         let h := put_hdr ptr2 mem2 h in
         h ← mod_hdr ptr (fun b => {| b with next := ptr2; used := 1 |}) h;
         h ← (if negb (next mem2 =? mem_size_aligned h + SIZEOF_STRUCT_MEM)
              then mod_hdr (next mem2) (fun b => {| b with prev := ptr2 |}) h else Some h);
         Some (stat_add (size + SIZEOF_STRUCT_MEM) h)
       else
         h ← mod_hdr ptr (fun b => {| b with used := 1 |}) h;
         Some (stat_add (next mem - ptr) h));
  h ← mod_hdr ptr (fun b => {| b with magic := HEAP_MAGIC |}) h;
  h ← (if ptr =? lfree h then
         h ← advance_lfree (Z.to_nat (heap_end h)) h;
         b ← hdrs h !! lfree h;
         _ ← assert ((lfree h =? heap_end h) || (used b =? 0));
         Some h
       else Some h);
  _ ← assert (ptr + SIZEOF_STRUCT_MEM + size <=? heap_end h);
  _ ← assert ((ptr + SIZEOF_STRUCT_MEM) mod RT_ALIGN_SIZE =? 0);
  _ ← assert (Z.land ptr (RT_ALIGN_SIZE - 1) =? 0);
  Some (Some (ptr + SIZEOF_STRUCT_MEM), h).

(** The search loop from block [ptr] on. *)
Fixpoint malloc_loop (fuel : nat) (ptr size : Z) (h : heap) : option (option Z * heap) :=
  match fuel with
  | O => None
  | S fuel =>
      if ptr <? u32 (mem_size_aligned h - size) then
        mem ← hdrs h !! ptr;
        if (used mem =? 0) && (size <=? next mem - (ptr + SIZEOF_STRUCT_MEM))
        then take_block ptr size mem h
        else malloc_loop fuel (next mem) size h
      else Some (None, h)
  end.

Definition rt_malloc (size : Z) (h : heap) : option (option Z * heap) :=
  if size =? 0 then Some (None, h)
  else
    let size := RT_ALIGN size RT_ALIGN_SIZE in
    if mem_size_aligned h <? size then Some (None, h)
    else
      let size := if size <? MIN_SIZE_ALIGNED then MIN_SIZE_ALIGNED else size in
      malloc_loop (Z.to_nat (heap_end h)) (lfree h) size h.

Definition rt_free (rmem : option Z) (h : heap) : option heap :=
  match rmem with
  | None => Some h
  | Some p =>
      _ ← assert (Z.land p (RT_ALIGN_SIZE - 1) =? 0);
      _ ← assert ((0 <=? p) && (p <? heap_end h));
      let m := p - SIZEOF_STRUCT_MEM in
      mem ← hdrs h !! m;
      _ ← assert (negb (used mem =? 0));
      _ ← assert (magic mem =? HEAP_MAGIC);
      let h := put_hdr m {| mem with used := 0; magic := HEAP_MAGIC |} h in
      let h := if m <? lfree h then {| h with lfree := m |} else h in
      let h := stat_sub (next mem - m) h in
      plug_holes m h
  end.

(** Reallocation; [copy dst src n] is the effect of rt_memcpy on the data,
    kept in [D]. *)
Definition rt_realloc {D : Type} (copy : Z -> Z -> Z -> D -> D) (rmem : option Z) (newsize : Z)
    (h : heap) (d : D) : option (option Z * heap * D) :=
  let newsize := RT_ALIGN newsize RT_ALIGN_SIZE in
  if mem_size_aligned h <? newsize then Some (None, h, d)
  else if newsize =? 0 then h ← rt_free rmem h; Some (None, h, d)
  else
    match rmem with
    | None => '(r, h) ← rt_malloc newsize h; Some (r, h, d)
    | Some p =>
        if (p <? 0) || (heap_end h <=? p) then Some (rmem, h, d)
        else
          let ptr := p - SIZEOF_STRUCT_MEM in
          mem ← hdrs h !! ptr;
          let size := next mem - ptr - SIZEOF_STRUCT_MEM in
          if size =? newsize then Some (rmem, h, d)
          else if newsize + SIZEOF_STRUCT_MEM + MIN_SIZE <? size then
            let h := stat_sub (size - newsize) h in
            let ptr2 := ptr + SIZEOF_STRUCT_MEM + newsize in
            let mem2 := {| magic := HEAP_MAGIC; used := 0; next := next mem; prev := ptr |} in
            let h := put_hdr ptr2 mem2 h in
            h ← mod_hdr ptr (fun b => {| b with next := ptr2 |}) h;
            h ← (if negb (next mem2 =? mem_size_aligned h + SIZEOF_STRUCT_MEM)
                 then mod_hdr (next mem2) (fun b => {| b with prev := ptr2 |}) h else Some h);
            let h := if ptr2 <? lfree h then {| h with lfree := ptr2 |} else h in
            h ← plug_holes ptr2 h;
            Some (rmem, h, d)
          else
            '(nmem, h) ← rt_malloc newsize h;
            match nmem with
            | Some q =>
                let d := copy q p (if size <? newsize then size else newsize) d in
                h ← rt_free rmem h; Some (nmem, h, d)
            | None => Some (None, h, d)
            end
    end.

(** [zero p n] is the effect of rt_memset on the data; the product wraps. *)
Definition rt_calloc {D : Type} (zero : Z -> Z -> D -> D) (count size : Z) (h : heap) (d : D)
  : option (option Z * heap * D) :=
  '(p, h) ← rt_malloc (u32 (count * size)) h;
  Some (p, h, match p with Some q => zero q (u32 (count * size)) d | None => d end).

Definition rt_memory_info (h : heap) : Z * Z * Z := (mem_size_aligned h, used_mem h, max_mem h).

(** ** The blocks of a heap

    A heap is a sequence of blocks [(size, in use)], headers included, that
    tile it from offset 0 to [heap_end]. *)
Definition block : Type := Z * bool.

Definition total (l : list block) : Z := sumZ (map fst l).

(** The headers of the blocks [l] that start at [o], the block before starting
    at [p]. *)
Fixpoint seg (m : gmap Z heap_mem) (o p : Z) (l : list block) : Prop :=
  match l with
  | [] => True
  | (n, u) :: l =>
      m !! o = Some {| magic := HEAP_MAGIC; used := Z.b2z u; next := o + n; prev := p |} /\
      seg m (o + n) o l
  end.

(** Where the last block starts. *)
Fixpoint last_off (o p : Z) (l : list block) : Z :=
  match l with [] => p | (n, _) :: l => last_off (o + n) o l end.

(** The first free block, or the end. *)
Fixpoint first_free (o : Z) (l : list block) : Z :=
  match l with [] => o | (n, u) :: l => if u then first_free (o + n) l else o end.

Definition blk_ok (b : block) : Prop := 16 <= fst b /\ fst b mod 4 = 0.

(** No two neighbours are free: freeing has merged them. *)
Fixpoint nff (l : list bool) : bool :=
  match l with
  | u :: ((v :: _) as l') => (u || v) && nff l'
  | _ => true
  end.

Definition merged (l : list block) : Prop := nff (map snd l) = true.

(** The headers from [o] to the end marker at [e]. *)
Definition tail (m : gmap Z heap_mem) (o p : Z) (l : list block) (e : Z) : Prop :=
  seg m o p l /\ o + total l = e /\
  exists q, m !! e = Some {| magic := HEAP_MAGIC; used := 1; next := e; prev := q |}.

Record heap_inv (h : heap) (l : list block) : Prop := {
  hi_tail : tail (hdrs h) 0 0 l (heap_end h);
  hi_ok : Forall blk_ok l;
  hi_merged : merged l;
  hi_lfree : lfree h = first_free 0 l;
  hi_size : MIN_SIZE_ALIGNED <= mem_size_aligned h /\ heap_end h < 2 ^ 32
}.

(** The regions in use: offset and size, headers included. *)
Fixpoint regions (o : Z) (l : list block) : list (Z * Z) :=
  match l with
  | [] => []
  | (n, u) :: l => (if u then [(o, n)] else []) ++ regions (o + n) l
  end.

(** The blocks a free block of [n] bytes becomes when [size] bytes are taken. *)
Definition carve (size n : Z) : list block :=
  if size + SIZEOF_STRUCT_MEM + MIN_SIZE_ALIGNED <=? n - SIZEOF_STRUCT_MEM
  then [(SIZEOF_STRUCT_MEM + size, true); (n - SIZEOF_STRUCT_MEM - size, false)]
  else [(n, true)].

(** The bytes in use, headers included. *)
Definition taken (l : list block) : Z := sumZ (map (fun '(n, u) => if (u : bool) then n else 0) l).

(** First fit. *)
Fixpoint first_fit (size limit o : Z) (l : list block) : option (Z * list block) :=
  match l with
  | [] => None
  | (n, u) :: l' =>
      if o <? limit then
        if negb u && (size <=? n - SIZEOF_STRUCT_MEM) then Some (o, carve size n ++ l')
        else '(a, l') ← first_fit size limit (o + n) l'; Some (a, (n, u) :: l')
      else None
  end.

(** ** Lists of blocks *)
Lemma total_app l k : total (l ++ k) = total l + total k.
Proof. unfold total. by rewrite map_app, sumZ_app. Qed.

Lemma total_cons n u l : total ((n, u) :: l) = n + total l.
Proof. done. Qed.

Lemma total_singleton n u : total [(n, u)] = n.
Proof. unfold total. simpl. lia. Qed.

Lemma total_nonneg l : Forall blk_ok l -> 0 <= total l.
Proof.
  induction 1 as [|[n u] l [H _] _ IH]; [done|]. rewrite total_cons. simpl in H. lia.
Qed.

Lemma seg_app m l k : forall o p,
  seg m o p (l ++ k) <-> seg m o p l /\ seg m (o + total l) (last_off o p l) k.
Proof.
  induction l as [|[n u] l IH]; intros o p; simpl.
  - change (total []) with 0. rewrite Z.add_0_r. tauto.
  - rewrite IH, total_cons, Z.add_assoc. tauto.
Qed.

Lemma tail_app m l k o p e :
  tail m o p (l ++ k) e <-> seg m o p l /\ tail m (o + total l) (last_off o p l) k e.
Proof. unfold tail. rewrite seg_app, total_app, Z.add_assoc. tauto. Qed.

Lemma tail_cons m n u l o p e :
  tail m o p ((n, u) :: l) e <->
  m !! o = Some {| magic := HEAP_MAGIC; used := Z.b2z u; next := o + n; prev := p |} /\
  tail m (o + n) o l e.
Proof. unfold tail. simpl. rewrite total_cons, Z.add_assoc. tauto. Qed.

Lemma last_off_snoc l n u : forall o p, last_off o p (l ++ [(n, u)]) = o + total l.
Proof.
  induction l as [|[k v] l IH]; intros o p; simpl; [unfold total; simpl; lia|].
  rewrite IH, total_cons. lia.
Qed.

Lemma taken_app l k : taken (l ++ k) = taken l + taken k.
Proof. unfold taken. by rewrite map_app, sumZ_app. Qed.

Lemma taken_cons n u l : taken ((n, u) :: l) = (if u then n else 0) + taken l.
Proof. done. Qed.

Lemma taken_regions l o : taken l = sumZ (map snd (regions o l)).
Proof.
  revert o. induction l as [|[n u] l IH]; intros o; [done|].
  rewrite taken_cons, (IH (o + n)). simpl. destruct u; simpl; lia.
Qed.

(** A header outside the blocks may change. *)
Lemma seg_insert m x b l : Forall blk_ok l -> forall o p,
  x < o \/ o + total l <= x -> seg m o p l -> seg (<[x := b]> m) o p l.
Proof.
  induction 1 as [|[n u] l [Hn _] Hl IH]; intros o p Hx; [done|]. simpl in *.
  pose proof (total_nonneg l Hl). rewrite total_cons in Hx.
  intros [H1 H2]. split; [by rewrite lookup_insert_ne by lia|]. apply IH; [lia|done].
Qed.

Lemma tail_insert m x b l o p e :
  Forall blk_ok l -> x < o -> tail m o p l e -> tail (<[x := b]> m) o p l e.
Proof.
  intros Hl Hx (H1 & H2 & q & H3). pose proof (total_nonneg l Hl). split_and!; try done.
  - apply seg_insert; [done|by left|done].
  - exists q. by rewrite lookup_insert_ne by lia.
Qed.

(** Setting the back link of the next block, be it the end marker. *)
Lemma tail_set_prev m l o p p' e :
  Forall blk_ok l -> tail m o p l e ->
  exists b, m !! o = Some b /\ tail (<[o := {| b with prev := p' |}]> m) o p' l e.
Proof.
  intros Hl (H1 & H2 & q & H3). destruct l as [|[n u] l].
  - change (total []) with 0 in H2. rewrite Z.add_0_r in H2. subst e.
    eexists. split; [exact H3|]. split; [done|]. split; [unfold total; simpl; lia|].
    exists p'. by rewrite lookup_insert_eq.
  - simpl in H1. destruct H1 as [H1 H4]. apply Forall_cons in Hl as [[Hn _] Hl]. simpl in Hn.
    pose proof (total_nonneg l Hl). rewrite total_cons in H2.
    eexists. split; [exact H1|]. split; [|split; [by rewrite total_cons|]].
    + simpl. split; [by rewrite lookup_insert_eq|]. apply seg_insert; [done|lia|done].
    + exists q. by rewrite lookup_insert_ne by lia.
Qed.

Lemma nff_app l u k : nff (l ++ u :: k) = nff (l ++ [u]) && nff (u :: k).
Proof.
  induction l as [|v l IH]; [simpl; by destruct k|].
  destruct l as [|w l]; cbn [app nff] in *; [by rewrite andb_true_r|].
  rewrite IH. by rewrite andb_assoc.
Qed.

Lemma nff_true l : nff (true :: l) = nff l.
Proof. by destruct l. Qed.

Lemma nff_snoc_true l : nff (l ++ [true]) = nff l.
Proof.
  induction l as [|v l IH]; [done|]. destruct l as [|w l]; [by destruct v|].
  cbn [app nff] in *. by rewrite IH.
Qed.

Lemma nff_prefix l k : nff (l ++ k) = true -> nff l = true.
Proof.
  revert k. induction l as [|v l IH]; intros k; [done|]. destruct l as [|w l]; [done|].
  cbn [app nff] in *. rewrite !andb_true_iff. intros [? ?]. split; [done|]. by eapply IH.
Qed.

Lemma nff_suffix l k : nff (l ++ k) = true -> nff k = true.
Proof.
  induction l as [|v l IH]; [done|]. intros H. apply IH. cbn [app nff] in H.
  destruct (l ++ k) eqn:E; [done|]. apply andb_true_iff in H. tauto.
Qed.

Lemma first_free_app l k : forall o,
  first_free o (l ++ k) =
  if forallb snd l then first_free (o + total l) k else first_free o l.
Proof.
  induction l as [|[n u] l IH]; intros o; simpl.
  - by rewrite Z.add_0_r.
  - destruct u; simpl; [|done]. rewrite IH, total_cons. by rewrite Z.add_assoc.
Qed.

Lemma first_free_bounds l : Forall blk_ok l -> forall o,
  o <= first_free o l <= o + total l /\
  (forallb snd l = false -> first_free o l < o + total l) /\
  (forallb snd l = true -> first_free o l = o + total l).
Proof.
  induction 1 as [|[n u] l [Hn _] Hl IH]; intros o; [simpl; unfold total; simpl; lia|].
  simpl in *. rewrite total_cons. pose proof (total_nonneg l Hl).
  destruct u; simpl; [|lia]. specialize (IH (o + n)). rewrite <- Z.add_assoc in IH.
  intuition lia.
Qed.

Lemma first_free_here l n k :
  Forall blk_ok l -> total l = first_free 0 (l ++ (n, false) :: k) -> forallb snd l = true.
Proof.
  intros Hl. rewrite first_free_app. destruct (first_free_bounds l Hl 0) as (_ & Hlt & _).
  destruct (forallb snd l); [done|]. specialize (Hlt eq_refl). lia.
Qed.

Lemma first_free_hdr m l e : forall o p, tail m o p l e ->
  exists b, m !! first_free o l = Some b /\ (first_free o l =? e) || (used b =? 0) = true.
Proof.
  induction l as [|[k u] l IH]; intros o p Ht.
  - destruct Ht as (_ & He & q & Hq). change (total []) with 0 in He. rewrite Z.add_0_r in He. subst o.
    eexists. simpl. rewrite Z.eqb_refl. by split.
  - apply tail_cons in Ht as [Hk Ht]. destruct u; simpl; [by eapply IH|].
    eexists. split; [exact Hk|]. apply orb_true_r.
Qed.

Lemma regions_app l k : forall o, regions o (l ++ k) = regions o l ++ regions (o + total l) k.
Proof.
  induction l as [|[n u] l IH]; intros o; simpl.
  - by rewrite Z.add_0_r.
  - rewrite IH, total_cons, <- app_assoc. by rewrite Z.add_assoc.
Qed.

(** Regions in use lie in the heap and do not overlap. *)
Lemma regions_bounds l : Forall blk_ok l -> forall o a n,
  (a, n) ∈ regions o l -> o <= a /\ a + n <= o + total l /\ 16 <= n.
Proof.
  induction 1 as [|[k u] l [Hk _] Hl IH]; intros o a n; simpl in *; [by intros ?%elem_of_nil|].
  rewrite total_cons. pose proof (total_nonneg l Hl). intros Hin. apply elem_of_app in Hin as [Hin|Hin].
  - destruct u; [|by apply elem_of_nil in Hin]. apply list_elem_of_singleton in Hin. simplify_eq. lia.
  - apply IH in Hin. lia.
Qed.

Lemma regions_disjoint l : Forall blk_ok l -> forall o i j a n b k,
  regions o l !! i = Some (a, n) -> regions o l !! j = Some (b, k) -> (i < j)%nat -> a + n <= b.
Proof.
  induction 1 as [|[w u] l [Hw _] Hl IH]; intros o i j a n b k Hi Hj Hij; simpl in *; [done|].
  destruct u; simpl in *; [|by eapply IH].
  destruct j as [|j]; [lia|]. simpl in Hj. destruct i as [|i]; simpl in Hi.
  - simplify_eq. apply list_elem_of_lookup_2 in Hj. apply (regions_bounds l Hl) in Hj. lia.
  - eapply IH; [done..|lia].
Qed.

(** ** plug_holes *)

(** A free block of [n] bytes merged with the block after it, and with the
    block before it. *)
Definition glue_r (n : Z) (l : list block) : block * list block :=
  match l with (k, false) :: l' => ((n + k, false), l') | _ => ((n, false), l) end.

Definition glue_l (l : list block) (n : Z) : list block :=
  match last l with
  | Some (j, false) => removelast l ++ [(j + n, false)]
  | _ => l ++ [(n, false)]
  end.

Definition glue (l1 : list block) (n : Z) (l2 : list block) : list block :=
  let '((n, _), l2) := glue_r n l2 in glue_l l1 n ++ l2.

(** Extending the header at [o] over its successor at [o + n]: the first block
    keeps everything but its size. *)
Lemma absorb_next h o p n k u v l :
  0 <= o -> Forall blk_ok ((n, u) :: (k, v) :: l) -> forall e,
  tail (hdrs h) o p ((n, u) :: (k, v) :: l) e ->
  exists h', (h ← mod_hdr o (fun b => {| b with next := o + n + k |}) h;
              mod_hdr (o + n + k) (fun b => {| b with prev := o |}) h) = Some h' /\
    tail (hdrs h') o p ((n + k, u) :: l) e /\
    (forall x, x < o -> hdrs h' !! x = hdrs h !! x) /\
    lfree h' = lfree h /\ mem_size_aligned h' = mem_size_aligned h /\
    used_mem h' = used_mem h /\ max_mem h' = max_mem h.
Proof.
  intros Ho Hok e Ht. apply tail_cons in Ht as [H1 Ht]. apply tail_cons in Ht as [H2 Ht].
  apply Forall_cons in Hok as [[Hn _] Hok]. apply Forall_cons in Hok as [[Hk _] Hok].
  simpl in Hn, Hk. unfold mod_hdr, put_hdr. rewrite H1. simpl.
  match goal with |- context [<[o := ?b]> (hdrs h)] => set (b1 := b) end.
  apply (tail_insert _ o b1) in Ht; [|done|lia].
  destruct (tail_set_prev _ _ _ _ o _ Hok Ht) as (b & Hb & Hset).
  rewrite Hb. simpl. eexists. split; [done|]. simpl.
  split_and!; try done.
  - apply tail_cons. rewrite Z.add_assoc. split; [|exact Hset].
    rewrite lookup_insert_ne, lookup_insert_eq by lia. done.
  - intros x Hx. by rewrite !lookup_insert_ne by lia.
Qed.

Lemma seg_agree m m' l : Forall blk_ok l -> forall o p,
  (forall x, o <= x < o + total l -> m' !! x = m !! x) -> seg m o p l -> seg m' o p l.
Proof.
  induction 1 as [|[n u] l [Hn _] Hl IH]; intros o p Hx; [done|]. simpl in *.
  pose proof (total_nonneg l Hl). rewrite total_cons in Hx. intros [H1 H2].
  split; [rewrite Hx by lia; done|]. apply IH; [intros; apply Hx; lia|done].
Qed.

(** The facts about a free block of [n] bytes between [l1] and [l2] that
    plug_holes starts from. *)
Record hole (h : heap) (l1 : list block) (n : Z) (l2 : list block) : Prop := {
  ho_tail : tail (hdrs h) 0 0 (l1 ++ (n, false) :: l2) (heap_end h);
  ho_ok : Forall blk_ok (l1 ++ (n, false) :: l2);
  ho_before : merged l1;
  ho_after : merged l2;
  ho_lfree : lfree h = first_free 0 (l1 ++ (n, false) :: l2);
  ho_size : MIN_SIZE_ALIGNED <= mem_size_aligned h /\ heap_end h < 2 ^ 32
}.

Definition same_stats (h h' : heap) : Prop :=
  mem_size_aligned h' = mem_size_aligned h /\ used_mem h' = used_mem h /\ max_mem h' = max_mem h.

Lemma blk_ok_add n u k v w : blk_ok (n, u) -> blk_ok (k, v) -> blk_ok (n + k, w).
Proof. unfold blk_ok. simpl. intros [] []. split; [lia|]. rewrite Z.add_mod by lia. dlia. Qed.

Lemma hole_lfree_le h l1 n l2 : hole h l1 n l2 -> lfree h <= total l1.
Proof.
  intros [_ Hok _ _ -> _]. apply Forall_app in Hok as [Hok _].
  rewrite first_free_app. destruct (first_free_bounds l1 Hok 0) as (H1 & H2 & H3).
  destruct (forallb snd l1); simpl; lia.
Qed.

(** The forward part. *)
Lemma plug_forward h l1 n l2 mem nmem :
  hole h l1 n l2 ->
  let m := total l1 in
  hdrs h !! m = Some mem -> hdrs h !! next mem = Some nmem ->
  let '((n', _), l2') := glue_r n l2 in
  exists h', (if negb (m =? next mem) && (used nmem =? 0) && negb (next mem =? heap_end h) then
     let h := if lfree h =? next mem then {| h with lfree := m |} else h in
     h ← mod_hdr m (fun b => {| b with next := next nmem |}) h;
     mod_hdr (next nmem) (fun b => {| b with prev := m |}) h
   else Some h) = Some h' /\
  hole h' l1 n' l2' /\ same_stats h h' /\ match l2' with (_, v) :: _ => v = true | [] => True end.
Proof.
  intros Hh m Hm Hn. pose proof (hole_lfree_le _ _ _ _ Hh) as Hlf. pose proof Hh as [Ht Hok Hb Ha Hl Hs].
  pose proof Ht as Ht0. apply tail_app in Ht as [Hseg Ht]. rewrite Z.add_0_l in Ht. fold m in Ht.
  apply Forall_app in Hok as [Hok1 Hok2]. pose proof (total_nonneg l1 Hok1) as Hm0. fold m in Hm0.
  pose proof Ht as Htc. apply tail_cons in Htc as [Hm' Ht2]. rewrite Hm in Hm'. simplify_eq.
  simpl in Hn. cbn [next].
  assert (16 <= n) as Hn16 by (apply Forall_cons in Hok2 as [[? _] _]; done).
  destruct l2 as [|[k [|]] l2]; simpl glue_r; cbv iota beta.
  - destruct Ht2 as (_ & He & q & Hq). change (total []) with 0 in He. rewrite Z.add_0_r in He.
    rewrite He, Z.eqb_refl, andb_false_r. exists h. by split_and!.
  - apply tail_cons in Ht2 as [Hk _]. rewrite Hn in Hk. simplify_eq. simpl used.
    change (Z.b2z true =? 0) with false. rewrite andb_false_r.
    exists h. by split_and!.
  - pose proof Ht2 as Htk. apply tail_cons in Htk as [Hk Htl]. rewrite Hn in Hk. simplify_eq. simpl used.
    assert (16 <= k) as Hk16.
    { apply Forall_cons in Hok2 as [_ Hok2]. apply Forall_cons in Hok2 as [[? _] _]. done. }
    assert (m + n < heap_end h) as Hlt.
    { destruct Ht2 as (_ & He & _). rewrite total_cons in He.
      apply Forall_cons in Hok2 as [_ Hok2]. apply Forall_cons in Hok2 as [_ Hok2].
      pose proof (total_nonneg l2 Hok2). lia. }
    destruct (Z.eqb_spec m (m + n)); [lia|]. destruct (Z.eqb_spec (m + n) (heap_end h)); [lia|].
    cbn [negb andb Z.b2z Z.eqb next]. destruct (Z.eqb_spec (lfree h) (m + n)); [unfold m in *; lia|].
    destruct (absorb_next h m _ n k false false l2 Hm0 Hok2 _ Ht) as (h' & -> & Ht' & Hlow & Hlf' & Hsz & Hst).
    exists h'. split; [done|]. split; [|split; [by split|]].
    + split.
      * apply tail_app. rewrite Z.add_0_l. fold m. unfold heap_end. rewrite Hsz. split; [|exact Ht'].
        apply (seg_agree (hdrs h)); try done. intros x Hx. apply Hlow. fold m in Hx. lia.
      * apply Forall_app. split; [done|]. apply Forall_cons in Hok2 as [B1 Hok2].
        apply Forall_cons in Hok2 as [B2 Hok2]. constructor; [by eapply blk_ok_add|done].
      * done.
      * unfold merged in *. simpl in Ha. destruct l2 as [|[j v] l2]; [done|]. simpl in *.
        apply andb_true_iff in Ha. tauto.
      * rewrite Hlf', Hl, !first_free_app. done.
      * unfold heap_end. by rewrite Hsz.
    + unfold merged in Ha. destruct l2 as [|[j v] l2]; [done|].
      cbn [map snd nff orb] in Ha. apply andb_true_iff in Ha as [Ha _]. exact Ha.
Qed.

Definition head_used (l : list block) : Prop :=
  match l with (_, v) :: _ => v = true | [] => True end.

(** A hole with used neighbours is a heap. *)
Lemma hole_heap h l1 n l2 :
  hole h l1 n l2 -> head_used l2 -> match last l1 with Some (_, v) => v = true | None => True end ->
  heap_inv h (l1 ++ (n, false) :: l2).
Proof.
  intros [Ht Hok Hb Ha Hl Hs] Hu Hv. split; try done. unfold merged in *.
  rewrite map_app. simpl map. rewrite nff_app. apply andb_true_iff. split.
  - destruct l1 as [|[j w] l1 _] using rev_ind; [done|].
    rewrite last_snoc in Hv. subst w. rewrite map_app in *. simpl in *.
    rewrite <- app_assoc. simpl. rewrite nff_app. by rewrite Hb.
  - destruct l2 as [|[j w] l2]; [done|]. simpl in Hu. subst w. exact Ha.
Qed.

Lemma plug_back h l1 n l2 mem pmem :
  hole h l1 n l2 -> head_used l2 ->
  let m := total l1 in
  hdrs h !! m = Some mem -> hdrs h !! prev mem = Some pmem ->
  exists h', (if negb (prev mem =? m) && (used pmem =? 0) then
      let h := if lfree h =? m then {| h with lfree := prev mem |} else h in
      h ← mod_hdr (prev mem) (fun b => {| b with next := next mem |}) h;
      mod_hdr (next mem) (fun b => {| b with prev := prev mem |}) h
    else Some h) = Some h' /\
    heap_inv h' (glue_l l1 n ++ l2) /\ same_stats h h'.
Proof.
  intros Hh Hu m Hm Hp. pose proof Hh as [Ht Hok Hb Ha Hl Hs].
  pose proof Ht as Htc. apply tail_app in Htc as [Hseg Htc]. apply tail_cons in Htc as [Hm' Htc].
  rewrite Z.add_0_l in Hm', Htc. fold m in Hm', Htc. rewrite Hm in Hm'. simplify_eq. cbn [prev next] in *.
  unfold glue_l. destruct l1 as [|[j v] l0 _] using rev_ind.
  - simpl in *. change (total []) with 0 in m. fold m.
    exists h. split; [done|]. split; [by apply (hole_heap h [])|done].
  - rewrite last_off_snoc, Z.add_0_l in *. rewrite last_snoc in *.
    apply Forall_app in Hok as [Hok1 Hok2]. apply Forall_app in Hok1 as [Hok0 Hokj].
    pose proof Hokj as Hj. apply Forall_cons in Hj as [[Hj16 _] _]. simpl in Hj16.
    assert (m = total l0 + j) as Hmj.
    { unfold m. rewrite total_app. unfold total at 2. simpl. lia. }
    pose proof (total_nonneg l0 Hok0).
    assert (pmem = {| magic := HEAP_MAGIC; used := Z.b2z v; next := total l0 + j;
                      prev := last_off 0 0 l0 |}) as ->.
    { apply seg_app in Hseg as [_ [Hseg _]]. rewrite Z.add_0_l, Hp in Hseg. by simplify_eq. }
    cbn [used]. destruct (Z.eqb_spec (total l0) m); [lia|]. destruct v.
    + change (Z.b2z true =? 0) with false. rewrite andb_false_r. exists h. split; [done|].
      split; [|done]. rewrite <- (app_assoc _ [(n, false)] l2).
      apply hole_heap; [done|done|by rewrite last_snoc].
    + cbn [Z.b2z Z.eqb negb andb].
      assert (lfree h <> m) as Hlf.
      { rewrite Hl, <- app_assoc. simpl. rewrite first_free_app. simpl.
        destruct (first_free_bounds l0 Hok0 0) as (? & _ & _). destruct (forallb snd l0); lia. }
      destruct (Z.eqb_spec (lfree h) m); [done|].
      rewrite <- app_assoc in Ht. apply tail_app in Ht as [Hs0 Ht]. rewrite Z.add_0_l in Ht.
      assert (Forall blk_ok ((j, false) :: (n, false) :: l2)) as Hok3.
      { apply Forall_cons in Hokj as [? _]. by constructor. }
      destruct (absorb_next h (total l0) _ j n false false l2 ltac:(lia) Hok3 _ Ht)
        as (h' & He & Ht' & Hlow & Hlf' & Hsz & Hst).
      replace (total l0 + j + n) with (m + n) in He by lia. rewrite He.
      exists h'. split; [done|]. split; [|by split].
      rewrite removelast_last, <- app_assoc. simpl. split.
      * apply tail_app. rewrite Z.add_0_l. unfold heap_end. rewrite Hsz. split; [|exact Ht'].
        apply (seg_agree (hdrs h)); try done. intros x Hx. apply Hlow. lia.
      * apply Forall_app. split; [done|]. apply Forall_cons in Hok3 as [B1 Hok3].
        apply Forall_cons in Hok3 as [B2 Hok3]. constructor; [by eapply blk_ok_add|done].
      * unfold merged in *. rewrite map_app in *. simpl map in *. rewrite nff_app. rewrite Hb.
        destruct l2 as [|[k w] l2]; [done|]. simpl in Hu. subst w. exact Ha.
      * rewrite Hlf', Hl, <- app_assoc, !first_free_app. simpl. done.
      * unfold heap_end. by rewrite Hsz.
Qed.

Lemma plug_holes_ok h l1 n l2 :
  hole h l1 n l2 ->
  exists h', plug_holes (total l1) h = Some h' /\ heap_inv h' (glue l1 n l2) /\ same_stats h h'.
Proof.
  intros Hh. pose proof Hh as [Ht Hok _ _ _ _].
  apply tail_app in Ht as [Hseg Ht]. rewrite Z.add_0_l in Ht.
  pose proof Ht as Htc. apply tail_cons in Htc as [Hm Htn].
  apply Forall_app in Hok as [Hok1 Hok2]. pose proof (total_nonneg l1 Hok1).
  pose proof Hok2 as Hok3. apply Forall_cons in Hok3 as [[Hn _] Hok3]. simpl in Hn.
  pose proof (total_nonneg l2 Hok3).
  unfold plug_holes. destruct Ht as (_ & He & _). rewrite total_cons in He.
  rewrite (proj2 (Z.leb_le 0 _)), (proj2 (Z.ltb_lt (total l1) _)) by lia. cbn [andb assert].
  set (mem := {| magic := HEAP_MAGIC |}) in Hm.
  assert (next mem = total l1 + n /\ used mem = 0) as [Hnx Hus] by done. clearbody mem.
  rewrite some_bind, Hm, some_bind, Hus. cbn [Z.eqb assert]. rewrite some_bind.
  assert (exists nmem, hdrs h !! next mem = Some nmem) as [nmem Hnm].
  { rewrite Hnx. destruct (tail_set_prev _ _ _ _ 0 _ Hok3 Htn) as (b & Hb & _). by exists b. }
  rewrite Hnm, some_bind.
  pose proof (plug_forward h l1 n l2 _ nmem Hh Hm Hnm) as Hf.
  unfold glue. destruct (glue_r n l2) as [[n' u'] l2'] eqn:Eg.
  destruct Hf as (h1 & Hh1' & Hh1 & Hst1 & Hu). cbv zeta in Hh1'.
  rewrite Hh1', some_bind.
  pose proof Hh1 as [Ht1 Hok1' _ _ _ _]. apply tail_app in Ht1 as [Hseg1 Ht1].
  rewrite Z.add_0_l in Ht1. apply tail_cons in Ht1 as [Hm1 _].
  set (mem1 := {| magic := HEAP_MAGIC |}) in Hm1.
  assert (prev mem1 = last_off 0 0 l1) as Hpv by done. clearbody mem1.
  rewrite Hm1, some_bind.
  assert (exists pmem, hdrs h1 !! prev mem1 = Some pmem) as [pmem Hpm].
  { rewrite Hpv. destruct l1 as [|[j v] l0 _] using rev_ind.
    - simpl. change (total []) with 0 in Hm1. by eexists.
    - rewrite last_off_snoc. apply seg_app in Hseg1 as [_ [Hseg1 _]]. by eexists. }
  rewrite Hpm, some_bind.
  destruct (plug_back h1 l1 n' l2' _ pmem Hh1 Hu Hm1 Hpm) as (h2 & E2 & Hinv & Hst2).
  exists h2. split; [exact E2|]. split; [done|].
  destruct Hst1 as (? & ? & ?), Hst2 as (? & ? & ?). split_and!; congruence.
Qed.

(** ** rt_free *)
Lemma total_mod4 l : Forall blk_ok l -> total l mod 4 = 0.
Proof.
  induction 1 as [|[n u] l [_ H] _ IH]; [done|]. rewrite total_cons. simpl in H. dlia.
Qed.

Lemma land3 z : Z.land z (RT_ALIGN_SIZE - 1) = z mod 4.
Proof. change (RT_ALIGN_SIZE - 1) with (Z.ones 2). by rewrite Z.land_ones by lia. Qed.

Lemma total_ge l : Forall blk_ok l -> 16 * lenZ l <= total l.
Proof.
  induction 1 as [|[n u] l [H _] _ IH]; [done|]. rewrite total_cons. unfold lenZ in *. simpl in *. lia.
Qed.

(** A region in use is a block. *)
Lemma regions_block l : forall o a n,
  (a, n) ∈ regions o l -> exists l1 l2, l = l1 ++ (n, true) :: l2 /\ a = o + total l1.
Proof.
  induction l as [|[k u] l IH]; intros o a n; simpl; [by intros ?%elem_of_nil|].
  intros Hin. apply elem_of_app in Hin as [Hin|Hin].
  - destruct u; [|by apply elem_of_nil in Hin]. apply list_elem_of_singleton in Hin. simplify_eq.
    exists [], l. split; [done|]. unfold total. simpl. lia.
  - apply IH in Hin as (l1 & l2 & -> & ->). exists ((k, u) :: l1), l2. split; [done|].
    rewrite total_cons. lia.
Qed.

Lemma regions_glue l1 n l2 :
  regions 0 (glue l1 n l2) = regions 0 (l1 ++ (n, false) :: l2).
Proof.
  unfold glue. destruct (glue_r n l2) as [[n' u] l2'] eqn:E.
  assert (forall o, regions (o + n') l2' = regions (o + n) l2) as H.
  { intros o. unfold glue_r in E. destruct l2 as [|[k [|]] l2]; simplify_eq; try done.
    simpl. by rewrite Z.add_assoc. }
  unfold glue_l. destruct l1 as [|[j v] l0 _] using rev_ind.
  - simpl. by apply (H 0).
  - rewrite last_snoc. destruct v.
    + rewrite <- !app_assoc, !regions_app, !total_singleton. simpl. do 2 f_equal. apply H.
    + rewrite removelast_last, <- !app_assoc, !regions_app, !total_singleton. simpl. f_equal.
      rewrite !Z.add_assoc. apply H.
Qed.

Lemma total_glue l1 n l2 u : total (glue l1 n l2) = total (l1 ++ (n, u) :: l2).
Proof.
  unfold glue. destruct (glue_r n l2) as [[n' u'] l2'] eqn:E.
  assert (n' + total l2' = n + total l2) as H.
  { unfold glue_r in E. destruct l2 as [|[k [|]] l2]; simplify_eq; try done. rewrite total_cons. lia. }
  unfold glue_l. destruct l1 as [|[j v] l0 _] using rev_ind.
  - simpl. rewrite !total_cons. lia.
  - rewrite last_snoc. destruct v; rewrite ?removelast_last, !total_app, !total_cons, ?total_singleton;
      change (total []) with 0; lia.
Qed.

Lemma regions_take l1 n l2 :
  regions 0 (l1 ++ (n, true) :: l2) ≡ₚ
  (total l1, n) :: regions 0 (l1 ++ (n, false) :: l2).
Proof.
  rewrite !regions_app. simpl. rewrite Permutation_middle. done.
Qed.

Lemma rt_free_ok h l1 n l2 :
  heap_inv h (l1 ++ (n, true) :: l2) ->
  exists h', rt_free (Some (total l1 + SIZEOF_STRUCT_MEM)) h = Some h' /\
    heap_inv h' (glue l1 n l2) /\ used_mem h' = u32 (used_mem h - n).
Proof.
  intros [Ht Hok Hmg Hlf Hsz]. pose proof Hok as Hok0. apply Forall_app in Hok as [Hok1 Hok2].
  pose proof (total_nonneg l1 Hok1). pose proof (total_mod4 l1 Hok1).
  pose proof Hok2 as Hok3. apply Forall_cons in Hok3 as [[Hn Hn4] Hok3]. simpl in Hn, Hn4.
  pose proof (total_nonneg l2 Hok3).
  apply tail_app in Ht as [Hseg Ht]. rewrite Z.add_0_l in Ht.
  pose proof Ht as (_ & He & _). rewrite total_cons in He.
  apply tail_cons in Ht as [Hm Htl].
  unfold rt_free. rewrite land3. unfold SIZEOF_STRUCT_MEM.
  replace ((total l1 + 12) mod 4) with 0 by dlia. change (0 =? 0) with true. cbn [assert].
  rewrite some_bind, (proj2 (Z.leb_le 0 _)), (proj2 (Z.ltb_lt (total l1 + 12) _)) by lia.
  cbn [andb assert]. rewrite some_bind. rewrite Z.add_simpl_r.
  rewrite Hm, some_bind. cbn [used magic Z.b2z Z.eqb negb assert]. rewrite !some_bind.
  set (h1 := stat_sub _ _).
  assert (hole h1 l1 n l2) as Hh.
  { assert (hdrs h1 = <[total l1 := {| magic := HEAP_MAGIC; used := 0; next := total l1 + n;
      prev := last_off 0 0 l1 |}]> (hdrs h) /\ mem_size_aligned h1 = mem_size_aligned h) as [Hh1 Hs1].
    { unfold h1, stat_sub, put_hdr. simpl. by destruct (_ <? _). }
    split.
    - apply tail_app. rewrite Z.add_0_l, Hh1. unfold heap_end. rewrite Hs1. split.
      + apply seg_insert; [done|lia|done].
      + apply tail_cons. rewrite lookup_insert_eq. split; [done|].
        apply tail_insert; [done|lia|done].
    - apply Forall_app. split; [done|]. by constructor.
    - unfold merged in *. rewrite map_app in Hmg. by apply nff_prefix in Hmg.
    - unfold merged in *. rewrite map_app in Hmg. apply nff_suffix in Hmg. simpl map in Hmg.
      by rewrite nff_true in Hmg.
    - transitivity (if total l1 <? lfree h then total l1 else lfree h).
      { unfold h1, stat_sub, put_hdr. simpl. by destruct (_ <? _). }
      rewrite Hlf, !first_free_app, !Z.add_0_l. simpl.
      destruct (first_free_bounds l1 Hok1 0) as (_ & Hlt & _).
      destruct (first_free_bounds l2 Hok3 (total l1 + n)) as (? & _ & _).
      destruct (forallb snd l1) eqn:Ef; [case_cmp; lia|].
      specialize (Hlt eq_refl). case_cmp; lia.
    - unfold heap_end in *. by rewrite Hs1. }
  destruct (plug_holes_ok h1 l1 n l2 Hh) as (h' & -> & Hinv & (_ & Hu & _)).
  exists h'. split; [done|]. split; [done|]. rewrite Hu. unfold h1, stat_sub, put_hdr. simpl.
  destruct (_ <? _); simpl; f_equal; lia.
Qed.

(** ** rt_malloc *)
Lemma advance_lfree_ok l2 : forall l1 h fuel,
  tail (hdrs h) 0 0 (l1 ++ l2) (heap_end h) -> Forall blk_ok (l1 ++ l2) ->
  lfree h = total l1 -> (length l2 < fuel)%nat ->
  advance_lfree fuel h = Some {| h with lfree := first_free (total l1) l2 |}.
Proof.
  induction l2 as [|[n u] l2 IH]; intros l1 h fuel Ht Hok Hlf Hf; destruct fuel as [|fuel]; simpl in Hf;
    try lia; cbn [advance_lfree].
  - rewrite app_nil_r in *. destruct Ht as (_ & He & q & Hq). rewrite Z.add_0_l in He.
    rewrite Hlf, He, Hq. cbn [mbind option_bind]. rewrite Z.eqb_refl, andb_false_r. simpl.
    rewrite <- He, <- Hlf. by destruct h.
  - pose proof Ht as Ht0. apply tail_app in Ht as [_ Ht]. rewrite Z.add_0_l in Ht.
    apply tail_cons in Ht as [Hm Ht]. rewrite Hlf, Hm. cbn [mbind option_bind used].
    apply Forall_app in Hok as [Hok1 Hok2]. pose proof Hok2 as Hok3.
    apply Forall_cons in Hok3 as [[Hn _] Hok3]. simpl in Hn. pose proof (total_nonneg l2 Hok3).
    destruct Ht as (_ & He & _).
    destruct u; cbn [Z.b2z Z.eqb negb andb first_free].
    + destruct (Z.eqb_spec (total l1) (heap_end h)); [lia|]. cbn [negb].
      rewrite (IH (l1 ++ [(n, true)])).
      * simpl. do 2 f_equal. rewrite total_app. unfold total at 2. simpl. f_equal. lia.
      * rewrite <- app_assoc. exact Ht0.
      * rewrite <- app_assoc. apply Forall_app. by split.
      * simpl. rewrite total_app. unfold total at 3. simpl. lia.
      * lia.
    + rewrite <- Hlf. by destruct h.
Qed.

(** The header updates of [take_block]. *)
Lemma carve_ok h l1 n l2 size :
  heap_inv h (l1 ++ (n, false) :: l2) ->
  size mod 4 = 0 -> MIN_SIZE_ALIGNED <= size <= n - SIZEOF_STRUCT_MEM ->
  let ptr := total l1 in
  let mem := {| magic := HEAP_MAGIC; used := 0; next := ptr + n; prev := last_off 0 0 l1 |} in
  exists h' h'', (if size + SIZEOF_STRUCT_MEM + MIN_SIZE_ALIGNED <=?
          next mem - (ptr + SIZEOF_STRUCT_MEM) then
         let ptr2 := ptr + SIZEOF_STRUCT_MEM + size in
         let mem2 := {| magic := HEAP_MAGIC; used := 0; next := next mem; prev := ptr |} in
         let h := put_hdr ptr2 mem2 h in
         h ← mod_hdr ptr (fun b => {| b with next := ptr2; used := 1 |}) h;
         h ← (if negb (next mem2 =? mem_size_aligned h + SIZEOF_STRUCT_MEM)
              then mod_hdr (next mem2) (fun b => {| b with prev := ptr2 |}) h else Some h);
         Some (stat_add (size + SIZEOF_STRUCT_MEM) h)
       else
         h ← mod_hdr ptr (fun b => {| b with used := 1 |}) h;
         Some (stat_add (next mem - ptr) h)) = Some h' /\
    mod_hdr ptr (fun b => {| b with magic := HEAP_MAGIC |}) h' = Some h'' /\
    tail (hdrs h'') 0 0 (l1 ++ carve size n ++ l2) (heap_end h'') /\
    Forall blk_ok (l1 ++ carve size n ++ l2) /\ merged (l1 ++ carve size n ++ l2) /\
    lfree h'' = lfree h /\ mem_size_aligned h'' = mem_size_aligned h /\
    used_mem h'' = u32 (used_mem h + taken (carve size n)).
Proof.
  intros [Ht Hok Hmg Hlf Hsz] H4 Hsize ptr mem.
  pose proof Hok as Hok0. apply Forall_app in Hok as [Hok1 Hok2].
  pose proof (total_nonneg l1 Hok1) as Hp0. fold ptr in Hp0.
  pose proof Hok2 as Hok3. apply Forall_cons in Hok3 as [[Hn Hn4] Hok3]. simpl in Hn, Hn4.
  pose proof (total_nonneg l2 Hok3) as Ht2.
  apply tail_app in Ht as [Hseg Ht]. rewrite Z.add_0_l in Ht. fold ptr in Ht.
  apply tail_cons in Ht as [Hm Htl]. pose proof Htl as (_ & He & q & Hq).
  change (next mem) with (ptr + n).
  replace (ptr + n - (ptr + SIZEOF_STRUCT_MEM)) with (n - SIZEOF_STRUCT_MEM) by lia.
  unfold merged in *. rewrite map_app in Hmg. simpl map in Hmg.
  unfold carve, SIZEOF_STRUCT_MEM, MIN_SIZE_ALIGNED in *.
  destruct (Z.leb_spec (size + 12 + 12) (n - 12)) as [Hsplit|Hfit].
  - set (ptr2 := ptr + 12 + size). set (mem2 := {| magic := HEAP_MAGIC; used := 0; next := ptr + n; prev := ptr |}).
    cbv zeta. set (h1 := put_hdr ptr2 mem2 h).
    assert (mod_hdr ptr (fun b => {| b with next := ptr2; used := 1 |}) h1 =
      Some (put_hdr ptr {| magic := HEAP_MAGIC; used := 1; next := ptr2; prev := last_off 0 0 l1 |} h1)) as ->.
    { unfold mod_hdr, h1, put_hdr. simpl. rewrite lookup_insert_ne, Hm by (unfold ptr2; lia). done. }
    rewrite some_bind. set (b2 := {| magic := HEAP_MAGIC; used := 1; next := ptr2; prev := last_off 0 0 l1 |}).
    set (h2 := put_hdr ptr b2 h1).
    assert (tail (hdrs h2) (ptr + n) ptr l2 (heap_end h)) as Htl2.
    { apply tail_insert; [done|lia|]. apply tail_insert; [done|unfold ptr2; lia|done]. }
    assert (exists h3, (if negb (next mem2 =? mem_size_aligned h2 + 12)
              then mod_hdr (next mem2) (fun b => {| b with prev := ptr2 |}) h2 else Some h2) = Some h3 /\
            tail (hdrs h3) (ptr + n) ptr2 l2 (heap_end h) /\
            (forall x, x < ptr + n -> hdrs h3 !! x = hdrs h2 !! x) /\
            lfree h3 = lfree h /\ mem_size_aligned h3 = mem_size_aligned h /\ used_mem h3 = used_mem h)
      as (h3 & -> & Ht3 & Hlow & Hlf3 & Hsz3 & Hu3).
    { change (mem_size_aligned h2 + 12) with (heap_end h). cbn [next mem2].
      destruct (Z.eqb_spec (ptr + n) (heap_end h)) as [Heq|Hne].
      - exists h2. cbn [negb]. split_and!; try done.
        assert (l2 = []) as ->; [|by destruct Htl2 as (_ & ? & ?); split_and!].
        pose proof (total_ge l2 Hok3). destruct l2; [done|]. unfold lenZ in *. simpl in *. lia.
      - cbn [negb]. destruct (tail_set_prev _ _ _ _ ptr2 _ Hok3 Htl2) as (b & Hb & Hset).
        unfold mod_hdr. rewrite Hb. simpl. eexists. split; [done|]. split; [exact Hset|].
        split; [|by split]. intros x Hx. simpl. by rewrite lookup_insert_ne by lia. }
    rewrite some_bind. eexists (stat_add (size + 12) h3), _. split; [done|].
    assert (hdrs h3 !! ptr = Some b2) as Hb2.
    { rewrite Hlow by lia. unfold h2, put_hdr. simpl. by rewrite lookup_insert_eq. }
    split; [unfold mod_hdr, stat_add; simpl; by rewrite Hb2|]. simpl.
    split_and!; try done.
    + unfold heap_end. simpl. rewrite Hsz3. fold (heap_end h).
      rewrite (insert_id (hdrs h3) ptr) by done.
      apply tail_app. rewrite Z.add_0_l. fold ptr. split.
      * apply (seg_agree (hdrs h)); [done| |done]. rewrite Z.add_0_l. intros x Hx. fold ptr in Hx.
        rewrite Hlow by lia. unfold h2, h1, put_hdr. simpl.
        by rewrite !lookup_insert_ne by (unfold ptr2; lia).
      * apply tail_cons. split; [rewrite Hb2; unfold b2, ptr2; do 2 f_equal; lia|].
        replace (ptr + (12 + size)) with ptr2 by (unfold ptr2; lia).
        apply tail_cons. replace (ptr2 + (n - 12 - size)) with (ptr + n) by (unfold ptr2; lia).
        split; [|exact Ht3]. rewrite Hlow by (unfold ptr2; lia). unfold h2, h1, put_hdr. simpl.
        rewrite lookup_insert_ne, lookup_insert_eq by (unfold ptr2; lia). done.
    + apply Forall_app. split; [done|]. constructor; [|constructor; [|done]];
        unfold blk_ok; simpl; (split; [lia|dlia]).
    + rewrite map_app. simpl map. rewrite nff_app in *. apply andb_true_iff in Hmg as [Hm1 Hm2].
      rewrite nff_snoc_true, nff_true, Hm2, andb_true_r. by apply nff_prefix in Hm1.
    + unfold taken. simpl. rewrite Hu3. f_equal. lia.
  - unfold mod_hdr at 1. rewrite Hm, some_bind.
    eexists (stat_add (ptr + n - ptr) _), _. split; [done|].
    unfold mod_hdr, stat_add, put_hdr. simpl. rewrite lookup_insert_eq. simpl. split; [done|].
    rewrite insert_insert_eq. split_and!; try done.
    + unfold heap_end. simpl. fold (heap_end h). apply tail_app. rewrite Z.add_0_l. fold ptr. split.
      * apply seg_insert; [done|unfold ptr; lia|done].
      * apply tail_cons. rewrite lookup_insert_eq. split; [done|].
        apply tail_insert; [done|lia|done].
    + apply Forall_app. split; [done|]. by constructor.
    + rewrite map_app. simpl map. rewrite nff_app in *. apply andb_true_iff in Hmg as [Hm1 Hm2].
      rewrite nff_snoc_true, nff_true. apply nff_prefix in Hm1. rewrite Hm1. simpl.
      by apply (nff_suffix [false]) in Hm2.
    + unfold taken. simpl. f_equal. lia.
Qed.

Lemma take_block_ok h l1 n l2 size :
  heap_inv h (l1 ++ (n, false) :: l2) ->
  size mod 4 = 0 -> MIN_SIZE_ALIGNED <= size <= n - SIZEOF_STRUCT_MEM ->
  let ptr := total l1 in
  let mem := {| magic := HEAP_MAGIC; used := 0; next := ptr + n; prev := last_off 0 0 l1 |} in
  exists h', take_block ptr size mem h = Some (Some (ptr + SIZEOF_STRUCT_MEM), h') /\
    heap_inv h' (l1 ++ carve size n ++ l2) /\ mem_size_aligned h' = mem_size_aligned h /\
    used_mem h' = u32 (used_mem h + taken (carve size n)).
Proof.
  intros Hinv H4 Hsize ptr mem. pose proof Hinv as [Ht Hok Hmg Hlf Hsz].
  destruct (carve_ok h l1 n l2 size Hinv H4 Hsize) as (h1 & h2 & E1 & E2 & Ht2 & Hok2 & Hmg2 & Hlf2 & Hsz2 & Hu2).
  unfold take_block. fold ptr mem in E1. cbv zeta in E1 |- *. rewrite E1, some_bind. fold ptr in E2. rewrite E2, some_bind.
  apply Forall_app in Hok as [Hok1 Hokn]. pose proof (total_nonneg l1 Hok1) as Hp0. fold ptr in Hp0.
  pose proof (total_mod4 l1 Hok1) as Hp4. fold ptr in Hp4.
  apply Forall_cons in Hokn as [[Hn _] Hokl]. pose proof (total_nonneg l2 Hokl). simpl in Hn.
  assert (ptr + n <= heap_end h) as Hend.
  { destruct Ht as (_ & He & _). rewrite total_app, total_cons in He. unfold ptr. lia. }
  assert (heap_end h2 = heap_end h) as He2 by (unfold heap_end; by rewrite Hsz2).
  assert (Forall blk_ok (carve size n ++ l2)) as Hokc by (apply Forall_app in Hok2; tauto).
  set (l' := l1 ++ carve size n ++ l2) in *.
  assert (exists h3, (if ptr =? lfree h2 then
         h ← advance_lfree (Z.to_nat (heap_end h2)) h2;
         b ← hdrs h !! lfree h;
         _ ← assert ((lfree h =? heap_end h) || (used b =? 0));
         Some h
       else Some h2) = Some h3 /\ heap_inv h3 l' /\ mem_size_aligned h3 = mem_size_aligned h /\
         used_mem h3 = used_mem h2)
    as (h3 & -> & Hinv3 & Hsz3 & Hu3).
  { destruct (Z.eqb_spec ptr (lfree h2)) as [Heq|Hne].
    - rewrite (advance_lfree_ok (carve size n ++ l2) l1); [|done|done|done|].
      2: { pose proof (total_ge _ Hokc) as Hge. destruct Ht2 as (_ & He & _).
           rewrite Z.add_0_l in He. unfold l' in He. rewrite total_app in He. fold ptr in He.
           unfold lenZ in Hge. unfold heap_end, SIZEOF_STRUCT_MEM in *. lia. }
      rewrite some_bind. set (h3 := {| h2 with lfree := _ |}).
      assert (heap_inv h3 l') as Hinv3.
      { split; try done.
        - change (lfree h3) with (first_free ptr (carve size n ++ l2)). unfold l'.
          rewrite (first_free_app l1), (first_free_here l1 n l2), Z.add_0_l; [done|done|].
          exact (eq_trans Heq (eq_trans Hlf2 Hlf)).
        - change (mem_size_aligned h3) with (mem_size_aligned h2). rewrite Hsz2.
          change (heap_end h3) with (heap_end h2). by rewrite He2. }
      pose proof Hinv3 as [Ht3 _ _ Hlf3 _].
      destruct (first_free_hdr _ _ _ _ _ Ht3) as (b & Hlb & Hb).
      rewrite Hlf3, Hlb.
      rewrite some_bind, Hb. simpl. by exists h3.
    - exists h2. split; [done|]. split; [|done]. split; try done.
      + rewrite Hlf2, Hlf. unfold l'. rewrite Hlf2, Hlf in Hne. rewrite !first_free_app in *.
        destruct (forallb snd l1); [|done]. exfalso. by apply Hne.
      + rewrite Hsz2, He2. done. }
  rewrite some_bind.
  assert (heap_end h3 = heap_end h) as He3 by (unfold heap_end; by rewrite Hsz3).
  rewrite He3, land3, Hp4. unfold SIZEOF_STRUCT_MEM in *.
  rewrite (proj2 (Z.leb_le (ptr + 12 + size) _)) by lia. cbn [assert].
  change RT_ALIGN_SIZE with 4. replace ((ptr + 12) mod 4) with 0 by dlia.
  simpl. exists h3. split; [done|]. split; [done|]. by rewrite Hsz3, Hu3, Hu2.
Qed.

(** The search returns what first fit returns. *)
Lemma malloc_loop_ok size l2 : forall l1 h fuel,
  heap_inv h (l1 ++ l2) -> size mod 4 = 0 -> MIN_SIZE_ALIGNED <= size ->
  size <= mem_size_aligned h -> (length l2 < fuel)%nat ->
  match first_fit size (mem_size_aligned h - size) (total l1) l2 with
  | Some (a, l2') => exists h',
      malloc_loop fuel (total l1) size h = Some (Some (a + SIZEOF_STRUCT_MEM), h') /\
      heap_inv h' (l1 ++ l2') /\ mem_size_aligned h' = mem_size_aligned h /\
      used_mem h' = u32 (used_mem h + (taken l2' - taken l2))
  | None => malloc_loop fuel (total l1) size h = Some (None, h)
  end.
Proof.
  induction l2 as [|[n u] l2 IH]; intros l1 h fuel Hinv H4 Hmin Hle Hf;
    assert (u32 (mem_size_aligned h - size) = mem_size_aligned h - size) as Hlim
      by (destruct Hinv as [_ _ _ _ [? ?]];
          apply wrap_id; unfold fits, heap_end, MIN_SIZE_ALIGNED, SIZEOF_STRUCT_MEM in *; lia);
    destruct fuel as [|fuel]; simpl in Hf; try lia; cbn [first_fit malloc_loop]; rewrite Hlim.
  - destruct Hinv as [(_ & He & _) _ _ _ _]. rewrite app_nil_r in He.
    unfold heap_end, MIN_SIZE_ALIGNED, SIZEOF_STRUCT_MEM in *.
    destruct (Z.ltb_spec (total l1) (mem_size_aligned h - size)); [lia|done].
  - destruct (total l1 <? mem_size_aligned h - size); [|done].
    pose proof Hinv as [Ht _ _ _ _]. apply tail_app in Ht as [_ Ht]. rewrite Z.add_0_l in Ht.
    apply tail_cons in Ht as [Hm _]. rewrite Hm, some_bind. cbn [used next].
    replace (total l1 + n - (total l1 + SIZEOF_STRUCT_MEM)) with (n - SIZEOF_STRUCT_MEM) by lia.
    destruct (negb u && (size <=? n - SIZEOF_STRUCT_MEM)) eqn:E.
    + destruct u; [done|]. simpl in E. apply Z.leb_le in E. cbn [Z.b2z Z.eqb andb].
      rewrite (proj2 (Z.leb_le _ _) E).
      destruct (take_block_ok h l1 n l2 size Hinv H4 ltac:(lia)) as (h' & Hr & Hi & Hs & Hu).
      exists h'. split_and!; try done. rewrite Hu. f_equal.
      rewrite taken_app, taken_cons. lia.
    + replace ((Z.b2z u =? 0) && (size <=? n - SIZEOF_STRUCT_MEM)) with false by (by destruct u).
      specialize (IH (l1 ++ [(n, u)]) h fuel). rewrite total_app, total_singleton, <- app_assoc in IH.
      specialize (IH Hinv H4 Hmin Hle ltac:(lia)).
      destruct (first_fit size _ (total l1 + n) l2) as [[a l2']|]; simpl; [|done].
      destruct IH as (h' & Hr & Hi & Hs & Hu). exists h'. rewrite <- app_assoc in Hi.
      split_and!; try done. rewrite Hu. f_equal.
      rewrite !taken_cons. lia.
Qed.

(** Searching from the first free block is searching from the first block. *)
Lemma first_fit_prefix size limit l2 l1 : Forall blk_ok l1 -> forallb snd l1 = true -> forall o,
  first_fit size limit o (l1 ++ l2) =
  '(a, l2') ← first_fit size limit (o + total l1) l2; Some (a, l1 ++ l2').
Proof.
  assert (forall o, limit <= o -> forall l, first_fit size limit o l = None) as Hnone.
  { intros o Ho [|[n u] l]; [done|]. simpl. case_cmp; [lia|done]. }
  induction 1 as [|[n u] l1 [Hn _] Hl IH]; intros Hu o; simpl in *.
  - change (total []) with 0. rewrite Z.add_0_r. by destruct (first_fit _ _ _ _) as [[]|].
  - destruct u; [|done]. simpl in *. rewrite total_cons, Z.add_assoc. pose proof (total_nonneg l1 Hl).
    case_cmp; [|rewrite Hnone by lia; done]. rewrite (IH Hu).
    by destruct (first_fit _ _ _ _) as [[]|].
Qed.

Lemma first_fit_some size limit l : Forall blk_ok l -> forall o a l',
  first_fit size limit o l = Some (a, l') ->
  exists l1 n l2, l = l1 ++ (n, false) :: l2 /\ a = o + total l1 /\
    l' = l1 ++ carve size n ++ l2 /\ size <= n - SIZEOF_STRUCT_MEM.
Proof.
  induction 1 as [|[n u] l [Hn _] Hl IH]; intros o a l'; [done|]. simpl.
  case_cmp; [|done]. destruct (negb u && _) eqn:E.
  - intros. simplify_eq. exists [], n, l. destruct u; [done|]. apply Z.leb_le in E.
    change (total []) with 0. split_and!; try done. lia.
  - destruct (first_fit _ _ _ _) as [[b k]|] eqn:Ef; [|done]. simpl. intros. simplify_eq.
    destruct (IH _ _ _ Ef) as (l1 & m & l2 & -> & -> & -> & Hm).
    exists ((n, u) :: l1), m, l2. rewrite total_cons. split_and!; try done. lia.
Qed.

Lemma first_free_split l : exists l1 l2, l = l1 ++ l2 /\ forallb snd l1 = true /\
  first_free 0 l = total l1.
Proof.
  assert (forall o, exists l1 l2, l = l1 ++ l2 /\ forallb snd l1 = true /\
    first_free o l = o + total l1) as H; [|destruct (H 0) as (? & ? & ?); eauto].
  induction l as [|[n u] l IH]; intros o.
  - exists [], []. split_and!; [done..|]. change (total []) with 0. simpl. lia.
  - destruct u; simpl.
    + destruct (IH (o + n)) as (l1 & l2 & -> & Hl & ->). exists ((n, true) :: l1), l2.
      split_and!; try done. rewrite total_cons. lia.
    + exists [], ((n, false) :: l). split_and!; [done..|]. change (total []) with 0. lia.
Qed.

(** The size a request is served with. *)
Definition request (size : Z) : Z := Z.max MIN_SIZE_ALIGNED (4 * ((size + 3) / 4)).

(** Masking the two low bits rounds down to a multiple of 4. *)
Lemma mask_4 y : fits 32 y -> Z.land y (u32 (Z.lnot (4 - 1))) = 4 * (y / 4).
Proof.
  unfold fits. intros Hy. change (u32 (Z.lnot (4 - 1))) with (Z.ldiff (Z.ones 32) (Z.ones 2)).
  rewrite <- (Z.mul_comm (y / 4)). change 4 with (2 ^ 2).
  rewrite <- (Z.shiftl_mul_pow2 _ 2), <- (Z.shiftr_div_pow2 _ 2) by lia.
  rewrite <- Z.ldiff_ones_r by lia. apply Z.bits_inj'. intros i Hi.
  rewrite Z.land_spec, !Z.ldiff_spec. destruct (Z.ltb_spec i 32).
  - rewrite (Z.ones_spec_low 32) by lia. done.
  - replace (Z.testbit y i) with false; [done|]. symmetry.
    destruct (Z.eq_dec y 0) as [->|]; [apply Z.bits_0|].
    apply Z.bits_above_log2; [lia|].
    apply Z.lt_le_trans with 32; [apply Z.log2_lt_pow2; lia|done].
Qed.

Lemma RT_ALIGN_4 x : 0 <= x <= 2 ^ 32 - 4 -> RT_ALIGN x RT_ALIGN_SIZE = 4 * ((x + 3) / 4).
Proof.
  intros Hx. unfold RT_ALIGN, RT_ALIGN_SIZE. replace (x + 4 - 1) with (x + 3) by lia.
  rewrite (wrap_id 32) by (unfold fits; lia). apply mask_4. unfold fits. lia.
Qed.

Lemma RT_ALIGN_DOWN_4 x : fits 32 x -> RT_ALIGN_DOWN x RT_ALIGN_SIZE = 4 * (x / 4).
Proof. apply mask_4. Qed.

Definition stats_ok (h : heap) (l : list block) : Prop := used_mem h = taken l.

Lemma taken_bounds l : Forall blk_ok l -> 0 <= taken l <= total l.
Proof.
  induction 1 as [|[n u] l [Hn _] Hl IH]; [done|]. unfold taken, total in *. simpl in *.
  destruct u; lia.
Qed.

Lemma heap_total h l : heap_inv h l -> 0 <= taken l <= heap_end h /\ heap_end h < 2 ^ 32.
Proof.
  intros [(_ & He & _) Hok _ _ Hs]. pose proof (taken_bounds l Hok). lia.
Qed.

(** The data of the heap is served by first fit. *)
Definition heap_malloc (size msa : Z) (l : list block) : option (Z * list block) :=
  if size =? 0 then None else first_fit (request size) (msa - request size) 0 l.

Lemma rt_malloc_ok h l size :
  heap_inv h l -> stats_ok h l -> 0 <= size <= 2 ^ 32 - 4 ->
  match heap_malloc size (mem_size_aligned h) l with
  | Some (a, l') => exists h', rt_malloc size h = Some (Some (a + SIZEOF_STRUCT_MEM), h') /\
      heap_inv h' l' /\ stats_ok h' l' /\ mem_size_aligned h' = mem_size_aligned h
  | None => rt_malloc size h = Some (None, h)
  end.
Proof.
  intros Hinv Hst Hs. unfold heap_malloc, rt_malloc. destruct (Z.eqb_spec size 0); [done|].
  rewrite RT_ALIGN_4 by done. set (sz := 4 * ((size + 3) / 4)).
  assert (4 <= sz /\ sz mod 4 = 0) as [Hsz Hsz4] by (unfold sz; split; dlia).
  assert ((if sz <? MIN_SIZE_ALIGNED then MIN_SIZE_ALIGNED else sz) = request size) as ->.
  { unfold request. fold sz. case_cmp; lia. }
  assert (request size mod 4 = 0 /\ MIN_SIZE_ALIGNED <= request size /\ sz <= request size) as (H4 & Hmin & Hge).
  { unfold request. fold sz. unfold MIN_SIZE_ALIGNED.
    destruct (Z.max_spec 12 sz) as [[? ->]|[? ->]]; split_and!; try done; lia. }
  pose proof Hinv as [Ht Hok _ Hlf _]. destruct (first_free_split l) as (l1 & l2 & -> & Hu & Hff).
  pose proof Hok as Hok0. apply Forall_app in Hok as [Hok1 Hok2].
  rewrite first_fit_prefix, Z.add_0_l by done. rewrite Hlf, Hff.
  destruct (Z.ltb_spec (mem_size_aligned h) sz).
  - assert (first_fit (request size) (mem_size_aligned h - request size) (total l1) l2 = None) as ->; [|done].
    pose proof (total_nonneg l1 Hok1). destruct l2 as [|[k u] l2]; [done|]. simpl. case_cmp; [lia|done].
  - pose proof (malloc_loop_ok (request size) l2 l1 h (Z.to_nat (heap_end h)) Hinv H4 Hmin) as Hml.
    specialize (Hml ltac:(destruct Hinv as [_ _ _ _ [? ?]]; unfold request, MIN_SIZE_ALIGNED in *; fold sz; lia)).
    destruct Ht as (_ & He & _). rewrite Z.add_0_l, total_app in He.
    assert (length l2 < Z.to_nat (heap_end h))%nat as Hfu.
    { pose proof (total_ge l2 Hok2). pose proof (total_nonneg l1 Hok1).
      destruct Hinv as [_ _ _ _ [? ?]]. unfold heap_end, SIZEOF_STRUCT_MEM, lenZ, block in *. lia. }
    specialize (Hml Hfu).
    destruct (first_fit _ _ (total l1) l2) as [[a l2']|]; simpl; [|done].
    destruct Hml as (h' & Hr & Hi & Hm & Hus). exists h'. split_and!; try done.
    unfold stats_ok in *. rewrite Hus, Hst, !taken_app.
    replace (taken l1 + taken l2 + (taken l2' - taken l2)) with (taken (l1 ++ l2'))
      by (rewrite taken_app; lia).
    rewrite <- taken_app. apply wrap_id. unfold fits. pose proof (heap_total _ _ Hi). lia.
Qed.

(** ** Initialisation *)
(** After initialisation the heap is one free block. *)
Lemma rt_system_heap_init_ok b e h :
  0 <= b <= 2 ^ 32 - 4 -> fits 32 e -> b + 3 + 36 <= e - 3 -> used_mem h = 0 ->
  let h' := rt_system_heap_init b e h in
  mem_size_aligned h' = 4 * (e / 4) - 4 * ((b + 3) / 4) - 24 /\
  heap_inv h' [(heap_end h', false)] /\ stats_ok h' [(heap_end h', false)].
Proof.
  intros Hb He Hbe Hu. unfold fits in He. unfold rt_system_heap_init.
  rewrite RT_ALIGN_4, RT_ALIGN_DOWN_4 by done. unfold SIZEOF_STRUCT_MEM.
  set (b' := 4 * ((b + 3) / 4)). set (e' := 4 * (e / 4)).
  assert (b <= b' <= b + 3 /\ b' mod 4 = 0 /\ e - 3 <= e' <= e /\ e' mod 4 = 0) as (? & ? & ? & ?)
    by (unfold b', e'; split_and!; dlia).
  rewrite (proj2 (Z.ltb_lt _ _)), (proj2 (Z.leb_le _ _)) by lia. cbn [andb]. cbv zeta.
  set (e0 := e' - b' - 2 * 12 + 12). set (h' := put_hdr e0 _ _).
  assert (mem_size_aligned h' = e' - b' - 2 * 12 /\ used_mem h' = used_mem h /\ lfree h' = 0)
    as (Hs & Hus & Hlf) by done.
  assert (heap_end h' = e0) as He0 by (unfold heap_end; rewrite Hs; done).
  split; [lia|]. split; [|unfold stats_ok; rewrite Hus, Hu; done]. rewrite He0. split.
  - rewrite He0. split; [|split; [rewrite total_singleton; lia|]].
    + simpl. rewrite lookup_insert_ne, lookup_insert_eq by (unfold e0; lia). done.
    + exists e0. simpl. by rewrite lookup_insert_eq.
  - constructor; [|done]. unfold blk_ok, e0. simpl. split; [lia|dlia].
  - done.
  - done.
  - rewrite He0, Hs. unfold e0, MIN_SIZE_ALIGNED. lia.
Qed.

(** ** The blocks are determined by the regions in use *)
Lemma merged_cons u n l : merged ((n, u) :: l) -> merged l.
Proof. unfold merged. intros H. by apply (nff_suffix [u]) in H. Qed.

Lemma merged_free n l : merged ((n, false) :: l) -> head_used l.
Proof.
  unfold merged. destruct l as [|[k v] l]; [done|]. simpl. intros H. by apply andb_true_iff in H as [].
Qed.

Lemma regions_lower l o a n : Forall blk_ok l -> (a, n) ∈ regions o l -> o <= a.
Proof. intros Hl Hin. apply (regions_bounds l Hl) in Hin. tauto. Qed.

Lemma regions_inj l : forall k o,
  Forall blk_ok l -> Forall blk_ok k -> merged l -> merged k ->
  total l = total k -> regions o l = regions o k -> l = k.
Proof.
  assert (forall o n m (v : bool) l k, Forall blk_ok ((m, false) :: k) -> merged ((m, false) :: k) ->
    regions o ((n, true) :: l) <> regions o ((m, false) :: k)) as Huf.
  { intros o n m _ l0 k Hk _ Heq. apply Forall_cons in Hk as [[Hm _] Hk]. simpl in *.
    assert ((o, n) ∈ regions (o + m) k) as Hin by (rewrite <- Heq; apply elem_of_cons; by left).
    apply regions_lower in Hin; [lia|done]. }
  induction l as [|[n u] l IH]; intros k o Hl Hk Hml Hmk Ht Hr.
  - destruct k as [|[m v] k]; [done|]. apply Forall_cons in Hk as [[Hm _] Hk].
    rewrite total_cons in Ht. pose proof (total_nonneg k Hk). simpl in *. change (total []) with 0 in Ht. lia.
  - destruct k as [|[m v] k].
    { apply Forall_cons in Hl as [[Hm _] Hl].
      rewrite total_cons in Ht. pose proof (total_nonneg l Hl). simpl in *. change (total []) with 0 in Ht. lia. }
    pose proof Hl as Hl0. pose proof Hk as Hk0.
    apply Forall_cons in Hl as [[Hn _] Hl]. apply Forall_cons in Hk as [[Hm _] Hk]. simpl in Hn, Hm.
    rewrite !total_cons in Ht. pose proof (total_nonneg l Hl). pose proof (total_nonneg k Hk).
    assert (n = m /\ u = v /\ regions (o + n) l = regions (o + m) k) as (-> & -> & Hr').
    { destruct u, v.
      - simpl in Hr. by simplify_eq.
      - exfalso. by eapply (Huf o n m true l k).
      - exfalso. by eapply (Huf o m n true k l).
      - simpl in Hr. pose proof (merged_free _ _ Hml) as Hul. pose proof (merged_free _ _ Hmk) as Huk.
        destruct l as [|[a [|]] l], k as [|[c [|]] k]; try done; simpl in Hr.
        + change (total []) with 0 in Ht. split_and!; [lia|done|done].
        + injection Hr as H1 H2 H3. assert (n = m) as -> by lia. subst c. simpl. by rewrite H3. }
    f_equal. apply (IH k (o + m)); try done; [by eapply merged_cons|by eapply merged_cons|lia].
Qed.

(** Two heaps with the same regions in use have the same blocks. *)
Lemma heap_regions_inj h h' l l' :
  heap_inv h l -> heap_inv h' l' -> mem_size_aligned h' = mem_size_aligned h ->
  regions 0 l' = regions 0 l -> l' = l.
Proof.
  intros [(_ & He & _) Hok Hm _ _] [(_ & He' & _) Hok' Hm' _ _] Hs Hr.
  unfold heap_end in *. apply (regions_inj l' l 0); try done. lia.
Qed.

(** What an allocation adds: a region that overlaps no other. *)
Definition fresh_region (a n : Z) (l l' : list block) : Prop :=
  regions 0 l' ≡ₚ (a, n) :: regions 0 l /\
  forall b k, (b, k) ∈ regions 0 l -> b + k <= a \/ a + n <= b.

Lemma regions_carve size n o : MIN_SIZE_ALIGNED <= size <= n - SIZEOF_STRUCT_MEM ->
  exists k, regions o (carve size n) = [(o, k)] /\ SIZEOF_STRUCT_MEM + size <= k <= n /\
    total (carve size n) = n.
Proof.
  intros Hs. unfold carve. case_cmp.
  - exists (SIZEOF_STRUCT_MEM + size). unfold SIZEOF_STRUCT_MEM, MIN_SIZE_ALIGNED in *.
    split_and!; try done; try lia. unfold total. simpl. lia.
  - exists n. rewrite total_singleton. split_and!; try done; lia.
Qed.

Lemma carve_fresh size n l1 l2 :
  Forall blk_ok (l1 ++ (n, false) :: l2) -> MIN_SIZE_ALIGNED <= size <= n - SIZEOF_STRUCT_MEM ->
  exists k, SIZEOF_STRUCT_MEM + size <= k /\
    fresh_region (total l1) k (l1 ++ (n, false) :: l2) (l1 ++ carve size n ++ l2).
Proof.
  intros Hok Hs. apply Forall_app in Hok as [Hok1 Hok2]. apply Forall_cons in Hok2 as [_ Hok2].
  destruct (regions_carve size n (0 + total l1) Hs) as (k & Hk & Hks & Htot).
  exists k. split; [lia|]. split.
  - rewrite !regions_app, Hk, Htot. simpl. by rewrite <- Permutation_middle.
  - intros b j Hb. rewrite regions_app in Hb. simpl in Hb. apply elem_of_app in Hb as [Hb|Hb].
    + apply (regions_bounds l1 Hok1) in Hb. lia.
    + apply (regions_bounds l2 Hok2) in Hb. lia.
Qed.

(** What an allocation returns. *)
Lemma rt_malloc_fresh h l size :
  heap_inv h l -> stats_ok h l -> 0 <= size <= 2 ^ 32 - 4 ->
  match heap_malloc size (mem_size_aligned h) l with
  | None => rt_malloc size h = Some (None, h)
  | Some (a, l') => exists h' k,
      rt_malloc size h = Some (Some (a + SIZEOF_STRUCT_MEM), h') /\
      heap_inv h' l' /\ stats_ok h' l' /\ mem_size_aligned h' = mem_size_aligned h /\
      a mod RT_ALIGN_SIZE = 0 /\ size <= k /\ 0 <= a /\ a + SIZEOF_STRUCT_MEM + k <= heap_end h /\
      fresh_region a (SIZEOF_STRUCT_MEM + k) l l'
  end.
Proof.
  intros Hinv Hst Hs. pose proof (rt_malloc_ok h l size Hinv Hst Hs) as H.
  unfold heap_malloc in *. destruct (size =? 0); [done|].
  destruct (first_fit _ _ 0 l) as [[a l']|] eqn:Ef; [|done].
  destruct H as (h' & Hr & Hi & Hst' & Hm). pose proof Hinv as [(_ & He & _) Hok _ _ _].
  destruct (first_fit_some _ _ _ Hok _ _ _ Ef) as (l1 & n & l2 & -> & -> & -> & Hn).
  assert (MIN_SIZE_ALIGNED <= request size /\ size <= request size) as [H12 Hge]
    by (unfold request; split; [lia|dlia]).
  destruct (carve_fresh (request size) n l1 l2 Hok ltac:(lia)) as (k & Hk & Hf).
  pose proof Hok as Hok0. apply Forall_app in Hok as [Hok1 _].
  exists h', (k - SIZEOF_STRUCT_MEM). rewrite Z.add_0_l in *.
  replace (SIZEOF_STRUCT_MEM + (k - SIZEOF_STRUCT_MEM)) with k by lia.
  split_and!; try done.
  - by apply total_mod4.
  - lia.
  - by apply total_nonneg.
  - pose proof Hi as [(_ & He' & _) Hok' _ _ _]. unfold heap_end in *. rewrite Hm in He'.
    assert ((total l1, k) ∈ regions 0 (l1 ++ carve (request size) n ++ l2)) as Hin.
    { destruct Hf as [-> _]. apply elem_of_cons. by left. }
    apply (regions_bounds _ Hok') in Hin. lia.
Qed.

(** What freeing a region leaves. *)
Lemma rt_free_region h l a n :
  heap_inv h l -> stats_ok h l -> (a, n) ∈ regions 0 l ->
  exists h' l', rt_free (Some (a + SIZEOF_STRUCT_MEM)) h = Some h' /\
    heap_inv h' l' /\ stats_ok h' l' /\ (a, n) :: regions 0 l' ≡ₚ regions 0 l /\ heap_end h' = heap_end h.
Proof.
  intros Hinv Hst Hin. apply regions_block in Hin as (l1 & l2 & -> & ->). rewrite Z.add_0_l.
  destruct (rt_free_ok h l1 n l2 Hinv) as (h' & Hr & Hi & Hu).
  exists h', (glue l1 n l2). split_and!; try done.
  - unfold stats_ok in *. rewrite Hu, Hst. pose proof (heap_total _ _ Hi).
    replace (taken (l1 ++ (n, true) :: l2) - n) with (taken (glue l1 n l2)).
    + apply wrap_id. unfold fits. lia.
    + rewrite !(taken_regions _ 0), regions_glue, !regions_app, !map_app, !sumZ_app. simpl. lia.
  - rewrite regions_glue. symmetry. apply regions_take.
  - destruct (hi_tail _ _ Hinv) as (_ & He & _), (hi_tail _ _ Hi) as (_ & He' & _).
    rewrite <- He, <- He'. f_equal. apply total_glue.
Qed.

(** Where the data of a block lie. *)
Lemma rt_malloc_region h l size p h' : heap_inv h l -> stats_ok h l -> 0 <= size <= 2 ^ 32 - 4 ->
  rt_malloc size h = Some (Some p, h') ->
  p mod 4 = 0 /\ SIZEOF_STRUCT_MEM <= p /\ p + size <= heap_end h /\ exists l', heap_inv h' l' /\ stats_ok h' l'.
Proof.
  intros Hinv Hst Hs Hr. pose proof (rt_malloc_fresh h l size Hinv Hst Hs) as H.
  destruct (heap_malloc _ _ l) as [[a l']|]; [|congruence].
  destruct H as (h1 & k & Hr1 & Hi & Hst' & _ & Ha & Hk & H0 & He & _). rewrite Hr in Hr1. injection Hr1 as -> <-.
  unfold SIZEOF_STRUCT_MEM, RT_ALIGN_SIZE in *. split; [dlia|]. split; [lia|]. split; [lia|by eexists].
Qed.

(** ** Properties *)

(** C22: on a well-formed heap [rt_malloc] is first fit over the block list:
    it returns null exactly when first fit finds no block, and the heap is then
    untouched; otherwise the heap is well-formed again, its counter of used
    bytes is the bytes in use, and the data area returned is word-aligned, at
    least as large as asked for, inside the heap and disjoint from every
    region in use before. *)
Theorem rt_malloc_spec h l size :
  heap_inv h l -> stats_ok h l -> 0 <= size <= 2 ^ 32 - 4 ->
  match heap_malloc size (mem_size_aligned h) l with
  | None => rt_malloc size h = Some (None, h)
  | Some (a, l') => exists h' k,
      rt_malloc size h = Some (Some (a + SIZEOF_STRUCT_MEM), h') /\
      heap_inv h' l' /\ stats_ok h' l' /\ mem_size_aligned h' = mem_size_aligned h /\
      a mod RT_ALIGN_SIZE = 0 /\ size <= k /\ 0 <= a /\ a + SIZEOF_STRUCT_MEM + k <= heap_end h /\
      fresh_region a (SIZEOF_STRUCT_MEM + k) l l'
  end.
Proof. apply rt_malloc_fresh. Qed.

Definition demo_heap : heap :=
  rt_system_heap_init 0 128 {| hdrs := ∅; lfree := 0; mem_size_aligned := 0; used_mem := 0; max_mem := 0 |}.

Definition demo_blocks : list block := [(116, false)].

Lemma demo_heap_ok : heap_inv demo_heap demo_blocks /\ stats_ok demo_heap demo_blocks.
Proof.
  destruct (rt_system_heap_init_ok 0 128
    {| hdrs := ∅; lfree := 0; mem_size_aligned := 0; used_mem := 0; max_mem := 0 |})
    as (_ & H1 & H2); [lia|unfold fits; lia|lia|done|]. by split.
Qed.

Lemma rt_malloc_spec_witness :
  heap_malloc 10 104 demo_blocks = Some (0, [(24, true); (92, false)]) /\
  exists h' k, rt_malloc 10 demo_heap = Some (Some 12, h') /\
    heap_inv h' [(24, true); (92, false)] /\ 10 <= k /\
    fresh_region 0 (12 + k) demo_blocks [(24, true); (92, false)].
Proof.
  split; [reflexivity|].
  destruct (rt_malloc_spec demo_heap demo_blocks 10 (proj1 demo_heap_ok) (proj2 demo_heap_ok)
    ltac:(lia)) as (h' & k & H1 & H2 & _ & _ & _ & H3 & _ & _ & H4).
  exists h', k. by split_and!.
Defined.

(** C18: freeing a region in use succeeds, every assertion of [rt_free] and
    [plug_holes] holding; exactly that region leaves the regions in use, the
    heap is well-formed again with no two free neighbours, the lowest free
    block is found again by [lfree], and the used-bytes counter follows. *)
Theorem rt_free_spec h l a n :
  heap_inv h l -> stats_ok h l -> (a, n) ∈ regions 0 l ->
  exists h' l', rt_free (Some (a + SIZEOF_STRUCT_MEM)) h = Some h' /\
    heap_inv h' l' /\ stats_ok h' l' /\ (a, n) :: regions 0 l' ≡ₚ regions 0 l.
Proof.
  intros Hinv Hst Hin. destruct (rt_free_region h l a n Hinv Hst Hin) as (h' & l' & Hr & Hi & Hs & Hp & _).
  exists h', l'. by split_and!.
Qed.

Lemma rt_free_spec_witness : exists h h' l',
  rt_malloc 10 demo_heap = Some (Some 12, h) /\ rt_free (Some 12) h = Some h' /\
  heap_inv h' l' /\ (0, 24) :: regions 0 l' ≡ₚ [(0, 24)].
Proof.
  pose proof (rt_malloc_ok demo_heap demo_blocks 10 (proj1 demo_heap_ok) (proj2 demo_heap_ok)
    ltac:(lia)) as (h & H1 & H2 & H3 & _).
  destruct (rt_free_spec h _ 0 24 H2 H3) as (h' & l' & Hf & Hi & _ & Hp).
  { apply elem_of_cons. by left. }
  by exists h, h', l'.
Defined.

(** Allocating and freeing the block again gives back the very same
    blocks: no space is lost to fragmentation by the pair. *)
Lemma rt_malloc_free_inverse h l size a h' :
  heap_inv h l -> stats_ok h l -> 0 <= size <= 2 ^ 32 - 4 ->
  rt_malloc size h = Some (Some a, h') ->
  exists h'', rt_free (Some a) h' = Some h'' /\ heap_inv h'' l.
Proof.
  intros Hinv Hst Hs Hr. pose proof (rt_malloc_ok h l size Hinv Hst Hs) as H.
  unfold heap_malloc in *. destruct (size =? 0); [congruence|].
  destruct (first_fit _ _ 0 l) as [[b l']|] eqn:Ef; [|congruence].
  destruct H as (h1 & Hr1 & Hi & Hst' & Hm). rewrite Hr in Hr1. simplify_eq.
  pose proof Hinv as [_ Hok _ _ _].
  destruct (first_fit_some _ _ _ Hok _ _ _ Ef) as (l1 & n & l2 & -> & -> & -> & Hn).
  rewrite Z.add_0_l. assert (MIN_SIZE_ALIGNED <= request size) by (unfold request; lia).
  assert (exists k r, carve (request size) n = (k, true) :: r /\ regions (0 + total l1 + k) (r ++ l2) =
            regions (0 + total l1 + n) l2) as (k & r & Hc & Hreg).
  { unfold carve. case_cmp; eexists _, _; (split; [done|]); [|done].
    simpl. f_equal. lia. }
  rewrite Hc in Hi. simpl in Hi.
  destruct (rt_free_ok h1 l1 k (r ++ l2) Hi) as (h2 & Hf & Hi2 & _).
  exists h2. split; [done|].
  rewrite <- (heap_regions_inj h h2 _ _ Hinv Hi2); [done| |].
  - destruct Hi2 as [(_ & He2 & _) _ _ _ _], Hinv as [(_ & He & _) _ _ _ _].
    pose proof Hi as [(_ & He1 & _) _ _ _ _]. unfold heap_end in *.
    rewrite (total_glue l1 k (r ++ l2) true) in He2. unfold block in *. lia.
  - rewrite regions_glue, !regions_app. simpl. by rewrite Hreg.
Qed.

Lemma rt_malloc_free_inverse_witness : exists h' h'',
  rt_malloc 10 demo_heap = Some (Some 12, h') /\ rt_free (Some 12) h' = Some h'' /\
  heap_inv h'' demo_blocks.
Proof.
  pose proof (rt_malloc_ok demo_heap demo_blocks 10 (proj1 demo_heap_ok) (proj2 demo_heap_ok)
    ltac:(lia)) as (h' & H1 & _).
  destruct (rt_malloc_free_inverse demo_heap demo_blocks 10 12 h' (proj1 demo_heap_ok)
    (proj2 demo_heap_ok) ltac:(lia) H1) as (h'' & H2 & H3).
  by exists h', h''.
Defined.

(** A request of almost 2^32 bytes wraps to 0 when it is aligned and is served
    by a block of 12 bytes. *)
Lemma rt_malloc_wraps : exists h',
  rt_malloc (2 ^ 32 - 1) demo_heap = Some (Some 12, h') /\ heap_inv h' [(24, true); (92, false)].
Proof.
  pose proof (rt_malloc_ok demo_heap demo_blocks 12 (proj1 demo_heap_ok) (proj2 demo_heap_ok)
    ltac:(lia)) as (h' & H1 & H2 & _).
  exists h'. split; [|exact H2].
  change (rt_malloc (2 ^ 32 - 1) demo_heap) with (rt_malloc 12 demo_heap). exact H1.
Qed.

(** The whole of a free heap cannot be allocated, though it is large enough. *)
Lemma rt_malloc_exact_fit : rt_malloc (mem_size_aligned demo_heap) demo_heap = Some (None, demo_heap).
Proof. reflexivity. Qed.

(** A heap of less than [MIN_SIZE_ALIGNED] bytes: the bound of the search wraps
    around and the search runs in circles at the end marker, whatever the
    fuel. *)
Definition tiny_heap : heap :=
  rt_system_heap_init 0 32 {| hdrs := ∅; lfree := 0; mem_size_aligned := 0; used_mem := 0; max_mem := 0 |}.

Lemma rt_malloc_tiny_heap fuel : malloc_loop fuel (lfree tiny_heap) MIN_SIZE_ALIGNED tiny_heap = None.
Proof.
  destruct fuel as [|fuel]; [done|]. change (malloc_loop fuel 20 12 tiny_heap = None).
  induction fuel as [|fuel IH]; [done|]. exact IH.
Qed.
