(* ===== verification/Owner.v ===== *)
(** * Who owns the blocks of the heap (rt-thread/src/mem.c)

    The regions in use of a heap ([Mem.regions]) seen from their owners: a list
    of blocks, each a pointer that [rt_malloc] returned with the size that was
    asked for.  Every region in use is the region of one block, so no two blocks
    overlap and none is lost; allocating adds a block, freeing takes one away
    and cannot fail. *)
From S2P Require Import Prelude Mem.

(** Pointer and size. *)
Abbreviation blocks := (list (Z * Z)).

(** The regions [rs] are those of the blocks [bl], and large enough. *)
Record owns (rs : list (Z * Z)) (bl : blocks) : Prop := {
  ow_regions : map fst rs ≡ₚ map (fun b => fst b - SIZEOF_STRUCT_MEM) bl;
  ow_sizes : forall p n, (p, n) ∈ bl -> exists m, (p - SIZEOF_STRUCT_MEM, m) ∈ rs /\ SIZEOF_STRUCT_MEM + n <= m
}.

(** The heap is well-formed and its regions in use are those of the blocks. *)
Definition heap_owns (h : heap) (bl : blocks) : Prop :=
  exists l, heap_inv h l /\ stats_ok h l /\ owns (regions 0 l) bl.

(** Whether a pointer is into the heap. *)
Definition in_heap (h : heap) (p : Z) : Prop := SIZEOF_STRUCT_MEM <= p < heap_end h.

#[global] Instance in_heap_dec h p : Decision (in_heap h p).
Proof. unfold in_heap. apply _. Defined.

#[global] Instance owns_perm : Proper ((≡ₚ) ==> (≡ₚ) ==> iff) owns.
Proof.
  intros rs rs' Hrs bl bl' Hbl. split; intros [H1 H2]; split.
  - by rewrite <- Hrs, <- Hbl.
  - intros p n. rewrite <- Hbl. intros Hin. destruct (H2 p n Hin) as (m & Hm & Hle). exists m. by rewrite <- Hrs.
  - by rewrite Hrs, Hbl.
  - intros p n. rewrite Hbl. intros Hin. destruct (H2 p n Hin) as (m & Hm & Hle). exists m. by rewrite Hrs.
Qed.

#[global] Instance heap_owns_perm h : Proper ((≡ₚ) ==> iff) (heap_owns h).
Proof. intros bl bl' Hbl. unfold heap_owns. by setoid_rewrite Hbl. Qed.

Lemma owns_cons p n m rs bl : owns rs bl -> SIZEOF_STRUCT_MEM + n <= m ->
  owns ((p - SIZEOF_STRUCT_MEM, m) :: rs) ((p, n) :: bl).
Proof.
  intros [H1 H2] Hm. split.
  - simpl. by rewrite H1.
  - intros q k Hin. apply elem_of_cons in Hin as [[= -> ->]|Hin].
    + exists m. split; [by left|done].
    + destruct (H2 q k Hin) as (j & Hj & Hle). exists j. split; [by right|done].
Qed.

(** The regions start at different offsets. *)
Lemma regions_starts l : Forall blk_ok l -> forall o, NoDup (map fst (regions o l)).
Proof.
  induction 1 as [|[n u] l [Hn _] Hl IH]; intros o; simpl; [constructor|]. rewrite map_app.
  destruct u; simpl; [|apply IH]. apply NoDup_cons. split; [|apply IH].
  intros Hin. apply list_elem_of_fmap in Hin as ([a m] & -> & Hin). simpl in *.
  apply (regions_lower l _ _ _ Hl) in Hin. lia.
Qed.

(** No two blocks have the same pointer. *)
Lemma heap_owns_nodup h bl : heap_owns h bl -> NoDup (map fst bl).
Proof.
  intros (l & Hi & _ & [Hr _]). pose proof (regions_starts l (hi_ok _ _ Hi) 0) as Hnd.
  rewrite Hr in Hnd. rewrite <- (map_map fst (fun p => p - SIZEOF_STRUCT_MEM)) in Hnd.
  by apply NoDup_fmap_1 in Hnd.
Qed.

Lemma heap_owns_in h bl p n : heap_owns h bl -> (p, n) ∈ bl -> SIZEOF_STRUCT_MEM <= p /\ p + n <= heap_end h.
Proof.
  intros (l & Hi & _ & [_ Hs]) Hin. destruct (Hs p n Hin) as (m & Hm & Hle).
  pose proof (hi_tail _ _ Hi) as (_ & He & _). apply (regions_bounds l (hi_ok _ _ Hi)) in Hm. lia.
Qed.

(** Allocating: always a result, and a new block when it is not null. *)
Lemma malloc_owns h bl size : heap_owns h bl -> 0 <= size <= 2 ^ 32 - 4 ->
  exists r h', rt_malloc size h = Some (r, h') /\ heap_end h' = heap_end h /\
    match r with
    | None => h' = h
    | Some p => heap_owns h' ((p, size) :: bl) /\ in_heap h p /\ p ∉ map fst bl
    end.
Proof.
  intros Ho Hs. pose proof Ho as (l & Hi & Hst & Hown). pose proof (rt_malloc_fresh h l size Hi Hst Hs) as H.
  destruct (heap_malloc size (mem_size_aligned h) l) as [[a l']|] eqn:Em; [|by exists None, h].
  destruct H as (h' & k & E & Hi' & Hst' & Hsz & _ & Hk & H0 & He & Hf & _).
  assert (0 < size) by (unfold heap_malloc in Em; destruct (Z.eqb_spec size 0); [done|lia]).
  exists (Some (a + SIZEOF_STRUCT_MEM)), h'. split; [done|]. split; [unfold heap_end; by rewrite Hsz|].
  assert (heap_owns h' ((a + SIZEOF_STRUCT_MEM, size) :: bl)) as Ho'.
  { exists l'. split; [done|]. split; [done|]. rewrite Hf.
    replace a with (a + SIZEOF_STRUCT_MEM - SIZEOF_STRUCT_MEM) at 1 by lia. apply owns_cons; [done|lia]. }
  split; [done|]. split; [unfold in_heap, SIZEOF_STRUCT_MEM in *; lia|].
  apply heap_owns_nodup in Ho'. by apply NoDup_cons in Ho' as [Hn _].
Qed.

(** Freeing a block succeeds and takes it away. *)
Lemma free_owns h bl p n : heap_owns h ((p, n) :: bl) ->
  exists h', rt_free (Some p) h = Some h' /\ heap_end h' = heap_end h /\ heap_owns h' bl.
Proof.
  intros Ho. pose proof (heap_owns_nodup _ _ Ho) as Hnd. destruct Ho as (l & Hi & Hst & [Hr Hs]).
  destruct (Hs p n) as (m & Hm & _); [by left|].
  destruct (rt_free_region h l _ m Hi Hst Hm) as (h' & l' & E & Hi' & Hst' & Hp & He).
  rewrite Z.sub_add in E. exists h'. split; [done|]. split; [done|]. exists l'. split; [done|]. split; [done|]. split.
  - rewrite <- Hp in Hr. simpl in Hr. by apply Permutation_cons_inv in Hr.
  - intros q k Hin. destruct (Hs q k) as (j & Hj & Hle); [by right|]. exists j. split; [|done].
    rewrite <- Hp in Hj. apply elem_of_cons in Hj as [[= Hq _]|Hj]; [|done].
    simpl in Hnd. apply NoDup_cons in Hnd as [Hnd _]. exfalso. apply Hnd.
    assert (q = p) as <- by lia. apply list_elem_of_fmap. by exists (q, k).
Qed.

(** A heap with no region in use. *)
Lemma heap_owns_init b e h : 0 <= b <= 2 ^ 32 - 4 -> fits 32 e -> b + 3 + 36 <= e - 3 -> used_mem h = 0 ->
  heap_owns (rt_system_heap_init b e h) [].
Proof.
  intros H1 H2 H3 H4. destruct (rt_system_heap_init_ok b e h H1 H2 H3 H4) as (_ & Hi & Hst).
  eexists. split; [exact Hi|]. split; [done|]. split; [done|]. intros p n Hin. by apply elem_of_nil in Hin.
Qed.

(** ** A heap from which nothing was freed

    The first [u] bytes are in use and the other [n] are one free block. *)
Definition packed (h : heap) (u n : Z) : Prop :=
  exists l, heap_inv h (l ++ [(n, false)]) /\ stats_ok h (l ++ [(n, false)]) /\ forallb snd l = true /\ total l = u.

Lemma packed_init b e h : 0 <= b <= 2 ^ 32 - 4 -> fits 32 e -> b + 3 + 36 <= e - 3 -> used_mem h = 0 ->
  packed (rt_system_heap_init b e h) 0 (4 * (e / 4) - 4 * ((b + 3) / 4) - 12).
Proof.
  intros H1 H2 H3 H4. destruct (rt_system_heap_init_ok b e h H1 H2 H3 H4) as (Hm & Hi & Hst). exists [].
  replace (4 * (e / 4) - 4 * ((b + 3) / 4) - 12) with (heap_end (rt_system_heap_init b e h))
    by (unfold heap_end, SIZEOF_STRUCT_MEM; lia). by split_and!.
Qed.

Lemma packed_used h u n : packed h u n -> used_mem h = u.
Proof.
  intros (l & _ & Hst & Hu & <-). rewrite Hst, taken_app, taken_cons. change (taken []) with 0. rewrite !Z.add_0_r.
  clear Hst. induction l as [|[m v] l IH]; [done|]. simpl in Hu. apply andb_true_iff in Hu as [-> Hu].
  rewrite taken_cons, total_cons. by rewrite IH.
Qed.

(** Blocks are handed out one after the other. *)
Lemma packed_malloc h u n size : packed h u n -> 0 < size <= 2 ^ 32 - 4 ->
  2 * SIZEOF_STRUCT_MEM + MIN_SIZE_ALIGNED + request size <= n ->
  exists h', rt_malloc size h = Some (Some (u + SIZEOF_STRUCT_MEM), h') /\
    packed h' (u + SIZEOF_STRUCT_MEM + request size) (n - SIZEOF_STRUCT_MEM - request size).
Proof.
  intros (l & Hi & Hst & Hl & Hu) Hs Hn. pose proof (rt_malloc_ok h _ size Hi Hst ltac:(lia)) as H.
  pose proof Hi as [(_ & He & _) Hok _ _ _]. rewrite Z.add_0_l, total_app, total_singleton in He.
  apply Forall_app in Hok as [Hok _]. unfold heap_end, SIZEOF_STRUCT_MEM, MIN_SIZE_ALIGNED in *.
  unfold heap_malloc in H. rewrite (proj2 (Z.eqb_neq size 0)) in H by lia.
  rewrite first_fit_prefix, Z.add_0_l in H by done. cbn [first_fit negb andb] in H.
  rewrite (proj2 (Z.ltb_lt _ _)), (proj2 (Z.leb_le _ _)) in H by (unfold SIZEOF_STRUCT_MEM; lia).
  cbn [andb mbind option_bind] in H. unfold carve in H.
  rewrite (proj2 (Z.leb_le _ _)) in H by (unfold SIZEOF_STRUCT_MEM, MIN_SIZE_ALIGNED; lia).
  destruct H as (h' & E & Hi' & Hst' & _). exists h'. rewrite Hu in E. split; [exact E|].
  exists (l ++ [(12 + request size, true)]). rewrite app_nil_r in Hi', Hst'.
  unfold SIZEOF_STRUCT_MEM in *. rewrite <- !app_assoc. split; [exact Hi'|]. split; [exact Hst'|].
  rewrite forallb_app, Hl, total_app, total_singleton. split; [done|lia].
Qed.
