(* ===== verification/Kalloc.v ===== *)
(** * Allocations of kservice.c

    rt_malloc_align, rt_free_align and rt_strdup, which work on the memory
    behind the heap ([Mem]): [base] is the address of heap_ptr, so that the block at offset [a] is at
    [base + a]. *)
From S2P Require Import Prelude Kservice Mem.

Section Kalloc.
Context (base : Z).

(** & ~(align - 1) and & (align - 1) on 32 bits. *)
Definition align_down (x align : Z) : Z := Z.land x (u32 (Z.lnot (align - 1))).

(** The address returned for the block at [ptr]. *)
Definition aligned_address (ptr align : Z) : Z :=
  if Z.land ptr (align - 1) =? 0 then u32 (ptr + align) else align_down (u32 (ptr + (align - 1))) align.

(** The address of the pointer that precedes the block. *)
Definition real_at (ptr : Z) : Z := u32 (ptr - 4).

Definition rt_malloc_align (size align : Z) (m : mem) (h : heap) : option (option Z * mem * heap) :=
  let uintptr_size := 4 - 1 in
  let align := align_down (u32 (align + uintptr_size)) 4 in
  let align_size := u32 (align_down (u32 (size + uintptr_size)) 4 + align) in
  '(p, h) ← rt_malloc align_size h;
  match p with
  | None => Some (None, m, h)
  | Some a =>
      let ptr := base + a in
      let align_ptr := aligned_address ptr align in
      Some (Some align_ptr, store32 (real_at align_ptr) ptr m, h)
  end.

Definition rt_free_align (ptr : Z) (m : mem) (h : heap) : option heap :=
  let real_ptr := load32 (real_at ptr) m in
  rt_free (if real_ptr =? 0 then None else Some (real_ptr - base)) h.

(** [fuel] bounds the length of the string. *)
Definition rt_strdup (fuel : nat) (s : Z) (m : mem) (h : heap) : option (option Z * mem * heap) :=
  let len := u32 (rt_strlen fuel m s + 1) in
  '(p, h) ← rt_malloc len h;
  match p with
  | None => Some (None, m, h)
  | Some a => let tmp := base + a in Some (Some tmp, rt_memcpy tmp s len m, h)
  end.

(** ** Masks *)
Lemma land_u32 x y : fits 32 x -> Z.land x (u32 y) = Z.land x y.
Proof.
  intros Hx. unfold wrap. rewrite <- Z.land_ones by lia. rewrite (Z.land_comm y), Z.land_assoc. f_equal.
  rewrite Z.land_ones by lia. by apply Z.mod_small.
Qed.

Lemma land_low x j : 0 <= j -> Z.land x (2 ^ j - 1) = x mod 2 ^ j.
Proof. intros Hj. rewrite <- Z.land_ones by done. f_equal. rewrite Z.ones_equiv. lia. Qed.

Lemma align_down_pow2 x j : fits 32 x -> 0 <= j -> align_down x (2 ^ j) = 2 ^ j * (x / 2 ^ j).
Proof.
  intros Hx Hj. unfold align_down. rewrite land_u32 by done.
  replace (2 ^ j - 1) with (Z.ones j) by (rewrite Z.ones_equiv; lia). rewrite <- Z.ldiff_land, Z.ldiff_ones_r by done.
  rewrite Z.shiftl_mul_pow2, Z.shiftr_div_pow2 by done. lia.
Qed.

Lemma round_up_4 x : 0 <= x <= 2 ^ 32 - 4 -> align_down (u32 (x + (4 - 1))) 4 = 4 * ((x + 3) / 4).
Proof.
  intros Hx. change 4 with (2 ^ 2) at 2. rewrite align_down_pow2 by (try apply wrap_fits; lia).
  change (2 ^ 2) with 4. by rewrite wrap_id by (unfold fits; lia).
Qed.

Lemma load_store32 a v m : fits 32 v -> load32 a (store32 a v m) = v.
Proof.
  intros Hv. unfold fits in Hv. unfold load32. rewrite !store32_at. unfold in_range.
  rewrite !(proj2 (Z.leb_le _ _)), !(proj2 (Z.ltb_lt _ _)) by lia. cbn [andb].
  replace (a - a) with 0 by lia. replace (a + 1 - a) with 1 by lia. replace (a + 2 - a) with 2 by lia. replace (a + 3 - a) with 3 by lia.
  unfold wrap. change (2 ^ (8 * 0)) with 1. change (2 ^ (8 * 1)) with 256. change (2 ^ (8 * 2)) with 65536. change (2 ^ (8 * 3)) with 16777216.
  change (2 ^ 8) with 256. change (2 ^ 16) with 65536. change (2 ^ 24) with 16777216. change (2 ^ 32) with 4294967296 in Hv.
  rewrite Z.div_1_r. Z.to_euclidean_division_equations. lia.
Qed.

(** ** Aligned blocks *)
(** The address lies behind the word for the pointer and leaves room for the data. *)
Lemma aligned_address_ok ptr j size asize : 0 < ptr -> ptr mod 4 = 0 -> 2 <= j -> 0 <= size ->
  asize = 4 * ((size + 3) / 4) + 2 ^ j -> ptr + asize < 2 ^ 32 ->
  let ap := aligned_address ptr (2 ^ j) in ap mod 2 ^ j = 0 /\ ptr + 4 <= ap /\ ap + size <= ptr + asize.
Proof.
  intros Hp Hp4 Hj Hs Ha Hw ap. assert (2 ^ j = 4 * 2 ^ (j - 2)) as Ej by (change 4 with (2 ^ 2); rewrite <- Z.pow_add_r by lia; f_equal; lia).
  assert (0 < 2 ^ (j - 2)) as Hpos by (apply Z.pow_pos_nonneg; lia). set (al := 2 ^ j) in *.
  assert (size <= 4 * ((size + 3) / 4)) as Hsz by dlia.
  assert (ap = if ptr mod al =? 0 then ptr + al else al * ((ptr + (al - 1)) / al)) as Eap.
  { unfold ap, aligned_address. rewrite !wrap_id by (unfold fits; lia). unfold al. rewrite land_low, align_down_pow2 by (unfold fits; lia). done. }
  clearbody ap. subst ap. destruct (Z.eqb_spec (ptr mod al) 0) as [Hz|Hz].
  - split; [|lia]. rewrite <- (Z.mul_1_l al) at 1. by rewrite Z_mod_plus_full.
  -
    pose proof (Z.div_mod ptr al ltac:(lia)) as Hd. pose proof (Z.mod_pos_bound ptr al ltac:(lia)) as Hb.
    assert ((ptr + (al - 1)) / al = ptr / al + 1) as ->.
    { symmetry. apply (Z.div_unique _ _ _ (ptr mod al - 1)); lia. }
    rewrite Z.mul_comm, Z_mod_mult. split; [done|].
    assert (ptr mod al <= al - 4) as Hlow.
    { assert (ptr mod al mod 4 = 0) as H4.
      { rewrite Ej, (Z.mul_comm 4), Z.rem_mul_r, Z.mul_comm by lia. dlia. }
      dlia. }
    lia.
Qed.

Lemma load32_ext a m m' : (forall x, a <= x < a + 4 -> m' x = m x) -> load32 a m' = load32 a m.
Proof. intros H. unfold load32. by rewrite !H by lia. Qed.

(** The size of the block behind an aligned one. *)
Definition block_size (size align : Z) : Z := 4 * ((size + 3) / 4) + align.

Lemma malloc_align_some size j m h ap m' h' : 2 <= j -> 0 <= size -> size + 2 ^ j <= 2 ^ 32 - 8 ->
  rt_malloc_align size (2 ^ j) m h = Some (Some ap, m', h') ->
  exists a, rt_malloc (block_size size (2 ^ j)) h = Some (Some a, h') /\ ap = aligned_address (base + a) (2 ^ j) /\
    m' = store32 (real_at ap) (base + a) m.
Proof.
  intros Hj Hs Hw. assert (2 ^ j = 4 * 2 ^ (j - 2)) as Ej by (change 4 with (2 ^ 2); rewrite <- Z.pow_add_r by lia; f_equal; lia).
  assert (0 < 2 ^ (j - 2)) as Hpos by (apply Z.pow_pos_nonneg; lia).
  unfold rt_malloc_align. rewrite !round_up_4 by lia. assert (4 * ((2 ^ j + 3) / 4) = 2 ^ j) as -> by (rewrite Ej; dlia).
  cbv zeta. fold (block_size size (2 ^ j)). rewrite wrap_id by (unfold fits, block_size; dlia).
  destruct (rt_malloc _ h) as [[[a|] h1]|] eqn:E; [|done|done]. rewrite some_bind. cbn beta iota.
  intros [= <- <- <-]. by exists a.
Qed.

(** C39: aligned allocation and its release.  For an alignment that is a power
    of two, the block that rt_malloc_align returns is aligned, and it lies together with the
    word in front of it, which holds the address of the real block, inside of the block taken from
    the heap; no other byte is written.  Whatever the user writes into the block, rt_free_align
    then gives back the very same free space the heap had before. *)
Theorem malloc_align_roundtrip h l size j m ap m' h' m2 :
  heap_inv h l -> stats_ok h l -> 0 < base -> base mod 4 = 0 -> base + heap_end h < 2 ^ 32 ->
  2 <= j -> 0 <= size -> size + 2 ^ j <= 2 ^ 32 - 8 ->
  rt_malloc_align size (2 ^ j) m h = Some (Some ap, m', h') ->
  (forall x, ~ (ap <= x < ap + size) -> m2 x = m' x) ->
  ap mod 2 ^ j = 0 /\
  (exists a, rt_malloc (block_size size (2 ^ j)) h = Some (Some a, h') /\
     base + a <= ap - 4 /\ ap + size <= base + a + block_size size (2 ^ j)) /\
  (forall x, ~ (ap - 4 <= x < ap) -> m' x = m x) /\
  exists h'', rt_free_align ap m2 h' = Some h'' /\ heap_inv h'' l.
Proof.
  intros Hinv Hst Hb Hb4 Hw Hj Hs Hsz E Hm2. destruct (malloc_align_some _ _ _ _ _ _ _ Hj Hs Hsz E) as (a & Ea & Eap & ->).
  assert (0 <= block_size size (2 ^ j) <= 2 ^ 32 - 4) as Hbs by (pose proof (Z.pow_pos_nonneg 2 j); unfold block_size; dlia).
  destruct (rt_malloc_region h l _ a h' Hinv Hst Hbs Ea) as (Ha4 & Ha & Hae & _). unfold SIZEOF_STRUCT_MEM in Ha.
  destruct (aligned_address_ok (base + a) j size (block_size size (2 ^ j))) as (A1 & A2 & A3); [lia|dlia|done|done|done|lia|].
  rewrite <- Eap in *. assert (real_at ap = ap - 4) as Er by (apply wrap_id; unfold fits; lia). rewrite Er in *.
  assert (fits 32 (base + a)) as Hf by (unfold fits; lia).
  split; [done|]. split; [exists a; split; [done|lia]|]. split.
  - intros x Hx. rewrite store32_at. rewrite (proj2 (in_range_false _ _ _)); [done|lia].
  - unfold rt_free_align. rewrite Er, (load32_ext _ (store32 (ap - 4) (base + a) m)), load_store32 by (done || intros x Hx; apply Hm2; lia).
    rewrite (proj2 (Z.eqb_neq _ _)) by lia. replace (base + a - base) with a by lia.
    by apply (rt_malloc_free_inverse h l (block_size size (2 ^ j))).
Qed.
End Kalloc.

(** ** Copies of strings *)

(** The copy is the string, and nothing outside of its block is written. *)
Lemma rt_strdup_copies base fuel s t m h l p m' h' : heap_inv h l -> stats_ok h l -> 0 < base -> base mod 4 = 0 ->
  mem_ok m -> cstr m s t -> (length t <= fuel)%nat -> lenZ t < 2 ^ 32 - 4 ->
  (forall a, base <= a -> a < base + heap_end h -> ~ (s <= a <= s + lenZ t)) ->
  rt_strdup base fuel s m h = Some (Some p, m', h') ->
  cstr m' p t /\ base <= p /\ p + lenZ t + 1 <= base + heap_end h /\
  forall x, ~ (p <= x <= p + lenZ t) -> m' x = m x.
Proof.
  intros Hinv Hst Hb Hb4 Hm Hc Hf Hl Hout E. unfold rt_strdup in E. rewrite (rt_strlen_value m s t) in E by done.
  assert (0 <= lenZ t) by (unfold lenZ; lia).
  rewrite wrap_id in E by (unfold fits; lia). destruct (rt_malloc _ h) as [[[a|] h1]|] eqn:Ea; [|done|done].
  rewrite some_bind in E. cbn beta iota zeta in E. injection E as <- <- <-.
  destruct (rt_malloc_region h l (lenZ t + 1) a h1 Hinv Hst) as (Ha4 & Ha & Hae & _); [lia|done|]. unfold SIZEOF_STRUCT_MEM in Ha.
  pose proof (rt_memcpy_copies (base + a) s (lenZ t + 1) m Hm ltac:(lia)) as Hcp.
  assert (copied_all (base + a) s (lenZ t + 1) m (rt_memcpy (base + a) s (lenZ t + 1) m)) as Hall.
  { apply Hcp. intros Hin. apply (Hout (base + a)); lia. }
  split; [|split; [lia|split; [lia|]]].
  - destruct Hc as [Hc1 Hc2]. split.
    + intros i c Hi. pose proof (lookup_lt_Some _ _ _ Hi). rewrite Hall, (proj2 (in_range_spec _ _ _)) by (unfold lenZ; lia).
      replace (base + a + Z.of_nat i - (base + a) + s) with (s + Z.of_nat i) by lia. by apply Hc1.
    + rewrite Hall, (proj2 (in_range_spec _ _ _)) by lia. by replace (base + a + lenZ t - (base + a) + s) with (s + lenZ t) by lia.
  - intros x Hx. rewrite Hall, (proj2 (in_range_false _ _ _)); [done|lia].
Qed.

(** ** Witness and where the code goes wrong *)
Lemma malloc_align_roundtrip_witness : exists ap m' h' h'',
  rt_malloc_align 0x20000000 10 (2 ^ 5) (fun _ => 0) demo_heap = Some (Some ap, m', h') /\ ap = 0x20000020 /\
  rt_free_align 0x20000000 ap (fun x => if x =? ap then 7 else m' x) h' = Some h'' /\ heap_inv h'' demo_blocks.
Proof.
  assert (exists m' h', rt_malloc_align 0x20000000 10 (2 ^ 5) (fun _ => 0) demo_heap = Some (Some 0x20000020, m', h')) as (m' & h' & E).
  { eexists _, _. vm_compute. reflexivity. }
  destruct (malloc_align_roundtrip 0x20000000 demo_heap demo_blocks 10 5 (fun _ => 0) 0x20000020 m' h'
    (fun x => if x =? 0x20000020 then 7 else m' x) (proj1 demo_heap_ok) (proj2 demo_heap_ok)) as (_ & _ & _ & h'' & E' & Hi);
    [lia|reflexivity|vm_compute; reflexivity|lia|lia|lia|exact E| |].
  - intros x Hx. destruct (Z.eqb_spec x 0x20000020); [lia|reflexivity].
  - exists 0x20000020, m', h', h''. split; [exact E|]. split; [reflexivity|]. split; [exact E'|exact Hi].
Defined.

(** A request of almost 2^32 bytes wraps around when the alignment is added: 16 bytes are allocated. *)
Lemma rt_malloc_align_wraps : exists ap m' h', rt_malloc_align 0x20000000 (2 ^ 32 - 16) 32 (fun _ => 0) demo_heap = Some (Some ap, m', h') /\
  rt_malloc 16 demo_heap = Some (Some 12, h').
Proof. eexists _, _, _. split; vm_compute; reflexivity. Qed.
