(* ===== verification/RtList.v ===== *)
(** * The kernel's intrusive lists (rt-thread/include/rtservice.h)

    The nodes of the doubly linked lists live in a store that gives each node
    its [next] and [prev] links.  A list head and its members form a ring; the
    operations are shown to be the operations on the sequence of members.  The
    kernel model of Kernel.v works with those sequences. *)
From S2P Require Import Prelude.

(** ** State and operations *)
Record links := { next : Z -> Z; prev : Z -> Z }.

Definition set_next (x y : Z) (s : links) : links :=
  {| s with next := fun z => if z =? x then y else next s z |}.
Definition set_prev (x y : Z) (s : links) : links :=
  {| s with prev := fun z => if z =? x then y else prev s z |}.

Definition rt_list_init (l : Z) (s : links) : links := set_next l l (set_prev l l s).

Definition rt_list_insert_after (l n : Z) (s : links) : links :=
  let s := set_prev (next s l) n s in
  let s := set_next n (next s l) s in
  let s := set_next l n s in
  set_prev n l s.

Definition rt_list_insert_before (l n : Z) (s : links) : links :=
  let s := set_next (prev s l) n s in
  let s := set_prev n (prev s l) s in
  let s := set_prev l n s in
  set_next n l s.

Definition rt_list_remove (n : Z) (s : links) : links :=
  let s := set_prev (next s n) (prev s n) s in
  let s := set_next (prev s n) (next s n) s in
  set_next n n (set_prev n n s).

Definition rt_list_isempty (l : Z) (s : links) : bool := next s l =? l.

(** The loop of [rt_list_len] from node [p], [None] when the fuel runs out. *)
Fixpoint list_len_loop (fuel : nat) (l p len : Z) (s : links) : option Z :=
  match fuel with
  | O => None
  | S fuel => if next s p =? l then Some len else list_len_loop fuel l (next s p) (u32 (len + 1)) s
  end.

Definition rt_list_len (fuel : nat) (l : Z) (s : links) : option Z := list_len_loop fuel l l 0 s.

(** ** Rings *)

(** From [a] the nodes [l] lead to [b]. *)
Fixpoint path (s : links) (a : Z) (l : list Z) (b : Z) : Prop :=
  match l with
  | [] => next s a = b /\ prev s b = a
  | x :: l => (next s a = x /\ prev s x = a) /\ path s x l b
  end.

(** The list with head [h] has the members [l]. *)
Definition ring (s : links) (h : Z) (l : list Z) : Prop := NoDup (h :: l) /\ path s h l h.

Lemma path_app s l k : forall a b x,
  path s a (l ++ x :: k) b <-> path s a l x /\ path s x k b.
Proof. induction l as [|y l IH]; intros a b x; simpl; [tauto|]. rewrite IH. tauto. Qed.

(** A path depends on the forward links of its nodes but the last and the back
    links of its nodes but the first. *)
Lemma path_agree s s' l : forall a b,
  (forall x, x ∈ a :: l -> next s' x = next s x) ->
  (forall x, x ∈ b :: l -> prev s' x = prev s x) ->
  path s a l b -> path s' a l b.
Proof.
  induction l as [|y l IH]; intros a b Hn Hp; simpl.
  - rewrite Hn, Hp by (apply elem_of_cons; by left). done.
  - intros [[H1 H2] H3]. split.
    + rewrite Hn, Hp by set_solver. done.
    + apply IH; [| |done].
      * intros x Hx. apply Hn. apply elem_of_cons. by right.
      * intros x Hx. apply Hp. apply elem_of_cons in Hx as [->|Hx]; set_solver.
Qed.

(** A node of a ring splits it. *)
Lemma ring_list_split s h l1 x l2 :
  ring s h (l1 ++ x :: l2) <->
  NoDup (h :: l1 ++ x :: l2) /\ path s h l1 x /\ path s x l2 h.
Proof. unfold ring. by rewrite path_app. Qed.

(** Any member may be taken as the head. *)
Lemma ring_rotate s h l1 x l2 : ring s h (l1 ++ x :: l2) -> ring s x (l2 ++ h :: l1).
Proof.
  rewrite !ring_list_split. intros (Hd & H1 & H2). split; [|done].
  assert (x :: l2 ++ h :: l1 ≡ₚ h :: l1 ++ x :: l2) as ->; [|done].
  rewrite <- !Permutation_middle, (Permutation_app_comm l2 l1). apply perm_swap.
Qed.

(** Only the links of its nodes matter to a ring. *)
Lemma ring_agree s s' h l :
  (forall x, x ∈ h :: l -> next s' x = next s x /\ prev s' x = prev s x) ->
  ring s h l -> ring s' h l.
Proof.
  intros Heq [Hd Hp]. split; [done|]. eapply path_agree; [..|exact Hp]; intros x Hx; by apply Heq.
Qed.

(** Case analysis on the comparisons of the updates. *)
Ltac links := unfold set_next, set_prev; simpl; rewrite ?Z.eqb_refl; repeat case_cmp; subst; try done.

Lemma path_last s a l b : path s a l b -> prev s b = List.last l a.
Proof.
  revert a. induction l as [|x l IH]; intros a; simpl; [by intros []|].
  intros [_ H3]. apply IH in H3 as ->. destruct l as [|y l]; [done|]. apply last_default.
Qed.

Lemma insert_after_head s h l n :
  ring s h l -> n ∉ h :: l -> ring (rt_list_insert_after h n s) h (n :: l).
Proof.
  intros [Hd Hp] Hn. apply not_elem_of_cons in Hn as [Hnh Hnl].
  apply NoDup_cons in Hd as [Hhl Hd].
  split; [repeat (apply NoDup_cons; split); try set_solver; done|].
  unfold rt_list_insert_after. destruct l as [|y l]; cbn [path] in *.
  - destruct Hp as [H1 H2]. rewrite H1. split; links; lia.
  - destruct Hp as [[H1 H2] Hp].
    apply not_elem_of_cons in Hhl as [Hhy Hhl]. apply not_elem_of_cons in Hnl as [Hny Hnl].
    apply NoDup_cons in Hd as [Hyl Hd].
    rewrite H1. split; [split; links; lia|]. split; [split; links; lia|].
    apply (path_agree s); [| |done]; intros x Hx; apply elem_of_cons in Hx as [->|Hx]; links; set_solver.
Qed.

(** Inserting after a member. *)
Lemma insert_after_ok s h l1 x l2 n :
  ring s h (l1 ++ x :: l2) -> n ∉ h :: l1 ++ x :: l2 ->
  ring (rt_list_insert_after x n s) h (l1 ++ x :: n :: l2).
Proof.
  intros Hr Hn. apply ring_rotate in Hr. apply (insert_after_head _ _ _ n) in Hr; [|set_solver].
  by apply (ring_rotate _ _ (n :: l2) h l1) in Hr.
Qed.

(** Inserting before a node is inserting after the node before it. *)
Lemma insert_before_after s h l n : ring s h l -> n ∉ h :: l ->
  forall x, next (rt_list_insert_before h n s) x = next (rt_list_insert_after (prev s h) n s) x /\
            prev (rt_list_insert_before h n s) x = prev (rt_list_insert_after (prev s h) n s) x.
Proof.
  intros [Hd Hp] Hn x.
  assert (next s (prev s h) = h) as Hnp.
  { destruct l as [|y l _] using rev_ind; [destruct Hp as [H1 H2]; congruence|].
    apply path_app in Hp as [_ [H1 H2]]. congruence. }
  assert (prev s h ∈ h :: l) as Hin.
  { rewrite (path_last _ _ _ _ Hp). destruct l as [|y l _] using rev_ind; [left|].
    rewrite List.last_last. set_solver. }
  assert (n <> prev s h) by set_solver. assert (n <> h) by set_solver.
  unfold rt_list_insert_before, rt_list_insert_after. rewrite Hnp. split; links; lia.
Qed.

Lemma insert_before_head s h l n :
  ring s h l -> n ∉ h :: l -> ring (rt_list_insert_before h n s) h (l ++ [n]).
Proof.
  intros Hr Hn. pose proof (insert_before_after s h l n Hr Hn) as Heq.
  apply (ring_agree (rt_list_insert_after (prev s h) n s)); [by intros; apply Heq|].
  pose proof Hr as [_ Hp]. rewrite (path_last _ _ _ _ Hp).
  destruct l as [|y l _] using rev_ind; [by apply insert_after_head|].
  rewrite List.last_last, <- app_assoc. by apply insert_after_ok.
Qed.

(** Inserting before a member. *)
Lemma insert_before_ok s h l1 x l2 n :
  ring s h (l1 ++ x :: l2) -> n ∉ h :: l1 ++ x :: l2 ->
  ring (rt_list_insert_before x n s) h (l1 ++ n :: x :: l2).
Proof.
  intros Hr Hn. apply ring_rotate in Hr. apply (insert_before_head _ _ _ n) in Hr; [|set_solver].
  rewrite <- app_assoc in Hr. apply ring_rotate in Hr. by rewrite <- app_assoc in Hr.
Qed.

Lemma remove_head s n y m :
  ring s n (y :: m) -> ring (rt_list_remove n s) y m /\ ring (rt_list_remove n s) n [].
Proof.
  intros [Hd [[H1 H2] Hp]]. apply NoDup_cons in Hd as [Hn Hd].
  assert (n <> y) by set_solver. pose proof (path_last _ _ _ _ Hp) as Hl.
  split.
  - split; [done|]. unfold rt_list_remove. rewrite H1.
    destruct m as [|z m _] using rev_ind.
    + simpl in Hl. links; lia || congruence.
    + rewrite List.last_last in Hl. apply path_app in Hp as [Hp [H3 H4]].
      assert (n <> z /\ y <> z) as [Hnz Hyz] by (apply NoDup_cons in Hd; set_solver).
      apply path_app. split.
      * apply (path_agree s); [| |done]; intros x Hx.
        -- assert (x <> n /\ x <> z) as [? ?].
           { apply NoDup_cons in Hd as [Hd1 Hd]. apply NoDup_app in Hd as (Hd2 & Hd3 & Hd4). set_solver. }
           rewrite Hl. links; lia.
        -- assert (x <> n /\ x <> y) as [? ?].
           { apply NoDup_cons in Hd as [Hd1 Hd]. set_solver. }
           rewrite Hl. links; lia.
      * simpl. rewrite Hl. links; lia.
  - split; [apply NoDup_singleton|]. simpl. links.
Qed.

Lemma remove_ok s h l1 n l2 :
  ring s h (l1 ++ n :: l2) ->
  ring (rt_list_remove n s) h (l1 ++ l2) /\ ring (rt_list_remove n s) n [].
Proof.
  intros Hr. apply ring_rotate in Hr. destruct l2 as [|y l2].
  - apply remove_head in Hr as [H1 H2]. by rewrite app_nil_r.
  - apply remove_head in Hr as [H1 H2]. split; [|done]. by apply ring_rotate in H1.
Qed.

(** Unlinked nodes and other rings are not touched. *)
Lemma remove_frame s n h l h' l' :
  ring s h (n :: l) \/ (n = h /\ ring s h l) -> ring s h' l' ->
  (forall x, x ∈ h' :: l' -> x ∉ n :: h :: l) -> ring (rt_list_remove n s) h' l'.
Proof.
  intros Hr Hr' Hdis. apply (ring_agree s); [|done]. intros x Hx. specialize (Hdis x Hx).
  assert (next s n ∈ n :: h :: l /\ prev s n ∈ n :: h :: l) as [Hn Hp].
  { destruct Hr as [[_ [[H1 H2] Hp]]|[-> [_ Hp]]].
    - rewrite H2. destruct l; simpl in Hp; destruct Hp as [H3 ?]; [|destruct H3 as [H3 _]]; rewrite H3; set_solver.
    - rewrite (path_last _ _ _ _ Hp). split.
      + destruct l; simpl in Hp; destruct Hp as [H3 ?]; [|destruct H3 as [H3 _]]; rewrite H3; set_solver.
      + destruct l as [|z l _] using rev_ind; [set_solver|]. rewrite List.last_last. set_solver. }
  unfold rt_list_remove. assert (x <> n) by set_solver.
  assert (x <> next s n) by set_solver. assert (x <> prev s n) by set_solver.
  split; links; try lia.
Qed.

Lemma isempty_ok s h l : ring s h l -> rt_list_isempty h s = bool_decide (l = []).
Proof.
  intros [Hd Hp]. unfold rt_list_isempty. destruct l as [|y l]; simpl in Hp.
  - destruct Hp as [-> _]. by rewrite Z.eqb_refl.
  - destruct Hp as [[-> _] _]. case_cmp; [|done]. subst. apply NoDup_cons in Hd as [Hd _].
    exfalso. apply Hd. apply elem_of_cons. by left.
Qed.

Lemma list_len_loop_ok s h l : forall a len fuel,
  h ∉ l -> path s a l h -> (length l < fuel)%nat ->
  list_len_loop fuel h a len s = Some (if bool_decide (l = []) then len else u32 (len + lenZ l)).
Proof.
  induction l as [|y l IH]; intros a len fuel Hh Hp Hf; destruct fuel as [|fuel]; simpl in Hf; try lia;
    simpl in *.
  - destruct Hp as [-> _]. by rewrite Z.eqb_refl.
  - destruct Hp as [[-> _] Hp]. apply not_elem_of_cons in Hh as [Hhy Hh]. case_cmp; [done|].
    rewrite (IH y) by (done || lia). f_equal. unfold lenZ. simpl.
    destruct l as [|z l]; [done|]. rewrite bool_decide_false by done. autorewrite with cint. f_equal. simpl. lia.
Qed.

(** ** Property *)

(** C35: the list operations of the kernel are the operations on the sequence
    of a list's members, for members at any position; a removed node is left a
    ring of its own, so that removing it again is harmless; a list is empty
    when its sequence is, and its length is found after as many steps as it
    has members. *)
Theorem rt_list_refines_seq s h l1 x l2 n :
  let l := l1 ++ x :: l2 in
  ring s h l -> n ∉ h :: l ->
  ring (rt_list_init n s) n [] /\
  ring (rt_list_insert_after h n s) h (n :: l) /\
  ring (rt_list_insert_before h n s) h (l ++ [n]) /\
  ring (rt_list_insert_after x n s) h (l1 ++ x :: n :: l2) /\
  ring (rt_list_insert_before x n s) h (l1 ++ n :: x :: l2) /\
  ring (rt_list_remove x s) h (l1 ++ l2) /\
  ring (rt_list_remove x s) x [] /\
  ring (rt_list_remove x (rt_list_remove x s)) h (l1 ++ l2) /\
  rt_list_isempty h s = bool_decide (l = []) /\
  rt_list_len (S (length l)) h s = Some (u32 (lenZ l)).
Proof.
  intros l Hr Hn. pose proof Hr as [Hd Hp]. destruct (remove_ok s h l1 x l2 Hr) as [Hr1 Hr2].
  split_and!.
  - split; [apply NoDup_singleton|]. simpl. links.
  - by apply insert_after_head.
  - by apply insert_before_head.
  - by apply insert_after_ok.
  - by apply insert_before_ok.
  - done.
  - done.
  - apply (remove_frame _ x x []); [by right|done|]. intros y Hy Hyx.
    assert (y = x) as -> by set_solver.
    apply NoDup_cons in Hd as [Hd1 Hd]. unfold l in *. apply NoDup_app in Hd as (Hd2 & Hd3 & Hd4).
    apply NoDup_cons in Hd4 as [Hd4 _]. set_solver.
  - by apply isempty_ok.
  - unfold rt_list_len. apply NoDup_cons in Hd as [Hd1 _].
    rewrite (list_len_loop_ok s h l) by (done || lia). rewrite bool_decide_false; [done|].
    unfold l. by destruct l1.
Qed.

Lemma rt_list_refines_seq_witness :
  let s := rt_list_insert_before 1 3 (rt_list_insert_before 1 2
             (rt_list_init 1 {| next := fun _ => 0; prev := fun _ => 0 |})) in
  ring s 1 [2; 3] /\ ring (rt_list_remove 2 s) 1 [3] /\ rt_list_len 3 1 s = Some 2.
Proof.
  intros s. assert (ring s 1 [2; 3]) as Hr.
  { split; [apply (bool_decide_unpack _); vm_compute; exact I|]. vm_compute. tauto. }
  split; [exact Hr|].
  destruct (rt_list_refines_seq s 1 [] 2 [3] 9 Hr) as (_ & _ & _ & _ & _ & H1 & _ & _ & _ & H2).
  { apply (bool_decide_unpack _). vm_compute. exact I. }
  by split.
Defined.
