(* ===== verification/Slist.v ===== *)
(** * Singly linked lists (rt-thread/include/rtservice.h)

    The nodes of the singly linked lists live in a store that gives each node its
    [next] link, or none.  The operations walk from the list's head; they are shown to be the
    operations on the sequence of the members. *)
From S2P Require Import Prelude.

Definition snodes : Type := Z -> option Z.

Definition slink (x : Z) (y : option Z) (s : snodes) : snodes := fun z => if z =? x then y else s z.

Definition rt_slist_init (l : Z) (s : snodes) : snodes := slink l None s.

(** while (node->next) node = node->next; *)
Fixpoint slist_end (fuel : nat) (node : Z) (s : snodes) : option Z :=
  match fuel with
  | O => None
  | S fuel => match s node with None => Some node | Some x => slist_end fuel x s end
  end.

Definition rt_slist_append (fuel : nat) (l n : Z) (s : snodes) : option snodes :=
  node ← slist_end fuel l s; Some (slink n None (slink node (Some n) s)).

Definition rt_slist_insert (l n : Z) (s : snodes) : snodes :=
  let s := slink n (s l) s in slink l (Some n) s.

Fixpoint slist_len_loop (fuel : nat) (list : option Z) (len : Z) (s : snodes) : option Z :=
  match fuel with
  | O => None
  | S fuel => match list with None => Some len | Some x => slist_len_loop fuel (s x) (u32 (len + 1)) s end
  end.

Definition rt_slist_len (fuel : nat) (l : Z) (s : snodes) : option Z := slist_len_loop fuel (s l) 0 s.

(** while (node->next && node->next != n) node = node->next; *)
Fixpoint slist_before (fuel : nat) (node n : Z) (s : snodes) : option Z :=
  match fuel with
  | O => None
  | S fuel =>
      match s node with
      | None => Some node
      | Some x => if x =? n then Some node else slist_before fuel x n s
      end
  end.

Definition rt_slist_remove (fuel : nat) (l n : Z) (s : snodes) : option snodes :=
  node ← slist_before fuel l n s;
  Some (match s node with Some x => slink node (s x) s | None => s end).

Definition rt_slist_first (l : Z) (s : snodes) : option Z := s l.
Definition rt_slist_tail (fuel : nat) (l : Z) (s : snodes) : option Z := slist_end fuel l s.
Definition rt_slist_next (n : Z) (s : snodes) : option Z := s n.
Definition rt_slist_isempty (l : Z) (s : snodes) : bool := bool_decide (s l = None).

(** ** Chains *)

(** From [a] the nodes [l] lead to [y]. *)
Fixpoint chain (s : snodes) (a : Z) (l : list Z) (y : option Z) : Prop :=
  match l with [] => s a = y | x :: l => s a = Some x /\ chain s x l y end.

(** The list with head [h] has the members [l]. *)
Definition slist (s : snodes) (h : Z) (l : list Z) : Prop := NoDup (h :: l) /\ chain s h l None.

Lemma slink_eq x y s : slink x y s x = y.
Proof. unfold slink. by rewrite Z.eqb_refl. Qed.

Lemma slink_ne x y s z : z <> x -> slink x y s z = s z.
Proof. intros H. unfold slink. by rewrite (proj2 (Z.eqb_neq _ _) H). Qed.

Lemma last_cons (l : list Z) y a : List.last (y :: l) a = List.last l y.
Proof. destruct l as [|z l]; [done|]. apply (last_default l z a y). Qed.

Lemma last_in l (a : Z) : List.last l a ∈ a :: l.
Proof. induction l as [|y l _] using rev_ind; [left|]. rewrite List.last_last. set_solver. Qed.

Lemma chain_app s l k x y : forall a, chain s a (l ++ x :: k) y <-> chain s a l (Some x) /\ chain s x k y.
Proof. induction l as [|z l IH]; intros a; simpl; [tauto|]. rewrite IH. tauto. Qed.

Lemma chain_agree s s' l y : forall a, (forall x, x ∈ a :: l -> s' x = s x) -> chain s a l y -> chain s' a l y.
Proof.
  induction l as [|z l IH]; intros a He; simpl; rewrite (He a) by left; [done|]. intros [H1 H2]. split; [done|].
  apply IH; [|done]. intros x Hx. apply He. by right.
Qed.

(** Only the link of the last node decides where a chain leads. *)
Lemma chain_relink s l y z : forall a, NoDup (a :: l) -> chain s a l y -> chain (slink (List.last l a) z s) a l z.
Proof.
  induction l as [|x l IH]; intros a Hd Hc; [apply slink_eq|]. rewrite last_cons. destruct Hc as [H1 H2].
  apply NoDup_cons in Hd as [Ha Hd]. split; [|by apply IH].
  rewrite slink_ne; [done|]. intros ->. apply Ha, last_in.
Qed.

Lemma slist_end_ok s l : forall a fuel, chain s a l None -> (length l < fuel)%nat -> slist_end fuel a s = Some (List.last l a).
Proof.
  induction l as [|y l IH]; intros a [|fuel] Hc Hf; simpl in Hf; try lia; [simpl in *; by rewrite Hc|].
  rewrite last_cons. destruct Hc as [H1 H2]. cbn [slist_end]. rewrite H1. apply IH; [done|lia].
Qed.

(** The node before [n], or the last one. *)
Lemma slist_before_ok s l1 n y : forall a fuel, chain s a l1 y -> y = Some n \/ y = None -> n ∉ l1 -> (length l1 < fuel)%nat ->
  slist_before fuel a n s = Some (List.last l1 a) /\ s (List.last l1 a) = y.
Proof.
  induction l1 as [|x l IH]; intros a [|fuel] Hc Hy Hn Hf; simpl in Hf; try lia.
  - simpl in *. rewrite Hc. split; [|done]. destruct Hy as [-> | ->]; [by rewrite Z.eqb_refl|done].
  - rewrite last_cons. destruct Hc as [H1 H2]. apply not_elem_of_cons in Hn as [Hnx Hn]. cbn [slist_before].
    rewrite H1, (proj2 (Z.eqb_neq _ _)) by congruence. apply IH; [done..|lia].
Qed.

(** ** Operations *)
Lemma slist_append_ok s h l n fuel : slist s h l -> n ∉ h :: l -> (length l < fuel)%nat ->
  exists s', rt_slist_append fuel h n s = Some s' /\ slist s' h (l ++ [n]) /\
    forall x, x ∉ h :: n :: l -> s' x = s x.
Proof.
  intros [Hd Hc] Hn Hf. unfold rt_slist_append. rewrite (slist_end_ok s l h fuel Hc Hf), some_bind.
  pose proof (last_in l h) as Hl. eexists. split; [done|]. split; [split|].
  - rewrite app_comm_cons. apply NoDup_app. split; [done|]. split; [|apply NoDup_singleton]. intros x Hx ->%list_elem_of_singleton. done.
  - apply chain_app. split; [|apply slink_eq]. eapply chain_agree; [|by eapply chain_relink].
    intros x Hx. apply slink_ne. by intros ->.
  - intros x Hx. rewrite !slink_ne; [done|..]; intros ->; set_solver.
Qed.

Lemma slist_insert_ok s h l n : slist s h l -> n ∉ h :: l -> slist (rt_slist_insert h n s) h (n :: l).
Proof.
  intros [Hd Hc] Hn. apply NoDup_cons in Hd as [Hh Hd]. apply not_elem_of_cons in Hn as [Hnh Hn]. split.
  - apply NoDup_cons. split; [set_solver|]. by apply NoDup_cons.
  - unfold rt_slist_insert. split; [apply slink_eq|].
    assert (chain (slink n (s h) s) n l None) as Hcn.
    { destruct l as [|y l]; simpl in *; rewrite slink_eq; [done|]. destruct Hc as [H1 H2]. split; [done|].
      apply (chain_agree s); [|done]. intros x Hx. apply slink_ne. set_solver. }
    eapply chain_agree; [|exact Hcn]. intros x Hx. apply slink_ne. set_solver.
Qed.

(** A member is removed; its own link stays. *)
Lemma slist_remove_ok s h l1 n l2 fuel : slist s h (l1 ++ n :: l2) -> (length l1 < fuel)%nat ->
  exists s', rt_slist_remove fuel h n s = Some s' /\ slist s' h (l1 ++ l2) /\ forall x, x ∉ h :: l1 -> s' x = s x.
Proof.
  intros [Hd Hc] Hf. apply chain_app in Hc as [H1 H2].
  pose proof Hd as Hd'. rewrite app_comm_cons in Hd'. apply NoDup_app in Hd' as (Hd1 & Hd12 & Hd2). apply NoDup_cons in Hd2 as [Hn2 Hd2].
  assert (n ∉ h :: l1) as Hn by (intros Hin; apply (Hd12 n Hin); left).
  unfold rt_slist_remove. destruct (slist_before_ok s l1 n (Some n) h fuel H1 ltac:(by left) ltac:(set_solver) Hf) as [-> E].
  rewrite some_bind, E. pose proof (last_in l1 h) as Hl. eexists. split; [done|]. split; [split|].
  - rewrite app_comm_cons. apply NoDup_app. split; [done|]. split; [|done]. intros x Hx Hx2. apply (Hd12 x Hx). by right.
  - destruct l2 as [|y l2].
    + rewrite app_nil_r. simpl in H2. rewrite H2. by eapply chain_relink.
    + simpl in H2. destruct H2 as [-> H2]. apply chain_app. split; [by eapply chain_relink|].
      apply (chain_agree s); [|done]. intros x Hx. apply slink_ne. intros ->. apply (Hd12 _ Hl). by right.
  - intros x Hx. apply slink_ne. by intros ->.
Qed.

(** Removing what is no member changes nothing. *)
Lemma slist_remove_absent s h l n fuel : slist s h l -> n ∉ l -> (length l < fuel)%nat -> rt_slist_remove fuel h n s = Some s.
Proof.
  intros [_ Hc] Hn Hf. unfold rt_slist_remove.
  destruct (slist_before_ok s l n None h fuel Hc ltac:(by right) Hn Hf) as [-> E]. by rewrite some_bind, E.
Qed.

Lemma slist_len_loop_ok s l : forall a len fuel, chain s a l None -> (length l < fuel)%nat ->
  slist_len_loop fuel (s a) len s = Some (if l then len else u32 (len + lenZ l)).
Proof.
  induction l as [|y l IH]; intros a len [|fuel] Hc Hf; simpl in Hf; try lia; [by rewrite Hc|].
  destruct Hc as [H1 H2]. rewrite H1. cbn [slist_len_loop]. rewrite IH; [|done|lia]. f_equal.
  unfold lenZ. destruct l as [|z l]; [done|]. rewrite wrap_add_l. f_equal. simpl. lia.
Qed.

(** The operations on the nodes are those on the sequence of the members: with
    enough steps to walk along the list, appending, inserting in front,
    removing (a member or not), the length, the first and the last node. *)
Lemma rt_slist_refines_seq s h l n fuel : slist s h l -> (length l < fuel)%nat -> lenZ l < 2 ^ 32 -> n <> h ->
  (n ∉ l -> (exists s', rt_slist_append fuel h n s = Some s' /\ slist s' h (l ++ [n])) /\
            slist (rt_slist_insert h n s) h (n :: l)) /\
  (exists s', rt_slist_remove fuel h n s = Some s' /\ slist s' h (filter (fun x => x <> n) l) /\ rt_slist_next n s' = s n) /\
  rt_slist_len fuel h s = Some (lenZ l) /\ rt_slist_first h s = head l /\
  rt_slist_tail fuel h s = Some (List.last l h) /\ rt_slist_isempty h s = bool_decide (l = []).
Proof.
  intros Hs Hf Hl Hnh. pose proof Hs as [Hd Hc]. split; [|split; [|split; [|split; [|split]]]].
  - intros Hn. assert (n ∉ h :: l) as Hn' by set_solver. split; [|by apply slist_insert_ok].
    destruct (slist_append_ok s h l n fuel Hs Hn' Hf) as (s' & E & H & _). eauto.
  - destruct (decide (n ∈ l)) as [Hin|Hn].
    + apply list_elem_of_split in Hin as (l1 & l2 & ->). apply NoDup_cons in Hd as [Hh Hd].
      assert (n ∉ l1 /\ n ∉ l2) as [H1 H2].
      { apply NoDup_app in Hd as (_ & H1 & H2). apply NoDup_cons in H2 as [H2 _]. split; [|done]. intros Hin. apply (H1 n Hin). left. }
      destruct (slist_remove_ok s h l1 n l2 fuel Hs) as (s' & E & H & Hx); [rewrite length_app in Hf; lia|].
      exists s'. split; [done|]. rewrite filter_app, filter_cons_False by tauto.
      rewrite (filter_all _ l1), (filter_all _ l2) by (intros x Hx' ->; done). split; [done|]. apply Hx. set_solver.
    + exists s. split; [by eapply slist_remove_absent|]. split; [|done]. by rewrite filter_all by (intros x Hx ->; done).
  - unfold rt_slist_len. rewrite (slist_len_loop_ok s l h 0 fuel Hc Hf). f_equal. destruct l; [done|].
    apply wrap_id. unfold fits, lenZ in *. lia.
  - unfold rt_slist_first. destruct l; simpl in *; [done|]. by destruct Hc.
  - by apply slist_end_ok.
  - unfold rt_slist_isempty. destruct l; simpl in Hc; [by rewrite Hc|]. destruct Hc as [-> _]. by rewrite !bool_decide_false.
Qed.
