(* ===== verification/Kernel.v ===== *)
(** * The kernel: objects, threads, the scheduler and timers

    State and operations of object.c, scheduler.c, thread.c, timer.c, clock.c,
    irq.c and idle.c of rt-thread/src (one processor, 32 priorities, no
    signals, no modules, no hooks installed).

    The intrusive lists are sequences of the objects linked in them, as
    RtList.v justifies: a thread's [tlist] node is in at most one of the queues,
    a timer's [row] node in at most one of the timer lists, and removing a node
    removes it from wherever it is.  A pointer is a number; a null pointer or
    one to no object, and a failed assertion, give [None] as the result.  An
    operation that calls [rt_schedule] and has something to do afterwards comes
    in two parts, the part before and the part the thread runs when the
    scheduler has come back to it. *)
From S2P Require Import Prelude Mem.

(** ** Constants *)
Definition RT_THREAD_PRIORITY_MAX : Z := 32.
Definition RT_TICK_MAX : Z := 0xffffffff.
Definition RT_NAME_MAX : nat := 8.

Definition RT_Object_Class_Thread : Z := 1.
Definition RT_Object_Class_Semaphore : Z := 2.
Definition RT_Object_Class_Mutex : Z := 3.
Definition RT_Object_Class_Event : Z := 4.
Definition RT_Object_Class_MailBox : Z := 5.
Definition RT_Object_Class_MessageQueue : Z := 6.
Definition RT_Object_Class_MemPool : Z := 8.
Definition RT_Object_Class_Device : Z := 9.
Definition RT_Object_Class_Timer : Z := 10.
Definition RT_Object_Class_Static : Z := 0x80.

Definition RT_THREAD_INIT : Z := 0.
Definition RT_THREAD_READY : Z := 1.
Definition RT_THREAD_SUSPEND : Z := 2.
Definition RT_THREAD_RUNNING : Z := 3.
Definition RT_THREAD_CLOSE : Z := 4.
Definition RT_THREAD_STAT_MASK : Z := 7.
Definition RT_THREAD_STAT_YIELD : Z := 8.

Definition RT_TIMER_FLAG_ACTIVATED : Z := 1.
Definition RT_TIMER_FLAG_PERIODIC : Z := 2.
Definition RT_TIMER_FLAG_SOFT_TIMER : Z := 4.
Definition RT_SOFT_TIMER_IDLE : Z := 1.
Definition RT_SOFT_TIMER_BUSY : Z := 0.

(** The byte '#' every stack is filled with. *)
Definition STACK_MAGIC : Z := 35.

(** [x & ~m] on bytes and words. *)
Definition clear (x m : Z) : Z := Z.ldiff x m.

(** ** State *)

(** Where a timer (or any kernel object) is: an object of its own, or the timer
    embedded in a thread. *)
Inductive obj := Obj (a : Z) | TimerOf (t : Z).

#[global] Instance obj_eq_dec : EqDecision obj.
Proof. solve_decision. Defined.

#[global] Instance obj_countable : Countable obj.
Proof.
  refine (inj_countable' (fun x => match x with Obj a => inl a | TimerOf t => inr t end)
    (fun x : Z + Z => match x with inl a => Obj a | inr t => TimerOf t end) _).
  by intros [].
Defined.

(** The lists a thread's [tlist] can be in: the ready list of a priority, the
    defunct list, the waiting threads of an IPC object (or memory pool), the
    waiting senders of a mailbox or message queue. *)
Inductive queue := QReady (p : Z) | QDefunct | QSuspend (o : Z) | QSender (o : Z).

#[global] Instance queue_eq_dec : EqDecision queue.
Proof. solve_decision. Defined.

Record rt_object := { name : list Z; type : Z; flag : Z }.

Definition set_flag (f : Z) (o : rt_object) : rt_object := {| o with flag := f |}.

Inductive timeout_func := thread_timeout (t : Z) | user_timeout_func (f param : Z).

Record rt_timer := {
  tm_parent : rt_object;
  tm_func : timeout_func;
  tm_init_tick : Z;
  timeout_tick : Z
}.

Record rt_thread := {
  th_parent : rt_object;
  sp : Z; entry : Z; parameter : Z; stack_addr : Z; stack_size : Z;
  stack_guard : Z;                 (** the byte at [stack_addr] *)
  error : Z;
  stat : Z;
  current_priority : Z; init_priority : Z; number_mask : Z;
  event_set : Z; event_info : Z;
  init_tick : Z; remaining_tick : Z;
  cleanup : option Z
}.

Record kernel := {
  object_list : Z -> list obj;     (** rt_object_container, by class *)
  threads : gmap Z rt_thread;
  timers : gmap obj rt_timer;
  queues : queue -> list Z;
  ready_group : Z;                 (** rt_thread_ready_priority_group *)
  current_thread : option Z;       (** rt_current_thread *)
  rt_current_priority : Z;
  lock_nest : Z;                   (** rt_scheduler_lock_nest *)
  interrupt_nest : Z;
  rt_tick : Z;
  timer_list : list obj;
  soft_timer_list : list obj;
  expired : list obj;              (** the list of rt_timer_check *)
  soft_expired : list obj;         (** the list of rt_soft_timer_check *)
  soft_timer_status : Z;
  kheap : heap
}.

(** The static thread objects of timer.c and idle.c. *)
Definition timer_thread : Z := -1.
Definition idle : Z := -2.

(** Code the kernel calls through pointers. *)
Class Callbacks := {
  user_timeout : Z -> Z -> kernel -> option kernel;
  user_cleanup : Z -> Z -> kernel -> option kernel
}.

(** ** Access *)
Definition upd_thread (t : Z) (f : rt_thread -> rt_thread) (k : kernel) : option kernel :=
  th ← threads k !! t; Some {| k with threads := <[t := f th]> (threads k) |}.

Definition upd_timer (x : obj) (f : rt_timer -> rt_timer) (k : kernel) : option kernel :=
  tm ← timers k !! x; Some {| k with timers := <[x := f tm]> (timers k) |}.

Definition set_queue (q : queue) (l : list Z) (k : kernel) : kernel :=
  {| k with queues := fun q' => if decide (q' = q) then l else queues k q' |}.

(** rt_list_remove(&(thread->tlist)). *)
Definition tlist_remove (t : Z) (k : kernel) : kernel :=
  {| k with queues := fun q => filter (fun x => x <> t) (queues k q) |}.

(** rt_list_insert_before and _after on a list head. *)
Definition push_back (q : queue) (t : Z) (k : kernel) : kernel := set_queue q (queues k q ++ [t]) k.
Definition push_front (q : queue) (t : Z) (k : kernel) : kernel := set_queue q (t :: queues k q) k.

Definition set_stat (s : Z) (th : rt_thread) : rt_thread := {| th with stat := s |}.
Definition set_error (e : Z) (th : rt_thread) : rt_thread := {| th with error := e |}.
Definition state_of (th : rt_thread) : Z := Z.land (stat th) RT_THREAD_STAT_MASK.

(** [s | (th->stat & ~RT_THREAD_STAT_MASK)] *)
Definition with_state (s : Z) (th : rt_thread) : rt_thread :=
  set_stat (Z.lor s (clear (stat th) RT_THREAD_STAT_MASK)) th.

Definition rt_thread_self (k : kernel) : option Z := current_thread k.
Definition rt_tick_get (k : kernel) : Z := rt_tick k.
Definition rt_tick_set (tick : Z) (k : kernel) : kernel := {| k with rt_tick := tick |}.

(** ** irq.c *)
Definition rt_interrupt_enter (k : kernel) : kernel :=
  {| k with interrupt_nest := u8 (interrupt_nest k + 1) |}.
Definition rt_interrupt_leave (k : kernel) : kernel :=
  {| k with interrupt_nest := u8 (interrupt_nest k - 1) |}.
Definition rt_interrupt_get_nest (k : kernel) : Z := interrupt_nest k.

Definition RT_DEBUG_NOT_IN_INTERRUPT (k : kernel) : option unit :=
  assert (rt_interrupt_get_nest k =? 0).
Definition RT_DEBUG_IN_THREAD_CONTEXT (k : kernel) : option unit :=
  _ ← rt_thread_self k; RT_DEBUG_NOT_IN_INTERRUPT k.

(** ** object.c: queries *)
Definition rt_object_is_systemobject (o : rt_object) : bool :=
  negb (Z.land (type o) RT_Object_Class_Static =? 0).
Definition rt_object_get_type (o : rt_object) : Z := clear (type o) RT_Object_Class_Static.

(** The object container: the classes of the configuration and the sizes of
    their structures on the target (32-bit pointers, one-byte enumerations). *)
Definition rt_object_container : list (Z * Z) :=
  [(RT_Object_Class_Thread, 128); (RT_Object_Class_Semaphore, 32); (RT_Object_Class_Mutex, 36);
   (RT_Object_Class_Event, 32); (RT_Object_Class_MailBox, 48); (RT_Object_Class_MessageQueue, 60);
   (RT_Object_Class_MemPool, 52); (RT_Object_Class_Device, 64); (RT_Object_Class_Timer, 44)].

Definition rt_object_get_information (cls : Z) : option (Z * Z) :=
  List.find (fun i => fst i =? cls) rt_object_container.

Definition rt_object_get_length (cls : Z) (k : kernel) : Z :=
  match rt_object_get_information cls with
  | Some _ => lenZ (object_list k cls)
  | None => 0
  end.

Definition rt_object_get_pointers (cls maxlen : Z) (k : kernel) : list obj :=
  if maxlen <=? 0 then []
  else match rt_object_get_information cls with
       | Some _ => take (Z.to_nat maxlen) (object_list k cls)
       | None => []
       end.

(** What rt_strncpy leaves in the name field. *)
Definition object_name (s : list Z) : list Z := take RT_NAME_MAX (s ++ replicate RT_NAME_MAX 0).

Definition list_of_class (cls : Z) (l : list obj) (k : kernel) : kernel :=
  {| k with object_list := fun c => if c =? cls then l else object_list k c |}.

(** rt_list_remove(&(object->list)). *)
Definition olist_remove (o : obj) (k : kernel) : kernel :=
  {| k with object_list := fun c => filter (fun x => x <> o) (object_list k c) |}.

(** ** timer.c: initialisation, removal, stopping, control *)
Definition _rt_timer_init (func : timeout_func) (time fl : Z) (tm : rt_timer) : rt_timer :=
  {| tm_parent := set_flag (clear fl RT_TIMER_FLAG_ACTIVATED) (tm_parent tm);
     tm_func := func; tm_init_tick := time; timeout_tick := 0 |}.

(** rt_list_remove on the timer's node: it is in one list at most. *)
Definition _rt_timer_remove (x : obj) (k : kernel) : kernel :=
  {| k with timer_list := filter (fun y => y <> x) (timer_list k);
            soft_timer_list := filter (fun y => y <> x) (soft_timer_list k);
            expired := filter (fun y => y <> x) (expired k);
            soft_expired := filter (fun y => y <> x) (soft_expired k) |}.

Definition rt_timer_list_next_timeout (l : list obj) (k : kernel) : option Z :=
  match l with
  | [] => Some RT_TICK_MAX
  | x :: _ => tm ← timers k !! x; Some (timeout_tick tm)
  end.

Definition rt_timer_next_timeout_tick (k : kernel) : option Z :=
  rt_timer_list_next_timeout (timer_list k) k.

Definition set_tflag (f : Z) (tm : rt_timer) : rt_timer :=
  {| tm with tm_parent := set_flag f (tm_parent tm) |}.
Definition tflag (tm : rt_timer) : Z := flag (tm_parent tm).
Definition has_flag (f m : Z) : bool := negb (Z.land f m =? 0).

Definition deactivate (tm : rt_timer) : rt_timer :=
  set_tflag (clear (tflag tm) RT_TIMER_FLAG_ACTIVATED) tm.
Definition activate (tm : rt_timer) : rt_timer :=
  set_tflag (Z.lor (tflag tm) RT_TIMER_FLAG_ACTIVATED) tm.

Definition is_timer (tm : rt_timer) : bool :=
  rt_object_get_type (tm_parent tm) =? RT_Object_Class_Timer.

Definition rt_timer_stop (x : obj) (k : kernel) : option (Z * kernel) :=
  tm ← timers k !! x;
  _ ← assert (is_timer tm);
  if negb (has_flag (tflag tm) RT_TIMER_FLAG_ACTIVATED) then Some (- RT_ERROR, k)
  else
    k ← upd_timer x deactivate (_rt_timer_remove x k);
    Some (RT_EOK, k).

(** The commands of rt_timer_control with their arguments. *)
Inductive timer_cmd := SET_TIME (tick : Z) | GET_TIME | SET_ONESHOT | SET_PERIODIC | GET_STATE | OTHER_CMD.

(** The second result is what the command writes through its argument. *)
Definition rt_timer_control (x : obj) (cmd : timer_cmd) (k : kernel) : option (option Z * kernel) :=
  tm ← timers k !! x;
  _ ← assert (is_timer tm);
  match cmd with
  | GET_TIME => Some (Some (tm_init_tick tm), k)
  | SET_TIME tick => k ← upd_timer x (fun tm => {| tm with tm_init_tick := u32 tick |}) k; Some (None, k)
  | SET_ONESHOT => k ← upd_timer x (fun tm => set_tflag (clear (tflag tm) RT_TIMER_FLAG_PERIODIC) tm) k; Some (None, k)
  | SET_PERIODIC => k ← upd_timer x (fun tm => set_tflag (Z.lor (tflag tm) RT_TIMER_FLAG_PERIODIC) tm) k; Some (None, k)
  | GET_STATE => Some (Some (if has_flag (tflag tm) RT_TIMER_FLAG_ACTIVATED then RT_TIMER_FLAG_ACTIVATED else 0), k)
  | OTHER_CMD => Some (None, k)
  end.

(** ** scheduler.c *)

(** The position of the lowest bit set in the 32-bit word, from 1; 0 if none. *)
Fixpoint ffs_loop (n : nat) (i v : Z) : Z :=
  match n with
  | O => 0
  | S n => if Z.testbit v i then i + 1 else ffs_loop n (i + 1) v
  end.

Definition __rt_ffs (value : Z) : Z := ffs_loop 32 0 value.

(** The stack grows downward.  An overflow stops the system for good. *)
Definition _rt_scheduler_stack_check (t : Z) (k : kernel) : option unit :=
  th ← threads k !! t;
  assert (negb (negb (stack_guard th =? STACK_MAGIC) || (sp th <=? stack_addr th) ||
                (u32 (stack_addr th + stack_size th) <? sp th))).

(** The head of the list of the lowest priority number that is ready: the
    thread and its list's priority. *)
Definition _get_highest_priority_thread (k : kernel) : option (Z * Z) :=
  let highest_ready_priority := __rt_ffs (ready_group k) - 1 in
  t ← head (queues k (QReady highest_ready_priority));
  Some (t, highest_ready_priority).

Definition rt_schedule_insert_thread (t : Z) (k : kernel) : option kernel :=
  th ← threads k !! t;
  if bool_decide (current_thread k = Some t) then upd_thread t (with_state RT_THREAD_RUNNING) k
  else
    k ← upd_thread t (with_state RT_THREAD_READY) k;
    let k := push_back (QReady (current_priority th)) t k in
    Some {| k with ready_group := Z.lor (ready_group k) (number_mask th) |}.

Definition rt_schedule_remove_thread (t : Z) (k : kernel) : option kernel :=
  th ← threads k !! t;
  let k := tlist_remove t k in
  match queues k (QReady (current_priority th)) with
  | [] => Some {| k with ready_group := clear (ready_group k) (number_mask th) |}
  | _ => Some k
  end.

(** Which thread is to run, and whether the current one goes back to its ready
    list. *)
Definition choose (cur to hp : Z) (cth : rt_thread) : Z * bool :=
  if state_of cth =? RT_THREAD_RUNNING then
    if current_priority cth <? hp then (cur, false)
    else if (current_priority cth =? hp) && (Z.land (stat cth) RT_THREAD_STAT_YIELD =? 0)
    then (cur, false)
    else (to, true)
  else (to, false).

Definition rt_schedule (k : kernel) : option kernel :=
  if negb (lock_nest k =? 0) then Some k
  else if ready_group k =? 0 then Some k
  else
    '(to, hp) ← _get_highest_priority_thread k;
    cur ← current_thread k;
    cth ← threads k !! cur;
    let '(to, need_insert_from_thread) := choose cur to hp cth in
    k ← (if state_of cth =? RT_THREAD_RUNNING
         then upd_thread cur (fun th => set_stat (clear (stat th) RT_THREAD_STAT_YIELD) th) k
         else Some k);
    if negb (to =? cur) then
      let k := {| k with rt_current_priority := u8 hp; current_thread := Some to |} in
      k ← (if (need_insert_from_thread : bool) then rt_schedule_insert_thread cur k else Some k);
      k ← rt_schedule_remove_thread to k;
      k ← upd_thread to (with_state RT_THREAD_RUNNING) k;
      _ ← _rt_scheduler_stack_check to k;
      Some k
    else
      k ← rt_schedule_remove_thread cur k;
      upd_thread cur (with_state RT_THREAD_RUNNING) k.

Definition rt_system_scheduler_init (k : kernel) : kernel :=
  {| k with lock_nest := 0; ready_group := 0;
            queues := fun q => match q with QReady p => if (0 <=? p) && (p <? RT_THREAD_PRIORITY_MAX) then [] else queues k q
                               | QDefunct => [] | _ => queues k q end |}.

Definition rt_system_scheduler_start (k : kernel) : option kernel :=
  '(to, _) ← _get_highest_priority_thread k;
  let k := {| k with current_thread := Some to |} in
  k ← rt_schedule_remove_thread to k;
  upd_thread to (set_stat RT_THREAD_RUNNING) k.

Definition rt_enter_critical (k : kernel) : kernel := {| k with lock_nest := i16 (lock_nest k + 1) |}.

Definition rt_exit_critical (k : kernel) : option kernel :=
  let n := i16 (lock_nest k - 1) in
  if n <=? 0 then
    let k := {| k with lock_nest := 0 |} in
    match current_thread k with Some _ => rt_schedule k | None => Some k end
  else Some {| k with lock_nest := n |}.

Definition rt_critical_level (k : kernel) : Z := u16 (lock_nest k).

(** ** object.c: operations *)
Definition rt_object_init (o : obj) (ob : rt_object) (cls : Z) (nm : list Z) (k : kernel)
  : option (rt_object * kernel) :=
  _ ← rt_object_get_information cls;
  let k := rt_enter_critical k in
  _ ← assert (bool_decide (o ∉ object_list k cls));
  k ← rt_exit_critical k;
  let ob := {| name := object_name nm; type := Z.lor cls RT_Object_Class_Static; flag := flag ob |} in
  Some (ob, list_of_class cls (o :: object_list k cls) k).

Definition rt_object_detach (o : obj) (ob : rt_object) (k : kernel) : rt_object * kernel :=
  ({| ob with type := 0 |}, olist_remove o k).

(** A null result leaves the kernel as rt_malloc left it. *)
Definition rt_object_allocate (cls : Z) (nm : list Z) (k : kernel)
  : option (option (Z * rt_object) * kernel) :=
  _ ← RT_DEBUG_NOT_IN_INTERRUPT k;
  info ← rt_object_get_information cls;
  '(p, h) ← rt_malloc (snd info) (kheap k);
  let k := {| k with kheap := h |} in
  match p with
  | None => Some (None, k)
  | Some a =>
      Some (Some (a, {| name := object_name nm; type := cls; flag := 0 |}),
            list_of_class cls (Obj a :: object_list k cls) k)
  end.

Definition rt_object_delete (a : Z) (ob : rt_object) (k : kernel) : option (rt_object * kernel) :=
  _ ← assert (negb (rt_object_is_systemobject ob));
  let k := olist_remove (Obj a) k in
  h ← rt_free (Some a) (kheap k);
  Some ({| ob with type := 0 |}, {| k with kheap := h |}).

(** ** thread.c: resuming, suspending *)
Definition is_thread (th : rt_thread) : bool :=
  rt_object_get_type (th_parent th) =? RT_Object_Class_Thread.

Definition rt_thread_resume (t : Z) (k : kernel) : option (Z * kernel) :=
  th ← threads k !! t;
  _ ← assert (is_thread th);
  if negb (state_of th =? RT_THREAD_SUSPEND) then Some (- RT_ERROR, k)
  else
    let k := tlist_remove t k in
    '(_, k) ← rt_timer_stop (TimerOf t) k;
    k ← rt_schedule_insert_thread t k;
    Some (RT_EOK, k).

Definition rt_thread_suspend (t : Z) (k : kernel) : option (Z * kernel) :=
  th ← threads k !! t;
  _ ← assert (is_thread th);
  let st := state_of th in
  if negb (st =? RT_THREAD_READY) && negb (st =? RT_THREAD_RUNNING) then Some (- RT_ERROR, k)
  else
    _ ← assert (negb (st =? RT_THREAD_RUNNING) || bool_decide (rt_thread_self k = Some t));
    k ← rt_schedule_remove_thread t k;
    k ← upd_thread t (with_state RT_THREAD_SUSPEND) k;
    '(_, k) ← rt_timer_stop (TimerOf t) k;
    Some (RT_EOK, k).

Definition rt_thread_timeout (t : Z) (k : kernel) : option kernel :=
  th ← threads k !! t;
  _ ← assert (state_of th =? RT_THREAD_SUSPEND);
  _ ← assert (is_thread th);
  k ← upd_thread t (set_error (- RT_ETIMEOUT)) k;
  let k := tlist_remove t k in
  k ← rt_schedule_insert_thread t k;
  rt_schedule k.

(** ** timer.c: starting *)

(** The new timer goes before the first one that times out later, with
    differences taken modulo 2^32 and less than half the range. *)
Fixpoint timer_insert (tick : Z) (x : obj) (k : kernel) (l : list obj) : option (list obj) :=
  match l with
  | [] => Some [x]
  | y :: l' =>
      t ← timers k !! y;
      if negb (u32 (timeout_tick t - tick) =? 0) && (u32 (timeout_tick t - tick) <? RT_TICK_MAX / 2)
      then Some (x :: l)
      else l' ← timer_insert tick x k l'; Some (y :: l')
  end.

Definition rt_timer_start (x : obj) (k : kernel) : option (Z * kernel) :=
  tm ← timers k !! x;
  _ ← assert (is_timer tm);
  let k := _rt_timer_remove x k in
  k ← upd_timer x deactivate k;
  _ ← assert (tm_init_tick tm <? RT_TICK_MAX / 2);
  let tick := u32 (rt_tick_get k + tm_init_tick tm) in
  k ← upd_timer x (fun tm => {| tm with timeout_tick := tick |}) k;
  let soft := has_flag (tflag tm) RT_TIMER_FLAG_SOFT_TIMER in
  l ← timer_insert tick x k (if soft then soft_timer_list k else timer_list k);
  let k := if soft then {| k with soft_timer_list := l |} else {| k with timer_list := l |} in
  k ← upd_timer x activate k;
  if soft then
    tt ← threads k !! timer_thread;
    if (soft_timer_status k =? RT_SOFT_TIMER_IDLE) && (state_of tt =? RT_THREAD_SUSPEND)
    then '(_, k) ← rt_thread_resume timer_thread k; k ← rt_schedule k; Some (RT_EOK, k)
    else Some (RT_EOK, k)
  else Some (RT_EOK, k).

(** Setting a thread's timer to [tick] and starting it, as every timed wait
    does. *)
Definition start_thread_timer (t tick : Z) (k : kernel) : option kernel :=
  '(_, k) ← rt_timer_control (TimerOf t) (SET_TIME tick) k;
  '(_, k) ← rt_timer_start (TimerOf t) k;
  Some k.

Definition rt_timer_init (x : obj) (tm : rt_timer) (nm : list Z) (func : timeout_func) (time fl : Z)
    (k : kernel) : option kernel :=
  '(ob, k) ← rt_object_init x (tm_parent tm) RT_Object_Class_Timer nm k;
  let tm := _rt_timer_init func time fl {| tm with tm_parent := ob |} in
  Some {| k with timers := <[x := tm]> (timers k) |}.

Definition rt_timer_detach (x : obj) (k : kernel) : option (Z * kernel) :=
  tm ← timers k !! x;
  _ ← assert (is_timer tm);
  _ ← assert (rt_object_is_systemobject (tm_parent tm));
  k ← upd_timer x deactivate (_rt_timer_remove x k);
  tm ← timers k !! x;
  let '(ob, k) := rt_object_detach x (tm_parent tm) k in
  k ← upd_timer x (fun tm => {| tm with tm_parent := ob |}) k;
  Some (RT_EOK, k).

Definition rt_timer_create (nm : list Z) (func : timeout_func) (time fl : Z) (k : kernel)
  : option (option Z * kernel) :=
  '(r, k) ← rt_object_allocate RT_Object_Class_Timer nm k;
  match r with
  | None => Some (None, k)
  | Some (a, ob) =>
      let tm := _rt_timer_init func time fl
                  {| tm_parent := ob; tm_func := func; tm_init_tick := 0; timeout_tick := 0 |} in
      Some (Some a, {| k with timers := <[Obj a := tm]> (timers k) |})
  end.

Definition rt_timer_delete (a : Z) (k : kernel) : option (Z * kernel) :=
  tm ← timers k !! Obj a;
  _ ← assert (is_timer tm);
  _ ← assert (negb (rt_object_is_systemobject (tm_parent tm)));
  k ← upd_timer (Obj a) deactivate (_rt_timer_remove (Obj a) k);
  '(_, k) ← rt_object_delete a (tm_parent tm) k;
  Some (RT_EOK, {| k with timers := delete (Obj a) (timers k) |}).

(** ** thread.c: the current thread *)
Definition rt_thread_yield (k : kernel) : option (Z * kernel) :=
  t ← rt_thread_self k;
  k ← upd_thread t (fun th =>
        set_stat (Z.lor (stat th) RT_THREAD_STAT_YIELD) {| th with remaining_tick := init_tick th |}) k;
  k ← rt_schedule k;
  Some (RT_EOK, k).

(** rt_thread_sleep up to the call of the scheduler, and the rest. *)
Definition rt_thread_sleep (tick : Z) (k : kernel) : option kernel :=
  t ← rt_thread_self k;
  th ← threads k !! t;
  _ ← assert (is_thread th);
  '(_, k) ← rt_thread_suspend t k;
  k ← start_thread_timer t tick k;
  rt_schedule k.

Definition rt_thread_sleep_end (t : Z) (k : kernel) : option (Z * kernel) :=
  k ← upd_thread t (fun th => if error th =? - RT_ETIMEOUT then set_error RT_EOK th else th) k;
  Some (RT_EOK, k).

Definition rt_thread_delay (tick : Z) (k : kernel) : option kernel := rt_thread_sleep tick k.

Definition rt_tick_from_millisecond (ms : Z) : Z :=
  if ms <? 0 then u32 (-1)
  else
    let tick := u32 (1000 * (Z.quot ms 1000)) in
    u32 (tick + Z.quot (1000 * (Z.rem ms 1000) + 999) 1000).

Definition rt_thread_mdelay (ms : Z) (k : kernel) : option kernel :=
  rt_thread_sleep (rt_tick_from_millisecond ms) k.

Definition rt_tick_get_millisecond (k : kernel) : Z := u32 (rt_tick_get k * 1).

(** rt_thread_delay_until: the new [*tick], and whether the thread went to
    sleep (the rest of the function is then still to run). *)
Definition rt_thread_delay_until (tick inc_tick : Z) (k : kernel) : option (Z * bool * kernel) :=
  t ← rt_thread_self k;
  th ← threads k !! t;
  _ ← assert (is_thread th);
  if u32 (rt_tick_get k - tick) <? inc_tick then
    let tick := u32 (tick + inc_tick - rt_tick_get k) in
    '(_, k) ← rt_thread_suspend t k;
    k ← start_thread_timer t tick k;
    k ← rt_schedule k;
    Some (tick, true, k)
  else Some (rt_tick_get k, false, k).

Definition rt_thread_delay_until_end (t : Z) (k : kernel) : option (Z * kernel) :=
  '(_, k) ← rt_thread_sleep_end t k; Some (rt_tick_get k, k).

(** ** thread.c: life and control *)
Definition set_priority (p : Z) (th : rt_thread) : rt_thread :=
  {| th with current_priority := p; number_mask := u32 (Z.shiftl 1 p) |}.

Definition rt_thread_startup (t : Z) (k : kernel) : option (Z * kernel) :=
  th ← threads k !! t;
  _ ← assert (state_of th =? RT_THREAD_INIT);
  _ ← assert (is_thread th);
  k ← upd_thread t (fun th => set_stat RT_THREAD_SUSPEND (set_priority (init_priority th) th)) k;
  '(_, k) ← rt_thread_resume t k;
  k ← match rt_thread_self k with Some _ => rt_schedule k | None => Some k end;
  Some (RT_EOK, k).

(** The command RT_THREAD_CTRL_CHANGE_PRIORITY of rt_thread_control. *)
Definition change_priority (t p : Z) (k : kernel) : option kernel :=
  th ← threads k !! t;
  _ ← assert (is_thread th);
  if state_of th =? RT_THREAD_READY then
    k ← rt_schedule_remove_thread t k;
    k ← upd_thread t (set_priority p) k;
    rt_schedule_insert_thread t k
  else upd_thread t (set_priority p) k.

Definition rt_hw_stack_init (stack : Z) : Z := RT_ALIGN_DOWN (u32 (stack + 4)) 8 - 64.

(** The thread's own fields, [th] being what the memory held. *)
Definition thread_fields (ent par stack size prio tick : Z) (th : rt_thread) : rt_thread :=
  {| th_parent := th_parent th;
     sp := rt_hw_stack_init (u32 (stack + size - 4)); entry := ent; parameter := par;
     stack_addr := stack; stack_size := size; stack_guard := STACK_MAGIC;
     error := RT_EOK; stat := RT_THREAD_INIT;
     current_priority := prio; init_priority := prio; number_mask := 0;
     event_set := event_set th; event_info := event_info th;
     init_tick := tick; remaining_tick := tick; cleanup := None |}.

Definition null_object : rt_object := {| name := replicate RT_NAME_MAX 0; type := 0; flag := 0 |}.

Definition null_timer : rt_timer :=
  {| tm_parent := null_object; tm_func := thread_timeout 0; tm_init_tick := 0; timeout_tick := 0 |}.

Definition null_thread : rt_thread :=
  {| th_parent := null_object; sp := 0; entry := 0; parameter := 0; stack_addr := 0; stack_size := 0;
     stack_guard := 0; error := 0; stat := 0; current_priority := 0; init_priority := 0;
     number_mask := 0; event_set := 0; event_info := 0; init_tick := 0; remaining_tick := 0;
     cleanup := None |}.

(** The thread, whose node is in no list, and its timer object are initialised. *)
Definition _rt_thread_init (t : Z) (th : rt_thread) (ent par stack size prio tick : Z) (k : kernel)
  : option kernel :=
  _ ← assert (prio <? RT_THREAD_PRIORITY_MAX);
  let th := thread_fields ent par stack size prio tick th in
  let k := {| k with threads := <[t := th]> (threads k) |} in
  rt_timer_init (TimerOf t) (default null_timer (timers k !! TimerOf t)) (name (th_parent th))
    (thread_timeout t) 0 0 k.

Definition rt_thread_init (t : Z) (nm : list Z) (ent par stack size prio tick : Z) (k : kernel)
  : option (Z * kernel) :=
  let th := default null_thread (threads k !! t) in
  '(ob, k) ← rt_object_init (Obj t) (th_parent th) RT_Object_Class_Thread nm k;
  k ← _rt_thread_init t {| th with th_parent := ob |} ent par stack size prio tick k;
  Some (RT_EOK, k).

Definition rt_thread_create (nm : list Z) (ent par size prio tick : Z) (k : kernel)
  : option (option Z * kernel) :=
  '(r, k) ← rt_object_allocate RT_Object_Class_Thread nm k;
  match r with
  | None => Some (None, k)
  | Some (t, ob) =>
      '(p, h) ← rt_malloc size (kheap k);
      let k := {| k with kheap := h |} in
      match p with
      | None => '(_, k) ← rt_object_delete t ob k; Some (None, k)
      | Some stack =>
          k ← _rt_thread_init t {| null_thread with th_parent := ob |} ent par stack size prio tick k;
          Some (Some t, k)
      end
  end.

Definition rt_thread_find (nm : list Z) (k : kernel) : option obj :=
  let cstr (s : list Z) := take RT_NAME_MAX (s ++ [0]) in
  let upto (s : list Z) := (fix go (s : list Z) := match s with [] => [] | 0 :: _ => [0] | c :: s => c :: go s end) s in
  List.find (fun o => match o with
                      | Obj t => match threads k !! t with
                                 | Some th => bool_decide (upto (name (th_parent th)) = upto (cstr nm))
                                 | None => false end
                      | TimerOf _ => false end) (object_list k RT_Object_Class_Thread).

(** ** Operations that call back *)
Section Callbacks.
Context {CB : Callbacks}.

Definition call_timeout (f : timeout_func) (k : kernel) : option kernel :=
  match f with
  | thread_timeout t => rt_thread_timeout t k
  | user_timeout_func f param => user_timeout f param k
  end.

(** The loop of rt_timer_check. *)
Fixpoint timer_check_loop (fuel : nat) (current_tick : Z) (k : kernel) : option kernel :=
  match fuel with
  | O => None
  | S fuel =>
      match timer_list k with
      | [] => Some k
      | x :: _ =>
          tm ← timers k !! x;
          if u32 (current_tick - timeout_tick tm) <? RT_TICK_MAX / 2 then
            let k := _rt_timer_remove x k in
            k ← (if has_flag (tflag tm) RT_TIMER_FLAG_PERIODIC then Some k else upd_timer x deactivate k);
            let k := {| k with expired := x :: expired k |} in
            k ← call_timeout (tm_func tm) k;
            let current_tick := rt_tick_get k in
            match expired k with
            | [] => timer_check_loop fuel current_tick k
            | _ =>
                let k := _rt_timer_remove x k in
                tm ← timers k !! x;
                k ← (if has_flag (tflag tm) RT_TIMER_FLAG_PERIODIC && has_flag (tflag tm) RT_TIMER_FLAG_ACTIVATED
                     then k ← upd_timer x deactivate k; '(_, k) ← rt_timer_start x k; Some k
                     else Some k);
                timer_check_loop fuel current_tick k
            end
          else Some k
      end
  end.

Definition rt_timer_check (fuel : nat) (k : kernel) : option kernel :=
  timer_check_loop fuel (rt_tick_get k) k.

(** The loop of rt_soft_timer_check; it runs in the timer thread. *)
Fixpoint rt_soft_timer_check (fuel : nat) (k : kernel) : option kernel :=
  match fuel with
  | O => None
  | S fuel =>
      match soft_timer_list k with
      | [] => Some k
      | x :: _ =>
          tm ← timers k !! x;
          if u32 (rt_tick_get k - timeout_tick tm) <? RT_TICK_MAX / 2 then
            let k := _rt_timer_remove x k in
            k ← (if has_flag (tflag tm) RT_TIMER_FLAG_PERIODIC then Some k else upd_timer x deactivate k);
            let k := {| k with soft_expired := x :: soft_expired k; soft_timer_status := RT_SOFT_TIMER_BUSY |} in
            k ← call_timeout (tm_func tm) k;
            let k := {| k with soft_timer_status := RT_SOFT_TIMER_IDLE |} in
            match soft_expired k with
            | [] => rt_soft_timer_check fuel k
            | _ =>
                let k := _rt_timer_remove x k in
                tm ← timers k !! x;
                k ← (if has_flag (tflag tm) RT_TIMER_FLAG_PERIODIC && has_flag (tflag tm) RT_TIMER_FLAG_ACTIVATED
                     then k ← upd_timer x deactivate k; '(_, k) ← rt_timer_start x k; Some k
                     else Some k);
                rt_soft_timer_check fuel k
            end
          else Some k
      end
  end.

(** A round of rt_thread_timer_entry up to the call of rt_soft_timer_check:
    the thread suspends itself, sleeps or goes on. *)
Definition rt_thread_timer_entry (k : kernel) : option kernel :=
  next_timeout ← rt_timer_list_next_timeout (soft_timer_list k) k;
  if next_timeout =? RT_TICK_MAX then
    t ← rt_thread_self k;
    '(_, k) ← rt_thread_suspend t k;
    rt_schedule k
  else
    let current_tick := rt_tick_get k in
    if u32 (next_timeout - current_tick) <? RT_TICK_MAX / 2
    then rt_thread_delay (u32 (next_timeout - current_tick)) k
    else Some k.

(** clock.c *)
Definition rt_tick_increase (fuel : nat) (k : kernel) : option kernel :=
  let k := rt_tick_set (u32 (rt_tick k + 1)) k in
  t ← rt_thread_self k;
  k ← upd_thread t (fun th => {| th with remaining_tick := u32 (remaining_tick th - 1) |}) k;
  th ← threads k !! t;
  k ← (if remaining_tick th =? 0 then
         k ← upd_thread t (fun th =>
               set_stat (Z.lor (stat th) RT_THREAD_STAT_YIELD) {| th with remaining_tick := init_tick th |}) k;
         rt_schedule k
       else Some k);
  rt_timer_check fuel k.

Definition _thread_cleanup_execute (t : Z) (k : kernel) : option kernel :=
  th ← threads k !! t;
  match cleanup th with Some f => user_cleanup f t k | None => Some k end.

(** The end of a thread: back to the memory's owner at once, or to the list of
    the threads the idle thread frees. *)
Definition bury (t : Z) (k : kernel) : option kernel :=
  th ← threads k !! t;
  if rt_object_is_systemobject (th_parent th) then
    let '(ob, k) := rt_object_detach (Obj t) (th_parent th) k in
    upd_thread t (fun th => {| th with th_parent := ob |}) k
  else Some (push_front QDefunct t k).

Definition rt_thread_exit (k : kernel) : option kernel :=
  t ← rt_thread_self k;
  k ← _thread_cleanup_execute t k;
  k ← rt_schedule_remove_thread t k;
  k ← upd_thread t (set_stat RT_THREAD_CLOSE) k;
  '(_, k) ← rt_timer_detach (TimerOf t) k;
  k ← bury t k;
  rt_schedule k.

Definition rt_thread_detach (t : Z) (k : kernel) : option (Z * kernel) :=
  th ← threads k !! t;
  _ ← assert (is_thread th);
  _ ← assert (rt_object_is_systemobject (th_parent th));
  if state_of th =? RT_THREAD_CLOSE then Some (RT_EOK, k)
  else
    k ← (if negb (state_of th =? RT_THREAD_INIT) then rt_schedule_remove_thread t k else Some k);
    k ← _thread_cleanup_execute t k;
    '(_, k) ← rt_timer_detach (TimerOf t) k;
    k ← upd_thread t (set_stat RT_THREAD_CLOSE) k;
    k ← bury t k;
    Some (RT_EOK, k).

Definition rt_thread_delete (t : Z) (k : kernel) : option (Z * kernel) :=
  th ← threads k !! t;
  _ ← assert (is_thread th);
  _ ← assert (negb (rt_object_is_systemobject (th_parent th)));
  if state_of th =? RT_THREAD_CLOSE then Some (RT_EOK, k)
  else
    k ← (if negb (state_of th =? RT_THREAD_INIT) then rt_schedule_remove_thread t k else Some k);
    k ← _thread_cleanup_execute t k;
    '(_, k) ← rt_timer_detach (TimerOf t) k;
    k ← upd_thread t (set_stat RT_THREAD_CLOSE) k;
    Some (RT_EOK, push_front QDefunct t k).

Inductive thread_cmd := CTRL_CHANGE_PRIORITY (p : Z) | CTRL_STARTUP | CTRL_CLOSE | CTRL_OTHER.

Definition rt_thread_control (t : Z) (cmd : thread_cmd) (k : kernel) : option (Z * kernel) :=
  th ← threads k !! t;
  _ ← assert (is_thread th);
  match cmd with
  | CTRL_CHANGE_PRIORITY p => k ← change_priority t (u8 p) k; Some (RT_EOK, k)
  | CTRL_STARTUP => rt_thread_startup t k
  | CTRL_CLOSE => if rt_object_is_systemobject (th_parent th) then rt_thread_detach t k
                  else rt_thread_delete t k
  | CTRL_OTHER => Some (RT_EOK, k)
  end.

(** idle.c: the loop over the defunct threads. *)
Fixpoint idle_loop (fuel : nat) (k : kernel) : option kernel :=
  match fuel with
  | O => None
  | S fuel =>
      match queues k QDefunct with
      | [] => Some k
      | t :: _ =>
          let k := tlist_remove t k in
          th ← threads k !! t;
          h ← rt_free (Some (stack_addr th)) (kheap k);
          let k := {| k with kheap := h |} in
          '(_, k) ← rt_object_delete t (th_parent th) k;
          idle_loop fuel {| k with threads := delete t (threads k); timers := delete (TimerOf t) (timers k) |}
      end
  end.

Definition rt_thread_idle_excute (k : kernel) : option kernel :=
  _ ← RT_DEBUG_NOT_IN_INTERRUPT k; idle_loop (S (length (queues k QDefunct))) k.

(** System initialisation: the stack addresses come from the linker. *)
Definition rt_system_timer_init (k : kernel) : kernel := {| k with timer_list := [] |}.

Definition rt_system_timer_thread_init (ent stack : Z) (k : kernel) : option kernel :=
  let k := {| k with soft_timer_list := [] |} in
  '(_, k) ← rt_thread_init timer_thread (bytes "timer") ent 0 stack 512 4 10 k;
  '(_, k) ← rt_thread_startup timer_thread k;
  Some k.

Definition rt_thread_idle_init (ent stack : Z) (k : kernel) : option kernel :=
  '(_, k) ← rt_thread_init idle (bytes "tidle0") ent 0 stack 256 (RT_THREAD_PRIORITY_MAX - 1) 32 k;
  '(_, k) ← rt_thread_startup idle k;
  Some k.

Definition rt_thread_idle_gethandler : Z := idle.

End Callbacks.

(** The kernel before rt_system_scheduler_init: all of its memory is zero. *)
Definition boot_kernel (h : heap) : kernel :=
  {| object_list := fun _ => []; threads := ∅; timers := ∅; queues := fun _ => [];
     ready_group := 0; current_thread := None; rt_current_priority := 0; lock_nest := 0;
     interrupt_nest := 0; rt_tick := 0; timer_list := []; soft_timer_list := []; expired := [];
     soft_expired := []; soft_timer_status := RT_SOFT_TIMER_IDLE; kheap := h |}.
