(* ===== verification/Idle.v ===== *)
(** * The idle thread (rt-thread/src/idle.c)

    The list of hooks (functions by their addresses) and a pass through the idle thread's loop, which calls them and then frees the
    threads that have ended ([rt_thread_idle_excute] of [Kernel]). *)
From S2P Require Import Prelude Kernel.

Definition RT_IDLE_HOOK_LIST_SIZE : nat := 4.

Abbreviation idle_hooks := (list (option Z)).

(** idle_hook_list when the system starts. *)
Definition no_hooks : idle_hooks := replicate RT_IDLE_HOOK_LIST_SIZE None.

(** The first entry that is [from] becomes [to]. *)
Fixpoint replace_first (from to : option Z) (l : idle_hooks) : option idle_hooks :=
  match l with
  | [] => None
  | x :: l => if decide (x = from) then Some (to :: l) else l ← replace_first from to l; Some (x :: l)
  end.

Definition rt_thread_idle_sethook (hook : option Z) (l : idle_hooks) : Z * idle_hooks :=
  match replace_first None hook l with Some l => (RT_EOK, l) | None => (- RT_EFULL, l) end.

Definition rt_thread_idle_delhook (hook : option Z) (l : idle_hooks) : Z * idle_hooks :=
  match replace_first hook None l with Some l => (RT_EOK, l) | None => (- RT_ENOSYS, l) end.

(** The hooks that are called, in order. *)
Definition hooks_called (l : idle_hooks) : list Z := omap id l.

Section Entry.
(** What a hook does. *)
Context {CB : Callbacks} (run_hook : Z -> kernel -> option kernel).

Fixpoint call_hooks (l : idle_hooks) (k : kernel) : option kernel :=
  match l with
  | [] => Some k
  | None :: l => call_hooks l k
  | Some h :: l => k ← run_hook h k; call_hooks l k
  end.

(** One pass through the loop of the idle thread. *)
Definition rt_thread_idle_entry (l : idle_hooks) (k : kernel) : option kernel := k ← call_hooks l k; rt_thread_idle_excute k.
End Entry.

(** ** The list of hooks *)
Lemma replace_first_some from to l l' : replace_first from to l = Some l' ->
  exists l1 l2, l = l1 ++ from :: l2 /\ from ∉ l1 /\ l' = l1 ++ to :: l2.
Proof.
  revert l'. induction l as [|x l IH]; intros l'; simpl; [done|]. case_decide as Hx.
  - intros [= <-]. exists [], l. subst. split; [done|]. split; [apply not_elem_of_nil|done].
  - destruct (replace_first from to l) as [k|]; [|done]. simpl. intros [= <-].
    destruct (IH k eq_refl) as (l1 & l2 & -> & Hn & ->). exists (x :: l1), l2. split; [done|].
    split; [|done]. by apply not_elem_of_cons.
Qed.

Lemma replace_first_none from to l : replace_first from to l = None <-> from ∉ l.
Proof.
  induction l as [|x l IH]; simpl; [split; [intros _; apply not_elem_of_nil|done]|].
  rewrite not_elem_of_cons, <- IH. case_decide as Hx; [subst; split; [done|by intros []]|].
  destruct (replace_first from to l); simpl; (split; [|by intros []]); [done|]. intros _. split; [congruence|done].
Qed.

Lemma replace_first_here from to l1 l2 : from ∉ l1 -> replace_first from to (l1 ++ from :: l2) = Some (l1 ++ to :: l2).
Proof.
  induction l1 as [|x l1 IH]; simpl; intros Hn; [by rewrite decide_True|].
  apply not_elem_of_cons in Hn as [Hx Hn]. rewrite decide_False by done. by rewrite IH.
Qed.

(** Setting a hook succeeds as long as an entry is free, and the hook is then called once more than
    before; the others keep their order. *)
Lemma idle_sethook_spec h l :
  if decide (None ∈ l) then exists l1 l2, hooks_called l = l1 ++ l2 /\
    fst (rt_thread_idle_sethook (Some h) l) = RT_EOK /\
    hooks_called (snd (rt_thread_idle_sethook (Some h) l)) = l1 ++ h :: l2
  else rt_thread_idle_sethook (Some h) l = (- RT_EFULL, l).
Proof.
  unfold rt_thread_idle_sethook. case_decide as Hn.
  - destruct (replace_first None (Some h) l) as [l'|] eqn:E; [|by apply replace_first_none in E].
    apply replace_first_some in E as (l1 & l2 & -> & _ & ->). exists (hooks_called l1), (hooks_called l2).
    unfold hooks_called. split; [by rewrite omap_app|]. split; [done|]. cbn [snd]. by rewrite omap_app.
  - by rewrite (proj2 (replace_first_none None (Some h) l)).
Qed.

(** A hook that was set and is deleted leaves the list as it was. *)
Lemma idle_hook_roundtrip h l l' : Some h ∉ l -> rt_thread_idle_sethook (Some h) l = (RT_EOK, l') ->
  rt_thread_idle_delhook (Some h) l' = (RT_EOK, l).
Proof.
  unfold rt_thread_idle_sethook, rt_thread_idle_delhook. intros Hh.
  destruct (replace_first None (Some h) l) as [l1|] eqn:E; [|done]. intros [= <-].
  apply replace_first_some in E as (a & b & -> & _ & ->). rewrite replace_first_here; [done|].
  intros Hin. apply Hh. apply elem_of_app. by left.
Qed.
