(* ===== verification/Sched.v ===== *)
(** * Scheduling: the ready lists, the current thread and what the scheduler picks

    The invariant that ties the ready bitmap, the ready lists, the threads'
    states and the current thread together, its preservation by the operations
    of Kernel.v, and the choice rt_schedule makes. *)
From S2P Require Import Prelude Mem Kernel.

(** ** Bits *)
Lemma ffs_loop_spec v n : forall i, 0 <= i ->
  match ffs_loop n i v with
  | 0 => forall j, i <= j < i + Z.of_nat n -> Z.testbit v j = false
  | r => i < r <= i + Z.of_nat n /\ Z.testbit v (r - 1) = true /\
         forall j, i <= j < r - 1 -> Z.testbit v j = false
  end.
Proof.
  induction n as [|n IH]; intros i Hi; [simpl; intros; lia|].
  cbn [ffs_loop]. destruct (Z.testbit v i) eqn:E.
  - destruct (i + 1) eqn:Ei; try lia. rewrite <- Ei. replace (i + 1 - 1) with i by lia.
    split_and!; [lia|lia|done|intros; lia].
  - specialize (IH (i + 1) ltac:(lia)). destruct (ffs_loop n (i + 1) v) eqn:Ef.
    + intros j Hj. destruct (Z.eq_dec j i) as [->|]; [done|]. apply IH. lia.
    + destruct IH as (H1 & H2 & H3). split_and!; [lia|lia|done|].
      intros j Hj. destruct (Z.eq_dec j i) as [->|]; [done|]. apply H3. lia.
    + destruct IH. lia.
Qed.

(** On a non-zero word [__rt_ffs] is one more than the lowest bit set. *)
Lemma ffs_spec v : fits 32 v -> v <> 0 ->
  let p := __rt_ffs v - 1 in
  0 <= p < 32 /\ Z.testbit v p = true /\ forall j, 0 <= j < p -> Z.testbit v j = false.
Proof.
  intros Hv Hnz. unfold __rt_ffs. pose proof (ffs_loop_spec v 32 0 ltac:(lia)) as H.
  destruct (ffs_loop 32 0 v) eqn:E.
  - exfalso. apply Hnz. apply Z.bits_inj_0. intros j.
    destruct (Z.ltb_spec j 0); [by apply Z.testbit_neg_r|].
    destruct (Z.ltb_spec j 32); [apply H; lia|].
    rewrite <- (wrap_id 32 v Hv). unfold wrap. by apply Z.mod_pow2_bits_high; lia.
  - destruct H as (H1 & H2 & H3). cbv zeta. split; [lia|]. split; [done|]. intros j Hj. apply H3. lia.
  - destruct H. lia.
Qed.

Lemma testbit_pow2 p j : 0 <= p -> Z.testbit (2 ^ p) j = (j =? p).
Proof.
  intros Hp. case_cmp; [subst; by apply Z.pow2_bits_true|]. apply Z.pow2_bits_false. lia.
Qed.

Lemma lor_bit g p j : 0 <= p -> Z.testbit (Z.lor g (2 ^ p)) j = Z.testbit g j || (j =? p).
Proof. intros. by rewrite Z.lor_spec, testbit_pow2. Qed.

Lemma clear_bit g p j : 0 <= p -> Z.testbit (clear g (2 ^ p)) j = Z.testbit g j && negb (j =? p).
Proof. intros. unfold clear. by rewrite Z.ldiff_spec, testbit_pow2. Qed.

Lemma fits_bits g : 0 <= g -> (forall j, 32 <= j -> Z.testbit g j = false) -> fits 32 g.
Proof.
  intros H0 Hj. split; [done|]. destruct (Z.ltb_spec g (2 ^ 32)) as [|Hge]; [done|].
  assert (32 <= Z.log2 g) by (apply Z.log2_le_pow2; lia).
  specialize (Hj (Z.log2 g) ltac:(done)). rewrite Z.bit_log2 in Hj; [done|lia].
Qed.

Lemma bits_fits g j : fits 32 g -> 32 <= j -> Z.testbit g j = false.
Proof.
  intros Hg Hj. rewrite <- (wrap_id 32 g Hg). unfold wrap. apply Z.mod_pow2_bits_high. lia.
Qed.

Lemma lor_fits g p : fits 32 g -> 0 <= p < 32 -> fits 32 (Z.lor g (2 ^ p)).
Proof.
  intros Hg Hp. apply fits_bits.
  - apply Z.lor_nonneg. unfold fits in Hg. split; [lia|]. apply Z.pow_nonneg. lia.
  - intros j Hj. rewrite lor_bit by lia. rewrite (bits_fits g j Hg Hj). case_cmp; [lia|done].
Qed.

Lemma clear_fits g p : fits 32 g -> 0 <= p -> fits 32 (clear g (2 ^ p)).
Proof.
  intros Hg Hp. apply fits_bits.
  - unfold clear. apply Z.ldiff_nonneg. unfold fits in Hg. lia.
  - intros j Hj. rewrite clear_bit by lia. by rewrite (bits_fits g j Hg Hj).
Qed.

(** ** Thread states *)
Lemma land7 s x : 0 <= s <= 7 ->
  Z.land (Z.lor s (clear x RT_THREAD_STAT_MASK)) RT_THREAD_STAT_MASK = s.
Proof.
  intros Hs. unfold clear, RT_THREAD_STAT_MASK. rewrite Z.land_lor_distr_l.
  replace (Z.land (Z.ldiff x 7) 7) with 0.
  - rewrite Z.lor_0_r. change 7 with (Z.ones 3). rewrite Z.land_ones by lia. apply Z.mod_small. lia.
  - symmetry. apply Z.bits_inj_0. intros j. rewrite Z.land_spec, Z.ldiff_spec. by destruct (Z.testbit 7 j), (Z.testbit x j).
Qed.

Lemma state_with_state s th : 0 <= s <= 7 -> state_of (with_state s th) = s.
Proof. intros. unfold state_of, with_state, set_stat. simpl. by apply land7. Qed.

Lemma state_clear_yield th :
  state_of (set_stat (clear (stat th) RT_THREAD_STAT_YIELD) th) = state_of th.
Proof.
  unfold state_of, set_stat, clear. simpl. apply Z.bits_inj'. intros j _.
  rewrite !Z.land_spec, Z.ldiff_spec.
  assert (Z.testbit RT_THREAD_STAT_MASK j = true -> Z.testbit RT_THREAD_STAT_YIELD j = false).
  { unfold RT_THREAD_STAT_MASK, RT_THREAD_STAT_YIELD. change 8 with (2 ^ 3). change 7 with (Z.ones 3).
    rewrite Z.testbit_ones by lia. rewrite testbit_pow2 by lia. lia. }
  destruct (Z.testbit RT_THREAD_STAT_MASK j); [rewrite H by done|]; by rewrite ?andb_true_r, ?andb_false_r.
Qed.

Lemma state_lor_yield th th' :
  stat th' = Z.lor (stat th) RT_THREAD_STAT_YIELD -> state_of th' = state_of th.
Proof.
  unfold state_of. intros ->. rewrite Z.land_lor_distr_l.
  change (Z.land RT_THREAD_STAT_YIELD RT_THREAD_STAT_MASK) with 0. apply Z.lor_0_r.
Qed.

(** ** The invariant *)
Definition queue_state (q : queue) : Z :=
  match q with QReady _ => RT_THREAD_READY | QDefunct => RT_THREAD_CLOSE | _ => RT_THREAD_SUSPEND end.

Definition prio_ok (th : rt_thread) : Prop :=
  0 <= current_priority th < RT_THREAD_PRIORITY_MAX /\ number_mask th = 2 ^ current_priority th.

(** A thread that has started and is not closed. *)
Definition active (th : rt_thread) : bool :=
  negb (state_of th =? RT_THREAD_INIT) && negb (state_of th =? RT_THREAD_CLOSE).

(** The ready lists and the bitmap say the same; a queue holds the threads in
    its state, once; a ready thread is in the list of its priority; only the
    current thread runs.  The threads in [xs] are in no queue and exempt. *)
Record inv_but (xs : list Z) (k : kernel) : Prop := {
  si_fits : fits 32 (ready_group k);
  si_bit : forall p, 0 <= p < 32 -> Z.testbit (ready_group k) p = negb (bool_decide (queues k (QReady p) = []));
  si_queue : forall q t, t ∈ queues k q ->
    exists th, threads k !! t = Some th /\ state_of th = queue_state q /\
               forall p, q = QReady p -> current_priority th = p;
  si_exempt : forall t q, t ∈ xs -> t ∉ queues k q;
  si_once : forall q q' t, t ∈ queues k q -> t ∈ queues k q' -> q = q';
  si_nodup : forall q, NoDup (queues k q);
  si_listed : forall t th, t ∉ xs -> threads k !! t = Some th ->
    state_of th = RT_THREAD_READY -> t ∈ queues k (QReady (current_priority th));
  si_running : forall t th, t ∉ xs -> threads k !! t = Some th ->
    state_of th = RT_THREAD_RUNNING -> current_thread k = Some t;
  si_prio : forall t th, t ∉ xs -> threads k !! t = Some th -> active th = true -> prio_ok th
}.

(** The current thread is never in a ready list. *)
Definition cur_ok (k : kernel) : Prop :=
  forall c th, current_thread k = Some c -> threads k !! c = Some th -> state_of th <> RT_THREAD_READY.

(** Every thread that has started and is not closed is a thread object with a
    timer object. *)
Definition objs_ok (k : kernel) : Prop :=
  forall t th, threads k !! t = Some th -> active th = true ->
    is_thread th = true /\ exists tm, timers k !! TimerOf t = Some tm /\ is_timer tm = true.

Record sched_inv (k : kernel) : Prop := {
  sv_inv : inv_but [] k;
  sv_cur : cur_ok k;
  sv_objs : objs_ok k
}.

(** No thread has overrun its stack. *)
Definition stack_fine (th : rt_thread) : Prop :=
  stack_guard th = STACK_MAGIC /\ stack_addr th < sp th <= u32 (stack_addr th + stack_size th).
Definition stacks_ok (k : kernel) : Prop := forall t th, threads k !! t = Some th -> stack_fine th.

Lemma stack_check_ok t th k :
  threads k !! t = Some th -> stack_fine th -> _rt_scheduler_stack_check t k = Some tt.
Proof.
  intros Ht (H1 & H2 & H3). unfold _rt_scheduler_stack_check. rewrite Ht, some_bind, H1, Z.eqb_refl.
  rewrite (proj2 (Z.leb_gt _ _) H2), (proj2 (Z.ltb_ge _ _) H3). done.
Qed.

(** ** Building blocks *)

(** The parts of the kernel the scheduler reads. *)
Definition same_sched (k k' : kernel) : Prop :=
  threads k' = threads k /\ queues k' = queues k /\ ready_group k' = ready_group k /\
  current_thread k' = current_thread k.

Lemma inv_same xs k k' : same_sched k k' -> inv_but xs k -> inv_but xs k'.
Proof. intros (H1 & H2 & H3 & H4) []. split; rewrite ?H1, ?H2, ?H3, ?H4; done. Qed.

(** A thread that is neither in a queue nor constrained. *)
Lemma inv_weaken k t : inv_but [] k -> (forall q, t ∉ queues k q) -> inv_but [t] k.
Proof.
  intros [] Ht. split; try done; intros; try (eapply si_listed0 || eapply si_running0 || eapply si_prio0;
    eauto; apply not_elem_of_nil).
  assert (t0 = t) as -> by (by apply list_elem_of_singleton). apply Ht.
Qed.

(** A thread of a state no queue holds is in no queue. *)
Lemma not_queued xs k t th q : inv_but xs k -> threads k !! t = Some th ->
  state_of th <> queue_state q -> t ∉ queues k q.
Proof. intros [] Ht Hs Hin. apply si_queue0 in Hin as (th' & H1 & H2 & _). congruence. Qed.

Lemma upd_thread_some t th f k :
  threads k !! t = Some th ->
  upd_thread t f k = Some {| k with threads := <[t := f th]> (threads k) |}.
Proof. unfold upd_thread. by intros ->. Qed.

(** An exempt thread may be changed at will. *)
Lemma inv_upd k t th f : inv_but [t] k -> threads k !! t = Some th ->
  inv_but [t] {| k with threads := <[t := f th]> (threads k) |}.
Proof.
  intros [] Ht. split; simpl; try done.
  - intros q x Hx. destruct (Z.eq_dec x t) as [->|Hne].
    + exfalso. apply (si_exempt0 t q); [by apply list_elem_of_singleton|done].
    + rewrite lookup_insert_ne by done. by apply si_queue0.
  - intros x th' Hx. assert (x <> t) by (intros ->; apply Hx; by apply list_elem_of_singleton).
    rewrite lookup_insert_ne by done. by apply si_listed0.
  - intros x th' Hx. assert (x <> t) by (intros ->; apply Hx; by apply list_elem_of_singleton).
    rewrite lookup_insert_ne by done. by apply si_running0.
  - intros x th' Hx. assert (x <> t) by (intros ->; apply Hx; by apply list_elem_of_singleton).
    rewrite lookup_insert_ne by done. by apply si_prio0.
Qed.

(** A thread outside the queues that does not claim to be in one, nor to run
    when it does not, is exempt no more. *)
Lemma inv_settle k t th : inv_but [t] k -> threads k !! t = Some th ->
  state_of th <> RT_THREAD_READY ->
  (state_of th = RT_THREAD_RUNNING -> current_thread k = Some t) ->
  (active th = true -> prio_ok th) ->
  inv_but [] k.
Proof.
  intros [] Ht Hr Hc Hp.
  assert (forall x, x <> t -> x ∉ [t]) as Hne by (intros x Hx Hin; by apply list_elem_of_singleton in Hin).
  split; try done.
  - intros x q Hx. by apply elem_of_nil in Hx.
  - intros x th' _ Hx Hs. destruct (Z.eq_dec x t) as [->|]; [congruence|].
    apply si_listed0; auto.
  - intros x th' _ Hx Hs. destruct (Z.eq_dec x t) as [->|]; [apply Hc; congruence|].
    eapply si_running0; eauto.
  - intros x th' _ Hx Hs. destruct (Z.eq_dec x t) as [->|]; [simplify_eq; auto|].
    eapply si_prio0; eauto.
Qed.

(** Nothing runs but exempt threads: the current thread may change. *)
Lemma inv_current xs k k' : inv_but xs k ->
  (forall t th, t ∉ xs -> threads k !! t = Some th -> state_of th <> RT_THREAD_RUNNING) ->
  threads k' = threads k -> queues k' = queues k -> ready_group k' = ready_group k -> inv_but xs k'.
Proof.
  intros [] Hr H1 H2 H3. split; rewrite ?H1, ?H2, ?H3; try done.
  intros t th Hx Ht Hs. by apply Hr in Ht.
Qed.

Lemma filter_nil_iff (l : list Z) t : t ∉ l -> filter (fun x => x <> t) l = l.
Proof.
  intros Ht. induction l as [|x l IH]; [done|]. apply not_elem_of_cons in Ht as [Hx Ht].
  rewrite filter_cons_True by (by intros ->). by rewrite IH.
Qed.

Lemma elem_of_remove q x t k : x ∈ queues (tlist_remove t k) q <-> x <> t /\ x ∈ queues k q.
Proof. simpl. by rewrite list_elem_of_filter. Qed.

(** Taking a thread out of whatever queue it is in, with the ready bit
    following. *)
Lemma remove_thread_ok k t th : inv_but [] k -> threads k !! t = Some th ->
  prio_ok th -> exists k', rt_schedule_remove_thread t k = Some k' /\ inv_but [t] k' /\
    threads k' = threads k /\ (forall q, queues k' q = filter (fun x => x <> t) (queues k q)) /\
    current_thread k' = current_thread k /\ timers k' = timers k /\ lock_nest k' = lock_nest k.
Proof.
  intros Hinv Ht [Hp Hmask]. pose proof Hinv as []. unfold rt_schedule_remove_thread.
  rewrite Ht, some_bind. unfold RT_THREAD_PRIORITY_MAX in *.
  set (p := current_priority th) in *.
  assert (forall g, fits 32 g ->
    (forall j, 0 <= j < 32 -> Z.testbit g j =
       negb (bool_decide (queues (tlist_remove t k) (QReady j) = []))) ->
    inv_but [t] {| (tlist_remove t k) with ready_group := g |}) as Hgen.
  { intros g Hg Hbit. split; simpl; try done.
    - intros q x Hx. apply elem_of_remove in Hx as [_ Hx]. by apply si_queue0.
    - intros x q Hx Hin. apply list_elem_of_singleton in Hx as ->. by apply elem_of_remove in Hin as [].
    - intros q q' x Hx Hx'. apply elem_of_remove in Hx as [_ Hx], Hx' as [_ Hx']. by eapply si_once0.
    - intros q. by apply NoDup_filter.
    - intros x th' Hx Hx' Hs. apply elem_of_remove. split.
      + intros ->. apply Hx. by apply list_elem_of_singleton.
      + apply si_listed0; [apply not_elem_of_nil|done|done].
    - intros x th' Hx. apply si_running0, not_elem_of_nil.
    - intros x th' Hx. apply si_prio0, not_elem_of_nil. }
  assert (forall j, j <> p -> queues (tlist_remove t k) (QReady j) = queues k (QReady j)) as Hother.
  { intros j Hj. apply filter_nil_iff. intros Hin. apply si_queue0 in Hin as (th' & H1 & _ & H2).
    simplify_eq. by apply Hj, eq_sym, H2. }
  destruct (queues (tlist_remove t k) (QReady p)) as [|y l] eqn:Eq.
  - eexists. split; [reflexivity|]. split; [|by split_and!].
    apply Hgen; rewrite Hmask; [by apply clear_fits; [|lia]|]. intros j Hj. rewrite clear_bit by lia.
    destruct (Z.eqb_spec j p) as [->|Hne]; [by rewrite Eq, andb_false_r|].
    rewrite Hother by done. rewrite si_bit0 by done. by rewrite andb_true_r.
  - eexists. split; [reflexivity|]. split; [|by split_and!].
    apply (inv_same _ {| (tlist_remove t k) with ready_group := ready_group k |}); [by split_and!|].
    apply Hgen; [done|]. intros j Hj. rewrite si_bit0 by done.
    destruct (Z.eq_dec j p) as [->|Hne]; [|by rewrite Hother].
    rewrite Eq. rewrite !bool_decide_false; [done|done|]. intros Hnil.
    simpl in Eq. by rewrite Hnil in Eq.
Qed.

(** The same for a thread that is not ready, whose removal leaves the ready
    lists alone. *)
Lemma tlist_remove_ok k t th : inv_but [] k -> threads k !! t = Some th ->
  state_of th <> RT_THREAD_READY -> inv_but [t] (tlist_remove t k).
Proof.
  intros Hinv Ht Hs. pose proof Hinv as [].
  assert (forall j, queues (tlist_remove t k) (QReady j) = queues k (QReady j)) as Hq.
  { intros j. apply filter_nil_iff. by eapply not_queued. }
  split; try done.
  - intros p Hp. rewrite Hq. by apply si_bit0.
  - intros q x Hx. apply elem_of_remove in Hx as [_ Hx]. by apply si_queue0.
  - intros x q Hx Hin. apply list_elem_of_singleton in Hx as ->. by apply elem_of_remove in Hin as [].
  - intros q q' x Hx Hx'. apply elem_of_remove in Hx as [_ Hx], Hx' as [_ Hx']. by eapply si_once0.
  - intros q. by apply NoDup_filter.
  - intros x th' Hx Hx' Hst. apply elem_of_remove. split.
    + intros ->. apply Hx. by apply list_elem_of_singleton.
    + apply si_listed0; [apply not_elem_of_nil|done|done].
  - intros x th' Hx. apply si_running0, not_elem_of_nil.
  - intros x th' Hx. apply si_prio0, not_elem_of_nil.
Qed.

(** Putting an exempt thread somewhere in a queue of its state. *)
Lemma enqueue_ok k t th q l g : inv_but [t] k -> threads k !! t = Some th ->
  state_of th = queue_state q -> (q <> QDefunct -> prio_ok th) -> l ≡ₚ t :: queues k q ->
  (forall p, q = QReady p -> current_priority th = p /\ g = Z.lor (ready_group k) (number_mask th)) ->
  (queue_state q <> RT_THREAD_READY -> g = ready_group k) ->
  inv_but [] {| (set_queue q l k) with ready_group := g |}.
Proof.
  intros Hinv Ht Hs Hpok Hperm Hq Hq'. pose proof Hinv as [].
  assert (forall p, q = QReady p -> 0 <= current_priority th < 32 /\ number_mask th = 2 ^ current_priority th) as Hpr.
  { intros p ->. by apply Hpok. }
  assert (forall x, x <> t -> x ∉ [t]) as Hne by (intros x Hx Hin; by apply list_elem_of_singleton in Hin).
  assert (forall q', t ∉ queues k q') as Hex by (intros; apply si_exempt0; by apply list_elem_of_singleton).
  assert (forall q', queues (set_queue q l k) q' = if decide (q' = q) then l else queues k q') as Hqs by done.
  assert (forall x q', x ∈ queues (set_queue q l k) q' <-> x ∈ queues k q' \/ (x = t /\ q' = q)) as Hin.
  { intros x q'. rewrite Hqs. destruct (decide (q' = q)) as [->|]; [|tauto].
    rewrite Hperm, elem_of_cons. tauto. }
  split; simpl.
  - destruct q as [p| | |]; simpl in *; [|rewrite Hq' by done; done..].
    destruct (Hq p eq_refl) as [_ ->], (Hpr p eq_refl) as [Hp Hmask]. rewrite Hmask. by apply lor_fits.
  - intros j Hj. destruct (decide (QReady j = q)) as [<-|Hnq].
    + destruct (Hq j eq_refl) as [Hcp ->], (Hpr j eq_refl) as [Hp Hmask]. rewrite Hmask, lor_bit, Hcp, Z.eqb_refl, orb_true_r by lia.
      rewrite bool_decide_false; [done|]. intros ->. by apply Permutation_nil_cons in Hperm.
    + rewrite <- si_bit0 by done. destruct q as [p| | |]; simpl in *; try (rewrite Hq' by done; done).
      destruct (Hq p eq_refl) as [Hcp ->], (Hpr p eq_refl) as [Hp Hmask]. rewrite Hmask, lor_bit by lia.
      case_cmp; [congruence|by rewrite orb_false_r].
  - intros q' x Hx. apply (Hin x q') in Hx as [Hx|[-> ->]]; [by apply si_queue0|].
    exists th. split_and!; [done|done|]. intros p ->. by apply Hq.
  - intros x q' Hx. by apply elem_of_nil in Hx.
  - intros q1 q2 x H1 H2. apply (Hin x q1) in H1. apply (Hin x q2) in H2.
    destruct H1 as [H1|[-> ->]], H2 as [H2|[? ->]]; subst; try done.
    + by eapply si_once0.
    + by apply Hex in H1.
    + by apply Hex in H2.
  - intros q'. destruct (decide (q' = q)) as [->|]; [|done]. rewrite Hperm. by apply NoDup_cons.
  - intros x th' _ Hx Hst. apply (Hin x (QReady (current_priority th'))).
    destruct (Z.eq_dec x t) as [->|]; [|left; apply si_listed0; auto].
    right. simplify_eq. split; [done|]. rewrite Hst in Hs.
    destruct q as [p| | |]; simpl in Hs; try done. by destruct (Hq p eq_refl) as [-> _].
  - intros x th' _ Hx Hst. destruct (Z.eq_dec x t) as [->|]; [|eapply si_running0; eauto].
    simplify_eq. rewrite Hst in Hs. by destruct q.
  - intros x th' _ Hx Hst. destruct (Z.eq_dec x t) as [->|]; [|eapply si_prio0; eauto].
    simplify_eq. apply Hpok. intros ->. unfold active in Hst. by rewrite Hs in Hst.
Qed.

(** What an operation on thread [t] leaves alone. *)
Record frame (t : Z) (th' : rt_thread) (k k' : kernel) : Prop := {
  fr_threads : threads k' = <[t := th']> (threads k);
  fr_current : current_thread k' = current_thread k;
  fr_timers : timers k' = timers k;
  fr_lock : lock_nest k' = lock_nest k
}.

Lemma objs_frame t th th' k k' : objs_ok k -> frame t th' k k' -> threads k !! t = Some th ->
  th_parent th' = th_parent th -> (active th' = true -> active th = true) ->
  objs_ok k'.
Proof.
  intros Ho [H1 _ H2 _] Ht Hpar Hc x thx. rewrite H1, H2. destruct (Z.eq_dec x t) as [->|].
  - rewrite lookup_insert_eq. intros [= <-] Hs. destruct (Ho t th Ht) as [Hth Htm]; [auto|].
    split; [|done]. unfold is_thread in *. by rewrite Hpar.
  - rewrite lookup_insert_ne by done. apply Ho.
Qed.

Lemma cur_frame t th' k k' : cur_ok k -> frame t th' k k' ->
  (current_thread k = Some t -> state_of th' <> RT_THREAD_READY) -> cur_ok k'.
Proof.
  intros Hc [H1 H2 _ _] Hn c th. rewrite H1, H2. intros Hcur. destruct (Z.eq_dec c t) as [->|].
  - rewrite lookup_insert_eq. intros [= <-]. auto.
  - rewrite lookup_insert_ne by done. by apply Hc.
Qed.

Definition insert_state (t : Z) (k : kernel) : Z :=
  if bool_decide (current_thread k = Some t) then RT_THREAD_RUNNING else RT_THREAD_READY.

(** Inserting an exempt thread: it is ready, at the end of its list, or it is
    the current thread and runs. *)
Lemma insert_thread_ok k t th : inv_but [t] k -> threads k !! t = Some th -> prio_ok th ->
  exists k', rt_schedule_insert_thread t k = Some k' /\ inv_but [] k' /\
    frame t (with_state (insert_state t k) th) k k' /\
    (current_thread k <> Some t ->
     forall q, queues k' q = if decide (q = QReady (current_priority th))
                             then queues k (QReady (current_priority th)) ++ [t] else queues k q) /\
    (current_thread k = Some t -> queues k' = queues k).
Proof.
  intros Hinv Ht Hp. unfold rt_schedule_insert_thread, insert_state. rewrite Ht, some_bind.
  destruct (bool_decide_reflect (current_thread k = Some t)) as [Hc|Hc].
  - rewrite (upd_thread_some t th) by done. eexists. split; [done|].
    split; [|split; [by split|by split]].
    eapply inv_settle; [by apply inv_upd|by simpl; rewrite lookup_insert_eq| | |].
    + by rewrite state_with_state.
    + done.
    + done.
  - rewrite (upd_thread_some t th), some_bind by done. set (k1 := {| k with threads := _ |}).
    eexists. split; [done|]. split; [|split; [by split|by split]].
    apply (enqueue_ok k1 t (with_state RT_THREAD_READY th)); [by apply inv_upd| | |done| | |].
    + simpl. by rewrite lookup_insert_eq.
    + by rewrite state_with_state.
    + by rewrite <- Permutation_cons_append.
    + intros p [= <-]. by split.
    + done.
Qed.

(** Stopping a timer does not concern the scheduler. *)
Lemma same_sched_refl k : same_sched k k.
Proof. by split_and!. Qed.

Lemma same_sched_trans k1 k2 k3 : same_sched k1 k2 -> same_sched k2 k3 -> same_sched k1 k3.
Proof. unfold same_sched. intuition congruence. Qed.

Definition timers_ok (k k' : kernel) : Prop :=
  forall x tm, timers k !! x = Some tm -> is_timer tm = true ->
    exists tm', timers k' !! x = Some tm' /\ is_timer tm' = true.

Lemma objs_same k k' : objs_ok k -> threads k' = threads k -> timers_ok k k' -> objs_ok k'.
Proof.
  intros Ho H1 Ht x th. rewrite H1. intros Hx Hs. destruct (Ho x th Hx Hs) as (Hth & tm & H2 & H3).
  split; [done|]. by apply (Ht _ tm).
Qed.

Lemma timers_ok_upd x f k : (forall tm, is_timer (f tm) = is_timer tm) ->
  forall k', upd_timer x f k = Some k' -> same_sched k k' /\ lock_nest k' = lock_nest k /\ timers_ok k k'.
Proof.
  intros Hf k'. unfold upd_timer. destruct (timers k !! x) as [tm|] eqn:E; [|done]. simpl.
  intros [= <-]. split; [by split_and!|]. split; [done|]. intros y tm' Hy Hi. simpl.
  destruct (decide (y = x)) as [->|].
  - rewrite lookup_insert_eq. simplify_eq. eexists. split; [done|]. by rewrite Hf.
  - rewrite lookup_insert_ne by done. eauto.
Qed.

Lemma is_timer_flag f tm : is_timer (set_tflag f tm) = is_timer tm.
Proof. done. Qed.

Lemma timers_ok_refl k k' : timers k' = timers k -> timers_ok k k'.
Proof. intros H x tm Hx. rewrite H. eauto. Qed.

Lemma timers_ok_trans k1 k2 k3 : timers_ok k1 k2 -> timers_ok k2 k3 -> timers_ok k1 k3.
Proof. intros H1 H2 x tm Hx Hi. destruct (H1 x tm Hx Hi) as (tm' & ? & ?). eauto. Qed.

Lemma timer_stop_ok x tm k : timers k !! x = Some tm -> is_timer tm = true ->
  exists r k', rt_timer_stop x k = Some (r, k') /\
    same_sched k k' /\ lock_nest k' = lock_nest k /\ timers_ok k k'.
Proof.
  intros Hx Hi. unfold rt_timer_stop. rewrite Hx, some_bind, Hi. simpl.
  destruct (has_flag _ _); simpl.
  - unfold upd_timer. simpl. rewrite Hx. simpl. eexists _, _. split; [done|].
    split; [by split_and!|]. split; [done|].
    intros y tm' Hy Hi'. simpl. destruct (decide (y = x)) as [->|].
    + rewrite lookup_insert_eq. simplify_eq. by eexists.
    + rewrite lookup_insert_ne by done. eauto.
  - eexists _, _. split; [done|]. split; [apply same_sched_refl|]. split; [done|]. by apply timers_ok_refl.
Qed.

(** ** The scheduler *)

(** The list the scheduler takes its thread from: the ready list of the
    smallest priority number that is not empty. *)
Definition best (k : kernel) (p : Z) : Prop :=
  0 <= p < RT_THREAD_PRIORITY_MAX /\ queues k (QReady p) <> [] /\
  forall j, queues k (QReady j) <> [] -> p <= j.

Lemma highest_ok k xs : inv_but xs k -> ready_group k <> 0 ->
  exists t p l, _get_highest_priority_thread k = Some (t, p) /\ queues k (QReady p) = t :: l /\ best k p.
Proof.
  intros [] Hg. destruct (ffs_spec _ si_fits0 Hg) as (Hp & Hb & Hlow).
  unfold _get_highest_priority_thread. set (p := __rt_ffs (ready_group k) - 1) in *.
  rewrite si_bit0 in Hb by done. apply negb_true_iff, bool_decide_eq_false in Hb.
  destruct (queues k (QReady p)) as [|t l] eqn:E; [done|].
  exists t, p, l. split_and!; [done|done|]. split_and!; try (unfold RT_THREAD_PRIORITY_MAX; lia).
  - by rewrite E.
  - intros j Hj. destruct (Z.leb_spec p j); [done|]. exfalso. apply Hj.
    destruct (Z.leb_spec 0 j).
    + specialize (Hlow j ltac:(lia)). rewrite si_bit0 in Hlow by lia.
      by apply negb_false_iff, bool_decide_eq_true in Hlow.
    + destruct (queues k (QReady j)) as [|x l'] eqn:Ej; [done|].
      destruct (si_queue0 (QReady j) x) as (th & Hx & Hs & Hc); [rewrite Ej; left|].
      exfalso. destruct (decide (x ∈ xs)) as [Hin|Hin].
      * apply (si_exempt0 x (QReady j) Hin). rewrite Ej. left.
      * destruct (si_prio0 x th Hin Hx) as [[? ?] _]; [unfold active; by rewrite Hs|]. rewrite (Hc j eq_refl) in *. lia.
Qed.

Lemma group_zero k xs : inv_but xs k -> ready_group k = 0 -> forall p, queues k (QReady p) = [].
Proof.
  intros [] Hg p. destruct (queues k (QReady p)) as [|x l] eqn:E; [done|]. exfalso.
  assert (x ∈ queues k (QReady p)) as Hin by (rewrite E; left).
  destruct (si_queue0 _ _ Hin) as (th & Hx & Hs & Hc).
  assert (x ∉ xs) as Hxs by (intros Hxs; by apply (si_exempt0 x (QReady p) Hxs)).
  destruct (si_prio0 x th Hxs Hx) as [Hp _]; [unfold active; by rewrite Hs|]. rewrite (Hc p eq_refl) in Hp.
  specialize (si_bit0 p Hp). rewrite Hg, Z.bits_0, E in si_bit0. done.
Qed.

(** Threads differ in their states only. *)
Definition stat_only (k k' : kernel) : Prop :=
  forall x, (fun th => set_stat 0 th) <$> threads k' !! x = (fun th => set_stat 0 th) <$> threads k !! x.

Lemma stat_only_insert t th s k k' :
  threads k !! t = Some th -> threads k' = <[t := set_stat s th]> (threads k) -> stat_only k k'.
Proof.
  intros Ht Hk x. rewrite Hk. destruct (Z.eq_dec x t) as [->|].
  - by rewrite lookup_insert_eq, Ht.
  - by rewrite lookup_insert_ne.
Qed.

Lemma stat_only_trans k1 k2 k3 : stat_only k1 k2 -> stat_only k2 k3 -> stat_only k1 k3.
Proof. intros H1 H2 x. by rewrite H2, H1. Qed.

Lemma stat_only_refl k k' : threads k' = threads k -> stat_only k k'.
Proof. intros H x. by rewrite H. Qed.

Lemma stat_only_lookup k k' x th : stat_only k k' -> threads k !! x = Some th ->
  exists th', threads k' !! x = Some th' /\ th' = set_stat (stat th') th.
Proof.
  intros Hs Hx. specialize (Hs x). rewrite Hx in Hs. simpl in Hs.
  destruct (threads k' !! x) as [th'|] eqn:E; [|done]. exists th'. split; [done|].
  simpl in Hs. injection Hs as Hs. destruct th, th'. unfold set_stat in *. simpl in *. by simplify_eq.
Qed.

Lemma stacks_stat_only k k' : stat_only k k' -> stacks_ok k -> stacks_ok k'.
Proof.
  intros Hs Hk x th' Hx. pose proof (Hs x) as H. rewrite Hx in H. simpl in H.
  destruct (threads k !! x) as [th|] eqn:E; [|done]. specialize (Hk x th E). simpl in H.
  injection H as H. destruct th, th'. unfold set_stat, stack_fine in *. simpl in *. simplify_eq. done.
Qed.

(** The current thread runs on. *)
Definition keeps (th : rt_thread) (p : Z) : bool :=
  (state_of th =? RT_THREAD_RUNNING) &&
  ((current_priority th <? p) ||
   ((current_priority th =? p) && (Z.land (stat th) RT_THREAD_STAT_YIELD =? 0))).

(** The queues when [c] has been put back, if it still runs, and [t] taken. *)
Definition switch_queues (c t : Z) (cth : rt_thread) (k : kernel) (q : queue) : list Z :=
  filter (fun x => x <> t)
    (if bool_decide (state_of cth = RT_THREAD_RUNNING /\ q = QReady (current_priority cth))
     then queues k q ++ [c] else queues k q).

Lemma choose_keeps cur to hp cth :
  choose cur to hp cth =
  if keeps cth hp then (cur, false) else (to, state_of cth =? RT_THREAD_RUNNING).
Proof.
  unfold choose, keeps. destruct (state_of cth =? RT_THREAD_RUNNING); [|done].
  destruct (current_priority cth <? hp); [done|]. by destruct ((current_priority cth =? hp) && _).
Qed.

(** Clearing the yield flag of the running thread. *)
Lemma clear_yield_ok k c th : sched_inv k -> threads k !! c = Some th ->
  let k' := {| k with threads := <[c := set_stat (clear (stat th) RT_THREAD_STAT_YIELD) th]> (threads k) |} in
  state_of th = RT_THREAD_RUNNING -> sched_inv k'.
Proof.
  intros [Hi Hc Ho] Ht k' Hs.
  assert (frame c (set_stat (clear (stat th) RT_THREAD_STAT_YIELD) th) k k') as Hf by done.
  split.
  - apply (inv_settle k' c (set_stat (clear (stat th) RT_THREAD_STAT_YIELD) th)).
    + eapply inv_upd with (f := fun th => set_stat (clear (stat th) RT_THREAD_STAT_YIELD) th); [|done].
      apply inv_weaken; [done|]. intros q. eapply not_queued; [done..|]. rewrite Hs. by destruct q.
    + simpl. by rewrite lookup_insert_eq.
    + by rewrite state_clear_yield, Hs.
    + intros _. simpl. apply (si_running [] k Hi c th); [apply not_elem_of_nil|done|done].
    + intros _. apply (si_prio [] k Hi c th); [apply not_elem_of_nil|done|unfold active; by rewrite Hs].
  - eapply cur_frame; [done..|]. intros _. by rewrite state_clear_yield, Hs.
  - eapply objs_frame; [done..|]. unfold active. by rewrite state_clear_yield.
Qed.

(** The last steps of a switch to [t]: out of its list and running. *)
Lemma run_ok k t th : inv_but [] k -> objs_ok k -> stacks_ok k -> current_thread k = Some t ->
  threads k !! t = Some th -> state_of th = RT_THREAD_READY \/ state_of th = RT_THREAD_RUNNING ->
  exists k', (k ← rt_schedule_remove_thread t k;
              k ← upd_thread t (with_state RT_THREAD_RUNNING) k;
              _ ← _rt_scheduler_stack_check t k; Some k) = Some k' /\
             (k ← rt_schedule_remove_thread t k; upd_thread t (with_state RT_THREAD_RUNNING) k) = Some k' /\
    sched_inv k' /\ frame t (with_state RT_THREAD_RUNNING th) k k' /\
    forall q, queues k' q = filter (fun x => x <> t) (queues k q).
Proof.
  intros Hi Ho Hst Hc Ht Hs.
  assert (prio_ok th) as Hp.
  { apply (si_prio [] k Hi t th); [apply not_elem_of_nil|done|]. unfold active. by destruct Hs as [-> | ->]. }
  destruct (remove_thread_ok k t th Hi Ht Hp) as (k1 & -> & Hi1 & Hth & Hq & Hcur & Htm & Hlk).
  rewrite !some_bind. rewrite (upd_thread_some t th) by (by rewrite Hth). rewrite some_bind.
  set (k2 := {| k1 with threads := _ |}).
  rewrite (stack_check_ok t (with_state RT_THREAD_RUNNING th)).
  2: { simpl. by rewrite lookup_insert_eq. }
  2: { destruct (Hst t th Ht) as (? & ? & ?). by split_and!. }
  exists k2. split; [done|]. split; [done|].
  assert (frame t (with_state RT_THREAD_RUNNING th) k k2) as Hf.
  { split; simpl; try done. by rewrite Hth. }
  split; [|by split]. split.
  - apply (inv_settle k2 t (with_state RT_THREAD_RUNNING th)).
    + eapply inv_upd; [done|by rewrite Hth].
    + simpl. by rewrite lookup_insert_eq.
    + by rewrite state_with_state.
    + intros _. simpl. by rewrite Hcur.
    + done.
  - intros c' th'. rewrite (fr_threads _ _ _ _ Hf), (fr_current _ _ _ _ Hf), Hc. intros [= <-].
    rewrite lookup_insert_eq. intros [= <-]. by rewrite state_with_state.
  - eapply objs_frame; [done..|]. unfold active. by destruct Hs as [-> | ->].
Qed.

Lemma frame_stat_only t s th k k' : threads k !! t = Some th ->
  frame t (set_stat s th) k k' -> stat_only k k'.
Proof. intros Ht [H _ _ _]. by eapply stat_only_insert. Qed.

(** What rt_schedule does, whatever it finds. *)
Record scheduled (k k' : kernel) (c : Z) (cth : rt_thread) : Prop := {
  sc_inv : sched_inv k';
  sc_stat : stat_only k k';
  sc_timers : timers k' = timers k;
  sc_lock : lock_nest k' = lock_nest k;
  sc_running : negb (lock_nest k =? 0) || (ready_group k =? 0) = false ->
    forall n, current_thread k' = Some n ->
    exists nth, threads k' !! n = Some nth /\ state_of nth = RT_THREAD_RUNNING;
  sc_next :
    if negb (lock_nest k =? 0) || (ready_group k =? 0) then k' = k
    else exists p t l, best k p /\ queues k (QReady p) = t :: l /\
      if keeps cth p then current_thread k' = Some c /\ (forall q, queues k' q = queues k q)
      else current_thread k' = Some t /\ (forall q, queues k' q = switch_queues c t cth k q)
}.

(** Giving way: the current thread [c] is not to run on. *)
Lemma switch_ok k c cth t p l : sched_inv k -> stacks_ok k -> current_thread k = Some c ->
  threads k !! c = Some cth -> queues k (QReady p) = t :: l ->
  exists k', (let k := {| k with rt_current_priority := u8 p; current_thread := Some t |} in
      k ← (if state_of cth =? RT_THREAD_RUNNING then rt_schedule_insert_thread c k else Some k);
      k ← rt_schedule_remove_thread t k;
      k ← upd_thread t (with_state RT_THREAD_RUNNING) k;
      _ ← _rt_scheduler_stack_check t k; Some k) = Some k' /\
    sched_inv k' /\ stat_only k k' /\ timers k' = timers k /\ lock_nest k' = lock_nest k /\
    current_thread k' = Some t /\
    (exists nth, threads k' !! t = Some nth /\ state_of nth = RT_THREAD_RUNNING) /\
    forall q, queues k' q = switch_queues c t cth k q.
Proof.
  intros [Hi Hc Ho] Hst Hcur Hct Hq. cbv zeta. set (k1 := {| k with rt_current_priority := u8 p; current_thread := Some t |}).
  assert (t ∈ queues k (QReady p)) as Hin by (rewrite Hq; left).
  destruct (si_queue [] k Hi _ _ Hin) as (th & Ht & Hts & Htp). simpl in Hts.
  assert (c <> t) as Hne by (intros ->; by apply (Hc t th)).
  destruct (Z.eqb_spec (state_of cth) RT_THREAD_RUNNING) as [Hr|Hr].
  - assert (inv_but [c] k1) as Hi1.
    { apply (inv_current _ k); try done.
      - apply inv_weaken; [done|]. intros q. eapply not_queued; [done..|]. rewrite Hr. by destruct q.
      - intros x thx Hx Hx' Hs. apply Hx, list_elem_of_singleton.
        assert (current_thread k = Some x); [|congruence].
        apply (si_running [] k Hi x thx); [apply not_elem_of_nil|done|done]. }
    destruct (insert_thread_ok k1 c cth Hi1 Hct) as (k2 & -> & Hi2 & Hf2 & Hq2 & _).
    { apply (si_prio [] k Hi c cth); [apply not_elem_of_nil|done|unfold active; by rewrite Hr]. }
    assert (current_thread k1 <> Some c) as Hnc by (simpl; congruence). specialize (Hq2 Hnc).
    rewrite some_bind. assert (stat_only k k2) as Hso by (by eapply (frame_stat_only c _ cth k1)).
    destruct Hf2 as [Hth2 Hcu2 Htm2 Hlk2]. cbn [threads timers current_thread lock_nest k1] in *.
    assert (threads k2 !! t = Some th) as Ht2 by (rewrite Hth2, lookup_insert_ne; done).
    assert (objs_ok k2) as Ho2.
    { eapply (objs_frame c _ _ k1 k2); [done|by split|done|done|]. unfold active. by rewrite Hr. }
    destruct (run_ok k2 t th Hi2 Ho2) as (k3 & -> & _ & Hi3 & Hf3 & Hq3);
      [by eapply stacks_stat_only|by rewrite Hcu2|done|by left|].
    exists k3. destruct Hf3 as [Hth3 Hcu3 Htm3 Hlk3] eqn:E. split_and!; try done; try congruence.
    + eapply stat_only_trans; [done|]. by eapply (frame_stat_only t _ th).
    + rewrite Hth3, lookup_insert_eq. eexists. split; [done|]. by rewrite state_with_state.
    + intros q. rewrite Hq3, Hq2. unfold switch_queues. f_equal. cbn [queues].
      destruct (decide (q = QReady (current_priority cth))) as [->|Hn].
      * by rewrite bool_decide_true.
      * rewrite bool_decide_false by tauto. done.
  - assert (inv_but [] k1) as Hi1.
    { apply (inv_current _ k); try done. intros x thx Hx Hx' Hs.
      assert (current_thread k = Some x) by (by apply (si_running [] k Hi x thx)).
      simplify_eq. }
    destruct (run_ok k1 t th Hi1) as (k3 & E3 & _ & Hi3 & Hf3 & Hq3); [done|done|done|done|by left|].
    rewrite some_bind. exists k3. split; [exact E3|]. destruct Hf3 as [Hth3 Hcu3 Htm3 Hlk3] eqn:E.
    split_and!; try done.
    + by eapply (frame_stat_only t _ th k1).
    + rewrite Hth3, lookup_insert_eq. eexists. split; [done|]. by rewrite state_with_state.
    + intros q. rewrite Hq3. unfold switch_queues. rewrite bool_decide_false by tauto. done.
Qed.

Lemma schedule_ok k c cth : sched_inv k -> stacks_ok k -> current_thread k = Some c ->
  threads k !! c = Some cth ->
  exists k', rt_schedule k = Some k' /\ scheduled k k' c cth.
Proof.
  intros Hs Hst Hcur Hct. pose proof Hs as [Hi Hc Ho]. unfold rt_schedule.
  destruct (lock_nest k =? 0) eqn:El; simpl.
  2: { exists k. split; [done|]. split; try done; by rewrite El. }
  destruct (ready_group k =? 0) eqn:Eg.
  { exists k. split; [done|]. split; try done; by rewrite El, Eg. }
  apply Z.eqb_neq in Eg. destruct (highest_ok k [] Hi Eg) as (t & p & l & Hh & Hq & Hb).
  rewrite Hh, some_bind, Hcur, some_bind, Hct, some_bind, choose_keeps.
  set (k0 := {| k with threads := <[c := set_stat (clear (stat cth) RT_THREAD_STAT_YIELD) cth]> (threads k) |}).
  set (cth0 := if state_of cth =? RT_THREAD_RUNNING
               then set_stat (clear (stat cth) RT_THREAD_STAT_YIELD) cth else cth).
  assert (exists k1, (if state_of cth =? RT_THREAD_RUNNING
         then upd_thread c (fun th => set_stat (clear (stat th) RT_THREAD_STAT_YIELD) th) k
         else Some k) = Some k1 /\ sched_inv k1 /\ stat_only k k1 /\ timers k1 = timers k /\
         lock_nest k1 = lock_nest k /\ current_thread k1 = current_thread k /\ queues k1 = queues k /\
         threads k1 !! c = Some cth0 /\ state_of cth0 = state_of cth /\
         current_priority cth0 = current_priority cth)
    as (k1 & Ek1 & Hs1 & Hso1 & Htm1 & Hlk1 & Hcu1 & Hq1 & Hc1 & Hst0 & Hp0).
  { unfold cth0. destruct (Z.eqb_spec (state_of cth) RT_THREAD_RUNNING) as [Hr|Hr].
    - rewrite (upd_thread_some c cth) by done. exists k0. split; [done|].
      split; [by apply clear_yield_ok|]. split; [by eapply stat_only_insert|].
      split_and!; try done; [simpl; by rewrite lookup_insert_eq|by rewrite state_clear_yield].
    - exists k. by split_and!. }
  assert (stacks_ok k1) as Hst1 by (by eapply stacks_stat_only).
  destruct (keeps cth p) eqn:Ek.
  - rewrite Ek1, some_bind, Z.eqb_refl. simpl.
    pose proof Ek as Ek'. unfold keeps in Ek'. apply andb_true_iff in Ek' as [Hr _]. apply Z.eqb_eq in Hr.
    destruct Hs1 as [Hi1 _ Ho1].
    destruct (run_ok k1 c cth0 Hi1 Ho1) as (k2 & _ & -> & Hs2 & Hf2 & Hq2); try done.
    { by rewrite Hcu1. }
    { right. by rewrite Hst0. }
    exists k2. split; [done|]. destruct Hf2 as [Hth2 Hcu2 Htm2 Hlk2] eqn:E.
    split; [done| |congruence|congruence| |].
    + eapply stat_only_trans; [done|]. by eapply (frame_stat_only c _ cth0).
    + intros _ n. rewrite Hcu2, Hcu1, Hcur. intros [= <-]. rewrite Hth2, lookup_insert_eq.
      eexists. split; [done|]. by rewrite state_with_state.
    + rewrite El. simpl. rewrite (proj2 (Z.eqb_neq _ _) Eg). exists p, t, l. split; [done|]. split; [done|].
      rewrite Ek.
      split; [congruence|]. intros q. rewrite Hq2, Hq1. apply filter_nil_iff.
      eapply not_queued; [exact Hi|done|]. rewrite Hr. by destruct q.
  - assert (t <> c) as Hne.
    { assert (t ∈ queues k (QReady p)) as Hin by (rewrite Hq; left).
      destruct (si_queue [] k Hi _ _ Hin) as (th & Ht & Hts & _). intros ->. by apply (Hc c th). }
    rewrite Ek1, some_bind. rewrite (proj2 (Z.eqb_neq _ _) Hne). simpl negb. cbv iota.
    destruct (switch_ok k1 c cth0 t p l Hs1 Hst1) as (k2 & E2 & Hs2 & Hso2 & Htm2 & Hlk2 & Hcu2 & Hrun2 & Hq2);
      [by rewrite Hcu1|done|by rewrite Hq1|].
    rewrite Hst0 in E2. exists k2. split; [exact E2|]. split; [done| |congruence|congruence| |].
    + by eapply stat_only_trans.
    + intros _ n. rewrite Hcu2. intros [= <-]. exact Hrun2.
    + rewrite El. simpl. rewrite (proj2 (Z.eqb_neq _ _) Eg). exists p, t, l. split; [done|]. split; [done|].
      rewrite Ek. split; [done|]. intros q. rewrite Hq2. unfold switch_queues. by rewrite Hst0, Hp0, Hq1.
Qed.

(** ** Suspending and resuming *)
Lemma suspend_ok k t th : sched_inv k -> threads k !! t = Some th ->
  state_of th = RT_THREAD_READY \/ state_of th = RT_THREAD_RUNNING ->
  exists k', rt_thread_suspend t k = Some (RT_EOK, k') /\ sched_inv k' /\
    threads k' = <[t := with_state RT_THREAD_SUSPEND th]> (threads k) /\
    (forall q, queues k' q = filter (fun x => x <> t) (queues k q)) /\
    current_thread k' = current_thread k /\ lock_nest k' = lock_nest k /\ timers_ok k k'.
Proof.
  intros [Hi Hc Ho] Ht Hs.
  destruct (Ho t th Ht) as (Hth & tm & Htm & Hit); [unfold active; by destruct Hs as [-> | ->]|].
  assert (prio_ok th) as Hp.
  { apply (si_prio [] k Hi t th); [apply not_elem_of_nil|done|]. unfold active. by destruct Hs as [-> | ->]. }
  unfold rt_thread_suspend. rewrite Ht, some_bind, Hth. simpl assert. rewrite some_bind. cbv zeta.
  replace (negb (state_of th =? RT_THREAD_READY) && negb (state_of th =? RT_THREAD_RUNNING)) with false
    by (by destruct Hs as [-> | ->]).
  assert (negb (state_of th =? RT_THREAD_RUNNING) || bool_decide (rt_thread_self k = Some t) = true) as ->.
  { destruct Hs as [-> | Hr]; [done|]. rewrite Hr. simpl. apply bool_decide_eq_true.
    apply (si_running [] k Hi t th); [apply not_elem_of_nil|done|done]. }
  simpl assert. rewrite some_bind.
  destruct (remove_thread_ok k t th Hi Ht Hp) as (k1 & -> & Hi1 & Hth1 & Hq1 & Hcu1 & Htm1 & Hlk1).
  rewrite some_bind, (upd_thread_some t th), some_bind by (by rewrite Hth1).
  set (k2 := {| k1 with threads := _ |}).
  assert (frame t (with_state RT_THREAD_SUSPEND th) k k2) as Hf.
  { split; simpl; try done. by rewrite Hth1. }
  assert (sched_inv k2) as [Hi2 Hc2 Ho2].
  { split.
    - apply (inv_settle k2 t (with_state RT_THREAD_SUSPEND th)).
      + eapply inv_upd; [done|by rewrite Hth1].
      + simpl. by rewrite lookup_insert_eq.
      + by rewrite state_with_state.
      + by rewrite state_with_state.
      + done.
    - eapply cur_frame; [done..|]. by rewrite state_with_state.
    - eapply objs_frame; [done..|]. unfold active. by destruct Hs as [-> | ->]. }
  destruct (timer_stop_ok (TimerOf t) tm k2) as (r & k3 & -> & Hss & Hlk & Htok); [by simpl; rewrite Htm1|done|].
  simpl. exists k3. destruct Hss as (E1 & E2 & E3 & E4). split; [done|]. split; [|split_and!].
  - split; [by apply (inv_same _ k2)| |by eapply objs_same].
    intros c thc. rewrite E4, E1. apply Hc2.
  - by rewrite E1, (fr_threads _ _ _ _ Hf).
  - intros q. rewrite E2. simpl. apply Hq1.
  - by rewrite E4.
  - by rewrite Hlk.
  - eapply timers_ok_trans; [|exact Htok]. by apply timers_ok_refl.
Qed.

(** A suspended thread that is not in the ready lists, put among the waiting
    threads of an object. *)
Lemma wait_ok k t th q l : sched_inv k -> threads k !! t = Some th ->
  state_of th = RT_THREAD_SUSPEND -> (forall q', t ∉ queues k q') -> queue_state q = RT_THREAD_SUSPEND ->
  l ≡ₚ t :: queues k q -> sched_inv (set_queue q l k).
Proof.
  intros [Hi Hc Ho] Ht Hs Hnq Hqs Hl. split; [|done|done].
  apply (inv_same _ {| (set_queue q l k) with ready_group := ready_group k |}); [by split_and!|].
  apply (enqueue_ok k t th); try done.
  - by apply inv_weaken.
  - by rewrite Hs, Hqs.
  - intros _. apply (si_prio [] k Hi t th); [apply not_elem_of_nil|done|]. unfold active. by rewrite Hs.
  - intros p ->. done.
Qed.

Definition resume_state (t : Z) (k : kernel) : Z := insert_state t k.

(** The queues when [t] has been taken out of the one it waits in and made
    ready. *)
Definition resume_queues (t : Z) (th : rt_thread) (k : kernel) (q : queue) : list Z :=
  if decide (q = QReady (current_priority th) /\ current_thread k <> Some t)
  then queues k q ++ [t] else filter (fun x => x <> t) (queues k q).

Lemma resume_core k t th f : sched_inv k -> threads k !! t = Some th ->
  state_of th = RT_THREAD_SUSPEND -> (forall th, th_parent (f th) = th_parent th) ->
  stat (f th) = stat th -> current_priority (f th) = current_priority th ->
  number_mask (f th) = number_mask th ->
  exists k2, upd_thread t f (tlist_remove t k) = Some k2 /\
  forall k3, same_sched k2 k3 -> lock_nest k3 = lock_nest k2 -> timers_ok k2 k3 ->
  exists k4, rt_schedule_insert_thread t k3 = Some k4 /\ sched_inv k4 /\
    threads k4 = <[t := with_state (resume_state t k) (f th)]> (threads k) /\
    (forall q, queues k4 q = resume_queues t th k q) /\
    current_thread k4 = current_thread k /\ lock_nest k4 = lock_nest k /\ timers_ok k k4.
Proof.
  intros [Hi Hc Ho] Ht Hs Hpar Hst Hcp Hnm.
  assert (prio_ok th) as Hp.
  { apply (si_prio [] k Hi t th); [apply not_elem_of_nil|done|]. unfold active. by rewrite Hs. }
  rewrite (upd_thread_some t th) by done. eexists. split; [done|]. intros k3 Hss Hlk Htok.
  set (k2 := {| (tlist_remove t k) with threads := _ |}) in *.
  assert (inv_but [t] k3) as Hi3.
  { apply (inv_same _ k2); [done|]. eapply inv_upd; [|done]. eapply tlist_remove_ok; [done..|]. by rewrite Hs. }
  destruct Hss as (E1 & E2 & E3 & E4).
  assert (threads k3 !! t = Some (f th)) as Ht3 by (rewrite E1; simpl; by rewrite lookup_insert_eq).
  destruct (insert_thread_ok k3 t (f th) Hi3 Ht3) as (k4 & -> & Hi4 & Hf4 & Hq4 & Hq4').
  { unfold prio_ok. by rewrite Hcp, Hnm. }
  exists k4. split; [done|].
  assert (insert_state t k3 = resume_state t k) as Hrs by (unfold resume_state, insert_state; by rewrite E4).
  assert (threads k4 = <[t := with_state (resume_state t k) (f th)]> (threads k)) as Hth4.
  { rewrite (fr_threads _ _ _ _ Hf4), E1, Hrs. simpl. by rewrite insert_insert_eq. }
  assert (frame t (with_state (resume_state t k) (f th)) {| k with timers := timers k4 |} k4) as Hf.
  { split; [exact Hth4| |done|].
    - rewrite (fr_current _ _ _ _ Hf4), E4. done.
    - by rewrite (fr_lock _ _ _ _ Hf4), Hlk. }
  assert (timers_ok k k4) as Htk.
  { eapply timers_ok_trans; [|by apply timers_ok_refl, (fr_timers _ _ _ _ Hf4)].
    eapply timers_ok_trans; [|exact Htok]. by apply timers_ok_refl. }
  split; [split|split_and!]; try done.
  - eapply cur_frame; [|exact Hf|].
    + done.
    + intros Hcu. simpl in Hcu. unfold resume_state, insert_state. rewrite bool_decide_true by done.
      by rewrite state_with_state.
  - eapply objs_frame; [|exact Hf|done| |unfold active; by rewrite Hs].
    + by apply (objs_same k).
    + simpl. apply Hpar.
  - intros q. unfold resume_queues. assert (forall q, queues k3 q = filter (fun x => x <> t) (queues k q)) as Hq3.
    { intros q'. by rewrite E2. }
    destruct (decide (current_thread k = Some t)) as [Hcu|Hcu].
    + rewrite decide_False by tauto. rewrite Hq4' by (by rewrite E4). apply Hq3.
    + rewrite Hq4 by (by rewrite E4). rewrite Hcp.
      assert (forall p, filter (fun x => x <> t) (queues k (QReady p)) = queues k (QReady p)) as Hfr.
      { intros p. apply filter_nil_iff. eapply not_queued; [exact Hi|done|]. by rewrite Hs. }
      destruct (decide (q = QReady (current_priority th))) as [->|Hn].
      * rewrite decide_True by done. by rewrite Hq3, Hfr.
      * rewrite decide_False by tauto. apply Hq3.
  - by rewrite (fr_current _ _ _ _ Hf).
  - by rewrite (fr_lock _ _ _ _ Hf).
Qed.

Lemma resume_ok k t th : sched_inv k -> threads k !! t = Some th -> state_of th = RT_THREAD_SUSPEND ->
  exists k', rt_thread_resume t k = Some (RT_EOK, k') /\ sched_inv k' /\
    threads k' = <[t := with_state (resume_state t k) th]> (threads k) /\
    (forall q, queues k' q = resume_queues t th k q) /\
    current_thread k' = current_thread k /\ lock_nest k' = lock_nest k /\ timers_ok k k'.
Proof.
  intros Hinv Ht Hs. pose proof Hinv as [_ _ Ho].
  destruct (Ho t th Ht) as (Hth & tm & Htm & Hit); [unfold active; by rewrite Hs|].
  unfold rt_thread_resume. rewrite Ht, some_bind, Hth. simpl assert. rewrite some_bind, Hs, Z.eqb_refl.
  cbn [negb]. cbv zeta.
  destruct (resume_core k t th id Hinv Ht Hs) as (k2 & E2 & Hk); [done..|].
  rewrite (upd_thread_some t th) in E2 by done. simplify_eq.
  destruct (timer_stop_ok (TimerOf t) tm (tlist_remove t k) Htm Hit) as (r & k3 & Hstop & Hss & Hlk & Htok).
  rewrite Hstop, some_bind.
  assert (<[t := id th]> (threads (tlist_remove t k)) = threads k) as Hid by (by apply insert_id).
  destruct (Hk k3) as (k4 & -> & Hr).
  - destruct Hss as (E1 & ? & ? & ?). split_and!; try done. by rewrite E1, Hid.
  - done.
  - done.
  - rewrite some_bind. by exists k4.
Qed.

Lemma resume_not_suspended k t th : threads k !! t = Some th -> is_thread th = true ->
  state_of th <> RT_THREAD_SUSPEND -> rt_thread_resume t k = Some (- RT_ERROR, k).
Proof.
  intros Ht Hth Hs. unfold rt_thread_resume. rewrite Ht, some_bind, Hth. simpl assert. rewrite some_bind.
  by rewrite (proj2 (Z.eqb_neq _ _) Hs).
Qed.

(** A thread whose wait times out is ready again with the error set; then the
    scheduler runs. *)
Lemma timeout_ok k t th c : sched_inv k -> stacks_ok k -> threads k !! t = Some th ->
  state_of th = RT_THREAD_SUSPEND -> current_thread k = Some c -> is_Some (threads k !! c) ->
  exists k1 cth k', threads k1 = <[t := with_state (resume_state t k) (set_error (- RT_ETIMEOUT) th)]> (threads k) /\
    (forall q, queues k1 q = resume_queues t th k q) /\ current_thread k1 = Some c /\
    timers_ok k k1 /\ lock_nest k1 = lock_nest k /\ sched_inv k1 /\
    threads k1 !! c = Some cth /\ rt_thread_timeout t k = Some k' /\ scheduled k1 k' c cth.
Proof.
  intros Hinv Hst Ht Hs Hcur [cth0 Hc]. pose proof Hinv as [_ _ Ho].
  destruct (Ho t th Ht) as (Hth & _); [unfold active; by rewrite Hs|].
  unfold rt_thread_timeout. rewrite Ht, some_bind, Hs, Z.eqb_refl. simpl assert. rewrite some_bind, Hth.
  simpl assert. rewrite some_bind. rewrite (upd_thread_some t th), some_bind by done. cbv zeta.
  destruct (resume_core k t th (set_error (- RT_ETIMEOUT)) Hinv Ht Hs) as (k2 & E2 & Hk); [done..|].
  rewrite (upd_thread_some t th) in E2 by done. simplify_eq.
  match goal with |- context [rt_schedule_insert_thread t ?x] => set (k3 := x) end.
  destruct (Hk k3) as (k4 & -> & Hinv4 & Hth4 & Hq4 & Hcu4 & Hlk4 & Htk4);
    [done|done|by apply timers_ok_refl|].
  rewrite some_bind.
  assert (exists cth, threads k4 !! c = Some cth) as [cth Hcth].
  { rewrite Hth4. destruct (Z.eq_dec c t) as [->|]; [rewrite lookup_insert_eq; eauto|].
    rewrite lookup_insert_ne by done. eauto. }
  assert (stacks_ok k4) as Hst4.
  { intros x thx. rewrite Hth4. destruct (Z.eq_dec x t) as [->|].
    - rewrite lookup_insert_eq. intros [= <-]. by apply (Hst t th).
    - rewrite lookup_insert_ne by done. apply Hst. }
  destruct (schedule_ok k4 c cth Hinv4 Hst4) as (k' & Hsch & Hsc); [by rewrite Hcu4|done|].
  exists k4, cth, k'. by rewrite Hcu4.
Qed.

(** Changing a thread's priority moves a ready thread to the end of the new
    list. *)
Lemma change_priority_ok k t th p : sched_inv k -> threads k !! t = Some th ->
  0 <= p < RT_THREAD_PRIORITY_MAX -> is_thread th = true ->
  exists k', change_priority t p k = Some k' /\ sched_inv k' /\
    threads k' !! t = Some (set_stat (match threads k' !! t with Some x => stat x | None => 0 end) (set_priority p th)) /\
    (forall x, x <> t -> threads k' !! x = threads k !! x) /\
    current_thread k' = current_thread k /\ lock_nest k' = lock_nest k /\ timers k' = timers k.
Proof.
  intros [Hi Hc Ho] Ht Hp Hth.
  assert (number_mask (set_priority p th) = 2 ^ p) as Hmask.
  { simpl. rewrite Z.shiftl_1_l. apply wrap_id. unfold fits, RT_THREAD_PRIORITY_MAX in *. split; [lia|].
    apply Z.pow_lt_mono_r; lia. }
  assert (prio_ok (set_priority p th)) as Hpok by (split; [done|exact Hmask]).
  unfold change_priority. rewrite Ht, some_bind, Hth. simpl assert. rewrite some_bind.
  destruct (Z.eqb_spec (state_of th) RT_THREAD_READY) as [Hr|Hr].
  - assert (prio_ok th) as Hp0.
    { apply (si_prio [] k Hi t th); [apply not_elem_of_nil|done|]. unfold active. by rewrite Hr. }
    destruct (remove_thread_ok k t th Hi Ht Hp0) as (k1 & -> & Hi1 & Hth1 & Hq1 & Hcu1 & Htm1 & Hlk1).
    rewrite some_bind, (upd_thread_some t th), some_bind by (by rewrite Hth1).
    set (k2 := {| k1 with threads := _ |}).
    assert (inv_but [t] k2) as Hi2 by (eapply inv_upd; [done|by rewrite Hth1]).
    assert (threads k2 !! t = Some (set_priority p th)) as Ht2 by (simpl; by rewrite lookup_insert_eq).
    destruct (insert_thread_ok k2 t _ Hi2 Ht2 Hpok) as (k3 & -> & Hi3 & Hf3 & _ & _).
    exists k3. split; [done|].
    assert (frame t (with_state (insert_state t k2) (set_priority p th)) k k3) as Hf.
    { destruct Hf3 as [E1 E2 E3 E4]. split; [|rewrite E2; simpl; done|rewrite E3; simpl; done|rewrite E4; simpl; done].
      rewrite E1. simpl. by rewrite insert_insert_eq, Hth1. }
    assert (current_thread k <> Some t) as Hnt by (intros Hcu; by apply (Hc t th)).
    split; [split; [done| |]|split_and!].
    + eapply cur_frame; [done..|]. intros Hcu. by rewrite Hcu in Hnt.
    + eapply objs_frame; [done..|]. intros _. unfold active. by rewrite Hr.
    + rewrite (fr_threads _ _ _ _ Hf), lookup_insert_eq. done.
    + intros x Hx. by rewrite (fr_threads _ _ _ _ Hf), lookup_insert_ne.
    + by rewrite (fr_current _ _ _ _ Hf).
    + by rewrite (fr_lock _ _ _ _ Hf).
    + by rewrite (fr_timers _ _ _ _ Hf).
  - rewrite (upd_thread_some t th) by done. eexists. split; [done|].
    set (k2 := {| k with threads := _ |}).
    assert (frame t (set_priority p th) k k2) as Hf by done.
    split; [split|split_and!]; try done.
    + destruct Hi. split; try done.
      * intros q x Hx. destruct (si_queue0 q x Hx) as (thx & Hx1 & Hx2 & Hx3).
        destruct (Z.eq_dec x t) as [->|]; [|exists thx; by rewrite (fr_threads _ _ _ _ Hf), lookup_insert_ne].
        simplify_eq. exists (set_priority p th). rewrite (fr_threads _ _ _ _ Hf), lookup_insert_eq.
        split_and!; [done|done|]. intros j ->. by rewrite Hx2 in Hr.
      * intros x thx Hx. rewrite (fr_threads _ _ _ _ Hf). destruct (Z.eq_dec x t) as [->|].
        -- rewrite lookup_insert_eq. intros [= <-] Hs. by rewrite <- Hs in Hr.
        -- rewrite lookup_insert_ne by done. by apply si_listed0.
      * intros x thx Hx. rewrite (fr_threads _ _ _ _ Hf). destruct (Z.eq_dec x t) as [->|].
        -- rewrite lookup_insert_eq. intros [= <-] Hs. apply (si_running0 t th); [apply not_elem_of_nil|done|done].
        -- rewrite lookup_insert_ne by done. by apply si_running0.
      * intros x thx Hx. rewrite (fr_threads _ _ _ _ Hf). destruct (Z.eq_dec x t) as [->|].
        -- rewrite lookup_insert_eq. by intros [= <-] _.
        -- rewrite lookup_insert_ne by done. by apply si_prio0.
    + eapply cur_frame; [done..|]. done.
    + eapply objs_frame; [done..|]. done.
    + simpl. by rewrite lookup_insert_eq.
    + intros x Hx. simpl. by rewrite lookup_insert_ne.
Qed.

(** A change of a thread that scheduling does not look at. *)
Definition benign (th th' : rt_thread) : Prop :=
  state_of th' = state_of th /\ th_parent th' = th_parent th /\
  current_priority th' = current_priority th /\ number_mask th' = number_mask th.

Lemma benign_ok k t th th' : sched_inv k -> threads k !! t = Some th -> benign th th' ->
  sched_inv {| k with threads := <[t := th']> (threads k) |}.
Proof.
  intros [[] Hc Ho] Ht (Hs & Hpar & Hp & Hm).
  assert (forall x, x <> t -> <[t := th']> (threads k) !! x = threads k !! x) as Hne
    by (intros; by apply lookup_insert_ne).
  split; [split|..]; simpl; try done.
  - intros q x Hx. destruct (si_queue0 q x Hx) as (thx & Hx1 & Hx2 & Hx3).
    destruct (Z.eq_dec x t) as [->|]; [|exists thx; by rewrite Hne].
    exists th'. rewrite lookup_insert_eq. simplify_eq. rewrite Hs, Hp. done.
  - intros x thx Hx. destruct (Z.eq_dec x t) as [->|]; [|rewrite Hne by done; by apply si_listed0].
    rewrite lookup_insert_eq. intros [= <-]. rewrite Hs, Hp. by apply si_listed0.
  - intros x thx Hx. destruct (Z.eq_dec x t) as [->|]; [|rewrite Hne by done; by apply si_running0].
    rewrite lookup_insert_eq. intros [= <-]. rewrite Hs. by apply si_running0.
  - intros x thx Hx. destruct (Z.eq_dec x t) as [->|]; [|rewrite Hne by done; by apply si_prio0].
    rewrite lookup_insert_eq. intros [= <-]. unfold active, prio_ok. rewrite Hs, Hp, Hm.
    intros Hst. by apply (si_prio0 t th).
  - intros c thc. simpl. intros Hcu. destruct (Z.eq_dec c t) as [->|]; [|rewrite Hne by done; by apply Hc].
    rewrite lookup_insert_eq. intros [= <-]. rewrite Hs. by apply (Hc t th).
  - intros x thx. simpl. destruct (Z.eq_dec x t) as [->|]; [|rewrite Hne by done; by apply Ho].
    rewrite lookup_insert_eq. intros [= <-]. unfold active, is_thread. rewrite Hs, Hpar. by apply (Ho t th).
Qed.

(** The kernel is in order: the scheduling invariant, sound stacks, and a
    current thread that exists. *)
Record kernel_ok (k : kernel) : Prop := {
  ko_sched : sched_inv k;
  ko_stacks : stacks_ok k;
  ko_current : forall c, current_thread k = Some c -> is_Some (threads k !! c)
}.

Lemma stack_fine_eq th th' : stack_guard th' = stack_guard th -> sp th' = sp th ->
  stack_addr th' = stack_addr th -> stack_size th' = stack_size th -> stack_fine th -> stack_fine th'.
Proof. unfold stack_fine. by intros -> -> -> ->. Qed.

Lemma kernel_ok_upd k k' t th' : stacks_ok k -> stack_fine th' ->
  (forall c, current_thread k = Some c -> is_Some (threads k !! c)) ->
  sched_inv k' -> threads k' = <[t := th']> (threads k) ->
  current_thread k' = current_thread k -> kernel_ok k'.
Proof.
  intros Hst Hf Hc Hs Hth Hcu. split; [done| |].
  - intros x thx. rewrite Hth. destruct (Z.eq_dec x t) as [->|].
    + rewrite lookup_insert_eq. by intros [= <-].
    + rewrite lookup_insert_ne by done. apply Hst.
  - intros c. rewrite Hcu, Hth. intros Hc'. destruct (Z.eq_dec c t) as [->|].
    + rewrite lookup_insert_eq. eauto.
    + rewrite lookup_insert_ne by done. by apply Hc.
Qed.

Lemma kernel_ok_schedule k k' c cth : kernel_ok k -> scheduled k k' c cth ->
  current_thread k = Some c -> threads k !! c = Some cth -> kernel_ok k'.
Proof.
  intros [Hs Hst Hc] Hsc Hcu Hct. pose proof Hsc as []. split; [done|by eapply stacks_stat_only|].
  assert (forall x th, threads k !! x = Some th -> is_Some (threads k' !! x)) as Hall.
  { intros x th Hx. destruct (stat_only_lookup _ _ _ _ sc_stat0 Hx) as (th' & -> & _). eauto. }
  intros c' Hc'. destruct (negb (lock_nest k =? 0) || (ready_group k =? 0)).
  - subst k'. by apply Hc.
  - destruct sc_next0 as (p & t & l & _ & Hq & Hn).
    destruct (keeps cth p); destruct Hn as [Hn _]; rewrite Hn in Hc'; simplify_eq; [by eapply Hall|].
    destruct Hs as [Hi _ _]. destruct (si_queue [] k Hi (QReady p) c') as (th & Ht & _); [rewrite Hq; left|].
    by eapply Hall.
Qed.

Lemma schedule_kernel_ok k k' : kernel_ok k -> rt_schedule k = Some k' -> kernel_ok k'.
Proof.
  intros Hk E. pose proof Hk as [Hs Hst Hc]. destruct (current_thread k) as [c|] eqn:Ec.
  - destruct (Hc c eq_refl) as [cth Hct]. destruct (schedule_ok k c cth Hs Hst Ec Hct) as (k1 & E1 & H1).
    rewrite E in E1. simplify_eq. by eapply kernel_ok_schedule.
  - unfold rt_schedule in E. destruct (negb (lock_nest k =? 0)); [by simplify_eq|].
    destruct (ready_group k =? 0); [by simplify_eq|].
    destruct (_get_highest_priority_thread k) as [[t p]|]; [|done]. simpl in E. by rewrite Ec in E.
Qed.

Lemma suspend_kernel_ok k k' t r : kernel_ok k -> rt_thread_suspend t k = Some (r, k') -> kernel_ok k'.
Proof.
  intros Hk E. pose proof Hk as [Hs Hst Hc]. unfold rt_thread_suspend in E.
  destruct (threads k !! t) as [th|] eqn:Ht; [|done].
  destruct (decide (state_of th = RT_THREAD_READY \/ state_of th = RT_THREAD_RUNNING)) as [Hd|Hd].
  - destruct (suspend_ok k t th Hs Ht Hd) as (k1 & E1 & Hs1 & Hth1 & _ & Hcu1 & _).
    unfold rt_thread_suspend in E1. rewrite Ht in E1. rewrite E1 in E. simplify_eq.
    eapply (kernel_ok_upd k); try done. by apply (Hst t th).
  - simpl in E. destruct (is_thread th); [|done]. simpl in E.
    replace (negb (state_of th =? RT_THREAD_READY) && negb (state_of th =? RT_THREAD_RUNNING)) with true in E
      by (destruct (Z.eqb_spec (state_of th) RT_THREAD_READY), (Z.eqb_spec (state_of th) RT_THREAD_RUNNING); tauto).
    by simplify_eq.
Qed.

Lemma resume_kernel_ok k k' t r : kernel_ok k -> rt_thread_resume t k = Some (r, k') -> kernel_ok k'.
Proof.
  intros Hk E. pose proof Hk as [Hs Hst Hc]. unfold rt_thread_resume in E.
  destruct (threads k !! t) as [th|] eqn:Ht; [|done].
  destruct (Z.eq_dec (state_of th) RT_THREAD_SUSPEND) as [Hd|Hd].
  - destruct (resume_ok k t th Hs Ht Hd) as (k1 & E1 & Hs1 & Hth1 & _ & Hcu1 & _).
    unfold rt_thread_resume in E1. rewrite Ht in E1. rewrite E1 in E. simplify_eq.
    eapply (kernel_ok_upd k); try done. by apply (Hst t th).
  - simpl in E. destruct (is_thread th); [|done]. simpl in E.
    rewrite (proj2 (Z.eqb_neq _ _) Hd) in E. simpl in E. by simplify_eq.
Qed.

Lemma yield_kernel_ok k k' r : kernel_ok k -> rt_thread_yield k = Some (r, k') -> kernel_ok k'.
Proof.
  intros Hk E. pose proof Hk as [Hs Hst Hc]. unfold rt_thread_yield, rt_thread_self in E.
  destruct (current_thread k) as [c|] eqn:Ec; [|done]. destruct (Hc c eq_refl) as [cth Hct]. simpl in E.
  rewrite (upd_thread_some c cth), some_bind in E by done.
  match type of E with (rt_schedule ?x ≫= _) = _ => set (k1 := x) in E end.
  destruct (rt_schedule k1) as [k2|] eqn:E1; [|done]. simpl in E. simplify_eq.
  eapply schedule_kernel_ok; [|exact E1].
  eapply (kernel_ok_upd k k1 c); [done| |by rewrite Ec| |done|done].
  - eapply stack_fine_eq; [..|exact (Hst c cth Hct)]; done.
  - apply benign_ok with cth; [done|done|]. split_and!; [by apply state_lor_yield|done..].
Qed.

Lemma priority_kernel_ok k k' t p : kernel_ok k -> 0 <= p < RT_THREAD_PRIORITY_MAX ->
  change_priority t p k = Some k' -> kernel_ok k'.
Proof.
  intros Hk Hp E. pose proof Hk as [Hs Hst Hc]. pose proof E as E0. unfold change_priority in E0.
  destruct (threads k !! t) as [th|] eqn:Ht; [|done]. simpl in E0.
  destruct (is_thread th) eqn:Hth; [|done]. clear E0.
  destruct (change_priority_ok k t th p Hs Ht Hp Hth) as (k1 & E1 & Hs1 & Hth1 & Hne & Hcu1 & _).
  rewrite E in E1. simplify_eq. eapply (kernel_ok_upd k _ t); [done| |done|done| |done].
  - eapply stack_fine_eq; [..|exact (Hst t th Ht)]; shelve.
  - apply map_eq. intros x. destruct (Z.eq_dec x t) as [->|]; [|by rewrite lookup_insert_ne, Hne].
    rewrite lookup_insert_eq. exact Hth1.
  Unshelve. all: done.
Qed.

Lemma timeout_kernel_ok k k' t : kernel_ok k -> is_Some (current_thread k) ->
  rt_thread_timeout t k = Some k' -> kernel_ok k'.
Proof.
  intros Hk [c Ec] E. pose proof Hk as [Hs Hst Hc]. pose proof E as E0. unfold rt_thread_timeout in E0.
  destruct (threads k !! t) as [th|] eqn:Ht; [|done]. simpl in E0.
  destruct (Z.eqb_spec (state_of th) RT_THREAD_SUSPEND) as [Hss|]; [|done]. clear E0.
  destruct (timeout_ok k t th c Hs Hst Ht Hss Ec (Hc c Ec)) as (k1 & cth & k2 & Hth1 & _ & Hcu1 & Htk & _ & Hs1 & Hct & E1 & Hsc).
  rewrite E in E1. simplify_eq. eapply kernel_ok_schedule; [|exact Hsc|done|done].
  eapply (kernel_ok_upd k _ t); [done| |done|done|exact Hth1|congruence].
  eapply stack_fine_eq; [..|exact (Hst t th Ht)]; done.
Qed.

(** ** Starting threads *)
Lemma kernel_ok_same k k' : kernel_ok k -> same_sched k k' -> timers k' = timers k -> kernel_ok k'.
Proof.
  intros [[Hi Hc Ho] Hst Hcu] (E1 & E2 & E3 & E4) Et. split; [split| |].
  - by apply (inv_same _ k).
  - intros c th. rewrite E4, E1. apply Hc.
  - apply (objs_same k); [done|done|]. by apply timers_ok_refl.
  - intros x th. rewrite E1. apply Hst.
  - intros c. rewrite E4, E1. apply Hcu.
Qed.

Lemma schedule_keeps k k' : kernel_ok k -> rt_schedule k = Some k' ->
  stat_only k k' /\ timers k' = timers k.
Proof.
  intros [Hs Hst Hc] E. destruct (current_thread k) as [c|] eqn:Ec.
  - destruct (Hc c eq_refl) as [cth Hct]. destruct (schedule_ok k c cth Hs Hst Ec Hct) as (k1 & E1 & []).
    rewrite E in E1. by simplify_eq.
  - unfold rt_schedule in E. destruct (negb (lock_nest k =? 0)); [by simplify_eq|].
    destruct (ready_group k =? 0); [by simplify_eq|].
    destruct (_get_highest_priority_thread k) as [[t p]|]; [|done]. simpl in E. by rewrite Ec in E.
Qed.

Lemma exit_critical_ok k k' : kernel_ok k -> rt_exit_critical k = Some k' ->
  kernel_ok k' /\ stat_only k k' /\ timers k' = timers k.
Proof.
  intros Hk E. unfold rt_exit_critical in E. destruct (i16 (lock_nest k - 1) <=? 0).
  - simpl in E. set (k1 := {| k with lock_nest := 0 |}) in E.
    assert (kernel_ok k1) as Hk1 by (by apply (kernel_ok_same k)).
    destruct (current_thread k) as [c|].
    + split; [by eapply schedule_kernel_ok|]. by apply (schedule_keeps k1).
    + simplify_eq. split; [done|]. split; [by apply stat_only_refl|done].
  - simplify_eq. split; [by apply (kernel_ok_same k)|]. split; [by apply stat_only_refl|done].
Qed.

Lemma object_init_ok k o ob cls nm ob' k' : kernel_ok k ->
  rt_object_init o ob cls nm k = Some (ob', k') ->
  kernel_ok k' /\ stat_only k k' /\ timers k' = timers k /\ type ob' = Z.lor cls RT_Object_Class_Static.
Proof.
  intros Hk E. unfold rt_object_init in E. destruct (rt_object_get_information cls); [|done]. simpl in E.
  destruct (bool_decide (o ∉ object_list k cls)); [|done]. simpl in E.
  destruct (rt_exit_critical (rt_enter_critical k)) as [k1|] eqn:E1; [|done]. simpl in E. simplify_eq.
  assert (kernel_ok (rt_enter_critical k)) as Hk0 by (by apply (kernel_ok_same k)).
  destruct (exit_critical_ok _ _ Hk0 E1) as (H1 & H2 & H3). split_and!; try done.
  by apply (kernel_ok_same k1).
Qed.

(** A new thread, in no queue and not started. *)
Lemma new_thread_ok k t th : kernel_ok k -> threads k !! t = None -> state_of th = RT_THREAD_INIT ->
  stack_fine th -> kernel_ok {| k with threads := <[t := th]> (threads k) |}.
Proof.
  intros [[[] Hc Ho] Hst Hcu] Hn Hs Hf.
  assert (forall x thx, threads k !! x = Some thx -> x <> t) as Hne by (intros x thx Hx ->; congruence).
  split; [split; [split|..]|..]; simpl; try done.
  - intros q x Hx. destruct (si_queue0 q x Hx) as (thx & Hx1 & Hx2). exists thx.
    rewrite lookup_insert_ne by (symmetry; by eapply Hne). done.
  - intros x thx Hx. destruct (Z.eq_dec x t) as [->|]; [|rewrite lookup_insert_ne by done; by apply si_listed0].
    rewrite lookup_insert_eq. intros [= <-]. by rewrite Hs.
  - intros x thx Hx. destruct (Z.eq_dec x t) as [->|]; [|rewrite lookup_insert_ne by done; by apply si_running0].
    rewrite lookup_insert_eq. intros [= <-]. by rewrite Hs.
  - intros x thx Hx. destruct (Z.eq_dec x t) as [->|]; [|rewrite lookup_insert_ne by done; by apply si_prio0].
    rewrite lookup_insert_eq. intros [= <-]. unfold active. by rewrite Hs.
  - intros c thc. simpl. intros Hc'. destruct (Z.eq_dec c t) as [->|]; [|rewrite lookup_insert_ne by done; by apply Hc].
    rewrite lookup_insert_eq. intros [= <-]. by rewrite Hs.
  - intros x thx. simpl. destruct (Z.eq_dec x t) as [->|]; [|rewrite lookup_insert_ne by done; by apply Ho].
    rewrite lookup_insert_eq. intros [= <-]. unfold active. by rewrite Hs.
  - intros x thx. simpl. destruct (Z.eq_dec x t) as [->|]; [|rewrite lookup_insert_ne by done; by apply Hst].
    rewrite lookup_insert_eq. by intros [= <-].
  - intros c Hc'. destruct (Z.eq_dec c t) as [->|]; [rewrite lookup_insert_eq; eauto|].
    rewrite lookup_insert_ne by done. auto.
Qed.

(** The initial stack pointer lies in the stack. *)
Lemma stack_init_fine ent par stack size prio tick th :
  0 <= stack -> 80 <= size -> stack + size < 2 ^ 32 ->
  stack_fine (thread_fields ent par stack size prio tick th).
Proof.
  intros H0 H1 H2. unfold stack_fine. cbn [thread_fields stack_guard sp stack_addr stack_size].
  split; [done|]. unfold rt_hw_stack_init. rewrite !(wrap_id 32) by (unfold fits; repeat rewrite wrap_id; unfold fits; lia).
  unfold RT_ALIGN_DOWN.
  replace (u32 (Z.lnot (8 - 1))) with (Z.ldiff (Z.ones 32) (Z.ones 3)) by done.
  assert (Z.land (stack + size - 4 + 4) (Z.ldiff (Z.ones 32) (Z.ones 3)) =
          stack + size - (stack + size) mod 8) as ->; [|dlia].
  replace (stack + size - 4 + 4) with (stack + size) by lia. set (y := stack + size) in *.
  change 8 with (2 ^ 3). rewrite <- (Z.land_ones y 3) by lia.
  transitivity (Z.ldiff y (Z.ones 3)).
  - apply Z.bits_inj'. intros i Hi. rewrite Z.land_spec, !Z.ldiff_spec.
    destruct (Z.ltb_spec i 32); [rewrite (Z.ones_spec_low 32) by lia; done|].
    by rewrite (bits_fits y i) by (unfold fits; lia).
  - rewrite Z.ldiff_ones_r by lia. rewrite Z.shiftr_div_pow2, Z.shiftl_mul_pow2, Z.land_ones by lia.
    change (2 ^ 3) with 8. dlia.
Qed.

Lemma thread_init_kernel_ok k k' t nm ent par stack size prio tick r :
  kernel_ok k -> threads k !! t = None -> 0 <= stack -> 80 <= size -> stack + size < 2 ^ 32 ->
  rt_thread_init t nm ent par stack size prio tick k = Some (r, k') -> kernel_ok k'.
Proof.
  intros Hk Hn H0 H1 H2 E. unfold rt_thread_init in E. rewrite Hn in E. cbn [default] in E.
  destruct (rt_object_init (Obj t) _ _ nm k) as [[ob k1]|] eqn:E1; [|done]. simpl in E.
  destruct (object_init_ok _ _ _ _ _ _ _ Hk E1) as (Hk1 & Hso & _ & _).
  destruct (_rt_thread_init t _ ent par stack size prio tick k1) as [k2|] eqn:E2; [|done]. simpl in E.
  simplify_eq. unfold _rt_thread_init in E2. destruct (prio <? _); [|done]. simpl in E2.
  match type of E2 with rt_timer_init _ _ _ _ _ _ ?x = _ => set (k3 := x) in E2 end.
  assert (kernel_ok k3) as Hk3.
  { apply new_thread_ok; [done| |done|by apply stack_init_fine].
    specialize (Hso t). rewrite Hn in Hso. by destruct (threads k1 !! t). }
  unfold rt_timer_init in E2. destruct (rt_object_init (TimerOf t) _ _ _ k3) as [[ob2 k4]|] eqn:E4; [|done].
  simpl in E2. destruct (object_init_ok _ _ _ _ _ _ _ Hk3 E4) as (Hk4 & _ & _ & Hty). simplify_eq.
  destruct Hk4 as [[Hi Hc Ho] Hst Hcu]. split; [split; [by apply (inv_same _ k4)|done|]|done|done].
  apply (objs_same k4); [done|done|]. intros x tm Hx Hit. simpl. destruct (decide (x = TimerOf t)) as [->|].
  - rewrite lookup_insert_eq. eexists. split; [done|]. unfold is_timer, rt_object_get_type. simpl. by rewrite Hty.
  - rewrite lookup_insert_ne by done. eauto.
Qed.

Lemma timer_stop_is_timer x k r k' : rt_timer_stop x k = Some (r, k') ->
  exists tm, timers k !! x = Some tm /\ is_timer tm = true.
Proof.
  unfold rt_timer_stop. destruct (timers k !! x) as [tm|]; [|done]. simpl.
  destruct (is_timer tm) eqn:E; [|done]. eauto.
Qed.

(** Starting a thread: it is suspended with its first priority, and resumed. *)
Lemma startup_wakes k k' t r : kernel_ok k ->
  (forall th, threads k !! t = Some th -> 0 <= init_priority th < RT_THREAD_PRIORITY_MAX) ->
  rt_thread_startup t k = Some (r, k') ->
  exists th k1 r1 k2, threads k !! t = Some th /\ state_of th = RT_THREAD_INIT /\
    upd_thread t (fun th => set_stat RT_THREAD_SUSPEND (set_priority (init_priority th) th)) k = Some k1 /\
    kernel_ok k1 /\ rt_thread_resume t k1 = Some (r1, k2) /\
    match rt_thread_self k2 with Some _ => rt_schedule k2 | None => Some k2 end = Some k'.
Proof.
  intros Hk Hip E. pose proof Hk as [[Hi Hc Ho] Hst Hcu]. unfold rt_thread_startup in E.
  destruct (threads k !! t) as [th|] eqn:Ht; [|done]. simpl in E. specialize (Hip th eq_refl).
  destruct (Z.eqb_spec (state_of th) RT_THREAD_INIT) as [Hs|]; [|done]. simpl in E.
  destruct (is_thread th) eqn:Hth; [|done]. simpl in E.
  rewrite (upd_thread_some t th) by done. rewrite (upd_thread_some t th), some_bind in E by done.
  set (th1 := set_stat RT_THREAD_SUSPEND (set_priority (init_priority th) th)) in E.
  set (k1 := {| k with threads := _ |}) in E.
  destruct (rt_thread_resume t k1) as [[r1 k2]|] eqn:Er; [|done]. simpl in E.
  assert (threads k1 !! t = Some th1) as Ht1 by (simpl; by rewrite lookup_insert_eq).
  assert (exists tm, timers k !! TimerOf t = Some tm /\ is_timer tm = true) as Htm.
  { unfold rt_thread_resume in Er. rewrite Ht1, some_bind in Er. unfold is_thread in *. simpl in Er.
    rewrite Hth in Er. simpl in Er.
    destruct (rt_timer_stop (TimerOf t) (tlist_remove t k1)) as [[r2 k3]|] eqn:E2; [|done].
    by apply timer_stop_is_timer in E2. }
  assert (frame t th1 k k1) as Hf by done.
  assert (state_of th1 = RT_THREAD_SUSPEND) as Hs1 by done.
  assert (inv_but [] k1) as Hi1.
  { apply (inv_settle k1 t th1); [|done|by rewrite Hs1|by rewrite Hs1|].
    - apply (inv_upd k t th (fun _ => th1)); [|done]. apply inv_weaken; [done|].
      intros q. eapply not_queued; [done..|]. rewrite Hs. by destruct q.
    - intros _. split; [done|]. simpl. rewrite Z.shiftl_1_l. apply wrap_id. unfold fits, RT_THREAD_PRIORITY_MAX in *.
      split; [lia|]. apply Z.pow_lt_mono_r; lia. }
  assert (kernel_ok k1) as Hk1.
  { apply (kernel_ok_upd k _ t th1); try done; [by apply (Hst t th)|]. split; [done| |].
    - eapply cur_frame; [done..|]. by rewrite Hs1.
    - intros x thx. simpl. destruct (Z.eq_dec x t) as [->|]; [|rewrite lookup_insert_ne by done; by apply Ho].
      rewrite lookup_insert_eq. by intros [= <-] _. }
  exists th, k1, r1, k2. split; [done|]. split; [done|]. split; [done|]. split; [done|]. split; [done|].
  destruct (rt_thread_self k2) as [c|]; simpl in E; [|by simplify_eq].
  destruct (rt_schedule k2) as [k3|]; [|done]. simpl in E. by simplify_eq.
Qed.

Lemma startup_kernel_ok k k' t r : kernel_ok k ->
  (forall th, threads k !! t = Some th -> 0 <= init_priority th < RT_THREAD_PRIORITY_MAX) ->
  rt_thread_startup t k = Some (r, k') -> kernel_ok k'.
Proof.
  intros Hk Hip E. destruct (startup_wakes k k' t r Hk Hip E) as (th & k1 & r1 & k2 & _ & _ & _ & Hk1 & Er & E2).
  pose proof (resume_kernel_ok _ _ _ _ Hk1 Er) as Hk2.
  destruct (rt_thread_self k2); [by eapply schedule_kernel_ok|by simplify_eq].
Qed.

Lemma start_kernel_ok k k' : kernel_ok k -> current_thread k = None ->
  rt_system_scheduler_start k = Some k' -> kernel_ok k'.
Proof.
  intros [[Hi Hc Ho] Hst Hcu] Hn E. unfold rt_system_scheduler_start in E.
  destruct (Z.eq_dec (ready_group k) 0) as [Hg|Hg].
  { unfold _get_highest_priority_thread in E. rewrite (group_zero k [] Hi Hg) in E. done. }
  destruct (highest_ok k [] Hi Hg) as (t & p & l & Hh & Hq & _). rewrite Hh in E. simpl in E.
  set (k1 := {| k with current_thread := Some t |}) in E.
  assert (t ∈ queues k (QReady p)) as Hin by (rewrite Hq; left).
  destruct (si_queue [] k Hi _ _ Hin) as (th & Ht & Hts & Htp). simpl in Hts.
  assert (inv_but [] k1) as Hi1.
  { apply (inv_current _ k); try done. intros x thx Hx Hx' Hs.
    by pose proof (si_running [] k Hi x thx Hx Hx' Hs) as Hr; rewrite Hn in Hr. }
  assert (prio_ok th) as Hp.
  { apply (si_prio [] k Hi t th); [apply not_elem_of_nil|done|unfold active; by rewrite Hts]. }
  destruct (remove_thread_ok k1 t th Hi1 Ht Hp) as (k2 & E2 & Hi2 & Hth2 & _ & Hcu2 & Htm2 & _).
  rewrite E2 in E. simpl in E. rewrite (upd_thread_some t th) in E by (by rewrite Hth2). simplify_eq.
  set (k3 := {| k2 with threads := _ |}).
  assert (threads k3 = <[t := set_stat RT_THREAD_RUNNING th]> (threads k)) as Hth3 by (simpl; by rewrite Hth2).
  split; [split|..].
  - apply (inv_settle k3 t (set_stat RT_THREAD_RUNNING th)).
    + eapply inv_upd; [done|by rewrite Hth2].
    + by rewrite Hth3, lookup_insert_eq.
    + done.
    + intros _. simpl. by rewrite Hcu2.
    + done.
  - intros c thc. rewrite Hth3. simpl. rewrite Hcu2. simpl. intros [= <-]. rewrite lookup_insert_eq. by intros [= <-].
  - intros x thx. rewrite Hth3. simpl. rewrite Htm2. simpl. destruct (Z.eq_dec x t) as [->|].
    + rewrite lookup_insert_eq. intros [= <-] _. destruct (Ho t th Ht) as [H1 H2]; [unfold active; by rewrite Hts|done].
    + rewrite lookup_insert_ne by done. apply Ho.
  - intros x thx. rewrite Hth3. destruct (Z.eq_dec x t) as [->|].
    + rewrite lookup_insert_eq. intros [= <-]. by apply (Hst t th).
    + rewrite lookup_insert_ne by done. apply Hst.
  - intros c. rewrite Hth3. simpl. rewrite Hcu2. simpl. intros [= <-]. rewrite lookup_insert_eq. eauto.
Qed.

(** The steps of the scheduler: operations of scheduler.c and thread.c, with
    what their callers see to: a fresh thread object, a stack with room for the
    first frame, priorities in range, no tick before the scheduler has started. *)
Inductive kop :=
| op_init (t : Z) (nm : list Z) (ent par stack size prio tick : Z)
| op_startup (t : Z) | op_start | op_schedule
| op_enter_critical | op_exit_critical | op_interrupt_enter | op_interrupt_leave
| op_suspend (t : Z) | op_resume (t : Z) | op_timeout (t : Z)
| op_yield | op_priority (t p : Z).

Definition exec (o : kop) (k : kernel) : option kernel :=
  match o with
  | op_init t nm ent par stack size prio tick =>
      _ ← assert (bool_decide (threads k !! t = None /\ 0 <= stack /\ 80 <= size /\ stack + size < 2 ^ 32));
      snd <$> rt_thread_init t nm ent par stack size prio tick k
  | op_startup t =>
      th ← threads k !! t;
      _ ← assert (bool_decide (0 <= init_priority th < RT_THREAD_PRIORITY_MAX));
      snd <$> rt_thread_startup t k
  | op_start => _ ← assert (bool_decide (current_thread k = None)); rt_system_scheduler_start k
  | op_schedule => rt_schedule k
  | op_enter_critical => Some (rt_enter_critical k)
  | op_exit_critical => rt_exit_critical k
  | op_interrupt_enter => Some (rt_interrupt_enter k)
  | op_interrupt_leave => Some (rt_interrupt_leave k)
  | op_suspend t => snd <$> rt_thread_suspend t k
  | op_resume t => snd <$> rt_thread_resume t k
  | op_timeout t => _ ← current_thread k; rt_thread_timeout t k
  | op_yield => snd <$> rt_thread_yield k
  | op_priority t p =>
      _ ← assert (bool_decide (0 <= p < RT_THREAD_PRIORITY_MAX)); change_priority t p k
  end.

Definition kstep (k k' : kernel) : Prop := exists o, exec o k = Some k'.

Definition run (os : list kop) (k : kernel) : option kernel :=
  foldl (fun k o => k ← k; exec o k) (Some k) os.

Lemma assert_bind {A} (b : bool) (m : option A) x :
  (_ ← assert b; m) = Some x -> b = true /\ m = Some x.
Proof. by destruct b. Qed.

Lemma snd_some {A} (m : option (A * kernel)) k : snd <$> m = Some k -> exists a, m = Some (a, k).
Proof. destruct m as [[a k']|]; [|done]. intros [= <-]. by exists a. Qed.

Lemma kstep_ok k k' : kstep k k' -> kernel_ok k -> kernel_ok k'.
Proof.
  intros [[] E] Hk; simpl in E.
  - apply assert_bind in E as [Hb E]. apply bool_decide_eq_true in Hb as (? & ? & ? & ?).
    apply snd_some in E as [r E]. by eapply thread_init_kernel_ok.
  - destruct (threads k !! t) as [th|] eqn:Ht; [|done]. simpl in E. apply assert_bind in E as [Hb E].
    apply bool_decide_eq_true in Hb. apply snd_some in E as [r E]. eapply startup_kernel_ok; [done| |done].
    rewrite Ht. by intros ? [= <-].
  - apply assert_bind in E as [Hb E]. apply bool_decide_eq_true in Hb. by eapply start_kernel_ok.
  - by eapply schedule_kernel_ok.
  - simplify_eq. by apply (kernel_ok_same k).
  - by apply (exit_critical_ok k).
  - simplify_eq. by apply (kernel_ok_same k).
  - simplify_eq. by apply (kernel_ok_same k).
  - apply snd_some in E as [r E]. by eapply suspend_kernel_ok.
  - apply snd_some in E as [r E]. by eapply resume_kernel_ok.
  - destruct (current_thread k) eqn:Ec; [|done]. simpl in E. eapply timeout_kernel_ok; [done| |done]. by rewrite Ec.
  - apply snd_some in E as [r E]. by eapply yield_kernel_ok.
  - apply assert_bind in E as [Hb E]. apply bool_decide_eq_true in Hb. by eapply priority_kernel_ok.
Qed.

Lemma run_rtc os : forall k k', run os k = Some k' -> rtc kstep k k'.
Proof.
  assert (forall (os : list kop), foldl (fun k o => k ← k; exec o k) None os = None) as Hn by (by induction os0).
  unfold run. induction os as [|o os IH]; intros k k'; [intros [= <-]; constructor|]. simpl.
  destruct (exec o k) as [k1|] eqn:E; [|by rewrite Hn]. intros Hr. eapply rtc_l; [by exists o|]. by apply IH.
Qed.

Lemma boot_kernel_ok h : kernel_ok (boot_kernel h).
Proof.
  split; [split; [split|..]|..]; try done.
  - intros p Hp. simpl. apply Z.bits_0.
  - intros q t Ht. by apply elem_of_nil in Ht.
  - intros t q Ht. by apply elem_of_nil in Ht.
  - intros q q' t Ht. by apply elem_of_nil in Ht.
  - intros q. constructor.
Qed.

Lemma reachable_ok h k : rtc kstep (boot_kernel h) k -> kernel_ok k.
Proof.
  intros Hr. pose proof (boot_kernel_ok h) as Hk. induction Hr as [k|k1 k2 k3 H12 _ IH]; [done|].
  by apply IH, (kstep_ok k1).
Qed.

(** A small system: the idle thread and three threads of two priorities. *)
Definition demo_ops : list kop :=
  [op_init idle (bytes "tidle0") 0 0 1000 256 31 32; op_startup idle;
   op_init 1 (bytes "one") 0 0 2000 512 10 5; op_startup 1;
   op_init 2 (bytes "two") 0 0 3000 512 10 5; op_startup 2; op_start;
   op_init 3 (bytes "three") 0 0 4000 512 8 5].

Definition demo_kernel : kernel := default (boot_kernel demo_heap) (run demo_ops (boot_kernel demo_heap)).

Lemma demo_kernel_run : run demo_ops (boot_kernel demo_heap) = Some demo_kernel.
Proof.
  unfold demo_kernel. assert (is_Some (run demo_ops (boot_kernel demo_heap))) as [k ->]; [|done].
  destruct (run _ _) eqn:E; [done|]. vm_compute in E. discriminate.
Qed.

Lemma demo_kernel_ok : kernel_ok demo_kernel.
Proof. apply (reachable_ok demo_heap), (run_rtc demo_ops), demo_kernel_run. Qed.

(** ** Properties *)

(** In every state that the operations of the scheduler reach from the
    booting kernel, the bit of a priority is set exactly when its ready list is
    not empty; every thread in a list is in that list once, in no other list
    and in the state the list stands for; every ready thread is in the list of
    its priority; only the current thread runs; and stacks, thread objects and
    thread timers are sound. *)
Lemma kernel_ok_reachable h k : rtc kstep (boot_kernel h) k -> kernel_ok k.
Proof. apply reachable_ok. Qed.

Lemma kernel_ok_reachable_witness :
  rtc kstep (boot_kernel demo_heap) demo_kernel /\ kernel_ok demo_kernel /\
  current_thread demo_kernel = Some 1 /\ queues demo_kernel (QReady 10) = [2].
Proof.
  assert (rtc kstep (boot_kernel demo_heap) demo_kernel) as Hr by apply (run_rtc demo_ops), demo_kernel_run.
  split; [exact Hr|]. split; [exact (kernel_ok_reachable demo_heap demo_kernel Hr)|].
  split; vm_compute; reflexivity.
Defined.

(** C26: [rt_schedule] returns; afterwards the current thread runs and no ready
    thread has a higher priority, and the processor changes hands only for a
    higher priority, or for the same one when the time slice was given up, or
    because the thread no longer runs; the new thread is the one that has been
    longest in its ready list. *)
Theorem rt_schedule_picks_highest k c cth :
  kernel_ok k -> current_thread k = Some c -> threads k !! c = Some cth -> lock_nest k = 0 ->
  state_of cth = RT_THREAD_RUNNING \/ ready_group k <> 0 ->
  exists k' n nth, rt_schedule k = Some k' /\ kernel_ok k' /\
    current_thread k' = Some n /\ threads k' !! n = Some nth /\ state_of nth = RT_THREAD_RUNNING /\
    (forall x xth, threads k' !! x = Some xth -> state_of xth = RT_THREAD_READY ->
       current_priority nth <= current_priority xth) /\
    (n <> c ->
       (state_of cth = RT_THREAD_RUNNING -> current_priority nth < current_priority cth \/
          (current_priority nth = current_priority cth /\ Z.land (stat cth) RT_THREAD_STAT_YIELD <> 0)) /\
       head (queues k (QReady (current_priority nth))) = Some n /\
       (state_of cth = RT_THREAD_RUNNING ->
          last (queues k' (QReady (current_priority cth))) = Some c)).
Proof.
  intros Hk Hcu Hct Hl Hrun. pose proof Hk as [Hs Hst _].
  destruct (schedule_ok k c cth Hs Hst Hcu Hct) as (k' & E & Hsc).
  pose proof (kernel_ok_schedule _ _ _ _ Hk Hsc Hcu Hct) as Hk'. destruct Hsc as [Hs' Hso _ _ Hrun' Hnext].
  rewrite Hl in Hnext, Hrun'. simpl in Hnext, Hrun'. pose proof Hs as [Hi _ _]. pose proof Hs' as [Hi' _ _].
  exists k'. destruct (Z.eqb_spec (ready_group k) 0) as [Hg|Hg].
  - subst k'. destruct Hrun as [Hr|]; [|done]. exists c, cth. split_and!; try done.
    intros x xth Hx Hxs. pose proof (si_listed [] k Hi x xth ltac:(apply not_elem_of_nil) Hx Hxs) as Hin.
    rewrite (group_zero k [] Hi Hg) in Hin. by apply elem_of_nil in Hin.
  - destruct Hnext as (p & t & l & (Hp & Hne & Hbest) & Hq & Hn).
    assert (forall x xth, threads k' !! x = Some xth -> state_of xth = RT_THREAD_READY ->
      x ∈ queues k' (QReady (current_priority xth))) as Hlisted.
    { intros x xth. apply (si_listed [] k' Hi'), not_elem_of_nil. }
    destruct (keeps cth p) eqn:Ek; destruct Hn as [Hc' Hq'].
    + destruct (Hrun' eq_refl c Hc') as (cth' & Hct' & Hcr). exists c, cth'.
      destruct (stat_only_lookup _ _ _ _ Hso Hct) as (x0 & Hx0 & Heq). rewrite Hct' in Hx0. simplify_eq.
      assert (current_priority cth' = current_priority cth) as Hcp by (by rewrite Heq).
      split_and!; try done. intros x xth Hx Hxs. specialize (Hlisted x xth Hx Hxs). rewrite Hq' in Hlisted.
      assert (p <= current_priority xth).
      { apply Hbest. intros Hx0. rewrite Hx0 in Hlisted. by apply elem_of_nil in Hlisted. }
      unfold keeps in Ek. rewrite Hcp. lia.
    + destruct (Hrun' eq_refl t Hc') as (nth & Hnt & Hnr). exists t, nth.
      destruct (si_queue [] k Hi (QReady p) t) as (th & Ht & Hts & Htp); [rewrite Hq; left|].
      destruct (stat_only_lookup _ _ _ _ Hso Ht) as (x0 & Hx0 & Heq). rewrite Hnt in Hx0. simplify_eq.
      assert (current_priority nth = p) as Hcp by (rewrite Heq; simpl; by apply Htp).
      rewrite Hcp. split_and!; try done.
      * intros x xth Hx Hxs. specialize (Hlisted x xth Hx Hxs). rewrite Hq' in Hlisted.
        unfold switch_queues in Hlisted. apply list_elem_of_filter in Hlisted as [Hxt Hlisted].
        case_bool_decide as Hb; [|apply Hbest; intros Hx0; rewrite Hx0 in Hlisted; by apply elem_of_nil in Hlisted].
        destruct Hb as [Hr [= Hpx]]. apply elem_of_app in Hlisted as [Hlisted|Hlisted].
        -- apply Hbest. intros Hx0. rewrite Hx0 in Hlisted. by apply elem_of_nil in Hlisted.
        -- unfold keeps in Ek. rewrite Hr in Ek. simpl in Ek. lia.
      * intros Hne'. split_and!.
        -- intros Hr. unfold keeps in Ek. rewrite Hr in Ek. simpl in Ek. lia.
        -- by rewrite Hq.
        -- intros Hr. rewrite Hq'. unfold switch_queues. rewrite bool_decide_true by done.
           rewrite filter_app. change (filter (fun x => x <> t) [c]) with (if decide (c <> t) then [c] else []).
           rewrite decide_True by done. apply last_snoc.
Qed.

Lemma rt_schedule_picks_highest_witness : exists cth k' n nth,
  threads demo_kernel !! 1 = Some cth /\ rt_schedule demo_kernel = Some k' /\
  current_thread k' = Some n /\ threads k' !! n = Some nth /\
  (forall x xth, threads k' !! x = Some xth -> state_of xth = RT_THREAD_READY ->
     current_priority nth <= current_priority xth).
Proof.
  destruct (threads demo_kernel !! 1) as [cth|] eqn:E.
  2: { exfalso. vm_compute in E. discriminate. }
  destruct (rt_schedule_picks_highest demo_kernel 1 cth demo_kernel_ok) as (k' & n & nth & H1 & _ & H2 & H3 & _ & H4 & _).
  - vm_compute. reflexivity.
  - exact E.
  - vm_compute. reflexivity.
  - right. vm_compute. discriminate.
  - exists cth, k', n, nth. exact (conj eq_refl (conj H1 (conj H2 (conj H3 H4)))).
Defined.

(** A thread that yields while others of its priority are ready, and none
    of a higher one, goes to the end of its ready list with a full time slice
    and the first of the list runs; the other lists stay as they are. *)
Lemma rt_thread_yield_rotates k c cth t l :
  kernel_ok k -> current_thread k = Some c -> threads k !! c = Some cth -> lock_nest k = 0 ->
  state_of cth = RT_THREAD_RUNNING -> best k (current_priority cth) ->
  queues k (QReady (current_priority cth)) = t :: l ->
  exists k' cth', rt_thread_yield k = Some (RT_EOK, k') /\ kernel_ok k' /\
    current_thread k' = Some t /\
    queues k' (QReady (current_priority cth)) = l ++ [c] /\
    (forall q, q <> QReady (current_priority cth) -> queues k' q = queues k q) /\
    threads k' !! c = Some cth' /\ state_of cth' = RT_THREAD_READY /\
    remaining_tick cth' = init_tick cth.
Proof.
  intros Hk Hcu Hct Hl Hr Hb Hq. pose proof Hk as [Hs Hst Hc].
  unfold rt_thread_yield, rt_thread_self. rewrite Hcu, some_bind, (upd_thread_some c cth), some_bind by done.
  set (cth1 := set_stat _ _). set (k1 := {| k with threads := _ |}).
  assert (benign cth cth1) as Hben by (split_and!; [by apply state_lor_yield|done..]).
  assert (sched_inv k1) as Hs1 by (by apply (benign_ok k c cth)).
  assert (kernel_ok k1) as Hk1.
  { eapply (kernel_ok_upd k k1 c); [done| |done|done|done|done].
    eapply stack_fine_eq; [..|exact (Hst c cth Hct)]; done. }
  assert (threads k1 !! c = Some cth1) as Hc1 by (simpl; by rewrite lookup_insert_eq).
  destruct (schedule_ok k1 c cth1 Hs1 (ko_stacks _ Hk1) Hcu Hc1) as (k' & -> & Hsc).
  pose proof (kernel_ok_schedule _ _ _ _ Hk1 Hsc Hcu Hc1) as Hk'.
  destruct Hsc as [Hs' Hso _ _ _ Hn]. change (lock_nest k1) with (lock_nest k) in Hn. rewrite Hl in Hn.
  change (ready_group k1) with (ready_group k) in Hn.
  assert (ready_group k <> 0) as Hg.
  { intros Hg. destruct Hs as [Hi _ _]. pose proof (group_zero k [] Hi Hg (current_priority cth)) as Hz. congruence. }
  rewrite (proj2 (Z.eqb_neq _ _) Hg) in Hn. simpl in Hn.
  destruct Hn as (p & t' & l' & Hb' & Hq' & Hn).
  assert (p = current_priority cth) as ->.
  { destruct Hb as (_ & Hne & Hmin), Hb' as (_ & Hne' & Hmin'). specialize (Hmin _ Hne'). specialize (Hmin' _ Hne). lia. }
  simpl in Hq'. rewrite Hq in Hq'. simplify_eq.
  assert (keeps cth1 (current_priority cth) = false) as Hkp.
  { unfold keeps. destruct Hben as (-> & _ & -> & _). rewrite Hr, Z.ltb_irrefl, !Z.eqb_refl. simpl.
    apply Z.eqb_neq. unfold cth1, set_stat. simpl. intros Hz.
    assert (Z.testbit (Z.land (Z.lor (stat cth) RT_THREAD_STAT_YIELD) RT_THREAD_STAT_YIELD) 3 = true) as Hbit.
    { rewrite Z.land_spec, Z.lor_spec. change (Z.testbit RT_THREAD_STAT_YIELD 3) with true. by rewrite orb_true_r. }
    rewrite Hz in Hbit. done. }
  rewrite Hkp in Hn. destruct Hn as [Hcu' Hqs].
  destruct (stat_only_lookup _ _ _ _ Hso Hc1) as (cth' & Hct' & Heq).
  assert (t' ∈ queues k (QReady (current_priority cth))) as Hin by (rewrite Hq; left).
  pose proof Hs as [Hi Hck _]. destruct (si_queue [] k Hi _ _ Hin) as (th & Ht & Hts & _).
  assert (c <> t') as Hne by (intros ->; by apply (Hck t' th)).
  pose proof (si_nodup [] k Hi (QReady (current_priority cth))) as Hnd. rewrite Hq in Hnd.
  apply NoDup_cons in Hnd as [Hnl _].
  destruct Hben as (Hst1 & _ & Hcp1 & _).
  assert (forall q, queues k' q = if decide (q = QReady (current_priority cth)) then l' ++ [c] else queues k q) as Hqs'.
  { intros q. rewrite Hqs. unfold switch_queues. rewrite Hst1, Hcp1, Hr. cbn [queues k1].
    destruct (decide (q = QReady (current_priority cth))) as [->|Hnq].
    - rewrite bool_decide_true by done. rewrite Hq, filter_app.
      rewrite filter_cons_False by (intros Hx; by apply Hx). rewrite filter_nil_iff by done.
      change (filter (fun x => x <> t') [c]) with (if decide (c <> t') then [c] else []). by rewrite decide_True.
    - rewrite bool_decide_false by tauto. apply filter_nil_iff. intros Hx.
      apply Hnq. eapply (si_once [] k Hi); [exact Hx|]. rewrite Hq. left. }
  exists k', cth'. split; [done|]. split; [done|]. split; [done|]. split_and!.
  - rewrite Hqs', decide_True by done. done.
  - intros q Hnq. by rewrite Hqs', decide_False.
  - done.
  - destruct Hs' as [Hi' _ _]. destruct (si_queue [] k' Hi' (QReady (current_priority cth)) c) as (x & Hx & Hxs & _).
    { rewrite Hqs', decide_True by done. set_solver. }
    simplify_eq. exact Hxs.
  - rewrite Heq. done.
Qed.

Lemma rt_thread_yield_rotates_witness : exists cth k',
  threads demo_kernel !! 1 = Some cth /\ rt_thread_yield demo_kernel = Some (RT_EOK, k') /\
  current_thread k' = Some 2 /\ queues k' (QReady 10) = [1].
Proof.
  destruct (threads demo_kernel !! 1) as [cth|] eqn:E.
  2: { exfalso. vm_compute in E. discriminate. }
  assert (current_priority cth = 10 /\ state_of cth = RT_THREAD_RUNNING) as [Hp Hr].
  { vm_compute in E. injection E as <-. vm_compute. split; reflexivity. }
  destruct (rt_thread_yield_rotates demo_kernel 1 cth 2 [] demo_kernel_ok) as (k' & cth' & H1 & _ & H2 & H3 & _).
  - vm_compute. reflexivity.
  - exact E.
  - vm_compute. reflexivity.
  - exact Hr.
  - rewrite Hp. split; [unfold RT_THREAD_PRIORITY_MAX; lia|]. split; [vm_compute; discriminate|].
    intros j Hj. destruct (Z.leb_spec 10 j); [done|]. exfalso. apply Hj.
    destruct (ko_sched _ demo_kernel_ok) as [Hi _ _].
    destruct (queues demo_kernel (QReady j)) as [|x l0] eqn:Ej; [done|].
    destruct (si_queue [] _ Hi (QReady j) x) as (th & Hx & Hxs & Hxp); [rewrite Ej; left|].
    destruct (si_prio [] _ Hi x th (not_elem_of_nil x) Hx) as [Hpr _]; [unfold active; by rewrite Hxs|].
    rewrite (Hxp j eq_refl) in Hpr.
    assert (Z.testbit (ready_group demo_kernel) j = true) as Hbit.
    { rewrite (si_bit [] _ Hi j Hpr), Ej. done. }
    assert (forallb (fun j => negb (Z.testbit (ready_group demo_kernel) j)) (map Z.of_nat (seq 0 10)) = true) as Hall
      by (vm_compute; reflexivity).
    rewrite forallb_forall in Hall. specialize (Hall j). rewrite Hbit in Hall.
    discriminate Hall. apply in_map_iff. exists (Z.to_nat j). split; [lia|]. apply in_seq. lia.
  - rewrite Hp. vm_compute. reflexivity.
  - rewrite Hp in H3. exists cth, k'. exact (conj eq_refl (conj H1 (conj H2 H3))).
Defined.
