(* ===== verification/Timer.v ===== *)
(** * Timers: the order of the timer list

    The operations of timer.c (Kernel.v) compare 32-bit ticks by their
    difference modulo 2^32.  Here every timer of a list gets a deadline, an
    unbounded integer its [timeout_tick] is the low word of; as long as all the
    deadlines lie in a window of less than half the range, the list is sorted by
    deadline across the wrap of the tick. *)
From S2P Require Import Prelude Mem Kernel.

(** ** Deadlines *)
Definition WINDOW : Z := RT_TICK_MAX / 2.

(** [timeout_tick] of [x] is deadline [d], which lies in the window from [b]. *)
Definition at_deadline (k : kernel) (b : Z) (x : obj) (d : Z) : Prop :=
  exists tm, timers k !! x = Some tm /\ timeout_tick tm = u32 d /\ b <= d < b + WINDOW.

Definition deadlines_ok (k : kernel) (b : Z) (D : obj -> Z) (l : list obj) : Prop :=
  forall x, x ∈ l -> at_deadline k b x (D x).

Definition by_deadline (D : obj -> Z) (x y : obj) : Prop := D x <= D y.

Lemma u32_sub_small a c : - WINDOW < a - c < WINDOW ->
  (u32 (u32 a - u32 c) = if c <=? a then a - c else a - c + 2 ^ 32).
Proof.
  intros H. autorewrite with cint. unfold wrap. change WINDOW with 2147483647 in *.
  case_cmp; [apply Z.mod_small; lia|]. symmetry. apply (Z.mod_unique _ _ (-1)); lia.
Qed.

(** The test that stops the search for the place of a timer. *)
Lemma later_test a c : - WINDOW < a - c < WINDOW ->
  negb (u32 (u32 a - u32 c) =? 0) && (u32 (u32 a - u32 c) <? RT_TICK_MAX / 2) = (c <? a).
Proof.
  intros H. rewrite u32_sub_small by done. change (RT_TICK_MAX / 2) with WINDOW.
  change WINDOW with 2147483647 in *. repeat case_cmp; simpl; lia || done.
Qed.

(** The test that a timer is due. *)
Lemma due_test a c : - WINDOW < a - c < WINDOW ->
  (u32 (u32 a - u32 c) <? RT_TICK_MAX / 2) = (c <=? a).
Proof.
  intros H. rewrite u32_sub_small by done. change (RT_TICK_MAX / 2) with WINDOW.
  change WINDOW with 2147483647 in *. repeat case_cmp; lia || done.
Qed.

(** The place of a deadline in a sorted list: after those not later. *)
Definition insert_deadline (D : obj -> Z) (d : Z) (x : obj) (l : list obj) : list obj :=
  filter (fun y => D y <= d) l ++ x :: filter (fun y => d < D y) l.

Lemma timer_insert_ok k b D d x l :
  deadlines_ok k b D l -> StronglySorted (by_deadline D) l -> b <= d < b + WINDOW ->
  timer_insert (u32 d) x k l = Some (insert_deadline D d x l).
Proof.
  intros Hd Hs Hw. unfold insert_deadline. induction l as [|y l IH]; [done|].
  apply StronglySorted_inv in Hs as [Hs Hy]. simpl.
  destruct (Hd y ltac:(left)) as (tm & Hy1 & Hy2 & Hy3). rewrite Hy1, some_bind, Hy2.
  change WINDOW with 2147483647 in *. rewrite later_test by (change WINDOW with 2147483647; lia).
  destruct (Z.ltb_spec d (D y)).
  - rewrite filter_cons_False by lia. rewrite filter_cons_True by lia.
    assert (filter (fun z => D z <= d) l = []) as ->.
    { apply filter_none. intros z Hz. rewrite Forall_forall in Hy.
      specialize (Hy z Hz). unfold by_deadline in Hy. lia. }
    simpl. do 3 f_equal. symmetry. apply filter_all. intros z Hz. rewrite Forall_forall in Hy.
    specialize (Hy z Hz). unfold by_deadline in Hy. lia.
  - rewrite filter_cons_True by lia. rewrite filter_cons_False by lia.
    rewrite IH; [done|intros z Hz; apply Hd; by right|done].
Qed.

Lemma sorted_filter {A} (R : A -> A -> Prop) (P : A -> Prop) `{forall x, Decision (P x)} l :
  StronglySorted R l -> StronglySorted R (filter P l).
Proof.
  induction 1 as [|x l Hs IH Hx]; [constructor|]. destruct (decide (P x)).
  - rewrite filter_cons_True by done. constructor; [done|]. rewrite Forall_forall in *.
    intros y Hy. apply list_elem_of_filter in Hy as [_ Hy]. auto.
  - by rewrite filter_cons_False.
Qed.

Lemma sorted_app {A} (R : A -> A -> Prop) l k :
  StronglySorted R l -> StronglySorted R k -> (forall x y, x ∈ l -> y ∈ k -> R x y) ->
  StronglySorted R (l ++ k).
Proof.
  induction 1 as [|x l Hs IH Hx]; intros Hk Hlk; [done|]. simpl. constructor.
  - apply IH; [done|]. intros. apply Hlk; [by right|done].
  - apply Forall_app. split; [done|]. apply Forall_forall. intros y Hy. apply Hlk; [left|done].
Qed.

(** The deadlines when [x] has a new one. *)
Definition new_deadline (D : obj -> Z) (x : obj) (d : Z) (y : obj) : Z :=
  if decide (y = x) then d else D y.

Lemma insert_deadline_sorted D d x l :
  x ∉ l -> StronglySorted (by_deadline D) l ->
  StronglySorted (by_deadline (new_deadline D x d)) (insert_deadline D d x l) /\
  insert_deadline D d x l ≡ₚ x :: l.
Proof.
  intros Hx Hs. unfold insert_deadline. split.
  - assert (StronglySorted (by_deadline (new_deadline D x d)) l) as Hs'.
    { revert Hs. clear - Hx. induction 1 as [|y l Hs IH Hy]; constructor.
      - apply IH. set_solver.
      - rewrite Forall_forall in *. intros z Hz. specialize (Hy z Hz). unfold by_deadline, new_deadline in *.
        rewrite !decide_False by set_solver. done. }
    apply sorted_app; [by apply sorted_filter|constructor; [by apply sorted_filter|]|].
    + apply Forall_forall. intros y Hy. apply list_elem_of_filter in Hy as [Hd Hy].
      unfold by_deadline, new_deadline. rewrite decide_True by done. rewrite decide_False by set_solver. lia.
    + intros y z Hy Hz. apply list_elem_of_filter in Hy as [Hd Hy].
      unfold by_deadline, new_deadline. rewrite (decide_False (P := y = x)) by set_solver.
      apply elem_of_cons in Hz as [->|Hz]; [by rewrite decide_True|].
      apply list_elem_of_filter in Hz as [Hd' Hz]. rewrite decide_False by set_solver. lia.
  - rewrite <- Permutation_middle. f_equiv. clear. induction l as [|y l IH]; [done|].
    destruct (Z.leb_spec (D y) d).
    + rewrite filter_cons_True by done. rewrite (filter_cons_False (fun y => d < D y)) by lia.
      simpl. by rewrite IH.
    + rewrite filter_cons_False by lia. rewrite (filter_cons_True (fun y => d < D y)) by lia.
      rewrite <- Permutation_middle. by rewrite IH.
Qed.

Lemma upd_timer_some x tm f k :
  timers k !! x = Some tm ->
  upd_timer x f k = Some {| k with timers := <[x := f tm]> (timers k) |}.
Proof. unfold upd_timer. by intros ->. Qed.

(** Removing a timer that is not in the list. *)
Lemma remove_absent x (l : list obj) : x ∉ l -> filter (fun y : obj => y <> x) l = l.
Proof. intros Hx. apply filter_all. intros y Hy ->. done. Qed.

Lemma sorted_split D d l : StronglySorted (by_deadline D) l ->
  filter (fun y => D y <= d) l ++ filter (fun y => d < D y) l = l.
Proof.
  induction 1 as [|y l Hs IH Hy]; [done|]. destruct (Z.leb_spec (D y) d).
  - rewrite filter_cons_True by done. rewrite (filter_cons_False (fun y => d < D y)) by lia.
    simpl. by rewrite IH.
  - rewrite filter_cons_False by lia. rewrite (filter_cons_True (fun y => d < D y)) by lia.
    rewrite Forall_forall in Hy. rewrite filter_none.
    + simpl. f_equal. apply filter_all. intros z Hz. specialize (Hy z Hz). unfold by_deadline in Hy. lia.
    + intros z Hz. specialize (Hy z Hz). unfold by_deadline in Hy. lia.
Qed.

(** Taken out again, the timer leaves the list as it was. *)
Lemma insert_deadline_remove D d x l : x ∉ l -> StronglySorted (by_deadline D) l ->
  filter (fun y => y <> x) (insert_deadline D d x l) = l.
Proof.
  intros Hx Hs. unfold insert_deadline. rewrite filter_app, filter_cons_False by (intros Hn; by apply Hn).
  rewrite !remove_absent; [by apply sorted_split| |]; intros Hin; by apply list_elem_of_filter in Hin as [_ Hin].
Qed.

(** ** Starting a hard timer *)
Definition hard (tm : rt_timer) : Prop := has_flag (tflag tm) RT_TIMER_FLAG_SOFT_TIMER = false.

(** The started timer. *)
Definition started (now : Z) (tm : rt_timer) : rt_timer :=
  activate {| (deactivate tm) with timeout_tick := u32 (now + tm_init_tick tm) |}.

Lemma lookup_other (x y : obj) (k : kernel) b d l D tm' :
  deadlines_ok k b D l -> x ∉ l ->
  deadlines_ok {| k with timers := <[x := tm']> (timers k) |} b (new_deadline D x d) l.
Proof.
  intros Hd Hx z Hz. assert (z <> x) by set_solver. destruct (Hd z Hz) as (tm & H1 & H2 & H3).
  exists tm. simpl. rewrite lookup_insert_ne by done. unfold new_deadline. by rewrite decide_False.
Qed.

Definition start_result (x : obj) (tm : rt_timer) (D : obj -> Z) (k : kernel) : kernel :=
  {| (_rt_timer_remove x k) with
       timers := <[x := started (rt_tick k) tm]> (timers k);
       timer_list := insert_deadline D (rt_tick k + tm_init_tick tm) x
                       (filter (fun y => y <> x) (timer_list k)) |}.

Lemma timer_start_ok k x tm b D :
  timers k !! x = Some tm -> is_timer tm = true -> hard tm ->
  let l := filter (fun y => y <> x) (timer_list k) in
  deadlines_ok k b D l -> StronglySorted (by_deadline D) l ->
  tm_init_tick tm < WINDOW -> b <= rt_tick k + tm_init_tick tm < b + WINDOW ->
  rt_timer_start x k = Some (RT_EOK, start_result x tm D k).
Proof.
  intros Hx Hi Hh l Hd Hs Hw Hb. unfold rt_timer_start. rewrite Hx, some_bind, Hi.
  simpl assert. rewrite some_bind. cbv zeta. set (k0 := _rt_timer_remove x k).
  assert (timers k0 !! x = Some tm) as Hx0 by done.
  rewrite (upd_timer_some x tm), some_bind by done.
  change (RT_TICK_MAX / 2) with WINDOW. rewrite (proj2 (Z.ltb_lt _ _) Hw). cbn [assert]. rewrite some_bind.
  rewrite (upd_timer_some x (deactivate tm)), some_bind by (simpl; by rewrite lookup_insert_eq).
  rewrite Hh. cbv iota. change (rt_tick_get k0) with (rt_tick k).
  rewrite (timer_insert_ok _ b D), some_bind.
  - rewrite (upd_timer_some x {| (deactivate tm) with timeout_tick := u32 (rt_tick k + tm_init_tick tm) |}), some_bind
      by (simpl; by rewrite lookup_insert_eq).
    unfold start_result, started. cbn [timers]. rewrite !insert_insert_eq. reflexivity.
  - intros y Hy. destruct (Hd y Hy) as (tmy & H1 & H2 & H3). exists tmy. simpl.
    apply list_elem_of_filter in Hy as [Hy _]. by rewrite !lookup_insert_ne.
  - exact Hs.
  - exact Hb.
Qed.

(** The list after starting is again in order, for the new deadlines. *)
Lemma start_result_ok k x tm b D :
  timers k !! x = Some tm ->
  let l := filter (fun y => y <> x) (timer_list k) in
  let D' := new_deadline D x (rt_tick k + tm_init_tick tm) in
  deadlines_ok k b D l -> StronglySorted (by_deadline D) l -> NoDup (timer_list k) ->
  b <= rt_tick k + tm_init_tick tm < b + WINDOW ->
  let k' := start_result x tm D k in
  deadlines_ok k' b D' (timer_list k') /\ StronglySorted (by_deadline D') (timer_list k') /\
  NoDup (timer_list k') /\ timer_list k' ≡ₚ x :: l.
Proof.
  intros Hx l D' Hd Hs Hnd Hb k'.
  assert (x ∉ l) as Hxl by (intros Hin; by apply list_elem_of_filter in Hin as [? _]).
  destruct (insert_deadline_sorted D (rt_tick k + tm_init_tick tm) x l Hxl Hs) as [H1 H2].
  split_and!; [| exact H1 | | exact H2].
  - intros y Hy. change (timer_list k') with (insert_deadline D (rt_tick k + tm_init_tick tm) x l) in Hy.
    rewrite H2 in Hy. apply elem_of_cons in Hy as [->|Hy].
    + exists (started (rt_tick k) tm). simpl. rewrite lookup_insert_eq. split; [done|].
      unfold D', new_deadline. by rewrite decide_True.
    + assert (y <> x) by set_solver. destruct (Hd y Hy) as (tmy & E1 & E2 & E3). exists tmy. simpl.
      rewrite lookup_insert_ne by done. unfold D', new_deadline. by rewrite decide_False.
  - change (timer_list k') with (insert_deadline D (rt_tick k + tm_init_tick tm) x l). rewrite H2.
    apply NoDup_cons. split; [done|]. by apply NoDup_filter.
Qed.

(** Activation and deactivation in terms of the flag's bits. *)
Lemma has_flag_clear f m n : Z.land m n = 0 -> has_flag (clear f n) m = has_flag f m.
Proof.
  intros H. unfold has_flag, clear. f_equal. f_equal. apply Z.bits_inj'. intros j _.
  rewrite !Z.land_spec, Z.ldiff_spec. assert (Z.testbit m j && Z.testbit n j = false) as Hj
    by (rewrite <- Z.land_spec, H; apply Z.bits_0).
  destruct (Z.testbit f j), (Z.testbit m j), (Z.testbit n j); done.
Qed.

Lemma has_flag_lor f m n : Z.land m n = 0 -> has_flag (Z.lor f n) m = has_flag f m.
Proof.
  intros H. unfold has_flag. f_equal. f_equal. rewrite Z.land_lor_distr_l.
  rewrite (Z.land_comm n m), H. apply Z.lor_0_r.
Qed.

Lemma has_flag_lor_same f n : 0 < n -> has_flag (Z.lor f n) n = true.
Proof.
  intros Hn. unfold has_flag. rewrite Z.land_lor_distr_l, Z.land_diag.
  destruct (Z.eqb_spec (Z.lor (Z.land f n) n) 0) as [H|]; [|done].
  apply Z.lor_eq_0_iff in H as [_ H]. lia.
Qed.

(** ** Properties *)

(** C31: starting a hard timer keeps the timer list in the order of the
    deadlines, also across the wrap of the 32-bit tick: the timer is taken out
    of the place it had, gets the deadline [now + init_tick], is active, and
    stands after all timers that time out no later (so that timers of the same
    tick expire in the order they were started) and before all that time out
    later. *)
Theorem rt_timer_start_ordered k x tm b D :
  timers k !! x = Some tm -> is_timer tm = true -> hard tm -> NoDup (timer_list k) ->
  let l := filter (fun y => y <> x) (timer_list k) in
  deadlines_ok k b D l -> StronglySorted (by_deadline D) l ->
  0 <= tm_init_tick tm < WINDOW -> b <= rt_tick k + tm_init_tick tm < b + WINDOW ->
  exists k' D' l1 l2,
    rt_timer_start x k = Some (RT_EOK, k') /\
    D' x = rt_tick k + tm_init_tick tm /\ (forall y, y <> x -> D' y = D y) /\
    l = l1 ++ l2 /\ timer_list k' = l1 ++ x :: l2 /\
    Forall (fun y => D' y <= D' x) l1 /\ Forall (fun y => D' x < D' y) l2 /\
    deadlines_ok k' b D' (timer_list k') /\ StronglySorted (by_deadline D') (timer_list k') /\
    (exists tm', timers k' !! x = Some tm' /\ has_flag (tflag tm') RT_TIMER_FLAG_ACTIVATED = true) /\
    (forall y, y <> x -> timers k' !! y = timers k !! y).
Proof.
  intros Hx Hi Hh Hnd l Hd Hs Hini Hb.
  assert (x ∉ l) as Hxl by (intros Hin; by apply list_elem_of_filter in Hin as [? _]).
  destruct (start_result_ok k x tm b D Hx Hd Hs Hnd Hb) as (H1 & H2 & _ & _).
  set (d := rt_tick k + tm_init_tick tm) in *.
  exists (start_result x tm D k), (new_deadline D x d), (filter (fun y => D y <= d) l), (filter (fun y => d < D y) l).
  assert (forall y, y ∈ l -> new_deadline D x d y = D y) as Hne.
  { intros y Hy. unfold new_deadline. rewrite decide_False; [done|]. by intros ->. }
  assert (new_deadline D x d x = d) as Hdx by (unfold new_deadline; by rewrite decide_True).
  split; [by apply (timer_start_ok k x tm b D); try done; lia|]. split; [exact Hdx|].
  split; [intros y Hy; unfold new_deadline; by rewrite decide_False|].
  split; [symmetry; by apply sorted_split|]. split; [done|].
  split; [|split; [|split; [exact H1|split; [exact H2|split]]]].
  - apply Forall_forall. intros y Hy. apply list_elem_of_filter in Hy as [Hy Hin]. by rewrite Hdx, Hne.
  - apply Forall_forall. intros y Hy. apply list_elem_of_filter in Hy as [Hy Hin]. by rewrite Hdx, Hne.
  - exists (started (rt_tick k) tm). simpl. rewrite lookup_insert_eq. split; [done|]. by apply has_flag_lor_same.
  - intros y Hy. simpl. by rewrite lookup_insert_ne.
Qed.

(** A kernel whose tick is about to wrap, with timers on both sides. *)
Definition demo_timer (tick init fl : Z) : rt_timer :=
  {| tm_parent := {| name := []; type := RT_Object_Class_Timer; flag := fl |};
     tm_func := user_timeout_func 0 tick; tm_init_tick := init; timeout_tick := u32 tick |}.

Definition demo_deadline (x : obj) : Z :=
  match x with Obj 1 => 2 ^ 32 - 6 | Obj 2 => 2 ^ 32 - 5 | Obj 3 => 2 ^ 32 + 3 | _ => 0 end.

Definition demo_timers : kernel :=
  {| (boot_kernel demo_heap) with
       rt_tick := 2 ^ 32 - 5;
       timers := {[ Obj 1 := demo_timer (2 ^ 32 - 6) 7 1; Obj 2 := demo_timer (2 ^ 32 - 5) 9 3;
                    Obj 3 := demo_timer (2 ^ 32 + 3) 20 1; Obj 4 := demo_timer 0 8 0 ]};
       timer_list := [Obj 1; Obj 2; Obj 3] |}.

Lemma demo_deadlines : deadlines_ok demo_timers (2 ^ 32 - 1000) demo_deadline [Obj 1; Obj 2; Obj 3].
Proof.
  intros x Hx. repeat (apply elem_of_cons in Hx as [->|Hx]); [..|by apply elem_of_nil in Hx];
    eexists; (split; [vm_compute; reflexivity|]); (split; [vm_compute; reflexivity|]);
    change WINDOW with 2147483647; simpl; lia.
Qed.

Lemma demo_sorted : StronglySorted (by_deadline demo_deadline) [Obj 1; Obj 2; Obj 3].
Proof. repeat constructor; unfold by_deadline; simpl; lia. Qed.

Lemma rt_timer_start_ordered_witness : exists k' D',
  rt_timer_start (Obj 4) demo_timers = Some (RT_EOK, k') /\ D' (Obj 4) = 2 ^ 32 + 3 /\
  StronglySorted (by_deadline D') (timer_list k').
Proof.
  destruct (rt_timer_start_ordered demo_timers (Obj 4) (demo_timer 0 8 0) (2 ^ 32 - 1000) demo_deadline)
    as (k' & D' & l1 & l2 & H1 & H2 & _ & _ & _ & _ & _ & _ & H3 & _).
  - vm_compute. reflexivity.
  - reflexivity.
  - reflexivity.
  - apply (bool_decide_unpack _). vm_compute. exact I.
  - exact demo_deadlines.
  - exact demo_sorted.
  - change WINDOW with 2147483647. simpl. lia.
  - change WINDOW with 2147483647. simpl. lia.
  - exists k', D'. exact (conj H1 (conj H2 H3)).
Defined.
