(* ===== verification/Ipc.v ===== *)
(** * Waiting on IPC objects (rt-thread/src/ipc.c)

    The functions that suspend and resume threads on the list of an IPC object,
    which every object of ipc.c uses, and what they do to a kernel in order.  An
    object at address [o] has its waiting threads in the
    kernel's queue [QSuspend o] (and [QSender o]); its own fields are a record
    next to the kernel.  A function that may block ends with the call of
    rt_schedule and the outcome [Waiting]; what the thread does when it runs
    again is a function of its own, with the suffix [_end] or [_again]. *)
From S2P Require Import Prelude Mem Kernel Sched Timer.

Definition RT_IPC_FLAG_FIFO : Z := 0.
Definition RT_IPC_FLAG_PRIO : Z := 1.
Definition RT_IPC_CMD_RESET : Z := 1.
Definition RT_WAITING_FOREVER : Z := -1.

(** ** The waiting lists *)

(** The search for the place of a thread of priority [p]: before the first one
    of a larger priority number. *)
Fixpoint insert_prio (t p : Z) (k : kernel) (l : list Z) : option (list Z) :=
  match l with
  | [] => Some [t]
  | s :: l' =>
      sth ← threads k !! s;
      if p <? current_priority sth then Some (t :: l)
      else l' ← insert_prio t p k l'; Some (s :: l')
  end.

Definition rt_ipc_list_suspend (q : queue) (t fl : Z) (k : kernel) : option kernel :=
  '(_, k) ← rt_thread_suspend t k;
  if fl =? RT_IPC_FLAG_FIFO then Some (push_back q t k)
  else if fl =? RT_IPC_FLAG_PRIO then
    th ← threads k !! t;
    l ← insert_prio t (current_priority th) k (queues k q);
    Some (set_queue q l k)
  else Some k.

Definition rt_ipc_list_resume (q : queue) (k : kernel) : option kernel :=
  t ← head (queues k q); '(_, k) ← rt_thread_resume t k; Some k.

Fixpoint resume_all_loop (fuel : nat) (q : queue) (k : kernel) : option kernel :=
  match fuel with
  | O => None
  | S fuel =>
      match queues k q with
      | [] => Some k
      | t :: _ =>
          k ← upd_thread t (set_error (- RT_ERROR)) k;
          '(_, k) ← rt_thread_resume t k;
          resume_all_loop fuel q k
      end
  end.

Definition rt_ipc_list_resume_all (q : queue) (k : kernel) : option kernel :=
  resume_all_loop (S (length (queues k q))) q k.

(** What every blocking call does: the thread goes to the list, its timer is
    set to [time] ticks if [time] is positive, and the scheduler runs. *)
Definition ipc_wait (q : queue) (t fl time : Z) (k : kernel) : option kernel :=
  k ← rt_ipc_list_suspend q t fl k;
  k ← (if 0 <? time then start_thread_timer t time k else Some k);
  rt_schedule k.

Inductive outcome := Returned (e : Z) | Waiting.

(** How many units of a resource the outcome grants. *)
Definition granted (r : outcome) : Z :=
  match r with Returned e => if e =? RT_EOK then 1 else 0 | Waiting => 0 end.

(** The outcome of an operation that may have to try again after its wait: the
    result, or the waiting time left and the tick at which the wait began. *)
Inductive attempt := Done (e : Z) | Blocked (timeout tick_delta : Z).

(** timeout -= rt_tick_get() - tick_delta, not below 0, unless it waits for ever. *)
Definition time_left (timeout tick_delta : Z) (k : kernel) : Z :=
  if 0 <? timeout then
    let timeout := i32 (timeout - u32 (rt_tick_get k - tick_delta)) in
    if timeout <? 0 then 0 else timeout
  else timeout.

(** kservice.c: the variable __rt_errno, set outside of threads, is not kept. *)
Definition rt_set_errno (e : Z) (k : kernel) : option kernel :=
  if negb (rt_interrupt_get_nest k =? 0) then Some k
  else match rt_thread_self k with None => Some k | Some t => upd_thread t (set_error e) k end.

Definition is_class (cls : Z) (o : rt_object) : bool := rt_object_get_type o =? cls.

(** ** Timers and blocking

    What a timed wait needs of the timers: the listed ones exist, and the
    threads' own are hard timers. *)
Definition timing_ok (k : kernel) : Prop :=
  (forall x, x ∈ timer_list k -> is_Some (timers k !! x)) /\
  (forall t tm, timers k !! TimerOf t = Some tm -> hard tm).

Record same_timing (k k' : kernel) : Prop := {
  st_timers : timers k' = timers k;
  st_list : timer_list k' = timer_list k;
  st_expired : expired k' = expired k;
  st_tick : rt_tick k' = rt_tick k;
  st_nest : interrupt_nest k' = interrupt_nest k
}.

#[global] Instance same_timing_refl : Reflexive same_timing.
Proof. intros k. by split. Qed.

#[global] Instance same_timing_trans : Transitive same_timing.
Proof. intros k1 k2 k3 [A1 A2 A3 A4 A5] [B1 B2 B3 B4 B5]. split; congruence. Qed.

Lemma timing_same k k' : same_timing k k' -> timing_ok k -> timing_ok k'.
Proof. intros [H1 H2 _ _ _] [H3 H4]. split; rewrite H1; [rewrite H2|]; done. Qed.

Lemma upd_thread_timing t f k k' : upd_thread t f k = Some k' -> same_timing k k'.
Proof. unfold upd_thread. destruct (threads k !! t); [|done]. by intros [= <-]. Qed.

Lemma remove_thread_timing t k k' : rt_schedule_remove_thread t k = Some k' -> same_timing k k'.
Proof.
  unfold rt_schedule_remove_thread. destruct (threads k !! t) as [th|]; [|done]. rewrite some_bind.
  cbv zeta. destruct (queues _ _); by intros [= <-].
Qed.

Lemma insert_thread_timing t k k' : rt_schedule_insert_thread t k = Some k' -> same_timing k k'.
Proof.
  unfold rt_schedule_insert_thread. destruct (threads k !! t) as [th|]; [|done]. rewrite some_bind.
  destruct (bool_decide _); [apply upd_thread_timing|].
  destruct (upd_thread t _ k) as [k1|] eqn:E; [|done]. apply upd_thread_timing in E. rewrite some_bind.
  intros [= <-]. etrans; [exact E|]. by split.
Qed.

Lemma schedule_timing k k' : rt_schedule k = Some k' -> same_timing k k'.
Proof.
  unfold rt_schedule. destruct (negb (lock_nest k =? 0)); [by intros [= <-]|].
  destruct (ready_group k =? 0); [by intros [= <-]|].
  destruct (_get_highest_priority_thread k) as [[to hp]|]; [|done]. simpl.
  destruct (current_thread k) as [cur|]; [|done]. simpl.
  destruct (threads k !! cur) as [cth|]; [|done]. simpl.
  destruct (choose cur to hp cth) as [to' ins].
  match goal with |- (?m ≫= _) = _ -> _ => destruct m as [k1|] eqn:E1; [|done] end. simpl.
  assert (same_timing k k1) as Hk1.
  { destruct (state_of cth =? _); [by eapply upd_thread_timing|by simplify_eq]. }
  destruct (negb (to' =? cur)).
  - set (k2 := {| k1 with rt_current_priority := _; current_thread := _ |}).
    match goal with |- (?m ≫= _) = _ -> _ => destruct m as [k3|] eqn:E3; [|done] end. simpl.
    assert (same_timing k2 k3) by (destruct ins; [by eapply insert_thread_timing|by simplify_eq]).
    destruct (rt_schedule_remove_thread to' k3) as [k4|] eqn:E4; [|done]. apply remove_thread_timing in E4. simpl.
    destruct (upd_thread to' _ k4) as [k5|] eqn:E5; [|done]. apply upd_thread_timing in E5. simpl.
    destruct (_rt_scheduler_stack_check to' k5); [|done]. intros [= <-].
    etrans; [exact Hk1|]. transitivity k2; [by split|]. etrans; [done|]. by etrans.
  - destruct (rt_schedule_remove_thread cur k1) as [k4|] eqn:E4; [|done]. apply remove_thread_timing in E4. simpl.
    intros E5%upd_thread_timing. etrans; [exact Hk1|]. by etrans.
Qed.

Lemma deactivate_hard tm : hard tm -> hard (deactivate tm).
Proof. unfold hard. intros H. change (tflag (deactivate tm)) with (clear (tflag tm) RT_TIMER_FLAG_ACTIVATED). by rewrite has_flag_clear. Qed.

Lemma activate_hard tm : hard tm -> hard (activate tm).
Proof. unfold hard. intros H. change (tflag (activate tm)) with (Z.lor (tflag tm) RT_TIMER_FLAG_ACTIVATED). by rewrite has_flag_lor. Qed.

(** Changing a timer's other fields, or its flags but for the soft one. *)
Lemma upd_timer_timing x f k tm :
  timing_ok k -> timers k !! x = Some tm -> (hard tm -> hard (f tm)) ->
  timing_ok {| k with timers := <[x := f tm]> (timers k) |}.
Proof.
  intros [Hl Hh] Hx Hf. split; simpl.
  - intros y Hy. destruct (decide (y = x)) as [->|]; [rewrite lookup_insert_eq; eauto|].
    rewrite lookup_insert_ne by done. by apply Hl.
  - intros t tm' Ht. destruct (decide (TimerOf t = x)) as [<-|].
    + rewrite lookup_insert_eq in Ht. simplify_eq. by eapply Hf, Hh.
    + rewrite lookup_insert_ne in Ht by done. by eapply Hh.
Qed.

Lemma timer_remove_timing x k : timing_ok k -> timing_ok (_rt_timer_remove x k).
Proof.
  intros [Hl Hh]. split; [|done]. intros y Hy. simpl in Hy. apply list_elem_of_filter in Hy as [_ Hy]. by apply Hl.
Qed.

Lemma timer_stop_timing x k r k' : timing_ok k -> rt_timer_stop x k = Some (r, k') ->
  timing_ok k' /\ interrupt_nest k' = interrupt_nest k.
Proof.
  intros Hk. unfold rt_timer_stop. destruct (timers k !! x) as [tm|] eqn:Hx; [|done]. rewrite some_bind.
  destruct (is_timer tm); [|done]. simpl. destruct (negb _); [by intros [= _ <-]|].
  rewrite (upd_timer_some x tm) by done. simpl. intros [= _ <-]. split; [|done].
  apply (upd_timer_timing x deactivate (_rt_timer_remove x k)); [by apply timer_remove_timing|done|].
  apply deactivate_hard.
Qed.

Lemma suspend_timing t k r k' : timing_ok k -> rt_thread_suspend t k = Some (r, k') ->
  timing_ok k' /\ interrupt_nest k' = interrupt_nest k.
Proof.
  intros Hk. unfold rt_thread_suspend. destruct (threads k !! t) as [th|]; [|done]. rewrite some_bind.
  destruct (is_thread th); [|done]. simpl. destruct (_ && _); [by intros [= _ <-]|].
  destruct (assert _); [|done]. simpl. destruct (rt_schedule_remove_thread t k) as [k1|] eqn:E1; [|done].
  apply remove_thread_timing in E1. simpl. destruct (upd_thread t _ k1) as [k2|] eqn:E2; [|done].
  apply upd_thread_timing in E2. simpl. destruct (rt_timer_stop _ k2) as [[r3 k3]|] eqn:E3; [|done].
  simpl. intros [= _ <-]. assert (same_timing k k2) as Hs by (by etrans).
  apply timer_stop_timing in E3 as [E3 E4]; [|by apply (timing_same k)]. split; [done|].
  by rewrite E4, (st_nest _ _ Hs).
Qed.

Lemma resume_timing t k r k' : timing_ok k -> rt_thread_resume t k = Some (r, k') ->
  timing_ok k' /\ interrupt_nest k' = interrupt_nest k.
Proof.
  intros Hk. unfold rt_thread_resume. destruct (threads k !! t) as [th|]; [|done]. rewrite some_bind.
  destruct (is_thread th); [|done]. simpl. destruct (negb _); [by intros [= _ <-]|].
  destruct (rt_timer_stop _ _) as [[r3 k3]|] eqn:E3; [|done]. simpl.
  apply timer_stop_timing in E3 as [E3 E4]; [|by apply (timing_same k)].
  destruct (rt_schedule_insert_thread t k3) as [k4|] eqn:E5; [|done]. simpl. intros [= _ <-].
  apply insert_thread_timing in E5. split; [by apply (timing_same k3)|]. by rewrite (st_nest _ _ E5).
Qed.

(** Searching the place of a timer succeeds and only adds the timer. *)
Lemma timer_insert_total tick x k l : (forall y, y ∈ l -> is_Some (timers k !! y)) ->
  exists l', timer_insert tick x k l = Some l' /\ l' ≡ₚ x :: l.
Proof.
  induction l as [|y l IH]; intros Hl; [by exists [x]|]. simpl.
  destruct (Hl y) as [tm Hy]; [left|]. rewrite Hy, some_bind.
  destruct (_ && _); [by eexists|].
  destruct IH as (l' & -> & Hp); [intros z Hz; apply Hl; by right|]. rewrite some_bind.
  exists (y :: l'). split; [done|]. rewrite Hp. constructor.
Qed.

(** Starting a hard timer does not concern the scheduler. *)
Lemma timer_start_total x tm k :
  timing_ok k -> timers k !! x = Some tm -> is_timer tm = true -> hard tm -> tm_init_tick tm < WINDOW ->
  exists k', rt_timer_start x k = Some (RT_EOK, k') /\ same_sched k k' /\ lock_nest k' = lock_nest k /\
    timers_ok k k' /\ timing_ok k' /\ interrupt_nest k' = interrupt_nest k.
Proof.
  intros Hk Hx Hi Hh Hw. unfold rt_timer_start. rewrite Hx, some_bind, Hi. cbn [assert]. rewrite some_bind.
  cbv zeta. pose proof (timer_remove_timing x k Hk) as Hk0. set (k0 := _rt_timer_remove x k) in *.
  rewrite (upd_timer_some x tm), some_bind by done.
  change (RT_TICK_MAX / 2) with WINDOW. rewrite (proj2 (Z.ltb_lt _ _) Hw). cbn [assert]. rewrite some_bind.
  rewrite (upd_timer_some x (deactivate tm)), some_bind by (simpl; by rewrite lookup_insert_eq).
  rewrite Hh. cbv iota. set (k1 := {| k0 with timers := _ |}).
  assert (timing_ok k1) as Hk1 by (by apply upd_timer_timing; [|done|apply deactivate_hard]).
  set (tick := u32 _). set (tm2 := {| (deactivate tm) with timeout_tick := tick |}).
  set (k2 := {| k1 with timers := _ |}).
  assert (timing_ok k2) as Hk2.
  { apply (upd_timer_timing x (fun tm => {| tm with timeout_tick := tick |}) k1 (deactivate tm) Hk1); [|done].
    simpl. by rewrite lookup_insert_eq. }
  destruct (timer_insert_total tick x k2 (timer_list k2)) as (l & -> & Hl); [apply Hk2|]. rewrite some_bind.
  rewrite (upd_timer_some x tm2), some_bind by (simpl; by rewrite lookup_insert_eq).
  eexists. split; [reflexivity|]. split; [by split_and!|]. split; [done|].
  assert (hard tm2) as Hh2 by (by apply deactivate_hard).
  split; [|split; [|done]].
  - intros y tmy Hy Hyi. simpl. destruct (decide (y = x)) as [->|].
    + rewrite lookup_insert_eq. eexists. split; [done|]. simplify_eq. exact Hyi.
    + rewrite !lookup_insert_ne by done. eauto.
  - split; simpl.
    + intros y Hy. destruct (decide (y = x)) as [->|]; [rewrite lookup_insert_eq; eauto|].
      rewrite Hl in Hy. apply elem_of_cons in Hy as [|Hy]; [done|].
      destruct Hk2 as [Hk2 _]. specialize (Hk2 y Hy). simpl in Hk2. by rewrite !lookup_insert_ne in * by done.
    + intros t tm' Ht. destruct (decide (TimerOf t = x)) as [<-|].
      * rewrite lookup_insert_eq in Ht. simplify_eq. by apply activate_hard.
      * destruct Hk2 as [_ Hk2]. apply (Hk2 t). simpl. by rewrite !lookup_insert_ne in * by done.
Qed.

Lemma start_thread_timer_total t tm tick k :
  timing_ok k -> timers k !! TimerOf t = Some tm -> is_timer tm = true -> 0 <= tick < WINDOW ->
  exists k', start_thread_timer t tick k = Some k' /\ same_sched k k' /\ lock_nest k' = lock_nest k /\
    timers_ok k k' /\ timing_ok k' /\ interrupt_nest k' = interrupt_nest k.
Proof.
  intros Hk Ht Hi Hw. assert (hard tm) as Hh by (by apply (proj2 Hk t)).
  assert (u32 tick = tick) as Hu by (apply wrap_id; unfold fits; change WINDOW with 2147483647 in Hw; lia).
  unfold start_thread_timer, rt_timer_control. rewrite Ht, some_bind, Hi. cbn [assert]. rewrite some_bind.
  rewrite (upd_timer_some _ tm), some_bind by done. rewrite some_bind. rewrite Hu.
  set (tm1 := {| tm with tm_init_tick := tick |}). set (k1 := {| k with timers := _ |}).
  assert (timing_ok k1) as Hk1.
  { by apply (upd_timer_timing (TimerOf t) (fun tm => {| tm with tm_init_tick := tick |}) k tm Hk). }
  destruct (timer_start_total (TimerOf t) tm1 k1 Hk1) as (k' & -> & Hs & Hl & Hto & Htk & Hn); try done.
  - simpl. by rewrite lookup_insert_eq.
  - simpl. lia.
  - exists k'. rewrite some_bind. split; [done|]. split; [by apply (same_sched_trans k k1)|].
    split; [done|]. split; [|done]. apply (timers_ok_trans k k1); [|done].
    intros y tmy Hy Hyi. simpl. destruct (decide (y = TimerOf t)) as [->|].
    + rewrite lookup_insert_eq. eexists. split; [done|]. simplify_eq. exact Hyi.
    + rewrite lookup_insert_ne by done. eauto.
Qed.

(** ** Waiting *)

(** Where a thread of priority [p] goes in the list [l] of an object with the
    given flag: to the end, or behind the threads of its own or a higher
    priority. *)
Inductive placed (k : kernel) (t p : Z) (l : list Z) : Z -> list Z -> Prop :=
| placed_fifo : placed k t p l RT_IPC_FLAG_FIFO (l ++ [t])
| placed_prio l1 l2 :
    l = l1 ++ l2 ->
    (forall s th, s ∈ l1 -> threads k !! s = Some th -> current_priority th <= p) ->
    (forall s th, head l2 = Some s -> threads k !! s = Some th -> p < current_priority th) ->
    placed k t p l RT_IPC_FLAG_PRIO (l1 ++ t :: l2).

Lemma placed_permutation k t p l fl l' : placed k t p l fl l' -> l' ≡ₚ t :: l.
Proof. intros []; [by rewrite Permutation_app_comm|]. subst. by rewrite <- Permutation_middle. Qed.

Lemma insert_prio_ok t p k l : (forall s, s ∈ l -> is_Some (threads k !! s)) ->
  exists l', insert_prio t p k l = Some l' /\ placed k t p l RT_IPC_FLAG_PRIO l'.
Proof.
  induction l as [|s l IH]; intros Hl; simpl.
  - exists [t]. split; [done|]. apply (placed_prio k t p [] [] []); [done|..]; intros ??; set_solver.
  - destruct (Hl s) as [th Hs]; [left|]. rewrite Hs, some_bind. case_cmp.
    + exists (t :: s :: l). split; [done|].
      apply (placed_prio k t p (s :: l) [] (s :: l)); [done|intros ??; set_solver|].
      intros s' th' [= <-] Hs'. simplify_eq. done.
    + destruct IH as (l' & -> & Hp); [intros x Hx; apply Hl; by right|]. rewrite some_bind.
      exists (s :: l'). split; [done|]. inversion Hp as [|l1 l2 -> H1 H2]; subst.
      apply (placed_prio k t p _ (s :: l1) l2); [done| |done].
      intros x thx Hx Ht. apply elem_of_cons in Hx as [->|Hx]; [simplify_eq; lia|by eapply H1].
Qed.

Lemma placed_ext k k' t p l fl l' : (forall x, x ∈ l -> threads k' !! x = threads k !! x) ->
  placed k' t p l fl l' -> placed k t p l fl l'.
Proof.
  intros He Hpl. inversion Hpl as [|l1 l2 Hl H1 H2]; subst; [constructor|]. econstructor; [done|..].
  - intros x th Hx Hth. apply (H1 x th Hx). rewrite He; [done|]. apply elem_of_app. by left.
  - intros x th Hx Hth. apply (H2 x th Hx). rewrite He; [done|]. apply elem_of_app. right.
    destruct l2; [done|]. simpl in Hx. simplify_eq. left.
Qed.

(** The thread [c] that runs may block: another one is ready, the scheduler is
    not locked, and this is not an interrupt. *)
Record can_block (k : kernel) (c : Z) (cth : rt_thread) : Prop := {
  cb_kernel : kernel_ok k;
  cb_current : current_thread k = Some c;
  cb_thread : threads k !! c = Some cth;
  cb_running : state_of cth = RT_THREAD_RUNNING;
  cb_lock : lock_nest k = 0;
  cb_nest : interrupt_nest k = 0;
  cb_ready : ready_group k <> 0;
  cb_timing : timing_ok k
}.

(** The kernel [k'] in which [c] waits in [q], whose list is now [l']. *)
Record blocked (k k' : kernel) (c : Z) (q : queue) (l' : list Z) : Prop := {
  bl_kernel : kernel_ok k';
  bl_queue : queues k' q = l';
  bl_others : forall q', queue_state q' <> RT_THREAD_READY -> q' <> q -> queues k' q' = queues k q';
  bl_threads : stat_only k k';
  bl_self : exists cth', threads k' !! c = Some cth' /\ state_of cth' = RT_THREAD_SUSPEND;
  bl_next : exists n nth, current_thread k' = Some n /\ n <> c /\ threads k' !! n = Some nth /\
              state_of nth = RT_THREAD_RUNNING;
  bl_timing : timing_ok k';
  bl_lock : lock_nest k' = 0;
  bl_nest : interrupt_nest k' = 0
}.

Lemma kernel_ok_sched k k' : kernel_ok k -> sched_inv k' -> threads k' = threads k ->
  current_thread k' = current_thread k -> kernel_ok k'.
Proof.
  intros [_ Hst Hc] Hs Ht Hcu. split; [done| |].
  - intros x th. rewrite Ht. apply Hst.
  - intros c. rewrite Hcu, Ht. apply Hc.
Qed.

Lemma ready_group_nonzero k p : inv_but [] k -> queues k (QReady p) <> [] -> ready_group k <> 0.
Proof. intros Hi Hq Hg. by apply Hq, (group_zero k [] Hi Hg). Qed.

(** A thread that is ready or running is in no waiting list. *)
Lemma ready_not_waiting k p q x : inv_but [] k -> queue_state q <> RT_THREAD_READY ->
  x ∈ queues k (QReady p) -> x ∉ queues k q.
Proof. intros Hi Hq Hx Hxq. apply Hq. by rewrite <- (si_once [] k Hi _ _ x Hx Hxq). Qed.

Lemma can_block_not_waiting k c cth q : can_block k c cth -> c ∉ queues k q.
Proof.
  intros [[[Hi _ _] _ _] _ Hct Hr _ _ _ _]. eapply (not_queued [] k); [done..|]. rewrite Hr. by destruct q.
Qed.

(** The kernel [k'] in which [c] is suspended and in the list [q], now [l'], but
    still the current thread. *)
Record parked (k k' : kernel) (c : Z) (cth : rt_thread) (q : queue) (l' : list Z) : Prop := {
  pk_kernel : kernel_ok k';
  pk_threads : threads k' = <[c := with_state RT_THREAD_SUSPEND cth]> (threads k);
  pk_queue : queues k' q = l';
  pk_others : forall q', q' <> q -> queues k' q' = queues k q';
  pk_current : current_thread k' = Some c;
  pk_lock : lock_nest k' = 0;
  pk_timers : timers_ok k k';
  pk_timing : timing_ok k';
  pk_nest : interrupt_nest k' = 0
}.

Lemma thread_suspend_ok k c cth q : can_block k c cth -> queue_state q = RT_THREAD_SUSPEND ->
  exists k1 r, rt_thread_suspend c k = Some (r, k1) /\
    threads k1 = <[c := with_state RT_THREAD_SUSPEND cth]> (threads k) /\ (forall q', queues k1 q' = queues k q') /\
    forall l', l' ≡ₚ c :: queues k q -> parked k (set_queue q l' k1) c cth q l'.
Proof.
  intros [Hk Hcu Hct Hr Hl Hn Hg Htk] Hqs. pose proof Hk as [[Hi Hc Ho] Hst _].
  destruct (suspend_ok k c cth (ko_sched _ Hk) Hct ltac:(by right)) as (k1 & E1 & Hs1 & Ht1 & Hq1 & Hcu1 & Hl1 & Hto1).
  destruct (suspend_timing _ _ _ _ Htk E1) as [Htk1 Hn1].
  assert (forall q', queues k1 q' = queues k q') as Hq1'.
  { intros q'. rewrite Hq1. apply filter_nil_iff. eapply (not_queued [] k); [done..|]. rewrite Hr. by destruct q'. }
  assert (forall q', c ∉ queues k1 q') as Hnq.
  { intros q'. rewrite Hq1. intros Hin. by apply list_elem_of_filter in Hin as []. }
  assert (kernel_ok k1) as Hk1.
  { eapply (kernel_ok_upd k); try done; [|apply Hk]. by apply (Hst c cth). }
  exists k1, RT_EOK. split; [done|]. split; [done|]. split; [done|]. intros l' Hpl. split; simpl; try congruence; try done.
  - apply (kernel_ok_sched k1); try done.
    apply (wait_ok k1 c (with_state RT_THREAD_SUSPEND cth)); try done.
    + by rewrite Ht1, lookup_insert_eq.
    + by apply state_with_state.
    + by rewrite Hq1'.
  - by rewrite decide_True.
  - intros q' Hne. by rewrite decide_False.
Qed.

Lemma suspend_wait_ok k c cth q fl : can_block k c cth -> queue_state q = RT_THREAD_SUSPEND ->
  fl = RT_IPC_FLAG_FIFO \/ fl = RT_IPC_FLAG_PRIO ->
  exists k' l', rt_ipc_list_suspend q c fl k = Some k' /\
    placed k c (current_priority cth) (queues k q) fl l' /\ parked k k' c cth q l'.
Proof.
  intros Hcb Hqs Hfl. pose proof (sv_inv _ (ko_sched _ (cb_kernel _ _ _ Hcb))) as Hi.
  destruct (thread_suspend_ok k c cth q Hcb Hqs) as (k1 & r & E1 & Ht1 & Hq1 & Hpk).
  unfold rt_ipc_list_suspend. rewrite E1, some_bind.
  pose proof (can_block_not_waiting k c cth q Hcb) as Hnq.
  destruct Hfl as [-> | ->]; cbn [Z.eqb Pos.eqb RT_IPC_FLAG_FIFO RT_IPC_FLAG_PRIO].
  - unfold push_back. rewrite Hq1. eexists _, _. split; [done|].
    pose proof (placed_fifo k c (current_priority cth) (queues k q)) as Hpl. split; [done|]. apply Hpk.
    by eapply placed_permutation.
  - rewrite Ht1, lookup_insert_eq, some_bind, Hq1.
    destruct (insert_prio_ok c (current_priority cth) k1 (queues k q)) as (l' & E & Hpl).
    { intros s Hs. destruct (si_queue [] k Hi q s Hs) as (th & Hs' & _). rewrite Ht1.
      destruct (decide (s = c)) as [->|]; [rewrite lookup_insert_eq|rewrite lookup_insert_ne by done]; eauto. }
    change (current_priority (with_state RT_THREAD_SUSPEND cth)) with (current_priority cth). rewrite E, some_bind.
    eexists _, l'. split; [done|]. split; [|apply Hpk; by eapply placed_permutation].
    apply (placed_ext k k1); [|done]. intros x Hx. rewrite Ht1, lookup_insert_ne; [done|]. by intros ->.
Qed.

Lemma remove_thread_frame t k k' : rt_schedule_remove_thread t k = Some k' ->
  threads k' = threads k /\ current_thread k' = current_thread k.
Proof.
  unfold rt_schedule_remove_thread. destruct (threads k !! t); [|done]. rewrite some_bind. cbv zeta.
  by destruct (queues _ _); intros [= <-].
Qed.

Lemma upd_thread_frame t f k k' x : upd_thread t f k = Some k' ->
  current_thread k' = current_thread k /\ (x <> t -> threads k' !! x = threads k !! x).
Proof.
  unfold upd_thread. destruct (threads k !! t); [|done]. intros [= <-]. split; [done|].
  intros Hx. simpl. by rewrite lookup_insert_ne.
Qed.

(** When the current thread does not run, rt_schedule changes only the thread
    it picks. *)
Lemma schedule_others k k' c cth x : rt_schedule k = Some k' -> current_thread k = Some c ->
  threads k !! c = Some cth -> state_of cth <> RT_THREAD_RUNNING -> current_thread k' <> Some x ->
  threads k' !! x = threads k !! x.
Proof.
  intros E Hcu Hct Hs Hx. unfold rt_schedule in E.
  destruct (negb (lock_nest k =? 0)); [by simplify_eq|].
  destruct (ready_group k =? 0); [by simplify_eq|].
  destruct (_get_highest_priority_thread k) as [[to hp]|]; [|done]. simpl in E.
  rewrite Hcu in E. simpl in E. rewrite Hct in E. simpl in E. unfold choose in E.
  rewrite (proj2 (Z.eqb_neq _ _) Hs) in E. simpl in E.
  destruct (negb (to =? c)) eqn:Etc.
  - destruct (rt_schedule_remove_thread to _) as [k4|] eqn:E4; [|done]. apply remove_thread_frame in E4 as [H4 C4].
    simpl in E. destruct (upd_thread to _ k4) as [k5|] eqn:E5; [|done].
    apply (upd_thread_frame _ _ _ _ x) in E5 as [C5 H5].
    simpl in E. destruct (_rt_scheduler_stack_check to k5); [|done]. simpl in E. simplify_eq.
    rewrite H5, H4; [done|]. intros ->. apply Hx. by rewrite C5, C4.
  - destruct (rt_schedule_remove_thread c k) as [k4|] eqn:E4; [|done]. apply remove_thread_frame in E4 as [H4 C4].
    simpl in E. apply (upd_thread_frame _ _ _ _ x) in E as [C5 H5]. rewrite H5, H4; [done|].
    intros ->. apply Hx. by rewrite C5, C4.
Qed.

(** The scheduler takes the processor from a thread that does not run. *)
Lemma schedule_away k c cth : kernel_ok k -> current_thread k = Some c -> threads k !! c = Some cth ->
  state_of cth = RT_THREAD_SUSPEND -> lock_nest k = 0 -> ready_group k <> 0 -> timing_ok k ->
  exists k', rt_schedule k = Some k' /\ kernel_ok k' /\ stat_only k k' /\
    (forall q, queue_state q <> RT_THREAD_READY -> queues k' q = queues k q) /\
    (exists cth', threads k' !! c = Some cth' /\ state_of cth' = RT_THREAD_SUSPEND) /\
    (exists n nth, current_thread k' = Some n /\ n <> c /\ threads k' !! n = Some nth /\
       state_of nth = RT_THREAD_RUNNING) /\
    timing_ok k' /\ lock_nest k' = lock_nest k /\ interrupt_nest k' = interrupt_nest k.
Proof.
  intros Hk Hcu Hct Hs Hl Hg Htk. pose proof Hk as [[Hi Hc Ho] Hst _].
  destruct (schedule_ok k c cth (ko_sched _ Hk) Hst Hcu Hct) as (k' & E & Hsc).
  exists k'. pose proof (schedule_timing _ _ E) as Hti.
  pose proof (kernel_ok_schedule _ _ _ _ Hk Hsc Hcu Hct) as Hk'.
  destruct Hsc as [Hs' Hso Htm Hlk Hrun Hnext]. rewrite Hl, (proj2 (Z.eqb_neq _ _) Hg) in Hnext, Hrun.
  simpl in Hnext, Hrun. destruct Hnext as (p & t & l & _ & Hq & Hn).
  unfold keeps in Hn. rewrite Hs in Hn. simpl in Hn. destruct Hn as [Hn Hqs].
  assert (t ∈ queues k (QReady p)) as Hin by (rewrite Hq; left).
  assert (t <> c) as Htc.
  { intros ->. apply (si_queue [] k Hi) in Hin as (th & Hth & Hst' & _). simplify_eq. by rewrite Hs in Hst'. }
  destruct (Hrun eq_refl t Hn) as (nth & Hnth & Hnr).
  split; [done|]. split; [done|]. split; [done|]. split.
  { intros q Hqr. rewrite Hqs. unfold switch_queues. rewrite Hs, bool_decide_false by (by intros []).
    apply filter_nil_iff. by eapply ready_not_waiting. }
  split; [|split; [by exists t, nth|split; [by apply (timing_same k)|split; [done|by apply st_nest]]]].
  exists cth. split; [|done]. rewrite (schedule_others k k' c cth); try done; [by rewrite Hs|congruence].
Qed.

(** A parked thread whose timer is set, if it is to be, gives way to another. *)
Definition wait_timer (t time : Z) (k : kernel) : option kernel :=
  k ← (if 0 <? time then start_thread_timer t time k else Some k); rt_schedule k.

Lemma parked_wait_ok k k2 c cth q l' time : can_block k c cth -> queue_state q = RT_THREAD_SUSPEND ->
  parked k k2 c cth q l' -> time < WINDOW ->
  exists k', wait_timer c time k2 = Some k' /\ blocked k k' c q l'.
Proof.
  intros Hcb Hqs [Hk2 Ht2 Hq2 Hqo2 Hcu2 Hl2 Hto2 Htk2 Hn2] Hw.
  destruct Hcb as [Hk Hcu Hct Hr _ _ Hg _]. pose proof Hk as [[Hi Hc Ho] _ _].
  set (sth := with_state RT_THREAD_SUSPEND cth) in *.
  assert (threads k2 !! c = Some sth) as Hct2 by (by rewrite Ht2, lookup_insert_eq).
  assert (exists k3, (if 0 <? time then start_thread_timer c time k2 else Some k2) = Some k3 /\
    same_sched k2 k3 /\ lock_nest k3 = 0 /\ timers_ok k2 k3 /\ timing_ok k3 /\ interrupt_nest k3 = 0)
    as (k3 & E3 & Hss & Hl3 & Hto3 & Htk3 & Hn3).
  { case_cmp; [|exists k2; split; [done|]; split; [apply same_sched_refl|]; split; [done|];
      split; [by apply timers_ok_refl|done]].
    destruct (Ho c cth Hct) as (_ & tm & Htm & Hit); [unfold active; by rewrite Hr|].
    destruct (Hto2 _ _ Htm Hit) as (tm' & Htm' & Hit').
    destruct (start_thread_timer_total c tm' time k2) as (k3 & E3 & H1 & H2 & H3 & H4 & H5); [done..|lia|].
    exists k3. split_and!; try done; congruence. }
  unfold wait_timer. rewrite E3, some_bind.
  pose proof Hss as (Eth & Equ & Egr & Ecu).
  assert (kernel_ok k3) as Hk3.
  { pose proof Hk2 as [[Hi2 Hc2 Ho2] Hst2 Hcx2]. apply (kernel_ok_sched k2); [done| |done|done].
    split; [by apply (inv_same _ k2)| |by eapply objs_same].
    intros x th. rewrite Ecu, Eth. apply Hc2. }
  assert (ready_group k3 <> 0) as Hg3.
  { destruct (highest_ok k [] Hi Hg) as (t & p & l & _ & Hqp & _).
    apply (ready_group_nonzero k3 p); [apply Hk3|]. rewrite Equ, Hqo2, Hqp; [done|]. by intros <-. }
  destruct (schedule_away k3 c sth) as (k' & E' & Hk' & Hso & Hqn & Hself & Hnext & Htk' & Hl' & Hn');
    try done; [congruence|congruence|by apply state_with_state|].
  exists k'. split; [done|]. split; try done; try congruence.
  - rewrite Hqn by (by rewrite Hqs). by rewrite Equ.
  - intros q' Hq' Hne. rewrite Hqn by done. rewrite Equ. by apply Hqo2.
  - apply (stat_only_trans k k3); [|done]. eapply (stat_only_insert c cth); [done|]. by rewrite Eth, Ht2.
Qed.

(** A thread that blocks waits in its place and another one runs. *)
Lemma ipc_wait_ok k c cth q fl time : can_block k c cth -> queue_state q = RT_THREAD_SUSPEND ->
  fl = RT_IPC_FLAG_FIFO \/ fl = RT_IPC_FLAG_PRIO -> time < WINDOW ->
  exists k' l', ipc_wait q c fl time k = Some k' /\
    placed k c (current_priority cth) (queues k q) fl l' /\ blocked k k' c q l'.
Proof.
  intros Hcb Hqs Hfl Hw. destruct (suspend_wait_ok k c cth q fl Hcb Hqs Hfl) as (k2 & l' & E2 & Hpl & Hpk).
  destruct (parked_wait_ok k k2 c cth q l' time Hcb Hqs Hpk Hw) as (k' & E & Hb).
  exists k', l'. unfold ipc_wait. by rewrite E2, some_bind.
Qed.

(** ** Waking *)

(** Ready or running. *)
Definition runnable (th : rt_thread) : Prop :=
  state_of th = RT_THREAD_READY \/ state_of th = RT_THREAD_RUNNING.

Definition runs (k : kernel) (t : Z) : Prop := exists th, threads k !! t = Some th /\ runnable th.

Lemma upd_thread_runs t f k k' x : (forall th, runnable th -> runnable (f th)) ->
  upd_thread t f k = Some k' -> runs k x -> runs k' x.
Proof.
  intros Hf. unfold upd_thread. destruct (threads k !! t) as [th|] eqn:Ht; [|done].
  intros [= <-] (xth & Hx & Hr). unfold runs. simpl. destruct (decide (x = t)) as [->|].
  - simplify_eq. rewrite lookup_insert_eq. eauto.
  - rewrite lookup_insert_ne by done. eauto.
Qed.

Lemma with_state_runnable s th : s = RT_THREAD_READY \/ s = RT_THREAD_RUNNING -> runnable (with_state s th).
Proof. unfold runnable. intros [-> | ->]; rewrite !state_with_state by done; auto. Qed.

Lemma insert_thread_runs t k k' x : rt_schedule_insert_thread t k = Some k' -> runs k x -> runs k' x.
Proof.
  unfold rt_schedule_insert_thread. destruct (threads k !! t); [|done]. rewrite some_bind.
  destruct (bool_decide _).
  - apply upd_thread_runs. intros th _. apply with_state_runnable. auto.
  - destruct (upd_thread t _ k) as [k1|] eqn:E; [|done]. rewrite some_bind. intros [= <-] Hr.
    eapply (upd_thread_runs t (with_state RT_THREAD_READY) k k1); [|done..].
    intros th _. apply with_state_runnable. auto.
Qed.

Lemma remove_thread_runs t k k' x : rt_schedule_remove_thread t k = Some k' -> runs k x -> runs k' x.
Proof. intros [H _]%remove_thread_frame. unfold runs. by rewrite H. Qed.

(** A thread that is runnable stays so when the scheduler runs. *)
Lemma schedule_runs k k' x : rt_schedule k = Some k' -> runs k x -> runs k' x.
Proof.
  unfold rt_schedule. intros E Hr. destruct (negb (lock_nest k =? 0)); [by simplify_eq|].
  destruct (ready_group k =? 0); [by simplify_eq|].
  destruct (_get_highest_priority_thread k) as [[to hp]|]; [|done]. simpl in E.
  destruct (current_thread k) as [cur|]; [|done]. simpl in E.
  destruct (threads k !! cur) as [cth|]; [|done]. simpl in E.
  destruct (choose cur to hp cth) as [to' ins].
  match type of E with (?m ≫= _) = _ => destruct m as [k1|] eqn:E1; [|done] end. simpl in E.
  assert (runs k1 x) as Hr1.
  { destruct (state_of cth =? _); [|by simplify_eq]. eapply upd_thread_runs; [|done..].
    intros th. unfold runnable. by rewrite state_clear_yield. }
  clear E1 Hr. destruct (negb (to' =? cur)).
  - set (k2 := {| k1 with rt_current_priority := _; current_thread := _ |}) in E.
    match type of E with (?m ≫= _) = _ => destruct m as [k3|] eqn:E3; [|done] end. simpl in E.
    assert (runs k3 x) as Hr3 by (destruct ins; [by eapply insert_thread_runs|by simplify_eq]).
    destruct (rt_schedule_remove_thread to' k3) as [k4|] eqn:E4; [|done]. simpl in E.
    destruct (upd_thread to' _ k4) as [k5|] eqn:E5; [|done]. simpl in E.
    destruct (_rt_scheduler_stack_check to' k5); [|done]. simpl in E. simplify_eq.
    eapply upd_thread_runs; [|exact E5|by eapply remove_thread_runs]. intros th _. apply with_state_runnable. auto.
  - destruct (rt_schedule_remove_thread cur k1) as [k4|] eqn:E4; [|done]. simpl in E.
    eapply upd_thread_runs; [|exact E|by eapply remove_thread_runs]. intros th _. apply with_state_runnable. auto.
Qed.

(** The scheduler returns and leaves the waiting lists alone. *)
Lemma schedule_total k c : kernel_ok k -> timing_ok k -> current_thread k = Some c ->
  exists k' n, rt_schedule k = Some k' /\ kernel_ok k' /\ timing_ok k' /\ stat_only k k' /\
    current_thread k' = Some n /\
    (forall q, queue_state q <> RT_THREAD_READY -> queues k' q = queues k q) /\
    lock_nest k' = lock_nest k /\ interrupt_nest k' = interrupt_nest k.
Proof.
  intros Hk Htk Hcu. pose proof Hk as [[Hi _ _] Hst Hex]. destruct (Hex c Hcu) as [cth Hct].
  destruct (schedule_ok k c cth (ko_sched _ Hk) Hst Hcu Hct) as (k' & E & Hsc).
  pose proof (schedule_timing _ _ E) as Hti. pose proof (kernel_ok_schedule _ _ _ _ Hk Hsc Hcu Hct) as Hk'.
  destruct Hsc as [_ Hso _ Hlk _ Hnext].
  assert (exists n, current_thread k' = Some n /\
    (forall q, queue_state q <> RT_THREAD_READY -> queues k' q = queues k q)) as (n & Hn & Hq).
  { destruct (negb (lock_nest k =? 0) || (ready_group k =? 0)); [subst; by exists c|].
    destruct Hnext as (p & t & l & _ & Hqp & Hn). destruct (keeps cth p); destruct Hn as [Hn Hqs]; [by exists c|].
    exists t. split; [done|]. intros q Hqr. rewrite Hqs. unfold switch_queues.
    rewrite bool_decide_false by (by intros [_ ->]). apply filter_nil_iff.
    eapply ready_not_waiting; [done..|]. rewrite Hqp. left. }
  exists k', n. split_and!; try done; [by eapply timing_same|by apply st_nest].
Qed.

(** Leaving a critical section reschedules at most. *)
Lemma exit_critical_total k c : kernel_ok k -> timing_ok k -> current_thread k = Some c ->
  exists k' n, rt_exit_critical k = Some k' /\ kernel_ok k' /\ timing_ok k' /\ stat_only k k' /\
    current_thread k' = Some n /\
    (forall q, queue_state q <> RT_THREAD_READY -> queues k' q = queues k q) /\
    (forall x, runs k x -> runs k' x).
Proof.
  intros Hk Htk Hcu. unfold rt_exit_critical. destruct (_ <=? 0).
  - simpl. set (k1 := {| k with lock_nest := 0 |}). rewrite Hcu.
    assert (kernel_ok k1) as Hk1 by (by apply (kernel_ok_same k)).
    destruct (schedule_total k1 c Hk1) as (k' & n & E & H1 & H2 & H3 & H4 & H5 & _); [done..|].
    exists k', n. do 6 (split; [done|]). intros x. by apply (schedule_runs k1).
  - eexists _, c. split; [done|]. split; [by apply (kernel_ok_same k)|]. split; [done|].
    by split; [apply stat_only_refl|].
Qed.

(** The first thread [w] waiting in [q] is ready; the rest of the list is [l]. *)
Record woken (k k' : kernel) (q : queue) (w : Z) (l : list Z) : Prop := {
  wk_kernel : kernel_ok k';
  wk_queue : queues k' q = l;
  wk_others : forall q', queue_state q' <> RT_THREAD_READY -> q' <> q -> queues k' q' = queues k q';
  wk_threads : stat_only k k';
  wk_runs : runs k' w;
  wk_timing : timing_ok k';
  wk_lock : lock_nest k' = lock_nest k;
  wk_nest : interrupt_nest k' = interrupt_nest k
}.

Lemma insert_state_runnable t k th : runnable (with_state (insert_state t k) th).
Proof. apply with_state_runnable. unfold insert_state. destruct (bool_decide _); auto. Qed.

(** The thread [w], which waited in [q], wherever it was in the list, is ready. *)
Record resumed (k k' : kernel) (q : queue) (w : Z) (wth : rt_thread) : Prop := {
  re_kernel : kernel_ok k';
  re_queue : queues k' q = filter (fun x => x <> w) (queues k q);
  re_others : forall q', queue_state q' <> RT_THREAD_READY -> q' <> q -> queues k' q' = queues k q';
  re_threads : threads k' = <[w := with_state (resume_state w k) wth]> (threads k);
  re_current : current_thread k' = current_thread k;
  re_timing : timing_ok k';
  re_lock : lock_nest k' = lock_nest k;
  re_nest : interrupt_nest k' = interrupt_nest k
}.

Lemma thread_resume_ok k q w : kernel_ok k -> timing_ok k -> queue_state q = RT_THREAD_SUSPEND -> w ∈ queues k q ->
  exists k' wth, rt_thread_resume w k = Some (RT_EOK, k') /\ threads k !! w = Some wth /\ resumed k k' q w wth.
Proof.
  intros Hk Htk Hqs Hin. pose proof Hk as [[Hi Hc Ho] Hst Hex].
  destruct (si_queue [] k Hi q w Hin) as (wth & Hw & Hs & _). rewrite Hqs in Hs.
  destruct (resume_ok k w wth (ko_sched _ Hk) Hw Hs) as (k' & E & Hs' & Ht' & Hq' & Hcu' & Hl' & Hto').
  destruct (resume_timing _ _ _ _ Htk E) as [Htk' Hn'].
  assert (forall q', queue_state q' <> RT_THREAD_READY -> resume_queues w wth k q' = filter (fun x => x <> w) (queues k q'))
    as Hrq by (intros q' Hr; unfold resume_queues; rewrite decide_False; [done|]; by intros [-> _]).
  exists k', wth. split; [done|]. split; [done|]. split; try done.
  - eapply (kernel_ok_upd k); try done. by apply (Hst w wth).
  - by rewrite Hq', Hrq by (by rewrite Hqs).
  - intros q' Hr Hne. rewrite Hq', Hrq by done. apply filter_nil_iff. intros Hin'. apply Hne.
    exact (si_once [] k Hi _ _ w Hin' Hin).
Qed.

(** Making a suspended thread ready, whatever list it is in, if any. *)
Lemma resume_suspended_ok k t th : kernel_ok k -> timing_ok k -> threads k !! t = Some th -> state_of th = RT_THREAD_SUSPEND ->
  exists k', rt_thread_resume t k = Some (RT_EOK, k') /\ kernel_ok k' /\ timing_ok k' /\
    threads k' = <[t := with_state (resume_state t k) th]> (threads k) /\ runs k' t /\
    current_thread k' = current_thread k /\ lock_nest k' = lock_nest k.
Proof.
  intros Hk Htk Ht Hs. pose proof Hk as [Hsc Hst Hex].
  destruct (resume_ok k t th Hsc Ht Hs) as (k' & E & Hs' & Ht' & _ & Hcu' & Hl' & _).
  destruct (resume_timing _ _ _ _ Htk E) as [Htk' _]. exists k'. split; [done|]. split; [|split; [done|split; [done|split; [|done]]]].
  - apply (kernel_ok_upd k k' t (with_state (resume_state t k) th)); try done. by apply (Hst t th).
  - exists (with_state (resume_state t k) th). rewrite Ht', lookup_insert_eq. split; [done|]. apply insert_state_runnable.
Qed.

Lemma resume_runs t k r k' x : rt_thread_resume t k = Some (r, k') -> runs k x -> runs k' x.
Proof.
  unfold rt_thread_resume. destruct (threads k !! t) as [th|]; [|done]. rewrite some_bind.
  destruct (assert _); [|done]. rewrite some_bind. destruct (negb _); [by intros [= _ <-]|]. cbv zeta.
  destruct (rt_timer_stop _ _) as [[r1 k1]|] eqn:E1; [|done]. rewrite some_bind. cbn beta iota.
  destruct (rt_schedule_insert_thread t k1) as [k2|] eqn:E2; [|done]. rewrite some_bind. intros [= _ <-] Hr.
  apply (insert_thread_runs t k1 k2 x E2). unfold runs. assert (threads k1 = threads k) as ->; [|done].
  unfold rt_timer_stop, upd_timer in E1. destruct (timers _ !! TimerOf t); [|done]. rewrite some_bind in E1.
  destruct (assert _); [|done]. rewrite some_bind in E1. destruct (negb _); [by injection E1 as _ <-|].
  rewrite some_bind in E1. by injection E1 as _ <-.
Qed.

Lemma ipc_list_resume_ok k q w l : kernel_ok k -> timing_ok k -> queue_state q = RT_THREAD_SUSPEND ->
  queues k q = w :: l ->
  exists k' wth, rt_ipc_list_resume q k = Some k' /\ woken k k' q w l /\ current_thread k' = current_thread k /\
    threads k !! w = Some wth /\ threads k' = <[w := with_state (resume_state w k) wth]> (threads k).
Proof.
  intros Hk Htk Hqs Hq. pose proof (sv_inv _ (ko_sched _ Hk)) as Hi.
  destruct (thread_resume_ok k q w Hk Htk Hqs) as (k' & wth & E & Hw & [Hk' Hq' Hqo Ht' Hcu' Htk' Hl' Hn']);
    [rewrite Hq; left|].
  unfold rt_ipc_list_resume. rewrite Hq. cbn [head]. rewrite some_bind, E, some_bind.
  exists k', wth. split; [done|]. split; [|done].
  pose proof (si_nodup [] k Hi q) as Hnd. rewrite Hq in Hnd. apply NoDup_cons in Hnd as [Hwl _].
  split; try done.
  - rewrite Hq', Hq, filter_cons_False by tauto. by apply filter_nil_iff.
  - by eapply stat_only_insert.
  - exists (with_state (resume_state w k) wth). rewrite Ht', lookup_insert_eq. split; [done|]. apply insert_state_runnable.
Qed.

(** Waking the first waiting thread and rescheduling. *)
Lemma wake_ok k c q w l : kernel_ok k -> timing_ok k -> current_thread k = Some c ->
  queue_state q = RT_THREAD_SUSPEND -> queues k q = w :: l ->
  exists k', (k ← rt_ipc_list_resume q k; rt_schedule k) = Some k' /\ woken k k' q w l.
Proof.
  intros Hk Htk Hcu Hqs Hq. destruct (ipc_list_resume_ok k q w l Hk Htk Hqs Hq) as (k1 & wth & E1 & Hw1 & Hc1 & _).
  rewrite E1, some_bind. destruct Hw1 as [Hk1 Hq1 Hqo1 Ht1 Hr1 Htk1 Hl1 Hn1].
  destruct (schedule_total k1 c) as (k2 & n & E2 & Hk2 & Htk2 & Hso2 & _ & Hq2 & Hl2 & Hn2); [done..|congruence|].
  exists k2. split; [done|]. split; try done; try congruence.
  - by rewrite Hq2 by (by rewrite Hqs).
  - intros q' Hr Hne. rewrite Hq2 by done. by apply Hqo1.
  - by eapply schedule_runs.
Qed.

(** The same where the code resumes the thread itself and goes on with [f]. *)
Lemma resume_schedule_ok {A} (f : kernel -> option A) k c q w l : kernel_ok k -> timing_ok k ->
  current_thread k = Some c -> queue_state q = RT_THREAD_SUSPEND -> queues k q = w :: l ->
  exists k', ('(_, k) ← rt_thread_resume w k; k ← rt_schedule k; f k) = f k' /\ woken k k' q w l.
Proof.
  intros Hk Htk Hcu Hqs Hq. destruct (wake_ok k c q w l Hk Htk Hcu Hqs Hq) as (k' & E & Hw). exists k'. split; [|done].
  unfold rt_ipc_list_resume in E. rewrite Hq in E. cbn [head] in E. rewrite some_bind in E.
  destruct (rt_thread_resume w k) as [[r k1]|]; [|done]. rewrite some_bind. cbn in E. by rewrite E, some_bind.
Qed.

(** The first thread of [q], if there is one, has been woken. *)
Definition first_woken (k k' : kernel) (q : queue) : Prop :=
  match queues k q with w :: l => woken k k' q w l | [] => k' = k end.

Lemma stack_fine_upd th th' : stack_guard th' = stack_guard th -> sp th' = sp th ->
  stack_addr th' = stack_addr th -> stack_size th' = stack_size th -> stack_fine th -> stack_fine th'.
Proof. apply stack_fine_eq. Qed.

(** A change of a thread that the scheduler does not look at. *)
Lemma kernel_ok_benign k t th f : kernel_ok k -> threads k !! t = Some th -> benign th (f th) ->
  stack_fine (f th) ->
  exists k', upd_thread t f k = Some k' /\ kernel_ok k' /\ same_timing k k' /\ queues k' = queues k /\
    current_thread k' = current_thread k /\ lock_nest k' = lock_nest k /\ ready_group k' = ready_group k /\
    threads k' = <[t := f th]> (threads k).
Proof.
  intros Hk Ht Hb Hf. rewrite (upd_thread_some t th) by done. eexists. split; [done|].
  split; [|by split_and!]. pose proof Hk as [Hs Hst Hc].
  eapply (kernel_ok_upd k); try done. by eapply benign_ok.
Qed.

Lemma set_error_benign e th : benign th (set_error e th).
Proof. by split_and!. Qed.

(** All the threads waiting in [q] are ready, with an error. *)
Record all_woken (k k' : kernel) (q : queue) (l : list Z) : Prop := {
  aw_kernel : kernel_ok k';
  aw_timing : timing_ok k';
  aw_queue : queues k' q = [];
  aw_others : forall q', queue_state q' <> RT_THREAD_READY -> q' <> q -> queues k' q' = queues k q';
  aw_errors : forall w, w ∈ l -> exists th, threads k' !! w = Some th /\ runnable th /\ error th = - RT_ERROR;
  aw_threads : forall x, x ∉ l -> threads k' !! x = threads k !! x;
  aw_current : current_thread k' = current_thread k;
  aw_lock : lock_nest k' = lock_nest k;
  aw_nest : interrupt_nest k' = interrupt_nest k
}.

Lemma resume_all_ok q l : queue_state q = RT_THREAD_SUSPEND -> forall k,
  kernel_ok k -> timing_ok k -> queues k q = l ->
  exists k', resume_all_loop (S (length l)) q k = Some k' /\ all_woken k k' q l.
Proof.
  intros Hqs. induction l as [|w l IH]; intros k Hk Htk Hq; cbn [resume_all_loop length]; rewrite Hq.
  - exists k. split; [done|]. split; try done. intros w Hw. by apply elem_of_nil in Hw.
  - pose proof Hk as [[Hi _ _] Hst _].
    destruct (si_queue [] k Hi q w) as (wth & Hw & Hs & _); [rewrite Hq; left|].
    destruct (kernel_ok_benign k w wth (set_error (- RT_ERROR)) Hk Hw) as (k1 & -> & Hk1 & Hti & Hq1 & Hcu1 & Hl1 & _ & Ht1);
      [apply set_error_benign|by apply (Hst w wth)|]. rewrite some_bind.
    assert (queues k1 q = w :: l) as Hq1' by (by rewrite Hq1).
    destruct (ipc_list_resume_ok k1 q w l Hk1) as (k2 & wth1 & E2 & Hwk & Hcu2 & Hw1 & Ht2); try done.
    { by apply (timing_same k). }
    unfold rt_ipc_list_resume in E2. rewrite Hq1' in E2. cbn [head] in E2. rewrite some_bind in E2.
    destruct (rt_thread_resume w k1) as [[r k2']|]; [|done]. simpl in E2. injection E2 as ->. rewrite some_bind.
    destruct Hwk as [Hk2 Hq2 Hqo2 _ _ Htk2 Hl2 Hn2].
    destruct (IH k2 Hk2 Htk2 Hq2) as (k3 & E3 & [Hk3 Htk3 Hq3 Hqo3 He3 Hx3 Hcu3 Hl3 Hn3]).
    exists k3. split; [done|].
    rewrite Ht1, lookup_insert_eq in Hw1. injection Hw1 as <-.
    assert (w ∉ l) as Hwl by (pose proof (si_nodup [] k Hi q) as Hnd; rewrite Hq in Hnd; by apply NoDup_cons in Hnd as []).
    split; try done; try congruence.
    + intros q' Hr Hne. by rewrite Hqo3, Hqo2, Hq1.
    + intros x Hx. apply elem_of_cons in Hx as [->|Hx]; [|by apply He3].
      rewrite Hx3 by done. rewrite Ht2, lookup_insert_eq. eexists. split; [done|].
      split; [apply insert_state_runnable|done].
    + intros x Hx. apply not_elem_of_cons in Hx as [Hxw Hx]. rewrite Hx3 by done.
      rewrite Ht2, lookup_insert_ne by done. by rewrite Ht1, lookup_insert_ne.
    + rewrite Hn3, Hn2. apply Hti.
Qed.

Lemma ipc_list_resume_all_ok k q l : queue_state q = RT_THREAD_SUSPEND -> kernel_ok k -> timing_ok k ->
  queues k q = l -> exists k', rt_ipc_list_resume_all q k = Some k' /\ all_woken k k' q l.
Proof. intros Hqs Hk Htk Hq. unfold rt_ipc_list_resume_all. rewrite Hq. by apply resume_all_ok. Qed.

(** ** Timing out *)

Lemma timeout_same_timing t k k' : rt_thread_timeout t k = Some k' -> same_timing k k'.
Proof.
  unfold rt_thread_timeout. destruct (threads k !! t) as [th|]; [|done]. rewrite some_bind.
  destruct (state_of th =? _); [|done]. destruct (is_thread th); [|done]. cbn [assert]. rewrite !some_bind.
  destruct (upd_thread t _ k) as [k1|] eqn:E1; [|done]. apply upd_thread_timing in E1. simpl.
  destruct (rt_schedule_insert_thread t _) as [k2|] eqn:E2; [|done]. apply insert_thread_timing in E2. simpl.
  intros E3%schedule_timing. etrans; [exact E1|]. transitivity (tlist_remove t k1); [by split|]. by etrans.
Qed.

Lemma timeout_timing t k k' : timing_ok k -> rt_thread_timeout t k = Some k' ->
  timing_ok k' /\ interrupt_nest k' = interrupt_nest k.
Proof.
  intros Hk Hs%timeout_same_timing. split; [by eapply timing_same|]. apply Hs.
Qed.

Lemma insert_thread_runs_self t k k' : rt_schedule_insert_thread t k = Some k' -> runs k' t.
Proof.
  unfold rt_schedule_insert_thread, upd_thread. destruct (threads k !! t) as [th|] eqn:Ht; [|done]. rewrite some_bind.
  destruct (bool_decide _); rewrite ?some_bind; intros [= <-]; unfold runs; simpl; rewrite lookup_insert_eq;
    (eexists; split; [done|]); apply with_state_runnable; auto.
Qed.

Lemma timeout_runs t k k' : rt_thread_timeout t k = Some k' -> runs k' t.
Proof.
  unfold rt_thread_timeout. destruct (threads k !! t) as [th|]; [|done]. rewrite some_bind.
  destruct (state_of th =? _); [|done]. destruct (is_thread th); [|done]. cbn [assert]. rewrite !some_bind.
  destruct (upd_thread t _ k) as [k1|]; [|done]. simpl.
  destruct (rt_schedule_insert_thread t _) as [k2|] eqn:E2; [|done]. apply insert_thread_runs_self in E2. simpl.
  intros E3. by eapply schedule_runs.
Qed.

(** A thread whose wait in [q] times out is ready with the error -RT_ETIMEOUT;
    the others wait on. *)
Lemma wait_timeout_ok k c q w : kernel_ok k -> timing_ok k -> current_thread k = Some c ->
  queue_state q = RT_THREAD_SUSPEND -> w ∈ queues k q ->
  exists k', rt_thread_timeout w k = Some k' /\ kernel_ok k' /\ timing_ok k' /\
    queues k' q = filter (fun x => x <> w) (queues k q) /\
    (forall q', queue_state q' <> RT_THREAD_READY -> q' <> q -> queues k' q' = queues k q') /\
    (exists th, threads k' !! w = Some th /\ runnable th /\ error th = - RT_ETIMEOUT) /\
    (forall x th, x <> w -> threads k !! x = Some th -> exists th', threads k' !! x = Some th' /\ error th' = error th) /\
    lock_nest k' = lock_nest k /\ interrupt_nest k' = interrupt_nest k /\
    (forall x th, threads k !! x = Some th -> exists th', threads k' !! x = Some th' /\
       th_parent th' = th_parent th /\ current_priority th' = current_priority th).
Proof.
  intros Hk Htk Hcu Hqs Hin. pose proof Hk as [[Hi Hc Ho] Hst Hex].
  destruct (si_queue [] k Hi q w Hin) as (wth & Hw & Hs & _). rewrite Hqs in Hs.
  destruct (timeout_ok k w wth c (ko_sched _ Hk) Hst Hw Hs Hcu (Hex c Hcu))
    as (k1 & cth & k' & Ht1 & Hq1 & Hcu1 & Hto1 & Hl1 & Hs1 & Hct1 & E & Hsc).
  exists k'. destruct (timeout_timing _ _ _ Htk E) as [Htk' Hn'].
  assert (kernel_ok k') as Hk' by (apply (timeout_kernel_ok k k' w); [done|by eexists|done]).
  destruct Hsc as [_ Hso _ Hlk _ Hnext].
  assert (forall q', queue_state q' <> RT_THREAD_READY -> queues k1 q' = filter (fun x => x <> w) (queues k q')) as Hrq.
  { intros q' Hr. rewrite Hq1. unfold resume_queues. rewrite decide_False; [done|]. by intros [-> _]. }
  assert (forall q', queue_state q' <> RT_THREAD_READY -> queues k' q' = filter (fun x => x <> w) (queues k q')) as Hqn.
  { intros q' Hr. rewrite <- Hrq by done.
    destruct (negb (lock_nest k1 =? 0) || (ready_group k1 =? 0)); [by subst|].
    destruct Hnext as (p & t & l & _ & Hqp & Hn). destruct (keeps cth p); destruct Hn as [_ Hqs']; [done|].
    rewrite Hqs'. unfold switch_queues. rewrite bool_decide_false by (by intros [_ ->]). apply filter_nil_iff.
    eapply (ready_not_waiting k1 p); [apply Hs1|done|]. rewrite Hqp. left. }
  split; [done|]. split; [done|]. split; [done|]. split; [apply Hqn; by rewrite Hqs|]. split; [|split; [|split]].
  - intros q' Hr Hne. rewrite Hqn by done. apply filter_nil_iff. intros Hin'. apply Hne.
    exact (si_once [] k Hi _ _ w Hin' Hin).
  - set (sth := with_state (resume_state w k) (set_error (- RT_ETIMEOUT) wth)) in *.
    assert (threads k1 !! w = Some sth) as Hw1 by (by rewrite Ht1, lookup_insert_eq).
    destruct (stat_only_lookup _ _ _ _ Hso Hw1) as (th' & Hw' & Heq). exists th'. split; [done|].
    split; [|by rewrite Heq].
    assert (runs k' w) as (x & Hx & Hr); [|by simplify_eq].
    destruct (timeout_runs w k k' E) as (x & Hx & Hr). by exists x.
  - intros x th Hne Hx. assert (threads k1 !! x = Some th) as Hx1 by (by rewrite Ht1, lookup_insert_ne).
    destruct (stat_only_lookup _ _ _ _ Hso Hx1) as (th' & Hx' & Heq). exists th'. split; [done|]. by rewrite Heq.
  - split; [congruence|]. split; [done|]. intros x th Hx.
    assert (exists th1, threads k1 !! x = Some th1 /\ th_parent th1 = th_parent th /\ current_priority th1 = current_priority th)
      as (th1 & Hx1 & Hp1 & Hp2).
    { rewrite Ht1. destruct (decide (x = w)) as [->|]; [|exists th; by rewrite lookup_insert_ne].
      exists (with_state (resume_state w k) (set_error (- RT_ETIMEOUT) wth)). rewrite lookup_insert_eq. rewrite Hw in Hx. injection Hx as <-. by split_and!. }
    destruct (stat_only_lookup _ _ _ _ Hso Hx1) as (th' & Hx' & Heq). exists th'. split; [done|]. by rewrite Heq.
Qed.

(** ** Common facts

    The kernel in which the error of the thread about to wait is reset. *)
Definition reset_error (c : Z) (cth : rt_thread) (k : kernel) : kernel :=
  {| k with threads := <[c := set_error RT_EOK cth]> (threads k) |}.

Lemma can_block_upd k c cth f : can_block k c cth -> benign cth (f cth) -> stack_fine (f cth) ->
  let k' := {| k with threads := <[c := f cth]> (threads k) |} in
  upd_thread c f k = Some k' /\ can_block k' c (f cth).
Proof.
  intros [Hk Hcu Hct Hr Hl Hn Hg Htk] Hb Hf.
  destruct (kernel_ok_benign k c cth f Hk Hct Hb Hf) as (k1 & E & Hk1 & _).
  rewrite (upd_thread_some c cth) in E |- * by done. injection E as <-. split; [done|].
  split; try done; [simpl; by rewrite lookup_insert_eq|]. by rewrite (proj1 Hb).
Qed.

Lemma reset_error_can_block k c cth : can_block k c cth ->
  upd_thread c (set_error RT_EOK) k = Some (reset_error c cth k) /\
  can_block (reset_error c cth k) c (set_error RT_EOK cth).
Proof.
  intros Hcb. apply (can_block_upd k c cth (set_error RT_EOK) Hcb); [apply set_error_benign|].
  exact (ko_stacks _ (cb_kernel _ _ _ Hcb) c cth (cb_thread _ _ _ Hcb)).
Qed.

Lemma stat_only_error k k' x th : stat_only k k' -> threads k !! x = Some th ->
  exists th', threads k' !! x = Some th' /\ error th' = error th.
Proof.
  intros Hs Hx. destruct (stat_only_lookup _ _ _ _ Hs Hx) as (th' & H1 & H2). exists th'.
  split; [done|]. by rewrite H2.
Qed.

Lemma thread_context k c cth : can_block k c cth ->
  RT_DEBUG_IN_THREAD_CONTEXT k = Some tt /\ rt_thread_self k = Some c.
Proof.
  intros [_ Hcu _ _ _ Hn _ _]. unfold RT_DEBUG_IN_THREAD_CONTEXT, RT_DEBUG_NOT_IN_INTERRUPT, rt_interrupt_get_nest, rt_thread_self.
  by rewrite Hcu, some_bind, Hn.
Qed.

(** ** Waiting threads have no error

    A thread that blocks clears its error first, and what happens to it while it
    waits leaves the error alone, unless its wait times out. *)
Definition waiting_fine (k : kernel) (q : queue) : Prop :=
  forall w, w ∈ queues k q -> exists th, threads k !! w = Some th /\ error th = RT_EOK.

Lemma waiting_fine_nil k q : queues k q = [] -> waiting_fine k q.
Proof. intros Hq w Hw. rewrite Hq in Hw. by apply not_elem_of_nil in Hw. Qed.

Lemma waiting_fine_mono k k' q : waiting_fine k q -> (forall w, w ∈ queues k' q -> w ∈ queues k q) ->
  (forall w th, w ∈ queues k' q -> threads k !! w = Some th -> exists th', threads k' !! w = Some th' /\ error th' = error th) ->
  waiting_fine k' q.
Proof.
  intros Hf Hin He w Hw. destruct (Hf w (Hin w Hw)) as (th & Hth & E). destruct (He w th Hw Hth) as (th' & Hth' & E').
  exists th'. by rewrite E'.
Qed.

Lemma blocked_fine k k' c cth q l' : can_block k c cth -> waiting_fine k q -> l' ≡ₚ c :: queues k q ->
  blocked (reset_error c cth k) k' c q l' -> waiting_fine k' q.
Proof.
  intros Hcb Hf Hl [_ Hq _ Hso _ _ _ _] w Hw. rewrite Hq, Hl in Hw.
  assert (exists th, threads (reset_error c cth k) !! w = Some th /\ error th = RT_EOK) as (th & Hth & He).
  { simpl. destruct (decide (w = c)) as [->|Hwc]; [rewrite lookup_insert_eq; by eexists|].
    apply elem_of_cons in Hw as [|Hw]; [done|]. destruct (Hf w Hw) as (th & Hth & He). exists th. by rewrite lookup_insert_ne. }
  destruct (stat_only_error _ _ _ _ Hso Hth) as (th' & Hth' & He'). exists th'. by rewrite He'.
Qed.

Lemma woken_fine k k' q w l : waiting_fine k q -> queues k q = w :: l -> woken k k' q w l ->
  waiting_fine k' q /\ exists th, threads k' !! w = Some th /\ error th = RT_EOK.
Proof.
  intros Hf Hq [_ Hq' _ Hso _ _ _ _]. split.
  - apply (waiting_fine_mono k); [done| |intros x th _; by apply stat_only_error].
    intros x Hx. rewrite Hq' in Hx. rewrite Hq. by right.
  - destruct (Hf w) as (th & Hth & He); [rewrite Hq; left|].
    destruct (stat_only_error _ _ _ _ Hso Hth) as (th' & Hth' & He'). exists th'. by rewrite He'.
Qed.

(** ** The demonstration kernel may block *)
Lemma demo_timing : timing_ok demo_kernel.
Proof.
  split.
  - assert (timer_list demo_kernel = []) as -> by (vm_compute; reflexivity). intros x Hx. destruct (not_elem_of_nil x Hx).
  - intros t tm Ht. unfold hard.
    assert (map_Forall (fun _ tm => has_flag (tflag tm) RT_TIMER_FLAG_SOFT_TIMER = false) (timers demo_kernel)) as Hall
      by (apply (bool_decide_unpack _); vm_compute; exact I).
    exact (Hall _ _ Ht).
Qed.

Definition demo_current : rt_thread := default null_thread (threads demo_kernel !! 1).

Lemma demo_current_lookup : threads demo_kernel !! 1 = Some demo_current.
Proof.
  unfold demo_current. destruct (threads demo_kernel !! 1) eqn:E; [reflexivity|]. vm_compute in E. discriminate.
Qed.

Lemma demo_can_block : can_block demo_kernel 1 demo_current.
Proof.
  split.
  - exact demo_kernel_ok.
  - vm_compute. reflexivity.
  - exact demo_current_lookup.
  - vm_compute. reflexivity.
  - vm_compute. reflexivity.
  - vm_compute. reflexivity.
  - vm_compute. discriminate.
  - exact demo_timing.
Qed.
