(* ===== verification/Kcall.v ===== *)
(** * Calls of the kernel (scheduler.c, thread.c, timer.c, ipc.c of rt-thread/src)

    The operations that schedule, wait, wake and set timers as one relation,
    [kcall]: what they have in common is that they keep the kernel in order
    ([Sched.kernel_ok]) and that they create and destroy nothing ([steady]). *)
From S2P Require Import Prelude Mem Kernel Sched Timer Ipc.

(** ** What scheduling does not change

    Of a thread: the type of its object, its stack and whether it is closed.
    Of a timer: the type of its object and its function. *)
Record core := { c_type : Z; c_stack : Z; c_size : Z; c_closed : bool }.

Definition closed (th : rt_thread) : bool := state_of th =? RT_THREAD_CLOSE.

Definition core_of (th : rt_thread) : core :=
  {| c_type := type (th_parent th); c_stack := stack_addr th; c_size := stack_size th; c_closed := closed th |}.

Record tcore := { tc_type : Z; tc_func : timeout_func }.

Definition tcore_of (tm : rt_timer) : tcore := {| tc_type := type (tm_parent tm); tc_func := tm_func tm |}.

(** The timers in a list. *)
Definition listed (k : kernel) : list obj := timer_list k ++ soft_timer_list k ++ expired k ++ soft_expired k.

Definition timer_at (k : kernel) (x : obj) : Prop := exists tm, timers k !! x = Some tm /\ is_timer tm = true.

Record steady (k k' : kernel) : Prop := {
  sd_heap : kheap k' = kheap k;
  sd_threads : core_of <$> threads k' = core_of <$> threads k;
  sd_defunct : queues k' QDefunct = queues k QDefunct;
  sd_timers : tcore_of <$> timers k' = tcore_of <$> timers k;
  sd_listed : forall x, x ∈ listed k' -> x ∈ listed k \/ timer_at k x;
  sd_current : is_Some (current_thread k) -> is_Some (current_thread k')
}.

Lemma timer_at_tcore k k' x : tcore_of <$> timers k' = tcore_of <$> timers k -> timer_at k x -> timer_at k' x.
Proof.
  intros E (tm & Hx & Hi). assert ((tcore_of <$> timers k') !! x = Some (tcore_of tm)) as H
    by (by rewrite E, lookup_fmap, Hx).
  rewrite lookup_fmap in H. destruct (timers k' !! x) as [tm'|] eqn:E'; [|done]. simpl in H.
  exists tm'. split; [done|]. injection H as Ht _. unfold is_timer, rt_object_get_type in *. by rewrite Ht.
Qed.

#[global] Instance steady_refl : Reflexive steady.
Proof. intros k. split; auto. Qed.

#[global] Instance steady_trans : Transitive steady.
Proof.
  intros k1 k2 k3 [A1 A2 A3 A4 A5 A6] [B1 B2 B3 B4 B5 B6]. split; try congruence; [|auto].
  intros x [Hx|Hx]%B5; [auto|]. right. by apply (timer_at_tcore k2 k1).
Qed.

(** *** Primitive changes *)

(** Changes of the fields that [steady] does not mention. *)
Lemma steady_fields k k' : kheap k' = kheap k -> threads k' = threads k -> queues k' QDefunct = queues k QDefunct ->
  timers k' = timers k -> (forall x, x ∈ listed k' -> x ∈ listed k) ->
  (is_Some (current_thread k) -> is_Some (current_thread k')) -> steady k k'.
Proof. intros H1 H2 H3 H4 H5 H6. split; rewrite ?H2, ?H4; auto. Qed.

Lemma fmap_insert_id {K A B} `{Countable K} (f : A -> B) (m : gmap K A) i x y :
  m !! i = Some x -> f y = f x -> f <$> <[i := y]> m = f <$> m.
Proof. intros Hi Hf. rewrite fmap_insert, Hf, <- fmap_insert. by rewrite insert_id. Qed.

Lemma upd_thread_steady t f k k' : upd_thread t f k = Some k' ->
  (forall th, threads k !! t = Some th -> core_of (f th) = core_of th) -> steady k k'.
Proof.
  unfold upd_thread. destruct (threads k !! t) as [th|] eqn:Ht; [|done]. intros [= <-] Hf.
  split; simpl; auto. by eapply fmap_insert_id, Hf.
Qed.

Lemma upd_timer_steady x f k k' : upd_timer x f k = Some k' ->
  (forall tm, tcore_of (f tm) = tcore_of tm) -> steady k k'.
Proof.
  unfold upd_timer. destruct (timers k !! x) as [tm|] eqn:Hx; [|done]. intros [= <-] Hf.
  split; simpl; auto. by eapply fmap_insert_id, Hf.
Qed.

Lemma tlist_remove_steady t k : t ∉ queues k QDefunct -> steady k (tlist_remove t k).
Proof. intros Ht. apply steady_fields; auto. simpl. by apply filter_nil_iff. Qed.

Lemma set_queue_steady q l k : q <> QDefunct -> steady k (set_queue q l k).
Proof. intros Hq. apply steady_fields; auto. simpl. by rewrite decide_False. Qed.

Lemma timer_remove_steady x k : steady k (_rt_timer_remove x k).
Proof.
  apply steady_fields; auto. intros y. unfold listed. simpl. rewrite !elem_of_app, !list_elem_of_filter. tauto.
Qed.

(** *** Threads that may be moved: not closed and not defunct *)
Record movable (k : kernel) (t : Z) : Prop := {
  mv_open : forall th, threads k !! t = Some th -> closed th = false;
  mv_list : t ∉ queues k QDefunct
}.

Lemma movable_steady k k' t : steady k k' -> movable k t -> movable k' t.
Proof.
  intros [_ Hth Hd _ _ _] [Ho Hl]. split; [|by rewrite Hd]. intros th Ht.
  assert ((core_of <$> threads k) !! t = Some (core_of th)) as H by (by rewrite <- Hth, lookup_fmap, Ht).
  rewrite lookup_fmap in H. destruct (threads k !! t) as [th0|]; [|done]. simpl in H. injection H as _ _ _ Hc.
  rewrite <- Hc. by apply Ho.
Qed.

Lemma movable_state k t th : inv_but [] k -> threads k !! t = Some th -> state_of th <> RT_THREAD_CLOSE -> movable k t.
Proof.
  intros Hi Ht Hs. split.
  - intros th' Ht'. simplify_eq. by apply Z.eqb_neq.
  - intros Hin. destruct (si_queue [] k Hi _ _ Hin) as (th' & Ht' & Hs' & _). simplify_eq.
Qed.

Lemma movable_queued k t q : inv_but [] k -> t ∈ queues k q -> q <> QDefunct -> movable k t.
Proof.
  intros Hi Hin Hq. destruct (si_queue [] k Hi _ _ Hin) as (th & Ht & Hs & _).
  apply (movable_state k t th); [done|done|]. rewrite Hs. by destruct q.
Qed.

Lemma core_with_state s th : 0 <= s <= 7 -> s <> RT_THREAD_CLOSE -> closed th = false ->
  core_of (with_state s th) = core_of th.
Proof.
  intros Hs Hc Ho. unfold core_of. f_equal. unfold closed in *. rewrite state_with_state by done.
  rewrite Ho. by apply Z.eqb_neq.
Qed.

Lemma remove_thread_steady t k k' : rt_schedule_remove_thread t k = Some k' -> movable k t -> steady k k'.
Proof.
  unfold rt_schedule_remove_thread. destruct (threads k !! t) as [th|]; [|done]. rewrite some_bind. cbv zeta.
  intros E [_ Hl]. transitivity (tlist_remove t k); [by apply tlist_remove_steady|].
  destruct (queues _ _); simplify_eq; [by apply steady_fields|done].
Qed.

Lemma insert_thread_steady t k k' : rt_schedule_insert_thread t k = Some k' -> movable k t -> steady k k'.
Proof.
  unfold rt_schedule_insert_thread. destruct (threads k !! t) as [th|] eqn:Ht; [|done]. rewrite some_bind.
  intros E [Ho _]. destruct (bool_decide _).
  - eapply upd_thread_steady; [done|]. intros th' Ht'. by apply core_with_state, Ho.
  - destruct (upd_thread t _ k) as [k1|] eqn:E1; [|done]. rewrite some_bind in E. cbv zeta in E. simplify_eq.
    transitivity k1; [eapply upd_thread_steady; [done|]; intros th' Ht'; by apply core_with_state, Ho|].
    transitivity (push_back (QReady (current_priority th)) t k1); [by apply set_queue_steady|by apply steady_fields].
Qed.

Lemma timer_stop_steady x k r k' : rt_timer_stop x k = Some (r, k') -> steady k k'.
Proof.
  unfold rt_timer_stop. destruct (timers k !! x) as [tm|]; [|done]. rewrite some_bind.
  destruct (is_timer tm); [|done]. simpl. destruct (negb _); [by intros [= _ <-]|].
  destruct (upd_timer x _ _) as [k1|] eqn:E; [|done]. intros [= _ <-].
  transitivity (_rt_timer_remove x k); [apply timer_remove_steady|by apply (upd_timer_steady _ _ _ _ E)].
Qed.

(** *** The scheduler *)
Lemma schedule_steady k k' : kernel_ok k -> rt_schedule k = Some k' -> steady k k'.
Proof.
  intros Hk E. pose proof (sv_inv _ (ko_sched _ Hk)) as Hi. unfold rt_schedule in E.
  destruct (negb (lock_nest k =? 0)); [by simplify_eq|].
  destruct (Z.eqb_spec (ready_group k) 0) as [|Hg]; [by simplify_eq|].
  destruct (highest_ok k [] Hi Hg) as (t & p & l & Hh & Hq & _). rewrite Hh, some_bind in E.
  assert (movable k t) as Ht by (apply (movable_queued k t (QReady p)); [done|rewrite Hq; left|done]).
  destruct (current_thread k) as [c|]; [|done]. rewrite some_bind in E.
  destruct (threads k !! c) as [cth|] eqn:Hc; [|done]. rewrite some_bind, choose_keeps in E.
  assert (state_of cth = RT_THREAD_RUNNING -> movable k c) as Hmc.
  { intros Hr. apply (movable_state k c cth); [done|done|]. by rewrite Hr. }
  match type of E with (let '(_, _) := ?x in _) = _ => destruct x as [to ins] eqn:Ech end.
  match type of E with (?m ≫= _) = _ => destruct m as [k1|] eqn:E1; [|done] end. rewrite some_bind in E.
  assert (steady k k1) as H1.
  { destruct (Z.eqb_spec (state_of cth) RT_THREAD_RUNNING) as [Hr|]; [|by simplify_eq].
    eapply upd_thread_steady; [done|]. intros th Hth. unfold core_of, closed. by rewrite state_clear_yield. }
  assert (movable k to /\ (ins = true -> movable k c)) as [Hto Hins].
  { destruct (keeps cth p) eqn:Ek; simplify_eq.
    - unfold keeps in Ek. apply andb_true_iff in Ek as [Hr _]. apply Z.eqb_eq in Hr. split; auto.
    - split; [done|]. intros Hr. apply Hmc. by apply Z.eqb_eq. }
  assert (forall k, movable k to -> forall k', upd_thread to (with_state RT_THREAD_RUNNING) k = Some k' -> steady k k') as Hrun.
  { intros k0 [Ho _] k2 E2. eapply upd_thread_steady; [done|]. intros th Hth. by apply core_with_state, Ho. }
  destruct (Z.eqb_spec to c) as [->|Hne]; simpl in E.
  - destruct (rt_schedule_remove_thread c k1) as [k2|] eqn:E2; [|done]. simpl in E.
    apply remove_thread_steady in E2; [|by eapply movable_steady].
    transitivity k2; [by etrans|]. apply Hrun; [|done]. eapply movable_steady; [|done]. by etrans.
  - set (k2 := {| k1 with rt_current_priority := _; current_thread := _ |}) in E.
    assert (steady k k2) as H2 by (etrans; [exact H1|]; by apply steady_fields).
    match type of E with (?m ≫= _) = _ => destruct m as [k3|] eqn:E3; [|done] end. rewrite some_bind in E.
    assert (steady k k3) as H3.
    { destruct ins; [|by simplify_eq]. etrans; [exact H2|]. eapply insert_thread_steady; [done|].
      eapply movable_steady; [done|]. auto. }
    destruct (rt_schedule_remove_thread to k3) as [k4|] eqn:E4; [|done]. rewrite some_bind in E.
    apply remove_thread_steady in E4; [|by eapply movable_steady]. assert (steady k k4) as H4 by (by etrans).
    destruct (upd_thread to _ k4) as [k5|] eqn:E5; [|done]. rewrite some_bind in E.
    destruct (_rt_scheduler_stack_check to k5); [|discriminate]. simpl in E. simplify_eq.
    etrans; [exact H4|]. apply Hrun; [|done]. by eapply movable_steady.
Qed.

(** ** Operations that keep the kernel in order and its tables as they are *)
Definition safe (k k' : kernel) : Prop := kernel_ok k -> kernel_ok k' /\ steady k k'.

#[global] Instance safe_refl : Reflexive safe.
Proof. by intros k Hk. Qed.

#[global] Instance safe_trans : Transitive safe.
Proof. intros k1 k2 k3 H1 H2 Hk. destruct (H1 Hk) as [Hk2 ?], (H2 Hk2) as [Hk3 ?]. split; [done|]. by etrans. Qed.

Lemma timers_ok_steady k k' : steady k k' -> timers_ok k k'.
Proof.
  intros Hs x tm Hx Hi. destruct (timer_at_tcore k k' x (sd_timers _ _ Hs)) as (tm' & ? & ?); [by exists tm|eauto].
Qed.

(** Changes the scheduler does not see. *)
Lemma safe_calm k k' : same_sched k k' -> steady k k' -> safe k k'.
Proof.
  intros Hss Hs [[Hi Hc Ho] Hst Hcu]. split; [|done]. pose proof Hss as (E1 & _ & _ & E4).
  split; [split; [by apply (inv_same _ k)| |by apply (objs_same k); [..|apply timers_ok_steady]]|..].
  - intros c th. rewrite E4, E1. apply Hc.
  - intros x th. rewrite E1. apply Hst.
  - intros c. rewrite E4, E1. apply Hcu.
Qed.

Lemma safe_upd_thread t f k k' : upd_thread t f k = Some k' -> (forall th, benign th (f th)) ->
  (forall th, stack_guard (f th) = stack_guard th) -> (forall th, sp (f th) = sp th) ->
  (forall th, stack_addr (f th) = stack_addr th) -> (forall th, stack_size (f th) = stack_size th) -> safe k k'.
Proof.
  intros E Hb H1 H2 H3 H4 Hk. split.
  - destruct (threads k !! t) as [th|] eqn:Ht; [|unfold upd_thread in E; by rewrite Ht in E].
    rewrite (upd_thread_some t th) in E by done. injection E as <-.
    apply (kernel_ok_upd k _ t (f th)); try done; try apply Hk.
    + eapply stack_fine_eq; [..|exact (ko_stacks _ Hk t th Ht)]; auto.
    + by apply (benign_ok k t th); [apply Hk|..].
  - eapply upd_thread_steady; [done|]. intros th _. destruct (Hb th) as (Hs & Hp & _).
    unfold core_of, closed. by rewrite Hs, Hp, H3, H4.
Qed.

Lemma safe_upd_timer x f k k' : upd_timer x f k = Some k' -> (forall tm, tcore_of (f tm) = tcore_of tm) -> safe k k'.
Proof.
  intros E Hf. apply safe_calm; [|by eapply upd_timer_steady]. unfold upd_timer in E.
  destruct (timers k !! x); [|done]. injection E as <-. by split_and!.
Qed.

Lemma safe_schedule k k' : rt_schedule k = Some k' -> safe k k'.
Proof. intros E Hk. split; [by eapply schedule_kernel_ok|by apply schedule_steady]. Qed.

Lemma safe_suspend t k r k' : rt_thread_suspend t k = Some (r, k') -> safe k k'.
Proof.
  intros E Hk. split; [by eapply suspend_kernel_ok|]. unfold rt_thread_suspend in E.
  destruct (threads k !! t) as [th|] eqn:Ht; [|done]. rewrite some_bind in E.
  destruct (is_thread th); [|done]. simpl in E.
  destruct (Z.eqb_spec (state_of th) RT_THREAD_CLOSE) as [Hc|Hc]; [rewrite Hc in E; simpl in E; by simplify_eq|].
  destruct (_ && _); [by simplify_eq|]. destruct (assert _); [|done]. simpl in E.
  assert (movable k t) as Hm by (apply (movable_state k t th); [apply Hk|done|done]).
  destruct (rt_schedule_remove_thread t k) as [k1|] eqn:E1; [|done]. simpl in E.
  apply remove_thread_steady in E1; [|done].
  destruct (upd_thread t _ k1) as [k2|] eqn:E2; [|done]. simpl in E.
  apply upd_thread_steady in E2; [|intros th' Ht'; apply core_with_state; [done..|]; by apply (mv_open _ _ (movable_steady _ _ _ E1 Hm))].
  destruct (rt_timer_stop _ k2) as [[r3 k3]|] eqn:E3; [|done]. simpl in E. simplify_eq.
  apply timer_stop_steady in E3. etrans; [done|]. by etrans.
Qed.

Lemma resume_steady t k r k' : movable k t -> rt_thread_resume t k = Some (r, k') -> steady k k'.
Proof.
  intros Hm E. unfold rt_thread_resume in E.
  destruct (threads k !! t) as [th|] eqn:Ht; [|done]. rewrite some_bind in E.
  destruct (is_thread th); [|done]. simpl in E. destruct (negb _); [by simplify_eq|].
  pose proof (tlist_remove_steady t k (mv_list _ _ Hm)) as H1.
  destruct (rt_timer_stop _ _) as [[r2 k2]|] eqn:E2; [|done]. simpl in E. apply timer_stop_steady in E2.
  assert (steady k k2) as H2 by (by etrans).
  destruct (rt_schedule_insert_thread t k2) as [k3|] eqn:E3; [|done]. simpl in E. simplify_eq.
  etrans; [exact H2|]. apply insert_thread_steady in E3; [done|]. by eapply movable_steady.
Qed.

Lemma safe_resume t k r k' : rt_thread_resume t k = Some (r, k') -> safe k k'.
Proof.
  intros E Hk. split; [by eapply resume_kernel_ok|].
  destruct (threads k !! t) as [th|] eqn:Ht; [|unfold rt_thread_resume in E; by rewrite Ht in E].
  destruct (Z.eq_dec (state_of th) RT_THREAD_SUSPEND) as [Hs|Hs].
  - eapply resume_steady; [|done]. apply (movable_state k t th); [apply Hk|done|by rewrite Hs].
  - destruct (is_thread th) eqn:Hth; [|unfold rt_thread_resume in E; by rewrite Ht, some_bind, Hth in E].
    rewrite (resume_not_suspended k t th Ht Hth Hs) in E. by simplify_eq.
Qed.

(** A thread whose wait times out, up to the call of the scheduler. *)
Lemma timeout_split t k k' : kernel_ok k -> rt_thread_timeout t k = Some k' ->
  exists k1, kernel_ok k1 /\ steady k k1 /\ rt_schedule k1 = Some k'.
Proof.
  intros Hk E. pose proof Hk as [[Hi Hc Ho] Hst Hcu]. unfold rt_thread_timeout in E.
  destruct (threads k !! t) as [th|] eqn:Ht; [|done]. rewrite some_bind in E.
  destruct (Z.eqb_spec (state_of th) RT_THREAD_SUSPEND) as [Hs|]; [|done]. simpl in E.
  destruct (is_thread th); [|done]. simpl in E. rewrite (upd_thread_some t th), some_bind in E by done.
  destruct (resume_core k t th (set_error (- RT_ETIMEOUT)) (ko_sched _ Hk) Ht Hs) as (k2 & E2 & Hr); [done..|].
  rewrite (upd_thread_some t th) in E2 by done. simplify_eq.
  match type of E with (rt_schedule_insert_thread t ?x ≫= _) = _ => set (k3 := x) in E end.
  destruct (Hr k3) as (k4 & E4 & Hs4 & Hth4 & _ & Hcu4 & _); [by split_and!|done|by apply timers_ok_refl|].
  rewrite E4, some_bind in E. exists k4. split; [|split; [|done]].
  - apply (kernel_ok_upd k _ t (with_state (resume_state t k) (set_error (- RT_ETIMEOUT) th))); try done.
    eapply stack_fine_eq; [..|exact (Hst t th Ht)]; done.
  - assert (movable k t) as Hm by (apply (movable_state k t th); [done|done|by rewrite Hs]).
    set (k5 := {| k with threads := <[t := set_error (- RT_ETIMEOUT) th]> (threads k) |}).
    assert (steady k k5) as H5 by (apply (upd_thread_steady t (set_error (- RT_ETIMEOUT))); [by rewrite (upd_thread_some t th)|done]).
    assert (steady k5 k3) as H3 by (apply tlist_remove_steady, (mv_list _ _ (movable_steady _ _ _ H5 Hm))).
    assert (steady k k3) as H6 by (by etrans). etrans; [exact H6|].
    apply (insert_thread_steady t); [done|]. by eapply movable_steady.
Qed.

Lemma safe_timeout t k k' : is_Some (current_thread k) -> rt_thread_timeout t k = Some k' -> safe k k'.
Proof.
  intros Hc E Hk. split; [by eapply timeout_kernel_ok|].
  destruct (timeout_split t k k' Hk E) as (k1 & Hk1 & H1 & E1). etrans; [exact H1|]. by apply schedule_steady.
Qed.

Lemma safe_yield k r k' : rt_thread_yield k = Some (r, k') -> safe k k'.
Proof.
  unfold rt_thread_yield. destruct (rt_thread_self k) as [t|]; [|done]. rewrite some_bind. intros E.
  destruct (upd_thread t _ k) as [k1|] eqn:E1; [|done]. rewrite some_bind in E.
  destruct (rt_schedule k1) as [k2|] eqn:E2; [|done]. simpl in E. simplify_eq. transitivity k1; [|by apply safe_schedule].
  eapply safe_upd_thread; [exact E1|..]; try done. intros th. split_and!; try done. by apply state_lor_yield.
Qed.

Lemma safe_priority t p k k' : 0 <= p < RT_THREAD_PRIORITY_MAX -> change_priority t p k = Some k' -> safe k k'.
Proof.
  intros Hp E Hk. split; [by eapply priority_kernel_ok|]. unfold change_priority in E.
  destruct (threads k !! t) as [th|] eqn:Ht; [|done]. rewrite some_bind in E.
  destruct (is_thread th); [|done]. simpl in E.
  destruct (Z.eqb_spec (state_of th) RT_THREAD_READY) as [Hs|]; [|by eapply upd_thread_steady].
  assert (movable k t) as Hm by (apply (movable_state k t th); [apply Hk|done|by rewrite Hs]).
  destruct (rt_schedule_remove_thread t k) as [k1|] eqn:E1; [|done]. rewrite some_bind in E.
  apply remove_thread_steady in E1; [|done].
  destruct (upd_thread t _ k1) as [k2|] eqn:E2; [|done]. rewrite some_bind in E.
  apply upd_thread_steady in E2; [|done]. assert (steady k k2) as H2 by (by etrans). etrans; [exact H2|].
  apply insert_thread_steady in E; [done|]. by eapply movable_steady.
Qed.

Lemma safe_startup t k r k' : (forall th, threads k !! t = Some th -> 0 <= init_priority th < RT_THREAD_PRIORITY_MAX) ->
  rt_thread_startup t k = Some (r, k') -> safe k k'.
Proof.
  intros Hip E Hk. split; [by eapply startup_kernel_ok|].
  destruct (startup_wakes k k' t r Hk Hip E) as (th & k1 & r1 & k2 & Ht & Hs & E1 & Hk1 & Er & E2).
  assert (steady k k1) as H1.
  { eapply upd_thread_steady; [exact E1|]. intros th' Ht'. simplify_eq. unfold core_of. f_equal.
    unfold closed at 2. by rewrite Hs. }
  assert (steady k1 k2) as H2.
  { eapply resume_steady; [|done]. eapply movable_steady; [exact H1|].
    apply (movable_state k t th); [apply Hk|done|by rewrite Hs]. }
  etrans; [exact H1|]. etrans; [exact H2|]. destruct (rt_thread_self k2); [|by simplify_eq].
  apply schedule_steady; [|done]. by eapply resume_kernel_ok.
Qed.

Lemma safe_exit_critical k k' : rt_exit_critical k = Some k' -> safe k k'.
Proof.
  unfold rt_exit_critical. destruct (_ <=? 0).
  - simpl. intros E. set (k1 := {| k with lock_nest := 0 |}) in E.
    transitivity k1; [by apply safe_calm; [split_and!|apply steady_fields]|].
    destruct (current_thread k); [by apply safe_schedule|by simplify_eq].
  - intros [= <-]. by apply safe_calm; [split_and!|apply steady_fields].
Qed.

(** ** Timers *)
Lemma timer_stop_sched x k r k' : rt_timer_stop x k = Some (r, k') -> same_sched k k'.
Proof.
  unfold rt_timer_stop, upd_timer. simpl. destruct (timers k !! x); [|done]. simpl.
  destruct (is_timer _); [|done]. simpl. by destruct (negb _); intros [= _ <-].
Qed.

Lemma safe_timer_stop x k r k' : rt_timer_stop x k = Some (r, k') -> safe k k'.
Proof. intros E. apply safe_calm; [by eapply timer_stop_sched|by eapply timer_stop_steady]. Qed.

Lemma safe_timer_control x c k r k' : rt_timer_control x c k = Some (r, k') -> safe k k'.
Proof.
  unfold rt_timer_control. destruct (timers k !! x) as [tm|]; [|done]. rewrite some_bind.
  destruct (is_timer tm); [|done]. simpl. destruct c; try (by intros [= _ <-]);
    (destruct (upd_timer x _ k) as [k1|] eqn:E; [|done]); intros [= _ <-]; by eapply safe_upd_timer.
Qed.

Lemma timer_insert_elem tick x k l l' : timer_insert tick x k l = Some l' -> forall y, y ∈ l' -> y = x \/ y ∈ l.
Proof.
  revert l'. induction l as [|z l IH]; intros l'; simpl.
  - intros [= <-] y Hy. left. by apply list_elem_of_singleton.
  - destruct (timers k !! z) as [tz|]; [|done]. rewrite some_bind. destruct (_ && _).
    + intros [= <-] y Hy. by apply elem_of_cons in Hy.
    + destruct (timer_insert tick x k l) as [l0|]; [|done]. intros [= <-] y Hy.
      apply elem_of_cons in Hy as [->|Hy]; [right; left|]. destruct (IH l0 eq_refl y Hy) as [->|]; [by left|right; by right].
Qed.

(** Starting a timer, up to waking the timer thread. *)
Lemma timer_start_split x k r k' : rt_timer_start x k = Some (r, k') ->
  exists k1, same_sched k k1 /\ steady k k1 /\
    (k' = k1 \/ exists r2 k2, rt_thread_resume timer_thread k1 = Some (r2, k2) /\ rt_schedule k2 = Some k').
Proof.
  unfold rt_timer_start. destruct (timers k !! x) as [tm|] eqn:Hx; [|done]. rewrite some_bind.
  destruct (is_timer tm) eqn:Hit; [|done]. simpl.
  rewrite (upd_timer_some x tm) by done. rewrite some_bind. destruct (_ <? _); [|done]. simpl.
  rewrite (upd_timer_some x (deactivate tm)) by (simpl; by rewrite lookup_insert_eq). rewrite some_bind.
  match goal with |- context [timer_insert _ x ?y] => set (k1 := y) end.
  destruct (timer_insert _ x k1 _) as [l|] eqn:El; [|done]. rewrite some_bind. pose proof (timer_insert_elem _ _ _ _ _ El) as Hl.
  match goal with |- context [upd_timer x activate ?y] => set (k2 := y) end.
  assert (same_sched k k2) as Hss by (unfold k2; by destruct (has_flag _ _)).
  assert (steady k k2) as Hs.
  { assert (steady k k1) as [H1 H2 H3 H4 H5 H6].
    { transitivity (_rt_timer_remove x k); [apply timer_remove_steady|]. split; simpl; auto.
      rewrite insert_insert_eq. by apply (fmap_insert_id _ _ _ tm). }
    assert (timer_at k x) as Hat by (by exists tm).
    assert (forall y, y ∈ listed k2 -> y ∈ listed k1 \/ y = x) as Hk2.
    { intros y. unfold k2, listed. destruct (has_flag _ _); cbn -[k1]; rewrite !elem_of_app; intros Hy;
        destruct_or!; auto; apply Hl in Hy; tauto. }
    split; try (unfold k2; by destruct (has_flag _ _)).
    intros y [Hy | ->]%Hk2; [by apply H5|by right]. }
  destruct (upd_timer x activate k2) as [k3|] eqn:E3; [|done]. rewrite some_bind.
  exists k3. assert (same_sched k k3 /\ steady k k3) as [Hss3 Hs3].
  { split; [|etrans; [exact Hs|by eapply upd_timer_steady]]. unfold upd_timer in E3.
    destruct (timers k2 !! x); [|done]. injection E3 as <-. exact Hss. }
  split; [done|]. split; [done|]. destruct (has_flag _ _); [|simplify_eq; by left].
  destruct (threads k3 !! timer_thread); [|done]. rewrite some_bind in *. destruct (_ && _); [|simplify_eq; by left].
  destruct (rt_thread_resume timer_thread k3) as [[r4 k4]|] eqn:E4; [|done]. simpl in *.
  destruct (rt_schedule k4) as [k5|] eqn:E5; [|done]. simpl in *. simplify_eq. right. by exists r4, k4.
Qed.

Lemma safe_timer_start x k r k' : rt_timer_start x k = Some (r, k') -> safe k k'.
Proof.
  intros E. destruct (timer_start_split x k r k' E) as (k1 & Hss & Hs & Hk'). transitivity k1; [by apply safe_calm|].
  destruct Hk' as [->|(r2 & k2 & E2 & E3)]; [done|]. etrans; [by eapply safe_resume|by eapply safe_schedule].
Qed.

Lemma safe_thread_timer t tick k k' : start_thread_timer t tick k = Some k' -> safe k k'.
Proof.
  unfold start_thread_timer. destruct (rt_timer_control _ _ k) as [[r1 k1]|] eqn:E1; [|done]. simpl.
  destruct (rt_timer_start _ k1) as [[r2 k2]|] eqn:E2; [|done]. intros [= <-].
  etrans; [by eapply safe_timer_control|by eapply safe_timer_start].
Qed.

(** ** Waiting and sleeping *)
Lemma safe_list_suspend q t fl th k k' : queue_state q = RT_THREAD_SUSPEND -> threads k !! t = Some th ->
  state_of th = RT_THREAD_RUNNING -> rt_ipc_list_suspend q t fl k = Some k' -> safe k k'.
Proof.
  intros Hqs Ht Hr E Hk. unfold rt_ipc_list_suspend in E.
  destruct (suspend_ok k t th (ko_sched _ Hk) Ht (or_intror Hr)) as (k1 & E1 & Hs1 & Hth1 & Hq1 & _).
  rewrite E1, some_bind in E. destruct (safe_suspend _ _ _ _ E1 Hk) as [Hk1 H1].
  assert (threads k1 !! t = Some (with_state RT_THREAD_SUSPEND th)) as Ht1 by (by rewrite Hth1, lookup_insert_eq).
  assert (forall q', t ∉ queues k1 q') as Hnq.
  { intros q'. rewrite Hq1. intros Hin. by apply list_elem_of_filter in Hin as []. }
  assert (forall l, l ≡ₚ t :: queues k1 q -> kernel_ok (set_queue q l k1) /\ steady k (set_queue q l k1)) as Hw.
  { intros l Hl. split.
    - apply (kernel_ok_sched k1); try done. eapply wait_ok; [done|exact Ht1|by apply state_with_state|done..].
    - etrans; [exact H1|]. apply set_queue_steady. by intros ->. }
  destruct (fl =? RT_IPC_FLAG_FIFO); [simplify_eq; apply Hw; by rewrite <- Permutation_cons_append|].
  destruct (fl =? RT_IPC_FLAG_PRIO); [|by simplify_eq].
  rewrite Ht1, some_bind in E. destruct (insert_prio_ok t (current_priority (with_state RT_THREAD_SUSPEND th)) k1 (queues k1 q))
    as (l & El & Hl).
  { intros x Hx. destruct (si_queue [] k1 (sv_inv _ Hs1) q x Hx) as (thx & Hx' & _). by exists thx. }
  rewrite El, some_bind in E. simplify_eq. apply Hw. by eapply placed_permutation.
Qed.

Lemma safe_wait q t fl time th k k' : queue_state q = RT_THREAD_SUSPEND -> threads k !! t = Some th ->
  state_of th = RT_THREAD_RUNNING -> ipc_wait q t fl time k = Some k' -> safe k k'.
Proof.
  intros Hqs Ht Hr. unfold ipc_wait. destruct (rt_ipc_list_suspend q t fl k) as [k1|] eqn:E1; [|done]. rewrite some_bind.
  match goal with |- (?m ≫= _) = _ -> _ => destruct m as [k2|] eqn:E2; [|done] end. rewrite some_bind. intros E3.
  transitivity k1; [by eapply safe_list_suspend|]. transitivity k2; [|by apply safe_schedule].
  destruct (0 <? time); [by eapply safe_thread_timer|by simplify_eq].
Qed.

Lemma safe_set_error t e k k' : upd_thread t (set_error e) k = Some k' -> safe k k'.
Proof. intros E. by apply (safe_upd_thread _ _ _ _ E). Qed.

Lemma safe_wake q k k' : rt_ipc_list_resume q k = Some k' -> safe k k'.
Proof.
  unfold rt_ipc_list_resume. destruct (head _) as [t|]; [|done]. rewrite some_bind.
  destruct (rt_thread_resume t k) as [[r k1]|] eqn:E; [|done]. intros [= <-]. by eapply safe_resume.
Qed.

Lemma safe_wake_all q k k' : rt_ipc_list_resume_all q k = Some k' -> safe k k'.
Proof.
  unfold rt_ipc_list_resume_all. generalize (S (length (queues k q))) as n. intros n. revert k.
  induction n as [|n IH]; intros k; simpl; [done|]. destruct (queues k q) as [|t l]; [by intros [= <-]|].
  destruct (upd_thread t _ k) as [k1|] eqn:E1; [|done]. rewrite some_bind.
  destruct (rt_thread_resume t k1) as [[r k2]|] eqn:E2; [|done]. simpl. intros E3.
  transitivity k1; [by eapply safe_set_error|]. transitivity k2; [by eapply safe_resume|by apply IH].
Qed.

Lemma safe_sleep tick k k' : rt_thread_sleep tick k = Some k' -> safe k k'.
Proof.
  unfold rt_thread_sleep. destruct (rt_thread_self k) as [t|]; [|done]. simpl.
  destruct (threads k !! t) as [th|]; [|done]. simpl. destruct (is_thread th); [|done]. simpl.
  destruct (rt_thread_suspend t k) as [[r1 k1]|] eqn:E1; [|done]. simpl.
  destruct (start_thread_timer t tick k1) as [k2|] eqn:E2; [|done]. simpl. intros E3.
  transitivity k1; [by eapply safe_suspend|]. transitivity k2; [by eapply safe_thread_timer|by apply safe_schedule].
Qed.

Lemma safe_sleep_end t k r k' : rt_thread_sleep_end t k = Some (r, k') -> safe k k'.
Proof.
  unfold rt_thread_sleep_end. destruct (upd_thread t _ k) as [k1|] eqn:E; [|done]. intros [= _ <-].
  apply (safe_upd_thread _ _ _ _ E); intros th; destruct (_ =? _); try done; by split_and!.
Qed.

Lemma safe_delay_until tick inc k r b k' : rt_thread_delay_until tick inc k = Some (r, b, k') -> safe k k'.
Proof.
  unfold rt_thread_delay_until. destruct (rt_thread_self k) as [t|]; [|done]. simpl.
  destruct (threads k !! t) as [th|]; [|done]. simpl. destruct (is_thread th); [|done]. simpl.
  destruct (_ <? inc); [|by intros [= _ _ <-]].
  destruct (rt_thread_suspend t k) as [[r1 k1]|] eqn:E1; [|done]. simpl.
  destruct (start_thread_timer t _ k1) as [k2|] eqn:E2; [|done]. simpl.
  destruct (rt_schedule k2) as [k3|] eqn:E3; [|done]. intros [= _ _ <-].
  transitivity k1; [by eapply safe_suspend|]. transitivity k2; [by eapply safe_thread_timer|by apply safe_schedule].
Qed.

(** ** Calls of the kernel that create and destroy nothing *)

(** The operations of [Sched.kop] but for initialising a thread and starting
    the scheduler. *)
Definition is_call (o : kop) : bool :=
  match o with op_init _ _ _ _ _ _ _ _ | op_start => false | _ => true end.

Inductive kcall (k : kernel) : kernel -> Prop :=
| kc_op o k' : is_call o = true -> exec o k = Some k' -> kcall k k'
| kc_timer_start x r k' : rt_timer_start x k = Some (r, k') -> kcall k k'
| kc_timer_stop x r k' : rt_timer_stop x k = Some (r, k') -> kcall k k'
| kc_timer_control x c r k' : rt_timer_control x c k = Some (r, k') -> kcall k k'
| kc_sleep tick k' : rt_thread_sleep tick k = Some k' -> kcall k k'
| kc_sleep_end t r k' : rt_thread_sleep_end t k = Some (r, k') -> kcall k k'
| kc_delay_until tick inc r b k' : rt_thread_delay_until tick inc k = Some (r, b, k') -> kcall k k'
| kc_wait q t th fl time k' : queue_state q = RT_THREAD_SUSPEND -> current_thread k = Some t ->
    threads k !! t = Some th -> state_of th = RT_THREAD_RUNNING -> ipc_wait q t fl time k = Some k' -> kcall k k'
| kc_wake q k' : rt_ipc_list_resume q k = Some k' -> kcall k k'
| kc_wake_all q k' : rt_ipc_list_resume_all q k = Some k' -> kcall k k'
| kc_errno t e k' : upd_thread t (set_error e) k = Some k' -> kcall k k'
| kc_tick_set n : kcall k (rt_tick_set n k).

Lemma safe_exec o k k' : is_call o = true -> exec o k = Some k' -> safe k k'.
Proof.
  intros Ho E. destruct o; try done; simpl in E.
  - destruct (threads k !! t) as [th|] eqn:Ht; [|done]. simpl in E. apply assert_bind in E as [Hb E].
    apply bool_decide_eq_true in Hb. apply snd_some in E as [r E]. eapply safe_startup; [|done].
    rewrite Ht. by intros ? [= <-].
  - by apply safe_schedule.
  - simplify_eq. by apply safe_calm; [split_and!|apply steady_fields].
  - by apply safe_exit_critical.
  - simplify_eq. by apply safe_calm; [split_and!|apply steady_fields].
  - simplify_eq. by apply safe_calm; [split_and!|apply steady_fields].
  - apply snd_some in E as [r E]. by eapply safe_suspend.
  - apply snd_some in E as [r E]. by eapply safe_resume.
  - destruct (current_thread k) eqn:Ec; [|done]. simpl in E. eapply safe_timeout; [|done]. by rewrite Ec.
  - apply snd_some in E as [r E]. by eapply safe_yield.
  - apply assert_bind in E as [Hb E]. apply bool_decide_eq_true in Hb. by eapply safe_priority.
Qed.

Lemma kcall_safe k k' : kcall k k' -> safe k k'.
Proof.
  intros []; [by eapply safe_exec|by eapply safe_timer_start|by eapply safe_timer_stop|by eapply safe_timer_control|
    by eapply safe_sleep|by eapply safe_sleep_end|by eapply safe_delay_until|by eapply safe_wait|by eapply safe_wake|
    by eapply safe_wake_all|by eapply safe_set_error|].
  apply safe_calm; [by split_and!|by apply steady_fields].
Qed.

Lemma kcalls_safe k k' : rtc kcall k k' -> safe k k'.
Proof. induction 1 as [|k1 k2 k3 H12 _ IH]; [done|]. transitivity k2; [by apply kcall_safe|done]. Qed.
