(* ===== verification/Thread.v ===== *)
(** * The life of threads: creation, end and reclamation
    (rt-thread/src/thread.c, idle.c, timer.c)

    The invariant of the whole kernel, and the steps that keep it.  The tables
    of the kernel (thread objects, timer objects, the list of defunct threads)
    are tied to the heap: the blocks of the threads and timers that were created
    with memory of the heap, together with the blocks of the kernel's clients,
    are exactly the regions of the heap in use. *)
From S2P Require Import Prelude Mem Owner Kernel Sched Timer Ipc Kcall.

(** ** The tables of the kernel and the heap *)

(** The blocks of the heap a thread has, if it was created, and those of a timer. *)
Definition SIZEOF_STRUCT_THREAD : Z := 128.
Definition SIZEOF_STRUCT_TIMER : Z := 44.

Definition thread_blocks (e : Z * core) : blocks :=
  if c_type (snd e) =? RT_Object_Class_Thread
  then [(fst e, SIZEOF_STRUCT_THREAD); (c_stack (snd e), c_size (snd e))] else [].

Definition timer_blocks (e : obj * tcore) : blocks :=
  match fst e with
  | Obj a => if tc_type (snd e) =? RT_Object_Class_Timer then [(a, SIZEOF_STRUCT_TIMER)] else []
  | TimerOf _ => []
  end.

Definition kernel_blocks (ts : gmap Z core) (tms : gmap obj tcore) : blocks :=
  (map_to_list ts ≫= thread_blocks) ++ (map_to_list tms ≫= timer_blocks).

(** A thread's own timer object. *)
Definition own_timer (t : Z) : tcore :=
  {| tc_type := Z.lor RT_Object_Class_Timer RT_Object_Class_Static; tc_func := thread_timeout t |}.

(** The regions of the heap in use are the blocks of the kernel's threads and
    timers and those of its clients [us]; objects that do not come from the heap
    lie outside it; the defunct threads are the created ones that are closed;
    every other thread is a thread object whose timer is in order. *)
Record tables_ok (h : heap) (ts : gmap Z core) (ds : list Z) (tms : gmap obj tcore) (us : blocks) : Prop := {
  tb_heap : heap_owns h (kernel_blocks ts tms ++ us);
  tb_static : forall t c, ts !! t = Some c -> c_type c <> RT_Object_Class_Thread -> ~ in_heap h t;
  tb_tstatic : forall a c, tms !! Obj a = Some c -> tc_type c <> RT_Object_Class_Timer -> ~ in_heap h a;
  tb_defunct : forall t, t ∈ ds <-> exists c, ts !! t = Some c /\ c_type c = RT_Object_Class_Thread /\ c_closed c = true;
  tb_live : forall t c, ts !! t = Some c -> c_closed c = false ->
    (c_type c = RT_Object_Class_Thread \/ c_type c = Z.lor RT_Object_Class_Thread RT_Object_Class_Static) /\
    tms !! TimerOf t = Some (own_timer t);
  tb_dead : forall t c, ts !! t = Some c -> c_closed c = true -> exists d, tms !! TimerOf t = Some d /\ tc_type d = 0
}.

Record system_ok (us : blocks) (k : kernel) : Prop := {
  so_kernel : kernel_ok k;
  so_tables : tables_ok (kheap k) (core_of <$> threads k) (queues k QDefunct) (tcore_of <$> timers k) us;
  so_listed : forall x, x ∈ listed k -> timer_at k x
}.

Lemma safe_system us k k' : safe k k' -> system_ok us k -> system_ok us k'.
Proof.
  intros Hs [Hk Ht Hl]. destruct (Hs Hk) as [Hk' Hst]. pose proof Hst as [E1 E2 E3 E4 Hl' _]. split; [done|by rewrite E1, E2, E3, E4|].
  intros x [Hx|Hx]%Hl'; eapply timer_at_tcore; eauto.
Qed.

(** *** Blocks under changes of the tables *)
Lemma map_to_list_update {A K} `{Countable K} (m : gmap K A) i x : m !! i = Some x ->
  map_to_list m ≡ₚ (i, x) :: map_to_list (delete i m).
Proof. intros Hi. by rewrite map_to_list_delete. Qed.

Lemma blocks_thread ts tms t c : ts !! t = Some c ->
  kernel_blocks ts tms ≡ₚ thread_blocks (t, c) ++ kernel_blocks (delete t ts) tms.
Proof. intros Ht. unfold kernel_blocks. rewrite (map_to_list_update ts t c Ht), bind_cons. by rewrite app_assoc. Qed.

Lemma blocks_timer ts tms x c : tms !! x = Some c ->
  kernel_blocks ts tms ≡ₚ timer_blocks (x, c) ++ kernel_blocks ts (delete x tms).
Proof.
  intros Hx. unfold kernel_blocks. rewrite (map_to_list_update tms x c Hx), bind_cons.
  rewrite app_assoc, (Permutation_app_comm _ (timer_blocks (x, c))). by rewrite <- !app_assoc.
Qed.

Lemma blocks_set_thread ts tms t c : ts !! t = None ->
  kernel_blocks (<[t := c]> ts) tms ≡ₚ thread_blocks (t, c) ++ kernel_blocks ts tms.
Proof.
  intros Ht. rewrite (blocks_thread _ _ t c) by (by rewrite lookup_insert_eq). by rewrite delete_insert_id.
Qed.

Lemma blocks_set_timer ts tms x c : tms !! x = None ->
  kernel_blocks ts (<[x := c]> tms) ≡ₚ timer_blocks (x, c) ++ kernel_blocks ts tms.
Proof.
  intros Hx. rewrite (blocks_timer _ _ x c) by (by rewrite lookup_insert_eq). by rewrite delete_insert_id.
Qed.

Lemma blocks_same_thread ts tms t c c' : ts !! t = Some c -> thread_blocks (t, c') = thread_blocks (t, c) ->
  kernel_blocks (<[t := c']> ts) tms ≡ₚ kernel_blocks ts tms.
Proof.
  intros Ht Hb. rewrite (blocks_thread (<[t := c']> ts) tms t c') by (by rewrite lookup_insert_eq).
  rewrite (blocks_thread ts tms t c Ht), Hb. by rewrite delete_insert_eq.
Qed.

Lemma blocks_same_timer ts tms x c c' : tms !! x = Some c -> timer_blocks (x, c') = timer_blocks (x, c) ->
  kernel_blocks ts (<[x := c']> tms) ≡ₚ kernel_blocks ts tms.
Proof.
  intros Hx Hb. rewrite (blocks_timer ts (<[x := c']> tms) x c') by (by rewrite lookup_insert_eq).
  rewrite (blocks_timer ts tms x c Hx), Hb. by rewrite delete_insert_eq.
Qed.

Lemma blocks_own_timer ts tms t c : kernel_blocks ts (<[TimerOf t := c]> tms) ≡ₚ kernel_blocks ts tms.
Proof.
  destruct (tms !! TimerOf t) as [c0|] eqn:E; [by eapply blocks_same_timer|by rewrite blocks_set_timer].
Qed.

Lemma blocks_no_timer ts tms t : kernel_blocks ts (delete (TimerOf t) tms) ≡ₚ kernel_blocks ts tms.
Proof.
  destruct (tms !! TimerOf t) as [c0|] eqn:E; [by rewrite (blocks_timer ts tms _ c0 E)|by rewrite delete_id].
Qed.

Lemma thread_block_in ts tms t c b : ts !! t = Some c -> b ∈ thread_blocks (t, c) -> b ∈ kernel_blocks ts tms.
Proof. intros Ht Hb. rewrite (blocks_thread ts tms t c Ht). apply elem_of_app. by left. Qed.

Lemma timer_block_in ts tms x c b : tms !! x = Some c -> b ∈ timer_blocks (x, c) -> b ∈ kernel_blocks ts tms.
Proof. intros Hx Hb. rewrite (blocks_timer ts tms x c Hx). apply elem_of_app. by left. Qed.

(** *** Transitions of the tables *)
Lemma in_heap_end h h' p : heap_end h' = heap_end h -> in_heap h' p <-> in_heap h p.
Proof. unfold in_heap. by intros ->. Qed.

(** A pointer into the heap that is nobody's is no object's. *)
Lemma tables_fresh h ts ds tms us p : tables_ok h ts ds tms us -> in_heap h p ->
  p ∉ map fst (kernel_blocks ts tms ++ us) -> ts !! p = None /\ tms !! Obj p = None.
Proof.
  intros [_ H1 H2 _ _ _] Hp Hn. rewrite map_app, not_elem_of_app in Hn. destruct Hn as [Hn _]. split.
  - destruct (ts !! p) as [c|] eqn:E; [|done]. exfalso. destruct (Z.eqb_spec (c_type c) RT_Object_Class_Thread) as [Ht|Ht].
    + apply Hn, list_elem_of_fmap. exists (p, SIZEOF_STRUCT_THREAD). split; [done|]. apply (thread_block_in _ _ _ _ _ E).
      unfold thread_blocks. simpl. rewrite Ht. left.
    + by apply (H1 p c).
  - destruct (tms !! Obj p) as [c|] eqn:E; [|done]. exfalso. destruct (Z.eqb_spec (tc_type c) RT_Object_Class_Timer) as [Ht|Ht].
    + apply Hn, list_elem_of_fmap. exists (p, SIZEOF_STRUCT_TIMER). split; [done|]. apply (timer_block_in _ _ _ _ _ E).
      unfold timer_blocks. simpl. rewrite Ht. left.
    + by apply (H2 p c).
Qed.

(** A new thread that is not closed, static or created. *)
Lemma tables_add h h' ts ds tms us t c : tables_ok h ts ds tms us -> ts !! t = None -> heap_end h' = heap_end h ->
  heap_owns h' (thread_blocks (t, c) ++ kernel_blocks ts tms ++ us) -> c_closed c = false ->
  c_type c = RT_Object_Class_Thread \/
    c_type c = Z.lor RT_Object_Class_Thread RT_Object_Class_Static /\ ~ in_heap h t ->
  tables_ok h' (<[t := c]> ts) ds (<[TimerOf t := own_timer t]> tms) us.
Proof.
  intros [H0 H1 H2 H3 H4 H5] Ht He Ho Hc Hty. split.
  - by rewrite blocks_own_timer, blocks_set_thread, <- app_assoc.
  - intros x cx. rewrite (in_heap_end h) by done. destruct (Z.eq_dec x t) as [->|].
    + rewrite lookup_insert_eq. intros [= <-] Hn. destruct Hty as [?|[_ ?]]; [done|done].
    + rewrite lookup_insert_ne by done. apply H1.
  - intros a ca. rewrite lookup_insert_ne, (in_heap_end h) by done. apply H2.
  - intros x. rewrite H3. destruct (Z.eq_dec x t) as [->|]; [|by rewrite lookup_insert_ne].
    rewrite lookup_insert_eq, Ht. split; [by intros (? & ? & _)|]. intros (c' & [= <-] & _ & Hc'). congruence.
  - intros x cx. destruct (Z.eq_dec x t) as [->|Hne].
    + rewrite !lookup_insert_eq. intros [= <-] _. split; [tauto|done].
    + rewrite !lookup_insert_ne by congruence. apply H4.
  - intros x cx. destruct (Z.eq_dec x t) as [->|Hne].
    + rewrite !lookup_insert_eq. intros [= <-]. congruence.
    + rewrite !lookup_insert_ne by congruence. apply H5.
Qed.

(** The core of a thread that ends: a static one is no object any more. *)
Definition ended (c : core) : core :=
  {| c_type := if c_type c =? RT_Object_Class_Thread then RT_Object_Class_Thread else 0;
     c_stack := c_stack c; c_size := c_size c; c_closed := true |}.

Lemma tables_close h ts ds tms us t c d : tables_ok h ts ds tms us -> ts !! t = Some c -> c_closed c = false -> tc_type d = 0 ->
  tables_ok h (<[t := ended c]> ts) (if c_type c =? RT_Object_Class_Thread then t :: ds else ds)
    (<[TimerOf t := d]> tms) us.
Proof.
  intros [H0 H1 H2 H3 H4 H5] Ht Hc Hd0. split.
  - rewrite blocks_own_timer, (blocks_same_thread ts tms t c); [done|done|]. unfold thread_blocks, ended. simpl.
    by destruct (c_type c =? _).
  - intros x cx. destruct (Z.eq_dec x t) as [->|]; [|rewrite lookup_insert_ne by done; apply H1].
    rewrite lookup_insert_eq. intros [= <-]. unfold ended. simpl.
    destruct (Z.eqb_spec (c_type c) RT_Object_Class_Thread); [done|]. intros _. by apply (H1 t c).
  - intros a ca. rewrite lookup_insert_ne by done. apply H2.
  - intros x. destruct (Z.eq_dec x t) as [->|Hne].
    + rewrite lookup_insert_eq. unfold ended. destruct (Z.eqb_spec (c_type c) RT_Object_Class_Thread) as [Hd|Hd].
      * split; [intros _; by eexists|left].
      * rewrite H3. split; [intros (c' & Hc' & Hd' & _); congruence|]. by intros (c' & [= <-] & ? & _).
    + rewrite lookup_insert_ne by done. rewrite <- H3. destruct (_ =? _); [|done]. rewrite elem_of_cons. tauto.
  - intros x cx. destruct (Z.eq_dec x t) as [->|Hne].
    + rewrite lookup_insert_eq. by intros [= <-].
    + rewrite !lookup_insert_ne by congruence. apply H4.
  - intros x cx. destruct (Z.eq_dec x t) as [->|Hne].
    + rewrite !lookup_insert_eq. intros _ _. by exists d.
    + rewrite !lookup_insert_ne by congruence. apply H5.
Qed.

(** A defunct thread is given back. *)
Lemma tables_reclaim h h' ts ds tms us t : tables_ok h ts ds tms us -> t ∈ ds -> heap_end h' = heap_end h ->
  heap_owns h' (kernel_blocks (delete t ts) tms ++ us) ->
  tables_ok h' (delete t ts) (filter (fun x => x <> t) ds) (delete (TimerOf t) tms) us.
Proof.
  intros [H0 H1 H2 H3 H4 H5] Ht He Ho. split.
  - by rewrite blocks_no_timer.
  - intros x c. rewrite (in_heap_end h), lookup_delete_Some by done. intros [_ ?]. by eapply H1.
  - intros a c. rewrite (in_heap_end h), lookup_delete_Some by done. intros [_ ?]. by eapply H2.
  - intros x. rewrite list_elem_of_filter, H3. setoid_rewrite lookup_delete_Some. naive_solver.
  - intros x c. rewrite lookup_delete_Some. intros [Hne Hx] Hc. rewrite lookup_delete_ne by congruence. by apply H4.
  - intros x c. rewrite lookup_delete_Some. intros [Hne Hx] Hc. rewrite lookup_delete_ne by congruence. by eapply H5.
Qed.

(** Timers other than the threads' own: a new one, and the end of one. *)
Lemma tables_add_timer h h' ts ds tms us a c : tables_ok h ts ds tms us -> heap_end h' = heap_end h ->
  heap_owns h' (timer_blocks (Obj a, c) ++ kernel_blocks ts (delete (Obj a) tms) ++ us) ->
  (tc_type c <> RT_Object_Class_Timer -> ~ in_heap h a) -> tables_ok h' ts ds (<[Obj a := c]> tms) us.
Proof.
  intros [H0 H1 H2 H3 H4 H5] He Ho Hty. split.
  - rewrite (blocks_timer ts (<[Obj a := c]> tms) (Obj a) c) by (by rewrite lookup_insert_eq).
    by rewrite delete_insert_eq, <- app_assoc.
  - intros x cx. rewrite (in_heap_end h) by done. apply H1.
  - intros b cb. rewrite (in_heap_end h) by done. destruct (Z.eq_dec b a) as [->|].
    + rewrite lookup_insert_eq. by intros [= <-].
    + rewrite lookup_insert_ne by congruence. apply H2.
  - done.
  - intros x cx. rewrite lookup_insert_ne by done. apply H4.
  - intros x cx. rewrite lookup_insert_ne by done. apply H5.
Qed.

Lemma tables_drop_timer h h' ts ds tms us a : tables_ok h ts ds tms us -> heap_end h' = heap_end h ->
  heap_owns h' (kernel_blocks ts (delete (Obj a) tms) ++ us) -> tables_ok h' ts ds (delete (Obj a) tms) us.
Proof.
  intros [H0 H1 H2 H3 H4 H5] He Ho. split; [done|..].
  - intros x cx. rewrite (in_heap_end h) by done. apply H1.
  - intros b cb. rewrite (in_heap_end h), lookup_delete_Some by done. intros [_ ?]. by eapply H2.
  - done.
  - intros x cx. rewrite lookup_delete_ne by done. apply H4.
  - intros x cx. rewrite lookup_delete_ne by done. apply H5.
Qed.

(** The clients' blocks. *)
Lemma tables_clients h h' ts ds tms us us' : tables_ok h ts ds tms us -> heap_end h' = heap_end h ->
  heap_owns h' (kernel_blocks ts tms ++ us') -> tables_ok h' ts ds tms us'.
Proof.
  intros [H0 H1 H2 H3 H4 H5] He Ho. split; [done|..|done|done|done].
  - intros x cx. rewrite (in_heap_end h) by done. apply H1.
  - intros b cb. rewrite (in_heap_end h) by done. apply H2.
Qed.

(** ** Creating threads *)
Lemma object_init_safe o ob cls nm k ob' k' : rt_object_init o ob cls nm k = Some (ob', k') ->
  safe k k' /\ type ob' = Z.lor cls RT_Object_Class_Static.
Proof.
  unfold rt_object_init. destruct (rt_object_get_information cls); [|done]. simpl.
  destruct (bool_decide _); [|done]. simpl. destruct (rt_exit_critical _) as [k1|] eqn:E; [|done]. simpl.
  intros [= <- <-]. split; [|done]. transitivity (rt_enter_critical k); [by apply safe_calm; [split_and!|apply steady_fields]|].
  transitivity k1; [by apply safe_exit_critical|]. by apply safe_calm; [split_and!|apply steady_fields].
Qed.

(** A timer object that is (re-)initialised; no timer list changes. *)
Lemma set_timer_kernel_ok k x tm : kernel_ok k -> is_timer tm = true ->
  kernel_ok {| k with timers := <[x := tm]> (timers k) |}.
Proof.
  intros [[Hi Hc Ho] Hst Hcu] Hit. split; [split; [by apply (inv_same _ k)|done|]|done|done].
  apply (objs_same k); [done|done|]. intros y tm0 Hy Hi0. simpl. destruct (decide (y = x)) as [->|].
  - rewrite lookup_insert_eq. eauto.
  - rewrite lookup_insert_ne by done. eauto.
Qed.

Lemma set_timer_listed k x tm : is_timer tm = true -> (forall y, y ∈ listed k -> timer_at k y) ->
  forall y, y ∈ listed {| k with timers := <[x := tm]> (timers k) |} ->
    timer_at {| k with timers := <[x := tm]> (timers k) |} y.
Proof.
  intros Hit Hl y Hy. unfold timer_at. simpl. destruct (decide (y = x)) as [->|]; [rewrite lookup_insert_eq; eauto|].
  rewrite lookup_insert_ne by done. by apply Hl.
Qed.

Lemma timer_init_system us x tm nm func time fl k k' : rt_timer_init x tm nm func time fl k = Some k' ->
  kernel_ok k -> (forall y, y ∈ listed k -> timer_at k y) ->
  tables_ok (kheap k) (core_of <$> threads k) (queues k QDefunct)
    (<[x := {| tc_type := Z.lor RT_Object_Class_Timer RT_Object_Class_Static; tc_func := func |}]> (tcore_of <$> timers k)) us ->
  system_ok us k'.
Proof.
  unfold rt_timer_init. destruct (rt_object_init x _ _ nm k) as [[ob k1]|] eqn:E; [|done]. simpl.
  intros [= <-] Hk Hl Ht. destruct (object_init_safe _ _ _ _ _ _ _ E) as [Hs Hty]. destruct (Hs Hk) as [Hk1 Hst].
  match goal with |- system_ok _ {| k1 with timers := <[x := ?y]> _ |} => set (tm' := y) end.
  assert (is_timer tm' = true) as Hit by (unfold is_timer, rt_object_get_type; simpl; by rewrite Hty).
  pose proof Hst as [E1 E2 E3 E4 E5 _]. split; [by apply set_timer_kernel_ok| |].
  - simpl. rewrite fmap_insert, E1, E2, E3, E4. unfold tcore_of at 1. simpl. by rewrite Hty.
  - apply set_timer_listed; [done|]. intros y [Hy|Hy]%E5; eapply timer_at_tcore; eauto.
Qed.

Lemma new_thread_system us t th ent par stack size prio tick k k' :
  _rt_thread_init t th ent par stack size prio tick k = Some k' ->
  kernel_ok k -> (forall y, y ∈ listed k -> timer_at k y) -> threads k !! t = None ->
  0 <= stack -> 80 <= size -> stack + size < 2 ^ 32 ->
  tables_ok (kheap k)
    (<[t := {| c_type := type (th_parent th); c_stack := stack; c_size := size; c_closed := false |}]> (core_of <$> threads k))
    (queues k QDefunct) (<[TimerOf t := own_timer t]> (tcore_of <$> timers k)) us ->
  system_ok us k'.
Proof.
  intros E Hk Hl Hn H0 H1 H2 Ht. unfold _rt_thread_init in E. destruct (prio <? _); [|done]. simpl in E.
  eapply timer_init_system; [exact E|by apply new_thread_ok; [..|apply stack_init_fine]|exact Hl|].
  simpl. rewrite fmap_insert. exact Ht.
Qed.

(** The new thread has the priority it was given. *)
Lemma new_thread_priority t th ent par stack size prio tick k k' :
  _rt_thread_init t th ent par stack size prio tick k = Some k' -> kernel_ok k -> threads k !! t = None ->
  0 <= stack -> 80 <= size -> stack + size < 2 ^ 32 ->
  exists th', threads k' !! t = Some th' /\ init_priority th' = prio.
Proof.
  intros E Hk Hn H0 H1 H2. unfold _rt_thread_init in E. destruct (prio <? _); [|done]. cbn [assert mbind option_bind] in E.
  cbv zeta in E. match type of E with rt_timer_init _ _ _ _ _ _ ?x = _ => set (k1 := x) in E end.
  assert (kernel_ok k1) as Hk1 by (by apply new_thread_ok; [..|apply stack_init_fine]).
  unfold rt_timer_init in E. destruct (rt_object_init _ _ _ _ k1) as [[ob k2]|] eqn:E1; [|done].
  destruct (object_init_ok _ _ _ _ _ _ _ Hk1 E1) as (_ & Hso & _). cbn [mbind option_bind] in E. injection E as <-.
  destruct (stat_only_lookup k1 k2 t (thread_fields ent par stack size prio tick th) Hso) as (th' & Ht' & Hth');
    [simpl; by rewrite lookup_insert_eq|].
  exists th'. split; [exact Ht'|]. by rewrite Hth'.
Qed.

Lemma thread_init_system us t nm ent par stack size prio tick r k k' : system_ok us k ->
  threads k !! t = None -> ~ in_heap (kheap k) t -> 0 <= stack -> 80 <= size -> stack + size < 2 ^ 32 ->
  rt_thread_init t nm ent par stack size prio tick k = Some (r, k') ->
  system_ok us k' /\ exists th, threads k' !! t = Some th /\ init_priority th = prio.
Proof.
  intros Hs Hn Hh H0 H1 H2 E. unfold rt_thread_init in E. rewrite Hn in E. cbn [default] in E.
  destruct (rt_object_init (Obj t) _ _ nm k) as [[ob k1]|] eqn:E1; [|done]. simpl in E.
  destruct (object_init_safe _ _ _ _ _ _ _ E1) as [Hsafe Hty]. pose proof (safe_system _ _ _ Hsafe Hs) as [Hk1 Ht1 Hl1].
  destruct (Hsafe (so_kernel _ _ Hs)) as [_ Hst].
  assert ((core_of <$> threads k1) !! t = None) as Hn1 by (by rewrite (sd_threads _ _ Hst), lookup_fmap, Hn).
  assert (threads k1 !! t = None) as Hnt by (rewrite lookup_fmap in Hn1; by destruct (threads k1 !! t)).
  destruct (_rt_thread_init t _ ent par stack size prio tick k1) as [k2|] eqn:E2; [|done]. simpl in E.
  injection E as _ <-. split; [|by eapply new_thread_priority].
  eapply new_thread_system; [exact E2|done|done|done|done..|].
  simpl. rewrite Hty. apply (tables_add (kheap k1) (kheap k1)); try done.
  - by apply (tb_heap _ _ _ _ _ Ht1).
  - right. split; [done|]. by rewrite (sd_heap _ _ Hst).
Qed.

(** Memory from the heap for an object. *)
Lemma object_allocate_ok us cls size nm k r k' : system_ok us k -> rt_object_get_information cls = Some (cls, size) ->
  0 <= size <= 2 ^ 32 - 4 -> rt_object_allocate cls nm k = Some (r, k') ->
  exists h', steady {| k with kheap := h' |} k' /\ kernel_ok k' /\ heap_end h' = heap_end (kheap k) /\
    match r with
    | None => h' = kheap k
    | Some (a, ob) => type ob = cls /\ in_heap (kheap k) a /\ threads k !! a = None /\ timers k !! Obj a = None /\
        heap_owns h' ((a, size) :: kernel_blocks (core_of <$> threads k) (tcore_of <$> timers k) ++ us)
    end.
Proof.
  intros [Hk Ht Hl] Hi Hsz E. unfold rt_object_allocate in E. destruct (RT_DEBUG_NOT_IN_INTERRUPT k); [|done].
  rewrite Hi in E. simpl in E.
  destruct (malloc_owns _ _ size (tb_heap _ _ _ _ _ Ht) Hsz) as (p & h' & E1 & He & Hp). rewrite E1 in E. simpl in E.
  exists h'. set (k1 := {| k with kheap := h' |}) in *.
  assert (kernel_ok k1) as Hk1 by (by apply (kernel_ok_same k)).
  destruct p as [a|]; simplify_eq; [|done].
  destruct Hp as (Ho & Hin & Hf). destruct (tables_fresh _ _ _ _ _ a Ht Hin Hf) as [Hft Hfm].
  rewrite lookup_fmap in Hft. rewrite lookup_fmap in Hfm.
  split; [by apply steady_fields|]. split; [by apply (kernel_ok_same k1)|]. split; [done|].
  split_and!; try done; [by destruct (threads k !! a)|by destruct (timers k !! Obj a)].
Qed.

(** rt_thread_create: null, with the heap as it was, when memory runs out. *)
Lemma thread_create_system us nm ent par size prio tick r k k' : system_ok us k ->
  80 <= size <= 2 ^ 32 - 4 -> rt_thread_create nm ent par size prio tick k = Some (r, k') -> system_ok us k' /\
  match r with
  | Some t => exists th, threads k' !! t = Some th /\ init_priority th = prio
  | None => True
  end.
Proof.
  intros Hs Hsz E. unfold rt_thread_create in E.
  destruct (rt_object_allocate RT_Object_Class_Thread nm k) as [[o k1]|] eqn:E1; [|done]. simpl in E.
  destruct (object_allocate_ok us RT_Object_Class_Thread SIZEOF_STRUCT_THREAD _ _ _ _ Hs eq_refl ltac:(done) E1) as (h1 & Hst & Hk1 & He & Ho).
  pose proof Hs as [Hk Ht Hl]. pose proof Hst as [S1 S2 S3 S4 S5 _]. cbn [kheap threads queues timers] in S1, S2, S3, S4.
  destruct o as [[a ob]|].
  2:{ simplify_eq. simpl in *. split; [|done]. split; [done|by rewrite S1, S2, S3, S4|].
      intros x [Hx|Hx]%S5; eapply timer_at_tcore; eauto. }
  destruct Ho as (Hty & Hin & Hfa & _ & Ho). destruct (malloc_owns _ _ size Ho ltac:(lia)) as (p & h2 & E2 & He2 & Hp).
  rewrite S1, E2 in E. simpl in E.
  assert (forall x, x ∈ listed k1 -> timer_at k1 x) as Hl1.
  { intros x [Hx|Hx]%S5; eapply timer_at_tcore; eauto. }
  set (k2 := {| k1 with kheap := h2 |}) in *.
  assert (kernel_ok k2) as Hk2 by (by apply (kernel_ok_same k1)).
  assert (heap_end h2 = heap_end (kheap k)) as Heq by congruence.
  destruct p as [stack|].
  - destruct Hp as (Ho2 & Hin2 & _). destruct (_rt_thread_init a _ ent par stack size prio tick k2) as [k3|] eqn:E3; [|done].
    simpl in E. simplify_eq. pose proof (heap_owns_in _ _ stack size Ho2 ltac:(left)) as [Hb1 Hb2].
    assert (heap_end h2 < 2 ^ 32) by (destruct Ho2 as (l & Hi & _); apply Hi).
    assert (threads k2 !! a = None) as Hn2.
    { assert ((core_of <$> threads k1) !! a = None) as Hn by (by rewrite S2, lookup_fmap, Hfa).
      rewrite lookup_fmap in Hn. simpl. by destruct (threads k1 !! a) eqn:Ex. }
    unfold SIZEOF_STRUCT_MEM in *.
    split; [|eapply new_thread_priority; [exact E3|done|exact Hn2|lia|lia|lia]].
    eapply new_thread_system; [exact E3|done|exact Hl1|exact Hn2|lia|lia|lia|].
    simpl. rewrite S2, S3, S4, Hty. apply (tables_add (kheap k)); [done|by rewrite lookup_fmap, Hfa|done| |done|by left].
    unfold thread_blocks. simpl. eapply heap_owns_perm; [|exact Ho2]. apply Permutation_swap.
  - subst h2. unfold rt_object_delete in E. destruct (rt_object_is_systemobject ob) eqn:Eo.
    { unfold rt_object_is_systemobject in Eo. by rewrite Hty in Eo. }
    destruct (free_owns _ _ _ _ Ho) as (h3 & E3 & He3 & Ho3). cbn -[rt_free olist_remove k2] in E.
    change (kheap (olist_remove (Obj a) k2)) with h1 in E. rewrite E3 in E. simpl in E. simplify_eq.
    split; [|done]. split; [by apply (kernel_ok_same k1)| |exact Hl1].
    simpl. rewrite S2, S3, S4. eapply tables_clients; [exact Ht|congruence|done].
Qed.

(** ** The end of a thread *)

(** What rt_timer_detach leaves of the timer. *)
Definition dead (tm : rt_timer) : rt_timer :=
  {| (deactivate tm) with tm_parent := {| (tm_parent (deactivate tm)) with type := 0 |} |}.

Lemma timer_detach_eq x tm k : timers k !! x = Some tm -> is_timer tm = true ->
  rt_object_is_systemobject (tm_parent tm) = true ->
  rt_timer_detach x k =
    Some (RT_EOK, {| (olist_remove x (_rt_timer_remove x k)) with timers := <[x := dead tm]> (timers k) |}).
Proof.
  intros Hx Hi Hs. unfold rt_timer_detach. rewrite Hx, some_bind, Hi. simpl assert. rewrite some_bind, Hs.
  simpl assert. rewrite some_bind, (upd_timer_some x tm), some_bind by done. cbn [timers].
  rewrite lookup_insert_eq, some_bind. unfold rt_object_detach.
  rewrite (upd_timer_some x (deactivate tm)) by (simpl; by rewrite lookup_insert_eq). rewrite some_bind.
  simpl. by rewrite insert_insert_eq.
Qed.

(** The thread [t] closed and its timer detached. *)
Definition closing (t : Z) (th : rt_thread) (tm : rt_timer) (k : kernel) : kernel :=
  {| (olist_remove (TimerOf t) (_rt_timer_remove (TimerOf t) k)) with
     threads := <[t := set_stat RT_THREAD_CLOSE th]> (threads k);
     timers := <[TimerOf t := dead tm]> (timers k) |}.

Lemma close_then_detach t th tm k : threads k !! t = Some th -> timers k !! TimerOf t = Some tm ->
  is_timer tm = true -> rt_object_is_systemobject (tm_parent tm) = true ->
  (k ← upd_thread t (set_stat RT_THREAD_CLOSE) k; '(_, k) ← rt_timer_detach (TimerOf t) k; Some k) =
    Some (closing t th tm k).
Proof.
  intros Ht Htm Hi Hs. rewrite (upd_thread_some t th), some_bind by done. by rewrite (timer_detach_eq _ tm).
Qed.

Lemma detach_then_close t th tm k : threads k !! t = Some th -> timers k !! TimerOf t = Some tm ->
  is_timer tm = true -> rt_object_is_systemobject (tm_parent tm) = true ->
  ('(_, k) ← rt_timer_detach (TimerOf t) k; upd_thread t (set_stat RT_THREAD_CLOSE) k) = Some (closing t th tm k).
Proof.
  intros Ht Htm Hi Hs. rewrite (timer_detach_eq _ tm) by done. rewrite some_bind. by rewrite (upd_thread_some t th).
Qed.

(** A thread out of the ready lists, which is to end. *)
Record leaving (k k1 : kernel) (t : Z) : Prop := {
  lv_inv : inv_but [t] k1;
  lv_steady : steady k k1;
  lv_threads : threads k1 = threads k;
  lv_timers : timers k1 = timers k;
  lv_current : current_thread k1 = current_thread k;
  lv_listed : listed k1 = listed k;
  lv_lock : lock_nest k1 = lock_nest k
}.

Lemma remove_leaving k t th : kernel_ok k -> threads k !! t = Some th -> closed th = false ->
  state_of th <> RT_THREAD_INIT -> exists k1, rt_schedule_remove_thread t k = Some k1 /\ leaving k k1 t.
Proof.
  intros Hk Ht Hc Hi. pose proof (sv_inv _ (ko_sched _ Hk)) as Hinv.
  assert (prio_ok th) as Hp.
  { apply (si_prio [] k Hinv t th); [apply not_elem_of_nil|done|]. unfold active, closed in *.
    by rewrite Hc, (proj2 (Z.eqb_neq _ _) Hi). }
  destruct (remove_thread_ok k t th Hinv Ht Hp) as (k1 & E1 & Hi1 & Hth & _ & Hcu & Htm & Hlk).
  exists k1. split; [done|].
  assert (steady k k1) as Hs.
  { apply (remove_thread_steady t); [done|]. apply (movable_state k t th); [done|done|]. by apply Z.eqb_neq. }
  split; try done. unfold rt_schedule_remove_thread in E1. rewrite Ht, some_bind in E1. cbv zeta in E1.
  by destruct (queues _ _); simplify_eq.
Qed.

Lemma init_leaving k t th : kernel_ok k -> threads k !! t = Some th -> state_of th = RT_THREAD_INIT -> leaving k k t.
Proof.
  intros Hk Ht Hs. split; try done. apply inv_weaken; [apply Hk|]. intros q.
  eapply not_queued; [apply Hk|done|]. rewrite Hs. by destruct q.
Qed.

Lemma unready_leaving k t th : kernel_ok k -> threads k !! t = Some th -> closed th = false ->
  exists k1, (if negb (state_of th =? RT_THREAD_INIT) then rt_schedule_remove_thread t k else Some k) = Some k1 /\
    leaving k k1 t.
Proof.
  intros Hk Ht Hc. destruct (Z.eqb_spec (state_of th) RT_THREAD_INIT) as [Hs|Hs]; simpl.
  - exists k. split; [done|]. by eapply init_leaving.
  - by eapply remove_leaving.
Qed.

(** The kernel after a thread has been closed. *)
Lemma closed_kernel_ok k k' t th' d : kernel_ok k -> inv_but [] k' -> threads k' = <[t := th']> (threads k) ->
  state_of th' = RT_THREAD_CLOSE -> stack_fine th' -> current_thread k' = current_thread k ->
  timers k' = <[TimerOf t := d]> (timers k) -> kernel_ok k'.
Proof.
  intros [[Hi Hc Ho] Hst Hcu] Hi' Hth Hs Hf Hcu' Htm. apply (kernel_ok_upd k _ t th'); try done. split; [done|..].
  - intros c thc. rewrite Hcu', Hth. intros Hc'. destruct (Z.eq_dec c t) as [->|].
    + rewrite lookup_insert_eq. intros [= <-]. by rewrite Hs.
    + rewrite lookup_insert_ne by done. by apply Hc.
  - intros x thx. rewrite Hth, Htm. destruct (Z.eq_dec x t) as [->|].
    + rewrite lookup_insert_eq. intros [= <-]. unfold active. rewrite Hs. done.
    + rewrite !lookup_insert_ne by congruence. apply Ho.
Qed.

(** What a thread that is not closed has: a timer that can be detached. *)
Lemma own_timer_at us k t th : system_ok us k -> threads k !! t = Some th -> closed th = false ->
  is_thread th = true /\ exists tm, timers k !! TimerOf t = Some tm /\ is_timer tm = true /\
    rt_object_is_systemobject (tm_parent tm) = true.
Proof.
  intros [_ Ht _] Hth Hc.
  destruct (tb_live _ _ _ _ _ Ht t (core_of th)) as [Hty Htm]; [by rewrite lookup_fmap, Hth|done|].
  rewrite lookup_fmap in Htm. destruct (timers k !! TimerOf t) as [tm|]; [|done]. injection Htm as Hp _.
  split; [|exists tm; split; [done|]; unfold is_timer, rt_object_get_type, rt_object_is_systemobject; by rewrite Hp].
  unfold is_thread, rt_object_get_type. simpl in Hty. by destruct Hty as [-> | ->].
Qed.

(** Closing keeps the timer lists in order. *)
Lemma closing_listed us k k1 t th tm : system_ok us k -> leaving k k1 t ->
  forall x, x ∈ listed (closing t th tm k1) -> exists tm', timers (closing t th tm k1) !! x = Some tm' /\ is_timer tm' = true.
Proof.
  intros [_ _ Hl] [_ _ _ Htm _ Hls _] x Hx. assert (x ∈ listed k1 /\ x <> TimerOf t) as [Hx1 Hne].
  { unfold listed in *. simpl in Hx. rewrite !elem_of_app, !list_elem_of_filter in Hx. rewrite !elem_of_app. tauto. }
  rewrite Hls in Hx1. destruct (Hl x Hx1) as (tm' & Hx' & Hi). exists tm'. split; [|done].
  simpl. rewrite Htm, lookup_insert_ne; done.
Qed.

Lemma closing_inv k k1 t th tm : leaving k k1 t -> threads k !! t = Some th -> inv_but [t] (closing t th tm k1).
Proof.
  intros Hlv Ht. eapply (inv_same _ {| k1 with threads := <[t := set_stat RT_THREAD_CLOSE th]> (threads k1) |}); [by split_and!|].
  apply (inv_upd k1 t th (fun _ => set_stat RT_THREAD_CLOSE th)); [apply Hlv|]. by rewrite (lv_threads _ _ _ Hlv).
Qed.

(** A created thread goes to the list of the defunct threads. *)
Lemma bury_created us k k1 t th tm : system_ok us k -> leaving k k1 t -> threads k !! t = Some th ->
  closed th = false -> type (th_parent th) = RT_Object_Class_Thread ->
  system_ok us (push_front QDefunct t (closing t th tm k1)).
Proof.
  intros Hs Hlv Ht Hc Hty. pose proof Hs as [Hk Htb Hl]. pose proof (lv_steady _ _ _ Hlv) as [S1 S2 S3 S4 _ _].
  pose proof (lv_threads _ _ _ Hlv) as Hth1.
  split.
  - apply (closed_kernel_ok k _ t (set_stat RT_THREAD_CLOSE th) (dead tm) Hk).
    + pose proof (closing_inv k k1 t th tm Hlv Ht) as Hi. set (k2 := closing t th tm k1) in *.
      apply (inv_same _ {| (set_queue QDefunct (t :: queues k2 QDefunct) k2) with ready_group := ready_group k2 |});
        [by split_and!|].
      apply (enqueue_ok k2 t (set_stat RT_THREAD_CLOSE th)); try done. simpl. by rewrite lookup_insert_eq.
    + simpl. by rewrite Hth1.
    + done.
    + by apply (ko_stacks _ Hk t th).
    + simpl. apply Hlv.
    + simpl. by rewrite (lv_timers _ _ _ Hlv).
  - simpl. rewrite !fmap_insert, S1, S2, S3, S4.
    replace (core_of (set_stat RT_THREAD_CLOSE th)) with (ended (core_of th)) by (unfold ended, core_of; simpl; by rewrite Hty).
    pose proof (tables_close _ _ _ _ _ t (core_of th) (tcore_of (dead tm)) Htb) as H. simpl in H.
    rewrite Hty in H. apply H; [by rewrite lookup_fmap, Ht|done|done].
  - by apply (closing_listed us k k1 t th tm Hs Hlv).
Qed.

(** A static thread is no object any more. *)
Definition no_object (th : rt_thread) : rt_thread := {| th with th_parent := {| (th_parent th) with type := 0 |} |}.

Lemma bury_static us k k1 t th tm : system_ok us k -> leaving k k1 t -> threads k !! t = Some th ->
  closed th = false -> type (th_parent th) <> RT_Object_Class_Thread ->
  exists k3, upd_thread t no_object (olist_remove (Obj t) (closing t th tm k1)) = Some k3 /\ system_ok us k3.
Proof.
  intros Hs Hlv Ht Hc Hty. pose proof Hs as [Hk Htb Hl]. pose proof (lv_steady _ _ _ Hlv) as [S1 S2 S3 S4 _ _].
  pose proof (lv_threads _ _ _ Hlv) as Hth1.
  rewrite (upd_thread_some t (set_stat RT_THREAD_CLOSE th)) by (simpl; by rewrite lookup_insert_eq).
  eexists. split; [done|]. simpl. rewrite insert_insert_eq. split.
  - apply (closed_kernel_ok k _ t (no_object (set_stat RT_THREAD_CLOSE th)) (dead tm) Hk).
    + pose proof (closing_inv k k1 t th tm Hlv Ht) as Hi. set (k2 := closing t th tm k1) in *.
      apply (inv_settle _ t (no_object (set_stat RT_THREAD_CLOSE th))); try done.
      * apply (inv_same _ {| k2 with threads := <[t := no_object (set_stat RT_THREAD_CLOSE th)]> (threads k2) |}).
        { split_and!; try done. simpl. by rewrite insert_insert_eq. }
        apply (inv_upd k2 t (set_stat RT_THREAD_CLOSE th) no_object Hi). simpl. by rewrite lookup_insert_eq.
      * simpl. by rewrite lookup_insert_eq.
    + simpl. by rewrite Hth1.
    + done.
    + by apply (ko_stacks _ Hk t th).
    + simpl. apply Hlv.
    + simpl. by rewrite (lv_timers _ _ _ Hlv).
  - simpl. rewrite !fmap_insert, S1, S2, S3, S4.
    replace (core_of (no_object (set_stat RT_THREAD_CLOSE th))) with (ended (core_of th))
      by (unfold ended, core_of; simpl; by rewrite (proj2 (Z.eqb_neq _ _) Hty)).
    pose proof (tables_close _ _ _ _ _ t (core_of th) (tcore_of (dead tm)) Htb) as H. simpl in H.
    rewrite (proj2 (Z.eqb_neq _ _) Hty) in H. apply H; [by rewrite lookup_fmap, Ht|done|done].
  - by apply (closing_listed us k k1 t th tm Hs Hlv).
Qed.

(** ** Callbacks

    A clean-up function returns and does not touch the kernel; a timer's
    function makes calls of the kernel. *)
Class CallbackLaws `{CB : Callbacks} := {
  cleanup_quiet : forall f t k, user_cleanup f t k = Some k;
  timeout_calls : forall f param k k', user_timeout f param k = Some k' -> rtc kcall k k'
}.

(** What is left of a thread that has ended. *)
Record retired (k k' : kernel) (t : Z) (th : rt_thread) : Prop := {
  rd_closed : exists th', threads k' !! t = Some th' /\ closed th' = true;
  rd_others : forall x, x <> t -> threads k' !! x = threads k !! x;
  rd_defunct : queues k' QDefunct =
    if type (th_parent th) =? RT_Object_Class_Thread then t :: queues k QDefunct else queues k QDefunct;
  rd_timer : TimerOf t ∉ listed k';
  rd_current : current_thread k' = current_thread k;
  rd_heap : kheap k' = kheap k;
  rd_lock : lock_nest k' = lock_nest k
}.

Lemma closing_retired k k1 t th tm : leaving k k1 t -> threads k !! t = Some th ->
  (forall x, x <> t -> threads (closing t th tm k1) !! x = threads k !! x) /\
  TimerOf t ∉ listed (closing t th tm k1) /\ current_thread (closing t th tm k1) = current_thread k /\
  kheap (closing t th tm k1) = kheap k /\ queues (closing t th tm k1) QDefunct = queues k QDefunct /\ lock_nest (closing t th tm k1) = lock_nest k.
Proof.
  intros Hlv Ht. pose proof (lv_steady _ _ _ Hlv) as [S1 _ S3 _ _ _]. split_and!; simpl; try done.
  - intros x Hx. rewrite (lv_threads _ _ _ Hlv), lookup_insert_ne; done.
  - unfold listed. simpl. rewrite !elem_of_app, !list_elem_of_filter. tauto.
  - apply Hlv.
  - apply Hlv.
Qed.

(** The end of a thread that is out of the ready lists. *)
Lemma bury_ok us k k1 t th tm : system_ok us k -> leaving k k1 t -> threads k !! t = Some th -> closed th = false ->
  exists k2, bury t (closing t th tm k1) = Some k2 /\ system_ok us k2 /\ retired k k2 t th /\
    (type (th_parent th) = RT_Object_Class_Thread -> k2 = push_front QDefunct t (closing t th tm k1)).
Proof.
  intros Hs Hlv Ht Hc. destruct (closing_retired k k1 t th tm Hlv Ht) as (C1 & C2 & C3 & C4 & C5 & C6).
  assert (threads (closing t th tm k1) !! t = Some (set_stat RT_THREAD_CLOSE th)) as Ht2 by (simpl; by rewrite lookup_insert_eq).
  unfold bury. rewrite Ht2, some_bind. change (th_parent (set_stat RT_THREAD_CLOSE th)) with (th_parent th).
  destruct (tb_live _ _ _ _ _ (so_tables _ _ Hs) t (core_of th)) as [[Hty|Hty] _]; [by rewrite lookup_fmap, Ht|done|..];
    simpl in Hty; unfold rt_object_is_systemobject; rewrite Hty; cbn [Z.land Pos.land Z.eqb negb].
  - eexists. split; [done|]. split; [by apply (bury_created us k)|]. split; [|done]. split; try done.
    + eexists. split; [exact Ht2|done].
    + simpl. rewrite Hty. by f_equal.
  - destruct (bury_static us k k1 t th tm Hs Hlv Ht Hc) as (k3 & E3 & Hs3); [by rewrite Hty|].
    exists k3. unfold rt_object_detach. cbv zeta.
    rewrite (upd_thread_some t (set_stat RT_THREAD_CLOSE th)) in E3 by done.
    rewrite (upd_thread_some t (set_stat RT_THREAD_CLOSE th)) by done. split; [exact E3|]. split; [done|].
    split; [|done]. injection E3 as <-. split; try done.
    + eexists. split; [simpl; by rewrite lookup_insert_eq|done].
    + intros x Hx. simpl. rewrite lookup_insert_ne by done. by apply C1.
    + simpl. by rewrite Hty.
Qed.

Section Life.
Context `{CL : CallbackLaws}.

Lemma cleanup_returns t th k : threads k !! t = Some th -> _thread_cleanup_execute t k = Some k.
Proof. intros Ht. unfold _thread_cleanup_execute. rewrite Ht, some_bind. destruct (cleanup th); [apply cleanup_quiet|done]. Qed.

(** The current thread ends: it is retired, and the scheduler is called. *)
Lemma thread_exit_ok us k t th : system_ok us k -> current_thread k = Some t -> threads k !! t = Some th ->
  state_of th = RT_THREAD_RUNNING ->
  exists k2 k', rt_thread_exit k = Some k' /\ system_ok us k2 /\ retired k k2 t th /\ lock_nest k2 = lock_nest k /\
    rt_schedule k2 = Some k' /\ system_ok us k'.
Proof.
  intros Hs Hcu Ht Hr. assert (closed th = false) as Hc by (unfold closed; by rewrite Hr).
  destruct (remove_leaving k t th (so_kernel _ _ Hs) Ht Hc) as (k1 & E1 & Hlv); [by rewrite Hr|].
  destruct (own_timer_at us k t th Hs Ht Hc) as (_ & tm & Htm & Hit & Hsy).
  destruct (bury_ok us k k1 t th tm Hs Hlv Ht Hc) as (k2 & E2 & Hs2 & Hrd & _).
  pose proof Hrd as [(th2 & Ht2 & _) _ _ _ Hcu2 _ _].
  destruct (schedule_ok k2 t th2) as (k' & E' & _); [apply ko_sched, Hs2|apply ko_stacks, Hs2|by rewrite Hcu2|done|].
  exists k2, k'. assert (threads k1 !! t = Some th) as Ht1 by (by rewrite (lv_threads _ _ _ Hlv)).
  assert (timers k1 !! TimerOf t = Some tm) as Htm1 by (by rewrite (lv_timers _ _ _ Hlv)).
  pose proof (close_then_detach t th tm k1 Ht1 Htm1 Hit Hsy) as Ecd.
  split; [|split_and!; try done].
  - unfold rt_thread_exit, rt_thread_self. rewrite Hcu, some_bind, (cleanup_returns t th) by done. rewrite some_bind, E1, some_bind.
    destruct (upd_thread t _ k1) as [k3|]; [|discriminate]. rewrite some_bind in Ecd |- *.
    destruct (rt_timer_detach _ k3) as [[r4 k4]|]; [|discriminate]. simpl in Ecd. injection Ecd as ->. by rewrite some_bind, E2, some_bind.
  - apply Hrd.
  - by apply (safe_system us k2); [apply safe_schedule|].
Qed.

(** Ending a thread that is not closed: detaching a static one, deleting a
    created one. *)
Lemma thread_detach_ok us k t th : system_ok us k -> threads k !! t = Some th -> closed th = false ->
  type (th_parent th) <> RT_Object_Class_Thread ->
  exists k', rt_thread_detach t k = Some (RT_EOK, k') /\ system_ok us k' /\ retired k k' t th.
Proof.
  intros Hs Ht Hc Hty. destruct (unready_leaving k t th (so_kernel _ _ Hs) Ht Hc) as (k1 & E1 & Hlv).
  destruct (own_timer_at us k t th Hs Ht Hc) as (Hth & tm & Htm & Hit & Hsy).
  destruct (bury_ok us k k1 t th tm Hs Hlv Ht Hc) as (k2 & E2 & Hs2 & Hrd & _). exists k2.
  assert (threads k1 !! t = Some th) as Ht1 by (by rewrite (lv_threads _ _ _ Hlv)).
  assert (timers k1 !! TimerOf t = Some tm) as Htm1 by (by rewrite (lv_timers _ _ _ Hlv)).
  pose proof (detach_then_close t th tm k1 Ht1 Htm1 Hit Hsy) as Edc. split; [|by split].
  unfold rt_thread_detach. rewrite Ht, some_bind, Hth. simpl assert. rewrite some_bind.
  assert (rt_object_is_systemobject (th_parent th) = true) as ->.
  { destruct (tb_live _ _ _ _ _ (so_tables _ _ Hs) t (core_of th)) as [[Hty'|Hty'] _]; [by rewrite lookup_fmap, Ht|done|done|].
    simpl in Hty'. unfold rt_object_is_systemobject. by rewrite Hty'. }
  simpl assert. rewrite some_bind. unfold closed in Hc. rewrite Hc, E1, some_bind, (cleanup_returns t th), some_bind by done.
  destruct (rt_timer_detach _ k1) as [[r4 k4]|]; [|discriminate]. cbn [mbind option_bind] in Edc |- *.
  rewrite Edc, some_bind, E2. done.
Qed.

Lemma thread_delete_ok us k t th : system_ok us k -> threads k !! t = Some th -> closed th = false ->
  type (th_parent th) = RT_Object_Class_Thread ->
  exists k', rt_thread_delete t k = Some (RT_EOK, k') /\ system_ok us k' /\ retired k k' t th.
Proof.
  intros Hs Ht Hc Hty. destruct (unready_leaving k t th (so_kernel _ _ Hs) Ht Hc) as (k1 & E1 & Hlv).
  destruct (own_timer_at us k t th Hs Ht Hc) as (Hth & tm & Htm & Hit & Hsy).
  destruct (bury_ok us k k1 t th tm Hs Hlv Ht Hc) as (k2 & _ & Hs2 & Hrd & E2). exists k2.
  assert (threads k1 !! t = Some th) as Ht1 by (by rewrite (lv_threads _ _ _ Hlv)).
  assert (timers k1 !! TimerOf t = Some tm) as Htm1 by (by rewrite (lv_timers _ _ _ Hlv)).
  pose proof (detach_then_close t th tm k1 Ht1 Htm1 Hit Hsy) as Edc. split; [|by split].
  unfold rt_thread_delete. rewrite Ht, some_bind, Hth. simpl assert. rewrite some_bind.
  assert (rt_object_is_systemobject (th_parent th) = false) as -> by (unfold rt_object_is_systemobject; by rewrite Hty).
  simpl assert. rewrite some_bind. unfold closed in Hc. rewrite Hc, E1, some_bind, (cleanup_returns t th), some_bind by done.
  destruct (rt_timer_detach _ k1) as [[r4 k4]|]; [|discriminate]. cbn [mbind option_bind] in Edc |- *.
  rewrite Edc, some_bind, (E2 Hty). done.
Qed.
End Life.

(** ** The idle thread gives back what dead threads had *)
Lemma delete_kernel_ok k k' t th : kernel_ok k -> threads k !! t = Some th -> closed th = true ->
  current_thread k <> Some t -> threads k' = delete t (threads k) ->
  (forall q, queues k' q = filter (fun x => x <> t) (queues k q)) -> timers k' = delete (TimerOf t) (timers k) ->
  ready_group k' = ready_group k -> current_thread k' = current_thread k -> kernel_ok k'.
Proof.
  intros [[[] Hc Ho] Hst Hcx] Ht Hcl Hne Hth Hq Htm Hg Hcu. apply Z.eqb_eq in Hcl.
  assert (forall p, queues k' (QReady p) = queues k (QReady p)) as Hqr.
  { intros p. rewrite Hq. apply filter_nil_iff. intros Hin. apply si_queue in Hin as (th' & ? & Hs & _). simplify_eq.
    by rewrite Hcl in Hs. }
  assert (forall q x, x ∈ queues k' q <-> x <> t /\ x ∈ queues k q) as Hqe by (intros q x; by rewrite Hq, list_elem_of_filter).
  assert (forall x thx, threads k' !! x = Some thx <-> x <> t /\ threads k !! x = Some thx) as Hthe.
  { intros x thx. rewrite Hth, lookup_delete_Some. split; intros []; split; congruence. }
  split; [split; [split|..]|..].
  - by rewrite Hg.
  - intros p Hp. rewrite Hg, Hqr. by apply si_bit.
  - intros q x [Hx Hin]%Hqe. destruct (si_queue q x Hin) as (thx & Hx' & Hr). exists thx. split; [by apply Hthe|done].
  - intros x q Hx. by apply elem_of_nil in Hx.
  - intros q q' x [_ H1]%Hqe [_ H2]%Hqe. by eapply si_once.
  - intros q. rewrite Hq. by apply NoDup_filter.
  - intros x thx _ [Hx Hx']%Hthe Hs. rewrite Hqr. apply si_listed; [apply not_elem_of_nil|done|done].
  - intros x thx _ [_ Hx]%Hthe Hs. rewrite Hcu. apply (si_running x thx); [apply not_elem_of_nil|done|done].
  - intros x thx _ [_ Hx]%Hthe Hs. apply (si_prio x thx); [apply not_elem_of_nil|done|done].
  - intros c thc. rewrite Hcu. intros Hcc [_ Hx]%Hthe. by apply (Hc c thc).
  - intros x thx [Hx Hx']%Hthe Ha. destruct (Ho x thx Hx' Ha) as (H1 & tm & H2 & H3). split; [done|]. exists tm.
    split; [|done]. rewrite Htm, lookup_delete_ne; [done|congruence].
  - intros x thx [_ Hx]%Hthe. by eapply Hst.
  - intros c. rewrite Hcu. intros Hcc. destruct (Hcx c Hcc) as [thc Hthc]. exists thc. apply Hthe. split; [congruence|done].
Qed.

(** One round of the loop: the stack and the object of [t] are freed. *)
Definition reclaim (t : Z) (k : kernel) : option kernel :=
  let k := tlist_remove t k in
  th ← threads k !! t;
  h ← rt_free (Some (stack_addr th)) (kheap k);
  '(_, k) ← rt_object_delete t (th_parent th) {| k with kheap := h |};
  Some {| k with threads := delete t (threads k); timers := delete (TimerOf t) (timers k) |}.

(** The blocks of the kernel's objects, and those of one thread. *)
Definition object_blocks (k : kernel) : blocks := kernel_blocks (core_of <$> threads k) (tcore_of <$> timers k).

Definition blocks_of (k : kernel) (t : Z) : blocks :=
  match threads k !! t with Some th => thread_blocks (t, core_of th) | None => [] end.

(** What giving back the threads [ds] leaves. *)
Record reclaimed (ds : list Z) (k k' : kernel) : Prop := {
  rc_threads : forall x, threads k' !! x = if decide (x ∈ ds) then None else threads k !! x;
  rc_timers : forall x, timers k' !! x =
    match x with TimerOf t => if decide (t ∈ ds) then None else timers k !! x | Obj _ => timers k !! x end;
  rc_current : current_thread k' = current_thread k;
  rc_nest : interrupt_nest k' = interrupt_nest k;
  rc_queues : forall q, q <> QDefunct -> queues k' q = queues k q;
  rc_blocks : object_blocks k ≡ₚ (ds ≫= blocks_of k) ++ object_blocks k'
}.

Lemma reclaim_ok us k t l : system_ok us k -> queues k QDefunct = t :: l -> current_thread k <> Some t ->
  exists k', reclaim t k = Some k' /\ system_ok us k' /\ queues k' QDefunct = l /\ reclaimed [t] k k'.
Proof.
  intros Hs Hq Hne. pose proof Hs as [Hk Ht Hl].
  destruct (proj1 (tb_defunct _ _ _ _ _ Ht t)) as (c & Hc & Hty & Hcl); [rewrite Hq; left|].
  rewrite lookup_fmap in Hc. destruct (threads k !! t) as [th|] eqn:Hth; [|done]. simpl in Hc. simplify_eq.
  simpl in Hty, Hcl.
  assert (kernel_blocks (core_of <$> threads k) (tcore_of <$> timers k) ≡ₚ
    (stack_addr th, stack_size th) :: (t, SIZEOF_STRUCT_THREAD) ::
    kernel_blocks (delete t (core_of <$> threads k)) (tcore_of <$> timers k)) as Hb.
  { rewrite (blocks_thread _ _ t (core_of th)) by (by rewrite lookup_fmap, Hth). unfold thread_blocks. simpl.
    rewrite Hty. simpl. apply Permutation_swap. }
  pose proof (tb_heap _ _ _ _ _ Ht) as Ho. rewrite Hb in Ho. simpl in Ho.
  destruct (free_owns _ _ _ _ Ho) as (h1 & E1 & He1 & Ho1). destruct (free_owns _ _ _ _ Ho1) as (h2 & E2 & He2 & Ho2).
  set (k1 := {| (tlist_remove t k) with kheap := h1 |}).
  assert (exists ob k2, rt_object_delete t (th_parent th) k1 = Some (ob, k2) /\
    k2 = {| (olist_remove (Obj t) k1) with kheap := h2 |}) as (ob & k2 & E3 & Hk2).
  { unfold rt_object_delete.
    assert (rt_object_is_systemobject (th_parent th) = false) as -> by (unfold rt_object_is_systemobject; by rewrite Hty).
    simpl assert. rewrite some_bind. cbv zeta. change (kheap (olist_remove (Obj t) k1)) with h1. rewrite E2, some_bind.
    by eexists _, _. }
  exists {| k2 with threads := delete t (threads k2); timers := delete (TimerOf t) (timers k2) |}.
  assert (forall q, q <> QDefunct -> t ∉ queues k q) as Hnq.
  { intros q Hqd Hin. apply Hqd. symmetry. apply (si_once [] k (sv_inv _ (ko_sched _ Hk)) _ _ t); [rewrite Hq; left|done]. }
  split; [|split; [split|split; [|split]]].
  - unfold reclaim. cbv zeta. change (threads (tlist_remove t k) !! t) with (threads k !! t). rewrite Hth, some_bind.
    change (kheap (tlist_remove t k)) with (kheap k). rewrite E1, some_bind.
    change (rt_object_delete t (th_parent th) k1 ≫=
      (fun '(_, k) => Some {| k with threads := delete t (threads k); timers := delete (TimerOf t) (timers k) |}) =
      Some {| k2 with threads := delete t (threads k2); timers := delete (TimerOf t) (timers k2) |}). by rewrite E3.
  - subst k2. eapply (delete_kernel_ok k _ t th); done.
  - subst k2. simpl. rewrite !fmap_delete. apply (tables_reclaim (kheap k)); [done|rewrite Hq; left|congruence|exact Ho2].
  - subst k2. intros x Hx. destruct (Hl x Hx) as (tm & Hxt & Hit). exists tm. split; [|done]. simpl.
    rewrite lookup_delete_ne; [done|]. intros <-.
    destruct (tb_dead _ _ _ _ _ Ht t (core_of th)) as (d & Hd & Hd0); [by rewrite lookup_fmap, Hth|done|].
    rewrite lookup_fmap, Hxt in Hd. simpl in Hd. simplify_eq. simpl in Hd0.
    unfold is_timer, rt_object_get_type in Hit. by rewrite Hd0 in Hit.
  - subst k2. simpl. rewrite Hq, filter_cons_False by (by intros []). apply filter_nil_iff.
    pose proof (si_nodup [] k (sv_inv _ (ko_sched _ Hk)) QDefunct) as Hnd. rewrite Hq in Hnd. by apply NoDup_cons in Hnd as [? _].
  - intros x. subst k2. simpl. destruct (decide (x ∈ [t])) as [->%list_elem_of_singleton|Hx]; [by rewrite lookup_delete_eq|].
    rewrite lookup_delete_ne; [done|]. intros <-. apply Hx. by left.
  - intros [a|x]; subst k2; simpl; [by rewrite lookup_delete_ne|].
    destruct (decide (x ∈ [t])) as [->%list_elem_of_singleton|Hx]; [by rewrite lookup_delete_eq|].
    rewrite lookup_delete_ne; [done|]. intros [= <-]. apply Hx. by left.
  - by subst k2.
  - by subst k2.
  - intros q Hqd. subst k2. simpl. by apply filter_nil_iff, Hnq.
  - subst k2. unfold object_blocks, blocks_of. simpl. rewrite !fmap_delete, Hth, app_nil_r, blocks_no_timer.
    apply blocks_thread. by rewrite lookup_fmap, Hth.
Qed.

Lemma idle_loop_step fuel k : idle_loop (S fuel) k =
  match queues k QDefunct with [] => Some k | t :: _ => k ← reclaim t k; idle_loop fuel k end.
Proof.
  cbn [idle_loop]. destruct (queues k QDefunct) as [|t l]; [done|]. unfold reclaim. cbv zeta.
  destruct (threads (tlist_remove t k) !! t) as [th|]; [|done]. cbn [mbind option_bind].
  destruct (rt_free _ _) as [h|]; [|done]. cbn [mbind option_bind]. by destruct (rt_object_delete _ _ _) as [[ob k1]|].
Qed.

Lemma reclaimed_cons t l k k1 k' : t ∉ l -> reclaimed [t] k k1 -> reclaimed l k1 k' -> reclaimed (t :: l) k k'.
Proof.
  intros Hn [A1 A2 A3 A4 A5 A6] [B1 B2 B3 B4 B5 B6]. split; try congruence.
  - intros x. rewrite B1, A1. destruct (decide (x ∈ l)) as [Hl|Hl].
    + rewrite decide_True; [done|by right].
    + destruct (decide (x ∈ [t])) as [Ht|Ht].
      * rewrite decide_True; [done|]. apply list_elem_of_singleton in Ht as ->. left.
      * rewrite decide_False; [done|]. intros [->|?]%elem_of_cons; [apply Ht; left|done].
  - intros [a|x]; rewrite B2, A2; [done|]. destruct (decide (x ∈ l)) as [Hl|Hl].
    + rewrite decide_True; [done|by right].
    + destruct (decide (x ∈ [t])) as [Ht|Ht].
      * rewrite decide_True; [done|]. apply list_elem_of_singleton in Ht as ->. left.
      * rewrite decide_False; [done|]. intros [->|?]%elem_of_cons; [apply Ht; left|done].
  - intros q Hq. by rewrite B5, A5.
  - rewrite A6, B6, !bind_cons. cbn [mbind list_bind]. rewrite app_nil_r, <- app_assoc.
    rewrite (Forall_bind_ext (blocks_of k1) (blocks_of k)); [done|]. apply Forall_forall. intros x Hx.
    unfold blocks_of. rewrite A1, decide_False; [done|]. intros ->%list_elem_of_singleton. done.
Qed.

Lemma reclaimed_nil k : reclaimed [] k k.
Proof.
  split; try done. intros [a|x]; done.
Qed.

(** The loop takes one round for each defunct thread. *)
Lemma idle_loop_ok us ds : forall fuel k, system_ok us k -> queues k QDefunct = ds ->
  (length ds < fuel)%nat -> (forall c, current_thread k = Some c -> c ∉ ds) ->
  exists k', idle_loop fuel k = Some k' /\ system_ok us k' /\ queues k' QDefunct = [] /\ reclaimed ds k k'.
Proof.
  induction ds as [|t ds IH]; intros fuel k Hs Hq Hf Hc; (destruct fuel as [|fuel]; [simpl in Hf; lia|]);
    rewrite idle_loop_step, Hq.
  - exists k. split; [done|]. split; [done|]. split; [done|apply reclaimed_nil].
  - destruct (reclaim_ok us k t ds Hs Hq) as (k1 & E1 & Hs1 & Hq1 & Hr1).
    { intros Hcu. apply (Hc t Hcu). left. }
    rewrite E1, some_bind. destruct (IH fuel k1 Hs1 Hq1) as (k' & E & Hs' & Hq' & Hr'); [simpl in Hf; lia| |].
    { intros c Hcu Hin. rewrite (rc_current _ _ _ Hr1) in Hcu. apply (Hc c Hcu). by right. }
    exists k'. split; [done|]. split; [done|]. split; [done|]. eapply reclaimed_cons; [|done..].
    pose proof (si_nodup [] k (sv_inv _ (ko_sched _ (so_kernel _ _ Hs))) QDefunct) as Hnd. rewrite Hq in Hnd.
    by apply NoDup_cons in Hnd as [? _].
Qed.

Lemma idle_excute_ok us k t th : system_ok us k -> interrupt_nest k = 0 ->
  current_thread k = Some t -> threads k !! t = Some th -> closed th = false ->
  exists k', rt_thread_idle_excute k = Some k' /\ system_ok us k' /\ queues k' QDefunct = [] /\
    reclaimed (queues k QDefunct) k k'.
Proof.
  intros Hs Hn Hcu Ht Hc. unfold rt_thread_idle_excute, RT_DEBUG_NOT_IN_INTERRUPT, rt_interrupt_get_nest.
  rewrite Hn. simpl assert. rewrite some_bind. apply (idle_loop_ok us (queues k QDefunct)); try done; [lia|].
  intros c Hcc Hin. rewrite Hcu in Hcc. injection Hcc as <-.
  destruct (proj1 (tb_defunct _ _ _ _ _ (so_tables _ _ Hs) t) Hin) as (co & Hco & _ & Hcl).
  rewrite lookup_fmap, Ht in Hco. simpl in Hco. simplify_eq. simpl in Hcl. congruence.
Qed.

(** ** Timers of the kernel's clients *)
Lemma timer_create_system us nm func time fl r k k' : system_ok us k ->
  rt_timer_create nm func time fl k = Some (r, k') -> system_ok us k'.
Proof.
  intros Hs E. unfold rt_timer_create in E.
  destruct (rt_object_allocate RT_Object_Class_Timer nm k) as [[o k1]|] eqn:E1; [|done]. simpl in E.
  destruct (object_allocate_ok us RT_Object_Class_Timer SIZEOF_STRUCT_TIMER _ _ _ _ Hs eq_refl ltac:(done) E1)
    as (h1 & Hst & Hk1 & He & Ho).
  pose proof Hs as [Hk Ht Hl]. pose proof Hst as [S1 S2 S3 S4 S5 _]. cbn [kheap threads queues timers] in S1, S2, S3, S4.
  assert (forall x, x ∈ listed k1 -> timer_at k1 x) as Hl1.
  { intros x [Hx|Hx]%S5; eapply timer_at_tcore; eauto. }
  destruct o as [[a ob]|]; injection E as _ <-; [|rewrite Ho in S1; split; [done|by rewrite S1, S2, S3, S4|done]].
  destruct Ho as (Hty & Hin & _ & Hfa & Ho).
  match goal with |- system_ok _ {| k1 with timers := <[_ := ?y]> _ |} => set (tm := y) end.
  assert (is_timer tm = true) as Hit by (unfold is_timer, rt_object_get_type; simpl; by rewrite Hty).
  split; [by apply set_timer_kernel_ok| |by apply set_timer_listed].
  simpl. rewrite fmap_insert, S1, S2, S3, S4.
  apply (tables_add_timer (kheap k)); [done|done| |by intros Hn; simpl in Hn; rewrite Hty in Hn].
  unfold timer_blocks. simpl. rewrite Hty. simpl. rewrite delete_id by (by rewrite lookup_fmap, Hfa). done.
Qed.

(** A static timer is initialised outside the heap. *)
Lemma timer_init_static us a tm nm func time fl k k' : system_ok us k -> ~ in_heap (kheap k) a ->
  (forall tm, timers k !! Obj a = Some tm -> is_timer tm = false) ->
  rt_timer_init (Obj a) tm nm func time fl k = Some k' -> system_ok us k'.
Proof.
  intros [Hk Ht Hl] Hh Hf E. eapply timer_init_system; [exact E|done|done|].
  apply (tables_add_timer (kheap k)); [done|done| |done]. simpl.
  destruct (timers k !! Obj a) as [tm0|] eqn:Ea.
  - rewrite <- (app_nil_l us), app_assoc.
    assert (kernel_blocks (core_of <$> threads k) (tcore_of <$> timers k) ≡ₚ
      kernel_blocks (core_of <$> threads k) (delete (Obj a) (tcore_of <$> timers k))) as Hb.
    { rewrite (blocks_timer _ _ (Obj a) (tcore_of tm0)) by (by rewrite lookup_fmap, Ea). unfold timer_blocks. simpl.
      destruct (Z.eqb_spec (type (tm_parent tm0)) RT_Object_Class_Timer) as [Hty|]; [|done].
      specialize (Hf tm0 eq_refl). unfold is_timer, rt_object_get_type in Hf. by rewrite Hty in Hf. }
    rewrite app_nil_r, <- Hb. apply Ht.
  - rewrite delete_id by (by rewrite lookup_fmap, Ea). apply Ht.
Qed.

Lemma other_timers_kernel_ok k k' : kernel_ok k -> same_sched k k' ->
  (forall t, timers k' !! TimerOf t = timers k !! TimerOf t) -> kernel_ok k'.
Proof.
  intros [[Hi Hc Ho] Hst Hcu] Hss Htm. pose proof Hss as (E1 & _ & _ & E4).
  split; [split; [by apply (inv_same _ k)|..]|..].
  - intros c th. rewrite E4, E1. apply Hc.
  - intros x th. rewrite E1, Htm. apply Ho.
  - intros x th. rewrite E1. apply Hst.
  - intros c. rewrite E4, E1. apply Hcu.
Qed.

Lemma elem_of_removed x y k : y ∈ listed (_rt_timer_remove x k) <-> y <> x /\ y ∈ listed k.
Proof. unfold listed. simpl. rewrite !elem_of_app, !list_elem_of_filter. tauto. Qed.

Lemma timer_detach_system us a r k k' : system_ok us k -> rt_timer_detach (Obj a) k = Some (r, k') -> system_ok us k'.
Proof.
  intros [Hk Ht Hl] E. destruct (timers k !! Obj a) as [tm|] eqn:Ea; [|unfold rt_timer_detach in E; by rewrite Ea in E].
  destruct (is_timer tm) eqn:Hit; [|unfold rt_timer_detach in E; rewrite Ea, some_bind, Hit in E; discriminate].
  destruct (rt_object_is_systemobject (tm_parent tm)) eqn:Hsy.
  2:{ unfold rt_timer_detach in E. rewrite Ea, some_bind, Hit, Hsy in E. discriminate. }
  rewrite (timer_detach_eq _ tm) in E by done. injection E as _ <-.
  assert (type (tm_parent tm) <> RT_Object_Class_Timer) as Hty.
  { intros Hty. unfold rt_object_is_systemobject in Hsy. by rewrite Hty in Hsy. }
  assert ((tcore_of <$> timers k) !! Obj a = Some (tcore_of tm)) as Hta by (by rewrite lookup_fmap, Ea).
  split.
  - apply (other_timers_kernel_ok k); [done|by split_and!|]. intros t. simpl. by rewrite lookup_insert_ne.
  - simpl. rewrite fmap_insert. apply (tables_add_timer (kheap k)); [done|done| |].
    + simpl. eapply heap_owns_perm; [|exact (tb_heap _ _ _ _ _ Ht)].
      rewrite (blocks_timer _ _ _ _ Hta). unfold timer_blocks. simpl. by rewrite (proj2 (Z.eqb_neq _ _) Hty).
    + intros _. by apply (tb_tstatic _ _ _ _ _ Ht a (tcore_of tm)).
  - intros x Hx. apply (elem_of_removed (Obj a) x k) in Hx as [Hne Hx]. destruct (Hl x Hx) as (tm' & Hx' & Hi').
    exists tm'. split; [|done]. simpl. by rewrite lookup_insert_ne.
Qed.

Lemma timer_delete_system us a r k k' : system_ok us k -> rt_timer_delete a k = Some (r, k') -> system_ok us k'.
Proof.
  intros [Hk Ht Hl] E. unfold rt_timer_delete in E. destruct (timers k !! Obj a) as [tm|] eqn:Ea; [|done].
  rewrite some_bind in E. destruct (is_timer tm) eqn:Hit; [|done]. simpl assert in E. rewrite some_bind in E.
  destruct (rt_object_is_systemobject (tm_parent tm)) eqn:Hsy; [done|]. simpl assert in E. rewrite some_bind in E.
  rewrite (upd_timer_some _ tm), some_bind in E by done.
  assert (type (tm_parent tm) = RT_Object_Class_Timer) as Hty.
  { apply negb_false_iff, Z.eqb_eq in Hsy. apply Z.eqb_eq in Hit. unfold rt_object_get_type, clear in Hit.
    by rewrite <- (Z.lor_ldiff_and (type (tm_parent tm)) RT_Object_Class_Static), Hit, Hsy. }
  assert ((tcore_of <$> timers k) !! Obj a = Some (tcore_of tm)) as Hta by (by rewrite lookup_fmap, Ea).
  pose proof (tb_heap _ _ _ _ _ Ht) as Ho. rewrite (blocks_timer _ _ _ _ Hta) in Ho. unfold timer_blocks in Ho. simpl in Ho.
  rewrite Hty in Ho. simpl in Ho. destruct (free_owns _ _ _ _ Ho) as (h & E1 & He & Ho1).
  unfold rt_object_delete in E. rewrite Hsy in E. simpl assert in E. rewrite some_bind in E. cbv zeta in E.
  match type of E with context [rt_free (Some a) ?x] => change x with (kheap k) in E end. rewrite E1, some_bind in E.
  injection E as _ <-. split.
  - apply (other_timers_kernel_ok k); [done|by split_and!|]. intros t. simpl. by rewrite lookup_delete_ne, lookup_insert_ne.
  - simpl. rewrite fmap_delete, fmap_insert, delete_insert_eq. by apply (tables_drop_timer (kheap k)).
  - intros x Hx. apply (elem_of_removed (Obj a) x k) in Hx as [Hne Hx]. destruct (Hl x Hx) as (tm' & Hx' & Hi').
    exists tm'. split; [|done]. simpl. by rewrite lookup_delete_ne, lookup_insert_ne.
Qed.

(** ** The clients' own memory *)
Lemma client_malloc_system us size r h k : system_ok us k -> 0 <= size <= 2 ^ 32 - 4 ->
  rt_malloc size (kheap k) = Some (r, h) ->
  system_ok (match r with Some p => (p, size) :: us | None => us end) {| k with kheap := h |}.
Proof.
  intros [Hk Ht Hl] Hsz E. destruct (malloc_owns _ _ size (tb_heap _ _ _ _ _ Ht) Hsz) as (r' & h' & E' & He & Hr).
  rewrite E in E'. injection E' as <- <-. split; [by apply (kernel_ok_same k)| |done]. simpl.
  apply (tables_clients (kheap k) h _ _ _ us); [done|done|]. destruct r as [p|]; [|subst h; apply Ht].
  destruct Hr as [Ho _]. by rewrite <- Permutation_middle.
Qed.

Lemma client_free_system us p size k : system_ok us k -> (p, size) ∈ us ->
  exists h us', rt_free (Some p) (kheap k) = Some h /\ us ≡ₚ (p, size) :: us' /\ system_ok us' {| k with kheap := h |}.
Proof.
  intros [Hk Ht Hl] Hin. apply elem_of_Permutation in Hin as [us' Hp].
  pose proof (tb_heap _ _ _ _ _ Ht) as Ho. rewrite Hp, <- Permutation_middle in Ho.
  destruct (free_owns _ _ _ _ Ho) as (h & E & He & Ho1). exists h, us'. split; [done|]. split; [done|].
  split; [by apply (kernel_ok_same k)| |done]. by apply (tables_clients (kheap k) h _ _ _ us).
Qed.

(** ** The tick, the timers that expire and the timer thread *)
Section Ticks.
Context `{CL : CallbackLaws}.

(** From kernels in which every listed timer is one, and a thread runs. *)
Definition ticking (k : kernel) : Prop :=
  kernel_ok k /\ (forall x, x ∈ listed k -> timer_at k x) /\ is_Some (current_thread k).

Lemma ticking_safe k k' : safe k k' -> ticking k -> ticking k' /\ steady k k'.
Proof.
  intros Hs (Hk & Hl & Hc). destruct (Hs Hk) as [Hk' Hst]. split; [|done]. split; [done|]. split; [|by apply Hst].
  intros x [Hx|Hx]%(sd_listed _ _ Hst); (eapply timer_at_tcore; [apply Hst|by auto]).
Qed.

Lemma call_timeout_safe f k k' : is_Some (current_thread k) -> call_timeout f k = Some k' -> safe k k'.
Proof.
  intros Hc E. destruct f as [t|f p]; [by eapply safe_timeout|]. by eapply kcalls_safe, timeout_calls.
Qed.

(** A timer that has expired is taken off its list and put into the list of
    expired timers. *)
Lemma expire_safe x k k1 k2 (b : bool) : timer_at k x ->
  (if b then Some (_rt_timer_remove x k) else upd_timer x deactivate (_rt_timer_remove x k)) = Some k1 ->
  kheap k2 = kheap k1 -> threads k2 = threads k1 -> queues k2 = queues k1 -> timers k2 = timers k1 ->
  ready_group k2 = ready_group k1 -> current_thread k2 = current_thread k1 ->
  (forall y, y ∈ listed k2 -> y = x \/ y ∈ listed k1) -> safe k k2.
Proof.
  intros Hx E H1 H2 H3 H4 H5 H6 Hl.
  assert (same_sched k k1 /\ steady k k1) as [Hss Hs].
  { destruct b; [injection E as <-; split; [by split_and!|apply timer_remove_steady]|]. split.
    - unfold upd_timer in E. simpl in E. destruct (timers k !! x); [|done]. by injection E as <-.
    - etrans; [apply timer_remove_steady|by eapply upd_timer_steady]. }
  apply safe_calm.
  - destruct Hss as (A1 & A2 & A3 & A4). split_and!; congruence.
  - destruct Hs as [S1 S2 S3 S4 S5 S6]. split; rewrite ?H1, ?H2, ?H3, ?H4, ?H6; try done.
    intros y [->|Hy]%Hl; [by right|by apply S5].
Qed.

Lemma restart_safe x k k' (b : bool) :
  (if b then k ← upd_timer x deactivate k; '(_, k) ← rt_timer_start x k; Some k else Some k) = Some k' -> safe k k'.
Proof.
  destruct b; [|by intros [= <-]]. destruct (upd_timer x deactivate k) as [k1|] eqn:E1; [|done]. simpl.
  destruct (rt_timer_start x k1) as [[r k2]|] eqn:E2; [|done]. intros [= <-].
  transitivity k1; [by eapply safe_upd_timer|by eapply safe_timer_start].
Qed.

Lemma timer_remove_safe x k : safe k (_rt_timer_remove x k).
Proof. apply safe_calm; [by split_and!|apply timer_remove_steady]. Qed.

Lemma timer_check_loop_ok fuel : forall tick k k', timer_check_loop fuel tick k = Some k' -> ticking k ->
  ticking k' /\ steady k k'.
Proof.
  induction fuel as [|fuel IH]; intros tick k k'; [done|]. cbn [timer_check_loop].
  destruct (timer_list k) as [|x l] eqn:Etl; [by intros [= <-]|]. intros E Hk.
  assert (timer_at k x) as Hx by (apply Hk; unfold listed; rewrite Etl; left).
  destruct (timers k !! x) as [tm|]; [|done]. rewrite some_bind in E.
  destruct (_ <? _); [|by injection E as <-].
  match type of E with (?m ≫= _) = _ => destruct m as [k1|] eqn:E1; [|done] end. rewrite some_bind in E.
  set (k2 := {| k1 with expired := _ |}) in E.
  destruct (ticking_safe k k2) as [Hk2 Hs2]; [|done|].
  { eapply (expire_safe x k k1); try done. intros y. unfold k2, listed. simpl. rewrite !elem_of_app, elem_of_cons, ?elem_of_app. tauto. }
  destruct (call_timeout _ k2) as [k3|] eqn:E3; [|done]. cbn [mbind option_bind] in E.
  apply call_timeout_safe in E3; [|apply Hk2]. destruct (ticking_safe _ _ E3 Hk2) as [Hk3 Hs3].
  assert (steady k k3) as H3 by (by etrans).
  destruct (expired k3) as [|y ys]; [destruct (IH _ _ _ E Hk3); split; [done|by etrans]|].
  destruct (timers (_rt_timer_remove x k3) !! x) as [tm'|]; [|done]. rewrite some_bind in E.
  match type of E with (?m ≫= _) = _ => destruct m as [k4|] eqn:E4; [|done] end. rewrite some_bind in E.
  apply restart_safe in E4. destruct (ticking_safe k3 k4) as [Hk4 Hs4]; [|done|].
  { etrans; [apply timer_remove_safe|done]. }
  destruct (IH _ _ _ E Hk4). split; [done|]. etrans; [exact H3|]. by etrans.
Qed.

Lemma tick_increase_ok fuel k k' : rt_tick_increase fuel k = Some k' -> ticking k -> ticking k' /\ steady k k'.
Proof.
  unfold rt_tick_increase. intros E Hk. destruct (rt_thread_self _) as [t|]; [|done]. rewrite some_bind in E.
  destruct (upd_thread t _ _) as [k1|] eqn:E1; [|done]. rewrite some_bind in E.
  destruct (threads k1 !! t) as [th|]; [|done]. rewrite some_bind in E.
  assert (safe k k1) as H1.
  { transitivity (rt_tick_set (u32 (rt_tick k + 1)) k); [by apply safe_calm; [split_and!|apply steady_fields]|].
    by apply (safe_upd_thread _ _ _ _ E1). }
  match type of E with (?m ≫= _) = _ => destruct m as [k2|] eqn:E2; [|done] end. rewrite some_bind in E.
  assert (safe k1 k2) as H2.
  { destruct (_ =? _); [|by injection E2 as <-]. destruct (upd_thread t _ k1) as [k3|] eqn:E3; [|done]. simpl in E2.
    transitivity k3; [|by apply safe_schedule]. apply (safe_upd_thread _ _ _ _ E3); try done.
    intros th'. split_and!; try done. by apply state_lor_yield. }
  destruct (ticking_safe k k2) as [Hk2 Hs2]; [by etrans|done|].
  destruct (timer_check_loop_ok _ _ _ _ E Hk2). split; [done|by etrans].
Qed.

Lemma soft_timer_check_ok fuel : forall k k', rt_soft_timer_check fuel k = Some k' -> ticking k ->
  ticking k' /\ steady k k'.
Proof.
  induction fuel as [|fuel IH]; intros k k'; [done|]. cbn [rt_soft_timer_check].
  destruct (soft_timer_list k) as [|x l] eqn:Etl; [by intros [= <-]|]. intros E Hk.
  assert (timer_at k x) as Hx by (apply Hk; unfold listed; rewrite Etl, !elem_of_app, elem_of_cons; auto).
  destruct (timers k !! x) as [tm|]; [|done]. rewrite some_bind in E.
  destruct (_ <? _); [|by injection E as <-].
  match type of E with (?m ≫= _) = _ => destruct m as [k1|] eqn:E1; [|done] end. rewrite some_bind in E.
  set (k2 := {| k1 with soft_expired := _; soft_timer_status := _ |}) in E.
  destruct (ticking_safe k k2) as [Hk2 Hs2]; [|done|].
  { eapply (expire_safe x k k1); try done. intros y. unfold k2, listed. simpl. rewrite !elem_of_app, elem_of_cons, ?elem_of_app. tauto. }
  destruct (call_timeout _ k2) as [k3|] eqn:E3; [|done]. cbn [mbind option_bind] in E.
  apply call_timeout_safe in E3; [|apply Hk2]. destruct (ticking_safe _ _ E3 Hk2) as [Hk3 Hs3].
  set (k4 := {| k3 with soft_timer_status := _ |}) in E.
  destruct (ticking_safe k3 k4) as [Hk4 Hs4]; [by apply safe_calm; [split_and!|apply steady_fields]|done|].
  assert (steady k k4) as H4 by (etrans; [exact Hs2|by etrans]).
  destruct (soft_expired k4) as [|y ys]; [destruct (IH _ _ E Hk4); split; [done|by etrans]|].
  destruct (timers (_rt_timer_remove x k4) !! x) as [tm'|]; [|done]. rewrite some_bind in E.
  match type of E with (?m ≫= _) = _ => destruct m as [k5|] eqn:E5; [|done] end. rewrite some_bind in E.
  apply restart_safe in E5. destruct (ticking_safe k4 k5) as [Hk5 Hs5]; [|done|].
  { etrans; [apply timer_remove_safe|done]. }
  destruct (IH _ _ E Hk5). split; [done|]. etrans; [exact H4|]. by etrans.
Qed.

Lemma timer_entry_safe k k' : rt_thread_timer_entry k = Some k' -> safe k k'.
Proof.
  unfold rt_thread_timer_entry. destruct (rt_timer_list_next_timeout _ k) as [n|]; [|done]. rewrite some_bind.
  destruct (n =? RT_TICK_MAX).
  - destruct (rt_thread_self k) as [t|]; [|done]. rewrite some_bind.
    destruct (rt_thread_suspend t k) as [[r k1]|] eqn:E1; [|done]. simpl. intros E2.
    transitivity k1; [by eapply safe_suspend|by apply safe_schedule].
  - cbv zeta. destruct (_ <? _); [apply safe_sleep|by intros [= <-]].
Qed.
End Ticks.

(** ** The system

    Its state: the kernel, and the blocks of the heap that its clients hold. *)
Definition system : Type := blocks * kernel.

Section System.
Context `{CL : CallbackLaws}.

(** What its callers see to: a static thread or timer object is fresh and lies
    outside the heap, a stack has room for the first frame, priorities are in
    range, memory is freed by its owner; only a thread that is not closed ends
    itself or does the idle thread's work. *)
Inductive sys_step : system -> system -> Prop :=
| ss_call us k k' : kcall k k' -> sys_step (us, k) (us, k')
| ss_start us k k' : current_thread k = None -> rt_system_scheduler_start k = Some k' -> sys_step (us, k) (us, k')
| ss_tick us k k' fuel : rt_tick_increase fuel k = Some k' -> sys_step (us, k) (us, k')
| ss_timer_entry us k k' : rt_thread_timer_entry k = Some k' -> sys_step (us, k) (us, k')
| ss_soft_timers us k k' fuel : is_Some (current_thread k) -> rt_soft_timer_check fuel k = Some k' ->
    sys_step (us, k) (us, k')
| ss_init us k k' t nm ent par stack size prio tick r :
    threads k !! t = None -> ~ in_heap (kheap k) t -> 0 <= stack -> 80 <= size -> stack + size < 2 ^ 32 ->
    rt_thread_init t nm ent par stack size prio tick k = Some (r, k') -> sys_step (us, k) (us, k')
| ss_create us k k' nm ent par size prio tick r : 80 <= size <= 2 ^ 32 - 4 ->
    rt_thread_create nm ent par size prio tick k = Some (r, k') -> sys_step (us, k) (us, k')
| ss_exit us k k' t th : current_thread k = Some t -> threads k !! t = Some th -> state_of th = RT_THREAD_RUNNING ->
    rt_thread_exit k = Some k' -> sys_step (us, k) (us, k')
| ss_detach us k k' t r : rt_thread_detach t k = Some (r, k') -> sys_step (us, k) (us, k')
| ss_delete us k k' t r : rt_thread_delete t k = Some (r, k') -> sys_step (us, k) (us, k')
| ss_idle us k k' t th : current_thread k = Some t -> threads k !! t = Some th -> closed th = false ->
    rt_thread_idle_excute k = Some k' -> sys_step (us, k) (us, k')
| ss_timer_init us k k' a tm nm f p time fl : ~ in_heap (kheap k) a ->
    (forall tm, timers k !! Obj a = Some tm -> is_timer tm = false) ->
    rt_timer_init (Obj a) tm nm (user_timeout_func f p) time fl k = Some k' -> sys_step (us, k) (us, k')
| ss_timer_create us k k' nm f p time fl r :
    rt_timer_create nm (user_timeout_func f p) time fl k = Some (r, k') -> sys_step (us, k) (us, k')
| ss_timer_detach us k k' a r : rt_timer_detach (Obj a) k = Some (r, k') -> sys_step (us, k) (us, k')
| ss_timer_delete us k k' a r : rt_timer_delete a k = Some (r, k') -> sys_step (us, k) (us, k')
| ss_malloc us k h size r : 0 <= size <= 2 ^ 32 - 4 -> rt_malloc size (kheap k) = Some (r, h) ->
    sys_step (us, k) (match r with Some p => (p, size) :: us | None => us end, {| k with kheap := h |})
| ss_free us us' k h p size : us ≡ₚ (p, size) :: us' -> rt_free (Some p) (kheap k) = Some h ->
    sys_step (us, k) (us', {| k with kheap := h |}).

Lemma start_safe k k' : current_thread k = None -> rt_system_scheduler_start k = Some k' -> safe k k'.
Proof.
  intros Hc E Hk. split; [by eapply start_kernel_ok|]. unfold rt_system_scheduler_start in E.
  destruct (_get_highest_priority_thread k) as [[t p]|] eqn:Eh; [|done]. cbn [mbind option_bind] in E.
  unfold _get_highest_priority_thread in Eh.
  destruct (head (queues k _)) as [t0|] eqn:Eq; [|done]. simpl in Eh. injection Eh as -> Ep. rewrite Ep in Eq.
  assert (movable k t) as Hm.
  { apply (movable_queued k t (QReady p)); [apply Hk| |done]. apply head_Some_elem_of in Eq. done. }
  set (k1 := {| k with current_thread := Some t |}) in E.
  destruct (rt_schedule_remove_thread t k1) as [k2|] eqn:E2; [|done]. simpl in E.
  assert (steady k k1) as H1 by (by apply steady_fields).
  apply remove_thread_steady in E2; [|by eapply movable_steady]. assert (steady k k2) as H2 by (by etrans).
  etrans; [exact H2|]. eapply upd_thread_steady; [exact E|]. intros th Ht.
  unfold core_of. f_equal. symmetry. by apply (mv_open _ _ (movable_steady _ _ _ H2 Hm)).
Qed.

Lemma tick_system us k k' : system_ok us k -> ticking k' -> steady k k' -> system_ok us k'.
Proof.
  intros [_ Ht _] (Hk' & Hl' & _) [S1 S2 S3 S4 _ _]. split; [done|by rewrite S1, S2, S3, S4|done].
Qed.

Lemma detach_system us k k' t r : system_ok us k -> rt_thread_detach t k = Some (r, k') -> system_ok us k'.
Proof.
  intros Hs E. destruct (threads k !! t) as [th|] eqn:Ht; [|unfold rt_thread_detach in E; by rewrite Ht in E].
  pose proof E as E'. unfold rt_thread_detach in E'. rewrite Ht, some_bind in E'.
  destruct (is_thread th); [|done]. simpl assert in E'. rewrite some_bind in E'.
  destruct (rt_object_is_systemobject (th_parent th)) eqn:Hsy; [|done]. simpl assert in E'. rewrite some_bind in E'.
  destruct (Z.eqb_spec (state_of th) RT_THREAD_CLOSE) as [Hc|Hc]; [by simplify_eq|]. clear E'.
  destruct (thread_detach_ok us k t th Hs Ht) as (k2 & E2 & Hs2 & _).
  - by apply Z.eqb_neq.
  - intros Hty. unfold rt_object_is_systemobject in Hsy. by rewrite Hty in Hsy.
  - rewrite E in E2. injection E2 as _ ->. done.
Qed.

Lemma delete_system us k k' t r : system_ok us k -> rt_thread_delete t k = Some (r, k') -> system_ok us k'.
Proof.
  intros Hs E. destruct (threads k !! t) as [th|] eqn:Ht; [|unfold rt_thread_delete in E; by rewrite Ht in E].
  pose proof E as E'. unfold rt_thread_delete in E'. rewrite Ht, some_bind in E'.
  destruct (is_thread th); [|done]. simpl assert in E'. rewrite some_bind in E'.
  destruct (rt_object_is_systemobject (th_parent th)) eqn:Hsy; [done|]. simpl assert in E'. rewrite some_bind in E'.
  destruct (Z.eqb_spec (state_of th) RT_THREAD_CLOSE) as [Hc|Hc]; [by simplify_eq|]. clear E'.
  assert (closed th = false) as Hcl by (by apply Z.eqb_neq).
  destruct (thread_delete_ok us k t th Hs Ht Hcl) as (k2 & E2 & Hs2 & _).
  - destruct (tb_live _ _ _ _ _ (so_tables _ _ Hs) t (core_of th)) as [[Hty|Hty] _]; [by rewrite lookup_fmap, Ht|done|done|].
    simpl in Hty. unfold rt_object_is_systemobject in Hsy. by rewrite Hty in Hsy.
  - rewrite E in E2. injection E2 as _ ->. done.
Qed.

(** Every step keeps the system in order. *)
Definition sys_ok (s : system) : Prop := system_ok (fst s) (snd s).

Lemma sys_step_ok s s' : sys_step s s' -> sys_ok s -> sys_ok s'.
Proof.
  unfold sys_ok. intros []; simpl; intros Hs.
  - by apply (safe_system us k); [apply kcall_safe|].
  - by apply (safe_system us k); [apply start_safe|].
  - assert (ticking k) as Hk.
    { split; [apply Hs|]. split; [apply Hs|]. unfold rt_tick_increase, rt_thread_self in H. simpl in H.
      destruct (current_thread k); [eauto|done]. }
    destruct (tick_increase_ok fuel k k' H Hk). by eapply tick_system.
  - by apply (safe_system us k); [apply timer_entry_safe|].
  - assert (ticking k) as Hk by (split; [apply Hs|]; split; [apply Hs|done]).
    destruct (soft_timer_check_ok fuel k k' H0 Hk). by eapply tick_system.
  - by apply (thread_init_system us t nm ent par stack size prio tick r k k').
  - by apply (thread_create_system us nm ent par size prio tick r k k').
  - destruct (thread_exit_ok us k t th Hs H H0 H1) as (k2 & k3 & E & _ & _ & _ & _ & Hs3). rewrite H2 in E. by simplify_eq.
  - by eapply detach_system.
  - by eapply delete_system.
  - assert (interrupt_nest k = 0) as Hn.
    { unfold rt_thread_idle_excute, RT_DEBUG_NOT_IN_INTERRUPT, rt_interrupt_get_nest in H2.
      by destruct (Z.eqb_spec (interrupt_nest k) 0). }
    destruct (idle_excute_ok us k t th Hs Hn H H0 H1) as (k2 & E & Hs2 & _). rewrite H2 in E. by simplify_eq.
  - by eapply timer_init_static.
  - by eapply timer_create_system.
  - by eapply timer_detach_system.
  - by eapply timer_delete_system.
  - by apply client_malloc_system.
  - destruct Hs as [Hk Ht Hl]. pose proof (tb_heap _ _ _ _ _ Ht) as Ho. rewrite H, <- Permutation_middle in Ho.
    destruct (free_owns _ _ _ _ Ho) as (h' & E & He & Ho1). rewrite H0 in E. injection E as <-.
    split; [by apply (kernel_ok_same k)| |done]. by apply (tables_clients (kheap k) h _ _ _ us).
Qed.

Lemma boot_system_ok h : heap_owns h [] -> system_ok [] (boot_kernel h).
Proof.
  intros Ho. split; [apply boot_kernel_ok| |by intros x Hx%elem_of_nil].
  split; simpl.
  - exact Ho.
  - intros t c. by rewrite fmap_empty, lookup_empty.
  - intros t c. by rewrite fmap_empty, lookup_empty.
  - intros t. rewrite fmap_empty. split; [by intros ?%elem_of_nil|]. intros (c & Hc & _). by rewrite lookup_empty in Hc.
  - intros t c. by rewrite fmap_empty, lookup_empty.
  - intros t c. by rewrite fmap_empty, lookup_empty.
Qed.

Lemma reachable_sys_ok h s : heap_owns h [] -> rtc sys_step ([], boot_kernel h) s -> sys_ok s.
Proof.
  intros Ho Hr. assert (sys_ok ([], boot_kernel h)) as H0 by (by apply boot_system_ok).
  induction Hr as [s|s1 s2 s3 H12 _ IH]; [done|]. by apply IH, (sys_step_ok s1).
Qed.
End System.

(** ** A small system that runs

    Timer functions and clean-up functions that do nothing. *)
Definition quiet_callbacks : Callbacks :=
  {| user_timeout := fun _ _ k => Some k; user_cleanup := fun _ _ k => Some k |}.

#[global] Instance quiet_laws : @CallbackLaws quiet_callbacks.
Proof. split; [done|]. intros f p k k' [= <-]. constructor. Defined.

(** Some of the steps, as functions. *)
Inductive sys_op :=
| so_call (o : kop) | so_start | so_exit | so_idle
| so_init (t : Z) (nm : list Z) (stack size prio : Z)
| so_create (nm : list Z) (size prio : Z)
| so_delete (t : Z).

Definition sys_exec (o : sys_op) (k : kernel) : option kernel :=
  match o with
  | so_call o => _ ← assert (is_call o); exec o k
  | so_start => _ ← assert (bool_decide (current_thread k = None)); rt_system_scheduler_start k
  | so_exit =>
      t ← current_thread k; th ← threads k !! t; _ ← assert (state_of th =? RT_THREAD_RUNNING);
      @rt_thread_exit quiet_callbacks k
  | so_idle =>
      t ← current_thread k; th ← threads k !! t; _ ← assert (negb (closed th)); rt_thread_idle_excute k
  | so_init t nm stack size prio =>
      _ ← assert (bool_decide (threads k !! t = None /\ ~ in_heap (kheap k) t /\ 0 <= stack /\ 80 <= size /\ stack + size < 2 ^ 32));
      snd <$> rt_thread_init t nm 0 0 stack size prio 10 k
  | so_create nm size prio =>
      _ ← assert (bool_decide (80 <= size <= 2 ^ 32 - 4)); snd <$> rt_thread_create nm 0 0 size prio 10 k
  | so_delete t => snd <$> @rt_thread_delete quiet_callbacks t k
  end.

Definition sys_run (os : list sys_op) (k : kernel) : option kernel :=
  foldl (fun k o => k ← k; sys_exec o k) (Some k) os.

Lemma sys_exec_step us o k k' : sys_exec o k = Some k' -> @sys_step quiet_callbacks (us, k) (us, k').
Proof.
  destruct o; simpl; intros E.
  - apply assert_bind in E as [Ho E]. by eapply ss_call, kc_op.
  - apply assert_bind in E as [Hb E]. apply bool_decide_eq_true in Hb. by apply ss_start.
  - destruct (current_thread k) as [t|] eqn:Hc; [|done]. simpl in E. destruct (threads k !! t) as [th|] eqn:Ht; [|done].
    cbn [mbind option_bind] in E. apply assert_bind in E as [Hs E]. apply Z.eqb_eq in Hs. by eapply ss_exit.
  - destruct (current_thread k) as [t|] eqn:Hc; [|done]. simpl in E. destruct (threads k !! t) as [th|] eqn:Ht; [|done].
    cbn [mbind option_bind] in E. apply assert_bind in E as [Hs E]. apply negb_true_iff in Hs. by eapply ss_idle.
  - apply assert_bind in E as [Hb E]. apply bool_decide_eq_true in Hb as (H1 & H2 & H3 & H4 & H5).
    apply snd_some in E as [r E]. by eapply ss_init.
  - apply assert_bind in E as [Hb E]. apply bool_decide_eq_true in Hb. apply snd_some in E as [r E]. by eapply ss_create.
  - apply snd_some in E as [r E]. by eapply ss_delete.
Qed.

Lemma sys_run_rtc us os : forall k k', sys_run os k = Some k' -> rtc (@sys_step quiet_callbacks) (us, k) (us, k').
Proof.
  assert (forall (os : list sys_op), foldl (fun k o => k ← k; sys_exec o k) None os = None) as Hn by (by induction os0).
  unfold sys_run. induction os as [|o os IH]; intros k k'; [intros [= <-]; constructor|]. simpl.
  destruct (sys_exec o k) as [k1|] eqn:E; [|by rewrite Hn]. intros Hr. eapply rtc_l; [by eapply sys_exec_step|]. by apply IH.
Qed.

Definition sys_heap : heap :=
  rt_system_heap_init 0 4096 {| hdrs := ∅; lfree := 0; mem_size_aligned := 0; used_mem := 0; max_mem := 0 |}.

Lemma sys_heap_ok : heap_owns sys_heap [].
Proof. by apply heap_owns_init; [lia|unfold fits; lia|lia|]. Qed.

(** The idle thread is static; the main thread creates a worker that pre-empts
    it, ends and lets it run on; then the main thread ends too. *)
Definition dying_ops : list sys_op :=
  [so_init idle (bytes "tidle0") 10000 256 31; so_call (op_startup idle);
   so_create (bytes "main") 512 10; so_call (op_startup 12); so_start;
   so_create (bytes "worker") 256 8; so_call (op_startup 676); so_exit; so_exit].

Definition dying : kernel := default (boot_kernel sys_heap) (sys_run dying_ops (boot_kernel sys_heap)).

Lemma dying_run : sys_run dying_ops (boot_kernel sys_heap) = Some dying.
Proof.
  unfold dying. assert (is_Some (sys_run dying_ops (boot_kernel sys_heap))) as [k ->]; [|done].
  destruct (sys_run _ _) eqn:E; [done|]. vm_compute in E. discriminate.
Qed.

Lemma dying_state : current_thread dying = Some idle /\ queues dying QDefunct = [12; 676] /\
  used_mem (kheap dying) = 128 + 12 + 512 + 12 + 128 + 12 + 256 + 12.
Proof. vm_compute. done. Qed.

(** ** Properties *)

(** C1: from the empty kernel with a fresh heap on, in every state that calls
    of the kernel, ticks, expiring timers, the creation, the end and the
    reclamation of threads and timers, and the clients' own use of the heap
    reach: the ready lists and the bitmap of priorities agree, every thread is in
    the list of its state and in no other, only the current thread runs, no
    stack is overrun; the regions of the heap in use are exactly the blocks of
    the created threads and timers and those of the clients, each once; the
    defunct list holds exactly the created threads that have ended; every
    other thread has a timer in order and every listed timer exists. *)
Theorem system_reachable_ok `{CL : CallbackLaws} h us k : heap_owns h [] ->
  rtc sys_step ([], boot_kernel h) (us, k) -> system_ok us k.
Proof. apply reachable_sys_ok. Qed.

Lemma system_reachable_ok_witness :
  rtc (@sys_step quiet_callbacks) ([], boot_kernel sys_heap) ([], dying) /\ system_ok [] dying /\
  current_thread dying = Some idle /\ queues dying QDefunct = [12; 676].
Proof.
  pose proof (sys_run_rtc [] dying_ops _ _ dying_run) as Hr. split; [exact Hr|].
  split; [exact (@system_reachable_ok quiet_callbacks quiet_laws sys_heap [] dying sys_heap_ok Hr)|].
  split; apply dying_state.
Defined.

(** C2: when a thread that has not ended does the idle thread's work outside of
    interrupts, the loop ends after one round for each dead thread and no
    assertion and no free of the heap fails: the defunct list is empty, the dead
    threads and their timers are gone, all others are as they were, and the
    blocks of the heap the kernel holds are those it held but for the objects and
    the stacks of the dead threads. *)
Theorem dead_threads_reclaimed us k t th : system_ok us k -> interrupt_nest k = 0 ->
  current_thread k = Some t -> threads k !! t = Some th -> closed th = false ->
  exists k', rt_thread_idle_excute k = Some k' /\ system_ok us k' /\ queues k' QDefunct = [] /\
    reclaimed (queues k QDefunct) k k'.
Proof. apply idle_excute_ok. Qed.

Lemma dead_threads_reclaimed_witness : exists k', rt_thread_idle_excute dying = Some k' /\ system_ok [] k' /\
  reclaimed [12; 676] dying k' /\ used_mem (kheap k') = 0.
Proof.
  assert (system_ok [] dying) as Hs.
  { exact (@reachable_sys_ok quiet_callbacks quiet_laws sys_heap _ sys_heap_ok (sys_run_rtc [] dying_ops _ _ dying_run)). }
  assert (exists th, threads dying !! idle = Some th /\ closed th = false) as (th & Ht & Hc).
  { destruct (threads dying !! idle) as [th|] eqn:E; [exists th; split; [done|]|]; vm_compute in E; by simplify_eq. }
  destruct (dead_threads_reclaimed [] dying idle th Hs) as (k' & E & Hs' & Hq & Hr); [by vm_compute|by vm_compute|done|done|].
  exists k'. split; [exact E|]. split; [exact Hs'|]. split; [exact Hr|].
  assert ((used_mem ∘ kheap) <$> rt_thread_idle_excute dying = Some 0) as Hu by (by vm_compute).
  rewrite E in Hu. by injection Hu.
Defined.

(** C3: a thread that runs can end at any time, and rt_thread_exit returns to
    the scheduler: the thread is closed, it waits for reclamation if it was
    created and is no object any more if it was static, its timer is in no list,
    and nothing else changes; unless the scheduler is locked, the processor goes
    to the first thread of the highest priority that is ready. *)
Theorem rt_thread_exit_spec `{CL : CallbackLaws} us k t th : system_ok us k ->
  current_thread k = Some t -> threads k !! t = Some th -> state_of th = RT_THREAD_RUNNING ->
  exists k2 k', rt_thread_exit k = Some k' /\ retired k k2 t th /\ rt_schedule k2 = Some k' /\
    system_ok us k2 /\ system_ok us k' /\
    (lock_nest k = 0 -> ready_group k2 <> 0 ->
     exists p n l, best k2 p /\ queues k2 (QReady p) = n :: l /\ n <> t /\ current_thread k' = Some n /\
       exists nth, threads k' !! n = Some nth /\ state_of nth = RT_THREAD_RUNNING).
Proof.
  intros Hs Hcu Ht Hr. destruct (thread_exit_ok us k t th Hs Hcu Ht Hr) as (k2 & k' & E & Hs2 & Hrd & Hl & E2 & Hs').
  exists k2, k'. split; [done|]. split; [done|]. split; [done|]. split; [done|]. split; [done|]. intros Hl0 Hg.
  destruct (rd_closed _ _ _ _ Hrd) as (th2 & Ht2 & Hc2). pose proof (ko_sched _ (so_kernel _ _ Hs2)) as Hinv.
  assert (current_thread k2 = Some t) as Hcu2 by (by rewrite (rd_current _ _ _ _ Hrd)).
  destruct (schedule_ok k2 t th2 Hinv (ko_stacks _ (so_kernel _ _ Hs2)) Hcu2 Ht2) as (k3 & E3 & [_ _ _ _ Hrun Hnx]).
  rewrite E2 in E3. injection E3 as <-. rewrite Hl, Hl0, (proj2 (Z.eqb_neq _ _) Hg) in Hnx, Hrun.
  destruct Hnx as (p & n & l & Hb & Hq & Hn). apply Z.eqb_eq in Hc2. unfold keeps in Hn. rewrite Hc2 in Hn.
  destruct Hn as [Hn _]. exists p, n, l. split; [done|]. split; [done|]. split.
  - intros ->. assert (t ∈ queues k2 (QReady p)) as Hin by (rewrite Hq; left).
    apply (si_queue [] k2 (sv_inv _ Hinv)) in Hin as (th3 & ? & Hs3 & _). simplify_eq. by rewrite Hc2 in Hs3.
  - split; [done|]. by apply Hrun.
Qed.

(** The worker of the small system runs and is about to end. *)
Definition working_ops : list sys_op := take 7 dying_ops.

Definition working : kernel := default (boot_kernel sys_heap) (sys_run working_ops (boot_kernel sys_heap)).

Lemma working_run : sys_run working_ops (boot_kernel sys_heap) = Some working.
Proof.
  unfold working. assert (is_Some (sys_run working_ops (boot_kernel sys_heap))) as [k ->]; [|done].
  destruct (sys_run _ _) eqn:E; [done|]. vm_compute in E. discriminate.
Qed.

Lemma rt_thread_exit_spec_witness : exists k2 k', @rt_thread_exit quiet_callbacks working = Some k' /\
  system_ok [] k' /\ queues k2 QDefunct = [676] /\ current_thread k' = Some 12.
Proof.
  assert (system_ok [] working) as Hs.
  { exact (@reachable_sys_ok quiet_callbacks quiet_laws sys_heap _ sys_heap_ok (sys_run_rtc [] working_ops _ _ working_run)). }
  assert (exists th, threads working !! 676 = Some th /\ state_of th = RT_THREAD_RUNNING /\
    type (th_parent th) = RT_Object_Class_Thread) as (th & Ht & Hr & Hty).
  { destruct (threads working !! 676) as [th|] eqn:E; [exists th; split; [done|]|]; vm_compute in E; by simplify_eq. }
  destruct (@rt_thread_exit_spec quiet_callbacks quiet_laws [] working 676 th Hs) as (k2 & k' & E & Hrd & _ & _ & Hs' & _);
    [by vm_compute|exact Ht|exact Hr|].
  exists k2, k'. split; [exact E|]. split; [exact Hs'|]. split.
  - rewrite (rd_defunct _ _ _ _ Hrd), Hty. by vm_compute.
  - assert (current_thread <$> @rt_thread_exit quiet_callbacks working = Some (Some 12)) as Hc by (by vm_compute).
    rewrite E in Hc. by injection Hc.
Defined.
