(* ===== verification/Tick.v ===== *)
(** * Tick: which timers expire (rt_timer_check of timer.c)

    The tick interrupt's loop over the hard timers.  The timers it meets are the
    threads' own, whose function [rt_thread_timeout] makes the waiting thread
    ready and schedules, and the application's, with functions of the user. *)
From S2P Require Import Prelude Mem Kernel Sched Timer Ipc Kcall Thread.

(** ** Threads that stay suspended *)
Definition suspended (k : kernel) (t : Z) : Prop :=
  exists th, threads k !! t = Some th /\ state_of th = RT_THREAD_SUSPEND.

Lemma upd_thread_suspended t f k k' x : upd_thread t f k = Some k' ->
  x <> t \/ (forall th, state_of (f th) = state_of th) -> suspended k x -> suspended k' x.
Proof.
  unfold upd_thread. destruct (threads k !! t) as [th|] eqn:Ht; [|done]. intros [= <-] Hf (xth & Hx & Hs).
  unfold suspended. simpl. destruct (decide (x = t)) as [->|Hne].
  - destruct Hf as [|Hf]; [done|]. rewrite Hx in Ht. simplify_eq. rewrite lookup_insert_eq. exists (f th). by rewrite Hf.
  - rewrite lookup_insert_ne by done. eauto.
Qed.

Lemma insert_thread_suspended t k k' x : rt_schedule_insert_thread t k = Some k' -> x <> t ->
  suspended k x -> suspended k' x.
Proof.
  intros E Hne. unfold rt_schedule_insert_thread in E. destruct (threads k !! t) as [th|]; [|done].
  rewrite some_bind in E. destruct (bool_decide _); [eapply upd_thread_suspended; eauto|].
  destruct (upd_thread t _ k) as [k1|] eqn:E1; [|done]. rewrite some_bind in E. simplify_eq. intros Hx.
  exact (upd_thread_suspended _ _ _ _ _ E1 (or_introl Hne) Hx).
Qed.

Lemma remove_thread_suspended t k k' x : rt_schedule_remove_thread t k = Some k' -> suspended k x -> suspended k' x.
Proof. intros [H _]%remove_thread_frame. unfold suspended. by rewrite H. Qed.

Lemma suspended_other k t th x : threads k !! t = Some th -> state_of th <> RT_THREAD_SUSPEND -> suspended k x -> x <> t.
Proof. intros Ht Hs (xth & Hx & Hxs) ->. simplify_eq. Qed.

(** The scheduler only concerns the threads that run or are ready. *)
Lemma schedule_suspended k k' x : kernel_ok k -> rt_schedule k = Some k' -> suspended k x -> suspended k' x.
Proof.
  intros Hk E Hx. pose proof (sv_inv _ (ko_sched _ Hk)) as Hi. unfold rt_schedule in E.
  destruct (negb (lock_nest k =? 0)); [by simplify_eq|].
  destruct (Z.eqb_spec (ready_group k) 0) as [|Hg]; [by simplify_eq|].
  destruct (highest_ok k [] Hi Hg) as (t & p & l & Hh & Hq & _). rewrite Hh, some_bind in E.
  destruct (si_queue [] k Hi (QReady p) t) as (th & Ht & Hts & _); [rewrite Hq; left|].
  assert (x <> t) as Hxt by (eapply suspended_other; [exact Ht|by rewrite Hts|done]).
  destruct (current_thread k) as [c|]; [|done]. rewrite some_bind in E.
  destruct (threads k !! c) as [cth|] eqn:Hc; [|done]. rewrite some_bind, choose_keeps in E.
  assert (state_of cth = RT_THREAD_RUNNING -> x <> c) as Hxc.
  { intros Hr. eapply suspended_other; [exact Hc|by rewrite Hr|done]. }
  match type of E with (let '(_, _) := ?x in _) = _ => destruct x as [to ins] eqn:Ech end.
  match type of E with (?m ≫= _) = _ => destruct m as [k1|] eqn:E1; [|done] end. rewrite some_bind in E.
  assert (suspended k1 x) as H1.
  { destruct (_ =? _); [|by simplify_eq]. eapply upd_thread_suspended; [done| |done]. right. apply state_clear_yield. }
  assert (x <> to /\ (ins = true -> x <> c)) as [Hto Hins].
  { destruct (keeps cth p) eqn:Ek; simplify_eq.
    - unfold keeps in Ek. apply andb_true_iff in Ek as [Hr _]. apply Z.eqb_eq in Hr. split; auto.
    - split; [done|]. intros Hr. apply Hxc. by apply Z.eqb_eq. }
  destruct (Z.eqb_spec to c) as [->|Hne]; simpl in E.
  - destruct (rt_schedule_remove_thread c k1) as [k2|] eqn:E2; [|done]. simpl in E.
    eapply upd_thread_suspended; [exact E|by left|]. by eapply remove_thread_suspended.
  - set (k2 := {| k1 with rt_current_priority := _; current_thread := _ |}) in E.
    match type of E with (?m ≫= _) = _ => destruct m as [k3|] eqn:E3; [|done] end. rewrite some_bind in E.
    assert (suspended k3 x) as H3.
    { destruct ins; [eapply insert_thread_suspended; [done|by apply Hins|done]|by simplify_eq]. }
    destruct (rt_schedule_remove_thread to k3) as [k4|] eqn:E4; [|done]. rewrite some_bind in E.
    destruct (upd_thread to _ k4) as [k5|] eqn:E5; [|done]. rewrite some_bind in E.
    destruct (_rt_scheduler_stack_check to k5); [|discriminate]. simpl in E. simplify_eq.
    eapply upd_thread_suspended; [exact E5|by left|]. by eapply remove_thread_suspended.
Qed.

(** A timer of a thread that waits: it can time out, and the other waiting
    threads wait on. *)
Lemma timeout_suspended t k k' x : kernel_ok k -> rt_thread_timeout t k = Some k' -> x <> t ->
  suspended k x -> suspended k' x.
Proof.
  intros Hk E Hne Hx. pose proof Hk as [Hs Hst Hc]. unfold rt_thread_timeout in E.
  destruct (threads k !! t) as [th|] eqn:Ht; [|done]. rewrite some_bind in E.
  destruct (Z.eqb_spec (state_of th) RT_THREAD_SUSPEND) as [Hss|]; [|done]. simpl in E.
  destruct (is_thread th); [|done]. simpl in E. rewrite (upd_thread_some t th), some_bind in E by done.
  destruct (resume_core k t th (set_error (- RT_ETIMEOUT)) Hs Ht Hss) as (k2 & E2 & Hr); [done..|].
  rewrite (upd_thread_some t th) in E2 by done. simplify_eq.
  match type of E with (rt_schedule_insert_thread t ?x ≫= _) = _ => set (k3 := x) in E end.
  destruct (Hr k3) as (k4 & E4 & Hs4 & Hth4 & _ & Hcu4 & _); [by split_and!|done|by apply timers_ok_refl|].
  rewrite E4, some_bind in E. apply (schedule_suspended k4); [|done|].
  - apply (kernel_ok_upd k _ t (with_state (resume_state t k) (set_error (- RT_ETIMEOUT) th))); try done.
    eapply stack_fine_eq; [..|exact (Hst t th Ht)]; done.
  - destruct Hx as (xth & Hx & Hxs). exists xth. by rewrite Hth4, lookup_insert_ne.
Qed.

Lemma timeout_total t k : kernel_ok k -> is_Some (current_thread k) -> suspended k t ->
  exists k', rt_thread_timeout t k = Some k'.
Proof.
  intros Hk [c Hc] (th & Ht & Hs). pose proof Hk as [Hi Hst Hex].
  destruct (timeout_ok k t th c Hi Hst Ht Hs Hc (Hex c Hc)) as (_ & _ & k' & _ & _ & _ & _ & _ & _ & _ & E & _). eauto.
Qed.

(** ** The timers that are due *)
Section Check.
Context {CB : Callbacks}.

(** One due timer: taken off the list, its function called, and started again
    if it is periodic and still active. *)
Definition fire (x : obj) (k : kernel) : option kernel :=
  tm ← timers k !! x;
  let k := _rt_timer_remove x k in
  k ← (if has_flag (tflag tm) RT_TIMER_FLAG_PERIODIC then Some k else upd_timer x deactivate k);
  let k := {| k with expired := x :: expired k |} in
  k ← call_timeout (tm_func tm) k;
  match expired k with
  | [] => Some k
  | _ =>
      let k := _rt_timer_remove x k in
      tm ← timers k !! x;
      if has_flag (tflag tm) RT_TIMER_FLAG_PERIODIC && has_flag (tflag tm) RT_TIMER_FLAG_ACTIVATED
      then k ← upd_timer x deactivate k; '(_, k) ← rt_timer_start x k; Some k
      else Some k
  end.

Fixpoint fires (l : list obj) (k : kernel) : option kernel :=
  match l with [] => Some k | x :: l => k ← fire x k; fires l k end.

(** What the function of a timer does not do: touch the timers, the tick or a
    thread whose wait is timed; and it leaves the kernel in order. *)
Record quiet (k k' : kernel) : Prop := {
  qu_timers : timers k' = timers k;
  qu_list : timer_list k' = timer_list k;
  qu_expired : expired k' = expired k;
  qu_tick : rt_tick k' = rt_tick k;
  qu_safe : safe k k';
  qu_waits : forall t, TimerOf t ∈ timer_list k -> suspended k t -> suspended k' t
}.

(** A timer that rt_timer_check can deal with: a started hard timer, either the
    own timer of a thread that waits, which is of one shot, or one with a user's
    function, whose period, if it has one, is not zero and stays in the window. *)
Definition serviceable (b : Z) (k : kernel) (x : obj) (tm : rt_timer) : Prop :=
  is_timer tm = true /\ hard tm /\
  match tm_func tm with
  | thread_timeout t =>
      x = TimerOf t /\ has_flag (tflag tm) RT_TIMER_FLAG_PERIODIC = false /\ suspended k t
  | user_timeout_func _ _ =>
      has_flag (tflag tm) RT_TIMER_FLAG_PERIODIC = true ->
      has_flag (tflag tm) RT_TIMER_FLAG_ACTIVATED = true /\
      1 <= tm_init_tick tm < WINDOW /\ rt_tick k + tm_init_tick tm < b + WINDOW
  end.

Record tlist_ok (b : Z) (D : obj -> Z) (k : kernel) : Prop := {
  tl_window : b <= rt_tick k < b + WINDOW;
  tl_deadlines : deadlines_ok k b D (timer_list k);
  tl_sorted : StronglySorted (by_deadline D) (timer_list k);
  tl_nodup : NoDup (timer_list k);
  tl_service : forall x tm, x ∈ timer_list k -> timers k !! x = Some tm -> serviceable b k x tm;
  tl_expired : expired k = [];
  tl_kernel : kernel_ok k;
  tl_current : is_Some (current_thread k)
}.

Definition is_periodic (k : kernel) (x : obj) : bool :=
  match timers k !! x with Some tm => has_flag (tflag tm) RT_TIMER_FLAG_PERIODIC | None => false end.

Definition timers_left_alone : Prop :=
  forall f p k, kernel_ok k -> is_Some (current_thread k) ->
  exists k', user_timeout f p k = Some k' /\ quiet k k'.

Lemma safe_current k k' : safe k k' -> kernel_ok k -> is_Some (current_thread k) ->
  kernel_ok k' /\ is_Some (current_thread k').
Proof. intros Hs Hk Hc. destruct (Hs Hk) as [Hk' Hst]. split; [done|]. by apply Hst. Qed.

(** The function of a listed timer, called when the timer is off the list. *)
Lemma call_ok (Hquiet : timers_left_alone) b k0 k x tm :
  serviceable b k0 x tm -> threads k = threads k0 -> x ∉ timer_list k -> kernel_ok k -> is_Some (current_thread k) ->
  exists k', call_timeout (tm_func tm) k = Some k' /\ quiet k k'.
Proof.
  intros (_ & _ & Hf) Hth Hx Hk Hc. destruct (tm_func tm) as [t|f p]; [|by apply Hquiet].
  destruct Hf as (-> & _ & Hs). assert (suspended k t) as Hs' by (unfold suspended; by rewrite Hth).
  destruct (timeout_total t k Hk Hc Hs') as [k' E]. exists k'. split; [done|].
  destruct (timeout_same_timing _ _ _ E) as [A1 A2 A3 A4 _]. split; try done; [by eapply safe_timeout|].
  intros u Hu. eapply timeout_suspended; [done..|]. by intros ->.
Qed.

Lemma started_deactivate now tm : started now (deactivate tm) = started now tm.
Proof.
  assert (forall f m, clear (clear f m) m = clear f m) as Hc.
  { intros f m. unfold clear. apply Z.bits_inj'. intros j _. rewrite !Z.ldiff_spec.
    by destruct (Z.testbit f j), (Z.testbit m j). }
  unfold started, activate, deactivate, set_tflag, tflag, set_flag. simpl. by rewrite Hc.
Qed.

(** A periodic timer started again is as serviceable as it was. *)
Lemma started_serviceable b k k' x tm : rt_tick k' = rt_tick k ->
  has_flag (tflag tm) RT_TIMER_FLAG_PERIODIC = true ->
  serviceable b k x tm -> serviceable b k' x (started (rt_tick k) tm).
Proof.
  intros Ht Hp (H1 & H2 & H3).
  assert (forall m, Z.land m RT_TIMER_FLAG_ACTIVATED = 0 ->
    has_flag (tflag (started (rt_tick k) tm)) m = has_flag (tflag tm) m) as Hm.
  { intros m Hm. unfold started, activate, deactivate, set_tflag, tflag. simpl.
    by rewrite has_flag_lor, has_flag_clear. }
  split; [done|]. split; [unfold hard; by rewrite Hm|].
  change (tm_func (started (rt_tick k) tm)) with (tm_func tm). destruct (tm_func tm).
  - destruct H3 as (_ & H3 & _). by rewrite H3 in Hp.
  - intros _. destruct (H3 Hp) as (_ & H5 & H6). split; [|by rewrite Ht]. by apply has_flag_lor_same.
Qed.

Lemma serviceable_other b k k' x tm : rt_tick k' = rt_tick k ->
  (forall t, x = TimerOf t -> suspended k t -> suspended k' t) -> serviceable b k x tm -> serviceable b k' x tm.
Proof.
  intros Ht Hs (H1 & H2 & H3). split; [done|]. split; [done|]. rewrite Ht.
  destruct (tm_func tm) as [t|f p]; [|done]. destruct H3 as (Hx & Hp & H3). eauto.
Qed.

Lemma kernel_ok_timers k k' : kernel_ok k -> same_sched k k' -> timers_ok k k' -> kernel_ok k'.
Proof.
  intros [[Hi Hc Ho] Hst Hcu] Hss Ht. pose proof Hss as (E1 & _ & _ & E4). split; [split| |].
  - by apply (inv_same _ k).
  - intros c th. rewrite E4, E1. apply Hc.
  - by apply (objs_same k).
  - intros x th. rewrite E1. apply Hst.
  - intros c. rewrite E4, E1. apply Hcu.
Qed.

Lemma timers_ok_insert k k' x tm : timers k' = <[x := tm]> (timers k) -> is_timer tm = true -> timers_ok k k'.
Proof.
  intros E Hi y tmy Hy Hyi. rewrite E. destruct (decide (y = x)) as [->|]; [rewrite lookup_insert_eq; eauto|].
  rewrite lookup_insert_ne by done. eauto.
Qed.

(** Starting a periodic timer again after its function has been called. *)
Lemma restart_ok b D k k4 x l tm :
  tlist_ok b D k4 -> timer_list k4 = l -> x ∉ l -> rt_tick k4 = rt_tick k ->
  timers k4 !! x = Some tm -> serviceable b k x tm -> has_flag (tflag tm) RT_TIMER_FLAG_PERIODIC = true ->
  exists k' D', (k ← upd_timer x deactivate k4; '(_, k) ← rt_timer_start x k; Some k) = Some k' /\
    tlist_ok b D' k' /\ rt_tick k' = rt_tick k4 /\
    (forall y, y <> x -> D' y = D y /\ timers k' !! y = timers k4 !! y) /\
    rt_tick k4 < D' x /\ timer_list k' ≡ₚ x :: l /\ filter (fun y => y <> x) (timer_list k') = l.
Proof.
  intros [Hw Hd4 Hs Hnd Hsv He Hk4 Hc4] Hl4 Hxl Htk Hx4 Hser Hp. rewrite Hl4 in *.
  pose proof Hser as (Hi & Hh & Hf). destruct (tm_func tm) as [t|f p] eqn:Ef; [destruct Hf as (_ & Hf & _); congruence|].
  destruct (Hf Hp) as (Hact & Hini & Hend). rewrite (upd_timer_some x tm), some_bind by done.
  set (k5 := {| k4 with timers := _ |}).
  assert (timers k5 !! x = Some (deactivate tm)) as Hx5 by (simpl; by rewrite lookup_insert_eq).
  assert (filter (fun y => y <> x) (timer_list k5) = l) as Hl5.
  { change (timer_list k5) with (timer_list k4). rewrite Hl4. by apply remove_absent. }
  assert (deadlines_ok k5 b D l) as Hd5.
  { intros y Hy. destruct (Hd4 y Hy) as (tmy & E1 & E2 & E3). exists tmy. simpl.
    rewrite lookup_insert_ne by (by intros ->). done. }
  assert (rt_tick k5 = rt_tick k) as Hk5 by exact Htk.
  pose proof (timer_start_ok k5 x (deactivate tm) b D Hx5 Hi) as Hstart. rewrite Hl5, Hk5 in Hstart.
  assert (hard (deactivate tm)) as Hh5.
  { unfold hard, deactivate, set_tflag, tflag. simpl. by rewrite has_flag_clear. }
  rewrite Hstart by (done || simpl; lia). rewrite some_bind.
  pose proof (start_result_ok k5 x (deactivate tm) b D Hx5) as Hres. rewrite Hl5, Hk5 in Hres.
  destruct Hres as (R1 & R2 & R3 & R4); [done|done| |simpl; lia|].
  { change (timer_list k5) with (timer_list k4). by rewrite Hl4. }
  set (D' := new_deadline D x _) in *. set (k6 := start_result x (deactivate tm) D k5) in *.
  assert (rt_tick k6 = rt_tick k4) as Hk6 by done.
  assert (timers k6 = <[x := started (rt_tick k) (deactivate tm)]> (timers k4)) as Ht6.
  { change (timers k6) with (<[x := started (rt_tick k5) (deactivate tm)]> (<[x := deactivate tm]> (timers k4))).
    by rewrite Hk5, !insert_insert_eq. }
  exists k6, D'. split; [done|]. split; [split|split; [done|split; [|split; [|split]]]].
  - by rewrite Hk6.
  - done.
  - done.
  - done.
  - intros y tmy Hy Hty. rewrite R4 in Hy. rewrite Ht6 in Hty. destruct (decide (y = x)) as [->|Hyx].
    + rewrite lookup_insert_eq in Hty. simplify_eq. rewrite started_deactivate.
      apply started_serviceable; [by rewrite Hk6|done|done].
    + rewrite lookup_insert_ne in Hty by done. apply (serviceable_other b k4); [done|by auto|].
      apply Hsv; [set_solver|done].
  - change (expired k6) with (filter (fun y => y <> x) (expired k4)). by rewrite He.
  - apply (kernel_ok_timers k4); [done|by split_and!|]. by eapply timers_ok_insert.
  - done.
  - intros y Hyx. unfold D', new_deadline. rewrite decide_False by done. split; [done|].
    by rewrite Ht6, lookup_insert_ne.
  - unfold D', new_deadline. rewrite decide_True by done. simpl. lia.
  - exact R4.
  - change (timer_list k6) with (insert_deadline D (rt_tick k5 + tm_init_tick (deactivate tm)) x
      (filter (fun y => y <> x) (timer_list k5))).
    rewrite Hl5. by apply insert_deadline_remove.
Qed.

(** Firing the first timer of the list. *)
Lemma fire_ok (Hquiet : timers_left_alone) b D k x l :
  tlist_ok b D k -> timer_list k = x :: l -> D x <= rt_tick k ->
  exists k' D', fire x k = Some k' /\ tlist_ok b D' k' /\ rt_tick k' = rt_tick k /\
    (forall y, y <> x -> D' y = D y /\ timers k' !! y = timers k !! y) /\
    (if is_periodic k x then rt_tick k < D' x /\ timer_list k' ≡ₚ x :: l /\
       filter (fun y => y <> x) (timer_list k') = l
     else timer_list k' = l).
Proof.
  intros [Hw Hd Hs Hnd Hsv He Hk Hc] Hl Hdue. rewrite Hl in *.
  destruct (Hd x ltac:(left)) as (tm & Hx & Hto & Hwx).
  pose proof (Hsv x tm ltac:(left) Hx) as Hser. pose proof Hser as (Hi & Hh & Hf).
  apply StronglySorted_inv in Hs as [Hs _]. apply NoDup_cons in Hnd as [Hxl Hnd].
  unfold fire, is_periodic. rewrite Hx, some_bind. cbv zeta.
  set (k1 := _rt_timer_remove x k).
  set (tm1 := if has_flag (tflag tm) RT_TIMER_FLAG_PERIODIC then tm else deactivate tm).
  set (k2 := {| k1 with timers := <[x := tm1]> (timers k) |}).
  assert ((if has_flag (tflag tm) RT_TIMER_FLAG_PERIODIC then Some k1 else upd_timer x deactivate k1) = Some k2) as ->.
  { unfold k2, tm1. destruct (has_flag _ _); [|by rewrite (upd_timer_some x tm)].
    rewrite insert_id by done. done. }
  rewrite some_bind. set (k2' := {| k2 with expired := x :: expired k2 |}).
  assert (timer_list k2' = l) as Hl2.
  { simpl. rewrite Hl, filter_cons_False by (intros Hn; by apply Hn). by apply remove_absent. }
  assert (kernel_ok k2') as Hk2.
  { apply (kernel_ok_timers k); [done|by split_and!|]. apply (timers_ok_insert _ _ x tm1); [done|].
    unfold tm1. by destruct (has_flag _ _). }
  destruct (call_ok Hquiet b k k2' x tm Hser) as (k3 & -> & [Q1 Q2 Q3 Q4 Q5 Q6]); [done|by rewrite Hl2|done|done|].
  rewrite some_bind, Q3. cbn [expired k2']. set (k4 := _rt_timer_remove x k3).
  assert (timer_list k4 = l) as Hl4 by (simpl; rewrite Q2, Hl2; by apply remove_absent).
  assert (timers k4 = <[x := tm1]> (timers k)) as Ht4 by (simpl; by rewrite Q1).
  assert (timers k4 !! x = Some tm1) as Hx4 by (by rewrite Ht4, lookup_insert_eq).
  rewrite Hx4, some_bind.
  assert (forall y, y <> x -> timers k4 !! y = timers k !! y) as Hother.
  { intros y Hy. by rewrite Ht4, lookup_insert_ne. }
  assert (tlist_ok b D k4) as Hk4.
  { split; rewrite ?Hl4; try done.
    - simpl. by rewrite Q4.
    - intros y Hy. destruct (Hd y ltac:(by right)) as (tmy & E1 & E2 & E3). exists tmy. rewrite Hother; [done|]. by intros ->.
    - intros y tmy Hy Hty. rewrite Hother in Hty by (by intros ->).
      apply (serviceable_other b k); [simpl; by rewrite Q4| |apply Hsv; [by right|done]].
      intros t -> Ht. apply Q6; [by rewrite Hl2|exact Ht].
    - simpl. rewrite Q3. simpl. rewrite He. simpl. rewrite filter_cons_False by (intros Hn; by apply Hn). done.
    - apply (kernel_ok_timers k3); [by apply Q5|by split_and!|by apply timers_ok_refl].
    - by apply Q5. }
  assert (rt_tick k4 = rt_tick k) as Htk by (simpl; by rewrite Q4).
  destruct (has_flag (tflag tm) RT_TIMER_FLAG_PERIODIC) eqn:Ep.
  - unfold tm1 in *. rewrite Ep.
    assert (has_flag (tflag tm) RT_TIMER_FLAG_ACTIVATED = true) as ->.
    { destruct (tm_func tm); [destruct Hf as (_ & Hf & _); congruence|]. by apply Hf. }
    cbn [andb]. destruct (restart_ok b D k k4 x l tm) as (k' & D' & E & H1 & H2 & H3 & H4); try done.
    rewrite E. exists k', D'. split; [done|]. split; [done|]. split; [congruence|]. split; [|by rewrite <- Htk].
    intros y Hy. destruct (H3 y Hy) as [-> ->]. split; [done|]. by apply Hother.
  - unfold tm1. assert (has_flag (tflag (deactivate tm)) RT_TIMER_FLAG_PERIODIC = false) as ->.
    { unfold deactivate, set_tflag, tflag. simpl. by rewrite has_flag_clear. }
    cbn [andb]. exists k4, D. split; [done|]. split; [done|]. split; [done|]. split; [|done].
    intros y Hy. split; [done|]. by apply Hother.
Qed.

(** Starting a timer does not move the clock. *)
Lemma timer_stop_same_tick x k r k' : rt_timer_stop x k = Some (r, k') -> rt_tick k' = rt_tick k.
Proof.
  unfold rt_timer_stop. destruct (timers k !! x) as [tm|] eqn:Hx; [|done]. rewrite some_bind.
  destruct (is_timer tm); [|done]. simpl. destruct (negb _); [by intros [= _ <-]|].
  rewrite (upd_timer_some x tm) by done. by intros [= _ <-].
Qed.

Lemma resume_tick t k r k' : rt_thread_resume t k = Some (r, k') -> rt_tick k' = rt_tick k.
Proof.
  unfold rt_thread_resume. destruct (threads k !! t) as [th|]; [|done]. rewrite some_bind.
  destruct (is_thread th); [|done]. simpl. destruct (negb _); [by intros [= _ <-]|].
  destruct (rt_timer_stop _ _) as [[r3 k3]|] eqn:E3; [|done]. apply timer_stop_same_tick in E3. simpl in E3 |- *.
  destruct (rt_schedule_insert_thread t k3) as [k4|] eqn:E4; [|done]. simpl. intros [= _ <-].
  rewrite <- E3. by eapply st_tick, insert_thread_timing.
Qed.

Lemma timer_start_tick x k r k' : rt_timer_start x k = Some (r, k') -> rt_tick k' = rt_tick k.
Proof.
  unfold rt_timer_start. destruct (timers k !! x) as [tm|]; [|done]. rewrite some_bind.
  destruct (is_timer tm); [|done]. cbn [assert]. rewrite some_bind. cbv zeta.
  assert (forall y f k0 k1, upd_timer y f k0 = Some k1 -> rt_tick k1 = rt_tick k0) as Hu.
  { intros y f k0 k1. unfold upd_timer. destruct (timers k0 !! y); [|done]. by intros [= <-]. }
  destruct (upd_timer x deactivate _) as [k1|] eqn:E1; [|done]. rewrite some_bind. apply Hu in E1.
  destruct (assert _); [|done]. rewrite some_bind.
  destruct (upd_timer x _ k1) as [k2|] eqn:E2; [|done]. rewrite some_bind. apply Hu in E2.
  destruct (timer_insert _ x k2 _) as [l|]; [|done]. rewrite some_bind.
  destruct (upd_timer x activate _) as [k3|] eqn:E3; [|done]. rewrite some_bind. apply Hu in E3.
  assert (rt_tick k3 = rt_tick k) as H3.
  { rewrite E3. destruct (has_flag _ _); simpl; rewrite E2, E1; done. }
  destruct (has_flag _ _); [|by intros [= _ <-]].
  destruct (threads k3 !! timer_thread); [|done]. rewrite some_bind. destruct (_ && _); [|by intros [= _ <-]].
  destruct (rt_thread_resume timer_thread k3) as [[r4 k4]|] eqn:E4; [|done]. simpl. apply resume_tick in E4.
  destruct (rt_schedule k4) as [k5|] eqn:E5; [|done]. simpl. intros [= _ <-].
  rewrite (st_tick _ _ (schedule_timing _ _ E5)). congruence.
Qed.

(** One round of the loop is [fire]. *)
Lemma loop_step fuel ct x l k tm k' :
  timer_list k = x :: l -> timers k !! x = Some tm ->
  (u32 (ct - timeout_tick tm) <? RT_TICK_MAX / 2) = true ->
  fire x k = Some k' ->
  timer_check_loop (S fuel) ct k = timer_check_loop fuel (rt_tick k') k'.
Proof.
  intros Hl Hx Ht Hfire. cbn [timer_check_loop]. rewrite Hl, Hx, some_bind, Ht.
  unfold fire in Hfire. rewrite Hx, some_bind in Hfire. cbv zeta in Hfire |- *.
  match goal with |- (?m ≫= _) = _ => destruct m as [k1|]; [|done] end.
  rewrite some_bind in Hfire |- *.
  destruct (call_timeout (tm_func tm) _) as [k2|]; [|done]. rewrite some_bind in Hfire |- *.
  destruct (expired k2); [by simplify_eq|].
  destruct (timers (_rt_timer_remove x k2) !! x) as [tm2|]; [|done].
  rewrite some_bind in Hfire |- *. destruct (_ && _); [|by simplify_eq].
  destruct (upd_timer x deactivate (_rt_timer_remove x k2)) as [k3|] eqn:E3; [|done].
  rewrite some_bind in Hfire |- *. destruct (rt_timer_start x k3) as [[r k4]|] eqn:E4; [|done].
  simpl in Hfire |- *. simplify_eq. apply timer_start_tick in E4. rewrite E4.
  unfold upd_timer in E3. destruct (timers (_rt_timer_remove x k2) !! x); [|done]. by injection E3 as <-.
Qed.

Lemma filter_refine {A} (P Q : A -> Prop) `{forall x, Decision (P x)} `{forall x, Decision (Q x)} (l : list A) :
  (forall x, x ∈ l -> P x -> Q x) -> filter P (filter Q l) = filter P l.
Proof.
  induction l as [|x l IH]; intros Hl; [done|].
  assert (forall y, y ∈ l -> P y -> Q y) as Hl' by (intros y Hy; apply Hl; by right).
  destruct (decide (Q x)).
  - rewrite (filter_cons_True Q) by done. destruct (decide (P x)).
    + rewrite !filter_cons_True by done. by rewrite IH.
    + rewrite !(filter_cons_False P) by done. by apply IH.
  - rewrite (filter_cons_False Q) by done. rewrite (filter_cons_False P); [by apply IH|].
    intros Hp. apply n, Hl; [left|done].
Qed.

Lemma filter_same {A} (P Q : A -> Prop) `{forall x, Decision (P x)} `{forall x, Decision (Q x)} (l : list A) :
  (forall x, x ∈ l -> P x <-> Q x) -> filter P l = filter Q l.
Proof.
  induction l as [|x l IH]; intros Hl; [done|].
  assert (filter P l = filter Q l) as IH' by (apply IH; intros y Hy; apply Hl; by right).
  destruct (decide (P x)) as [Hp|Hp].
  - rewrite !filter_cons_True; [by rewrite IH'|apply Hl; [left|done]|done].
  - rewrite !filter_cons_False; [done|intros Hq; apply Hp, Hl; [left|done]|done].
Qed.

Definition due (D : obj -> Z) (k : kernel) : list obj := filter (fun x => D x <= rt_tick k) (timer_list k).
Definition late (D : obj -> Z) (k : kernel) : list obj := filter (fun x => rt_tick k < D x) (timer_list k).

(** What firing the first due timer does to the due timers and the others. *)
Lemma fire_due k k1 D D1 x l :
  x ∉ l -> timer_list k = x :: l -> D x <= rt_tick k -> rt_tick k1 = rt_tick k ->
  (forall y, y <> x -> D1 y = D y /\ timers k1 !! y = timers k !! y) ->
  (if is_periodic k x then rt_tick k < D1 x /\ timer_list k1 ≡ₚ x :: l /\
     filter (fun y => y <> x) (timer_list k1) = l
   else timer_list k1 = l) ->
  due D k = x :: due D1 k1 /\
  late D1 k1 ≡ₚ (if is_periodic k x then [x] else []) ++ late D k.
Proof.
  intros Hxl Hl Hdue Ht Hoth Hper. unfold due, late. rewrite Hl, Ht.
  rewrite filter_cons_True by done. rewrite (filter_cons_False (fun y => rt_tick k < D y)) by lia.
  assert (forall y, y ∈ l -> D1 y = D y) as Hl1 by (intros y Hy; apply Hoth; by intros ->).
  destruct (is_periodic k x); [destruct Hper as (Hlt & Hp & Hf)|].
  - split.
    + f_equal. rewrite <- (filter_refine (fun y => D1 y <= rt_tick k) (fun y => y <> x));
        [|intros y _ Hy ->; lia].
      rewrite Hf. apply filter_same. intros y Hy. by rewrite Hl1.
    + rewrite Hp, filter_cons_True by done. simpl. f_equiv. apply reflexive_eq, filter_same.
      intros y Hy. by rewrite Hl1.
  - rewrite Hper. split; [f_equal|apply reflexive_eq]; apply filter_same; intros y Hy; by rewrite Hl1.
Qed.

Lemma check_loop_ok (Hquiet : timers_left_alone) b (fuel : nat) :
  forall D k, tlist_ok b D k -> (length (due D k) < fuel)%nat ->
  exists k' D', timer_check_loop fuel (rt_tick k) k = Some k' /\
    fires (due D k) k = Some k' /\ tlist_ok b D' k' /\ rt_tick k' = rt_tick k /\
    (forall x, x ∈ timer_list k' -> rt_tick k < D' x) /\
    timer_list k' ≡ₚ late D k ++ filter (fun x => is_periodic k x = true) (due D k).
Proof.
  induction fuel as [|fuel IH]; intros D k Hk Hf; [lia|].
  pose proof Hk as [Hw Hd Hs Hnd Hsv He _ _]. destruct (timer_list k) as [|x l] eqn:Hl.
  { exists k, D. unfold due, late. simpl. rewrite Hl. split_and!; try done. intros x Hx. by apply elem_of_nil in Hx. }
  destruct (Hd x ltac:(left)) as (tm & Hx & Hto & Hwx).
  assert ((u32 (rt_tick k - timeout_tick tm) <? RT_TICK_MAX / 2) = (D x <=? rt_tick k)) as Htest.
  { rewrite Hto. rewrite <- due_test by lia. by autorewrite with cint. }
  apply NoDup_cons in Hnd as [Hxl Hnd].
  destruct (Z.leb_spec (D x) (rt_tick k)) as [Hdue|Hlate].
  - destruct (fire_ok Hquiet b D k x l Hk Hl Hdue) as (k1 & D1 & Hfire & Hk1 & Ht1 & Hoth & Hper).
    destruct (fire_due k k1 D D1 x l Hxl Hl Hdue Ht1 Hoth Hper) as [Hdue1 Hlate1].
    rewrite Hdue1 in Hf |- *. simpl in Hf.
    destruct (IH D1 k1 Hk1 ltac:(lia)) as (k' & D' & Hloop & Hfires & Hk' & Ht' & Hall & Hperm).
    exists k', D'. rewrite Ht1 in *. split; [|split_and!; try done].
    + rewrite (loop_step fuel _ x l k tm k1); try done. by rewrite Ht1.
    + simpl. by rewrite Hfire.
    + rewrite Hperm, Hlate1. 
      assert (filter (fun y => is_periodic k1 y = true) (due D1 k1) = filter (fun y => is_periodic k y = true) (due D1 k1)) as ->.
      { apply filter_same. intros y Hy. unfold is_periodic. destruct (decide (y = x)) as [->|Hyx]; [|by rewrite (proj2 (Hoth y Hyx))].
        exfalso. assert (x ∈ due D k) as Hin by (rewrite Hdue1; left).
        assert (NoDup (due D k)) as Hnd'.
        { unfold due. rewrite Hl. apply NoDup_filter. by apply NoDup_cons. }
        rewrite Hdue1 in Hnd'. by apply NoDup_cons in Hnd' as [? _]. }
      destruct (is_periodic k x) eqn:Ep.
      * rewrite filter_cons_True by done. simpl. by rewrite <- Permutation_middle.
      * rewrite filter_cons_False by (by rewrite Ep). done.
  - assert (forall y, y ∈ x :: l -> rt_tick k < D y) as Hall.
    { intros y Hy. apply elem_of_cons in Hy as [->|Hy]; [done|].
      apply StronglySorted_inv in Hs as [_ Hs]. rewrite Forall_forall in Hs. specialize (Hs y Hy).
      unfold by_deadline in Hs. lia. }
    assert (due D k = []) as Hdn.
    { unfold due. rewrite Hl. apply filter_none. intros y Hy Hn. specialize (Hall y Hy). lia. }
    rewrite Hdn. exists k, D. cbn [timer_check_loop]. rewrite Hl, Hx, some_bind, Htest.
    split_and!; try done. unfold late. rewrite Hl, filter_all by done. simpl. by rewrite app_nil_r.
Qed.

End Check.

(** A kernel in which thread 1 sleeps until tick 5 and a periodic timer of the
    application is due at tick 4; it is tick 6 now. *)
Definition demo_sleep : kernel := default demo_kernel (rt_thread_sleep 5 demo_kernel).

Definition demo_due : kernel :=
  {| demo_sleep with rt_tick := 6; timers := <[Obj 9 := demo_timer 4 9 3]> (timers demo_sleep);
                     timer_list := [Obj 9; TimerOf 1] |}.

Definition due_deadline (x : obj) : Z := match x with Obj 9 => 4 | _ => 5 end.

Lemma due_kernel_ok k n x tm l : kernel_ok k -> is_timer tm = true ->
  kernel_ok {| k with rt_tick := n; timers := <[x := tm]> (timers k); timer_list := l |}.
Proof.
  intros Hk Hi. apply (kernel_ok_timers k); [done|by split_and!|]. by eapply timers_ok_insert.
Qed.

Lemma demo_due_ok : kernel_ok demo_due.
Proof.
  apply due_kernel_ok; [|reflexivity].
  unfold demo_sleep. destruct (rt_thread_sleep 5 demo_kernel) as [k|] eqn:E; [|exact demo_kernel_ok].
  exact (proj1 (safe_sleep _ _ _ E demo_kernel_ok)).
Qed.

Lemma demo_due_timers x : x ∈ timer_list demo_due -> x = Obj 9 \/ x = TimerOf 1.
Proof. change (timer_list demo_due) with [Obj 9; TimerOf 1]. set_solver. Qed.

Lemma demo_due_list : tlist_ok 0 due_deadline demo_due.
Proof.
  split.
  - change (rt_tick demo_due) with 6. change WINDOW with 2147483647. lia.
  - intros x [-> | ->]%demo_due_timers; (eexists; split; [vm_compute; reflexivity|]);
      (split; [vm_compute; reflexivity|]); change WINDOW with 2147483647; simpl; lia.
  - change (timer_list demo_due) with [Obj 9; TimerOf 1]. repeat constructor. unfold by_deadline. simpl. lia.
  - change (timer_list demo_due) with [Obj 9; TimerOf 1]. apply (bool_decide_unpack _). vm_compute. exact I.
  - intros x tm [-> | ->]%demo_due_timers Htm; vm_compute in Htm; injection Htm as <-;
      (split; [reflexivity|]); (split; [reflexivity|]); cbn [tm_func].
    + intros _. split; [reflexivity|]. change (rt_tick demo_due) with 6. change WINDOW with 2147483647. simpl. lia.
    + split; [reflexivity|]. split; [reflexivity|]. unfold suspended.
      destruct (threads demo_due !! 1) as [th|] eqn:E; [|vm_compute in E; discriminate].
      exists th. split; [reflexivity|]. vm_compute in E. by injection E as <-.
  - vm_compute. reflexivity.
  - exact demo_due_ok.
  - exists 2. vm_compute. reflexivity.
Qed.

(** ** Properties *)

(** C24: the tick interrupt's [rt_timer_check] returns after as many rounds as
    hard timers are due, having fired exactly the timers whose deadline is not
    later than now, once each and in the order of their deadlines: a one-shot
    timer is off the list, a periodic one back in it with a deadline in the
    future, no timer left in the list is due, and the list is in order again.
    [tlist_ok] says from which states: the kernel is in order and a thread runs;
    no deadline is half the range of the tick away; a listed thread timer is that
    of a thread that waits, for which [rt_thread_timeout] is called, and a listed
    timer of the application has, if it is periodic, a period that is neither zero
    ([rt_timer_check_zero_period]) nor beyond the window.  The functions of the
    application's timers are taken to return and to touch neither timers, tick
    nor timed waits ([timers_left_alone]). *)
Theorem rt_timer_check_fires_due {CB : Callbacks} b D k :
  timers_left_alone -> tlist_ok b D k ->
  exists k' D', rt_timer_check (S (length (timer_list k))) k = Some k' /\
    fires (due D k) k = Some k' /\ tlist_ok b D' k' /\
    (forall x, x ∈ timer_list k' -> rt_tick k' < D' x) /\
    timer_list k' ≡ₚ late D k ++ filter (fun x => is_periodic k x = true) (due D k).
Proof.
  intros Hquiet Hk. destruct (check_loop_ok Hquiet b (S (length (timer_list k))) D k Hk) as (k' & D' & H1 & H2 & H3 & H4 & H5 & H6).
  { pose proof (length_filter (fun x => D x <= rt_tick k) (timer_list k)). unfold due. lia. }
  exists k', D'. rewrite H4. by split_and!.
Qed.

(** A function that does nothing but to note its parameter. *)
Definition demo_callbacks : Callbacks :=
  {| user_timeout f p k := Some {| k with rt_current_priority := p |}; user_cleanup f t k := Some k |}.

Lemma rt_timer_check_fires_due_witness : exists k',
  @rt_timer_check demo_callbacks 3 demo_due = Some k' /\
  @fires demo_callbacks [Obj 9; TimerOf 1] demo_due = Some k' /\
  timer_list k' ≡ₚ [Obj 9].
Proof.
  destruct (@rt_timer_check_fires_due demo_callbacks 0 due_deadline demo_due) as (k' & D' & H1 & H2 & _ & _ & H3).
  - intros f p k Hk Hc. eexists. split; [reflexivity|]. split; try reflexivity; [|done].
    apply safe_calm; [by split_and!|by apply steady_fields].
  - exact demo_due_list.
  - exists k'. split; [exact H1|]. split; [exact H2|]. exact H3.
Defined.

(** A periodic timer of zero ticks, which rt_timer_start accepts, is due again
    as soon as it is restarted: rt_timer_check, in the tick interrupt, never
    returns. *)
Definition zero_period : kernel :=
  {| (boot_kernel demo_heap) with
       timers := {[ Obj 1 := {| tm_parent := {| name := []; type := RT_Object_Class_Timer; flag := 3 |};
                                tm_func := user_timeout_func 0 0; tm_init_tick := 0; timeout_tick := 0 |} ]};
       timer_list := [Obj 1] |}.

Lemma rt_timer_check_zero_period fuel : @rt_timer_check demo_callbacks fuel zero_period = None.
Proof.
  unfold rt_timer_check. induction fuel as [|fuel IH]; [reflexivity|].
  rewrite <- IH. cbn [timer_check_loop]. reflexivity.
Qed.
