(* ===== verification/Semaphore.v ===== *)
(** * Semaphores (rt-thread/src/ipc.c)

    The semaphore at address [o] is a record next to the kernel; its waiting
    threads are in [QSuspend o]. *)
From S2P Require Import Prelude Mem Kernel Sched Timer Ipc.

Definition RT_SEM_VALUE_MAX : Z := 65535.

Record rt_semaphore := { sem_parent : rt_object; value : Z }.

Definition null_sem : rt_semaphore := {| sem_parent := null_object; value := 0 |}.

Definition rt_sem_init (o : Z) (s : rt_semaphore) (nm : list Z) (v fl : Z) (k : kernel)
  : option (Z * rt_semaphore * kernel) :=
  _ ← assert (v <? 0x10000);
  '(ob, k) ← rt_object_init (Obj o) (sem_parent s) RT_Object_Class_Semaphore nm k;
  Some (RT_EOK, {| sem_parent := set_flag fl ob; value := u16 v |}, set_queue (QSuspend o) [] k).

Definition rt_sem_detach (o : Z) (s : rt_semaphore) (k : kernel) : option (Z * rt_semaphore * kernel) :=
  _ ← assert (is_class RT_Object_Class_Semaphore (sem_parent s));
  _ ← assert (rt_object_is_systemobject (sem_parent s));
  k ← rt_ipc_list_resume_all (QSuspend o) k;
  let '(ob, k) := rt_object_detach (Obj o) (sem_parent s) k in
  Some (RT_EOK, {| s with sem_parent := ob |}, k).

Definition rt_sem_create (nm : list Z) (v fl : Z) (k : kernel)
  : option (option (Z * rt_semaphore) * kernel) :=
  _ ← RT_DEBUG_NOT_IN_INTERRUPT k;
  _ ← assert (v <? 0x10000);
  '(r, k) ← rt_object_allocate RT_Object_Class_Semaphore nm k;
  match r with
  | None => Some (None, k)
  | Some (o, ob) =>
      Some (Some (o, {| sem_parent := set_flag fl ob; value := u16 v |}), set_queue (QSuspend o) [] k)
  end.

Definition rt_sem_delete (o : Z) (s : rt_semaphore) (k : kernel) : option (Z * kernel) :=
  _ ← RT_DEBUG_NOT_IN_INTERRUPT k;
  _ ← assert (is_class RT_Object_Class_Semaphore (sem_parent s));
  _ ← assert (negb (rt_object_is_systemobject (sem_parent s)));
  k ← rt_ipc_list_resume_all (QSuspend o) k;
  '(_, k) ← rt_object_delete o (sem_parent s) k;
  Some (RT_EOK, k).

Definition rt_sem_take (o : Z) (s : rt_semaphore) (time : Z) (k : kernel)
  : option (outcome * rt_semaphore * kernel) :=
  _ ← assert (is_class RT_Object_Class_Semaphore (sem_parent s));
  if 0 <? value s then Some (Returned RT_EOK, {| s with value := u16 (value s - 1) |}, k)
  else if time =? 0 then Some (Returned (- RT_ETIMEOUT), s, k)
  else
    _ ← RT_DEBUG_IN_THREAD_CONTEXT k;
    t ← rt_thread_self k;
    k ← upd_thread t (set_error RT_EOK) k;
    k ← ipc_wait (QSuspend o) t (flag (sem_parent s)) time k;
    Some (Waiting, s, k).

(** The thread that waited runs again and returns its error. *)
Definition rt_sem_take_end (t : Z) (k : kernel) : option Z :=
  th ← threads k !! t;
  if negb (error th =? RT_EOK) then Some (error th) else Some RT_EOK.

Definition rt_sem_trytake (o : Z) (s : rt_semaphore) (k : kernel)
  : option (outcome * rt_semaphore * kernel) := rt_sem_take o s 0 k.

Definition rt_sem_release (o : Z) (s : rt_semaphore) (k : kernel) : option (Z * rt_semaphore * kernel) :=
  _ ← assert (is_class RT_Object_Class_Semaphore (sem_parent s));
  match queues k (QSuspend o) with
  | _ :: _ =>
      k ← rt_ipc_list_resume (QSuspend o) k;
      k ← rt_schedule k;
      Some (RT_EOK, s, k)
  | [] =>
      if value s <? RT_SEM_VALUE_MAX then Some (RT_EOK, {| s with value := u16 (value s + 1) |}, k)
      else Some (- RT_EFULL, s, k)
  end.

Definition rt_sem_control (o : Z) (s : rt_semaphore) (cmd arg : Z) (k : kernel)
  : option (Z * rt_semaphore * kernel) :=
  _ ← assert (is_class RT_Object_Class_Semaphore (sem_parent s));
  if cmd =? RT_IPC_CMD_RESET then
    k ← rt_ipc_list_resume_all (QSuspend o) k;
    k ← rt_schedule k;
    Some (RT_EOK, {| s with value := u16 arg |}, k)
  else Some (- RT_ERROR, s, k).

(** ** The invariant *)

(** A semaphore with permits has no waiting thread, and a thread that waits has
    no error. *)
Record sem_ok (o : Z) (s : rt_semaphore) (k : kernel) : Prop := {
  so_class : is_class RT_Object_Class_Semaphore (sem_parent s) = true;
  so_flag : flag (sem_parent s) = RT_IPC_FLAG_FIFO \/ flag (sem_parent s) = RT_IPC_FLAG_PRIO;
  so_value : 0 <= value s <= RT_SEM_VALUE_MAX;
  so_waiters : 0 < value s -> queues k (QSuspend o) = [];
  so_errors : waiting_fine k (QSuspend o)
}.

Lemma u16_small z : 0 <= z <= RT_SEM_VALUE_MAX -> u16 z = z.
Proof. intros H. apply wrap_id. unfold fits, RT_SEM_VALUE_MAX in *. lia. Qed.

Lemma sem_set_value o s k v : sem_ok o s k -> 0 <= v <= RT_SEM_VALUE_MAX ->
  (0 < v -> queues k (QSuspend o) = []) -> sem_ok o {| s with value := v |} k.
Proof. by intros []. Qed.

Lemma sem_wait_ok o s k c cth time : sem_ok o s k -> can_block k c cth -> time < WINDOW ->
  value s = 0 -> time <> 0 ->
  exists k' l', rt_sem_take o s time k = Some (Waiting, s, k') /\
    placed k c (current_priority cth) (queues k (QSuspend o)) (flag (sem_parent s)) l' /\
    blocked (reset_error c cth k) k' c (QSuspend o) l' /\ sem_ok o s k'.
Proof.
  intros Hs Hcb Hw Hv Ht. pose proof Hs as [Hcl Hfl _ _ Herr].
  unfold rt_sem_take. rewrite Hcl, Hv, (proj2 (Z.eqb_neq _ _) Ht). cbn [assert Z.ltb Z.compare]. rewrite some_bind.
  pose proof Hcb as [_ Hcu Hct _ _ Hn _ _]. pose proof (reset_error_can_block k c cth Hcb) as [E1 Hcb1].
  unfold RT_DEBUG_IN_THREAD_CONTEXT, RT_DEBUG_NOT_IN_INTERRUPT, rt_interrupt_get_nest, rt_thread_self.
  rewrite Hcu, !some_bind, Hn. cbn [assert Z.eqb]. rewrite some_bind, E1, some_bind.
  destruct (ipc_wait_ok _ c _ (QSuspend o) (flag (sem_parent s)) time Hcb1 eq_refl Hfl Hw) as (k' & l' & E & Hpl & Hb).
  exists k', l'. rewrite E, some_bind. split; [done|].
  split; [|split; [done|]].
  - apply (placed_ext k (reset_error c cth k)); [|exact Hpl]. intros x Hx. simpl. rewrite lookup_insert_ne; [done|].
    intros ->. by apply (can_block_not_waiting k x cth (QSuspend o)).
  - split; try done; [by destruct Hs|lia|]. apply (blocked_fine k k' c cth _ l'); [done..| |done].
    by eapply placed_permutation.
Qed.

Lemma sem_hand_over o s k c w l : sem_ok o s k -> kernel_ok k -> timing_ok k -> current_thread k = Some c ->
  queues k (QSuspend o) = w :: l ->
  exists k', rt_sem_release o s k = Some (RT_EOK, s, k') /\ woken k k' (QSuspend o) w l /\
    sem_ok o s k' /\ rt_sem_take_end w k' = Some RT_EOK.
Proof.
  intros Hs Hk Htk Hcu Hq. pose proof Hs as [Hcl _ _ Hw Herr].
  destruct (wake_ok k c (QSuspend o) w l Hk Htk Hcu eq_refl Hq) as (k' & E & Hwk).
  unfold rt_sem_release. rewrite Hcl. cbn [assert]. rewrite some_bind, Hq.
  destruct (rt_ipc_list_resume _ k) as [k1|]; [|done]. simpl in E. rewrite some_bind, E, some_bind.
  exists k'. split; [done|]. split; [done|]. destruct (woken_fine k k' _ w l Herr Hq Hwk) as (Hf & th & Hth & He). split.
  - split; try (by destruct Hs). intros Hv. rewrite (Hw Hv) in Hq. done.
  - unfold rt_sem_take_end. by rewrite Hth, some_bind, He.
Qed.

(** Activity that adds no waiting thread and leaves the errors of those there. *)
Lemma sem_ok_mono o s k k' : sem_ok o s k ->
  (forall w, w ∈ queues k' (QSuspend o) -> w ∈ queues k (QSuspend o)) ->
  (forall w th, w ∈ queues k' (QSuspend o) -> threads k !! w = Some th ->
     exists th', threads k' !! w = Some th' /\ error th' = error th) ->
  sem_ok o s k'.
Proof.
  intros [H1 H2 H3 H4 H5] Hin He. split; try done; [|by apply (waiting_fine_mono k)].
  intros Hv. specialize (H4 Hv). destruct (queues k' _) as [|w l]; [done|].
  specialize (Hin w). rewrite H4 in Hin. exfalso. eapply not_elem_of_nil, Hin. left.
Qed.

(** ** Runs *)
(** What can happen to a semaphore: takes and releases, waits that time out,
    and anything else that leaves its waiting threads and its value alone.  The
    label counts the permits released and those granted, to the caller or to a
    thread that waited. *)
Inductive sem_step (o : Z) : rt_semaphore * kernel -> Z * Z -> rt_semaphore * kernel -> Prop :=
| sem_take s k c cth time r s' k' :
    can_block k c cth -> time < WINDOW -> rt_sem_take o s time k = Some (r, s', k') ->
    sem_step o (s, k) (0, granted r) (s', k')
| sem_release s k c e s' k' :
    current_thread k = Some c -> rt_sem_release o s k = Some (e, s', k') ->
    sem_step o (s, k)
      (granted (Returned e), lenZ (queues k (QSuspend o)) - lenZ (queues k' (QSuspend o))) (s', k')
| sem_timeout s k c w k' :
    current_thread k = Some c -> w ∈ queues k (QSuspend o) -> rt_thread_timeout w k = Some k' ->
    sem_step o (s, k) (0, 0) (s, k')
| sem_other s k k' :
    kernel_ok k' -> timing_ok k' -> queues k' (QSuspend o) = queues k (QSuspend o) ->
    (forall w th, w ∈ queues k (QSuspend o) -> threads k !! w = Some th ->
       exists th', threads k' !! w = Some th' /\ error th' = error th) ->
    sem_step o (s, k) (0, 0) (s, k').

(** From [x0], with so many permits released and granted since. *)
Inductive sem_reach (o : Z) (x0 : rt_semaphore * kernel) : Z -> Z -> rt_semaphore * kernel -> Prop :=
| sem_start : sem_reach o x0 0 0 x0
| sem_next rel gr x d x' :
    sem_reach o x0 rel gr x -> sem_step o x d x' -> sem_reach o x0 (rel + fst d) (gr + snd d) x'.

Record sem_world_ok (o : Z) (x : rt_semaphore * kernel) : Prop := {
  sw_sem : sem_ok o (fst x) (snd x);
  sw_kernel : kernel_ok (snd x);
  sw_timing : timing_ok (snd x)
}.

Lemma sem_take_now o s k c cth time : sem_ok o s k -> can_block k c cth ->
  0 < value s \/ time = 0 ->
  rt_sem_take o s time k =
    if 0 <? value s then Some (Returned RT_EOK, {| s with value := value s - 1 |}, k)
    else Some (Returned (- RT_ETIMEOUT), s, k).
Proof.
  intros [Hcl _ Hv _ _] _ Hor. unfold rt_sem_take. rewrite Hcl. cbn [assert]. rewrite some_bind.
  case_cmp; [by rewrite u16_small by lia|]. destruct Hor as [| ->]; [lia|done].
Qed.

Lemma sem_release_free o s k : sem_ok o s k -> queues k (QSuspend o) = [] ->
  rt_sem_release o s k =
    if value s <? RT_SEM_VALUE_MAX then Some (RT_EOK, {| s with value := value s + 1 |}, k)
    else Some (- RT_EFULL, s, k).
Proof.
  intros [Hcl _ Hv _ _] Hq. unfold rt_sem_release. rewrite Hcl. cbn [assert]. rewrite some_bind, Hq.
  case_cmp; [|done]. by rewrite u16_small by lia.
Qed.

Lemma sem_step_ok o x d x' : sem_world_ok o x -> sem_step o x d x' ->
  sem_world_ok o x' /\ value (fst x') + snd d = value (fst x) + fst d.
Proof.
  intros [Hs Hk Htk] Hstep. destruct Hstep as [s k c cth time r s' k' Hcb Hw E|s k c e s' k' Hcu E|s k c w k' Hcu Hin E|s k k' Hk' Htk' Hq Herr];
    simpl in *.
  - destruct (Z.ltb_spec 0 (value s)) as [Hv|Hv]; [|destruct (Z.eq_dec time 0) as [->|Ht]].
    + rewrite (sem_take_now o s k c cth time) in E by auto. rewrite (proj2 (Z.ltb_lt _ _) Hv) in E. simplify_eq.
      simpl. split; [|lia]. split; try done. apply sem_set_value; [done| |]; destruct Hs as [_ _ Hb Hwt _]; simpl; [lia|].
      intros _. by apply Hwt.
    + rewrite (sem_take_now o s k c cth 0) in E by auto. rewrite (proj2 (Z.ltb_ge _ _) Hv) in E. simplify_eq. by split; [|simpl; lia].
    + assert (value s = 0) as Hz by (destruct Hs as [_ _ Hb _ _]; lia).
      destruct (sem_wait_ok o s k c cth time Hs Hcb Hw Hz Ht) as (k1 & l' & E1 & _ & Hb & Hs1).
      rewrite E in E1. simplify_eq. simpl. split; [|lia]. split; [done|apply Hb|apply Hb].
  - destruct (queues k (QSuspend o)) as [|w l] eqn:Hq.
    + rewrite (sem_release_free o s k Hs Hq) in E. destruct (Z.ltb_spec (value s) RT_SEM_VALUE_MAX); simplify_eq; simpl; rewrite ?Hq.
      * split; [|unfold lenZ; simpl; lia]. split; try done. apply sem_set_value; [done| |done].
        destruct Hs as [_ _ Hb _ _]. simpl. lia.
      * split; [by split|unfold lenZ; simpl; lia].
    + destruct (sem_hand_over o s k c w l Hs Hk Htk Hcu Hq) as (k1 & E1 & Hwk & Hs1 & _).
      rewrite E in E1. simplify_eq. simpl. rewrite (wk_queue _ _ _ _ _ Hwk).
      split; [|unfold lenZ; simpl; lia]. split; [done|apply Hwk|apply Hwk].
  - destruct (wait_timeout_ok k c (QSuspend o) w Hk Htk Hcu eq_refl Hin)
      as (k1 & E1 & Hk1 & Htk1 & Hq1 & _ & _ & Hx1 & _). rewrite E in E1. simplify_eq. split; [|lia].
    split; [|done|done]. apply (sem_ok_mono o s k); [done| |].
    + intros x Hx. simpl in Hx. rewrite Hq1 in Hx. by apply list_elem_of_filter in Hx as [_ Hx].
    + intros x th Hx Hth. simpl in Hx. rewrite Hq1 in Hx. apply list_elem_of_filter in Hx as [Hne _]. by apply Hx1.
  - split; [|lia]. split; [|done|done]. apply (sem_ok_mono o s k); [done|simpl; by rewrite Hq|].
    intros x th Hx. simpl in Hx. rewrite Hq in Hx. by apply Herr.
Qed.

(** ** Properties *)

(** C32: taking a semaphore.  With a permit, [rt_sem_take] takes it at once and
    touches nothing else; without one it returns -RT_ETIMEOUT when it may not
    wait, and else the caller waits in its place in the semaphore's list (the
    end, or by priority) with its error cleared, another thread runs, and no
    permit appears. *)
Theorem rt_sem_take_spec o s k c cth time :
  sem_ok o s k -> can_block k c cth -> time < WINDOW ->
  (0 < value s -> rt_sem_take o s time k = Some (Returned RT_EOK, {| s with value := value s - 1 |}, k) /\
                  sem_ok o {| s with value := value s - 1 |} k) /\
  (value s = 0 -> time = 0 -> rt_sem_take o s time k = Some (Returned (- RT_ETIMEOUT), s, k)) /\
  (value s = 0 -> time <> 0 -> exists k' l',
     rt_sem_take o s time k = Some (Waiting, s, k') /\
     placed k c (current_priority cth) (queues k (QSuspend o)) (flag (sem_parent s)) l' /\
     blocked (reset_error c cth k) k' c (QSuspend o) l' /\ sem_ok o s k').
Proof.
  intros Hs Hcb Hw. pose proof Hs as [Hcl _ Hv Hwt _]. unfold RT_SEM_VALUE_MAX in Hv. split; [|split].
  - intros Hpos. unfold rt_sem_take. rewrite Hcl. cbn [assert]. rewrite some_bind, (proj2 (Z.ltb_lt _ _) Hpos).
    rewrite u16_small by (unfold RT_SEM_VALUE_MAX; lia). split; [done|].
    apply sem_set_value; [done|unfold RT_SEM_VALUE_MAX; lia|]. intros _. by apply Hwt.
  - intros Hz ->. unfold rt_sem_take. rewrite Hcl, Hz. done.
  - intros Hz Ht. by apply sem_wait_ok.
Qed.

(** A semaphore at address 500 with no permit, and the kernel after thread 1 of
    the demonstration kernel has begun to wait for it. *)
Definition demo_sem (v : Z) : rt_semaphore :=
  {| sem_parent := {| name := bytes "sem"; type := Z.lor RT_Object_Class_Static RT_Object_Class_Semaphore;
                      flag := RT_IPC_FLAG_PRIO |}; value := v |}.

Lemma demo_sem_ok v : 0 <= v <= 10 -> sem_ok 500 (demo_sem v) demo_kernel.
Proof.
  intros Hv. assert (queues demo_kernel (QSuspend 500) = []) as Hq by (vm_compute; reflexivity).
  split; rewrite ?Hq; [reflexivity|right; reflexivity|simpl; unfold RT_SEM_VALUE_MAX; lia|reflexivity|].
  by apply waiting_fine_nil.
Qed.

Lemma rt_sem_take_spec_witness : exists k' l',
  rt_sem_take 500 (demo_sem 0) 7 demo_kernel = Some (Waiting, demo_sem 0, k') /\
  queues k' (QSuspend 500) = l' /\ placed demo_kernel 1 (current_priority demo_current) [] RT_IPC_FLAG_PRIO l' /\
  rt_sem_take 500 (demo_sem 1) 7 demo_kernel = Some (Returned RT_EOK, demo_sem 0, demo_kernel).
Proof.
  destruct (rt_sem_take_spec 500 (demo_sem 0) demo_kernel 1 demo_current 7) as (_ & _ & H).
  - apply demo_sem_ok. lia.
  - exact demo_can_block.
  - reflexivity.
  - destruct (rt_sem_take_spec 500 (demo_sem 1) demo_kernel 1 demo_current 7) as (H1 & _ & _);
      [apply demo_sem_ok; lia|exact demo_can_block|reflexivity|].
    destruct H as (k' & l' & E & Hpl & Hb & _); [reflexivity|lia|].
    exists k', l'. split; [exact E|]. split; [exact (bl_queue _ _ _ _ _ Hb)|]. split; [exact Hpl|].
    exact (proj1 (H1 ltac:(simpl; lia))).
Defined.

(** Releasing a semaphore hands the permit to the first waiting thread,
    whose take then succeeds, without it ever being stored; with nobody waiting
    the permit is stored, and the 65536th is refused with -RT_EFULL, the state
    unchanged. *)
Lemma rt_sem_release_spec o s k c :
  sem_ok o s k -> kernel_ok k -> timing_ok k -> current_thread k = Some c ->
  match queues k (QSuspend o) with
  | w :: l => exists k', rt_sem_release o s k = Some (RT_EOK, s, k') /\ woken k k' (QSuspend o) w l /\
      sem_ok o s k' /\ rt_sem_take_end w k' = Some RT_EOK
  | [] =>
      if value s <? RT_SEM_VALUE_MAX then
        rt_sem_release o s k = Some (RT_EOK, {| s with value := value s + 1 |}, k) /\
        sem_ok o {| s with value := value s + 1 |} k
      else rt_sem_release o s k = Some (- RT_EFULL, s, k)
  end.
Proof.
  intros Hs Hk Htk Hcu. destruct (queues k (QSuspend o)) as [|w l] eqn:Hq; [|by eapply sem_hand_over].
  pose proof Hs as [Hcl _ Hv _ _]. unfold rt_sem_release. rewrite Hcl. cbn [assert]. rewrite some_bind, Hq.
  case_cmp; [|done]. rewrite u16_small by lia. split; [done|]. apply sem_set_value; [done|lia|done].
Qed.


Lemma rt_sem_release_spec_witness :
  rt_sem_release 500 (demo_sem 3) demo_kernel = Some (RT_EOK, demo_sem 4, demo_kernel).
Proof.
  pose proof (rt_sem_release_spec 500 (demo_sem 3) demo_kernel 1) as H.
  assert (queues demo_kernel (QSuspend 500) = []) as Hq by (vm_compute; reflexivity).
  rewrite Hq in H. apply H; [apply demo_sem_ok; lia|exact demo_kernel_ok|exact demo_timing|vm_compute; reflexivity].
Defined.

(** C15: permits are neither lost nor made.  Whatever sequence of takes,
    releases, time-outs and other activity follows, the permits stored are those
    there at the start plus those released minus those granted, their number
    stays between 0 and 65535, and no thread waits while a permit is there. *)
Theorem semaphore_conserves o s0 k0 rel gr s k :
  sem_ok o s0 k0 -> kernel_ok k0 -> timing_ok k0 -> sem_reach o (s0, k0) rel gr (s, k) ->
  value s + gr = value s0 + rel /\ 0 <= value s <= RT_SEM_VALUE_MAX /\
  (0 < value s -> queues k (QSuspend o) = []) /\ kernel_ok k.
Proof.
  intros Hs Hk Htk Hr.
  assert (sem_world_ok o (s, k) /\ value (fst (s, k)) + gr = value (fst (s0, k0)) + rel) as [[Hs' Hk' _] Hc].
  { induction Hr as [|rel gr x d x' _ [IH1 IH2] Hstep]; [by split; [|simpl; lia]|].
    destruct (sem_step_ok o x d x' IH1 Hstep). split; [done|]. lia. }
  destruct Hs' as [_ _ H3 H4 _]. exact (conj Hc (conj H3 (conj H4 Hk'))).
Qed.

Lemma semaphore_conserves_witness : exists k s,
  sem_reach 500 (demo_sem 1, demo_kernel) 1 1 (s, k) /\ value s = 1.
Proof.
  assert (sem_ok 500 (demo_sem 1) demo_kernel) as Hs by (apply demo_sem_ok; lia).
  assert (exists d, d = 0 /\ sem_step 500 (demo_sem 0, demo_kernel) (1, d) (demo_sem 1, demo_kernel)) as (d & -> & H2).
  { eexists. split; [|apply (sem_release 500 (demo_sem 0) demo_kernel 1 RT_EOK); [vm_compute; reflexivity|]].
    - apply Z.sub_diag.
    - rewrite (sem_release_free 500); [reflexivity|apply demo_sem_ok; lia|vm_compute; reflexivity]. }
  assert (sem_step 500 (demo_sem 1, demo_kernel) (0, 1) (demo_sem 0, demo_kernel)) as H1.
  { apply (sem_take 500 (demo_sem 1) demo_kernel 1 demo_current 7 (Returned RT_EOK));
      [exact demo_can_block|reflexivity|reflexivity]. }
  pose proof (sem_next _ _ _ _ _ _ _ (sem_next _ _ _ _ _ _ _ (sem_start 500 (demo_sem 1, demo_kernel)) H1) H2) as Hr.
  destruct (semaphore_conserves 500 (demo_sem 1) demo_kernel 1 1 (demo_sem 1) demo_kernel Hs demo_kernel_ok demo_timing Hr)
    as (Hc & _).
  exists demo_kernel, (demo_sem 1). split; [exact Hr|]. simpl in Hc |- *. lia.
Defined.
