(* ===== verification/Mutex.v ===== *)
(** * Mutexes (rt-thread/src/ipc.c)

    The mutex at address [o] is a record next to the kernel; its waiting threads
    are in [QSuspend o].  A thread that waits lends its priority to the owner. *)
From S2P Require Import Prelude Mem Kernel Sched Timer Ipc.

Definition RT_MUTEX_VALUE_MAX : Z := 65535.
Definition RT_MUTEX_HOLD_MAX : Z := 255.

Record rt_mutex := {
  mtx_parent : rt_object;
  mtx_value : Z;                (** uint16 *)
  original_priority : Z;        (** uint8 *)
  hold : Z;                     (** uint8 *)
  owner : option Z
}.

Definition mutex_fields (ob : rt_object) : rt_mutex :=
  {| mtx_parent := ob; mtx_value := 1; original_priority := 0xFF; hold := 0; owner := None |}.

Definition rt_mutex_init (o : Z) (m : rt_mutex) (nm : list Z) (fl : Z) (k : kernel)
  : option (Z * rt_mutex * kernel) :=
  '(ob, k) ← rt_object_init (Obj o) (mtx_parent m) RT_Object_Class_Mutex nm k;
  Some (RT_EOK, mutex_fields (set_flag fl ob), set_queue (QSuspend o) [] k).

Definition rt_mutex_detach (o : Z) (m : rt_mutex) (k : kernel) : option (Z * rt_mutex * kernel) :=
  _ ← assert (is_class RT_Object_Class_Mutex (mtx_parent m));
  _ ← assert (rt_object_is_systemobject (mtx_parent m));
  k ← rt_ipc_list_resume_all (QSuspend o) k;
  let '(ob, k) := rt_object_detach (Obj o) (mtx_parent m) k in
  Some (RT_EOK, {| m with mtx_parent := ob |}, k).

Definition rt_mutex_create (nm : list Z) (fl : Z) (k : kernel)
  : option (option (Z * rt_mutex) * kernel) :=
  _ ← RT_DEBUG_NOT_IN_INTERRUPT k;
  '(r, k) ← rt_object_allocate RT_Object_Class_Mutex nm k;
  match r with
  | None => Some (None, k)
  | Some (o, ob) => Some (Some (o, mutex_fields (set_flag fl ob)), set_queue (QSuspend o) [] k)
  end.

Definition rt_mutex_delete (o : Z) (m : rt_mutex) (k : kernel) : option (Z * kernel) :=
  _ ← RT_DEBUG_NOT_IN_INTERRUPT k;
  _ ← assert (is_class RT_Object_Class_Mutex (mtx_parent m));
  _ ← assert (negb (rt_object_is_systemobject (mtx_parent m)));
  k ← rt_ipc_list_resume_all (QSuspend o) k;
  '(_, k) ← rt_object_delete o (mtx_parent m) k;
  Some (RT_EOK, k).

(** The waiting thread lends its priority to the owner. *)
Definition lend_priority (t : Z) (m : rt_mutex) (k : kernel) : option kernel :=
  th ← threads k !! t;
  w ← owner m;
  wth ← threads k !! w;
  if current_priority th <? current_priority wth
  then change_priority w (u8 (current_priority th)) k else Some k.

Definition rt_mutex_take (o : Z) (m : rt_mutex) (time : Z) (k : kernel)
  : option (outcome * rt_mutex * kernel) :=
  _ ← RT_DEBUG_IN_THREAD_CONTEXT k;
  _ ← assert (is_class RT_Object_Class_Mutex (mtx_parent m));
  t ← rt_thread_self k;
  k ← upd_thread t (set_error RT_EOK) k;
  if bool_decide (owner m = Some t) then
    if hold m <? RT_MUTEX_HOLD_MAX
    then Some (Returned RT_EOK, {| m with hold := u8 (hold m + 1) |}, k)
    else Some (Returned (- RT_EFULL), m, k)
  else if 0 <? mtx_value m then
    th ← threads k !! t;
    let m := {| m with mtx_value := u16 (mtx_value m - 1); owner := Some t;
                       original_priority := current_priority th |} in
    if hold m <? RT_MUTEX_HOLD_MAX
    then Some (Returned RT_EOK, {| m with hold := u8 (hold m + 1) |}, k)
    else Some (Returned (- RT_EFULL), m, k)
  else if time =? 0 then
    k ← upd_thread t (set_error (- RT_ETIMEOUT)) k;
    Some (Returned (- RT_ETIMEOUT), m, k)
  else
    k ← lend_priority t m k;
    k ← ipc_wait (QSuspend o) t (flag (mtx_parent m)) time k;
    Some (Waiting, m, k).

(** The thread that waited runs again: without an error the mutex is its own. *)
Definition rt_mutex_take_end (t : Z) (k : kernel) : option Z :=
  th ← threads k !! t;
  if negb (error th =? RT_EOK) then Some (error th) else Some RT_EOK.

(** The part of a release that gives the mutex up. *)
Definition mutex_give_up (o : Z) (m : rt_mutex) (k : kernel) : option (Z * rt_mutex * kernel) :=
  w ← owner m;
  wth ← threads k !! w;
  k ← (if negb (original_priority m =? current_priority wth)
       then change_priority w (original_priority m) k else Some k);
  match queues k (QSuspend o) with
  | t :: _ =>
      th ← threads k !! t;
      let m := {| m with owner := Some t; original_priority := current_priority th |} in
      if hold m <? RT_MUTEX_HOLD_MAX then
        let m := {| m with hold := u8 (hold m + 1) |} in
        k ← rt_ipc_list_resume (QSuspend o) k;
        k ← rt_schedule k;
        Some (RT_EOK, m, k)
      else Some (- RT_EFULL, m, k)
  | [] =>
      if mtx_value m <? RT_MUTEX_VALUE_MAX then
        Some (RT_EOK, {| m with mtx_value := u16 (mtx_value m + 1); owner := None;
                                original_priority := 0xff |}, k)
      else Some (- RT_EFULL, m, k)
  end.

Definition rt_mutex_release (o : Z) (m : rt_mutex) (k : kernel) : option (Z * rt_mutex * kernel) :=
  _ ← assert (is_class RT_Object_Class_Mutex (mtx_parent m));
  _ ← RT_DEBUG_IN_THREAD_CONTEXT k;
  t ← rt_thread_self k;
  if negb (bool_decide (owner m = Some t)) then
    k ← upd_thread t (set_error (- RT_ERROR)) k;
    Some (- RT_ERROR, m, k)
  else
    let m := {| m with hold := u8 (hold m - 1) |} in
    if hold m =? 0 then mutex_give_up o m k else Some (RT_EOK, m, k).

Definition rt_mutex_control (o : Z) (m : rt_mutex) (cmd arg : Z) : option Z :=
  _ ← assert (is_class RT_Object_Class_Mutex (mtx_parent m)); Some (- RT_ERROR).

(** ** Changing the priority of a thread and the waiting lists *)
Lemma remove_thread_queues t k k' q : rt_schedule_remove_thread t k = Some k' ->
  queues k' q = filter (fun x => x <> t) (queues k q).
Proof.
  unfold rt_schedule_remove_thread. destruct (threads k !! t); [|done]. rewrite some_bind. cbv zeta.
  by destruct (queues (tlist_remove t k) _); intros [= <-].
Qed.

Lemma insert_thread_queues t th k k' : rt_schedule_insert_thread t k = Some k' -> threads k !! t = Some th ->
  current_thread k <> Some t ->
  queues k' = queues (push_back (QReady (current_priority th)) t k) /\
  threads k' = <[t := with_state RT_THREAD_READY th]> (threads k).
Proof.
  intros E Ht Hc. unfold rt_schedule_insert_thread in E. rewrite Ht, some_bind, bool_decide_false in E by done.
  rewrite (upd_thread_some t th), some_bind in E by done. by simplify_eq.
Qed.

(** The thread keeps its state, and only the ready lists change. *)
Record reprioritised (k k' : kernel) (t : Z) (th : rt_thread) (p : Z) : Prop := {
  rp_kernel : kernel_ok k';
  rp_thread : exists th', threads k' !! t = Some th' /\ current_priority th' = p /\
    state_of th' = state_of th /\ error th' = error th /\ th_parent th' = th_parent th;
  rp_others : forall x, x <> t -> threads k' !! x = threads k !! x;
  rp_waiting : forall q, queue_state q <> RT_THREAD_READY -> queues k' q = queues k q;
  rp_ready : ready_group k <> 0 -> ready_group k' <> 0;
  rp_current : current_thread k' = current_thread k;
  rp_lock : lock_nest k' = lock_nest k;
  rp_timing : same_timing k k'
}.

Lemma change_priority_reprioritised k t th p : kernel_ok k -> threads k !! t = Some th ->
  0 <= p < RT_THREAD_PRIORITY_MAX -> is_thread th = true ->
  exists k', change_priority t p k = Some k' /\ reprioritised k k' t th p.
Proof.
  intros Hk Ht Hp Hth. pose proof Hk as [Hs Hst Hex]. pose proof Hs as [Hi Hc Ho].
  destruct (change_priority_ok k t th p Hs Ht Hp Hth) as (k' & E & Hs' & Ht' & Hne & Hcu & Hl & Htm).
  exists k'. split; [done|].
  assert (kernel_ok k') as Hk' by (by apply (priority_kernel_ok k k' t p)).
  unfold change_priority in E. rewrite Ht, some_bind, Hth in E. cbn [assert] in E. rewrite some_bind in E.
  destruct (Z.eqb_spec (state_of th) RT_THREAD_READY) as [Hr|Hr].
  - destruct (rt_schedule_remove_thread t k) as [k1|] eqn:E1; [|done]. rewrite some_bind in E.
    pose proof (remove_thread_frame _ _ _ E1) as [F1 C1]. pose proof (remove_thread_timing _ _ _ E1) as T1.
    rewrite (upd_thread_some t th), some_bind in E by (by rewrite F1). set (k2 := {| k1 with threads := _ |}) in E.
    assert (threads k2 !! t = Some (set_priority p th)) as H2 by (simpl; by rewrite lookup_insert_eq).
    assert (current_thread k2 <> Some t) as Hnt.
    { simpl. rewrite C1. intros Hcur. by apply (Hc t th). }
    pose proof (insert_thread_timing _ _ _ E) as T3.
    destruct (insert_thread_queues _ _ _ _ E H2 Hnt) as [Q3 F3].
    split; try done.
    + exists (with_state RT_THREAD_READY (set_priority p th)). rewrite F3, lookup_insert_eq.
      split_and!; try done. by rewrite state_with_state.
    + intros q Hq. rewrite Q3. simpl. rewrite decide_False by (by intros ->).
      rewrite (remove_thread_queues _ _ _ _ E1). apply filter_nil_iff. eapply (not_queued [] k); [done..|].
      rewrite Hr. intros Heq. by apply Hq.
    + intros _. apply (ready_group_nonzero k' p); [apply Hs'|]. rewrite Q3. simpl. rewrite decide_True by done.
      intros Hn. by apply app_nil in Hn as [_ Hn].
    + etrans; [exact T1|]. transitivity k2; [by split|done].
  - rewrite (upd_thread_some t th) in E by done. simplify_eq. split; try done.
    exists (set_priority p th). simpl. rewrite lookup_insert_eq. by split_and!.
Qed.

Lemma reprioritised_same k t th : kernel_ok k -> threads k !! t = Some th ->
  reprioritised k k t th (current_priority th).
Proof. intros Hk Ht. split; try done. by exists th. Qed.

Lemma reprioritised_can_block k k' t th p c cth : can_block k c cth -> reprioritised k k' t th p -> t <> c ->
  can_block k' c cth.
Proof.
  intros [Hk Hcu Hct Hr Hl Hn Hg Htk] [Hk' _ Hne _ Hg' Hcu' Hl' Ht'] Htc. split; try done; try congruence.
  - by rewrite Hne.
  - rewrite (st_nest _ _ Ht'). done.
  - by apply Hg'.
  - by apply (timing_same k).
Qed.

(** ** Priorities *)
Definition prio (k : kernel) (x : Z) : option Z := current_priority <$> threads k !! x.

Lemma prio_lookup k x th : threads k !! x = Some th -> prio k x = Some (current_priority th).
Proof. unfold prio. by intros ->. Qed.

Definition prio_le (k : kernel) (x y : Z) : Prop :=
  forall p q, prio k x = Some p -> prio k y = Some q -> p <= q.

Lemma prio_stat_only k k' x : stat_only k k' -> prio k' x = prio k x.
Proof.
  intros Hs. specialize (Hs x). unfold prio.
  destruct (threads k' !! x), (threads k !! x); simpl in *; try done. f_equal.
  injection Hs as Hs. congruence.
Qed.

Lemma sorted_prio_ext k k' l : (forall x, x ∈ l -> prio k' x = prio k x) ->
  StronglySorted (prio_le k) l -> StronglySorted (prio_le k') l.
Proof.
  intros He. induction 1 as [|x l Hs IH Hx]; constructor.
  - apply IH. intros y Hy. apply He. by right.
  - rewrite Forall_forall in *. intros y Hy p q. rewrite !He by first [by right | by left]. by apply Hx.
Qed.

(** A list in the order of priorities stays so when a thread gets its place. *)
Lemma placed_sorted k t p l l' : prio k t = Some p -> (forall x, x ∈ l -> is_Some (prio k x)) ->
  StronglySorted (prio_le k) l ->
  placed k t p l RT_IPC_FLAG_PRIO l' -> StronglySorted (prio_le k) l'.
Proof.
  intros Ht Hex Hs Hpl. inversion Hpl as [|l1 l2 -> H1 H2]; subst.
  assert (StronglySorted (prio_le k) l1 /\ StronglySorted (prio_le k) l2 /\
          (forall x y, x ∈ l1 -> y ∈ l2 -> prio_le k x y)) as (Hs1 & Hs2 & Hs12).
  { clear - Hs. induction l1 as [|x l1 IH]; simpl in Hs.
    - split; [constructor|]. split; [done|]. intros x y Hx. by apply elem_of_nil in Hx.
    - apply StronglySorted_inv in Hs as [Hs Hx]. destruct (IH Hs) as (A & B & C).
      apply Forall_app in Hx as [Hx1 Hx2]. split; [by constructor|]. split; [done|].
      intros y z Hy Hz. apply elem_of_cons in Hy as [->|Hy]; [|by apply C].
      rewrite Forall_forall in Hx2. by apply Hx2. }
  assert (forall x, x ∈ l1 -> prio_le k x t) as A.
  { intros x Hx px pt Hpx Hpt. unfold prio in Hpx. destruct (threads k !! x) as [th|] eqn:E; [|done].
    simpl in Hpx. simplify_eq. by apply (H1 x). }
  assert (forall y, y ∈ l2 -> prio_le k t y) as B.
  { intros y Hy pt py Hpt Hpy. destruct l2 as [|z l2]; [by apply elem_of_nil in Hy|].
    assert (exists pz, prio k z = Some pz /\ p < pz) as (pz & Hpz & Hlt).
    { destruct (Hex z) as [pz Hpz]; [apply elem_of_app; right; left|]. exists pz. split; [done|].
      unfold prio in Hpz. destruct (threads k !! z) as [th|] eqn:E; [|done]. simpl in Hpz. simplify_eq. by apply (H2 z). }
    simplify_eq. apply elem_of_cons in Hy as [->|Hy]; [simplify_eq; lia|].
    apply StronglySorted_inv in Hs2 as [_ Hz]. rewrite Forall_forall in Hz. specialize (Hz y Hy _ _ Hpz Hpy). lia. }
  apply sorted_app; [done| |].
  - constructor; [done|]. by apply Forall_forall.
  - intros x y Hx Hy. apply elem_of_cons in Hy as [->|Hy]; [by apply A|by apply Hs12].
Qed.

(** ** The invariant *)
Record mutex_ok (o : Z) (m : rt_mutex) (k : kernel) : Prop := {
  mo_class : is_class RT_Object_Class_Mutex (mtx_parent m) = true;
  mo_flag : flag (mtx_parent m) = RT_IPC_FLAG_FIFO \/ flag (mtx_parent m) = RT_IPC_FLAG_PRIO;
  mo_free : owner m = None -> m = mutex_fields (mtx_parent m) /\ queues k (QSuspend o) = [];
  mo_held : forall w, owner m = Some w ->
    mtx_value m = 0 /\ 1 <= hold m <= RT_MUTEX_HOLD_MAX /\
    0 <= original_priority m < RT_THREAD_PRIORITY_MAX /\ w ∉ queues k (QSuspend o) /\
    exists wth, threads k !! w = Some wth /\ is_thread wth = true;
  mo_errors : forall x, x ∈ queues k (QSuspend o) -> exists th, threads k !! x = Some th /\ error th = RT_EOK;
  mo_sorted : flag (mtx_parent m) = RT_IPC_FLAG_PRIO -> StronglySorted (prio_le k) (queues k (QSuspend o));
  mo_inherit : flag (mtx_parent m) = RT_IPC_FLAG_PRIO ->
    forall w x, owner m = Some w -> x ∈ queues k (QSuspend o) -> prio_le k w x
}.

Lemma waiter_prio k q x : inv_but [] k -> x ∈ queues k q -> is_Some (prio k x).
Proof. intros Hi Hx. destruct (si_queue [] k Hi q x Hx) as (th & H & _). unfold prio. rewrite H. by eexists. Qed.

Lemma thread_prio_range k t th : inv_but [] k -> threads k !! t = Some th -> active th = true ->
  0 <= current_priority th < RT_THREAD_PRIORITY_MAX.
Proof. intros Hi Ht Hs. apply (si_prio [] k Hi t th); [apply not_elem_of_nil|done|done]. Qed.

Lemma u8_small z : 0 <= z <= RT_MUTEX_HOLD_MAX -> u8 z = z.
Proof. intros H. apply wrap_id. unfold fits, RT_MUTEX_HOLD_MAX in *. lia. Qed.

Lemma u8_prio z : 0 <= z < RT_THREAD_PRIORITY_MAX -> u8 z = z.
Proof. intros H. apply wrap_id. unfold fits, RT_THREAD_PRIORITY_MAX in *. lia. Qed.

Lemma restore_ok k c cth p : kernel_ok k -> threads k !! c = Some cth -> is_thread cth = true ->
  0 <= p < RT_THREAD_PRIORITY_MAX ->
  exists k', (if negb (p =? current_priority cth) then change_priority c p k else Some k) = Some k' /\
    reprioritised k k' c cth p.
Proof.
  intros Hk Hc Hth Hp. destruct (Z.eqb_spec p (current_priority cth)) as [->|Hne]; simpl.
  - exists k. split; [done|]. by apply reprioritised_same.
  - by apply change_priority_reprioritised.
Qed.

Lemma lend_priority_ok k m c cth w wth : kernel_ok k -> threads k !! c = Some cth -> active cth = true ->
  owner m = Some w -> threads k !! w = Some wth -> is_thread wth = true ->
  exists k', lend_priority c m k = Some k' /\
    reprioritised k k' w wth (Z.min (current_priority cth) (current_priority wth)).
Proof.
  intros Hk Hc Hs Hw Ht Hth. pose proof (thread_prio_range k c cth (sv_inv _ (ko_sched _ Hk)) Hc Hs) as Hr.
  unfold lend_priority. rewrite Hc, some_bind, Hw, some_bind, Ht, some_bind. case_cmp.
  - rewrite Z.min_l, u8_prio by (lia || done). by apply change_priority_reprioritised.
  - rewrite Z.min_r by lia. exists k. split; [done|]. by apply reprioritised_same.
Qed.

(** Threads keep their kind, and all but [c] their error. *)
Definition same_threads (k k' : kernel) (c : Z) : Prop :=
  forall x th, threads k !! x = Some th -> exists th', threads k' !! x = Some th' /\
    th_parent th' = th_parent th /\ (x <> c -> error th' = error th).

Lemma same_threads_trans k1 k2 k3 c : same_threads k1 k2 c -> same_threads k2 k3 c -> same_threads k1 k3 c.
Proof.
  intros H12 H23 x th Hx. destruct (H12 x th Hx) as (th2 & Hx2 & Hp2 & He2).
  destruct (H23 x th2 Hx2) as (th3 & Hx3 & Hp3 & He3). exists th3. split; [done|]. split; [congruence|].
  intros Hc. by rewrite He3, He2.
Qed.

Lemma stat_only_same k k' c : stat_only k k' -> same_threads k k' c.
Proof.
  intros Hs x th Hx. destruct (stat_only_lookup _ _ _ _ Hs Hx) as (th' & H1 & H2). exists th'.
  split; [done|]. by rewrite H2.
Qed.

Lemma reset_same k c cth : threads k !! c = Some cth -> same_threads k (reset_error c cth k) c.
Proof.
  intros Hc x th Hx. simpl. destruct (decide (x = c)) as [->|].
  - rewrite lookup_insert_eq. simplify_eq. by eexists.
  - rewrite lookup_insert_ne by done. by eexists.
Qed.

Lemma reprioritised_same_threads k k' t th p c : threads k !! t = Some th ->
  reprioritised k k' t th p -> same_threads k k' c.
Proof.
  intros Ht Hrp x xth Hx. destruct (decide (x = t)) as [->|Hne].
  - destruct (rp_thread _ _ _ _ _ Hrp) as (th' & Ht' & _ & _ & He & Hp). simplify_eq. by exists th'.
  - exists xth. by rewrite (rp_others _ _ _ _ _ Hrp).
Qed.

(** The invariant does not look at anything else. *)
Lemma mutex_ok_same o m k k' c : mutex_ok o m k -> same_threads k k' c -> c ∉ queues k (QSuspend o) ->
  queues k' (QSuspend o) = queues k (QSuspend o) ->
  (forall x, x ∈ queues k (QSuspend o) \/ owner m = Some x -> prio k' x = prio k x) -> mutex_ok o m k'.
Proof.
  intros [Hcl Hfl Hfree Hheld Herr Hso Hin] Hst Hc Hq Hp. split; try done; rewrite Hq; try done.
  - intros w Hw. destruct (Hheld w Hw) as (Hv & Hh & Ho & Hnq & wth & Hwt & Hth). do 4 (split; [done|]).
    destruct (Hst w wth Hwt) as (wth' & Hwt' & Hpa & _). exists wth'. split; [done|].
    unfold is_thread in *. by rewrite Hpa.
  - intros x Hx. destruct (Herr x Hx) as (th & Hth & He). destruct (Hst x th Hth) as (th' & Hth' & _ & He').
    exists th'. split; [done|]. rewrite He'; [done|]. intros ->. done.
  - intros Hf. apply (sorted_prio_ext k); [|by apply Hso]. intros x Hx. apply Hp. by left.
  - intros Hf w x Hw Hx p q. rewrite !Hp by first [by right | by left]. by apply (Hin Hf w x Hw Hx).
Qed.

(** ** Taking *)

(** The thread [c] now waits for the mutex that [w] owns, and has lent it its
    priority. *)
Record waits_for (o : Z) (m : rt_mutex) (k k' : kernel) (c : Z) (cth : rt_thread) (w : Z) (wth : rt_thread) : Prop := {
  wf_queue : placed k c (current_priority cth) (queues k (QSuspend o)) (flag (mtx_parent m)) (queues k' (QSuspend o));
  wf_owner : prio k' w = Some (Z.min (current_priority cth) (current_priority wth));
  wf_prio : forall x, x <> w -> prio k' x = prio k x;
  wf_self : exists cth', threads k' !! c = Some cth' /\ state_of cth' = RT_THREAD_SUSPEND /\ error cth' = RT_EOK;
  wf_same : same_threads k k' c;
  wf_next : exists n nth, current_thread k' = Some n /\ n <> c /\ threads k' !! n = Some nth /\
              state_of nth = RT_THREAD_RUNNING;
  wf_kernel : kernel_ok k';
  wf_timing : timing_ok k'
}.

Lemma prio_reset k c cth x : threads k !! c = Some cth -> prio (reset_error c cth k) x = prio k x.
Proof.
  intros Hc. unfold prio. simpl. destruct (decide (x = c)) as [->|].
  - by rewrite lookup_insert_eq, Hc.
  - by rewrite lookup_insert_ne.
Qed.

Lemma prio_reprioritised k k' t th p x : reprioritised k k' t th p ->
  prio k' x = if decide (x = t) then Some p else prio k x.
Proof.
  intros [_ (th' & Ht & Hp & _) Hne _ _ _ _ _]. unfold prio. destruct (decide (x = t)) as [->|].
  - by rewrite Ht, <- Hp.
  - by rewrite Hne.
Qed.

(** The steps of a take before it looks at the mutex. *)
Ltac take_start Hctx Hcl Hself Herr :=
  unfold rt_mutex_take; rewrite Hctx, some_bind, Hcl; cbn [assert]; rewrite some_bind, Hself, some_bind, Herr, some_bind.

Lemma mutex_wait_ok o m k c cth time w wth : mutex_ok o m k -> can_block k c cth -> time < WINDOW -> time <> 0 ->
  owner m = Some w -> w <> c -> threads k !! w = Some wth ->
  exists k', rt_mutex_take o m time k = Some (Waiting, m, k') /\ waits_for o m k k' c cth w wth.
Proof.
  intros [Hcl Hfl _ Hheld _ _ _] Hcb Hti Htn Hw Hwc Hwt.
  destruct (Hheld w Hw) as (Hv & _ & _ & Hnq & wth0 & Hwt0 & Hth). simplify_eq.
  pose proof (cb_thread _ _ _ Hcb) as Hct. destruct (thread_context k c cth Hcb) as [Ectx Eself].
  destruct (reset_error_can_block k c cth Hcb) as [E0 Hcb0]. set (k0 := reset_error c cth k) in *.
  assert (threads k0 !! w = Some wth) as Hw0 by (simpl; by rewrite lookup_insert_ne).
  destruct (lend_priority_ok k0 m c (set_error RT_EOK cth) w wth) as (k1 & E1 & Hrp); try done;
    [apply Hcb0|apply Hcb0|unfold active; by rewrite (cb_running _ _ _ Hcb0)|].
  pose proof (reprioritised_can_block _ _ _ _ _ _ _ Hcb0 Hrp Hwc) as Hcb1.
  destruct (ipc_wait_ok k1 c _ (QSuspend o) (flag (mtx_parent m)) time Hcb1 eq_refl Hfl Hti) as (k' & l' & E & Hpl & Hb).
  exists k'. split.
  { take_start Ectx Hcl Eself E0.
    rewrite bool_decide_false by congruence. rewrite Hv. cbn [Z.ltb Z.compare].
    rewrite (proj2 (Z.eqb_neq _ _) Htn), E1, some_bind, E, some_bind. done. }
  pose proof (rp_waiting _ _ _ _ _ Hrp (QSuspend o) ltac:(done)) as Hq1. change (queues k0) with (queues k) in Hq1.
  rewrite Hq1 in Hpl. destruct Hb as [Hk' Hq' _ Hso Hself Hnext Htk' _ _].
  assert (same_threads k0 k' c) as Hsame.
  { apply (same_threads_trans _ k1); [by eapply reprioritised_same_threads|by apply stat_only_same]. }
  split; try done.
  - rewrite Hq'. apply (placed_ext k k1); [|exact Hpl]. intros x Hx.
    rewrite (rp_others _ _ _ _ _ Hrp) by (intros ->; done). simpl. rewrite lookup_insert_ne; [done|].
    intros ->. by apply (can_block_not_waiting k x cth (QSuspend o)).
  - rewrite (prio_stat_only _ _ _ Hso), (prio_reprioritised _ _ _ _ _ _ Hrp). by rewrite decide_True.
  - intros x Hx. rewrite (prio_stat_only _ _ _ Hso), (prio_reprioritised _ _ _ _ _ _ Hrp), decide_False by done.
    by apply prio_reset.
  - destruct Hself as (cth' & Hc' & Hs'). exists cth'. split; [done|]. split; [done|].
    assert (threads k1 !! c = Some (set_error RT_EOK cth)) as Hc1 by apply Hcb1.
    destruct (stat_only_error _ _ _ _ Hso Hc1) as (cth2 & Hc2 & He2).
    rewrite Hc2 in Hc'. by injection Hc' as <-.
  - apply (same_threads_trans _ k0); [by apply reset_same|done].
Qed.

Lemma waits_for_ok o m k k' c cth w wth : mutex_ok o m k -> inv_but [] k -> threads k !! c = Some cth ->
  c ∉ queues k (QSuspend o) -> owner m = Some w -> w <> c -> threads k !! w = Some wth ->
  waits_for o m k k' c cth w wth -> mutex_ok o m k'.
Proof.
  intros [Hcl Hfl Hfree Hheld Herr Hso Hin] Hi Hct Hcq Hw Hwc Hwt [Hpl Hpw Hpo Hself Hsame _ _ _].
  destruct (Hheld w Hw) as (Hv & Hh & Ho & Hnq & wth0 & Hwt0 & Hth). simplify_eq.
  pose proof (placed_permutation _ _ _ _ _ _ Hpl) as Hperm.
  assert (w ∉ queues k' (QSuspend o)) as Hnq'.
  { rewrite Hperm. by apply not_elem_of_cons. }
  assert (prio k c = Some (current_priority cth)) as Hpc by (unfold prio; by rewrite Hct).
  split; try done.
  - congruence.
  - intros w' Hw'. simplify_eq. do 4 (split; [done|]).
    destruct (Hsame _ _ Hwt) as (wth' & Hwt' & Hpa & _). exists wth'. split; [done|].
    unfold is_thread in *. by rewrite Hpa.
  - intros x Hx. rewrite Hperm in Hx. apply elem_of_cons in Hx as [->|Hx].
    { destruct Hself as (cth' & H1 & _ & H2). by exists cth'. }
    destruct (Herr x Hx) as (th & Hx1 & He). destruct (Hsame x th Hx1) as (th' & H1 & _ & H2).
    exists th'. split; [done|]. rewrite H2; [done|]. by intros ->.
  - intros Hf. rewrite Hf in Hpl. apply (sorted_prio_ext k).
    { intros x Hx. apply Hpo. by intros ->. }
    apply (placed_sorted k c (current_priority cth) (queues k (QSuspend o))); [done| |by apply Hso|done].
    intros x Hx. by eapply waiter_prio.
  - intros Hf w' x Hw' Hx p q Hp Hq. assert (w' = w) as -> by congruence. simplify_eq. rewrite Hpo in Hq by (by intros ->).
    rewrite Hperm in Hx. apply elem_of_cons in Hx as [->|Hx]; [simplify_eq; lia|].
    assert (current_priority wth <= q); [|lia]. apply (Hin Hf w x Hw Hx); [|done].
    unfold prio. by rewrite Hwt.
Qed.

(** ** Releasing *)

(** The kernel in which the priority of [c] is [p] and [m] is released by
    nobody yet. *)
Lemma mutex_ok_reprioritised o m k k1 c cth p : mutex_ok o m k -> threads k !! c = Some cth ->
  c ∉ queues k (QSuspend o) -> reprioritised k k1 c cth p ->
  queues k1 (QSuspend o) = queues k (QSuspend o) /\
  (forall x, x ∈ queues k (QSuspend o) -> exists th, threads k1 !! x = Some th /\ error th = RT_EOK) /\
  (flag (mtx_parent m) = RT_IPC_FLAG_PRIO -> StronglySorted (prio_le k1) (queues k (QSuspend o))).
Proof.
  intros [_ _ _ _ Herr Hso _] Hct Hcq Hrp. split; [by apply (rp_waiting _ _ _ _ _ Hrp)|]. split.
  - intros x Hx. rewrite (rp_others _ _ _ _ _ Hrp); [by apply Herr|]. by intros ->.
  - intros Hf. apply (sorted_prio_ext k); [|by apply Hso]. intros x Hx.
    rewrite (prio_reprioritised _ _ _ _ _ _ Hrp), decide_False; [done|]. by intros ->.
Qed.

(** The mutex goes to the first waiting thread [t]. *)
Record handed_over (o : Z) (m m' : rt_mutex) (k k' : kernel) (c t : Z) (l : list Z) : Prop := {
  ho_mutex : exists p, prio k t = Some p /\
    m' = {| m with owner := Some t; original_priority := p; hold := 1 |};
  ho_queue : queues k' (QSuspend o) = l;
  ho_runs : runs k' t;
  ho_result : rt_mutex_take_end t k' = Some RT_EOK;
  ho_restored : prio k' c = Some (original_priority m);
  ho_others : forall x, x <> c -> prio k' x = prio k x;
  ho_ok : mutex_ok o m' k';
  ho_same : same_threads k k' c;
  ho_kernel : kernel_ok k';
  ho_timing : timing_ok k'
}.

Lemma sorted_head k x l : StronglySorted (prio_le k) (x :: l) ->
  StronglySorted (prio_le k) l /\ forall y, y ∈ l -> prio_le k x y.
Proof.
  intros [Hs Hx]%StronglySorted_inv. split; [done|]. by rewrite Forall_forall in Hx.
Qed.

Lemma mutex_hand_over o m k c cth t l : mutex_ok o m k -> kernel_ok k -> timing_ok k -> current_thread k = Some c ->
  threads k !! c = Some cth -> owner m = Some c -> hold m = 1 -> queues k (QSuspend o) = t :: l ->
  exists m' k', mutex_give_up o {| m with hold := 0 |} k = Some (RT_EOK, m', k') /\
    handed_over o m m' k k' c t l.
Proof.
  intros Hm Hk Htk Hcu Hct Ho Hh Hq. pose proof Hm as [Hcl Hfl _ Hheld _ _ _].
  destruct (Hheld c Ho) as (Hv & _ & Hop & Hcq & cth0 & Hct0 & Hth). simplify_eq.
  destruct (restore_ok k c cth (original_priority m) Hk Hct Hth Hop) as (k1 & E1 & Hrp).
  destruct (mutex_ok_reprioritised o m k k1 c cth _ Hm Hct Hcq Hrp) as (Hq1 & Herr1 & Hso1).
  pose proof Hrp as [Hk1 _ Hoth _ _ Hcu1 _ Htim].
  assert (timing_ok k1) as Htk1 by (by apply (timing_same k)).
  assert (current_thread k1 = Some c) as Hcu1' by congruence.
  destruct (wake_ok k1 c (QSuspend o) t l Hk1 Htk1 Hcu1' eq_refl) as (k' & E' & Hwk); [congruence|].
  pose proof (sv_inv _ (ko_sched _ Hk1)) as Hi1. rewrite Hq in Hq1, Herr1, Hso1, Hcq.
  destruct (si_queue [] k1 Hi1 (QSuspend o) t) as (th & Ht & Hs & _); [rewrite Hq1; left|]. simpl in Hs.
  assert (t <> c) as Htc by (intros ->; apply Hcq; left).
  assert (0 <= current_priority th < RT_THREAD_PRIORITY_MAX) as Hpt by (apply (thread_prio_range k1 t th); [done..|unfold active; by rewrite Hs]).
  assert (is_thread th = true) as Htt.
  { apply (sv_objs _ (ko_sched _ Hk1) t th Ht). unfold active. by rewrite Hs. }
  destruct Hwk as [Hk' Hq' _ Hso' Hr' Htk' _ _].
  exists {| m with owner := Some t; original_priority := current_priority th; hold := 1 |}, k'. split.
  { unfold mutex_give_up. simpl. rewrite Ho, some_bind, Hct, some_bind, E1, some_bind, Hq1, Ht, some_bind.
    destruct (rt_ipc_list_resume _ k1) as [k2|]; [|done]. simpl in E'. simpl. by rewrite E', some_bind. }
  assert (forall x, prio k' x = if decide (x = c) then Some (original_priority m) else prio k x) as Hpr.
  { intros x. by rewrite (prio_stat_only _ _ _ Hso'), (prio_reprioritised _ _ _ _ _ _ Hrp). }
  assert (forall x, x ∈ t :: l -> exists th', threads k' !! x = Some th' /\ error th' = RT_EOK) as Herr'.
  { intros x Hx. destruct (Herr1 x Hx) as (xth & H1 & H2).
    destruct (stat_only_error _ _ _ _ Hso' H1) as (xth' & H3 & H4). exists xth'. by rewrite H4. }
  assert (flag (mtx_parent m) = RT_IPC_FLAG_PRIO -> StronglySorted (prio_le k') l /\ forall y, y ∈ l -> prio_le k' t y) as Hsl.
  { intros Hf. apply sorted_head, (sorted_prio_ext k1); [|by apply Hso1]. intros x _. by apply prio_stat_only. }
  assert (prio k t = Some (current_priority th)) as Hpkt.
  { unfold prio. by rewrite <- (rp_others _ _ _ _ _ Hrp t Htc), Ht. }
  split; try done.
  - exists (current_priority th). by split.
  - destruct (Herr' t) as (th' & H1 & H2); [left|]. unfold rt_mutex_take_end. by rewrite H1, some_bind, H2.
  - by rewrite Hpr, decide_True.
  - intros x Hx. by rewrite Hpr, decide_False.
  - split; simpl; try done; rewrite ?Hq'.
    + intros w Hw. injection Hw as <-.
      assert (t ∉ l) as Htl by (pose proof (si_nodup [] k1 Hi1 (QSuspend o)) as Hnd; rewrite Hq1 in Hnd; by apply NoDup_cons in Hnd as []).
      destruct (stat_only_lookup _ _ _ _ Hso' Ht) as (th' & H1 & H2).
      split; [done|]. split; [done|]. split; [done|]. split; [done|]. exists th'. split; [done|].
      rewrite H2. exact Htt.
    + intros x Hx. apply Herr'. by right.
    + intros Hf. by apply Hsl.
    + intros Hf w x Hw Hx. injection Hw as <-. by apply Hsl.
  - apply (same_threads_trans _ k1); [by eapply reprioritised_same_threads|by apply stat_only_same].
Qed.

(** ** Properties *)

Lemma mutex_reset_ok o m k c cth : mutex_ok o m k -> can_block k c cth -> mutex_ok o m (reset_error c cth k).
Proof.
  intros Hm Hcb. apply (mutex_ok_same o m k _ c Hm); [apply reset_same, Hcb| |done|].
  - by eapply can_block_not_waiting.
  - intros x _. apply prio_reset, Hcb.
Qed.

(** The mutex after thread [c] of priority [p] has taken it free. *)
Definition mutex_taken (m : rt_mutex) (c p : Z) : rt_mutex :=
  {| (mutex_fields (mtx_parent m)) with mtx_value := 0; owner := Some c; original_priority := p; hold := 1 |}.

Lemma mutex_taken_ok o m k c cth : mutex_ok o m k -> can_block k c cth -> owner m = None ->
  mutex_ok o (mutex_taken m c (current_priority cth)) (reset_error c cth k).
Proof.
  intros Hm Hcb Ho. destruct (mutex_reset_ok o m k c cth Hm Hcb) as [Hcl Hfl Hfree _ Herr _ _].
  destruct (Hfree Ho) as [_ Hq]. pose proof (sv_objs _ (ko_sched _ (cb_kernel _ _ _ Hcb))) as Hob.
  destruct (reset_error_can_block k c cth Hcb) as [_ [Hk' _ Hct' Hr' _ _ _ _]].
  split; rewrite ?Hq; try done.
  - intros w Hw. injection Hw as <-. split; [done|]. split; [done|]. split.
    + apply (thread_prio_range _ c _ (sv_inv _ (ko_sched _ Hk')) Hct'). unfold active. by rewrite Hr'.
    + split; [apply not_elem_of_nil|]. exists (set_error RT_EOK cth). split; [done|].
      apply (sv_objs _ (ko_sched _ Hk') c _ Hct'). unfold active. by rewrite Hr'.
  - intros x Hx. destruct (not_elem_of_nil x Hx).
  - intros _. constructor.
  - intros _ w x _ Hx. destruct (not_elem_of_nil x Hx).
Qed.

Lemma mutex_hold_ok o m k h : mutex_ok o m k -> (exists w, owner m = Some w) -> 1 <= h <= RT_MUTEX_HOLD_MAX ->
  mutex_ok o {| m with hold := h |} k.
Proof.
  intros [Hcl Hfl Hfree Hheld Herr Hso Hin] [w Hw] Hh. split; simpl; try done; [congruence|].
  intros v Hv. destruct (Hheld v Hv) as (H1 & _ & H3). exact (conj H1 (conj Hh H3)).
Qed.

(** Taking a mutex.  A free mutex goes to the caller, whose priority it
    remembers; the owner takes it again up to 255 times, and the next time is
    refused with -RT_EFULL; another thread gets -RT_ETIMEOUT when it may not
    wait, and else waits in its place while the owner runs with a priority at
    least as high as its own (and nobody else's priority changes).  The
    mutex stays well formed throughout: one owner, no waiter without owner, the
    waiting list in the order of priorities. *)
Lemma rt_mutex_take_spec o m k c cth time :
  mutex_ok o m k -> can_block k c cth -> time < WINDOW ->
  match owner m with
  | None =>
      rt_mutex_take o m time k =
        Some (Returned RT_EOK, mutex_taken m c (current_priority cth), reset_error c cth k) /\
      mutex_ok o (mutex_taken m c (current_priority cth)) (reset_error c cth k)
  | Some w =>
      if decide (w = c) then
        if hold m <? RT_MUTEX_HOLD_MAX then
          rt_mutex_take o m time k = Some (Returned RT_EOK, {| m with hold := hold m + 1 |}, reset_error c cth k) /\
          mutex_ok o {| m with hold := hold m + 1 |} (reset_error c cth k)
        else rt_mutex_take o m time k = Some (Returned (- RT_EFULL), m, reset_error c cth k)
      else if time =? 0 then
        rt_mutex_take o m time k =
          Some (Returned (- RT_ETIMEOUT), m,
                {| k with threads := <[c := set_error (- RT_ETIMEOUT) (set_error RT_EOK cth)]>
                                       (threads (reset_error c cth k)) |})
      else exists k' wth, threads k !! w = Some wth /\
        rt_mutex_take o m time k = Some (Waiting, m, k') /\
        waits_for o m k k' c cth w wth /\ mutex_ok o m k'
  end.
Proof.
  intros Hm Hcb Hti. pose proof Hm as [Hcl _ Hfree Hheld _ _ _].
  destruct (thread_context k c cth Hcb) as [Ectx Eself]. destruct (reset_error_can_block k c cth Hcb) as [E0 Hcb0].
  pose proof (cb_thread _ _ _ Hcb0) as Hc0.
  destruct (owner m) as [w|] eqn:Ho.
  - destruct (Hheld w eq_refl) as (Hv & Hh & _ & _ & wth & Hwt & _).
    destruct (decide (w = c)) as [->|Hwc].
    + take_start Ectx Hcl Eself E0.
      rewrite bool_decide_true by done. rewrite <- Ho. case_cmp; [|done]. rewrite u8_small by lia. split; [done|].
      apply mutex_hold_ok; [by apply mutex_reset_ok|by exists c|lia].
    + case_cmp.
      * take_start Ectx Hcl Eself E0.
        rewrite bool_decide_false by congruence. rewrite Hv. cbn [Z.ltb Z.compare].
        subst time. cbn [Z.eqb]. by rewrite (upd_thread_some c _ _ _ Hc0).
      * destruct (mutex_wait_ok o m k c cth time w wth) as (k' & E & Hw); [done..|].
        exists k', wth. split; [done|]. split; [done|]. split; [done|].
        eapply (waits_for_ok o m k k' c cth w wth); try done; [apply Hcb|apply Hcb|by eapply can_block_not_waiting].
  - destruct (Hfree eq_refl) as [Em _]. split; [|by apply mutex_taken_ok].
    take_start Ectx Hcl Eself E0.
    clear -Em Hc0. destruct m as [ob v p h ow]. unfold mutex_fields in Em. simpl in Em. injection Em as -> -> -> ->.
    cbn -[reset_error]. by rewrite Hc0, some_bind.
Qed.

(** A mutex at address 500 that the idle thread owns. *)
Definition demo_mutex : rt_mutex :=
  {| mtx_parent := {| name := bytes "mtx"; type := Z.lor RT_Object_Class_Static RT_Object_Class_Mutex;
                      flag := RT_IPC_FLAG_PRIO |};
     mtx_value := 0; original_priority := 31; hold := 1; owner := Some idle |}.

Definition demo_idle : rt_thread := default null_thread (threads demo_kernel !! idle).

Lemma demo_idle_lookup : threads demo_kernel !! idle = Some demo_idle.
Proof.
  unfold demo_idle. destruct (threads demo_kernel !! idle) eqn:E; [reflexivity|]. vm_compute in E. discriminate.
Qed.

Lemma demo_mutex_ok : mutex_ok 500 demo_mutex demo_kernel.
Proof.
  assert (queues demo_kernel (QSuspend 500) = []) as Hq by (vm_compute; reflexivity).
  split; rewrite ?Hq.
  - reflexivity.
  - right. reflexivity.
  - discriminate.
  - intros w Hw. injection Hw as <-. split; [reflexivity|]. split; [simpl; unfold RT_MUTEX_HOLD_MAX; lia|].
    split; [simpl; unfold RT_THREAD_PRIORITY_MAX; lia|]. split; [apply not_elem_of_nil|].
    exists demo_idle. split; [exact demo_idle_lookup|]. vm_compute. reflexivity.
  - intros x Hx. destruct (not_elem_of_nil x Hx).
  - intros _. constructor.
  - intros _ w x _ Hx. destruct (not_elem_of_nil x Hx).
Qed.

Lemma rt_mutex_take_spec_witness : exists k',
  rt_mutex_take 500 demo_mutex 7 demo_kernel = Some (Waiting, demo_mutex, k') /\
  prio demo_kernel idle = Some 31 /\ prio k' idle = Some 10.
Proof.
  pose proof (rt_mutex_take_spec 500 demo_mutex demo_kernel 1 demo_current 7 demo_mutex_ok demo_can_block eq_refl) as H.
  cbn [owner demo_mutex] in H. rewrite decide_False in H by discriminate. change (7 =? 0) with false in H. cbv iota in H.
  destruct H as (k' & wth & Hw & E & Hwf & _). exists k'. split; [exact E|].
  assert (prio demo_kernel idle = Some 31) as Hp by (vm_compute; reflexivity). split; [exact Hp|].
  rewrite (wf_owner _ _ _ _ _ _ _ _ Hwf). rewrite (prio_lookup _ _ _ Hw) in Hp. injection Hp as ->.
  vm_compute. reflexivity.
Defined.

Lemma mutex_give_up_free o m k c cth : mutex_ok o m k -> kernel_ok k -> threads k !! c = Some cth ->
  owner m = Some c -> queues k (QSuspend o) = [] ->
  exists k', mutex_give_up o {| m with hold := 0 |} k = Some (RT_EOK, mutex_fields (mtx_parent m), k') /\
    reprioritised k k' c cth (original_priority m) /\ mutex_ok o (mutex_fields (mtx_parent m)) k'.
Proof.
  intros Hm Hk Hct Ho Hq. pose proof Hm as [Hcl Hfl _ Hheld _ _ _].
  destruct (Hheld c Ho) as (Hv & _ & Hop & Hcq & cth0 & Hct0 & Hth). simplify_eq.
  destruct (restore_ok k c cth (original_priority m) Hk Hct Hth Hop) as (k1 & E1 & Hrp).
  destruct (mutex_ok_reprioritised o m k k1 c cth _ Hm Hct Hcq Hrp) as (Hq1 & Herr1 & Hso1).
  exists k1. split.
  { unfold mutex_give_up. simpl. rewrite Ho, some_bind, Hct, some_bind, E1, some_bind, Hq1, Hq, Hv. done. }
  split; [done|]. rewrite Hq in Hq1. split; try done; rewrite Hq1.
  - intros x Hx. destruct (not_elem_of_nil x Hx).
  - intros _. constructor.
Qed.

(** Releasing a mutex.  Only the owner may: anybody else gets -RT_ERROR
    and the mutex stays as it is.  A mutex taken several times is only counted
    down.  The last release gives the owner its priority back and, with nobody
    waiting, leaves the mutex as [rt_mutex_init] made it; else the first waiting
    thread becomes the owner, is ready to run and its own take returns
    RT_EOK. *)
Lemma rt_mutex_release_spec o m k c cth :
  mutex_ok o m k -> kernel_ok k -> timing_ok k -> current_thread k = Some c -> threads k !! c = Some cth ->
  interrupt_nest k = 0 ->
  if decide (owner m = Some c) then
    if 1 <? hold m then
      rt_mutex_release o m k = Some (RT_EOK, {| m with hold := hold m - 1 |}, k) /\
      mutex_ok o {| m with hold := hold m - 1 |} k
    else
      match queues k (QSuspend o) with
      | t :: l => exists m' k', rt_mutex_release o m k = Some (RT_EOK, m', k') /\ handed_over o m m' k k' c t l
      | [] => exists k', rt_mutex_release o m k = Some (RT_EOK, mutex_fields (mtx_parent m), k') /\
          reprioritised k k' c cth (original_priority m) /\ mutex_ok o (mutex_fields (mtx_parent m)) k'
      end
  else rt_mutex_release o m k =
    Some (- RT_ERROR, m, {| k with threads := <[c := set_error (- RT_ERROR) cth]> (threads k) |}).
Proof.
  intros Hm Hk Htk Hcu Hct Hn. pose proof Hm as [Hcl _ _ Hheld _ _ _].
  assert (forall A (f : Z -> option A), (_ ← RT_DEBUG_IN_THREAD_CONTEXT k; t ← rt_thread_self k; f t) = f c) as Hctx.
  { intros A f. unfold RT_DEBUG_IN_THREAD_CONTEXT, RT_DEBUG_NOT_IN_INTERRUPT, rt_interrupt_get_nest, rt_thread_self.
    by rewrite Hcu, some_bind, Hn. }
  unfold rt_mutex_release. rewrite Hcl. cbn [assert]. rewrite some_bind, Hctx. case_decide as Ho.
  - rewrite bool_decide_true by done. cbn [negb]. destruct (Hheld c Ho) as (_ & Hh & _). cbn [hold].
    rewrite u8_small by lia. destruct (Z.ltb_spec 1 (hold m)) as [H1|H1].
    + rewrite (proj2 (Z.eqb_neq _ _)) by lia. split; [done|]. apply mutex_hold_ok; [done|by exists c|lia].
    + replace (hold m) with 1 by lia. cbn [Z.sub Z.add Z.opp Z.pos_sub Z.eqb].
      destruct (queues k (QSuspend o)) as [|t l] eqn:Hq.
      * by apply mutex_give_up_free.
      * apply (mutex_hand_over o m k c cth); try done. lia.
  - rewrite bool_decide_false by done. cbn [negb]. by rewrite (upd_thread_some c cth).
Qed.

(** The mutex in the hands of thread 1, whose priority was 12 when it took it. *)
Definition demo_mutex_mine : rt_mutex := {| demo_mutex with original_priority := 12; owner := Some 1 |}.

Lemma demo_mutex_mine_ok : mutex_ok 500 demo_mutex_mine demo_kernel.
Proof.
  assert (queues demo_kernel (QSuspend 500) = []) as Hq by (vm_compute; reflexivity).
  destruct demo_mutex_ok as [H1 H2 _ _ H5 H6 _]. split; try assumption; rewrite ?Hq.
  - discriminate.
  - intros w Hw. injection Hw as <-. split; [reflexivity|]. split; [simpl; unfold RT_MUTEX_HOLD_MAX; lia|].
    split; [simpl; unfold RT_THREAD_PRIORITY_MAX; lia|]. split; [apply not_elem_of_nil|].
    exists demo_current. split; [exact demo_current_lookup|]. vm_compute. reflexivity.
  - intros _ w x _ Hx. destruct (not_elem_of_nil x Hx).
Qed.

Lemma rt_mutex_release_spec_witness : exists k',
  rt_mutex_release 500 demo_mutex_mine demo_kernel = Some (RT_EOK, mutex_fields (mtx_parent demo_mutex_mine), k') /\
  prio demo_kernel 1 = Some 10 /\ prio k' 1 = Some 12.
Proof.
  assert (queues demo_kernel (QSuspend 500) = []) as Hq by (vm_compute; reflexivity).
  pose proof (rt_mutex_release_spec 500 demo_mutex_mine demo_kernel 1 demo_current demo_mutex_mine_ok demo_kernel_ok
    demo_timing (cb_current _ _ _ demo_can_block) demo_current_lookup (cb_nest _ _ _ demo_can_block)) as H.
  rewrite decide_True in H by reflexivity. change (1 <? hold demo_mutex_mine) with false in H. cbv iota in H.
  rewrite Hq in H. destruct H as (k' & E & Hrp & _). exists k'. split; [exact E|]. split; [vm_compute; reflexivity|].
  rewrite (prio_reprioritised _ _ _ _ _ _ Hrp). reflexivity.
Defined.

(** The priority lent to the owner stays when the waiter that lent it times out:
    the idle thread, of priority 31, runs on with priority 10 although nobody
    waits for its mutex any more. *)
Lemma mutex_boost_outlives_timeout :
  ('(r, m, k1) ← rt_mutex_take 500 demo_mutex 7 demo_kernel;
   k2 ← rt_thread_timeout 1 k1;
   Some (prio k1 idle, queues k1 (QSuspend 500), prio k2 idle, queues k2 (QSuspend 500))) =
  Some (Some 10, [1], Some 10, []).
Proof. vm_compute. reflexivity. Qed.

(** ** Runs

    A thread's view of a mutex: [lw_inside t] counts how often a take of [t] has
    returned RT_EOK less the releases that returned RT_EOK, [lw_calls] are the
    threads whose take has not returned yet. *)
Record lock_world := { lw_mutex : rt_mutex; lw_kernel : kernel; lw_inside : Z -> Z; lw_calls : gset Z }.

Definition bump (t d : Z) (f : Z -> Z) : Z -> Z := fun x => if decide (x = t) then f x + d else f x.

Definition call (c : Z) (r : outcome) (W : gset Z) : gset Z := match r with Waiting => {[c]} ∪ W | Returned _ => W end.

(** What a thread does with the mutex, and what it got. *)
Inductive mutex_event := Takes (c time : Z) (r : outcome) | Ends (c e : Z) | Releases (c e : Z) | TimesOut (w : Z) | Otherwise.

(** What can happen to a mutex: a thread that is not waiting for it takes or
    releases it, a thread that waited runs again, a wait times out, and anything
    else that leaves the waiting threads alone (and, if they are in the order
    of priorities, their priorities and that of the owner). *)
Inductive mutex_step (o : Z) : lock_world -> mutex_event -> lock_world -> Prop :=
| mx_take m k ins W c cth time r m' k' :
    c ∉ W -> can_block k c cth -> time < WINDOW -> rt_mutex_take o m time k = Some (r, m', k') ->
    mutex_step o {| lw_mutex := m; lw_kernel := k; lw_inside := ins; lw_calls := W |} (Takes c time r)
      {| lw_mutex := m'; lw_kernel := k'; lw_inside := bump c (granted r) ins; lw_calls := call c r W |}
| mx_end m k ins W c e :
    c ∈ W -> c ∉ queues k (QSuspend o) -> rt_mutex_take_end c k = Some e ->
    mutex_step o {| lw_mutex := m; lw_kernel := k; lw_inside := ins; lw_calls := W |} (Ends c e)
      {| lw_mutex := m; lw_kernel := k; lw_inside := bump c (granted (Returned e)) ins; lw_calls := W ∖ {[c]} |}
| mx_release m k ins W c e m' k' :
    c ∉ W -> current_thread k = Some c -> interrupt_nest k = 0 -> rt_mutex_release o m k = Some (e, m', k') ->
    mutex_step o {| lw_mutex := m; lw_kernel := k; lw_inside := ins; lw_calls := W |} (Releases c e)
      {| lw_mutex := m'; lw_kernel := k'; lw_inside := bump c (- granted (Returned e)) ins; lw_calls := W |}
| mx_timeout m k ins W c w k' :
    current_thread k = Some c -> w ∈ queues k (QSuspend o) -> rt_thread_timeout w k = Some k' ->
    mutex_step o {| lw_mutex := m; lw_kernel := k; lw_inside := ins; lw_calls := W |} (TimesOut w)
      {| lw_mutex := m; lw_kernel := k'; lw_inside := ins; lw_calls := W |}
| mx_other m k ins W k' :
    kernel_ok k' -> timing_ok k' -> queues k' (QSuspend o) = queues k (QSuspend o) ->
    (forall x th, x ∈ W \/ owner m = Some x -> threads k !! x = Some th ->
       exists th', threads k' !! x = Some th' /\ th_parent th' = th_parent th /\ (x ∈ W -> error th' = error th)) ->
    (flag (mtx_parent m) = RT_IPC_FLAG_PRIO ->
       forall x, x ∈ queues k (QSuspend o) \/ owner m = Some x -> prio k' x = prio k x) ->
    mutex_step o {| lw_mutex := m; lw_kernel := k; lw_inside := ins; lw_calls := W |} Otherwise
      {| lw_mutex := m; lw_kernel := k'; lw_inside := ins; lw_calls := W |}.

Definition mutex_moves (o : Z) (x x' : lock_world) : Prop := exists ev, mutex_step o x ev x'.

(** The calls under way and the counts agree with the mutex: a thread whose
    take has not returned waits, owns the mutex once, or was refused. *)
Record calls_ok (o : Z) (m : rt_mutex) (k : kernel) (ins : Z -> Z) (W : gset Z) : Prop := {
  ca_waiting : forall w, w ∈ queues k (QSuspend o) -> w ∈ W;
  ca_inside : forall t, ins t = if bool_decide (owner m = Some t /\ t ∉ W) then hold m else 0;
  ca_granted : forall t, owner m = Some t -> t ∈ W -> hold m = 1;
  ca_error : forall t, t ∈ W -> t ∉ queues k (QSuspend o) -> exists th, threads k !! t = Some th /\
    (error th = RT_EOK <-> owner m = Some t)
}.

Record lock_ok (o : Z) (x : lock_world) : Prop := {
  lk_mutex : mutex_ok o (lw_mutex x) (lw_kernel x);
  lk_kernel : kernel_ok (lw_kernel x);
  lk_timing : timing_ok (lw_kernel x);
  lk_calls : calls_ok o (lw_mutex x) (lw_kernel x) (lw_inside x) (lw_calls x)
}.

Definition errors_kept (k k' : kernel) (W : gset Z) : Prop :=
  forall x th, x ∈ W -> threads k !! x = Some th -> exists th', threads k' !! x = Some th' /\ error th' = error th.

Lemma same_threads_errors k k' c W : same_threads k k' c -> c ∉ W -> errors_kept k k' W.
Proof.
  intros Hs Hc x th Hx Hth. destruct (Hs x th Hth) as (th' & Hth' & _ & He). exists th'. split; [done|].
  apply He. by intros ->.
Qed.

Lemma calls_same o m k k' ins W : calls_ok o m k ins W -> errors_kept k k' W ->
  queues k' (QSuspend o) = queues k (QSuspend o) -> calls_ok o m k' ins W.
Proof.
  intros [H1 H2 H3 H4] He Hq. split; rewrite ?Hq; try done. intros t Ht Hn.
  destruct (H4 t Ht Hn) as (th & Hth & Hi). destruct (He t th Ht Hth) as (th' & Hth' & E). exists th'. by rewrite E.
Qed.

Lemma bump_0 t f x : bump t 0 f x = f x.
Proof. unfold bump. case_decide; lia. Qed.

Lemma calls_ext o m k ins ins' W : calls_ok o m k ins W -> (forall x, ins' x = ins x) -> calls_ok o m k ins' W.
Proof. intros [H1 H2 H3 H4] He. split; try done. intros t. by rewrite He. Qed.

Lemma timed_out_same o m k c cth : mutex_ok o m k -> can_block k c cth ->
  let k' := {| k with threads := <[c := set_error (- RT_ETIMEOUT) (set_error RT_EOK cth)]> (threads (reset_error c cth k)) |} in
  mutex_ok o m k' /\ kernel_ok k' /\ timing_ok k' /\ same_threads k k' c.
Proof.
  intros Hm Hcb k'. destruct (reset_error_can_block k c cth Hcb) as [_ Hcb0]. pose proof (cb_thread _ _ _ Hcb) as Hct.
  destruct (can_block_upd _ c _ (set_error (- RT_ETIMEOUT)) Hcb0) as [_ Hcb1]; [apply set_error_benign|
    exact (ko_stacks _ (cb_kernel _ _ _ Hcb0) c _ (cb_thread _ _ _ Hcb0))|].
  assert (same_threads k k' c) as Hst.
  { apply (same_threads_trans _ (reset_error c cth k)); [by apply reset_same|]. intros x th Hx. simpl in *.
    destruct (decide (x = c)) as [->|]; [|exists th; by rewrite lookup_insert_ne].
    rewrite lookup_insert_eq in *. simplify_eq. by eexists. }
  split; [|split; [apply Hcb1|split; [apply Hcb1|done]]].
  apply (mutex_ok_same o m k _ c Hm Hst); [by eapply can_block_not_waiting|done|].
  intros x _. unfold prio. simpl. destruct (decide (x = c)) as [->|]; [by rewrite lookup_insert_eq, Hct|].
  by rewrite !lookup_insert_ne.
Qed.

Lemma calls_take_waits o m k k' ins W c cth w wth : calls_ok o m k ins W -> c ∉ W -> owner m = Some w -> w <> c ->
  waits_for o m k k' c cth w wth -> calls_ok o m k' ins ({[c]} ∪ W).
Proof.
  intros [H1 H2 H3 H4] Hc Hw Hwc Hwf. pose proof (wf_same _ _ _ _ _ _ _ _ Hwf) as Hs.
  pose proof (placed_permutation _ _ _ _ _ _ (wf_queue _ _ _ _ _ _ _ _ Hwf)) as Hp. split.
  - intros x Hx. rewrite Hp in Hx. apply elem_of_cons in Hx as [->|Hx]; [set_solver|]. apply H1 in Hx. set_solver.
  - intros t. rewrite H2. destruct (decide (owner m = Some t /\ t ∉ W)) as [[Ho Ht]|Hn].
    + rewrite !bool_decide_true; [done|split; [done|set_solver]|done].
    + rewrite !bool_decide_false; [done| |done]. intros [Ho Ht]. apply Hn. split; [done|set_solver].
  - intros t Ho Ht. apply (H3 t); [done|]. set_solver.
  - intros t Ht Hn. rewrite Hp in Hn. apply not_elem_of_cons in Hn as [Hne Hn].
    assert (t ∈ W) as HtW by set_solver. destruct (H4 t HtW Hn) as (th & Hth & Hi).
    destruct (Hs t th Hth) as (th' & Hth' & _ & He). exists th'. by rewrite He.
Qed.

Lemma call_take_free o m k ins W c p : calls_ok o m k ins W -> c ∉ W -> owner m = None -> queues k (QSuspend o) = [] ->
  calls_ok o (mutex_taken m c p) k (bump c 1 ins) W.
Proof.
  intros [H1 H2 H3 H4] Hc Ho Hq. split; simpl; try done.
  - intros t. unfold bump. case_decide as Ht.
    + subst t. rewrite bool_decide_true, H2, Ho by done. by rewrite bool_decide_false by (by intros []).
    + rewrite H2, Ho. rewrite !bool_decide_false; [done| |by intros []]. intros [E _]. congruence.
  - intros t Ht Hn. destruct (H4 t Ht Hn) as (th & Hth & Hi). exists th. split; [done|]. rewrite Hi, Ho.
    split; [done|]. intros E. exfalso. apply Hc. by simplify_eq.
Qed.

Lemma calls_hold o m k ins W c h d : calls_ok o m k ins W -> c ∉ W -> owner m = Some c -> h = hold m + d ->
  calls_ok o {| m with hold := h |} k (bump c d ins) W.
Proof.
  intros [H1 H2 H3 H4] Hc Ho ->. split; simpl; try done.
  - intros t. unfold bump. rewrite H2. case_decide as Ht.
    + subst t. by rewrite !bool_decide_true.
    + by rewrite !bool_decide_false by (rewrite Ho; intros [E _]; congruence).
  - intros t Ht. rewrite Ho in Ht. congruence.
Qed.

Lemma take_step_ok o m k ins W c cth time r m' k' : lock_ok o {| lw_mutex := m; lw_kernel := k; lw_inside := ins; lw_calls := W |} ->
  c ∉ W -> can_block k c cth -> time < WINDOW -> rt_mutex_take o m time k = Some (r, m', k') ->
  lock_ok o {| lw_mutex := m'; lw_kernel := k'; lw_inside := bump c (granted r) ins; lw_calls := call c r W |}.
Proof.
  intros [Hm Hk Htk Hca] Hc Hcb Ht E. simpl in *. pose proof (rt_mutex_take_spec o m k c cth time Hm Hcb Ht) as H.
  destruct (reset_error_can_block k c cth Hcb) as [_ Hcb0].
  assert (forall m2 ins2, calls_ok o m2 k ins2 W -> calls_ok o m2 (reset_error c cth k) ins2 W) as Hreset.
  { intros m2 ins2 H2. apply (calls_same o m2 k); [done| |done].
    eapply same_threads_errors, Hc. apply reset_same, Hcb. }
  destruct (owner m) as [w|] eqn:Ho; [destruct (decide (w = c)) as [->|Hwc]; [destruct (Z.ltb_spec (hold m) RT_MUTEX_HOLD_MAX)|
    destruct (Z.eqb_spec time 0)]|].
  - destruct H as [E' Hm']. rewrite E in E'. simplify_eq. split; simpl; [done|apply Hcb0|apply Hcb0|].
    rewrite <- Ho. by apply Hreset, calls_hold.
  - rewrite E in H. simplify_eq. split; simpl; [by apply mutex_reset_ok|apply Hcb0|apply Hcb0|].
    apply Hreset. eapply calls_ext; [done|]. apply bump_0.
  - rewrite E in H. injection H as -> -> ->. destruct (timed_out_same o m k c cth Hm Hcb) as (Hm' & Hk' & Htk' & Hs).
    split; simpl; [done..|]. eapply calls_ext; [|apply bump_0]. eapply calls_same; [done| |done].
    by eapply same_threads_errors.
  - destruct H as (k1 & wth & Hw & E1 & Hwf & Hm'). rewrite E in E1. simplify_eq.
    split; simpl; [done|apply Hwf|apply Hwf|]. eapply calls_ext; [|apply bump_0].
    by apply (calls_take_waits o m k k1 ins W c cth w wth).
  - destruct H as [E' Hm']. rewrite E in E'. simplify_eq. split; simpl; [done|apply Hcb0|apply Hcb0|].
    apply Hreset, call_take_free; try done. by apply (mo_free _ _ _ Hm).
Qed.

Lemma calls_handed o m m' k k' ins W c t l : calls_ok o m k ins W -> c ∉ W -> owner m = Some c -> hold m = 1 ->
  queues k (QSuspend o) = t :: l -> NoDup (t :: l) -> handed_over o m m' k k' c t l -> calls_ok o m' k' (bump c (-1) ins) W.
Proof.
  intros [H1 H2 H3 H4] Hc Ho Hh Hq Hnd Hho. destruct (ho_mutex _ _ _ _ _ _ _ _ Hho) as (p & _ & ->).
  pose proof (ho_queue _ _ _ _ _ _ _ _ Hho) as Hq'. apply NoDup_cons in Hnd as [Htl _].
  assert (t ∈ W) as HtW by (apply H1; rewrite Hq; left). split; simpl; try done.
  - intros w Hw. apply H1. rewrite Hq. right. by rewrite Hq' in Hw.
  - intros x. unfold bump. rewrite H2. rewrite (bool_decide_false (Some t = Some x /\ x ∉ W))
      by (intros [E Hn]; by simplify_eq). case_decide as Hx.
    + subst x. rewrite bool_decide_true by done. lia.
    + rewrite bool_decide_false; [done|]. rewrite Ho. intros [E _]. congruence.
  - intros x Hx Hn. rewrite Hq' in Hn. destruct (decide (x = t)) as [->|Hne].
    + pose proof (ho_result _ _ _ _ _ _ _ _ Hho) as Hr. unfold rt_mutex_take_end in Hr.
      destruct (threads k' !! t) as [th|]; [|done]. rewrite some_bind in Hr. exists th. split; [done|].
      destruct (Z.eqb_spec (error th) RT_EOK); simpl in Hr; [done|]. exfalso. by injection Hr.
    + destruct (H4 x Hx) as (th & Hth & Hi); [rewrite Hq; by apply not_elem_of_cons|].
      destruct (ho_same _ _ _ _ _ _ _ _ Hho x th Hth) as (th' & Hth' & _ & He). exists th'. split; [done|].
      rewrite He by (by intros ->). rewrite Hi, Ho. split; intros E; simplify_eq.
Qed.

Lemma upd_error_same k c cth e : threads k !! c = Some cth ->
  same_threads k {| k with threads := <[c := set_error e cth]> (threads k) |} c.
Proof.
  intros Hc x th Hx. simpl. destruct (decide (x = c)) as [->|]; [rewrite lookup_insert_eq; simplify_eq; by eexists|].
  exists th. by rewrite lookup_insert_ne.
Qed.

Lemma calls_freed o m k ins W c : calls_ok o m k ins W -> c ∉ W -> owner m = Some c -> hold m = 1 ->
  calls_ok o (mutex_fields (mtx_parent m)) k (bump c (-1) ins) W.
Proof.
  intros [H1 H2 H3 H4] Hc Ho Hh. split; try done.
  - intros t. rewrite (bool_decide_false (owner (mutex_fields _) = Some t /\ _)) by (by intros []). unfold bump. rewrite H2. case_decide as Ht.
    + subst t. rewrite bool_decide_true by done. lia.
    + rewrite bool_decide_false; [done|]. rewrite Ho. intros [E _]. congruence.
  - intros t Ht Hn. destruct (H4 t Ht Hn) as (th & Hth & Hi). exists th. split; [done|]. rewrite Hi, Ho.
    split; [|done]. intros E. exfalso. apply Hc. by simplify_eq.
Qed.

Lemma release_step_ok o m k ins W c e m' k' : lock_ok o {| lw_mutex := m; lw_kernel := k; lw_inside := ins; lw_calls := W |} ->
  c ∉ W -> current_thread k = Some c -> interrupt_nest k = 0 -> rt_mutex_release o m k = Some (e, m', k') ->
  lock_ok o {| lw_mutex := m'; lw_kernel := k'; lw_inside := bump c (- granted (Returned e)) ins; lw_calls := W |}.
Proof.
  intros [Hm Hk Htk Hca] Hc Hcu Hn E. simpl in *. destruct (ko_current _ Hk c Hcu) as [cth Hct].
  pose proof (rt_mutex_release_spec o m k c cth Hm Hk Htk Hcu Hct Hn) as H.
  destruct (decide (owner m = Some c)) as [Ho|Ho]; [destruct (Z.ltb_spec 1 (hold m)); [|destruct (queues k (QSuspend o)) as [|t l] eqn:Hq]|].
  - destruct H as [E' Hm']. rewrite E in E'. injection E' as -> -> ->. split; simpl; [done..|]. by apply calls_hold.
  - destruct H as (k1 & E' & Hrp & Hm'). rewrite E in E'. injection E' as -> -> ->.
    destruct (mo_held _ _ _ Hm c Ho) as (_ & Hh & _).
    split; simpl; [done|apply Hrp|by apply (timing_same k), Htk; apply Hrp|].
    apply calls_freed; [|done|done|lia]. eapply calls_same; [done| |].
    + eapply same_threads_errors, Hc. by eapply reprioritised_same_threads.
    + by apply (rp_waiting _ _ _ _ _ Hrp).
  - destruct H as (m1 & k1 & E' & Hho). rewrite E in E'. injection E' as -> -> ->.
    destruct (mo_held _ _ _ Hm c Ho) as (_ & Hh & _).
    split; simpl; [apply Hho|apply Hho|apply Hho|]. eapply calls_handed; try done; [lia|].
    rewrite <- Hq. apply (si_nodup [] k). apply Hk.
  - rewrite E in H. injection H as -> -> ->.
    destruct (kernel_ok_benign k c cth (set_error (- RT_ERROR)) Hk Hct) as (k1 & E1 & Hk1 & Ht1 & _);
      [apply set_error_benign|exact (ko_stacks _ Hk c cth Hct)|].
    rewrite (upd_thread_some c cth) in E1 by done. injection E1 as <-.
    assert (c ∉ queues k (QSuspend o)) as Hcq by (intros Hin; by apply Hc, (ca_waiting _ _ _ _ _ Hca)).
    split; simpl; [|done|by apply (timing_same k)|].
    + apply (mutex_ok_same o m k _ c Hm); [by apply upd_error_same|done|done|]. intros x _. unfold prio. simpl.
      destruct (decide (x = c)) as [->|]; [by rewrite lookup_insert_eq, Hct|by rewrite lookup_insert_ne].
    + eapply calls_ext; [|apply bump_0]. eapply calls_same; [done| |done].
      eapply same_threads_errors, Hc. by apply upd_error_same.
Qed.

Lemma end_step_ok o m k ins W c e : lock_ok o {| lw_mutex := m; lw_kernel := k; lw_inside := ins; lw_calls := W |} ->
  c ∈ W -> c ∉ queues k (QSuspend o) -> rt_mutex_take_end c k = Some e ->
  lock_ok o {| lw_mutex := m; lw_kernel := k; lw_inside := bump c (granted (Returned e)) ins; lw_calls := W ∖ {[c]} |}.
Proof.
  intros [Hm Hk Htk Hca] Hc Hcq E. simpl in *. split; simpl; [done..|]. destruct Hca as [H1 H2 H3 H4].
  destruct (H4 c Hc Hcq) as (th & Hth & Hi). unfold rt_mutex_take_end in E. rewrite Hth, some_bind in E.
  split.
  - intros w Hw. apply elem_of_difference. split; [by apply H1|]. intros ->%elem_of_singleton. done.
  - intros t. unfold bump. rewrite H2. case_decide as Ht.
    + subst t. rewrite bool_decide_false by tauto. destruct (Z.eqb_spec (error th) RT_EOK) as [He|He]; simpl in E; injection E as <-.
      * rewrite bool_decide_true by (split; [by apply Hi|set_solver]). simpl. symmetry. apply (H3 c); [by apply Hi|done].
      * simpl. rewrite (proj2 (Z.eqb_neq _ _) He), bool_decide_false; [done|]. intros [Ho _]. by apply He, Hi.
    + by rewrite (bool_decide_ext (owner m = Some t /\ t ∉ W) (owner m = Some t /\ t ∉ W ∖ {[c]})) by set_solver.
  - intros t Ho Ht. apply (H3 t Ho). set_solver.
  - intros t Ht Hn. apply H4; [set_solver|done].
Qed.


(** A waiting thread leaves the list. *)
Lemma mutex_ok_without o m k k' w : mutex_ok o m k -> kernel_ok k ->
  queues k' (QSuspend o) = filter (fun x => x <> w) (queues k (QSuspend o)) ->
  (forall x th, x <> w -> threads k !! x = Some th -> exists th', threads k' !! x = Some th' /\ error th' = error th) ->
  (forall x th, threads k !! x = Some th -> exists th', threads k' !! x = Some th' /\
     th_parent th' = th_parent th /\ current_priority th' = current_priority th) ->
  mutex_ok o m k'.
Proof.
  intros [Hcl Hfl Hfree Hheld Herr Hso Hin] Hk Hq He Hs.
  assert (forall x, is_Some (threads k !! x) -> prio k' x = prio k x) as Hpr.
  { intros x [th Hx]. unfold prio. destruct (Hs x th Hx) as (th' & -> & _ & Hp). by rewrite Hx; simpl; rewrite Hp. }
  assert (forall x, x ∈ queues k (QSuspend o) -> prio k' x = prio k x) as Hpq.
  { intros x Hx. apply Hpr. destruct (Herr x Hx) as (th & -> & _). by eexists. }
  split; try done; rewrite ?Hq.
  - intros Ho. destruct (Hfree Ho) as [E Hnil]. split; [done|]. by rewrite Hnil.
  - intros v Hv. destruct (Hheld v Hv) as (H1 & H2 & H3 & H4 & vth & H5 & H6). do 3 (split; [done|]).
    split; [intros Hx; by apply list_elem_of_filter in Hx as [_ Hx]|].
    destruct (Hs v vth H5) as (vth' & H7 & Hp & _). exists vth'. split; [done|]. unfold is_thread in *. by rewrite Hp.
  - intros x [Hne Hx]%list_elem_of_filter. destruct (Herr x Hx) as (th & Hth & E). destruct (He x th Hne Hth) as (th' & Hth' & E').
    exists th'. by rewrite E'.
  - intros Hf. apply (sorted_prio_ext k); [intros x [_ Hx]%list_elem_of_filter; by apply Hpq|]. by apply sorted_filter, Hso.
  - intros Hf v x Hv [_ Hx]%list_elem_of_filter. unfold prio_le. rewrite (Hpq x Hx), Hpr; [by apply Hin|].
    destruct (Hheld v Hv) as (_ & _ & _ & _ & vth & -> & _). by eexists.
Qed.

Lemma timeout_step_ok o m k ins W c w k' : lock_ok o {| lw_mutex := m; lw_kernel := k; lw_inside := ins; lw_calls := W |} ->
  current_thread k = Some c -> w ∈ queues k (QSuspend o) -> rt_thread_timeout w k = Some k' ->
  lock_ok o {| lw_mutex := m; lw_kernel := k'; lw_inside := ins; lw_calls := W |}.
Proof.
  intros [Hm Hk Htk Hca] Hcu Hw E. simpl in *.
  destruct (wait_timeout_ok k c (QSuspend o) w Hk Htk Hcu eq_refl Hw)
    as (k1 & E1 & Hk1 & Htk1 & Hq1 & _ & (wth & Hwt & _ & Hwe) & Herr & _ & _ & Hsame). rewrite E in E1. injection E1 as <-.
  split; simpl; [by apply (mutex_ok_without o m k k' w)|done|done|]. destruct Hca as [H1 H2 H3 H4]. split; try done.
  - intros x Hx. rewrite Hq1 in Hx. apply list_elem_of_filter in Hx as [_ Hx]. by apply H1.
  - intros t Ht Hn. rewrite Hq1 in Hn. destruct (decide (t = w)) as [->|Hne].
    + exists wth. split; [done|]. rewrite Hwe. split; [done|]. intros Ho.
      by destruct (mo_held _ _ _ Hm w Ho) as (_ & _ & _ & Hnw & _).
    + destruct (H4 t Ht) as (th & Hth & Hi); [intros Hx; by apply Hn, list_elem_of_filter|].
      destruct (Herr t th Hne Hth) as (th' & Hth' & E'). exists th'. by rewrite E'.
Qed.

Lemma other_step_ok o m k ins W k' : lock_ok o {| lw_mutex := m; lw_kernel := k; lw_inside := ins; lw_calls := W |} ->
  kernel_ok k' -> timing_ok k' -> queues k' (QSuspend o) = queues k (QSuspend o) ->
  (forall x th, x ∈ W \/ owner m = Some x -> threads k !! x = Some th ->
     exists th', threads k' !! x = Some th' /\ th_parent th' = th_parent th /\ (x ∈ W -> error th' = error th)) ->
  (flag (mtx_parent m) = RT_IPC_FLAG_PRIO ->
     forall x, x ∈ queues k (QSuspend o) \/ owner m = Some x -> prio k' x = prio k x) ->
  lock_ok o {| lw_mutex := m; lw_kernel := k'; lw_inside := ins; lw_calls := W |}.
Proof.
  intros [[Hcl Hfl Hfree Hheld Herr Hso Hin] Hk Htk Hca] Hk' Htk' Hq Hs Hp. simpl in *. split; simpl; [|done|done|].
  - split; rewrite ?Hq; try done.
    + intros v Hv. destruct (Hheld v Hv) as (H1 & H2 & H3 & H4 & vth & H5 & H6). do 4 (split; [done|]).
      destruct (Hs v vth (or_intror Hv) H5) as (vth' & H7 & Hpa & _). exists vth'. split; [done|]. unfold is_thread in *. by rewrite Hpa.
    + intros x Hx. destruct (Herr x Hx) as (th & Hth & E). pose proof (ca_waiting _ _ _ _ _ Hca x Hx) as HxW.
      destruct (Hs x th (or_introl HxW) Hth) as (th' & Hth' & _ & E'). exists th'. by rewrite E'.
    + intros Hf. apply (sorted_prio_ext k); [|by apply Hso]. intros x Hx. apply Hp; [done|by left].
    + intros Hf v x Hv Hx. unfold prio_le. rewrite (Hp Hf v (or_intror Hv)), (Hp Hf x (or_introl Hx)). by apply Hin.
  - eapply calls_same; [done| |done]. intros x th Hx Hth. destruct (Hs x th (or_introl Hx) Hth) as (th' & Hth' & _ & E').
    exists th'. split; [done|]. by apply E'.
Qed.

Lemma mutex_step_ok o x ev x' : lock_ok o x -> mutex_step o x ev x' -> lock_ok o x'.
Proof.
  intros Hx Hs. destruct Hs; [eapply take_step_ok|eapply end_step_ok|eapply release_step_ok|eapply timeout_step_ok|eapply other_step_ok];
    eassumption.
Qed.

Lemma lock_inside o x t : lock_ok o x -> 0 < lw_inside x t -> owner (lw_mutex x) = Some t /\ lw_inside x t = hold (lw_mutex x).
Proof.
  intros [_ _ _ [_ H _ _]] Ht. rewrite H in *. destruct (bool_decide _) eqn:E; [|lia].
  by apply bool_decide_eq_true in E as [Ho _].
Qed.

Definition lock_start (m : rt_mutex) (k : kernel) : lock_world :=
  {| lw_mutex := m; lw_kernel := k; lw_inside := fun _ => 0; lw_calls := ∅ |}.

Lemma lock_ok_start o m k : mutex_ok o m k -> owner m = None -> kernel_ok k -> timing_ok k -> lock_ok o (lock_start m k).
Proof.
  intros Hm Ho Hk Htk. split; try done. simpl. destruct (mo_free _ _ _ Hm Ho) as [_ Hq]. split; rewrite ?Hq, ?Ho; try done.
  intros w Hw. by apply not_elem_of_nil in Hw.
Qed.

(** *** Waiting for ever

    While nobody's wait times out, a thread that waited gets the mutex. *)
Definition never_refused (o : Z) (x : lock_world) : Prop :=
  forall t, t ∈ lw_calls x -> t ∉ queues (lw_kernel x) (QSuspend o) -> owner (lw_mutex x) = Some t.

Definition patient (ev : mutex_event) : Prop :=
  match ev with TimesOut _ => False | Takes _ time _ => time = RT_WAITING_FOREVER | _ => True end.

Lemma take_never_refused o m k ins W c cth r m' k' : lock_ok o {| lw_mutex := m; lw_kernel := k; lw_inside := ins; lw_calls := W |} ->
  never_refused o {| lw_mutex := m; lw_kernel := k; lw_inside := ins; lw_calls := W |} ->
  c ∉ W -> can_block k c cth -> rt_mutex_take o m RT_WAITING_FOREVER k = Some (r, m', k') ->
  never_refused o {| lw_mutex := m'; lw_kernel := k'; lw_inside := bump c (granted r) ins; lw_calls := call c r W |}.
Proof.
  intros [Hm _ _ _] Hnr Hc Hcb E. unfold never_refused in *. simpl in *.
  pose proof (rt_mutex_take_spec o m k c cth RT_WAITING_FOREVER Hm Hcb eq_refl) as H.
  destruct (owner m) as [w|] eqn:Ho; [destruct (decide (w = c)) as [->|Hwc]; [destruct (hold m <? RT_MUTEX_HOLD_MAX)|]|].
  - destruct H as [H _]. rewrite E in H. injection H as -> -> ->. simpl. rewrite ?Ho. exact Hnr.
  - rewrite E in H. injection H as -> -> ->. simpl. rewrite ?Ho. exact Hnr.
  - destruct H as (k1 & wth & _ & E1 & Hwf & _). rewrite E in E1. injection E1 as -> -> ->. simpl. rewrite ?Ho.
    pose proof (placed_permutation _ _ _ _ _ _ (wf_queue _ _ _ _ _ _ _ _ Hwf)) as Hp.
    intros t Ht Hn. rewrite Hp in Hn. apply not_elem_of_cons in Hn as [Hne Hn]. apply Hnr; [set_solver|done].
  - destruct H as [H _]. rewrite E in H. injection H as -> -> ->. simpl. intros t Ht Hn. by specialize (Hnr t Ht Hn).
Qed.

Lemma release_never_refused o m k ins W c e m' k' :
  lock_ok o {| lw_mutex := m; lw_kernel := k; lw_inside := ins; lw_calls := W |} ->
  never_refused o {| lw_mutex := m; lw_kernel := k; lw_inside := ins; lw_calls := W |} ->
  c ∉ W -> current_thread k = Some c -> interrupt_nest k = 0 -> rt_mutex_release o m k = Some (e, m', k') ->
  never_refused o {| lw_mutex := m'; lw_kernel := k'; lw_inside := bump c (- granted (Returned e)) ins; lw_calls := W |}.
Proof.
  intros [Hm Hk Htk _] Hnr Hc Hcu Hn E. unfold never_refused in *. simpl in *. destruct (ko_current _ Hk c Hcu) as [cth Hct].
  pose proof (rt_mutex_release_spec o m k c cth Hm Hk Htk Hcu Hct Hn) as H.
  destruct (decide (owner m = Some c)) as [Ho|Ho]; [destruct (1 <? hold m); [|destruct (queues k (QSuspend o)) as [|t l] eqn:Hq]|].
  - destruct H as [H _]. rewrite E in H. injection H as -> -> ->. exact Hnr.
  - intros x Hx _. specialize (Hnr x Hx (not_elem_of_nil x)). congruence.
  - destruct H as (m1 & k1 & H & Hho). rewrite E in H. injection H as -> -> ->.
    destruct (ho_mutex _ _ _ _ _ _ _ _ Hho) as (p & _ & ->). rewrite (ho_queue _ _ _ _ _ _ _ _ Hho). simpl.
    intros x Hx Hl. destruct (decide (x = t)) as [->|Hne]; [done|].
    specialize (Hnr x Hx ltac:(by apply not_elem_of_cons)). congruence.
  - rewrite E in H. injection H as -> -> ->. exact Hnr.
Qed.

Lemma step_never_refused o x ev x' : lock_ok o x -> never_refused o x -> mutex_step o x ev x' -> patient ev ->
  never_refused o x'.
Proof.
  intros Hx Hnr Hs Hp.
  destruct Hs as [m k ins W c cth time r m' k' Hc Hcb Ht E|m k ins W c e Hc Hcq E|m k ins W c e m' k' Hc Hcu Hn E| |m k ins W k' _ _ Hq _ _].
  - simpl in Hp. subst time. by apply (take_never_refused o m k ins W c cth r m' k').
  - intros t Ht Hn. simpl in *. apply Hnr; [simpl; set_solver|done].
  - by apply (release_never_refused o m k ins W c e m' k').
  - done.
  - intros t Ht Hn. simpl in *. rewrite Hq in Hn. by apply (Hnr t).
Qed.

(** C29: mutual exclusion.  Take a mutex that nobody holds or waits for, and let threads
    take it (again), wait, time out and release it in any interleaving with
    anything else the system does.  At any moment at most one thread is between a take that
    returned RT_EOK and its release, at most 255 deep; it owns the mutex, which
    counts how deep it is.  Nobody waits while the mutex has no owner, and with priority order the
    waiting threads are in that order and none of them has a higher priority
    than the owner. *)
Theorem mutex_exclusive o m0 k0 x :
  mutex_ok o m0 k0 -> owner m0 = None -> kernel_ok k0 -> timing_ok k0 ->
  rtc (mutex_moves o) (lock_start m0 k0) x ->
  let m := lw_mutex x in let q := queues (lw_kernel x) (QSuspend o) in
  (forall t, 0 <= lw_inside x t <= RT_MUTEX_HOLD_MAX) /\
  (forall t, 0 < lw_inside x t -> owner m = Some t /\ lw_inside x t = hold m) /\
  (forall t u, 0 < lw_inside x t -> 0 < lw_inside x u -> t = u) /\
  (owner m = None -> q = []) /\
  (flag (mtx_parent m) = RT_IPC_FLAG_PRIO ->
     StronglySorted (prio_le (lw_kernel x)) q /\ forall w t, owner m = Some w -> t ∈ q -> prio_le (lw_kernel x) w t).
Proof.
  intros Hm Ho Hk Htk Hr m q.
  pose proof (lock_ok_start o m0 k0 Hm Ho Hk Htk) as H0.
  assert (lock_ok o x) as Hx by (revert H0; induction Hr as [|x1 x2 x3 [ev Hs] _ IH]; eauto using mutex_step_ok).
  pose proof (fun t => lock_inside o x t Hx) as Hin. destruct Hx as [Hmx Hkx Htx Hca]. split; [|split; [|split; [|split]]].
  - intros t. rewrite (ca_inside _ _ _ _ _ Hca). case_bool_decide as H; [|done].
    destruct H as [Hw _]. destruct (mo_held _ _ _ Hmx t Hw) as (_ & [H1 H2] & _). lia.
  - intros t. by apply Hin.
  - intros t u [Et _]%Hin [Eu _]%Hin; [|done..]. congruence.
  - intros Hn. by apply (mo_free _ _ _ Hmx).
  - intros Hf. split; [by apply (mo_sorted _ _ _ Hmx)|]. by apply (mo_inherit _ _ _ Hmx).
Qed.

(** The mutex of the demonstration while nobody holds it. *)
Definition demo_mutex_free : rt_mutex := mutex_fields (mtx_parent demo_mutex).

Lemma demo_mutex_free_ok : mutex_ok 500 demo_mutex_free demo_kernel.
Proof.
  assert (queues demo_kernel (QSuspend 500) = []) as Hq by (vm_compute; reflexivity).
  split; rewrite ?Hq; [reflexivity|right; reflexivity|by split|discriminate| | |].
  - intros x Hx. destruct (not_elem_of_nil x Hx).
  - intros _. constructor.
  - intros _ w x Hw. change (None = Some w) in Hw. discriminate Hw.
Qed.

Lemma mutex_exclusive_witness : exists x,
  rtc (mutex_moves 500) (lock_start demo_mutex_free demo_kernel) x /\
  lw_inside x 1 = 1 /\ owner (lw_mutex x) = Some 1.
Proof.
  assert (exists m k, rt_mutex_take 500 demo_mutex_free 7 demo_kernel = Some (Returned RT_EOK, m, k)) as (m & k & E)
    by (eexists _, _; vm_compute; reflexivity).
  eexists {| lw_mutex := m; lw_kernel := k; lw_inside := bump 1 1 (fun _ => 0); lw_calls := ∅ |}.
  match goal with |- rtc ?R ?x ?y /\ _ => assert (rtc R x y) as Hr end.
  { apply rtc_once. eexists. exact (mx_take 500 demo_mutex_free demo_kernel (fun _ => 0) ∅ 1 demo_current 7 (Returned RT_EOK) m k
      (not_elem_of_empty 1) demo_can_block eq_refl E). }
  split; [exact Hr|]. split; [reflexivity|].
  destruct (mutex_exclusive 500 demo_mutex_free demo_kernel _ demo_mutex_free_ok eq_refl demo_kernel_ok demo_timing Hr)
    as (_ & H & _). apply (H 1). reflexivity.
Defined.
