(* ===== verification/Event.v ===== *)
(** * Events (rt-thread/src/ipc.c)

    The event at address [o] is a record next to the kernel; its waiting threads
    are in [QSuspend o], each with the bits it waits for and how ([event_set] and
    [event_info] of the thread). *)
From S2P Require Import Prelude Mem Kernel Sched Timer Ipc.

Definition RT_EVENT_FLAG_AND : Z := 0x01.
Definition RT_EVENT_FLAG_OR : Z := 0x02.
Definition RT_EVENT_FLAG_CLEAR : Z := 0x04.

Record rt_event := { ev_parent : rt_object; ev_set : Z (** uint32 *) }.

Definition rt_event_init (o : Z) (e : rt_event) (nm : list Z) (fl : Z) (k : kernel)
  : option (Z * rt_event * kernel) :=
  '(ob, k) ← rt_object_init (Obj o) (ev_parent e) RT_Object_Class_Event nm k;
  Some (RT_EOK, {| ev_parent := set_flag fl ob; ev_set := 0 |}, set_queue (QSuspend o) [] k).

Definition rt_event_detach (o : Z) (e : rt_event) (k : kernel) : option (Z * rt_event * kernel) :=
  _ ← assert (is_class RT_Object_Class_Event (ev_parent e));
  _ ← assert (rt_object_is_systemobject (ev_parent e));
  k ← rt_ipc_list_resume_all (QSuspend o) k;
  let '(ob, k) := rt_object_detach (Obj o) (ev_parent e) k in
  Some (RT_EOK, {| e with ev_parent := ob |}, k).

Definition rt_event_create (nm : list Z) (fl : Z) (k : kernel)
  : option (option (Z * rt_event) * kernel) :=
  _ ← RT_DEBUG_NOT_IN_INTERRUPT k;
  '(r, k) ← rt_object_allocate RT_Object_Class_Event nm k;
  match r with
  | None => Some (None, k)
  | Some (o, ob) =>
      Some (Some (o, {| ev_parent := set_flag fl ob; ev_set := 0 |}), set_queue (QSuspend o) [] k)
  end.

Definition rt_event_delete (o : Z) (e : rt_event) (k : kernel) : option (Z * kernel) :=
  _ ← assert (is_class RT_Object_Class_Event (ev_parent e));
  _ ← assert (negb (rt_object_is_systemobject (ev_parent e)));
  _ ← RT_DEBUG_NOT_IN_INTERRUPT k;
  k ← rt_ipc_list_resume_all (QSuspend o) k;
  '(_, k) ← rt_object_delete o (ev_parent e) k;
  Some (RT_EOK, k).

Definition set_event (es info : Z) (th : rt_thread) : rt_thread :=
  {| th with event_set := es; event_info := info |}.

(** The walk over the waiting threads.  The next node is read before the thread
    is resumed, and only that thread leaves the list, so that the walk visits
    the list as it was.  [st] is the event's set, [ns] need_schedule. *)
Fixpoint event_send_loop (l : list Z) (st : Z) (ns : bool) (k : kernel)
  : option (Z * Z * bool * kernel) :=
  match l with
  | [] => Some (RT_EOK, st, ns, k)
  | t :: l =>
      th ← threads k !! t;
      if has_flag (event_info th) RT_EVENT_FLAG_AND then
        if Z.land (event_set th) st =? event_set th then
          let st := if has_flag (event_info th) RT_EVENT_FLAG_CLEAR then Z.ldiff st (event_set th) else st in
          '(_, k) ← rt_thread_resume t k;
          event_send_loop l st true k
        else event_send_loop l st ns k
      else if has_flag (event_info th) RT_EVENT_FLAG_OR then
        if negb (Z.land (event_set th) st =? 0) then
          let got := Z.land (event_set th) st in
          k ← upd_thread t (set_event got (event_info th)) k;
          let st := if has_flag (event_info th) RT_EVENT_FLAG_CLEAR then Z.ldiff st got else st in
          '(_, k) ← rt_thread_resume t k;
          event_send_loop l st true k
        else event_send_loop l st ns k
      else Some (- RT_EINVAL, st, ns, k)
  end.

Definition rt_event_send (o : Z) (e : rt_event) (set : Z) (k : kernel) : option (Z * rt_event * kernel) :=
  _ ← assert (is_class RT_Object_Class_Event (ev_parent e));
  if set =? 0 then Some (- RT_ERROR, e, k)
  else
    '(r, st, ns, k) ← event_send_loop (queues k (QSuspend o)) (Z.lor (ev_set e) set) false k;
    let e := {| e with ev_set := st |} in
    if negb (r =? RT_EOK) then Some (r, e, k)
    else k ← (if ns : bool then rt_schedule k else Some k); Some (RT_EOK, e, k).

(** The outcome of a receive, with the bits stored at [recved]. *)
Definition rt_event_recv (o : Z) (e : rt_event) (set opt timeout : Z) (k : kernel)
  : option (outcome * option Z * rt_event * kernel) :=
  _ ← RT_DEBUG_IN_THREAD_CONTEXT k;
  _ ← assert (is_class RT_Object_Class_Event (ev_parent e));
  if set =? 0 then Some (Returned (- RT_ERROR), None, e, k)
  else
    t ← rt_thread_self k;
    k ← upd_thread t (set_error RT_EOK) k;
    status ← (if has_flag opt RT_EVENT_FLAG_AND then Some (Z.land (ev_set e) set =? set)
              else if has_flag opt RT_EVENT_FLAG_OR then Some (negb (Z.land (ev_set e) set =? 0))
              else None);
    if status : bool then
      let got := Z.land (ev_set e) set in
      k ← upd_thread t (set_event got opt) k;
      let e' := if has_flag opt RT_EVENT_FLAG_CLEAR then {| e with ev_set := Z.ldiff (ev_set e) set |} else e in
      th ← threads k !! t;
      Some (Returned (error th), Some got, e', k)
    else if timeout =? 0 then
      k ← upd_thread t (set_error (- RT_ETIMEOUT)) k;
      Some (Returned (- RT_ETIMEOUT), None, e, k)
    else
      k ← upd_thread t (set_event set opt) k;
      k ← ipc_wait (QSuspend o) t (flag (ev_parent e)) timeout k;
      Some (Waiting, None, e, k).

(** The thread that waited runs again: its error, or the bits received. *)
Definition rt_event_recv_end (t : Z) (k : kernel) : option (Z * option Z) :=
  th ← threads k !! t;
  if negb (error th =? RT_EOK) then Some (error th, None) else Some (error th, Some (event_set th)).

Definition rt_event_control (o : Z) (e : rt_event) (cmd : Z) (k : kernel) : option (Z * rt_event * kernel) :=
  _ ← assert (is_class RT_Object_Class_Event (ev_parent e));
  if cmd =? RT_IPC_CMD_RESET then
    k ← rt_ipc_list_resume_all (QSuspend o) k;
    k ← rt_schedule k;
    Some (RT_EOK, {| e with ev_set := 0 |}, k)
  else Some (- RT_ERROR, e, k).

(** ** What a send does, in the abstract *)

(** [th] waits for bits that are there. *)
Definition satisfied (th : rt_thread) (st : Z) : bool :=
  if has_flag (event_info th) RT_EVENT_FLAG_AND then Z.land (event_set th) st =? event_set th
  else negb (Z.land (event_set th) st =? 0).

(** What is left of the set when [th] has received its bits. *)
Definition left_by (th : rt_thread) (st : Z) : Z :=
  if has_flag (event_info th) RT_EVENT_FLAG_CLEAR then Z.ldiff st (Z.land (event_set th) st) else st.

(** The threads of [l], in order, are offered the set [st]: those satisfied by
    what the earlier ones left are woken with their bits ([ws]), the others
    ([ss]) stay, and [st'] is left in the end. *)
Inductive dispatched (k : kernel) : list Z -> Z -> list (Z * Z) -> list Z -> Z -> Prop :=
| dp_nil st : dispatched k [] st [] [] st
| dp_wake t th l st ws ss st' :
    threads k !! t = Some th -> satisfied th st = true -> dispatched k l (left_by th st) ws ss st' ->
    dispatched k (t :: l) st ((t, Z.land (event_set th) st) :: ws) ss st'
| dp_stay t th l st ws ss st' :
    threads k !! t = Some th -> satisfied th st = false -> dispatched k l st ws ss st' ->
    dispatched k (t :: l) st ws (t :: ss) st'.

Lemma dispatched_ext k k' l st ws ss st' : (forall x, x ∈ l -> threads k' !! x = threads k !! x) ->
  dispatched k' l st ws ss st' -> dispatched k l st ws ss st'.
Proof.
  intros He Hd. induction Hd as [|t th l st ws ss st' Ht Hs Hd IH|t th l st ws ss st' Ht Hs Hd IH]; [constructor|..];
    rewrite He in Ht by left; [eapply dp_wake|eapply dp_stay]; try done; apply IH; intros x Hx; apply He; by right.
Qed.

Lemma dispatched_incl k l st ws ss st' : dispatched k l st ws ss st' ->
  l ≡ₚ map fst ws ++ ss.
Proof.
  induction 1 as [|t th l st ws ss st' _ _ _ IH|t th l st ws ss st' _ _ _ IH]; simpl; [done|by rewrite IH|].
  rewrite IH. by rewrite Permutation_middle.
Qed.

(** The bits only get fewer. *)
Definition subset (a b : Z) : Prop := Z.land a b = a.

Lemma subset_bits a b : subset a b <-> forall i, 0 <= i -> Z.testbit a i = true -> Z.testbit b i = true.
Proof.
  unfold subset. split.
  - intros H i Hi Ha. rewrite <- H, Z.land_spec in Ha. by apply andb_true_iff in Ha as [_ ?].
  - intros H. apply Z.bits_inj'. intros i Hi. rewrite Z.land_spec. specialize (H i Hi).
    destruct (Z.testbit a i); [by rewrite H|done].
Qed.

Lemma subset_trans a b c : subset a b -> subset b c -> subset a c.
Proof. rewrite !subset_bits. intros H1 H2 i Hi Ha. auto. Qed.

Lemma subset_ldiff a b : subset (Z.ldiff a b) a.
Proof. apply subset_bits. intros i Hi. rewrite Z.ldiff_spec. intros H. by apply andb_true_iff in H as [? _]. Qed.

Lemma left_by_subset th st : subset (left_by th st) st.
Proof. unfold left_by. destruct (has_flag _ _); [apply subset_ldiff|apply Z.land_diag]. Qed.

Lemma land_zero_bits a b : Z.land a b = 0 <-> forall i, 0 <= i -> Z.testbit a i = true -> Z.testbit b i = false.
Proof.
  split.
  - intros H i Hi Ha. assert (Z.testbit (Z.land a b) i = false) as Hb by (rewrite H; apply Z.bits_0).
    rewrite Z.land_spec, Ha in Hb. done.
  - intros H. apply Z.bits_inj'. intros i Hi. rewrite Z.land_spec, Z.bits_0. specialize (H i Hi).
    destruct (Z.testbit a i); [by rewrite H|done].
Qed.

(** With fewer bits fewer threads are satisfied. *)
Lemma unsatisfied_subset th a b : subset a b -> satisfied th b = false -> satisfied th a = false.
Proof.
  unfold satisfied. intros Hs. destruct (has_flag _ _).
  - intros H. apply Z.eqb_neq in H. apply Z.eqb_neq. intros Ha. apply H.
    by apply (subset_trans _ a).
  - intros H. apply negb_false_iff, Z.eqb_eq in H. apply negb_false_iff, Z.eqb_eq.
    rewrite land_zero_bits in H |- *. intros i Hi He. specialize (H i Hi He).
    destruct (Z.testbit a i) eqn:Ea; [|done]. rewrite subset_bits in Hs. rewrite (Hs i Hi Ea) in H. done.
Qed.

Lemma dispatched_subset k l st ws ss st' : dispatched k l st ws ss st' -> subset st' st.
Proof.
  induction 1 as [st|t th l st ws ss st' _ _ _ IH|]; [apply Z.land_diag| |done].
  eapply subset_trans; [done|apply left_by_subset].
Qed.

(** Whoever stays is not satisfied by what is left: no wake-up is lost. *)
Lemma dispatched_unsatisfied k l st ws ss st' t th : dispatched k l st ws ss st' ->
  t ∈ ss -> threads k !! t = Some th -> satisfied th st' = false.
Proof.
  induction 1 as [st|x xth l st ws ss st' Hx Hs Hd IH|x xth l st ws ss st' Hx Hs Hd IH]; intros Ht Hth.
  - by apply elem_of_nil in Ht.
  - by apply IH.
  - apply elem_of_cons in Ht as [->|Ht]; [|by apply IH]. simplify_eq.
    by eapply unsatisfied_subset; [eapply dispatched_subset|].
Qed.

(** ** The invariant *)
Definition waits_well (th : rt_thread) : Prop :=
  error th = RT_EOK /\ 0 < event_set th < 2 ^ 32 /\
  has_flag (event_info th) RT_EVENT_FLAG_AND || has_flag (event_info th) RT_EVENT_FLAG_OR = true.

(** No thread waits for bits that are set. *)
Record event_ok (o : Z) (e : rt_event) (k : kernel) : Prop := {
  eo_class : is_class RT_Object_Class_Event (ev_parent e) = true;
  eo_flag : flag (ev_parent e) = RT_IPC_FLAG_FIFO \/ flag (ev_parent e) = RT_IPC_FLAG_PRIO;
  eo_set : fits 32 (ev_set e);
  eo_waiters : forall x, x ∈ queues k (QSuspend o) ->
    exists th, threads k !! x = Some th /\ waits_well th /\ satisfied th (ev_set e) = false
}.

Lemma set_event_benign es info th : benign th (set_event es info th).
Proof. by split_and!. Qed.

(** The kernel after the walk: the threads of [ws] can run with the bits they
    received, the others are as before. *)
Record sent (k k' : kernel) (q : queue) (ws : list (Z * Z)) (l : list Z) : Prop := {
  sn_kernel : kernel_ok k';
  sn_timing : timing_ok k';
  sn_queue : queues k' q = l;
  sn_others : forall x, x ∉ map fst ws -> threads k' !! x = threads k !! x;
  sn_woken : forall x r, (x, r) ∈ ws -> exists th, threads k' !! x = Some th /\ runnable th /\
               error th = RT_EOK /\ event_set th = r;
  sn_current : current_thread k' = current_thread k;
  sn_lock : lock_nest k' = lock_nest k;
  sn_nest : interrupt_nest k' = interrupt_nest k
}.

Lemma filter_middle (x : Z) l1 l2 : NoDup (l1 ++ x :: l2) -> filter (fun y => y <> x) (l1 ++ x :: l2) = l1 ++ l2.
Proof.
  intros Hnd. apply NoDup_app in Hnd as (_ & H1 & Hnd). apply NoDup_cons in Hnd as [H2 _].
  rewrite filter_app, filter_cons_False by tauto. f_equal; apply filter_nil_iff; [|done].
  intros Hx. apply (H1 x Hx). left.
Qed.

(** One thread of the list is given [got] and resumed. *)
Lemma wake_one o k pre t th l got : kernel_ok k -> timing_ok k -> queues k (QSuspend o) = pre ++ t :: l ->
  threads k !! t = Some th -> error th = RT_EOK ->
  exists k', (k ← upd_thread t (set_event got (event_info th)) k; '(_, k) ← rt_thread_resume t k; Some k) = Some k' /\
    sent k k' (QSuspend o) [(t, got)] (pre ++ l).
Proof.
  intros Hk Htk Hq Ht He. pose proof (ko_stacks _ Hk) as Hst. pose proof (sv_inv _ (ko_sched _ Hk)) as Hi.
  destruct (kernel_ok_benign k t th (set_event got (event_info th)) Hk Ht)
    as (k1 & -> & Hk1 & Hti & Hq1 & Hcu1 & Hl1 & _ & Ht1); [apply set_event_benign|by apply (Hst t th)|].
  rewrite some_bind.
  destruct (thread_resume_ok k1 (QSuspend o) t Hk1) as (k2 & th1 & -> & Hth1 & [Hk2 Hq2 _ Ht2 Hcu2 Htk2 Hl2 Hn2]);
    [by apply (timing_same k)|done|rewrite Hq1, Hq; apply elem_of_app; right; left|].
  rewrite some_bind. exists k2. split; [done|].
  rewrite Ht1, lookup_insert_eq in Hth1. injection Hth1 as <-. split; try done; try congruence.
  - rewrite Hq2, Hq1, Hq. apply filter_middle. rewrite <- Hq. apply (si_nodup [] k Hi).
  - intros x Hx. assert (x <> t) by (intros ->; apply Hx; left).
    by rewrite Ht2, lookup_insert_ne, Ht1, lookup_insert_ne.
  - intros x r Hx. apply list_elem_of_singleton in Hx as [= -> ->].
    rewrite Ht2, lookup_insert_eq. eexists. split; [done|]. split; [apply insert_state_runnable|]. by split.
  - rewrite Hn2. apply Hti.
Qed.

Lemma set_event_same t th k : threads k !! t = Some th ->
  upd_thread t (set_event (event_set th) (event_info th)) k = Some k.
Proof.
  intros Ht. rewrite (upd_thread_some t th) by done. f_equal. destruct k, th; simpl in *. f_equal.
  by rewrite insert_id.
Qed.

(** One step of the walk. *)
Lemma send_loop_step t th l st ns k : threads k !! t = Some th -> waits_well th ->
  event_send_loop (t :: l) st ns k =
    if satisfied th st then
      '(_, k) ← (k ← upd_thread t (set_event (Z.land (event_set th) st) (event_info th)) k; rt_thread_resume t k);
      event_send_loop l (left_by th st) true k
    else event_send_loop l st ns k.
Proof.
  intros Ht (_ & _ & Hf). cbn [event_send_loop]. rewrite Ht, some_bind. unfold satisfied, left_by.
  destruct (has_flag (event_info th) RT_EVENT_FLAG_AND).
  - destruct (Z.eqb_spec (Z.land (event_set th) st) (event_set th)) as [Hl|]; [|done].
    by rewrite Hl, set_event_same, some_bind.
  - simpl in Hf. rewrite Hf. destruct (negb _); [|done].
    by destruct (upd_thread t _ k).
Qed.

Lemma sent_nothing k q l : kernel_ok k -> timing_ok k -> queues k q = l -> sent k k q [] l.
Proof. intros Hk Htk Hq. split; try done. intros x r Hx. by apply elem_of_nil in Hx. Qed.

(** Two walks, of different threads, one after the other. *)
Lemma sent_trans k1 k2 k3 q ws1 ws2 l2 l3 : (forall x, x ∈ map fst ws1 -> x ∉ map fst ws2) ->
  sent k1 k2 q ws1 l2 -> sent k2 k3 q ws2 l3 -> sent k1 k3 q (ws1 ++ ws2) l3.
Proof.
  intros Hdis [_ _ _ O1 W1 C1 L1 N1] [K2 T2 Q2 O2 W2 C2 L2 N2]. split; try done; try congruence.
  - intros x Hx. rewrite map_app, elem_of_app in Hx. rewrite O2, O1; [done|..]; intros H; apply Hx; auto.
  - intros x r Hx. apply elem_of_app in Hx as [Hx|Hx]; [|by apply W2].
    destruct (W1 x r Hx) as (th & Hth & H). exists th. split; [|done]. rewrite O2; [done|]. apply Hdis.
    apply list_elem_of_In, in_map_iff. exists (x, r). split; [done|]. by apply list_elem_of_In.
Qed.

Lemma send_loop_ok o l : forall pre k st ns, kernel_ok k -> timing_ok k -> queues k (QSuspend o) = pre ++ l ->
  (forall x, x ∈ l -> exists th, threads k !! x = Some th /\ waits_well th) ->
  exists ws ss st' ns' k', event_send_loop l st ns k = Some (RT_EOK, st', ns', k') /\
    dispatched k l st ws ss st' /\ sent k k' (QSuspend o) ws (pre ++ ss) /\
    ns' = ns || negb (bool_decide (ws = [])).
Proof.
  induction l as [|t l IH]; intros pre k st ns Hk Htk Hq Hw.
  - exists [], [], st, ns, k. rewrite app_nil_r in *. split; [done|]. split; [constructor|].
    split; [by apply sent_nothing|]. by rewrite orb_false_r.
  - destruct (Hw t) as (th & Ht & Hwt); [left|]. rewrite (send_loop_step t th) by done.
    pose proof (si_nodup [] k (sv_inv _ (ko_sched _ Hk)) (QSuspend o)) as Hnd. rewrite Hq in Hnd.
    apply NoDup_app in Hnd as (_ & _ & Hnd). apply NoDup_cons in Hnd as [Htl _].
    destruct (satisfied th st) eqn:Es.
    + destruct (wake_one o k pre t th l (Z.land (event_set th) st) Hk Htk Hq Ht) as (k1 & E1 & Hs1); [apply Hwt|].
      destruct (upd_thread t (set_event (Z.land (event_set th) st) (event_info th)) k) as [k0|] in E1 |- *; [|done].
      rewrite some_bind. rewrite some_bind in E1.
      destruct (rt_thread_resume t k0) as [[r k1']|] in E1 |- *; [|done]. simpl in E1. injection E1 as ->. rewrite some_bind.
      assert (forall x, x ∈ l -> threads k1 !! x = threads k !! x) as Hsame.
      { intros x Hx. apply (sn_others _ _ _ _ _ Hs1). simpl. intros ->%list_elem_of_singleton. done. }
      destruct (IH pre k1 (left_by th st) true) as (ws & ss & st' & ns' & k' & E & Hd & Hs & ->);
        [apply Hs1|apply Hs1|apply Hs1| |].
      { intros x Hx. rewrite Hsame by done. apply Hw. by right. }
      exists ((t, Z.land (event_set th) st) :: ws), ss, st', true, k'. split; [by rewrite E|].
      split; [eapply dp_wake; [done..|]; by eapply dispatched_ext|]. split; [|by destruct ns].
      eapply (sent_trans k k1 k' _ [_] ws); [|done..]. simpl. intros x ->%list_elem_of_singleton Hx. apply Htl.
      rewrite (dispatched_incl _ _ _ _ _ _ Hd). apply elem_of_app. by left.
    + destruct (IH (pre ++ [t]) k st ns Hk Htk) as (ws & ss & st' & ns' & k' & E & Hd & Hs & ->);
        [by rewrite <- app_assoc|intros x Hx; apply Hw; by right|].
      exists ws, (t :: ss), st', (ns || negb (bool_decide (ws = []))), k'. split; [done|]. split; [by eapply dp_stay|].
      split; [|done]. by rewrite <- app_assoc in Hs.
Qed.

(** A walk that wakes nobody changes nothing. *)
Lemma send_loop_idle l : forall k st ns ss st' ns' k', 
  (forall x, x ∈ l -> exists th, threads k !! x = Some th /\ waits_well th) -> dispatched k l st [] ss st' ->
  event_send_loop l st ns k = Some (RT_EOK, st', ns', k') -> k' = k.
Proof.
  induction l as [|t l IH]; intros k st ns ss st' ns' k' Hw Hd E; [by simplify_eq/=|].
  destruct (Hw t) as (th & Ht & Hwt); [left|]. rewrite (send_loop_step t th) in E by done.
  inversion Hd as [| |t' th' l' st0 ws0 ss0 st0' Ht' Hs' Hd']; subst.
  rewrite Ht in Ht'. injection Ht' as <-. rewrite Hs' in E.
  eapply IH; [|done..]. intros x Hx. apply Hw. by right.
Qed.

Lemma lor_fits32 a b : fits 32 a -> fits 32 b -> fits 32 (Z.lor a b).
Proof.
  intros Ha Hb. apply fits_bits.
  - apply Z.lor_nonneg. unfold fits in *. lia.
  - intros j Hj. by rewrite Z.lor_spec, !bits_fits.
Qed.

Lemma subset_fits a b : subset a b -> fits 32 b -> fits 32 a.
Proof.
  intros Hs Hb. assert (0 <= a) as Ha.
  { rewrite <- Hs. apply Z.land_nonneg. right. apply Hb. }
  apply fits_bits; [done|]. intros j Hj. destruct (Z.testbit a j) eqn:E; [|done].
  rewrite subset_bits in Hs. rewrite <- (Hs j) by (lia || done). by apply bits_fits.
Qed.

(** ** Properties *)

(** C30: sending to an event.  The waiting threads are offered, in the order
    of the list, the bits set so far and those sent; whoever is satisfied is
    ready to run, its receive returns RT_EOK and its bits, and the bits it asked
    to clear are gone for the next.  The others keep waiting, and not
    one of them waits for bits that are left: no wake-up is lost.  A send of no bits
    is refused. *)
Theorem rt_event_send_spec o e k c set :
  event_ok o e k -> kernel_ok k -> timing_ok k -> current_thread k = Some c -> fits 32 set ->
  if set =? 0 then rt_event_send o e set k = Some (- RT_ERROR, e, k)
  else exists ws ss e' k',
    rt_event_send o e set k = Some (RT_EOK, e', k') /\
    dispatched k (queues k (QSuspend o)) (Z.lor (ev_set e) set) ws ss (ev_set e') /\
    queues k' (QSuspend o) = ss /\
    (forall x r, (x, r) ∈ ws -> runs k' x /\ rt_event_recv_end x k' = Some (RT_EOK, Some r)) /\
    (ws = [] -> k' = k) /\ event_ok o e' k' /\ kernel_ok k' /\ timing_ok k'.
Proof.
  intros [Hcl Hfl Hset Hwait] Hk Htk Hcu Hs. unfold rt_event_send. rewrite Hcl. cbn [assert]. rewrite some_bind.
  case_cmp; [done|].
  assert (forall x, x ∈ queues k (QSuspend o) -> exists th, threads k !! x = Some th /\ waits_well th) as Hww
    by (intros x Hx; destruct (Hwait x Hx) as (th & Hth & Hw & _); by exists th).
  destruct (send_loop_ok o (queues k (QSuspend o)) [] k (Z.lor (ev_set e) set) false Hk Htk eq_refl Hww)
    as (ws & ss & st' & ns' & k1 & E & Hd & Hsn & ->).
  rewrite E, some_bind. cbn [Z.eqb RT_EOK negb].
  assert (forall x, x ∈ ss -> exists th, threads k1 !! x = Some th /\ waits_well th /\ satisfied th st' = false) as Hstay.
  { intros x Hx. pose proof (dispatched_incl _ _ _ _ _ _ Hd) as Hp.
    destruct (Hwait x) as (th & Hth & Hw & _); [rewrite Hp; apply elem_of_app; by right|].
    exists th. split; [|split; [done|by eapply dispatched_unsatisfied]].
    rewrite (sn_others _ _ _ _ _ Hsn); [done|]. intros Hin.
    pose proof (si_nodup [] k (sv_inv _ (ko_sched _ Hk)) (QSuspend o)) as Hnd. rewrite Hp in Hnd.
    apply NoDup_app in Hnd as (_ & Hdis & _). by apply (Hdis x). }
  assert (fits 32 st') as Hst by (eapply subset_fits; [by eapply dispatched_subset|by apply lor_fits32]).
  destruct Hsn as [Hk1 Htk1 Hq1 _ Hwk Hcu1 _ _]. simpl in Hq1.
  destruct ws as [|w ws]; cbn [orb bool_decide_eq_true negb].
  - rewrite bool_decide_true by done. simpl.
    assert (k1 = k) as -> by (exact (send_loop_idle _ _ _ _ _ _ _ _ Hww Hd E)).
    exists [], ss, {| ev_parent := ev_parent e; ev_set := st' |}, k. split; [done|]. split; [done|]. split; [done|].
    split; [intros x r Hx; by apply elem_of_nil in Hx|]. split; [done|]. split; [|done]. split; try done. by rewrite Hq1.
  - rewrite bool_decide_false by done. simpl.
    destruct (schedule_total k1 c Hk1 Htk1) as (k2 & nx & E2 & Hk2 & Htk2 & Hso & _ & Hq2 & _); [congruence|].
    exists (w :: ws), ss, {| ev_parent := ev_parent e; ev_set := st' |}, k2. rewrite E2, some_bind.
    assert (queues k2 (QSuspend o) = ss) as Hq by (by rewrite Hq2). split; [done|]. split; [done|]. split; [done|].
    split; [|split; [done|split; [|done]]].
    + intros x r Hx. destruct (Hwk x r Hx) as (th & Hth & Hr & He & Hes). split.
      { eapply schedule_runs; [done|]. by exists th. }
      destruct (stat_only_lookup _ _ _ _ Hso Hth) as (th' & Hth' & Heq). unfold rt_event_recv_end.
      rewrite Hth', some_bind, Heq. simpl. by rewrite He, Hes.
    + split; try done. rewrite Hq. intros x Hx. destruct (Hstay x Hx) as (th & Hth & Hw & Hsat).
      destruct (stat_only_lookup _ _ _ _ Hso Hth) as (th' & Hth' & Heq). exists th'. split; [done|]. by rewrite Heq.
Qed.

Lemma satisfied_opt set opt th st : has_flag opt RT_EVENT_FLAG_AND || has_flag opt RT_EVENT_FLAG_OR = true ->
  (if has_flag opt RT_EVENT_FLAG_AND then Some (Z.land st set =? set)
   else if has_flag opt RT_EVENT_FLAG_OR then Some (negb (Z.land st set =? 0)) else None) =
  Some (satisfied (set_event set opt th) st).
Proof.
  unfold satisfied. simpl. rewrite (Z.land_comm set st).
  destruct (has_flag opt RT_EVENT_FLAG_AND); [done|]. simpl. by intros ->.
Qed.

(** What the invariant needs of a kernel whose waiting list has not changed. *)
Lemma event_ok_same o e e' k k' : event_ok o e k -> ev_parent e' = ev_parent e -> subset (ev_set e') (ev_set e) ->
  queues k' (QSuspend o) = queues k (QSuspend o) ->
  (forall x, x ∈ queues k (QSuspend o) -> threads k' !! x = threads k !! x) -> event_ok o e' k'.
Proof.
  intros [Hcl Hfl Hset Hw] Hp Hs Hq Ht. split; rewrite ?Hp; try done.
  - by apply (subset_fits _ (ev_set e)).
  - intros x Hx. rewrite Hq in Hx. rewrite Ht by done. destruct (Hw x Hx) as (th & Hth & Hww & Hsat).
    exists th. split; [done|]. split; [done|]. by apply (unsatisfied_subset _ _ (ev_set e)).
Qed.

(** The thread about to receive: its error is reset, its request filled in. *)
Definition asking (set opt : Z) (cth : rt_thread) : rt_thread := set_event set opt (set_error RT_EOK cth).

Lemma asking_can_block k c cth set opt : can_block k c cth -> exists k0 k1,
  upd_thread c (set_error RT_EOK) k = Some k0 /\ upd_thread c (set_event set opt) k0 = Some k1 /\
  can_block k1 c (asking set opt cth) /\ queues k1 = queues k /\
  (forall x, x <> c -> threads k1 !! x = threads k !! x).
Proof.
  intros Hcb. destruct (reset_error_can_block k c cth Hcb) as [E0 Hcb0]. eexists _, _. split; [exact E0|].
  destruct (can_block_upd _ c _ (set_event set opt) Hcb0) as [E1 Hcb1]; [apply set_event_benign| |].
  - exact (ko_stacks _ (cb_kernel _ _ _ Hcb) c cth (cb_thread _ _ _ Hcb)).
  - split; [exact E1|]. split; [exact Hcb1|]. split; [done|]. intros x Hx. simpl. by rewrite !lookup_insert_ne.
Qed.

Lemma event_wait_ok o e k k1 c cth set opt timeout : event_ok o e k -> can_block k c cth ->
  can_block k1 c (asking set opt cth) -> queues k1 = queues k -> (forall x, x <> c -> threads k1 !! x = threads k !! x) ->
  0 < set < 2 ^ 32 -> has_flag opt RT_EVENT_FLAG_AND || has_flag opt RT_EVENT_FLAG_OR = true ->
  satisfied (asking set opt cth) (ev_set e) = false -> timeout < WINDOW ->
  exists k' l', ipc_wait (QSuspend o) c (flag (ev_parent e)) timeout k1 = Some k' /\
    placed k c (current_priority cth) (queues k (QSuspend o)) (flag (ev_parent e)) l' /\
    blocked k1 k' c (QSuspend o) l' /\ event_ok o e k'.
Proof.
  intros [Hcl Hfl Hset Hw] Hcb Hcb1 Hq1 Ht1 Hs Hopt Hsat Hti.
  destruct (ipc_wait_ok k1 c _ (QSuspend o) (flag (ev_parent e)) timeout Hcb1 eq_refl Hfl Hti) as (k' & l' & E & Hpl & Hb).
  exists k', l'. split; [done|]. rewrite Hq1 in Hpl.
  assert (placed k c (current_priority cth) (queues k (QSuspend o)) (flag (ev_parent e)) l') as Hpl'.
  { apply (placed_ext k k1); [|exact Hpl]. intros x Hx. apply Ht1. intros ->.
    by apply (can_block_not_waiting k c cth (QSuspend o)). }
  split; [done|]. split; [done|]. destruct Hb as [_ Hq _ Hso _ _ _ _ _]. split; try done.
  intros x Hx. rewrite Hq, (placed_permutation _ _ _ _ _ _ Hpl') in Hx.
  assert (exists th, threads k1 !! x = Some th /\ waits_well th /\ satisfied th (ev_set e) = false) as (th & Hth & Hww).
  { destruct (decide (x = c)) as [->|Hxc].
    - exists (asking set opt cth). split; [apply Hcb1|]. done.
    - apply elem_of_cons in Hx as [|Hx]; [done|]. rewrite Ht1 by done. by apply Hw. }
  destruct (stat_only_lookup _ _ _ _ Hso Hth) as (th' & Hth' & Heq). exists th'. split; [done|]. by rewrite Heq.
Qed.

(** Receiving from an event.  A request that the bits set satisfy returns
    at once with these bits, which are cleared if asked for; any other is
    answered with -RT_ETIMEOUT when it may not wait, and else the caller waits
    in its place with its request.  Nobody ever waits for bits that are set. *)
Lemma rt_event_recv_spec o e k c cth set opt timeout :
  event_ok o e k -> can_block k c cth -> timeout < WINDOW -> 0 < set < 2 ^ 32 ->
  has_flag opt RT_EVENT_FLAG_AND || has_flag opt RT_EVENT_FLAG_OR = true ->
  if satisfied (asking set opt cth) (ev_set e) then exists k',
    let e' := {| e with ev_set := if has_flag opt RT_EVENT_FLAG_CLEAR then Z.ldiff (ev_set e) set else ev_set e |} in
    rt_event_recv o e set opt timeout k = Some (Returned RT_EOK, Some (Z.land (ev_set e) set), e', k') /\
    can_block k' c (asking (Z.land (ev_set e) set) opt cth) /\ queues k' = queues k /\ event_ok o e' k'
  else if timeout =? 0 then exists k',
    rt_event_recv o e set opt timeout k = Some (Returned (- RT_ETIMEOUT), None, e, k') /\
    queues k' = queues k /\ event_ok o e k'
  else exists k1 k' l',
    rt_event_recv o e set opt timeout k = Some (Waiting, None, e, k') /\
    placed k c (current_priority cth) (queues k (QSuspend o)) (flag (ev_parent e)) l' /\
    threads k1 !! c = Some (asking set opt cth) /\ blocked k1 k' c (QSuspend o) l' /\ event_ok o e k'.
Proof.
  intros He Hcb Hti Hs Hopt. pose proof He as [Hcl _ _ _]. destruct (thread_context k c cth Hcb) as [Ectx Eself].
  assert (forall x, x ∈ queues k (QSuspend o) -> x <> c) as Hnc
    by (intros x Hx ->; by apply (can_block_not_waiting k c cth (QSuspend o))).
  unfold rt_event_recv. rewrite Ectx, some_bind, Hcl. cbn [assert]. rewrite some_bind, (proj2 (Z.eqb_neq set 0)) by lia.
  rewrite Eself, some_bind, (satisfied_opt set opt (set_error RT_EOK cth)) by done. fold (asking set opt cth).
  destruct (satisfied (asking set opt cth) (ev_set e)) eqn:Esat.
  - destruct (asking_can_block k c cth (Z.land (ev_set e) set) opt Hcb) as (k0 & k1 & -> & E1 & Hcb1 & Hq1 & Ht1).
    exists k1. rewrite !some_bind, E1, some_bind, (cb_thread _ _ _ Hcb1), some_bind.
    split; [by destruct (has_flag opt RT_EVENT_FLAG_CLEAR), e|].
    split; [done|]. split; [done|]. apply (event_ok_same o e _ k); [done|done| |by rewrite Hq1|].
    + simpl. destruct (has_flag opt RT_EVENT_FLAG_CLEAR); [apply subset_ldiff|apply Z.land_diag].
    + intros x Hx. apply Ht1. by apply Hnc.
  - case_cmp.
    + destruct (reset_error_can_block k c cth Hcb) as [-> Hcb0]. rewrite !some_bind.
      destruct (can_block_upd _ c _ (set_error (- RT_ETIMEOUT)) Hcb0) as [-> Hcb1]; [apply set_error_benign| |].
      { exact (ko_stacks _ (cb_kernel _ _ _ Hcb) c cth (cb_thread _ _ _ Hcb)). }
      eexists. split; [done|]. split; [done|]. apply (event_ok_same o e e k); [done|done|apply Z.land_diag|done|].
      intros x Hx. simpl. by rewrite !lookup_insert_ne by (intros <-; by apply (Hnc c)).
    + destruct (asking_can_block k c cth set opt Hcb) as (k0 & k1 & -> & E1 & Hcb1 & Hq1 & Ht1).
      destruct (event_wait_ok o e k k1 c cth set opt timeout) as (k' & l' & E & H); [done..|].
      exists k1, k', l'. rewrite !some_bind, E1, some_bind, E, some_bind. split; [done|].
      split; [apply H|]. split; [apply Hcb1|]. apply H.
Qed.

(** An event at address 500 with one bit set; thread 1 of the demonstration
    kernel waits for it and another one, until that is sent. *)
Definition demo_event : rt_event :=
  {| ev_parent := {| name := bytes "evt"; type := Z.lor RT_Object_Class_Static RT_Object_Class_Event;
                     flag := RT_IPC_FLAG_PRIO |}; ev_set := 4 |}.

Lemma demo_event_ok : event_ok 500 demo_event demo_kernel.
Proof.
  assert (queues demo_kernel (QSuspend 500) = []) as Hq by (vm_compute; reflexivity).
  split; rewrite ?Hq; [reflexivity|right; reflexivity|simpl; unfold fits; lia|].
  intros x Hx. destruct (not_elem_of_nil x Hx).
Qed.

Definition demo_opt : Z := Z.lor RT_EVENT_FLAG_AND RT_EVENT_FLAG_CLEAR.

Lemma demo_recv_waits : satisfied (asking 6 demo_opt demo_current) (ev_set demo_event) = false.
Proof. reflexivity. Qed.

Lemma rt_event_recv_spec_witness : exists k',
  rt_event_recv 500 demo_event 6 demo_opt 7 demo_kernel = Some (Waiting, None, demo_event, k') /\
  event_ok 500 demo_event k'.
Proof.
  pose proof (rt_event_recv_spec 500 demo_event demo_kernel 1 demo_current 6 demo_opt 7 demo_event_ok demo_can_block
    eq_refl ltac:(lia) eq_refl) as H.
  rewrite demo_recv_waits in H. change (7 =? 0) with false in H. cbv iota in H.
  destruct H as (k1 & k' & l' & E & _ & _ & _ & Hok). exists k'. split; [exact E|exact Hok].
Defined.

Lemma demo_event_waiting : exists k' n, event_ok 500 demo_event k' /\ kernel_ok k' /\ timing_ok k' /\
  current_thread k' = Some n /\ queues k' (QSuspend 500) = [1] /\
  exists th, threads k' !! 1 = Some th /\ satisfied th 6 = true /\ event_set th = 6.
Proof.
  destruct (asking_can_block demo_kernel 1 demo_current 6 demo_opt demo_can_block) as (k0 & k1 & _ & _ & Hcb1 & Hq1 & Ht1).
  destruct (event_wait_ok 500 demo_event demo_kernel k1 1 demo_current 6 demo_opt 7 demo_event_ok demo_can_block
    Hcb1 Hq1 Ht1 ltac:(lia) eq_refl demo_recv_waits eq_refl) as (k' & l' & _ & Hpl & [Hk Hq _ Hso _ Hn Htk _ _] & Hok).
  destruct Hn as (n & _ & Hcu & _). exists k', n. split; [exact Hok|]. split; [exact Hk|]. split; [exact Htk|]. split; [exact Hcu|].
  assert (queues demo_kernel (QSuspend 500) = []) as Hq0 by (vm_compute; reflexivity).
  apply placed_permutation in Hpl. rewrite Hq0 in Hpl. apply Permutation_singleton_r in Hpl as ->. split; [exact Hq|].
  destruct (stat_only_lookup _ _ _ _ Hso (cb_thread _ _ _ Hcb1)) as (th & Hth & Heq).
  exists th. split; [exact Hth|]. rewrite Heq. split; reflexivity.
Qed.

Lemma rt_event_send_spec_witness : exists k e' k',
  queues k (QSuspend 500) = [1] /\ rt_event_send 500 demo_event 2 k = Some (RT_EOK, e', k') /\
  queues k' (QSuspend 500) = [] /\ rt_event_recv_end 1 k' = Some (RT_EOK, Some 6).
Proof.
  destruct demo_event_waiting as (k & n & Hok & Hk & Htk & Hcu & Hq & th & Hth & Hsat & Hes). exists k.
  destruct (rt_event_send_spec 500 demo_event k n 2 Hok Hk Htk Hcu ltac:(unfold fits; lia))
    as (ws & ss & e' & k' & E & Hd & Hq' & Hw & _).
  exists e', k'. split; [exact Hq|]. split; [exact E|]. rewrite Hq in Hd. change (Z.lor (ev_set demo_event) 2) with 6 in Hd.
  inversion Hd as [|t th' l st ws' ss' st' Ht Hs Hd'|t th' l st ws' ss' st' Ht Hs Hd']; subst;
    rewrite Hth in Ht; injection Ht as <-; [|rewrite Hsat in Hs; discriminate].
  inversion Hd'; subst. split; [congruence|]. rewrite Hes in Hw. apply (Hw 1 6). left.
Defined.
