(* ===== verification/Mailbox.v ===== *)
(** * Mailboxes (rt-thread/src/ipc.c)

    The mailbox at address [o] is a record next to the kernel, with the words its
    pool holds; the threads waiting for mail are in [QSuspend o], those waiting
    to send in [QSender o].  A send or receive that blocks and is resumed tries
    again: the loop of rt_mb_send_wait is [mb_send_try] and, for each time the
    thread was resumed, [rt_mb_send_again]. *)
From S2P Require Import Prelude Ring Mem Kernel Sched Timer Ipc.

Definition RT_MB_ENTRY_MAX : Z := 65535.

Record rt_mailbox := {
  mb_parent : rt_object;
  msg_pool : Z;                 (** the address of the pool *)
  words : list Z;               (** what the pool holds *)
  mb_size : Z; mb_entry : Z; in_offset : Z; out_offset : Z  (** uint16 *)
}.

Definition mb_fields (ob : rt_object) (pool : Z) (ws : list Z) (size : Z) : rt_mailbox :=
  {| mb_parent := ob; msg_pool := pool; words := ws; mb_size := u16 size;
     mb_entry := 0; in_offset := 0; out_offset := 0 |}.

(** [ws] is what the memory at [pool] holds. *)
Definition rt_mb_init (o : Z) (mb : rt_mailbox) (nm : list Z) (pool : Z) (ws : list Z) (size fl : Z) (k : kernel)
  : option (Z * rt_mailbox * kernel) :=
  '(ob, k) ← rt_object_init (Obj o) (mb_parent mb) RT_Object_Class_MailBox nm k;
  Some (RT_EOK, mb_fields (set_flag fl ob) pool ws size,
        set_queue (QSender o) [] (set_queue (QSuspend o) [] k)).

Definition mb_resume_all (o : Z) (k : kernel) : option kernel :=
  k ← rt_ipc_list_resume_all (QSuspend o) k;
  rt_ipc_list_resume_all (QSender o) k.

Definition rt_mb_detach (o : Z) (mb : rt_mailbox) (k : kernel) : option (Z * rt_mailbox * kernel) :=
  _ ← assert (is_class RT_Object_Class_MailBox (mb_parent mb));
  _ ← assert (rt_object_is_systemobject (mb_parent mb));
  k ← mb_resume_all o k;
  let '(ob, k) := rt_object_detach (Obj o) (mb_parent mb) k in
  Some (RT_EOK, {| mb with mb_parent := ob |}, k).

(** [ws] is what the allocated memory holds. *)
Definition rt_mb_create (nm : list Z) (size fl : Z) (ws : list Z) (k : kernel)
  : option (option (Z * rt_mailbox) * kernel) :=
  _ ← RT_DEBUG_NOT_IN_INTERRUPT k;
  '(r, k) ← rt_object_allocate RT_Object_Class_MailBox nm k;
  match r with
  | None => Some (None, k)
  | Some (o, ob) =>
      let ob := set_flag fl ob in
      let k := set_queue (QSuspend o) [] k in
      '(p, h) ← rt_malloc (u32 (u16 size * 4)) (kheap k);
      let k := {| k with kheap := h |} in
      match p with
      | None => '(_, k) ← rt_object_delete o ob k; Some (None, k)
      | Some pool => Some (Some (o, mb_fields ob pool ws size), set_queue (QSender o) [] k)
      end
  end.

Definition rt_mb_delete (o : Z) (mb : rt_mailbox) (k : kernel) : option (Z * kernel) :=
  _ ← RT_DEBUG_NOT_IN_INTERRUPT k;
  _ ← assert (is_class RT_Object_Class_MailBox (mb_parent mb));
  _ ← assert (negb (rt_object_is_systemobject (mb_parent mb)));
  k ← mb_resume_all o k;
  h ← rt_free (Some (msg_pool mb)) (kheap k);
  '(_, k) ← rt_object_delete o (mb_parent mb) {| k with kheap := h |};
  Some (RT_EOK, k).

(** Resuming the first thread of a list, if there is one. *)
Definition wake_first (q : queue) (k : kernel) : option kernel :=
  match queues k q with
  | _ :: _ => k ← rt_ipc_list_resume q k; rt_schedule k
  | [] => Some k
  end.

Definition next_offset (mb : rt_mailbox) (i : Z) : Z :=
  let i := u16 (i + 1) in if mb_size mb <=? i then 0 else i.

(** A free place is there: the word is stored. *)
Definition mb_put (o : Z) (mb : rt_mailbox) (value : Z) (k : kernel) : option (attempt * rt_mailbox * kernel) :=
  _ ← words mb !! Z.to_nat (in_offset mb);
  let mb := {| mb with words := <[Z.to_nat (in_offset mb) := value]> (words mb);
                       in_offset := next_offset mb (in_offset mb) |} in
  if mb_entry mb <? RT_MB_ENTRY_MAX then
    let mb := {| mb with mb_entry := u16 (mb_entry mb + 1) |} in
    k ← wake_first (QSuspend o) k;
    Some (Done RT_EOK, mb, k)
  else Some (Done (- RT_EFULL), mb, k).

Definition mb_send_try (o : Z) (mb : rt_mailbox) (value timeout : Z) (k : kernel)
  : option (attempt * rt_mailbox * kernel) :=
  if mb_entry mb =? mb_size mb then
    t ← rt_thread_self k;
    k ← upd_thread t (set_error RT_EOK) k;
    if timeout =? 0 then Some (Done (- RT_EFULL), mb, k)
    else
      _ ← RT_DEBUG_IN_THREAD_CONTEXT k;
      let tick_delta := if 0 <? timeout then rt_tick_get k else 0 in
      k ← ipc_wait (QSender o) t (flag (mb_parent mb)) timeout k;
      Some (Blocked timeout tick_delta, mb, k)
  else mb_put o mb value k.

Definition rt_mb_send_wait (o : Z) (mb : rt_mailbox) (value timeout : Z) (k : kernel)
  : option (attempt * rt_mailbox * kernel) :=
  _ ← assert (is_class RT_Object_Class_MailBox (mb_parent mb));
  if (mb_entry mb =? mb_size mb) && (timeout =? 0) then Some (Done (- RT_EFULL), mb, k)
  else mb_send_try o mb value timeout k.

(** The sender was resumed and runs. *)
Definition rt_mb_send_again (o : Z) (mb : rt_mailbox) (value timeout tick_delta : Z) (k : kernel)
  : option (attempt * rt_mailbox * kernel) :=
  t ← rt_thread_self k;
  th ← threads k !! t;
  if negb (error th =? RT_EOK) then Some (Done (error th), mb, k)
  else mb_send_try o mb value (time_left timeout tick_delta k) k.

Definition rt_mb_send (o : Z) (mb : rt_mailbox) (value : Z) (k : kernel)
  : option (attempt * rt_mailbox * kernel) := rt_mb_send_wait o mb value 0 k.

(** A word is there: it is stored at [value]. *)
Definition mb_get (o : Z) (mb : rt_mailbox) (k : kernel) : option (attempt * option Z * rt_mailbox * kernel) :=
  value ← words mb !! Z.to_nat (out_offset mb);
  let mb := {| mb with out_offset := next_offset mb (out_offset mb);
                       mb_entry := if 0 <? mb_entry mb then u16 (mb_entry mb - 1) else mb_entry mb |} in
  k ← wake_first (QSender o) k;
  Some (Done RT_EOK, Some value, mb, k).

Definition mb_recv_try (o : Z) (mb : rt_mailbox) (timeout : Z) (k : kernel)
  : option (attempt * option Z * rt_mailbox * kernel) :=
  if mb_entry mb =? 0 then
    t ← rt_thread_self k;
    k ← upd_thread t (set_error RT_EOK) k;
    if timeout =? 0 then
      k ← upd_thread t (set_error (- RT_ETIMEOUT)) k;
      Some (Done (- RT_ETIMEOUT), None, mb, k)
    else
      _ ← RT_DEBUG_IN_THREAD_CONTEXT k;
      let tick_delta := if 0 <? timeout then rt_tick_get k else 0 in
      k ← ipc_wait (QSuspend o) t (flag (mb_parent mb)) timeout k;
      Some (Blocked timeout tick_delta, None, mb, k)
  else mb_get o mb k.

Definition rt_mb_recv (o : Z) (mb : rt_mailbox) (timeout : Z) (k : kernel)
  : option (attempt * option Z * rt_mailbox * kernel) :=
  _ ← assert (is_class RT_Object_Class_MailBox (mb_parent mb));
  if (mb_entry mb =? 0) && (timeout =? 0) then Some (Done (- RT_ETIMEOUT), None, mb, k)
  else mb_recv_try o mb timeout k.

(** The receiver was resumed and runs. *)
Definition rt_mb_recv_again (o : Z) (mb : rt_mailbox) (timeout tick_delta : Z) (k : kernel)
  : option (attempt * option Z * rt_mailbox * kernel) :=
  t ← rt_thread_self k;
  th ← threads k !! t;
  if negb (error th =? RT_EOK) then Some (Done (error th), None, mb, k)
  else mb_recv_try o mb (time_left timeout tick_delta k) k.

Definition rt_mb_control (o : Z) (mb : rt_mailbox) (cmd : Z) (k : kernel) : option (Z * rt_mailbox * kernel) :=
  _ ← assert (is_class RT_Object_Class_MailBox (mb_parent mb));
  if cmd =? RT_IPC_CMD_RESET then
    k ← mb_resume_all o k;
    k ← rt_schedule k;
    Some (RT_EOK, {| mb with mb_entry := 0; in_offset := 0; out_offset := 0 |}, k)
  else Some (- RT_ERROR, mb, k).

(** ** The mailbox as a queue *)
Record mb_ok (mb : rt_mailbox) : Prop := {
  mb_class : is_class RT_Object_Class_MailBox (mb_parent mb) = true;
  mb_flag : flag (mb_parent mb) = RT_IPC_FLAG_FIFO \/ flag (mb_parent mb) = RT_IPC_FLAG_PRIO;
  mb_words : lenZ (words mb) = mb_size mb;
  mb_sized : 0 < mb_size mb <= RT_MB_ENTRY_MAX;
  mb_entries : 0 <= mb_entry mb <= mb_size mb;
  mb_out : 0 <= out_offset mb < mb_size mb;
  mb_in : in_offset mb = (out_offset mb + mb_entry mb) mod mb_size mb
}.

(** The words in the mailbox, the oldest first. *)
Definition content (mb : rt_mailbox) : list Z := ring 0 (words mb) (out_offset mb) (mb_entry mb).

Lemma next_offset_mod mb i : 0 < mb_size mb <= RT_MB_ENTRY_MAX -> 0 <= i < mb_size mb ->
  next_offset mb i = (i + 1) mod mb_size mb.
Proof.
  unfold RT_MB_ENTRY_MAX. intros Hs Hi. unfold next_offset. rewrite wrap_id by (unfold fits; lia). by apply next_mod.
Qed.

(** The mailbox after [v] is put and after the oldest word is taken. *)
Definition mb_pushed (mb : rt_mailbox) (v : Z) : rt_mailbox :=
  {| mb with words := updZ (words mb) (in_offset mb) v;
             in_offset := next_offset mb (in_offset mb); mb_entry := mb_entry mb + 1 |}.

Definition mb_popped (mb : rt_mailbox) : rt_mailbox :=
  {| mb with out_offset := next_offset mb (out_offset mb); mb_entry := mb_entry mb - 1 |}.

Lemma in_offset_range mb : mb_ok mb -> 0 <= in_offset mb < mb_size mb.
Proof. intros [_ _ _ H _ _ ->]. apply Z.mod_pos_bound. lia. Qed.

Lemma pushed_ok mb v : mb_ok mb -> mb_entry mb < mb_size mb -> mb_ok (mb_pushed mb v).
Proof.
  intros Hm He. pose proof (in_offset_range mb Hm) as Hi. destruct Hm as [H1 H2 H3 H4 H5 H6 H7].
  split; simpl; try done; [by rewrite lenZ_updZ|lia|].
  rewrite next_offset_mod, H7, Zplus_mod_idemp_l by done. f_equal. lia.
Qed.

Lemma pushed_content mb v : mb_ok mb -> mb_entry mb < mb_size mb -> content (mb_pushed mb v) = content mb ++ [v].
Proof.
  intros [_ _ H3 H4 H5 H6 H7] He. unfold content. simpl. rewrite H7, <- H3. apply ring_push. lia.
Qed.

Lemma popped_ok mb : mb_ok mb -> 0 < mb_entry mb -> mb_ok (mb_popped mb).
Proof.
  intros [H1 H2 H3 H4 H5 H6 H7] He. split; simpl; try done; [lia|..].
  - rewrite next_offset_mod by done. apply Z.mod_pos_bound. lia.
  - rewrite next_offset_mod, Zplus_mod_idemp_l, H7 by done. f_equal. lia.
Qed.

Lemma popped_content mb : mb_ok mb -> 0 < mb_entry mb ->
  content mb = nthZ 0 (words mb) (out_offset mb) :: content (mb_popped mb).
Proof.
  intros [_ _ H3 H4 _ H6 _] He. unfold content. simpl. rewrite ring_pop, Z.mod_small by lia.
  by rewrite next_offset_mod, <- H3, ring_start_mod by done.
Qed.

Lemma content_nil mb : mb_ok mb -> content mb = [] <-> mb_entry mb = 0.
Proof. intros [_ _ _ _ H5 _ _]. apply ring_nil_iff. lia. Qed.

(** ** Operations *)

Lemma wake_first_ok k c q : kernel_ok k -> timing_ok k -> current_thread k = Some c -> queue_state q = RT_THREAD_SUSPEND ->
  exists k', wake_first q k = Some k' /\ first_woken k k' q.
Proof.
  intros Hk Htk Hcu Hqs. unfold wake_first, first_woken. destruct (queues k q) as [|w l] eqn:Hq; [by exists k|].
  destruct (wake_ok k c q w l Hk Htk Hcu Hqs Hq) as (k' & E & Hw). exists k'. by split.
Qed.

Lemma u16_entry z : 0 <= z <= RT_MB_ENTRY_MAX -> u16 z = z.
Proof. intros H. apply wrap_id. unfold fits, RT_MB_ENTRY_MAX in *. lia. Qed.

(** What [mb_put] and [mb_get] make of the mailbox, whatever the kernel does. *)
Lemma mb_put_pushed o mb v k : mb_ok mb -> mb_entry mb < mb_size mb ->
  mb_put o mb v k = (k ← wake_first (QSuspend o) k; Some (Done RT_EOK, mb_pushed mb v, k)).
Proof.
  intros Hm He. pose proof (in_offset_range mb Hm) as Hi. destruct Hm as [_ _ H3 H4 H5 _ _]. unfold mb_put.
  rewrite (lookup_nthZ 0) by lia.
  rewrite some_bind. simpl. rewrite (proj2 (Z.ltb_lt _ _)) by lia. by rewrite u16_entry by lia.
Qed.

Lemma mb_get_popped o mb k : mb_ok mb -> 0 < mb_entry mb ->
  mb_get o mb k = (k ← wake_first (QSender o) k; Some (Done RT_EOK, Some (nthZ 0 (words mb) (out_offset mb)), mb_popped mb, k)).
Proof.
  intros [_ _ H3 H4 H5 H6 _] He. unfold mb_get. rewrite (lookup_nthZ 0) by lia.
  rewrite some_bind. simpl. rewrite (proj2 (Z.ltb_lt _ _)) by lia. by rewrite u16_entry by lia.
Qed.

Lemma mb_wait_ok o q mb k c cth timeout : q = QSuspend o \/ q = QSender o -> mb_ok mb -> can_block k c cth -> timeout < WINDOW ->
  exists k' l', ipc_wait q c (flag (mb_parent mb)) timeout (reset_error c cth k) = Some k' /\
    placed k c (current_priority cth) (queues k q) (flag (mb_parent mb)) l' /\
    blocked (reset_error c cth k) k' c q l'.
Proof.
  intros Hq [_ Hfl _ _ _ _ _] Hcb Hti. destruct (reset_error_can_block k c cth Hcb) as [_ Hcb0].
  destruct (ipc_wait_ok _ c _ q (flag (mb_parent mb)) timeout Hcb0) as (k' & l' & E & Hpl & Hb);
    [by destruct Hq as [-> | ->]|done..|].
  exists k', l'. split; [done|]. split; [|done]. apply (placed_ext k (reset_error c cth k)); [|exact Hpl].
  intros x Hx. simpl. rewrite lookup_insert_ne; [done|]. intros ->. by apply (can_block_not_waiting k x cth q).
Qed.

(** Since which tick a wait is measured. *)
Definition wait_start (timeout : Z) (k : kernel) : Z := if 0 <? timeout then rt_tick_get k else 0.

(** Sending mail.  With a free place the word is the newest of the
    mailbox and the first thread waiting for mail is ready; a full mailbox
    refuses with -RT_EFULL, unchanged, when the sender may not wait, and
    else the sender waits in its place among the senders.  A send that may not
    wait works in an interrupt as well. *)
Lemma rt_mb_send_spec o mb v timeout k c cth :
  mb_ok mb -> kernel_ok k -> timing_ok k -> current_thread k = Some c -> (timeout <> 0 -> can_block k c cth) ->
  timeout < WINDOW ->
  if mb_entry mb <? mb_size mb then exists mb' k',
    rt_mb_send_wait o mb v timeout k = Some (Done RT_EOK, mb', k') /\ mb_ok mb' /\
    content mb' = content mb ++ [v] /\ first_woken k k' (QSuspend o)
  else if timeout =? 0 then rt_mb_send_wait o mb v timeout k = Some (Done (- RT_EFULL), mb, k)
  else exists k' l',
    rt_mb_send_wait o mb v timeout k = Some (Blocked timeout (wait_start timeout k), mb, k') /\
    placed k c (current_priority cth) (queues k (QSender o)) (flag (mb_parent mb)) l' /\
    blocked (reset_error c cth k) k' c (QSender o) l'.
Proof.
  intros Hm Hk Htk Hcu Hcb Hti. pose proof (mb_class _ Hm) as Hcl. pose proof (mb_entries _ Hm) as He.
  unfold rt_mb_send_wait, mb_send_try. rewrite Hcl. cbn [assert]. rewrite some_bind. destruct (Z.ltb_spec (mb_entry mb) (mb_size mb)).
  - rewrite (proj2 (Z.eqb_neq _ _)) by lia. simpl. rewrite mb_put_pushed by done.
    destruct (wake_first_ok k c (QSuspend o) Hk Htk Hcu eq_refl) as (k' & -> & Hw). rewrite some_bind.
    exists (mb_pushed mb v), k'. split; [done|]. split; [by apply pushed_ok|]. split; [by apply pushed_content|done].
  - rewrite (proj2 (Z.eqb_eq (mb_entry mb) (mb_size mb))) by lia. destruct (Z.eqb_spec timeout 0) as [|Hn]; [done|]. specialize (Hcb Hn).
    cbn [andb]. destruct (reset_error_can_block k c cth Hcb) as [E0 Hcb0].
    destruct (thread_context k c cth Hcb) as [_ ->]. destruct (thread_context _ c _ Hcb0) as [Ectx _].
    rewrite some_bind, E0, some_bind, Ectx, some_bind.
    destruct (mb_wait_ok o (QSender o) mb k c cth timeout ltac:(by right) Hm Hcb Hti) as (k' & l' & -> & Hpl & Hb).
    exists k', l'. by rewrite some_bind.
Qed.

(** Receiving mail: the oldest word, if there is one, and the first
    thread waiting to send is ready; else -RT_ETIMEOUT or a wait. *)
Lemma rt_mb_recv_spec o mb timeout k c cth :
  mb_ok mb -> kernel_ok k -> timing_ok k -> current_thread k = Some c -> (timeout <> 0 -> can_block k c cth) ->
  timeout < WINDOW ->
  match content mb with
  | v :: l => exists mb' k',
      rt_mb_recv o mb timeout k = Some (Done RT_EOK, Some v, mb', k') /\ mb_ok mb' /\
      content mb' = l /\ first_woken k k' (QSender o)
  | [] =>
      if timeout =? 0 then rt_mb_recv o mb timeout k = Some (Done (- RT_ETIMEOUT), None, mb, k)
      else exists k' l',
        rt_mb_recv o mb timeout k = Some (Blocked timeout (wait_start timeout k), None, mb, k') /\
        placed k c (current_priority cth) (queues k (QSuspend o)) (flag (mb_parent mb)) l' /\
        blocked (reset_error c cth k) k' c (QSuspend o) l'
  end.
Proof.
  intros Hm Hk Htk Hcu Hcb Hti. pose proof (mb_class _ Hm) as Hcl. pose proof (mb_entries _ Hm) as He.
  unfold rt_mb_recv, mb_recv_try. rewrite Hcl. cbn [assert]. rewrite some_bind. destruct (Z.eqb_spec (mb_entry mb) 0) as [H0|H0].
  - rewrite (proj2 (content_nil mb Hm) H0). destruct (Z.eqb_spec timeout 0) as [|Hn]; [done|]. specialize (Hcb Hn).
    cbn [andb]. destruct (reset_error_can_block k c cth Hcb) as [E0 Hcb0].
    destruct (thread_context k c cth Hcb) as [_ ->]. destruct (thread_context _ c _ Hcb0) as [Ectx _].
    rewrite some_bind, E0, some_bind, Ectx, some_bind.
    destruct (mb_wait_ok o (QSuspend o) mb k c cth timeout ltac:(by left) Hm Hcb Hti) as (k' & l' & -> & Hpl & Hb).
    exists k', l'. by rewrite some_bind.
  - rewrite popped_content, mb_get_popped by (done || lia).
    destruct (wake_first_ok k c (QSender o) Hk Htk Hcu eq_refl) as (k' & -> & Hw). rewrite some_bind.
    exists (mb_popped mb), k'. split; [done|]. split; [apply popped_ok; [done|lia]|by split].
Qed.

(** ** Runs *)

(** The words a send put into the mailbox and a receive took out. *)
Definition accepted (r : attempt) (v : Z) : list Z := match r with Done e => if e =? RT_EOK then [v] else [] | _ => [] end.
Definition received (r : attempt) (v : option Z) : list Z :=
  match r with Done e => if e =? RT_EOK then option_list v else [] | _ => [] end.

(** Sends and receives, first attempts and further ones, in any kernel and with
    anything happening to the kernel in between. *)
Inductive mb_step (o : Z) : rt_mailbox * kernel -> list Z * list Z -> rt_mailbox * kernel -> Prop :=
| mb_send mb k v timeout r mb' k' : rt_mb_send_wait o mb v timeout k = Some (r, mb', k') ->
    mb_step o (mb, k) (accepted r v, []) (mb', k')
| mb_send_again mb k v timeout td r mb' k' : rt_mb_send_again o mb v timeout td k = Some (r, mb', k') ->
    mb_step o (mb, k) (accepted r v, []) (mb', k')
| mb_recv mb k timeout r v mb' k' : rt_mb_recv o mb timeout k = Some (r, v, mb', k') ->
    mb_step o (mb, k) ([], received r v) (mb', k')
| mb_recv_again mb k timeout td r v mb' k' : rt_mb_recv_again o mb timeout td k = Some (r, v, mb', k') ->
    mb_step o (mb, k) ([], received r v) (mb', k')
| mb_other mb k k' : mb_step o (mb, k) ([], []) (mb, k').

(** From a state on, with the words sent and received since, in order. *)
Definition mb_reach (o : Z) : rt_mailbox * kernel -> list Z -> list Z -> rt_mailbox * kernel -> Prop := fifo_reach (mb_step o).

Lemma send_try_content o mb v timeout k r mb' k' : mb_ok mb -> mb_send_try o mb v timeout k = Some (r, mb', k') ->
  mb_ok mb' /\ content mb' = content mb ++ accepted r v.
Proof.
  intros Hm. pose proof (mb_entries _ Hm) as He. unfold mb_send_try. destruct (Z.eqb_spec (mb_entry mb) (mb_size mb)) as [Hf|Hf].
  - destruct (rt_thread_self k) as [t|]; [|done]. simpl. destruct (upd_thread t _ k) as [k1|]; [|done]. simpl.
    destruct (timeout =? 0); [intros [= <- <- <-]; simpl; by rewrite app_nil_r|].
    destruct (RT_DEBUG_IN_THREAD_CONTEXT k1); [|done]. simpl. destruct (ipc_wait _ _ _ _ _); [|done].
    intros [= <- <- <-]. simpl. by rewrite app_nil_r.
  - rewrite mb_put_pushed by (done || lia). destruct (wake_first _ k) as [k1|]; [|done]. intros [= <- <- <-].
    split; [apply pushed_ok|apply pushed_content]; done || lia.
Qed.

Lemma recv_try_content o mb timeout k r v mb' k' : mb_ok mb -> mb_recv_try o mb timeout k = Some (r, v, mb', k') ->
  mb_ok mb' /\ content mb = received r v ++ content mb'.
Proof.
  intros Hm. pose proof (mb_entries _ Hm) as He. unfold mb_recv_try. destruct (Z.eqb_spec (mb_entry mb) 0) as [Hf|Hf].
  - destruct (rt_thread_self k) as [t|]; [|done]. simpl. destruct (upd_thread t _ k) as [k1|]; [|done]. simpl.
    destruct (timeout =? 0); [destruct (upd_thread t _ k1); [|done]; by intros [= <- <- <- <-]|].
    destruct (RT_DEBUG_IN_THREAD_CONTEXT k1); [|done]. simpl. destruct (ipc_wait _ _ _ _ _); [|done].
    by intros [= <- <- <- <-].
  - rewrite mb_get_popped by (done || lia). destruct (wake_first _ k) as [k1|]; [|done]. intros [= <- <- <- <-].
    split; [apply popped_ok|simpl; apply popped_content]; done || lia.
Qed.

Lemma accepted_error e v : e <> RT_EOK -> accepted (Done e) v = [].
Proof. intros H. simpl. by rewrite (proj2 (Z.eqb_neq _ _) H). Qed.

Lemma mb_step_content o x d x' : mb_ok (fst x) -> mb_step o x d x' ->
  mb_ok (fst x') /\ content (fst x) ++ fst d = snd d ++ content (fst x').
Proof.
  intros Hm Hs. destruct Hs as [mb k v timeout r mb' k' E|mb k v timeout td r mb' k' E|mb k timeout r v mb' k' E|
    mb k timeout td r v mb' k' E|mb k k']; simpl in *.
  - unfold rt_mb_send_wait in E. rewrite (mb_class _ Hm) in E. cbn [assert] in E. rewrite some_bind in E.
    destruct (_ && _); [injection E as <- <- <-; by rewrite app_nil_r|].
    destruct (send_try_content _ _ _ _ _ _ _ _ Hm E) as [H ->]. by split.
  - unfold rt_mb_send_again in E. destruct (rt_thread_self k) as [t|]; [|done]. rewrite some_bind in E.
    destruct (threads k !! t) as [th|]; [|done]. rewrite some_bind in E.
    destruct (Z.eqb_spec (error th) RT_EOK) as [He|He]; cbn [negb] in E.
    + destruct (send_try_content _ _ _ _ _ _ _ _ Hm E) as [H ->]. by split.
    + injection E as <- <- <-. rewrite accepted_error by done. by rewrite app_nil_r.
  - unfold rt_mb_recv in E. rewrite (mb_class _ Hm) in E. cbn [assert] in E. rewrite some_bind in E.
    rewrite app_nil_r. destruct (_ && _); [by injection E as <- <- <- <-|].
    by apply (recv_try_content _ _ _ _ _ _ _ _ Hm) in E.
  - unfold rt_mb_recv_again in E. destruct (rt_thread_self k) as [t|]; [|done]. rewrite some_bind in E.
    destruct (threads k !! t) as [th|]; [|done]. rewrite some_bind in E. rewrite app_nil_r.
    destruct (Z.eqb_spec (error th) RT_EOK) as [He|He]; cbn [negb] in E.
    + by apply (recv_try_content _ _ _ _ _ _ _ _ Hm) in E.
    + injection E as <- <- <- <-. simpl. by rewrite (proj2 (Z.eqb_neq _ _) He).
  - by rewrite app_nil_r.
Qed.

(** C7: a mailbox loses, repeats and reorders nothing.  Whatever sequence of
    sends and receives (blocking or not, by any threads, resumed in any order)
    follows, the words there at the start and those accepted since, in order,
    are those received followed by those still in the mailbox, which never holds
    more than its size. *)
Theorem mailbox_fifo o mb0 k0 ins outs mb k : mb_ok mb0 -> mb_reach o (mb0, k0) ins outs (mb, k) ->
  content mb0 ++ ins = outs ++ content mb /\ lenZ (content mb) <= mb_size mb.
Proof.
  intros Hm Hr. destruct (fifo_reach_held (mb_step o) (fun x => mb_ok (fst x)) (fun x => content (fst x))
    (mb_step_content o) (mb0, k0) _ _ _ Hm Hr) as [Hm' Hc].
  split; [done|]. pose proof (mb_entries _ Hm') as He. simpl in *. unfold content. rewrite ring_length; lia.
Qed.

(** ** Witnesses: a mailbox of two places at address 500. *)
Definition demo_mb : rt_mailbox :=
  mb_fields {| name := bytes "mb"; type := Z.lor RT_Object_Class_Static RT_Object_Class_MailBox; flag := RT_IPC_FLAG_FIFO |}
    600 [0; 0] 2.

Lemma demo_mb_ok : mb_ok demo_mb.
Proof. split; try reflexivity; simpl; unfold RT_MB_ENTRY_MAX; try (left; reflexivity); change (u16 2) with 2; try lia; reflexivity. Qed.

Lemma rt_mb_send_spec_witness : exists mb' k',
  rt_mb_send_wait 500 demo_mb 7 0 demo_kernel = Some (Done RT_EOK, mb', k') /\ content mb' = [7].
Proof.
  pose proof (rt_mb_send_spec 500 demo_mb 7 0 demo_kernel 1 demo_current demo_mb_ok demo_kernel_ok demo_timing
    (cb_current _ _ _ demo_can_block) (fun _ => demo_can_block) eq_refl) as H.
  change (mb_entry demo_mb <? mb_size demo_mb) with true in H. cbv iota in H.
  destruct H as (mb' & k' & E & _ & Hc & _). exists mb', k'. split; [exact E|exact Hc].
Defined.

Definition demo_mb_full : rt_mailbox := mb_pushed (mb_pushed demo_mb 7) 8.

Lemma mailbox_fifo_witness :
  mb_reach 500 (demo_mb, demo_kernel) [7; 8] [7] (mb_popped demo_mb_full, demo_kernel) /\
  content (mb_popped demo_mb_full) = [8].
Proof.
  assert (wake_first (QSuspend 500) demo_kernel = Some demo_kernel) as Hw1.
  { unfold wake_first. assert (queues demo_kernel (QSuspend 500) = []) as -> by (vm_compute; reflexivity). reflexivity. }
  assert (wake_first (QSender 500) demo_kernel = Some demo_kernel) as Hw2.
  { unfold wake_first. assert (queues demo_kernel (QSender 500) = []) as -> by (vm_compute; reflexivity). reflexivity. }
  assert (forall mb v, mb_ok mb -> mb_entry mb < mb_size mb ->
    mb_step 500 (mb, demo_kernel) ([v], []) (mb_pushed mb v, demo_kernel)) as Hsend.
  { intros mb v Hm He. apply (mb_send 500 mb demo_kernel v 0 (Done RT_EOK)). unfold rt_mb_send_wait, mb_send_try.
    rewrite (mb_class _ Hm), (proj2 (Z.eqb_neq (mb_entry mb) (mb_size mb))) by lia.
    cbn [assert andb]. rewrite some_bind, mb_put_pushed by assumption. rewrite Hw1. reflexivity. }
  pose proof (pushed_ok demo_mb 7 demo_mb_ok eq_refl) as H1. pose proof (pushed_ok _ 8 H1 eq_refl : mb_ok demo_mb_full) as H2.
  assert (mb_step 500 (demo_mb_full, demo_kernel) ([], [7]) (mb_popped demo_mb_full, demo_kernel)) as Hrecv.
  { apply (mb_recv 500 demo_mb_full demo_kernel 0 (Done RT_EOK) (Some 7)). unfold rt_mb_recv, mb_recv_try.
    rewrite (mb_class _ H2). change (mb_entry demo_mb_full =? 0) with false.
    cbn [assert andb]. rewrite some_bind, mb_get_popped by first [exact H2 | reflexivity]. rewrite Hw2. reflexivity. }
  pose proof (fifo_next _ _ _ _ _ _ _ (fifo_next _ _ _ _ _ _ _ (fifo_next _ _ _ _ _ _ _ (fifo_start (mb_step 500) (demo_mb, demo_kernel))
    (Hsend _ 7 demo_mb_ok eq_refl)) (Hsend _ 8 H1 eq_refl)) Hrecv) as Hr.
  split; [exact Hr|]. destruct (mailbox_fifo 500 demo_mb demo_kernel _ _ _ _ demo_mb_ok Hr) as [Hc _].
  exact (app_inv_head [7] _ _ (eq_sym Hc)).
Defined.
