(* ===== verification/Dataqueue.v ===== *)
(** * Data queues (rt-thread/components/drivers/src/dataqueue.c)

    A data queue holds pointers to data with their sizes.  The queue at address
    [o] is a record next to the kernel, with the items of its array; the threads waiting
    for an item are in [QSuspend o], those waiting for a place in [QSender o].  A
    push or pop that blocks ends with the outcome [Waiting] and goes on with
    [rt_data_queue_push_again] or [rt_data_queue_pop_again].  The call of
    evt_notify is the last thing that an operation does, when its thread runs
    again: the event is in the result. *)
From S2P Require Import Prelude Ring Mem Kernel Sched Timer Ipc.

Definition DATAQUEUE_MAGIC : Z := 3199012366.  (** 0xbead0e0e *)
Definition RT_DATAQUEUE_EVENT_POP : Z := 1.
Definition RT_DATAQUEUE_EVENT_PUSH : Z := 2.
Definition RT_DATAQUEUE_EVENT_LWM : Z := 3.

Record rt_data_item := { data_ptr : Z; data_size : Z }.

Record rt_data_queue := {
  magic : Z;
  dq_size : Z; lwm : Z;                   (** uint16 *)
  get_index : Z; put_index : Z;           (** 15 bits *)
  is_empty : bool; is_full : bool;
  dq_array : option Z;                    (** the address of the array *)
  items : list rt_data_item;              (** what the array holds *)
  evt_notify : bool                       (** is there a function to call? *)
}.

(** [arr] is what the allocated memory holds. *)
Definition rt_data_queue_init (o size lw : Z) (notify : bool) (arr : list rt_data_item) (k : kernel)
  : option (Z * rt_data_queue * kernel) :=
  _ ← assert (0 <? size);
  let k := set_queue (QSender o) [] k in
  let k := set_queue (QSuspend o) [] k in
  '(p, h) ← rt_malloc (u32 (8 * size)) (kheap k);
  let q := {| magic := DATAQUEUE_MAGIC; dq_size := size; lwm := lw; get_index := 0; put_index := 0;
              is_empty := true; is_full := false; dq_array := p;
              items := if p then arr else []; evt_notify := notify |} in
  Some (if p then RT_EOK else - RT_ENOMEM, q, {| k with kheap := h |}).

(** An index is a field of 15 bits. *)
Definition dq_next (q : rt_data_queue) (i : Z) : Z :=
  let i := wrap 15 (i + 1) in if i =? dq_size q then 0 else i.

Definition notified (q : rt_data_queue) (event : Z) : option Z := if evt_notify q then Some event else None.

Definition queue_valid (q : rt_data_queue) : bool := magic q =? DATAQUEUE_MAGIC.

Definition rt_data_queue_len (q : rt_data_queue) : option Z :=
  _ ← assert (queue_valid q);
  if is_empty q then Some 0
  else
    let len := if get_index q <? put_index q then i16 (put_index q - get_index q)
               else i16 (dq_size q + put_index q - get_index q) in
    Some (u16 len).

(** There is a place. *)
Definition dq_put (o : Z) (q : rt_data_queue) (it : rt_data_item) (k : kernel)
  : option (outcome * option Z * rt_data_queue * kernel) :=
  _ ← items q !! Z.to_nat (put_index q);
  let q := {| q with items := <[Z.to_nat (put_index q) := it]> (items q);
                     put_index := dq_next q (put_index q); is_empty := false |} in
  let q := if put_index q =? get_index q then {| q with is_full := true |} else q in
  match queues k (QSuspend o) with
  | t :: _ =>
      '(_, k) ← rt_thread_resume t k;
      k ← rt_schedule k;
      Some (Returned RT_EOK, None, q, k)
  | [] => Some (Returned RT_EOK, notified q RT_DATAQUEUE_EVENT_PUSH, q, k)
  end.

(** What a push and a pop do when they cannot go on. *)
Definition dq_wait (list : queue) (timeout : Z) (k : kernel) : option kernel :=
  t ← rt_thread_self k;
  _ ← RT_DEBUG_NOT_IN_INTERRUPT k;
  k ← upd_thread t (set_error RT_EOK) k;
  ipc_wait list t RT_IPC_FLAG_FIFO timeout k.

(** From the test of the loop on. *)
Definition dq_push_try (o : Z) (q : rt_data_queue) (it : rt_data_item) (timeout : Z) (k : kernel)
  : option (outcome * option Z * rt_data_queue * kernel) :=
  if is_full q then
    if timeout =? 0 then Some (Returned (- RT_ETIMEOUT), None, q, k)
    else k ← dq_wait (QSender o) timeout k; Some (Waiting, None, q, k)
  else dq_put o q it k.

Definition rt_data_queue_push (o : Z) (q : rt_data_queue) (it : rt_data_item) (timeout : Z) (k : kernel)
  : option (outcome * option Z * rt_data_queue * kernel) :=
  _ ← assert (queue_valid q);
  dq_push_try o q it timeout k.

(** The thread that waited for a place runs again. *)
Definition rt_data_queue_push_again (o : Z) (q : rt_data_queue) (it : rt_data_item) (timeout : Z) (k : kernel)
  : option (outcome * option Z * rt_data_queue * kernel) :=
  t ← rt_thread_self k;
  th ← threads k !! t;
  if negb (error th =? RT_EOK) then Some (Returned (error th), None, q, k)
  else dq_push_try o q it timeout k.

(** There is an item. *)
Definition dq_get (o : Z) (q : rt_data_queue) (k : kernel)
  : option (outcome * option rt_data_item * option Z * rt_data_queue * kernel) :=
  it ← items q !! Z.to_nat (get_index q);
  let q := {| q with get_index := dq_next q (get_index q); is_full := false |} in
  let q := if put_index q =? get_index q then {| q with is_empty := true |} else q in
  len ← rt_data_queue_len q;
  if len <=? lwm q then
    k ← match queues k (QSender o) with
        | t :: _ => '(_, k) ← rt_thread_resume t k; rt_schedule k
        | [] => Some k
        end;
    Some (Returned RT_EOK, Some it, notified q RT_DATAQUEUE_EVENT_LWM, q, k)
  else Some (Returned RT_EOK, Some it, notified q RT_DATAQUEUE_EVENT_POP, q, k).

Definition dq_pop_try (o : Z) (q : rt_data_queue) (timeout : Z) (k : kernel)
  : option (outcome * option rt_data_item * option Z * rt_data_queue * kernel) :=
  if is_empty q then
    if timeout =? 0 then Some (Returned (- RT_ETIMEOUT), None, None, q, k)
    else k ← dq_wait (QSuspend o) timeout k; Some (Waiting, None, None, q, k)
  else dq_get o q k.

Definition rt_data_queue_pop (o : Z) (q : rt_data_queue) (timeout : Z) (k : kernel)
  : option (outcome * option rt_data_item * option Z * rt_data_queue * kernel) :=
  _ ← assert (queue_valid q);
  dq_pop_try o q timeout k.

(** The thread that waited for an item runs again. *)
Definition rt_data_queue_pop_again (o : Z) (q : rt_data_queue) (timeout : Z) (k : kernel)
  : option (outcome * option rt_data_item * option Z * rt_data_queue * kernel) :=
  t ← rt_thread_self k;
  th ← threads k !! t;
  if negb (error th =? RT_EOK) then Some (Returned (error th), None, None, q, k)
  else dq_pop_try o q timeout k.

(** The emptiness is tested before interrupts are disabled; what follows is
    [dq_peek_locked]. *)
Definition dq_peek_locked (q : rt_data_queue) : option (Z * option rt_data_item) :=
  it ← items q !! Z.to_nat (get_index q); Some (RT_EOK, Some it).

Definition rt_data_queue_peek (q : rt_data_queue) : option (Z * option rt_data_item) :=
  _ ← assert (queue_valid q);
  if is_empty q then Some (- RT_EEMPTY, None) else dq_peek_locked q.

Definition rt_data_queue_reset (o : Z) (q : rt_data_queue) (k : kernel) : option (rt_data_queue * kernel) :=
  _ ← assert (queue_valid q);
  let q := {| q with get_index := 0; put_index := 0; is_empty := true; is_full := false |} in
  let k := rt_enter_critical k in
  k ← rt_ipc_list_resume_all (QSuspend o) k;
  k ← rt_ipc_list_resume_all (QSender o) k;
  k ← rt_exit_critical k;
  k ← rt_schedule k;
  Some (q, k).

Definition rt_data_queue_deinit (o : Z) (q : rt_data_queue) (k : kernel) : option (Z * rt_data_queue * kernel) :=
  _ ← assert (queue_valid q);
  '(q, k) ← rt_data_queue_reset o q k;
  h ← rt_free (dq_array q) (kheap k);
  Some (RT_EOK, {| q with magic := 0 |}, {| k with kheap := h |}).

(** ** The queue *)
Definition no_item : rt_data_item := {| data_ptr := 0; data_size := 0 |}.

(** How many items are there, by the indices and the flags. *)
Definition dq_count (q : rt_data_queue) : Z :=
  if is_full q then dq_size q
  else if get_index q <=? put_index q then put_index q - get_index q
  else dq_size q - (get_index q - put_index q).

(** The items in the queue, the oldest first. *)
Definition dq_content (q : rt_data_queue) : list rt_data_item := ring no_item (items q) (get_index q) (dq_count q).

(** A queue with [n] items.  The indices have 15 bits, so that an array of more
    than 32768 items is not used in full. *)
Record dq_holds (q : rt_data_queue) (n : Z) : Prop := {
  dh_valid : queue_valid q = true;
  dh_items : lenZ (items q) = dq_size q;
  dh_size : 0 < dq_size q <= 32768;
  dh_get : 0 <= get_index q < dq_size q;
  dh_count : 0 <= n <= dq_size q;
  dh_put : put_index q = (get_index q + n) mod dq_size q;
  dh_empty : is_empty q = (n =? 0);
  dh_full : is_full q = (n =? dq_size q)
}.

Definition dq_ok (q : rt_data_queue) : Prop := dq_holds q (dq_count q).

Lemma holds_count q n : dq_holds q n -> dq_count q = n.
Proof.
  intros [_ _ Hs Hg Hn Hp _ Hf]. unfold dq_count. rewrite Hf. destruct (Z.eqb_spec n (dq_size q)) as [|Hne]; [done|].
  rewrite Hp. symmetry. apply distance_mod; lia.
Qed.

Lemma holds_ok q n : dq_holds q n -> dq_ok q.
Proof. intros H. unfold dq_ok. by rewrite (holds_count q n H). Qed.

Lemma dq_next_mod q i : 0 < dq_size q <= 32768 -> 0 <= i < dq_size q -> dq_next q i = (i + 1) mod dq_size q.
Proof.
  intros Hs Hi. unfold dq_next, wrap. destruct (Z.eq_dec i 32767) as [->|Hne].
  - replace (dq_size q) with 32768 by lia. reflexivity.
  - change (2 ^ 15) with 32768. rewrite (Z.mod_small _ 32768), <- next_mod by lia. destruct (Z.eqb_spec (i + 1) (dq_size q)), (Z.leb_spec (dq_size q) (i + 1)); lia.
Qed.

(** The indices meet when the queue is full or empty. *)
Lemma index_meets q n : 0 < dq_size q -> 0 <= get_index q < dq_size q -> 0 <= n <= dq_size q ->
  ((get_index q + n) mod dq_size q =? get_index q) = (n =? 0) || (n =? dq_size q).
Proof.
  intros Hs Hg Hn. destruct (Z.eqb_spec n (dq_size q)) as [->|Hne].
  - rewrite <- (Z.mul_1_l (dq_size q)) at 1. rewrite Z_mod_plus_full, Z.mod_small, Z.eqb_refl by lia. by rewrite orb_true_r.
  - rewrite orb_false_r. pose proof (distance_mod (get_index q) n (dq_size q) Hg ltac:(lia)) as Hd.
    destruct (Z.eqb_spec n 0) as [->|H0]; [by rewrite Z.add_0_r, Z.mod_small, Z.eqb_refl by lia|].
    apply Z.eqb_neq. intros He. rewrite He, Z.leb_refl in Hd. lia.
Qed.

(** The queue after an item is put and after the oldest one is taken. *)
Definition dq_pushed (q : rt_data_queue) (it : rt_data_item) : rt_data_queue :=
  {| q with items := updZ (items q) (put_index q) it; put_index := dq_next q (put_index q);
            is_empty := false; is_full := dq_count q + 1 =? dq_size q |}.

Definition dq_popped (q : rt_data_queue) : rt_data_queue :=
  {| q with get_index := dq_next q (get_index q); is_full := false; is_empty := dq_count q =? 1 |}.

Lemma put_index_range q : dq_ok q -> 0 <= put_index q < dq_size q.
Proof. intros [_ _ Hs _ _ -> _ _]. apply Z.mod_pos_bound. lia. Qed.

Lemma dq_pushed_holds q it : dq_ok q -> is_full q = false -> dq_holds (dq_pushed q it) (dq_count q + 1).
Proof.
  intros Hq Hf. pose proof (put_index_range q Hq) as Hpi. destruct Hq as [H1 H2 H3 H4 H5 H6 H7 H8]. rewrite H8 in Hf.
  apply Z.eqb_neq in Hf. split; simpl; try done; [by rewrite lenZ_updZ|lia| |symmetry; apply Z.eqb_neq; lia].
  rewrite dq_next_mod, H6, Zplus_mod_idemp_l by done. f_equal. lia.
Qed.

Lemma dq_pushed_content q it : dq_ok q -> is_full q = false -> dq_content (dq_pushed q it) = dq_content q ++ [it].
Proof.
  intros Hq Hf. unfold dq_content. rewrite (holds_count _ _ (dq_pushed_holds q it Hq Hf)).
  destruct Hq as [_ H2 H3 H4 H5 H6 _ H8]. rewrite H8 in Hf. apply Z.eqb_neq in Hf.
  simpl. rewrite H6, <- H2. apply ring_push. lia.
Qed.

Lemma dq_popped_holds q : dq_ok q -> is_empty q = false -> dq_holds (dq_popped q) (dq_count q - 1).
Proof.
  intros [H1 H2 H3 H4 H5 H6 H7 H8] He. rewrite H7 in He. apply Z.eqb_neq in He.
  split; simpl; try done; [| lia| | |symmetry; apply Z.eqb_neq; lia].
  - rewrite dq_next_mod by done. apply Z.mod_pos_bound. lia.
  - rewrite dq_next_mod, Zplus_mod_idemp_l, H6 by done. f_equal. lia.
  - case_cmp; case_cmp; done || lia.
Qed.

Lemma dq_popped_content q : dq_ok q -> is_empty q = false ->
  dq_content q = nthZ no_item (items q) (get_index q) :: dq_content (dq_popped q).
Proof.
  intros Hq He. unfold dq_content. rewrite (holds_count _ _ (dq_popped_holds q Hq He)).
  destruct Hq as [_ H2 H3 H4 H5 H6 H7 _]. rewrite H7 in He. apply Z.eqb_neq in He.
  rewrite ring_pop, Z.mod_small by lia. simpl. by rewrite dq_next_mod, <- H2, ring_start_mod by done.
Qed.

(** The length is that of the contents. *)
Lemma rt_data_queue_len_spec q : dq_ok q -> rt_data_queue_len q = Some (lenZ (dq_content q)).
Proof.
  intros [H1 _ H3 H4 H5 H6 H7 H8]. unfold rt_data_queue_len, dq_content. rewrite H1, H7, ring_length by lia. cbn [assert].
  rewrite some_bind. destruct (Z.eqb_spec (dq_count q) 0) as [->|Hn]; [done|]. f_equal.
  assert (forall x, u16 (i16 x) = u16 x) as Hui.
  { intros x. change (eqm 16 (i16 x) x). unfold i16, eqm, wrap, swrap. rewrite Zminus_mod_idemp_l. f_equal. lia. }
  pose proof (distance_mod (get_index q)) as Hd. pose proof (index_meets q (dq_count q) ltac:(lia) H4 H5) as Hm.
  rewrite <- H6 in Hm. rewrite (proj2 (Z.eqb_neq _ _) Hn) in Hm. simpl in Hm.
  destruct (Z.eqb_spec (dq_count q) (dq_size q)) as [Hs|Hs].
  - apply Z.eqb_eq in Hm. rewrite Hm, Z.ltb_irrefl, Hui, wrap_id by (unfold fits; lia). lia.
  - apply Z.eqb_neq in Hm. specialize (Hd (dq_count q) (dq_size q) H4 ltac:(lia)). rewrite <- H6 in Hd.
    case_cmp; rewrite Hui, wrap_id; revert Hd; case_cmp; unfold fits; lia.
Qed.

(** What [dq_put] and [dq_get] make of the queue, whatever the kernel does. *)
Lemma dq_put_pushed o q it k : dq_ok q -> is_full q = false ->
  dq_put o q it k =
    match queues k (QSuspend o) with
    | t :: _ => '(_, k) ← rt_thread_resume t k; k ← rt_schedule k; Some (Returned RT_EOK, None, dq_pushed q it, k)
    | [] => Some (Returned RT_EOK, notified q RT_DATAQUEUE_EVENT_PUSH, dq_pushed q it, k)
    end.
Proof.
  intros Hq Hf. pose proof (put_index_range q Hq) as Hpi. pose proof (dq_pushed_holds q it Hq Hf) as [_ _ _ H4 H5 H6 _ _].
  unfold dq_put. rewrite (lookup_nthZ no_item) by (rewrite (dh_items _ _ Hq); lia). rewrite some_bind. cbv zeta.
  set (q1 := {| q with items := _; put_index := _; is_empty := _ |}).
  assert ((if put_index q1 =? get_index q1 then {| q1 with is_full := true |} else q1) = dq_pushed q it) as ->; [|done].
  pose proof (dh_size _ _ Hq) as Hs. pose proof (dh_count _ _ Hq) as Hc. cbn in H4, H5, H6.
  assert ((put_index q1 =? get_index q1) = (dq_count q + 1 =? dq_size q)) as ->.
  { change (put_index q1) with (dq_next q (put_index q)). change (get_index q1) with (get_index q).
    rewrite H6, index_meets by lia. by rewrite (proj2 (Z.eqb_neq (dq_count q + 1) 0)) by lia. }
  unfold dq_pushed. case_cmp; [done|]. unfold q1. by rewrite Hf.
Qed.

Lemma dq_get_popped o q k : dq_ok q -> is_empty q = false ->
  dq_get o q k =
    let it := nthZ no_item (items q) (get_index q) in
    if dq_count q - 1 <=? lwm q then
      k ← match queues k (QSender o) with
          | t :: _ => '(_, k) ← rt_thread_resume t k; rt_schedule k
          | [] => Some k
          end;
      Some (Returned RT_EOK, Some it, notified q RT_DATAQUEUE_EVENT_LWM, dq_popped q, k)
    else Some (Returned RT_EOK, Some it, notified q RT_DATAQUEUE_EVENT_POP, dq_popped q, k).
Proof.
  intros Hq He. pose proof (dq_popped_holds q Hq He) as Hp. pose proof (rt_data_queue_len_spec _ (holds_ok _ _ Hp)) as Hlen.
  unfold dq_content in Hlen. rewrite (holds_count _ _ Hp), ring_length in Hlen by apply Hp.
  pose proof Hq as [_ H2 H3 H4 H5 H6 H7 _]. rewrite H7 in He. apply Z.eqb_neq in He.
  unfold dq_get. rewrite (lookup_nthZ no_item) by lia. rewrite some_bind. cbv zeta.
  set (q1 := {| q with get_index := _; is_full := _ |}).
  assert ((if put_index q1 =? get_index q1 then {| q1 with is_empty := true |} else q1) = dq_popped q) as ->.
  { destruct Hp as [_ _ _ P4 P5 P6 _ _]. cbn in P4, P5, P6.
    assert ((put_index q1 =? get_index q1) = (dq_count q =? 1)) as ->.
    { change (put_index q1) with (put_index q). change (get_index q1) with (dq_next q (get_index q)).
      pose proof (index_meets (dq_popped q) (dq_count q - 1) ltac:(simpl; lia) P4 P5) as Hm. simpl in Hm.
      rewrite P6, Hm. case_cmp; case_cmp; case_cmp; done || lia. }
    unfold dq_popped. case_cmp; [done|]. unfold q1. by rewrite H7, (proj2 (Z.eqb_neq _ _) He). }
  by rewrite Hlen, some_bind.
Qed.

(** ** Runs *)

(** What a push put into the queue and a pop took out. *)
Definition put_in (r : outcome) (it : rt_data_item) : list rt_data_item :=
  match r with Returned e => if e =? RT_EOK then [it] else [] | Waiting => [] end.
Definition taken (r : outcome) (it : option rt_data_item) : list rt_data_item :=
  match r with Returned e => if e =? RT_EOK then option_list it else [] | Waiting => [] end.

(** Pushes and pops, first attempts and further ones, and resets, which throw
    the contents away, in any kernel and with anything happening to the kernel in between. *)
Inductive dq_step (o : Z) : rt_data_queue * kernel -> list rt_data_item * list rt_data_item -> rt_data_queue * kernel -> Prop :=
| dq_push q k it timeout r ev q' k' : rt_data_queue_push o q it timeout k = Some (r, ev, q', k') ->
    dq_step o (q, k) (put_in r it, []) (q', k')
| dq_push_again q k it timeout r ev q' k' : rt_data_queue_push_again o q it timeout k = Some (r, ev, q', k') ->
    dq_step o (q, k) (put_in r it, []) (q', k')
| dq_pop q k timeout r it ev q' k' : rt_data_queue_pop o q timeout k = Some (r, it, ev, q', k') ->
    dq_step o (q, k) ([], taken r it) (q', k')
| dq_pop_again q k timeout r it ev q' k' : rt_data_queue_pop_again o q timeout k = Some (r, it, ev, q', k') ->
    dq_step o (q, k) ([], taken r it) (q', k')
| dq_reset q k q' k' : rt_data_queue_reset o q k = Some (q', k') ->
    dq_step o (q, k) ([], dq_content q) (q', k')
| dq_other q k k' : dq_step o (q, k) ([], []) (q, k').

Lemma push_try_content o q it timeout k r ev q' k' : dq_ok q -> dq_push_try o q it timeout k = Some (r, ev, q', k') ->
  dq_ok q' /\ dq_content q' = dq_content q ++ put_in r it.
Proof.
  intros Hq. unfold dq_push_try. destruct (is_full q) eqn:Hf.
  - destruct (timeout =? 0); [intros [= <- <- <- <-]; by rewrite app_nil_r|].
    destruct (dq_wait _ _ _); [|done]. intros [= <- <- <- <-]. by rewrite app_nil_r.
  - rewrite dq_put_pushed by done. intros E. assert (r = Returned RT_EOK /\ q' = dq_pushed q it) as [-> ->].
    { destruct (queues k _) as [|w l]; [by injection E as <- <- <- <-|].
      destruct (rt_thread_resume w k) as [[r1 k1]|]; [|done]. rewrite some_bind in E.
      destruct (rt_schedule k1); [|done]. by injection E as <- <- <- <-. }
    split; [by eapply holds_ok, dq_pushed_holds|by apply dq_pushed_content].
Qed.

Lemma pop_try_content o q timeout k r it ev q' k' : dq_ok q -> dq_pop_try o q timeout k = Some (r, it, ev, q', k') ->
  dq_ok q' /\ dq_content q = taken r it ++ dq_content q'.
Proof.
  intros Hq. unfold dq_pop_try. destruct (is_empty q) eqn:He.
  - destruct (timeout =? 0); [by intros [= <- <- <- <- <-]|].
    destruct (dq_wait _ _ _); [|done]. by intros [= <- <- <- <- <-].
  - rewrite dq_get_popped by done. cbv zeta. intros E.
    assert (r = Returned RT_EOK /\ it = Some (nthZ no_item (items q) (get_index q)) /\ q' = dq_popped q) as (-> & -> & ->).
    { destruct (_ <=? lwm q); [|by injection E as <- <- <- <- <-].
      match type of E with (?m ≫= _) = _ => destruct m; [|done] end. by injection E as <- <- <- <- <-. }
    split; [by eapply holds_ok, dq_popped_holds|by apply dq_popped_content].
Qed.

(** What a reset leaves. *)
Definition dq_cleared (q : rt_data_queue) : rt_data_queue :=
  {| q with get_index := 0; put_index := 0; is_empty := true; is_full := false |}.

Lemma dq_cleared_holds q : dq_ok q -> dq_holds (dq_cleared q) 0.
Proof. intros [H1 H2 H3 _ _ _ _ _]. split; simpl; try done; try lia. destruct (dq_size q); done || lia. Qed.

Lemma dq_cleared_content q : dq_ok q -> dq_content (dq_cleared q) = [].
Proof. intros Hq. unfold dq_content. by rewrite (holds_count _ _ (dq_cleared_holds q Hq)). Qed.

Lemma reset_cleared o q k q' k' : rt_data_queue_reset o q k = Some (q', k') -> q' = dq_cleared q.
Proof.
  unfold rt_data_queue_reset. intros E. destruct (assert _); [|done]. rewrite some_bind in E. cbv zeta in E.
  destruct (rt_ipc_list_resume_all (QSuspend o) _) as [k1|]; [|done]. rewrite some_bind in E.
  destruct (rt_ipc_list_resume_all (QSender o) k1) as [k2|]; [|done]. rewrite some_bind in E.
  destruct (rt_exit_critical k2) as [k3|]; [|done]. rewrite some_bind in E.
  destruct (rt_schedule k3) as [k4|]; [|done]. rewrite some_bind in E. by injection E as <- <-.
Qed.

Lemma put_in_error e it : e <> RT_EOK -> put_in (Returned e) it = [].
Proof. intros H. simpl. by rewrite (proj2 (Z.eqb_neq _ _) H). Qed.

Lemma dq_step_content o x d x' : dq_ok (fst x) -> dq_step o x d x' ->
  dq_ok (fst x') /\ dq_content (fst x) ++ fst d = snd d ++ dq_content (fst x').
Proof.
  intros Hq Hs. destruct Hs as [q k it timeout r ev q' k' E|q k it timeout r ev q' k' E|q k timeout r it ev q' k' E|
    q k timeout r it ev q' k' E|q k q' k' E|q k k']; simpl in *; rewrite ?app_nil_r.
  - unfold rt_data_queue_push in E. rewrite (dh_valid _ _ Hq) in E. cbn [assert] in E. rewrite some_bind in E.
    by destruct (push_try_content _ _ _ _ _ _ _ _ _ Hq E) as [H ->].
  - unfold rt_data_queue_push_again in E. destruct (rt_thread_self k) as [t|]; [|done]. rewrite some_bind in E.
    destruct (threads k !! t) as [th|]; [|done]. rewrite some_bind in E.
    destruct (Z.eqb_spec (error th) RT_EOK) as [He|He]; cbn [negb] in E.
    + by destruct (push_try_content _ _ _ _ _ _ _ _ _ Hq E) as [H ->].
    + injection E as <- <- <- <-. by rewrite put_in_error, app_nil_r.
  - unfold rt_data_queue_pop in E. rewrite (dh_valid _ _ Hq) in E. cbn [assert] in E. rewrite some_bind in E.
    by apply (pop_try_content _ _ _ _ _ _ _ _ _ Hq) in E.
  - unfold rt_data_queue_pop_again in E. destruct (rt_thread_self k) as [t|]; [|done]. rewrite some_bind in E.
    destruct (threads k !! t) as [th|]; [|done]. rewrite some_bind in E.
    destruct (Z.eqb_spec (error th) RT_EOK) as [He|He]; cbn [negb] in E.
    + by apply (pop_try_content _ _ _ _ _ _ _ _ _ Hq) in E.
    + injection E as <- <- <- <- <-. simpl. by rewrite (proj2 (Z.eqb_neq _ _) He).
  - rewrite (reset_cleared _ _ _ _ _ E), dq_cleared_content, app_nil_r by done.
    split; [by eapply holds_ok, dq_cleared_holds|done].
  - done.
Qed.

(** ** Operations *)
Lemma dq_wait_ok l k c cth timeout : queue_state l = RT_THREAD_SUSPEND -> can_block k c cth -> timeout < WINDOW ->
  exists k', dq_wait l timeout k = Some k' /\ blocked (reset_error c cth k) k' c l (queues k l ++ [c]).
Proof.
  intros Hl Hcb Hw. destruct (reset_error_can_block k c cth Hcb) as [E0 Hcb0].
  destruct (ipc_wait_ok _ c _ l RT_IPC_FLAG_FIFO timeout Hcb0 Hl ltac:(by left) Hw) as (k' & l' & E & Hpl & Hb).
  exists k'. destruct (thread_context k c cth Hcb) as [_ Hself]. unfold dq_wait. rewrite Hself, some_bind.
  unfold RT_DEBUG_NOT_IN_INTERRUPT, rt_interrupt_get_nest. rewrite (cb_nest _ _ _ Hcb). cbn [Z.eqb assert].
  rewrite some_bind, E0, some_bind. split; [done|]. by inversion Hpl; subst.
Qed.

(** A push stores the item, and makes the first waiting thread ready without
    notifying or notifies when there is none; a full queue refuses
    with -RT_ETIMEOUT or makes the thread wait behind the others. *)
Lemma rt_data_queue_push_spec o q it timeout k c cth :
  dq_ok q -> kernel_ok k -> timing_ok k -> current_thread k = Some c -> (timeout <> 0 -> can_block k c cth) ->
  timeout < WINDOW ->
  if is_full q then
    if timeout =? 0 then rt_data_queue_push o q it timeout k = Some (Returned (- RT_ETIMEOUT), None, q, k)
    else exists k', rt_data_queue_push o q it timeout k = Some (Waiting, None, q, k') /\
      blocked (reset_error c cth k) k' c (QSender o) (queues k (QSender o) ++ [c])
  else exists ev q' k', rt_data_queue_push o q it timeout k = Some (Returned RT_EOK, ev, q', k') /\
    dq_ok q' /\ dq_content q' = dq_content q ++ [it] /\ first_woken k k' (QSuspend o) /\
    ev = match queues k (QSuspend o) with [] => notified q RT_DATAQUEUE_EVENT_PUSH | _ => None end.
Proof.
  intros Hq Hk Htk Hcu Hcb Hti. unfold rt_data_queue_push, dq_push_try. rewrite (dh_valid _ _ Hq). cbn [assert].
  rewrite some_bind. destruct (is_full q) eqn:Hf.
  - destruct (Z.eqb_spec timeout 0) as [|Hn]; [done|].
    destruct (dq_wait_ok (QSender o) k c cth timeout eq_refl (Hcb Hn) Hti) as (k' & -> & Hb). exists k'. by rewrite some_bind.
  - rewrite dq_put_pushed by done. pose proof (holds_ok _ _ (dq_pushed_holds q it Hq Hf)) as Hq'.
    pose proof (dq_pushed_content q it Hq Hf) as Hc. unfold first_woken. destruct (queues k (QSuspend o)) as [|w l] eqn:Hqk.
    + by eexists _, _, k.
    + destruct (resume_schedule_ok (fun k => Some (Returned RT_EOK, @None Z, dq_pushed q it, k)) k c (QSuspend o) w l Hk Htk Hcu eq_refl Hqk)
        as (k' & E & Hw). rewrite E. by eexists _, _, k'.
Qed.

(** A pop takes the oldest item.  At or below the low-water mark it makes the first
    thread that waits for a place ready. *)
Lemma rt_data_queue_pop_spec o q timeout k c cth :
  dq_ok q -> kernel_ok k -> timing_ok k -> current_thread k = Some c -> (timeout <> 0 -> can_block k c cth) ->
  timeout < WINDOW ->
  match dq_content q with
  | it :: l => exists q' k' ev, rt_data_queue_pop o q timeout k = Some (Returned RT_EOK, Some it, ev, q', k') /\
      dq_ok q' /\ dq_content q' = l /\
      (if lenZ l <=? lwm q then first_woken k k' (QSender o) /\ ev = notified q RT_DATAQUEUE_EVENT_LWM
       else k' = k /\ ev = notified q RT_DATAQUEUE_EVENT_POP)
  | [] =>
      if timeout =? 0 then rt_data_queue_pop o q timeout k = Some (Returned (- RT_ETIMEOUT), None, None, q, k)
      else exists k', rt_data_queue_pop o q timeout k = Some (Waiting, None, None, q, k') /\
        blocked (reset_error c cth k) k' c (QSuspend o) (queues k (QSuspend o) ++ [c])
  end.
Proof.
  intros Hq Hk Htk Hcu Hcb Hti. unfold rt_data_queue_pop, dq_pop_try. rewrite (dh_valid _ _ Hq). cbn [assert].
  rewrite some_bind. destruct (is_empty q) eqn:He.
  - assert (dq_content q = []) as ->.
    { rewrite (dh_empty _ _ Hq) in He. apply Z.eqb_eq in He. unfold dq_content. by rewrite He. }
    destruct (Z.eqb_spec timeout 0) as [|Hn]; [done|].
    destruct (dq_wait_ok (QSuspend o) k c cth timeout eq_refl (Hcb Hn) Hti) as (k' & -> & Hb). exists k'. by rewrite some_bind.
  - rewrite dq_get_popped, dq_popped_content by done. cbv zeta. pose proof (dq_popped_holds q Hq He) as Hp.
    assert (lenZ (dq_content (dq_popped q)) = dq_count q - 1) as ->.
    { unfold dq_content. rewrite (holds_count _ _ Hp). apply ring_length, Hp. }
    apply holds_ok in Hp. destruct (_ <=? lwm q); [|by eexists _, k, _]. unfold first_woken.
    destruct (queues k (QSender o)) as [|w l] eqn:Hqk; [rewrite some_bind; by eexists _, k, _|].
    destruct (wake_ok k c (QSender o) w l Hk Htk Hcu eq_refl Hqk) as (k' & E & Hw). unfold rt_ipc_list_resume in E.
    rewrite Hqk in E. cbn [head] in E. rewrite some_bind in E. destruct (rt_thread_resume w k) as [[r k1]|]; [|done].
    cbn in E. rewrite some_bind. cbn beta iota. rewrite E, some_bind. by eexists _, k', _.
Qed.

(** A reset throws the contents away and makes all waiting threads ready, with
    the error -RT_ERROR. *)
Lemma rt_data_queue_reset_spec o q k c : dq_ok q -> kernel_ok k -> timing_ok k -> current_thread k = Some c ->
  exists k', rt_data_queue_reset o q k = Some (dq_cleared q, k') /\ dq_content (dq_cleared q) = [] /\
    kernel_ok k' /\ timing_ok k' /\ queues k' (QSuspend o) = [] /\ queues k' (QSender o) = [] /\
    forall w, w ∈ queues k (QSuspend o) \/ w ∈ queues k (QSender o) ->
      exists th, threads k' !! w = Some th /\ runnable th /\ error th = - RT_ERROR.
Proof.
  intros Hq Hk Htk Hcu. unfold rt_data_queue_reset. rewrite (dh_valid _ _ Hq). cbn [assert]. rewrite some_bind. cbv zeta.
  set (k0 := rt_enter_critical k). assert (kernel_ok k0) as Hk0 by (by apply (kernel_ok_same k)).
  destruct (ipc_list_resume_all_ok k0 (QSuspend o) _ eq_refl Hk0 Htk eq_refl) as (k1 & -> & W1). rewrite some_bind.
  assert (queues k1 (QSender o) = queues k0 (QSender o)) as Hq1 by (by apply (aw_others _ _ _ _ W1)).
  destruct (ipc_list_resume_all_ok k1 (QSender o) _ eq_refl (aw_kernel _ _ _ _ W1) (aw_timing _ _ _ _ W1) Hq1) as (k2 & -> & W2).
  rewrite some_bind. assert (current_thread k2 = Some c) as Hcu2 by (by rewrite (aw_current _ _ _ _ W2), (aw_current _ _ _ _ W1)).
  destruct (exit_critical_total k2 c (aw_kernel _ _ _ _ W2) (aw_timing _ _ _ _ W2) Hcu2)
    as (k3 & n & -> & Hk3 & Htk3 & Hso3 & Hcu3 & Hq3 & Hr3). rewrite some_bind.
  destruct (schedule_total k3 n Hk3 Htk3 Hcu3) as (k4 & n4 & E4 & Hk4 & Htk4 & Hso4 & _ & Hq4 & _).
  rewrite E4, some_bind. exists k4. split; [done|]. split; [by apply dq_cleared_content|]. split; [done|]. split; [done|].
  split; [rewrite Hq4, Hq3, (aw_others _ _ _ _ W2) by done; apply W1|]. split; [rewrite Hq4, Hq3 by done; apply W2|].
  intros w Hw. assert (exists th, threads k2 !! w = Some th /\ runnable th /\ error th = - RT_ERROR) as (th & Hth & Hr & He).
  { destruct (decide (w ∈ queues k (QSender o))) as [Hin|Hin]; [by apply (aw_errors _ _ _ _ W2)|].
    destruct Hw as [Hw|]; [|done]. rewrite (aw_threads _ _ _ _ W2) by done. by apply (aw_errors _ _ _ _ W1). }
  destruct (stat_only_error _ _ _ _ Hso3 Hth) as (th3 & Hth3 & He3).
  destruct (stat_only_error _ _ _ _ Hso4 Hth3) as (th4 & Hth4 & He4). exists th4. split; [done|]. split; [|congruence].
  destruct (schedule_runs _ _ w E4) as (th' & Hth' & Hr'); [apply Hr3; by exists th|]. by simplify_eq.
Qed.

(** C8: a data queue loses, repeats and reorders nothing.  Whatever sequence of
    pushes, pops and resets (blocking or not, by any threads, resumed in any
    order) follows, the items there at the start and those accepted since, in
    order, are those popped or thrown away by a reset followed by those still in the
    queue, which never holds more than its size. *)
Theorem data_queue_fifo o q0 k0 ins outs q k : dq_ok q0 -> fifo_reach (dq_step o) (q0, k0) ins outs (q, k) ->
  dq_content q0 ++ ins = outs ++ dq_content q /\ lenZ (dq_content q) <= dq_size q /\
  rt_data_queue_len q = Some (lenZ (dq_content q)).
Proof.
  intros Hq Hr. destruct (fifo_reach_held (dq_step o) (fun x => dq_ok (fst x)) (fun x => dq_content (fst x))
    (dq_step_content o) (q0, k0) _ _ _ Hq Hr) as [Hq' Hc].
  split; [done|]. split; [|by apply rt_data_queue_len_spec]. simpl in Hq'. pose proof (dh_count _ _ Hq') as Hn.
  unfold dq_content. rewrite ring_length; lia.
Qed.

(** ** Where the code goes wrong *)

(** If the last item is popped between its test and the section in which interrupts are
    disabled, rt_data_queue_peek succeeds on an empty queue, with an item that is not in it. *)
Lemma peek_of_empty_queue q : dq_ok q -> dq_content q = [] -> exists it, dq_peek_locked q = Some (RT_EOK, Some it).
Proof.
  intros [_ H2 H3 H4 _ _ _ _] _. unfold dq_peek_locked. rewrite (lookup_nthZ no_item) by lia. rewrite some_bind. by eexists.
Qed.

(** The put index of an array of more than 32768 items starts again at 0 after
    32768 items: the queue is full, and its length is reported as its size. *)
Lemma wide_queue_length o q it k : queue_valid q = true -> dq_size q = 40000 -> lenZ (items q) = 40000 -> get_index q = 0 ->
  put_index q = 32767 -> queues k (QSuspend o) = [] ->
  exists ev q', dq_put o q it k = Some (Returned RT_EOK, ev, q', k) /\ is_full q' = true /\
    rt_data_queue_len q' = Some 40000.
Proof.
  intros Hv Hs Hi Hg Hp Hq. unfold dq_put. rewrite Hp, (lookup_nthZ no_item) by lia. rewrite some_bind. cbv zeta.
  cbn [put_index get_index]. assert (dq_next q 32767 = 0) as -> by (unfold dq_next; by rewrite Hs).
  rewrite Hg. cbn [Z.eqb]. rewrite Hq. eexists _, _. split; [done|]. split; [done|].
  unfold rt_data_queue_len, queue_valid in *. cbn [magic is_empty get_index put_index dq_size]. rewrite Hv, Hs. cbn [assert].
  by rewrite some_bind.
Qed.

(** ** Witness: a queue of two places at address 500. *)
Definition demo_dq : rt_data_queue :=
  {| magic := DATAQUEUE_MAGIC; dq_size := 2; lwm := 1; get_index := 0; put_index := 0; is_empty := true; is_full := false;
     dq_array := Some 600; items := [no_item; no_item]; evt_notify := true |}.

Lemma demo_dq_ok : dq_ok demo_dq.
Proof. unfold dq_ok. change (dq_count demo_dq) with 0. split; try reflexivity; simpl; lia. Qed.

Lemma data_queue_fifo_witness : exists q k,
  fifo_reach (dq_step 500) (demo_dq, demo_kernel) [{| data_ptr := 7; data_size := 1 |}; {| data_ptr := 8; data_size := 2 |}]
    [{| data_ptr := 7; data_size := 1 |}] (q, k) /\ dq_content q = [{| data_ptr := 8; data_size := 2 |}].
Proof.
  set (a := {| data_ptr := 7; data_size := 1 |}). set (b := {| data_ptr := 8; data_size := 2 |}).
  set (q1 := dq_pushed demo_dq a). set (q2 := dq_pushed q1 b).
  assert (queues demo_kernel (QSuspend 500) = []) as Hw by (vm_compute; reflexivity).
  assert (queues demo_kernel (QSender 500) = []) as Hs by (vm_compute; reflexivity).
  assert (forall q it, dq_ok q -> is_full q = false ->
    dq_step 500 (q, demo_kernel) ([it], []) (dq_pushed q it, demo_kernel)) as Hpush.
  { intros q it Hq Hf. eapply (dq_push 500 q demo_kernel it 0 (Returned RT_EOK)). unfold rt_data_queue_push, dq_push_try.
    rewrite (dh_valid _ _ Hq), Hf. cbn [assert]. rewrite some_bind, dq_put_pushed by assumption. rewrite Hw. reflexivity. }
  pose proof (holds_ok _ _ (dq_pushed_holds demo_dq a demo_dq_ok eq_refl) : dq_ok q1) as H1.
  pose proof (holds_ok _ _ (dq_pushed_holds q1 b H1 eq_refl) : dq_ok q2) as H2.
  assert (dq_step 500 (q2, demo_kernel) ([], [a]) (dq_popped q2, demo_kernel)) as Hpop.
  { eapply (dq_pop 500 q2 demo_kernel 0 (Returned RT_EOK) (Some a)). unfold rt_data_queue_pop, dq_pop_try.
    rewrite (dh_valid _ _ H2). change (is_empty q2) with false. cbn [assert]. rewrite some_bind, dq_get_popped by first [exact H2 | reflexivity].
    cbv zeta. change (dq_count q2 - 1 <=? lwm q2) with true. cbv iota. rewrite Hs, some_bind. reflexivity. }
  pose proof (fifo_next _ _ _ _ _ _ _ (fifo_next _ _ _ _ _ _ _ (fifo_next _ _ _ _ _ _ _ (fifo_start (dq_step 500) (demo_dq, demo_kernel))
    (Hpush _ a demo_dq_ok eq_refl)) (Hpush _ b H1 eq_refl)) Hpop) as Hr.
  exists (dq_popped q2), demo_kernel. split; [exact Hr|].
  destruct (data_queue_fifo 500 demo_dq demo_kernel _ _ _ _ demo_dq_ok Hr) as [Hc _].
  exact (app_inv_head [a] _ _ (eq_sym Hc)).
Defined.
