(* ===== verification/Mempool.v ===== *)
(** * Memory pools (rt-thread/src/mempool.c)

    The pool at address [o] is a record in the map of the pools; threads waiting
    for a block are in [QSuspend o].  Of the memory only the words the code reads
    and writes matter: the first word of every block ([wmem], by address), which
    links the free blocks and, while a block is in use, points to its pool. *)
From S2P Require Import Prelude Mem Kernel Sched Timer Ipc.

Record rt_mempool := {
  mp_parent : rt_object;
  start_address : Z; mp_size : Z; block_size : Z;
  block_list : Z;                              (** 0 is RT_NULL *)
  block_total_count : Z; block_free_count : Z
}.

(** block_ptr + offset * (block_size + sizeof(rt_uint8_t * )) *)
Definition block_at (start bs offset : Z) : Z := u32 (start + offset * (bs + 4)).

Fixpoint mp_link_loop (n : nat) (start bs offset : Z) (m : wmem) : wmem :=
  match n with
  | O => m
  | S n => mp_link_loop n start bs (offset + 1) (<[block_at start bs offset := block_at start bs (offset + 1)]> m)
  end.

(** Every block is linked to the next one, and the last one to nothing. *)
Definition mp_link (start bs total : Z) (m : wmem) : wmem :=
  <[block_at start bs (total - 1) := 0]> (mp_link_loop (Z.to_nat total) start bs 0 m).

Definition rt_mp_init (o : Z) (mp : rt_mempool) (nm : list Z) (start size bs : Z) (m : wmem) (k : kernel)
  : option (Z * rt_mempool * wmem * kernel) :=
  _ ← assert (negb (start =? 0));
  _ ← assert ((0 <? size) && (0 <? bs));
  '(ob, k) ← rt_object_init (Obj o) (mp_parent mp) RT_Object_Class_MemPool nm k;
  let size := RT_ALIGN_DOWN size RT_ALIGN_SIZE in
  let bs := RT_ALIGN bs RT_ALIGN_SIZE in
  let total := size / u32 (bs + 4) in
  Some (RT_EOK,
        {| mp_parent := ob; start_address := start; mp_size := size; block_size := bs; block_list := start;
           block_total_count := total; block_free_count := total |},
        mp_link start bs total m, set_queue (QSuspend o) [] k).

(** The loop of rt_mp_detach and rt_mp_delete. *)
Definition mp_resume_all (o : Z) (k : kernel) : option kernel :=
  resume_all_loop (S (length (queues k (QSuspend o)))) (QSuspend o) k.

Definition rt_mp_detach (o : Z) (mp : rt_mempool) (k : kernel) : option (Z * rt_mempool * kernel) :=
  _ ← assert (is_class RT_Object_Class_MemPool (mp_parent mp));
  _ ← assert (rt_object_is_systemobject (mp_parent mp));
  k ← mp_resume_all o k;
  let '(ob, k) := rt_object_detach (Obj o) (mp_parent mp) k in
  Some (RT_EOK, {| mp with mp_parent := ob |}, k).

Definition rt_mp_create (nm : list Z) (count bs : Z) (m : wmem) (k : kernel)
  : option (option (Z * rt_mempool) * wmem * kernel) :=
  _ ← RT_DEBUG_NOT_IN_INTERRUPT k;
  _ ← assert ((0 <? count) && (0 <? bs));
  '(r, k) ← rt_object_allocate RT_Object_Class_MemPool nm k;
  match r with
  | None => Some (None, m, k)
  | Some (o, ob) =>
      let bs := RT_ALIGN bs RT_ALIGN_SIZE in
      let size := u32 ((bs + 4) * count) in
      '(p, h) ← rt_malloc size (kheap k);
      let k := {| k with kheap := h |} in
      match p with
      | None => '(_, k) ← rt_object_delete o ob k; Some (None, m, k)
      | Some start =>
          Some (Some (o, {| mp_parent := ob; start_address := start; mp_size := size; block_size := bs;
                            block_list := start; block_total_count := count; block_free_count := count |}),
                mp_link start bs count m, set_queue (QSuspend o) [] k)
      end
  end.

Definition rt_mp_delete (o : Z) (mp : rt_mempool) (k : kernel) : option (Z * kernel) :=
  _ ← RT_DEBUG_NOT_IN_INTERRUPT k;
  _ ← assert (is_class RT_Object_Class_MemPool (mp_parent mp));
  _ ← assert (negb (rt_object_is_systemobject (mp_parent mp)));
  k ← mp_resume_all o k;
  h ← rt_free (Some (start_address mp)) (kheap k);
  '(_, k) ← rt_object_delete o (mp_parent mp) {| k with kheap := h |};
  Some (RT_EOK, k).

(** A block is free: it is taken from the list and points to its pool. *)
Definition mp_take (o : Z) (mp : rt_mempool) (m : wmem) : option (Z * rt_mempool * wmem) :=
  let mp := {| mp with block_free_count := u32 (block_free_count mp - 1) |} in
  let block_ptr := block_list mp in
  _ ← assert (negb (block_ptr =? 0));
  n ← m !! block_ptr;
  Some (u32 (block_ptr + 4), {| mp with block_list := n |}, <[block_ptr := o]> m).

(** The result [Done p] is the pointer returned, 0 for RT_NULL. *)
Definition mp_alloc_try (o : Z) (mp : rt_mempool) (m : wmem) (time : Z) (k : kernel)
  : option (attempt * rt_mempool * wmem * kernel) :=
  if block_free_count mp =? 0 then
    if time =? 0 then k ← rt_set_errno (- RT_ETIMEOUT) k; Some (Done 0, mp, m, k)
    else
      _ ← RT_DEBUG_NOT_IN_INTERRUPT k;
      t ← rt_thread_self k;
      k ← upd_thread t (set_error RT_EOK) k;
      '(_, k) ← rt_thread_suspend t k;
      let k := push_front (QSuspend o) t k in
      let before_sleep := if 0 <? time then rt_tick_get k else 0 in
      k ← wait_timer t time k;
      Some (Blocked time before_sleep, mp, m, k)
  else
    '(p, mp, m) ← mp_take o mp m;
    Some (Done p, mp, m, k).

Definition rt_mp_alloc (o : Z) (mp : rt_mempool) (m : wmem) (time : Z) (k : kernel)
  : option (attempt * rt_mempool * wmem * kernel) := mp_alloc_try o mp m time k.

(** The thread was resumed and runs. *)
Definition rt_mp_alloc_again (o : Z) (mp : rt_mempool) (m : wmem) (time before_sleep : Z) (k : kernel)
  : option (attempt * rt_mempool * wmem * kernel) :=
  t ← rt_thread_self k;
  th ← threads k !! t;
  if negb (error th =? RT_EOK) then Some (Done 0, mp, m, k)
  else mp_alloc_try o mp m (time_left time before_sleep k) k.

(** [pools] are the pools in memory: the one a block belongs to is found in the
    word before the block. *)
Definition rt_mp_free (block : Z) (pools : gmap Z rt_mempool) (m : wmem) (k : kernel)
  : option (gmap Z rt_mempool * wmem * kernel) :=
  if block =? 0 then Some (pools, m, k)
  else
    let block_ptr := u32 (block - 4) in
    o ← m !! block_ptr;
    mp ← pools !! o;
    let mp' := {| mp with block_free_count := u32 (block_free_count mp + 1); block_list := block_ptr |} in
    let m := <[block_ptr := block_list mp]> m in
    let pools := <[o := mp']> pools in
    match queues k (QSuspend o) with
    | t :: _ =>
        k ← upd_thread t (set_error RT_EOK) k;
        '(_, k) ← rt_thread_resume t k;
        k ← rt_schedule k;
        Some (pools, m, k)
    | [] => Some (pools, m, k)
    end.

(** ** The invariant *)

(** The addresses of the blocks. *)
Definition all_blocks (mp : rt_mempool) : list Z :=
  (fun i => start_address mp + i * (block_size mp + 4)) <$> seqZ 0 (block_total_count mp).

(** The blocks [fl] are free, in the order of the list, and [us] are in use. *)
Record mp_ok (o : Z) (mp : rt_mempool) (m : wmem) (fl us : list Z) : Prop := {
  po_start : 0 < start_address mp;
  po_block : 4 <= block_size mp;
  po_total : 0 <= block_total_count mp;
  po_end : start_address mp + block_total_count mp * (block_size mp + 4) <= 2 ^ 32;
  po_chain : chain m (block_list mp) fl;
  po_all : fl ++ us ≡ₚ all_blocks mp;
  po_count : block_free_count mp = lenZ fl;
  po_owner : forall a, a ∈ us -> m !! a = Some o
}.

Lemma block_range mp a : 4 <= block_size mp -> a ∈ all_blocks mp ->
  start_address mp <= a /\ a + block_size mp + 4 <= start_address mp + block_total_count mp * (block_size mp + 4).
Proof.
  intros Hb Ha. apply list_elem_of_fmap in Ha as (i & -> & Hi). apply elem_of_seqZ in Hi. nia.
Qed.

Lemma blocks_apart mp a b : 4 <= block_size mp -> a ∈ all_blocks mp -> b ∈ all_blocks mp -> a <> b ->
  a + block_size mp + 4 <= b \/ b + block_size mp + 4 <= a.
Proof.
  intros Hbs Ha Hb Hne. apply list_elem_of_fmap in Ha as (i & -> & _). apply list_elem_of_fmap in Hb as (j & -> & _).
  assert (i < j \/ j < i) as [H|H] by (destruct (Z.lt_trichotomy i j) as [|[->|]]; [by left|done|by right]); nia.
Qed.

Lemma all_blocks_nodup mp : 4 <= block_size mp -> NoDup (all_blocks mp).
Proof. intros Hb. apply NoDup_fmap_2; [|apply NoDup_seqZ]. intros i j H. nia. Qed.

Lemma mp_nodup o mp m fl us : mp_ok o mp m fl us -> NoDup (fl ++ us).
Proof. intros H. rewrite (po_all _ _ _ _ _ H). apply all_blocks_nodup. by apply (po_block _ _ _ _ _ H). Qed.

Lemma mp_member o mp m fl us a : mp_ok o mp m fl us -> a ∈ fl ++ us -> 0 < a /\ a + 4 < 2 ^ 32.
Proof.
  intros H Ha. rewrite (po_all _ _ _ _ _ H) in Ha. apply block_range in Ha; [|apply H].
  destruct H. lia.
Qed.

(** Blocks and counts do not depend on the lists. *)
Lemma all_blocks_same mp fr bl : all_blocks {| mp with block_list := bl; block_free_count := fr |} = all_blocks mp.
Proof. done. Qed.

Lemma count_bound o mp m fl us : mp_ok o mp m fl us -> 0 <= lenZ fl <= block_total_count mp.
Proof.
  intros H. pose proof (Permutation_length (po_all _ _ _ _ _ H)) as Hl. unfold all_blocks in Hl.
  rewrite length_app, length_fmap, length_seqZ in Hl. pose proof (po_total _ _ _ _ _ H). unfold lenZ. lia.
Qed.

Lemma total_bound o mp m fl us : mp_ok o mp m fl us -> block_total_count mp < 2 ^ 32 - 1.
Proof. intros []. nia. Qed.

(** The same blocks. *)
Definition same_pool (mp mp' : rt_mempool) : Prop :=
  start_address mp' = start_address mp /\ block_size mp' = block_size mp /\
  block_total_count mp' = block_total_count mp.

(** Taking the first free block. *)
Lemma mp_take_ok o mp m a fl us : mp_ok o mp m (a :: fl) us -> exists mp' m',
  mp_take o mp m = Some (a + 4, mp', m') /\ mp_ok o mp' m' fl (a :: us) /\
  same_pool mp mp'.
Proof.
  intros H. pose proof (mp_nodup _ _ _ _ _ H) as Hnd. pose proof (mp_member _ _ _ _ _ a H ltac:(left)) as Ha.
  pose proof (count_bound _ _ _ _ _ H) as Hc. pose proof (total_bound _ _ _ _ _ H) as Ht.
  destruct H as [H1 H2 H3 H4 H5 H6 H7 H8]. destruct (chain_inv _ _ _ _ H5) as (Hbl & Ha0 & n & Hn & Hch).
  assert (lenZ (a :: fl) = lenZ fl + 1) as Hlen by (unfold lenZ; simpl; lia).
  assert (0 <= lenZ fl) by (unfold lenZ; lia).
  unfold mp_take. simpl. rewrite Hbl, (proj2 (Z.eqb_neq _ _)) by done. simpl. rewrite Hn, some_bind.
  rewrite (wrap_id 32 (_ + 4)) by (unfold fits; lia). rewrite H7, Hlen, wrap_id by (unfold fits; lia).
  eexists _, _. split; [reflexivity|]. simpl in Hnd. apply NoDup_cons in Hnd as [Hna Hnd].
  split; [|done]. split; simpl; try done.
  - apply chain_insert; [done|]. intros Hin. apply Hna, elem_of_app. by left.
  - rewrite <- H6. simpl. by rewrite Permutation_middle.
  - lia.
  - intros x Hx. apply elem_of_cons in Hx as [->|Hx]; [by rewrite lookup_insert_eq|].
    rewrite lookup_insert_ne; [by apply H8|]. intros ->. apply Hna, elem_of_app. by right.
Qed.

(** The pool after the block at [a] is given back. *)
Definition mp_gave (mp : rt_mempool) (a : Z) : rt_mempool :=
  {| mp with block_free_count := u32 (block_free_count mp + 1); block_list := a |}.

Lemma mp_give_ok o mp m a fl us us' : mp_ok o mp m fl us -> us ≡ₚ a :: us' ->
  m !! a = Some o /\ mp_ok o (mp_gave mp a) (<[a := block_list mp]> m) (a :: fl) us'.
Proof.
  intros H Hus. pose proof (mp_nodup _ _ _ _ _ H) as Hnd.
  assert (a ∈ us) as Hin by (rewrite Hus; left).
  pose proof (mp_member _ _ _ _ _ a H ltac:(apply elem_of_app; by right)) as Ha.
  pose proof (count_bound _ _ _ _ _ H) as Hc. pose proof (total_bound _ _ _ _ _ H) as Ht.
  destruct H as [H1 H2 H3 H4 H5 H6 H7 H8]. split; [by apply H8|].
  rewrite Hus in Hnd. apply NoDup_app in Hnd as (_ & Hdis & Hnd). apply NoDup_cons in Hnd as [Hna _].
  assert (a ∉ fl) as Hfl by (intros Hx; apply (Hdis a Hx); left).
  split; simpl; try done.
  - econstructor; [lia|by rewrite lookup_insert_eq|by apply chain_insert].
  - rewrite <- H6, Hus. by rewrite Permutation_middle.
  - rewrite H7, wrap_id by (unfold fits; lia). unfold lenZ. simpl. lia.
  - intros x Hx. rewrite lookup_insert_ne by (intros ->; done). apply H8. rewrite Hus. by right.
Qed.

(** ** Initialisation *)

Lemma block_at_small mp i : 4 <= block_size mp -> 0 < start_address mp ->
  start_address mp + block_total_count mp * (block_size mp + 4) <= 2 ^ 32 ->
  0 <= i < block_total_count mp ->
  block_at (start_address mp) (block_size mp) i = start_address mp + i * (block_size mp + 4).
Proof. intros Hb Hs He Hi. apply wrap_id. unfold fits. nia. Qed.

(** What the loop leaves alone and what it writes. *)
Lemma mp_link_loop_frame start bs n a : forall off m,
  (forall j, off <= j < off + Z.of_nat n -> a <> block_at start bs j) ->
  mp_link_loop n start bs off m !! a = m !! a.
Proof.
  induction n as [|n IH]; intros off m Ha; [done|]. cbn [mp_link_loop]. rewrite IH by (intros j Hj; apply Ha; lia).
  rewrite lookup_insert_ne; [done|]. intros Heq. apply (Ha off); [lia|done].
Qed.

Lemma mp_link_loop_lookup start bs n : forall off m, 
  (forall i j, off <= i < off + Z.of_nat n -> off <= j < off + Z.of_nat n -> block_at start bs i = block_at start bs j -> i = j) ->
  forall i, off <= i < off + Z.of_nat n ->
  mp_link_loop n start bs off m !! block_at start bs i = Some (block_at start bs (i + 1)).
Proof.
  induction n as [|n IH]; intros off m Hinj i Hi; [lia|]. cbn [mp_link_loop].
  destruct (Z.eq_dec i off) as [->|Hne].
  - rewrite mp_link_loop_frame; [by rewrite lookup_insert_eq|].
    intros j Hj Heq. assert (off = j) by (apply Hinj; [lia..|done]). lia.
  - apply IH; [|lia]. intros a b Ha Hb. apply Hinj; lia.
Qed.

Lemma chain_blocks mp m n : forall i,
  (forall j, i <= j < i + Z.of_nat n -> m !! (start_address mp + j * (block_size mp + 4)) =
     Some (if j + 1 <? i + Z.of_nat n then start_address mp + (j + 1) * (block_size mp + 4) else 0)) ->
  (forall j, i <= j < i + Z.of_nat n -> start_address mp + j * (block_size mp + 4) <> 0) ->
  chain m (if Z.of_nat n =? 0 then 0 else start_address mp + i * (block_size mp + 4))
    ((fun j => start_address mp + j * (block_size mp + 4)) <$> seqZ i (Z.of_nat n)).
Proof.
  induction n as [|n IH]; intros i Hm Hne; [constructor|].
  rewrite (proj2 (Z.eqb_neq _ _)) by lia. rewrite seqZ_cons by lia. cbn [fmap list_fmap].
  econstructor; [apply Hne; lia|rewrite Hm by lia; reflexivity|].
  replace (Z.pred (Z.of_nat (S n))) with (Z.of_nat n) by lia. unfold Z.succ.
  assert ((if i + 1 <? i + Z.of_nat (S n) then start_address mp + (i + 1) * (block_size mp + 4) else 0) =
          (if Z.of_nat n =? 0 then 0 else start_address mp + (i + 1) * (block_size mp + 4))) as ->.
  { destruct (Z.ltb_spec (i + 1) (i + Z.of_nat (S n))), (Z.eqb_spec (Z.of_nat n) 0); try done; lia. }
  apply IH.
  - intros j Hj. rewrite Hm by lia. do 2 f_equal.
    destruct (Z.ltb_spec (j + 1) (i + Z.of_nat (S n))), (Z.ltb_spec (j + 1) (i + 1 + Z.of_nat n)); try done; lia.
  - intros j Hj. apply Hne. lia.
Qed.

(** Linking the blocks makes all of them free, in the order of addresses. *)
Lemma mp_link_ok o mp m : 4 <= block_size mp -> 0 < start_address mp -> 0 < block_total_count mp ->
  start_address mp + block_total_count mp * (block_size mp + 4) <= 2 ^ 32 ->
  block_list mp = start_address mp -> block_free_count mp = block_total_count mp ->
  mp_ok o mp (mp_link (start_address mp) (block_size mp) (block_total_count mp) m) (all_blocks mp) [].
Proof.
  intros Hb Hs Ht He Hl Hc. pose proof (block_at_small mp) as Hat. set (n := Z.to_nat (block_total_count mp)).
  assert (Z.of_nat n = block_total_count mp) as Hn by (unfold n; lia).
  split; try done; try lia.
  - pose proof (chain_blocks mp (mp_link (start_address mp) (block_size mp) (block_total_count mp) m) n 0) as Hch.
    rewrite Hn, (proj2 (Z.eqb_neq _ _)), Z.mul_0_l, Z.add_0_r in Hch by lia. rewrite Hl. apply Hch.
    + intros j Hj. unfold mp_link. rewrite Hat by (done || lia). case_cmp.
      * rewrite lookup_insert_ne by nia. rewrite <- !Hat by (done || lia). apply mp_link_loop_lookup; [|lia].
        intros a b Ha Hb'. rewrite !Hat by (done || lia). nia.
      * replace j with (block_total_count mp - 1) by lia. by rewrite lookup_insert_eq.
    + intros j Hj. nia.
  - by rewrite app_nil_r.
  - unfold all_blocks, lenZ. rewrite length_fmap, length_seqZ. lia.
  - intros a Ha. destruct (not_elem_of_nil a Ha).
Qed.

(** ** Operations *)

Lemma timer_stop_tick x k r k' : rt_timer_stop x k = Some (r, k') -> rt_tick k' = rt_tick k.
Proof.
  unfold rt_timer_stop. destruct (timers k !! x) as [tm|] eqn:Hx; [|done]. rewrite some_bind.
  destruct (is_timer tm); [|done]. simpl. destruct (negb _); [by intros [= _ <-]|].
  rewrite (upd_timer_some x tm) by done. simpl. by intros [= _ <-].
Qed.

Lemma suspend_tick t k r k' : rt_thread_suspend t k = Some (r, k') -> rt_tick k' = rt_tick k.
Proof.
  unfold rt_thread_suspend. destruct (threads k !! t) as [th|]; [|done]. rewrite some_bind.
  destruct (is_thread th); [|done]. simpl. destruct (_ && _); [by intros [= _ <-]|].
  destruct (assert _); [|done]. simpl. destruct (rt_schedule_remove_thread t k) as [k1|] eqn:E1; [|done]. simpl.
  destruct (upd_thread t _ k1) as [k2|] eqn:E2; [|done]. simpl.
  destruct (rt_timer_stop _ k2) as [[r3 k3]|] eqn:E3; [|done]. simpl. intros [= _ <-].
  rewrite (timer_stop_tick _ _ _ _ E3). unfold upd_thread in E2. destruct (threads k1 !! t); [|done].
  injection E2 as <-. simpl. unfold rt_schedule_remove_thread in E1. destruct (threads k !! t); [|done].
  simpl in E1. by case_match; injection E1 as <-.
Qed.

Lemma mp_wait_ok o k c cth time : can_block k c cth -> time < WINDOW -> exists r k0 k',
  upd_thread c (set_error RT_EOK) k = Some (reset_error c cth k) /\
  rt_thread_suspend c (reset_error c cth k) = Some (r, k0) /\ rt_tick k0 = rt_tick k /\
  wait_timer c time (push_front (QSuspend o) c k0) = Some k' /\
  blocked (reset_error c cth k) k' c (QSuspend o) (c :: queues k (QSuspend o)).
Proof.
  intros Hcb Hti. destruct (reset_error_can_block k c cth Hcb) as [E0 Hcb0].
  destruct (thread_suspend_ok _ c _ (QSuspend o) Hcb0 eq_refl) as (k1 & r & E1 & _ & Hq & Hpk).
  specialize (Hpk (c :: queues k (QSuspend o)) (Permutation_refl _)).
  destruct (parked_wait_ok _ _ c _ (QSuspend o) _ time Hcb0 eq_refl Hpk Hti) as (k' & E & Hb).
  exists r, k1, k'. unfold push_front. rewrite Hq. split; [done|]. split; [done|]. split; [|by split].
  by apply suspend_tick in E1.
Qed.

(** Allocating: the first free block, whose payload starts behind its word; with
    none free, 0 and -RT_ETIMEOUT or a wait at the head of the list. *)
Lemma rt_mp_alloc_spec o mp m fl us time k c cth :
  mp_ok o mp m fl us -> can_block k c cth -> time < WINDOW ->
  match fl with
  | a :: fl' => exists mp' m', rt_mp_alloc o mp m time k = Some (Done (a + 4), mp', m', k) /\ mp_ok o mp' m' fl' (a :: us)
  | [] =>
      if time =? 0 then exists k',
        rt_mp_alloc o mp m time k = Some (Done 0, mp, m, k') /\ upd_thread c (set_error (- RT_ETIMEOUT)) k = Some k'
      else exists k',
        rt_mp_alloc o mp m time k = Some (Blocked time (if 0 <? time then rt_tick k else 0), mp, m, k') /\
        blocked (reset_error c cth k) k' c (QSuspend o) (c :: queues k (QSuspend o))
  end.
Proof.
  intros Hm Hcb Hti. pose proof (po_count _ _ _ _ _ Hm) as Hc. unfold rt_mp_alloc, mp_alloc_try. rewrite Hc.
  destruct (thread_context k c cth Hcb) as [_ Eself]. destruct fl as [|a fl]; unfold lenZ; simpl.
  - destruct (time =? 0).
    + unfold rt_set_errno, rt_interrupt_get_nest. rewrite (cb_nest _ _ _ Hcb), Eself. simpl.
      rewrite (upd_thread_some c cth) by apply Hcb. by eexists.
    + destruct (mp_wait_ok o k c cth time Hcb Hti) as (r & k0 & k' & E0 & E1 & Ht & E & Hb). exists k'.
      unfold RT_DEBUG_NOT_IN_INTERRUPT, rt_interrupt_get_nest. rewrite (cb_nest _ _ _ Hcb). simpl.
      rewrite Eself. simpl. rewrite E0. simpl. rewrite E1. simpl. rewrite E. simpl. unfold rt_tick_get. simpl. by rewrite Ht.
  - destruct (mp_take_ok o mp m a fl us Hm) as (mp' & m' & -> & H & _). by exists mp', m'.
Qed.

(** Freeing a block in use: it is the first free one, and the first waiting thread
    is ready with no error. *)
Lemma rt_mp_free_spec o mp m fl us us' a pools k c :
  mp_ok o mp m fl us -> us ≡ₚ a :: us' -> pools !! o = Some mp -> kernel_ok k -> timing_ok k ->
  current_thread k = Some c -> exists m' k',
    rt_mp_free (a + 4) pools m k = Some (<[o := mp_gave mp a]> pools, m', k') /\
    mp_ok o (mp_gave mp a) m' (a :: fl) us' /\ kernel_ok k' /\ timing_ok k' /\
    match queues k (QSuspend o) with
    | t :: l => queues k' (QSuspend o) = l /\ runs k' t
    | [] => k' = k
    end.
Proof.
  intros Hm Hus Hp Hk Htk Hcu. destruct (mp_give_ok o mp m a fl us us' Hm Hus) as [Ha Hm'].
  destruct (mp_member o mp m fl us a Hm) as [H0 H4]; [apply elem_of_app; right; rewrite Hus; left|].
  unfold rt_mp_free. rewrite (proj2 (Z.eqb_neq _ _)) by lia. rewrite (wrap_id 32) by (unfold fits; lia).
  replace (a + 4 - 4) with a by lia. rewrite Ha, some_bind, Hp, some_bind. simpl.
  exists (<[a := block_list mp]> m). destruct (queues k (QSuspend o)) as [|t l] eqn:Hq; [by exists k|].
  pose proof (ko_stacks _ Hk) as Hst. pose proof (sv_inv _ (ko_sched _ Hk)) as Hi.
  destruct (si_queue [] k Hi (QSuspend o) t) as (th & Ht & _); [rewrite Hq; left|].
  destruct (kernel_ok_benign k t th (set_error RT_EOK) Hk Ht)
    as (k1 & -> & Hk1 & Hti & Hq1 & Hcu1 & _); [apply set_error_benign|by apply (Hst t th)|]. rewrite some_bind.
  assert (queues k1 (QSuspend o) = t :: l) as Hq1' by (by rewrite Hq1).
  destruct (wake_ok k1 c (QSuspend o) t l Hk1) as (k2 & E & Hw); [by apply (timing_same k)|congruence|done|done|].
  unfold rt_ipc_list_resume in E. rewrite Hq1' in E. simpl in E.
  destruct (rt_thread_resume t k1) as [[r k3]|]; [|done]. simpl in E |- *. rewrite E. simpl.
  exists k2. destruct Hw. by split_and!.
Qed.

(** ** Runs *)
Inductive mp_event := Got (p : Z) | Gave (p : Z) | Nothing.

Definition got (r : attempt) : mp_event :=
  match r with Done p => if p =? 0 then Nothing else Got p | Blocked _ _ => Nothing end.

Abbreviation mp_world := (gmap Z rt_mempool * wmem * kernel)%type.

(** Allocations from the pool, first attempts and further ones, and frees, in any
    kernel; and anything else that leaves the pool and the first words of its
    blocks alone. *)
Inductive mp_step (o : Z) : mp_world -> mp_event -> mp_world -> Prop :=
| mp_alloc pools m k mp time r mp' m' k' :
    pools !! o = Some mp -> rt_mp_alloc o mp m time k = Some (r, mp', m', k') ->
    mp_step o (pools, m, k) (got r) (<[o := mp']> pools, m', k')
| mp_alloc_again pools m k mp time bs r mp' m' k' :
    pools !! o = Some mp -> rt_mp_alloc_again o mp m time bs k = Some (r, mp', m', k') ->
    mp_step o (pools, m, k) (got r) (<[o := mp']> pools, m', k')
| mp_free pools m k p pools' m' k' :
    rt_mp_free p pools m k = Some (pools', m', k') -> mp_step o (pools, m, k) (Gave p) (pools', m', k')
| mp_other pools m k mp pools' m' k' :
    pools !! o = Some mp -> pools' !! o = Some mp -> (forall a, a ∈ all_blocks mp -> m' !! a = m !! a) ->
    mp_step o (pools, m, k) Nothing (pools', m', k').

(** From [x0], with the pointers that callers hold; they free what they hold. *)
Inductive mp_reach (o : Z) (x0 : mp_world) : list Z -> mp_world -> Prop :=
| mp_start : mp_reach o x0 [] x0
| mp_got hs x p x' : mp_reach o x0 hs x -> mp_step o x (Got p) x' -> mp_reach o x0 (p :: hs) x'
| mp_freed hs hs' x p x' : mp_reach o x0 hs x -> hs ≡ₚ p :: hs' -> mp_step o x (Gave p) x' -> mp_reach o x0 hs' x'
| mp_none hs x x' : mp_reach o x0 hs x -> mp_step o x Nothing x' -> mp_reach o x0 hs x'.

Definition mp_world_ok (o : Z) (mp0 : rt_mempool) (hs : list Z) (x : mp_world) : Prop :=
  exists mp fl us, fst (fst x) !! o = Some mp /\ mp_ok o mp (snd (fst x)) fl us /\
    hs ≡ₚ (fun a => a + 4) <$> us /\ same_pool mp0 mp.

Lemma alloc_try_world o mp m fl us time k r mp' m' k' : mp_ok o mp m fl us ->
  mp_alloc_try o mp m time k = Some (r, mp', m', k') -> exists fl' us',
  mp_ok o mp' m' fl' us' /\ same_pool mp mp' /\
  match got r with Got p => exists a, p = a + 4 /\ us' = a :: us | Gave _ => False | Nothing => us' = us end.
Proof.
  intros Hm. pose proof (po_count _ _ _ _ _ Hm) as Hc. unfold mp_alloc_try. rewrite Hc.
  destruct fl as [|a fl]; unfold lenZ; simpl.
  - intros E. exists [], us. assert (mp' = mp /\ m' = m /\ got r = Nothing) as (-> & -> & ->); [|by split].
    destruct (time =? 0); [by destruct (rt_set_errno _ k); [injection E as <- <- <- <-|]|].
    destruct (RT_DEBUG_NOT_IN_INTERRUPT k); [|done]. simpl in E. destruct (rt_thread_self k) as [t|]; [|done]. simpl in E.
    destruct (upd_thread t _ k) as [k1|]; [|done]. simpl in E. destruct (rt_thread_suspend t k1) as [[r1 k2]|]; [|done].
    simpl in E. destruct (wait_timer _ _ _); [|done]. simpl in E. by injection E as <- <- <- <-.
  - destruct (mp_take_ok o mp m a fl us Hm) as (mp1 & m1 & -> & H & Hsame).
    pose proof (mp_member _ _ _ _ _ a Hm ltac:(left)) as Ha.
    intros E. injection E as <- <- <- <-. exists fl, (a :: us). split; [done|].
    split; [done|]. simpl. rewrite (proj2 (Z.eqb_neq _ _)) by lia. by exists a.
Qed.

Lemma got_world o mp0 hs pools mp us r mp' fl' us' m' k' :
  hs ≡ₚ (fun a => a + 4) <$> us -> same_pool mp0 mp -> mp_ok o mp' m' fl' us' -> same_pool mp mp' ->
  match got r with Got p => exists a, p = a + 4 /\ us' = a :: us | Gave _ => False | Nothing => us' = us end ->
  match got r with
  | Got p => mp_world_ok o mp0 (p :: hs) (<[o := mp']> pools, m', k')
  | _ => mp_world_ok o mp0 hs (<[o := mp']> pools, m', k')
  end.
Proof.
  intros Hh Hs Hm Hs' Hg. assert (same_pool mp0 mp') as Hs2 by (unfold same_pool in *; intuition congruence).
  destruct (got r) as [p|p|]; [|done|].
  - destruct Hg as (a & -> & ->). exists mp', fl', (a :: us). simpl. rewrite lookup_insert_eq. split; [done|].
    split; [done|]. split; [by rewrite Hh|done].
  - subst us'. exists mp', fl', us. simpl. rewrite lookup_insert_eq. by split_and!.
Qed.

Lemma mp_step_world o mp0 hs x ev x' : mp_world_ok o mp0 hs x -> mp_step o x ev x' ->
  match ev with
  | Got p => mp_world_ok o mp0 (p :: hs) x'
  | Gave p => forall hs', hs ≡ₚ p :: hs' -> mp_world_ok o mp0 hs' x'
  | Nothing => mp_world_ok o mp0 hs x'
  end.
Proof.
  intros (mp & fl & us & Hp & Hm & Hh & Hs) Hstep.
  destruct Hstep as [pools m k mp1 time r mp' m' k' Hp1 E|pools m k mp1 time bs r mp' m' k' Hp1 E|
    pools m k p pools' m' k' E|pools m k mp1 pools' m' k' Hp1 Hp' Hm']; simpl in Hp, Hm.
  - rewrite Hp in Hp1. injection Hp1 as <-.
    destruct (alloc_try_world o mp m fl us time k r mp' m' k' Hm E) as (fl' & us' & Hm' & Hs' & Hg).
    pose proof (got_world o mp0 hs pools mp us r mp' fl' us' m' k' Hh Hs Hm' Hs' Hg) as H. by destruct (got r).
  - rewrite Hp in Hp1. injection Hp1 as <-. unfold rt_mp_alloc_again in E.
    destruct (rt_thread_self k) as [t|]; [|done]. simpl in E. destruct (threads k !! t) as [th|]; [|done]. simpl in E.
    destruct (negb _).
    + injection E as <- <- <- <-. exists mp, fl, us. simpl. rewrite lookup_insert_eq. by split_and!.
    + destruct (alloc_try_world o mp m fl us _ k r mp' m' k' Hm E) as (fl' & us' & Hm' & Hs' & Hg).
      pose proof (got_world o mp0 hs pools mp us r mp' fl' us' m' k' Hh Hs Hm' Hs' Hg) as H. by destruct (got r).
  - intros hs' Hh'. assert (p ∈ (fun a => a + 4) <$> us) as Hin by (rewrite <- Hh, Hh'; left).
    apply list_elem_of_fmap in Hin as (a & -> & Ha). apply list_elem_of_split in Ha as (u1 & u2 & ->).
    assert (u1 ++ a :: u2 ≡ₚ a :: (u1 ++ u2)) as Hus by (by rewrite Permutation_middle).
    destruct (mp_give_ok o mp m a fl _ _ Hm Hus) as [Ho Hm'].
    destruct (mp_member o mp m fl _ a Hm) as [H0 H4]; [apply elem_of_app; right; rewrite Hus; left|].
    unfold rt_mp_free in E. rewrite (proj2 (Z.eqb_neq _ _)) in E by lia. rewrite (wrap_id 32) in E by (unfold fits; lia).
    replace (a + 4 - 4) with a in E by lia. rewrite Ho, some_bind, Hp, some_bind in E.
    assert (pools' = <[o := mp_gave mp a]> pools /\ m' = <[a := block_list mp]> m) as [-> ->].
    { destruct (queues k (QSuspend o)) as [|t l]; [by injection E as <- <- <-|].
      destruct (upd_thread t _ k) as [k1|]; [|done]. simpl in E. destruct (rt_thread_resume t k1) as [[r k2]|]; [|done].
      simpl in E. destruct (rt_schedule k2); [|done]. simpl in E. by injection E as <- <- <-. }
    exists (mp_gave mp a), (a :: fl), (u1 ++ u2). simpl. rewrite lookup_insert_eq. split; [done|]. split; [done|].
    split; [|done]. rewrite Hus in Hh. simpl in Hh. apply (Permutation_cons_inv (a := a + 4)). by rewrite <- Hh', Hh.
  - rewrite Hp in Hp1. injection Hp1 as <-. exists mp, fl, us. simpl. split; [done|]. split; [|done].
    destruct Hm as [H1 H2 H3 H4 H5 H6 H7 H8]. split; try done.
    + apply (chain_same m); [done|]. intros b Hb. apply Hm'. rewrite <- H6. apply elem_of_app. by left.
    + intros b Hb. rewrite Hm'; [by apply H8|]. rewrite <- H6. apply elem_of_app. by right.
Qed.

(** ** Properties *)

(** C19: a pool never hands a block out twice.  Whatever allocations and
    frees (of pointers held) follow on a pool all of whose blocks are free, the
    pointers held point into different blocks of the pool, whose payloads do not overlap,
    and the free blocks the pool counts are exactly those nobody holds. *)
Theorem mempool_exclusive o mp0 pools0 m0 k0 hs pools m k :
  pools0 !! o = Some mp0 -> mp_ok o mp0 m0 (all_blocks mp0) [] ->
  mp_reach o (pools0, m0, k0) hs (pools, m, k) ->
  NoDup hs /\
  (forall p, p ∈ hs -> exists i, 0 <= i < block_total_count mp0 /\
     p = start_address mp0 + i * (block_size mp0 + 4) + 4) /\
  (forall p q, p ∈ hs -> q ∈ hs -> p <> q -> p + block_size mp0 < q \/ q + block_size mp0 < p) /\
  exists mp, pools !! o = Some mp /\ block_free_count mp = block_total_count mp0 - lenZ hs.
Proof.
  intros Hp Hm Hr.
  assert (mp_world_ok o mp0 hs (pools, m, k)) as (mp & fl & us & Hp' & Hm' & Hh & (S1 & S2 & S3)).
  { induction Hr as [|hs x p x' _ IH Hs|hs hs' x p x' _ IH Hh Hs|hs x x' _ IH Hs].
    - exists mp0, (all_blocks mp0), []. by split_and!.
    - apply (mp_step_world _ _ _ _ _ _ IH Hs).
    - by apply (mp_step_world _ _ _ _ _ _ IH Hs).
    - apply (mp_step_world _ _ _ _ _ _ IH Hs). }
  simpl in Hp', Hm'. pose proof (mp_nodup _ _ _ _ _ Hm') as Hnd. apply NoDup_app in Hnd as (_ & _ & Hnd).
  assert (forall a, a ∈ us -> a ∈ all_blocks mp) as Hin.
  { intros a Ha. rewrite <- (po_all _ _ _ _ _ Hm'). apply elem_of_app. by right. }
  pose proof (po_block _ _ _ _ _ Hm') as Hb. split; [|split; [|split]].
  - rewrite Hh. apply NoDup_fmap_2; [|done]. intros a b H. lia.
  - intros p Hph. rewrite Hh in Hph. apply list_elem_of_fmap in Hph as (a & -> & Ha).
    apply Hin, list_elem_of_fmap in Ha as (i & -> & Hi). apply elem_of_seqZ in Hi. exists i. rewrite <- S1, <- S2, <- S3.
    split; [lia|done].
  - intros p q Hph Hqh Hne. rewrite Hh in Hph, Hqh. apply list_elem_of_fmap in Hph as (a & -> & Ha).
    apply list_elem_of_fmap in Hqh as (b & -> & Hbu). rewrite <- S2.
    destruct (blocks_apart mp a b Hb (Hin a Ha) (Hin b Hbu)); [congruence|lia|lia].
  - exists mp. split; [done|]. rewrite (po_count _ _ _ _ _ Hm'), <- S3.
    pose proof (Permutation_length Hh) as Hlh. rewrite length_fmap in Hlh. pose proof (Permutation_length (po_all _ _ _ _ _ Hm')) as Hl. unfold all_blocks in Hl.
    rewrite length_app, length_fmap, length_seqZ in Hl. pose proof (po_total _ _ _ _ _ Hm').
    unfold lenZ. lia.
Qed.

(** A pool of two blocks of eight bytes at address 1000. *)
Definition demo_pool : rt_mempool :=
  {| mp_parent := {| name := bytes "mp"; type := Z.lor RT_Object_Class_Static RT_Object_Class_MemPool; flag := 0 |};
     start_address := 1000; mp_size := 24; block_size := 8; block_list := 1000;
     block_total_count := 2; block_free_count := 2 |}.

Definition demo_pool_mem : wmem := mp_link 1000 8 2 ∅.

Lemma demo_pool_ok : mp_ok 500 demo_pool demo_pool_mem (all_blocks demo_pool) [].
Proof. apply (mp_link_ok 500 demo_pool ∅); simpl; lia. Qed.

Lemma mempool_exclusive_witness : exists mp1 m1 mp2 m2,
  rt_mp_alloc 500 demo_pool demo_pool_mem 0 demo_kernel = Some (Done 1004, mp1, m1, demo_kernel) /\
  rt_mp_alloc 500 mp1 m1 0 demo_kernel = Some (Done 1016, mp2, m2, demo_kernel) /\
  NoDup [1016; 1004] /\ block_free_count mp2 = 0.
Proof.
  set (pools0 := {[500 := demo_pool]} : gmap Z rt_mempool).
  assert (pools0 !! 500 = Some demo_pool) as Hp0 by reflexivity.
  destruct (rt_mp_alloc_spec 500 demo_pool demo_pool_mem _ [] 0 demo_kernel 1 demo_current demo_pool_ok demo_can_block eq_refl)
    as (mp1 & m1 & E1 & Hm1).
  destruct (rt_mp_alloc_spec 500 mp1 m1 _ _ 0 demo_kernel 1 demo_current Hm1 demo_can_block eq_refl) as (mp2 & m2 & E2 & _).
  exists mp1, m1, mp2, m2. split; [exact E1|]. split; [exact E2|].
  assert (mp_step 500 (pools0, demo_pool_mem, demo_kernel) (Got 1004) (<[500 := mp1]> pools0, m1, demo_kernel)) as S1.
  { exact (mp_alloc 500 pools0 demo_pool_mem demo_kernel demo_pool 0 (Done 1004) mp1 m1 demo_kernel Hp0 E1). }
  assert (mp_step 500 (<[500 := mp1]> pools0, m1, demo_kernel) (Got 1016)
    (<[500 := mp2]> (<[500 := mp1]> pools0), m2, demo_kernel)) as S2.
  { exact (mp_alloc 500 _ m1 demo_kernel mp1 0 (Done 1016) mp2 m2 demo_kernel (lookup_insert_eq pools0 500 mp1) E2). }
  pose proof (mp_got _ _ _ _ _ _ (mp_got _ _ _ _ _ _ (mp_start 500 (pools0, demo_pool_mem, demo_kernel)) S1) S2) as Hr.
  destruct (mempool_exclusive 500 demo_pool pools0 demo_pool_mem demo_kernel _ _ _ _ Hp0 demo_pool_ok Hr)
    as (Hnd & _ & _ & mp & Hmp & Hc).
  split; [exact Hnd|]. rewrite lookup_insert_eq in Hmp. injection Hmp as <-. exact Hc.
Defined.

(** A pool too small for one block: initialising it writes in front of it. *)
Lemma mp_link_no_block m : mp_link 1000 8 0 m !! 988 = Some 0.
Proof. apply lookup_insert_eq. Qed.
