(* ===== verification/Ringblk.v ===== *)
(** * Ring block buffers (rt-thread/components/drivers/src/ringblk_buf.c)

    A buffer from which blocks of any size are handed out without copying: a
    block is allocated, put, got and freed.  A block is its index in the set of
    blocks; the list of the buffer holds the indices, the oldest block first
    ([Slist] shows that its operations are those on the sequence).  A section in which interrupts are
    disabled is one step. *)
From S2P Require Import Prelude Slist Mem.

(** The status of a block. *)
Inductive rt_rbb_status := RT_RBB_BLK_UNUSED | RT_RBB_BLK_INITED | RT_RBB_BLK_PUT | RT_RBB_BLK_GET.

#[global] Instance rt_rbb_status_eq_dec : EqDecision rt_rbb_status.
Proof. solve_decision. Defined.

Record rt_rbb_blk := { status : rt_rbb_status; bsize : Z; bbuf : Z }.

Record rt_rbb := { rbuf : Z; rbuf_size : Z; blk_set : list rt_rbb_blk; blk_max_num : Z; blk_list : list Z }.

(** The first block of a queue in the set and how many follow in the set. *)
Record rt_rbb_blk_queue := { blocks : Z; blk_num : Z }.

Definition set_status (st : rt_rbb_status) (b : rt_rbb_blk) : rt_rbb_blk := {| b with status := st |}.

Definition block (r : rt_rbb) (i : Z) : option rt_rbb_blk := if i <? 0 then None else blk_set r !! Z.to_nat i.

Definition set_block (i : Z) (b : rt_rbb_blk) (r : rt_rbb) : rt_rbb :=
  {| r with blk_set := <[Z.to_nat i := b]> (blk_set r) |}.

(** rt_slist_remove and rt_slist_append. *)
Definition without (i : Z) (l : list Z) : list Z := filter (fun j => j <> i) l.
Definition unlist (i : Z) (r : rt_rbb) : rt_rbb := {| r with blk_list := without i (blk_list r) |}.
Definition enlist (i : Z) (r : rt_rbb) : rt_rbb := {| r with blk_list := blk_list r ++ [i] |}.

(** The loop of rt_rbb_init. *)
Fixpoint init_blocks (n : nat) (l : list rt_rbb_blk) : list rt_rbb_blk :=
  match n, l with
  | S n, b :: l => set_status RT_RBB_BLK_UNUSED b :: init_blocks n l
  | _, _ => l
  end.

Definition rt_rbb_init (buf buf_size : Z) (block_set : list rt_rbb_blk) (max : Z) : rt_rbb :=
  {| rbuf := buf; rbuf_size := buf_size; blk_set := init_blocks (Z.to_nat max) block_set; blk_max_num := max; blk_list := [] |}.

(** [set0] is what the memory of the set held; the result is the object's address too. *)
Definition rt_rbb_create (buf_size max : Z) (set0 : list rt_rbb_blk) (h : heap) : option (option (Z * rt_rbb * Z) * heap) :=
  '(p, h) ← rt_malloc 20 h;
  match p with
  | None => Some (None, h)
  | Some rbb =>
      '(p, h) ← rt_malloc buf_size h;
      match p with
      | None => h ← rt_free (Some rbb) h; Some (None, h)
      | Some buf =>
          '(p, h) ← rt_malloc (u32 (12 * max)) h;
          match p with
          | None => h ← rt_free (Some buf) h; h ← rt_free (Some rbb) h; Some (None, h)
          | Some set_at => Some (Some (rbb, rt_rbb_init buf buf_size set0 max, set_at), h)
          end
      end
  end.

Definition rt_rbb_destroy (rbb : Z) (r : rt_rbb) (set_at : Z) (h : heap) : option heap :=
  h ← rt_free (Some (rbuf r)) h;
  h ← rt_free (Some set_at) h;
  rt_free (Some rbb) h.

Fixpoint find_loop (n : nat) (i : Z) (r : rt_rbb) : option (option Z) :=
  match n with
  | O => Some None
  | S n => b ← block r i; if decide (status b = RT_RBB_BLK_UNUSED) then Some (Some i) else find_loop n (i + 1) r
  end.

Definition find_empty_blk_in_set (r : rt_rbb) : option (option Z) := find_loop (Z.to_nat (blk_max_num r)) 0 r.

(** The block [i] becomes one of [size] bytes at [buf]. *)
Definition take_block (i buf size : Z) (r : rt_rbb) : option Z * rt_rbb :=
  (Some i, set_block i {| status := RT_RBB_BLK_INITED; bsize := wrap 24 size; bbuf := buf |} (enlist i r)).

Definition rt_rbb_blk_alloc (size : Z) (r : rt_rbb) : option (option Z * rt_rbb) :=
  _ ← assert (size <? 2 ^ 24);
  new ← find_empty_blk_in_set r;
  match new with
  | Some i =>
      if lenZ (blk_list r) <? blk_max_num r then
        match blk_list r with
        | h :: l =>
            head ← block r h;
            tail ← block r (List.last l h);
            if bbuf head <=? bbuf tail then
              let empty1 := u32 (rbuf r + rbuf_size r - (bbuf tail + bsize tail)) in
              let empty2 := u32 (bbuf head - rbuf r) in
              if size <=? empty1 then Some (take_block i (u32 (bbuf tail + bsize tail)) size r)
              else if size <=? empty2 then Some (take_block i (rbuf r) size r)
              else Some (None, r)
            else
              let empty1 := u32 (bbuf head - (bbuf tail + bsize tail)) in
              if size <=? empty1 then Some (take_block i (u32 (bbuf tail + bsize tail)) size r)
              else Some (None, r)
        | [] => Some (take_block i (rbuf r) size r)
        end
      else Some (None, r)
  | None => Some (None, r)
  end.

Definition rt_rbb_blk_put (i : Z) (r : rt_rbb) : option rt_rbb :=
  b ← block r i;
  _ ← assert (bool_decide (status b = RT_RBB_BLK_INITED));
  Some (set_block i (set_status RT_RBB_BLK_PUT b) r).

Fixpoint get_loop (l : list Z) (r : rt_rbb) : option (option Z * rt_rbb) :=
  match l with
  | [] => Some (None, r)
  | i :: l =>
      b ← block r i;
      if decide (status b = RT_RBB_BLK_PUT) then Some (Some i, set_block i (set_status RT_RBB_BLK_GET b) r)
      else get_loop l r
  end.

Definition rt_rbb_blk_get (r : rt_rbb) : option (option Z * rt_rbb) := get_loop (blk_list r) r.

Definition rt_rbb_blk_size (i : Z) (r : rt_rbb) : option Z := b ← block r i; Some (bsize b).
Definition rt_rbb_blk_buf (i : Z) (r : rt_rbb) : option Z := b ← block r i; Some (bbuf b).

Definition rt_rbb_blk_free (i : Z) (r : rt_rbb) : option rt_rbb :=
  b ← block r i;
  _ ← assert (bool_decide (status b <> RT_RBB_BLK_UNUSED));
  Some (set_block i (set_status RT_RBB_BLK_UNUSED b) (unlist i r)).

(** The loop of rt_rbb_blk_queue_get: [last] is the buffer of the last block taken. *)
Fixpoint queue_get_loop (l : list Z) (last : option Z) (total max : Z) (q : rt_rbb_blk_queue) (r : rt_rbb)
  : option (Z * rt_rbb_blk_queue * rt_rbb) :=
  match l with
  | [] => Some (total, q, r)
  | i :: l =>
      b ← block r i;
      let put := bool_decide (status b = RT_RBB_BLK_PUT) in
      let go q := queue_get_loop l (Some (bbuf b)) (u32 (total + bsize b)) max
        {| blocks := blocks q; blk_num := u32 (blk_num q + 1) |} (set_block i (set_status RT_RBB_BLK_GET b) (unlist i r)) in
      match last with
      | None => if put then go {| blocks := i; blk_num := 0 |} else queue_get_loop l None total max q r
      | Some buf =>
          if negb put || (bbuf b <? buf) || (max <? u32 (total + bsize b)) then Some (total, q, r)
          else go q
      end
  end.

(** [q] is what the caller's queue held. *)
Definition rt_rbb_blk_queue_get (max : Z) (q : rt_rbb_blk_queue) (r : rt_rbb) : option (Z * rt_rbb_blk_queue * rt_rbb) :=
  queue_get_loop (blk_list r) None 0 max q r.

Fixpoint queue_len_loop (n : nat) (i total : Z) (r : rt_rbb) : option Z :=
  match n with
  | O => Some total
  | S n => b ← block r i; queue_len_loop n (i + 1) (u32 (total + bsize b)) r
  end.

Definition rt_rbb_blk_queue_len (q : rt_rbb_blk_queue) (r : rt_rbb) : option Z :=
  queue_len_loop (Z.to_nat (blk_num q)) (blocks q) 0 r.

Definition rt_rbb_blk_queue_buf (q : rt_rbb_blk_queue) (r : rt_rbb) : option Z := rt_rbb_blk_buf (blocks q) r.

Fixpoint queue_free_loop (n : nat) (i : Z) (r : rt_rbb) : option rt_rbb :=
  match n with
  | O => Some r
  | S n => r ← rt_rbb_blk_free i r; queue_free_loop n (i + 1) r
  end.

Definition rt_rbb_blk_queue_free (q : rt_rbb_blk_queue) (r : rt_rbb) : option rt_rbb :=
  queue_free_loop (Z.to_nat (blk_num q)) (blocks q) r.

Fixpoint next_len_loop (l : list Z) (last : option Z) (total : Z) (r : rt_rbb) : option Z :=
  match l with
  | [] => Some total
  | i :: l =>
      b ← block r i;
      let put := bool_decide (status b = RT_RBB_BLK_PUT) in
      let go := next_len_loop l (Some (bbuf b)) (u32 (total + bsize b)) r in
      match last with
      | None => if put then go else next_len_loop l None total r
      | Some buf => if negb put || (bbuf b <? buf) then Some total else go
      end
  end.

Definition rt_rbb_next_blk_queue_len (r : rt_rbb) : option Z := next_len_loop (blk_list r) None 0 r.

Definition rt_rbb_get_buf_size (r : rt_rbb) : Z := rbuf_size r.

(** ** Layout

    The list is in two runs of blocks: from some place on towards the end of
    the buffer, and then from its start towards that place. *)

(** The blocks of [l] lie between [lo] and [hi], one behind the other. *)
Fixpoint ascending (r : rt_rbb) (lo : Z) (l : list Z) (hi : Z) : Prop :=
  match l with
  | [] => lo <= hi
  | i :: l => exists b, block r i = Some b /\ lo <= bbuf b /\ 0 < bsize b /\ ascending r (bbuf b + bsize b) l hi
  end.

(** Where the run [l] begins. *)
Definition start (r : rt_rbb) (l : list Z) (default : Z) : Z :=
  match l with [] => default | i :: _ => from_option bbuf default (block r i) end.

Definition rend (r : rt_rbb) : Z := rbuf r + rbuf_size r.

Record rbb_ok (r : rt_rbb) (A B : list Z) : Prop := {
  ro_range : 0 <= rbuf r /\ 0 <= rbuf_size r /\ rend r < 2 ^ 32;
  ro_list : blk_list r = A ++ B;
  ro_first : A = [] -> B = [];
  ro_nodup : NoDup (blk_list r);
  ro_live : forall i b, i ∈ blk_list r -> block r i = Some b -> status b <> RT_RBB_BLK_UNUSED;
  ro_above : ascending r (rbuf r) A (rend r);
  ro_below : ascending r (rbuf r) B (start r A (rend r))
}.

Lemma block_set_eq i b c r : block r i = Some c -> block (set_block i b r) i = Some b.
Proof.
  unfold block, set_block. case_cmp; [done|]. intros Hc. simpl. apply list_lookup_insert_eq. by eapply lookup_lt_Some.
Qed.

Lemma block_set_ne i j b r : i <> j -> 0 <= i -> block (set_block i b r) j = block r j.
Proof. intros Hne Hi. unfold block, set_block. case_cmp; [done|]. simpl. apply list_lookup_insert_ne. lia. Qed.

Lemma block_nonneg r i b : block r i = Some b -> 0 <= i.
Proof. unfold block. by case_cmp. Qed.

(** Blocks with the same place and size are as good. *)
Definition same_extent (r r' : rt_rbb) (l : list Z) : Prop :=
  forall i b, i ∈ l -> block r i = Some b -> exists b', block r' i = Some b' /\ bbuf b' = bbuf b /\ bsize b' = bsize b.

Lemma ascending_same r r' l : forall lo hi, same_extent r r' l -> ascending r lo l hi -> ascending r' lo l hi.
Proof.
  induction l as [|i l IH]; intros lo hi Hs; [done|]. intros (b & Hb & H1 & H2 & H3).
  destruct (Hs i b ltac:(left) Hb) as (b' & Hb' & E1 & E2). exists b'. rewrite E1, E2. do 3 (split; [done|]).
  apply IH; [|done]. intros j c Hj. apply Hs. by right.
Qed.

Lemma start_same r r' l d : same_extent r r' l -> (forall i, i ∈ l -> is_Some (block r i)) -> start r' l d = start r l d.
Proof.
  intros Hs Hx. destruct l as [|i l]; [done|]. simpl. destruct (Hx i ltac:(left)) as [b Hb].
  destruct (Hs i b ltac:(left) Hb) as (b' & Hb' & E & _). by rewrite Hb, Hb'.
Qed.

Lemma ascending_exists r l : forall lo hi, ascending r lo l hi -> forall i, i ∈ l -> is_Some (block r i).
Proof.
  induction l as [|j l IH]; intros lo hi Ha i Hi; [by apply elem_of_nil in Hi|]. destruct Ha as (b & Hb & _ & _ & Ha).
  apply elem_of_cons in Hi as [->|Hi]; [by exists b|by eapply IH].
Qed.

Lemma ascending_le r l : forall lo hi, ascending r lo l hi -> lo <= hi.
Proof.
  induction l as [|j l IH]; intros lo hi; simpl; [done|]. intros (b & _ & H1 & H2 & Ha). apply IH in Ha. lia.
Qed.

Lemma ascending_lo r l lo lo' hi : lo' <= lo -> ascending r lo l hi -> ascending r lo' l hi.
Proof. destruct l as [|i l]; simpl; [lia|]. intros H (b & Hb & H1 & H2). exists b. split; [done|]. split; [lia|done]. Qed.

Lemma ascending_hi r l : forall lo hi hi', hi <= hi' -> ascending r lo l hi -> ascending r lo l hi'.
Proof.
  induction l as [|i l IH]; intros lo hi hi' H; simpl; [lia|]. intros (b & Hb & H1 & H2 & Ha). exists b. split_and!; try done.
  by eapply IH.
Qed.

(** Taking a block out of a run, wherever it is. *)
Lemma ascending_remove r i l : forall lo hi, ascending r lo l hi -> ascending r lo (without i l) hi.
Proof.
  unfold without. induction l as [|j l IH]; intros lo hi; [done|]. intros (b & Hb & H1 & H2 & Ha). destruct (decide (j = i)) as [->|Hne].
  - rewrite filter_cons_False by tauto. apply IH. eapply ascending_lo; [|exact Ha]. lia.
  - rewrite filter_cons_True by done. exists b. do 3 (split; [done|]). by apply IH.
Qed.

(** The end of the last block of a run. *)
Definition run_end (r : rt_rbb) (i : Z) : Z := from_option (fun b => bbuf b + bsize b) 0 (block r i).

Lemma ascending_snoc r l i b : forall lo hi, ascending r lo (l ++ [i]) hi -> block r i = Some b ->
  ascending r lo (l ++ [i]) (bbuf b + bsize b) /\ bbuf b + bsize b <= hi.
Proof.
  induction l as [|j l IH]; intros lo hi; simpl.
  - intros (c & Hc & H1 & H2 & Ha) Hb. rewrite Hb in Hc. injection Hc as <-. split; [|done]. exists b. split_and!; done || lia.
  - intros (c & Hc & H1 & H2 & Ha) Hb. destruct (IH _ _ Ha Hb) as [H3 H4]. split; [|done]. by exists c.
Qed.

(** A run that ends at [mid] goes on behind it. *)
Lemma ascending_app r l k : forall lo mid hi, ascending r lo l mid -> ascending r mid k hi -> ascending r lo (l ++ k) hi.
Proof.
  induction l as [|i l IH]; intros lo mid hi; simpl; [apply ascending_lo|].
  intros (b & Hb & H1 & H2 & Ha) Hk. exists b. split_and!; try done. by eapply IH.
Qed.

(** Inside of a run. *)
Lemma ascending_inside r l : forall lo hi i b, ascending r lo l hi -> i ∈ l -> block r i = Some b ->
  lo <= bbuf b /\ 0 < bsize b /\ bbuf b + bsize b <= hi.
Proof.
  induction l as [|j l IH]; intros lo hi i b Ha Hi Hb; [by apply elem_of_nil in Hi|]. destruct Ha as (c & Hc & H1 & H2 & Ha).
  apply elem_of_cons in Hi as [->|Hi].
  - rewrite Hb in Hc. injection Hc as <-. pose proof (ascending_le _ _ _ _ Ha). lia.
  - destruct (IH _ _ _ _ Ha Hi Hb). lia.
Qed.

Definition disjoint_blocks (b c : rt_rbb_blk) : Prop := bbuf b + bsize b <= bbuf c \/ bbuf c + bsize c <= bbuf b.

Lemma ascending_disjoint r l : forall lo hi i j b c, ascending r lo l hi -> i ∈ l -> j ∈ l -> i <> j ->
  block r i = Some b -> block r j = Some c -> disjoint_blocks b c.
Proof.
  induction l as [|k l IH]; intros lo hi i j b c Ha Hi Hj Hne Hb Hc; [by apply elem_of_nil in Hi|].
  destruct Ha as (d & Hd & H1 & H2 & Ha). apply elem_of_cons in Hi as [->|Hi], Hj as [->|Hj].
  - by destruct Hne.
  - rewrite Hb in Hd. injection Hd as <-. left. by destruct (ascending_inside _ _ _ _ _ _ Ha Hj Hc).
  - rewrite Hc in Hd. injection Hd as <-. right. by destruct (ascending_inside _ _ _ _ _ _ Ha Hi Hb).
  - exact (IH _ _ i j b c Ha Hi Hj Hne Hb Hc).
Qed.

Lemma ascending_start r l lo hi : ascending r lo l hi -> ascending r (start r l hi) l hi /\ lo <= start r l hi.
Proof.
  destruct l as [|i l]; simpl; [done|]. intros (b & Hb & H1 & H2 & Ha). rewrite Hb. simpl. split; [|done].
  exists b. split_and!; done || lia.
Qed.

(** Removing blocks moves the start of a run only towards its end. *)
Lemma start_remove r i l lo hi : ascending r lo l hi ->
  start r l hi <= start r (without i l) hi.
Proof.
  intros Ha. apply ascending_start in Ha as [Ha _]. apply (ascending_remove r i) in Ha. by apply ascending_start in Ha as [_ Ha].
Qed.

Lemma same_extent_set r i b b' l : block r i = Some b -> bbuf b' = bbuf b -> bsize b' = bsize b -> same_extent r (set_block i b' r) l.
Proof.
  intros Hb E1 E2 j c _ Hc. destruct (decide (j = i)) as [->|Hne].
  - exists b'. rewrite (block_set_eq i b' b) by done. rewrite Hb in Hc. injection Hc as <-. done.
  - exists c. rewrite block_set_ne; [done|congruence|by eapply block_nonneg].
Qed.

Lemma block_unlist i r j : block (unlist i r) j = block r j.
Proof. done. Qed.

(** A change of status that keeps the block in use. *)
Lemma rbb_ok_status r A B i b st : rbb_ok r A B -> block r i = Some b ->
  st <> RT_RBB_BLK_UNUSED -> rbb_ok (set_block i (set_status st b) r) A B.
Proof.
  intros [H1 H2 H3 H4 H5 H6 H7] Hb Hst. pose proof (fun l => same_extent_set r i b (set_status st b) l Hb eq_refl eq_refl) as Hsame.
  split; try done.
  - intros j c Hj Hc. destruct (decide (j = i)) as [->|Hne].
    + rewrite (block_set_eq i _ b) in Hc by done. by injection Hc as <-.
    + rewrite block_set_ne in Hc; [by apply (H5 j)|congruence|by eapply block_nonneg].
  - by apply (ascending_same r).
  - rewrite (start_same r); [|done|by eapply ascending_exists]. by apply (ascending_same r).
Qed.

(** A block that is taken off the list, whatever becomes of it. *)
Lemma blk_remove_ok r A B i b st : rbb_ok r A B -> block r i = Some b ->
  exists A' B', rbb_ok (set_block i (set_status st b) (unlist i r)) A' B'.
Proof.
  intros [H1 H2 H3 H4 H5 H6 H7] Hb. set (r' := set_block i _ _). set (f := without i).
  assert (forall l, same_extent r r' l) as Hsame.
  { intros l. apply (same_extent_set (unlist i r) i b); done. }
  assert (forall j c, j ∈ f (blk_list r) -> block r' j = Some c -> status c <> RT_RBB_BLK_UNUSED) as Hlive.
  { intros j c Hj Hc. unfold f, without in Hj. apply list_elem_of_filter in Hj as [Hne Hj]. unfold r' in Hc.
    rewrite block_set_ne in Hc; [by apply (H5 j)|congruence|by eapply block_nonneg]. }
  assert (NoDup (f (blk_list r))) as Hnd by (by apply NoDup_filter).
  assert (ascending r' (rbuf r) (f A) (rend r)) as HA by (by apply (ascending_same r), ascending_remove).
  assert (ascending r' (rbuf r) (f B) (start r' (f A) (rend r))) as HB.
  { apply (ascending_same r); [done|]. rewrite (start_same r) by first [done | by eapply ascending_exists, ascending_remove].
    eapply ascending_hi; [by eapply start_remove|]. by apply ascending_remove. }
  assert (f (blk_list r) = f A ++ f B) as Hl by (unfold f, without; by rewrite H2, filter_app).
  destruct (decide (f A = [])) as [HfA|HfA].
  - rewrite HfA in HB, Hl. simpl in HB, Hl. exists (f B), []. split; try done; [by rewrite app_nil_r|].
    by apply ascending_start in HB as [_ HB].
  - exists (f A), (f B). split; try done.
Qed.

Lemma find_loop_unused n : forall i r j, find_loop n i r = Some (Some j) ->
  exists b, block r j = Some b /\ status b = RT_RBB_BLK_UNUSED.
Proof.
  induction n as [|n IH]; intros i r j; [done|]. simpl. destruct (block r i) as [b|] eqn:Hb; [|done]. rewrite some_bind.
  case_decide; [intros [= <-]; by exists b|apply IH].
Qed.

(** A new block at the end of the list. *)
Section Take.
Context (r : rt_rbb) (A B : list Z) (i : Z) (b0 : rt_rbb_blk) (buf size : Z).
Hypothesis Hr : rbb_ok r A B.
Hypothesis Hi : block r i = Some b0.
Hypothesis Hu : status b0 = RT_RBB_BLK_UNUSED.
Hypothesis Hsz : 0 < size < 2 ^ 24.

Let r' : rt_rbb := snd (take_block i buf size r).
Let new : rt_rbb_blk := {| status := RT_RBB_BLK_INITED; bsize := size; bbuf := buf |}.

Lemma new_block : block r' i = Some new.
Proof.
  unfold r', take_block, new. simpl. rewrite (block_set_eq i _ b0) by done. by rewrite wrap_id by (unfold fits; lia).
Qed.

Lemma new_not_listed : i ∉ blk_list r.
Proof. intros Hin. by apply (ro_live r A B Hr i b0 Hin Hi). Qed.

Lemma old_blocks j : j <> i -> block r' j = block r j.
Proof. intros Hne. unfold r', take_block. simpl. rewrite block_set_ne; [done|congruence|by eapply block_nonneg]. Qed.

Lemma old_extents l : i ∉ l -> same_extent r r' l.
Proof. intros Hn j b Hj Hb. exists b. rewrite old_blocks; [done|]. by intros ->. Qed.

Lemma old_above : ascending r' (rbuf r) A (rend r) /\ i ∉ A.
Proof.
  pose proof new_not_listed as Hn. rewrite (ro_list r A B Hr) in Hn. assert (i ∉ A) as HA by set_solver.
  split; [|done]. apply (ascending_same r); [by apply old_extents|apply Hr].
Qed.

Lemma old_below hi : ascending r (rbuf r) B hi -> ascending r' (rbuf r) B hi /\ i ∉ B.
Proof.
  intros Ha. pose proof new_not_listed as Hn. rewrite (ro_list r A B Hr) in Hn. assert (i ∉ B) as HB by set_solver.
  split; [|done]. apply (ascending_same r); [by apply old_extents|done].
Qed.

(** The new block is behind the run [l], which ends at [buf], and before [hi]. *)
Lemma new_behind l lo hi : ascending r' lo l buf -> buf + size <= hi -> ascending r' lo (l ++ [i]) hi.
Proof.
  intros Ha Hh. apply (ascending_app r' l [i] lo buf hi Ha). exists new. split; [apply new_block|]. simpl. lia.
Qed.

Lemma take_ok A' B' : A' ++ B' = blk_list r ++ [i] -> A' <> [] ->
  ascending r' (rbuf r) A' (rend r) -> ascending r' (rbuf r) B' (start r' A' (rend r)) -> rbb_ok r' A' B'.
Proof.
  intros Hl Hne HA HB. pose proof new_not_listed as Hn. destruct Hr as [H1 H2 H3 H4 H5 H6 H7].
  split; try done.
  - simpl. apply NoDup_app. split; [done|]. split; [|apply NoDup_singleton]. intros j Hj ->%list_elem_of_singleton. done.
  - intros j b Hj Hb. simpl in Hj. rewrite elem_of_app, list_elem_of_singleton in Hj. destruct (decide (j = i)) as [->|Hji].
    + rewrite new_block in Hb. by injection Hb as <-.
    + rewrite old_blocks in Hb by done. destruct Hj as [Hj|]; [by apply (H5 j)|done].
Qed.
End Take.

(** The last block of the list ends the run that is used at present. *)
Lemma last_run r A B h l : rbb_ok r A B -> blk_list r = h :: l -> exists head tail,
  block r h = Some head /\ block r (List.last l h) = Some tail /\ start r A (rend r) = bbuf head /\
  0 < bsize tail /\ rbuf r <= bbuf head <= rend r /\ rbuf r <= bbuf tail /\ bbuf tail + bsize tail <= rend r /\
  if bbuf head <=? bbuf tail then B = [] /\ ascending r (rbuf r) A (bbuf tail + bsize tail)
  else ascending r (rbuf r) B (bbuf tail + bsize tail) /\ bbuf tail + bsize tail <= bbuf head.
Proof.
  intros [H1 H2 H3 H4 H5 H6 H7] Hl. rewrite Hl in H2. destruct A as [|a A]; [by rewrite H3 in H2|]. injection H2 as <- Hl'.
  destruct (ascending_exists _ _ _ _ H6 h ltac:(left)) as [head Hh].
  assert (start r (h :: A) (rend r) = bbuf head) as Hst by (simpl; by rewrite Hh).
  destruct (ascending_inside _ _ _ _ _ _ H6 ltac:(left) Hh) as (Hh1 & Hh2 & Hh3). subst l.
  destruct B as [|z B _] using rev_ind.
  - rewrite app_nil_r. assert (exists tail, block r (List.last A h) = Some tail /\ ascending r (rbuf r) (h :: A) (bbuf tail + bsize tail) /\
      bbuf tail + bsize tail <= rend r /\ 0 < bsize tail /\ bbuf head <= bbuf tail) as (tail & Ht & Ha & Hle & Hs & Hht).
    { destruct A as [|z A _] using rev_ind.
      - exists head. simpl. split; [done|]. split; [|split; [done|split; [done|lia]]]. exists head. split_and!; done || lia.
      - rewrite List.last_last. destruct (ascending_exists _ _ _ _ H6 z ltac:(set_solver)) as [tail Ht]. exists tail.
        rewrite app_comm_cons in H6. destruct (ascending_snoc r (h :: A) z tail _ _ H6 Ht) as [Ha Hle].
        split; [done|]. split; [done|]. split; [done|].
        simpl in H6. destruct H6 as (c & Hc & _ & _ & H6). rewrite Hh in Hc. injection Hc as <-.
        destruct (ascending_inside _ _ _ _ z tail H6 ltac:(set_solver) Ht). lia. }
    exists head, tail. rewrite (proj2 (Z.leb_le _ _) Hht). split_and!; done || lia.
  - rewrite app_assoc, List.last_last. destruct (ascending_exists _ _ _ _ H7 z ltac:(set_solver)) as [tail Ht].
    destruct (ascending_snoc r B z tail _ _ H7 Ht) as [Ha Hle]. rewrite Hst in Hle.
    destruct (ascending_inside _ _ _ _ z tail H7 ltac:(set_solver) Ht) as (Ht1 & Ht2 & _).
    exists head, tail. rewrite (proj2 (Z.leb_gt _ _)) by lia. split_and!; done || lia.
Qed.

(** Allocating keeps the layout; the new block has the size asked for. *)
Lemma alloc_ok r A B size x r' : rbb_ok r A B -> 0 < size -> (blk_list r = [] -> size <= rbuf_size r) ->
  rt_rbb_blk_alloc size r = Some (x, r') ->
  (exists A' B', rbb_ok r' A' B') /\
  match x with
  | None => r' = r
  | Some i => i ∉ blk_list r /\ blk_list r' = blk_list r ++ [i] /\
      exists buf, block r' i = Some {| status := RT_RBB_BLK_INITED; bsize := size; bbuf := buf |}
  end.
Proof.
  intros Hr Hsz He E. pose proof (ro_range r A B Hr) as (Hr1 & Hr2 & Hr3).
  unfold rt_rbb_blk_alloc in E. destruct (Z.ltb_spec size (2 ^ 24)) as [Hs24|]; [|done]. cbn [assert] in E. rewrite some_bind in E.
  destruct (find_empty_blk_in_set r) as [[i|]|] eqn:Hf; [| |done]; rewrite some_bind in E; [|injection E as <- <-; eauto].
  apply find_loop_unused in Hf as (b0 & Hb0 & Hu).
  destruct (_ <? blk_max_num r); [|injection E as <- <-; eauto].
  assert (forall buf A' B', A' ++ B' = blk_list r ++ [i] -> A' <> [] ->
    ascending (snd (take_block i buf size r)) (rbuf r) A' (rend r) ->
    ascending (snd (take_block i buf size r)) (rbuf r) B' (start (snd (take_block i buf size r)) A' (rend r)) ->
    take_block i buf size r = (x, r') ->
    (exists A' B', rbb_ok r' A' B') /\
    match x with
    | None => r' = r
    | Some i => i ∉ blk_list r /\ blk_list r' = blk_list r ++ [i] /\
        exists buf, block r' i = Some {| status := RT_RBB_BLK_INITED; bsize := size; bbuf := buf |}
    end) as Hdone.
  { intros buf A' B' Hl Hne HA HB Ht. unfold take_block in Ht. injection Ht as <- Hr'.
    assert (r' = snd (take_block i buf size r)) as -> by done. split; [by exists A', B'; eapply take_ok|].
    split; [by eapply new_not_listed|]. split; [done|]. exists buf. by eapply new_block. }
  destruct (blk_list r) as [|h l] eqn:Hl.
  - apply (inj Some) in E. apply (Hdone (rbuf r) [i] []); try done.
    + apply (new_behind r i b0 (rbuf r) size Hb0 ltac:(lia) []); [simpl; lia|]. unfold rend. specialize (He eq_refl). lia.
    + cbn [ascending start]. rewrite (new_block r i b0 (rbuf r) size Hb0 ltac:(lia)). simpl. lia.
  - destruct (last_run r A B h l Hr Hl) as (head & tail & Hh & Ht & Hst & Htl & Hhl & Htb & Htr & Hcase).
    rewrite Hh, Ht, !some_bind in E. pose proof (ro_list r A B Hr) as Hlist. rewrite Hl in Hlist.
    assert (A <> []) as HA0 by (intros ->; by rewrite (ro_first r [] B Hr) in Hlist).
    rewrite (wrap_id 32 (bbuf tail + bsize tail)) in E by (unfold fits; lia).
    assert (i ∉ A /\ i ∉ B) as [HiA HiB].
    { pose proof (new_not_listed r A B i b0 Hr Hb0 Hu) as Hn. rewrite Hl, Hlist in Hn. set_solver. }
    assert (forall buf, let r1 := snd (take_block i buf size r) in
      ascending r1 (rbuf r) A (rend r) /\ start r1 A (rend r) = bbuf head) as Hold.
    { intros buf r1. pose proof (old_extents r i b0 buf size Hb0 A HiA) as Hsame. split; [by apply (ascending_same r); [|apply Hr]|].
      rewrite (start_same r); [done|done|]. eapply ascending_exists, Hr. }
    assert (forall k lo hi, i ∉ k -> ascending r lo k (bbuf tail + bsize tail) -> bbuf tail + bsize tail + size <= hi ->
      ascending (snd (take_block i (bbuf tail + bsize tail) size r)) lo (k ++ [i]) hi) as Hbehind.
    { intros k lo hi Hk Ha Hhi. apply (new_behind r i b0 _ size Hb0 ltac:(lia)); [|done].
      apply (ascending_same r); [by apply (old_extents r i b0)|done]. }
    destruct (Z.leb_spec (bbuf head) (bbuf tail)).
    + destruct Hcase as [-> Ha].
      rewrite (wrap_id 32 (_ - (_ + _))), (wrap_id 32 (bbuf head - rbuf r)) in E by (unfold fits, rend in *; lia). rewrite app_nil_r in Hlist.
      destruct (Z.leb_spec size (rbuf r + rbuf_size r - (bbuf tail + bsize tail))) as [Hsp|]; [|destruct (Z.leb_spec size (bbuf head - rbuf r))].
      * apply (inj Some) in E. pose proof (Hbehind A (rbuf r) (rend r) HiA Ha ltac:(unfold rend; lia)) as Ha'.
        apply (Hdone (bbuf tail + bsize tail) (A ++ [i]) []); try done; [by rewrite app_nil_r, Hlist|by destruct A|].
        by apply ascending_start in Ha' as [_ Ha'].
      * apply (inj Some) in E. destruct (Hold (rbuf r)) as [Ha' Hs']. apply (Hdone (rbuf r) A [i]); try done; [by rewrite Hlist|].
        apply (new_behind r i b0 (rbuf r) size Hb0 ltac:(lia) []); [simpl; lia|]. rewrite Hs'. lia.
      * injection E as <- <-. eauto.
    + destruct Hcase as [Ha Hle]. rewrite wrap_id in E by (unfold fits, rend in *; lia).
      destruct (Z.leb_spec size (bbuf head - (bbuf tail + bsize tail))) as [Hsp|]; [|injection E as <- <-; eauto].
      apply (inj Some) in E. destruct (Hold (bbuf tail + bsize tail)) as [Ha' Hs'].
      apply (Hdone (bbuf tail + bsize tail) A (B ++ [i])); try done; [by rewrite Hlist, app_assoc|].
      apply Hbehind; [done|done|]. rewrite Hs'. lia.
Qed.

(** The oldest block that was put is got. *)
Lemma get_loop_spec l r x r' : get_loop l r = Some (x, r') ->
  match x with
  | None => r' = r /\ forall i b, i ∈ l -> block r i = Some b -> status b <> RT_RBB_BLK_PUT
  | Some i => exists l1 l2 b, l = l1 ++ i :: l2 /\ block r i = Some b /\ status b = RT_RBB_BLK_PUT /\
      (forall j c, j ∈ l1 -> block r j = Some c -> status c <> RT_RBB_BLK_PUT) /\ r' = set_block i (set_status RT_RBB_BLK_GET b) r
  end.
Proof.
  induction l as [|i l IH]; simpl; [intros [= <- <-]; split; [done|]; intros i b Hi; by apply elem_of_nil in Hi|].
  destruct (block r i) as [b|] eqn:Hb; [|done]. rewrite some_bind. case_decide as Hs.
  - intros [= <- <-]. exists [], l, b. split_and!; try done. intros j c Hj. by apply elem_of_nil in Hj.
  - intros E. specialize (IH E). destruct x as [j|].
    + destruct IH as (l1 & l2 & c & -> & Hc & Hst & Hl1 & ->). exists (i :: l1), l2, c. split_and!; try done.
      intros k d Hk Hd. apply elem_of_cons in Hk as [->|Hk]; [by simplify_eq|by eapply Hl1].
    + destruct IH as [-> IH]. split; [done|]. intros j c Hj Hc. apply elem_of_cons in Hj as [->|Hj]; [by simplify_eq|by eapply IH].
Qed.

(** ** Runs *)

(** What a user of the buffer does with it; [QueueGet]'s [q] is what the caller's
    queue held. *)
Inductive rbb_op :=
| BlkAlloc (size : Z) | BlkPut (i : Z) | BlkGet | BlkFree (i : Z)
| QueueGet (max : Z) (q : rt_rbb_blk_queue) | QueueFree (q : rt_rbb_blk_queue).

Definition rbb_do (op : rbb_op) (r : rt_rbb) : option rt_rbb :=
  match op with
  | BlkAlloc size => '(_, r) ← rt_rbb_blk_alloc size r; Some r
  | BlkPut i => rt_rbb_blk_put i r
  | BlkGet => '(_, r) ← rt_rbb_blk_get r; Some r
  | BlkFree i => rt_rbb_blk_free i r
  | QueueGet max q => '(_, _, r) ← rt_rbb_blk_queue_get max q r; Some r
  | QueueFree q => rt_rbb_blk_queue_free q r
  end.

(** The blocks that a queue_get takes off the list. *)
Definition taken_by (op : rbb_op) (r r' : rt_rbb) : list Z :=
  match op with QueueGet _ _ => filter (fun i => i ∉ blk_list r') (blk_list r) | _ => [] end.

(** The buffer after the operations, if no assertion of the code failed, and the
    blocks the queues took. *)
Fixpoint rbb_run (ops : list rbb_op) (r : rt_rbb) : option (rt_rbb * list Z) :=
  match ops with
  | [] => Some (r, [])
  | op :: ops =>
      r' ← rbb_do op r;
      '(r'', taken) ← rbb_run ops r';
      Some (r'', taken_by op r r' ++ taken)
  end.

(** The size that an allocation asks for is not zero and not that of more than
    the whole buffer, which the code leaves to its callers. *)
Definition asks_within (size : Z) (op : rbb_op) : Prop :=
  match op with BlkAlloc n => 0 < n <= size | _ => True end.

Definition in_use (r : rt_rbb) (i : Z) (b : rt_rbb_blk) : Prop := block r i = Some b /\ status b <> RT_RBB_BLK_UNUSED.

(** A step keeps the layout, and of the blocks in use only those that a queue
    takes leave the list. *)
Record rbb_kept (r r' : rt_rbb) (off : list Z) : Prop := {
  rk_layout : exists A B, rbb_ok r' A B;
  rk_buf : rbuf r' = rbuf r /\ rbuf_size r' = rbuf_size r;
  rk_listed : forall i b, in_use r' i b -> i ∉ blk_list r' -> i ∈ off \/ exists b, in_use r i b /\ i ∉ blk_list r
}.

Lemma rbb_kept_refl r A B : rbb_ok r A B -> rbb_kept r r [].
Proof. intros Hr. split; [eauto|done|]. intros i b Hi Hn. right. eauto. Qed.

(** A step in which one block changes its status. *)
Lemma status_kept r A B i b st : rbb_ok r A B -> block r i = Some b -> status b <> RT_RBB_BLK_UNUSED ->
  st <> RT_RBB_BLK_UNUSED -> rbb_kept r (set_block i (set_status st b) r) [].
Proof.
  intros Hr Hb Hs Hst. split; [exists A, B; by apply rbb_ok_status|done|]. intros j c [Hc Hcs] Hn. right. simpl in Hn.
  destruct (decide (j = i)) as [->|Hne]; [exists b; by split_and!|]. exists c. split; [|done]. split; [|done].
  rewrite block_set_ne in Hc; [done|congruence|by eapply block_nonneg].
Qed.

Lemma rbb_kept_trans r1 r2 r3 l1 l2 : rbb_kept r1 r2 l1 -> rbb_kept r2 r3 l2 -> rbb_kept r1 r3 (l1 ++ l2).
Proof.
  intros [_ [E1 E2] L1] [H [E3 E4] L2]. split; [done|split; congruence|]. intros i b Hi Hn. rewrite elem_of_app.
  destruct (L2 i b Hi Hn) as [|(c & Hc & Hnc)]; [auto|]. destruct (L1 i c Hc Hnc); auto.
Qed.

Lemma alloc_kept r A B size x r' : rbb_ok r A B -> 0 < size <= rbuf_size r ->
  rt_rbb_blk_alloc size r = Some (x, r') -> rbb_kept r r' [].
Proof.
  intros Hr [H0 H1] E. destruct (alloc_ok r A B size x r' Hr H0 ltac:(by intros) E) as [Hl Hx].
  destruct x as [i|]; [|subst r'; by eapply rbb_kept_refl].
  assert (exists buf, r' = snd (take_block i buf size r)) as [buf ->].
  { unfold rt_rbb_blk_alloc in E. destruct (assert _); [|done]. rewrite some_bind in E.
    destruct (find_empty_blk_in_set r) as [[j|]|]; [| |done]; rewrite some_bind in E; [|done].
    destruct (_ <? blk_max_num r); [|done]. destruct (blk_list r); [injection E as -> <-; eauto|].
    destruct (block r z) as [hd|]; [|done]. rewrite some_bind in E. destruct (block r _) as [tl|]; [|done]. rewrite some_bind in E.
    repeat match type of E with context [if ?c then _ else _] => destruct c end; try done; injection E as -> <-; eauto. }
  split; [done|done|]. intros j b [Hb Hs] Hn. right. exists b. simpl in Hn. rewrite elem_of_app, list_elem_of_singleton in Hn.
  split; [|tauto]. split; [|done]. unfold take_block in Hb. simpl in Hb.
  destruct Hx as (_ & _ & c & Hc). apply block_nonneg in Hc. rewrite block_set_ne in Hb by (done || tauto || (intros ->; tauto)). done.
Qed.

Lemma free_kept r A B i r' : rbb_ok r A B -> rt_rbb_blk_free i r = Some r' -> rbb_kept r r' [].
Proof.
  intros Hr E. unfold rt_rbb_blk_free in E. destruct (block r i) as [b|] eqn:Hb; [|done].
  rewrite some_bind in E. destruct (bool_decide _); [|done]. injection E as <-.
  split; [by eapply blk_remove_ok|done|]. intros j c [Hc Hcs] Hn. simpl in Hn.
  destruct (decide (j = i)) as [->|Hne].
  - rewrite (block_set_eq i _ b) in Hc by done. by injection Hc as <-.
  - right. exists c. split; [split; [|done]|].
    + rewrite block_set_ne in Hc; [done|congruence|by eapply block_nonneg].
    + intros Hj. apply Hn. by apply list_elem_of_filter.
Qed.

Lemma queue_free_kept n : forall i r A B r', rbb_ok r A B -> queue_free_loop n i r = Some r' -> rbb_kept r r' [].
Proof.
  induction n as [|n IH]; intros i r A B r' Hr E; simpl in E; [injection E as <-; by eapply rbb_kept_refl|].
  destruct (rt_rbb_blk_free i r) as [r1|] eqn:E1; [|done]. rewrite some_bind in E.
  pose proof (free_kept r A B i r1 Hr E1) as H1. destruct (rk_layout _ _ _ H1) as (A1 & B1 & Hr1).
  exact (rbb_kept_trans _ _ _ [] [] H1 (IH _ _ _ _ _ Hr1 E)).
Qed.

(** The blocks that a queue takes were in use. *)
Lemma queue_get_kept l : forall last total max q r A B t q' r', rbb_ok r A B ->
  queue_get_loop l last total max q r = Some (t, q', r') ->
  (exists A B, rbb_ok r' A B) /\ (rbuf r' = rbuf r /\ rbuf_size r' = rbuf_size r) /\
  forall i b, in_use r' i b -> exists b, in_use r i b.
Proof.
  induction l as [|i l IH]; intros last total max q r A B t q' r' Hr E; cbn [queue_get_loop] in E.
  { injection E as _ _ <-. split_and!; eauto. }
  destruct (block r i) as [b|] eqn:Hb; [|done]. rewrite some_bind in E. cbv zeta in E.
  case_bool_decide as Hp; cbn [negb orb] in E; [|destruct last; [injection E as _ _ <-; split_and!; eauto|by eapply IH]].
  set (r1 := set_block i _ _) in E.
  assert (forall total q, queue_get_loop l (Some (bbuf b)) total max q r1 = Some (t, q', r') ->
    (exists A B, rbb_ok r' A B) /\ (rbuf r' = rbuf r /\ rbuf_size r' = rbuf_size r) /\
    forall i b, in_use r' i b -> exists b, in_use r i b) as Hgo.
  { intros total' q1 E1. destruct (blk_remove_ok r A B i b RT_RBB_BLK_GET Hr Hb) as (A1 & B1 & Hr1).
    destruct (IH _ _ _ _ _ _ _ _ _ _ Hr1 E1) as (H1 & H2 & H3). split; [done|]. split; [done|].
    intros j c Hj. destruct (H3 j c Hj) as (d & Hd & Hds). destruct (decide (j = i)) as [->|Hne].
    - exists b. split; [done|]. by rewrite Hp.
    - exists d. split; [|done]. unfold r1 in Hd. rewrite block_set_ne in Hd; [done|congruence|by eapply block_nonneg]. }
  destruct last as [buf|]; [|by eapply Hgo]. destruct (_ || _); [injection E as _ _ <-; split_and!; eauto|by eapply Hgo].
Qed.

(** Every operation keeps the layout. *)
Lemma rbb_do_kept op r A B r' : rbb_ok r A B -> asks_within (rbuf_size r) op -> rbb_do op r = Some r' ->
  rbb_kept r r' (taken_by op r r').
Proof.
  intros Hr Ha E. destruct op as [size|i| |i|max q|q]; simpl in E.
  - destruct (rt_rbb_blk_alloc size r) as [[x r1]|] eqn:E1; [|done]. injection E as <-. by eapply alloc_kept.
  - unfold rt_rbb_blk_put in E. destruct (block r i) as [b|] eqn:Hb; [|done]. rewrite some_bind in E.
    case_bool_decide as Hst; [|done]. injection E as <-. eapply status_kept; try done. by rewrite Hst.
  - destruct (rt_rbb_blk_get r) as [[x r1]|] eqn:E1; [|done]. injection E as <-. apply get_loop_spec in E1.
    destruct x as [i|]; [|destruct E1 as [-> _]; by eapply rbb_kept_refl].
    destruct E1 as (l1 & l2 & b & _ & Hb & Hst & _ & ->). eapply status_kept; try done. by rewrite Hst.
  - by eapply free_kept.
  - destruct (rt_rbb_blk_queue_get max q r) as [[[t q'] r1]|] eqn:E1; [|done]. injection E as <-.
    destruct (queue_get_kept _ _ _ _ _ _ _ _ _ _ _ Hr E1) as (H1 & H2 & H3). split; [done|done|].
    intros i b Hi Hn. simpl. rewrite list_elem_of_filter. destruct (H3 i b Hi) as [c Hc].
    destruct (decide (i ∈ blk_list r)); [by left|right; eauto].
  - by eapply queue_free_kept.
Qed.

Lemma rbb_run_kept ops : forall r A B r' taken, rbb_ok r A B -> Forall (asks_within (rbuf_size r)) ops ->
  rbb_run ops r = Some (r', taken) -> rbb_kept r r' taken.
Proof.
  induction ops as [|op ops IH]; intros r A B r' taken Hr Ha E; [injection E as <- <-; by eapply rbb_kept_refl|].
  apply Forall_cons in Ha as [Ha1 Ha]. simpl in E. destruct (rbb_do op r) as [r1|] eqn:E1; [|done]. rewrite some_bind in E.
  destruct (rbb_run ops r1) as [[r2 off]|] eqn:E2; [|done]. injection E as <- <-.
  pose proof (rbb_do_kept op r A B r1 Hr Ha1 E1) as H1. destruct (rk_layout _ _ _ H1) as (A1 & B1 & Hr1).
  eapply rbb_kept_trans; [exact H1|]. eapply IH; [done| |done]. by rewrite (proj2 (rk_buf _ _ _ H1)).
Qed.

Lemma init_blocks_unused l i b : init_blocks (length l) l !! i = Some b -> status b = RT_RBB_BLK_UNUSED.
Proof. revert i. induction l as [|c l IH]; intros [|i]; simpl; [done..|by intros [= <-]|apply IH]. Qed.

Lemma init_ok buf size set0 : 0 <= buf -> 0 <= size -> buf + size < 2 ^ 32 ->
  rbb_ok (rt_rbb_init buf size set0 (lenZ set0)) [] [].
Proof.
  intros H1 H2 H3. split; try done; [constructor| |simpl; unfold rend; simpl; lia|simpl; unfold rend; simpl; lia].
  intros i b Hi. by apply elem_of_nil in Hi.
Qed.

Lemma init_not_in_use buf size set0 i b : ~ in_use (rt_rbb_init buf size set0 (lenZ set0)) i b.
Proof.
  intros [Hb Hs]. unfold block in Hb. case_cmp; [done|]. simpl in Hb. unfold lenZ in Hb. rewrite Nat2Z.id in Hb.
  by apply Hs, (init_blocks_unused _ _ _ Hb).
Qed.

(** A listed block lies in one of the runs. *)
Lemma listed_inside r A B i b : rbb_ok r A B -> i ∈ blk_list r -> block r i = Some b ->
  rbuf r <= bbuf b /\ 0 < bsize b /\ bbuf b + bsize b <= rend r /\
  (i ∈ A /\ start r A (rend r) <= bbuf b \/ i ∈ B /\ bbuf b + bsize b <= start r A (rend r)).
Proof.
  intros Hr Hs Hb. rewrite (ro_list r A B Hr) in Hs. destruct Hr as [_ _ _ _ _ HA HB].
  apply elem_of_app in Hs as [Hi|Hi].
  - destruct (ascending_inside _ _ _ _ _ _ HA Hi Hb) as (H1 & H2 & H3). split_and!; try done. left. split; [done|].
    apply ascending_start in HA as [HA _]. by destruct (ascending_inside _ _ _ _ _ _ HA Hi Hb).
  - destruct (ascending_inside _ _ _ _ _ _ HB Hi Hb) as (H1 & H2 & H3). split_and!; try done; [|by right].
    assert (start r A (rend r) <= rend r); [|lia]. apply ascending_start in HA as [HA _]. by apply ascending_le in HA.
Qed.

Lemma listed_disjoint r A B i j b c : rbb_ok r A B -> i ∈ blk_list r -> j ∈ blk_list r -> i <> j ->
  block r i = Some b -> block r j = Some c -> disjoint_blocks b c.
Proof.
  intros Hok Hi Hj Hne Hb Hc. destruct (listed_inside r A B i b Hok Hi Hb) as (_ & _ & _ & Gi).
  destruct (listed_inside r A B j c Hok Hj Hc) as (_ & _ & _ & Gj).
  destruct Gi as [[Gi Li]|[Gi Li]], Gj as [[Gj Lj]|[Gj Lj]]; [|right; lia|left; lia|];
    (eapply (ascending_disjoint r); [..|exact Gi|exact Gj|exact Hne|exact Hb|exact Hc]); apply Hok.
Qed.

(** C20: blocks of a ring block buffer never overlap, as long as they are in its list.
    After any sequence of allocations, puts, gets and frees of blocks and of queues, in any
    order, from a new buffer on: a block of the list is in use and inside of the buffer, and
    no two of them share a byte; and a block in use is in the list, unless
    rt_rbb_blk_queue_get has taken it.  So without queues neither the writer of one block nor
    the reader of another can touch the data of a third.  For blocks that a queue has taken
    nothing is said, and nothing holds: their memory is handed out again while they are read
    ([queue_get_reused]).  The allocations have to ask for at least one byte and at most the
    whole buffer, which the code does not test when no block is listed
    ([alloc_larger_than_buffer]). *)
Theorem rbb_blocks_disjoint buf size set0 ops r taken : 0 <= buf -> 0 <= size -> buf + size < 2 ^ 32 ->
  Forall (asks_within size) ops ->
  rbb_run ops (rt_rbb_init buf size set0 (lenZ set0)) = Some (r, taken) ->
  (forall i, i ∈ blk_list r -> exists b, in_use r i b /\ buf <= bbuf b /\ 0 < bsize b /\ bbuf b + bsize b <= buf + size) /\
  (forall i j b c, i ∈ blk_list r -> j ∈ blk_list r -> i <> j -> block r i = Some b -> block r j = Some c ->
     disjoint_blocks b c) /\
  (forall i b, in_use r i b -> i ∈ blk_list r \/ i ∈ taken).
Proof.
  intros H1 H2 H3 Ha E. pose proof (init_ok buf size set0 H1 H2 H3) as H0.
  destruct (rbb_run_kept _ _ _ _ _ _ H0 Ha E) as [(A & B & Hok) [E1 E2] Hl]. simpl in E1, E2. split_and!.
  - intros i Hi. pose proof Hi as Hi'. rewrite (ro_list r A B Hok) in Hi'.
    assert (is_Some (block r i)) as [b Hb].
    { apply elem_of_app in Hi' as [Hi'|Hi']; (eapply ascending_exists; [|exact Hi']); apply Hok. }
    exists b. destruct (listed_inside r A B i b Hok Hi Hb) as (G1 & G2 & G3 & _). unfold rend in G3.
    split; [split; [done|by apply (ro_live r A B Hok i)]|]. lia.
  - intros i j b c. by apply listed_disjoint with (A := A) (B := B).
  - intros i b Hi. destruct (decide (i ∈ blk_list r)) as [|Hn]; [by left|]. right.
    destruct (Hl i b Hi Hn) as [|(c & Hc & _)]; [done|]. by apply init_not_in_use in Hc.
Qed.

(** Which block a get returns. *)
Lemma rt_rbb_blk_get_oldest r i r' : rt_rbb_blk_get r = Some (Some i, r') ->
  exists l1 l2 b, blk_list r = l1 ++ i :: l2 /\ in_use r i b /\ status b = RT_RBB_BLK_PUT /\
    forall j c, j ∈ l1 -> block r j = Some c -> status c <> RT_RBB_BLK_PUT.
Proof.
  intros E. apply get_loop_spec in E as (l1 & l2 & b & Hl & Hb & Hst & Hl1 & _). exists l1, l2, b. split; [done|].
  split; [split; [done|by rewrite Hst]|]. by split.
Qed.

(** ** Witness and where the code goes wrong: a buffer of 100 bytes at 1000 with a set of three blocks. *)
Definition demo_set : list rt_rbb_blk := replicate 3 {| status := RT_RBB_BLK_GET; bsize := 0; bbuf := 0 |}.
Definition demo_rbb : rt_rbb := rt_rbb_init 1000 100 demo_set (lenZ demo_set).

Definition alloc_put (size : Z) (r : rt_rbb) : option rt_rbb :=
  '(x, r) ← rt_rbb_blk_alloc size r; i ← x; rt_rbb_blk_put i r.

Lemma rbb_blocks_disjoint_witness : exists r b c,
  rbb_run [BlkAlloc 60; BlkPut 0; BlkGet; BlkAlloc 30; BlkFree 0; BlkAlloc 50] demo_rbb = Some (r, []) /\
  in_use r 0 b /\ in_use r 1 c /\ disjoint_blocks b c.
Proof.
  assert (exists r, rbb_run [BlkAlloc 60; BlkPut 0; BlkGet; BlkAlloc 30; BlkFree 0; BlkAlloc 50] demo_rbb = Some (r, []))
    as [r E] by (eexists; vm_compute; reflexivity).
  exists r. destruct (rbb_blocks_disjoint 1000 100 demo_set [BlkAlloc 60; BlkPut 0; BlkGet; BlkAlloc 30; BlkFree 0; BlkAlloc 50] r [] ltac:(lia) ltac:(lia) ltac:(lia)
    ltac:(repeat constructor; simpl; lia) E) as (H1 & H2 & _).
  assert (blk_list r = [1; 0]) as Hl by (vm_compute in E; injection E as <-; reflexivity).
  destruct (H1 0 ltac:(rewrite Hl; set_solver)) as (b & Hb & _). destruct (H1 1 ltac:(rewrite Hl; set_solver)) as (c & Hc & _).
  exists b, c. split; [exact E|]. split; [exact Hb|]. split; [exact Hc|].
  exact (H2 0 1 b c ltac:(rewrite Hl; set_solver) ltac:(rewrite Hl; set_solver) ltac:(lia) (proj1 Hb) (proj1 Hc)).
Defined.

(** When no block is in use, a block larger than the buffer is handed out. *)
Lemma alloc_larger_than_buffer : exists r b, rt_rbb_blk_alloc 200 demo_rbb = Some (Some 0, r) /\
  in_use r 0 b /\ rend r < bbuf b + bsize b.
Proof. eexists _, _. split; [vm_compute; reflexivity|]. split; [split; [reflexivity|discriminate]|reflexivity]. Qed.

(** rt_rbb_blk_queue_get takes the blocks out of the list while they are in use: their
    memory is handed out again before they are freed. *)
Lemma queue_get_reused : exists q r1 r2 b c,
  (r ← alloc_put 60 demo_rbb; rt_rbb_blk_queue_get 100 {| blocks := 0; blk_num := 0 |} r) = Some (60, q, r1) /\
  rt_rbb_blk_alloc 60 r1 = Some (Some 1, r2) /\ in_use r2 0 b /\ in_use r2 1 c /\ ~ disjoint_blocks b c.
Proof.
  eexists _, _, _, _, _. split; [vm_compute; reflexivity|]. split; [vm_compute; reflexivity|].
  split; [split; [reflexivity|discriminate]|]. split; [split; [reflexivity|discriminate]|]. intros [H|H]; vm_compute in H; by apply H.
Qed.

(** A queue is the first block and a number, as if the blocks were next to each other in the set: when the
    oldest block is not the first of the set, its length reads behind the set. *)
Lemma queue_not_consecutive : exists q r,
  (r ← alloc_put 10 demo_rbb; r ← alloc_put 10 r; r ← alloc_put 10 r; '(_, r) ← rt_rbb_blk_get r; r ← rt_rbb_blk_free 0 r;
   r ← alloc_put 10 r; rt_rbb_blk_queue_get 100 {| blocks := 0; blk_num := 0 |} r) = Some (30, q, r) /\
  blocks q = 1 /\ blk_num q = 3 /\ rt_rbb_blk_queue_len q r = None.
Proof. eexists _, _. split; [vm_compute; reflexivity|]. repeat split. Qed.

(** The first block of a queue may be larger than the length asked for. *)
Lemma queue_longer_than_asked : exists q r,
  (r ← alloc_put 10 demo_rbb; rt_rbb_blk_queue_get 5 {| blocks := 0; blk_num := 0 |} r) = Some (10, q, r).
Proof. eexists _, _. vm_compute. reflexivity. Qed.

(** Blocks with a hole between them are taken for one continuous queue. *)
Lemma queue_with_hole : exists q r b c,
  (r ← alloc_put 10 demo_rbb; r ← alloc_put 10 r; r ← alloc_put 10 r; r ← rt_rbb_blk_free 1 r;
   rt_rbb_blk_queue_get 100 {| blocks := 0; blk_num := 0 |} r) = Some (20, q, r) /\
  in_use r 0 b /\ in_use r 2 c /\ bbuf b + bsize b < bbuf c.
Proof.
  eexists _, _, _, _. split; [vm_compute; reflexivity|]. split; [split; [reflexivity|discriminate]|].
  split; [split; [reflexivity|discriminate]|]. reflexivity.
Qed.
