(* ===== verification/MsgQueue.v ===== *)
(** * Message queues (rt-thread/src/ipc.c)

    The message queue at address [o] is a record next to the kernel; the threads
    waiting for a message are in [QSuspend o], those waiting to send in
    [QSender o].  Of the pool's memory there are the link at the start of every
    message slot and the payload behind it.  Sending and receiving leave the
    interrupts enabled while they copy: each is made of the parts before, between
    and after ([mq_send_take] and [mq_link_last], [mq_recv_take] and
    [mq_recv_put]), so that runs may interleave them. *)
From S2P Require Import Prelude Mem Kernel Sched Timer Ipc.

Definition RT_MQ_ENTRY_MAX : Z := 65535.

Record rt_messagequeue := {
  mq_parent : rt_object;
  mq_pool : Z;                                       (** the address of the pool *)
  msg_size : Z; max_msgs : Z; mq_entry : Z;          (** uint16 *)
  msg_queue_head : Z; msg_queue_tail : Z; msg_queue_free : Z   (** 0 is RT_NULL *)
}.

Record qmem := { links : wmem; payload : gmap Z (list Z) }.

Definition set_link (a v : Z) (m : qmem) : qmem := {| m with links := <[a := v]> (links m) |}.

(** (rt_uint8_t * )mq->msg_pool + temp * (mq->msg_size + sizeof(struct rt_mq_message)) *)
Definition slot_at (pool size i : Z) : Z := u32 (pool + i * (size + 4)).

(** Every slot is put in front of the free list: the last one is first. *)
Fixpoint mq_free_loop (n : nat) (pool size i free : Z) (m : wmem) : Z * wmem :=
  match n with
  | O => (free, m)
  | S n => mq_free_loop n pool size (i + 1) (slot_at pool size i) (<[slot_at pool size i := free]> m)
  end.

Definition mq_fields (ob : rt_object) (pool size msgs : Z) (m : qmem) : rt_messagequeue * qmem :=
  let '(free, ls) := mq_free_loop (Z.to_nat msgs) pool size 0 0 (links m) in
  ({| mq_parent := ob; mq_pool := pool; msg_size := size; max_msgs := msgs; mq_entry := 0;
      msg_queue_head := 0; msg_queue_tail := 0; msg_queue_free := free |}, {| m with links := ls |}).

Definition rt_mq_init (o : Z) (mq : rt_messagequeue) (nm : list Z) (pool size pool_size fl : Z) (m : qmem) (k : kernel)
  : option (Z * rt_messagequeue * qmem * kernel) :=
  '(ob, k) ← rt_object_init (Obj o) (mq_parent mq) RT_Object_Class_MessageQueue nm k;
  let size := u16 (RT_ALIGN size RT_ALIGN_SIZE) in
  let msgs := u16 (pool_size / (size + 4)) in
  let '(mq, m) := mq_fields (set_flag fl ob) pool size msgs m in
  Some (RT_EOK, mq, m, set_queue (QSender o) [] (set_queue (QSuspend o) [] k)).

Definition mq_resume_all (o : Z) (k : kernel) : option kernel :=
  k ← rt_ipc_list_resume_all (QSuspend o) k;
  rt_ipc_list_resume_all (QSender o) k.

Definition rt_mq_detach (o : Z) (mq : rt_messagequeue) (k : kernel) : option (Z * rt_messagequeue * kernel) :=
  _ ← assert (is_class RT_Object_Class_MessageQueue (mq_parent mq));
  _ ← assert (rt_object_is_systemobject (mq_parent mq));
  k ← mq_resume_all o k;
  let '(ob, k) := rt_object_detach (Obj o) (mq_parent mq) k in
  Some (RT_EOK, {| mq with mq_parent := ob |}, k).

Definition rt_mq_create (nm : list Z) (size msgs fl : Z) (m : qmem) (k : kernel)
  : option (option (Z * rt_messagequeue) * qmem * kernel) :=
  _ ← RT_DEBUG_NOT_IN_INTERRUPT k;
  '(r, k) ← rt_object_allocate RT_Object_Class_MessageQueue nm k;
  match r with
  | None => Some (None, m, k)
  | Some (o, ob) =>
      let ob := set_flag fl ob in
      let k := set_queue (QSuspend o) [] k in
      let size := u16 (RT_ALIGN size RT_ALIGN_SIZE) in
      let msgs := u16 msgs in
      '(p, h) ← rt_malloc (u32 ((size + 4) * msgs)) (kheap k);
      let k := {| k with kheap := h |} in
      match p with
      | None => '(_, k) ← rt_object_delete o ob k; Some (None, m, k)
      | Some pool =>
          let '(mq, m) := mq_fields ob pool size msgs m in
          Some (Some (o, mq), m, set_queue (QSender o) [] k)
      end
  end.

Definition rt_mq_delete (o : Z) (mq : rt_messagequeue) (k : kernel) : option (Z * kernel) :=
  _ ← RT_DEBUG_NOT_IN_INTERRUPT k;
  _ ← assert (is_class RT_Object_Class_MessageQueue (mq_parent mq));
  _ ← assert (negb (rt_object_is_systemobject (mq_parent mq)));
  k ← mq_resume_all o k;
  h ← rt_free (Some (mq_pool mq)) (kheap k);
  '(_, k) ← rt_object_delete o (mq_parent mq) {| k with kheap := h |};
  Some (RT_EOK, k).

(** The first free slot is taken: [None] if there is none. *)
Definition mq_send_take (mq : rt_messagequeue) (m : qmem) : option (Z * rt_messagequeue) :=
  n ← links m !! msg_queue_free mq;
  Some (msg_queue_free mq, {| mq with msg_queue_free := n |}).

(** rt_memcpy(msg + 1, buffer, size) *)
Definition copy_in (msg : Z) (buffer : list Z) (m : qmem) : option qmem :=
  old ← payload m !! msg;
  Some {| m with payload := <[msg := buffer ++ drop (length buffer) old]> (payload m) |}.

(** A message was linked: it counts, and the first waiting thread is woken. *)
Definition mq_posted (o : Z) (mq : rt_messagequeue) (m : qmem) (k : kernel)
  : option (attempt * rt_messagequeue * qmem * kernel) :=
  if mq_entry mq <? RT_MQ_ENTRY_MAX then
    let mq := {| mq with mq_entry := u16 (mq_entry mq + 1) |} in
    match queues k (QSuspend o) with
    | _ :: _ =>
        k ← rt_ipc_list_resume (QSuspend o) k;
        k ← rt_schedule k;
        Some (Done RT_EOK, mq, m, k)
    | [] => Some (Done RT_EOK, mq, m, k)
    end
  else Some (Done (- RT_EFULL), mq, m, k).

(** The rest of rt_mq_send_wait, with the slot [msg]. *)
Definition mq_link_last (o msg : Z) (buffer : list Z) (mq : rt_messagequeue) (m : qmem) (k : kernel)
  : option (attempt * rt_messagequeue * qmem * kernel) :=
  m ← copy_in msg buffer (set_link msg 0 m);
  let m := if negb (msg_queue_tail mq =? 0) then set_link (msg_queue_tail mq) msg m else m in
  let mq := {| mq with msg_queue_tail := msg;
                       msg_queue_head := if msg_queue_head mq =? 0 then msg else msg_queue_head mq |} in
  mq_posted o mq m k.

(** The rest of rt_mq_urgent. *)
Definition mq_link_first (o msg : Z) (buffer : list Z) (mq : rt_messagequeue) (m : qmem) (k : kernel)
  : option (attempt * rt_messagequeue * qmem * kernel) :=
  m ← copy_in msg buffer m;
  let m := set_link msg (msg_queue_head mq) m in
  let mq := {| mq with msg_queue_head := msg;
                       msg_queue_tail := if msg_queue_tail mq =? 0 then msg else msg_queue_tail mq |} in
  mq_posted o mq m k.

Definition mq_send_try (o : Z) (mq : rt_messagequeue) (m : qmem) (buffer : list Z) (timeout : Z) (k : kernel)
  : option (attempt * rt_messagequeue * qmem * kernel) :=
  if msg_queue_free mq =? 0 then
    t ← rt_thread_self k;
    k ← upd_thread t (set_error RT_EOK) k;
    if timeout =? 0 then Some (Done (- RT_EFULL), mq, m, k)
    else
      _ ← RT_DEBUG_IN_THREAD_CONTEXT k;
      let tick_delta := if 0 <? timeout then rt_tick_get k else 0 in
      k ← ipc_wait (QSender o) t (flag (mq_parent mq)) timeout k;
      Some (Blocked timeout tick_delta, mq, m, k)
  else
    '(msg, mq) ← mq_send_take mq m;
    mq_link_last o msg buffer mq m k.

(** [buffer] is the [size] bytes at the buffer. *)
Definition rt_mq_send_wait (o : Z) (mq : rt_messagequeue) (m : qmem) (buffer : list Z) (timeout : Z) (k : kernel)
  : option (attempt * rt_messagequeue * qmem * kernel) :=
  _ ← assert (is_class RT_Object_Class_MessageQueue (mq_parent mq));
  _ ← assert (negb (lenZ buffer =? 0));
  if msg_size mq <? lenZ buffer then Some (Done (- RT_ERROR), mq, m, k)
  else if (msg_queue_free mq =? 0) && (timeout =? 0) then Some (Done (- RT_EFULL), mq, m, k)
  else mq_send_try o mq m buffer timeout k.

(** The sender was resumed and runs. *)
Definition rt_mq_send_again (o : Z) (mq : rt_messagequeue) (m : qmem) (buffer : list Z) (timeout tick_delta : Z) (k : kernel)
  : option (attempt * rt_messagequeue * qmem * kernel) :=
  t ← rt_thread_self k;
  th ← threads k !! t;
  if negb (error th =? RT_EOK) then Some (Done (error th), mq, m, k)
  else mq_send_try o mq m buffer (time_left timeout tick_delta k) k.

Definition rt_mq_send (o : Z) (mq : rt_messagequeue) (m : qmem) (buffer : list Z) (k : kernel)
  : option (attempt * rt_messagequeue * qmem * kernel) := rt_mq_send_wait o mq m buffer 0 k.

Definition rt_mq_urgent (o : Z) (mq : rt_messagequeue) (m : qmem) (buffer : list Z) (k : kernel)
  : option (attempt * rt_messagequeue * qmem * kernel) :=
  _ ← assert (is_class RT_Object_Class_MessageQueue (mq_parent mq));
  _ ← assert (negb (lenZ buffer =? 0));
  if msg_size mq <? lenZ buffer then Some (Done (- RT_ERROR), mq, m, k)
  else if msg_queue_free mq =? 0 then Some (Done (- RT_EFULL), mq, m, k)
  else
    '(msg, mq) ← mq_send_take mq m;
    mq_link_first o msg buffer mq m k.

(** The first message is taken off the queue. *)
Definition mq_recv_take (mq : rt_messagequeue) (m : qmem) : option (Z * rt_messagequeue) :=
  let msg := msg_queue_head mq in
  n ← links m !! msg;
  Some (msg, {| mq with msg_queue_head := n;
                        msg_queue_tail := if msg_queue_tail mq =? msg then 0 else msg_queue_tail mq;
                        mq_entry := if 0 <? mq_entry mq then u16 (mq_entry mq - 1) else mq_entry mq |}).

(** Its bytes are copied out and its slot is free. *)
Definition mq_recv_put (o msg size : Z) (mq : rt_messagequeue) (m : qmem) (k : kernel)
  : option (attempt * option (list Z) * rt_messagequeue * qmem * kernel) :=
  bs ← payload m !! msg;
  let got := take (Z.to_nat (if msg_size mq <? size then msg_size mq else size)) bs in
  let m := set_link msg (msg_queue_free mq) m in
  let mq := {| mq with msg_queue_free := msg |} in
  match queues k (QSender o) with
  | _ :: _ =>
      k ← rt_ipc_list_resume (QSender o) k;
      k ← rt_schedule k;
      Some (Done RT_EOK, Some got, mq, m, k)
  | [] => Some (Done RT_EOK, Some got, mq, m, k)
  end.

Definition mq_recv_try (o : Z) (mq : rt_messagequeue) (m : qmem) (size timeout : Z) (k : kernel)
  : option (attempt * option (list Z) * rt_messagequeue * qmem * kernel) :=
  if mq_entry mq =? 0 then
    _ ← RT_DEBUG_IN_THREAD_CONTEXT k;
    t ← rt_thread_self k;
    k ← upd_thread t (set_error RT_EOK) k;
    if timeout =? 0 then
      k ← upd_thread t (set_error (- RT_ETIMEOUT)) k;
      Some (Done (- RT_ETIMEOUT), None, mq, m, k)
    else
      let tick_delta := if 0 <? timeout then rt_tick_get k else 0 in
      k ← ipc_wait (QSuspend o) t (flag (mq_parent mq)) timeout k;
      Some (Blocked timeout tick_delta, None, mq, m, k)
  else
    '(msg, mq) ← mq_recv_take mq m;
    mq_recv_put o msg size mq m k.

Definition rt_mq_recv (o : Z) (mq : rt_messagequeue) (m : qmem) (size timeout : Z) (k : kernel)
  : option (attempt * option (list Z) * rt_messagequeue * qmem * kernel) :=
  _ ← assert (is_class RT_Object_Class_MessageQueue (mq_parent mq));
  _ ← assert (negb (size =? 0));
  if (mq_entry mq =? 0) && (timeout =? 0) then Some (Done (- RT_ETIMEOUT), None, mq, m, k)
  else mq_recv_try o mq m size timeout k.

(** The receiver was resumed and runs. *)
Definition rt_mq_recv_again (o : Z) (mq : rt_messagequeue) (m : qmem) (size timeout tick_delta : Z) (k : kernel)
  : option (attempt * option (list Z) * rt_messagequeue * qmem * kernel) :=
  t ← rt_thread_self k;
  th ← threads k !! t;
  if negb (error th =? RT_EOK) then Some (Done (error th), None, mq, m, k)
  else mq_recv_try o mq m size (time_left timeout tick_delta k) k.

(** Every queued message is moved to the free list. *)
Fixpoint mq_release_loop (fuel : nat) (mq : rt_messagequeue) (m : qmem) : option (rt_messagequeue * qmem) :=
  match fuel with
  | O => None
  | S fuel =>
      if msg_queue_head mq =? 0 then Some (mq, m)
      else
        let msg := msg_queue_head mq in
        n ← links m !! msg;
        let m := set_link msg (msg_queue_free mq) m in
        mq_release_loop fuel
          {| mq with msg_queue_head := n;
                     msg_queue_tail := if msg_queue_tail mq =? msg then 0 else msg_queue_tail mq;
                     msg_queue_free := msg |} m
  end.

Definition rt_mq_control (o : Z) (mq : rt_messagequeue) (m : qmem) (cmd : Z) (k : kernel)
  : option (Z * rt_messagequeue * qmem * kernel) :=
  _ ← assert (is_class RT_Object_Class_MessageQueue (mq_parent mq));
  if cmd =? RT_IPC_CMD_RESET then
    k ← mq_resume_all o k;
    '(mq, m) ← mq_release_loop (S (Z.to_nat (max_msgs mq))) mq m;
    k ← rt_schedule k;
    Some (RT_EOK, {| mq with mq_entry := 0 |}, m, k)
  else Some (- RT_ERROR, mq, m, k).

(** ** The invariant *)
Definition all_slots (mq : rt_messagequeue) : list Z :=
  (fun i => mq_pool mq + i * (msg_size mq + 4)) <$> seqZ 0 (max_msgs mq).

(** The slots [fl] are free, [ql] are queued, both in order, and [us] are being
    copied by senders and receivers. *)
Record mq_ok (mq : rt_messagequeue) (m : qmem) (fl ql us : list Z) : Prop := {
  qo_pool : 0 < mq_pool mq;
  qo_size : 0 <= msg_size mq;
  qo_max : 0 <= max_msgs mq <= RT_MQ_ENTRY_MAX;
  qo_free : chain (links m) (msg_queue_free mq) fl;
  qo_queue : chain (links m) (msg_queue_head mq) ql;
  qo_tail : msg_queue_tail mq = default 0 (last ql);
  qo_entry : mq_entry mq = lenZ ql;
  qo_all : fl ++ ql ++ us ≡ₚ all_slots mq;
  qo_payload : forall a, a ∈ all_slots mq -> exists bs, payload m !! a = Some bs /\ lenZ bs = msg_size mq
}.

Lemma all_slots_nodup mq : 0 <= msg_size mq -> NoDup (all_slots mq).
Proof. intros H. apply NoDup_fmap_2; [|apply NoDup_seqZ]. intros i j Hij. nia. Qed.

Lemma mq_nodup mq m fl ql us : mq_ok mq m fl ql us -> NoDup (fl ++ ql ++ us).
Proof. intros H. rewrite (qo_all _ _ _ _ _ H). apply all_slots_nodup, H. Qed.

Lemma mq_slot mq m fl ql us a : mq_ok mq m fl ql us -> a ∈ fl ++ ql ++ us -> a ∈ all_slots mq /\ a <> 0.
Proof.
  intros H Ha. rewrite (qo_all _ _ _ _ _ H) in Ha. split; [done|].
  apply list_elem_of_fmap in Ha as (i & -> & Hi). apply elem_of_seqZ in Hi. destruct H. nia.
Qed.

Lemma mq_queued_bound mq m fl ql us : mq_ok mq m fl ql us -> lenZ ql + lenZ us <= max_msgs mq.
Proof.
  intros H. pose proof (Permutation_length (qo_all _ _ _ _ _ H)) as Hl. unfold all_slots in Hl.
  rewrite !length_app, length_fmap, length_seqZ in Hl. destruct H. unfold lenZ. lia.
Qed.

(** The same slots. *)
Definition same_slots (mq mq' : rt_messagequeue) : Prop :=
  msg_size mq' = msg_size mq /\ max_msgs mq' = max_msgs mq.

(** The messages of the slots [ql]. *)
Definition content (m : qmem) (ql : list Z) : list (list Z) := (fun a => default [] (payload m !! a)) <$> ql.

Lemma content_ext m m' ql : (forall a, a ∈ ql -> payload m' !! a = payload m !! a) -> content m' ql = content m ql.
Proof.
  intros H. apply list_fmap_ext. intros i a Ha. f_equal. apply H. by eapply list_elem_of_lookup_2.
Qed.

(** ** Initialisation *)

(** The loop puts the slots from [i] on in front of the list. *)
Lemma mq_free_loop_ok mq n : forall i free m l,
  0 <= i -> i + Z.of_nat n <= max_msgs mq -> 0 < mq_pool mq -> 0 <= msg_size mq ->
  mq_pool mq + max_msgs mq * (msg_size mq + 4) <= 2 ^ 32 -> chain m free l ->
  (forall x, x ∈ l -> x < mq_pool mq + i * (msg_size mq + 4)) ->
  let '(f, m') := mq_free_loop n (mq_pool mq) (msg_size mq) i free m in
  chain m' f (reverse ((fun j => mq_pool mq + j * (msg_size mq + 4)) <$> seqZ i (Z.of_nat n)) ++ l).
Proof.
  induction n as [|n IH]; intros i free m l Hi Hn Hp Hs He Hc Hl; [done|].
  assert (slot_at (mq_pool mq) (msg_size mq) i = mq_pool mq + i * (msg_size mq + 4)) as Hat
    by (apply wrap_id; unfold fits; nia).
  cbn [mq_free_loop]. rewrite Hat, seqZ_cons by lia. cbn [fmap list_fmap]. rewrite reverse_cons, <- app_assoc.
  replace (Z.pred (Z.of_nat (S n))) with (Z.of_nat n) by lia. unfold Z.succ.
  apply IH; try done; try lia.
  - econstructor; [nia|by rewrite lookup_insert_eq|]. apply chain_insert; [done|].
    intros Hin. specialize (Hl _ Hin). lia.
  - intros x Hx. apply elem_of_cons in Hx as [->|Hx]; [nia|]. specialize (Hl x Hx). nia.
Qed.

(** A new queue: every slot is free, the last one first. *)
Lemma mq_fields_ok ob pool size msgs m mq m' : 0 < pool -> 0 <= size -> 0 <= msgs <= RT_MQ_ENTRY_MAX ->
  pool + msgs * (size + 4) <= 2 ^ 32 -> mq_fields ob pool size msgs m = (mq, m') ->
  (forall a, a ∈ all_slots mq -> exists bs, payload m !! a = Some bs /\ lenZ bs = size) ->
  mq_ok mq m' (reverse (all_slots mq)) [] [].
Proof.
  intros Hp Hs Hm He E Hpo. unfold mq_fields in E.
  destruct (mq_free_loop (Z.to_nat msgs) pool size 0 0 (links m)) as [free ls] eqn:Ef. injection E as <- <-.
  pose proof (mq_free_loop_ok {| mq_parent := ob; mq_pool := pool; msg_size := size; max_msgs := msgs; mq_entry := 0;
    msg_queue_head := 0; msg_queue_tail := 0; msg_queue_free := free |} (Z.to_nat msgs) 0 0 (links m) []) as Hch.
  simpl in Hch. rewrite Ef, Z2Nat.id, app_nil_r in Hch by lia.
  split; simpl; try done; try lia.
  - apply Hch; try lia; [constructor|]. intros x Hx. destruct (not_elem_of_nil x Hx).
  - constructor.
  - rewrite app_nil_r. apply reverse_Permutation.
Qed.

(** Taking a slot to send. *)
Lemma send_take_ok mq m fl ql us : mq_ok mq m fl ql us -> msg_queue_free mq <> 0 -> exists a fl' mq',
  mq_send_take mq m = Some (a, mq') /\ fl = a :: fl' /\ mq_ok mq' m fl' ql (a :: us) /\ same_slots mq mq'.
Proof.
  intros [H1 H2 H3 H4 H5 H6 H7 H8 H9] Hf. destruct fl as [|a fl]; [by inversion H4|].
  destruct (chain_inv _ _ _ _ H4) as (Ha & _ & n & Hn & Hch). unfold mq_send_take. rewrite Ha, Hn, some_bind.
  eexists a, fl, _. split; [done|]. split; [done|]. split; [|done]. split; try done. simpl. rewrite <- H8. simpl.
  rewrite !(Permutation_middle _ _ a). by rewrite <- !Permutation_middle.
Qed.

(** Copying in. *)
Lemma copy_in_ok mq m fl ql us a b : mq_ok mq m fl ql us -> a ∈ all_slots mq -> lenZ b <= msg_size mq ->
  exists m' x, copy_in a b m = Some m' /\ links m' = links m /\ payload m' = <[a := x]> (payload m) /\
    b `prefix_of` x /\ lenZ x = msg_size mq.
Proof.
  intros H Ha Hb. destruct (qo_payload _ _ _ _ _ H a Ha) as (bs & Hbs & Hl).
  unfold copy_in. rewrite Hbs, some_bind. eexists _, _. split; [done|]. split; [done|]. split; [done|].
  split; [by eexists|]. unfold lenZ in *. rewrite length_app, length_drop. lia.
Qed.

(** Appending to a linked list. *)
Lemma chain_snoc a (l : list Z) : forall m h, chain m h l -> NoDup l -> a ∉ l -> a <> 0 -> m !! a = Some 0 ->
  chain (if negb (default 0 (last l) =? 0) then <[default 0 (last l) := a]> m else m) (if h =? 0 then a else h) (l ++ [a]).
Proof.
  induction l as [|x l IH]; intros m h Hc Hnd Ha Ha0 Hm.
  - inversion Hc; subst. simpl. econstructor; [done..|constructor].
  - destruct (chain_inv _ _ _ _ Hc) as (-> & Hx & n & Hn & Hc'). rewrite (proj2 (Z.eqb_neq _ _) Hx).
    apply NoDup_cons in Hnd as [Hxl Hnd]. apply not_elem_of_cons in Ha as [Hax Ha].
    destruct l as [|y l].
    + inversion Hc'; subst. simpl. rewrite (proj2 (Z.eqb_neq _ _) Hx). simpl. econstructor; [done|by rewrite lookup_insert_eq|].
      econstructor; [done|by rewrite lookup_insert_ne|constructor].
    + specialize (IH m n Hc' Hnd Ha Ha0 Hm). change (last (x :: y :: l)) with (last (y :: l)).
      destruct (chain_inv _ _ _ _ Hc') as (-> & Hy & _). rewrite (proj2 (Z.eqb_neq _ _) Hy) in IH.
      econstructor; [done| |exact IH]. destruct (negb _); [|done]. rewrite lookup_insert_ne; [done|].
      intros Heq. apply Hxl. rewrite <- Heq. destruct (last_is_Some (y :: l)) as [_ [z Hz]]; [done|]. rewrite Hz.
      by apply last_Some_elem_of.
Qed.

Lemma posted_result o mq m k r mq' m' k' : mq_posted o mq m k = Some (r, mq', m', k') ->
  0 <= mq_entry mq < RT_MQ_ENTRY_MAX ->
  r = Done RT_EOK /\ mq' = {| mq with mq_entry := mq_entry mq + 1 |} /\ m' = m.
Proof.
  unfold mq_posted. intros E Hb. rewrite (proj2 (Z.ltb_lt _ _)) in E by lia.
  rewrite wrap_id in E by (unfold fits, RT_MQ_ENTRY_MAX in *; lia).
  destruct (queues k _); [by injection E as <- <- <- <-|]. destruct (rt_ipc_list_resume _ k) as [k1|]; [|done].
  simpl in E. destruct (rt_schedule k1); [|done]. simpl in E. by injection E as <- <- <- <-.
Qed.

(** What linking a message does to the queue: its slot [a] holds [x], which
    begins with the bytes sent. *)
Record linked (mq' : rt_messagequeue) (m m' : qmem) (fl ql us : list Z) (b : list Z) (a : Z) (x : list Z) : Prop := {
  ln_ok : mq_ok mq' m' fl ql us;
  ln_prefix : b `prefix_of` x;
  ln_payload : payload m' = <[a := x]> (payload m)
}.

Lemma mq_parts mq m fl ql us us' a : mq_ok mq m fl ql us -> us ≡ₚ a :: us' ->
  a ∉ fl /\ a ∉ ql /\ a ∉ us' /\ NoDup ql /\ (forall x, x ∈ ql -> x ∉ fl) /\ a ∈ all_slots mq /\ a <> 0 /\
  0 <= mq_entry mq < RT_MQ_ENTRY_MAX.
Proof.
  intros H Hus. pose proof (mq_nodup _ _ _ _ _ H) as Hnd. pose proof (mq_queued_bound _ _ _ _ _ H) as Hb.
  destruct (mq_slot mq m fl ql us a H) as [Hsl H0]; [rewrite Hus, !elem_of_app; right; right; left|].
  rewrite Hus in Hnd. apply NoDup_app in Hnd as (_ & Hfl & Hnd). apply NoDup_app in Hnd as (Hndq & Hql & Hnd).
  apply NoDup_cons in Hnd as [Ha _].
  split; [intros Hx; apply (Hfl a Hx), elem_of_app; right; left|].
  split; [intros Hx; apply (Hql a Hx); left|]. split; [done|]. split; [done|].
  split; [intros x Hx Hxf; apply (Hfl x Hxf), elem_of_app; by left|]. split; [done|]. split; [done|].
  rewrite (qo_entry _ _ _ _ _ H). pose proof (qo_max _ _ _ _ _ H) as Hm.
  apply Permutation_length in Hus. unfold lenZ in *. simpl in Hus. lia.
Qed.

Lemma insert_payload_ok mq m fl ql us a (x : list Z) : mq_ok mq m fl ql us -> lenZ x = msg_size mq ->
  forall y, y ∈ all_slots mq -> exists bs, (<[a := x]> (payload m)) !! y = Some bs /\ lenZ bs = msg_size mq.
Proof.
  intros H Hx y Hy. destruct (decide (y = a)) as [->|]; [rewrite lookup_insert_eq; by exists x|].
  rewrite lookup_insert_ne by done. by apply (qo_payload _ _ _ _ _ H).
Qed.

Lemma last_member (l : list Z) : default 0 (last l) <> 0 -> default 0 (last l) ∈ l.
Proof. destruct (last l) as [z|] eqn:E; simpl; [|done]. intros _. by apply last_Some_elem_of. Qed.

Lemma link_last_ok o a b mq m k r mq' m' k' fl ql us us' : mq_ok mq m fl ql us -> us ≡ₚ a :: us' ->
  lenZ b <= msg_size mq -> mq_link_last o a b mq m k = Some (r, mq', m', k') ->
  r = Done RT_EOK /\ same_slots mq mq' /\ exists x, linked mq' m m' fl (ql ++ [a]) us' b a x.
Proof.
  intros H Hus Hb E. destruct (mq_parts _ _ _ _ _ _ _ H Hus) as (Hfl & Hql & Hu & Hnd & Hdis & Hsl & Ha0 & He).
  unfold mq_link_last in E.
  assert (mq_ok mq (set_link a 0 m) fl ql us) as H'.
  { destruct H. split; try done; simpl; by apply chain_insert. }
  destruct (copy_in_ok mq (set_link a 0 m) fl ql us a b H' Hsl Hb) as (m1 & x & E1 & Hl & Hp & Hpre & Hx).
  rewrite E1, some_bind in E. apply posted_result in E as (-> & -> & ->); [|done]. split; [done|]. split; [done|]. exists x.
  set (m2 := if negb (msg_queue_tail mq =? 0) then _ else m1).
  assert (payload m2 = <[a := x]> (payload m)) as Hp2 by (unfold m2; by destruct (negb _)).
  split; [|done|done]. pose proof (insert_payload_ok _ _ _ _ _ a x H Hx) as Hpo. destruct H' as [H1 H2 H3 H4 H5 H6 H7 H8 _].
  split; simpl; try done.
  - unfold m2. destruct (Z.eqb_spec (msg_queue_tail mq) 0) as [Ht|Ht]; simpl; rewrite Hl; [done|].
    apply chain_insert; [done|]. apply Hdis. rewrite H6 in Ht |- *. by apply last_member.
  - pose proof (chain_snoc a ql _ _ H5 Hnd Hql Ha0 (lookup_insert_eq _ a 0)) as Hc. rewrite <- H6, <- Hl in Hc.
    unfold m2. by destruct (negb _).
  - by rewrite last_snoc.
  - rewrite H7. unfold lenZ. rewrite length_app. simpl. lia.
  - rewrite <- H8, Hus, <- app_assoc. done.
  - by rewrite Hp2.
Qed.

Lemma link_first_ok o a b mq m k r mq' m' k' fl ql us us' : mq_ok mq m fl ql us -> us ≡ₚ a :: us' ->
  lenZ b <= msg_size mq -> mq_link_first o a b mq m k = Some (r, mq', m', k') ->
  r = Done RT_EOK /\ same_slots mq mq' /\ exists x, linked mq' m m' fl (a :: ql) us' b a x.
Proof.
  intros H Hus Hb E. destruct (mq_parts _ _ _ _ _ _ _ H Hus) as (Hfl & Hql & Hu & Hnd & Hdis & Hsl & Ha0 & He).
  unfold mq_link_first in E. destruct (copy_in_ok mq m fl ql us a b H Hsl Hb) as (m1 & x & E1 & Hl & Hp & Hpre & Hx).
  rewrite E1, some_bind in E. apply posted_result in E as (-> & -> & ->); [|done]. split; [done|]. split; [done|]. exists x.
  split; [|done|done]. pose proof (insert_payload_ok _ _ _ _ _ a x H Hx) as Hpo. destruct H as [H1 H2 H3 H4 H5 H6 H7 H8 _].
  split; simpl; rewrite ?Hl; try done.
  - by apply chain_insert.
  - econstructor; [done|by rewrite lookup_insert_eq|by apply chain_insert].
  - rewrite H6. destruct ql as [|y ql]; [done|]. destruct (last_is_Some (y :: ql)) as [_ [z Hz]]; [done|].
    change (last (a :: y :: ql)) with (last (y :: ql)). rewrite Hz. simpl.
    assert (z <> 0) as Hz0; [|by rewrite (proj2 (Z.eqb_neq _ _) Hz0)].
    apply last_Some_elem_of in Hz. by apply (chain_nonzero _ _ _ _ H5).
  - rewrite H7. unfold lenZ. simpl. lia.
  - rewrite <- H8, Hus. simpl. by rewrite Permutation_middle.
  - by rewrite Hp.
Qed.

Lemma recv_take_ok mq m fl ql us : mq_ok mq m fl ql us -> mq_entry mq <> 0 -> exists a ql' mq',
  mq_recv_take mq m = Some (a, mq') /\ ql = a :: ql' /\ mq_ok mq' m fl ql' (a :: us) /\ same_slots mq mq'.
Proof.
  intros H Hne. pose proof (mq_nodup _ _ _ _ _ H) as Hnd. pose proof (mq_queued_bound _ _ _ _ _ H) as Hb.
  destruct H as [H1 H2 H3 H4 H5 H6 H7 H8 H9]. destruct ql as [|a ql]; [by rewrite H7 in Hne|].
  destruct (chain_inv _ _ _ _ H5) as (Ha & Ha0 & n & Hn & Hch). unfold mq_recv_take. rewrite Ha, Hn, some_bind.
  apply NoDup_app in Hnd as (_ & _ & Hnd). apply NoDup_app in Hnd as (Hnd & _ & _). apply NoDup_cons in Hnd as [Haq _].
  eexists a, ql, _. split; [done|]. split; [done|]. split; [|done]. unfold lenZ in Hb. simpl in Hb. split; simpl; try done.
  - rewrite H6. destruct ql as [|y ql]; [simpl; by rewrite Z.eqb_refl|].
    change (last (a :: y :: ql)) with (last (y :: ql)). destruct (last_is_Some (y :: ql)) as [_ [z Hz]]; [done|]. rewrite Hz. simpl.
    assert (z <> a) as Hza; [|by rewrite (proj2 (Z.eqb_neq _ _) Hza)]. intros ->. apply Haq. by apply last_Some_elem_of.
  - assert (lenZ (a :: ql) = lenZ ql + 1) as Hl by (unfold lenZ; simpl; lia).
    assert (0 <= lenZ ql) by (unfold lenZ; lia). rewrite H7, Hl, (proj2 (Z.ltb_lt _ _)), wrap_id; [lia| |lia].
    unfold fits, lenZ, RT_MQ_ENTRY_MAX in *. lia.
  - rewrite <- H8. simpl. by rewrite <- !Permutation_middle.
Qed.

(** The bytes a receiver with a buffer of [size] bytes gets of a message. *)
Definition clip (mq : rt_messagequeue) (size : Z) (bs : list Z) : list Z :=
  take (Z.to_nat (if msg_size mq <? size then msg_size mq else size)) bs.

Lemma recv_put_ok o a size mq m k r v mq' m' k' fl ql us us' : mq_ok mq m fl ql us -> us ≡ₚ a :: us' ->
  mq_recv_put o a size mq m k = Some (r, v, mq', m', k') ->
  r = Done RT_EOK /\ payload m' = payload m /\ same_slots mq mq' /\ mq_ok mq' m' (a :: fl) ql us' /\
  exists bs, payload m !! a = Some bs /\ v = Some (clip mq size bs).
Proof.
  intros H Hus E. destruct (mq_parts _ _ _ _ _ _ _ H Hus) as (Hfl & Hql & Hu & Hnd & Hdis & Hsl & Ha0 & He).
  destruct H as [H1 H2 H3 H4 H5 H6 H7 H8 H9]. destruct (H9 a Hsl) as (bs & Hbs & _).
  unfold mq_recv_put in E. rewrite Hbs, some_bind in E.
  assert (r = Done RT_EOK /\ v = Some (clip mq size bs) /\ mq' = {| mq with msg_queue_free := a |} /\
          m' = set_link a (msg_queue_free mq) m) as (-> & -> & -> & ->).
  { destruct (queues k _); [by injection E as <- <- <- <- <-|]. destruct (rt_ipc_list_resume _ k) as [k1|]; [|done].
    simpl in E. destruct (rt_schedule k1); [|done]. simpl in E. by injection E as <- <- <- <- <-. }
  split; [done|]. split; [done|]. split; [done|]. split; [|by exists bs]. split; simpl; try done.
  - econstructor; [done|by rewrite lookup_insert_eq|by apply chain_insert].
  - by apply chain_insert.
  - rewrite <- H8, Hus. by rewrite !Permutation_middle.
Qed.

(** ** Whole calls *)

Lemma posted_total o mq m k c : kernel_ok k -> timing_ok k -> current_thread k = Some c ->
  0 <= mq_entry mq < RT_MQ_ENTRY_MAX -> exists k', 
  mq_posted o mq m k = Some (Done RT_EOK, {| mq with mq_entry := mq_entry mq + 1 |}, m, k') /\
  match queues k (QSuspend o) with w :: l => woken k k' (QSuspend o) w l | [] => k' = k end.
Proof.
  intros Hk Htk Hcu He. unfold mq_posted. rewrite (proj2 (Z.ltb_lt _ _)) by lia.
  rewrite wrap_id by (unfold fits, RT_MQ_ENTRY_MAX in *; lia).
  destruct (queues k (QSuspend o)) as [|w l] eqn:Hq; [by exists k|].
  destruct (wake_ok k c (QSuspend o) w l Hk Htk Hcu eq_refl Hq) as (k' & E & Hw). exists k'.
  destruct (rt_ipc_list_resume _ k) as [k1|]; [|done]. simpl in E |- *. by rewrite E.
Qed.

(** A send that finds a free slot appends the message and wakes the first
    receiver; a message too long is refused. *)
Lemma rt_mq_send_spec o mq m fl ql us b timeout k c : mq_ok mq m fl ql us ->
  is_class RT_Object_Class_MessageQueue (mq_parent mq) = true ->
  kernel_ok k -> timing_ok k -> current_thread k = Some c -> 0 < lenZ b -> msg_queue_free mq <> 0 ->
  if msg_size mq <? lenZ b then rt_mq_send_wait o mq m b timeout k = Some (Done (- RT_ERROR), mq, m, k)
  else exists a fl' mq' m' k' x, rt_mq_send_wait o mq m b timeout k = Some (Done RT_EOK, mq', m', k') /\
    fl = a :: fl' /\ linked mq' m m' fl' (ql ++ [a]) us b a x /\
    match queues k (QSuspend o) with w :: l => woken k k' (QSuspend o) w l | [] => k' = k end.
Proof.
  intros H Hcl Hk Htk Hcu Hb Hf. unfold rt_mq_send_wait. rewrite Hcl, (proj2 (Z.eqb_neq (lenZ b) 0)) by lia.
  cbn [assert negb]. rewrite !some_bind. destruct (Z.ltb_spec (msg_size mq) (lenZ b)); [done|].
  unfold mq_send_try. rewrite (proj2 (Z.eqb_neq _ _) Hf). cbn [andb].
  destruct (send_take_ok mq m fl ql us H Hf) as (a & fl' & mq1 & -> & -> & H1 & [Hs1 _]). rewrite some_bind.
  destruct (mq_parts _ _ _ _ _ us a H1) as (_ & _ & _ & _ & _ & Hsl & _ & He); [done|].
  assert (exists mq2 m2, mq_link_last o a b mq1 m k = mq_posted o mq2 m2 k /\ mq_entry mq2 = mq_entry mq1) as (mq2 & m2 & E2 & He2).
  { destruct (copy_in_ok mq1 (set_link a 0 m) fl' ql (a :: us) a b) as (m1 & x & E & _); [|done|lia|].
    - destruct (mq_parts _ _ _ _ _ us a H1) as (Hfl & Hql & _); [done|].
      destruct H1. split; try done; simpl; by apply chain_insert.
    - unfold mq_link_last. rewrite E, some_bind. by eexists _, _. }
  destruct (posted_total o mq2 m2 k c Hk Htk Hcu) as (k' & E & Hw); [lia|]. rewrite E2, E. rewrite <- E2 in E.
  destruct (link_last_ok o a b mq1 m k _ _ _ k' fl' ql (a :: us) us H1 (Permutation_refl _) ltac:(lia) E) as (_ & _ & x & Hl).
  by eexists a, fl', _, _, k', x.
Qed.

(** ** Runs

    The abstract queue: the messages queued and those taken but not yet copied out. *)
Inductive mq_event :=
| Sent (b : list Z) | Urgent (b : list Z) | Took | Delivered (size : Z) (got : list Z) | Silent.

Inductive deque_step (clipped : Z -> list Z -> list Z) : list (list Z) * list (list Z) -> mq_event -> list (list Z) * list (list Z) -> Prop :=
| dq_sent q h b x : b `prefix_of` x -> deque_step clipped (q, h) (Sent b) (q ++ [x], h)
| dq_urgent q h b x : b `prefix_of` x -> deque_step clipped (q, h) (Urgent b) (x :: q, h)
| dq_took q h x : deque_step clipped (x :: q, h) Took (q, x :: h)
| dq_delivered q h h' x size : h ≡ₚ x :: h' -> deque_step clipped (q, h) (Delivered size (clipped size x)) (q, h')
| dq_silent q h : deque_step clipped (q, h) Silent (q, h).

Lemma deque_step_ext c c' q ev q' : (forall n x, c n x = c' n x) -> deque_step c q ev q' -> deque_step c' q ev q'.
Proof. intros Hc []; [by constructor..| |constructor]. rewrite Hc. by constructor. Qed.

(** Queue, memory, the slots senders fill and those receivers copy from. *)
Record mq_world := { w_mq : rt_messagequeue; w_mem : qmem; w_send : list Z; w_recv : list (Z * list Z) }.

(** The parts of sends and receives, by any threads, interleaved. *)
Inductive mq_step (o : Z) : mq_world -> mq_event -> mq_world -> Prop :=
| mq_s_take w a mq' : msg_queue_free (w_mq w) <> 0 -> mq_send_take (w_mq w) (w_mem w) = Some (a, mq') ->
    mq_step o w Silent {| w with w_mq := mq'; w_send := a :: w_send w |}
| mq_s_last w a b k r mq' m' k' l : w_send w ≡ₚ a :: l -> lenZ b <= msg_size (w_mq w) ->
    mq_link_last o a b (w_mq w) (w_mem w) k = Some (r, mq', m', k') ->
    mq_step o w (Sent b) {| w with w_mq := mq'; w_mem := m'; w_send := l |}
| mq_s_first w a b k r mq' m' k' l : w_send w ≡ₚ a :: l -> lenZ b <= msg_size (w_mq w) ->
    mq_link_first o a b (w_mq w) (w_mem w) k = Some (r, mq', m', k') ->
    mq_step o w (Urgent b) {| w with w_mq := mq'; w_mem := m'; w_send := l |}
| mq_s_recv w a mq' : mq_entry (w_mq w) <> 0 -> mq_recv_take (w_mq w) (w_mem w) = Some (a, mq') ->
    mq_step o w Took {| w with w_mq := mq'; w_recv := (a, default [] (payload (w_mem w) !! a)) :: w_recv w |}
| mq_s_put w a x size k r got mq' m' k' l : w_recv w ≡ₚ (a, x) :: l ->
    mq_recv_put o a size (w_mq w) (w_mem w) k = Some (r, Some got, mq', m', k') ->
    mq_step o w (Delivered size got) {| w with w_mq := mq'; w_mem := m'; w_recv := l |}.

Inductive mq_reach (o : Z) (w0 : mq_world) : list mq_event -> mq_world -> Prop :=
| mq_start : mq_reach o w0 [] w0
| mq_next evs w ev w' : mq_reach o w0 evs w -> mq_step o w ev w' -> mq_reach o w0 (evs ++ [ev]) w'.

Inductive deque_run (clipped : Z -> list Z -> list Z) (q0 : list (list Z) * list (list Z)) : list mq_event -> list (list Z) * list (list Z) -> Prop :=
| dq_start : deque_run clipped q0 [] q0
| dq_next evs q ev q' : deque_run clipped q0 evs q -> deque_step clipped q ev q' -> deque_run clipped q0 (evs ++ [ev]) q'.

Record mq_world_ok (w : mq_world) (fl ql : list Z) : Prop := {
  ww_ok : mq_ok (w_mq w) (w_mem w) fl ql (w_send w ++ map fst (w_recv w));
  ww_held : forall a x, (a, x) ∈ w_recv w -> payload (w_mem w) !! a = Some x
}.

Definition world_content (w : mq_world) (ql : list Z) : list (list Z) * list (list Z) :=
  (content (w_mem w) ql, map snd (w_recv w)).

Lemma clip_same mq mq' size x : same_slots mq mq' -> clip mq' size x = clip mq size x.
Proof. unfold clip. by intros [-> _]. Qed.

Lemma content_cons m a ql : content m (a :: ql) = default [] (payload m !! a) :: content m ql.
Proof. done. Qed.

Lemma content_snoc m a ql : content m (ql ++ [a]) = content m ql ++ [default [] (payload m !! a)].
Proof. unfold content. by rewrite fmap_app. Qed.

Lemma content_insert m m' a x ql : payload m' = <[a := x]> (payload m) -> a ∉ ql -> content m' ql = content m ql.
Proof. intros Hp Ha. apply content_ext. intros y Hy. rewrite Hp, lookup_insert_ne; [done|]. by intros ->. Qed.

Lemma held_insert (h : list (Z * list Z)) (l : list Z) (p p' : gmap Z (list Z)) a x : a ∉ l ++ map fst h -> p' = <[a := x]> p ->
  (forall y bs, (y, bs) ∈ h -> p !! y = Some bs) -> forall y bs, (y, bs) ∈ h -> p' !! y = Some bs.
Proof.
  intros Ha -> Hh y bs Hy. rewrite lookup_insert_ne; [by apply Hh|]. intros ->. apply Ha, elem_of_app. right.
  apply list_elem_of_In, in_map_iff. exists (y, bs). split; [done|]. by apply list_elem_of_In.
Qed.

Lemma mq_step_ok o w ev w' fl ql : mq_world_ok w fl ql -> mq_step o w ev w' -> exists fl' ql',
  mq_world_ok w' fl' ql' /\ same_slots (w_mq w) (w_mq w') /\
  deque_step (clip (w_mq w)) (world_content w ql) ev (world_content w' ql').
Proof.
  intros [Hok Hheld] Hs. unfold world_content.
  destruct Hs as [w a mq' Hf E|w a b k r mq' m' k' l Hl Hb E|w a b k r mq' m' k' l Hl Hb E|w a mq' He E|
    w a x size k r got mq' m' k' l Hl E]; simpl.
  - destruct (send_take_ok _ _ _ _ _ Hok Hf) as (a' & fl' & mq1 & E1 & -> & Hok' & Hsm). rewrite E in E1. injection E1 as <- <-.
    exists fl', ql. split; [by split|]. split; [done|constructor].
  - assert (w_send w ++ map fst (w_recv w) ≡ₚ a :: (l ++ map fst (w_recv w))) as Hus by (by rewrite Hl).
    destruct (mq_parts _ _ _ _ _ _ _ Hok Hus) as (_ & Hql & Hu & _).
    destruct (link_last_ok o a b _ _ k r mq' m' k' fl ql _ _ Hok Hus Hb E) as (_ & Hsm & x & [Hok' Hpre Hp]).
    exists fl, (ql ++ [a]). split; [split; [done|by eapply held_insert]|]. split; [done|].
    rewrite content_snoc, (content_insert _ _ _ _ _ Hp Hql), Hp, lookup_insert_eq. by constructor.
  - assert (w_send w ++ map fst (w_recv w) ≡ₚ a :: (l ++ map fst (w_recv w))) as Hus by (by rewrite Hl).
    destruct (mq_parts _ _ _ _ _ _ _ Hok Hus) as (_ & Hql & Hu & _).
    destruct (link_first_ok o a b _ _ k r mq' m' k' fl ql _ _ Hok Hus Hb E) as (_ & Hsm & x & [Hok' Hpre Hp]).
    exists fl, (a :: ql). split; [split; [done|by eapply held_insert]|]. split; [done|].
    rewrite content_cons, (content_insert _ _ _ _ _ Hp Hql), Hp, lookup_insert_eq. by constructor.
  - destruct (recv_take_ok _ _ _ _ _ Hok He) as (a' & ql' & mq1 & E1 & -> & Hok' & Hsm). rewrite E in E1. injection E1 as <- <-.
    destruct (mq_slot _ _ _ _ _ a Hok) as [Hsl _]; [rewrite !elem_of_app; right; left; left|].
    destruct (qo_payload _ _ _ _ _ Hok a Hsl) as (bs & Hbs & _).
    exists fl, ql'. split; [split; simpl|].
    + destruct Hok'. split; try done. rewrite <- qo_all0. by rewrite <- Permutation_middle.
    + intros y z Hy. apply elem_of_cons in Hy as [[= -> ->]|Hy]; [by rewrite Hbs|by apply Hheld].
    + split; [done|]. constructor.
  - assert (w_send w ++ map fst (w_recv w) ≡ₚ a :: (w_send w ++ map fst l)) as Hus.
    { apply (Permutation_map fst) in Hl. rewrite Hl. simpl. by rewrite <- Permutation_middle. }
    destruct (recv_put_ok o a size _ _ k r (Some got) mq' m' k' fl ql _ _ Hok Hus E) as (_ & Hp & Hsm & Hok' & bs & Hbs & Hgot).
    injection Hgot as ->. assert (payload (w_mem w) !! a = Some x) as Hx by (apply Hheld; rewrite Hl; left).
    rewrite Hx in Hbs. injection Hbs as <-. exists (a :: fl), ql. split; [split; [done|]|].
    + simpl. intros y z Hy. rewrite Hp. apply Hheld. rewrite Hl. by right.
    + split; [done|]. rewrite (content_ext _ _ ql) by (intros; by rewrite Hp).
      constructor. by apply (Permutation_map snd) in Hl.
Qed.

(** ** Properties *)

(** C11: a message queue is a bounded deque.  However the parts of sends,
    urgent sends and receives of any threads interleave, the messages behave as
    those of the abstract deque: sends append, urgent sends prepend, a receive
    takes the first message and is given the first bytes of exactly that one.  No
    slot is lost or shared: those queued and being copied are never more than the
    queue has. *)
Theorem message_queue_refines o w0 fl0 ql0 evs w : mq_world_ok w0 fl0 ql0 -> mq_reach o w0 evs w ->
  exists ql, deque_run (clip (w_mq w0)) (world_content w0 ql0) evs (world_content w ql) /\
    mq_entry (w_mq w) = lenZ ql /\
    lenZ ql + lenZ (w_send w) + lenZ (w_recv w) <= max_msgs (w_mq w0) /\
    NoDup (ql ++ w_send w ++ map fst (w_recv w)).
Proof.
  intros Hok Hr.
  assert (exists fl ql, mq_world_ok w fl ql /\ same_slots (w_mq w0) (w_mq w) /\
    deque_run (clip (w_mq w0)) (world_content w0 ql0) evs (world_content w ql)) as (fl & ql & [Hw _] & Hsm & Hrun).
  { induction Hr as [|evs w ev w' _ (fl & ql & Hw & Hsm & Hrun) Hs]; [exists fl0, ql0; split; [done|]; split; [done|constructor]|].
    destruct (mq_step_ok o w ev w' fl ql Hw Hs) as (fl' & ql' & Hw' & Hsm' & Hd). exists fl', ql'. split; [done|].
    split; [unfold same_slots in *; intuition congruence|]. eapply dq_next; [done|].
    by eapply deque_step_ext; [|done]; intros; apply clip_same. }
  exists ql. split; [done|]. split; [apply Hw|]. pose proof (mq_queued_bound _ _ _ _ _ Hw) as Hb.
  pose proof (mq_nodup _ _ _ _ _ Hw) as Hnd. apply NoDup_app in Hnd as (_ & _ & Hnd).
  split; [|done]. destruct Hsm as [_ <-]. unfold lenZ in *. rewrite length_app, length_map in Hb. lia.
Qed.

(** A queue of two messages of four bytes at address 500, its pool at 1000. *)
Definition demo_mq_made : rt_messagequeue * qmem :=
  mq_fields {| name := bytes "mq"; type := Z.lor RT_Object_Class_Static RT_Object_Class_MessageQueue; flag := RT_IPC_FLAG_FIFO |}
    1000 4 2 {| links := ∅; payload := {[1000 := [0; 0; 0; 0]; 1008 := [0; 0; 0; 0]]} |}.

Definition demo_mq_world : mq_world :=
  {| w_mq := fst demo_mq_made; w_mem := snd demo_mq_made; w_send := []; w_recv := [] |}.

Lemma demo_mq_ok : mq_world_ok demo_mq_world [1008; 1000] [].
Proof.
  split; [|intros a x Hx; destruct (not_elem_of_nil _ Hx)].
  apply (mq_fields_ok (mq_parent (fst demo_mq_made)) 1000 4 2
    {| links := ∅; payload := {[1000 := [0; 0; 0; 0]; 1008 := [0; 0; 0; 0]]} |} (fst demo_mq_made) (snd demo_mq_made));
    [lia|lia|unfold RT_MQ_ENTRY_MAX; lia|lia|reflexivity|].
  intros a Ha. exists [0; 0; 0; 0]. split; [|reflexivity]. change (all_slots (fst demo_mq_made)) with [1000; 1008] in Ha.
  apply elem_of_cons in Ha as [->|Ha]; [reflexivity|]. apply list_elem_of_singleton in Ha as ->. reflexivity.
Qed.

(** Sending three bytes of which the receiver takes two. *)
Lemma demo_mq_run : exists w,
  mq_reach 500 demo_mq_world [Silent; Sent [7; 8; 9]; Took; Delivered 2 [7; 8]] w /\
  w_send w = [] /\ w_recv w = [] /\ mq_entry (w_mq w) = 0.
Proof.
  assert (queues demo_kernel (QSuspend 500) = []) as Hq1 by (vm_compute; reflexivity).
  assert (queues demo_kernel (QSender 500) = []) as Hq2 by (vm_compute; reflexivity).
  eexists. split; [|split; [|split]].
  - eapply (mq_next 500 demo_mq_world [Silent; Sent [7; 8; 9]; Took]).
    + eapply (mq_next 500 demo_mq_world [Silent; Sent [7; 8; 9]]).
      * eapply (mq_next 500 demo_mq_world [Silent]).
        -- eapply (mq_next 500 demo_mq_world []); [constructor|]. eapply (mq_s_take 500 demo_mq_world 1008); [discriminate|reflexivity].
        -- eapply (mq_s_last 500 _ 1008 [7; 8; 9] demo_kernel (Done RT_EOK)); [simpl; reflexivity|vm_compute; discriminate|].
           unfold mq_link_last, mq_posted. simpl. rewrite Hq1. reflexivity.
      * eapply (mq_s_recv 500 _ 1008); [discriminate|reflexivity].
    + eapply (mq_s_put 500 _ 1008 [7; 8; 9; 0] 2 demo_kernel (Done RT_EOK) [7; 8]); [simpl; reflexivity|].
      unfold mq_recv_put. simpl. rewrite Hq2. reflexivity.
  - reflexivity.
  - reflexivity.
  - reflexivity.
Qed.

Lemma message_queue_refines_witness : exists w ql,
  deque_run (clip (w_mq demo_mq_world)) ([], []) [Silent; Sent [7; 8; 9]; Took; Delivered 2 [7; 8]] (world_content w ql) /\
  lenZ ql = 0.
Proof.
  destruct demo_mq_run as (w & Hr & _ & _ & He). exists w.
  destruct (message_queue_refines 500 demo_mq_world _ _ _ w demo_mq_ok Hr) as (ql & Hrun & Hl & _).
  exists ql. split; [exact Hrun|]. rewrite <- Hl. exact He.
Defined.
