(* ===== verification/Completion.v ===== *)
(** * Completions (rt-thread/components/drivers/src/completion.c)

    A completion is what one thread waits for and an interrupt or another thread
    signals.  The completion at address [o] is its flag next to the kernel; the
    waiting thread is in [QSuspend o].  The theorems are about one thread that
    waits, as the code asks, and any others that signal. *)
From S2P Require Import Prelude Mem Kernel Sched Timer Ipc.

Definition RT_COMPLETED : Z := 1.
Definition RT_UNCOMPLETED : Z := 0.

Record rt_completion := { cflag : Z }.

Definition rt_completion_init (o : Z) (k : kernel) : rt_completion * kernel :=
  ({| cflag := RT_UNCOMPLETED |}, set_queue (QSuspend o) [] k).

Definition rt_completion_wait (o : Z) (c : rt_completion) (timeout : Z) (k : kernel)
  : option (outcome * rt_completion * kernel) :=
  if negb (cflag c =? RT_COMPLETED) then
    _ ← assert (bool_decide (queues k (QSuspend o) = []));
    if timeout =? 0 then Some (Returned (- RT_ETIMEOUT), c, k)
    else
      t ← rt_thread_self k;
      k ← upd_thread t (set_error RT_EOK) k;
      '(_, k) ← rt_thread_suspend t k;
      let k := push_back (QSuspend o) t k in
      _ ← RT_DEBUG_NOT_IN_INTERRUPT k;
      k ← (if 0 <? timeout then start_thread_timer t timeout k else Some k);
      k ← rt_schedule k;
      Some (Waiting, c, k)
  else Some (Returned RT_EOK, {| cflag := RT_UNCOMPLETED |}, k).

(** The thread that waited runs again. *)
Definition rt_completion_wait_end (t : Z) (k : kernel) : option (Z * rt_completion) :=
  th ← threads k !! t; Some (error th, {| cflag := RT_UNCOMPLETED |}).

Definition rt_completion_done (o : Z) (c : rt_completion) (k : kernel) : option (rt_completion * kernel) :=
  if cflag c =? RT_COMPLETED then Some (c, k)
  else
    let c := {| cflag := RT_COMPLETED |} in
    match queues k (QSuspend o) with
    | t :: _ =>
        '(_, k) ← rt_thread_resume t k;
        k ← rt_schedule k;
        Some (c, k)
    | [] => Some (c, k)
    end.

(** ** Operations in order *)

(** Nobody waits for a completion that is there, and at most one thread for one
    that is not. *)
Record completion_ok (o : Z) (c : rt_completion) (k : kernel) : Prop := {
  co_flag : cflag c = RT_UNCOMPLETED \/ cflag c = RT_COMPLETED;
  co_one : queues k (QSuspend o) = [] \/ exists w, queues k (QSuspend o) = [w];
  co_waiter : cflag c = RT_COMPLETED -> queues k (QSuspend o) = [];
  co_fine : waiting_fine k (QSuspend o)
}.

(** The flag is there: it is taken. *)
Lemma completion_wait_now o c timeout k : cflag c = RT_COMPLETED ->
  rt_completion_wait o c timeout k = Some (Returned RT_EOK, {| cflag := RT_UNCOMPLETED |}, k).
Proof. intros Hc. unfold rt_completion_wait. by rewrite Hc. Qed.

Lemma completion_wait_blocks o c timeout k w cth : cflag c = RT_UNCOMPLETED -> queues k (QSuspend o) = [] ->
  can_block k w cth -> timeout <> 0 -> timeout < WINDOW ->
  exists k', rt_completion_wait o c timeout k = Some (Waiting, c, k') /\
    blocked (reset_error w cth k) k' w (QSuspend o) [w] /\ completion_ok o c k'.
Proof.
  intros Hc Hq Hcb Ht Hw. unfold rt_completion_wait. rewrite Hc, bool_decide_true by done. cbn [negb Z.eqb RT_UNCOMPLETED RT_COMPLETED assert].
  rewrite some_bind, (proj2 (Z.eqb_neq _ _) Ht). destruct (thread_context k w cth Hcb) as [_ ->]. rewrite some_bind.
  destruct (reset_error_can_block k w cth Hcb) as [-> Hcb1]. rewrite some_bind.
  destruct (suspend_wait_ok _ w _ (QSuspend o) RT_IPC_FLAG_FIFO Hcb1 eq_refl ltac:(by left)) as (k2 & l' & E2 & Hpl & Hpk).
  assert (l' = [w]) as ->.
  { apply placed_permutation in Hpl. change (queues (reset_error w cth k) (QSuspend o)) with (queues k (QSuspend o)) in Hpl.
    rewrite Hq in Hpl. by apply Permutation_singleton_r in Hpl. }
  unfold rt_ipc_list_suspend in E2. destruct (rt_thread_suspend w _) as [[r k1]|]; [|done]. rewrite some_bind. cbn in E2.
  injection E2 as ->.
  unfold RT_DEBUG_NOT_IN_INTERRUPT, rt_interrupt_get_nest. rewrite (pk_nest _ _ _ _ _ _ Hpk). cbn [Z.eqb assert]. rewrite some_bind.
  destruct (parked_wait_ok _ k2 w _ (QSuspend o) [w] timeout Hcb1 eq_refl Hpk Hw) as (k' & E & Hb).
  unfold wait_timer in E. destruct (if 0 <? timeout then _ else _) as [k3|]; [|done]. rewrite some_bind. cbn in E. rewrite E, some_bind.
  exists k'. split; [done|]. split; [done|]. pose proof (bl_queue _ _ _ _ _ Hb) as Hq'. split.
  - by left.
  - right. by exists w.
  - by rewrite Hc.
  - apply (blocked_fine k k' w cth _ [w] Hcb); [by apply waiting_fine_nil|by rewrite Hq|done].
Qed.

Lemma completion_done_wakes o c k w cur : completion_ok o c k -> kernel_ok k -> timing_ok k ->
  current_thread k = Some cur -> queues k (QSuspend o) = [w] ->
  exists k', rt_completion_done o c k = Some ({| cflag := RT_COMPLETED |}, k') /\
    woken k k' (QSuspend o) w [] /\ completion_ok o {| cflag := RT_COMPLETED |} k' /\
    rt_completion_wait_end w k' = Some (RT_EOK, {| cflag := RT_UNCOMPLETED |}).
Proof.
  intros [Hc _ Hcw Hf] Hk Htk Hcu Hq. unfold rt_completion_done.
  destruct Hc as [Hc|Hc]; [|by rewrite (Hcw Hc) in Hq]. rewrite Hc, Hq. cbn [Z.eqb RT_UNCOMPLETED RT_COMPLETED].
  destruct (wake_ok k cur (QSuspend o) w [] Hk Htk Hcu eq_refl Hq) as (k' & E & Hwk). unfold rt_ipc_list_resume in E.
  rewrite Hq in E. cbn [head] in E. rewrite some_bind in E.
  destruct (rt_thread_resume w k) as [[r k1]|]; [|done]. rewrite some_bind. cbn in E. rewrite E, some_bind.
  exists k'. split; [done|]. split; [done|].
  destruct (woken_fine k k' _ w [] Hf Hq Hwk) as (Hf' & th & Hth & He). pose proof (wk_queue _ _ _ _ _ Hwk) as Hq'. split.
  - split; try done; [by right|by left].
  - unfold rt_completion_wait_end. by rewrite Hth, some_bind, He.
Qed.

Lemma completion_done_free o c k : completion_ok o c k -> queues k (QSuspend o) = [] ->
  rt_completion_done o c k = Some ({| cflag := RT_COMPLETED |}, k).
Proof.
  intros [[Hc|Hc] _ _ _] Hq; unfold rt_completion_done; rewrite Hc; cbn [Z.eqb RT_UNCOMPLETED RT_COMPLETED Pos.eqb].
  - by rewrite Hq.
  - destruct c. simpl in Hc. by rewrite Hc.
Qed.

Lemma completion_ok_flag o c k f : completion_ok o c k -> f = RT_UNCOMPLETED \/ f = RT_COMPLETED ->
  queues k (QSuspend o) = [] -> completion_ok o {| cflag := f |} k.
Proof. intros [_ _ _ H4] Hf Hq. split; try done. by left. Qed.

(** ** Runs

    Where the thread that uses the completion is: running its own code, in the
    completion's list, or made ready and about to return from its wait. *)
Inductive phase := Working | Sleeping | Returning.

(** What happened: a signal that counts, a wait that returned with success, a
    signal thrown away. *)
Record tally := { signals : Z; successes : Z; losses : Z }.

Definition nothing : tally := {| signals := 0; successes := 0; losses := 0 |}.
Definition tally_add (a b : tally) : tally :=
  {| signals := signals a + signals b; successes := successes a + successes b; losses := losses a + losses b |}.

Definition pending (c : rt_completion) : Z := if cflag c =? RT_COMPLETED then 1 else 0.

Definition fresh_signal (c : rt_completion) : tally :=
  {| signals := 1 - pending c; successes := 0; losses := 0 |}.

(** The wait returns [e] with the flag of [c] still set or not. *)
Definition wait_result (e : Z) (c : rt_completion) : tally :=
  if e =? RT_EOK then {| signals := 0; successes := 1; losses := 0 |}
  else {| signals := 0; successes := 0; losses := pending c |}.

Definition completion_state : Type := phase * rt_completion * kernel.

(** The thread [w] waits, [anyone] signals, the wait of [w] times out, [w] runs
    again; and anything else that leaves the completion's list alone and, while
    [w] waits or is about to return, its error. *)
Inductive completion_step (o w : Z) : completion_state -> tally -> completion_state -> Prop :=
| cs_wait c k cth timeout e c' k' :
    can_block k w cth -> timeout < WINDOW -> rt_completion_wait o c timeout k = Some (Returned e, c', k') ->
    completion_step o w (Working, c, k)
      (if e =? RT_EOK then wait_result e c else nothing) (Working, c', k')
| cs_sleep c k cth timeout c' k' :
    can_block k w cth -> timeout < WINDOW -> rt_completion_wait o c timeout k = Some (Waiting, c', k') ->
    completion_step o w (Working, c, k) nothing (Sleeping, c', k')
| cs_done p c k cur c' k' :
    current_thread k = Some cur -> rt_completion_done o c k = Some (c', k') ->
    completion_step o w (p, c, k) (fresh_signal c)
      (match p with Sleeping => Returning | p => p end, c', k')
| cs_timeout c k cur k' :
    current_thread k = Some cur -> rt_thread_timeout w k = Some k' ->
    completion_step o w (Sleeping, c, k) nothing (Returning, c, k')
| cs_return c k e c' :
    rt_completion_wait_end w k = Some (e, c') ->
    completion_step o w (Returning, c, k) (wait_result e c) (Working, c', k)
| cs_other p c k k' :
    kernel_ok k' -> timing_ok k' -> queues k' (QSuspend o) = queues k (QSuspend o) ->
    (p <> Working -> forall th, threads k !! w = Some th ->
       exists th', threads k' !! w = Some th' /\ error th' = error th) ->
    completion_step o w (p, c, k) nothing (p, c, k').

Inductive completion_reach (o w : Z) (x0 : completion_state) : tally -> completion_state -> Prop :=
| cr_start : completion_reach o w x0 nothing x0
| cr_next n x d x' : completion_reach o w x0 n x -> completion_step o w x d x' ->
    completion_reach o w x0 (tally_add n d) x'.

(** Each phase with its list and flag: a sleeping thread is in the list and the
    flag is clear; a thread that returns with success finds the flag set. *)
Definition phase_ok (o w : Z) (x : completion_state) : Prop :=
  let '(p, c, k) := x in
  match p with
  | Working => queues k (QSuspend o) = []
  | Sleeping => queues k (QSuspend o) = [w] /\ cflag c = RT_UNCOMPLETED
  | Returning => queues k (QSuspend o) = [] /\
      exists th, threads k !! w = Some th /\
        (error th = RT_EOK /\ cflag c = RT_COMPLETED \/ error th = - RT_ETIMEOUT)
  end.

Definition completion_inv (o w : Z) (x : completion_state) : Prop :=
  let '(p, c, k) := x in phase_ok o w x /\ completion_ok o c k /\ kernel_ok k /\ timing_ok k.

(** Signals are answered, pending or thrown away. *)
Definition balanced (c c' : rt_completion) (d : tally) : Prop :=
  pending c + signals d = pending c' + successes d + losses d.

Lemma completion_wait_step o w c k cth timeout r c' k' : completion_inv o w (Working, c, k) ->
  can_block k w cth -> timeout < WINDOW -> rt_completion_wait o c timeout k = Some (r, c', k') ->
  match r with
  | Returned e => completion_inv o w (Working, c', k') /\
      balanced c c' (if e =? RT_EOK then wait_result e c else nothing)
  | Waiting => completion_inv o w (Sleeping, c', k') /\ balanced c c' nothing
  end.
Proof.
  intros (Hq & Hc & Hk & Htk) Hcb Hw E. destruct (co_flag _ _ _ Hc) as [Hf|Hf].
  - destruct (Z.eq_dec timeout 0) as [->|Ht].
    + unfold rt_completion_wait in E. rewrite Hf, bool_decide_true in E by done. simpl in E. simplify_eq. simpl.
      split; [done|]. unfold balanced. simpl. lia.
    + destruct (completion_wait_blocks o c timeout k w cth Hf Hq Hcb Ht Hw) as (k1 & E1 & Hb & Hc1).
      rewrite E in E1. simplify_eq. split; [|unfold balanced; simpl; lia].
      split; [|split; [done|split; apply Hb]]. split; [apply Hb|done].
  - rewrite completion_wait_now in E by done. simplify_eq. simpl. split.
    + split; [done|]. split; [|done]. apply (completion_ok_flag o c k'); auto.
    + unfold balanced, wait_result, pending. rewrite Hf. simpl. lia.
Qed.

Lemma completion_done_step o w p c k cur c' k' : completion_inv o w (p, c, k) ->
  current_thread k = Some cur -> rt_completion_done o c k = Some (c', k') ->
  completion_inv o w (match p with Sleeping => Returning | p => p end, c', k') /\ balanced c c' (fresh_signal c).
Proof.
  intros (Hp & Hc & Hk & Htk) Hcu E.
  assert (balanced c {| cflag := RT_COMPLETED |} (fresh_signal c)) as Hbal
    by (unfold balanced, fresh_signal; change (pending {| cflag := RT_COMPLETED |}) with 1; simpl; lia).
  destruct p; simpl in Hp.
  1,3: assert (queues k (QSuspend o) = []) as Hq by (by (destruct Hp as [Hp _]) || exact Hp);
    rewrite completion_done_free in E by done; simplify_eq; split; [|done];
    (split; [|split; [by apply (completion_ok_flag o c); [|right|]|done]]); [..|]; simpl.
  - done.
  - split; [done|]. destruct Hp as (_ & th & Hth & [[He _]|He]); exists th; auto.
  - destruct Hp as [Hq Hf].
    destruct (completion_done_wakes o c k w cur Hc Hk Htk Hcu Hq) as (k1 & E1 & Hwk & Hc1 & Hend).
    rewrite E in E1. simplify_eq. split; [|done]. split; [|split; [done|split; apply Hwk]].
    split; [apply Hwk|]. unfold rt_completion_wait_end in Hend.
    destruct (threads k1 !! w) as [th|]; [|done]. rewrite some_bind in Hend. simplify_eq. exists th. auto.
Qed.

Lemma completion_timeout_step o w c k cur k' : completion_inv o w (Sleeping, c, k) ->
  current_thread k = Some cur -> rt_thread_timeout w k = Some k' -> completion_inv o w (Returning, c, k').
Proof.
  intros ([Hq Hf] & Hc & Hk & Htk) Hcu E.
  destruct (wait_timeout_ok k cur (QSuspend o) w Hk Htk Hcu eq_refl) as
    (k1 & E1 & Hk1 & Htk1 & Hq1 & _ & (th & Hth & _ & He) & _); [rewrite Hq; left|].
  rewrite E in E1. simplify_eq. rewrite Hq, filter_cons_False in Hq1 by tauto.
  split; [split; [done|]; exists th; auto|]. split; [|done].
  destruct Hc as [H1 _ _ _]. split; try done; [by left|]. by apply waiting_fine_nil.
Qed.

Lemma completion_step_ok o w x d x' : completion_inv o w x -> completion_step o w x d x' ->
  completion_inv o w x' /\ balanced (snd (fst x)) (snd (fst x')) d.
Proof.
  intros Hx Hs. destruct Hs as [c k cth timeout e c' k' Hcb Hw E|c k cth timeout c' k' Hcb Hw E|p c k cur c' k' Hcu E|
    c k cur k' Hcu E|c k e c' E|p c k k' Hk' Htk' Hq Herr]; simpl fst; simpl snd.
  - exact (completion_wait_step o w c k cth timeout (Returned e) c' k' Hx Hcb Hw E).
  - exact (completion_wait_step o w c k cth timeout Waiting c' k' Hx Hcb Hw E).
  - by eapply completion_done_step.
  - split; [by eapply completion_timeout_step|]. unfold balanced. simpl. lia.
  - destruct Hx as ((Hq & th & Hth & He) & Hc & Hk & Htk). unfold rt_completion_wait_end in E.
    rewrite Hth, some_bind in E. simplify_eq. split.
    + split; [done|]. split; [|done]. apply (completion_ok_flag o c); auto.
    + unfold balanced, wait_result. change (pending {| cflag := RT_UNCOMPLETED |}) with 0.
      destruct He as [[-> Hf]| ->]; simpl; [|lia]. unfold pending. rewrite Hf. simpl. lia.
  - destruct Hx as (Hp & Hc & Hk & Htk). split; [|unfold balanced; simpl; lia]. split; [|split; [|done]].
    + destruct p; simpl in *; rewrite Hq; [done|done|]. destruct Hp as (Hqk & th & Hth & He).
      destruct (Herr ltac:(done) th Hth) as (th' & Hth' & He'). split; [done|]. exists th'. by rewrite He'.
    + destruct Hc as [H1 H2 H3 H4]. split; rewrite ?Hq; try done. apply (waiting_fine_mono k); [done|by rewrite Hq|].
      intros x th Hx Hth. rewrite Hq in Hx. destruct p; simpl in Hp.
      * rewrite Hp in Hx. by apply not_elem_of_nil in Hx.
      * destruct Hp as [Hp _]. rewrite Hp in Hx. apply list_elem_of_singleton in Hx as ->. by apply Herr.
      * destruct Hp as [Hp _]. rewrite Hp in Hx. by apply not_elem_of_nil in Hx.
Qed.

(** ** Properties *)

(** A signal that comes after the wait has timed out and before the waiting
    thread runs again is lost: the wait returns -RT_ETIMEOUT and clears the flag. *)
Lemma completion_signal_lost o w c k cur k1 : completion_inv o w (Sleeping, c, k) ->
  current_thread k = Some cur -> rt_thread_timeout w k = Some k1 ->
  rt_completion_done o c k1 = Some ({| cflag := RT_COMPLETED |}, k1) /\
  rt_completion_wait_end w k1 = Some (- RT_ETIMEOUT, {| cflag := RT_UNCOMPLETED |}).
Proof.
  intros Hx Hcu E. pose proof Hx as ([_ Hf] & _ & _ & _).
  destruct (completion_timeout_step o w c k cur k1 Hx Hcu E) as ((Hq & th & Hth & He) & Hc & _).
  split; [by apply completion_done_free|]. unfold rt_completion_wait_end. rewrite Hth, some_bind.
  destruct He as [[_ He]|He]; [by rewrite Hf in He|by rewrite He].
Qed.

(** C25: every signal of a completion is answered by exactly one wait, or still
    stored, or was thrown away by a wait that had already timed out; no wait
    succeeds without a signal; and while the waiting thread sleeps there is no
    signal it has missed.  Whatever the order of waits, signals from threads and
    interrupts, time-outs and other activity. *)
Theorem completion_exact o w c0 k0 n p c k :
  completion_inv o w (Working, c0, k0) -> completion_reach o w (Working, c0, k0) n (p, c, k) ->
  pending c0 + signals n = pending c + successes n + losses n /\
  (p = Sleeping -> queues k (QSuspend o) = [w] /\ pending c = 0) /\
  (p <> Sleeping -> queues k (QSuspend o) = []) /\ kernel_ok k.
Proof.
  intros H0 Hr.
  assert (forall x, completion_reach o w (Working, c0, k0) n x -> completion_inv o w x /\
    pending c0 + signals n = pending (snd (fst x)) + successes n + losses n) as Hall.
  { clear Hr. intros x Hr. induction Hr as [|n x d x' _ [IH1 IH2] Hs]; [by split; [|simpl; lia]|].
    destruct (completion_step_ok o w x d x' IH1 Hs) as [H1 H2]. split; [done|]. unfold balanced in H2. simpl. lia. }
  destruct (Hall _ Hr) as [(Hp & _ & Hk & _) Hn]. split; [done|]. split; [|split; [|done]].
  - intros ->. destruct Hp as [Hq Hf]. split; [done|]. unfold pending. by rewrite Hf.
  - intros Hne. destruct p; [done|done|apply Hp].
Qed.

(** Thread 1 of the demonstration kernel waits, is signalled and returns. *)
Lemma completion_exact_witness : exists n c k,
  completion_reach 500 1 (Working, {| cflag := RT_UNCOMPLETED |}, demo_kernel) n (Working, c, k) /\
  signals n = 1 /\ successes n = 1 /\ pending c + losses n = 0.
Proof.
  set (c := {| cflag := RT_UNCOMPLETED |}).
  assert (queues demo_kernel (QSuspend 500) = []) as Hq by (vm_compute; reflexivity).
  destruct (completion_wait_blocks 500 c (-1) demo_kernel 1 demo_current eq_refl Hq demo_can_block ltac:(lia) ltac:(reflexivity))
    as (k1 & E1 & Hb & Hc1).
  destruct (bl_next _ _ _ _ _ Hb) as (cur & cth & Hcu & _).
  destruct (completion_done_wakes 500 c k1 1 cur Hc1 (bl_kernel _ _ _ _ _ Hb) (bl_timing _ _ _ _ _ Hb) Hcu (bl_queue _ _ _ _ _ Hb))
    as (k2 & E2 & _ & _ & E3).
  assert (completion_inv 500 1 (Working, c, demo_kernel)) as H0.
  { split; [exact Hq|]. split; [|exact (conj demo_kernel_ok demo_timing)].
    split; [by left|by left|done|by apply waiting_fine_nil]. }
  pose proof (cr_next _ _ _ _ _ _ _ (cr_next _ _ _ _ _ _ _ (cr_next _ _ _ _ _ _ _ (cr_start 500 1 (Working, c, demo_kernel))
    (cs_sleep 500 1 c demo_kernel demo_current (-1) c k1 demo_can_block ltac:(reflexivity) E1)) (cs_done 500 1 Sleeping _ _ _ _ _ Hcu E2))
    (cs_return _ _ _ _ _ _ E3)) as Hr.
  destruct (completion_exact 500 1 c demo_kernel _ _ _ _ H0 Hr) as (Hn & _).
  eexists _, _, _. split; [exact Hr|]. split; [reflexivity|]. split; [reflexivity|]. vm_compute in Hn |- *. reflexivity.
Defined.
