(* ===== verification/Waitqueue.v ===== *)
(** * Wait queues (rt-thread/components/drivers/src/waitqueue.c, drivers/include/ipc/waitqueue.h)

    Threads wait in a queue of nodes, each with the thread to wake and a function that decides whether a
    key wakes it.  The nodes are in a store by their addresses; a thread that
    waits goes on with [rt_wqueue_wait_end] when it runs again. *)
From S2P Require Import Prelude Mem Kernel Sched Timer Ipc.

Definition RT_WQ_FLAG_CLEAN : Z := 0.
Definition RT_WQ_FLAG_WAKEUP : Z := 1.

Record rt_wqueue := { wflag : Z; waiting_list : list Z }.
Record rt_wqueue_node := { polling_thread : Z; wakeup : Z -> Z }.
Abbreviation wqueue_nodes := (gmap Z rt_wqueue_node).

Definition set_wflag (f : Z) (q : rt_wqueue) : rt_wqueue := {| q with wflag := f |}.

Definition rt_wqueue_init : rt_wqueue := {| wflag := RT_WQ_FLAG_CLEAN; waiting_list := [] |}.

Definition rt_wqueue_add (n : Z) (q : rt_wqueue) : rt_wqueue := {| q with waiting_list := waiting_list q ++ [n] |}.

Definition rt_wqueue_remove (n : Z) (q : rt_wqueue) : rt_wqueue :=
  {| q with waiting_list := filter (fun x => x <> n) (waiting_list q) |}.

Definition __wqueue_default_wake (key : Z) : Z := 0.

(** The first node that the key wakes. *)
Fixpoint first_to_wake (nodes : wqueue_nodes) (key : Z) (l : list Z) : option (option Z) :=
  match l with
  | [] => Some None
  | n :: l => entry ← nodes !! n; if wakeup entry key =? 0 then Some (Some n) else first_to_wake nodes key l
  end.

Definition rt_wqueue_wakeup (key : Z) (q : rt_wqueue) (nodes : wqueue_nodes) (k : kernel) : option (rt_wqueue * kernel) :=
  let q := set_wflag RT_WQ_FLAG_WAKEUP q in
  r ← first_to_wake nodes key (waiting_list q);
  match r with
  | None => Some (q, k)
  | Some n =>
      entry ← nodes !! n;
      '(_, k) ← rt_thread_resume (polling_thread entry) k;
      let q := rt_wqueue_remove n q in
      k ← rt_schedule k;
      Some (q, k)
  end.

(** Both ways out of a wait, which returns 0: clearing the flag and leaving the queue, as one step. *)
Definition rt_wqueue_wait_end (n : Z) (q : rt_wqueue) : rt_wqueue := rt_wqueue_remove n (set_wflag 0 q).

(** [n] is the address of the node on the caller's stack. *)
Definition rt_wqueue_wait (n : Z) (condition : bool) (msec : Z) (q : rt_wqueue) (nodes : wqueue_nodes) (k : kernel)
  : option (outcome * rt_wqueue * wqueue_nodes * kernel) :=
  t ← rt_thread_self k;
  _ ← RT_DEBUG_NOT_IN_INTERRUPT k;
  let tick := i32 (rt_tick_from_millisecond msec) in
  if condition || (tick =? 0) then Some (Returned 0, q, nodes, k)
  else
    let nodes := <[n := {| polling_thread := t; wakeup := __wqueue_default_wake |}]> nodes in
    if wflag q =? RT_WQ_FLAG_WAKEUP then Some (Returned 0, rt_wqueue_wait_end n q, nodes, k)
    else
      let q := rt_wqueue_add n q in
      '(_, k) ← rt_thread_suspend t k;
      k ← (if negb (tick =? RT_WAITING_FOREVER) then start_thread_timer t tick k else Some k);
      k ← rt_schedule k;
      Some (Waiting, q, nodes, k).

(** ** Behaviour *)
Lemma first_to_wake_spec nodes key l r : first_to_wake nodes key l = Some r ->
  match r with
  | Some n => exists l1 l2 entry, l = l1 ++ n :: l2 /\ nodes !! n = Some entry /\ wakeup entry key = 0 /\
      forall m e, m ∈ l1 -> nodes !! m = Some e -> wakeup e key <> 0
  | None => forall m e, m ∈ l -> nodes !! m = Some e -> wakeup e key <> 0
  end.
Proof.
  induction l as [|n l IH]; simpl; [intros [= <-] m e Hm; by apply not_elem_of_nil in Hm|].
  destruct (nodes !! n) as [entry|] eqn:En; [|done]. rewrite some_bind. destruct (Z.eqb_spec (wakeup entry key) 0) as [Hw|Hw].
  - intros [= <-]. exists [], l, entry. do 3 (split; [done|]). intros m e Hm. by apply not_elem_of_nil in Hm.
  - intros E. specialize (IH E). destruct r as [x|].
    + destruct IH as (l1 & l2 & ex & -> & Hx & Hwx & Hl1). exists (n :: l1), l2, ex. do 3 (split; [done|]).
      intros m e Hm Hme. apply elem_of_cons in Hm as [->|Hm]; [simplify_eq; done|by apply (Hl1 m)].
    + intros m e Hm Hme. apply elem_of_cons in Hm as [->|Hm]; [simplify_eq; done|by apply (IH m)].
Qed.

(** A wake-up reaches the first thread whose node accepts the key, if it sleeps: it is ready, its node
    has left the queue, and so has no other. *)
Lemma wakeup_wakes key q nodes k c n entry th : kernel_ok k -> timing_ok k -> current_thread k = Some c ->
  first_to_wake nodes key (waiting_list q) = Some (Some n) -> nodes !! n = Some entry ->
  threads k !! polling_thread entry = Some th -> state_of th = RT_THREAD_SUSPEND ->
  exists k', rt_wqueue_wakeup key q nodes k = Some (rt_wqueue_remove n (set_wflag RT_WQ_FLAG_WAKEUP q), k') /\
    runs k' (polling_thread entry) /\ kernel_ok k' /\ timing_ok k'.
Proof.
  intros Hk Htk Hcu Hf Hn Ht Hs. unfold rt_wqueue_wakeup. cbn [waiting_list set_wflag]. rewrite Hf, some_bind, Hn, some_bind.
  destruct (resume_suspended_ok k _ th Hk Htk Ht Hs) as (k1 & E1 & Hk1 & Htk1 & _ & Hr1 & Hcu1 & _). rewrite E1, some_bind.
  destruct (schedule_total k1 c Hk1 Htk1) as (k2 & _ & E2 & Hk2 & Htk2 & _); [congruence|]. rewrite E2, some_bind.
  exists k2. split; [done|]. split; [by eapply schedule_runs|done].
Qed.

(** When no node accepts the key, the wake-up is kept for the next thread that waits, which returns at once
    and uses it up. *)
Lemma wakeup_kept key q nodes k : first_to_wake nodes key (waiting_list q) = Some None ->
  rt_wqueue_wakeup key q nodes k = Some (set_wflag RT_WQ_FLAG_WAKEUP q, k).
Proof. intros Hf. unfold rt_wqueue_wakeup. cbn [waiting_list set_wflag]. by rewrite Hf. Qed.

Lemma wait_uses_wakeup n msec q nodes k c cth : can_block k c cth -> wflag q = RT_WQ_FLAG_WAKEUP -> n ∉ waiting_list q ->
  exists q' nodes', rt_wqueue_wait n false msec q nodes k = Some (Returned 0, q', nodes', k) /\
    waiting_list q' = waiting_list q /\
    (i32 (rt_tick_from_millisecond msec) <> 0 -> wflag q' = RT_WQ_FLAG_CLEAN).
Proof.
  intros Hcb Hf Hn. unfold rt_wqueue_wait, RT_DEBUG_NOT_IN_INTERRUPT, rt_interrupt_get_nest.
  destruct (thread_context k c cth Hcb) as [_ ->]. rewrite some_bind, (cb_nest _ _ _ Hcb). cbn [Z.eqb assert]. rewrite some_bind.
  cbn [orb]. destruct (Z.eqb_spec (i32 (rt_tick_from_millisecond msec)) 0) as [Hz|Hz]; [by eexists _, _|].
  rewrite Hf. cbn [Z.eqb Pos.eqb]. eexists _, _. split; [done|]. split; [|done]. simpl.
  apply filter_all. intros x Hx ->. done.
Qed.


(** ** Where the code goes wrong *)

(** The node of a thread whose wait has timed out stays in the queue until the thread runs. A wake-up in between
    goes to that node: nobody is resumed, and when the thread runs it clears the flag, so
    that the threads behind it sleep on. *)
Lemma timed_out_takes_wakeup key q nodes k n l entry th : waiting_list q = n :: l -> n ∉ l ->
  nodes !! n = Some entry -> wakeup entry key = 0 ->
  threads k !! polling_thread entry = Some th -> is_thread th = true -> state_of th <> RT_THREAD_SUSPEND ->
  let q' := {| wflag := RT_WQ_FLAG_WAKEUP; waiting_list := l |} in
  rt_wqueue_wakeup key q nodes k = (k' ← rt_schedule k; Some (q', k')) /\
  rt_wqueue_wait_end n q' = {| wflag := RT_WQ_FLAG_CLEAN; waiting_list := l |}.
Proof.
  intros Hq Hnl Hn Hw Ht Hth Hs q'. unfold rt_wqueue_wakeup. cbn [waiting_list set_wflag]. rewrite Hq. cbn [first_to_wake].
  rewrite Hn, some_bind, Hw. cbn [Z.eqb]. rewrite some_bind. cbn beta iota.
  rewrite Hn, some_bind, (resume_not_suspended k _ th) by done. rewrite some_bind. cbn beta iota.
  assert (filter (fun x => x <> n) l = l) as El by (apply filter_all; intros x Hx ->; done).
  unfold rt_wqueue_remove, rt_wqueue_wait_end, rt_wqueue_remove. cbn [waiting_list set_wflag wflag q']. rewrite Hq.
  rewrite filter_cons_False by tauto. rewrite !El. split; [|done]. by destruct (rt_schedule k).
Qed.

(** A wake-up that comes before the thread woken by the previous one has run is kept in the flag, and lost when
    that thread clears it. *)
Lemma second_wakeup_lost key key' q nodes k c n entry th : kernel_ok k -> timing_ok k -> current_thread k = Some c ->
  waiting_list q = [n] -> nodes !! n = Some entry -> wakeup entry key = 0 ->
  threads k !! polling_thread entry = Some th -> state_of th = RT_THREAD_SUSPEND ->
  exists q1 k1 q2, rt_wqueue_wakeup key q nodes k = Some (q1, k1) /\ rt_wqueue_wakeup key' q1 nodes k1 = Some (q2, k1) /\
    wflag q2 = RT_WQ_FLAG_WAKEUP /\ rt_wqueue_wait_end n q2 = rt_wqueue_init.
Proof.
  intros Hk Htk Hcu Hq Hn Hw Ht Hs.
  destruct (wakeup_wakes key q nodes k c n entry th Hk Htk Hcu) as (k1 & E1 & _); [|done..|].
  { rewrite Hq. simpl. by rewrite Hn, some_bind, Hw. }
  assert (rt_wqueue_remove n (set_wflag RT_WQ_FLAG_WAKEUP q) = {| wflag := RT_WQ_FLAG_WAKEUP; waiting_list := [] |}) as Hq1.
  { unfold rt_wqueue_remove. cbn [waiting_list set_wflag wflag]. rewrite Hq, filter_cons_False by tauto. done. }
  rewrite Hq1 in E1. eexists _, k1, _. split; [exact E1|]. split; [by apply wakeup_kept|]. by split.
Qed.
