(* ===== verification/Workqueue.v ===== *)
(** * Work queues (rt-thread/components/drivers/src/workqueue.c)

    A work queue has a thread of its own that runs the works submitted to it one after
    the other.  The world of one work queue, at address [o], is its record, the works
    that use it, where its thread is in its loop, and the kernel.  The thread's loop is cut at
    the points where it can be interrupted: [worker_step] is one part.  The time-out function
    of a delayed work, which the timer thread calls, is an operation of its own;
    a call of rt_workqueue_cancel_work_sync that waits goes on with
    [rt_workqueue_cancel_work_sync_end].  Any other call is one step. *)
From S2P Require Import Prelude Mem Kernel Sched Timer Ipc Semaphore.

Definition RT_WORK_STATE_PENDING : Z := 1.
Definition RT_WORK_STATE_SUBMITTING : Z := 2.
Definition RT_WORK_TYPE_DELAYED : Z := 1.


(** The timer of a work is in [timers], at [work_timer]. *)
Record rt_work := { wflags : Z; wtype : Z; workqueue : option Z; work_func : Z; work_data : Z }.

Record rt_workqueue := { work_list : list Z; work_current : option Z; wq_sem : rt_semaphore; work_thread : Z }.

(** Where the thread of the queue is in its loop: before the test of the list, before
    it suspends itself, before it takes a work, in a work, behind it; or [Lost]: it has
    taken the list itself, in the structure of the queue, for a work and calls what stands there. *)
Inductive worker := AtTest | ToSuspend | ToFetch | Working (w : Z) | ToAck | Lost.

Record wq_world := { wq : rt_workqueue; works : gmap Z rt_work; pc : worker; wk : kernel }.

(** The semaphore is in the structure of the queue, the timer in that of the work. *)
Definition sem_of (o : Z) : Z := o + 12.
Definition work_timer (w : Z) : obj := Obj (w + 20).

Definition rt_work_init (func data : Z) : rt_work :=
  {| wflags := 0; wtype := 0; workqueue := None; work_func := func; work_data := data |}.

Definition rt_delayed_work_init (func data : Z) : rt_work := rt_work_init func data.

Definition set_kernel (k : kernel) (x : wq_world) : wq_world := {| x with wk := k |}.
Definition set_list (l : list Z) (x : wq_world) : wq_world := {| x with wq := {| (wq x) with work_list := l |} |}.
Definition set_current (c : option Z) (x : wq_world) : wq_world := {| x with wq := {| (wq x) with work_current := c |} |}.
Definition at_pc (p : worker) (x : wq_world) : wq_world := {| x with pc := p |}.

Definition upd_work (w : Z) (f : rt_work -> rt_work) (x : wq_world) : option wq_world :=
  a ← works x !! w; Some {| x with works := <[w := f a]> (works x) |}.

Definition set_bits (m : Z) (a : rt_work) : rt_work := {| a with wflags := Z.lor (wflags a) m |}.
Definition clear_bits (m : Z) (a : rt_work) : rt_work := {| a with wflags := clear (wflags a) m |}.
Definition set_type (t : Z) (a : rt_work) : rt_work := {| a with wtype := t |}.
Definition attach (q : option Z) (a : rt_work) : rt_work := {| a with workqueue := q |}.

(** rt_list_remove(&(work->list)). *)
Definition unlink (w : Z) (x : wq_world) : wq_world := set_list (filter (fun y => y <> w) (work_list (wq x))) x.

Section Workqueue.
(** The address of the queue. *)
Context (o : Z).
(** errno.h of the C library and the address of the time-out function. *)
Context (EINVAL : Z) (delayed_work_timeout : Z).

(** ** The thread *)
Fixpoint completion_loop (fuel : nat) (s : rt_semaphore) (k : kernel) : option (Z * rt_semaphore * kernel) :=
  match fuel with
  | O => None
  | S fuel =>
      '(r, s, k) ← rt_sem_trytake (sem_of o) s k;
      match r with
      | Waiting => None
      | Returned e =>
          if e =? - RT_ETIMEOUT then
            '(_, s, k) ← rt_sem_release (sem_of o) s k;
            completion_loop fuel s k
          else if e =? RT_EOK then Some (RT_EOK, s, k)
          else Some (- RT_ERROR, s, k)
      end
  end.

(** One round for every waiting thread, one that stores a permit and one that takes it. *)
Definition _workqueue_work_completion (x : wq_world) : option (Z * wq_world) :=
  let k := rt_enter_critical (wk x) in
  '(e, s, k) ← completion_loop (S (S (length (queues k (QSuspend (sem_of o)))))) (wq_sem (wq x)) k;
  k ← rt_exit_critical k;
  Some (e, set_kernel k {| x with wq := {| (wq x) with wq_sem := s |} |}).

(** One part of _workqueue_thread_entry.  The thread takes the first entry of the list without another
    test: when the list is empty that is no work, and what happens then is nothing the source says. *)
Definition worker_step (x : wq_world) : option wq_world :=
  match pc x with
  | AtTest => Some (at_pc (match work_list (wq x) with [] => ToSuspend | _ => ToFetch end) x)
  | ToSuspend =>
      t ← rt_thread_self (wk x);
      '(_, k) ← rt_thread_suspend t (wk x);
      k ← rt_schedule k;
      Some (at_pc ToFetch (set_kernel k x))
  | ToFetch =>
      match work_list (wq x) with
      | [] => Some (at_pc Lost x)
      | w :: _ =>
          x ← upd_work w (fun a => attach None (clear_bits RT_WORK_STATE_PENDING a)) (set_current (Some w) (unlink w x));
          Some (at_pc (Working w) x)
      end
  | Working _ => Some (at_pc ToAck (set_current None x))
  | ToAck => '(_, x) ← _workqueue_work_completion x; Some (at_pc AtTest x)
  | Lost => None
  end.

(** ** Submitting and cancelling *)
Definition wake_worker (x : wq_world) : option wq_world :=
  '(_, k) ← rt_thread_resume (work_thread (wq x)) (wk x);
  k ← rt_schedule k;
  Some (set_kernel k x).

(** [q] is the queue given, which is this one. *)
Definition _workqueue_submit_work (q : option Z) (w : Z) (x : wq_world) : option (Z * wq_world) :=
  a ← works x !! w;
  if has_flag (wflags a) RT_WORK_STATE_PENDING then Some (- RT_EBUSY, x)
  else
    _ ← assert (bool_decide (q = Some o));
    if bool_decide (work_current (wq x) = Some w) then Some (- RT_EBUSY, x)
    else
      let x := unlink w x in
      x ← upd_work w (set_bits RT_WORK_STATE_PENDING) (set_list (work_list (wq x) ++ [w]) x);
      x ← match work_current (wq x) with None => wake_worker x | Some _ => Some x end;
      Some (RT_EOK, x).

Definition _workqueue_cancel_work (w : Z) (x : wq_world) : option (Z * wq_world) :=
  if bool_decide (work_current (wq x) = Some w) then Some (- RT_EBUSY, x)
  else x ← upd_work w (clear_bits RT_WORK_STATE_PENDING) (unlink w x); Some (RT_EOK, x).

(** rt_timer_stop and rt_timer_detach. *)
Definition drop_timer (w : Z) (x : wq_world) : option wq_world :=
  '(_, k) ← rt_timer_stop (work_timer w) (wk x);
  '(_, k) ← rt_timer_detach (work_timer w) k;
  Some (set_kernel k x).

(** A work that is attached to a queue is attached to this one. *)
Definition _workqueue_cancel_delayed_work (w : Z) (x : wq_world) : option (Z * wq_world) :=
  a ← works x !! w;
  match workqueue a with
  | None => Some (- EINVAL, x)
  | Some q =>
      _ ← assert (q =? o);
      '(e, x) ←
        (if has_flag (wflags a) RT_WORK_STATE_PENDING then _workqueue_cancel_work w x
         else if has_flag (wflags a) RT_WORK_STATE_SUBMITTING then
           x ← drop_timer w x;
           x ← upd_work w (clear_bits RT_WORK_STATE_SUBMITTING) x;
           Some (RT_EOK, x)
         else Some (RT_EOK, x));
      if negb (e =? RT_EOK) then Some (e, x)
      else x ← upd_work w (fun a => clear_bits RT_WORK_STATE_PENDING (attach None a)) x; Some (RT_EOK, x)
  end.


Definition _delayed_work_timeout_handler (w : Z) (x : wq_world) : option wq_world :=
  x ← drop_timer w x;
  x ← upd_work w (fun a => set_type (clear (wtype a) RT_WORK_TYPE_DELAYED) (clear_bits RT_WORK_STATE_SUBMITTING a)) x;
  a ← works x !! w;
  '(_, x) ← _workqueue_submit_work (workqueue a) w x;
  Some x.

Definition rt_workqueue_dowork (w : Z) (x : wq_world) : option (Z * wq_world) :=
  _workqueue_submit_work (Some o) w x.



Definition rt_workqueue_cancel_work (w : Z) (x : wq_world) : option (Z * wq_world) :=
  a ← works x !! w;
  if has_flag (wtype a) RT_WORK_TYPE_DELAYED then _workqueue_cancel_delayed_work w x
  else _workqueue_cancel_work w x.



Fixpoint unlink_all (l : list Z) (x : wq_world) : wq_world :=
  match l with [] => x | w :: l => unlink_all l (unlink w x) end.

Definition rt_workqueue_cancel_all_work (x : wq_world) : option (Z * wq_world) :=
  let x := set_kernel (rt_enter_critical (wk x)) x in
  let x := unlink_all (work_list (wq x)) x in
  k ← rt_exit_critical (wk x);
  Some (RT_EOK, set_kernel k x).
End Workqueue.

(** ** Creating and destroying *)

(** [entry] is the address of the thread's function, [sem0] what the memory of the semaphore held. *)
Definition rt_workqueue_create (nm : list Z) (entry stack_size priority : Z) (sem0 : rt_semaphore) (k : kernel)
  : option (option (Z * rt_workqueue) * kernel) :=
  '(p, h) ← rt_malloc 48 (kheap k);
  let k := {| k with kheap := h |} in
  match p with
  | None => Some (None, k)
  | Some o =>
      '(_, s, k) ← rt_sem_init (sem_of o) sem0 (bytes "wqueue") 0 RT_IPC_FLAG_FIFO k;
      '(r, k) ← rt_thread_create nm entry o stack_size priority 10 k;
      match r with
      | None => h ← rt_free (Some o) (kheap k); Some (None, {| k with kheap := h |})
      | Some t =>
          '(_, k) ← rt_thread_startup t k;
          Some (Some (o, {| work_list := []; work_current := None; wq_sem := s; work_thread := t |}), k)
      end
  end.

Definition rt_workqueue_destroy {CB : Callbacks} (o : Z) (q : rt_workqueue) (k : kernel) : option (Z * kernel) :=
  '(_, k) ← rt_thread_delete (work_thread q) k;
  h ← rt_free (Some o) (kheap k);
  Some (RT_EOK, {| k with kheap := h |}).

(** ** What a work queue promises

    The works in the order in which they will run, the one that runs, and the works that are
    marked as submitted. *)
Record wq_spec := { queued : list Z; running : option Z; marked : gmap Z bool }.

(** What happens, with the results of the calls and whether the work was in the queue: a submission, an urgent one
    (rt_workqueue_critical_work), a cancellation, the loss of a mark, the cancellation of all works, the start and the
    end of a work.  The others change nothing: a delayed submission, taken back or refused. *)
Inductive wq_event :=
| Submitted (w e : Z) (was : bool) | Urgent (w e : Z) (was : bool) | Cancelled (w e : Z) (was : bool)
| Unmarked (w : Z) | AllCancelled (l : list Z) | Started (w : Z) | Finished (w : Z)
| Delayed (w ticks : Z) | Withdrawn (w : Z) | Refused (w e : Z).

Definition is_queued (w : Z) (s : wq_spec) : bool := bool_decide (w ∈ queued s).
Definition is_running (w : Z) (s : wq_spec) : bool := bool_decide (running s = Some w).
Definition is_marked (w : Z) (s : wq_spec) : bool := default false (marked s !! w).

Definition others (w : Z) (l : list Z) : list Z := filter (fun y => y <> w) l.
Definition mark (w : Z) (b : bool) (s : wq_spec) : wq_spec := {| s with marked := <[w := b]> (marked s) |}.

(** The event in the state [s].  A work that is marked or runs is not taken again, and one that runs is not taken as
    urgent or cancelled; what is accepted goes to the end of the queue, from its place there if it has one;
    works start in the order of the queue, one at a time, and lose their mark.  A cancellation of all works
    leaves the marks. *)
Definition spec_event (s : wq_spec) (ev : wq_event) : option wq_spec :=
  match ev with
  | Submitted w e was =>
      _ ← assert (Bool.eqb was (is_queued w s));
      if is_marked w s || is_running w s then _ ← assert (e =? - RT_EBUSY); Some s
      else _ ← assert (e =? RT_EOK); Some (mark w true {| s with queued := others w (queued s) ++ [w] |})
  | Urgent w e was =>
      _ ← assert (Bool.eqb was (is_queued w s));
      if is_running w s then _ ← assert (e =? - RT_EBUSY); Some s
      else _ ← assert (e =? RT_EOK); Some {| s with queued := others w (queued s) ++ [w] |}
  | Cancelled w e was =>
      _ ← assert (Bool.eqb was (is_queued w s));
      if is_running w s then _ ← assert (e =? - RT_EBUSY); Some s
      else _ ← assert (e =? RT_EOK); Some (mark w false {| s with queued := others w (queued s) |})
  | Unmarked w => Some (mark w false s)
  | AllCancelled l => _ ← assert (bool_decide (l = queued s)); Some {| s with queued := [] |}
  | Started w =>
      match queued s, running s with
      | v :: l, None => _ ← assert (v =? w); Some (mark w false {| s with queued := l; running := Some w |})
      | _, _ => None
      end
  | Finished w => _ ← assert (is_running w s); Some {| s with running := None |}
  | Delayed _ _ | Withdrawn _ | Refused _ _ => Some s
  end.

Fixpoint replay (s : wq_spec) (tr : list wq_event) : option wq_spec :=
  match tr with [] => Some s | ev :: tr => s ← spec_event s ev; replay s tr end.




Lemma others_nodup w l : NoDup l -> NoDup (others w l).
Proof. apply NoDup_filter. Qed.

Lemma others_elem w v l : v ∈ others w l <-> v <> w /\ v ∈ l.
Proof. unfold others. by rewrite list_elem_of_filter. Qed.

Lemma append_nodup w l : NoDup l -> NoDup (others w l ++ [w]).
Proof.
  intros H. apply NoDup_app. split; [by apply others_nodup|]. split; [|apply NoDup_singleton].
  intros y Hy ->%list_elem_of_singleton. by apply others_elem in Hy as [].
Qed.





(** ** The invariant *)
Definition pending_work (a : rt_work) : bool := has_flag (wflags a) RT_WORK_STATE_PENDING.

Definition abs (x : wq_world) : wq_spec :=
  {| queued := work_list (wq x); running := work_current (wq x); marked := pending_work <$> works x |}.

(** A work is in the list once at most, and not while it runs; the current work
    is the one the thread runs; the semaphore holds no permit; and the thread is lost with an empty list. *)
Record wq_ok (x : wq_world) : Prop := {
  wo_nodup : NoDup (work_list (wq x));
  wo_current : work_current (wq x) = match pc x with Working w => Some w | _ => None end;
  wo_running : forall w, work_current (wq x) = Some w -> w ∉ work_list (wq x);
  wo_permits : value (wq_sem (wq x)) = 0;
  wo_lost : pc x = Lost -> work_list (wq x) = []
}.

Lemma set_bits_pending a : pending_work (set_bits RT_WORK_STATE_PENDING a) = true.
Proof. by apply has_flag_lor_same. Qed.

Lemma clear_bits_pending a : pending_work (clear_bits RT_WORK_STATE_PENDING a) = false.
Proof.
  unfold pending_work, clear_bits, has_flag, clear, RT_WORK_STATE_PENDING. simpl.
  apply negb_false_iff, Z.eqb_eq. apply Z.bits_inj'. intros n Hn.
  rewrite Z.land_spec, Z.ldiff_spec, Z.bits_0. by destruct (Z.testbit _ n), (Z.testbit 1 n).
Qed.


Lemma upd_work_inv w f x x' : upd_work w f x = Some x' ->
  exists a, works x !! w = Some a /\ x' = {| x with works := <[w := f a]> (works x) |}.
Proof. unfold upd_work. destruct (works x !! w) as [a|]; [|done]. intros [= <-]. by exists a. Qed.

Lemma wq_ok_kernel x k : wq_ok x -> wq_ok (set_kernel k x).
Proof. by intros []. Qed.

Lemma wake_worker_inv x x' : wake_worker x = Some x' -> exists k, x' = set_kernel k x.
Proof.
  unfold wake_worker. destruct (rt_thread_resume _ _) as [[r k]|]; [|done]. simpl.
  destruct (rt_schedule k) as [k'|]; [|done]. simpl. intros [= <-]. by exists k'.
Qed.

Lemma is_marked_pending x w a : works x !! w = Some a -> is_marked w (abs x) = pending_work a.
Proof. intros Ha. unfold is_marked. simpl. by rewrite lookup_fmap, Ha. Qed.

Lemma set_works_abs x w b : abs {| x with works := <[w := b]> (works x) |} = mark w (pending_work b) (abs x).
Proof. unfold abs, mark. simpl. by rewrite fmap_insert. Qed.

(** *** From one world to the next, with what happened in between *)
Definition follows (x : wq_world) (tr : list wq_event) (x' : wq_world) : Prop :=
  wq_ok x' /\ replay (abs x) tr = Some (abs x').

Lemma follows_one x ev x' : wq_ok x' -> spec_event (abs x) ev = Some (abs x') -> follows x [ev] x'.
Proof. intros H E. split; [done|]. simpl. by rewrite E. Qed.




Definition listed (w : Z) (x : wq_world) : bool := is_queued w (abs x).

Lemma wq_ok_append w x : wq_ok x -> work_current (wq x) <> Some w -> pc x <> Lost ->
  wq_ok (set_list (others w (work_list (wq x)) ++ [w]) x).
Proof.
  intros [H1 H2 H3 H4 H5] Hc Hl. split; simpl; try done; [by apply append_nodup|].
  intros v Hv. specialize (H3 v Hv). rewrite elem_of_app, others_elem, list_elem_of_singleton. intros [[_ ?]| ->]; done.
Qed.

Lemma wq_ok_unlink w x : wq_ok x -> wq_ok (unlink w x).
Proof.
  intros [H1 H2 H3 H4 H5]. split; simpl; try done; [by apply NoDup_filter| |].
  - intros v Hv [_ Hin]%list_elem_of_filter. by apply (H3 v Hv).
  - intros Hl. by rewrite H5.
Qed.

Lemma wq_ok_works x m : wq_ok x -> wq_ok {| x with works := m |}.
Proof. by intros []. Qed.

(** ** The operations do what they promise *)
Section Follows.
Context (o EINVAL delayed_work_timeout : Z).

Lemma submit_work_follows q w x e x' : wq_ok x -> pc x <> Lost -> _workqueue_submit_work o q w x = Some (e, x') ->
  follows x [Submitted w e (listed w x)] x'.
Proof.
  intros Hx Hl. unfold _workqueue_submit_work. destruct (works x !! w) as [a|] eqn:Ha; [|done]. rewrite some_bind.
  fold (pending_work a). destruct (pending_work a) eqn:Hp.
  { intros [= <- <-]. apply follows_one; [done|]. cbn [spec_event]. unfold listed. rewrite eqb_reflx.
    by rewrite (is_marked_pending x w a), Hp. }
  destruct (assert _); [|done]. rewrite some_bind.
  destruct (bool_decide (work_current (wq x) = Some w)) eqn:Hc.
  { intros [= <- <-]. apply follows_one; [done|]. cbn [spec_event]. unfold listed, is_running. cbn [running abs].
    by rewrite eqb_reflx, Hc, orb_true_r. }
  cbv zeta. destruct (upd_work _ _ _) as [x1|] eqn:E1; [|done]. apply upd_work_inv in E1 as (a' & Ha' & ->). rewrite some_bind. cbn in Ha'.
  rewrite Ha' in Ha. injection Ha as ->. pose proof Hc as Hc'. apply bool_decide_eq_false in Hc'.
  pose proof (wq_ok_append w x Hx Hc' Hl) as Hok.
  set (x2 := {| (set_list _ _) with works := _ |}).
  match goal with |- (?m ≫= _) = _ -> _ => destruct m as [x3|] eqn:E2; [|done] end. rewrite some_bind. intros [= <- <-].
  assert (exists k, x3 = set_kernel k x2) as [k ->].
  { destruct (work_current (wq x2)); [|by apply wake_worker_inv]. injection E2 as <-. by exists (wk x). }
  apply follows_one; [by apply wq_ok_kernel, (wq_ok_works (set_list _ x))|].
  cbn [spec_event]. unfold listed, is_running. cbn [running]. rewrite eqb_reflx, (is_marked_pending x w a), Hp by done.
  cbn [running abs]. rewrite Hc. cbn [orb assert]. rewrite !some_bind. f_equal. unfold abs, mark. simpl.
  by rewrite fmap_insert, set_bits_pending.
Qed.

Lemma cancel_work_follows w x e x' : wq_ok x -> _workqueue_cancel_work w x = Some (e, x') ->
  follows x [Cancelled w e (listed w x)] x' /\ (e = - RT_EBUSY /\ x' = x \/ e = RT_EOK /\ is_marked w (abs x') = false).
Proof.
  intros Hx. unfold _workqueue_cancel_work. destruct (bool_decide (work_current (wq x) = Some w)) eqn:Hc.
  - intros [= <- <-]. split; [|by left]. apply follows_one; [done|]. cbn [spec_event]. unfold listed, is_running. cbn [running abs].
    by rewrite eqb_reflx, Hc.
  - destruct (upd_work _ _ _) as [x1|] eqn:E1; [|done]. apply upd_work_inv in E1 as (a & Ha & ->). rewrite some_bind.
    intros [= <- <-]. split.
    + apply follows_one; [exact (wq_ok_works (unlink w x) _ (wq_ok_unlink w x Hx))|].
      etrans; [|exact (f_equal Some (eq_sym (set_works_abs (unlink w x) w (clear_bits RT_WORK_STATE_PENDING a))))]. rewrite clear_bits_pending.
      cbn [spec_event]. unfold listed, is_running. cbn [running abs]. by rewrite eqb_reflx, Hc.
    + right. split; [done|]. unfold is_marked. simpl. rewrite fmap_insert, lookup_insert_eq. apply clear_bits_pending.
Qed.












Lemma unlink_all_nil l : forall x, (forall y, y ∈ work_list (wq x) -> y ∈ l) ->
  unlink_all l x = set_list [] x.
Proof.
  induction l as [|w l IH]; intros x Hl; simpl.
  - assert (work_list (wq x) = []) as Hn; [|destruct x as [[]]; simpl in *; by subst].
    destruct (work_list (wq x)) as [|y l]; [done|]. destruct (not_elem_of_nil y). apply Hl. left.
  - rewrite IH; [done|]. intros y [Hne Hy]%list_elem_of_filter. apply Hl in Hy. set_solver.
Qed.

End Follows.

(** One round without and one with a permit. *)
Lemma completion_round o fuel s k : is_class RT_Object_Class_Semaphore (sem_parent s) = true -> value s = 0 ->
  completion_loop o (S fuel) s k = '(_, s, k) ← rt_sem_release (sem_of o) s k; completion_loop o fuel s k.
Proof. intros Hcl Hv. cbn [completion_loop]. unfold rt_sem_trytake, rt_sem_take. by rewrite Hcl, Hv. Qed.

Lemma completion_last o fuel s k : is_class RT_Object_Class_Semaphore (sem_parent s) = true -> value s = 1 ->
  completion_loop o (S fuel) s k = Some (RT_EOK, {| sem_parent := sem_parent s; value := 0 |}, k).
Proof. intros Hcl Hv. cbn [completion_loop]. unfold rt_sem_trytake, rt_sem_take. by rewrite Hcl, Hv. Qed.





(** ** Runs *)


Section Runs.
(** The address of the queue, EINVAL of the C library and the address of the time-out function. *)
Context (o EINVAL delayed_work_timeout : Z).








End Runs.

(** ** Properties *)


Lemma sem_release_runs o s k e s' k' x : rt_sem_release o s k = Some (e, s', k') -> runs k x -> runs k' x.
Proof.
  unfold rt_sem_release. destruct (assert _); [|done]. rewrite some_bind. destruct (queues k _) as [|w l].
  - destruct (_ <? _); by intros [= <- <- <-].
  - unfold rt_ipc_list_resume. destruct (head _) as [t|]; [|done]. rewrite some_bind.
    destruct (rt_thread_resume t k) as [[r k1]|] eqn:E1; [|done]. rewrite !some_bind. cbn beta iota.
    destruct (rt_schedule k1) as [k2|] eqn:E2; [|done]. rewrite some_bind. intros [= <- <- <-] Hr.
    eapply schedule_runs; [exact E2|]. by eapply resume_runs.
Qed.

(** A thread that is ready or runs and has no error: its wait succeeded. *)
Definition served (k : kernel) (w : Z) : Prop := runs k w /\ rt_sem_take_end w k = Some RT_EOK.

Lemma served_error k k' w : served k w -> runs k' w -> stat_only k k' -> served k' w.
Proof.
  intros [(th & Hth & _) He] Hr Hs. split; [done|]. unfold rt_sem_take_end in *. rewrite Hth, some_bind in He.
  destruct (stat_only_error _ _ _ _ Hs Hth) as (th' & Hth' & E'). rewrite Hth', some_bind, E'.
  destruct (negb _); [|done]. exact He.
Qed.

(** The rounds of _workqueue_work_completion: as many as threads wait, and two. *)
Lemma completion_loop_wakes o s l : value s = 0 -> forall k c, sem_ok (sem_of o) s k -> kernel_ok k -> timing_ok k ->
  current_thread k = Some c -> queues k (QSuspend (sem_of o)) = l ->
  exists k' c', completion_loop o (S (S (length l))) s k = Some (RT_EOK, s, k') /\ sem_ok (sem_of o) s k' /\ kernel_ok k' /\
    timing_ok k' /\ current_thread k' = Some c' /\ queues k' (QSuspend (sem_of o)) = [] /\ stat_only k k' /\
    (forall w, w ∈ l -> served k' w) /\ (forall w, runs k w -> runs k' w).
Proof.
  intros Hv. induction l as [|w l IH]; intros k c Hs Hk Htk Hcu Hq.
  - assert (completion_loop o 2 s k = Some (RT_EOK, s, k)) as E.
    { rewrite completion_round by (done || apply Hs). rewrite (sem_release_free _ s k Hs Hq), Hv.
      change (0 <? RT_SEM_VALUE_MAX) with true. cbv iota. rewrite some_bind. cbn beta iota.
      rewrite completion_last by (done || apply Hs). do 3 f_equal. destruct s as [p v]. simpl in *. by subst. }
    exists k, c. split; [exact E|]. do 5 (split; [done|]). split; [by apply stat_only_refl|]. split; [|done].
    intros w Hw. by apply elem_of_nil in Hw.
  - destruct (sem_hand_over (sem_of o) s k c w l Hs Hk Htk Hcu Hq) as (k1 & E1 & Hw1 & Hs1 & He1).
    assert (exists c1, current_thread k1 = Some c1) as [c1 Hcu1].
    { unfold rt_sem_release in E1. rewrite (so_class _ _ _ Hs) in E1. cbn [assert] in E1. rewrite some_bind, Hq in E1.
      destruct (ipc_list_resume_ok k (QSuspend (sem_of o)) w l Hk Htk eq_refl Hq) as (k2 & wth & E2 & Hw2 & Hc2 & _).
      rewrite E2, some_bind in E1.
      destruct (schedule_total k2 c (wk_kernel _ _ _ _ _ Hw2) (wk_timing _ _ _ _ _ Hw2) ltac:(congruence)) as (k3 & n & E3 & _ & _ & _ & Hn & _).
      rewrite E3, some_bind in E1. exists n. congruence. }
    destruct (IH k1 c1 Hs1 (wk_kernel _ _ _ _ _ Hw1) (wk_timing _ _ _ _ _ Hw1) Hcu1 (wk_queue _ _ _ _ _ Hw1))
      as (k' & c' & E & Hs' & Hk' & Htk' & Hcu' & Hq' & Hso & Hsv & Hr).
    exists k', c'. split.
    { cbn [length]. rewrite completion_round by (done || apply Hs). rewrite E1, some_bind. exact E. }
    do 5 (split; [done|]). split; [by apply (stat_only_trans k k1 k'); [apply Hw1|]|]. split.
    + intros v Hin. apply elem_of_cons in Hin as [->|Hin]; [|by apply Hsv].
      apply (served_error k1); [split; [apply Hw1|done]|apply Hr, Hw1|done].
    + intros v Hv1. apply Hr. by eapply sem_release_runs.
Qed.

(** The end of a work wakes everybody.  However many threads wait for the
    end of the current work, the loop that acknowledges it ends, all of them are ready, their
    waits have succeeded, and the semaphore is empty again for the next work. *)
Lemma work_completion_wakes o x c : sem_ok (sem_of o) (wq_sem (wq x)) (wk x) -> value (wq_sem (wq x)) = 0 ->
  kernel_ok (wk x) -> timing_ok (wk x) -> current_thread (wk x) = Some c ->
  exists k', _workqueue_work_completion o x = Some (RT_EOK, set_kernel k' x) /\ kernel_ok k' /\ timing_ok k' /\
    sem_ok (sem_of o) (wq_sem (wq x)) k' /\ queues k' (QSuspend (sem_of o)) = [] /\
    forall w, w ∈ queues (wk x) (QSuspend (sem_of o)) -> served k' w.
Proof.
  intros Hs Hv Hk Htk Hcu. unfold _workqueue_work_completion. set (k0 := rt_enter_critical (wk x)).
  assert (kernel_ok k0) as Hk0 by (by apply (kernel_ok_same (wk x))).
  assert (sem_ok (sem_of o) (wq_sem (wq x)) k0) as Hs0 by (by destruct Hs).
  destruct (completion_loop_wakes o _ _ Hv k0 c Hs0 Hk0 Htk Hcu eq_refl) as (k1 & c1 & E & Hs1 & Hk1 & Htk1 & Hcu1 & Hq1 & _ & Hsv & _).
  rewrite E, some_bind. cbn beta iota.
  destruct (exit_critical_total k1 c1 Hk1 Htk1 Hcu1) as (k2 & n & E2 & Hk2 & Htk2 & Hso2 & _ & Hq2 & Hr2).
  rewrite E2, some_bind. exists k2. split; [by destruct x as [[]]|]. split; [done|]. split; [done|].
  assert (queues k2 (QSuspend (sem_of o)) = []) as Hq2' by (by rewrite Hq2). split; [|split; [done|]].
  - destruct Hs1. split; try done. by apply waiting_fine_nil.
  - intros w Hw. destruct (Hsv w Hw) as [Hr He]. apply (served_error k1); [done|by apply Hr2|done].
Qed.

(** A submission to a queue whose thread sleeps makes the thread ready. *)
Lemma submit_wakes_worker o w x a t c : kernel_ok (wk x) -> timing_ok (wk x) -> current_thread (wk x) = Some c ->
  works x !! w = Some a -> pending_work a = false -> work_current (wq x) = None ->
  threads (wk x) !! work_thread (wq x) = Some t -> state_of t = RT_THREAD_SUSPEND ->
  exists x', rt_workqueue_dowork o w x = Some (RT_EOK, x') /\ work_list (wq x') = others w (work_list (wq x)) ++ [w] /\
    kernel_ok (wk x') /\ timing_ok (wk x') /\ runs (wk x') (work_thread (wq x)).
Proof.
  intros Hk Htk Hcu Ha Hw Hc Ht Hs. unfold rt_workqueue_dowork, _workqueue_submit_work. rewrite Ha, some_bind.
  fold (pending_work a). rewrite Hw.
  rewrite (bool_decide_true (Some o = Some o)) by done. cbn [assert]. rewrite some_bind, (bool_decide_false (work_current (wq x) = Some w)) by (by rewrite Hc).
  cbv zeta. unfold upd_work. change (works (set_list _ (unlink w x))) with (works x). rewrite Ha, !some_bind.
  set (x2 := {| (set_list _ _) with works := _ |}). change (work_current (wq x2)) with (work_current (wq x)). rewrite Hc.
  destruct (resume_suspended_ok (wk x) _ t Hk Htk Ht Hs) as (k1 & E1 & Hk1 & Htk1 & _ & Hr1 & Hcu1 & _).
  unfold wake_worker. change (work_thread (wq x2)) with (work_thread (wq x)). change (wk x2) with (wk x). rewrite E1, some_bind. cbn beta iota.
  destruct (schedule_total k1 c Hk1 Htk1 ltac:(congruence)) as (k2 & n & E2 & Hk2 & Htk2 & _). rewrite E2, !some_bind.
  eexists. split; [done|]. split; [done|]. split; [done|]. split; [done|]. by eapply schedule_runs.
Qed.

(** ** Where the code goes wrong *)

(** The thread tests the list and suspends itself in two steps.  A submission in between
    is accepted but wakes nobody: the thread sleeps with a work in its list. *)
Lemma wakeup_lost x t th : pc x = ToSuspend -> work_list (wq x) <> [] -> can_block (wk x) t th ->
  exists x', worker_step 0 x = Some x' /\ work_list (wq x') = work_list (wq x) /\
    exists th', threads (wk x') !! t = Some th' /\ state_of th' = RT_THREAD_SUSPEND.
Proof.
  intros Hpc Hl Hcb. unfold worker_step. rewrite Hpc. destruct (thread_context _ _ _ Hcb) as [_ ->]. rewrite some_bind.
  pose proof Hcb as [Hk Hcu Hct Hr Hlk Hn Hg Htk].
  destruct (suspend_ok (wk x) t th (ko_sched _ Hk) Hct ltac:(by right)) as (k1 & E1 & Hs1 & Ht1 & Hq1 & Hcu1 & Hl1 & Hto1).
  destruct (suspend_timing _ _ _ _ Htk E1) as [Htk1 _]. rewrite E1, some_bind. cbn beta iota.
  assert (kernel_ok k1) as Hk1.
  { apply (kernel_ok_upd (wk x) k1 t (with_state RT_THREAD_SUSPEND th)); try done; [apply Hk|by apply (ko_stacks _ Hk t th)|apply Hk]. }
  assert (ready_group k1 <> 0) as Hg1.
  { pose proof (sv_inv _ (ko_sched _ Hk)) as Hi. destruct (highest_ok (wk x) [] Hi Hg) as (v & p & l & _ & Hqp & _).
    apply (ready_group_nonzero k1 p); [apply Hs1|]. rewrite Hq1, filter_nil_iff by (eapply (not_queued [] (wk x)); [done..|]; rewrite Hr; done).
    by rewrite Hqp. }
  destruct (schedule_away k1 t (with_state RT_THREAD_SUSPEND th) Hk1) as (k2 & E2 & _ & _ & _ & Hself & _); try done;
    [congruence|by rewrite Ht1, lookup_insert_eq|by apply state_with_state|congruence|].
  rewrite E2, some_bind. eexists. split; [done|]. by split.
Qed.

Lemma submit_frame o q w x e x' : _workqueue_submit_work o q w x = Some (e, x') ->
  pc x' = pc x /\ forall v b, works x !! v = Some b -> exists b', works x' !! v = Some b' /\ wtype b' = wtype b.
Proof.
  unfold _workqueue_submit_work. destruct (works x !! w) as [a|] eqn:Ha; [|done]. rewrite some_bind.
  destruct (has_flag _ _); [intros [= <- <-]; eauto|]. destruct (assert _); [|done]. rewrite some_bind.
  destruct (bool_decide (work_current _ = _)); [intros [= <- <-]; eauto|]. cbv zeta.
  destruct (upd_work _ _ _) as [x1|] eqn:E1; [|done]. apply upd_work_inv in E1 as (a' & Ha' & ->). rewrite some_bind.
  set (x2 := {| (set_list _ _) with works := _ |}). cbn in Ha'. rewrite Ha in Ha'. injection Ha' as <-.
  match goal with |- (?m ≫= _) = _ -> _ => destruct m as [x3|] eqn:E2; [|done] end. rewrite some_bind. intros [= _ <-].
  assert (pc x3 = pc x2 /\ works x3 = works x2) as [-> ->].
  { destruct (work_current _); [by injection E2 as <-|]. by apply wake_worker_inv in E2 as [k ->]. }
  split; [done|]. intros v b Hb. simpl. destruct (decide (v = w)) as [->|Hne].
  - rewrite lookup_insert_eq. eexists. split; [done|]. rewrite Ha in Hb. by injection Hb as <-.
  - rewrite lookup_insert_ne by done. eauto.
Qed.

(** A work that is submitted and cancelled before the sleeping thread runs again: the
    thread does not test the list once more and takes a work from an empty list. *)
Lemma cancelled_too_early o EINVAL w a x x1 e x2 : wq_ok x -> pc x = ToFetch -> work_list (wq x) = [] ->
  works x !! w = Some a -> has_flag (wtype a) RT_WORK_TYPE_DELAYED = false ->
  rt_workqueue_dowork o w x = Some (RT_EOK, x1) -> rt_workqueue_cancel_work o EINVAL w x1 = Some (e, x2) ->
  e = RT_EOK /\ worker_step o x2 = Some (at_pc Lost x2).
Proof.
  intros Hx Hpc Hl Ha Ht E1 E2. destruct (submit_frame o _ w x _ x1 E1) as [Hpc1 Hw1]. destruct (Hw1 w a Ha) as (a1 & Ha1 & Ht1).
  assert (pc x <> Lost) as Hnl by (by rewrite Hpc).
  pose proof (submit_work_follows o _ w x _ x1 Hx Hnl E1) as [Hx1 R1].
  unfold rt_workqueue_cancel_work in E2. rewrite Ha1, some_bind, Ht1, Ht in E2.
  pose proof (wo_current x1 Hx1) as Hc1. rewrite Hpc1, Hpc in Hc1.
  assert (forall y, y ∈ work_list (wq x1) -> y = w) as Hl1.
  { unfold listed in R1. cbn [replay spec_event] in R1. rewrite eqb_reflx in R1. cbn [assert] in R1. rewrite some_bind in R1.
    destruct (_ || _); [discriminate|]. cbn in R1. rewrite Hl in R1. injection R1 as R1 _ _. rewrite <- R1. set_solver. }
  destruct (cancel_work_follows w x1 e x2 Hx1 E2) as [[Hx2 R2] _]. unfold listed in R2. cbn [replay spec_event] in R2.
  rewrite eqb_reflx in R2. cbn [assert] in R2. rewrite some_bind in R2. unfold is_running in R2. cbn [running abs] in R2.
  rewrite Hc1 in R2. cbn [bool_decide] in R2. rewrite bool_decide_false in R2 by done.
  destruct (Z.eqb_spec e RT_EOK) as [->|]; [|discriminate]. split; [done|]. cbn in R2. injection R2 as R2 _ _.
  assert (work_list (wq x2) = []) as Hl2.
  { rewrite <- R2. unfold others. destruct (filter _ _) as [|y l] eqn:Ef; [done|].
    assert (y ∈ y :: l) as Hy by left. rewrite <- Ef in Hy. apply list_elem_of_filter in Hy as [Hy1 Hy2]. by apply Hl1 in Hy2. }
  assert (pc x2 = pc x1) as Hpc2.
  { unfold _workqueue_cancel_work in E2. destruct (bool_decide _); [discriminate|].
    destruct (upd_work _ _ _) as [x3|] eqn:E3; [|done]. apply upd_work_inv in E3 as (b & _ & ->). by injection E2 as <-. }
  unfold worker_step. by rewrite Hpc2, Hpc1, Hpc, Hl2.
Qed.

(** rt_workqueue_cancel_all_work leaves the works marked as pending: they can never be
    submitted again. *)
Lemma cancel_all_forever o w a x e x' : works x !! w = Some a -> pending_work a = true ->
  rt_workqueue_cancel_all_work x = Some (e, x') ->
  work_list (wq x') = [] /\ rt_workqueue_dowork o w x' = Some (- RT_EBUSY, x').
Proof.
  intros Ha Hp. unfold rt_workqueue_cancel_all_work. cbv zeta. rewrite unlink_all_nil by done.
  destruct (rt_exit_critical _) as [k|]; [|done]. rewrite some_bind. intros [= _ <-]. split; [done|].
  unfold rt_workqueue_dowork, _workqueue_submit_work.
  change (works (set_kernel k (set_list [] _))) with (works x). rewrite Ha, some_bind.
  fold (pending_work a). by rewrite Hp.
Qed.

(** A delayed work that is also submitted at once, taken by the thread before its timer fires:
    the time-out function then submits it to no queue. *)
Lemma delayed_work_without_queue o w l x x1 : pc x = ToFetch -> work_list (wq x) = w :: l ->
  worker_step o x = Some x1 -> _delayed_work_timeout_handler o w x1 = None.
Proof.
  intros Hpc Hl. unfold worker_step. rewrite Hpc, Hl. destruct (upd_work _ _ _) as [x2|] eqn:E2; [|done].
  apply upd_work_inv in E2 as (a & Ha & ->). rewrite some_bind. intros [= <-]. unfold _delayed_work_timeout_handler, drop_timer.
  destruct (rt_timer_stop _ _) as [[r1 k1]|]; [|done]. rewrite some_bind. cbn beta iota.
  destruct (rt_timer_detach _ _) as [[r2 k2]|]; [|done]. rewrite !some_bind. unfold upd_work. cbn [works set_kernel at_pc].
  rewrite lookup_insert_eq, !some_bind. cbn [works]. rewrite lookup_insert_eq, some_bind.
  set (b := set_type _ _). unfold _workqueue_submit_work. cbn [works]. rewrite lookup_insert_eq, some_bind.
  assert (has_flag (wflags b) RT_WORK_STATE_PENDING = false) as ->; [|done].
  unfold b, has_flag, clear, RT_WORK_STATE_PENDING. simpl. apply negb_false_iff, Z.eqb_eq, Z.bits_inj'. intros n Hn.
  unfold clear. rewrite Z.land_spec, !Z.ldiff_spec, Z.bits_0. by destruct (Z.testbit (wflags a) n), (Z.testbit 1 n), (Z.testbit _ n).
Qed.

Lemma timer_detach_objects x y cls k r k' : rt_timer_detach x k = Some (r, k') -> y <> x -> y ∈ object_list k cls ->
  y ∈ object_list k' cls.
Proof.
  unfold rt_timer_detach. destruct (timers k !! x) as [tm|]; [|done]. rewrite some_bind.
  destruct (is_timer tm); [|done]. cbn [assert]. rewrite some_bind. destruct (assert _); [|done]. rewrite some_bind.
  unfold upd_timer. destruct (timers _ !! x); [|done]. rewrite !some_bind. cbn [timers]. rewrite lookup_insert_eq, some_bind.
  cbn [rt_object_detach olist_remove timers]. rewrite lookup_insert_eq, !some_bind. intros [= _ <-] Hne Hy.
  cbn [object_list]. by apply list_elem_of_filter.
Qed.

(** rt_workqueue_destroy, and rt_workqueue_create when there is no memory for a thread, free the queue
    but not the semaphore inside of it, which stays in the list of all semaphores. *)
Lemma destroyed_semaphore_listed {CB : Callbacks} o q k th e k' : threads k !! work_thread q = Some th -> cleanup th = None ->
  Obj (sem_of o) ∈ object_list k RT_Object_Class_Semaphore -> rt_workqueue_destroy o q k = Some (e, k') ->
  Obj (sem_of o) ∈ object_list k' RT_Object_Class_Semaphore.
Proof.
  intros Ht Hcl Hin. unfold rt_workqueue_destroy, rt_thread_delete. rewrite Ht, some_bind.
  destruct (is_thread th); [|done]. cbn [assert]. rewrite some_bind. destruct (assert _); [|done]. rewrite some_bind.
  destruct (state_of th =? RT_THREAD_CLOSE).
  { rewrite some_bind. cbn beta iota. destruct (rt_free _ _); [|done]. rewrite some_bind. by intros [= _ <-]. }
  match goal with |- ((?m ≫= _) ≫= _) = _ -> _ => destruct m as [k1|] eqn:E1; [|done] end. rewrite some_bind.
  assert (threads k1 = threads k /\ object_list k1 = object_list k) as [Ht1 Ho1].
  { destruct (negb _); [|by injection E1 as <-]. unfold rt_schedule_remove_thread in E1. rewrite Ht, some_bind in E1.
    cbv zeta in E1. destruct (queues _ _); by injection E1 as <-. }
  unfold _thread_cleanup_execute. rewrite Ht1, Ht, some_bind, Hcl, some_bind.
  destruct (rt_timer_detach _ k1) as [[r2 k2]|] eqn:E2; [|done]. rewrite some_bind. cbn beta iota.
  apply (timer_detach_objects _ (Obj (sem_of o)) RT_Object_Class_Semaphore) in E2; [|done|by rewrite Ho1].
  unfold upd_thread. destruct (threads k2 !! _); [|done]. rewrite !some_bind. cbn beta iota.
  destruct (rt_free _ _); [|done]. rewrite some_bind. by intros [= _ <-].
Qed.

(** ** Witnesses: a queue at address 488, with the work at address 700. *)
Definition demo_world (k : kernel) : wq_world :=
  {| wq := {| work_list := []; work_current := None; wq_sem := demo_sem 0; work_thread := 1 |};
     works := {[ 700 := rt_work_init 900 0 ]}; pc := AtTest; wk := k |}.



(** Thread 1 waits for the end of the work. *)
Lemma work_completion_wakes_witness : exists k k',
  1 ∈ queues k (QSuspend 500) /\ _workqueue_work_completion 488 (demo_world k) = Some (RT_EOK, demo_world k') /\ served k' 1.
Proof.
  destruct (sem_wait_ok 500 (demo_sem 0) demo_kernel 1 demo_current (-1)) as (k & l' & _ & Hpl & Hb & Hs);
    [apply demo_sem_ok; lia|exact demo_can_block|reflexivity|reflexivity|lia|].
  destruct (bl_next _ _ _ _ _ Hb) as (c & cth & Hcu & _).
  destruct (work_completion_wakes 488 (demo_world k) c Hs eq_refl (bl_kernel _ _ _ _ _ Hb) (bl_timing _ _ _ _ _ Hb) Hcu)
    as (k' & E & _ & _ & _ & _ & Hw).
  assert (1 ∈ queues k (QSuspend 500)) as Hin.
  { rewrite (bl_queue _ _ _ _ _ Hb), (placed_permutation _ _ _ _ _ _ Hpl). left. }
  exists k, k'. split; [exact Hin|]. split; [exact E|]. exact (Hw 1 Hin).
Defined.
