(* ===== verification/Device.v ===== *)
(** * Devices (rt-thread/src/device.c)

    A device is a record of flags and counters, a driver a record of operations
    (each of which may be missing) on the device, the driver's own data [D] and
    the kernel.  [DriverLaws] is what device.c relies on; the serial driver has
    it.  Lookup by name is rt_object_find of object.c. *)
From S2P Require Import Prelude Kservice Mem Kernel Sched Timer Ipc.

Definition RT_DEVICE_FLAG_RDWR : Z := 0x003.
Definition RT_DEVICE_FLAG_STANDALONE : Z := 0x008.
Definition RT_DEVICE_FLAG_ACTIVATED : Z := 0x010.
Definition RT_DEVICE_FLAG_SUSPENDED : Z := 0x020.
Definition RT_DEVICE_FLAG_STREAM : Z := 0x040.
Definition RT_DEVICE_FLAG_INT_RX : Z := 0x100.
Definition RT_DEVICE_FLAG_DMA_RX : Z := 0x200.
Definition RT_DEVICE_FLAG_INT_TX : Z := 0x400.
Definition RT_DEVICE_FLAG_DMA_TX : Z := 0x800.
Definition RT_DEVICE_OFLAG_CLOSE : Z := 0x000.
Definition RT_DEVICE_OFLAG_RDWR : Z := 0x003.
Definition RT_DEVICE_OFLAG_OPEN : Z := 0x008.
Definition RT_DEVICE_OFLAG_MASK : Z := 0xf0f.
Definition RT_DEVICE_CTRL_RESUME : Z := 0x01.
Definition RT_DEVICE_CTRL_SUSPEND : Z := 0x02.
Definition RT_DEVICE_CTRL_CONFIG : Z := 0x03.
Definition RT_DEVICE_CTRL_SET_INT : Z := 0x10.
Definition RT_DEVICE_CTRL_CLR_INT : Z := 0x11.

(** Functions a device calls when data came or went, by their address. *)
Record rt_device := {
  dev_parent : rt_object;
  dev_type : Z;
  dev_flag : Z; open_flag : Z;        (** uint16 *)
  ref_count : Z; device_id : Z;       (** uint8 *)
  rx_indicate : option Z; tx_complete : option Z;
  user_data : Z
}.

(** Memory set to zero. *)
Definition null_device : rt_device :=
  {| dev_parent := {| name := replicate RT_NAME_MAX 0; type := 0; flag := 0 |}; dev_type := 0; dev_flag := 0; open_flag := 0;
     ref_count := 0; device_id := 0; rx_indicate := None; tx_complete := None; user_data := 0 |}.

Definition set_dev_flag (f : Z) (d : rt_device) : rt_device := {| d with dev_flag := f |}.
Definition set_open_flag (f : Z) (d : rt_device) : rt_device := {| d with open_flag := f |}.

(** The end of a write: how many bytes it moved, or the bytes still to be moved
    by the thread, which waits for the device. *)
Inductive transfer := Moved (n : Z) | Stopped (rest : list Z).

Record device_ops (D A : Type) := {
  op_init : option (rt_device -> D -> kernel -> option (Z * rt_device * D * kernel));
  op_open : option (Z -> rt_device -> D -> kernel -> option (Z * rt_device * D * kernel));
  op_close : option (rt_device -> D -> kernel -> option (Z * rt_device * D * kernel));
  op_read : option (Z -> Z -> rt_device -> D -> kernel -> option (list Z * rt_device * D * kernel));
  op_write : option (Z -> list Z -> rt_device -> D -> kernel -> option (transfer * rt_device * D * kernel));
  op_control : option (Z -> A -> rt_device -> D -> kernel -> option (Z * rt_device * D * kernel))
}.
Arguments op_init {D A}. Arguments op_open {D A}. Arguments op_close {D A}.
Arguments op_read {D A}. Arguments op_write {D A}. Arguments op_control {D A}.

Definition is_device (d : rt_device) : bool := is_class RT_Object_Class_Device (dev_parent d).

(** An open or close that the driver has done, or for which it has no code. *)
Definition succeeded (e : Z) : bool := (e =? RT_EOK) || (e =? - RT_ENOSYS).

(** ** Names (object.c) *)

(** A C string up to its NUL, and what rt_strncmp(a, b, RT_NAME_MAX) == 0 tests. *)
Fixpoint upto_nul (l : list Z) : list Z :=
  match l with [] => [] | c :: l => if c =? 0 then [] else c :: upto_nul l end.

Definition same_name (a b : list Z) : bool :=
  bool_decide (take RT_NAME_MAX (upto_nul a) = take RT_NAME_MAX (upto_nul b)).

(** The loop of rt_object_find; [get] reads the object at an address. *)
Fixpoint find_loop (get : obj -> option rt_object) (nm : list Z) (l : list obj) : option (option obj) :=
  match l with
  | [] => Some None
  | x :: l => ob ← get x; if same_name (name ob) nm then Some (Some x) else find_loop get nm l
  end.

Definition rt_object_find (get : obj -> option rt_object) (nm : list Z) (cls : Z) (k : kernel)
  : option (option obj * kernel) :=
  match rt_object_get_information cls with
  | None => Some (None, k)
  | Some _ =>
      _ ← RT_DEBUG_NOT_IN_INTERRUPT k;
      let k := rt_enter_critical k in
      r ← find_loop get nm (object_list k cls);
      k ← rt_exit_critical k;
      Some (r, k)
  end.

(** ** Registered devices

    The devices by their address; 0 is the null pointer. *)
Abbreviation devices := (gmap Z rt_device).

Definition device_object (ds : devices) (x : obj) : option rt_object :=
  match x with Obj a => dev_parent <$> ds !! a | TimerOf _ => None end.

Definition rt_device_find (nm : list Z) (ds : devices) (k : kernel) : option (option Z * kernel) :=
  '(r, k) ← rt_object_find (device_object ds) nm RT_Object_Class_Device k;
  Some (match r with Some (Obj a) => Some a | _ => None end, k).

Definition rt_device_register (o : Z) (nm : list Z) (flags : Z) (ds : devices) (k : kernel)
  : option (Z * devices * kernel) :=
  if o =? 0 then Some (- RT_ERROR, ds, k)
  else
    '(r, k) ← rt_device_find nm ds k;
    match r with
    | Some _ => Some (- RT_ERROR, ds, k)
    | None =>
        d ← ds !! o;
        '(ob, k) ← rt_object_init (Obj o) (dev_parent d) RT_Object_Class_Device nm k;
        Some (RT_EOK, <[o := {| d with dev_parent := ob; dev_flag := u16 flags; ref_count := 0; open_flag := 0 |}]> ds, k)
    end.

Definition rt_device_unregister (o : Z) (ds : devices) (k : kernel) : option (Z * devices * kernel) :=
  d ← ds !! o;
  _ ← assert (is_device d);
  _ ← assert (rt_object_is_systemobject (dev_parent d));
  let '(ob, k) := rt_object_detach (Obj o) (dev_parent d) k in
  Some (RT_EOK, <[o := {| d with dev_parent := ob |}]> ds, k).

Definition rt_device_init_all : Z := RT_EOK.

(** 64 is the size of struct rt_device. *)
Definition rt_device_create (type attach_size : Z) (ds : devices) (k : kernel) : option (option Z * devices * kernel) :=
  let size := RT_ALIGN 64 RT_ALIGN_SIZE in
  let size := u32 (size + RT_ALIGN (u32 attach_size) RT_ALIGN_SIZE) in
  '(p, h) ← rt_malloc size (kheap k);
  let k := {| k with kheap := h |} in
  match p with
  | None => Some (None, ds, k)
  | Some o => Some (Some o, <[o := {| null_device with dev_type := type |}]> ds, k)
  end.

Definition rt_device_destroy (o : Z) (ds : devices) (k : kernel) : option (devices * kernel) :=
  d ← ds !! o;
  _ ← assert (is_device d);
  _ ← assert (negb (rt_object_is_systemobject (dev_parent d)));
  let '(_, k) := rt_object_detach (Obj o) (dev_parent d) k in
  h ← rt_free (Some o) (kheap k);
  Some (delete o ds, {| k with kheap := h |}).

Definition rt_device_set_rx_indicate (f : option Z) (d : rt_device) : option (Z * rt_device) :=
  _ ← assert (is_device d); Some (RT_EOK, {| d with rx_indicate := f |}).

Definition rt_device_set_tx_complete (f : option Z) (d : rt_device) : option (Z * rt_device) :=
  _ ← assert (is_device d); Some (RT_EOK, {| d with tx_complete := f |}).

(** ** Operations on one device *)
Section Operations.
Context {D A : Type} (ops : device_ops D A).

(** The message about a failure is not modelled. *)
Definition rt_device_init (d : rt_device) (w : D) (k : kernel) : option (Z * rt_device * D * kernel) :=
  match op_init ops with
  | None => Some (RT_EOK, d, w, k)
  | Some device_init =>
      if has_flag (dev_flag d) RT_DEVICE_FLAG_ACTIVATED then Some (RT_EOK, d, w, k)
      else
        '(result, d, w, k) ← device_init d w k;
        if negb (result =? RT_EOK) then Some (result, d, w, k)
        else Some (result, set_dev_flag (Z.lor (dev_flag d) RT_DEVICE_FLAG_ACTIVATED) d, w, k)
  end.

(** The part of rt_device_open before the driver is asked: the result is not
    RT_EOK when the device cannot be initialised. *)
Definition open_init (d : rt_device) (w : D) (k : kernel) : option (Z * rt_device * D * kernel) :=
  if has_flag (dev_flag d) RT_DEVICE_FLAG_ACTIVATED then Some (RT_EOK, d, w, k)
  else
    '(result, d, w, k) ← match op_init ops with
      | None => Some (RT_EOK, d, w, k)
      | Some device_init => device_init d w k
      end;
    if negb (result =? RT_EOK) then Some (result, d, w, k)
    else Some (RT_EOK, set_dev_flag (Z.lor (dev_flag d) RT_DEVICE_FLAG_ACTIVATED) d, w, k).

(** device_open and device_close, or what is done in their place. *)
Definition driver_open (oflag : Z) (d : rt_device) (w : D) (k : kernel) : option (Z * rt_device * D * kernel) :=
  match op_open ops with
  | Some device_open => device_open oflag d w k
  | None => Some (RT_EOK, set_open_flag (Z.land oflag RT_DEVICE_OFLAG_MASK) d, w, k)
  end.

Definition driver_close (d : rt_device) (w : D) (k : kernel) : option (Z * rt_device * D * kernel) :=
  match op_close ops with
  | Some device_close => device_close d w k
  | None => Some (RT_EOK, d, w, k)
  end.

Definition rt_device_open (oflag : Z) (d : rt_device) (w : D) (k : kernel) : option (Z * rt_device * D * kernel) :=
  _ ← assert (is_device d);
  '(result, d, w, k) ← open_init d w k;
  if negb (result =? RT_EOK) then Some (result, d, w, k)
  else if has_flag (dev_flag d) RT_DEVICE_FLAG_STANDALONE && has_flag (open_flag d) RT_DEVICE_OFLAG_OPEN
  then Some (- RT_EBUSY, d, w, k)
  else
    '(result, d, w, k) ← driver_open oflag d w k;
    if succeeded result then
      let d := set_open_flag (Z.lor (open_flag d) RT_DEVICE_OFLAG_OPEN) d in
      let d := {| d with ref_count := u8 (ref_count d + 1) |} in
      _ ← assert (negb (ref_count d =? 0));
      Some (result, d, w, k)
    else Some (result, d, w, k).

Definition rt_device_close (d : rt_device) (w : D) (k : kernel) : option (Z * rt_device * D * kernel) :=
  _ ← assert (is_device d);
  if ref_count d =? 0 then Some (- RT_ERROR, d, w, k)
  else
    let d := {| d with ref_count := u8 (ref_count d - 1) |} in
    if negb (ref_count d =? 0) then Some (RT_EOK, d, w, k)
    else
      '(result, d, w, k) ← driver_close d w k;
      Some (result, if succeeded result then set_open_flag RT_DEVICE_OFLAG_CLOSE d else d, w, k).

Definition rt_device_read (pos size : Z) (d : rt_device) (w : D) (k : kernel)
  : option (list Z * rt_device * D * kernel) :=
  _ ← assert (is_device d);
  if ref_count d =? 0 then k ← rt_set_errno (- RT_ERROR) k; Some ([], d, w, k)
  else match op_read ops with
       | Some device_read => device_read pos size d w k
       | None => k ← rt_set_errno (- RT_ENOSYS) k; Some ([], d, w, k)
       end.

Definition rt_device_write (pos : Z) (buffer : list Z) (d : rt_device) (w : D) (k : kernel)
  : option (transfer * rt_device * D * kernel) :=
  _ ← assert (is_device d);
  if ref_count d =? 0 then k ← rt_set_errno (- RT_ERROR) k; Some (Moved 0, d, w, k)
  else match op_write ops with
       | Some device_write => device_write pos buffer d w k
       | None => k ← rt_set_errno (- RT_ENOSYS) k; Some (Moved 0, d, w, k)
       end.

Definition rt_device_control (cmd : Z) (arg : A) (d : rt_device) (w : D) (k : kernel)
  : option (Z * rt_device * D * kernel) :=
  _ ← assert (is_device d);
  match op_control ops with
  | Some device_control => device_control cmd arg d w k
  | None => Some (- RT_ENOSYS, d, w, k)
  end.
End Operations.

(** ** What device.c relies on

    A driver leaves the reference count, the object and the STANDALONE flag
    alone, and the OPEN flag too unless it opens or closes the device.  An
    initialisation does not return -RT_ENOSYS, which a caller of rt_device_open
    could not tell from an open without driver code. *)
Definition standalone (d : rt_device) : bool := has_flag (dev_flag d) RT_DEVICE_FLAG_STANDALONE.
Definition opened (d : rt_device) : bool := has_flag (open_flag d) RT_DEVICE_OFLAG_OPEN.

Record keeps_device (d d' : rt_device) : Prop := {
  kd_parent : dev_parent d' = dev_parent d;
  kd_count : ref_count d' = ref_count d;
  kd_standalone : standalone d' = standalone d
}.

#[global] Instance keeps_device_refl : Reflexive keeps_device.
Proof. by split. Qed.

#[global] Instance keeps_device_trans : Transitive keeps_device.
Proof. intros d1 d2 d3 [A1 A2 A3] [B1 B2 B3]. split; congruence. Qed.

Class DriverLaws {D A : Type} (ops : device_ops D A) : Prop := {
  law_init f d w k e d' w' k' : op_init ops = Some f -> f d w k = Some (e, d', w', k') ->
    keeps_device d d' /\ opened d' = opened d /\ e <> - RT_ENOSYS;
  law_open f oflag d w k e d' w' k' : op_open ops = Some f -> f oflag d w k = Some (e, d', w', k') ->
    keeps_device d d' /\ (succeeded e = false -> opened d' = opened d);
  law_close f d w k e d' w' k' : op_close ops = Some f -> f d w k = Some (e, d', w', k') -> keeps_device d d';
  law_read f pos size d w k l d' w' k' : op_read ops = Some f -> f pos size d w k = Some (l, d', w', k') ->
    keeps_device d d' /\ opened d' = opened d;
  law_write f pos buf d w k n d' w' k' : op_write ops = Some f -> f pos buf d w k = Some (n, d', w', k') ->
    keeps_device d d' /\ opened d' = opened d;
  law_control f cmd arg d w k e d' w' k' : op_control ops = Some f -> f cmd arg d w k = Some (e, d', w', k') ->
    keeps_device d d' /\ opened d' = opened d
}.

(** The device is well formed: a referenced one is open, and a stand-alone one
    has one reference at most. *)
Record device_ok (d : rt_device) : Prop := {
  do_class : is_device d = true;
  do_count : 0 <= ref_count d < 256;
  do_opened : 0 < ref_count d -> opened d = true;
  do_standalone : standalone d = true -> ref_count d <= 1
}.

(** The flags are those of rtdef.h: setting and testing them. *)
Lemma has_flag_set f m : 0 <= m -> has_flag (Z.lor f m) m = negb (m =? 0).
Proof.
  intros Hm. unfold has_flag. rewrite Z.land_lor_distr_l, Z.land_diag.
  destruct (Z.eqb_spec m 0) as [->|Hz]; [by rewrite Z.lor_0_r, Z.land_0_r|].
  rewrite (proj2 (Z.eqb_neq _ _)); [done|]. intros H. by apply Z.lor_eq_0_iff in H as [_ H].
Qed.

Lemma has_flag_lor_ne f m n : Z.land n m = 0 -> has_flag (Z.lor f n) m = has_flag f m.
Proof. intros H. unfold has_flag. by rewrite Z.land_lor_distr_l, H, Z.lor_0_r. Qed.

Lemma has_flag_clear_ne f m n : Z.land n m = 0 -> has_flag (clear f n) m = has_flag f m.
Proof.
  intros H. unfold has_flag, clear. do 2 f_equal. apply Z.bits_inj'. intros i Hi.
  rewrite !Z.land_spec, Z.ldiff_spec. assert (Z.testbit n i && Z.testbit m i = false) as Hb
    by (rewrite <- Z.land_spec, H; apply Z.bits_0).
  destruct (Z.testbit f i), (Z.testbit n i), (Z.testbit m i); simpl in *; congruence.
Qed.

Lemma opened_set d : opened (set_open_flag (Z.lor (open_flag d) RT_DEVICE_OFLAG_OPEN) d) = true.
Proof. unfold opened. simpl. by apply has_flag_set. Qed.

(** ** Each operation *)
Section Laws.
Context {D A : Type} (ops : device_ops D A) `{!DriverLaws ops}.

Lemma keeps_device_ok d d' : device_ok d -> keeps_device d d' -> opened d' = opened d -> device_ok d'.
Proof.
  intros [H1 H2 H3 H4] [K1 K2 K3] Ho. split; rewrite ?K2, ?K3, ?Ho; try done. unfold is_device. by rewrite K1.
Qed.

Lemma activate_keeps d : keeps_device d (set_dev_flag (Z.lor (dev_flag d) RT_DEVICE_FLAG_ACTIVATED) d).
Proof. split; try done. unfold standalone. simpl. by apply has_flag_lor_ne. Qed.

Lemma init_keeps d w k e d' w' k' : rt_device_init ops d w k = Some (e, d', w', k') ->
  keeps_device d d' /\ opened d' = opened d.
Proof.
  unfold rt_device_init. destruct (op_init ops) as [f|] eqn:Ef; [|by intros [= <- <- <- <-]].
  destruct (has_flag _ _); [by intros [= <- <- <- <-]|].
  destruct (f d w k) as [[[[e1 d1] w1] k1]|] eqn:E; [|done]. cbn.
  destruct (law_init _ _ _ _ _ _ _ _ Ef E) as (K & O & _).
  destruct (negb _); intros [= <- <- <- <-]; [done|]. split; [|done].
  etrans; [exact K|]. apply activate_keeps.
Qed.

Lemma open_init_keeps d w k e d' w' k' : open_init ops d w k = Some (e, d', w', k') ->
  keeps_device d d' /\ opened d' = opened d /\ (e = RT_EOK \/ succeeded e = false).
Proof.
  unfold open_init. destruct (has_flag _ _); [intros [= <- <- <- <-]; split; [done|auto]|].
  destruct (op_init ops) as [f|] eqn:Ef.
  - destruct (f d w k) as [[[[e1 d1] w1] k1]|] eqn:E; [|done]. cbn.
    destruct (law_init _ _ _ _ _ _ _ _ Ef E) as (K & O & Hn).
    destruct (Z.eqb_spec e1 RT_EOK) as [_|He]; intros [= <- <- <- <-].
    + split; [|auto]. etrans; [exact K|]. apply activate_keeps.
    + split; [done|]. split; [done|]. right. unfold succeeded. rewrite !(proj2 (Z.eqb_neq _ _)) by done. done.
  - cbn. intros [= <- <- <- <-]. split; [apply activate_keeps|auto].
Qed.

Lemma driver_open_law oflag d w k e d' w' k' : driver_open ops oflag d w k = Some (e, d', w', k') ->
  keeps_device d d' /\ (succeeded e = false -> opened d' = opened d).
Proof.
  unfold driver_open. destruct (op_open ops) as [f|] eqn:Ef; [by eapply law_open|]. by intros [= <- <- <- <-].
Qed.

Lemma driver_close_law d w k e d' w' k' : driver_close ops d w k = Some (e, d', w', k') -> keeps_device d d'.
Proof.
  unfold driver_close. destruct (op_close ops) as [f|] eqn:Ef; [by eapply law_close|]. by intros [= <- <- <- <-].
Qed.

(** A successful open is one reference more; any other leaves the count and the
    OPEN flag as they are. *)
Lemma open_counts oflag d w k e d' w' k' : device_ok d -> rt_device_open ops oflag d w k = Some (e, d', w', k') ->
  device_ok d' /\ ref_count d' = ref_count d + (if succeeded e then 1 else 0) /\
  (succeeded e = false -> opened d' = opened d) /\ standalone d' = standalone d.
Proof.
  intros Hd. unfold rt_device_open. rewrite (do_class _ Hd). cbn [assert]. rewrite some_bind.
  destruct (open_init ops d w k) as [[[[e1 d1] w1] k1]|] eqn:E1; [|done]. rewrite some_bind.
  apply open_init_keeps in E1 as (K1 & O1 & Hs1). pose proof (keeps_device_ok d d1 Hd K1 O1) as Hd1. pose proof K1 as [_ C1 S1].
  destruct (Z.eqb_spec e1 RT_EOK) as [_|Hne]; cbn [negb].
  2:{ intros [= <- <- <- <-]. destruct Hs1 as [|Hs1]; [done|]. rewrite Hs1, C1. split_and!; try done; lia. }
  fold (standalone d1) (opened d1). destruct (standalone d1 && opened d1) eqn:Eb.
  { intros [= <- <- <- <-]. rewrite C1. split_and!; try done. simpl. lia. }
  destruct (driver_open ops oflag d1 w1 k1) as [[[[e2 d2] w2] k2]|] eqn:E2; [|done]. apply driver_open_law in E2 as [K2 O2].
  rewrite some_bind. cbv zeta. pose proof K2 as [P2 C2 S2]. destruct (succeeded e2) eqn:Es.
  - cbn [ref_count set_open_flag]. destruct (Z.eqb_spec (u8 (ref_count d2 + 1)) 0) as [|Hnz]; [done|].
    cbn [negb assert]. rewrite some_bind. intros [= <- <- <- <-]. rewrite Es. pose proof (do_count _ Hd) as Hc.
    assert (u8 (ref_count d2 + 1) = ref_count d + 1) as Hu.
    { rewrite C2, C1 in *. destruct (Z.eq_dec (ref_count d) 255) as [H255|]; [by rewrite H255 in Hnz|]. apply wrap_id. unfold fits. lia. }
    split; [|split; [simpl; congruence|split; [done|unfold standalone in *; simpl; congruence]]].
    split; simpl; rewrite ?Hu.
    + unfold is_device. simpl. rewrite P2. apply (do_class _ Hd1).
    + rewrite <- Hu. apply wrap_bound. lia.
    + intros _. apply opened_set.
    + intros Hst. assert (standalone d1 = true) as Hst1 by (rewrite <- S2; exact Hst). rewrite Hst1 in Eb. simpl in Eb.
      destruct (Z.eq_dec (ref_count d) 0); [lia|]. rewrite (do_opened _ Hd1) in Eb; [done|]. rewrite C1. lia.
  - intros [= <- <- <- <-]. rewrite Es, C2, C1. specialize (O2 eq_refl). split_and!; try done; try congruence; [|lia].
    by apply (keeps_device_ok d1).
Qed.

(** A close gives up a reference, if there is one; the last one closes the
    driver, and the OPEN flag goes if that succeeds. *)
Lemma close_counts d w k e d' w' k' : device_ok d -> rt_device_close ops d w k = Some (e, d', w', k') ->
  device_ok d' /\ ref_count d' = ref_count d - (if ref_count d =? 0 then 0 else 1) /\
  (ref_count d = 0 -> d' = d /\ e = - RT_ERROR) /\
  (ref_count d = 1 -> succeeded e = true -> opened d' = false) /\ standalone d' = standalone d.
Proof.
  intros Hd. unfold rt_device_close. rewrite (do_class _ Hd). cbn [assert]. rewrite some_bind.
  pose proof (do_count _ Hd) as Hc. destruct (Z.eqb_spec (ref_count d) 0) as [Hz|Hz].
  { intros [= <- <- <- <-]. split_and!; try done; lia. }
  set (d1 := {| d with ref_count := u8 (ref_count d - 1) |}). cbv zeta.
  assert (ref_count d1 = ref_count d - 1) as C1 by (simpl; apply wrap_id; unfold fits; lia).
  assert (device_ok d1) as Hd1.
  { destruct Hd as [H1 H2 H3 H4]. split; rewrite ?C1; try done; [lia|intros _; apply H3; lia|].
    intros Hs. specialize (H4 Hs). lia. }
  destruct (Z.eqb_spec (ref_count d1) 0) as [Hz1|Hz1]; cbn [negb].
  2:{ intros [= <- <- <- <-]. split_and!; try done; lia. }
  destruct (driver_close ops d1 w k) as [[[[e2 d2] w2] k2]|] eqn:E2; [|done]. rewrite some_bind.
  apply driver_close_law in E2. pose proof E2 as [P2 C2 S2]. intros [= <- <- <- <-].
  assert (forall dx, keeps_device d2 dx -> device_ok dx) as Hdx.
  { intros dx [Px Cx Sx]. split.
    - unfold is_device. rewrite Px, P2. apply (do_class _ Hd).
    - rewrite Cx, C2. lia.
    - intros. rewrite Cx, C2 in *. lia.
    - rewrite Cx, C2. lia. }
  destruct (succeeded e2); (split; [apply Hdx; done|]); (split; [simpl; lia|]); (split; [lia|]); by split.
Qed.

(** ** Any sequence of calls *)
Inductive dev_call :=
| Init | Open (oflag : Z) | Close | Read (pos size : Z) | Write (pos : Z) (buffer : list Z) | Control (cmd : Z) (arg : A).

(** The error code a call returns; reads and writes return a size. *)
Definition dev_do (c : dev_call) (d : rt_device) (w : D) (k : kernel) : option (Z * rt_device * D * kernel) :=
  match c with
  | Init => rt_device_init ops d w k
  | Open oflag => rt_device_open ops oflag d w k
  | Close => rt_device_close ops d w k
  | Read pos size => '(l, d, w, k) ← rt_device_read ops pos size d w k; Some (lenZ l, d, w, k)
  | Write pos buffer => '(_, d, w, k) ← rt_device_write ops pos buffer d w k; Some (0, d, w, k)
  | Control cmd arg => rt_device_control ops cmd arg d w k
  end.

(** The opens that succeeded, the closes that gave up a reference, and those of
    the driver that failed. *)
Record users := { opens : Z; closes : Z; refused : Z }.

Definition counted (c : dev_call) (e : Z) (d : rt_device) (u : users) : users :=
  match c with
  | Open _ => if succeeded e then {| u with opens := opens u + 1 |} else u
  | Close =>
      if ref_count d =? 0 then u
      else {| u with closes := closes u + 1; refused := refused u + (if succeeded e then 0 else 1) |}
  | _ => u
  end.

Inductive dev_reach (x0 : rt_device * D * kernel) : users -> rt_device * D * kernel -> Prop :=
| dev_start : dev_reach x0 {| opens := 0; closes := 0; refused := 0 |} x0
| dev_next u c d w k e d' w' k' :
    dev_reach x0 u (d, w, k) -> dev_do c d w k = Some (e, d', w', k') ->
    dev_reach x0 (counted c e d u) (d', w', k')
| dev_kernel u d w k k' : dev_reach x0 u (d, w, k) -> dev_reach x0 u (d, w, k').

(** The calls other than opens and closes. *)
Lemma call_keeps c d w k e d' w' k' : device_ok d -> dev_do c d w k = Some (e, d', w', k') ->
  match c with Open _ | Close => True | _ => keeps_device d d' /\ opened d' = opened d end.
Proof.
  intros Hd. destruct c as [|oflag| |pos size|pos buf|cmd arg]; cbn [dev_do]; [apply init_keeps|done|done|..].
  - unfold rt_device_read. rewrite (do_class _ Hd). cbn [assert]. rewrite some_bind.
    destruct (ref_count d =? 0); [destruct (rt_set_errno _ k); [|done]; cbn; by intros [= <- <- <- <-]|].
    destruct (op_read ops) as [f|] eqn:Ef; [|destruct (rt_set_errno _ k); [|done]; cbn; by intros [= <- <- <- <-]].
    destruct (f pos size d w k) as [[[[l d1] w1] k1]|] eqn:E; [|done]. cbn. intros [= <- <- <- <-]. by eapply law_read.
  - unfold rt_device_write. rewrite (do_class _ Hd). cbn [assert]. rewrite some_bind.
    destruct (ref_count d =? 0); [destruct (rt_set_errno _ k); [|done]; cbn; by intros [= <- <- <- <-]|].
    destruct (op_write ops) as [f|] eqn:Ef; [|destruct (rt_set_errno _ k); [|done]; cbn; by intros [= <- <- <- <-]].
    destruct (f pos buf d w k) as [[[[l d1] w1] k1]|] eqn:E; [|done]. cbn. intros [= <- <- <- <-]. by eapply law_write.
  - unfold rt_device_control. rewrite (do_class _ Hd). cbn [assert]. rewrite some_bind.
    destruct (op_control ops) as [f|] eqn:Ef; [|by intros [= <- <- <- <-]]. by eapply law_control.
Qed.

(** The references a sequence of calls leaves, and the OPEN flag. *)
Definition references (d0 : rt_device) (u : users) (d : rt_device) : Prop :=
  device_ok d /\ ref_count d = ref_count d0 + opens u - closes u /\ standalone d = standalone d0 /\ 0 <= refused u /\
  (refused u = 0 -> (ref_count d0 = 0 -> opened d0 = false) -> ref_count d = 0 -> opened d = false).

Lemma counted_ok d0 u c d w k e d' w' k' : references d0 u d -> dev_do c d w k = Some (e, d', w', k') ->
  references d0 (counted c e d u) d'.
Proof.
  intros (Hd & Hc & Hs & Hr & Ho) E. pose proof (call_keeps c d w k e d' w' k' Hd E) as Hk. pose proof (do_count _ Hd) as Hb.
  destruct c as [|oflag| |pos size|pos buf|cmd arg]; cbn [dev_do counted] in *.
  2:{ apply open_counts in E as (Hd' & Hc' & Ho' & Hs'); [|done].
      destruct (succeeded e); (split; [done|]); (split; [simpl; lia|]); (split; [congruence|]); (split; [done|]); simpl.
      - intros. lia.
      - intros H1 H2 H3. rewrite Ho' by done. apply Ho; try done. lia. }
  2:{ apply close_counts in E as (Hd' & Hc' & H0 & H1 & Hs'); [|done].
      destruct (Z.eqb_spec (ref_count d) 0) as [Hz|Hz].
      - destruct (H0 Hz) as [-> _]. by split_and!.
      - split; [done|]. split; [simpl; lia|]. split; [congruence|].
        destruct (succeeded e) eqn:Es; simpl; (split; [lia|]); [|lia]. intros _ _ Hz'. apply H1; [lia|done]. }
  all: destruct Hk as [[K1 K2 K3] K4]; (split; [by apply (keeps_device_ok d)|]); rewrite K2, K3; (split; [done|]);
    (split; [done|]); (split; [done|]); intros; rewrite K4; auto.
Qed.
End Laws.

(** What [same_name] decides is what rt_strncmp returns on the two strings. *)
Lemma same_name_rt_strncmp m cs ct t u a b : mem_ok m -> cstr m cs t -> cstr m ct u ->
  take RT_NAME_MAX t = take RT_NAME_MAX (upto_nul a) -> take RT_NAME_MAX u = take RT_NAME_MAX (upto_nul b) ->
  (rt_strncmp m cs ct (Z.of_nat RT_NAME_MAX) =? 0) = same_name a b.
Proof.
  intros Hm Ht Hu Ha Hb. unfold same_name, rt_strncmp. rewrite Nat2Z.id.
  pose proof (strncmp_loop_zero m RT_NAME_MAX Hm t u cs ct Ht Hu) as H. rewrite Ha, Hb in H.
  destruct (Z.eqb_spec (strncmp_loop RT_NAME_MAX m cs ct) 0) as [E|E]; symmetry.
  - apply bool_decide_eq_true_2. tauto.
  - apply bool_decide_eq_false_2. tauto.
Qed.

(** rt_device_find returns the first registered device of that name. *)
Lemma find_loop_first get nm l : (forall x, x ∈ l -> is_Some (get x)) ->
  exists r, find_loop get nm l = Some r /\
    match r with
    | Some x => exists l1 l2 ob, l = l1 ++ x :: l2 /\ get x = Some ob /\ same_name (name ob) nm = true /\
        (forall y oby, y ∈ l1 -> get y = Some oby -> same_name (name oby) nm = false)
    | None => forall y oby, y ∈ l -> get y = Some oby -> same_name (name oby) nm = false
    end.
Proof.
  induction l as [|x l IH]; intros Hl; cbn [find_loop].
  { exists None. split; [done|]. intros y oby Hy. by apply not_elem_of_nil in Hy. }
  destruct (Hl x) as [ob Hx]; [left|]. rewrite Hx, some_bind. destruct (same_name (name ob) nm) eqn:E.
  - exists (Some x). split; [done|]. exists [], l, ob. split_and!; try done. intros y oby Hy. by apply not_elem_of_nil in Hy.
  - destruct IH as (r & -> & Hr); [intros y Hy; apply Hl; by right|]. exists r. split; [done|]. destruct r as [z|].
    + destruct Hr as (l1 & l2 & obz & -> & Hz & Hs & Hn). exists (x :: l1), l2, obz. split_and!; try done.
      intros y oby Hy Hgy. apply elem_of_cons in Hy as [->|Hy]; [congruence|]. by eapply Hn.
    + intros y oby Hy Hgy. apply elem_of_cons in Hy as [->|Hy]; [congruence|]. by eapply Hr.
Qed.

(** ** Properties *)

(** A stand-alone device whose driver fails to close has no user, but stays
    marked open: it can neither be opened nor closed again. *)
Lemma failed_close_locks {D A} (ops : device_ops D A) `{!DriverLaws ops} d w k e d' w' k' :
  device_ok d -> standalone d = true -> ref_count d = 1 -> has_flag (dev_flag d') RT_DEVICE_FLAG_ACTIVATED = true ->
  rt_device_close ops d w k = Some (e, d', w', k') -> succeeded e = false -> opened d' = true ->
  ref_count d' = 0 /\
  (forall oflag, rt_device_open ops oflag d' w' k' = Some (- RT_EBUSY, d', w', k')) /\
  rt_device_close ops d' w' k' = Some (- RT_ERROR, d', w', k').
Proof.
  intros Hd Hs H1 Ha E He Ho. destruct (close_counts ops d w k e d' w' k' Hd E) as (Hd' & Hc & _ & _ & Hs').
  rewrite H1 in Hc. simpl in Hc. split; [done|]. split.
  - intros oflag. unfold rt_device_open, open_init. rewrite (do_class _ Hd'). cbn [assert]. rewrite some_bind, Ha, some_bind.
    cbn [Z.eqb RT_EOK negb]. fold (standalone d') (opened d'). by rewrite Hs', Hs, Ho.
  - unfold rt_device_close. rewrite (do_class _ Hd'). cbn [assert]. rewrite some_bind, Hc. done.
Qed.

(** C21: whatever calls are made on a device, with a driver that keeps the laws,
    it has as many references as opens succeeded less the closes that gave one
    up, never more than 255; it is marked open as long as there is a reference
    and, when no close of the driver failed, no longer; and a stand-alone device
    never has two. *)
Theorem device_references {D A} (ops : device_ops D A) `{!DriverLaws ops} d0 w0 k0 u d w k :
  device_ok d0 -> (ref_count d0 = 0 -> opened d0 = false) -> dev_reach ops (d0, w0, k0) u (d, w, k) ->
  ref_count d = ref_count d0 + opens u - closes u /\ 0 <= ref_count d < 256 /\
  (0 < ref_count d -> opened d = true) /\ (refused u = 0 -> ref_count d = 0 -> opened d = false) /\
  (standalone d0 = true -> ref_count d <= 1).
Proof.
  intros H0 Ho0 Hr. assert (forall x, dev_reach ops (d0, w0, k0) u x -> references d0 u (fst (fst x))) as Hall.
  { clear Hr. intros x Hr. induction Hr as [|u c d1 w1 k1 e d2 w2 k2 _ IH E|u d1 w1 k1 k2 _ IH]; [|by eapply counted_ok|done].
    split; [done|]. split; [simpl; lia|]. split; [done|]. split; [done|]. auto. }
  destruct (Hall _ Hr) as (Hd & Hc & Hs & _ & Ho). simpl in *. destruct Hd as [_ H2 H3 H4].
  split; [done|]. split; [done|]. split; [done|]. split; [auto|]. rewrite <- Hs. done.
Qed.

(** A driver that counts how often it was opened, and a registered device. *)
Definition demo_driver : device_ops Z unit :=
  {| op_init := None; op_open := Some (fun oflag d w k => Some (RT_EOK, set_open_flag oflag d, w + 1, k));
     op_close := Some (fun d w k => Some (RT_EOK, d, w, k)); op_read := None; op_write := None; op_control := None |}.

#[global] Instance demo_driver_laws : DriverLaws demo_driver.
Proof. split; try done; intros f; [intros oflag|]; intros d w k e d' w' k' [= <-] [= <- <- <- <-]; [by split|done]. Qed.

Definition demo_device : rt_device :=
  {| null_device with dev_parent := {| name := object_name (bytes "uart1"); type := Z.lor RT_Object_Class_Device RT_Object_Class_Static; flag := 0 |};
                      dev_flag := RT_DEVICE_FLAG_RDWR |}.

Lemma device_references_witness : exists u d w,
  dev_reach demo_driver (demo_device, 0, demo_kernel) u (d, w, demo_kernel) /\
  opens u = 2 /\ closes u = 1 /\ w = 2 /\ ref_count d = 1.
Proof.
  pose proof (dev_start demo_driver (demo_device, 0, demo_kernel)) as R0.
  pose proof (dev_next demo_driver _ _ (Open RT_DEVICE_OFLAG_RDWR) _ _ _ _ _ _ _ R0 eq_refl) as R1.
  pose proof (dev_next demo_driver _ _ (Open RT_DEVICE_OFLAG_RDWR) _ _ _ _ _ _ _ R1 eq_refl) as R2.
  pose proof (dev_next demo_driver _ _ Close _ _ _ _ _ _ _ R2 eq_refl) as R3.
  destruct (device_references demo_driver demo_device 0 demo_kernel _ _ _ _
    ltac:(split; [reflexivity|vm_compute; split; [discriminate|reflexivity]|done|done]) ltac:(reflexivity) R3) as (Hc & _).
  eexists _, _, _. split; [exact R3|]. split; [reflexivity|]. split; [reflexivity|]. split; [reflexivity|exact Hc].
Defined.
