(* ===== verification/Pin.v ===== *)
(** * The pin device (drivers/drv_gpio.c, rt-thread/components/drivers/misc/pin.c)

    Pins by number: their modes and levels, and the functions that their interrupts call.  drv_gpio.c is the
    driver over the registers of [Gpio], pin.c passes calls on to the driver that was registered.  The functions that
    were attached are a parameter ([run_hdr]).  The part of drv_gpio.c for STM32F0, L0 and G0 is not compiled. *)
From S2P Require Import Prelude Gpio Kernel Sched Device.

Definition PIN_MODE_OUTPUT : Z := 0x00.
Definition PIN_MODE_INPUT : Z := 0x01.
Definition PIN_MODE_INPUT_PULLUP : Z := 0x02.
Definition PIN_MODE_INPUT_PULLDOWN : Z := 0x03.
Definition PIN_MODE_OUTPUT_OD : Z := 0x04.

Definition PIN_IRQ_MODE_RISING : Z := 0x00.
Definition PIN_IRQ_MODE_FALLING : Z := 0x01.
Definition PIN_IRQ_MODE_RISING_FALLING : Z := 0x02.
Definition PIN_IRQ_MODE_HIGH_LEVEL : Z := 0x03.
Definition PIN_IRQ_MODE_LOW_LEVEL : Z := 0x04.

Definition PIN_IRQ_DISABLE : Z := 0x00.
Definition PIN_IRQ_ENABLE : Z := 0x01.
Definition PIN_IRQ_PIN_NONE : Z := -1.

(** GET_PIN(PORTx, PIN) for the port of index [x] (drv_common.h): the ports' addresses are 0x400 apart. *)
Definition GET_PIN (x n : Z) : Z := 16 * (x * 0x400 / 0x400) + n.

(** ** Tables *)
Record pin_index := { index : Z; pin_port : Z; pin_bit : Z }.

(** Row [i] is pin [i mod 16] of port [i / 16]: the device has the ports A to E. *)
Definition pins_table : list pin_index :=
  map (fun i => {| index := i; pin_port := i / 16; pin_bit := 2 ^ (i mod 16) |}) (seqZ 0 80).

Record pin_irq_map_t := { pinbit : Z; irqno : Z }.

Definition EXTI0_IRQn : Z := 6.
Definition EXTI1_IRQn : Z := 7.
Definition EXTI2_IRQn : Z := 8.
Definition EXTI3_IRQn : Z := 9.
Definition EXTI4_IRQn : Z := 10.
Definition EXTI9_5_IRQn : Z := 23.
Definition EXTI15_10_IRQn : Z := 40.

Definition pin_irq_map : list pin_irq_map_t :=
  [ {| pinbit := 0x0001; irqno := EXTI0_IRQn |}; {| pinbit := 0x0002; irqno := EXTI1_IRQn |};
    {| pinbit := 0x0004; irqno := EXTI2_IRQn |}; {| pinbit := 0x0008; irqno := EXTI3_IRQn |};
    {| pinbit := 0x0010; irqno := EXTI4_IRQn |}; {| pinbit := 0x0020; irqno := EXTI9_5_IRQn |};
    {| pinbit := 0x0040; irqno := EXTI9_5_IRQn |}; {| pinbit := 0x0080; irqno := EXTI9_5_IRQn |};
    {| pinbit := 0x0100; irqno := EXTI9_5_IRQn |}; {| pinbit := 0x0200; irqno := EXTI9_5_IRQn |};
    {| pinbit := 0x0400; irqno := EXTI15_10_IRQn |}; {| pinbit := 0x0800; irqno := EXTI15_10_IRQn |};
    {| pinbit := 0x1000; irqno := EXTI15_10_IRQn |}; {| pinbit := 0x2000; irqno := EXTI15_10_IRQn |};
    {| pinbit := 0x4000; irqno := EXTI15_10_IRQn |}; {| pinbit := 0x8000; irqno := EXTI15_10_IRQn |} ].

Record rt_pin_irq_hdr := { hdr_pin : Z (** int16 *); hdr_mode : Z (** uint16 *); hdr_fn : option Z; hdr_args : Z }.

Definition no_hdr : rt_pin_irq_hdr := {| hdr_pin := -1; hdr_mode := 0; hdr_fn := None; hdr_args := 0 |}.

(** The registers and the static variables of drv_gpio.c. *)
Record pin_driver := {
  regs : gpio;
  pin_irq_hdr_tab : list rt_pin_irq_hdr;
  pin_irq_enable_mask : Z
}.

Definition set_regs (g : gpio) (d : pin_driver) : pin_driver := {| d with regs := g |}.
Definition set_hdr (n : Z) (h : rt_pin_irq_hdr) (d : pin_driver) : pin_driver :=
  {| d with pin_irq_hdr_tab := updZ (pin_irq_hdr_tab d) n h |}.

(** ** drv_gpio.c *)
Definition get_pin (pin : Z) : option pin_index :=
  let pin := u8 pin in
  if pin <? lenZ pins_table then
    i ← pins_table !! Z.to_nat pin;
    if index i =? -1 then None else Some i
  else None.

Fixpoint bit2bitno_loop (n : nat) (i b : Z) : Z :=
  match n with
  | O => -1
  | S n => if u32 (Z.shiftl 1 i) =? b then i else bit2bitno_loop n (i + 1) b
  end.
Definition bit2bitno (b : Z) : Z := bit2bitno_loop 32 0 b.

Definition get_pin_irq_map (b : Z) : option pin_irq_map_t :=
  let mapindex := bit2bitno b in
  if (mapindex <? 0) || (lenZ pin_irq_map <=? mapindex) then None else pin_irq_map !! Z.to_nat mapindex.

(** The row of a pin and its line, or the error that the functions on interrupts return. *)
Definition pin_line (pin : Z) : option (pin_index * Z) :=
  match get_pin pin with
  | None => None
  | Some i =>
      let irqindex := bit2bitno (pin_bit i) in
      if (irqindex <? 0) || (lenZ pin_irq_map <=? irqindex) then None else Some (i, irqindex)
  end.

Section Driver.
Context {H : Hardware}.

Definition stm32_pin_write (pin value : Z) (d : pin_driver) : option pin_driver :=
  match get_pin pin with
  | None => Some d
  | Some i => g ← HAL_GPIO_WritePin (pin_port i) (pin_bit i) value (regs d); Some (set_regs g d)
  end.

Definition stm32_pin_read (pin : Z) (d : pin_driver) : option Z :=
  match get_pin pin with
  | None => Some PIN_LOW
  | Some i => HAL_GPIO_ReadPin (pin_port i) (pin_bit i) (regs d)
  end.

Definition mode_init (pin : Z) (mode : Z) : GPIO_InitTypeDef :=
  let init m p := {| Pin := pin; Mode := m; Pull := p; Speed := GPIO_SPEED_FREQ_HIGH |} in
  if mode =? PIN_MODE_OUTPUT then init GPIO_MODE_OUTPUT_PP GPIO_NOPULL
  else if mode =? PIN_MODE_INPUT then init GPIO_MODE_INPUT GPIO_NOPULL
  else if mode =? PIN_MODE_INPUT_PULLUP then init GPIO_MODE_INPUT GPIO_PULLUP
  else if mode =? PIN_MODE_INPUT_PULLDOWN then init GPIO_MODE_INPUT GPIO_PULLDOWN
  else if mode =? PIN_MODE_OUTPUT_OD then init GPIO_MODE_OUTPUT_OD GPIO_NOPULL
  else init GPIO_MODE_OUTPUT_PP GPIO_NOPULL.

Definition stm32_pin_mode (pin mode : Z) (d : pin_driver) : option pin_driver :=
  match get_pin pin with
  | None => Some d
  | Some i => g ← HAL_GPIO_Init (pin_port i) (mode_init (pin_bit i) mode) (regs d); Some (set_regs g d)
  end.

Definition stm32_pin_attach_irq (pin mode : Z) (hdr : option Z) (args : Z) (d : pin_driver) : option (Z * pin_driver) :=
  match pin_line pin with
  | None => Some (RT_ENOSYS, d)
  | Some (_, n) =>
      h ← pin_irq_hdr_tab d !! Z.to_nat n;
      if (hdr_pin h =? pin) && bool_decide (hdr_fn h = hdr) && (hdr_mode h =? mode) && (hdr_args h =? args)
      then Some (RT_EOK, d)
      else if negb (hdr_pin h =? -1) then Some (RT_EBUSY, d)
      else Some (RT_EOK, set_hdr n {| hdr_pin := i16 pin; hdr_mode := u16 mode; hdr_fn := hdr; hdr_args := args |} d)
  end.

Definition stm32_pin_dettach_irq (pin : Z) (d : pin_driver) : option (Z * pin_driver) :=
  match pin_line pin with
  | None => Some (RT_ENOSYS, d)
  | Some (_, n) =>
      h ← pin_irq_hdr_tab d !! Z.to_nat n;
      if hdr_pin h =? -1 then Some (RT_EOK, d) else Some (RT_EOK, set_hdr n no_hdr d)
  end.

(** The switch over the mode; in another mode the structure is not initialised and what is done with it is
    not defined. *)
Definition irq_init (pin mode : Z) : option GPIO_InitTypeDef :=
  let init m p := Some {| Pin := pin; Mode := m; Pull := p; Speed := GPIO_SPEED_FREQ_HIGH |} in
  if mode =? PIN_IRQ_MODE_RISING then init GPIO_MODE_IT_RISING GPIO_PULLDOWN
  else if mode =? PIN_IRQ_MODE_FALLING then init GPIO_MODE_IT_FALLING GPIO_PULLUP
  else if mode =? PIN_IRQ_MODE_RISING_FALLING then init GPIO_MODE_IT_RISING_FALLING GPIO_NOPULL
  else None.

(** The pins whose lines share an interrupt, as the masks of the two tests in stm32_pin_irq_enable. *)
Definition LINES_5_9 : Z := 0x03E0.
Definition LINES_10_15 : Z := 0xFC00.

Definition release_irq (m : pin_irq_map_t) (mask : Z) (g : gpio) : option gpio :=
  if (0x0020 <=? pinbit m) && (pinbit m <=? 0x0200) then
    if Z.land mask LINES_5_9 =? 0 then HAL_NVIC_DisableIRQ (irqno m) g else Some g
  else if (0x0400 <=? pinbit m) && (pinbit m <=? 0x8000) then
    if Z.land mask LINES_10_15 =? 0 then HAL_NVIC_DisableIRQ (irqno m) g else Some g
  else HAL_NVIC_DisableIRQ (irqno m) g.

Definition stm32_pin_irq_enable (pin enabled : Z) (d : pin_driver) : option (Z * pin_driver) :=
  match get_pin pin with
  | None => Some (RT_ENOSYS, d)
  | Some i =>
      if enabled =? PIN_IRQ_ENABLE then
        let n := bit2bitno (pin_bit i) in
        if (n <? 0) || (lenZ pin_irq_map <=? n) then Some (RT_ENOSYS, d)
        else
          h ← pin_irq_hdr_tab d !! Z.to_nat n;
          if hdr_pin h =? -1 then Some (RT_ENOSYS, d)
          else
            m ← pin_irq_map !! Z.to_nat n;
            init ← irq_init (pin_bit i) (hdr_mode h);
            g ← HAL_GPIO_Init (pin_port i) init (regs d);
            g ← HAL_NVIC_SetPriority (irqno m) 5 0 g;
            g ← HAL_NVIC_EnableIRQ (irqno m) g;
            Some (RT_EOK, {| d with regs := g; pin_irq_enable_mask := Z.lor (pin_irq_enable_mask d) (pinbit m) |})
      else if enabled =? PIN_IRQ_DISABLE then
        match get_pin_irq_map (pin_bit i) with
        | None => Some (RT_ENOSYS, d)
        | Some m =>
            g ← HAL_GPIO_DeInit (pin_port i) (pin_bit i) (regs d);
            let mask := Z.ldiff (pin_irq_enable_mask d) (pinbit m) in
            g ← release_irq m mask g;
            Some (RT_EOK, {| d with regs := g; pin_irq_enable_mask := mask |})
        end
      else Some (- RT_ENOSYS, d)
  end.

(** ** Interrupts: the state of the driver with that of the program and the kernel *)
Context {A : Type}.
Record pin_world := { drv : pin_driver; app : A; krn : kernel }.
Definition set_drv (d : pin_driver) (w : pin_world) : pin_world := {| w with drv := d |}.
Definition set_krn (k : kernel) (w : pin_world) : pin_world := {| w with krn := k |}.

Context (run_hdr : Z -> Z -> pin_world -> option pin_world).

Definition pin_irq_hdr (n : Z) (w : pin_world) : option pin_world :=
  _ ← assert (0 <=? n);
  h ← pin_irq_hdr_tab (drv w) !! Z.to_nat n;
  match hdr_fn h with
  | Some f => run_hdr f (hdr_args h) w
  | None => Some w
  end.

Definition HAL_GPIO_EXTI_Callback (pin : Z) (w : pin_world) : option pin_world := pin_irq_hdr (bit2bitno pin) w.

(** HAL_GPIO_EXTI_IRQHandler with its callback, for the pins [l] in turn. *)
Fixpoint exti_lines (l : list Z) (w : pin_world) : option pin_world :=
  match l with
  | [] => Some w
  | pin :: l =>
      let '(call, g) := HAL_GPIO_EXTI_IRQHandler pin (regs (drv w)) in
      let w := set_drv (set_regs g (drv w)) w in
      w ← if call then HAL_GPIO_EXTI_Callback pin w else Some w;
      exti_lines l w
  end.

Definition exti_handler (l : list Z) (w : pin_world) : option pin_world :=
  w ← exti_lines l (set_krn (rt_interrupt_enter (krn w)) w);
  Some (set_krn (rt_interrupt_leave (krn w)) w).

Definition EXTI0_IRQHandler : pin_world -> option pin_world := exti_handler [0x0001].
Definition EXTI1_IRQHandler : pin_world -> option pin_world := exti_handler [0x0002].
Definition EXTI2_IRQHandler : pin_world -> option pin_world := exti_handler [0x0004].
Definition EXTI3_IRQHandler : pin_world -> option pin_world := exti_handler [0x0008].
Definition EXTI4_IRQHandler : pin_world -> option pin_world := exti_handler [0x0010].
Definition EXTI9_5_IRQHandler : pin_world -> option pin_world :=
  exti_handler [0x0020; 0x0040; 0x0080; 0x0100; 0x0200].
Definition EXTI15_10_IRQHandler : pin_world -> option pin_world :=
  exti_handler [0x0400; 0x0800; 0x1000; 0x2000; 0x4000; 0x8000].

(** The vectors of the EXTI interrupts. *)
Definition exti_vector (irq : Z) : option (pin_world -> option pin_world) :=
  if irq =? EXTI0_IRQn then Some EXTI0_IRQHandler else if irq =? EXTI1_IRQn then Some EXTI1_IRQHandler
  else if irq =? EXTI2_IRQn then Some EXTI2_IRQHandler else if irq =? EXTI3_IRQn then Some EXTI3_IRQHandler
  else if irq =? EXTI4_IRQn then Some EXTI4_IRQHandler else if irq =? EXTI9_5_IRQn then Some EXTI9_5_IRQHandler
  else if irq =? EXTI15_10_IRQn then Some EXTI15_10_IRQHandler else None.
End Driver.
Arguments pin_world A : clear implicits.

(** ** pin.c, over any driver *)
Record rt_pin_ops (D : Type) := {
  pin_mode : Z -> Z -> D -> option D;
  pin_write : Z -> Z -> D -> option D;
  pin_read : Z -> D -> option Z;
  pin_attach_irq : option (Z -> Z -> option Z -> Z -> D -> option (Z * D));
  pin_detach_irq : option (Z -> D -> option (Z * D));
  pin_irq_enable : option (Z -> Z -> D -> option (Z * D));
  pin_get : option (list Z -> Z)
}.
Arguments pin_mode {D}. Arguments pin_write {D}. Arguments pin_read {D}. Arguments pin_attach_irq {D}.
Arguments pin_detach_irq {D}. Arguments pin_irq_enable {D}. Arguments pin_get {D}.

(** struct rt_device_pin_status and struct rt_device_pin_mode, of two 16-bit numbers each. *)
Record pin_request := { rq_pin : Z; rq_value : Z }.
Definition SIZEOF_PIN_STATUS : Z := 4.

Definition RT_Device_Class_Miscellaneous : Z := 18.

Section PinDevice.
Context {D : Type}.

(** _hw_pin.ops, null before a driver is registered, and the state of the driver. *)
Record hw_pin := { ops : option (rt_pin_ops D); hw_drv : D }.
Definition set_hw_drv (d : D) (h : hw_pin) : hw_pin := {| h with hw_drv := d |}.

(** The buffer is null or a structure, which the read changes. *)
Definition _pin_read (buffer : option pin_request) (size : Z) (h : hw_pin) : option (Z * option pin_request) :=
  match buffer with
  | None => Some (0, None)
  | Some st =>
      if negb (size =? SIZEOF_PIN_STATUS) then Some (0, Some st)
      else
        o ← ops h;
        v ← pin_read o (rq_pin st) (hw_drv h);
        Some (size, Some {| st with rq_value := u16 v |})
  end.

Definition _pin_write (buffer : option pin_request) (size : Z) (h : hw_pin) : option (Z * hw_pin) :=
  match buffer with
  | None => Some (0, h)
  | Some st =>
      if negb (size =? SIZEOF_PIN_STATUS) then Some (0, h)
      else
        o ← ops h;
        d ← pin_write o (rq_pin st) (rq_value st) (hw_drv h);
        Some (size, set_hw_drv d h)
  end.

Definition _pin_control (args : option pin_request) (h : hw_pin) : option (Z * hw_pin) :=
  match args with
  | None => Some (- RT_ERROR, h)
  | Some m =>
      o ← ops h;
      d ← pin_mode o (rq_pin m) (rq_value m) (hw_drv h);
      Some (0, set_hw_drv d h)
  end.

(** The device is at the address [o]. *)
Definition rt_device_pin_register (o : Z) (nm : list Z) (p : rt_pin_ops D) (data : Z) (h : hw_pin) (ds : devices) (k : kernel)
  : option (Z * hw_pin * devices * kernel) :=
  d ← ds !! o;
  let d := {| d with dev_type := RT_Device_Class_Miscellaneous; rx_indicate := None; tx_complete := None; user_data := data |} in
  let h := {| h with ops := Some p |} in
  '(_, ds, k) ← rt_device_register o nm RT_DEVICE_FLAG_RDWR (<[o := d]> ds) k;
  Some (0, h, ds, k).

Definition rt_pin_attach_irq (pin mode : Z) (hdr : option Z) (args : Z) (h : hw_pin) : option (Z * hw_pin) :=
  o ← ops h;
  match pin_attach_irq o with
  | Some f => '(e, d) ← f pin mode hdr args (hw_drv h); Some (e, set_hw_drv d h)
  | None => Some (RT_ENOSYS, h)
  end.

Definition rt_pin_detach_irq (pin : Z) (h : hw_pin) : option (Z * hw_pin) :=
  o ← ops h;
  match pin_detach_irq o with
  | Some f => '(e, d) ← f pin (hw_drv h); Some (e, set_hw_drv d h)
  | None => Some (RT_ENOSYS, h)
  end.

Definition rt_pin_irq_enable (pin enabled : Z) (h : hw_pin) : option (Z * hw_pin) :=
  o ← ops h;
  match pin_irq_enable o with
  | Some f => '(e, d) ← f pin enabled (hw_drv h); Some (e, set_hw_drv d h)
  | None => Some (RT_ENOSYS, h)
  end.

Definition rt_pin_mode (pin mode : Z) (h : hw_pin) : option hw_pin :=
  o ← ops h; d ← pin_mode o pin mode (hw_drv h); Some (set_hw_drv d h).

Definition rt_pin_write (pin value : Z) (h : hw_pin) : option hw_pin :=
  o ← ops h; d ← pin_write o pin value (hw_drv h); Some (set_hw_drv d h).

Definition rt_pin_read (pin : Z) (h : hw_pin) : option Z :=
  o ← ops h; pin_read o pin (hw_drv h).

Definition rt_pin_get (nm : list Z) (h : hw_pin) : option Z :=
  o ← ops h;
  c ← nm !! 0%nat;
  _ ← assert (c =? 80);
  match pin_get o with
  | None => Some (- RT_ENOSYS)
  | Some f => Some (f nm)
  end.
End PinDevice.
Arguments hw_pin D : clear implicits.

(** ** The driver is registered *)
Definition _stm32_pin_ops {H : Hardware} : rt_pin_ops pin_driver :=
  {| pin_mode := stm32_pin_mode; pin_write := stm32_pin_write; pin_read := stm32_pin_read;
     pin_attach_irq := Some stm32_pin_attach_irq; pin_detach_irq := Some stm32_pin_dettach_irq;
     pin_irq_enable := Some stm32_pin_irq_enable; pin_get := None |}.

(** __HAL_RCC_GPIOA_CLK_ENABLE to __HAL_RCC_GPIOE_CLK_ENABLE. *)
Definition RCC_APB2ENR_IOPEN (x : Z) : Z := Z.shiftl 1 (2 + x).
Definition rcc_gpio_clk_enable (x : Z) (g : gpio) : gpio := {| g with APB2ENR := SET_BIT (APB2ENR g) (RCC_APB2ENR_IOPEN x) |}.

Definition rt_hw_pin_init {H : Hardware} (o : Z) (h : hw_pin pin_driver) (ds : devices) (k : kernel)
  : option (Z * hw_pin pin_driver * devices * kernel) :=
  let g := fold_left (fun g x => rcc_gpio_clk_enable x g) [0; 1; 2; 3; 4] (regs (hw_drv h)) in
  rt_device_pin_register o (bytes "pin") _stm32_pin_ops 0 (set_hw_drv (set_regs g (hw_drv h)) h) ds k.

(** ** Tables as functions *)
Lemma table_check (f : Z -> bool) k n : forallb f (seqZ 0 k) = true -> 0 <= n < k -> f n = true.
Proof.
  intros Hf Hn. rewrite forallb_forall in Hf. apply Hf, list_elem_of_In, elem_of_seqZ. lia.
Qed.

Lemma get_pin_spec p : get_pin p =
  if u8 p <? 80 then Some {| index := u8 p; pin_port := u8 p / 16; pin_bit := 2 ^ (u8 p mod 16) |} else None.
Proof.
  unfold get_pin. change (lenZ pins_table) with 80. destruct (Z.ltb_spec (u8 p) 80) as [Hp|]; [|done].
  pose proof (wrap_bound 8 p ltac:(lia)). unfold pins_table. rewrite list_lookup_fmap, lookup_seqZ_lt by lia. simpl.
  rewrite Z2Nat.id by lia. by rewrite (proj2 (Z.eqb_neq _ _)) by lia.
Qed.

(** The interrupt of a line, and the lines of an interrupt. *)
Definition irq_of (n : Z) : Z := if n <? 5 then 6 + n else if n <? 10 then 23 else 40.
Definition lines_of (irq : Z) : list Z := filter (fun n => irq_of n = irq) (seqZ 0 16).

Lemma elem_of_lines n irq : n ∈ lines_of irq <-> irq_of n = irq /\ 0 <= n < 16.
Proof. unfold lines_of. rewrite list_elem_of_filter, elem_of_seqZ. intuition lia. Qed.

Lemma bit2bitno_spec n : 0 <= n < 16 -> bit2bitno (2 ^ n) = n.
Proof. intros Hn. apply Z.eqb_eq. by apply (table_check (fun n => bit2bitno (2 ^ n) =? n) 16). Qed.

Lemma pin_irq_map_spec n : 0 <= n < 16 -> pin_irq_map !! Z.to_nat n = Some {| pinbit := 2 ^ n; irqno := irq_of n |}.
Proof.
  intros Hn. pose (row n := match pin_irq_map !! Z.to_nat n with
    Some m => (pinbit m =? 2 ^ n) && (irqno m =? irq_of n) | None => false end).
  assert (row n = true) as E by (apply (table_check row 16); [reflexivity|done]). unfold row in E.
  destruct (_ !! _) as [[b i]|]; [|done]. apply andb_true_iff in E as [E1 E2]. simpl in *.
  apply Z.eqb_eq in E1 as ->. by apply Z.eqb_eq in E2 as ->.
Qed.

Lemma irq_of_bound n : 0 <= n -> 0 <= irq_of n < 240.
Proof. unfold irq_of. repeat case_cmp; lia. Qed.

Definition pin_line_no (p : Z) : option Z := if u8 p <? 80 then Some (u8 p mod 16) else None.

Lemma pin_line_spec p : pin_line p =
  (fun n => ({| index := u8 p; pin_port := u8 p / 16; pin_bit := 2 ^ (u8 p mod 16) |}, n)) <$> pin_line_no p.
Proof.
  unfold pin_line, pin_line_no. rewrite get_pin_spec. destruct (u8 p <? 80); [simpl|done].
  rewrite bit2bitno_spec by dlia. change (lenZ pin_irq_map) with 16.
  pose proof (Z.mod_pos_bound (u8 p) 16 ltac:(lia)). 
  by rewrite (proj2 (Z.ltb_ge (u8 p mod 16) 0)), (proj2 (Z.leb_gt 16 (u8 p mod 16))) by lia.
Qed.

Lemma get_pin_irq_map_spec n : 0 <= n < 16 -> get_pin_irq_map (2 ^ n) = Some {| pinbit := 2 ^ n; irqno := irq_of n |}.
Proof.
  intros Hn. unfold get_pin_irq_map. rewrite bit2bitno_spec by done. change (lenZ pin_irq_map) with 16.
  rewrite (proj2 (Z.ltb_ge _ _)), (proj2 (Z.leb_gt _ _)) by lia. by apply pin_irq_map_spec.
Qed.

Lemma port_bound p : 0 <= u8 p < 80 -> 0 <= u8 p / 16 < 5.
Proof. dlia. Qed.

Lemma bit_fits n : 0 <= n < 16 -> fits 16 (2 ^ n).
Proof. intros. split; [lia|]. apply Z.pow_lt_mono_r; lia. Qed.

(** ** Modes and levels of pins *)

(** What a call makes of the pin it is for: the configurations are those of CRL and CRH, at 50 MHz for
    outputs. *)
Definition mode_effect (mode : Z) (v : pin_view) : pin_view :=
  if mode =? PIN_MODE_INPUT then {| v with v_config := 4 |}
  else if mode =? PIN_MODE_INPUT_PULLUP then {| v with v_config := 8; v_latch := true |}
  else if mode =? PIN_MODE_INPUT_PULLDOWN then {| v with v_config := 8; v_latch := false |}
  else if mode =? PIN_MODE_OUTPUT_OD then {| v with v_config := 7 |}
  else {| v with v_config := 3 |}.

Definition level_effect (value : Z) (v : pin_view) : pin_view := {| v with v_latch := negb (value =? 0) |}.

Lemma asked_mode b m v : asked (mode_init b m) v = mode_effect m v.
Proof.
  destruct v. unfold mode_init, mode_effect. change PIN_MODE_OUTPUT with 0. change PIN_MODE_INPUT with 1.
  change PIN_MODE_INPUT_PULLUP with 2. change PIN_MODE_INPUT_PULLDOWN with 3. change PIN_MODE_OUTPUT_OD with 4.
  repeat (case_cmp; [subst; done|]). done.
Qed.

(** Pin [q] of the table, in the registers. *)
Definition pin_of (g : gpio) (q : Z) : option pin_view := view g (q / 16) (q mod 16).

Lemma same_place q p : 0 <= q -> 0 <= p -> (q / 16 =? p / 16) && (q mod 16 =? p mod 16) = (q =? p).
Proof. intros Hq Hp. destruct (Z.eqb_spec q p) as [->|]; [by rewrite !Z.eqb_refl|]. apply andb_false_iff.
  destruct (Z.eqb_spec (q / 16) (p / 16)); [right|by left]. apply Z.eqb_neq. dlia. Qed.

Lemma pow2_bit n m : 0 <= n -> Z.testbit (2 ^ n) m = (m =? n).
Proof. intros Hn. by rewrite Z.pow2_bits_eqb, Z.eqb_sym. Qed.

(** Only pin [p] differs between the registers, by [f]. *)
Record one_pin (p : Z) (f : pin_view -> pin_view) (g g' : gpio) : Prop := {
  op_shape : gpio_shape g';
  op_control : same_control g g';
  op_lines : forall n, 0 <= n < 16 -> line_of g' n = line_of g n;
  op_pins : forall q, 0 <= q < 80 -> pin_of g' q = if q =? p then f <$> pin_of g q else pin_of g q
}.

Section PinProofs.
Context {H : Hardware} {L : HardwareLaws}.

Lemma stm32_pin_mode_ok p m d : gpio_shape (regs d) ->
  exists g', stm32_pin_mode p m d = Some (set_regs g' d) /\ one_pin (u8 p) (mode_effect m) (regs d) g'.
Proof.
  intros Hg. unfold stm32_pin_mode. rewrite get_pin_spec. pose proof (wrap_bound 8 p ltac:(lia)).
  destruct (Z.ltb_spec (u8 p) 80).
  - simpl. assert (fits 16 (2 ^ (u8 p mod 16))) by (apply bit_fits; dlia).
    assert (Pin (mode_init (2 ^ (u8 p mod 16)) m) = 2 ^ (u8 p mod 16) /\ fits 2 (Speed (mode_init (2 ^ (u8 p mod 16)) m)) /\
            exti_mode (Mode (mode_init (2 ^ (u8 p mod 16)) m)) = false) as (Hp & Hs & He).
    { unfold mode_init. repeat case_match; (split; [done|split; [unfold fits, GPIO_SPEED_FREQ_HIGH; simpl; lia|done]]). }
    destruct (gpio_init_ok (u8 p / 16) (mode_init (2 ^ (u8 p mod 16)) m) (regs d)) as (g' & E & Hg' & Hc & Hv & Hl);
      [done|dlia|done|by rewrite Hp|].
    rewrite E. exists g'. split; [done|]. split; [done|done| |].
    + intros n Hn. by rewrite Hl, He, andb_false_r.
    + intros q Hq. unfold pin_of. rewrite Hv, Hp, pow2_bit, same_place by dlia. destruct (q =? u8 p); [|done].
      unfold view. destruct (_ !! _); [simpl|done]. by rewrite asked_mode.
  - exists (regs d). split; [by destruct d|]. split; try done. intros q Hq. by rewrite (proj2 (Z.eqb_neq _ _)) by lia.
Qed.

Lemma stm32_pin_write_ok p x d : gpio_shape (regs d) ->
  exists g', stm32_pin_write p x d = Some (set_regs g' d) /\ one_pin (u8 p) (level_effect x) (regs d) g'.
Proof.
  intros Hg. unfold stm32_pin_write. rewrite get_pin_spec. pose proof (wrap_bound 8 p ltac:(lia)).
  destruct (Z.ltb_spec (u8 p) 80).
  - simpl. destruct (gpio_write_ok (u8 p / 16) (2 ^ (u8 p mod 16)) x (regs d)) as (g' & E & Hg' & Hc & Hv & Hl);
      [done|dlia|apply bit_fits; dlia|].
    rewrite E. exists g'. split; [done|]. split; [done|done|done|].
    intros q Hq. unfold pin_of. by rewrite Hv, pow2_bit, same_place by dlia.
  - exists (regs d). split; [by destruct d|]. split; try done. intros q Hq. by rewrite (proj2 (Z.eqb_neq _ _)) by lia.
Qed.

Lemma pin_of_some g q : gpio_shape g -> 0 <= q < 80 -> exists v, pin_of g q = Some v.
Proof. intros Hg Hq. destruct (port_some g (q / 16) Hg ltac:(dlia)) as [p E]. unfold pin_of, view. rewrite E. by eexists. Qed.

Lemma stm32_pin_read_ok p d v : 0 <= p < 80 -> pin_of (regs d) p = Some v -> stm32_pin_read p d = Some (Z.b2z (v_reads v)).
Proof.
  intros Hp Hv. unfold stm32_pin_read. rewrite get_pin_spec, wrap_id by (unfold fits; lia).
  rewrite (proj2 (Z.ltb_lt _ _)) by lia. by apply gpio_read_ok; [dlia|].
Qed.
End PinProofs.

(** ** Threads that use pins *)
Inductive pin_op := PinMode (p m : Z) | PinWrite (p v : Z).

Definition op_pin (e : pin_op) : Z := match e with PinMode p _ => u8 p | PinWrite p _ => u8 p end.
Definition op_effect (e : pin_op) : pin_view -> pin_view :=
  match e with PinMode _ m => mode_effect m | PinWrite _ x => level_effect x end.

Definition pin_op_run {D} (e : pin_op) (h : hw_pin D) : option (hw_pin D) :=
  match e with PinMode p m => rt_pin_mode p m h | PinWrite p v => rt_pin_write p v h end.

Fixpoint pin_ops_run {D} (l : list pin_op) (h : hw_pin D) : option (hw_pin D) :=
  match l with [] => Some h | e :: l => h ← pin_op_run e h; pin_ops_run l h end.

(** What the calls for pin [q] make of it. *)
Definition pin_effects (q : Z) (l : list pin_op) (v : pin_view) : pin_view :=
  fold_left (fun v e => if q =? op_pin e then op_effect e v else v) l v.

Section Independent.
Context {H : Hardware} {L : HardwareLaws}.

Lemma pin_op_ok e h : gpio_shape (regs (hw_drv h)) -> ops h = Some _stm32_pin_ops ->
  exists g', pin_op_run e h = Some (set_hw_drv (set_regs g' (hw_drv h)) h) /\
    one_pin (op_pin e) (op_effect e) (regs (hw_drv h)) g'.
Proof.
  intros Hg Ho. destruct e as [p m|p v]; simpl; unfold rt_pin_mode, rt_pin_write; rewrite Ho; simpl.
  - destruct (stm32_pin_mode_ok p m (hw_drv h) Hg) as (g' & -> & ?). by exists g'.
  - destruct (stm32_pin_write_ok p v (hw_drv h) Hg) as (g' & -> & ?). by exists g'.
Qed.

Lemma pin_ops_ok l : forall h, gpio_shape (regs (hw_drv h)) -> ops h = Some _stm32_pin_ops ->
  exists g', pin_ops_run l h = Some (set_hw_drv (set_regs g' (hw_drv h)) h) /\ gpio_shape g' /\
    same_control (regs (hw_drv h)) g' /\ (forall n, 0 <= n < 16 -> line_of g' n = line_of (regs (hw_drv h)) n) /\
    (forall q, 0 <= q < 80 -> pin_of g' q = pin_effects q l <$> pin_of (regs (hw_drv h)) q).
Proof.
  induction l as [|e l IH]; intros h Hg Ho; simpl.
  - exists (regs (hw_drv h)). split_and!; [by destruct h as [o []]|done|done|done|].
    intros q Hq. by destruct (pin_of _ _).
  - destruct (pin_op_ok e h Hg Ho) as (g1 & -> & [Hg1 Hc1 Hl1 Hp1]). simpl.
    destruct (IH (set_hw_drv (set_regs g1 (hw_drv h)) h)) as (g2 & -> & Hg2 & Hc2 & Hl2 & Hp2); [done|done|].
    exists g2. split_and!; [done|done|by transitivity g1| |].
    + intros n Hn. by rewrite Hl2, Hl1.
    + intros q Hq. rewrite Hp2, Hp1 by done. simpl. unfold pin_effects. simpl.
      destruct (pin_of (regs (hw_drv h)) q) as [v|]; destruct (q =? op_pin e); done.
Qed.
End Independent.

(** ** What the interrupts of pins promise

    A line of EXTI is shared by the pins of the same number of all ports.  It has at most one function, it is on
    or off, and an edge may be pending. *)
Record line_state := { bound : option rt_pin_irq_hdr; on : bool; pending : bool }.

Definition upd_line (n : Z) (f : line_state -> line_state) (s : Z -> line_state) : Z -> line_state :=
  fun m => if m =? n then f (s m) else s m.

Inductive irq_event :=
  | Attach (pin mode : Z) (hdr : option Z) (args : Z)
  | Detach (pin : Z)
  | SetIrq (pin enabled : Z)
  | Use (e : pin_op)
  | Edges (v : Z)                 (** the hardware sets bits of PR *)
  | Irq (irq : Z).                (** the processor runs the vector *)

Definition same_binding (pin mode : Z) (hdr : option Z) (args : Z) (h : rt_pin_irq_hdr) : bool :=
  (hdr_pin h =? pin) && bool_decide (hdr_fn h = hdr) && (hdr_mode h =? mode) && (hdr_args h =? args).
Definition edge_mode (m : Z) : bool := (m =? 0) || (m =? 1) || (m =? 2).

Section Spec.
Context {A : Type} (call : Z -> Z -> A -> kernel -> option (A * kernel)).

(** The interrupt: the lines in turn, those with an edge pending call their function. *)
Fixpoint spec_lines (l : list Z) (s : Z -> line_state) (a : A) (k : kernel) : option ((Z -> line_state) * A * kernel) :=
  match l with
  | [] => Some (s, a, k)
  | n :: l =>
      if pending (s n) then
        let s := upd_line n (fun x => {| x with pending := false |}) s in
        '(a, k) ← match bound (s n) with
          | Some h => match hdr_fn h with Some f => call f (hdr_args h) a k | None => Some (a, k) end
          | None => Some (a, k)
          end;
        spec_lines l s a k
      else spec_lines l s a k
  end.

Definition spec_step (e : irq_event) (s : Z -> line_state) (a : A) (k : kernel)
  : option (Z * (Z -> line_state) * A * kernel) :=
  match e with
  | Attach p m f x =>
      match pin_line_no p with
      | None => Some (RT_ENOSYS, s, a, k)
      | Some n =>
          match bound (s n) with
          | Some h => Some (if same_binding p m f x h then RT_EOK else RT_EBUSY, s, a, k)
          | None =>
              let h := {| hdr_pin := i16 p; hdr_mode := u16 m; hdr_fn := f; hdr_args := x |} in
              Some (RT_EOK, upd_line n (fun y => {| y with bound := Some h |}) s, a, k)
          end
      end
  | Detach p =>
      match pin_line_no p with
      | None => Some (RT_ENOSYS, s, a, k)
      | Some n => Some (RT_EOK, upd_line n (fun y => {| y with bound := None |}) s, a, k)
      end
  | SetIrq p en =>
      match pin_line_no p with
      | None => Some (RT_ENOSYS, s, a, k)
      | Some n =>
          if en =? PIN_IRQ_ENABLE then
            match bound (s n) with
            | None => Some (RT_ENOSYS, s, a, k)
            | Some h =>
                if edge_mode (hdr_mode h) then Some (RT_EOK, upd_line n (fun y => {| y with on := true |}) s, a, k)
                else None
            end
          else if en =? PIN_IRQ_DISABLE then Some (RT_EOK, upd_line n (fun y => {| y with on := false |}) s, a, k)
          else Some (- RT_ENOSYS, s, a, k)
      end
  | Use _ => Some (RT_EOK, s, a, k)
  | Edges v => Some (RT_EOK, fun n => {| (s n) with pending := pending (s n) || Z.testbit v n |}, a, k)
  | Irq irq =>
      match lines_of irq with
      | [] => None
      | l => '(s, a, k) ← spec_lines l s a (rt_interrupt_enter k); Some (RT_EOK, s, a, rt_interrupt_leave k)
      end
  end.

Fixpoint spec_run (l : list irq_event) (s : Z -> line_state) (a : A) (k : kernel)
  : option (list Z * (Z -> line_state) * A * kernel) :=
  match l with
  | [] => Some ([], s, a, k)
  | e :: l =>
      '(r, s, a, k) ← spec_step e s a k;
      '(rs, s, a, k) ← spec_run l s a k;
      Some (r :: rs, s, a, k)
  end.

(** The same events on the driver, whose functions change the program and the kernel by [call]. *)
Definition run_call (f args : Z) (w : pin_world A) : option (pin_world A) :=
  '(a, k) ← call f args (app w) (krn w); Some {| w with app := a; krn := k |}.

Context {H : Hardware}.

Definition drv_step (e : irq_event) (w : pin_world A) : option (Z * pin_world A) :=
  match e with
  | Attach p m f x => '(r, d) ← stm32_pin_attach_irq p m f x (drv w); Some (r, set_drv d w)
  | Detach p => '(r, d) ← stm32_pin_dettach_irq p (drv w); Some (r, set_drv d w)
  | SetIrq p en => '(r, d) ← stm32_pin_irq_enable p en (drv w); Some (r, set_drv d w)
  | Use (PinMode p m) => d ← stm32_pin_mode p m (drv w); Some (RT_EOK, set_drv d w)
  | Use (PinWrite p v) => d ← stm32_pin_write p v (drv w); Some (RT_EOK, set_drv d w)
  | Edges v =>
      let g := regs (drv w) in
      Some (RT_EOK, set_drv (set_regs {| g with PR := Z.lor (PR g) v |} (drv w)) w)
  | Irq irq => h ← exti_vector run_call irq; w ← h w; Some (RT_EOK, w)
  end.

Fixpoint drv_run (l : list irq_event) (w : pin_world A) : option (list Z * pin_world A) :=
  match l with
  | [] => Some ([], w)
  | e :: l => '(r, w) ← drv_step e w; '(rs, w) ← drv_run l w; Some (r :: rs, w)
  end.
End Spec.

(** ** How the driver's state stands for the lines *)
Record line_ok (d : pin_driver) (s : Z -> line_state) (n : Z) : Prop := {
  lo_hdr : exists h, pin_irq_hdr_tab d !! Z.to_nat n = Some h /\
    match bound (s n) with Some b => h = b /\ hdr_pin b <> -1 | None => h = no_hdr end;
  lo_mask : Z.testbit (pin_irq_enable_mask d) n = on (s n);
  lo_pending : Z.testbit (PR (regs d)) n = pending (s n);
  lo_on : on (s n) = true -> exists l, line_of (regs d) n = Some l /\ v_interrupt l = true /\ v_rising l || v_falling l = true
}.

(** An interrupt of EXTI is enabled in the interrupt controller when one of its lines is on. *)
Definition irq_ok (g : gpio) (s : Z -> line_state) (irq : Z) : Prop :=
  enabled g irq = existsb (fun n => on (s n)) (lines_of irq).

Record driver_ok (d : pin_driver) (s : Z -> line_state) : Prop := {
  dk_shape : gpio_shape (regs d);
  dk_tab : length (pin_irq_hdr_tab d) = 16%nat;
  dk_lines : forall n, 0 <= n < 16 -> line_ok d s n;
  dk_irqs : forall n, 0 <= n < 16 -> irq_ok (regs d) s (irq_of n)
}.

Lemma line_frame d d' s s' n : line_ok d s n -> s' n = s n ->
  pin_irq_hdr_tab d' !! Z.to_nat n = pin_irq_hdr_tab d !! Z.to_nat n ->
  Z.testbit (pin_irq_enable_mask d') n = Z.testbit (pin_irq_enable_mask d) n ->
  Z.testbit (PR (regs d')) n = Z.testbit (PR (regs d)) n -> line_of (regs d') n = line_of (regs d) n -> line_ok d' s' n.
Proof. intros [Hh Hm Hp Ho] Es Et Em Ep El. split; rewrite ?Es, ?Et, ?Em, ?Ep, ?El; done. Qed.

Lemma irq_frame g g' s s' irq : irq_ok g s irq -> enabled g' irq = enabled g irq ->
  (forall n, 0 <= n < 16 -> on (s' n) = on (s n)) -> irq_ok g' s' irq.
Proof.
  unfold irq_ok. intros E Eg Hs. rewrite Eg, E. apply eq_true_iff_eq. rewrite !existsb_exists.
  split; intros (n & Hn & Ho); exists n; (split; [done|]); apply list_elem_of_In, elem_of_lines in Hn as [_ Hn];
    [by rewrite Hs|by rewrite <- Hs].
Qed.

Lemma upd_line_eq n f s : upd_line n f s n = f (s n).
Proof. unfold upd_line. by rewrite Z.eqb_refl. Qed.
Lemma upd_line_ne n f s m : m <> n -> upd_line n f s m = s m.
Proof. intros Hne. unfold upd_line. by rewrite (proj2 (Z.eqb_neq _ _)). Qed.

Lemma enabled_iser g g' j : ISER g' = ISER g -> enabled g' j = enabled g j.
Proof. unfold enabled. by intros ->. Qed.

Lemma line_of_pins g g' n : same_pins g g' -> line_of g' n = line_of g n.
Proof. intros [Hp He Hr Hi Hm Hrt Hf]. unfold line_of. by rewrite He, Hi, Hm, Hrt, Hf. Qed.

Lemma line_bound p n : pin_line_no p = Some n -> 0 <= u8 p < 80 /\ n = u8 p mod 16 /\ 0 <= n < 16.
Proof.
  unfold pin_line_no. pose proof (wrap_bound 8 p ltac:(lia)). destruct (Z.ltb_spec (u8 p) 80); [|done].
  intros [= <-]. split; [lia|split; [done|dlia]].
Qed.

Lemma stored_pin p : u8 p < 80 -> i16 p <> -1 /\ p <> -1.
Proof. unfold wrap, swrap. intros Hp. split; dlia. Qed.

(** *** Binding functions *)
Lemma set_hdr_ok d s n h b : driver_ok d s -> 0 <= n < 16 ->
  match b with Some b => h = b /\ hdr_pin b <> -1 | None => h = no_hdr end ->
  driver_ok (set_hdr n h d) (upd_line n (fun y => {| y with bound := b |}) s).
Proof.
  intros [Hg Ht Hl Hi] Hn Hb.
  split; [done|simpl; unfold updZ; by rewrite length_insert| |].
  - intros m Hm. destruct (Z.eq_dec m n) as [->|Hne].
    + destruct (Hl n Hn) as [_ Hmask Hp Ho]. split; rewrite ?upd_line_eq; try done.
      exists h. split; [|done]. simpl. unfold updZ. by rewrite list_lookup_insert_eq by lia.
    + apply (line_frame d _ s); [by apply Hl|by apply upd_line_ne| |done|done|done].
      simpl. unfold updZ. by rewrite list_lookup_insert_ne by lia.
  - intros m Hm. apply (irq_frame (regs d) _ s); [by apply Hi|done|].
    intros j _. unfold upd_line. by destruct (j =? n).
Qed.

Lemma attach_ok p m f x d s : driver_ok d s ->
  match pin_line_no p with
  | None => stm32_pin_attach_irq p m f x d = Some (RT_ENOSYS, d)
  | Some n =>
      match bound (s n) with
      | Some h => stm32_pin_attach_irq p m f x d = Some (if same_binding p m f x h then RT_EOK else RT_EBUSY, d)
      | None => exists d', stm32_pin_attach_irq p m f x d = Some (RT_EOK, d') /\
          driver_ok d' (upd_line n (fun y => {| y with bound :=
            Some {| hdr_pin := i16 p; hdr_mode := u16 m; hdr_fn := f; hdr_args := x |} |}) s)
      end
  end.
Proof.
  intros Hd. unfold stm32_pin_attach_irq. rewrite pin_line_spec. destruct (pin_line_no p) as [n|] eqn:E; [simpl|done].
  apply line_bound in E as (Hp & _ & Hn). destruct (stored_pin p ltac:(lia)) as [Hs Hs'].
  destruct (dk_lines d s Hd n Hn) as [(h & Hh & Hb) _ _ _]. rewrite Hh. simpl. fold (same_binding p m f x h).
  destruct (bound (s n)) as [b|].
  - destruct Hb as [-> Hb]. destruct (same_binding p m f x b); [done|]. by rewrite (proj2 (Z.eqb_neq _ _)).
  - subst h. unfold same_binding. rewrite (proj2 (Z.eqb_neq (hdr_pin no_hdr) p)) by (simpl; lia). simpl.
    eexists. split; [done|]. by apply set_hdr_ok.
Qed.

Lemma detach_ok p d s : driver_ok d s ->
  match pin_line_no p with
  | None => stm32_pin_dettach_irq p d = Some (RT_ENOSYS, d)
  | Some n => exists d', stm32_pin_dettach_irq p d = Some (RT_EOK, d') /\
      driver_ok d' (upd_line n (fun y => {| y with bound := None |}) s)
  end.
Proof.
  intros Hd. unfold stm32_pin_dettach_irq. rewrite pin_line_spec. destruct (pin_line_no p) as [n|] eqn:E; [simpl|done].
  apply line_bound in E as (Hp & _ & Hn). destruct (dk_lines d s Hd n Hn) as [(h & Hh & Hb) Hm Hpr Ho]. rewrite Hh. simpl.
  destruct (Z.eqb_spec (hdr_pin h) (-1)) as [Eh|]; (eexists; split; [done|]).
  - destruct (bound (s n)) as [b|] eqn:Eb; [by destruct Hb as [<- []]|].
    destruct Hd as [Hg Ht Hl Hi]. split; [done|done| |].
    + intros j Hj. destruct (Z.eq_dec j n) as [->|]; [|apply (line_frame d _ s); [by apply Hl|by apply upd_line_ne|done..]].
      split; rewrite ?upd_line_eq; try done. by exists h.
    + intros j Hj. apply (irq_frame (regs d) _ s); [by apply Hi|done|].
      intros i _. unfold upd_line. by destruct (i =? n).
  - by apply set_hdr_ok.
Qed.

(** *** Switching interrupts on and off *)
Lemma irq_init_spec b m : if edge_mode m then
    exists i, irq_init b m = Some i /\ Pin i = b /\ fits 2 (Speed i) /\ exti_mode (Mode i) = true /\
      Z.land (Mode i) GPIO_MODE_IT =? GPIO_MODE_IT = true /\
      (Z.land (Mode i) RISING_EDGE =? RISING_EDGE) || (Z.land (Mode i) FALLING_EDGE =? FALLING_EDGE) = true
  else irq_init b m = None.
Proof.
  unfold irq_init, edge_mode. change PIN_IRQ_MODE_RISING with 0. change PIN_IRQ_MODE_FALLING with 1.
  change PIN_IRQ_MODE_RISING_FALLING with 2.
  destruct (m =? 0); [|destruct (m =? 1); [|destruct (m =? 2); [|done]]]; simpl;
    (eexists; split_and!; [done|done|unfold fits, GPIO_SPEED_FREQ_HIGH; simpl; lia|done..]).
Qed.

Lemma pow2_leb a b : 0 <= a -> 0 <= b -> (2 ^ a <=? 2 ^ b) = (a <=? b).
Proof.
  intros Ha Hb. destruct (Z.leb_spec a b).
  - apply Z.leb_le. by apply Z.pow_le_mono_r.
  - apply Z.leb_gt. by apply Z.pow_lt_mono_r.
Qed.

(** The tests of release_irq: the mask of the lines of an interrupt. *)
Lemma land_lines mask c irq : fits 16 c -> (forall i, 0 <= i < 16 -> Z.testbit c i = (irq_of i =? irq)) ->
  (Z.land mask c =? 0) = negb (existsb (Z.testbit mask) (lines_of irq)).
Proof.
  intros Hc Hbits. apply eq_true_iff_eq. rewrite Z.eqb_eq, negb_true_iff, <- not_true_iff_false, existsb_exists. split.
  - intros E (n & Hn & Hm). apply list_elem_of_In, elem_of_lines in Hn as [Hn Hr].
    assert (Z.testbit (Z.land mask c) n = true) as Ht by (rewrite Z.land_spec, Hm, Hbits, Hn by done; by rewrite Z.eqb_refl).
    by rewrite E, Z.bits_0 in Ht.
  - intros Hn. apply Z.bits_inj'. intros i Hi. rewrite Z.land_spec, Z.bits_0.
    destruct (Z.ltb_spec i 16); [|by rewrite (high_bit 16 c i) by done; apply andb_false_r].
    rewrite Hbits by lia. destruct (Z.eqb_spec (irq_of i) irq); [|apply andb_false_r].
    destruct (Z.testbit mask i) eqn:Em; [|done]. exfalso. apply Hn. exists i. split; [|done].
    apply list_elem_of_In, elem_of_lines. lia.
Qed.

Section IrqProofs.
Context {H : Hardware} {L : HardwareLaws}.

(** release_irq disables the interrupt of line [n], which is off, when all of its lines are. *)
Lemma release_irq_ok n mask g : gpio_shape g -> 0 <= n < 16 -> Z.testbit mask n = false ->
  exists g', release_irq {| pinbit := 2 ^ n; irqno := irq_of n |} mask g = Some g' /\ gpio_shape g' /\ same_pins g g' /\
    forall j, 0 <= j -> enabled g' j =
      if (j =? irq_of n) && negb (existsb (Z.testbit mask) (lines_of (irq_of n))) then false else enabled g j.
Proof.
  intros Hg Hn Hb. unfold release_irq. simpl.
  change 0x0020 with (2 ^ 5). change 0x0200 with (2 ^ 9). change 0x0400 with (2 ^ 10). change 0x8000 with (2 ^ 15).
  rewrite !pow2_leb by lia.
  assert (exists g', HAL_NVIC_DisableIRQ (irq_of n) g = Some g' /\ gpio_shape g' /\ same_pins g g' /\
    forall j, 0 <= j -> enabled g' j = if j =? irq_of n then false else enabled g j) as (g' & E & Hg' & Hs & He)
    by (apply (nvic_set_ok (irq_of n) g false); [done|apply irq_of_bound; lia]).
  assert (forall c, fits 16 c -> (forall i, 0 <= i < 16 -> Z.testbit c i = (irq_of i =? irq_of n)) -> exists g',
    (if Z.land mask c =? 0 then HAL_NVIC_DisableIRQ (irq_of n) g else Some g) = Some g' /\ gpio_shape g' /\ same_pins g g' /\
    forall j, 0 <= j -> enabled g' j =
      if (j =? irq_of n) && negb (existsb (Z.testbit mask) (lines_of (irq_of n))) then false else enabled g j) as Hshared.
  { intros c Hc Hbits. rewrite (land_lines mask c (irq_of n) Hc Hbits). destruct (existsb _ _); simpl.
    - exists g. split_and!; try done. intros j _. by rewrite andb_false_r.
    - exists g'. split_and!; try done. intros j Hj. rewrite andb_true_r. by apply He. }
  assert (forall c irq, irq_of n = irq -> forallb (fun i => Bool.eqb (Z.testbit c i) (irq_of i =? irq)) (seqZ 0 16) = true ->
    forall i, 0 <= i < 16 -> Z.testbit c i = (irq_of i =? irq_of n)) as Hc.
  { intros c irq -> Ht i Hi. apply eqb_prop.
    by apply (table_check (fun i => Bool.eqb (Z.testbit c i) (irq_of i =? irq)) 16). }
  destruct ((5 <=? n) && (n <=? 9)) eqn:E1; [|destruct ((10 <=? n) && (n <=? 15)) eqn:E2].
  - apply Hshared; [unfold fits, LINES_5_9; lia|]. apply (Hc _ 23); [|done]. unfold irq_of. repeat case_cmp; lia.
  - apply Hshared; [unfold fits, LINES_10_15; lia|]. apply (Hc _ 40); [|done]. unfold irq_of. repeat case_cmp; lia.
  - exists g'. split_and!; try done. intros j Hj. rewrite He by done.
    assert (existsb (Z.testbit mask) (lines_of (irq_of n)) = false) as ->; [|by rewrite andb_true_r].
    apply not_true_iff_false. rewrite existsb_exists. intros (m & Hm & Ht).
    apply list_elem_of_In, elem_of_lines in Hm as [Hm Hr].
    assert (m = n) as -> by (revert Hm; unfold irq_of; repeat case_cmp; lia). congruence.
Qed.

(** An event that changes one line and its interrupt. *)
Lemma irq_switch_ok d s n b g' : driver_ok d s -> 0 <= n < 16 -> gpio_shape g' -> PR g' = PR (regs d) ->
  (forall m, 0 <= m < 16 -> m <> n -> on (s m) = true -> line_of g' m = line_of (regs d) m) ->
  (b = true -> exists l, line_of g' n = Some l /\ v_interrupt l = true /\ v_rising l || v_falling l = true) ->
  (forall m, 0 <= m < 16 -> irq_of m <> irq_of n -> enabled g' (irq_of m) = enabled (regs d) (irq_of m)) ->
  enabled g' (irq_of n) = existsb (fun m => on (upd_line n (fun y => {| y with on := b |}) s m)) (lines_of (irq_of n)) ->
  driver_ok {| d with regs := g'; pin_irq_enable_mask :=
      if b then Z.lor (pin_irq_enable_mask d) (2 ^ n) else Z.ldiff (pin_irq_enable_mask d) (2 ^ n) |}
    (upd_line n (fun y => {| y with on := b |}) s).
Proof.
  intros [Hg Ht Hl Hi] Hn Hg' Hpr Hlines Hon Hother Hirq.
  assert (forall m, 0 <= m -> Z.testbit (if b then Z.lor (pin_irq_enable_mask d) (2 ^ n) else Z.ldiff (pin_irq_enable_mask d) (2 ^ n)) m =
    if m =? n then b else Z.testbit (pin_irq_enable_mask d) m) as Hmask.
  { intros m Hm. destruct b; [rewrite Z.lor_spec|rewrite Z.ldiff_spec]; rewrite pow2_bit by lia;
      destruct (m =? n); simpl; by rewrite ?orb_true_r, ?orb_false_r, ?andb_true_r, ?andb_false_r. }
  split; [done|done| |].
  - intros m Hm. destruct (Hl m Hm) as [Hh Hmk Hp Ho]. split; simpl.
    + destruct Hh as (h & Hh & Hb). exists h. split; [done|]. unfold upd_line. by destruct (m =? n).
    + rewrite Hmask by lia. unfold upd_line. by destruct (m =? n).
    + rewrite Hpr, Hp. unfold upd_line. by destruct (m =? n).
    + destruct (Z.eq_dec m n) as [->|Hne]; [rewrite upd_line_eq; exact Hon|].
      rewrite upd_line_ne by done. intros Hm'. rewrite (Hlines m Hm Hne Hm'). by apply Ho.
  - intros m Hm. simpl. destruct (Z.eq_dec (irq_of m) (irq_of n)) as [->|Hne]; [done|].
    unfold irq_ok. rewrite Hother by done. rewrite (Hi m Hm). apply eq_true_iff_eq. rewrite !existsb_exists.
    split; intros (j & Hj & Ho); exists j; (split; [done|]); apply list_elem_of_In, elem_of_lines in Hj as [Hj _];
      unfold upd_line in *; by destruct (Z.eqb_spec j n) as [->|].
Qed.

Lemma enable_ok p d s h n : driver_ok d s -> pin_line_no p = Some n -> bound (s n) = Some h ->
  if edge_mode (hdr_mode h) then exists d', stm32_pin_irq_enable p PIN_IRQ_ENABLE d = Some (RT_EOK, d') /\
      driver_ok d' (upd_line n (fun y => {| y with on := true |}) s)
  else stm32_pin_irq_enable p PIN_IRQ_ENABLE d = None.
Proof.
  intros Hd Hline Hbound. pose proof (line_bound p n Hline) as (Hp & -> & Hn). set (n := u8 p mod 16) in *.
  unfold stm32_pin_irq_enable. rewrite get_pin_spec, (proj2 (Z.ltb_lt _ _)) by lia. simpl.
  rewrite bit2bitno_spec by done. change (lenZ pin_irq_map) with 16. fold n.
  rewrite (proj2 (Z.ltb_ge n 0)), (proj2 (Z.leb_gt 16 n)) by lia. simpl.
  destruct (dk_lines d s Hd n Hn) as [(h' & Hh & Hb) _ _ _]. rewrite Hbound in Hb. destruct Hb as [-> Hb]. rewrite Hh. simpl.
  rewrite (proj2 (Z.eqb_neq _ _)), (pin_irq_map_spec n Hn) by done. simpl.
  pose proof (irq_init_spec (2 ^ n) (hdr_mode h)) as Hinit. destruct (edge_mode (hdr_mode h)); [|by rewrite Hinit].
  destruct Hinit as (i & -> & Hpin & Hspeed & Hexti & Hit & Hedge). simpl.
  destruct (gpio_init_ok (u8 p / 16) i (regs d)) as (g1 & -> & Hg1 & Hc1 & _ & Hl1);
    [apply Hd|dlia|done|rewrite Hpin; by apply bit_fits|]. simpl.
  destruct (nvic_priority_ok (irq_of n) 5 0 g1 Hg1) as (g2 & -> & Hg2 & Hs2 & Hi2); [apply irq_of_bound; lia|]. simpl.
  destruct (nvic_set_ok (irq_of n) g2 true Hg2) as (g3 & E3 & Hg3 & Hs3 & He3); [apply irq_of_bound; lia|]. rewrite E3. simpl.
  assert (forall m, line_of g3 m = line_of g1 m) as Hl3 by (intros m; by rewrite (line_of_pins g2 g3), (line_of_pins g1 g2)).
  eexists. split; [done|]. apply (irq_switch_ok d s n true); [done|done|done| | | | |].
  - by rewrite (sp_pr _ _ Hs3), (sp_pr _ _ Hs2), (sc_pr _ _ Hc1).
  - intros m Hm Hne _. by rewrite Hl3, Hl1, Hpin, pow2_bit, (proj2 (Z.eqb_neq _ _)) by (done || lia).
  - intros _. exists (asked_line (u8 p / 16) i). rewrite Hl3, Hl1, Hpin, pow2_bit, Z.eqb_refl, Hexti by (done || lia).
    split_and!; done.
  - intros m Hm Hne. rewrite He3 by (apply irq_of_bound; lia). rewrite (proj2 (Z.eqb_neq _ _)) by done.
    apply enabled_iser. by rewrite Hi2, (sc_iser _ _ Hc1).
  - rewrite He3, Z.eqb_refl by (apply irq_of_bound; lia). symmetry. apply existsb_exists. exists n.
    split; [by apply list_elem_of_In, elem_of_lines|by rewrite upd_line_eq].
Qed.

Lemma disable_ok p d s n : driver_ok d s -> pin_line_no p = Some n ->
  exists d', stm32_pin_irq_enable p PIN_IRQ_DISABLE d = Some (RT_EOK, d') /\
      driver_ok d' (upd_line n (fun y => {| y with on := false |}) s).
Proof.
  intros Hd Hline. pose proof (line_bound p n Hline) as (Hp & -> & Hn). set (n := u8 p mod 16) in *.
  unfold stm32_pin_irq_enable. rewrite get_pin_spec, (proj2 (Z.ltb_lt _ _)) by lia. simpl.
  rewrite get_pin_irq_map_spec by done. fold n. simpl.
  destruct (gpio_deinit_ok (u8 p / 16) (2 ^ n) (regs d)) as (g1 & -> & Hg1 & Hc1 & _ & Hl1);
    [apply Hd|dlia|by apply bit_fits|]. simpl.
  set (mask := Z.ldiff (pin_irq_enable_mask d) (2 ^ n)).
  assert (forall m, 0 <= m < 16 -> Z.testbit mask m = on (upd_line n (fun y => {| y with on := false |}) s m)) as Hmask.
  { intros m Hm. unfold mask. rewrite Z.ldiff_spec, pow2_bit, (lo_mask d s m (dk_lines d s Hd m Hm)) by lia.
    unfold upd_line. destruct (m =? n); simpl; by rewrite ?andb_false_r, ?andb_true_r. }
  destruct (release_irq_ok n mask g1) as (g2 & -> & Hg2 & Hs2 & He2); [done|done|by rewrite Hmask, upd_line_eq|]. simpl.
  assert (existsb (Z.testbit mask) (lines_of (irq_of n)) =
    existsb (fun m => on (upd_line n (fun y => {| y with on := false |}) s m)) (lines_of (irq_of n))) as Hex.
  { apply eq_true_iff_eq. rewrite !existsb_exists. split; intros (j & Hj & Ho); exists j; (split; [done|]);
      apply list_elem_of_In, elem_of_lines in Hj as [_ Hj]; by rewrite Hmask in *. }
  eexists. split; [done|]. apply (irq_switch_ok d s n false); [done|done|done| | |done| |].
  - by rewrite (sp_pr _ _ Hs2), (sc_pr _ _ Hc1).
  - intros m Hm Hne _. by rewrite (line_of_pins _ _ _ Hs2), Hl1, pow2_bit, (proj2 (Z.eqb_neq _ _)) by (done || lia).
  - intros m Hm Hne. rewrite He2 by (apply irq_of_bound; lia). rewrite (proj2 (Z.eqb_neq _ _)) by done. simpl.
    apply enabled_iser. by rewrite (sc_iser _ _ Hc1).
  - rewrite He2, Z.eqb_refl, Hex by (apply irq_of_bound; lia).
    match goal with |- context [negb ?e] => destruct e eqn:E end; [simpl|done].
    rewrite (enabled_iser (regs d) g1) by apply Hc1. rewrite (dk_irqs d s Hd n Hn).
    apply existsb_exists in E as (j & Hj & Ho). apply existsb_exists. exists j. split; [done|].
    unfold upd_line in Ho. by destruct (j =? n).
Qed.
End IrqProofs.

(** *** The interrupt *)
Section Refines.
Context {H : Hardware} {L : HardwareLaws} {A : Type} (call : Z -> Z -> A -> kernel -> option (A * kernel)).

Lemma exti_vector_spec irq : exti_vector (run_call call) irq =
  match lines_of irq with [] => None | l => Some (exti_handler (run_call call) (map (Z.pow 2) l)) end.
Proof.
  unfold exti_vector. do 7 (case_cmp; [subst; reflexivity|]).
  destruct (lines_of irq) as [|j l] eqn:E; [done|]. exfalso.
  assert (j ∈ lines_of irq) as [Hn Hr]%elem_of_lines by (rewrite E; by apply list_elem_of_here).
  revert Hn. unfold irq_of, EXTI0_IRQn, EXTI1_IRQn, EXTI2_IRQn, EXTI3_IRQn, EXTI4_IRQn, EXTI9_5_IRQn, EXTI15_10_IRQn in *.
  repeat case_cmp; lia.
Qed.

(** The driver when only the pending bits of the registers change. *)
Lemma pending_ok d s s' g' : driver_ok d s -> gpio_shape g' -> EXTICR g' = EXTICR (regs d) -> IMR g' = IMR (regs d) ->
  EMR g' = EMR (regs d) -> RTSR g' = RTSR (regs d) -> FTSR g' = FTSR (regs d) -> ISER g' = ISER (regs d) ->
  (forall n, 0 <= n < 16 -> bound (s' n) = bound (s n) /\ on (s' n) = on (s n) /\ Z.testbit (PR g') n = pending (s' n)) ->
  driver_ok (set_regs g' d) s'.
Proof.
  intros [Hg Ht Hl Hi] Hg' Ee Ei Em Er Ef Es Hs. split; [done|done| |].
  - intros n Hn. destruct (Hl n Hn) as [Hh Hmk Hp Ho], (Hs n Hn) as (Hb & Hon & Hpd). split; rewrite ?Hb, ?Hon; try done.
    intros Hn'. destruct (Ho Hn') as (l & E & ?). exists l. split; [|done]. rewrite <- E.
    unfold line_of. simpl. by rewrite Ee, Ei, Em, Er, Ef.
  - intros n Hn. apply (irq_frame (regs d) _ s); [by apply Hi|by apply enabled_iser|]. intros m Hm. apply Hs, Hm.
Qed.

Lemma shape_same g g' : gpio_shape g -> ports g' = ports g -> EXTICR g' = EXTICR g -> ISER g' = ISER g -> IP g' = IP g -> gpio_shape g'.
Proof. intros [] Hp He Hi Hq. split; congruence. Qed.

Lemma exti_lines_ok l : forall s w, Forall (fun n => 0 <= n < 16) l -> driver_ok (drv w) s ->
  match spec_lines call l s (app w) (krn w) with
  | Some (s', a', k') => exists w', exti_lines (run_call call) (map (Z.pow 2) l) w = Some w' /\
      driver_ok (drv w') s' /\ app w' = a' /\ krn w' = k'
  | None => exti_lines (run_call call) (map (Z.pow 2) l) w = None
  end.
Proof.
  induction l as [|n l IH]; intros s w Hl Hd; simpl; [by exists w|].
  apply Forall_cons in Hl as [Hn Hl].
  destruct (exti_irq_ok n (regs (drv w)) Hn) as (g' & E & Hpr & Hp & He & Hi & Hm & Hr & Hf & Hs & Hip). rewrite E.
  rewrite (lo_pending _ _ _ (dk_lines _ _ Hd n Hn)).
  assert (gpio_shape g') as Hg' by (apply (shape_same (regs (drv w))); try done; apply Hd).
  destruct (pending (s n)) eqn:Ep.
  - set (s1 := upd_line n _ s).
    assert (driver_ok (set_regs g' (drv w)) s1) as Hd1.
    { apply (pending_ok _ s); try done. intros m Hm'. rewrite Hpr by done. unfold s1, upd_line.
      rewrite (lo_pending _ _ _ (dk_lines _ _ Hd m Hm')). by destruct (m =? n). }
    unfold HAL_GPIO_EXTI_Callback, pin_irq_hdr. rewrite bit2bitno_spec by done.
    rewrite (proj2 (Z.leb_le 0 n)) by lia. simpl.
    destruct (dk_lines _ _ Hd n Hn) as [(h & Hh & Hb) _ _ _]. rewrite Hh. simpl.
    assert (bound (s1 n) = bound (s n)) as -> by (unfold s1; by rewrite upd_line_eq).
    set (w1 := set_drv (set_regs g' (drv w)) w).
    destruct (bound (s n)) as [b|].
    + destruct Hb as [-> _]. destruct (hdr_fn b) as [f|]; simpl; [|exact (IH s1 w1 Hl Hd1)].
      assert (run_call call f (hdr_args b) w1 =
        ('(a, k) ← call f (hdr_args b) (app w) (krn w); Some {| w1 with app := a; krn := k |})) as -> by done.
      destruct (call f (hdr_args b) (app w) (krn w)) as [[a k]|]; simpl; [|done].
      exact (IH s1 {| w1 with app := a; krn := k |} Hl Hd1).
    + subst h. simpl. exact (IH s1 w1 Hl Hd1).
  - simpl. apply (IH s (set_drv (set_regs g' (drv w)) w) Hl).
    apply (pending_ok _ s); try done. intros m Hm'. rewrite Hpr by done.
    rewrite (lo_pending _ _ _ (dk_lines _ _ Hd m Hm')). destruct (Z.eqb_spec m n) as [->|]; [by rewrite Ep|done].
Qed.

(** Modes and levels do not touch the lines. *)
Lemma one_pin_ok p f d s g' : driver_ok d s -> one_pin p f (regs d) g' -> driver_ok (set_regs g' d) s.
Proof.
  intros [Hg Ht Hl Hi] [Hg' Hc Hlines _]. split; [done|done| |].
  - intros n Hn. apply (line_frame d _ s); try done; [by apply Hl|simpl; by rewrite (sc_pr _ _ Hc)|by apply Hlines].
  - intros n Hn. apply (irq_frame (regs d) _ s); [by apply Hi|apply enabled_iser, Hc|done].
Qed.

Lemma drv_step_ok e s w : driver_ok (drv w) s ->
  match spec_step call e s (app w) (krn w) with
  | Some (r, s', a', k') => exists w', drv_step call e w = Some (r, w') /\ driver_ok (drv w') s' /\ app w' = a' /\ krn w' = k'
  | None => drv_step call e w = None
  end.
Proof.
  intros Hd. destruct e as [p m f x|p|p en|[p m|p v]|v|irq]; cbn [spec_step drv_step].
  - generalize (attach_ok p m f x (drv w) s Hd). destruct (pin_line_no p) as [n|];
      [destruct (bound (s n))|]; intros Ha; [rewrite Ha; exists w; by destruct w| |rewrite Ha; exists w; by destruct w].
    destruct Ha as (d' & -> & Hd'). by exists (set_drv d' w).
  - generalize (detach_ok p (drv w) s Hd). destruct (pin_line_no p) as [n|]; intros Ha; [|rewrite Ha; exists w; by destruct w].
    destruct Ha as (d' & -> & Hd'). by exists (set_drv d' w).
  - destruct (pin_line_no p) as [n|] eqn:E.
    + destruct (Z.eqb_spec en PIN_IRQ_ENABLE) as [->|He]; [|destruct (Z.eqb_spec en PIN_IRQ_DISABLE) as [->|He']].
      * destruct (bound (s n)) as [h|] eqn:Eb.
        -- generalize (enable_ok p (drv w) s h n Hd E Eb). destruct (edge_mode (hdr_mode h)); intros Ha; [|by rewrite Ha].
           destruct Ha as (d' & -> & Hd'). by exists (set_drv d' w).
        -- pose proof (line_bound p n E) as (Hp & -> & Hn). exists w. split; [|done].
           unfold stm32_pin_irq_enable. rewrite get_pin_spec, (proj2 (Z.ltb_lt _ _)) by lia. simpl.
           rewrite bit2bitno_spec by done. change (lenZ pin_irq_map) with 16.
           rewrite (proj2 (Z.ltb_ge (u8 p mod 16) 0)), (proj2 (Z.leb_gt 16 (u8 p mod 16))) by lia. simpl.
           destruct (dk_lines _ _ Hd _ Hn) as [(h & -> & Hb) _ _ _]. rewrite Eb in Hb. subst h. simpl. by destruct w.
      * destruct (disable_ok p (drv w) s n Hd E) as (d' & -> & Hd'). by exists (set_drv d' w).
      * pose proof (line_bound p n E) as (Hp & -> & Hn). exists w. split; [|done].
        unfold stm32_pin_irq_enable. rewrite get_pin_spec, (proj2 (Z.ltb_lt _ _)) by lia. simpl.
        rewrite (proj2 (Z.eqb_neq en PIN_IRQ_ENABLE)), (proj2 (Z.eqb_neq en PIN_IRQ_DISABLE)) by done. by destruct w.
    + exists w. split; [|done]. revert E. unfold pin_line_no, stm32_pin_irq_enable. rewrite get_pin_spec.
      destruct (u8 p <? 80); [done|]. by destruct w.
  - destruct (stm32_pin_mode_ok p m (drv w)) as (g' & -> & Ho); [apply Hd|]. simpl.
    eexists. split_and!; [done|by apply (one_pin_ok (u8 p) (mode_effect m))|done|done].
  - destruct (stm32_pin_write_ok p v (drv w)) as (g' & -> & Ho); [apply Hd|]. simpl.
    eexists. split_and!; [done|by apply (one_pin_ok (u8 p) (level_effect v))|done|done].
  - eexists. split_and!; [done| |done|done]. apply (pending_ok _ s); try done.
    + apply (shape_same (regs (drv w))); try done. apply Hd.
    + intros n Hn. split_and!; [done|done|]. simpl. by rewrite Z.lor_spec, (lo_pending _ _ _ (dk_lines _ _ Hd n Hn)).
  - rewrite exti_vector_spec. destruct (lines_of irq) as [|n l] eqn:E; [done|]. cbn [mbind option_bind].
    unfold exti_handler.
    pose proof (exti_lines_ok (n :: l) s (set_krn (rt_interrupt_enter (krn w)) w)) as Hx. cbn [app krn set_krn] in Hx.
    destruct (spec_lines call (n :: l) s (app w) (rt_interrupt_enter (krn w))) as [[[s' a'] k']|].
    + destruct Hx as (w' & -> & Hd' & Ha & Hk); [|done|].
      * rewrite <- E. apply Forall_forall. intros m Hm%elem_of_lines. lia.
      * simpl. eexists. split_and!; [done|done|done|]. simpl. by rewrite Hk.
    + rewrite Hx; [done| |done]. rewrite <- E. apply Forall_forall. intros m Hm%elem_of_lines. lia.
Qed.

Lemma drv_run_ok l : forall s w, driver_ok (drv w) s ->
  match spec_run call l s (app w) (krn w) with
  | Some (rs, s', a', k') => exists w', drv_run call l w = Some (rs, w') /\ driver_ok (drv w') s' /\ app w' = a' /\ krn w' = k'
  | None => drv_run call l w = None
  end.
Proof.
  induction l as [|e l IH]; intros s w Hd; simpl; [by exists w|].
  pose proof (drv_step_ok e s w Hd) as He. destruct (spec_step call e s (app w) (krn w)) as [[[[r s1] a1] k1]|]; simpl;
    [|by rewrite He].
  destruct He as (w1 & -> & Hd1 & <- & <-). simpl.
  pose proof (IH s1 w1 Hd1) as Hl. destruct (spec_run call l s1 (app w1) (krn w1)) as [[[[rs s2] a2] k2]|]; simpl;
    [|by rewrite Hl].
  destruct Hl as (w2 & -> & Hd2 & Ha & Hk). simpl. by exists w2.
Qed.
End Refines.

(** ** The driver when the program starts *)
Definition linked (g : gpio) : pin_driver :=
  {| regs := g; pin_irq_hdr_tab := replicate 16 no_hdr; pin_irq_enable_mask := 0 |}.
Definition lines_off : Z -> line_state := fun _ => {| bound := None; on := false; pending := false |}.

Lemma linked_ok g : gpio_shape g -> (forall n, 0 <= n < 16 -> enabled g (irq_of n) = false /\ Z.testbit (PR g) n = false) ->
  driver_ok (linked g) lines_off.
Proof.
  intros Hg Hoff. split; [done|done| |].
  - intros n Hn. split; try done; [|by rewrite Z.bits_0|apply Hoff, Hn].
    exists no_hdr. split; [|done]. cbn [linked pin_irq_hdr_tab]. apply lookup_replicate_2. lia.
  - intros n Hn. unfold irq_ok. transitivity false; [apply Hoff, Hn|]. symmetry. apply not_true_iff_false.
    rewrite existsb_exists. by intros (m & _ & ?).
Qed.

(** C12: in every run that starts with the interrupts of EXTI off, whatever is attached, detached, switched on and off,
    configured and written, and whenever edges come and the vectors run: the driver returns what the specification of the lines
    returns, calls the functions that are bound to the pending lines and no others, and keeps an interrupt
    enabled exactly while one of its lines is on. *)
Theorem pin_irq_refines {H : Hardware} {L : HardwareLaws} {A : Type} (call : Z -> Z -> A -> kernel -> option (A * kernel))
    (g : gpio) (l : list irq_event) (a : A) (k : kernel) :
  gpio_shape g -> (forall n, 0 <= n < 16 -> enabled g (irq_of n) = false /\ Z.testbit (PR g) n = false) ->
  match spec_run call l lines_off a k with
  | Some (rs, s, a', k') => exists w, drv_run call l {| drv := linked g; app := a; krn := k |} = Some (rs, w) /\
      driver_ok (drv w) s /\ app w = a' /\ krn w = k'
  | None => drv_run call l {| drv := linked g; app := a; krn := k |} = None
  end.
Proof. intros Hg Hoff. apply (drv_run_ok call l lines_off {| drv := linked g; app := a; krn := k |}). by apply linked_ok. Qed.

(** Functions that write down their calls. *)
Definition note (f args : Z) (log : list (Z * Z)) (k : kernel) : option (list (Z * Z) * kernel) := Some (log ++ [(f, args)], k).

(** PA0 and PB6 have functions; a rising edge on PB6 calls the one, and the edge on PA0, which is not on, calls none. *)
Definition demo_events : list irq_event :=
  [Attach 0 PIN_IRQ_MODE_RISING (Some 100) 7; Attach 22 PIN_IRQ_MODE_FALLING (Some 200) 8; SetIrq 22 PIN_IRQ_ENABLE;
   Attach 38 PIN_IRQ_MODE_RISING (Some 300) 9; Edges 0x40; Irq EXTI9_5_IRQn; SetIrq 22 PIN_IRQ_DISABLE].

Lemma pin_irq_refines_witness : exists w,
  @drv_run (list (Z * Z)) note demo_hardware demo_events {| drv := linked reset_regs; app := []; krn := demo_kernel |} =
    Some ([RT_EOK; RT_EOK; RT_EOK; RT_EBUSY; RT_EOK; RT_EOK; RT_EOK], w) /\
  app w = [(200, 8)] /\ enabled (regs (drv w)) EXTI9_5_IRQn = false.
Proof.
  generalize demo_kernel as k. intros k.
  pose proof (@pin_irq_refines demo_hardware demo_hardware_laws (list (Z * Z)) note reset_regs demo_events [] k
    reset_regs_shape) as P.
  assert (forall n, 0 <= n < 16 -> enabled reset_regs (irq_of n) = false /\ Z.testbit (PR reset_regs) n = false) as Hoff.
  { intros n Hn. split; [|apply Z.bits_0]. apply negb_true_iff.
    apply (table_check (fun n => negb (enabled reset_regs (irq_of n))) 16); [reflexivity|exact Hn]. }
  specialize (P Hoff).
  assert (match spec_run note demo_events lines_off [] k with
    | Some (rs, s, a', _) => rs = [RT_EOK; RT_EOK; RT_EOK; RT_EBUSY; RT_EOK; RT_EOK; RT_EOK] /\ a' = [(200, 8)] /\
        existsb (fun n => on (s n)) (lines_of EXTI9_5_IRQn) = false
    | None => False end) as HE by (vm_compute; repeat split).
  destruct (spec_run note demo_events lines_off [] k) as [[[[rs s] a'] k']|]; [|destruct HE].
  destruct HE as (-> & -> & Hon).
  destruct P as (w & Ew & Hd & Ha & _). exists w. split; [exact Ew|]. split; [exact Ha|].
  rewrite <- Hon. exact (dk_irqs _ _ Hd 6 ltac:(lia)).
Defined.

Lemma reads_effects q l v : v_reads (pin_effects q l v) = v_reads v.
Proof.
  unfold pin_effects. revert v. induction l as [|e l IH]; intros v; simpl; [done|]. rewrite IH.
  destruct (q =? op_pin e); [|done]. destruct e as [p m|p x]; simpl; [unfold mode_effect; by repeat case_match|done].
Qed.

(** Pins are independent: whatever calls of rt_pin_mode and rt_pin_write any threads make, in any order, what
    becomes of a pin is what the calls for this pin make of it; what pins read and how interrupts are set up stays. *)
Lemma pins_independent {H : Hardware} {L : HardwareLaws} (l : list pin_op) (h : hw_pin pin_driver) :
  gpio_shape (regs (hw_drv h)) -> ops h = Some _stm32_pin_ops ->
  exists h', pin_ops_run l h = Some h' /\ ops h' = ops h /\
    (forall q, 0 <= q < 80 -> pin_of (regs (hw_drv h')) q = pin_effects q l <$> pin_of (regs (hw_drv h)) q /\
      rt_pin_read q h' = rt_pin_read q h) /\
    (forall n, 0 <= n < 16 -> line_of (regs (hw_drv h')) n = line_of (regs (hw_drv h)) n) /\
    same_control (regs (hw_drv h)) (regs (hw_drv h')).
Proof.
  intros Hg Ho. destruct (pin_ops_ok l h Hg Ho) as (g' & E & Hg' & Hc & Hl & Hp).
  eexists. split_and!; [exact E|done| |exact Hl|exact Hc].
  intros q Hq. split; [by apply Hp|]. destruct (pin_of_some _ q Hg Hq) as [v Hv].
  transitivity (Some (Z.b2z (v_reads v))); [|symmetry]; unfold rt_pin_read; simpl; rewrite Ho; simpl.
  - rewrite (stm32_pin_read_ok q _ (pin_effects q l v) Hq) by (simpl; by rewrite Hp, Hv). by rewrite reads_effects.
  - by apply stm32_pin_read_ok.
Qed.

Lemma pins_independent_witness : exists h',
  pin_ops_run [PinMode 45 PIN_MODE_OUTPUT; PinMode 29 PIN_MODE_INPUT_PULLUP; PinWrite 45 1; PinWrite 44 0]
    {| ops := Some (@_stm32_pin_ops demo_hardware); hw_drv := linked reset_regs |} = Some h' /\
  pin_of (regs (hw_drv h')) 45 = Some {| v_config := 3; v_latch := true; v_reads := false |} /\
  pin_of (regs (hw_drv h')) 29 = Some {| v_config := 8; v_latch := true; v_reads := false |} /\
  pin_of (regs (hw_drv h')) 46 = pin_of reset_regs 46.
Proof.
  destruct (@pins_independent demo_hardware demo_hardware_laws
    [PinMode 45 PIN_MODE_OUTPUT; PinMode 29 PIN_MODE_INPUT_PULLUP; PinWrite 45 1; PinWrite 44 0]
    {| ops := Some (@_stm32_pin_ops demo_hardware); hw_drv := linked reset_regs |} reset_regs_shape eq_refl)
    as (h' & E & _ & Hp & _).
  exists h'. split; [exact E|]. rewrite (proj1 (Hp 45 ltac:(lia))), (proj1 (Hp 29 ltac:(lia))), (proj1 (Hp 46 ltac:(lia))).
  repeat split; reflexivity.
Defined.

(** ** What the lines that pins share lead to *)

(** rt_pin_detach_irq(PB0) takes the function of PA0 away. *)
Lemma detach_drops_other_pin : exists d d', stm32_pin_attach_irq (GET_PIN 0 0) PIN_IRQ_MODE_RISING (Some 100) 7 (linked reset_regs) = Some (RT_EOK, d) /\
  pin_irq_hdr_tab d !! 0%nat = Some {| hdr_pin := 0; hdr_mode := 0; hdr_fn := Some 100; hdr_args := 7 |} /\
  stm32_pin_dettach_irq (GET_PIN 1 0) d = Some (RT_EOK, d') /\ pin_irq_hdr_tab d' !! 0%nat = Some no_hdr.
Proof. do 2 eexists. split; [vm_compute; reflexivity|]. split; [reflexivity|]. split; [vm_compute; reflexivity|]. reflexivity. Qed.

(** rt_pin_irq_enable(PB0) succeeds when only PA0 has a function, and the line then listens to port B: PA0 is not
    heard any more.  Disabling PB0 afterwards turns the interrupt off for both. *)
Lemma enable_takes_line_over : exists d1 d2 d3 d4 l,
  stm32_pin_attach_irq (GET_PIN 0 0) PIN_IRQ_MODE_RISING (Some 100) 7 (linked reset_regs) = Some (RT_EOK, d1) /\
  @stm32_pin_irq_enable demo_hardware (GET_PIN 0 0) PIN_IRQ_ENABLE d1 = Some (RT_EOK, d2) /\
  @stm32_pin_irq_enable demo_hardware (GET_PIN 1 0) PIN_IRQ_ENABLE d2 = Some (RT_EOK, d3) /\
  line_of (regs d3) 0 = Some l /\ v_source l = 1 /\ enabled (regs d3) EXTI0_IRQn = true /\
  @stm32_pin_irq_enable demo_hardware (GET_PIN 2 0) PIN_IRQ_DISABLE d3 = Some (RT_EOK, d4) /\
  line_of (regs d4) 0 = Some l /\ enabled (regs d4) EXTI0_IRQn = false.
Proof.
  do 5 eexists. split; [vm_compute; reflexivity|]. split; [vm_compute; reflexivity|]. split; [vm_compute; reflexivity|].
  split; [vm_compute; reflexivity|]. split; [reflexivity|]. split; [reflexivity|]. split; [vm_compute; reflexivity|]. split; reflexivity.
Qed.

(** The level modes of pin.h can be attached; enabling such a pin uses a structure that was not initialised. *)
Lemma level_mode_undefined {H : Hardware} : exists d,
  stm32_pin_attach_irq 0 PIN_IRQ_MODE_HIGH_LEVEL (Some 100) 7 (linked reset_regs) = Some (RT_EOK, d) /\
  stm32_pin_irq_enable 0 PIN_IRQ_ENABLE d = None.
Proof. eexists. split; [vm_compute; reflexivity|]. reflexivity. Qed.

(** The errors of the driver have both signs. *)
Lemma errors_of_both_signs {H : Hardware} d :
  stm32_pin_irq_enable 80 PIN_IRQ_ENABLE d = Some (RT_ENOSYS, d) /\ stm32_pin_irq_enable 0 2 d = Some (- RT_ENOSYS, d).
Proof. split; reflexivity. Qed.
