(* ===== verification/Board.v ===== *)
(** * The board (src/applications, OLED.c over the pins)

    The hardware side of the program: what indicator_led.c, notifier_buzzer.c, sensor_light.c and OLED.c do with pins,
    through the pin device and the HAL, in the order of main.  [Ui] and [Oled] describe the LEDs, the buzzer and the
    bus by levels; here the levels are those of the registers. *)
From S2P Require Import Prelude Gpio Oled Stopwatch Ui Kernel Sched Device Pin.

Definition LED_RUN_PIN : Z := GET_PIN 2 13.
Definition LED_PAUSE_PIN : Z := GET_PIN 1 0.
Definition LED_ERR_PIN : Z := GET_PIN 1 1.
Definition BUZZER_PIN : Z := GET_PIN 1 12.
Definition LIGHT_DO_PIN : Z := GET_PIN 1 13.
Definition OLED_SCL_PIN : Z := GET_PIN 1 8.
Definition OLED_SDA_PIN : Z := GET_PIN 1 9.

Section Board.
Context {H : Hardware}.
Abbreviation hw := (hw_pin pin_driver).

(** ** indicator_led.c *)
Definition led_set (pin on : Z) (h : hw) : option hw := rt_pin_write pin (if negb (on =? 0) then PIN_HIGH else PIN_LOW) h.

Definition indicator_led_pins (h : hw) : option hw :=
  h ← rt_pin_mode LED_RUN_PIN PIN_MODE_OUTPUT h;
  h ← rt_pin_mode LED_PAUSE_PIN PIN_MODE_OUTPUT h;
  h ← rt_pin_mode LED_ERR_PIN PIN_MODE_OUTPUT h;
  h ← led_set LED_RUN_PIN 0 h;
  h ← led_set LED_PAUSE_PIN 0 h;
  led_set LED_ERR_PIN 0 h.

Definition led_set_all (r p e : Z) (h : hw) : option hw :=
  h ← led_set LED_RUN_PIN r h; h ← led_set LED_PAUSE_PIN p h; led_set LED_ERR_PIN e h.

(** The switch of indicator_led_entry, with its variable [blink]. *)
Definition indicator_led_round (s : stopwatch_state_t) (blink : Z) (h : hw) : option (Z * hw) :=
  match s with
  | STOPWATCH_STATE_RUNNING =>
      let blink := if blink =? 0 then 1 else 0 in
      h ← led_set_all blink 0 0 h; Some (blink, h)
  | STOPWATCH_STATE_PAUSED => h ← led_set_all 0 1 0 h; Some (blink, h)
  | STOPWATCH_STATE_IDLE => h ← led_set_all 0 0 0 h; Some (blink, h)
  end.

(** ** notifier_buzzer.c *)
Definition buz_set_pin (on : Z) (h : hw) : option hw :=
  rt_pin_write BUZZER_PIN (if negb (on =? 0) then PIN_LOW else PIN_HIGH) h.

Definition notifier_buzzer_pins (h : hw) : option hw :=
  h ← rt_pin_mode BUZZER_PIN PIN_MODE_OUTPUT h; buz_set_pin 0 h.

(** s_beep_enabled and the pins. *)
Definition beep_enable (enable : Z) (h : hw) : option (Z * hw) :=
  let s := if negb (enable =? 0) then 1 else 0 in
  if s =? 0 then h ← buz_set_pin 0 h; Some (s, h) else Some (s, h).

(** ** sensor_light.c *)
Definition sensor_light_pins (h : hw) : option hw := rt_pin_mode LIGHT_DO_PIN PIN_MODE_INPUT_PULLUP h.

Definition read_do_pin (s : sensor) (h : hw) : option Z := v ← rt_pin_read LIGHT_DO_PIN h; Some (read_do v s).

(** ** OLED.c: the bus lines are PB8 and PB9, and the HAL is called without the pin device *)
Definition on_regs (f : gpio -> option gpio) (h : hw) : option hw :=
  g ← f (regs (hw_drv h)); Some (set_hw_drv (set_regs g (hw_drv h)) h).

Definition drive (l : level) : hw -> option hw :=
  match l with
  | SCL b => on_regs (HAL_GPIO_WritePin 1 0x0100 (if b then GPIO_PIN_SET else GPIO_PIN_RESET))
  | SDA b => on_regs (HAL_GPIO_WritePin 1 0x0200 (if b then GPIO_PIN_SET else GPIO_PIN_RESET))
  end.

Fixpoint drive_all (l : list level) (h : hw) : option hw :=
  match l with [] => Some h | x :: l => h ← drive x h; drive_all l h end.

Definition oled_pins_init : GPIO_InitTypeDef :=
  {| Pin := Z.lor 0x0100 0x0200; Mode := GPIO_MODE_OUTPUT_OD; Pull := GPIO_PULLUP; Speed := GPIO_SPEED_FREQ_HIGH |}.

(** OLED_GPIO_Init without its delay; [OLED_Init] of [Oled] writes the levels at its end. *)
Definition OLED_GPIO_Init (h : hw) : option hw :=
  h ← on_regs (fun g => HAL_GPIO_Init 1 oled_pins_init (rcc_gpio_clk_enable 1 g)) h;
  drive_all [SCL true; SDA true] h.

(** ** main: the pins in the order in which it initialises the modules *)
Definition board_boot (h : hw) : option hw :=
  h ← indicator_led_pins h;
  h ← notifier_buzzer_pins h;
  h ← OLED_GPIO_Init h;
  sensor_light_pins h.

(** ** The threads of the program at work: the variables [blink] and s_beep_enabled, and the pins *)
Inductive board_op :=
  | LedRound (s : stopwatch_state_t)
  | BeepEnable (enable : Z)
  | BuzSet (on : Z)                       (** the halves of notifier_beep_once *)
  | BusOut (l : list level).              (** what a function of OLED.c puts on the bus *)

Record board_state := { brd_blink : Z; brd_beep : Z; brd_hw : hw }.
Definition set_brd_hw (h : hw) (b : board_state) : board_state := {| b with brd_hw := h |}.

Definition board_step (e : board_op) (b : board_state) : option board_state :=
  match e with
  | LedRound s => '(k, h) ← indicator_led_round s (brd_blink b) (brd_hw b); Some {| b with brd_blink := k; brd_hw := h |}
  | BeepEnable en => '(s, h) ← beep_enable en (brd_hw b); Some {| b with brd_beep := s; brd_hw := h |}
  | BuzSet on => h ← buz_set_pin on (brd_hw b); Some (set_brd_hw h b)
  | BusOut l => h ← drive_all l (brd_hw b); Some (set_brd_hw h b)
  end.

Fixpoint board_run (l : list board_op) (b : board_state) : option board_state :=
  match l with [] => Some b | e :: l => b ← board_step e b; board_run l b end.
End Board.

(** ** The same in levels, by the definitions of [Ui] and [Oled] *)
Record board := { b_leds : leds; b_buzzer : buzzer; b_bus : pins }.

Definition level_step (e : board_op) (b : board) : board :=
  match e with
  | LedRound s => {| b with b_leds := fst (indicator_led_step s (b_leds b)) |}
  | BeepEnable en => {| b with b_buzzer := notifier_beep_enable en (b_buzzer b) |}
  | BuzSet on => {| b with b_buzzer := buz_set on (b_buzzer b) |}
  | BusOut l => {| b with b_bus := b_bus b ++ l |}
  end.

Definition level_boot : board :=
  {| b_leds := {| led_run := led_level 0; led_pause := led_level 0; led_err := led_level 0; blink := 0 |};
     b_buzzer := buz_set 0 {| s_beep_enabled := 1; buz_level := 0 |}; b_bus := [SCL true; SDA true] |}.

(** The level of a line is the last one that was written. *)
Definition scl_level (p : pins) : bool := fold_left (fun b l => match l with SCL x => x | SDA _ => b end) p true.
Definition sda_level (p : pins) : bool := fold_left (fun b l => match l with SDA x => x | SCL _ => b end) p true.

(** What the registers of the pins hold: configuration (3 push-pull output, 7 open drain, 8 input with pull), latch. *)
Definition board_pins (b : board) : list (Z * Z * bool) :=
  [(LED_RUN_PIN, 3, negb (led_run (b_leds b) =? 0)); (LED_PAUSE_PIN, 3, negb (led_pause (b_leds b) =? 0));
   (LED_ERR_PIN, 3, negb (led_err (b_leds b) =? 0)); (BUZZER_PIN, 3, negb (buz_level (b_buzzer b) =? 0));
   (OLED_SCL_PIN, 7, scl_level (b_bus b)); (OLED_SDA_PIN, 7, sda_level (b_bus b)); (LIGHT_DO_PIN, 8, true)].

Definition pin_is (g : gpio) (q c : Z) (l : bool) : Prop :=
  exists r, pin_of g q = Some {| v_config := c; v_latch := l; v_reads := r |}.

(** ** How functions transform pins *)
Section Acts.
Context {H : Hardware} {L : HardwareLaws}.
Abbreviation hw := (hw_pin pin_driver).

Definition ready (h : hw) : Prop := gpio_shape (regs (hw_drv h)) /\ ops h = Some _stm32_pin_ops.

(** [F] never fails and makes [T q v] of a pin [q] that is [v]. *)
Definition acts (F : hw -> option hw) (T : Z -> pin_view -> pin_view) : Prop := forall h, ready h ->
  exists h', F h = Some h' /\ ready h' /\
    forall q, 0 <= q < 80 -> pin_of (regs (hw_drv h')) q = T q <$> pin_of (regs (hw_drv h)) q.

Lemma acts_bind F G T U : acts F T -> acts G U -> acts (fun h => F h ≫= G) (fun q v => U q (T q v)).
Proof.
  intros HF HG h Hh. destruct (HF h Hh) as (h1 & -> & Hh1 & HT). destruct (HG h1 Hh1) as (h2 & E & Hh2 & HU).
  exists h2. split_and!; [done|done|]. intros q Hq. rewrite HU, HT by done. by destruct (pin_of _ _).
Qed.

Lemma acts_one p f (F : hw -> option hw) : (forall h, ready h -> exists g',
    F h = Some (set_hw_drv (set_regs g' (hw_drv h)) h) /\ one_pin p f (regs (hw_drv h)) g') ->
  acts F (fun q v => if q =? p then f v else v).
Proof.
  intros HF h Hh. destruct (HF h Hh) as (g' & -> & [Hg _ _ Hp]). eexists. split_and!; [done|split; [done|apply Hh]|].
  intros q Hq. simpl. rewrite Hp by done. destruct (pin_of _ q); by destruct (q =? p).
Qed.

Lemma acts_some : acts Some (fun _ v => v).
Proof. intros h Hh. exists h. split_and!; [done|done|]. intros q _. by destruct (pin_of _ q). Qed.

Lemma acts_mode p m : acts (rt_pin_mode p m) (fun q v => if q =? u8 p then mode_effect m v else v).
Proof. apply acts_one. intros h [Hg Ho]. exact (pin_op_ok (PinMode p m) h Hg Ho). Qed.

Lemma acts_write p x : acts (rt_pin_write p x) (fun q v => if q =? u8 p then level_effect x v else v).
Proof. apply acts_one. intros h [Hg Ho]. exact (pin_op_ok (PinWrite p x) h Hg Ho). Qed.

Definition line_pin (l : level) : Z := match l with SCL _ => OLED_SCL_PIN | SDA _ => OLED_SDA_PIN end.
Definition line_level (l : level) : bool := match l with SCL b => b | SDA b => b end.

Lemma acts_drive l : acts (drive l) (fun q v => if q =? line_pin l then {| v with v_latch := line_level l |} else v).
Proof.
  intros h [Hg Ho].
  assert (forall n (b : bool), 0 <= n < 16 -> acts (on_regs (HAL_GPIO_WritePin 1 (2 ^ n) (if b then GPIO_PIN_SET else GPIO_PIN_RESET)))
    (fun q v => if q =? 16 + n then {| v with v_latch := b |} else v)) as Hw.
  { clear h Hg Ho. intros n b Hn h [Hg Ho]. unfold on_regs.
    destruct (gpio_write_ok 1 (2 ^ n) (if b then GPIO_PIN_SET else GPIO_PIN_RESET) (regs (hw_drv h))) as (g' & -> & Hg' & _ & Hv & _);
      [done|lia|by apply bit_fits|].
    eexists. split_and!; [done|by split|]. intros q Hq. unfold pin_of. simpl. rewrite Hv, pow2_bit by dlia.
    replace ((q / 16 =? 1) && (q mod 16 =? n)) with (q =? 16 + n)
      by (destruct (Z.eqb_spec (q / 16) 1), (Z.eqb_spec (q mod 16) n), (Z.eqb_spec q (16 + n)); simpl; done || dlia).
    destruct (view _ _ _); destruct (q =? 16 + n); by destruct b. }
  destruct l as [b|b]; [exact (Hw 8 b ltac:(lia) h (conj Hg Ho))|exact (Hw 9 b ltac:(lia) h (conj Hg Ho))].
Qed.

Lemma acts_oled_init : acts (on_regs (fun g => HAL_GPIO_Init 1 oled_pins_init (rcc_gpio_clk_enable 1 g)))
  (fun q v => if (q =? OLED_SCL_PIN) || (q =? OLED_SDA_PIN) then {| v with v_config := 7 |} else v).
Proof.
  intros h [Hg Ho]. unfold on_regs. set (g := rcc_gpio_clk_enable 1 (regs (hw_drv h))).
  assert (gpio_shape g) as Hs by (by destruct Hg).
  destruct (gpio_init_ok 1 oled_pins_init g) as (g' & -> & Hg' & _ & Hv & _);
    [done|lia|apply (bool_decide_eq_true_1 _); reflexivity|apply (bool_decide_eq_true_1 _); reflexivity|].
  eexists. split_and!; [done|by split|]. intros q Hq. unfold pin_of. simpl. rewrite Hv by dlia.
  assert (forall n, 0 <= n < 16 -> Z.testbit (Pin oled_pins_init) n = (n =? 8) || (n =? 9)) as Hbits.
  { intros n Hn. apply eqb_prop. by apply (table_check (fun n => Bool.eqb (Z.testbit (Pin oled_pins_init) n) ((n =? 8) || (n =? 9))) 16). }
  rewrite Hbits by dlia. change (view g) with (view (regs (hw_drv h))).
  change OLED_SCL_PIN with 24. change OLED_SDA_PIN with 25.
  replace ((q / 16 =? 1) && ((q mod 16 =? 8) || (q mod 16 =? 9))) with ((q =? 24) || (q =? 25))
    by (destruct (Z.eqb_spec (q / 16) 1), (Z.eqb_spec (q mod 16) 8), (Z.eqb_spec (q mod 16) 9), (Z.eqb_spec q 24), (Z.eqb_spec q 25);
        simpl; done || dlia).
  destruct (view _ _ _) as [v|]; destruct (_ || _); done.
Qed.

(** ** The levels are in the registers *)
Record shows (b : board) (h : hw) : Prop := {
  sh_ready : ready h;
  sh_pins : forall q c l, (q, c, l) ∈ board_pins b -> pin_is (regs (hw_drv h)) q c l
}.

(** A function that makes the pins of [b'] of those of [b]. *)
Definition turns (T : Z -> pin_view -> pin_view) (b b' : board) : Prop :=
  Forall2 (fun x y => x.1.1 = y.1.1 /\ 0 <= x.1.1 < 80 /\ forall r,
    T x.1.1 {| v_config := x.1.2; v_latch := x.2; v_reads := r |} = {| v_config := y.1.2; v_latch := y.2; v_reads := r |})
    (board_pins b) (board_pins b').

Lemma acts_shows F T b b' h : acts F T -> shows b h -> turns T b b' -> exists h', F h = Some h' /\ shows b' h'.
Proof.
  intros HF [Hr Hp] HT. destruct (HF h Hr) as (h' & E & Hr' & Hq). exists h'. split; [done|]. split; [done|].
  intros q c l Hin. apply list_elem_of_lookup in Hin as [i Hi].
  destruct (Forall2_lookup_r _ _ _ _ _ HT Hi) as ([[q0 c0] l0] & Hi0 & Hq0 & Hb & Hv). simpl in *. subst q0.
  destruct (Hp q c0 l0) as [r Hpin]; [by apply list_elem_of_lookup; exists i|].
  exists r. rewrite Hq, Hpin by done. simpl. by rewrite Hv.
Qed.
End Acts.

(** Solve [turns] for a function on given pins. *)
Ltac turn_pins := unfold turns, board_pins; repeat (apply Forall2_cons; split;
  [split; [reflexivity|split; [split; [discriminate|reflexivity]|intros r; reflexivity]]|]); apply Forall2_nil_2.

Section Levels.
Context {H : Hardware} {L : HardwareLaws}.
Abbreviation hw := (hw_pin pin_driver).

Lemma acts_led_set_all r p e : acts (led_set_all r p e) (fun q v =>
  let on x := if negb (x =? 0) then PIN_HIGH else PIN_LOW in
  if q =? LED_ERR_PIN then level_effect (on e) v else if q =? LED_PAUSE_PIN then level_effect (on p) v
  else if q =? LED_RUN_PIN then level_effect (on r) v else v).
Proof.
  intros h Hh. destruct (acts_bind _ _ _ _ (acts_write LED_RUN_PIN (if negb (r =? 0) then PIN_HIGH else PIN_LOW))
    (acts_bind _ _ _ _ (acts_write LED_PAUSE_PIN (if negb (p =? 0) then PIN_HIGH else PIN_LOW))
      (acts_write LED_ERR_PIN (if negb (e =? 0) then PIN_HIGH else PIN_LOW))) h Hh) as (h' & E & Hr & Hp).
  exists h'. split_and!; [exact E|done|]. intros q Hq. rewrite (Hp q Hq). cbv zeta. destruct (pin_of _ q) as [v|]; [|done].
  simpl. f_equal. change (u8 LED_ERR_PIN) with LED_ERR_PIN. change (u8 LED_PAUSE_PIN) with LED_PAUSE_PIN.
  change (u8 LED_RUN_PIN) with LED_RUN_PIN.
  destruct (Z.eqb_spec q LED_ERR_PIN) as [->|]; [done|]. destruct (Z.eqb_spec q LED_PAUSE_PIN) as [->|]; done.
Qed.

Lemma led_round_shows s b k h : shows b h -> k = blink (b_leds b) -> exists k' h',
  indicator_led_round s k h = Some (k', h') /\ k' = blink (b_leds (level_step (LedRound s) b)) /\
  shows (level_step (LedRound s) b) h'.
Proof.
  intros Hs ->. unfold indicator_led_round.
  destruct s; simpl.
  - destruct (acts_shows _ _ b (level_step (LedRound STOPWATCH_STATE_IDLE) b) h (acts_led_set_all 0 0 0) Hs) as (h' & -> & Hs'); [turn_pins|].
    by do 2 eexists.
  - destruct (acts_shows _ _ b (level_step (LedRound STOPWATCH_STATE_RUNNING) b) h
      (acts_led_set_all (if blink (b_leds b) =? 0 then 1 else 0) 0 0) Hs) as (h' & -> & Hs'); [|by do 2 eexists].
    unfold level_step. simpl. destruct (blink (b_leds b) =? 0); turn_pins.
  - destruct (acts_shows _ _ b (level_step (LedRound STOPWATCH_STATE_PAUSED) b) h (acts_led_set_all 0 1 0) Hs) as (h' & -> & Hs'); [turn_pins|].
    by do 2 eexists.
Qed.

Lemma buz_set_shows on b h : shows b h -> exists h', buz_set_pin on h = Some h' /\ shows (level_step (BuzSet on) b) h'.
Proof.
  intros Hs. apply (acts_shows _ _ b _ h (acts_write BUZZER_PIN (if negb (on =? 0) then PIN_LOW else PIN_HIGH)) Hs).
  unfold level_step, buz_set. simpl. destruct (on =? 0); turn_pins.
Qed.

Lemma drive_shows l : forall b h, shows b h -> exists h', drive_all l h = Some h' /\ shows (level_step (BusOut l) b) h'.
Proof.
  induction l as [|x l IH]; intros b h Hs; simpl.
  - exists h. split; [done|]. destruct Hs as [Hr Hp]. split; [done|]. unfold board_pins. simpl. by rewrite app_nil_r.
  - destruct (acts_shows _ _ b (level_step (BusOut [x]) b) h (acts_drive x) Hs) as (h1 & -> & Hs1).
    { unfold turns, board_pins. simpl. unfold scl_level, sda_level. rewrite !fold_left_app. destruct x; turn_pins. }
    simpl. destruct (IH _ h1 Hs1) as (h2 & E & Hs2). exists h2. split; [done|].
    assert (level_step (BusOut l) (level_step (BusOut [x]) b) = {| b with b_bus := b_bus b ++ x :: l |}) as <-; [|done].
    simpl. by rewrite <- app_assoc.
Qed.

(** *** Start-up *)
Definition starts_as (c : Z) (l : bool) (v : pin_view) : pin_view := {| v_config := c; v_latch := l; v_reads := v_reads v |}.

Lemma acts_conv (F : hw -> option hw) T U : acts F T -> (forall q v, T q v = U q v) -> acts F U.
Proof.
  intros HF E h Hh. destruct (HF h Hh) as (h' & E' & Hr & Hp). exists h'. split_and!; [done|done|].
  intros q Hq. rewrite Hp by done. destruct (pin_of _ q); simpl; by rewrite ?E.
Qed.

Lemma acts_leds : acts indicator_led_pins (fun q v =>
  if (q =? LED_RUN_PIN) || (q =? LED_PAUSE_PIN) || (q =? LED_ERR_PIN) then starts_as 3 false v else v).
Proof.
  eapply acts_conv.
  - exact (acts_bind _ _ _ _ (acts_mode _ _) (acts_bind _ _ _ _ (acts_mode _ _) (acts_bind _ _ _ _ (acts_mode _ _)
      (acts_bind _ _ _ _ (acts_write _ _) (acts_bind _ _ _ _ (acts_write _ _) (acts_write _ _)))))).
  - intros q v. cbv beta. change (u8 LED_ERR_PIN) with LED_ERR_PIN. change (u8 LED_PAUSE_PIN) with LED_PAUSE_PIN.
    change (u8 LED_RUN_PIN) with LED_RUN_PIN.
    destruct (Z.eqb_spec q LED_RUN_PIN) as [->|]; [done|]. destruct (Z.eqb_spec q LED_PAUSE_PIN) as [->|]; [done|].
    by destruct (q =? LED_ERR_PIN).
Qed.

Lemma acts_buzzer : acts notifier_buzzer_pins (fun q v => if q =? BUZZER_PIN then starts_as 3 true v else v).
Proof.
  eapply acts_conv; [exact (acts_bind _ _ _ _ (acts_mode _ _) (acts_write _ _))|].
  intros q v. cbv beta. change (u8 BUZZER_PIN) with BUZZER_PIN. by destruct (q =? BUZZER_PIN).
Qed.

Lemma acts_oled : acts OLED_GPIO_Init (fun q v =>
  if (q =? OLED_SCL_PIN) || (q =? OLED_SDA_PIN) then starts_as 7 true v else v).
Proof.
  eapply acts_conv; [exact (acts_bind _ _ _ _ acts_oled_init
    (acts_bind _ _ _ _ (acts_drive (SCL true)) (acts_bind _ _ _ _ (acts_drive (SDA true)) acts_some)))|].
  intros q v. cbn [line_pin line_level]. cbv beta. destruct (Z.eqb_spec q OLED_SCL_PIN) as [->|]; [done|]. by destruct (q =? OLED_SDA_PIN).
Qed.

Lemma acts_light : acts sensor_light_pins (fun q v => if q =? LIGHT_DO_PIN then starts_as 8 true v else v).
Proof. exact (acts_mode LIGHT_DO_PIN PIN_MODE_INPUT_PULLUP). Qed.

Lemma boot_shows (h : hw) : ready h -> exists h', board_boot h = Some h' /\ shows level_boot h'.
Proof.
  intros Hr.
  destruct (acts_bind _ _ _ _ acts_leds (acts_bind _ _ _ _ acts_buzzer (acts_bind _ _ _ _ acts_oled acts_light)) h Hr)
    as (h' & E & Hr' & Hq).
  exists h'. split; [exact E|]. split; [done|]. intros q c l Hin.
  assert (0 <= q < 80) as Hb
    by (unfold board_pins in Hin; repeat (apply elem_of_cons in Hin as [Hx|Hin]; [injection Hx as -> _ _; split; [discriminate|reflexivity]|]); by inversion Hin).
  destruct (pin_of_some (regs (hw_drv h)) q) as [v Hpv]; [apply Hr|done|]. exists (v_reads v). rewrite Hq, Hpv by done.
  unfold board_pins in Hin. repeat (apply elem_of_cons in Hin as [Hx|Hin]; [injection Hx as -> -> ->; reflexivity|]). by inversion Hin.
Qed.

(** *** The program at work *)
Lemma board_step_shows e b st : shows b (brd_hw st) -> brd_blink st = blink (b_leds b) -> brd_beep st = s_beep_enabled (b_buzzer b) ->
  exists st', board_step e st = Some st' /\ shows (level_step e b) (brd_hw st') /\
    brd_blink st' = blink (b_leds (level_step e b)) /\ brd_beep st' = s_beep_enabled (b_buzzer (level_step e b)).
Proof.
  intros Hs Hk He. destruct e as [s|en|on|l]; simpl.
  - destruct (led_round_shows s b (brd_blink st) (brd_hw st) Hs Hk) as (k' & h' & -> & Hk' & Hs'). by eexists.
  - unfold beep_enable, notifier_beep_enable. destruct (en =? 0); simpl.
    + destruct (buz_set_shows 0 b (brd_hw st) Hs) as (h' & -> & [Hr Hp]). eexists. split_and!; [done| |done|done].
      split; [exact Hr|]. intros q c l Hin. by apply Hp.
    + eexists. split_and!; [done| |done|done]. destruct Hs as [Hr Hp]. split; [exact Hr|]. intros q c l Hin. by apply Hp.
  - destruct (buz_set_shows on b (brd_hw st) Hs) as (h' & -> & Hs'). by eexists.
  - destruct (drive_shows l b (brd_hw st) Hs) as (h' & -> & Hs'). by eexists.
Qed.

Lemma board_run_shows l : forall b st, shows b (brd_hw st) -> brd_blink st = blink (b_leds b) -> brd_beep st = s_beep_enabled (b_buzzer b) ->
  exists st', board_run l st = Some st' /\ shows (fold_left (fun b e => level_step e b) l b) (brd_hw st').
Proof.
  induction l as [|e l IH]; intros b st Hs Hk He; simpl; [by exists st|].
  destruct (board_step_shows e b st Hs Hk He) as (st1 & -> & Hs1 & Hk1 & He1). simpl. by apply IH.
Qed.
End Levels.

(** C13: after the start of the program, whatever its threads do in whatever order (rounds of the LEDs, the buzzer,
    traffic on the display's bus): nothing fails, the registers of every pin hold the level that the module's own
    description gives it, in the configuration it was given, and no module disturbs the pins of another. *)
Theorem board_levels {H : Hardware} {L : HardwareLaws} (l : list board_op) (h : hw_pin pin_driver) : ready h ->
  exists h0 st, board_boot h = Some h0 /\ board_run l {| brd_blink := 0; brd_beep := 1; brd_hw := h0 |} = Some st /\
    shows (fold_left (fun b e => level_step e b) l level_boot) (brd_hw st).
Proof.
  intros Hr. destruct (boot_shows h Hr) as (h0 & E & Hs).
  destruct (board_run_shows l level_boot {| brd_blink := 0; brd_beep := 1; brd_hw := h0 |} Hs eq_refl eq_refl) as (st & E' & Hs').
  by exists h0, st.
Qed.

Definition demo_board : hw_pin pin_driver := {| ops := Some (@_stm32_pin_ops demo_hardware); hw_drv := linked reset_regs |}.

(** The stopwatch runs, the buzzer sounds, and a START condition is on the bus. *)
Lemma board_levels_witness : exists h0 st, @board_boot demo_hardware demo_board = Some h0 /\
  @board_run demo_hardware [LedRound STOPWATCH_STATE_RUNNING; BuzSet 1; BusOut (OLED_I2C_Start [])]
    {| brd_blink := 0; brd_beep := 1; brd_hw := h0 |} = Some st /\
  pin_is (regs (hw_drv (brd_hw st))) LED_RUN_PIN 3 true /\ pin_is (regs (hw_drv (brd_hw st))) BUZZER_PIN 3 false /\
  pin_is (regs (hw_drv (brd_hw st))) OLED_SDA_PIN 7 false.
Proof.
  destruct (@board_levels demo_hardware demo_hardware_laws [LedRound STOPWATCH_STATE_RUNNING; BuzSet 1; BusOut (OLED_I2C_Start [])]
    demo_board (conj reset_regs_shape eq_refl)) as (h0 & st & E0 & E & Hs).
  exists h0, st. split; [exact E0|]. split; [exact E|].
  split; [|split]; apply (sh_pins _ _ Hs); apply (bool_decide_eq_true_1 _); vm_compute; reflexivity.
Defined.

(** The light sensor: read_do reads the pin. *)
Lemma light_reads {H : Hardware} {L : HardwareLaws} s h v : ready h -> pin_of (regs (hw_drv h)) LIGHT_DO_PIN = Some v ->
  read_do_pin s h = Some (read_do (Z.b2z (v_reads v)) s).
Proof.
  intros [Hg Ho] Hv. unfold read_do_pin, rt_pin_read. rewrite Ho. simpl.
  rewrite (stm32_pin_read_ok LIGHT_DO_PIN _ v); [done|split; [discriminate|reflexivity]|done].
Qed.

(** ** What happens on the pins in between *)

(** After a reset the latch is low: making the pin of the buzzer, which sounds on low, an output makes it sound
    until buz_set(0). *)
Lemma buzzer_sounds_at_start : exists d d', @stm32_pin_mode demo_hardware BUZZER_PIN PIN_MODE_OUTPUT (linked reset_regs) = Some d /\
  pin_is (regs d) BUZZER_PIN 3 false /\
  @stm32_pin_write demo_hardware BUZZER_PIN PIN_LOW d = Some d' /\ pin_of (regs d') BUZZER_PIN = pin_of (regs d) BUZZER_PIN.
Proof.
  do 2 eexists. split; [vm_compute; reflexivity|]. split; [exists false; reflexivity|].
  split; [vm_compute; reflexivity|]. reflexivity.
Qed.
(** OLED_GPIO_Init asks for pull-ups; its pins are outputs and get none. *)
Lemma oled_has_no_pull_up {H : Hardware} g : HAL_GPIO_Init 1 oled_pins_init g = HAL_GPIO_Init 1 {| oled_pins_init with Pull := GPIO_NOPULL |} g.
Proof. symmetry. exact (output_has_no_pull 1 oled_pins_init GPIO_NOPULL g ltac:(discriminate)). Qed.
