(* ===== verification/Pipe.v ===== *)
(** * Pipes (rt-thread/components/drivers/src/pipe.c)

    A pipe is a device with a ring buffer of bytes ([Ringbuffer]), which its first open allocates, and a mutex ([Mutex]) which every
    operation takes for ever before it looks at the buffer.  Opening and closing are given in parts: taking the lock, what is done under
    it, and giving it back.  Reading and writing are given as the actions of their code, so that the calls of
    several threads can be interleaved action by action.  [pipe_ops] is the driver as device.c sees it.  The POSIX part of pipe.c is not
    configured. *)
From S2P Require Import Prelude Ringbuffer Kservice Mem Kernel Sched Timer Ipc Mutex Device.

(** RT_Device_Class_Pipe, and the size of struct rt_pipe_device. *)
Definition RT_Device_Class_Pipe : Z := 15.
Definition RT_DEVICE_FLAG_REMOVABLE : Z := 0x004.
Definition SIZEOF_PIPE : Z := 136.

(** ** Ring buffers on the heap (ringbuffer.c)

    The addresses of the object and of its pool, which held [fresh] before. *)
Record ring_at := { ring_addr : Z; pool_addr : Z; ring_data : rt_ringbuffer }.

Definition rt_ringbuffer_create (size : Z) (fresh : list Z) (h : heap) : option (option ring_at * heap) :=
  _ ← assert (0 <? size);
  let size := u16 (RT_ALIGN_DOWN size RT_ALIGN_SIZE) in
  '(rb, h) ← rt_malloc 12 h;
  match rb with
  | None => Some (None, h)
  | Some rb =>
      '(pool, h) ← rt_malloc size h;
      match pool with
      | None => h ← rt_free (Some rb) h; Some (None, h)
      | Some pool =>
          r ← rt_ringbuffer_init fresh (i16 size);
          Some (Some {| ring_addr := rb; pool_addr := pool; ring_data := r |}, h)
      end
  end.

Definition rt_ringbuffer_destroy (r : ring_at) (h : heap) : option heap :=
  h ← rt_free (Some (pool_addr r)) h; rt_free (Some (ring_addr r)) h.

(** ** Data *)
Record rt_pipe := {
  is_named : bool;
  fifo : option ring_at;
  bufsz : Z;                 (** uint16 *)
  lock : rt_mutex
}.

Definition set_lock (m : rt_mutex) (p : rt_pipe) : rt_pipe := {| p with lock := m |}.
Definition set_fifo (r : option ring_at) (p : rt_pipe) : rt_pipe := {| p with fifo := r |}.

(** ** The code of rt_pipe_read and rt_pipe_write

    Where a call is: at its entry, in its loop with [moved] read or written so far, behind the loop,
    and behind the lock. *)
Inductive pipe_pc := AtEntry | AtLoop (moved : list Z) | AtUnlock (moved : list Z) | AtExit (moved : list Z).

(** What it does next: it takes the lock and goes on at [next], does something to the buffer, gives the
    lock back, or returns with what it moved. *)
Inductive pipe_action :=
| TakeLock (next : pipe_pc)
| OnBuffer (f : rt_ringbuffer -> pipe_pc * rt_ringbuffer)
| ReleaseLock (next : pipe_pc)
| Return (moved : list Z).

(** One pass of the loops. *)
Definition read_pass (count : Z) (moved : list Z) (rb : rt_ringbuffer) : pipe_pc * rt_ringbuffer :=
  if lenZ moved <? count then
    let '(len, bytes, rb) := rt_ringbuffer_get (u16 (count - lenZ moved)) rb in
    if len <=? 0 then (AtUnlock moved, rb) else (AtLoop (moved ++ bytes), rb)
  else (AtUnlock moved, rb).

Definition write_pass (buffer moved : list Z) (rb : rt_ringbuffer) : pipe_pc * rt_ringbuffer :=
  if lenZ moved <? lenZ buffer then
    let rest := drop (length moved) buffer in
    let '(len, rb) := rt_ringbuffer_put rest (u16 (lenZ rest)) rb in
    if len <=? 0 then (AtUnlock moved, rb) else (AtLoop (moved ++ take (Z.to_nat len) rest), rb)
  else (AtUnlock moved, rb).

Definition rt_pipe_read (count : Z) (pc : pipe_pc) : pipe_action :=
  match pc with
  | AtEntry => if count =? 0 then Return [] else TakeLock (AtLoop [])
  | AtLoop moved => OnBuffer (read_pass count moved)
  | AtUnlock moved => ReleaseLock (AtExit moved)
  | AtExit moved => Return moved
  end.

Definition rt_pipe_write (buffer : list Z) (pc : pipe_pc) : pipe_action :=
  match pc with
  | AtEntry => if lenZ buffer =? 0 then Return [] else TakeLock (AtLoop [])
  | AtLoop moved => OnBuffer (write_pass buffer moved)
  | AtUnlock moved => ReleaseLock (AtExit moved)
  | AtExit moved => Return moved
  end.

Inductive pipe_op := PRead (count : Z) | PWrite (data : list Z).

Definition pipe_code (op : pipe_op) : pipe_pc -> pipe_action :=
  match op with PRead count => rt_pipe_read count | PWrite data => rt_pipe_write data end.

Definition op_size (op : pipe_op) : Z := match op with PRead count => count | PWrite data => lenZ data end.

Section Pipe.
(** The address of the pipe and what fresh memory holds. *)
Context (o : Z) (fresh : list Z).

(** The address of the field lock. *)
Definition lock_at : Z := o + 100.

(** Taking the lock: [None] when the thread has to wait. *)
Definition pipe_lock (p : rt_pipe) (k : kernel) : option (outcome * rt_pipe * kernel) :=
  '(r, m, k) ← rt_mutex_take lock_at (lock p) RT_WAITING_FOREVER k; Some (r, set_lock m p, k).

Definition pipe_unlock (p : rt_pipe) (k : kernel) : option (rt_pipe * kernel) :=
  '(_, m, k) ← rt_mutex_release lock_at (lock p) k; Some (set_lock m p, k).

(** ** What is done under the lock *)
Definition open_locked (p : rt_pipe) (k : kernel) : option (Z * rt_pipe * kernel) :=
  match fifo p with
  | Some _ => Some (RT_EOK, p, k)
  | None =>
      '(r, h) ← rt_ringbuffer_create (bufsz p) fresh (kheap k);
      Some (match r with None => - RT_ENOMEM | Some _ => RT_EOK end, set_fifo r p, {| k with kheap := h |})
  end.

Definition close_locked (d : rt_device) (p : rt_pipe) (k : kernel) : option (Z * rt_pipe * kernel) :=
  if ref_count d =? 1 then
    r ← fifo p;
    h ← rt_ringbuffer_destroy r (kheap k);
    Some (RT_EOK, set_fifo None p, {| k with kheap := h |})
  else Some (RT_EOK, p, k).

(** The action [a] of a thread: where its call goes on, and whether it waits for the lock before. *)
Definition pipe_act (a : pipe_action) (p : rt_pipe) (k : kernel) : option (pipe_pc * bool * rt_pipe * kernel) :=
  match a with
  | TakeLock next =>
      '(r, p, k) ← pipe_lock p k; Some (next, match r with Waiting => true | Returned _ => false end, p, k)
  | OnBuffer f =>
      r ← fifo p;
      let '(pc, rb) := f (ring_data r) in
      Some (pc, false, set_fifo (Some {| r with ring_data := rb |}) p, k)
  | ReleaseLock next => '(p, k) ← pipe_unlock p k; Some (next, false, p, k)
  | Return _ => None
  end.

(** A call from [pc] on, up to its return or until it waits for the lock, if no other thread runs. *)
Fixpoint pipe_run (fuel : nat) (code : pipe_pc -> pipe_action) (pc : pipe_pc) (p : rt_pipe) (k : kernel)
  : option (option (list Z) * rt_pipe * kernel) :=
  match fuel with
  | O => None
  | S fuel =>
      match code pc with
      | Return moved => Some (Some moved, p, k)
      | a =>
          '(pc, waits, p, k) ← pipe_act a p k;
          match waits with true => Some (None, p, k) | false => pipe_run fuel code pc p k end
      end
  end.

Definition pipe_call (op : pipe_op) (p : rt_pipe) (k : kernel) : option (option (list Z) * rt_pipe * kernel) :=
  pipe_run 5 (pipe_code op) AtEntry p k.

(** An operation whose part under the lock is [f]: at once, or after the thread
    has waited for the lock (whatever the wait returned). *)
Definition after_lock {A} (f : rt_pipe -> kernel -> option (A * rt_pipe * kernel)) (p : rt_pipe) (k : kernel)
  : option (A * rt_pipe * kernel) :=
  '(a, p, k) ← f p k;
  '(p, k) ← pipe_unlock p k;
  Some (a, p, k).

Definition under_lock {A} (f : rt_pipe -> kernel -> option (A * rt_pipe * kernel)) (p : rt_pipe) (k : kernel)
  : option (option A * rt_pipe * kernel) :=
  '(r, p, k) ← pipe_lock p k;
  match r with
  | Waiting => Some (None, p, k)
  | Returned _ => '(a, p, k) ← after_lock f p k; Some (Some a, p, k)
  end.

(** ** Operations *)
Definition rt_pipe_open (oflag : Z) (p : rt_pipe) (k : kernel) : option (option Z * rt_pipe * kernel) :=
  under_lock open_locked p k.

Definition rt_pipe_close (d : rt_device) (p : rt_pipe) (k : kernel) : option (option Z * rt_pipe * kernel) :=
  under_lock (close_locked d) p k.

Definition rt_pipe_control : Z := RT_EOK.

(** The driver for calls that do not have to wait for the lock. *)
Definition now {A B} (f : A -> B) (d : rt_device) (x : option (option A * rt_pipe * kernel)) : option (B * rt_device * rt_pipe * kernel) :=
  '(r, p, k) ← x; a ← r; Some (f a, d, p, k).

Definition pipe_ops : device_ops rt_pipe unit :=
  {| op_init := None;
     op_open := Some (fun oflag d p k => now id d (rt_pipe_open oflag p k));
     op_close := Some (fun d p k => now id d (rt_pipe_close d p k));
     op_read := Some (fun _ size d p k => now id d (pipe_call (PRead size) p k));
     op_write := Some (fun _ buffer d p k => now (fun moved => Moved (lenZ moved)) d (pipe_call (PWrite buffer) p k));
     op_control := Some (fun _ _ d p k => Some (rt_pipe_control, d, p, k)) |}.
End Pipe.

(** ** Making and deleting pipes

    The pipes by their addresses, which are those of their devices. *)
Abbreviation pipes := (gmap Z rt_pipe).

Section Registry.
(** ENODEV of the C library. *)
Context (ENODEV : Z).

Definition rt_pipe_create (nm : list Z) (size : Z) (ps : pipes) (ds : devices) (k : kernel)
  : option (option Z * pipes * devices * kernel) :=
  '(a, h) ← rt_malloc SIZEOF_PIPE (kheap k);
  let k := {| k with kheap := h |} in
  match a with
  | None => Some (None, ps, ds, k)
  | Some o =>
      '(_, m, k) ← rt_mutex_init (lock_at o) (mutex_fields null_object) nm RT_IPC_FLAG_FIFO k;
      _ ← assert (size <? 0xFFFF);
      let p := {| is_named := true; fifo := None; bufsz := u16 size; lock := m |} in
      let d := {| null_device with dev_type := RT_Device_Class_Pipe |} in
      '(e, ds, k) ← rt_device_register o nm (Z.lor RT_DEVICE_FLAG_RDWR RT_DEVICE_FLAG_REMOVABLE) (<[o := d]> ds) k;
      if negb (e =? 0) then
        h ← rt_free (Some o) (kheap k); Some (None, ps, delete o ds, {| k with kheap := h |})
      else Some (Some o, <[o := p]> ps, ds, k)
  end.

Definition rt_pipe_delete (nm : list Z) (ps : pipes) (ds : devices) (k : kernel) : option (Z * pipes * devices * kernel) :=
  '(r, k) ← rt_device_find nm ds k;
  match r with
  | None => Some (- ENODEV, ps, ds, k)
  | Some o =>
      d ← ds !! o;
      if negb (dev_type d =? RT_Device_Class_Pipe) then Some (- ENODEV, ps, ds, k)
      else if negb (ref_count d =? 0) then Some (- RT_EBUSY, ps, ds, k)
      else
        p ← ps !! o;
        '(_, m, k) ← rt_mutex_detach (lock_at o) (lock p) k;
        '(_, ds, k) ← rt_device_unregister o ds k;
        h ← match fifo p with Some r => rt_ringbuffer_destroy r (kheap k) | None => Some (kheap k) end;
        h ← rt_free (Some o) h;
        Some (0, delete o ps, delete o ds, {| k with kheap := h |})
  end.
End Registry.

(** ** What a call moves

    The specification: a bounded queue of bytes.  A read takes as many as there are, of [count]; a write
    adds as many as fit, all next to each other. *)
Definition pipe_do (cap : Z) (op : pipe_op) (q : list Z) : list Z * list Z :=
  match op with
  | PRead count => let n := Z.to_nat (Z.min count (lenZ q)) in (take n q, drop n q)
  | PWrite data => let d := take (Z.to_nat (Z.min (lenZ data) (cap - lenZ q))) data in (d, q ++ d)
  end.

(** The call that the code makes of a call: the 16 bits that the ring buffer's functions take of the
    count. *)
Definition asked (op : pipe_op) : pipe_op :=
  match op with
  | PRead count => PRead (u16 count)
  | PWrite data => PWrite (take (Z.to_nat (u16 (lenZ data))) data)
  end.

Lemma asked_id op : 0 <= op_size op < 65536 -> asked op = op.
Proof.
  intros H. destruct op as [count|data]; simpl in *; rewrite wrap_id by (unfold fits; lia); [done|].
  by rewrite take_ge by (unfold lenZ; lia).
Qed.

(** [pipe_do] of the call asked for. *)
Definition pipe_cut (cap : Z) (op : pipe_op) (q : list Z) : list Z * list Z :=
  match op with
  | PRead count => let n := Z.to_nat (Z.min (u16 count) (lenZ q)) in (take n q, drop n q)
  | PWrite data => let d := take (Z.to_nat (Z.min (u16 (lenZ data)) (cap - lenZ q))) data in (d, q ++ d)
  end.

(** The loop of [op] started on the bytes [q], has moved [moved] and left [c];
    it may be about to begin if it goes on. *)
Definition underway (cap : Z) (op : pipe_op) (q moved c : list Z) (more : bool) : Prop :=
  (moved, c) = pipe_cut cap op q \/ (more = true /\ moved = [] /\ c = q).

Definition pipe_pass (op : pipe_op) : list Z -> rt_ringbuffer -> pipe_pc * rt_ringbuffer :=
  match op with PRead count => read_pass count | PWrite data => write_pass data end.

Definition after_pass (more : bool) (moved : list Z) : pipe_pc := if more then AtLoop moved else AtUnlock moved.

Definition holds_bytes (cap : Z) (rb : rt_ringbuffer) (c : list Z) : Prop :=
  rb_wf rb /\ buffer_size rb = cap /\ rb_content rb = c.

Lemma u16_rest n k : u16 n = k -> u16 (n - k) = 0.
Proof. intros <-. rewrite wrap_sub_r. by rewrite Z.sub_diag. Qed.

Lemma u16_bounds n : 0 <= u16 n < 2 ^ 16.
Proof. apply wrap_bound. lia. Qed.

Lemma holds_len cap rb c : holds_bytes cap rb c -> rt_ringbuffer_data_len rb = lenZ c /\ lenZ c <= cap.
Proof. intros (H & <- & <-). rewrite lenZ_content by done. by destruct (data_len_wf rb H) as [_ [_ ?]]. Qed.

Lemma get_holds cap rb c n : holds_bytes cap rb c -> 0 <= n < 2 ^ 16 ->
  let r := Z.min n (lenZ c) in
  exists rb', rt_ringbuffer_get n rb = (r, take (Z.to_nat r) c, rb') /\ holds_bytes cap rb' (drop (Z.to_nat r) c).
Proof.
  intros Hh Hn r. destruct (holds_len _ _ _ Hh) as [Hl _]. destruct Hh as (H & Hs & Hc).
  pose proof (rt_ringbuffer_get_ok n rb H Hn) as Hg. pose proof (rb_size_kept (RbGet n) rb) as Hk. simpl in Hk.
  destruct (rt_ringbuffer_get n rb) as [[r' d] rb']. destruct Hg as (-> & H' & -> & Hc'). rewrite Hl, Hc in *.
  exists rb'. split; [done|]. split; [done|]. split; [simpl in Hk; congruence|done].
Qed.

Lemma put_holds cap rb c n d : holds_bytes cap rb c -> 0 <= n < 2 ^ 16 -> n <= lenZ d ->
  let r := Z.min n (cap - lenZ c) in
  exists rb', rt_ringbuffer_put d n rb = (r, rb') /\ holds_bytes cap rb' (c ++ take (Z.to_nat r) d).
Proof.
  intros Hh Hn Hd r. destruct (holds_len _ _ _ Hh) as [Hl _]. destruct Hh as (H & Hs & Hc).
  pose proof (rt_ringbuffer_put_ok d n rb H Hn Hd) as Hp.
  assert (buffer_size (snd (rt_ringbuffer_put d n rb)) = buffer_size rb) as Hk.
  { unfold rt_ringbuffer_put. repeat case_match; simplify_eq/=; done. }
  destruct (rt_ringbuffer_put d n rb) as [r' rb']. unfold rt_ringbuffer_space_len in Hp. rewrite Hl, Hs, Hc in Hp.
  destruct Hp as (-> & H' & Hc'). exists rb'. split; [done|]. split; [done|]. split; [simpl in Hk; congruence|done].
Qed.

Lemma pipe_cut_asked cap op q : lenZ q <= cap -> pipe_cut cap op q = pipe_do cap (asked op) q.
Proof.
  intros Hq. destruct op as [count|data]; [done|]. unfold pipe_cut, pipe_do, asked.
  assert (u16 (lenZ data) <= lenZ data) as Hle by (apply Z.mod_le; [unfold lenZ|]; lia). pose proof (u16_bounds (lenZ data)).
  assert (lenZ (take (Z.to_nat (u16 (lenZ data))) data) = u16 (lenZ data)) as -> by (unfold lenZ in *; rewrite length_take; lia).
  rewrite take_take. by replace (Z.to_nat (Z.min (u16 (lenZ data)) (cap - lenZ q)) `min` Z.to_nat (u16 (lenZ data)))%nat
    with (Z.to_nat (Z.min (u16 (lenZ data)) (cap - lenZ q))) by lia.
Qed.

Lemma take_min_length (n : Z) (l : list Z) : 0 <= n <= lenZ l -> lenZ (take (Z.to_nat n) l) = n.
Proof. unfold lenZ. rewrite length_take. lia. Qed.

(** A pass goes on with more moved, or ends with what the call is to move. *)
Lemma read_pass_ok cap count q moved rb c : holds_bytes cap rb c -> 0 <= count ->
  underway cap (PRead count) q moved c true ->
  exists more moved' rb' c', read_pass count moved rb = (after_pass more moved', rb') /\ holds_bytes cap rb' c' /\
    underway cap (PRead count) q moved' c' more /\ (more = true -> moved' <> [] /\ moved = []).
Proof.
  intros Hh Hn Hu. unfold read_pass. pose proof (u16_bounds count) as Hb.
  destruct (get_holds cap rb c (u16 (count - lenZ moved)) Hh (u16_bounds _)) as (rb' & -> & Hh').
  set (r := Z.min _ _) in *. destruct (Z.ltb_spec (lenZ moved) count) as [Hlt|Hge].
  - destruct Hu as [Hu|(_ & -> & ->)].
    + assert (r = 0) as Hr.
      { unfold pipe_cut in Hu. set (n := Z.min _ _) in Hu. injection Hu as -> ->. unfold r.
        rewrite take_min_length by (unfold n, lenZ in *; lia). destruct (Z.eq_dec n (u16 count)) as [->|].
        - rewrite (u16_rest _ _ eq_refl). unfold lenZ. lia.
        - assert (n = lenZ q) as -> by lia. rewrite drop_ge by (unfold lenZ; lia). pose proof (u16_bounds (count - lenZ q)). unfold lenZ at 2. simpl. lia. }
      rewrite Hr in *. exists false, moved, rb', c. split; [done|]. rewrite drop_0 in Hh'. split; [done|]. split; [by left|done].
    + assert (u16 (count - lenZ (@nil Z)) = u16 count) as E by (f_equal; unfold lenZ; simpl; lia). unfold r in *. rewrite E in *.
      destruct (Z.leb_spec (Z.min (u16 count) (lenZ q)) 0) as [Hz|Hz].
      * exists false, [], rb', (drop (Z.to_nat (Z.min (u16 count) (lenZ q))) q). split; [done|]. split; [done|].
        split; [left|done]. unfold pipe_cut. by rewrite (Z2Nat.nonpos _ Hz), take_0.
      * eexists true, _, rb', _. split; [done|]. split; [exact Hh'|]. split; [by left|]. intros _. split; [|done].
        intros En. apply (f_equal lenZ) in En. rewrite app_nil_l, take_min_length in En by (unfold lenZ in *; lia). unfold lenZ in En at 2. simpl in En. lia.
  - exists false, moved, rb, c. split; [done|]. split; [done|]. split; [|done]. destruct Hu as [Hu|(_ & -> & ->)]; [by left|].
    left. unfold pipe_cut. unfold lenZ in Hge at 1. simpl in Hge. assert (count = 0) as -> by lia.
    by rewrite Z.min_l by (change (u16 0) with 0; unfold lenZ; lia).
Qed.

Lemma u16_le (l : list Z) : u16 (lenZ l) <= lenZ l.
Proof. apply Z.mod_le; [unfold lenZ|]; lia. Qed.

Lemma lenZ_drop (n : nat) (l : list Z) : lenZ (drop n l) = Z.max 0 (lenZ l - Z.of_nat n).
Proof. unfold lenZ. rewrite length_drop. lia. Qed.

Lemma write_pass_ok cap data q moved rb c : holds_bytes cap rb c -> lenZ q <= cap ->
  underway cap (PWrite data) q moved c true ->
  exists more moved' rb' c', write_pass data moved rb = (after_pass more moved', rb') /\ holds_bytes cap rb' c' /\
    underway cap (PWrite data) q moved' c' more /\ (more = true -> moved' <> [] /\ moved = []).
Proof.
  intros Hh Hq Hu. unfold write_pass. set (rest := drop (length moved) data). pose proof (u16_bounds (lenZ rest)) as Hb.
  pose proof (u16_le rest) as Hle.
  destruct (put_holds cap rb c (u16 (lenZ rest)) rest Hh Hb Hle) as (rb' & -> & Hh').
  set (r := Z.min _ _) in *. destruct (Z.ltb_spec (lenZ moved) (lenZ data)) as [Hlt|Hge].
  - destruct Hu as [Hu|(_ & -> & ->)].
    + assert (r = 0) as Hr.
      { unfold pipe_cut in Hu. set (n := Z.min _ _) in Hu. injection Hu as Em ->.
        assert (0 <= n <= lenZ data) as Hn by (pose proof (u16_le data); pose proof (u16_bounds (lenZ data)); unfold n; lia).
        assert (lenZ moved = n) as Hm by (rewrite Em; by apply take_min_length).
        assert (lenZ rest = lenZ data - n) as Hrest by (unfold rest; rewrite lenZ_drop; unfold lenZ in *; lia).
        unfold r. rewrite lenZ_app, <- Em, Hm, Hrest. destruct (Z.eq_dec n (u16 (lenZ data))) as [E|].
        - rewrite (u16_rest _ n (eq_sym E)). lia.
        - pose proof (u16_bounds (lenZ data - n)). lia. }
      rewrite Hr in *. exists false, moved, rb', c. split; [done|]. rewrite take_0, app_nil_r in Hh'. split; [done|]. split; [by left|done].
    + change rest with data in *. destruct (Z.leb_spec r 0) as [Hz|Hz].
      * rewrite (Z2Nat.nonpos _ Hz), take_0, app_nil_r in Hh'. exists false, [], rb', q. split; [done|]. split; [done|].
        split; [left|done]. unfold pipe_cut. fold r. by rewrite (Z2Nat.nonpos _ Hz), take_0, app_nil_r.
      * eexists true, _, rb', _. split; [done|]. split; [exact Hh'|]. split; [by left|]. intros _. split; [|done].
        intros En. apply (f_equal lenZ) in En. rewrite app_nil_l, take_min_length in En by lia. unfold lenZ in En at 1. simpl in En. lia.
  - exists false, moved, rb, c. split; [done|]. split; [done|]. split; [|done]. destruct Hu as [Hu|(_ & -> & ->)]; [by left|].
    left. unfold pipe_cut. unfold lenZ in Hge at 1. simpl in Hge. assert (data = []) as -> by (destruct data; [done|unfold lenZ in Hge; simpl in Hge; lia]).
    by rewrite take_nil, app_nil_r.
Qed.

Lemma pass_ok cap op q moved rb c : holds_bytes cap rb c -> lenZ q <= cap -> 0 <= op_size op -> underway cap op q moved c true ->
  exists more moved' rb' c', pipe_pass op moved rb = (after_pass more moved', rb') /\ holds_bytes cap rb' c' /\
    underway cap op q moved' c' more /\ (more = true -> moved' <> [] /\ moved = []).
Proof. destruct op; intros; [by eapply read_pass_ok|by eapply write_pass_ok]. Qed.

(** The loop ends after two passes at most. *)
Lemma passes_ok cap op rb q : holds_bytes cap rb q -> 0 <= op_size op ->
  exists rb', holds_bytes cap rb' (snd (pipe_cut cap op q)) /\
    (pipe_pass op [] rb = (AtUnlock (fst (pipe_cut cap op q)), rb') \/
     exists rb1, pipe_pass op [] rb = (AtLoop (fst (pipe_cut cap op q)), rb1) /\
       pipe_pass op (fst (pipe_cut cap op q)) rb1 = (AtUnlock (fst (pipe_cut cap op q)), rb')).
Proof.
  intros Hh Hs. destruct (holds_len _ _ _ Hh) as [_ Hq].
  destruct (pass_ok cap op q [] rb q Hh Hq Hs) as (more & m1 & rb1 & c1 & E1 & Hh1 & Hu1 & Hm1); [by right|].
  destruct more.
  - destruct (pass_ok cap op q m1 rb1 c1 Hh1 Hq Hs Hu1) as (more & m2 & rb2 & c2 & E2 & Hh2 & Hu2 & Hm2).
    destruct Hu1 as [Hu1|(_ & -> & _)]; [|by destruct (Hm1 eq_refl)].
    destruct more; [destruct (Hm1 eq_refl), (Hm2 eq_refl); done|]. destruct Hu2 as [Hu2|[]]; [|done].
    rewrite <- Hu2 in Hu1 |- *. injection Hu1 as -> ->. exists rb2. split; [done|]. right. by exists rb1.
  - destruct Hu1 as [Hu1|[]]; [|done]. rewrite <- Hu1. exists rb1. split; [done|]. by left.
Qed.

(** A call that gets the lock at once, on an open pipe, returns: it does what the specification says. *)
Lemma pipe_call_ok o op p k r q m1 k1 m2 k2 e e' : fifo p = Some r ->
  holds_bytes (buffer_size (ring_data r)) (ring_data r) q -> 0 < op_size op ->
  rt_mutex_take (lock_at o) (lock p) RT_WAITING_FOREVER k = Some (Returned e, m1, k1) ->
  rt_mutex_release (lock_at o) m1 k1 = Some (e', m2, k2) ->
  exists p', pipe_call o op p k = Some (Some (fst (pipe_do (buffer_size (ring_data r)) (asked op) q)), p', k2) /\
    lock p' = m2 /\ exists r', fifo p' = Some r' /\
      holds_bytes (buffer_size (ring_data r)) (ring_data r') (snd (pipe_do (buffer_size (ring_data r)) (asked op) q)).
Proof.
  intros Hf Hh Hop E1 E2. set (cap := buffer_size (ring_data r)) in *. destruct (holds_len _ _ _ Hh) as [_ Hq].
  rewrite <- pipe_cut_asked by done. destruct (passes_ok cap op (ring_data r) q Hh) as (rb' & Hh' & Hp); [lia|].
  assert (pipe_code op AtEntry = TakeLock (AtLoop [])) as Ee.
  { destruct op; simpl in *; by rewrite (proj2 (Z.eqb_neq _ _)) by lia. }
  assert (forall moved, pipe_code op (AtLoop moved) = OnBuffer (pipe_pass op moved)) as El by (by destruct op).
  assert (forall moved, pipe_code op (AtUnlock moved) = ReleaseLock (AtExit moved)) as Eu by (by destruct op).
  assert (forall moved, pipe_code op (AtExit moved) = Return moved) as Ex by (by destruct op).
  unfold pipe_call. cbn [pipe_run]. rewrite Ee. cbn [pipe_act]. unfold pipe_lock. rewrite E1, !some_bind. cbv beta iota.
  rewrite El. cbn [pipe_act]. cbn [fifo set_lock]. rewrite Hf, some_bind.
  destruct Hp as [->|(rb1 & -> & Hp)]; cbv beta iota; rewrite some_bind; cbv beta iota; rewrite ?Eu, ?El; cbn [pipe_act].
  - unfold pipe_unlock. cbn [lock set_fifo set_lock]. rewrite E2, !some_bind. cbv beta iota. rewrite Ex.
    eexists. split; [reflexivity|]. split; [done|]. by eexists.
  - cbn [fifo set_fifo set_lock ring_data]. rewrite some_bind. cbn [ring_data]. rewrite Hp. cbv beta iota. rewrite some_bind. cbv beta iota.
    rewrite Eu. cbn [pipe_act]. unfold pipe_unlock. cbn [lock set_fifo set_lock]. rewrite E2, !some_bind. cbv beta iota. rewrite Ex.
    eexists. split; [reflexivity|]. split; [done|]. by eexists.
Qed.

(** ** Any interleaving of readers and writers

    A call that has not returned: where it is, and whether its thread waits for the lock before it goes on
    there. *)
Record pipe_call_at := { c_op : pipe_op; c_pc : pipe_pc; c_waits : bool }.

Abbreviation calls := (gmap Z pipe_call_at).

Record pipe_world := { pw_pipe : rt_pipe; pw_kernel : kernel; pw_calls : calls }.

(** Thread [t] is at [pc] of its call of [op]; there it returns if the code says so, which no other
    thread can tell from its going on. *)
Definition reaches (t : Z) (op : pipe_op) (pc : pipe_pc) (waits : bool) (C : calls) : option (pipe_op * list Z) * calls :=
  match waits, pipe_code op pc with
  | false, Return moved => (Some (op, moved), delete t C)
  | _, _ => (None, <[t := {| c_op := op; c_pc := pc; c_waits := waits |}]> C)
  end.

(** A thread that takes a lock runs and may wait; one that gives it back runs, not in an interrupt. *)
Definition may_act (a : pipe_action) (t : Z) (k : kernel) : Prop :=
  match a with
  | TakeLock _ => exists th, can_block k t th
  | _ => current_thread k = Some t /\ interrupt_nest k = 0
  end.

Definition waits_in (C : calls) (t : Z) : Prop := exists c, C !! t = Some c /\ c_waits c = true.

(** What the rest of the system does: it leaves the threads alone that wait for the lock, and the lock. *)
Definition elsewhere (o : Z) (p : rt_pipe) (C : calls) (k k' : kernel) : Prop :=
  kernel_ok k' /\ timing_ok k' /\ queues k' (QSuspend (lock_at o)) = queues k (QSuspend (lock_at o)) /\
  (forall x th, waits_in C x \/ owner (lock p) = Some x -> threads k !! x = Some th ->
     exists th', threads k' !! x = Some th' /\ th_parent th' = th_parent th /\ (waits_in C x -> error th' = error th)) /\
  (flag (mtx_parent (lock p)) = RT_IPC_FLAG_PRIO ->
     forall x, x ∈ queues k (QSuspend (lock_at o)) \/ owner (lock p) = Some x -> prio k' x = prio k x).

Section Runs.
(** The address of the pipe. *)
Context (o : Z).

(** The steps of any number of calls of [rt_pipe_read] and [rt_pipe_write] on an open pipe: a thread calls one,
    a thread does the next action of its call's code, a thread that waited for the lock runs again when the lock's
    list does not hold it any more, and something else happens.  The label is a call that returns and the
    bytes it moved. *)
Inductive pipe_step : pipe_world -> option (pipe_op * list Z) -> pipe_world -> Prop :=
| ps_call op t p k C e C' :
    C !! t = None -> 0 <= op_size op -> reaches t op AtEntry false C = (e, C') ->
    pipe_step {| pw_pipe := p; pw_kernel := k; pw_calls := C |} e {| pw_pipe := p; pw_kernel := k; pw_calls := C' |}
| ps_act op t pc p k C pc' waits p' k' e C' :
    C !! t = Some {| c_op := op; c_pc := pc; c_waits := false |} -> may_act (pipe_code op pc) t k ->
    pipe_act o (pipe_code op pc) p k = Some (pc', waits, p', k') -> reaches t op pc' waits C = (e, C') ->
    pipe_step {| pw_pipe := p; pw_kernel := k; pw_calls := C |} e {| pw_pipe := p'; pw_kernel := k'; pw_calls := C' |}
| ps_awake op t pc p k C e C' :
    C !! t = Some {| c_op := op; c_pc := pc; c_waits := true |} -> t ∉ queues k (QSuspend (lock_at o)) ->
    reaches t op pc false C = (e, C') ->
    pipe_step {| pw_pipe := p; pw_kernel := k; pw_calls := C |} e {| pw_pipe := p; pw_kernel := k; pw_calls := C' |}
| ps_other p k C k' :
    elsewhere o p C k k' ->
    pipe_step {| pw_pipe := p; pw_kernel := k; pw_calls := C |} None {| pw_pipe := p; pw_kernel := k'; pw_calls := C |}.

(** The calls that returned since [x0], in that order. *)
Inductive pipe_reach (x0 : pipe_world) : list (pipe_op * list Z) -> pipe_world -> Prop :=
| pr_start : pipe_reach x0 [] x0
| pr_next es x e x' : pipe_reach x0 es x -> pipe_step x e x' -> pipe_reach x0 (es ++ option_list e) x'.
End Runs.

(** The same calls made one after the other. *)
Fixpoint pipe_replay (cap : Z) (es : list (pipe_op * list Z)) (q : list Z) : option (list Z) :=
  match es with
  | [] => Some q
  | (op, moved) :: es => if decide (moved = fst (pipe_do cap op q)) then pipe_replay cap es (snd (pipe_do cap op q)) else None
  end.

(** The calls that the code makes of the calls. *)
Definition as_asked (es : list (pipe_op * list Z)) : list (pipe_op * list Z) := map (fun e => (asked (fst e), snd e)) es.

Definition written (e : pipe_op * list Z) : list Z := match fst e with PWrite _ => snd e | PRead _ => [] end.
Definition read (e : pipe_op * list Z) : list Z := match fst e with PRead _ => snd e | PWrite _ => [] end.

Lemma pipe_replay_app cap es fs q q' : pipe_replay cap es q = Some q' ->
  pipe_replay cap (es ++ fs) q = pipe_replay cap fs q'.
Proof.
  revert q. induction es as [|[op moved] es IH]; intros q; [by intros [= ->]|]. simpl. case_decide; [|done]. apply IH.
Qed.

Lemma pipe_do_balance cap op q : let '(m, q') := pipe_do cap op q in q ++ written (op, m) = read (op, m) ++ q'.
Proof. destruct op as [count|data]; unfold pipe_do, written, read; cbn [fst snd]; [|done]. by rewrite take_drop, app_nil_r. Qed.

Lemma pipe_replay_balance cap es : forall q q', pipe_replay cap es q = Some q' ->
  q ++ mjoin (written <$> es) = mjoin (read <$> es) ++ q'.
Proof.
  induction es as [|[op moved] es IH]; intros q q' E; simpl in *; [injection E as <-; by rewrite app_nil_r|].
  case_decide as Hm; [|done]. apply IH in E. pose proof (pipe_do_balance cap op q) as Hb.
  destruct (pipe_do cap op q) as [m q1]. simpl in *. subst moved.
  rewrite app_assoc, Hb, <- !app_assoc. f_equal. exact E.
Qed.

(** *** The invariant

    A call that is past the lock: what it moved, and whether it is in its loop. *)
Definition in_section (c : pipe_call_at) : option (pipe_op * list Z * bool) :=
  if c_waits c then None
  else match c_pc c with
       | AtLoop moved => Some (c_op c, moved, true)
       | AtUnlock moved => Some (c_op c, moved, false)
       | _ => None
       end.

(** What a thread's place in its call says of the lock. *)
Definition call_ok (L : lock_world) (t : Z) (c : option pipe_call_at) : Prop :=
  match c with
  | None => t ∉ lw_calls L /\ lw_inside L t = 0
  | Some c =>
      0 <= op_size (c_op c) /\
      match c_waits c, c_pc c with
      | true, AtLoop [] => t ∈ lw_calls L
      | false, AtEntry => t ∉ lw_calls L /\ lw_inside L t = 0 /\ op_size (c_op c) <> 0
      | false, AtLoop _ | false, AtUnlock _ => t ∉ lw_calls L /\ lw_inside L t = 1
      | _, _ => False
      end
  end.

Definition nobody (C : calls) : Prop := forall t c, C !! t = Some c -> in_section c = None.

(** A pipe with the mutex as its users see it ([Mutex]). *)
Record pipe_view := { pv_lock : lock_world; pv_ring : rt_ringbuffer; pv_calls : calls }.

Record pipe_inv (o cap : Z) (q : list Z) (x : pipe_view) : Prop := {
  pi_lock : lock_ok o (pv_lock x);
  pi_patient : never_refused o (pv_lock x);
  pi_calls : forall t, call_ok (pv_lock x) t (pv_calls x !! t);
  pi_queue : lenZ q <= cap;
  pi_bytes : exists c, holds_bytes cap (pv_ring x) c /\ (nobody (pv_calls x) -> c = q) /\
    forall t pc op moved more, pv_calls x !! t = Some pc -> in_section pc = Some (op, moved, more) -> underway cap op q moved c more
}.

Lemma section_inside o cap q x t pc op moved more : pipe_inv o cap q x -> pv_calls x !! t = Some pc ->
  in_section pc = Some (op, moved, more) -> lw_inside (pv_lock x) t = 1.
Proof.
  intros Hx Hp Hs. pose proof (pi_calls _ _ _ _ Hx t) as H. rewrite Hp in H. destruct H as [_ H]. unfold in_section in Hs.
  destruct pc as [op1 [] []]; simpl in *; try done; apply H.
Qed.

(** At most one thread is past the lock. *)
Lemma section_unique o cap q x t u pc pc' : pipe_inv o cap q x -> pv_calls x !! t = Some pc -> pv_calls x !! u = Some pc' ->
  is_Some (in_section pc) -> is_Some (in_section pc') -> t = u.
Proof.
  intros Hx Ht Hu [[[op m] b] E] [[[op' m'] b'] E'].
  pose proof (section_inside _ _ _ _ _ _ _ _ _ Hx Ht E) as H1. pose proof (section_inside _ _ _ _ _ _ _ _ _ Hx Hu E') as H2.
  destruct (lock_inside o _ t (pi_lock _ _ _ _ Hx)) as [O1 _]; [lia|]. destruct (lock_inside o _ u (pi_lock _ _ _ _ Hx)) as [O2 _]; [lia|].
  congruence.
Qed.

(** What a step of the lock does to the threads' view of it. *)
Definition moves_only (t : Z) (L L' : lock_world) : Prop :=
  forall u, u <> t -> (u ∈ lw_calls L' <-> u ∈ lw_calls L) /\ lw_inside L' u = lw_inside L u.

Lemma bump_ne t d f u : u <> t -> bump t d f u = f u.
Proof. intros H. unfold bump. by rewrite decide_False. Qed.

Lemma bump_eq t d f : bump t d f t = f t + d.
Proof. unfold bump. by rewrite decide_True. Qed.

Lemma takes_view o L t r L' : lock_ok o L -> mutex_step o L (Takes t RT_WAITING_FOREVER r) L' -> lw_inside L t = 0 ->
  moves_only t L L' /\
  match r with
  | Waiting => t ∈ lw_calls L'
  | Returned _ => t ∉ lw_calls L' /\ lw_inside L' t = 1
  end.
Proof.
  intros HL Hs Hi. pose proof HL as [Hm _ _ Hca]. remember (Takes t RT_WAITING_FOREVER r) as ev eqn:Eev.
  destruct Hs as [m k ins W c cth time r0 m' k' Hc Hcb Ht E| | | |]; simplify_eq. simpl in *.
  split; [intros u Hu; simpl; rewrite bump_ne by done; destruct r; simpl; [done|set_solver]|].
  destruct r as [e|]; [|simpl; set_solver]. simpl. split; [done|]. rewrite bump_eq, Hi.
  pose proof (rt_mutex_take_spec o m k t cth RT_WAITING_FOREVER Hm Hcb eq_refl) as H.
  destruct (owner m) as [w|] eqn:Ho; [destruct (decide (w = t)) as [->|Hwt]|].
  - exfalso. rewrite (ca_inside _ _ _ _ _ Hca), Ho, bool_decide_true in Hi by done.
    destruct (mo_held _ _ _ Hm t Ho) as (_ & Hh & _). lia.
  - destruct H as (k1 & wth & _ & E1 & _). rewrite E in E1. discriminate.
  - destruct H as [H _]. rewrite E in H. injection H as -> _ _. done.
Qed.

Lemma ends_view o L t e L' : lock_ok o L -> never_refused o L -> mutex_step o L (Ends t e) L' -> lw_inside L t = 0 ->
  moves_only t L L' /\ t ∉ lw_calls L' /\ lw_inside L' t = 1.
Proof.
  intros HL Hnr Hs Hi. pose proof HL as [Hm _ _ Hca]. remember (Ends t e) as ev eqn:Eev.
  destruct Hs as [|m k ins W c e0 Hc Hcq E| | |]; simplify_eq. simpl in *.
  split; [intros u Hu; simpl; rewrite bump_ne by done; set_solver|]. split; [set_solver|]. rewrite bump_eq, Hi.
  destruct (ca_error _ _ _ _ _ Hca t Hc Hcq) as (th & Hth & He). unfold rt_mutex_take_end in E. rewrite Hth, some_bind in E.
  rewrite (proj2 He (Hnr t Hc Hcq)) in E. by injection E as <-.
Qed.

Lemma releases_view o L t e L' : lock_ok o L -> mutex_step o L (Releases t e) L' -> lw_inside L t = 1 ->
  moves_only t L L' /\ t ∉ lw_calls L' /\ lw_inside L' t = 0.
Proof.
  intros HL Hs Hi. destruct (lock_inside o L t HL) as [Ho Hh]; [lia|]. pose proof HL as [Hm Hk Htk _]. remember (Releases t e) as ev eqn:Eev.
  destruct Hs as [| |m k ins W c e0 m' k' Hc Hcu Hn E| |]; simplify_eq. simpl in *.
  split; [intros u Hu; simpl; by rewrite bump_ne|]. split; [done|]. rewrite bump_eq, Hi.
  destruct (ko_current _ Hk t Hcu) as [cth Hct].
  pose proof (rt_mutex_release_spec o m k t cth Hm Hk Htk Hcu Hct Hn) as H. rewrite decide_True in H by done.
  rewrite (proj2 (Z.ltb_ge 1 (hold m))) in H by lia.
  destruct (queues k (QSuspend o)); [destruct H as (k1 & H & _)|destruct H as (m1 & k1 & H & _)]; rewrite E in H; injection H as -> _ _; done.
Qed.

Lemma otherwise_view o L L' : mutex_step o L Otherwise L' -> lw_calls L' = lw_calls L /\ lw_inside L' = lw_inside L.
Proof. intros Hs. remember Otherwise as ev eqn:Eev. by destruct Hs. Qed.

Lemma call_ok_other t u L L' pc : moves_only t L L' -> u <> t -> call_ok L u pc -> call_ok L' u pc.
Proof.
  intros Hm Hu. destruct (Hm u Hu) as [H1 H2]. destruct pc as [[op [|[]| |] []]|]; simpl; rewrite ?H1, ?H2; done.
Qed.

Lemma calls_other t L L' (C : calls) pc : moves_only t L L' -> (forall u, call_ok L u (C !! u)) -> call_ok L' t pc ->
  forall u, call_ok L' u (partial_alter (fun _ => pc) t C !! u).
Proof.
  intros Hm HC Hp u. destruct (decide (u = t)) as [->|Hu]; [by rewrite lookup_partial_alter_eq|].
  rewrite lookup_partial_alter_ne by done. by eapply call_ok_other.
Qed.

(** Nobody else is past the lock when [t] gets it. *)
Lemma alone o cap q x t : pipe_inv o cap q x -> forall L', lock_ok o L' -> moves_only t (pv_lock x) L' -> lw_inside L' t = 1 ->
  (match pv_calls x !! t with Some pc => in_section pc = None | None => True end) -> nobody (pv_calls x).
Proof.
  intros Hx L' HL Hm Ht Hs u pc Hu. destruct (decide (u = t)) as [->|Hne]; [by rewrite Hu in Hs|].
  destruct (in_section pc) as [[[op m] b]|] eqn:E; [|done]. exfalso.
  pose proof (section_inside _ _ _ _ _ _ _ _ _ Hx Hu E) as H1. destruct (Hm u Hne) as [_ H2].
  destruct (lock_inside o L' t HL) as [O1 _]; [lia|]. destruct (lock_inside o L' u HL) as [O2 _]; [lia|]. congruence.
Qed.


(** Thread [t], which gets past the lock, begins its loop on the bytes of the pipe. *)
Lemma enter_ok o cap q x t op L' : pipe_inv o cap q x -> lock_ok o L' -> never_refused o L' -> 0 <= op_size op ->
  (match pv_calls x !! t with Some pc => in_section pc = None | None => True end) ->
  moves_only t (pv_lock x) L' -> t ∉ lw_calls L' -> lw_inside L' t = 1 ->
  pipe_inv o cap q {| pv_lock := L'; pv_ring := pv_ring x; pv_calls := <[t := Build_pipe_call_at op (AtLoop []) false]> (pv_calls x) |}.
Proof.
  intros Hx HL Hnr Hop Hpc Hm Hc Hi. pose proof (alone _ _ _ _ t Hx L' HL Hm Hi Hpc) as Hno. destruct Hx as [H1 H2 H3 H4 (c & Hh & Hq & Hu)].
  split; simpl; [done|done|by apply (calls_other t (pv_lock x))|done|]. exists c. split; [done|]. split.
  - intros _. by apply Hq.
  - intros u pc op' moved more Hu' Hs. destruct (decide (u = t)) as [->|Hne].
    + rewrite lookup_insert_eq in Hu'. injection Hu' as <-. injection Hs as <- <- <-. right. split; [done|]. split; [done|]. by apply Hq.
    + rewrite lookup_insert_ne in Hu' by done. by rewrite (Hno u pc Hu') in Hs.
Qed.

(** Thread [t] goes to a place in its call outside of the lock. *)
Lemma outside_ok o cap q x t pc L' : pipe_inv o cap q x -> lock_ok o L' -> never_refused o L' ->
  (match pv_calls x !! t with Some pc => in_section pc = None | None => True end) ->
  moves_only t (pv_lock x) L' -> call_ok L' t (Some pc) -> in_section pc = None ->
  pipe_inv o cap q {| pv_lock := L'; pv_ring := pv_ring x; pv_calls := <[t := pc]> (pv_calls x) |}.
Proof.
  intros Hx HL Hnr Hpc Hm Hp Hs. destruct Hx as [H1 H2 H3 H4 (c & Hh & Hq & Hu)].
  split; simpl; [done|done|by apply (calls_other t (pv_lock x))|done|]. exists c. split; [done|]. split.
  - intros Hno. apply Hq. intros u pu Hu'. destruct (decide (u = t)) as [->|Hne].
    + by rewrite Hu' in Hpc.
    + apply (Hno u pu). by rewrite lookup_insert_ne.
  - intros u pu op' moved more Hu' Hs'. destruct (decide (u = t)) as [->|Hne].
    + rewrite lookup_insert_eq in Hu'. injection Hu' as <-. congruence.
    + rewrite lookup_insert_ne in Hu' by done. by apply (Hu u pu).
Qed.

(** A pass of thread [t] through its loop. *)
Lemma pass_inv o cap q x t op moved more moved' rb' : pipe_inv o cap q x -> pv_calls x !! t = Some (Build_pipe_call_at op (AtLoop moved) false) ->
  pipe_pass op moved (pv_ring x) = (after_pass more moved', rb') ->
  pipe_inv o cap q {| pv_lock := pv_lock x; pv_ring := rb';
    pv_calls := <[t := Build_pipe_call_at op (after_pass more moved') false]> (pv_calls x) |}.
Proof.
  intros Hx Ht E. pose proof (pi_calls _ _ _ _ Hx t) as Hp. rewrite Ht in Hp. destruct Hp as (Hop & Hp1 & Hp2). simpl in Hop.
  pose proof (fun u pc => section_unique _ _ _ _ t u (Build_pipe_call_at op (AtLoop moved) false) pc Hx Ht) as Huniq.
  destruct Hx as [H1 H2 H3 H4 (c & Hh & Hq & Hu)].
  pose proof (Hu t _ op moved true Ht eq_refl) as Hun.
  destruct (pass_ok cap op q moved (pv_ring x) c Hh H4) as (more1 & m1 & rb1 & c1 & E1 & Hh1 & Hun1 & _); [lia|done|].
  rewrite E in E1. assert (more1 = more /\ m1 = moved' /\ rb1 = rb') as (-> & -> & ->) by (unfold after_pass in E1; destruct more, more1; by simplify_eq). split; simpl; [done|done| |done|].
  - apply (calls_other t (pv_lock x)); [by intros u _|done|]. by destruct more.
  - exists c1. split; [done|]. split.
    + intros Hno. exfalso. specialize (Hno t _ (lookup_insert_eq _ _ _)). by destruct more.
    + intros u pu op' m' b Hu' Hs. destruct (decide (u = t)) as [->|Hne].
      * rewrite lookup_insert_eq in Hu'. injection Hu' as <-. destruct more; injection Hs as <- <- <-; exact Hun1.
      * rewrite lookup_insert_ne in Hu' by done. exfalso. apply Hne. symmetry. apply (Huniq u pu Hu'); [by eexists|by rewrite Hs].
Qed.

(** Thread [t] gives the lock back: its call has taken place. *)
Lemma leave_ok o cap q x t op moved L' : pipe_inv o cap q x -> lock_ok o L' -> never_refused o L' ->
  pv_calls x !! t = Some (Build_pipe_call_at op (AtUnlock moved) false) -> moves_only t (pv_lock x) L' -> t ∉ lw_calls L' -> lw_inside L' t = 0 ->
  moved = fst (pipe_cut cap op q) /\
  pipe_inv o cap (snd (pipe_cut cap op q)) {| pv_lock := L'; pv_ring := pv_ring x; pv_calls := delete t (pv_calls x) |}.
Proof.
  intros Hx HL Hnr Ht Hm Hc Hi. pose proof (fun u pc => section_unique _ _ _ _ t u (Build_pipe_call_at op (AtUnlock moved) false) pc Hx Ht) as Huniq.
  destruct Hx as [H1 H2 H3 H4 (c & Hh & Hq & Hu)]. destruct (Hu t _ op moved false Ht eq_refl) as [E|[]]; [|done].
  rewrite <- E. split; [done|]. simpl. assert (nobody (delete t (pv_calls x))) as Hno.
  { intros u pu Hu'. apply lookup_delete_Some in Hu' as [Hne Hu']. destruct (in_section pu) as [[[op' m'] b]|] eqn:Es; [|done].
    exfalso. apply Hne. apply (Huniq u pu Hu'); [by eexists|by rewrite Es]. }
  split; simpl; [done|done|by apply (calls_other t (pv_lock x))|by destruct (holds_len _ _ _ Hh)|].
  exists c. split; [done|]. split; [done|]. intros u pu op' m' b Hu' Hs. by rewrite (Hno u pu Hu') in Hs.
Qed.


(** *** Every step keeps the invariant *)
Record views (x : pipe_world) (v : pipe_view) : Prop := {
  vw_mutex : lw_mutex (pv_lock v) = lock (pw_pipe x);
  vw_kernel : lw_kernel (pv_lock v) = pw_kernel x;
  vw_ring : exists r, fifo (pw_pipe x) = Some r /\ ring_data r = pv_ring v;
  vw_calls : pv_calls v = pw_calls x
}.

Lemma waits_calls o cap q v t : pipe_inv o cap q v -> t ∈ lw_calls (pv_lock v) <-> waits_in (pv_calls v) t.
Proof.
  intros Hv. pose proof (pi_calls _ _ _ _ Hv t) as H. unfold waits_in. split.
  - intros Ht. destruct (pv_calls v !! t) as [[op pc w]|]; [|by destruct H]. exists {| c_op := op; c_pc := pc; c_waits := w |}.
    split; [done|]. destruct w; [done|]. destruct H as [_ H]. destruct pc; simpl in H; tauto.
  - intros ([op pc w] & E & Hw). simpl in Hw. subst w. rewrite E in H. destruct H as [_ H]. by destruct pc as [|[]| |].
Qed.

Lemma pass_shape op moved rb : exists more moved', fst (pipe_pass op moved rb) = after_pass more moved'.
Proof.
  assert (forall pc, pc = AtLoop moved \/ (exists m, pc = AtLoop m) \/ pc = AtUnlock moved -> exists more moved', pc = after_pass more moved') as H.
  { intros pc [->|[[m ->]| ->]]; [by exists true, moved|by exists true, m|by exists false, moved]. }
  apply H. destruct op; unfold pipe_pass, read_pass, write_pass; repeat case_match; simpl; eauto.
Qed.

Lemma code_entry op : op_size op <> 0 -> pipe_code op AtEntry = TakeLock (AtLoop []).
Proof. intros H. destruct op; simpl in *; by rewrite (proj2 (Z.eqb_neq _ _) H). Qed.

Lemma code_loop op moved : pipe_code op (AtLoop moved) = OnBuffer (pipe_pass op moved).
Proof. by destruct op. Qed.

Lemma code_unlock op moved : pipe_code op (AtUnlock moved) = ReleaseLock (AtExit moved).
Proof. by destruct op. Qed.

Lemma code_exit op moved : pipe_code op (AtExit moved) = Return moved.
Proof. by destruct op. Qed.

Lemma moves_only_refl t L : moves_only t L L.
Proof. by intros u _. Qed.

(** A thread calls: nothing happens to the pipe. *)
Lemma call_step_ok o cap q v t op e C' : pipe_inv o cap q v -> pv_calls v !! t = None -> 0 <= op_size op ->
  reaches t op AtEntry false (pv_calls v) = (e, C') ->
  pipe_replay cap (as_asked (option_list e)) q = Some q /\
  pipe_inv o cap q {| pv_lock := pv_lock v; pv_ring := pv_ring v; pv_calls := C' |}.
Proof.
  intros Hv Ht Hop E. pose proof (pi_queue _ _ _ _ Hv) as Hq. unfold reaches in E. destruct (decide (op_size op = 0)) as [Hz|Hz].
  - assert (pipe_code op AtEntry = Return []) as Hc by (destruct op; simpl in *; by rewrite Hz).
    rewrite Hc in E. injection E as <- <-. rewrite delete_id by done. split; [|by destruct v].
    assert (pipe_do cap (asked op) q = ([], q)) as Hd; [|simpl; by rewrite Hd].
    destruct op as [count|data]; unfold asked, pipe_do; simpl in Hz.
    + subst count. change (u16 0) with 0. by rewrite Z.min_l by (unfold lenZ; lia).
    + rewrite Hz. change (take (Z.to_nat (u16 0)) data) with (@nil Z). cbv zeta. by rewrite take_nil, app_nil_r.
  - rewrite code_entry in E by done. injection E as <- <-. split; [done|].
    pose proof (pi_calls _ _ _ _ Hv t) as Hc. rewrite Ht in Hc. destruct Hc as [H1 H2].
    apply (outside_ok o cap q v t _ (pv_lock v)); try done; [apply Hv|apply Hv|by rewrite Ht].
Qed.

(** A thread whose turn it is takes the lock. *)
Lemma pipe_take_ok o cap q v t op th r m' k' : pipe_inv o cap q v ->
  pv_calls v !! t = Some {| c_op := op; c_pc := AtEntry; c_waits := false |} -> can_block (lw_kernel (pv_lock v)) t th ->
  rt_mutex_take o (lw_mutex (pv_lock v)) RT_WAITING_FOREVER (lw_kernel (pv_lock v)) = Some (r, m', k') ->
  exists L', lw_mutex L' = m' /\ lw_kernel L' = k' /\
    pipe_inv o cap q {| pv_lock := L'; pv_ring := pv_ring v;
      pv_calls := <[t := {| c_op := op; c_pc := AtLoop [];
                            c_waits := match r with Waiting => true | Returned _ => false end |}]> (pv_calls v) |}.
Proof.
  intros Hv Ht Hcb E. pose proof (pi_calls _ _ _ _ Hv t) as Hp. rewrite Ht in Hp. destruct Hp as (Hop & H1 & H2 & _).
  simpl in Hop, H1, H2. pose proof (pi_lock _ _ _ _ Hv) as HL. pose proof (pi_patient _ _ _ _ Hv) as Hnr.
  destruct v as [[m k ins W] rb C]. simpl in *.
  pose proof (mx_take o m k ins W t th RT_WAITING_FOREVER r m' k' H1 Hcb eq_refl E) as Hs.
  eexists _. split; [|split; [|]]; [..|]. 3: {
    pose proof (mutex_step_ok _ _ _ _ HL Hs) as HL'. pose proof (step_never_refused _ _ _ _ HL Hnr Hs eq_refl) as Hnr'.
    destruct (takes_view o _ t r _ HL Hs H2) as [Hm Hr]. destruct r as [e|].
    - destruct Hr. eapply (enter_ok o cap q _ t op _ Hv); try done. simpl. by rewrite Ht.
    - eapply (outside_ok o cap q _ t _ _ Hv); try done. simpl. by rewrite Ht. }
  all: done.
Qed.

(** A thread that waited runs again: it has the lock. *)
Lemma awake_step_ok o cap q v t op pc : pipe_inv o cap q v ->
  pv_calls v !! t = Some {| c_op := op; c_pc := pc; c_waits := true |} -> t ∉ queues (lw_kernel (pv_lock v)) (QSuspend o) ->
  pc = AtLoop [] /\
  exists L', lw_mutex L' = lw_mutex (pv_lock v) /\ lw_kernel L' = lw_kernel (pv_lock v) /\
    pipe_inv o cap q {| pv_lock := L'; pv_ring := pv_ring v;
      pv_calls := <[t := {| c_op := op; c_pc := pc; c_waits := false |}]> (pv_calls v) |}.
Proof.
  intros Hv Ht Hq. pose proof (pi_calls _ _ _ _ Hv t) as Hp. rewrite Ht in Hp. destruct Hp as [Hop Hp]. simpl in Hop, Hp.
  destruct pc as [|[|]| |]; try done. split; [done|].
  pose proof (pi_lock _ _ _ _ Hv) as HL. pose proof (pi_patient _ _ _ _ Hv) as Hnr.
  destruct v as [[m k ins W] rb C]. simpl in *. destruct (ca_error _ _ _ _ _ (lk_calls _ _ HL) t Hp Hq) as (th & Hth & _).
  assert (exists e, rt_mutex_take_end t k = Some e) as [e E].
  { unfold rt_mutex_take_end. simpl in Hth. rewrite Hth, some_bind. destruct (negb _); eauto. }
  pose proof (mx_end o m k ins W t e Hp Hq E) as Hs.
  pose proof (mutex_step_ok _ _ _ _ HL Hs) as HL'. pose proof (step_never_refused _ _ _ _ HL Hnr Hs I) as Hnr'.
  assert (ins t = 0) as Hi.
  { pose proof (ca_inside _ _ _ _ _ (lk_calls _ _ HL) t) as Hi. simpl in Hi. by rewrite bool_decide_false in Hi by (by intros [_ ?]). }
  destruct (ends_view o _ t e _ HL Hnr Hs Hi) as (Hm & Hc & Hi').
  eexists _. split; [|split; [|eapply (enter_ok o cap q _ t op _ Hv); try done; simpl; by rewrite Ht]]; done.
Qed.

(** A thread gives the lock back: its call has taken place. *)
Lemma pipe_release_ok o cap q v t op moved e m' k' : pipe_inv o cap q v ->
  pv_calls v !! t = Some {| c_op := op; c_pc := AtUnlock moved; c_waits := false |} ->
  current_thread (lw_kernel (pv_lock v)) = Some t -> interrupt_nest (lw_kernel (pv_lock v)) = 0 ->
  rt_mutex_release o (lw_mutex (pv_lock v)) (lw_kernel (pv_lock v)) = Some (e, m', k') ->
  moved = fst (pipe_do cap (asked op) q) /\
  exists L', lw_mutex L' = m' /\ lw_kernel L' = k' /\
    pipe_inv o cap (snd (pipe_do cap (asked op) q)) {| pv_lock := L'; pv_ring := pv_ring v; pv_calls := delete t (pv_calls v) |}.
Proof.
  intros Hv Ht Hcu Hn E. pose proof (pi_calls _ _ _ _ Hv t) as Hp. rewrite Ht in Hp. destruct Hp as (Hop & H1 & H2).
  simpl in Hop, H1, H2. pose proof (pi_lock _ _ _ _ Hv) as HL. pose proof (pi_patient _ _ _ _ Hv) as Hnr.
  rewrite <- pipe_cut_asked by apply Hv.
  destruct v as [[m k ins W] rb C]. simpl in *.
  pose proof (mx_release o m k ins W t e m' k' H1 Hcu Hn E) as Hs.
  pose proof (mutex_step_ok _ _ _ _ HL Hs) as HL'. pose proof (step_never_refused _ _ _ _ HL Hnr Hs I) as Hnr'.
  destruct (releases_view o _ t e _ HL Hs H2) as (Hm & Hc & Hi').
  destruct (leave_ok o cap q _ t op moved _ Hv HL' Hnr' Ht Hm Hc Hi') as [Hmv Hx']. split; [done|].
  eexists _. split; [|split; [|exact Hx']]; done.
Qed.

(** Something else happens. *)
Lemma pipe_other_ok o cap q v p k' : pipe_inv (lock_at o) cap q v -> lw_mutex (pv_lock v) = lock p ->
  elsewhere o p (pv_calls v) (lw_kernel (pv_lock v)) k' ->
  exists L', lw_mutex L' = lock p /\ lw_kernel L' = k' /\
    pipe_inv (lock_at o) cap q {| pv_lock := L'; pv_ring := pv_ring v; pv_calls := pv_calls v |}.
Proof.
  intros Hv Hm (H1 & H2 & H3 & H4 & H5). pose proof (fun t => waits_calls _ _ _ v t Hv) as Hw.
  destruct v as [[m k ins W] rb C]. simpl in *. rewrite <- Hm in *.
  assert (mutex_step (lock_at o) {| lw_mutex := m; lw_kernel := k; lw_inside := ins; lw_calls := W |} Otherwise
    {| lw_mutex := m; lw_kernel := k'; lw_inside := ins; lw_calls := W |}) as Hs.
  { apply mx_other; try done. intros x th Hx Hth. destruct (H4 x th) as (th' & E1 & E2 & E3); [by rewrite <- Hw|done|].
    exists th'. split_and!; try done. intros Hxw. by apply E3, Hw. }
  eexists _. split; [|split; [|]]; [..|]. 3: {
    destruct Hv as [HL Hnr Hc H6 H7].
    split; simpl; [by eapply mutex_step_ok|by eapply step_never_refused|exact Hc|done|exact H7]. }
  all: done.
Qed.

Lemma act_step_ok o cap q x v t op pc pc' waits p' k' e C' : views x v -> pipe_inv (lock_at o) cap q v ->
  pw_calls x !! t = Some {| c_op := op; c_pc := pc; c_waits := false |} -> may_act (pipe_code op pc) t (pw_kernel x) ->
  pipe_act o (pipe_code op pc) (pw_pipe x) (pw_kernel x) = Some (pc', waits, p', k') -> reaches t op pc' waits (pw_calls x) = (e, C') ->
  exists q' v', pipe_replay cap (as_asked (option_list e)) q = Some q' /\
    views {| pw_pipe := p'; pw_kernel := k'; pw_calls := C' |} v' /\ pipe_inv (lock_at o) cap q' v'.
Proof.
  intros [V1 V2 (r & V3 & V4) V5] Hv Ht Ha E Hr. rewrite <- V5, <- V2 in *. 
  pose proof (pi_calls _ _ _ _ Hv t) as Hp. rewrite Ht in Hp. destruct Hp as [Hop Hp]. simpl in Hop, Hp.
  destruct pc as [|moved|moved|moved]; [destruct Hp as (_ & _ & Hz)|..|done].
  - rewrite code_entry in E, Ha by done. destruct Ha as [th Hcb]. simpl in E. unfold pipe_lock in E. rewrite <- V1 in E.
    destruct (rt_mutex_take _ _ _ _) as [[[r1 m1] k1]|] eqn:E1; [|done]. simpl in E. injection E as <- <- <- <-.
    destruct (pipe_take_ok _ _ _ _ _ _ _ _ _ _ Hv Ht Hcb E1) as (L' & L1 & L2 & Hv').
    assert (e = None /\ C' = <[t := {| c_op := op; c_pc := AtLoop []; c_waits := match r1 with Waiting => true | Returned _ => false end |}]> (pv_calls v))
      as [-> ->] by (unfold reaches in Hr; rewrite code_loop in Hr; destruct r1; injection Hr as <- <-; done).
    eexists q, _. split; [done|]. split; [|exact Hv']. split; try done. by exists r.
  - rewrite code_loop in E. simpl in E. rewrite V3 in E. simpl in E. rewrite V4 in E.
    destruct (pass_shape op moved (pv_ring v)) as (more & moved' & Hsh).
    destruct (pipe_pass op moved (pv_ring v)) as [pc1 rb1] eqn:Ep. simpl in Hsh. subst pc1. injection E as <- <- <- <-.
    assert (e = None /\ C' = <[t := {| c_op := op; c_pc := after_pass more moved'; c_waits := false |}]> (pv_calls v)) as [-> ->].
    { unfold reaches in Hr. destruct more; simpl in Hr; [rewrite code_loop in Hr|rewrite code_unlock in Hr]; by injection Hr as <- <-. }
    eexists q, _. split; [done|]. split; [|exact (pass_inv _ _ _ _ _ _ _ _ _ _ Hv Ht Ep)].
    split; try done. by eexists.
  - rewrite code_unlock in E, Ha. destruct Ha as [Hcu Hn]. simpl in E. unfold pipe_unlock in E. rewrite <- V1 in E.
    destruct (rt_mutex_release _ _ _) as [[[e1 m1] k1]|] eqn:E1; [|done]. simpl in E. injection E as <- <- <- <-.
    unfold reaches in Hr. rewrite code_exit in Hr. injection Hr as <- <-.
    destruct (pipe_release_ok _ _ _ _ _ _ _ _ _ _ Hv Ht Hcu Hn E1) as (Hmv & L' & L1 & L2 & Hv').
    eexists _, _. split; [simpl; by rewrite decide_True|]. split; [|exact Hv']. split; try done. by exists r.
Qed.

Lemma pipe_step_ok o cap q x v e x' : views x v -> pipe_inv (lock_at o) cap q v -> pipe_step o x e x' ->
  exists q' v', pipe_replay cap (as_asked (option_list e)) q = Some q' /\ views x' v' /\ pipe_inv (lock_at o) cap q' v'.
Proof.
  intros Hw Hv Hs.
  destruct Hs as [op t p k C e C' Ht Hop Hr|op t pc p k C pc' waits p' k' e C' Ht Ha E Hr|op t pc p k C e C' Ht Hq Hr|p k C k' He].
  - destruct Hw as [V1 V2 V3 V5]. simpl in *. rewrite <- V5 in *.
    destruct (call_step_ok _ _ _ _ _ _ _ _ Hv Ht Hop Hr) as [Hrep Hv']. eexists q, _. split; [done|]. by split; [|exact Hv'].
  - exact (act_step_ok o cap q _ v t op pc pc' waits p' k' e C' Hw Hv Ht Ha E Hr).
  - destruct Hw as [V1 V2 V3 V5]. simpl in *. rewrite <- V5 in *. rewrite <- V2 in Hq.
    destruct (awake_step_ok _ _ _ _ _ _ _ Hv Ht Hq) as (-> & L' & L1 & L2 & Hv'). unfold reaches in Hr. rewrite code_loop in Hr. injection Hr as <- <-.
    eexists q, _. split; [done|]. split; [|exact Hv']. split; try done; simpl; congruence.
  - destruct Hw as [V1 V2 V3 V5]. simpl in *. rewrite <- V5, <- V2 in *.
    destruct (pipe_other_ok o cap q v p k' Hv V1 He) as (L' & L1 & L2 & Hv'). eexists q, _. split; [done|]. by split; [|exact Hv'].
Qed.

Lemma as_asked_app es fs : as_asked (es ++ fs) = as_asked es ++ as_asked fs.
Proof. apply map_app. Qed.

Lemma as_asked_moved es : written <$> as_asked es = written <$> es /\ read <$> as_asked es = read <$> es.
Proof.
  induction es as [|[op moved] es [IH1 IH2]]; [done|]. split; simpl; f_equal; try done; by destruct op.
Qed.

Lemma as_asked_small es : Forall (fun e => 0 <= op_size (fst e) < 65536) es -> as_asked es = es.
Proof.
  induction 1 as [|[op moved] es H _ IH]; [done|]. simpl in *. by rewrite asked_id, IH.
Qed.

(** ** Properties *)

(** C9: reads and writes of a pipe are atomic.  Threads call [rt_pipe_read] and [rt_pipe_write] on an open
    pipe, with any sizes, and the actions of the calls' code (taking the lock through [pipe_lock], every pass of
    the loop on the buffer, giving the lock back through [pipe_unlock]) interleave in any way with one another and with
    whatever else the system does, as long as that leaves the lock and the threads waiting for it alone.
    Then never more than one thread is past the lock, and the calls that have returned moved what they
    would move one after the other on a bounded FIFO queue of bytes: a read takes as many of the bytes it
    asks for as there are, a write adds as many of its bytes as fit, all next to each other.  What a call of 65536 bytes or
    more asks for is cut by the code to the low 16 bits of its count ([asked], [write_64k_moves_nothing]);
    smaller calls ask for what they were called with.  No byte is lost, repeated or reordered, and while
    nobody is past the lock the buffer holds exactly that queue. *)
Theorem pipe_atomic o p0 r0 k0 es x :
  mutex_ok (lock_at o) (lock p0) k0 -> owner (lock p0) = None -> kernel_ok k0 -> timing_ok k0 ->
  fifo p0 = Some r0 -> rb_wf (ring_data r0) ->
  pipe_reach o {| pw_pipe := p0; pw_kernel := k0; pw_calls := ∅ |} es x ->
  let cap := buffer_size (ring_data r0) in
  let q0 := rb_content (ring_data r0) in
  (forall t u c c', pw_calls x !! t = Some c -> pw_calls x !! u = Some c' ->
     is_Some (in_section c) -> is_Some (in_section c') -> t = u) /\
  exists r q, fifo (pw_pipe x) = Some r /\ rb_wf (ring_data r) /\
    pipe_replay cap (as_asked es) q0 = Some q /\
    (Forall (fun e => 0 <= op_size (fst e) < 65536) es -> pipe_replay cap es q0 = Some q) /\
    q0 ++ mjoin (written <$> es) = mjoin (read <$> es) ++ q /\
    (nobody (pw_calls x) -> rb_content (ring_data r) = q).
Proof.
  intros Hm Ho Hk Htk Hf Hrb Hr cap q0.
  assert (exists q v, pipe_replay cap (as_asked es) q0 = Some q /\ views x v /\ pipe_inv (lock_at o) cap q v) as (q & v & Hq & Hw & Hv).
  { induction Hr as [|es x e x' _ (q & v & Hq & Hw & Hv) Hs].
    - exists q0, {| pv_lock := lock_start (lock p0) k0; pv_ring := ring_data r0; pv_calls := ∅ |}. split; [done|].
      assert (holds_bytes cap (ring_data r0) q0) as Hh by done. split; [by split; [..|exists r0|]|].
      split; simpl; [by apply lock_ok_start| |intros t; by rewrite lookup_empty|by destruct (holds_len _ _ _ Hh)|].
      + intros t Ht. simpl in Ht. set_solver.
      + exists q0. split; [done|]. split; [done|]. intros t pc op moved more Ht. by rewrite lookup_empty in Ht.
    - destruct (pipe_step_ok o cap q x v e x' Hw Hv Hs) as (q' & v' & Hq' & Hw' & Hv'). exists q', v'. split; [|done].
      by rewrite as_asked_app, (pipe_replay_app _ _ _ _ q). }
  destruct Hw as [V1 V2 (r & V3 & V4) V5]. rewrite <- V5.
  destruct (pi_bytes _ _ _ _ Hv) as (c & (Hwf & _ & Hc) & Hno & _). split.
  - intros t u pc pc'. by apply (section_unique (lock_at o) cap q v).
  - exists r, q. rewrite V4. split; [done|]. split; [done|]. split; [done|]. split; [intros Hsm; by rewrite <- (as_asked_small es)|].
    destruct (as_asked_moved es) as [<- <-]. split; [by eapply pipe_replay_balance|]. intros Hn. by rewrite Hc, Hno.
Qed.

(** *** The driver *)
Lemma now_device {A B} (f : A -> B) d x b d' p' k' : now f d x = Some (b, d', p', k') -> d' = d.
Proof. unfold now. destruct x as [[[[a|] p] k]|]; [|done..]. simpl. by intros [= _ <-]. Qed.

#[global] Instance pipe_laws o fresh : DriverLaws (pipe_ops o fresh).
Proof.
  split; intros f; [done|intros ? d p k e d' p' k' [= <-] E|intros d p k e d' p' k' [= <-] E|
    intros ? ? d p k l d' p' k' [= <-] E|intros ? ? d p k n d' p' k' [= <-] E|intros ? ? d p k e d' p' k' [= <-] E].
  - apply now_device in E as ->. done.
  - apply now_device in E as ->. done.
  - apply now_device in E as ->. done.
  - apply now_device in E as ->. done.
  - by injection E as <- <- <- <-.
Qed.

(** *** Witness: thread 1 of the demonstration kernel writes to an empty pipe of eight bytes. *)
Definition demo_ring : rt_ringbuffer :=
  {| buffer_ptr := replicate 8 0; read_mirror := false; read_index := 0; write_mirror := false; write_index := 0; buffer_size := 8 |}.

Lemma demo_ring_wf : rb_wf demo_ring.
Proof. by split; vm_compute. Qed.

Definition demo_pipe : rt_pipe :=
  {| is_named := true; fifo := Some {| ring_addr := 0; pool_addr := 16; ring_data := demo_ring |}; bufsz := 8; lock := demo_mutex_free |}.

Lemma pipe_atomic_witness : exists x r,
  pipe_reach 400 {| pw_pipe := demo_pipe; pw_kernel := demo_kernel; pw_calls := ∅ |} [(PWrite [1; 2; 3], [1; 2; 3])] x /\
  fifo (pw_pipe x) = Some r /\ rb_content (ring_data r) = [1; 2; 3].
Proof.
  pose (op := PWrite [1; 2; 3]).
  assert (exists m k, rt_mutex_take 500 demo_mutex_free RT_WAITING_FOREVER demo_kernel = Some (Returned RT_EOK, m, k) /\
    current_thread k = Some 1 /\ interrupt_nest k = 0 /\ exists m' k', rt_mutex_release 500 m k = Some (RT_EOK, m', k'))
    as (m & k & E & Hcu & Hn & m' & k' & E').
  { eexists _, _. split; [vm_compute; reflexivity|]. split; [reflexivity|]. split; [reflexivity|].
    eexists _, _. vm_compute. reflexivity. }
  assert (exists rb1 rb2, pipe_pass op [] demo_ring = (AtLoop [1; 2; 3], rb1) /\ pipe_pass op [1; 2; 3] rb1 = (AtUnlock [1; 2; 3], rb2))
    as (rb1 & rb2 & P1 & P2) by (eexists _, _; split; vm_compute; reflexivity).
  pose (ring rb := Some {| ring_addr := 0; pool_addr := 16; ring_data := rb |}).
  pose (p1 := set_lock m demo_pipe).
  assert (pipe_act 400 (pipe_code op AtEntry) demo_pipe demo_kernel = Some (AtLoop [], false, p1, k)) as A1.
  { unfold pipe_act, pipe_code, op. simpl rt_pipe_write. cbv iota. unfold pipe_lock.
    change (lock_at 400) with 500. change (lock demo_pipe) with demo_mutex_free. rewrite E. reflexivity. }
  assert (pipe_act 400 (pipe_code op (AtLoop [])) p1 k = Some (AtLoop [1; 2; 3], false, set_fifo (ring rb1) p1, k)) as A2.
  { rewrite code_loop. unfold pipe_act. change (fifo p1) with (ring demo_ring). unfold ring. rewrite some_bind. cbn [ring_data]. by rewrite P1. }
  assert (pipe_act 400 (pipe_code op (AtLoop [1; 2; 3])) (set_fifo (ring rb1) p1) k =
    Some (AtUnlock [1; 2; 3], false, set_fifo (ring rb2) p1, k)) as A3.
  { rewrite code_loop. unfold pipe_act. change (fifo (set_fifo (ring rb1) p1)) with (ring rb1). unfold ring. rewrite some_bind. cbn [ring_data]. by rewrite P2. }
  assert (pipe_act 400 (pipe_code op (AtUnlock [1; 2; 3])) (set_fifo (ring rb2) p1) k =
    Some (AtExit [1; 2; 3], false, set_lock m' (set_fifo (ring rb2) p1), k')) as A4.
  { unfold pipe_act, pipe_code, op. simpl rt_pipe_write. cbv iota. unfold pipe_unlock. change (lock_at 400) with 500.
    change (lock (set_fifo (ring rb2) p1)) with m. rewrite E'. reflexivity. }
  pose proof (pr_next _ _ _ _ _ _ (pr_start 400 _) (ps_call 400 op 1 demo_pipe demo_kernel ∅ _ _ (lookup_empty _) ltac:(vm_compute; discriminate) eq_refl)) as R0.
  pose proof (pr_next _ _ _ _ _ _ R0 (ps_act 400 op 1 AtEntry _ _ _ _ _ _ _ _ _ (lookup_insert_eq _ _ _) (ex_intro _ demo_current demo_can_block) A1 eq_refl)) as R1.
  pose proof (pr_next _ _ _ _ _ _ R1 (ps_act 400 op 1 (AtLoop []) _ _ _ _ _ _ _ _ _ (lookup_insert_eq _ _ _) (conj Hcu Hn) A2 eq_refl)) as R2.
  pose proof (pr_next _ _ _ _ _ _ R2 (ps_act 400 op 1 (AtLoop [1; 2; 3]) _ _ _ _ _ _ _ _ _ (lookup_insert_eq _ _ _) (conj Hcu Hn) A3 eq_refl)) as R3.
  pose proof (pr_next _ _ _ _ _ _ R3 (ps_act 400 op 1 (AtUnlock [1; 2; 3]) _ _ _ _ _ _ _ _ _ (lookup_insert_eq _ _ _) (conj Hcu Hn) A4 eq_refl)) as R4.
  eexists _, _. split; [exact R4|]. split; [reflexivity|].
  destruct (pipe_atomic 400 demo_pipe _ demo_kernel _ _ demo_mutex_free_ok eq_refl demo_kernel_ok demo_timing eq_refl demo_ring_wf R4)
    as (_ & r & q & Hr & _ & Eq & _ & _ & Hq). injection Hr as <-. rewrite Hq; [vm_compute in Eq; by injection Eq as <-|].
  intros t pc Ht. simpl in Ht. apply lookup_delete_Some in Ht as [Hne Ht]. by rewrite !lookup_insert_ne, lookup_empty in Ht by done.
Defined.

(** ** Where the code goes wrong *)

(** What happens under the lock to a part of the pipe other than the lock. *)
Lemma under_lock_keeps {A} o (f : rt_pipe -> kernel -> option (A * rt_pipe * kernel)) p k r p' k' :
  (forall p k a p' k', f p k = Some (a, p', k') -> fifo p' = fifo p) ->
  under_lock o f p k = Some (r, p', k') -> fifo p' = fifo p.
Proof.
  intros Hf. unfold under_lock, pipe_lock. destruct (rt_mutex_take _ _ _ _) as [[[r1 m1] k1]|]; [|done]. simpl.
  destruct r1; [|by intros [= _ <- _]]. unfold after_lock. destruct (f _ _) as [[[a p2] k2]|] eqn:E; [|done]. simpl.
  apply Hf in E. unfold pipe_unlock. destruct (rt_mutex_release _ _ _) as [[[e3 m3] k3]|]; [|done]. simpl.
  intros [= _ <- _]. simpl. by rewrite E.
Qed.

(** device.c gives the reference up before it calls rt_pipe_close, which therefore never
    sees a count of 1: no close frees the buffer, and what was written before it is
    read by whoever opens the pipe next. *)
Lemma closed_pipe_keeps_data o fresh d p k e d' p' k' : 0 <= ref_count d < 256 ->
  rt_device_close (pipe_ops o fresh) d p k = Some (e, d', p', k') -> fifo p' = fifo p.
Proof.
  intros Hr. unfold rt_device_close. destruct (assert _); [|done]. simpl. destruct (Z.eqb_spec (ref_count d) 0) as [Hz|Hz]; [by intros [= _ _ <- _]|].
  cbn [ref_count]. destruct (Z.eqb_spec (u8 (ref_count d - 1)) 0) as [H1|H1]; simpl; [|by intros [= _ _ <- _]].
  unfold driver_close. cbn [op_close pipe_ops]. unfold now, rt_pipe_close.
  match goal with |- context [under_lock o ?f p k] => destruct (under_lock o f p k) as [[[r p1] k1]|] eqn:E; [|done] end. simpl.
  destruct r as [e1|]; [|done]. simpl. intros [= _ _ <- _]. revert E. apply under_lock_keeps. intros q k2 a q' k2'.
  unfold close_locked. cbn [ref_count]. rewrite H1. by intros [= _ <- _].
Qed.

(** The number of bytes still to be moved is cut to 16 bits for the ring buffer: a call
    for 65536 bytes moves nothing at all. *)
Lemma write_64k_moves_nothing o data p k r q m1 k1 m2 k2 e e' : fifo p = Some r ->
  holds_bytes (buffer_size (ring_data r)) (ring_data r) q -> lenZ data = 65536 ->
  rt_mutex_take (lock_at o) (lock p) RT_WAITING_FOREVER k = Some (Returned e, m1, k1) ->
  rt_mutex_release (lock_at o) m1 k1 = Some (e', m2, k2) ->
  exists p', pipe_call o (PWrite data) p k = Some (Some [], p', k2).
Proof.
  intros Hf Hh Hd E1 E2. destruct (pipe_call_ok o (PWrite data) p k r q m1 k1 m2 k2 e e' Hf Hh ltac:(simpl; lia) E1 E2) as (p' & E & _).
  exists p'. rewrite E. unfold asked, pipe_do. rewrite Hd. change (take (Z.to_nat (u16 65536)) data) with (@nil Z).
  cbv zeta. by rewrite take_nil.
Qed.

(** A pipe of 40000 bytes can be created, but its buffer cannot: the size is
    negative as a 16-bit number, and the assertion of rt_ringbuffer_init fails. *)
Lemma large_pipe_asserts fresh h r h' : rt_ringbuffer_create 40000 fresh h = Some (r, h') -> r = None.
Proof.
  unfold rt_ringbuffer_create. cbn [assert]. change (0 <? 40000) with true. cbv iota. cbn [assert]. rewrite some_bind.
  change (u16 (RT_ALIGN_DOWN 40000 RT_ALIGN_SIZE)) with 40000. change (i16 40000) with (-25536).
  destruct (rt_malloc 12 h) as [[[rb|] h1]|]; [|by intros [= <- _]|done]. rewrite some_bind. cbn beta iota.
  destruct (rt_malloc 40000 h1) as [[[pool|] h2]|]; [done| |done]. rewrite some_bind. cbn beta iota.
  destruct (rt_free _ h2); [|done]. rewrite some_bind. by intros [= <- _].
Qed.

(** When the name is taken, rt_pipe_create frees the pipe but leaves its mutex in the
    list of all mutexes. *)
Definition demo_boot : kernel :=
  boot_kernel (rt_system_heap_init 0 1024 {| hdrs := ∅; lfree := 0; mem_size_aligned := 0; used_mem := 0; max_mem := 0 |}).

Lemma failed_create_leaves_mutex : exists ps1 ds1 k1 ds2 k2,
  rt_pipe_create (bytes "p") 64 ∅ ∅ demo_boot = Some (Some 12, ps1, ds1, k1) /\
  rt_pipe_create (bytes "p") 64 ps1 ds1 k1 = Some (None, ps1, ds2, k2) /\
  used_mem (kheap k2) = used_mem (kheap k1) /\
  object_list k2 RT_Object_Class_Mutex = Obj (lock_at 160) :: object_list k1 RT_Object_Class_Mutex.
Proof. eexists _, _, _, _, _. split; [vm_compute; reflexivity|]. vm_compute. repeat split. Qed.
