(* ===== verification/Serial.v ===== *)
(** * Serial devices (rt-thread/components/drivers/serial/serial.c)

    The serial driver between device.c and a UART, in the configuration of the
    firmware: received characters go through a software FIFO in an interrupt,
    sent ones are polled or waited for with a completion; no DMA, no POSIX layer.
    The operations of the UART, which access its registers (see [Usart]), are the interface
    [Uart], with the laws [UartLaws].  A call of the function rx_indicate is the
    last thing the interrupt handler does; it is returned. *)
From S2P Require Import Prelude Ring Mem Kernel Sched Timer Ipc Completion Device.

Definition RT_SERIAL_RB_BUFSZ : Z := 64.
Definition RT_SERIAL_EVENT_RX_IND : Z := 0x01.
Definition RT_SERIAL_EVENT_TX_DONE : Z := 0x02.

Record serial_configure := {
  baud_rate : Z; data_bits : Z; stop_bits : Z; parity : Z; bit_order : Z; invert : Z;
  bufsz : Z                                     (** 16 bits *)
}.

Definition RT_SERIAL_CONFIG_DEFAULT : serial_configure :=
  {| baud_rate := 115200; data_bits := 8; stop_bits := 0; parity := 0; bit_order := 0; invert := 0;
     bufsz := RT_SERIAL_RB_BUFSZ |}.

Record rt_serial_rx_fifo := {
  rx_addr : Z;                                  (** where it was allocated *)
  buffer : list Z;
  put_index : Z; get_index : Z;                 (** uint16 *)
  is_full : bool
}.

Record rt_serial_tx_fifo := { tx_addr : Z; tx_completion : rt_completion }.

(** The third argument of a control call. *)
Inductive serial_arg := NoArg | Configuration (c : serial_configure) | Word (z : Z).

(** [struct rt_uart_ops] on the state of a UART.  No result: the operation fails an assertion or does not end. *)
Class Uart (U : Type) := {
  uart_configure : option (serial_configure -> U -> option (Z * U));
  uart_control : Z -> serial_arg -> U -> option (Z * U);
  uart_putc : Z -> U -> option (Z * U);
  uart_getc : U -> Z * U
}.

(** [struct rt_serial_device] but for its parent, which is the device, with its
    UART and the static variable of _serial_check_buffer_size. *)
Record rt_serial_device (U : Type) := {
  config : serial_configure;
  serial_rx : option rt_serial_rx_fifo;
  serial_tx : option rt_serial_tx_fifo;
  already_output : bool;
  hw : U
}.
Arguments config {U}. Arguments serial_rx {U}. Arguments serial_tx {U}. Arguments already_output {U}. Arguments hw {U}.

Definition stream_mode (d : rt_device) : bool := has_flag (open_flag d) RT_DEVICE_FLAG_STREAM.

(** ** The receive FIFO *)

(** A character read from the FIFO: none, or the oldest. *)
Definition int_rx_step (size : Z) (f : rt_serial_rx_fifo) : option (option Z * rt_serial_rx_fifo) :=
  if (get_index f =? put_index f) && negb (is_full f) then Some (None, f)
  else
    ch ← buffer f !! Z.to_nat (get_index f);
    let get := u16 (get_index f + 1) in
    Some (Some (Z.land ch 0xff),
          {| f with get_index := if size <=? get then 0 else get; is_full := false |}).

Fixpoint int_rx_loop (n : nat) (size : Z) (f : rt_serial_rx_fifo) : option (list Z * rt_serial_rx_fifo) :=
  match n with
  | O => Some ([], f)
  | S n =>
      '(c, f) ← int_rx_step size f;
      match c with
      | None => Some ([], f)
      | Some c => '(l, f) ← int_rx_loop n size f; Some (c :: l, f)
      end
  end.

(** A character stored by the interrupt handler, and whether the buffer was too
    small. *)
Definition rx_store (size ch : Z) (f : rt_serial_rx_fifo) : option (bool * rt_serial_rx_fifo) :=
  _ ← buffer f !! Z.to_nat (put_index f);
  let put := u16 (put_index f + 1) in
  let put := if size <=? put then 0 else put in
  let f := {| f with buffer := updZ (buffer f) (put_index f) (u8 ch); put_index := put |} in
  if put_index f =? get_index f then
    let get := u16 (get_index f + 1) in
    Some (true, {| f with get_index := if size <=? get then 0 else get; is_full := true |})
  else Some (false, f).

Definition rx_length (size : Z) (f : rt_serial_rx_fifo) : Z :=
  if get_index f <=? put_index f then put_index f - get_index f
  else size - (get_index f - put_index f).

Section Serial.
Context {U : Type} `{!Uart U}.
Abbreviation serial := (rt_serial_device U).

(** ** Polled transfers *)
Fixpoint poll_rx_loop (n : nat) (stream : bool) (u : U) : list Z * U :=
match n with
| O => ([], u)
| S n =>
    let '(ch, u) := uart_getc u in
    if ch =? -1 then ([], u)
    else if stream && (ch =? 10) then ([u8 ch], u)
    else let '(l, u) := poll_rx_loop n stream u in (u8 ch :: l, u)
end.

Definition _serial_poll_rx (d : rt_device) (length : Z) (s : serial) : list Z * serial :=
let '(l, u) := poll_rx_loop (Z.to_nat length) (stream_mode d) (hw s) in (l, {| s with hw := u |}).

Fixpoint poll_tx_loop (stream : bool) (data : list Z) (u : U) : option U :=
match data with
| [] => Some u
| c :: data =>
    u ← (if (c =? 10) && stream then '(_, u) ← uart_putc 13 u; Some u else Some u);
    '(_, u) ← uart_putc c u;
    poll_tx_loop stream data u
end.

Definition _serial_poll_tx (d : rt_device) (data : list Z) (s : serial) : option (Z * serial) :=
u ← poll_tx_loop (stream_mode d) data (hw s); Some (lenZ data, {| s with hw := u |}).

(** ** Interrupt transfers *)
Definition _serial_int_rx (length : Z) (s : serial) : option (list Z * serial) :=
f ← serial_rx s;
'(l, f) ← int_rx_loop (Z.to_nat length) (bufsz (config s)) f;
Some (l, {| s with serial_rx := Some f |}).

(** One byte given to the UART: whether it was taken.  The line feed's carriage
  return goes first. *)
Definition int_tx_byte (stream : bool) (c : Z) (u : U) : option (bool * U) :=
if (c =? 10) && stream then
  '(r, u) ← uart_putc 13 u;
  if r =? -1 then Some (false, u)
  else '(r, u) ← uart_putc c u; Some (negb (r =? -1), u)
else '(r, u) ← uart_putc c u; Some (negb (r =? -1), u).

(** The loop of _serial_int_tx on [data], of [size] bytes in all: until the UART
  refuses a byte and the thread has to wait for the completion. *)
Fixpoint int_tx_loop (fuel : nat) (stream : bool) (size : Z) (data : list Z) (s : serial) (k : kernel)
: option (transfer * serial * kernel) :=
match fuel with
| O => None
| S fuel =>
    match data with
    | [] => Some (Moved size, s, k)
    | c :: rest =>
        '(taken, u) ← int_tx_byte stream c (hw s);
        let s := {| s with hw := u |} in
        if (taken : bool) then int_tx_loop fuel stream size rest s k
        else
          tx ← serial_tx s;
          '(r, comp, k) ← rt_completion_wait (tx_addr tx) (tx_completion tx) (-1) k;
          let s := {| s with serial_tx := Some {| tx with tx_completion := comp |} |} in
          match r with
          | Returned _ => int_tx_loop fuel stream size data s k
          | Waiting => Some (Stopped data, s, k)
          end
    end
end.

(** Every byte can be refused twice: once with the completion already there. *)
Definition int_tx_fuel (data : list Z) : nat := S (2 * length data).

Definition _serial_int_tx (d : rt_device) (data : list Z) (s : serial) (k : kernel)
: option (transfer * serial * kernel) :=
_ ← serial_tx s; int_tx_loop (int_tx_fuel data) (stream_mode d) (lenZ data) data s k.

(** The thread [t] that waited with [data] left goes on. *)
Definition _serial_int_tx_again (t : Z) (d : rt_device) (size : Z) (data : list Z) (s : serial) (k : kernel)
: option (transfer * serial * kernel) :=
tx ← serial_tx s;
'(_, comp) ← rt_completion_wait_end t k;
let s := {| s with serial_tx := Some {| tx with tx_completion := comp |} |} in
int_tx_loop (int_tx_fuel data) (stream_mode d) size data s k.

(** The message is not modelled. *)
Definition _serial_check_buffer_size (s : serial) : serial :=
if already_output s then s else {| s with already_output := true |}.

(** ** The device's operations *)
Definition rt_serial_init (d : rt_device) (s : serial) (k : kernel) : option (Z * rt_device * serial * kernel) :=
let s := {| s with serial_rx := None; serial_tx := None |} in
match uart_configure with
| None => Some (RT_EOK, d, s, k)
| Some configure => '(result, u) ← configure (config s) (hw s); Some (result, d, {| s with hw := u |}, k)
end.

Definition uart_do (cmd : Z) (arg : serial_arg) (s : serial) : option serial :=
'(_, u) ← uart_control cmd arg (hw s); Some {| s with hw := u |}.

(** 12 is the size of either FIFO structure. *)
Definition open_rx (oflag : Z) (d : rt_device) (s : serial) (k : kernel) : option (rt_device * serial * kernel) :=
match serial_rx s with
| None =>
    if has_flag oflag RT_DEVICE_FLAG_INT_RX then
      '(p, h) ← rt_malloc (u32 (12 + bufsz (config s))) (kheap k);
      p ← p;
      let f := {| rx_addr := p; buffer := replicate (Z.to_nat (bufsz (config s))) 0;
                  put_index := 0; get_index := 0; is_full := false |} in
      s ← uart_do RT_DEVICE_CTRL_SET_INT (Word RT_DEVICE_FLAG_INT_RX) {| s with serial_rx := Some f |};
      Some (set_open_flag (Z.lor (open_flag d) RT_DEVICE_FLAG_INT_RX) d, s, {| k with kheap := h |})
    else Some (d, s, k)
| Some _ =>
    Some (if has_flag oflag RT_DEVICE_FLAG_INT_RX
          then set_open_flag (Z.lor (open_flag d) RT_DEVICE_FLAG_INT_RX) d else d, s, k)
end.

Definition open_tx (oflag : Z) (d : rt_device) (s : serial) (k : kernel) : option (rt_device * serial * kernel) :=
match serial_tx s with
| None =>
    if has_flag oflag RT_DEVICE_FLAG_INT_TX then
      '(p, h) ← rt_malloc 12 (kheap k);
      p ← p;
      let '(c, k) := rt_completion_init p {| k with kheap := h |} in
      s ← uart_do RT_DEVICE_CTRL_SET_INT (Word RT_DEVICE_FLAG_INT_TX)
            {| s with serial_tx := Some {| tx_addr := p; tx_completion := c |} |};
      Some (set_open_flag (Z.lor (open_flag d) RT_DEVICE_FLAG_INT_TX) d, s, k)
    else Some (d, s, k)
| Some _ =>
    Some (if has_flag oflag RT_DEVICE_FLAG_INT_TX
          then set_open_flag (Z.lor (open_flag d) RT_DEVICE_FLAG_INT_TX) d else d, s, k)
end.

(** A transfer mode asked for that the device does not have. *)
Definition lacks (oflag fl mode : Z) : bool := has_flag oflag mode && negb (has_flag fl mode).

Definition rt_serial_open (oflag : Z) (d : rt_device) (s : serial) (k : kernel)
: option (Z * rt_device * serial * kernel) :=
if lacks oflag (dev_flag d) RT_DEVICE_FLAG_DMA_RX then Some (- RT_EIO, d, s, k)
else if lacks oflag (dev_flag d) RT_DEVICE_FLAG_DMA_TX then Some (- RT_EIO, d, s, k)
else if lacks oflag (dev_flag d) RT_DEVICE_FLAG_INT_RX then Some (- RT_EIO, d, s, k)
else if lacks oflag (dev_flag d) RT_DEVICE_FLAG_INT_TX then Some (- RT_EIO, d, s, k)
else
  let stream_flag := if has_flag oflag RT_DEVICE_FLAG_STREAM || has_flag (open_flag d) RT_DEVICE_FLAG_STREAM
                     then RT_DEVICE_FLAG_STREAM else 0 in
  let d := set_open_flag (Z.land oflag 0xff) d in
  '(d, s, k) ← open_rx oflag d s k;
  '(d, s, k) ← open_tx oflag d s k;
  Some (RT_EOK, set_open_flag (Z.lor (open_flag d) stream_flag) d, s, k).

Definition close_rx (d : rt_device) (s : serial) (k : kernel) : option (rt_device * serial * kernel) :=
if has_flag (open_flag d) RT_DEVICE_FLAG_INT_RX then
  f ← serial_rx s;
  h ← rt_free (Some (rx_addr f)) (kheap k);
  s ← uart_do RT_DEVICE_CTRL_CLR_INT (Word RT_DEVICE_FLAG_INT_RX) {| s with serial_rx := None |};
  Some (set_open_flag (clear (open_flag d) RT_DEVICE_FLAG_INT_RX) d, s, {| k with kheap := h |})
else Some (d, s, k).

Definition close_tx (d : rt_device) (s : serial) (k : kernel) : option (rt_device * serial * kernel) :=
if has_flag (open_flag d) RT_DEVICE_FLAG_INT_TX then
  t ← serial_tx s;
  h ← rt_free (Some (tx_addr t)) (kheap k);
  s ← uart_do RT_DEVICE_CTRL_CLR_INT (Word RT_DEVICE_FLAG_INT_TX) {| s with serial_tx := None |};
  Some (set_open_flag (clear (open_flag d) RT_DEVICE_FLAG_INT_TX) d, s, {| k with kheap := h |})
else Some (d, s, k).

Definition rt_serial_close (d : rt_device) (s : serial) (k : kernel) : option (Z * rt_device * serial * kernel) :=
if 1 <? ref_count d then Some (RT_EOK, d, s, k)
else
  '(d, s, k) ← close_rx d s k;
  '(d, s, k) ← close_tx d s k;
  Some (RT_EOK, d, s, k).

Definition rt_serial_read (pos size : Z) (d : rt_device) (s : serial) (k : kernel)
: option (list Z * rt_device * serial * kernel) :=
if size =? 0 then Some ([], d, s, k)
else if has_flag (open_flag d) RT_DEVICE_FLAG_INT_RX then
  '(l, s) ← _serial_int_rx size s; Some (l, d, s, k)
else let '(l, s) := _serial_poll_rx d size s in Some (l, d, s, k).

Definition rt_serial_write (pos : Z) (data : list Z) (d : rt_device) (s : serial) (k : kernel)
: option (transfer * rt_device * serial * kernel) :=
if lenZ data =? 0 then Some (Moved 0, d, s, k)
else if has_flag (open_flag d) RT_DEVICE_FLAG_INT_TX then
  '(r, s, k) ← _serial_int_tx d data s k; Some (r, d, s, k)
else '(n, s) ← _serial_poll_tx d data s; Some (Moved n, d, s, k).

Definition rt_serial_control (cmd : Z) (args : serial_arg) (d : rt_device) (s : serial) (k : kernel)
: option (Z * rt_device * serial * kernel) :=
if cmd =? RT_DEVICE_CTRL_SUSPEND then
  Some (RT_EOK, set_dev_flag (Z.lor (dev_flag d) RT_DEVICE_FLAG_SUSPENDED) d, s, k)
else if cmd =? RT_DEVICE_CTRL_RESUME then
  Some (RT_EOK, set_dev_flag (clear (dev_flag d) RT_DEVICE_FLAG_SUSPENDED) d, s, k)
else if cmd =? RT_DEVICE_CTRL_CONFIG then
  match args with
  | Configuration c =>
      if negb (bufsz c =? bufsz (config s)) && negb (ref_count d =? 0) then Some (RT_EBUSY, d, s, k)
      else
        let s := {| s with config := c |} in
        if negb (ref_count d =? 0) then
          configure ← uart_configure; '(_, u) ← configure c (hw s); Some (RT_EOK, d, {| s with hw := u |}, k)
        else Some (RT_EOK, d, s, k)
  | NoArg => Some (RT_EOK, d, s, k)
  | Word _ => None
  end
else '(ret, u) ← uart_control cmd args (hw s); Some (ret, d, {| s with hw := u |}, k).

Definition serial_ops : device_ops serial serial_arg :=
{| op_init := Some rt_serial_init; op_open := Some rt_serial_open; op_close := Some rt_serial_close;
   op_read := Some rt_serial_read; op_write := Some rt_serial_write; op_control := Some rt_serial_control |}.

(** RT_Device_Class_Char is 0. *)
Definition rt_hw_serial_register (o : Z) (nm : list Z) (fl data : Z) (ds : devices) (k : kernel)
: option (Z * devices * kernel) :=
d ← ds !! o;
let d := {| d with dev_type := 0; rx_indicate := None; tx_complete := None; user_data := data |} in
rt_device_register o nm fl (<[o := d]> ds) k.

(** ** The interrupt handler *)
Fixpoint rx_ind_loop (fuel : nat) (s : serial) : option serial :=
match fuel with
| O => None
| S fuel =>
    let '(ch, u) := uart_getc (hw s) in
    let s := {| s with hw := u |} in
    if ch =? -1 then Some s
    else
      f ← serial_rx s;
      '(over, f) ← rx_store (bufsz (config s)) ch f;
      let s := {| s with serial_rx := Some f |} in
      rx_ind_loop fuel (if (over : bool) then _serial_check_buffer_size s else s)
end.

(** The call of rx_indicate it ends with: the function and the length. *)
Definition rt_hw_serial_isr (fuel : nat) (event : Z) (d : rt_device) (s : serial) (k : kernel)
: option (option (Z * Z) * serial * kernel) :=
let event := Z.land event 0xff in
if event =? RT_SERIAL_EVENT_RX_IND then
  _ ← serial_rx s;
  s ← rx_ind_loop fuel s;
  f ← serial_rx s;
  let n := rx_length (bufsz (config s)) f in
  Some (match rx_indicate d with
        | Some g => if n =? 0 then None else Some (g, n)
        | None => None
        end, s, k)
else if event =? RT_SERIAL_EVENT_TX_DONE then
  tx ← serial_tx s;
  '(c, k) ← rt_completion_done (tx_addr tx) (tx_completion tx) k;
  Some (None, {| s with serial_tx := Some {| tx with tx_completion := c |} |}, k)
else Some (None, s, k).
End Serial.

(** ** The driver keeps the laws of device.c *)

(** What this file relies on of a UART: the bytes on its line are read one by
    one; when it is ready, which it is after it was configured, of the bytes that arrive after it was
    emptied it keeps the first [depth], the others are lost, and
    a byte that is written is taken or refused; configuring does not return -RT_ENOSYS. *)
Class UartLaws (U : Type) `{!Uart U} := {
  line : U -> list Z;
  sent : U -> list Z;
  arrive : list Z -> U -> U;
  depth : nat;
  ready : U -> Prop;
  configurable : serial_configure -> U -> Prop;
  line_bytes u : Forall (fits 8) (line u);
  getc_line u : match line u with
                | [] => fst (uart_getc u) = -1 /\ line (snd (uart_getc u)) = []
                | c :: l => fst (uart_getc u) = c /\ line (snd (uart_getc u)) = l
                end;
  getc_ready u : ready u -> ready (snd (uart_getc u));
  putc_ok c u : ready u -> exists r u', uart_putc c u = Some (r, u') /\ ready u' /\ line u' = line u /\
    sent u' = sent u ++ (if r =? -1 then [] else [u8 c]);
  control_ready cmd arg u r u' : uart_control cmd arg u = Some (r, u') -> ready u -> ready u' /\ line u' = line u;
  configure_result f c u r u' : uart_configure = Some f -> f c u = Some (r, u') -> r <> - RT_ENOSYS;
  configure_ready f c u u' : uart_configure = Some f -> f c u = Some (RT_EOK, u') -> configurable c u ->
    ready u' /\ line u' = line u;
  arrive_ready cs u : ready u -> ready (arrive cs u);
  depth_pos : (0 < depth)%nat;
  arrive_line cs u : ready u -> Forall (fits 8) cs -> line u = [] -> line (arrive cs u) = take depth cs
}.

Section Laws.
Context {U : Type} `{!Uart U} `{!UartLaws U}.
Abbreviation serial := (rt_serial_device U).

(** Changing the transfer mode leaves what device.c keeps of a device. *)
Lemma open_flag_keeps d f : keeps_device d (set_open_flag f d).
Proof. by split. Qed.

Lemma open_rx_keeps oflag d (s : serial) k d' s' k' : open_rx oflag d s k = Some (d', s', k') -> keeps_device d d'.
Proof.
  unfold open_rx. destruct (serial_rx s); [intros [= <- <- <-]; by destruct (has_flag _ _)|].
  destruct (has_flag _ _); [|by intros [= <- <- <-]]. destruct (rt_malloc _ _) as [[[p|] h]|]; [|done..].
  rewrite !some_bind. destruct (uart_do _ _ _); [|done]. cbn. by intros [= <- <- <-].
Qed.

Lemma open_tx_keeps oflag d (s : serial) k d' s' k' : open_tx oflag d s k = Some (d', s', k') -> keeps_device d d'.
Proof.
  unfold open_tx. destruct (serial_tx s); [intros [= <- <- <-]; by destruct (has_flag _ _)|].
  destruct (has_flag _ _); [|by intros [= <- <- <-]]. destruct (rt_malloc _ _) as [[[p|] h]|]; [|done..].
  rewrite !some_bind. destruct (rt_completion_init p _). destruct (uart_do _ _ _); [|done]. cbn. by intros [= <- <- <-].
Qed.

Lemma serial_open_keeps oflag d (s : serial) k e d' s' k' : rt_serial_open oflag d s k = Some (e, d', s', k') ->
  keeps_device d d' /\ (succeeded e = false -> opened d' = opened d).
Proof.
  unfold rt_serial_open. repeat (destruct (lacks _ _ _); [by intros [= <- <- <- <-]|]). cbv zeta.
  set (d0 := set_open_flag _ d). destruct (open_rx oflag d0 s k) as [[[d1 s1] k1]|] eqn:E1; [|done].
  apply open_rx_keeps in E1. rewrite some_bind.
  destruct (open_tx oflag d1 s1 k1) as [[[d2 s2] k2]|] eqn:E2; [|done]. apply open_tx_keeps in E2. rewrite some_bind.
  intros [= <- <- <- <-]. split; [|done]. transitivity d0; [done|]. transitivity d1; [done|]. transitivity d2; [done|]. done.
Qed.

Lemma close_rx_keeps d (s : serial) k d' s' k' : close_rx d s k = Some (d', s', k') -> keeps_device d d'.
Proof.
  unfold close_rx. destruct (has_flag _ _); [|by intros [= <- <- <-]]. destruct (serial_rx s) as [f|]; [|done]. rewrite some_bind.
  destruct (rt_free _ _); [|done]. rewrite some_bind. destruct (uart_do _ _ _); [|done]. by intros [= <- <- <-].
Qed.

Lemma close_tx_keeps d (s : serial) k d' s' k' : close_tx d s k = Some (d', s', k') -> keeps_device d d'.
Proof.
  unfold close_tx. destruct (has_flag _ _); [|by intros [= <- <- <-]]. destruct (serial_tx s) as [f|]; [|done]. rewrite some_bind.
  destruct (rt_free _ _); [|done]. rewrite some_bind. destruct (uart_do _ _ _); [|done]. by intros [= <- <- <-].
Qed.

Lemma serial_close_keeps d (s : serial) k e d' s' k' : rt_serial_close d s k = Some (e, d', s', k') -> keeps_device d d'.
Proof.
  unfold rt_serial_close. destruct (1 <? ref_count d); [by intros [= <- <- <- <-]|].
  destruct (close_rx d s k) as [[[d1 s1] k1]|] eqn:E1; [|done]. apply close_rx_keeps in E1. rewrite some_bind.
  destruct (close_tx d1 s1 k1) as [[[d2 s2] k2]|] eqn:E2; [|done]. apply close_tx_keeps in E2. rewrite some_bind.
  intros [= <- <- <- <-]. by transitivity d1.
Qed.

Lemma serial_read_keeps pos size d (s : serial) k l d' s' k' : rt_serial_read pos size d s k = Some (l, d', s', k') -> d' = d.
Proof.
  unfold rt_serial_read. destruct (size =? 0); [by intros [= <- <- <- <-]|].
  destruct (has_flag _ _); [|destruct (_serial_poll_rx d size s); by intros [= <- <- <- <-]].
  destruct (_serial_int_rx size s) as [[l1 s1]|]; [|done]. cbn. by intros [= <- <- <- <-].
Qed.

Lemma serial_write_keeps pos data d (s : serial) k r d' s' k' : rt_serial_write pos data d s k = Some (r, d', s', k') -> d' = d.
Proof.
  unfold rt_serial_write. destruct (lenZ data =? 0); [by intros [= <- <- <- <-]|].
  destruct (has_flag _ _); [|destruct (_serial_poll_tx d data s) as [[]|]; [by intros [= <- <- <- <-]|done]].
  destruct (_serial_int_tx d data s k) as [[[r1 s1] k1]|]; [|done]. cbn. by intros [= <- <- <- <-].
Qed.

Lemma serial_control_keeps cmd arg d (s : serial) k e d' s' k' : rt_serial_control cmd arg d s k = Some (e, d', s', k') ->
  keeps_device d d' /\ opened d' = opened d.
Proof.
  unfold rt_serial_control. destruct (cmd =? _).
  { intros [= <- <- <- <-]. split; [|done]. split; try done. unfold standalone. simpl. by apply has_flag_lor_ne. }
  destruct (cmd =? _).
  { intros [= <- <- <- <-]. split; [|done]. split; try done. unfold standalone. simpl. by apply has_flag_clear_ne. }
  destruct (cmd =? _).
  - destruct arg as [|c|z]; [by intros [= <- <- <- <-]| |done]. destruct (_ && _); [by intros [= <- <- <- <-]|]. cbv zeta.
    destruct (negb _); [|by intros [= <- <- <- <-]]. destruct uart_configure as [g|]; [|done]. rewrite some_bind. cbn [hw].
    destruct (g c (hw s)) as [[r u]|]; [|done]. cbn. by intros [= <- <- <- <-].
  - destruct (uart_control cmd arg (hw s)) as [[]|]; [|done]. by intros [= <- <- <- <-].
Qed.

#[global] Instance serial_laws : DriverLaws (serial_ops (U := U)).
Proof.
  split; intros f.
  - intros d s k e d' s' k' [= <-]. unfold rt_serial_init. destruct uart_configure as [g|] eqn:Eg; [|by intros [= <- <- <- <-]].
    cbv zeta. cbn [config hw]. destruct (g (config s) (hw s)) as [[r u]|] eqn:Er; [|done].
    pose proof (configure_result g (config s) (hw s) r u Eg Er) as Hr. by intros [= <- <- <- <-].
  - intros oflag d s k e d' s' k' [= <-]. apply serial_open_keeps.
  - intros d s k e d' s' k' [= <-]. apply serial_close_keeps.
  - intros pos size d s k l d' s' k' [= <-] E. apply serial_read_keeps in E as ->. done.
  - intros pos data d s k l d' s' k' [= <-] E. apply serial_write_keeps in E as ->. done.
  - intros cmd arg d s k e d' s' k' [= <-]. apply serial_control_keeps.
Qed.
End Laws.

(** ** The receive FIFO is a bounded queue

    It holds at most one character less than its size; one more makes it forget
    the oldest.  The flag is_full only remembers that since the last read. *)
Record fifo_ok (size : Z) (f : rt_serial_rx_fifo) : Prop := {
  fo_size : 2 <= size < 2 ^ 16;
  fo_buffer : lenZ (buffer f) = size;
  fo_bytes : Forall (fits 8) (buffer f);
  fo_put : 0 <= put_index f < size;
  fo_get : 0 <= get_index f < size;
  fo_full : is_full f = true -> put_index f <> get_index f
}.

Definition fifo_len (size : Z) (f : rt_serial_rx_fifo) : Z := (put_index f - get_index f) mod size.
Definition received (size : Z) (f : rt_serial_rx_fifo) : list Z := ring 0 (buffer f) (get_index f) (fifo_len size f).

(** The queue that keeps the last [n] of what it is given. *)
Definition keep (n : Z) (q : list Z) : list Z := lastn (Z.to_nat n) q.

Lemma keep_short n q : lenZ q <= n -> keep n q = q.
Proof. unfold lenZ, keep. intros H. apply lastn_all. lia. Qed.

Lemma keep_over n q : 0 <= n -> lenZ q = n + 1 -> keep n q = drop 1 q.
Proof. unfold lenZ, keep, lastn. intros Hn H. f_equal. lia. Qed.

Lemma keep_keep n q q' : keep n (keep n q ++ q') = keep n (q ++ q').
Proof.
  unfold keep, lastn. rewrite !length_app, length_drop. destruct (Nat.le_gt_cases (length q) (Z.to_nat n)) as [H|H].
  - replace (length q - Z.to_nat n)%nat with 0%nat by lia. by rewrite Nat.sub_0_r.
  - replace (length q - (length q - Z.to_nat n) + length q' - Z.to_nat n)%nat with (length q')%nat by lia.
    rewrite <- (drop_app_le q q' (length q - Z.to_nat n)) by lia.
    rewrite drop_drop. f_equal. lia.
Qed.

Section Fifo.
Context (size : Z).

Lemma fifo_len_range f : fifo_ok size f -> 0 <= fifo_len size f < size.
Proof. intros [Hs _ _ _ _ _]. apply Z.mod_pos_bound. lia. Qed.

Lemma put_is_end f : fifo_ok size f -> put_index f = (get_index f + fifo_len size f) mod size.
Proof.
  intros [Hs _ _ Hp _ _]. unfold fifo_len. rewrite Zplus_mod_idemp_r. replace (get_index f + (put_index f - get_index f)) with (put_index f) by lia.
  by rewrite Z.mod_small.
Qed.

Lemma length_received f : fifo_ok size f -> lenZ (received size f) = fifo_len size f.
Proof. intros Hf. apply ring_length. apply (fifo_len_range f Hf). Qed.

Lemma rx_length_received f : fifo_ok size f -> rx_length size f = lenZ (received size f).
Proof.
  intros Hf. rewrite length_received by done. pose proof (fifo_len_range f Hf) as Hl. pose proof (fo_get _ _ Hf) as Hg.
  unfold rx_length. rewrite (put_is_end f Hf). symmetry. by apply distance_mod.
Qed.

(** The index behind [i], computed on 16 bits. *)
Lemma next_index i : 2 <= size < 2 ^ 16 -> 0 <= i < size ->
  (if size <=? u16 (i + 1) then 0 else u16 (i + 1)) = (i + 1) mod size.
Proof. intros Hs Hi. rewrite wrap_id by (unfold fits; lia). by apply next_mod. Qed.

Lemma fifo_len_unique f n : fifo_ok size f -> 0 <= n < size -> put_index f = (get_index f + n) mod size -> fifo_len size f = n.
Proof.
  intros Hf Hn Hp. unfold fifo_len. rewrite Hp, Zminus_mod_idemp_l.
  replace (get_index f + n - get_index f) with n by lia. by apply Z.mod_small.
Qed.

Lemma int_rx_step_ok f : fifo_ok size f ->
  match received size f with
  | [] => int_rx_step size f = Some (None, f)
  | c :: q => exists f', int_rx_step size f = Some (Some c, f') /\ fifo_ok size f' /\ received size f' = q
  end.
Proof.
  intros Hf. pose proof (fifo_len_range f Hf) as Hl. pose proof (put_is_end f Hf) as Hput. pose proof Hf as [Hs Hb Hby Hp Hg Hfull].
  unfold int_rx_step, received. destruct (Z.eq_dec (fifo_len size f) 0) as [Hz|Hz].
  - rewrite Hz in *. rewrite ring_nil. assert (get_index f = put_index f) as He by (rewrite Hput, Z.add_0_r, Z.mod_small by done; done).
    rewrite (proj2 (Z.eqb_eq _ _) He). destruct (is_full f); [|done]. destruct (Hfull eq_refl). done.
  - assert (get_index f <> put_index f) as Hne.
    { intros He. apply Hz. unfold fifo_len. by rewrite He, Z.sub_diag, Z.mod_0_l by lia. }
    rewrite (proj2 (Z.eqb_neq _ _) Hne). cbn [andb]. rewrite ring_pop, Hb, Z.mod_small by lia.
    rewrite (lookup_nthZ 0) by lia. rewrite some_bind. cbv zeta. rewrite next_index by done.
    assert (fits 8 (nthZ 0 (buffer f) (get_index f))) as H8.
    { apply (Forall_lookup_1 _ _ (Z.to_nat (get_index f)) _ Hby). apply lookup_nthZ. lia. }
    replace (Z.land _ 0xff) with (nthZ 0 (buffer f) (get_index f)).
    2:{ change 0xff with (Z.ones 8). rewrite Z.land_ones by lia. symmetry. by apply Z.mod_small. }
    set (f' := {| f with get_index := (get_index f + 1) mod size; is_full := false |}).
    assert (fifo_ok size f') as Hf' by (split; try done; apply Z.mod_pos_bound; lia).
    exists f'. split; [done|]. split; [done|].
    assert (fifo_len size f' = fifo_len size f - 1) as ->.
    { apply fifo_len_unique; [done|lia|]. simpl. rewrite Zplus_mod_idemp_l, Hput at 1. f_equal. lia. }
    simpl. rewrite <- Hb at 1. by rewrite ring_start_mod.
Qed.

Lemma rx_store_ok ch f : fifo_ok size f -> exists over f', rx_store size ch f = Some (over, f') /\
  fifo_ok size f' /\ received size f' = keep (size - 1) (received size f ++ [u8 ch]) /\
  rx_addr f' = rx_addr f.
Proof.
  intros Hf. pose proof (fifo_len_range f Hf) as Hl. pose proof (put_is_end f Hf) as Hput. pose proof Hf as [Hs Hb Hby Hp Hg Hfull].
  unfold rx_store. rewrite (lookup_nthZ 0) by lia. rewrite some_bind. cbv zeta. rewrite !next_index by done.
  set (f1 := {| f with buffer := updZ (buffer f) (put_index f) (u8 ch); put_index := (put_index f + 1) mod size |}).
  assert (put_index f1 = (get_index f + (fifo_len size f + 1)) mod size) as Hp1.
  { simpl. rewrite Hput, Zplus_mod_idemp_l. f_equal. lia. }
  assert (Forall (fits 8) (buffer f1)) as Hby1.
  { simpl. unfold updZ. apply Forall_insert; [done|]. apply wrap_fits. lia. }
  assert (ring 0 (buffer f1) (get_index f) (fifo_len size f + 1) = received size f ++ [u8 ch]) as Hr.
  { unfold received. rewrite <- ring_push by lia. simpl. do 2 f_equal. by rewrite Hput, Hb at 1. }
  pose proof (length_received f Hf) as Hlr. destruct (Z.eq_dec (fifo_len size f) (size - 1)) as [Hfu|Hnf].
  - assert (put_index f1 = get_index f) as He.
    { rewrite Hp1, Hfu. replace (get_index f + (size - 1 + 1)) with (get_index f + 1 * size) by lia.
      by rewrite Z_mod_plus_full, Z.mod_small. }
    rewrite (proj2 (Z.eqb_eq (put_index f1) (get_index f1)) He). change (get_index f1) with (get_index f).
    set (f2 := {| f1 with get_index := (get_index f + 1) mod size; is_full := true |}).
    assert (0 <= (get_index f + 1) mod size < size) as Hm by (apply Z.mod_pos_bound; lia).
    assert (fifo_ok size f2) as Hf2.
    { split; try done; [by rewrite <- Hb; apply lenZ_updZ|simpl; apply Z.mod_pos_bound; lia|].
      intros _. change (put_index f2) with (put_index f1). simpl (get_index f2). rewrite He.
      rewrite <- (Z.mod_small (get_index f) size) at 1 by done. intros Heq. symmetry in Heq.
      revert Heq. apply mod_distinct. lia. }
    exists true, f2. split; [done|]. split; [done|]. split; [|done]. rewrite keep_over by (lia || (rewrite lenZ_app, Hlr, Hfu; done)).
    rewrite <- Hr, Hfu. replace (size - 1 + 1) with size by lia. rewrite ring_pop by lia. simpl drop. rewrite drop_0.
    unfold received. assert (fifo_len size f2 = size - 1) as ->.
    { apply fifo_len_unique; [done|lia|]. change (put_index f2) with (put_index f1). simpl (get_index f2).
      rewrite Zplus_mod_idemp_l, Hp1, Hfu. f_equal. lia. }
    simpl (get_index f2). simpl (buffer f2). rewrite <- Hb at 1. rewrite <- (lenZ_updZ (buffer f) (put_index f) (u8 ch)).
    by rewrite ring_start_mod.
  - assert (put_index f1 <> get_index f) as He.
    { rewrite Hp1. rewrite <- (Z.mod_small (get_index f) size) at 2 by done. apply mod_distinct. lia. }
    rewrite (proj2 (Z.eqb_neq (put_index f1) (get_index f1)) He).
    assert (fifo_ok size f1) as Hf1.
    { split; try done; [by rewrite <- Hb; apply lenZ_updZ|simpl; apply Z.mod_pos_bound; lia]. }
    exists false, f1. split; [done|]. split; [done|]. split; [|done].
    rewrite keep_short by (rewrite lenZ_app, Hlr; unfold lenZ; simpl; lia). rewrite <- Hr. unfold received.
    f_equal. apply fifo_len_unique; [done|lia|done].
Qed.
End Fifo.

(** ** Reading and the interrupt handler *)
Lemma int_rx_loop_ok size n f : fifo_ok size f -> exists f', int_rx_loop n size f = Some (take n (received size f), f') /\
  fifo_ok size f' /\ received size f' = drop n (received size f).
Proof.
  revert f. induction n as [|n IH]; intros f Hf; [by exists f|]. cbn [int_rx_loop].
  pose proof (int_rx_step_ok size f Hf) as Hs. destruct (received size f) as [|c q] eqn:Eq.
  - rewrite Hs, some_bind. exists f. by rewrite Eq.
  - destruct Hs as (f1 & -> & Hf1 & Hq). rewrite some_bind. destruct (IH f1 Hf1) as (f2 & -> & Hf2 & Hq2).
    rewrite some_bind. exists f2. simpl. rewrite <- Hq. done.
Qed.

Section Input.
Context {U : Type} `{!Uart U} `{!UartLaws U}.
Abbreviation serial := (rt_serial_device U).
Implicit Types s : serial.

(** The driver receives through its FIFO, which holds [queue s]. *)
Definition serial_ok (s : serial) : Prop := exists f, serial_rx s = Some f /\ fifo_ok (bufsz (config s)) f.

Definition queue (s : serial) : list Z :=
  match serial_rx s with Some f => received (bufsz (config s)) f | None => [] end.

Definition capacity (s : serial) : Z := bufsz (config s) - 1.

Lemma serial_int_rx_ok n s : serial_ok s -> 0 <= n -> exists s', _serial_int_rx n s = Some (take (Z.to_nat n) (queue s), s') /\
  serial_ok s' /\ queue s' = drop (Z.to_nat n) (queue s) /\ hw s' = hw s /\ config s' = config s.
Proof.
  intros (f & Ef & Hf) Hn. unfold _serial_int_rx, queue. rewrite Ef, some_bind.
  destruct (int_rx_loop_ok _ (Z.to_nat n) f Hf) as (f' & -> & Hf' & Hq). rewrite some_bind. eexists. split; [done|].
  split; [by exists f'|done].
Qed.

Lemma rx_ind_loop_ok fuel s : serial_ok s -> (length (line (hw s)) < fuel)%nat -> exists s', rx_ind_loop fuel s = Some s' /\
  serial_ok s' /\ queue s' = keep (capacity s) (queue s ++ line (hw s)) /\ line (hw s') = [] /\ config s' = config s /\
  (ready (hw s) -> ready (hw s')).
Proof.
  revert s. induction fuel as [|fuel IH]; intros s Hs Hfu; [lia|]. cbn [rx_ind_loop].
  pose proof (getc_line (hw s)) as Hg. pose proof (line_bytes (hw s)) as Hby. pose proof (getc_ready (hw s)) as Hrd.
  destruct Hs as (f & Ef & Hf). destruct (line (hw s)) as [|c l] eqn:El.
  - destruct (uart_getc (hw s)) as [ch u]. simpl in Hg. destruct Hg as [-> Hl]. cbn [Z.eqb].
    eexists. split; [done|]. split; [by exists f|]. split; [|done]. unfold queue, capacity. simpl. rewrite Ef, app_nil_r.
    symmetry. apply keep_short. rewrite length_received by done. pose proof (fifo_len_range _ f Hf). lia.
  - destruct (uart_getc (hw s)) as [ch u]. simpl in Hg. destruct Hg as [-> Hl].
    apply Forall_cons in Hby as [Hc _]. rewrite (proj2 (Z.eqb_neq c (-1))) by (unfold fits in Hc; lia).
    cbn [serial_rx hw config]. rewrite Ef, some_bind.
    destruct (rx_store_ok (bufsz (config s)) c f Hf) as (over & f1 & -> & Hf1 & Hq1 & _). rewrite some_bind. cbv zeta.
    set (s1 := if over : bool then _ else _).
    assert (serial_rx s1 = Some f1 /\ config s1 = config s /\ hw s1 = u) as (E1 & E2 & E3).
    { unfold s1. destruct over; [|done]. unfold _serial_check_buffer_size. by destruct (already_output _). }
    destruct (IH s1) as (s2 & -> & Hs2 & Hq2 & Hl2 & Hc2 & Hr2).
    { exists f1. by rewrite E1, E2. }
    { rewrite E3, Hl. simpl in Hfu. lia. }
    exists s2. split; [done|]. split; [done|]. rewrite E3 in Hr2. split; [|split; [done|split; [congruence|auto]]].
    rewrite Hq2. unfold queue, capacity. rewrite E1, E2, E3, Ef, Hl, Hq1, (wrap_id 8 c) by done.
    rewrite keep_keep. f_equal. by rewrite <- app_assoc.
Qed.

(** ** The driver as a queue

    Bytes come over the line and the UART interrupts, or a thread reads. *)
Inductive serial_event := Arrive (cs : list Z) | Fetch (n : Z).
Inductive serial_out := Indicated (call : option (Z * Z)) | Fetched (l : list Z).

Definition serial_do (d : rt_device) (e : serial_event) (s : serial) (k : kernel) : option (serial_out * serial * kernel) :=
  match e with
  | Arrive cs =>
      let s := {| s with hw := arrive cs (hw s) |} in
      '(call, s, k) ← rt_hw_serial_isr (S (length (line (hw s)))) RT_SERIAL_EVENT_RX_IND d s k;
      Some (Indicated call, s, k)
  | Fetch n => '(l, _, s, k) ← rt_device_read serial_ops 0 n d s k; Some (Fetched l, s, k)
  end.

Fixpoint serial_run (d : rt_device) (es : list serial_event) (s : serial) (k : kernel)
  : option (list serial_out * serial * kernel) :=
  match es with
  | [] => Some ([], s, k)
  | e :: es =>
      '(o, s, k) ← serial_do d e s k;
      '(os, s, k) ← serial_run d es s k;
      Some (o :: os, s, k)
  end.

(** The call the interrupt handler makes when it leaves [q] in the FIFO. *)
Definition indication (g : option Z) (q : list Z) : option (Z * Z) :=
  match g, q with Some g, _ :: _ => Some (g, lenZ q) | _, _ => None end.

(** What a queue of [cap] characters does behind a UART that keeps [n], with [g] to be called. *)
Definition queue_do (g : option Z) (cap : Z) (n : nat) (e : serial_event) (q : list Z) : serial_out * list Z :=
  match e with
  | Arrive cs =>
      let q := keep cap (q ++ take n cs) in
      (Indicated (indication g q), q)
  | Fetch l => (Fetched (take (Z.to_nat l) q), drop (Z.to_nat l) q)
  end.

Fixpoint queue_run (g : option Z) (cap : Z) (n : nat) (es : list serial_event) (q : list Z) : list serial_out * list Z :=
  match es with
  | [] => ([], q)
  | e :: es => let '(o, q) := queue_do g cap n e q in let '(os, q) := queue_run g cap n es q in (o :: os, q)
  end.

Definition event_ok (e : serial_event) : Prop :=
  match e with Arrive cs => Forall (fits 8) cs | Fetch n => 0 <= n end.

(** The device is open for receiving in interrupt mode. *)
Record receiving (d : rt_device) (s : serial) : Prop := {
  rc_class : is_device d = true;
  rc_open : 0 < ref_count d;
  rc_mode : has_flag (open_flag d) RT_DEVICE_FLAG_INT_RX = true;
  rc_serial : serial_ok s;
  rc_line : line (hw s) = [];
  rc_ready : ready (hw s)
}.

Lemma isr_rx_ok fuel d s k : serial_ok s -> (length (line (hw s)) < fuel)%nat -> exists s',
  rt_hw_serial_isr fuel RT_SERIAL_EVENT_RX_IND d s k = Some (indication (rx_indicate d) (queue s'), s', k) /\
  serial_ok s' /\ queue s' = keep (capacity s) (queue s ++ line (hw s)) /\ line (hw s') = [] /\ config s' = config s /\
  (ready (hw s) -> ready (hw s')).
Proof.
  intros Hs Hfu. destruct (rx_ind_loop_ok fuel s Hs Hfu) as (s1 & E & Hs1 & Hq1 & Hl1 & Hc1 & Hr1).
  unfold rt_hw_serial_isr. change (Z.land RT_SERIAL_EVENT_RX_IND 0xff =? RT_SERIAL_EVENT_RX_IND) with true. cbv zeta iota.
  destruct Hs as (f & Ef & _). rewrite Ef, some_bind, E, some_bind. pose proof Hs1 as (f1 & Ef1 & Hf1).
  rewrite Ef1, some_bind. exists s1. split; [|done].
  assert (rx_length (bufsz (config s1)) f1 = lenZ (queue s1)) as Hlen by (unfold queue; rewrite Ef1; by apply rx_length_received).
  rewrite Hlen. destruct (rx_indicate d) as [g|]; [|done]. by destruct (queue s1).
Qed.

Lemma serial_arrive_ok d cs s k : receiving d s -> Forall (fits 8) cs -> exists s',
  serial_do d (Arrive cs) s k = Some (fst (queue_do (rx_indicate d) (capacity s) (depth (U := U)) (Arrive cs) (queue s)), s', k) /\
  receiving d s' /\ queue s' = keep (capacity s) (queue s ++ take depth cs) /\ config s' = config s.
Proof.
  intros [H1 H2 H3 (f & Ef & Hf) H5 H6] Hcs. unfold serial_do. cbv zeta. set (s0 := {| s with hw := arrive cs (hw s) |}).
  assert (line (hw s0) = take depth cs) as Hl by (by apply arrive_line).
  destruct (isr_rx_ok (S (length (line (hw s0)))) d s0 k ltac:(by exists f) ltac:(lia)) as (s1 & -> & Hs1 & Hq1 & Hl1 & Hc1 & Hr1).
  rewrite some_bind. rewrite Hl in Hq1. exists s1. split; [by rewrite Hq1|]. split; [|done].
  split; try done. by apply Hr1, arrive_ready.
Qed.

(** Reading does not touch the UART. *)
Lemma device_read_fifo pos n d s k : is_device d = true -> 0 < ref_count d -> has_flag (open_flag d) RT_DEVICE_FLAG_INT_RX = true ->
  serial_ok s -> 0 <= n -> exists s', rt_device_read serial_ops pos n d s k = Some (take (Z.to_nat n) (queue s), d, s', k) /\
  serial_ok s' /\ queue s' = drop (Z.to_nat n) (queue s) /\ config s' = config s /\ hw s' = hw s.
Proof.
  intros H1 H2 H3 H4 Hn. unfold rt_device_read. rewrite H1. cbn [assert]. rewrite some_bind.
  rewrite (proj2 (Z.eqb_neq _ _)) by lia. cbn [op_read serial_ops]. unfold rt_serial_read.
  destruct (Z.eqb_spec n 0) as [->|_]; [by exists s|]. rewrite H3.
  destruct (serial_int_rx_ok n s H4 Hn) as (s' & -> & H4' & Hq & Hh & Hc). rewrite !some_bind. by exists s'.
Qed.

Lemma device_read_ok pos n d s k : receiving d s -> 0 <= n -> exists s',
  rt_device_read serial_ops pos n d s k = Some (take (Z.to_nat n) (queue s), d, s', k) /\
  receiving d s' /\ queue s' = drop (Z.to_nat n) (queue s) /\ config s' = config s /\ hw s' = hw s.
Proof.
  intros [H1 H2 H3 H4 H5 H6] Hn. destruct (device_read_fifo pos n d s k H1 H2 H3 H4 Hn) as (s' & -> & H4' & Hq & Hc & Hh).
  exists s'. split; [done|]. split; [|done]. split; try done; by rewrite Hh.
Qed.

Lemma serial_fetch_ok d n s k : receiving d s -> 0 <= n -> exists s',
  serial_do d (Fetch n) s k = Some (Fetched (take (Z.to_nat n) (queue s)), s', k) /\
  receiving d s' /\ queue s' = drop (Z.to_nat n) (queue s) /\ config s' = config s.
Proof.
  intros Hd Hn. destruct (device_read_ok 0 n d s k Hd Hn) as (s' & E & H1 & H2 & H3 & _). exists s'.
  unfold serial_do. by rewrite E, some_bind.
Qed.

Lemma serial_run_ok d es : Forall event_ok es -> forall s k, receiving d s -> exists s',
  serial_run d es s k = Some (fst (queue_run (rx_indicate d) (capacity s) (depth (U := U)) es (queue s)), s', k) /\
  receiving d s' /\ queue s' = snd (queue_run (rx_indicate d) (capacity s) (depth (U := U)) es (queue s)) /\ config s' = config s.
Proof.
  induction 1 as [|e es He _ IH]; intros s k Hs; [by exists s|]. cbn [serial_run queue_run].
  assert (exists s1, serial_do d e s k = Some (fst (queue_do (rx_indicate d) (capacity s) (depth (U := U)) e (queue s)), s1, k) /\
    receiving d s1 /\ queue s1 = snd (queue_do (rx_indicate d) (capacity s) (depth (U := U)) e (queue s)) /\ config s1 = config s)
    as (s1 & -> & Hs1 & Hq1 & Hc1).
  { destruct e as [cs|n]; [by apply serial_arrive_ok|by apply serial_fetch_ok]. }
  rewrite some_bind. destruct (queue_do _ _ _ e (queue s)) as [o q]. simpl in Hq1.
  destruct (IH s1 k Hs1) as (s2 & -> & Hs2 & Hq2 & Hc2). rewrite some_bind.
  assert (capacity s1 = capacity s) as Hcap by (unfold capacity; by rewrite Hc1). rewrite Hcap, Hq1 in *.
  destruct (queue_run _ _ _ es q) as [os q']. exists s2. split; [done|]. split; [done|]. split; [done|congruence].
Qed.
End Input.

(** ** Opening for input *)
Section Opening.
Context {U : Type} `{!Uart U} `{!UartLaws U}.
Abbreviation serial := (rt_serial_device U).
Implicit Types s : serial.

(** The UART is ready, or it can be made ready by the first open. *)
Definition uart_able (d : rt_device) (s : serial) : Prop :=
  if has_flag (dev_flag d) RT_DEVICE_FLAG_ACTIVATED then ready (hw s)
  else configurable (config s) (hw s) /\ uart_configure (U := U) <> None.

(** A call of the UART's control operation changes the UART only. *)
Lemma uart_do_ok cmd arg s s' : uart_do cmd arg s = Some s' ->
  serial_rx s' = serial_rx s /\ serial_tx s' = serial_tx s /\ config s' = config s /\
  (ready (hw s) -> ready (hw s') /\ line (hw s') = line (hw s)).
Proof.
  unfold uart_do. destruct (uart_control cmd arg (hw s)) as [[r u]|] eqn:E; [|done]. cbn. intros [= <-].
  split_and!; try done. by apply (control_ready cmd arg (hw s) r).
Qed.

(** A device without FIFO gets an empty one. *)
Lemma open_rx_fresh oflag d s k d1 s1 k1 : serial_rx s = None -> has_flag oflag RT_DEVICE_FLAG_INT_RX = true ->
  2 <= bufsz (config s) < 2 ^ 16 -> open_rx oflag d s k = Some (d1, s1, k1) ->
  serial_ok s1 /\ queue s1 = [] /\ config s1 = config s /\ serial_tx s1 = serial_tx s /\
  has_flag (open_flag d1) RT_DEVICE_FLAG_INT_RX = true /\ (ready (hw s) -> ready (hw s1) /\ line (hw s1) = line (hw s)).
Proof.
  intros Hn Hfl Hb. unfold open_rx. rewrite Hn, Hfl. destruct (rt_malloc _ _) as [[[p|] h]|]; [|done..].
  rewrite !some_bind. cbv zeta. set (f := {| rx_addr := p; buffer := _; put_index := 0; get_index := 0; is_full := false |}).
  destruct (uart_do _ _ _) as [s2|] eqn:E; [|done]. apply uart_do_ok in E as (Er & Et & Ec & Hrd). simpl in Er, Et, Ec, Hrd.
  rewrite some_bind. intros [= <- <- <-].
  assert (fifo_ok (bufsz (config s)) f) as Hf.
  { split; try done; simpl; try lia; [unfold lenZ; rewrite length_replicate; lia|].
    apply Forall_replicate. unfold fits. lia. }
  split; [exists f; by rewrite Er, Ec|]. split; [|split; [done|split; [done|split; [by apply has_flag_set|done]]]].
  unfold queue. rewrite Er. unfold received, fifo_len. simpl. rewrite Z.mod_0_l by (rewrite Ec; lia). apply ring_nil.
Qed.

Lemma open_tx_rx oflag d s k d1 s1 k1 : open_tx oflag d s k = Some (d1, s1, k1) ->
  serial_rx s1 = serial_rx s /\ config s1 = config s /\
  has_flag (open_flag d1) RT_DEVICE_FLAG_INT_RX = has_flag (open_flag d) RT_DEVICE_FLAG_INT_RX /\
  (ready (hw s) -> ready (hw s1) /\ line (hw s1) = line (hw s)).
Proof.
  unfold open_tx. destruct (serial_tx s).
  { intros [= <- <- <-]. destruct (has_flag oflag _); [|done]. split; [done|]. split; [done|]. split; [by apply has_flag_lor_ne|done]. }
  destruct (has_flag oflag _); [|by intros [= <- <- <-]]. destruct (rt_malloc _ _) as [[[p|] h]|]; [|done..].
  rewrite !some_bind. destruct (rt_completion_init p _) as [c k2].
  destruct (uart_do _ _ _) as [s2|] eqn:E; [|done]. apply uart_do_ok in E as (Er & _ & Ec & Hrd).
  rewrite some_bind. intros [= <- <- <-]. split; [done|]. split; [done|]. split; [by apply has_flag_lor_ne|exact Hrd].
Qed.

Lemma serial_open_fresh oflag d s k d1 s1 k1 : serial_rx s = None -> has_flag oflag RT_DEVICE_FLAG_INT_RX = true ->
  2 <= bufsz (config s) < 2 ^ 16 -> rt_serial_open oflag d s k = Some (RT_EOK, d1, s1, k1) ->
  serial_ok s1 /\ queue s1 = [] /\ config s1 = config s /\ has_flag (open_flag d1) RT_DEVICE_FLAG_INT_RX = true /\
  (ready (hw s) -> ready (hw s1) /\ line (hw s1) = line (hw s)).
Proof.
  intros Hn Hfl Hb. unfold rt_serial_open. repeat (destruct (lacks _ _ _); [done|]). cbv zeta.
  destruct (open_rx oflag _ s k) as [[[d2 s2] k2]|] eqn:E2; [|done]. rewrite some_bind.
  apply open_rx_fresh in E2 as ((f & Ef & Hf) & Hq & Hc & _ & Hm & Hr2); [|done..].
  destruct (open_tx oflag d2 s2 k2) as [[[d3 s3] k3]|] eqn:E3; [|done]. rewrite some_bind.
  apply open_tx_rx in E3 as (Hr3 & Hc3 & Hm3 & Hy3). intros E.
  assert (s3 = s1 /\ open_flag d1 = Z.lor (open_flag d3) (if has_flag oflag RT_DEVICE_FLAG_STREAM || has_flag (open_flag d) RT_DEVICE_FLAG_STREAM
                     then RT_DEVICE_FLAG_STREAM else 0)) as [<- Hd1] by (by injection E as <- <- <-).
  unfold serial_ok, queue in *. rewrite Hr3, Hc3, Ef in *. split; [by exists f|]. split; [done|]. split; [done|].
  split; [rewrite Hd1; destruct (_ || _); rewrite has_flag_lor_ne by done; congruence|].
  intros [H1 H2]%Hr2. destruct (Hy3 H1). split; [done|congruence].
Qed.

(** The initialisation, if it is needed and successful, makes the UART ready. *)
Lemma open_init_able d s k d2 s2 k2 : open_init serial_ops d s k = Some (RT_EOK, d2, s2, k2) ->
  (serial_rx s = None -> serial_rx s2 = None) /\ config s2 = config s /\ rx_indicate d2 = rx_indicate d /\
  (uart_able d s -> ready (hw s2) /\ line (hw s2) = line (hw s)).
Proof.
  unfold open_init, uart_able. destruct (has_flag (dev_flag d) _); [by intros [= <- <- <-]|]. cbn [op_init serial_ops].
  unfold rt_serial_init. destruct uart_configure as [g|] eqn:Eg; cbv zeta; cbn [config hw].
  - destruct (g _ _) as [[r u]|] eqn:Er; [|done]. rewrite some_bind, some_bind.
    destruct (Z.eqb_spec r RT_EOK) as [->|Hr]; [|by intros [= -> <- <- <-]]. intros [= <- <- <-].
    split_and!; try done. intros [Hc _]. by apply (configure_ready g (config s) (hw s)).
  - rewrite some_bind. intros [= <- <- <-]. by split_and!; [..|intros []].
Qed.

(** A successful rt_device_open is one of rt_serial_open, after the
    initialisation if there was one. *)
Lemma device_open_serial oflag d s k d1 s1 k1 : is_device d = true ->
  rt_device_open serial_ops oflag d s k = Some (RT_EOK, d1, s1, k1) ->
  exists d2 s2 k2 d3, rt_serial_open oflag d2 s2 k2 = Some (RT_EOK, d3, s1, k1) /\
    config s2 = config s /\ (serial_rx s = None -> serial_rx s2 = None) /\ rx_indicate d2 = rx_indicate d /\
    open_flag d1 = Z.lor (open_flag d3) RT_DEVICE_OFLAG_OPEN /\ rx_indicate d1 = rx_indicate d3 /\
    (uart_able d s -> ready (hw s2) /\ line (hw s2) = line (hw s)).
Proof.
  intros Hd. unfold rt_device_open. rewrite Hd. cbn [assert]. rewrite some_bind.
  destruct (open_init serial_ops d s k) as [[[[e2 d2] s2] k2]|] eqn:E2; [|done]. rewrite some_bind.
  destruct (Z.eqb_spec e2 RT_EOK) as [->|He]; cbn [negb]; [|by intros [= -> <- <- <-]].
  apply open_init_able in E2 as (Hn2 & Hc2 & Hi2 & Ha2). destruct (_ && _); [done|].
  unfold driver_open. cbn [op_open serial_ops]. destruct (rt_serial_open oflag d2 s2 k2) as [[[[e3 d3] s3] k3]|] eqn:E3; [|done].
  rewrite some_bind. destruct (succeeded e3) eqn:Es; [|by intros [= -> <- <- <-]]. cbv zeta.
  destruct (assert _) as [[]|]; [|done]. rewrite some_bind. intros E.
  assert (e3 = RT_EOK /\ s3 = s1 /\ k3 = k1 /\ open_flag d1 = Z.lor (open_flag d3) RT_DEVICE_OFLAG_OPEN /\ rx_indicate d1 = rx_indicate d3)
    as (-> & <- & <- & Hof & Hi) by (by injection E as -> <- <- <-).
  by exists d2, s2, k2, d3.
Qed.

Lemma device_open_receiving oflag d s k d1 s1 k1 : device_ok d -> uart_able d s -> serial_rx s = None ->
  has_flag oflag RT_DEVICE_FLAG_INT_RX = true -> 2 <= bufsz (config s) < 2 ^ 16 -> line (hw s) = [] ->
  rt_device_open serial_ops oflag d s k = Some (RT_EOK, d1, s1, k1) ->
  receiving d1 s1 /\ queue s1 = [] /\ config s1 = config s.
Proof.
  intros Hd Ha Hn Hfl Hb Hl E. pose proof (do_count _ Hd) as Hcd.
  destruct (open_counts _ _ _ _ _ _ _ _ _ Hd E) as (Hd1 & Hc1 & _).
  change (succeeded RT_EOK) with true in Hc1. cbv iota in Hc1.
  destruct (device_open_serial oflag d s k d1 s1 k1 (do_class _ Hd) E) as (d2 & s2 & k2 & d3 & E3 & Hc2 & Hn2 & _ & Hof & _ & Hr2).
  rewrite <- Hc2 in Hb. destruct (serial_open_fresh oflag d2 s2 k2 d3 s1 k1 (Hn2 Hn) Hfl Hb E3) as (Hs3 & Hq3 & Hc3 & Hm3 & Hr3).
  destruct (Hr2 Ha) as [Hy2 Hl2]. destruct (Hr3 Hy2) as [Hy3 Hl3].
  split; [|split; [done|congruence]]. split; [apply (do_class _ Hd1)|lia| |done|congruence|done].
  rewrite Hof, has_flag_lor_ne by done. done.
Qed.
End Opening.

(** ** Sending by polling *)

(** The carriage return a terminal needs in front of every line feed. *)
Fixpoint crlf (l : list Z) : list Z :=
  match l with [] => [] | c :: l => if c =? 10 then 13 :: c :: crlf l else c :: crlf l end.

Lemma crlf_bytes l : map (wrap 8) (crlf (map (wrap 8) l)) = crlf (map (wrap 8) l).
Proof.
  induction l as [|x l IH]; [done|]. cbn [map crlf].
  by destruct (u8 x =? 10); cbn [map]; rewrite IH, !wrap_wrap.
Qed.

Section Polling.
Context {U : Type} `{!Uart U} `{!UartLaws U}.
Implicit Types s : rt_serial_device U.

(** The UART waits until it can take a byte (stm32_putc). *)
Definition never_refuses : Prop := forall x (u : U) r u', ready u -> uart_putc x u = Some (r, u') -> r <> -1.

Lemma putc_taken x u : never_refuses -> ready u -> exists r u', uart_putc x u = Some (r, u') /\ ready u' /\
  line u' = line u /\ sent u' = sent u ++ [u8 x].
Proof.
  intros Hn Hu. destruct (putc_ok x u Hu) as (r & u' & E & Hu' & Hl & Hs). exists r, u'.
  by rewrite (proj2 (Z.eqb_neq _ _) (Hn x u r u' Hu E)) in Hs.
Qed.

Lemma poll_tx_sent stream data (u : U) : never_refuses -> ready u -> exists u', poll_tx_loop stream data u = Some u' /\
  ready u' /\ sent u' = sent u ++ map (wrap 8) (if stream then crlf data else data) /\ line u' = line u.
Proof.
  intros Hn. revert u. induction data as [|x data IH]; intros u Hu; cbn [poll_tx_loop].
  { exists u. destruct stream; by rewrite app_nil_r. }
  assert (exists u1, (if (x =? 10) && stream then '(_, u) ← uart_putc 13 u; Some u else Some u) = Some u1 /\
    ready u1 /\ sent u1 = sent u ++ (if (x =? 10) && stream then [13] else []) /\ line u1 = line u) as (u1 & -> & Hu1 & Hs1 & Hl1).
  { destruct ((x =? 10) && stream); [|exists u; by rewrite app_nil_r].
    destruct (putc_taken 13 u Hn Hu) as (r & u1 & -> & H1 & H2 & H3). by exists u1. }
  rewrite some_bind. destruct (putc_taken x u1 Hn Hu1) as (r & u2 & -> & Hu2 & Hl2 & Hs2). rewrite some_bind.
  destruct (IH u2 Hu2) as (u3 & -> & Hu3 & Hs3 & Hl3). exists u3. split; [done|]. split; [done|].
  split; [|congruence]. rewrite Hs3, Hs2, Hs1, <- !app_assoc. destruct stream; cbn [crlf]; rewrite ?andb_true_r, ?andb_false_r.
  - by destruct (Z.eqb_spec x 10) as [->|].
  - done.
Qed.

(** What every putc keeps, the loop keeps, and what every getc keeps, the interrupt handler does. *)
Lemma poll_tx_keeps (P : U -> Prop) stream data u u' :
  (forall x u r u', P u -> uart_putc x u = Some (r, u') -> P u') -> P u -> poll_tx_loop stream data u = Some u' -> P u'.
Proof.
  intros HP. revert u. induction data as [|x data IH]; intros u Hu; cbn [poll_tx_loop]; [by intros [= <-]|].
  destruct ((x =? 10) && stream).
  - destruct (uart_putc 13 u) as [[r u1]|] eqn:E1; [|done]. rewrite !some_bind.
    destruct (uart_putc x u1) as [[r2 u2]|] eqn:E2; [|done]. rewrite some_bind. eauto.
  - rewrite some_bind. destruct (uart_putc x u) as [[r2 u2]|] eqn:E2; [|done]. rewrite some_bind. eauto.
Qed.

Lemma rx_ind_keeps (P : U -> Prop) fuel s s' :
  (forall u, P u -> P (snd (uart_getc u))) -> P (hw s) -> rx_ind_loop fuel s = Some s' -> P (hw s').
Proof.
  intros HP. revert s. induction fuel as [|fuel IH]; intros s Hs; [done|]. cbn [rx_ind_loop].
  pose proof (HP _ Hs) as Hg. destruct (uart_getc (hw s)) as [ch u]. cbn [snd] in Hg.
  destruct (ch =? -1); [by intros [= <-]|]. cbn [serial_rx config]. destruct (serial_rx s) as [f|]; [|done]. rewrite some_bind.
  destruct (rx_store _ ch f) as [[over f']|]; [|done]. rewrite some_bind. apply IH.
  destruct over; [|done]. unfold _serial_check_buffer_size. by destruct (already_output _).
Qed.

Lemma device_write_ok pos data d s k : never_refuses -> receiving d s -> has_flag (open_flag d) RT_DEVICE_FLAG_INT_TX = false ->
  exists s', rt_device_write serial_ops pos data d s k = Some (Moved (lenZ data), d, s', k) /\ receiving d s' /\ queue s' = queue s /\
    config s' = config s /\ sent (hw s') = sent (hw s) ++ map (wrap 8) (if stream_mode d then crlf data else data) /\
    (forall P : U -> Prop, (forall x u r u', P u -> uart_putc x u = Some (r, u') -> P u') -> P (hw s) -> P (hw s')).
Proof.
  intros Hn [H1 H2 H3 H4 H5 H6] Hp. unfold rt_device_write. rewrite H1. cbn [assert]. rewrite some_bind.
  rewrite (proj2 (Z.eqb_neq _ _)) by lia. cbn [op_write serial_ops]. unfold rt_serial_write.
  destruct (Z.eqb_spec (lenZ data) 0) as [Hz|Hz].
  - destruct data; [|done]. exists s. split; [done|]. split; [by split|]. split_and!; try done.
    by destruct (stream_mode d); rewrite app_nil_r.
  - rewrite Hp. unfold _serial_poll_tx. destruct (poll_tx_sent (stream_mode d) data (hw s) Hn H6) as (u & E & Hu & Hs & Hl).
    rewrite E, !some_bind. exists {| s with hw := u |}. split; [done|]. split; [split; try done; simpl; by rewrite Hl|].
    split_and!; try done. intros P HP Hh. by apply (poll_tx_keeps P (stream_mode d) data (hw s)).
Qed.
End Polling.

(** ** Sending in interrupt mode *)
Section Output.
Context {U : Type} `{!Uart U} `{!UartLaws U}.
Abbreviation serial := (rt_serial_device U).
Implicit Types s : serial.

(** The loop of a thread that may block, with its completion [tx]: it ends,
    either with everything sent or with the thread waiting for the rest. *)
Lemma int_tx_loop_ok fuel size data s k tx c cth : ready (hw s) -> serial_tx s = Some tx ->
  completion_ok (tx_addr tx) (tx_completion tx) k -> queues k (QSuspend (tx_addr tx)) = [] -> can_block k c cth ->
  (length data + Z.to_nat (pending (tx_completion tx)) < fuel)%nat ->
  exists r s' k', int_tx_loop fuel false size data s k = Some (r, s', k') /\
    match r with
    | Moved n => n = size /\ sent (hw s') = sent (hw s) ++ map (wrap 8) data /\ k' = k
    | Stopped rest => exists taken, data = taken ++ rest /\ rest <> [] /\ sent (hw s') = sent (hw s) ++ map (wrap 8) taken /\
        blocked (reset_error c cth k) k' c (QSuspend (tx_addr tx)) [c]
    end.
Proof.
  intros Hy Htx Hco Hq Hcb. revert data s tx Hy Htx Hco Hq. induction fuel as [|fuel IH]; intros data s tx Hy Htx Hco Hq Hfu; [lia|].
  cbn [int_tx_loop]. destruct data as [|b rest]; [exists (Moved size), s, k; by rewrite app_nil_r|].
  unfold int_tx_byte. rewrite andb_false_r. destruct (putc_ok b (hw s) Hy) as (r & u & -> & Hu & _ & Hp).
  rewrite !some_bind. cbv zeta. set (s1 := {| s with hw := u |}).
  destruct (Z.eqb_spec r (-1)) as [->|Hr]; cbn [negb].
  - rewrite app_nil_r in Hp. change (serial_tx s1) with (serial_tx s). rewrite Htx, some_bind.
    destruct (co_flag _ _ _ Hco) as [Hf|Hf].
    + destruct (completion_wait_blocks (tx_addr tx) (tx_completion tx) (-1) k c cth Hf Hq Hcb ltac:(done) ltac:(done))
        as (k1 & -> & Hb & _). rewrite some_bind. eexists _, _, _. split; [done|].
      exists []. split; [done|]. split; [done|]. split; [|done]. simpl. by rewrite Hp, app_nil_r.
    + rewrite completion_wait_now by done. rewrite some_bind. cbv zeta.
      set (tx2 := {| tx with tx_completion := _ |}). set (s2 := {| s1 with serial_tx := Some tx2 |}).
      destruct (IH (b :: rest) s2 tx2 Hu eq_refl) as (r & s3 & k3 & E & H); [by apply (completion_ok_flag _ _ _ _ Hco); [left|]|done| |].
      { unfold pending in Hfu. rewrite Hf in Hfu. change (pending (tx_completion tx2)) with 0. simpl in *. lia. }
      exists r, s3, k3. split; [exact E|]. change (sent (hw s2)) with (sent u) in H. by rewrite Hp in H.
  - destruct (IH rest s1 tx Hu Htx Hco Hq) as (r' & s2 & k2 & E & H); [simpl in Hfu; lia|].
    exists r', s2, k2. split; [exact E|]. change (sent (hw s1)) with (sent u) in H. rewrite Hp in H. destruct r' as [n|rest'].
    + by rewrite <- app_assoc in H.
    + destruct H as (taken & -> & Hne & Hs2 & Hb). exists (b :: taken). rewrite <- app_assoc in Hs2. done.
Qed.
End Output.

(** ** Properties *)
Section Properties.
Context {U : Type} `{!Uart U} `{!UartLaws U}.
Implicit Types s : rt_serial_device U.

(** C16: opened for interrupt reception, the serial driver is a queue of one
    character less than its buffer, for what the UART keeps.  Whatever comes over the line, the first [depth]
    characters before an interrupt are kept, and whatever is read, in any order, no access is outside of the buffer, every read gets
    the oldest characters in order, a full queue forgets the oldest, and every
    interrupt that leaves characters reports their number to rx_indicate. *)
Theorem serial_input_is_queue oflag d s k d1 s1 k1 es :
  device_ok d -> uart_able d s -> serial_rx s = None -> has_flag oflag RT_DEVICE_FLAG_INT_RX = true ->
  2 <= bufsz (config s) < 2 ^ 16 -> line (hw s) = [] ->
  rt_device_open serial_ops oflag d s k = Some (RT_EOK, d1, s1, k1) -> Forall event_ok es ->
  exists s2, serial_run d1 es s1 k1 = Some (fst (queue_run (rx_indicate d1) (bufsz (config s) - 1) (depth (U := U)) es []), s2, k1) /\
    queue s2 = snd (queue_run (rx_indicate d1) (bufsz (config s) - 1) (depth (U := U)) es []) /\ lenZ (queue s2) <= bufsz (config s) - 1.
Proof.
  intros Hd Ha Hn Hfl Hb Hl E Hes. destruct (device_open_receiving oflag d s k d1 s1 k1 Hd Ha Hn Hfl Hb Hl E) as (Hr & Hq & Hc).
  destruct (serial_run_ok d1 es Hes s1 k1 Hr) as (s2 & E2 & Hr2 & Hq2 & Hc2). unfold capacity in *. rewrite Hc, Hq in *.
  exists s2. split; [done|]. split; [done|]. destruct (rc_serial _ _ Hr2) as (f & Ef & Hf). unfold queue. rewrite Ef.
  rewrite length_received by done. pose proof (fifo_len_range _ f Hf) as Hl2. rewrite Hc2 in *. lia.
Qed.

(** A thread that sends in interrupt mode, not in stream mode, loses and
    repeats no byte: its call ends, with everything taken by the UART in
    order, or with the thread waiting for the completion and the rest, which
    it sends when it goes on. *)
Lemma serial_int_tx_spec d data s k tx c cth : ready (hw s) -> serial_tx s = Some tx -> stream_mode d = false ->
  completion_ok (tx_addr tx) (tx_completion tx) k -> queues k (QSuspend (tx_addr tx)) = [] -> can_block k c cth ->
  exists r s' k', _serial_int_tx d data s k = Some (r, s', k') /\
    match r with
    | Moved n => n = lenZ data /\ sent (hw s') = sent (hw s) ++ map (wrap 8) data /\ k' = k
    | Stopped rest => exists taken, data = taken ++ rest /\ rest <> [] /\ sent (hw s') = sent (hw s) ++ map (wrap 8) taken /\
        blocked (reset_error c cth k) k' c (QSuspend (tx_addr tx)) [c]
    end.
Proof.
  intros Hy Htx Hst Hco Hq Hcb. unfold _serial_int_tx. rewrite Htx, some_bind, Hst.
  destruct data as [|b data]; [exists (Moved 0), s, k; by rewrite app_nil_r|].
  apply (int_tx_loop_ok _ _ _ _ _ tx); try done. unfold int_tx_fuel, pending.
  destruct (_ =? _); simpl; lia.
Qed.
End Properties.

(** A UART for examples: the bytes on its line, of which it keeps 128, those it sent, and how many more
    it takes before it refuses one. *)
Record demo_uart := { du_line : list Z; du_sent : list Z; du_room : Z }.

#[global] Instance demo_uart_ops : Uart demo_uart := {
  uart_configure := Some (fun _ u => Some (RT_EOK, u));
  uart_control := fun _ _ u => Some (RT_EOK, u);
  uart_putc := fun c u =>
    Some (if 0 <? du_room u then (1, {| u with du_sent := du_sent u ++ [u8 c]; du_room := du_room u - 1 |}) else (-1, u));
  uart_getc := fun u => match du_line u with [] => (-1, u) | c :: l => (u8 c, {| u with du_line := l |}) end
}.

#[global] Instance demo_uart_laws : UartLaws demo_uart.
Proof.
  refine (Build_UartLaws demo_uart _ (fun u => wrap 8 <$> du_line u) du_sent (fun cs u => {| u with du_line := take 128 (du_line u ++ cs) |})
    128 (fun _ => True) (fun _ _ => True) _ _ _ _ _ _ _ _ _ _).
  - intros u. apply Forall_fmap, Forall_true. intros c. by apply wrap_fits.
  - intros [[|c l] x r]; done.
  - done.
  - intros c u _. simpl. case_cmp; (eexists _, _; split; [done|]); simpl; by rewrite ?app_nil_r.
  - by intros cmd arg u r u' [= <- <-].
  - by intros f c u r u' [= <-] [= <- <-].
  - by intros f c u u' [= <-] [= <-].
  - done.
  - lia.
  - intros cs [[|c l] x r] _ Hcs Hl; [|done]. exact (map_wrap_id 8 (take 128 cs) (Forall_take _ _ _ Hcs)).
Defined.

Definition demo_serial (room : Z) : rt_serial_device demo_uart :=
  {| config := RT_SERIAL_CONFIG_DEFAULT; serial_rx := None; serial_tx := None; already_output := false;
     hw := {| du_line := []; du_sent := []; du_room := room |} |}.

(** A serial device as rt_hw_usart_init registers it, with [f] as rx_indicate. *)
Definition demo_tty (f : option Z) : rt_device :=
  {| demo_device with dev_flag := Z.lor RT_DEVICE_FLAG_RDWR (Z.lor RT_DEVICE_FLAG_INT_RX RT_DEVICE_FLAG_INT_TX);
                      rx_indicate := f |}.

Lemma demo_tty_ok f : device_ok (demo_tty f).
Proof. split; [reflexivity|simpl; lia|simpl; lia|done]. Qed.

Lemma demo_able : uart_able (demo_tty (Some 7)) (demo_serial 0).
Proof. split; [exact I|discriminate]. Qed.

Lemma serial_input_is_queue_witness : exists d1 s1 k1,
  rt_device_open serial_ops RT_DEVICE_FLAG_INT_RX (demo_tty (Some 7)) (demo_serial 0) demo_kernel = Some (RT_EOK, d1, s1, k1) /\
  exists s2, serial_run d1 [Arrive [104; 105]; Fetch 1; Fetch 5] s1 k1 =
    Some ([Indicated (Some (7, 2)); Fetched [104]; Fetched [105]], s2, k1).
Proof.
  destruct (rt_device_open serial_ops RT_DEVICE_FLAG_INT_RX (demo_tty (Some 7)) (demo_serial 0) demo_kernel)
    as [[[[e d1] s1] k1]|] eqn:E.
  - assert (e = 0 /\ rx_indicate d1 = Some 7) as (He & Hi).
    { assert (match rt_device_open serial_ops RT_DEVICE_FLAG_INT_RX (demo_tty (Some 7)) (demo_serial 0) demo_kernel with
              | Some (e, d1, s1, _) => (e, rx_indicate d1) = (0, Some 7) | None => False end) as H
        by (vm_compute; reflexivity).
      rewrite E in H. injection H as H1 H2. exact (conj H1 H2). }
    subst e. exists d1, s1, k1. split; [reflexivity|].
    destruct (serial_input_is_queue RT_DEVICE_FLAG_INT_RX (demo_tty (Some 7)) (demo_serial 0) demo_kernel d1 s1 k1
      [Arrive [104; 105]; Fetch 1; Fetch 5] (demo_tty_ok _) demo_able eq_refl eq_refl ltac:(split; [discriminate|reflexivity]) eq_refl E)
      as (s2 & E2 & _).
    { apply Forall_cons. split; [apply (bool_decide_eq_true_1 _); vm_compute; reflexivity|].
      apply Forall_cons. split; [discriminate|]. apply Forall_cons. split; [discriminate|]. apply Forall_nil. exact I. }
    exists s2. rewrite E2, Hi. vm_compute. reflexivity.
  - exfalso. assert (match rt_device_open serial_ops RT_DEVICE_FLAG_INT_RX (demo_tty (Some 7)) (demo_serial 0) demo_kernel with
      | Some _ => True | None => False end) as H by (vm_compute; exact I). rewrite E in H. exact H.
Defined.

(** A device sending in interrupt mode, with its completion at address 700. *)
Definition demo_sender (room : Z) : rt_serial_device demo_uart :=
  {| (demo_serial room) with serial_tx := Some {| tx_addr := 700; tx_completion := {| cflag := RT_UNCOMPLETED |} |} |}.

Lemma demo_idle_queue : queues demo_kernel (QSuspend 700) = [].
Proof. vm_compute. reflexivity. Qed.

Lemma serial_int_tx_spec_witness : exists r s' k',
  _serial_int_tx (demo_tty None) [1; 2; 3] (demo_sender 2) demo_kernel = Some (r, s', k') /\
  match r with Moved _ => False | Stopped rest => [1; 2; 3] = sent (hw s') ++ map (wrap 8) rest end.
Proof.
  destruct (serial_int_tx_spec (demo_tty None) [1; 2; 3] (demo_sender 2) demo_kernel
    {| tx_addr := 700; tx_completion := {| cflag := RT_UNCOMPLETED |} |} 1 demo_current ltac:(exact I) eq_refl eq_refl) as (r & s' & k' & E & H).
  - split; [left; reflexivity|left; exact demo_idle_queue|discriminate|apply waiting_fine_nil; exact demo_idle_queue].
  - exact demo_idle_queue.
  - exact demo_can_block.
  - exists r, s', k'. split; [exact E|]. destruct r as [n|rest].
    + assert (match _serial_int_tx (demo_tty None) [1; 2; 3] (demo_sender 2) demo_kernel with
              | Some (Stopped _, _, _) => True | _ => False end) as Hs by (vm_compute; exact I).
      rewrite E in Hs. exact Hs.
    + destruct H as (taken & Hd & _ & Hs & _). rewrite Hs. change [1; 2; 3] with (map (wrap 8) [1; 2; 3]). rewrite Hd. apply map_app.
Defined.

(** In stream mode a line feed the UART refuses after it took the carriage
    return has another carriage return sent in front of it. *)
Definition refused_line_feed : option (list Z) :=
  let d := set_open_flag (Z.lor RT_DEVICE_FLAG_STREAM RT_DEVICE_FLAG_INT_TX) (demo_tty None) in
  '(r, s, k) ← _serial_int_tx d [10] (demo_sender 1) demo_kernel;
  match r with
  | Moved _ => None
  | Stopped rest =>
      let s := {| s with hw := {| (hw s) with du_room := 10 |} |} in
      '(_, s, k) ← rt_hw_serial_isr 1 RT_SERIAL_EVENT_TX_DONE d s k;
      '(r, s, k) ← _serial_int_tx_again 1 d 1 rest s k;
      Some (sent (hw s))
  end.

Lemma int_tx_repeats_carriage_return : refused_line_feed = Some [13; 13; 10].
Proof. vm_compute. reflexivity. Qed.

(** A second open without interrupt reception turns that mode off for the first
    user: reads go to the UART and no longer to the FIFO, and the last close
    leaves the FIFO allocated.  The next open uses it, even if the buffer size was
    changed in between, which is allowed while the device is closed: then the
    interrupt handler writes behind the buffer. *)
Definition second_open : option (list Z * rt_serial_device demo_uart) :=
  '(_, d, s, k) ← rt_device_open serial_ops RT_DEVICE_FLAG_INT_RX (demo_tty None) (demo_serial 0) demo_kernel;
  '(_, s, k) ← serial_do d (Arrive [104; 105]) s k;
  '(_, d, s, k) ← rt_device_open serial_ops RT_DEVICE_OFLAG_RDWR d s k;
  '(l, _, s, k) ← rt_device_read serial_ops 0 2 d s k;
  Some (l, s).

Lemma second_open_hides_input :
  (fun r => (fst r, queue (snd r))) <$> second_open = Some ([], [104; 105]).
Proof. vm_compute. reflexivity. Qed.

Definition resized : serial_arg := Configuration {| RT_SERIAL_CONFIG_DEFAULT with bufsz := 128 |}.

(** The buffer's length, its configured size, and the result of 65 characters. *)
Definition reopened_resized : option (Z * Z * bool) :=
  '(_, d, s, k) ← rt_device_open serial_ops RT_DEVICE_FLAG_INT_RX (demo_tty None) (demo_serial 0) demo_kernel;
  '(_, d, s, k) ← rt_device_open serial_ops RT_DEVICE_OFLAG_RDWR d s k;
  '(_, d, s, k) ← rt_device_close serial_ops d s k;
  '(_, d, s, k) ← rt_device_close serial_ops d s k;
  '(_, d, s, k) ← rt_device_control serial_ops RT_DEVICE_CTRL_CONFIG resized d s k;
  '(_, d, s, k) ← rt_device_open serial_ops RT_DEVICE_FLAG_INT_RX d s k;
  f ← serial_rx s;
  Some (lenZ (buffer f), bufsz (config s),
        match serial_do d (Arrive (replicate 65 97)) s k with Some _ => true | None => false end).

Lemma stale_fifo_overflows : reopened_resized = Some (64, 128, false).
Proof. vm_compute. reflexivity. Qed.
