(* ===== verification/Msh.v ===== *)
(** * The command line of the shell (components/finsh/msh.c)

    A line is characters in memory, split in place; commands are in a table of
    exported functions, whose code is a parameter.  Loops that stop at
    [position >= length] recurse on the number [n] of characters left. *)
From S2P Require Import Prelude Kservice.

Definition FINSH_ARG_MAX : Z := 10.

Record finsh_syscall := { sc_name : list Z; sc_desc : list Z; sc_func : Z }.

(** What rt_kprintf is given: a text of the code, a format and a string in memory, or a format
    and two strings of the table. *)
Inductive kprint := Text (s : list Z) | Fmt (f : list Z) (a : Z) | Item (f name desc : list Z).

Definition is_blank (c : Z) : bool := (c =? 32) || (c =? 9).
Definition QUOTE : Z := 34.
Definition BACKSLASH : Z := 92.

(** Blanks are overwritten with 0. *)
Fixpoint strip (n : nat) (m : mem) (p : Z) : mem * Z * nat :=
  match n with
  | O => (m, p, O)
  | S n' => if is_blank (m p) then strip n' (store8 p 0 m) (p + 1) else (m, p, n)
  end.

Fixpoint skip_word (n : nat) (m : mem) (p : Z) : Z * nat :=
  match n with
  | O => (p, O)
  | S n' => if is_blank (m p) then (p, n) else skip_word n' m (p + 1)
  end.

(** A backslash hides the quote behind it. *)
Fixpoint skip_string (n : nat) (m : mem) (p : Z) : Z * nat :=
  match n with
  | O => (p, O)
  | S n' =>
      if m p =? QUOTE then (p, n)
      else if (m p =? BACKSLASH) && (m (p + 1) =? QUOTE) then
        match n' with O => (p + 2, O) | S n'' => skip_string n'' m (p + 2) end
      else skip_string n' m (p + 1)
  end.

Definition too_many (argv : list Z) : list kprint :=
  [Text (bytes "Too many args ! We only Use:
")] ++ map (Fmt (bytes "%s ")) argv ++ [Text (bytes "
")].

(** The arguments found so far are [argv]; each turn of the loop finds one more. *)
Fixpoint split_loop (fuel n : nat) (m : mem) (p : Z) (argv : list Z) : option (mem * list Z * list kprint) :=
  match fuel with
  | O => None
  | S fuel =>
      match n with
      | O => Some (m, argv, [])
      | S _ =>
          let '(m, p, n) := strip n m p in
          if FINSH_ARG_MAX <=? lenZ argv then Some (m, argv, too_many argv)
          else
            match n with
            | O => Some (m, argv, [])
            | S n' =>
                if m p =? QUOTE then
                  let argv := argv ++ [p + 1] in
                  let '(p, n) := skip_string n' m (p + 1) in
                  match n with
                  | O => Some (m, argv, [])
                  | S n' => split_loop fuel n' (store8 p 0 m) (p + 1) argv
                  end
                else
                  let argv := argv ++ [p] in
                  let '(p, n) := skip_word n m p in
                  match n with
                  | O => Some (m, argv, [])
                  | S _ => split_loop fuel n m p argv
                  end
            end
      end
  end.

Definition msh_split (cmd length : Z) (m : mem) : option (mem * list Z * list kprint) :=
  split_loop (S (Z.to_nat length)) (Z.to_nat length) m cmd [].

(** strncmp(s, p, n) == 0 for a string [s] of the table; beyond its end is its 0. *)
Fixpoint strncmp_eq (n : nat) (s : list Z) (m : mem) (p : Z) : bool :=
  match n with
  | O => true
  | S n' =>
      match s with
      | [] => m p =? 0
      | c :: s => (m p =? c) && strncmp_eq n' s m (p + 1)
      end
  end.

Definition cmd_prefix : list Z := bytes "__cmd_".

Definition is_cmd (sc : finsh_syscall) : bool := bool_decide (take 6 (sc_name sc) = cmd_prefix).
Definition cmd_name (sc : finsh_syscall) : list Z := drop 6 (sc_name sc).

Definition msh_help (table : list finsh_syscall) : list kprint * Z :=
  ([Text (bytes "RT-Thread shell commands:
")] ++ map (fun sc => Item (bytes "%-16s - %s
") (cmd_name sc) (sc_desc sc)) (filter (fun sc => is_cmd sc = true) table) ++ [Text (bytes "
")], 0).

(** index->name[6 + size] == 0 after the first [size] characters were compared. *)
Fixpoint msh_get_cmd (table : list finsh_syscall) (m : mem) (cmd size : Z) : option Z :=
  match table with
  | [] => None
  | sc :: table =>
      if is_cmd sc && strncmp_eq (Z.to_nat size) (cmd_name sc) m cmd && (lenZ (cmd_name sc) =? size)
      then Some (sc_func sc) else msh_get_cmd table m cmd size
  end.

Section Exec.
Context {W : Type} (table : list finsh_syscall)
  (call : Z -> list Z -> mem -> W -> option (Z * mem * W)).   (** the functions of the table *)

(** The return value, and the command's, its output and effects. *)
Definition _msh_exec_cmd (cmd length : Z) (m : mem) (w : W) : option (Z * option Z * mem * list kprint * W) :=
  let '(p, _) := skip_word (Z.to_nat length) m cmd in
  let cmd0_size := p - cmd in
  if cmd0_size =? 0 then Some (- RT_ERROR, None, m, [], w)
  else
    match msh_get_cmd table m cmd cmd0_size with
    | None => Some (- RT_ERROR, None, m, [], w)
    | Some func =>
        '(m, argv, out) ← msh_split cmd length m;
        if lenZ argv =? 0 then Some (- RT_ERROR, None, m, out, w)
        else '(r, m, w) ← call func argv m w; Some (0, Some r, m, out, w)
    end.

(** The blanks in front of the command. *)
Fixpoint trim (fuel : nat) (m : mem) (cmd length : Z) : option (Z * Z) :=
  match fuel with
  | O => None
  | S fuel => if is_blank (m cmd) then trim fuel m (cmd + 1) (length - 1) else Some (cmd, length)
  end.

(** The first space or end of string. *)
Fixpoint first_space (fuel : nat) (m : mem) (p : Z) : option Z :=
  match fuel with
  | O => None
  | S fuel => if negb (m p =? 32) && negb (m p =? 0) then first_space fuel m (p + 1) else Some p
  end.

Definition msh_exec (fuel : nat) (cmd length : Z) (m : mem) (w : W) : option (Z * mem * list kprint * W) :=
  '(cmd, length) ← trim fuel m cmd length;
  if u32 length =? 0 then Some (0, m, [], w)
  else
    '(e, r, m, out, w) ← _msh_exec_cmd cmd (u32 length) m w;
    if e =? 0 then r ← r; Some (r, m, out, w)
    else
      p ← first_space fuel m cmd;
      Some (-1, store8 p 0 m, out ++ [Fmt (bytes "%s: command not found.
") cmd], w).
End Exec.


(** ** Completion

    The buffer that holds the prefix is an array; its text ends at the first 0, which is
    missing in a buffer that is not terminated. *)
Fixpoint cstring (l : list Z) : option (list Z) :=
  match l with
  | [] => None
  | c :: l => if c =? 0 then Some [] else t ← cstring l; Some (c :: t)
  end.

Fixpoint str_common (str1 str2 : list Z) : Z :=
  match str1, str2 with
  | c :: str1, d :: str2 => if c =? d then 1 + str_common str1 str2 else 0
  | _, _ => 0
  end.

(** strncmp(prefix, cmd_name, strlen(prefix)) == 0 *)
Definition matches (prefix name : list Z) : bool := bool_decide (take (length prefix) name = prefix).

Fixpoint complete_loop (prefix : list Z) (table : list finsh_syscall) (name_ptr : option (list Z)) (min_length : Z)
    : option (list Z) * Z * list kprint :=
  match table with
  | [] => (name_ptr, min_length, [])
  | sc :: table =>
      if is_cmd sc && matches prefix (cmd_name sc) then
        let '(name_ptr, min_length) :=
          if min_length =? 0 then (Some (cmd_name sc), lenZ (cmd_name sc)) else (name_ptr, min_length) in
        let length := str_common (default [] name_ptr) (cmd_name sc) in
        let min_length := if length <? min_length then length else min_length in
        let '(name_ptr, min_length, out) := complete_loop prefix table name_ptr min_length in
        (name_ptr, min_length, Text (cmd_name sc ++ [10]) :: out)
      else complete_loop prefix table name_ptr min_length
  end.

(** rt_strncpy into the beginning of the buffer, which must have room. *)
Definition copy_name (name : list Z) (n : nat) (buf : list Z) : option (list Z) :=
  if (n <=? length buf)%nat then Some (take n (name ++ replicate n 0) ++ drop n buf) else None.

Definition msh_auto_complete (table : list finsh_syscall) (prefix : list Z) : option (list Z * list kprint) :=
  p ← cstring prefix;
  if bool_decide (p = []) then Some (prefix, fst (msh_help table))
  else
    let '(name_ptr, min_length, out) := complete_loop p table None 0 in
    match name_ptr with
    | Some name => buf ← copy_name name (Z.to_nat min_length) prefix; Some (buf, out)
    | None => Some (prefix, out)
    end.


(** The array [s] at address [a] of a memory. *)
Definition load (a : Z) (s : list Z) (m : mem) : mem :=
  fun x => if (a <=? x) && (x <? a + lenZ s) then nthZ 0 s (x - a) else m x.

(** ** Lines and words

    A line: each word behind its blanks, and blanks at the end. *)
Definition line_text (ws : list (list Z * list Z)) (tail : list Z) : list Z :=
  concat (map (fun bw => fst bw ++ snd bw) ws) ++ tail.

Definition blanks (b : list Z) : Prop := Forall (fun c => is_blank c = true) b.
Definition word (w : list Z) : Prop :=
  w <> [] /\ Forall (fun c => is_blank c = false) w /\ head w <> Some QUOTE.

(** Words are separated; in front of the first one there may be no blank. *)
Inductive line_ok (tail : list Z) : bool -> list (list Z * list Z) -> Prop :=
| line_end first : line_ok tail first []
| line_word first b w ws : blanks b -> (first = false -> b <> []) -> word w -> line_ok tail false ws ->
    line_ok tail first ((b, w) :: ws).

Lemma cstr_app m p s t : cstr m p (s ++ t) ->
  (forall i c, s !! i = Some c -> m (p + Z.of_nat i) = c /\ c <> 0) /\ cstr m (p + lenZ s) t.
Proof.
  intros [H H0]. unfold lenZ in *. rewrite length_app in H0. split.
  - intros i c Hi. apply H. by apply lookup_app_l_Some.
  - split.
    + intros i c Hi. replace (p + Z.of_nat (length s) + Z.of_nat i) with (p + Z.of_nat (length s + i)) by lia.
      apply H. rewrite lookup_app_r by lia. by replace (length s + i - length s)%nat with i by lia.
    + rewrite <- H0. f_equal. unfold lenZ. lia.
Qed.

Lemma cstr_ext m m' p s : (forall a, p <= a <= p + lenZ s -> m' a = m a) -> cstr m p s -> cstr m' p s.
Proof.
  intros He [H H0]. split.
  - intros i c Hi. pose proof (lookup_lt_Some _ _ _ Hi). rewrite He; [by apply H|unfold lenZ; lia].
  - rewrite He; [done|unfold lenZ; lia].
Qed.

(** Stripping [b], behind which [t] follows. *)
Lemma strip_ok b : forall t m p, blanks b -> cstr m p (b ++ t) -> (forall c, head t = Some c -> is_blank c = false) ->
  exists m', strip (length (b ++ t)) m p = (m', p + lenZ b, length t) /\
    forall a, m' a = if (p <=? a) && (a <? p + lenZ b) then 0 else m a.
Proof.
  induction b as [|c b IH]; intros t m p Hb Hc Ht.
  - exists m. unfold lenZ. simpl. rewrite Z.add_0_r. split.
    + destruct t as [|d t]; [done|]. simpl. apply cstr_cons in Hc as (Hd & _). by rewrite Hd, Ht.
    + intros a. destruct (Z.leb_spec p a), (Z.ltb_spec a p); try done; lia.
  - apply Forall_cons in Hb as [Hcb Hb]. simpl in Hc. apply cstr_cons in Hc as (Hc & Hc0 & Hc').
    simpl. rewrite Hc, Hcb. destruct (IH t (store8 p 0 m) (p + 1) Hb) as (m' & -> & Hm'); [|done|].
    + apply (cstr_ext m); [|done]. intros a Ha. unfold store8. rewrite (proj2 (Z.eqb_neq _ _)) by lia. done.
    + exists m'. unfold lenZ in *. simpl. split; [do 2 f_equal; lia|]. intros a. rewrite Hm'. unfold store8.
      destruct (Z.leb_spec (p + 1) a), (Z.leb_spec p a), (Z.ltb_spec a (p + 1 + Z.of_nat (length b))),
        (Z.ltb_spec a (p + Z.of_nat (S (length b)))), (Z.eqb_spec a p); simpl; try done; lia.
Qed.

Lemma skip_word_ok w : forall t m p, Forall (fun c => is_blank c = false) w -> cstr m p (w ++ t) ->
  (forall c, head t = Some c -> is_blank c = true) ->
  skip_word (length (w ++ t)) m p = (p + lenZ w, length t).
Proof.
  induction w as [|c w IH]; intros t m p Hw Hc Ht.
  - unfold lenZ. simpl. rewrite Z.add_0_r. destruct t as [|d t]; [done|]. simpl.
    apply cstr_cons in Hc as (-> & _). by rewrite Ht.
  - apply Forall_cons in Hw as [Hcw Hw]. simpl in Hc. apply cstr_cons in Hc as (Hc & _ & Hc'). simpl.
    rewrite Hc, Hcw, IH by done. f_equal. unfold lenZ. simpl. lia.
Qed.

Lemma line_cons b w ws tail : line_text ((b, w) :: ws) tail = b ++ w ++ line_text ws tail.
Proof. unfold line_text. simpl. by rewrite <- !app_assoc. Qed.

Lemma line_blank tail ws c : blanks tail -> line_ok tail false ws -> head (line_text ws tail) = Some c -> is_blank c = true.
Proof.
  intros Ht Hl Hh. inversion Hl as [|f b w ws' Hb Hne _ _]; subst.
  - unfold line_text in Hh. simpl in Hh. destruct tail as [|d tail]; [done|]. simplify_eq/=. by apply Forall_cons in Ht as [? _].
  - rewrite line_cons in Hh. destruct b as [|d b]; [by specialize (Hne eq_refl)|]. simplify_eq/=. by apply Forall_cons in Hb as [? _].
Qed.

(** The output: a complaint if blanks follow the tenth word. *)
Definition split_output (argv : list Z) (tail : list Z) : list kprint :=
  if (FINSH_ARG_MAX <=? lenZ argv) && negb (bool_decide (tail = [])) then too_many argv else [].

Lemma lenZ_snoc (l : list Z) x : lenZ (l ++ [x]) = lenZ l + 1.
Proof. unfold lenZ. rewrite length_app. simpl. lia. Qed.

Lemma split_loop_ok tail : blanks tail -> forall ws first fuel m p argv, line_ok tail first ws ->
  cstr m p (line_text ws tail) -> lenZ argv + lenZ ws <= FINSH_ARG_MAX -> (length (line_text ws tail) < fuel)%nat ->
  exists m' av, split_loop fuel (length (line_text ws tail)) m p argv = Some (m', argv ++ av, split_output (argv ++ av) tail) /\
    Forall2 (cstr m') av (map snd ws) /\ (forall a, a < p -> m' a = m a) /\
    (first = false -> line_text ws tail <> [] -> m' p = 0).
Proof.
  intros Ht. induction ws as [|[b w] ws IH]; intros first fuel m p argv Hl Hc Hn Hf; destruct fuel as [|fuel]; try lia.
  - unfold line_text in *. simpl in Hc, Hf |- *. destruct tail as [|c tail].
    + exists m, []. rewrite app_nil_r. unfold split_output. rewrite bool_decide_true, andb_false_r by done. by split_and!.
    + cbn [split_loop length]. change (S (length tail)) with (length (c :: tail)).
      destruct (strip_ok (c :: tail) [] m p Ht) as (m' & E & Hm'); [by rewrite app_nil_r|done|].
      rewrite app_nil_r in E. rewrite E. exists m', []. rewrite app_nil_r. unfold split_output.
      rewrite bool_decide_false, andb_true_r by done. split; [by destruct (FINSH_ARG_MAX <=? lenZ argv)|].
      split; [constructor|]. split.
      * intros a Ha. rewrite Hm'. rewrite (proj2 (Z.leb_gt _ _)) by lia. done.
      * intros _ _. rewrite Hm', Z.leb_refl, (proj2 (Z.ltb_lt _ _)); [done|unfold lenZ; simpl; lia].
  - inversion Hl as [|f b' w' ws' Hb Hbne (Hw0 & Hw & Hq) Hl']; subst. rewrite line_cons in Hc, Hf |- *.
    destruct w as [|c w]; [done|].
    destruct (strip_ok b ((c :: w) ++ (line_text ws tail)) m p Hb Hc) as (m1 & E & Hm1);
      [intros d [= <-]; by apply Forall_cons in Hw as [? _]|].
    assert (cstr m1 (p + lenZ b) ((c :: w) ++ (line_text ws tail))) as Hc1.
    { apply cstr_app in Hc as [_ Hc]. apply (cstr_ext m); [|done]. intros a Ha. rewrite Hm1.
      destruct (Z.ltb_spec a (p + lenZ b)); [lia|]. by rewrite andb_false_r. }
    assert (length (b ++ (c :: w) ++ (line_text ws tail)) = S (length b + length w + length (line_text ws tail)))%nat as Hlen
      by (rewrite !length_app; simpl; lia).
    cbn [split_loop]. rewrite E. rewrite Hlen. rewrite (proj2 (Z.leb_gt _ _)) by (unfold lenZ in *; simpl in Hn; lia).
    cbn [app length]. pose proof Hc1 as Hhd. simpl in Hhd. apply cstr_cons in Hhd as (Hhd & _ & _). rewrite Hhd.
    assert (c =? QUOTE = false) as -> by (apply Z.eqb_neq; intros ->; by apply Hq).
    pose proof (skip_word_ok (c :: w) (line_text ws tail) m1 (p + lenZ b) Hw Hc1) as Esk. cbn [app length] in Esk.
    rewrite Esk by (intros d; by apply line_blank).
    assert (forall a, a < p -> m1 a = m a) as Hlow.
    { intros a Ha. rewrite Hm1, (proj2 (Z.leb_gt _ _)) by lia. done. }
    assert (b <> [] -> m1 p = 0) as Hz.
    { intros Hb0. rewrite Hm1, Z.leb_refl, (proj2 (Z.ltb_lt _ _)); [done|]. destruct b; [done|unfold lenZ; simpl; lia]. }
    assert (lenZ b >= 0) as Hbl by (unfold lenZ; lia).
    assert (lenZ (c :: w) > 0) as Hwl by (unfold lenZ; simpl; lia).
    destruct (line_text ws tail) as [|d rest'] eqn:Hr.
    + exists m1, [p + lenZ b]. unfold line_text in Hr. apply app_nil in Hr as [Hr1 Hr2]. split.
      { unfold split_output. by rewrite Hr2, bool_decide_true, andb_false_r. }
      split; [|split; [done|intros Hfi _; apply Hz; by apply Hbne]].
      inversion Hl' as [|f' b2 w2 ws2 _ _ (Hw2 & _) _]; subst.
      { constructor; [|constructor]. rewrite app_nil_r in Hc1. exact Hc1. }
      simpl in Hr1. apply app_nil in Hr1 as [Hr1 _]. by apply app_nil in Hr1 as [_ Hr1].
    + cbn [length]. change (S (length rest')) with (length (d :: rest')).
      destruct (IH false fuel m1 (p + lenZ b + lenZ (c :: w)) (argv ++ [p + lenZ b]) Hl') as (m' & av & E' & Hav & Hlow' & Hz').
      * by apply cstr_app in Hc1 as [_ ?].
      * rewrite lenZ_snoc. unfold lenZ in *. simpl in Hn. lia.
      * rewrite Hlen in Hf. lia.
      * exists m', ((p + lenZ b) :: av). rewrite E', <- app_assoc. split; [done|].
        split; [|split].
        -- constructor; [|done]. apply cstr_app in Hc1 as [Hchars _]. split.
           ++ intros i x Hi. cbn [snd] in Hi. rewrite Hlow'; [by apply Hchars|].
              cbn [snd] in Hi. pose proof (lookup_lt_Some _ _ _ Hi). unfold lenZ. lia.
           ++ by apply Hz'.
        -- intros a Ha. rewrite Hlow' by lia. by apply Hlow.
        -- intros Hfi _. rewrite Hlow'; [|lia]. apply Hz. by apply Hbne.
Qed.

Lemma load_cstr a t u m : Forall (fun c => c <> 0) t -> cstr (load a (t ++ 0 :: u) m) a t.
Proof.
  intros Ht. unfold load, lenZ. rewrite length_app. simpl. split.
  - intros i c Hi. pose proof (lookup_lt_Some _ _ _ Hi).
    replace (_ && _) with true by (symmetry; apply andb_true_iff; rewrite Z.leb_le, Z.ltb_lt; lia). unfold nthZ.
    replace (Z.to_nat (a + Z.of_nat i - a)) with i by lia. rewrite app_nth1 by done.
    rewrite (nth_lookup_Some _ _ _ _ Hi). split; [done|]. by apply (Forall_lookup_1 _ _ _ _ Ht Hi).
  - unfold lenZ. replace (_ && _) with true by (symmetry; apply andb_true_iff; rewrite Z.leb_le, Z.ltb_lt; lia). unfold nthZ.
    rewrite app_nth2 by lia. by replace (Z.to_nat (a + Z.of_nat (length t) - a) - length t)%nat with 0%nat by lia.
Qed.

(** ** Looking commands up *)

Lemma strncmp_eq_ok w : forall s t m p, cstr m p (w ++ t) ->
  strncmp_eq (length w) s m p && (lenZ s =? lenZ w) = bool_decide (s = w).
Proof.
  induction w as [|c w IH]; intros s t m p Hc.
  - destruct s as [|d s]; [done|]. rewrite bool_decide_false by done.
    apply Z.eqb_neq. unfold lenZ. simpl. lia.
  - simpl in Hc. apply cstr_cons in Hc as (Hc & Hc0 & Hc'). destruct s as [|d s]; cbn [strncmp_eq length].
    + rewrite bool_decide_false by done. rewrite Hc. by rewrite (proj2 (Z.eqb_neq _ _) Hc0).
    + rewrite Hc. destruct (Z.eqb_spec c d) as [->|Hne]; cbn [andb].
      * assert ((lenZ (d :: s) =? lenZ (d :: w)) = (lenZ s =? lenZ w)) as ->.
        { destruct (Z.eqb_spec (lenZ (d :: s)) (lenZ (d :: w))), (Z.eqb_spec (lenZ s) (lenZ w)); unfold lenZ in *; simpl in *; try done; lia. }
        rewrite (IH s t m (p + 1) Hc'). apply bool_decide_ext. split; congruence.
      * rewrite bool_decide_false; [done|]. intros [= -> _]. done.
Qed.

(** The first exported command with that name. *)
Fixpoint find_cmd (table : list finsh_syscall) (w : list Z) : option Z :=
  match table with
  | [] => None
  | sc :: table => if bool_decide (sc_name sc = cmd_prefix ++ w) then Some (sc_func sc) else find_cmd table w
  end.

Lemma get_cmd_ok table m cmd w t : cstr m cmd (w ++ t) ->
  msh_get_cmd table m cmd (lenZ w) = find_cmd table w.
Proof.
  intros Hc. induction table as [|sc table IH]; [done|]. simpl. unfold lenZ at 1. rewrite Nat2Z.id.
  rewrite <- andb_assoc, (strncmp_eq_ok w _ t) by done. unfold is_cmd, cmd_name. rewrite IH.
  rewrite <- bool_decide_and. do 2 f_equal.
  assert (bool_decide (take 6 (sc_name sc) = cmd_prefix /\ drop 6 (sc_name sc) = w) =
          bool_decide (sc_name sc = cmd_prefix ++ w)) as ->; [|done].
  apply bool_decide_ext. split.
  - intros [<- <-]. by rewrite take_drop.
  - intros ->. by split.
Qed.

(** ** Completing a prefix *)

Definition candidates (table : list finsh_syscall) (p : list Z) : list (list Z) :=
  map cmd_name (filter (fun sc => is_cmd sc && matches p (cmd_name sc) = true) table).

(** How much of [n] all the names have in common, at most [k]. *)
Definition common_length (n : list Z) (k : Z) (names : list (list Z)) : Z :=
  foldl (fun k c => k `min` str_common n c) k names.

Definition completion (table : list finsh_syscall) (p : list Z) : list Z :=
  match candidates table p with
  | [] => p
  | n :: names => take (Z.to_nat (common_length n (lenZ n) (n :: names))) n
  end.

Lemma str_common_bounds a : forall b, 0 <= str_common a b <= lenZ a.
Proof.
  unfold lenZ. induction a as [|c a IH]; intros [|d b]; simpl; try lia. destruct (c =? d); [specialize (IH b)|]; lia.
Qed.

Lemma str_common_spec a : forall b j, (j <= length a)%nat -> (take j a `prefix_of` b <-> Z.of_nat j <= str_common a b).
Proof.
  induction a as [|c a IH]; intros b j Hj; simpl in Hj.
  - assert (j = 0%nat) as -> by lia. destruct b; simpl; split; try lia; intros _; apply prefix_nil.
  - destruct j as [|j]; [pose proof (str_common_bounds (c :: a) b); simpl take; split; [lia|intros _; apply prefix_nil]|].
    simpl take. destruct b as [|d b]; simpl str_common.
    + split; [intros H; by apply prefix_nil_inv in H|lia].
    + destruct (Z.eqb_spec c d) as [->|Hne].
      * split; intros H.
        -- apply prefix_cons_inv_2 in H. apply IH in H; lia.
        -- apply prefix_cons. apply IH; lia.
      * split; [intros H; by apply prefix_cons_inv_1 in H|lia].
Qed.

Lemma common_length_spec n names : forall k j, (j <= length n)%nat ->
  (Z.of_nat j <= common_length n k names <-> Z.of_nat j <= k /\ Forall (prefix (take j n)) names).
Proof.
  unfold common_length. induction names as [|c names IH]; intros k j Hj; simpl.
  - split; [by split|tauto].
  - rewrite IH, Forall_cons, (str_common_spec n c j) by done. rewrite Z.min_glb_iff. tauto.
Qed.

Lemma matches_prefix p n : matches p n = true <-> p `prefix_of` n.
Proof.
  unfold matches. rewrite bool_decide_eq_true. split.
  - intros <-. exists (drop (length p) n). by rewrite take_drop.
  - intros [u ->]. by rewrite take_app_length.
Qed.

(** The loop, once a first name was found. *)
Lemma complete_loop_ok p n table : forall k, p <> [] -> p `prefix_of` n -> lenZ p <= k ->
  complete_loop p table (Some n) k =
    (Some n, common_length n k (candidates table p), map (fun c => Text (c ++ [10])) (candidates table p)).
Proof.
  unfold candidates. induction table as [|sc table IH]; intros k Hp Hn Hk; [done|]. rewrite filter_cons. simpl complete_loop.
  destruct (is_cmd sc && matches p (cmd_name sc)) eqn:E; [|destruct (decide _); [done|by apply IH]].
  destruct (decide _) as [_|]; [|done]. apply andb_true_iff in E as [_ E]. apply matches_prefix in E.
  assert (0 < lenZ p) as H0 by (unfold lenZ; destruct p; [done|simpl; lia]).
  assert (lenZ p <= str_common n (cmd_name sc)) as Hs.
  { unfold lenZ. apply str_common_spec; [by apply prefix_length|]. destruct Hn as [u ->]. by rewrite take_app_length. }
  rewrite (proj2 (Z.eqb_neq k 0)) by lia. cbn [default from_option id].
  replace (if str_common n (cmd_name sc) <? k then _ else _) with (k `min` str_common n (cmd_name sc)) by (case_cmp; lia).
  rewrite IH by (done || lia). done.
Qed.

Lemma complete_ok p table : p <> [] ->
  let '(name, k, out) := complete_loop p table None 0 in
  out = map (fun c => Text (c ++ [10])) (candidates table p) /\ 0 <= k /\
  match candidates table p with
  | [] => name = None
  | n :: _ => name = Some n /\ k <= lenZ n /\ completion table p = take (Z.to_nat k) n
  end.
Proof.
  intros Hp. unfold completion. induction table as [|sc table IH]; [done|].
  unfold candidates in *. rewrite filter_cons. simpl complete_loop.
  destruct (is_cmd sc && matches p (cmd_name sc)) eqn:E; [|destruct (decide _); [done|exact IH]].
  destruct (decide _) as [_|]; [|done]. clear IH. apply andb_true_iff in E as [_ E]. apply matches_prefix in E.
  set (n := cmd_name sc) in *. cbn [Z.eqb default from_option id].
  assert (str_common n n = lenZ n) as Hnn.
  { pose proof (str_common_bounds n n). enough (lenZ n <= str_common n n) by lia. unfold lenZ at 1.
    apply str_common_spec; [done|]. by rewrite take_ge. }
  rewrite Hnn, Z.ltb_irrefl. rewrite complete_loop_ok; [|done|done|apply prefix_length in E; unfold lenZ; lia].
  cbn [map]. fold (candidates table p) n. split; [done|].
  assert (common_length n (lenZ n) (n :: candidates table p) = common_length n (lenZ n) (candidates table p)) as ->
    by (unfold common_length; cbn [foldl]; by rewrite Hnn, Z.min_id).
  assert (forall names k, 0 <= k -> 0 <= common_length n k names <= k) as Hcl.
  { intros names. unfold common_length. induction names as [|c names IH]; intros k Hk; simpl; [lia|].
    pose proof (str_common_bounds n c). specialize (IH (k `min` str_common n c) ltac:(lia)). lia. }
  specialize (Hcl (candidates table p) (lenZ n) ltac:(unfold lenZ; lia)).
  unfold candidates in *. split; [lia|]. split; [done|]. split; [lia|]. done.
Qed.

Lemma cstring_app t u : Forall (fun c => c <> 0) t -> cstring (t ++ 0 :: u) = Some t.
Proof.
  induction 1 as [|c t Hc _ IH]; [done|]. simpl. rewrite (proj2 (Z.eqb_neq _ _) Hc), IH. done.
Qed.

Lemma auto_complete_ok table p u : Forall (fun c => c <> 0) p -> p <> [] -> lenZ (completion table p) < lenZ (p ++ 0 :: u) ->
  msh_auto_complete table (p ++ 0 :: u) =
    Some (completion table p ++ drop (length (completion table p)) (p ++ 0 :: u),
      map (fun c => Text (c ++ [10])) (candidates table p)).
Proof.
  intros Hz Hp Hl. unfold msh_auto_complete. rewrite cstring_app, some_bind, bool_decide_false by done.
  pose proof (complete_ok p table Hp) as H. destruct (complete_loop p table None 0) as [[name k] out].
  destruct H as (-> & Hk & H). destruct (candidates table p) as [|n names] eqn:Hc.
  - rewrite H. unfold completion in *. rewrite Hc in *. by rewrite drop_app_length.
  - destruct H as (-> & Hkn & Ec). rewrite Ec in *. unfold lenZ in *. rewrite length_take in *.
    unfold copy_name. rewrite (proj2 (Nat.leb_le _ _)) by lia. rewrite some_bind, take_app_le by lia.
    by rewrite Nat.min_l by lia.
Qed.

Lemma common_length_le n names : forall k, common_length n k names <= k.
Proof. unfold common_length. induction names as [|c names IH]; intros k; simpl; [lia|]. etrans; [apply IH|]. lia. Qed.

Lemma candidates_prefix table p : Forall (prefix p) (candidates table p).
Proof.
  apply Forall_forall. intros c. unfold candidates. rewrite list_elem_of_In, in_map_iff. setoid_rewrite <- list_elem_of_In.
  intros (sc & <- & Hsc). apply list_elem_of_filter in Hsc as [Hsc _]. apply andb_true_iff in Hsc as [_ Hsc].
  by apply matches_prefix.
Qed.

Lemma completion_nil table p : candidates table p = [] -> completion table p = p.
Proof. unfold completion. by intros ->. Qed.

Lemma completion_longest table p n names : candidates table p = n :: names ->
  Forall (prefix (completion table p)) (candidates table p) /\
  forall t, Forall (prefix t) (candidates table p) -> t `prefix_of` completion table p.
Proof.
  intros Ec. unfold completion. rewrite Ec. set (k := common_length n (lenZ n) (n :: names)).
  assert (forall j, (j <= length n)%nat -> Z.of_nat j <= k <-> Forall (prefix (take j n)) (n :: names)) as Hk.
  { intros j Hj. unfold k. rewrite common_length_spec by done. unfold lenZ. split; [tauto|]. intros; split; [lia|done]. }
  assert (0 <= k) by (apply (Hk 0%nat); [lia|]; apply Forall_forall; intros; apply prefix_nil).
  assert (k <= lenZ n) by apply common_length_le. split.
  - apply Hk; unfold lenZ in *; lia.
  - intros t Ht. pose proof Ht as Ht2. apply Forall_cons in Ht2 as [Htn _]. pose proof (prefix_length _ _ Htn).
    destruct Htn as [v ->]. pose proof (proj2 (Hk (length t) ltac:(done))) as Hle. rewrite take_app_length in Hle.
    specialize (Hle Ht). rewrite take_app_ge by lia. by eexists.
Qed.

Lemma completion_extends table p : p `prefix_of` completion table p.
Proof.
  destruct (candidates table p) as [|n names] eqn:Ec; [by rewrite completion_nil|].
  apply (completion_longest _ _ _ _ Ec), candidates_prefix.
Qed.

Lemma completion_length table p k : (forall c, c ∈ candidates table p -> lenZ c <= k) -> lenZ p <= k -> lenZ (completion table p) <= k.
Proof.
  intros Hc Hp. destruct (candidates table p) as [|n names] eqn:Ec; [by rewrite completion_nil|].
  pose proof (Hc n ltac:(left)) as Hn. unfold completion. rewrite Ec. unfold lenZ in *. rewrite length_take. lia.
Qed.

(** Completion puts into the buffer the longest text that all commands
    beginning with the prefix begin with, and prints these commands; without
    such a command the buffer stays. *)
Lemma msh_auto_complete_spec table p u :
  Forall (fun c => c <> 0) p -> p <> [] -> Forall (fun c => lenZ c <= lenZ (p ++ u)) (candidates table p) ->
  exists t, msh_auto_complete table (p ++ 0 :: u) =
      Some (t ++ drop (length t) (p ++ 0 :: u), map (fun c => Text (c ++ [10])) (candidates table p)) /\
    p `prefix_of` t /\ (candidates table p = [] -> t = p) /\
    (candidates table p <> [] -> Forall (prefix t) (candidates table p) /\
      forall t', Forall (prefix t') (candidates table p) -> t' `prefix_of` t).
Proof.
  intros Hz Hp Hl. exists (completion table p). split; [|split; [apply completion_extends|split; [apply completion_nil|]]].
  - apply auto_complete_ok; [done|done|]. enough (lenZ (completion table p) <= lenZ (p ++ u))
      by (unfold lenZ in *; rewrite length_app in *; simpl; lia).
    apply completion_length; [by apply Forall_forall|]. unfold lenZ. rewrite length_app. lia.
  - intros Hne. destruct (candidates table p) as [|n names] eqn:Ec; [done|]. rewrite <- Ec. by apply (completion_longest _ _ n names).
Qed.

Definition demo_table : list finsh_syscall :=
  [{| sc_name := bytes "list"; sc_desc := []; sc_func := 1 |}; {| sc_name := bytes "__cmd_sw_start"; sc_desc := bytes "start"; sc_func := 2 |};
   {| sc_name := bytes "__cmd_sw_lap"; sc_desc := bytes "record a lap"; sc_func := 3 |}].

(** "s" is completed to "sw_". *)
Lemma msh_auto_complete_spec_witness : exists t,
  msh_auto_complete demo_table (bytes "s" ++ replicate 10 0) =
    Some (t ++ drop (length t) (bytes "s" ++ replicate 10 0), [Text (bytes "sw_start
"); Text (bytes "sw_lap
")]) /\
  bytes "sw_" `prefix_of` t.
Proof.
  assert (Forall (fun c => c <> 0) (bytes "s")) as Hz by (apply (bool_decide_unpack _); vm_compute; exact I).
  assert (Forall (fun c => lenZ c <= lenZ (bytes "s" ++ replicate 9 0)) (candidates demo_table (bytes "s"))) as Hl
    by (apply (bool_decide_unpack _); vm_compute; exact I).
  destruct (msh_auto_complete_spec demo_table (bytes "s") (replicate 9 0) Hz ltac:(discriminate) Hl) as (t & E & _ & _ & Hmax).
  exists t. split; [exact E|]. apply Hmax; [discriminate|]. apply (bool_decide_unpack _). vm_compute. exact I.
Defined.

(** ** Executing *)

Lemma trim_ok b : forall t m p len fuel, blanks b -> cstr m p (b ++ t) -> (length b < fuel)%nat ->
  (forall c, head t = Some c -> is_blank c = false) -> t <> [] ->
  trim fuel m p len = Some (p + lenZ b, len - lenZ b).
Proof.
  induction b as [|c b IH]; intros t m p len fuel Hb Hc Hf Ht Hne; (destruct fuel as [|fuel]; [simpl in Hf; lia|]); simpl.
  - destruct t as [|d t]; [done|]. simpl in Hc. apply cstr_cons in Hc as (-> & _). rewrite Ht by done.
    unfold lenZ. simpl. do 2 f_equal; lia.
  - apply Forall_cons in Hb as [Hcb Hb]. simpl in Hc. apply cstr_cons in Hc as (-> & _ & Hc). rewrite Hcb.
    simpl in Hf. rewrite (IH t) by (done || lia). unfold lenZ. simpl. do 2 f_equal; lia.
Qed.

Lemma first_space_ok t : forall m p fuel, cstr m p t -> (length t < fuel)%nat -> exists q, first_space fuel m p = Some q.
Proof.
  induction t as [|c t IH]; intros m p fuel Hc Hf; (destruct fuel as [|fuel]; [simpl in Hf; lia|]); simpl.
  - apply cstr_nil in Hc. rewrite Hc. by exists p.
  - apply cstr_cons in Hc as (_ & _ & Hc). simpl in Hf. destruct (_ && _); [|by eexists]. apply IH; [done|lia].
Qed.

Section ExecSpec.
Context {W : Type} (table : list finsh_syscall) (call : Z -> list Z -> mem -> W -> option (Z * mem * W)).

Lemma msh_exec_ok fuel cmd m wd b w ws tail :
  blanks tail -> line_ok tail true ((b, w) :: ws) -> lenZ ((b, w) :: ws) <= FINSH_ARG_MAX ->
  cstr m cmd (line_text ((b, w) :: ws) tail) -> lenZ (line_text ((b, w) :: ws) tail) < 2 ^ 32 ->
  (length (line_text ((b, w) :: ws) tail) < fuel)%nat ->
  match find_cmd table w with
  | Some f => exists m' argv, Forall2 (cstr m') argv (w :: map snd ws) /\
      msh_exec table call fuel cmd (lenZ (line_text ((b, w) :: ws) tail)) m wd =
        ('(r, m, wd) ← call f argv m' wd; Some (r, m, split_output argv tail, wd))
  | None => exists m',
      msh_exec table call fuel cmd (lenZ (line_text ((b, w) :: ws) tail)) m wd =
        Some (-1, m', [Fmt (bytes "%s: command not found.
") (cmd + lenZ b)], wd)
  end.
Proof.
  intros Ht Hl Hn Hc Hlen Hf. inversion Hl as [|f' b' w' ws' Hb _ Hw Hl']; subst. pose proof Hw as (Hw0 & Hwb & Hq).
  assert (line_ok tail true (([], w) :: ws)) as Hl2 by (constructor; [constructor|discriminate|done|done]).
  rewrite line_cons in *. set (t := w ++ line_text ws tail) in *.
  assert (t = line_text (([], w) :: ws) tail) as Htl by (by rewrite line_cons).
  assert (forall c, head t = Some c -> is_blank c = false) as Hhead.
  { intros c Hh. unfold t in Hh. destruct w as [|d w]; [done|]. simplify_eq/=. by apply Forall_cons in Hwb as [? _]. }
  assert (t <> []) as Htne by (unfold t; by destruct w).
  assert (lenZ (b ++ t) = lenZ b + lenZ t) as Hsplit by (unfold lenZ; rewrite length_app; lia).
  assert (0 < lenZ t) as Hpos by (unfold lenZ; destruct t; [done|simpl; lia]).
  assert (0 <= lenZ b) as Hbp by (unfold lenZ; lia). rewrite length_app in Hf.
  unfold msh_exec. rewrite (trim_ok b t) by (done || lia). rewrite some_bind, Hsplit.
  replace (lenZ b + lenZ t - lenZ b) with (lenZ t) by lia.
  rewrite wrap_id by (unfold fits; lia). rewrite (proj2 (Z.eqb_neq _ _)) by lia.
  apply cstr_app in Hc as [_ Hc]. set (p := cmd + lenZ b) in *.
  assert (Z.to_nat (lenZ t) = length t) as Hto by (unfold lenZ; lia).
  assert (skip_word (length t) m p = (p + lenZ w, length (line_text ws tail))) as Esk
    by (apply skip_word_ok; [done|done|intros d; by apply line_blank]).
  unfold _msh_exec_cmd, msh_split. rewrite Hto, Esk.
  replace (p + lenZ w - p) with (lenZ w) by lia.
  assert (lenZ w <> 0) as Hwl by (unfold lenZ; destruct w; [done|simpl; lia]).
  rewrite (proj2 (Z.eqb_neq _ _) Hwl), (get_cmd_ok table m p w (line_text ws tail) Hc).
  destruct (find_cmd table w) as [f|].
  - rewrite Htl in Hc |- *.
    destruct (split_loop_ok tail Ht _ true (S (length (line_text (([], w) :: ws) tail))) m p [] Hl2 Hc) as (m' & av & E & Hav & _);
      [unfold lenZ in *; simpl in *; lia|lia|].
    exists m', av. split; [exact Hav|]. rewrite E, some_bind. simpl ([] ++ av).
    assert (lenZ av <> 0) as Hal by (apply Forall2_length in Hav; unfold lenZ; simpl in Hav; lia).
    rewrite (proj2 (Z.eqb_neq _ _) Hal). destruct (call f av m' wd) as [[[r m2] wd2]|]; done.
  - destruct (first_space_ok t m p fuel Hc) as [q E]; [lia|]. cbn [Z.eqb RT_ERROR Z.opp]. simpl. rewrite E, some_bind. by eexists.
Qed.

(** Running a command line.  The first word is looked up among the
    exported commands; the command of exactly that name is called with the words
    of the line, in order, as strings, and its result is returned; without such a
    command the shell says so and returns -1.  Leading and trailing blanks do not matter,
    but for a complaint when they follow the tenth word. *)
Lemma msh_exec_spec fuel cmd m wd b w ws tail :
  blanks tail -> line_ok tail true ((b, w) :: ws) -> lenZ ((b, w) :: ws) <= FINSH_ARG_MAX ->
  cstr m cmd (line_text ((b, w) :: ws) tail) -> lenZ (line_text ((b, w) :: ws) tail) < 2 ^ 32 ->
  (length (line_text ((b, w) :: ws) tail) < fuel)%nat ->
  match find_cmd table w with
  | Some f => exists m' argv, Forall2 (cstr m') argv (w :: map snd ws) /\
      msh_exec table call fuel cmd (lenZ (line_text ((b, w) :: ws) tail)) m wd =
        ('(r, m, wd) ← call f argv m' wd; Some (r, m, split_output argv tail, wd))
  | None => exists m',
      msh_exec table call fuel cmd (lenZ (line_text ((b, w) :: ws) tail)) m wd =
        Some (-1, m', [Fmt (bytes "%s: command not found.
") (cmd + lenZ b)], wd)
  end.
Proof. apply msh_exec_ok. Qed.
End ExecSpec.

(** Ten words with a blank behind them are "too many". *)
Definition ten_words : list Z := bytes "a b c d e f g h i j ".

Lemma msh_split_ten_words :
  match msh_split 100 (lenZ ten_words) (load 100 ten_words (fun _ => 0)) with
  | Some (_, argv, out) => lenZ argv = 10 /\ out = too_many argv
  | None => False
  end.
Proof. vm_compute. by split. Qed.

(** " sw_lap  now " calls function 3 with two arguments; the function returns their number. *)
Lemma msh_exec_spec_witness : exists m' out wd,
  msh_exec demo_table (fun f argv m wd => Some (lenZ argv, m, f :: wd)) 20 100 13 (load 100 (bytes " sw_lap  now " ++ [0]) (fun _ => 0)) [] =
    Some (2, m', out, wd) /\ wd = [3] /\ out = [].
Proof.
  assert (Forall (fun c => c <> 0) (bytes " sw_lap  now ")) as Hnz by (apply (bool_decide_unpack _); vm_compute; exact I).
  assert (line_ok (bytes " ") true [(bytes " ", bytes "sw_lap"); (bytes "  ", bytes "now")]) as Hl.
  { assert (forall s, bool_decide (blanks s) = true -> blanks s) as Hbl by (intros s Hs; exact (bool_decide_eq_true_1 _ Hs)).
    constructor; [apply Hbl; reflexivity|discriminate| |].
    - split; [discriminate|]. split; [apply (bool_decide_unpack _); vm_compute; exact I|discriminate].
    - constructor; [apply Hbl; reflexivity|discriminate| |constructor].
      split; [discriminate|]. split; [apply (bool_decide_unpack _); vm_compute; exact I|discriminate]. }
  destruct (msh_exec_spec demo_table (fun f argv m wd => Some (lenZ argv, m, f :: wd)) 20 100 (load 100 (bytes " sw_lap  now " ++ [0]) (fun _ => 0)) []
    (bytes " ") (bytes "sw_lap") [(bytes "  ", bytes "now")] (bytes " ")) as (m' & argv & Hav & E).
  - apply (bool_decide_unpack _). vm_compute. exact I.
  - exact Hl.
  - unfold lenZ. simpl. unfold FINSH_ARG_MAX. lia.
  - exact (load_cstr 100 _ [] _ Hnz).
  - reflexivity.
  - change (length (line_text [(bytes " ", bytes "sw_lap"); (bytes "  ", bytes "now")] (bytes " "))) with 13%nat. lia.
  - apply Forall2_length in Hav. simpl in Hav. destruct argv as [|a1 [|a2 [|a3 argv]]]; try discriminate.
    eexists _, _, _. split; [exact E|]. split; reflexivity.
Defined.
