(* ===== verification/Shell.v ===== *)
(** * The line editor of the shell (components/finsh/shell.c)

    The shell thread receives one character after another; [shell_step] is the body of its
    loop.  Accesses to the line and to the history are checked: outside of the array is
    [None].  The prompt is the fixed one, because nothing calls finsh_set_prompt.  What
    the shell does is compared with an editor on two lists around the cursor. *)
From S2P Require Import Prelude Kservice Msh.

Definition FINSH_CMD_SIZE : Z := 80.
Definition FINSH_HISTORY_LINES : Z := 5.

Inductive input_stat := WAIT_NORMAL | WAIT_SPEC_KEY | WAIT_FUNC_KEY.

Record finsh_shell := {
  stat : input_stat;
  echo_mode : Z; prompt_mode : Z;                  (** one bit each *)
  current_history : Z; history_count : Z;
  cmd_history : list (list Z);
  line : list Z; line_position : Z; line_curpos : Z }.

(** rt_calloc, then finsh_set_prompt_mode(1) and the beginning of finsh_thread_entry. *)
Definition finsh_system_init : finsh_shell :=
  {| stat := WAIT_NORMAL; echo_mode := 1; prompt_mode := 1; current_history := 0; history_count := 0;
     cmd_history := replicate 5 (replicate 80 0); line := replicate 81 0; line_position := 0; line_curpos := 0 |}.

Definition finsh_set_echo (echo : Z) (s : finsh_shell) : finsh_shell := {| s with echo_mode := Z.land echo 1 |}.
Definition finsh_get_echo (s : finsh_shell) : Z := echo_mode s.
Definition finsh_set_prompt_mode (mode : Z) (s : finsh_shell) : finsh_shell := {| s with prompt_mode := Z.land mode 1 |}.
Definition finsh_get_prompt_mode (s : finsh_shell) : Z := prompt_mode s.

(** finsh_prompt_custom is null: finsh_set_prompt is never called. *)
Definition finsh_get_prompt (s : finsh_shell) : list Z := if prompt_mode s =? 0 then [] else bytes "msh >".

(** ** Arrays *)
Definition get {A} (l : list A) (i : Z) : option A := if 0 <=? i then l !! Z.to_nat i else None.
Definition put {A} (l : list A) (i : Z) (c : A) : option (list A) :=
  if (0 <=? i) && (i <? lenZ l) then Some (updZ l i c) else None.

(** rt_memmove(&l[dst], &l[src], n) *)
Definition move (l : list Z) (dst src n : Z) : option (list Z) :=
  if (0 <=? dst) && (0 <=? src) && (0 <=? n) && (dst + n <=? lenZ l) && (src + n <=? lenZ l)
  then Some (arr_move (Z.to_nat dst) (Z.to_nat src) (Z.to_nat n) l) else None.

(** The string that begins at &l[i]. *)
Definition string_at (l : list Z) (i : Z) : option (list Z) :=
  if 0 <=? i then cstring (drop (Z.to_nat i) l) else None.

Definition BS : Z := 8.

(** ** History *)
Definition shell_handle_history (s : finsh_shell) : option (list Z) :=
  t ← cstring (line s); Some ([27; 91; 50; 75; 13] ++ finsh_get_prompt s ++ t).

(** memcpy of a row of the history into the line, and its length. *)
Definition load_history (s : finsh_shell) : option (finsh_shell * list kprint) :=
  row ← get (cmd_history s) (current_history s);
  let s := {| s with line := row ++ drop (Z.to_nat FINSH_CMD_SIZE) (line s) |} in
  t ← cstring (line s);
  let s := {| s with line_curpos := u16 (lenZ t); line_position := u16 (lenZ t) |} in
  out ← shell_handle_history s;
  Some (s, [Text out]).

Definition key_up (s : finsh_shell) : option (finsh_shell * list kprint) :=
  if 0 <? current_history s then load_history {| s with current_history := current_history s - 1 |}
  else Some ({| s with current_history := 0 |}, []).

Definition key_down (s : finsh_shell) : option (finsh_shell * list kprint) :=
  if current_history s <? history_count s - 1 then load_history {| s with current_history := current_history s + 1 |}
  else if negb (history_count s =? 0) then load_history {| s with current_history := history_count s - 1 |}
  else Some (s, []).

(** memset of a row to 0, memcpy of the line into it. *)
Definition row_of_line (s : finsh_shell) : option (list Z) :=
  if line_position s <=? FINSH_CMD_SIZE
  then Some (take (Z.to_nat (line_position s)) (line s) ++ replicate (Z.to_nat (FINSH_CMD_SIZE - line_position s)) 0)
  else None.

(** memcmp(row, shell->line, FINSH_CMD_SIZE) == 0 *)
Definition same_row (row l : list Z) : bool := bool_decide (row = take (Z.to_nat FINSH_CMD_SIZE) l).

Definition move_history (h : list (list Z)) : list (list Z) :=
  fold_left (fun h index => updZ h index (nthZ [] h (index + 1))) [0; 1; 2; 3] h.

Definition shell_push_history (s : finsh_shell) : option finsh_shell :=
  s ← (if negb (line_position s =? 0) then
         if FINSH_HISTORY_LINES <=? history_count s then
           last ← get (cmd_history s) (FINSH_HISTORY_LINES - 1);
           if negb (same_row last (line s)) then
             row ← row_of_line s;
             h ← put (move_history (cmd_history s)) (FINSH_HISTORY_LINES - 1) row;
             Some {| s with cmd_history := h; history_count := FINSH_HISTORY_LINES |}
           else Some s
         else
           same ← (if history_count s =? 0 then Some false
                   else last ← get (cmd_history s) (history_count s - 1); Some (same_row last (line s)));
           if negb same then
             row ← row_of_line s;
             h ← put (cmd_history s) (history_count s) row;
             Some {| s with current_history := history_count s; cmd_history := h; history_count := u16 (history_count s + 1) |}
           else Some s
       else Some s);
  Some {| s with current_history := history_count s |}.

(** ** Keys *)
Definition key_left (s : finsh_shell) : option (finsh_shell * list kprint) :=
  if negb (line_curpos s =? 0) then Some ({| s with line_curpos := u16 (line_curpos s - 1) |}, [Text [BS]])
  else Some (s, []).

Definition key_right (s : finsh_shell) : option (finsh_shell * list kprint) :=
  if line_curpos s <? line_position s then
    c ← get (line s) (line_curpos s);
    Some ({| s with line_curpos := u16 (line_curpos s + 1) |}, [Text [c]])
  else Some (s, []).

Definition key_backspace (s : finsh_shell) : option (finsh_shell * list kprint) :=
  if line_curpos s =? 0 then Some (s, [])
  else
    let s := {| s with line_position := u16 (line_position s - 1); line_curpos := u16 (line_curpos s - 1) |} in
    if line_curpos s <? line_position s then
      l ← move (line s) (line_curpos s) (line_curpos s + 1) (line_position s - line_curpos s);
      l ← put l (line_position s) 0;
      t ← string_at l (line_curpos s);
      Some ({| s with line := l |},
            [Text ([BS] ++ t ++ bytes "  " ++ [BS] ++ replicate (Z.to_nat (line_position s - line_curpos s + 1)) BS)])
    else
      l ← put (line s) (line_position s) 0;
      Some ({| s with line := l |}, [Text ([BS] ++ bytes " " ++ [BS])]).

Definition key_char (ch : Z) (s : finsh_shell) : option (finsh_shell * list kprint) :=
  let s := if FINSH_CMD_SIZE <=? line_position s then {| s with line_position := 0 |} else s in
  '(l, out) ←
    (if line_curpos s <? line_position s then
       l ← move (line s) (line_curpos s + 1) (line_curpos s) (line_position s - line_curpos s);
       l ← put l (line_curpos s) ch;
       t ← (if echo_mode s =? 0 then Some [] else string_at l (line_curpos s));
       Some (l, t ++ replicate (Z.to_nat (line_position s - line_curpos s)) BS)
     else
       l ← put (line s) (line_position s) ch;
       Some (l, if echo_mode s =? 0 then [] else [ch]));
  let s := {| s with line := l; line_position := u16 (line_position s + 1); line_curpos := u16 (line_curpos s + 1) |} in
  let s := if FINSH_CMD_SIZE <=? line_position s then {| s with line_position := 0; line_curpos := 0 |} else s in
  Some (s, [Text out]).

Section Shell.
Context {W : Type} (table : list finsh_syscall) (call : Z -> list Z -> mem -> W -> option (Z * mem * W)).
Context (LINE : Z) (m : mem).   (** the address of the line, and the memory around it *)

Definition shell_auto_complete (s : finsh_shell) : option (list Z * list kprint) :=
  '(l, out) ← msh_auto_complete table (line s);
  t ← cstring l;
  Some (l, [Text [10]] ++ out ++ [Text (finsh_get_prompt s ++ t)]).

Definition key_tab (s : finsh_shell) : option (finsh_shell * list kprint) :=
  '(l, out) ← shell_auto_complete s;
  t ← cstring l;
  Some ({| s with line := l; line_curpos := u16 (lenZ t); line_position := u16 (lenZ t) |},
        [Text (replicate (Z.to_nat (line_curpos s)) BS)] ++ out).

(** msh_exec(shell->line, shell->line_position); the line has at most 81 characters. *)
Definition run_line (l : list Z) (length : Z) (w : W) : option (Z * mem * list kprint * W) :=
  msh_exec table call 82 LINE length (load LINE l m) w.

Definition key_enter (s : finsh_shell) (w : W) : option (finsh_shell * list kprint * W) :=
  s ← shell_push_history s;
  '(_, _, out, w) ← run_line (line s) (line_position s) w;
  Some ({| s with line := replicate 81 0; line_position := 0; line_curpos := 0 |},
        (if echo_mode s =? 0 then [] else [Text [10]]) ++ out ++ [Text (finsh_get_prompt s)], w).

Definition quiet (r : option (finsh_shell * list kprint)) (w : W) : option (finsh_shell * list kprint * W) :=
  '(s, out) ← r; Some (s, out, w).

(** A character that is no part of an escape sequence. *)
Definition shell_char (ch : Z) (s : finsh_shell) (w : W) : option (finsh_shell * list kprint * W) :=
  if (ch =? 0) || (ch =? 255) then Some (s, [], w)
  else if ch =? 9 then quiet (key_tab s) w
  else if (ch =? 127) || (ch =? 8) then quiet (key_backspace s) w
  else if (ch =? 13) || (ch =? 10) then key_enter s w
  else quiet (key_char ch s) w.

Definition shell_step (ch : Z) (s : finsh_shell) (w : W) : option (finsh_shell * list kprint * W) :=
  if ch =? 27 then Some ({| s with stat := WAIT_SPEC_KEY |}, [], w)
  else
    match stat s with
    | WAIT_SPEC_KEY =>
        if ch =? 91 then Some ({| s with stat := WAIT_FUNC_KEY |}, [], w)
        else shell_char ch {| s with stat := WAIT_NORMAL |} w
    | WAIT_FUNC_KEY =>
        let s := {| s with stat := WAIT_NORMAL |} in
        if ch =? 65 then quiet (key_up s) w
        else if ch =? 66 then quiet (key_down s) w
        else if ch =? 68 then quiet (key_left s) w
        else if ch =? 67 then quiet (key_right s) w
        else shell_char ch s w
    | WAIT_NORMAL => shell_char ch s w
    end.

Fixpoint shell_run (chs : list Z) (s : finsh_shell) (w : W) : option (finsh_shell * list kprint * W) :=
  match chs with
  | [] => Some (s, [], w)
  | ch :: chs =>
      '(s, out, w) ← shell_step ch s w;
      '(s, out', w) ← shell_run chs s w;
      Some (s, out ++ out', w)
  end.
End Shell.

(** ** The editor the shell implements *)

(** The text left of the cursor, its last character first; the text right of it;
    the lines of the history, oldest first, and the one the up and down keys are at. *)
Record editor := { lft : list Z; rgt : list Z; past : list (list Z); here : Z }.

Definition text (e : editor) : list Z := rev (lft e) ++ rgt e.

Inductive key := Up | Down | Left | Right | Tab | Backspace | Enter | Char (c : Z) | Nothing.

Definition key_of (ch : Z) : key :=
  if (ch =? 0) || (ch =? 255) then Nothing
  else if ch =? 9 then Tab
  else if (ch =? 127) || (ch =? 8) then Backspace
  else if (ch =? 13) || (ch =? 10) then Enter
  else Char ch.

(** Arrow keys are three characters. *)
Definition decode (st : input_stat) (ch : Z) : input_stat * key :=
  if ch =? 27 then (WAIT_SPEC_KEY, Nothing)
  else
    match st with
    | WAIT_SPEC_KEY => if ch =? 91 then (WAIT_FUNC_KEY, Nothing) else (WAIT_NORMAL, key_of ch)
    | WAIT_FUNC_KEY =>
        (WAIT_NORMAL,
         if ch =? 65 then Up else if ch =? 66 then Down else if ch =? 68 then Left else if ch =? 67 then Right else key_of ch)
    | WAIT_NORMAL => (WAIT_NORMAL, key_of ch)
    end.

(** A line that becomes empty is not kept, nor the last line again; five lines are kept. *)
Definition remember (t : list Z) (past : list (list Z)) : list (list Z) :=
  if bool_decide (t = []) || bool_decide (last past = Some t) then past else lastn 5 (past ++ [t]).

Definition recall (i : Z) (e : editor) : option editor :=
  h ← past e !! Z.to_nat i; Some {| e with lft := rev h; rgt := []; here := i |}.

(** [None] when the line would have 80 characters. *)
Definition edit (table : list finsh_syscall) (k : key) (e : editor) : option editor :=
  match k with
  | Nothing => Some e
  | Char c => if lenZ (text e) + 1 <? FINSH_CMD_SIZE then Some {| e with lft := c :: lft e |} else None
  | Backspace => Some match lft e with [] => e | _ :: l => {| e with lft := l |} end
  | Left => Some match lft e with [] => e | c :: l => {| e with lft := l; rgt := c :: rgt e |} end
  | Right => Some match rgt e with [] => e | c :: r => {| e with lft := c :: lft e; rgt := r |} end
  | Up => if 0 <? here e then recall (here e - 1) e else Some e
  | Down => if bool_decide (past e = []) then Some e else recall ((here e + 1) `min` (lenZ (past e) - 1)) e
  | Tab =>
      if bool_decide (text e = []) then Some e
      else
        let t := completion table (text e) in
        if lenZ t <? FINSH_CMD_SIZE then Some {| e with lft := rev t; rgt := [] |} else None
  | Enter =>
      let p := remember (text e) (past e) in
      Some {| lft := []; rgt := []; past := p; here := lenZ p |}
  end.

Definition row_of (n : nat) (t : list Z) : list Z := t ++ replicate (n - length t) 0.

Section Editor.
Context {W : Type} (table : list finsh_syscall) (call : Z -> list Z -> mem -> W -> option (Z * mem * W)).
Context (LINE : Z) (m : mem).

(** Enter runs the text as a command line. *)
Definition effect (k : key) (e : editor) (w : W) : option W :=
  match k with
  | Enter => '(_, _, _, w) ← run_line table call LINE m (row_of 81 (text e)) (lenZ (text e)) w; Some w
  | _ => Some w
  end.

Fixpoint editor_run (chs : list Z) (st : input_stat) (e : editor) (w : W) : option (input_stat * editor * W) :=
  match chs with
  | [] => Some (st, e, w)
  | ch :: chs =>
      let '(st, k) := decode st ch in
      w ← effect k e w;
      e ← edit table k e;
      editor_run chs st e w
  end.
End Editor.

(** A line of the history or of the editor: fewer than 80 characters, none of them 0. *)
Definition fits_line (t : list Z) : Prop := lenZ t < FINSH_CMD_SIZE /\ Forall (fun c => c <> 0) t.

(** The shell [s] implements the editor [e]. *)
Record implements (s : finsh_shell) (st : input_stat) (e : editor) : Prop := {
  i_stat : stat s = st;
  i_line : line s = row_of 81 (text e);
  i_position : line_position s = lenZ (text e);
  i_curpos : line_curpos s = lenZ (lft e);
  i_text : fits_line (text e);
  i_rows : exists unused, cmd_history s = map (row_of 80) (past e) ++ unused /\ length (cmd_history s) = 5%nat;
  i_past : Forall fits_line (past e);
  i_count : history_count s = lenZ (past e);
  i_here : current_history s = here e /\ 0 <= here e <= lenZ (past e) }.

(** ** Rows of text *)

Lemma length_row n t : (length t <= n)%nat -> length (row_of n t) = n.
Proof. intros. unfold row_of. rewrite length_app, length_replicate. lia. Qed.

Lemma row_split n t : (length t < n)%nat -> row_of n t = t ++ 0 :: replicate (n - length t - 1) 0.
Proof.
  intros. unfold row_of. destruct (n - length t)%nat as [|k] eqn:E; [lia|]. simpl. by rewrite Nat.sub_0_r.
Qed.

Lemma fits_length t : fits_line t -> (length t < 80)%nat.
Proof. intros [H _]. unfold lenZ, FINSH_CMD_SIZE in H. lia. Qed.

Lemma cstring_row n t : fits_line t -> (80 <= n)%nat -> cstring (row_of n t) = Some t.
Proof. intros Ht Hn. pose proof (fits_length t Ht). rewrite row_split by lia. apply cstring_app, Ht. Qed.

Lemma string_at_row n b r : fits_line (b ++ r) -> (80 <= n)%nat -> string_at (row_of n (b ++ r)) (lenZ b) = Some r.
Proof.
  intros Ht Hn. pose proof (fits_length _ Ht). unfold string_at, lenZ. rewrite (proj2 (Z.leb_le _ _)), Nat2Z.id by lia.
  rewrite row_split by lia. rewrite <- app_assoc, drop_app_length. apply cstring_app. destruct Ht as [_ Ht].
  by apply Forall_app in Ht as [_ ?].
Qed.

Lemma take_row t : (length t <= 80)%nat -> take 80 (row_of 81 t) = row_of 80 t.
Proof.
  intros H. unfold row_of. rewrite take_app_ge by lia. f_equal. rewrite take_replicate. f_equal. lia.
Qed.

Lemma row_again t u : (length t <= 80)%nat -> (length u <= 80)%nat -> row_of 80 t ++ drop 80 (row_of 81 u) = row_of 81 t.
Proof.
  intros Ht Hu. unfold row_of. rewrite drop_app_ge, drop_replicate by lia.
  rewrite <- app_assoc, <- replicate_add. do 2 f_equal. lia.
Qed.

Lemma row_inj t u : fits_line t -> fits_line u -> row_of 80 t = row_of 80 u -> t = u.
Proof.
  intros Ht Hu E. pose proof (cstring_row 80 t Ht ltac:(lia)) as Et. rewrite E, cstring_row in Et by (done || lia). by simplify_eq.
Qed.

Lemma put_ok {A} (l : list A) i c : (i < length l)%nat -> put l (Z.of_nat i) c = Some (updZ l (Z.of_nat i) c).
Proof.
  intros H. unfold put. replace (_ && _) with true; [done|]. symmetry. apply andb_true_iff. unfold lenZ.
  rewrite Z.leb_le, Z.ltb_lt. lia.
Qed.

Lemma get_ok {A} (l : list A) i : get l (Z.of_nat i) = l !! i.
Proof. unfold get. rewrite (proj2 (Z.leb_le _ _)) by lia. by rewrite Nat2Z.id. Qed.

Lemma updZ_middle {A} (b : list A) c x r : updZ (b ++ x :: r) (lenZ b) c = b ++ c :: r.
Proof. unfold updZ, lenZ. rewrite Nat2Z.id. by rewrite insert_app_r_alt, Nat.sub_diag by lia. Qed.

Lemma put_middle {A} (b : list A) c x r : put (b ++ x :: r) (lenZ b) c = Some (b ++ c :: r).
Proof. unfold lenZ at 1. rewrite put_ok by (rewrite length_app; simpl; lia). f_equal. apply updZ_middle. Qed.

Lemma put_end n t c : (length t < n)%nat -> put (row_of n t) (lenZ t) c = Some (row_of n (t ++ [c])).
Proof.
  intros H. rewrite row_split, put_middle by done. f_equal. unfold row_of. rewrite length_app, <- app_assoc. simpl.
  do 3 f_equal. lia.
Qed.

Lemma move_ok (l : list Z) dst src n : (dst + n <= length l)%nat -> (src + n <= length l)%nat ->
  move l (Z.of_nat dst) (Z.of_nat src) (Z.of_nat n) = Some (arr_move dst src n l).
Proof.
  intros H1 H2. unfold move. rewrite !Nat2Z.id. replace (_ && _) with true; [done|].
  symmetry. unfold lenZ. rewrite !andb_true_iff, !Z.leb_le. lia.
Qed.

(** Inserting in front of [r]: make room, then store. *)
Lemma insert_row n b r c : (length (b ++ r) < n)%nat ->
  (l ← move (row_of n (b ++ r)) (lenZ b + 1) (lenZ b) (lenZ r); put l (lenZ b) c) = Some (row_of n (b ++ c :: r)).
Proof.
  intros H. rewrite length_app in H. unfold lenZ at 2 3 4. replace (Z.of_nat (length b) + 1) with (Z.of_nat (length b + 1)) by lia.
  rewrite move_ok by (rewrite length_row; [|rewrite length_app]; lia). rewrite some_bind.
  assert (exists x y, r ++ replicate (n - length (b ++ r)) 0 = x :: y) as (x & y & Exy).
  { destruct r as [|x r]; [|by exists x, (r ++ replicate (n - length (b ++ x :: r)) 0)]. rewrite app_nil_r in *.
    exists 0, (replicate (n - length b - 1) 0). simpl. destruct (n - length b)%nat as [|k] eqn:E; simpl in *; [lia|by rewrite Nat.sub_0_r]. }
  assert (arr_move (length b + 1) (length b) (length r) (row_of n (b ++ r)) =
          b ++ x :: r ++ replicate (n - length (b ++ c :: r)) 0) as ->.
  { unfold arr_move, row_of. rewrite <- app_assoc, drop_app_length, Exy, take_app_ge by lia.
    rewrite <- Exy at 2. rewrite (take_app_length r). replace (length b + 1 - length b)%nat with 1%nat by lia. simpl (take 1 _).
    rewrite <- Exy. rewrite <- app_assoc. simpl. do 2 f_equal. f_equal.
    rewrite app_assoc, drop_app_ge by (rewrite length_app; lia). rewrite drop_replicate. f_equal. rewrite !length_app. simpl. lia. }
  rewrite put_middle. f_equal. unfold row_of. by rewrite <- app_assoc.
Qed.

(** Deleting in front of [r]: close the gap, then end the text. *)
Lemma delete_row n b r c : (length (b ++ c :: r) < n)%nat ->
  (l ← move (row_of n (b ++ c :: r)) (lenZ b) (lenZ b + 1) (lenZ r); put l (lenZ (b ++ r)) 0) = Some (row_of n (b ++ r)).
Proof.
  intros H. rewrite length_app in H. simpl in H. unfold lenZ at 2 3 4.
  replace (Z.of_nat (length b) + 1) with (Z.of_nat (length b + 1)) by lia.
  rewrite move_ok by (rewrite length_row; [|rewrite length_app; simpl]; lia). rewrite some_bind.
  assert (exists x, arr_move (length b) (length b + 1) (length r) (row_of n (b ++ c :: r)) =
          (b ++ r) ++ x :: replicate (n - length (b ++ r) - 1) 0) as (x & ->).
  { unfold arr_move. rewrite row_split by (rewrite length_app; simpl; lia).
    set (z := replicate _ _). rewrite <- app_assoc, take_app_length.
    destruct (exists_last (l := c :: r)) as (u & x & Eu); [done|].
    assert (length u = length r) as Hu by (apply (f_equal length) in Eu; rewrite length_app in Eu; simpl in Eu; lia).
    exists x. rewrite <- (drop_drop _ 1 (length b)), drop_app_length. simpl. rewrite drop_0, take_app_length, <- app_assoc. do 2 f_equal.
    rewrite <- (drop_drop _ (length r) (length b)), drop_app_length. change (c :: r ++ 0 :: z) with ((c :: r) ++ 0 :: z). rewrite Eu, <- app_assoc, <- Hu, drop_app_length.
    simpl. f_equal. unfold z. change (0 :: replicate ?k 0) with (replicate (S k) 0). f_equal. rewrite !length_app. simpl. lia. }
  rewrite put_middle. f_equal. by rewrite row_split by (rewrite length_app; lia).
Qed.

(** Deleting the last character. *)
Lemma delete_end n b c : (length (b ++ [c]) < n)%nat -> put (row_of n (b ++ [c])) (lenZ b) 0 = Some (row_of n b).
Proof.
  intros H. rewrite length_app in H. simpl in H. rewrite row_split by (rewrite length_app; simpl; lia).
  rewrite <- app_assoc. simpl. rewrite put_middle. f_equal. rewrite row_split by lia. do 2 f_equal.
  change (0 :: replicate ?k 0) with (replicate (S k) 0). f_equal. rewrite length_app. simpl. lia.
Qed.

(** ** Every key does what the editor does *)

Lemma text_length e : lenZ (text e) = lenZ (lft e) + lenZ (rgt e).
Proof. unfold text, lenZ. rewrite length_app, length_rev. lia. Qed.

Lemma lenZ_rev (l : list Z) : lenZ (rev l) = lenZ l.
Proof. unfold lenZ. by rewrite length_rev. Qed.

Lemma lenZ_cons {A} (x : A) l : lenZ (x :: l) = lenZ l + 1.
Proof. unfold lenZ. simpl. lia. Qed.

Lemma lenZ_nonneg {A} (l : list A) : 0 <= lenZ l.
Proof. unfold lenZ. lia. Qed.

(** The modes are not changed. *)
Definition same_modes (s s' : finsh_shell) : Prop := echo_mode s' = echo_mode s /\ prompt_mode s' = prompt_mode s.

(** What is printed for an editing key. *)
Definition echoed (s : finsh_shell) (k : key) (e e' : editor) : list kprint :=
  let redraw := [Text ([27; 91; 50; 75; 13] ++ finsh_get_prompt s ++ text e')] in
  match k with
  | Char c => [Text ((if echo_mode s =? 0 then [] else c :: rgt e) ++ replicate (length (rgt e)) BS)]
  | Backspace =>
      match lft e, rgt e with
      | [], _ => []
      | _, [] => [Text [BS; 32; BS]]
      | _, r => [Text ([BS] ++ r ++ [32; 32; BS] ++ replicate (length r + 1) BS)]
      end
  | Left => if bool_decide (lft e = []) then [] else [Text [BS]]
  | Right => match rgt e with [] => [] | c :: _ => [Text [c]] end
  | Up => if 0 <? here e then redraw else []
  | Down => if bool_decide (past e = []) then [] else redraw
  | _ => []
  end.

Definition key_sim (f : finsh_shell -> option (finsh_shell * list kprint)) (table : list finsh_syscall) (k : key) : Prop :=
  forall s st e e', implements s st e -> edit table k e = Some e' ->
    exists s', f s = Some (s', echoed s k e e') /\ implements s' st e' /\ same_modes s s'.

Section Keys.
Context (table : list finsh_syscall).

(** The fields of the shell, in terms of the editor. *)
Ltac start H :=
  let Hstat := fresh "Hstat" in
  destruct H as [Hstat Hline Hpos Hcur Htext Hrows Hpast Hcount Hhere];
  pose proof (text_length) as Hlen;
  pose proof (@lenZ_nonneg Z) as Hnn.

Lemma sim_char c : c <> 0 -> key_sim (key_char c) table (Char c).
Proof.
  intros Hc s st e e' H He. start H. simpl in He. destruct (Z.ltb_spec (lenZ (text e) + 1) FINSH_CMD_SIZE) as [Hl|]; [|done].
  injection He as <-. rewrite Hlen in Hl. rewrite Hlen in Hpos. unfold FINSH_CMD_SIZE in Hl.
  pose proof (Hnn (lft e)). pose proof (Hnn (rgt e)).
  assert (text {| lft := c :: lft e; rgt := rgt e; past := past e; here := here e |} = rev (lft e) ++ c :: rgt e) as Ht'
    by (unfold text; simpl; by rewrite <- app_assoc).
  assert (fits_line (rev (lft e) ++ c :: rgt e)) as Hfit.
  { unfold fits_line, FINSH_CMD_SIZE in *. destruct Htext as [_ Htext]. unfold text in Htext. rewrite lenZ_app, lenZ_rev, lenZ_cons.
    split; [lia|]. apply Forall_app in Htext as [? ?]. apply Forall_app. split; [done|]. by constructor. }
  pose proof (fits_length _ Htext) as Hn. unfold key_char. unfold FINSH_CMD_SIZE. rewrite Hpos, (proj2 (Z.leb_gt _ _)) by lia.
  rewrite Hpos, Hcur, Hline.
  assert ((if lenZ (lft e) <? lenZ (lft e) + lenZ (rgt e) then
       l ← move (row_of 81 (text e)) (lenZ (lft e) + 1) (lenZ (lft e)) (lenZ (lft e) + lenZ (rgt e) - lenZ (lft e));
       l ← put l (lenZ (lft e)) c;
       t ← (if echo_mode s =? 0 then Some [] else string_at l (lenZ (lft e)));
       Some (l, t ++ replicate (Z.to_nat (lenZ (lft e) + lenZ (rgt e) - lenZ (lft e))) BS)
     else l ← put (row_of 81 (text e)) (lenZ (lft e) + lenZ (rgt e)) c; Some (l, if echo_mode s =? 0 then [] else [c])) =
     Some (row_of 81 (rev (lft e) ++ c :: rgt e), (if echo_mode s =? 0 then [] else c :: rgt e) ++ replicate (length (rgt e)) BS)) as ->.
  { replace (lenZ (lft e) + lenZ (rgt e) - lenZ (lft e)) with (lenZ (rgt e)) by lia.
    destruct (Z.ltb_spec (lenZ (lft e)) (lenZ (lft e) + lenZ (rgt e))).
    - pose proof (insert_row 81 (rev (lft e)) (rgt e) c) as Hi. unfold text in Hn |- *. rewrite lenZ_rev in Hi.
      specialize (Hi ltac:(lia)). destruct (move _ _ _ _) as [l|]; [|done]. cbn [mbind option_bind] in Hi |- *.
      rewrite Hi. cbn [mbind option_bind]. replace (Z.to_nat (lenZ (rgt e))) with (length (rgt e)) by (unfold lenZ; lia).
      rewrite <- lenZ_rev. rewrite string_at_row by (done || lia). by destruct (_ =? 0).
    - assert (rgt e = []) as Hr by (destruct (rgt e); [done|rewrite lenZ_cons in *; pose proof (Hnn l); lia]).
      unfold text in *. rewrite Hr, app_nil_r in *. rewrite Z.add_0_r, <- lenZ_rev, put_end by lia. simpl. by destruct (_ =? 0). }
  cbn [mbind option_bind]. rewrite !(wrap_id 16) by (unfold fits; lia). cbn [line_position]. rewrite (proj2 (Z.leb_gt _ _)) by lia.
  eexists. split; [reflexivity|]. split; [|done]. split; simpl; try done.
  - by rewrite Ht'.
  - rewrite Ht', lenZ_app, lenZ_rev, lenZ_cons. lia.
  - by rewrite lenZ_cons.
  - by rewrite Ht'.
Qed.

Lemma sim_backspace : key_sim key_backspace table Backspace.
Proof.
  intros s st e e' H He. start H. injection He as <-. unfold key_backspace. rewrite Hcur. simpl echoed.
  destruct (lft e) as [|c l] eqn:Hl.
  { exists s. split; [done|]. split; [|done]. split; try done; by rewrite Hl. }
  pose proof (Hnn l). pose proof (Hnn (rgt e)). pose proof (fits_length _ Htext) as Hn.
  rewrite lenZ_cons, (proj2 (Z.eqb_neq _ _)) by lia. rewrite Hlen, Hl, lenZ_cons in Hpos.
  assert (text e = rev l ++ c :: rgt e) as Ht by (unfold text; rewrite Hl; simpl; by rewrite <- app_assoc).
  assert (lenZ l + lenZ (rgt e) + 1 < 80) as Hb by (destruct Htext as [Hx _]; rewrite Hlen, Hl, lenZ_cons in Hx; unfold FINSH_CMD_SIZE in Hx; lia).
  assert (fits_line (rev l ++ rgt e)) as Hfit.
  { destruct Htext as [_ Htext]. rewrite Ht in Htext. apply Forall_app in Htext as [? Hr]. apply Forall_cons in Hr as [_ ?].
    split; [rewrite lenZ_app, lenZ_rev; unfold FINSH_CMD_SIZE; lia|]. by apply Forall_app. }
  cbn [line line_position line_curpos]. rewrite Hpos, Hline, Ht.
  replace (lenZ l + 1 + lenZ (rgt e) - 1) with (lenZ l + lenZ (rgt e)) by lia.
  replace (lenZ l + 1 - 1) with (lenZ l) by lia. rewrite !(wrap_id 16) by (unfold fits; lia).
  replace (lenZ l + lenZ (rgt e) - lenZ l) with (lenZ (rgt e)) by lia.
  assert (forall l', l' = row_of 81 (rev l ++ rgt e) ->
    implements {| stat := stat s; echo_mode := echo_mode s; prompt_mode := prompt_mode s; current_history := current_history s;
      history_count := history_count s; cmd_history := cmd_history s; line := l';
      line_position := lenZ l + lenZ (rgt e); line_curpos := lenZ l |} st {| e with lft := l |}) as Himp.
  { intros l' ->. split; simpl; try done. by rewrite text_length. }
  destruct (rgt e) as [|d r] eqn:Hr.
  - rewrite Z.add_0_r, Z.ltb_irrefl, <- lenZ_rev, delete_end by (rewrite <- Ht; lia). rewrite some_bind.
    rewrite lenZ_rev. eexists. split; [reflexivity|]. split; [|done]. rewrite app_nil_r in Himp.
    rewrite Z.add_0_r in Himp. by apply Himp.
  - rewrite (proj2 (Z.ltb_lt _ _)) by (rewrite lenZ_cons in *; pose proof (Hnn r); lia).
    pose proof (delete_row 81 (rev l) (d :: r) c) as Hd. rewrite <- Ht in Hd. specialize (Hd ltac:(lia)).
    rewrite lenZ_app, lenZ_rev, Ht in Hd. destruct (move _ _ _ _) as [l1|]; [|done]. cbn [mbind option_bind] in Hd |- *.
    rewrite Hd. cbn [mbind option_bind]. assert (string_at (row_of 81 (rev l ++ d :: r)) (lenZ l) = Some (d :: r)) as ->
      by (rewrite <- lenZ_rev; apply string_at_row; [done|lia]). cbn [mbind option_bind].
    eexists. split; [|split; [by apply Himp|done]]. do 3 f_equal. unfold lenZ. f_equal. f_equal.
    replace (Z.to_nat (Z.of_nat (length (d :: r)) + 1)) with (length (d :: r) + 1)%nat by lia. done.
Qed.

Lemma sim_left : key_sim key_left table Left.
Proof.
  intros s st e e' H He. start H. injection He as <-. unfold key_left. rewrite Hcur. simpl echoed.
  destruct (lft e) as [|c l] eqn:Hl.
  { exists s. split; [done|]. split; [|done]. split; try done; by rewrite Hl. }
  pose proof (Hnn l). pose proof (Hnn (rgt e)). rewrite lenZ_cons, (proj2 (Z.eqb_neq _ _)) by lia. simpl negb.
  replace (lenZ l + 1 - 1) with (lenZ l) by lia.
  assert (lenZ l < 80) as Hb by (destruct Htext as [Hx _]; rewrite Hlen, Hl, lenZ_cons in Hx; unfold FINSH_CMD_SIZE in Hx; lia).
  rewrite (wrap_id 16) by (unfold fits; lia).
  assert (text {| lft := l; rgt := c :: rgt e; past := past e; here := here e |} = text e) as Ht
    by (unfold text; rewrite Hl; simpl; by rewrite <- app_assoc).
  eexists. split; [reflexivity|]. split; [|done]. split; simpl; try done; by rewrite Ht.
Qed.

Lemma sim_right : key_sim key_right table Right.
Proof.
  intros s st e e' H He. start H. injection He as <-. unfold key_right. rewrite Hcur, Hpos, Hlen. simpl echoed.
  destruct (rgt e) as [|c r] eqn:Hr.
  { rewrite Z.add_0_r, Z.ltb_irrefl. exists s. split; [done|]. split; [|done]. split; try done; by rewrite Hr. }
  pose proof (Hnn r). pose proof (Hnn (lft e)). rewrite (proj2 (Z.ltb_lt _ _)) by (rewrite lenZ_cons; lia).
  assert (lenZ (lft e) + lenZ r + 1 < 80) as Hb by (destruct Htext as [Hx _]; rewrite Hlen, Hr, lenZ_cons in Hx; unfold FINSH_CMD_SIZE in Hx; lia).
  rewrite (wrap_id 16) by (unfold fits; lia).
  assert (get (line s) (lenZ (lft e)) = Some c) as ->.
  { rewrite Hline, <- lenZ_rev. unfold lenZ, text. rewrite get_ok, Hr. unfold row_of. rewrite <- app_assoc.
    rewrite lookup_app_r by lia. by rewrite Nat.sub_diag. }
  cbn [mbind option_bind].
  assert (text {| lft := c :: lft e; rgt := r; past := past e; here := here e |} = text e) as Ht
    by (unfold text; rewrite Hr; simpl; by rewrite <- app_assoc).
  eexists. split; [reflexivity|]. split; [|done]. split; simpl; try done; rewrite ?Ht, ?Hlen, ?Hr; try done; by rewrite lenZ_cons.
Qed.

(** A row of the history becomes the line. *)
Lemma load_ok s st e i e' :
  implements {| s with current_history := here e |} st e -> recall i e = Some e' -> 0 <= i -> current_history s = i ->
  exists s', load_history s = Some (s', [Text ([27; 91; 50; 75; 13] ++ finsh_get_prompt s ++ text e')]) /\
    implements s' st e' /\ same_modes s s'.
Proof.
  intros H He Hi Hs. start H. simpl in *. unfold recall in He. destruct (past e !! Z.to_nat i) as [h|] eqn:Hh; [|done].
  simpl in He. injection He as <-. pose proof (Forall_lookup_1 _ _ _ _ Hpast Hh) as Hfit. pose proof (fits_length _ Hfit) as Hlh.
  pose proof (lookup_lt_Some _ _ _ Hh) as Hlt. destruct Hrows as (unused & Hrows & Hfive).
  unfold load_history. rewrite Hs. replace i with (Z.of_nat (Z.to_nat i)) by lia. rewrite get_ok, Hrows.
  rewrite lookup_app_l by (by rewrite length_map). rewrite list_lookup_fmap, Hh. cbn [fmap option_fmap option_map mbind option_bind line].
  rewrite Hline. change (Z.to_nat FINSH_CMD_SIZE) with 80%nat. pose proof (fits_length _ Htext).
  rewrite row_again by lia. rewrite cstring_row by (done || lia). cbn [mbind option_bind]. unfold shell_handle_history. cbn [line].
  rewrite cstring_row by (done || lia). cbn [mbind option_bind].
  assert (forall p a, text {| lft := rev h; rgt := []; past := p; here := a |} = h) as Ht
    by (intros; unfold text; simpl; by rewrite rev_involutive, app_nil_r).
  rewrite Ht. rewrite (wrap_id 16) by (unfold fits, lenZ; lia). eexists. split; [reflexivity|]. split; [|done].
  split; simpl; try done; rewrite ?Ht, ?lenZ_rev; try done.
  - exists unused. split; [done|]. by rewrite <- Hrows.
  - split; [lia|]. unfold lenZ. lia.
Qed.

Lemma sim_up : key_sim key_up table Up.
Proof.
  intros s st e e' H He. pose proof (i_here _ _ _ H) as [Hh Hb]. simpl in He. unfold key_up. rewrite Hh. simpl echoed.
  destruct (Z.ltb_spec 0 (here e)) as [Hlt|Hge].
  - apply (load_ok {| s with current_history := here e - 1 |} st e (here e - 1)); try done; [|lia].
    destruct H. by split.
  - injection He as <-. eexists. split; [reflexivity|]. split; [|done]. destruct H. split; simpl; try done. lia.
Qed.

Lemma sim_down : key_sim key_down table Down.
Proof.
  intros s st e e' H He. pose proof (i_here _ _ _ H) as [Hh Hb]. pose proof (i_count _ _ _ H) as Hc. simpl in He.
  unfold key_down. rewrite Hh, Hc. simpl echoed. destruct (past e) as [|h p] eqn:Hp.
  - rewrite bool_decide_true in * by done. simplify_eq. change (lenZ (@nil (list Z))) with 0 in *.
    rewrite (proj2 (Z.ltb_ge _ _)) by lia. by exists s.
  - rewrite bool_decide_false in * by done. rewrite lenZ_cons in *. pose proof (lenZ_nonneg p).
    assert (forall i c, i = (here e + 1) `min` (lenZ p + 1 - 1) -> c = history_count s -> exists s',
      load_history {| s with current_history := i; history_count := c |} =
        Some (s', [Text ([27; 91; 50; 75; 13] ++ finsh_get_prompt s ++ text e')]) /\
      implements s' st e' /\ same_modes s s') as Hload.
    { intros i c Hi ->. apply (load_ok {| s with current_history := i |} st e i);
        [destruct H as [? ? ? ? ? ? ? ? [_ ?]]; by split|by rewrite Hi|lia|done]. }
    destruct (Z.ltb_spec (here e) (lenZ p + 1 - 1)); [apply Hload; lia|].
    rewrite (proj2 (Z.eqb_neq _ _)) by lia. simpl negb. apply Hload; lia.
Qed.
End Keys.

(** ** The history *)

Lemma row_of_line_ok s st e : implements s st e -> row_of_line s = Some (row_of 80 (text e)).
Proof.
  intros H. pose proof (fits_length _ (i_text _ _ _ H)). unfold row_of_line, FINSH_CMD_SIZE.
  rewrite (i_position _ _ _ H), (i_line _ _ _ H). unfold lenZ. rewrite (proj2 (Z.leb_le _ _)) by lia.
  unfold row_of. rewrite Nat2Z.id, take_app_length. do 3 f_equal. lia.
Qed.

Lemma same_row_ok t u : fits_line t -> fits_line u -> same_row (row_of 80 t) (row_of 81 u) = bool_decide (t = u).
Proof.
  intros Ht Hu. unfold same_row. change (Z.to_nat FINSH_CMD_SIZE) with 80%nat. pose proof (fits_length _ Hu).
  rewrite take_row by lia. apply bool_decide_ext. split; [by apply row_inj|by intros ->].
Qed.

Lemma last_bool t u (p : list (list Z)) : last (p ++ [u]) = Some t <-> u = t.
Proof. rewrite last_snoc. split; [by intros [= ->]|by intros ->]. Qed.

(** The rows after a line was pushed. *)
Definition rows_ok (s : finsh_shell) (past : list (list Z)) : Prop :=
  (exists unused, cmd_history s = map (row_of 80) past ++ unused /\ length (cmd_history s) = 5%nat) /\
  history_count s = lenZ past /\ Forall fits_line past.

Definition only_history (s s' : finsh_shell) : Prop :=
  stat s' = stat s /\ same_modes s s' /\ line s' = line s /\ line_position s' = line_position s.

Lemma implements_rows s st e : implements s st e -> rows_ok s (past e).
Proof. intros H. split; [apply H|]. split; apply H. Qed.

Lemma rows_bound s p : rows_ok s p -> (length p <= 5)%nat.
Proof. intros [(u & E & H5) _]. rewrite E, length_app, length_map in H5. lia. Qed.

(** The history is full: the oldest line goes. *)
Lemma push_full s st e : implements s st e -> length (past e) = 5%nat ->
  exists a b c d x, past e = [a; b; c; d; x] /\ cmd_history s = map (row_of 80) (past e).
Proof.
  intros H H5. destruct (i_rows _ _ _ H) as (u & E & Hl). destruct (past e) as [|a [|b [|c [|d [|x [|y p]]]]]]; try done.
  exists a, b, c, d, x. split; [done|]. rewrite E in *. rewrite length_app, length_map in Hl. simpl in Hl.
  destruct u; [by rewrite app_nil_r|simpl in Hl; lia].
Qed.

(** The last line of the history is compared with the line. *)
Lemma same_last_ok t p rest : fits_line t -> Forall fits_line p ->
  (if lenZ p =? 0 then Some false
   else last ← get (map (row_of 80) p ++ rest) (lenZ p - 1); Some (same_row last (row_of 81 t))) =
  Some (bool_decide (last p = Some t)).
Proof.
  intros Hfit Hp. destruct p as [|y q _] using rev_ind; [done|]. rewrite lenZ_app. change (lenZ [y]) with 1. pose proof (lenZ_nonneg q).
  rewrite (proj2 (Z.eqb_neq _ _)) by lia. replace (lenZ q + 1 - 1) with (lenZ q) by lia. unfold lenZ. rewrite get_ok.
  rewrite map_app, <- app_assoc, lookup_app_r by (by rewrite length_map). rewrite length_map, Nat.sub_diag.
  cbn [map app lookup list_lookup mbind option_bind].
  rewrite same_row_ok; [|by apply Forall_app in Hp as [_ Hp]; inversion_clear Hp|done]. f_equal. apply bool_decide_ext. by rewrite last_bool.
Qed.

Lemma push_ok s st e : implements s st e ->
  exists s', shell_push_history s = Some s' /\ only_history s s' /\
    rows_ok s' (remember (text e) (past e)) /\ current_history s' = history_count s'.
Proof.
  intros H. pose proof (implements_rows _ _ _ H) as Hr. pose proof (rows_bound _ _ Hr) as H5. pose proof (i_text _ _ _ H) as Hfit.
  pose proof (i_count _ _ _ H) as Hc. pose proof (i_past _ _ _ H) as Hp.
  pose proof (i_line _ _ _ H) as Hline. pose proof (i_position _ _ _ H) as Hpos.
  unfold shell_push_history, remember. rewrite (i_position _ _ _ H), (row_of_line_ok _ _ _ H), (i_line _ _ _ H).
  assert (forall s', s' = s -> exists s1, (Some {| s' with current_history := history_count s' |}) = Some s1 /\ only_history s s1 /\
    rows_ok s1 (past e) /\ current_history s1 = history_count s1) as Hskip.
  { intros s' ->. eexists. split; [done|]. split; [done|]. by split. }
  destruct (text e) as [|t0 t] eqn:Ht.
  { cbn [lenZ length Z.of_nat Z.eqb negb mbind option_bind]. rewrite bool_decide_true by done. by apply Hskip. }
  rewrite <- Ht in *. rewrite (proj2 (Z.eqb_neq _ _)) by (rewrite Ht, lenZ_cons; pose proof (lenZ_nonneg t); lia).
  rewrite (bool_decide_false (text e = [])) by (by rewrite Ht). cbn [negb orb]. unfold FINSH_HISTORY_LINES. rewrite Hc.
  destruct (Z.leb_spec 5 (lenZ (past e))) as [Hfull|Hfree].
  - destruct (push_full _ _ _ H ltac:(unfold lenZ in Hfull; lia)) as (a & b & c & d & x & Ep & Erows). rewrite Erows, Ep in *.
    change (get (map (row_of 80) [a; b; c; d; x]) (5 - 1)) with (Some (row_of 80 x)). cbn [mbind option_bind].
    assert (fits_line x) as Hx by (by inversion_clear Hp as [|? ? _ Hp1]; inversion_clear Hp1 as [|? ? _ Hp2];
      inversion_clear Hp2 as [|? ? _ Hp3]; inversion_clear Hp3 as [|? ? _ Hp4]; inversion_clear Hp4).
    rewrite same_row_ok by done. change (last [a; b; c; d; x]) with (Some x).
    rewrite (bool_decide_ext (Some x = Some (text e)) (x = text e)) by (split; [by intros [= ->]|by intros ->]).
    destruct (bool_decide (x = text e)); cbn [negb]; [by apply Hskip|].
    change (put (move_history (map (row_of 80) [a; b; c; d; x])) (5 - 1) (row_of 80 (text e)))
      with (Some (map (row_of 80) [b; c; d; x; text e])). cbn [mbind option_bind].
    eexists. split; [reflexivity|]. split; [by split_and!|]. split; [|done].
    change (lastn 5 ([a; b; c; d; x] ++ [text e])) with [b; c; d; x; text e].
    split; [exists []; by rewrite app_nil_r|]. split; [done|]. apply Forall_cons in Hp as [_ Hp].
    apply (Forall_app_2 _ [b; c; d; x]); [done|by constructor].
  - destruct Hr as ((u & Erows & Hlen) & _ & _). rewrite Erows, length_app, length_map in Hlen.
    destruct u as [|u0 u]; [simpl in Hlen; unfold lenZ in Hfree; lia|]. rewrite Erows.
    rewrite same_last_ok by done.
    cbn [mbind option_bind]. destruct (bool_decide (last (past e) = _)); cbn [negb]; [by apply Hskip|].
    pose proof (put_middle (map (row_of 80) (past e)) (row_of 80 (text e)) u0 u) as Hput.
    unfold lenZ in Hput at 1. rewrite length_map in Hput. fold (lenZ (past e)) in Hput. rewrite Hput. cbn [mbind option_bind].
    pose proof (lenZ_nonneg (past e)). rewrite (wrap_id 16) by (unfold fits; lia).
    eexists. split; [reflexivity|]. split; [by split_and!|]. split; [|done].
    rewrite lastn_all by (rewrite length_app; simpl; unfold lenZ in Hfree; lia).
    split; [exists u; simpl; rewrite map_app, <- app_assoc; split; [done|]; rewrite length_app, length_map; simpl in *; lia|].
    split; [simpl; by rewrite lenZ_app|]. apply Forall_app. split; [done|by constructor].
Qed.

(** ** Every character *)

Section Refinement.
Context {W : Type} (table : list finsh_syscall) (call : Z -> list Z -> mem -> W -> option (Z * mem * W)) (LINE : Z) (m : mem).
Context (Hnames : Forall (fun sc => Forall (fun c => c <> 0) (sc_name sc)) table).   (** names are C strings *)

Lemma completion_fits t : fits_line t -> lenZ (completion table t) < FINSH_CMD_SIZE -> fits_line (completion table t).
Proof.
  intros Ht Hl. split; [done|]. unfold completion. destruct (candidates table t) as [|n names] eqn:Ec; [apply Ht|].
  apply Forall_take. assert (n ∈ candidates table t) as Hn by (rewrite Ec; left). unfold candidates in Hn.
  apply list_elem_of_In, in_map_iff in Hn as (sc & <- & Hsc). apply list_elem_of_In, list_elem_of_filter in Hsc as [_ Hsc].
  unfold cmd_name. apply Forall_drop. by apply (proj1 (Forall_forall _ _) Hnames).
Qed.

Lemma sim_tab s st e e' : implements s st e -> edit table Tab e = Some e' ->
  exists s' out, key_tab table s = Some (s', out) /\ implements s' st e' /\ same_modes s s'.
Proof.
  intros H He. simpl in He. pose proof (i_text _ _ _ H) as Hfit. pose proof (fits_length _ Hfit).
  assert (exists l out, msh_auto_complete table (line s) = Some (l, out) /\ l = row_of 81 (text e') /\
      fits_line (text e') /\ past e' = past e /\ here e' = here e /\ lft e' = rev (text e')) as (l & out & E & -> & Hfit' & Hp & Hh & Hlf).
  { rewrite (i_line _ _ _ H). case_bool_decide as Ht.
    - injection He as <-. unfold msh_auto_complete. rewrite cstring_row by (done || lia). cbn [mbind option_bind].
      rewrite bool_decide_true by done. rewrite Ht. eexists _, _. split; [done|]. split; [done|]. split; [by rewrite <- Ht|].
      split; [done|]. split; [done|]. apply app_nil in Ht as [Ht _]. apply (f_equal (@rev Z)) in Ht. by rewrite rev_involutive in Ht.
    - destruct (Z.ltb_spec (lenZ (completion table (text e))) FINSH_CMD_SIZE) as [Hl|]; [|done]. injection He as <-.
      pose proof (completion_extends table (text e)) as Hpre. pose proof (completion_fits _ Hfit Hl) as Hfit'.
      set (t := completion table (text e)) in *. pose proof (fits_length _ Hfit').
      assert (text {| lft := rev t; rgt := []; past := past e; here := here e |} = t) as ->
        by (unfold text; simpl; by rewrite rev_involutive, app_nil_r).
      rewrite row_split by lia. rewrite auto_complete_ok; [|apply Hfit|done|].
      + eexists _, _. split; [reflexivity|]. fold t. split; [|done]. rewrite <- row_split by lia. unfold row_of. f_equal. apply prefix_length in Hpre.
        rewrite drop_app_ge, drop_replicate by lia. f_equal. lia.
      + fold t. unfold lenZ. rewrite length_app. simpl. rewrite length_replicate. lia. }
  unfold key_tab, shell_auto_complete. rewrite E. cbn [mbind option_bind]. rewrite !cstring_row by (done || lia).
  cbn [mbind option_bind]. rewrite cstring_row by (done || lia). cbn [mbind option_bind]. pose proof (fits_length _ Hfit').
  rewrite (wrap_id 16) by (unfold fits, lenZ; lia). eexists _, _. split; [reflexivity|]. split; [|done].
  destruct H. split; simpl; try done; rewrite ?Hp, ?Hh, ?Hlf, ?lenZ_rev; done.
Qed.

Lemma sim_enter s st e w : implements s st e ->
  exists s', (forall e', edit table Enter e = Some e' -> implements s' st e') /\ same_modes s s' /\
    key_enter table call LINE m s w =
      '(_, _, out, w) ← run_line table call LINE m (row_of 81 (text e)) (lenZ (text e)) w;
      Some (s', (if echo_mode s =? 0 then [] else [Text [10]]) ++ out ++ [Text (finsh_get_prompt s)], w).
Proof.
  intros H. destruct (push_ok s st e H) as (s1 & E & (Hst & (Hm1 & Hm2) & Hl & Hp) & ((u & Hrows & H5) & Hc & Hpast) & Hcur).
  exists {| s1 with line := replicate 81 0; line_position := 0; line_curpos := 0 |}. split; [|split; [done|]].
  - intros e' [= <-]. destruct H. split; simpl; try done.
    + by rewrite Hst.
    + by eexists.
    + rewrite Hcur, Hc. pose proof (lenZ_nonneg (remember (text e) (past e))). by split.
  - unfold key_enter. rewrite E. cbn [mbind option_bind]. rewrite Hl, Hp, (i_line _ _ _ H), (i_position _ _ _ H).
    unfold finsh_get_prompt. by rewrite Hm1, <- Hm2.
Qed.

(** One character: it becomes a key, which does what it does in the editor. *)
Lemma step_ok ch s st e w e' w' : implements s st e ->
  edit table (snd (decode st ch)) e = Some e' -> effect table call LINE m (snd (decode st ch)) e w = Some w' ->
  exists s' out, shell_step table call LINE m ch s w = Some (s', out, w') /\ implements s' (fst (decode st ch)) e' /\ same_modes s s' /\
    (snd (decode st ch) <> Tab -> snd (decode st ch) <> Enter -> out = echoed s (snd (decode st ch)) e e').
Proof.
  intros H He Hw.
  assert (forall st', implements {| s with stat := st' |} st' e) as Hst by (intros; destruct H; by split).
  assert (forall k f s1 st', (forall k', k = k' -> key_sim f table k') -> k <> Enter -> k <> Tab -> implements s1 st' e -> same_modes s s1 ->
    edit table k e = Some e' -> effect table call LINE m k e w = Some w' ->
    exists s' out, quiet (f s1) w = Some (s', out, w') /\ implements s' st' e' /\ same_modes s s' /\
      (k <> Tab -> k <> Enter -> out = echoed s k e e')) as Hquiet.
  { intros k f s1 st' Hsim Hne Hnt H1 [Hm1 Hm2] Hek Hwk. destruct (Hsim k eq_refl s1 st' e e' H1 Hek) as (s' & Ef & Hi & Hm3 & Hm4).
    exists s', (echoed s1 k e e'). rewrite Ef. assert (w' = w) as -> by (destruct k; simpl in Hwk; congruence).
    split; [done|]. split; [done|]. split; [split; congruence|]. intros _ _. unfold echoed, finsh_get_prompt. by rewrite Hm1, Hm2. }
  assert (forall s1 st', implements s1 st' e -> same_modes s s1 -> edit table (key_of ch) e = Some e' ->
    effect table call LINE m (key_of ch) e w = Some w' ->
    exists s' out, shell_char table call LINE m ch s1 w = Some (s', out, w') /\ implements s' st' e' /\ same_modes s s' /\
      (key_of ch <> Tab -> key_of ch <> Enter -> out = echoed s (key_of ch) e e')) as Hchar.
  { intros s1 st' H1 Hm. unfold key_of, shell_char. destruct ((ch =? 0) || (ch =? 255)) eqn:E0.
    { intros [= <-] [= <-]. eexists _, _. by split_and!. }
    destruct (ch =? 9).
    { intros Hek [= <-]. destruct (sim_tab s1 st' e e' H1 Hek) as (s' & out & Ef & Hi & Hm').
      exists s', out. rewrite Ef. split; [done|]. split; [done|]. destruct Hm, Hm'. split; [split; congruence|]. done. }
    destruct ((ch =? 127) || (ch =? 8)).
    { apply (Hquiet Backspace); [intros k' <-; apply sim_backspace|done..]. }
    destruct ((ch =? 13) || (ch =? 10)).
    { intros Hek Hwk. destruct (sim_enter s1 st' e w H1) as (s' & Hi & Hm' & ->). simpl in Hwk.
      destruct (run_line _ _ _ _ _ _ w) as [[[[r m'] out] w1]|]; [|done]. simpl in Hwk. injection Hwk as <-.
      eexists _, _. split; [reflexivity|]. split; [by apply Hi|]. destruct Hm, Hm'. split; [split; congruence|]. done. }
    apply (Hquiet (Char ch)); [intros k' <-; apply sim_char; intros ->; done|done..]. }
  unfold shell_step, decode in *. destruct (ch =? 27).
  { simpl in *. simplify_eq. eexists _, _. split; [done|]. by split. }
  rewrite (i_stat _ _ _ H). destruct st; simpl in He, Hw |- *.
  - by apply Hchar.
  - destruct (ch =? 91); [|by apply Hchar]. simpl in *. simplify_eq. eexists _, _. split; [done|]. by split.
  - destruct (ch =? 65); [apply (Hquiet Up); [intros k' <-; apply sim_up|done..]|].
    destruct (ch =? 66); [apply (Hquiet Down); [intros k' <-; apply sim_down|done..]|].
    destruct (ch =? 68); [apply (Hquiet Left); [intros k' <-; apply sim_left|done..]|].
    destruct (ch =? 67); [apply (Hquiet Right); [intros k' <-; apply sim_right|done..]|].
    by apply Hchar.
Qed.

Lemma shell_run_ok chs : forall s st e w st' e' w', implements s st e ->
  editor_run table call LINE m chs st e w = Some (st', e', w') ->
  exists s' out, shell_run table call LINE m chs s w = Some (s', out, w') /\ implements s' st' e' /\ same_modes s s'.
Proof.
  induction chs as [|ch chs IH]; intros s st e w st' e' w' H E; simpl in E.
  { simplify_eq. by exists s, []. }
  destruct (decode st ch) as [st1 k] eqn:Ed. destruct (effect _ _ _ _ k e w) as [w1|] eqn:Ew; [|done]. simpl in E.
  destruct (edit table k e) as [e1|] eqn:Ee; [|done]. simpl in E.
  destruct (step_ok ch s st e w e1 w1 H) as (s1 & out & Es & H1 & Hm & _); [by rewrite Ed|by rewrite Ed|].
  rewrite Ed in H1. simpl in H1. destruct (IH s1 st1 e1 w1 st' e' w' H1 E) as (s' & out' & Er & H' & Hm').
  exists s', (out ++ out'). simpl. rewrite Es. simpl. rewrite Er. split; [done|]. split; [done|]. destruct Hm, Hm'. split; congruence.
Qed.
End Refinement.

(** ** The terminal *)

(** The row of the cursor, its column, and the rest of the escape sequence being received
    (the shell sends only ESC [ 2 K, which erases the row). *)
Record terminal := { cells : list Z; column : nat; pending : list Z }.

Definition term_char (t : terminal) (c : Z) : terminal :=
  match pending t with
  | [_] => {| cells := []; column := column t; pending := [] |}
  | _ :: p => {| t with pending := p |}
  | [] =>
      if c =? 27 then {| t with pending := [91; 50; 75] |}
      else if c =? 8 then {| t with column := pred (column t) |}
      else if c =? 13 then {| t with column := 0%nat |}
      else if c =? 10 then {| cells := []; column := 0%nat; pending := [] |}
      else {| t with cells := take (column t) (cells t ++ replicate (column t) 32) ++ c :: drop (S (column t)) (cells t);
                     column := S (column t) |}
  end.

Definition term_run (t : terminal) (cs : list Z) : terminal := fold_left term_char cs t.

(** The texts among what is printed. *)
Definition sent (out : list kprint) : list Z := concat (map (fun k => match k with Text cs => cs | _ => [] end) out).

Definition printable (c : Z) : Prop := 32 <= c <= 126.

(** The row is the prompt, the text and blanks, the cursor is where the editor's is. *)
Definition displays (t : terminal) (s : finsh_shell) (e : editor) : Prop :=
  (exists n, cells t = finsh_get_prompt s ++ text e ++ replicate n 32) /\
  column t = (length (finsh_get_prompt s) + length (lft e))%nat /\ pending t = [].

Lemma term_cons t c cs : term_run t (c :: cs) = term_run (term_char t c) cs.
Proof. done. Qed.

Lemma term_text cs : forall t, Forall printable cs -> pending t = [] -> (column t <= length (cells t))%nat ->
  term_run t cs = {| cells := take (column t) (cells t) ++ cs ++ drop (column t + length cs) (cells t);
                     column := column t + length cs; pending := [] |}.
Proof.
  induction cs as [|c cs IH]; intros [row col p] Hcs; cbn [pending column cells length]; intros -> Hcol.
  - rewrite Nat.add_0_r. simpl. by rewrite take_drop.
  - apply Forall_cons in Hcs as [Hc Hcs]. unfold printable in Hc. rewrite term_cons. unfold term_char. cbn [pending cells column].
    repeat (rewrite (proj2 (Z.eqb_neq c _)) by lia). rewrite take_app_le by lia.
    assert (length (take col row) = col) as Hl by (rewrite length_take; lia).
    rewrite IH; simpl; [|done|done|rewrite length_app, Hl; simpl; rewrite length_drop; lia].
    f_equal; [|lia].
    assert (take col row ++ c :: drop (S col) row = (take col row ++ [c]) ++ drop (S col) row) as -> by (by rewrite <- app_assoc).
    assert (length (take col row ++ [c]) = S col) as Hl1 by (rewrite length_app, Hl; simpl; lia).
    rewrite take_app_le, take_ge by lia. rewrite drop_app_ge, drop_drop, Hl1 by lia.
    rewrite <- app_assoc. simpl. do 4 f_equal. lia.
Qed.

Lemma term_back n : forall t, pending t = [] -> term_run t (replicate n BS) = {| t with column := (column t - n)%nat |}.
Proof.
  induction n as [|n IH]; intros [row col p]; cbn [pending column cells replicate]; intros ->.
  - by rewrite Nat.sub_0_r.
  - rewrite term_cons, IH by done. simpl. f_equal. lia.
Qed.

Lemma term_app t cs ds : term_run t (cs ++ ds) = term_run (term_run t cs) ds.
Proof. apply fold_left_app. Qed.

Lemma prompt_printable s : Forall printable (finsh_get_prompt s).
Proof.
  unfold finsh_get_prompt, printable. destruct (_ =? 0); [constructor|]. apply (bool_decide_unpack _). vm_compute. exact I.
Qed.

(** Erasing the row and printing the prompt and another line. *)
Lemma term_redraw t s h : pending t = [] -> Forall printable h ->
  term_run t ([27; 91; 50; 75; 13] ++ finsh_get_prompt s ++ h) =
    {| cells := finsh_get_prompt s ++ h; column := length (finsh_get_prompt s ++ h); pending := [] |}.
Proof.
  intros Hp Hh. rewrite term_app. destruct t as [row col p]. simpl in Hp. subst p.
  change (term_run {| cells := row; column := col; pending := [] |} [27; 91; 50; 75; 13])
    with {| cells := []; column := 0; pending := [] |}.
  rewrite term_text; [|apply Forall_app; split; [apply prompt_printable|done]|done|simpl; lia]. simpl. by rewrite drop_nil, app_nil_r.
Qed.

Definition editing (k : key) : Prop :=
  match k with Tab | Enter => False | Char c => printable c | _ => True end.

Definition all_printable (e : editor) : Prop := Forall printable (text e) /\ Forall (Forall printable) (past e).

Lemma edit_printable table k e e' : editing k -> all_printable e -> edit table k e = Some e' -> all_printable e'.
Proof.
  unfold all_printable, text. intros Hk [Ht Hp] He. rewrite Forall_app in *.
  assert (forall i e1, recall i e = Some e1 -> (Forall printable (rev (lft e1)) /\ Forall printable (rgt e1)) /\ Forall (Forall printable) (past e1)) as Hrec.
  { intros i e1 E. unfold recall in E. destruct (past e !! _) as [h|] eqn:Eh; [|done]. simpl in E. injection E as <-. simpl.
    rewrite rev_involutive. split; [|done]. split; [by apply (Forall_lookup_1 _ _ _ _ Hp Eh)|constructor]. }
  pose proof (List.Forall_nil printable). destruct k; simpl in Hk, He; try done.
  - destruct (0 <? here e); [by eapply Hrec|by simplify_eq].
  - case_bool_decide; [by simplify_eq|by eapply Hrec].
  - injection He as <-. destruct e as [[|c l] r p i]; simpl in *; rewrite ?Forall_app, ?Forall_cons in *; tauto.
  - injection He as <-. destruct e as [l [|c r] p i]; simpl in *; rewrite ?Forall_app, ?Forall_cons in *; tauto.
  - injection He as <-. destruct e as [[|c l] r p i]; simpl in *; rewrite ?Forall_app, ?Forall_cons in *; tauto.
  - destruct (_ <? _); [|done]. injection He as <-. simpl. rewrite Forall_app. split; [|done]. split; [|tauto]. split; [tauto|]. by constructor.
  - injection He as <-. tauto.
Qed.

(** The terminal for a cursor between [l] and [r]. *)
Lemma displays_cells t s l r p i : displays t s {| lft := l; rgt := r; past := p; here := i |} ->
  exists n, cells t = (finsh_get_prompt s ++ rev l) ++ r ++ replicate n 32 /\
    column t = length (finsh_get_prompt s ++ rev l) /\ pending t = [].
Proof.
  intros ((n & Hc) & Hcol & Hp). exists n. unfold text in Hc. simpl in *. rewrite length_app, length_rev.
  split; [|by split]. by rewrite Hc, <- !app_assoc.
Qed.

Lemma cells_display t s l r p i n : cells t = (finsh_get_prompt s ++ rev l) ++ r ++ replicate n 32 ->
  column t = length (finsh_get_prompt s ++ rev l) -> pending t = [] ->
  displays t s {| lft := l; rgt := r; past := p; here := i |}.
Proof.
  intros Hc Hcol Hp. rewrite length_app, length_rev in Hcol. split; [|by split]. exists n. unfold text. simpl. by rewrite Hc, <- !app_assoc.
Qed.

Lemma term_left t s c l r p i : displays t s {| lft := c :: l; rgt := r; past := p; here := i |} ->
  displays (term_run t [BS]) s {| lft := l; rgt := c :: r; past := p; here := i |}.
Proof.
  intros (n & Hc & Hcol & Hp)%displays_cells. change [BS] with (replicate 1 BS). rewrite term_back by done.
  apply (cells_display _ _ _ _ _ _ n); simpl; [|rewrite Hcol, !length_app; simpl; rewrite length_app; simpl; lia|done].
  rewrite Hc. simpl. by rewrite <- !app_assoc.
Qed.

(** Printing [u] over the cells behind the cursor. *)
Lemma term_over t b v u k : cells t = b ++ v -> column t = length b -> pending t = [] -> Forall printable u ->
  term_run t (u ++ replicate k BS) =
    {| cells := b ++ u ++ drop (length u) v; column := length b + length u - k; pending := [] |}.
Proof.
  intros Hc Hcol Hp Hu. rewrite term_app, (term_text u t) by (done || (rewrite Hc, length_app; lia)).
  rewrite term_back by done. simpl. rewrite Hcol, Hc, take_app_length, drop_app_ge by lia. do 4 f_equal. lia.
Qed.

Lemma term_right t s c l r p i : printable c -> displays t s {| lft := l; rgt := c :: r; past := p; here := i |} ->
  displays (term_run t [c]) s {| lft := c :: l; rgt := r; past := p; here := i |}.
Proof.
  intros Hpr (n & Hc & Hcol & Hp)%displays_cells. change [c] with ([c] ++ replicate 0 BS).
  erewrite term_over; [|done|done|done|by constructor].
  apply (cells_display _ _ _ _ _ _ n); simpl; [by rewrite <- !app_assoc| |done]. rewrite !length_app. simpl. lia.
Qed.

(** Inserting: the rest of the line is printed again. *)
Lemma term_insert t s c l r p i : Forall printable (c :: r) -> displays t s {| lft := l; rgt := r; past := p; here := i |} ->
  displays (term_run t ((c :: r) ++ replicate (length r) BS)) s {| lft := c :: l; rgt := r; past := p; here := i |}.
Proof.
  intros Hpr (n & Hc & Hcol & Hp)%displays_cells. erewrite term_over; [|done|done|done|done].
  apply (cells_display _ _ _ _ _ _ (n - 1)); simpl; [| |done].
  - rewrite drop_app_ge, drop_replicate by lia. replace (n - (S (length r) - length r))%nat with (n - 1)%nat by lia. by rewrite <- !app_assoc.
  - rewrite !length_app. simpl. lia.
Qed.

(** Deleting: the rest of the line and two blanks are printed. *)
Lemma term_delete t s c l r p i : Forall printable r -> displays t s {| lft := c :: l; rgt := r; past := p; here := i |} ->
  displays (term_run t (replicate 1 BS ++ (r ++ [32; 32]) ++ replicate (length r + 2) BS)) s
    {| lft := l; rgt := r; past := p; here := i |}.
Proof.
  intros Hpr (n & Hc & Hcol & Hp)%displays_cells. rewrite term_app, term_back by done.
  assert (length (finsh_get_prompt s ++ rev (c :: l)) = S (length (finsh_get_prompt s ++ rev l))) as Hl
    by (rewrite !length_app; simpl; rewrite length_app; simpl; lia).
  rewrite (term_over _ (finsh_get_prompt s ++ rev l) (c :: r ++ replicate n 32)); simpl;
    [|rewrite Hc; simpl; by rewrite <- !app_assoc|lia|done|apply Forall_app; split; [done|by repeat constructor]].
  apply (cells_display _ _ _ _ _ _ (2 + (n - 1))); simpl; [|rewrite (length_app r); simpl; lia|done].
  rewrite (length_app r). simpl. replace (length r + 2)%nat with (S (length r + 1)) by lia. simpl.
  rewrite drop_app_ge, drop_replicate by lia. replace (n - (length r + 1 - length r))%nat with (n - 1)%nat by lia.
  by rewrite <- !app_assoc.
Qed.

(** Deleting the last character. *)
Lemma term_delete_end t s c l p i : displays t s {| lft := c :: l; rgt := []; past := p; here := i |} ->
  displays (term_run t [BS; 32; BS]) s {| lft := l; rgt := []; past := p; here := i |}.
Proof.
  intros (n & Hc & Hcol & Hp)%displays_cells. change [BS; 32; BS] with (replicate 1 BS ++ [32] ++ replicate 1 BS).
  rewrite term_app, term_back by done.
  assert (length (finsh_get_prompt s ++ rev (c :: l)) = S (length (finsh_get_prompt s ++ rev l))) as Hl
    by (rewrite !length_app; simpl; rewrite length_app; simpl; lia).
  rewrite (term_over _ (finsh_get_prompt s ++ rev l) (c :: replicate n 32)); simpl;
    [|rewrite Hc; simpl; by rewrite <- !app_assoc|lia|done|by repeat constructor].
  apply (cells_display _ _ _ _ _ _ (S n)); simpl; [done|lia|done].
Qed.

(** Every editing key keeps the terminal as the editor is. *)
Lemma echoed_ok s k e e' table t : editing k -> all_printable e -> edit table k e = Some e' -> echo_mode s <> 0 ->
  displays t s e -> displays (term_run t (sent (echoed s k e e'))) s e'.
Proof.
  intros Hk Hpr He Hecho Hd. pose proof (edit_printable _ _ _ _ Hk Hpr He) as [Hpr' _]. destruct Hpr as [Hpr _].
  assert (forall i, recall i e = Some e' ->
    displays (term_run t (sent [Text ([27; 91; 50; 75; 13] ++ finsh_get_prompt s ++ text e')])) s e') as Hrecall.
  { intros i Hi. unfold sent. cbn [map concat]. rewrite app_nil_r. rewrite term_redraw by (done || apply Hd).
    unfold recall in Hi. destruct (past e !! _) as [h|]; [|done]. injection Hi as <-.
    apply (cells_display _ _ _ _ _ _ 0); simpl; unfold text; simpl; by rewrite ?rev_involutive, ?app_nil_r. }
  destruct e as [l r p i]. unfold text in Hpr. simpl in He, Hpr, Hk. apply Forall_app in Hpr as [_ Hpr].
  destruct k; cbn [edit lft rgt past here] in He; simpl in Hk; simpl echoed; try done.
  - destruct (0 <? i); [by apply (Hrecall (i - 1))|]. by injection He as <-.
  - case_bool_decide; [by injection He as <-|by apply (Hrecall ((i + 1) `min` (lenZ p - 1)))].
  - injection He as <-. destruct l as [|c l]; [done|]. by apply term_left.
  - injection He as <-. destruct r as [|c r]; [done|]. apply term_right; [|done]. by apply Forall_cons in Hpr as [? _].
  - injection He as <-. destruct l as [|c l]; [done|]. destruct r as [|d r]; [by apply (term_delete_end _ _ c)|].
    pose proof (term_delete _ _ c l (d :: r) p i Hpr Hd) as H. unfold sent. cbn [map concat]. rewrite app_nil_r.
    revert H. rewrite <- app_assoc. cbn [length]. replace (S (length r) + 2)%nat with (S (S (length r) + 1)) by lia. done.
  - destruct (_ <? _); [|done]. injection He as <-. rewrite (proj2 (Z.eqb_neq _ _) Hecho). unfold sent. cbn [map concat].
    rewrite app_nil_r. apply term_insert; [by constructor|done].
  - by injection He as <-.
Qed.

(** ** Results *)

Definition empty : editor := {| lft := []; rgt := []; past := []; here := 0 |}.

Lemma init_implements : implements finsh_system_init WAIT_NORMAL empty.
Proof.
  split; try done. by exists (replicate 5 (replicate 80 0)).
Qed.

Definition names_ok (table : list finsh_syscall) : Prop :=
  Forall (fun sc => Forall (fun c => c <> 0) (sc_name sc)) table.

(** C27: whatever characters arrive, the shell does what the editor does, in which
    a line is two lists around a cursor: typing, deleting, moving, completing,
    recalling lines, and running the line as a command.  No access is outside of the line
    or the history, as long as no line gets 80 characters. *)
Theorem shell_refines_editor {W} table call LINE m chs s st e (w : W) st' e' w' :
  names_ok table -> implements s st e -> editor_run table call LINE m chs st e w = Some (st', e', w') ->
  exists s' out, shell_run table call LINE m chs s w = Some (s', out, w') /\ implements s' st' e'.
Proof.
  intros Hn H E. destruct (shell_run_ok table call LINE m Hn chs s st e w st' e' w' H E) as (s' & out & Er & H' & _). by exists s', out.
Qed.

(** Two commands: the second is "b", deleted and typed again, then the first one is recalled. *)
Definition two_commands : list Z := bytes "ac
bx" ++ [127; 13; 27; 91; 65; 27; 91; 65; 27; 91; 68; 100].

Definition log_call (f : Z) (argv : list Z) (m : mem) (w : list Z) : option (Z * mem * list Z) := Some (0, m, w ++ [f]).
Definition ab_table : list finsh_syscall :=
  [{| sc_name := bytes "__cmd_ac"; sc_desc := []; sc_func := 1 |}; {| sc_name := bytes "__cmd_b"; sc_desc := []; sc_func := 2 |}].

Lemma shell_refines_editor_witness : exists s' out,
  shell_run ab_table log_call 500 (fun _ => 0) two_commands finsh_system_init [] = Some (s', out, [1; 2]) /\
  implements s' WAIT_NORMAL {| lft := bytes "da"; rgt := bytes "c"; past := [bytes "ac"; bytes "b"]; here := 0 |}.
Proof.
  apply (shell_refines_editor ab_table log_call 500 (fun _ => 0) two_commands finsh_system_init WAIT_NORMAL empty []).
  - apply (bool_decide_unpack _). vm_compute. exact I.
  - exact init_implements.
  - vm_compute. reflexivity.
Defined.

(** For every editing key (all but completion and the end of the line), what the shell
    prints leaves on the terminal the prompt, the line and blanks, with the cursor
    where the editor's cursor is. *)
Lemma terminal_shows_line {W} table call LINE m ch s st e e' (w : W) t :
  names_ok table -> implements s st e -> all_printable e -> echo_mode s <> 0 ->
  editing (snd (decode st ch)) -> edit table (snd (decode st ch)) e = Some e' -> displays t s e ->
  exists s' out, shell_step table call LINE m ch s w = Some (s', out, w) /\ implements s' (fst (decode st ch)) e' /\
    displays (term_run t (sent out)) s' e'.
Proof.
  intros Hn H Hpr Hecho Hk He Hd.
  destruct (step_ok table call LINE m Hn ch s st e w e' w H He) as (s' & out & Es & Hi & (_ & Hmode) & Hout);
    [by destruct (snd (decode st ch))|].
  rewrite Hout in Es by (intros Hx; by rewrite Hx in Hk). exists s', (echoed s (snd (decode st ch)) e e'). split; [done|]. split; [done|].
  pose proof (echoed_ok s _ e e' table t Hk Hpr He Hecho Hd) as Hd'. unfold displays, finsh_get_prompt in *. by rewrite Hmode.
Qed.

(** Deleting the x of "axb" with the cursor behind it. *)
Definition axb : editor := {| lft := bytes "xa"; rgt := bytes "b"; past := []; here := 0 |}.
Definition axb_shell : finsh_shell :=
  {| finsh_system_init with line := row_of 81 (bytes "axb"); line_position := 3; line_curpos := 2 |}.
Definition axb_terminal : terminal := {| cells := bytes "msh >axb"; column := 7; pending := [] |}.

Lemma terminal_shows_line_witness : exists s' out,
  shell_step [] log_call 500 (fun _ => 0) 127 axb_shell [] = Some (s', out, []) /\
  implements s' WAIT_NORMAL {| axb with lft := bytes "a" |} /\
  displays (term_run axb_terminal (sent out)) s' {| axb with lft := bytes "a" |}.
Proof.
  apply (terminal_shows_line [] log_call 500 (fun _ => 0) 127 axb_shell WAIT_NORMAL axb).
  - constructor.
  - split; try done; [|by exists (replicate 5 (replicate 80 0))].
    split; [done|]. apply (bool_decide_unpack _). vm_compute. exact I.
  - split; [apply (bool_decide_unpack _); vm_compute; exact I|constructor].
  - discriminate.
  - exact I.
  - reflexivity.
  - split; [by exists 0%nat|]. done.
Defined.

(** ** Typing a command *)

Lemma printable_char c : printable c -> decode WAIT_NORMAL c = (WAIT_NORMAL, Char c).
Proof.
  unfold printable. intros Hc. unfold decode, key_of. repeat (rewrite (proj2 (Z.eqb_neq c _)) by lia). done.
Qed.

Lemma type_run {W} table call LINE m chs2 cs : forall e (w : W), Forall printable cs -> lenZ (text e) + lenZ cs < FINSH_CMD_SIZE ->
  editor_run table call LINE m (cs ++ chs2) WAIT_NORMAL e w =
  editor_run table call LINE m chs2 WAIT_NORMAL {| e with lft := rev cs ++ lft e |} w.
Proof.
  induction cs as [|c cs IH]; intros e w Hp Hl; [by destruct e|]. apply Forall_cons in Hp as [Hc Hp]. rewrite lenZ_cons in Hl.
  pose proof (lenZ_nonneg cs). simpl. rewrite printable_char by done. cbn [effect edit mbind option_bind].
  rewrite (proj2 (Z.ltb_lt _ _)) by lia. cbn [mbind option_bind]. rewrite IH; [by simpl; rewrite <- app_assoc|done|].
  rewrite text_length in *. cbn [lft rgt]. rewrite lenZ_cons. lia.
Qed.

(** C28: typing the words of a command and the enter key at an empty line runs the
    function of that command with these words, and the shell is at an empty line
    again, with the line in its history. *)
Theorem typed_command_runs {W} table call LINE m s p i b cw ws tail f (w w1 : W) :
  names_ok table -> implements s WAIT_NORMAL {| lft := []; rgt := []; past := p; here := i |} ->
  blanks tail -> line_ok tail true ((b, cw) :: ws) -> lenZ ((b, cw) :: ws) <= FINSH_ARG_MAX ->
  Forall printable (line_text ((b, cw) :: ws) tail) -> lenZ (line_text ((b, cw) :: ws) tail) < FINSH_CMD_SIZE ->
  find_cmd table cw = Some f ->
  (forall argv m', Forall2 (cstr m') argv (cw :: map snd ws) -> exists r m'', call f argv m' w = Some (r, m'', w1)) ->
  exists s' out, shell_run table call LINE m (line_text ((b, cw) :: ws) tail ++ [13]) s w = Some (s', out, w1) /\
    implements s' WAIT_NORMAL {| lft := []; rgt := []; past := remember (line_text ((b, cw) :: ws) tail) p;
                                 here := lenZ (remember (line_text ((b, cw) :: ws) tail) p) |}.
Proof.
  intros Hn H Htail Hok Harg Hpr Hlen Hf Hcall. set (t := line_text ((b, cw) :: ws) tail) in *.
  assert (Forall (fun c => c <> 0) t) as Hz by (eapply Forall_impl; [exact Hpr|]; unfold printable; intros; lia).
  assert ((length t < 80)%nat) as Hl by (unfold lenZ, FINSH_CMD_SIZE in Hlen; lia).
  pose proof (msh_exec_ok table call 82 LINE (load LINE (row_of 81 t) m) w b cw ws tail Htail Hok Harg) as Hex. fold t in Hex.
  specialize (Hex ltac:(rewrite row_split by lia; by apply load_cstr) ltac:(unfold FINSH_CMD_SIZE in Hlen; lia) ltac:(lia)).
  rewrite Hf in Hex. destruct Hex as (m' & argv & Hargv & Hex). destruct (Hcall argv m' Hargv) as (r & m'' & Hr).
  rewrite Hr in Hex. cbn [mbind option_bind] in Hex.
  destruct (shell_run_ok table call LINE m Hn (t ++ [13]) s WAIT_NORMAL _ w WAIT_NORMAL
    {| lft := []; rgt := []; past := remember t p; here := lenZ (remember t p) |} w1 H) as (s' & out & Er & H' & _).
  - rewrite type_run by (done || (unfold text; simpl; change (lenZ (@nil Z)) with 0; lia)). simpl. unfold run_line.
    assert (text {| lft := rev t ++ []; rgt := []; past := p; here := i |} = t) as ->
      by (unfold text; simpl; by rewrite !app_nil_r, rev_involutive).
    rewrite Hex. done.
  - by exists s', out.
Qed.

Lemma typed_command_runs_witness : exists s' out,
  shell_run demo_table log_call 500 (fun _ => 0) (bytes " sw_lap  now " ++ [13]) finsh_system_init [] = Some (s', out, [3]) /\
  implements s' WAIT_NORMAL {| lft := []; rgt := []; past := [bytes " sw_lap  now "]; here := 1 |}.
Proof.
  assert (forall s, bool_decide (blanks s) = true -> blanks s) as Hbl by (intros s Hs; exact (bool_decide_eq_true_1 _ Hs)).
  apply (typed_command_runs demo_table log_call 500 (fun _ => 0) finsh_system_init [] 0
    (bytes " ") (bytes "sw_lap") [(bytes "  ", bytes "now")] (bytes " ") 3).
  - apply (bool_decide_unpack _). vm_compute. exact I.
  - exact init_implements.
  - apply Hbl. reflexivity.
  - constructor; [apply Hbl; reflexivity|discriminate| |].
    + split; [discriminate|]. split; [apply (bool_decide_unpack _); vm_compute; exact I|discriminate].
    + constructor; [apply Hbl; reflexivity|discriminate| |constructor].
      split; [discriminate|]. split; [apply (bool_decide_unpack _); vm_compute; exact I|discriminate].
  - unfold lenZ. simpl. unfold FINSH_ARG_MAX. lia.
  - apply (bool_decide_unpack _). vm_compute. exact I.
  - reflexivity.
  - reflexivity.
  - intros argv m' _. by eexists _, _.
Defined.

(** ** A line of 80 characters

    It is discarded, but its characters stay in the buffer. *)
Definition long_line : list Z := replicate 80 120.

(** The next command is given what is left of it: the second word of "a b" begins "bx". *)
Lemma full_line_is_reused :
  match shell_run [{| sc_name := bytes "__cmd_a"; sc_desc := []; sc_func := 1 |}]
    (fun _ argv m w => Some (0, m, w ++ [m (nthZ 0 argv 1); m (nthZ 0 argv 1 + 1)]))
    500 (fun _ => 0) (long_line ++ bytes "a b
") finsh_system_init [] with
  | Some (_, _, w) => w = bytes "bx"
  | None => False
  end.
Proof. vm_compute. reflexivity. Qed.

(** Completing it, then typing a character and deleting twice, writes outside of the line. *)
Lemma full_line_overflows :
  match shell_run [] log_call 500 (fun _ => 0) (long_line ++ [9; 120; 8]) finsh_system_init [] with
  | Some (s, _, _) => line_curpos s = 80 /\ line_position s = 0 /\ shell_step [] log_call 500 (fun _ => 0) 8 s [] = None
  | None => False
  end.
Proof. vm_compute. by split_and!. Qed.

(** Modes are one bit: prompt mode 2 is no prompt, echo mode 3 is echo. *)
Lemma modes_one_bit s : finsh_get_prompt_mode (finsh_set_prompt_mode 2 s) = 0 /\ finsh_get_echo (finsh_set_echo 3 s) = 1.
Proof. done. Qed.
