(* ===== verification/Console.v ===== *)
(** * The console (kservice.c, finsh/shell.c)

    The device all output goes to and the shell's device, on serial drivers: the
    console functions of kservice.c, how the shell chooses its device, and how its
    thread waits for a character that comes in an interrupt.  The theorems
    compose the serial driver, the semaphore and the scheduler: input always
    wakes the shell, and what is printed arrives at the UART. *)
From S2P Require Import Prelude Kservice Kprintf Msh Shell Ring Mem Kernel Sched Timer Ipc Semaphore Completion Device Serial.

(** The registered devices with their serial drivers, the static variable of
    kservice.c, and what the shell keeps: its editor, device and semaphore. *)
Record console (U : Type) := {
  devs : devices;
  drivers : gmap Z (rt_serial_device U);
  _console_device : option Z;
  shell : finsh_shell;
  shell_device : option Z;
  rx_sem : rt_semaphore
}.
Arguments devs {U}. Arguments drivers {U}. Arguments _console_device {U}.
Arguments shell {U}. Arguments shell_device {U}. Arguments rx_sem {U}.

Section Console.
Context {U : Type} `{!Uart U} (finsh_rx_ind_at rx_sem_at : Z).
Implicit Types c : console U.

(** [f] on the device at [o] and its driver. *)
Definition on_device {R : Type} (o : Z)
  (f : rt_device -> rt_serial_device U -> kernel -> option (R * rt_device * rt_serial_device U * kernel))
  (c : console U) (k : kernel) : option (R * console U * kernel) :=
  d ← devs c !! o;
  s ← drivers c !! o;
  '(r, d, s, k) ← f d s k;
  Some (r, {| c with devs := <[o := d]> (devs c); drivers := <[o := s]> (drivers c) |}, k).

Definition modify_device (o : Z) (f : rt_device -> rt_device) (c : console U) : option (console U) :=
  d ← devs c !! o; Some {| c with devs := <[o := f d]> (devs c) |}.

(** ** kservice.c *)
Definition rt_console_get_device (c : console U) : option Z := _console_device c.

Definition rt_console_set_device (nm : list Z) (c : console U) (k : kernel) : option (option Z * console U * kernel) :=
  let old_device := _console_device c in
  '(new_device, k) ← rt_device_find nm (devs c) k;
  if bool_decide (new_device = old_device) then Some (None, c, k)
  else
    match new_device with
    | None => Some (old_device, c, k)
    | Some new =>
        '(c, k) ← match old_device with
          | Some old => '(_, c, k) ← on_device old (rt_device_close serial_ops) c k; Some (c, k)
          | None => Some (c, k)
          end;
        '(_, c, k) ← on_device new (rt_device_open serial_ops (Z.lor RT_DEVICE_OFLAG_RDWR RT_DEVICE_FLAG_STREAM)) c k;
        Some (old_device, {| c with _console_device := Some new |}, k)
    end.

(** What rt_kputs and rt_kprintf do with the bytes: in stream mode for the time
    of the write.  Without a device they go to rt_hw_console_output, which is
    empty.  The flags of a thread that has to wait are restored when it goes on. *)
Definition console_write (buf : list Z) (c : console U) (k : kernel) : option (transfer * console U * kernel) :=
  match _console_device c with
  | None => Some (Moved 0, c, k)
  | Some o =>
      d ← devs c !! o;
      let old_flag := open_flag d in
      c ← modify_device o (fun d => set_open_flag (Z.lor (open_flag d) RT_DEVICE_FLAG_STREAM) d) c;
      '(r, c, k) ← on_device o (rt_device_write serial_ops 0 buf) c k;
      match r with
      | Moved n => c ← modify_device o (set_open_flag old_flag) c; Some (Moved n, c, k)
      | Stopped rest => Some (Stopped rest, c, k)
      end
  end.

(** [str] is a C string, or null. *)
Definition rt_kputs (str : option (list Z)) (c : console U) (k : kernel) : option (transfer * console U * kernel) :=
  match str with None => Some (Moved 0, c, k) | Some t => console_write t c k end.

Definition kprintf_console (rt_log_buf : Z) (fmt : list Z) (args : list arg) (m : mem) (c : console U) (k : kernel)
  : option (transfer * mem * console U * kernel) :=
  '(text, m) ← rt_kprintf rt_log_buf fmt args m;
  '(r, c, k) ← console_write text c k;
  Some (r, m, c, k).

(** ** The shell's device *)
Definition clear_line (s : finsh_shell) : finsh_shell :=
  {| s with Shell.line := replicate 81 0; line_curpos := 0; line_position := 0 |}.

Definition set_rx_indicate (o : Z) (f : option Z) (c : console U) : option (console U) :=
  d ← devs c !! o; '(_, d) ← rt_device_set_rx_indicate f d; Some {| c with devs := <[o := d]> (devs c) |}.

(** The message names a device of less than 200 characters. *)
Definition finsh_set_device (nm : list Z) (c : console U) (k : kernel) : option (console U * kernel) :=
  '(dev, k) ← rt_device_find nm (devs c) k;
  match dev with
  | None =>
      '(_, c, k) ← console_write (bytes "finsh: can not find device: " ++ nm ++ [10]) c k; Some (c, k)
  | Some dev =>
      if bool_decide (shell_device c = Some dev) then Some (c, k)
      else
        '(e, c, k) ← on_device dev (rt_device_open serial_ops
          (Z.lor (Z.lor RT_DEVICE_OFLAG_RDWR RT_DEVICE_FLAG_INT_RX) RT_DEVICE_FLAG_STREAM)) c k;
        if e =? RT_EOK then
          '(c, k) ← match shell_device c with
            | Some old =>
                '(_, c, k) ← on_device old (rt_device_close serial_ops) c k;
                c ← set_rx_indicate old None c;
                Some (c, k)
            | None => Some (c, k)
            end;
          let c := {| c with shell := clear_line (shell c); shell_device := Some dev |} in
          c ← set_rx_indicate dev (Some finsh_rx_ind_at) c;
          Some (c, k)
        else Some (c, k)
  end.

Definition finsh_get_device (c : console U) : option (list Z) :=
  o ← shell_device c; d ← devs c !! o; Some (name (dev_parent d)).

(** finsh_system_init after the thread was created, and the beginning of
    finsh_thread_entry. *)
Definition finsh_rx_init (c : console U) (k : kernel) : option (console U * kernel) :=
  '(_, s, k) ← rt_sem_init rx_sem_at (rx_sem c) (bytes "shrx") 0 0 k;
  Some ({| c with rx_sem := s |}, k).

Definition finsh_thread_start (c : console U) (k : kernel) : option (console U * kernel) :=
  match shell_device c with
  | Some _ => Some (c, k)
  | None =>
      match rt_console_get_device c with
      | None => Some (c, k)
      | Some o => d ← devs c !! o; finsh_set_device (upto_nul (name (dev_parent d))) c k
      end
  end.

Definition finsh_rx_ind (c : console U) (k : kernel) : option (Z * console U * kernel) :=
  '(_, s, k) ← rt_sem_release rx_sem_at (rx_sem c) k;
  Some (RT_EOK, {| c with rx_sem := s |}, k).

(** The loop of finsh_getchar: a read of one character, and, while there is
    none, rt_sem_take; [RT_WAITING_FOREVER] and both results are as there. *)
Definition getchar_read (c : console U) (k : kernel) : option (list Z * console U * kernel) :=
  o ← shell_device c; on_device o (rt_device_read serial_ops (-1) 1) c k.

Definition getchar_take (c : console U) (k : kernel) : option (outcome * console U * kernel) :=
  '(r, s, k) ← rt_sem_take rx_sem_at (rx_sem c) RT_WAITING_FOREVER k;
  Some (r, {| c with rx_sem := s |}, k).

(** The interrupt of the UART of the device at [o], after [cs] came over its
    line (drv_usart.c): a call of rx_indicate is that of finsh_rx_ind. *)
Definition uart_irq (o : Z) (fuel : nat) (c : console U) (k : kernel) : option (console U * kernel) :=
  let k := rt_interrupt_enter k in
  '(call, c, k) ← on_device o (fun d s k =>
      '(call, s, k) ← rt_hw_serial_isr fuel RT_SERIAL_EVENT_RX_IND d s k; Some (call, d, s, k)) c k;
  '(c, k) ← match call with
    | None => Some (c, k)
    | Some (g, _) =>
        _ ← assert (g =? finsh_rx_ind_at);
        '(_, c, k) ← finsh_rx_ind c k; Some (c, k)
    end;
  Some (c, rt_interrupt_leave k).
End Console.

(** ** The console is ready

    Output and input are the serial device at [o], open for interrupt reception
    and polled sending, and its interrupt calls finsh_rx_ind. *)
Section Ready.
Context {U : Type} `{!Uart U} `{!UartLaws U} (finsh_rx_ind_at rx_sem_at : Z).
Implicit Types c : console U.

Record console_ok (o : Z) (c : console U) (d : rt_device) (s : rt_serial_device U) : Prop := {
  cn_shell : shell_device c = Some o;
  cn_console : _console_device c = Some o;
  cn_device : devs c !! o = Some d;
  cn_driver : drivers c !! o = Some s;
  cn_receiving : receiving d s;
  cn_indicate : rx_indicate d = Some finsh_rx_ind_at;
  cn_polled : has_flag (open_flag d) RT_DEVICE_FLAG_INT_TX = false
}.

(** The same console with another driver state. *)
Definition with_driver (o : Z) (d : rt_device) (s : rt_serial_device U) (c : console U) : console U :=
  {| c with devs := <[o := d]> (devs c); drivers := <[o := s]> (drivers c) |}.

Lemma on_device_eq {R} o f c k d s : devs c !! o = Some d -> drivers c !! o = Some s ->
  on_device (R := R) o f c k = ('(r, d, s, k) ← f d s k; Some (r, with_driver o d s c, k)).
Proof. intros Hd Hs. unfold on_device. by rewrite Hd, some_bind, Hs, some_bind. Qed.

Lemma modify_device_eq o f c d : devs c !! o = Some d ->
  modify_device o f c = Some {| c with devs := <[o := f d]> (devs c) |}.
Proof. intros Hd. unfold modify_device. by rewrite Hd, some_bind. Qed.

Lemma with_driver_ok o c d s d' s' : console_ok o c d s -> receiving d' s' -> rx_indicate d' = rx_indicate d ->
  has_flag (open_flag d') RT_DEVICE_FLAG_INT_TX = false -> console_ok o (with_driver o d' s' c) d' s'.
Proof.
  intros [H1 H2 H3 H4 H5 H6 H7] Hr Hi Hp. split; try done; [apply lookup_insert_eq|apply lookup_insert_eq|congruence].
Qed.

(** ** Output *)

Lemma console_write_ok o c d s buf k : never_refuses -> console_ok o c d s -> exists s',
  console_write buf c k = Some (Moved (lenZ buf), with_driver o d s' c, k) /\
  sent (hw s') = sent (hw s) ++ map (wrap 8) (crlf buf) /\ receiving d s' /\ queue s' = queue s.
Proof.
  intros Hn [H1 H2 H3 H4 Hr H6 H7]. unfold console_write. rewrite H2, H3, some_bind. cbv zeta.
  rewrite (modify_device_eq _ _ _ d H3), some_bind.
  set (d1 := set_open_flag _ d). rewrite (on_device_eq _ _ _ _ d1 s) by (apply lookup_insert_eq || done).
  assert (set_open_flag (open_flag d) d1 = d) as Hd1 by (by destruct d).
  assert (<[o := d]> (<[o := d1]> (<[o := d1]> (devs c))) = <[o := d]> (devs c)) as Hm by (by rewrite !insert_insert_eq).
  assert (receiving d1 s) as Hr1.
  { destruct Hr as [R1 R2 R3 R4 R5 R6]. split; try done. simpl. by rewrite has_flag_lor_ne. }
  destruct (device_write_ok 0 buf d1 s k Hn Hr1) as (s' & -> & Hr' & Hq & _ & Hs & _); [simpl; by rewrite has_flag_lor_ne|].
  assert (stream_mode d1 = true) as Est by (unfold stream_mode; by apply has_flag_set). rewrite Est in Hs.
  rewrite !some_bind, (modify_device_eq _ _ _ d1) by apply lookup_insert_eq. rewrite some_bind, Hd1.
  exists s'. unfold with_driver. simpl. rewrite Hm. split; [done|]. split; [done|]. split; [|done].
  destruct Hr as [R1 R2 R3 _ _ _], Hr' as [_ _ _ R4 R5 R6]. by split.
Qed.

(** ** Input *)

(** Interrupt nesting is of no concern to threads and lists. *)
Lemma nest_kernel k n : kernel_ok k -> timing_ok k ->
  kernel_ok {| k with interrupt_nest := n |} /\ timing_ok {| k with interrupt_nest := n |}.
Proof.
  intros [[Hi Hc Ho] Hst Hex] Htk. split; [|exact Htk]. split; [|exact Hst|exact Hex]. split; [|exact Hc|exact Ho].
  by apply (inv_same _ k).
Qed.

(** The shell reads with [s] after [n] characters. *)
Lemma getchar_read_ok o c d s k : console_ok o c d s -> exists s',
  getchar_read c k = Some (take 1 (queue s), with_driver o d s' c, k) /\
  console_ok o (with_driver o d s' c) d s' /\ queue s' = drop 1 (queue s).
Proof.
  intros Hc. pose proof Hc as [H1 _ H3 H4 H5 _ H7]. unfold getchar_read. rewrite H1, some_bind.
  rewrite (on_device_eq _ _ _ _ d s) by done.
  destruct (device_read_ok (-1) 1 d s k H5 ltac:(done)) as (s' & -> & Hr & Hq & _). rewrite some_bind.
  exists s'. split; [done|]. split; [by apply (with_driver_ok o c d s)|done].
Qed.

Definition rx_waiters (k : kernel) : list Z := queues k (QSuspend rx_sem_at).

Definition line_arrives (o : Z) (cs : list Z) (c : console U) : console U :=
  {| c with drivers := alter (fun s => {| s with hw := arrive cs (hw s) |}) o (drivers c) |}.

(** What finsh_rx_ind does: the first waiting thread runs, or a permit is there. *)
Definition rx_signalled (c : console U) (k k' : kernel) : Prop :=
  match rx_waiters k with
  | [] => 0 < value (rx_sem c) /\ rx_waiters k' = []
  | w :: l => runs k' w /\ rx_waiters k' = l
  end.

Lemma finsh_rx_ind_ok c k cur : sem_ok rx_sem_at (rx_sem c) k -> kernel_ok k -> timing_ok k -> current_thread k = Some cur ->
  exists sem k', finsh_rx_ind rx_sem_at c k = Some (RT_EOK, {| c with rx_sem := sem |}, k') /\
    sem_ok rx_sem_at sem k' /\ kernel_ok k' /\ timing_ok k' /\ rx_signalled {| c with rx_sem := sem |} k k'.
Proof.
  intros Hs Hk Htk Hcu. unfold finsh_rx_ind, rx_signalled, rx_waiters. destruct (queues k (QSuspend rx_sem_at)) as [|w l] eqn:Hq.
  - rewrite (sem_release_free _ _ _ Hs Hq). pose proof (so_value _ _ _ Hs) as Hv. unfold RT_SEM_VALUE_MAX in *. case_cmp.
    + eexists _, k. rewrite some_bind. split; [done|]. split; [|simpl; split_and!; try done; lia].
      apply sem_set_value; [done|unfold RT_SEM_VALUE_MAX; lia|done].
    + eexists _, k. rewrite some_bind. split; [by destruct c|]. split; [done|]. simpl. split_and!; try done; lia.
  - destruct (sem_hand_over _ _ _ cur w l Hs Hk Htk Hcu Hq) as (k' & -> & Hw & Hs' & _). eexists _, k'. rewrite some_bind.
    split; [done|]. split; [done|]. split; [apply Hw|]. split; [apply Hw|]. split; [apply Hw|apply Hw].
Qed.

(** The interrupt: everything that came is in the FIFO, and if that is
    anything the semaphore is signalled. *)
Lemma uart_irq_ok o c d s k cs cur : console_ok o c d s -> sem_ok rx_sem_at (rx_sem c) k -> kernel_ok k -> timing_ok k ->
  current_thread k = Some cur -> Forall (fits 8) cs ->
  exists c' s' k', uart_irq finsh_rx_ind_at rx_sem_at o (S (length cs)) (line_arrives o cs c) k = Some (c', k') /\
    console_ok o c' d s' /\ queue s' = keep (capacity s) (queue s ++ take depth cs) /\
    sem_ok rx_sem_at (rx_sem c') k' /\ kernel_ok k' /\ timing_ok k' /\
    match queue s' with [] => rx_sem c' = rx_sem c /\ rx_waiters k' = rx_waiters k | _ => rx_signalled c' k k' end.
Proof.
  intros Hc Hs Hk Htk Hcu Hcs. pose proof Hc as [H1 H2 H3 H4 [R1 R2 R3 R4 R5 R6] H6 H7].
  set (s0 := {| s with hw := arrive cs (hw s) |}). set (k0 := rt_interrupt_enter k).
  destruct (nest_kernel k (u8 (interrupt_nest k + 1)) Hk Htk) as [Hk0 Htk0].
  assert (line (hw s0) = take depth cs) as Hl by (by apply arrive_line).
  destruct (isr_rx_ok (S (length cs)) d s0 k0) as (s' & E & Hs' & Hq' & Hl' & _ & Hy').
  { destruct R4 as (f & Ef & Hf). by exists f. }
  { rewrite Hl, length_take. lia. }
  assert (receiving d s') as Hr' by (split; try done; by apply Hy', arrive_ready). rewrite Hl in Hq'. change (capacity s0) with (capacity s) in Hq'.
  change (queue s0) with (queue s) in Hq'. unfold uart_irq. cbv zeta. fold k0.
  rewrite (on_device_eq _ _ _ _ d s0) by (done || (simpl; by rewrite lookup_alter_eq, H4)).
  rewrite E, !some_bind. set (c1 := with_driver o d s' (line_arrives o cs c)).
  assert (console_ok o c1 d s') as Hc1 by (split; try done; apply lookup_insert_eq).
  unfold indication. rewrite H6. destruct (queue s') as [|x q] eqn:Eq.
  - rewrite some_bind. eexists c1, s', _. split; [done|]. split; [done|]. split; [by rewrite Eq|]. rewrite Eq.
    destruct (nest_kernel k0 (u8 (interrupt_nest k0 - 1)) Hk0 Htk0). by destruct Hs.
  - rewrite (proj2 (Z.eqb_eq _ _) eq_refl). cbn [assert]. rewrite some_bind.
    destruct (finsh_rx_ind_ok c1 k0 cur) as (sem & k1 & -> & Hs1 & Hk1 & Htk1 & Hsig); [by destruct Hs|done..|].
    rewrite !some_bind. eexists _, s', _. split; [done|]. split; [by destruct Hc1|]. split; [by rewrite Eq|]. rewrite Eq.
    destruct (nest_kernel k1 (u8 (interrupt_nest k1 - 1)) Hk1 Htk1). split; [by destruct Hs1|done].
Qed.

(** ** The shell thread waiting for input

    Where it is in the loop of finsh_getchar: about to read, about to take the
    semaphore because it found nothing, or waiting for it. *)
Inductive reader := Fetching | Taking | Dozing.

Definition reader_state : Type := reader * console U * kernel.

(** What can happen: the thread [t] reads, takes the semaphore or comes back
    from it; characters come and the UART interrupts, at any moment; somebody
    prints; and anything else that leaves the semaphore and its list alone.
    The label is what the shell got. *)
Inductive reader_step (t o : Z) : reader_state -> list Z -> reader_state -> Prop :=
| rs_read c k l c' k' :
    current_thread k = Some t -> getchar_read c k = Some (l, c', k') ->
    reader_step t o (Fetching, c, k) l (match l with [] => Taking | _ => Fetching end, c', k')
| rs_take c k cth r c' k' :
    can_block k t cth -> getchar_take rx_sem_at c k = Some (r, c', k') ->
    reader_step t o (Taking, c, k) [] (match r with Returned _ => Fetching | Waiting => Dozing end, c', k')
| rs_wake c k e :
    current_thread k = Some t -> t ∉ rx_waiters k -> rt_sem_take_end t k = Some e ->
    reader_step t o (Dozing, c, k) [] (Fetching, c, k)
| rs_irq p c k cur cs c' k' :
    current_thread k = Some cur -> Forall (fits 8) cs ->
    uart_irq finsh_rx_ind_at rx_sem_at o (S (length cs)) (line_arrives o cs c) k = Some (c', k') ->
    reader_step t o (p, c, k) [] (p, c', k')
| rs_print p c k buf r c' k' :
    console_write buf c k = Some (r, c', k') ->
    reader_step t o (p, c, k) [] (p, c', k')
| rs_other p c k k' :
    kernel_ok k' -> timing_ok k' -> rx_waiters k' = rx_waiters k ->
    (forall w th, w ∈ rx_waiters k -> threads k !! w = Some th ->
       exists th', threads k' !! w = Some th' /\ error th' = error th) ->
    reader_step t o (p, c, k) [] (p, c, k').

Inductive reader_reach (t o : Z) (x0 : reader_state) : list Z -> reader_state -> Prop :=
| rr_start : reader_reach t o x0 [] x0
| rr_next got x l x' : reader_reach t o x0 got x -> reader_step t o x l x' -> reader_reach t o x0 (got ++ l) x'.

(** No wake-up is lost: a thread that is about to take the semaphore while
    there are characters finds a permit, and one that waits for it has none. *)
Definition reader_ok (t : Z) (p : reader) (q : list Z) (v : Z) (ws : list Z) : Prop :=
  match p with
  | Fetching => ws = []
  | Taking => ws = [] /\ (q <> [] -> 0 < v)
  | Dozing => ws = [] \/ ws = [t] /\ q = []
  end.

Definition reader_inv (t o : Z) (x : reader_state) : Prop :=
  let '(p, c, k) := x in
  exists d s, console_ok o c d s /\ sem_ok rx_sem_at (rx_sem c) k /\ kernel_ok k /\ timing_ok k /\
    reader_ok t p (queue s) (value (rx_sem c)) (rx_waiters k).

Lemma reader_irq t o p c k cur cs c' k' : reader_inv t o (p, c, k) -> current_thread k = Some cur -> Forall (fits 8) cs ->
  uart_irq finsh_rx_ind_at rx_sem_at o (S (length cs)) (line_arrives o cs c) k = Some (c', k') -> reader_inv t o (p, c', k').
Proof.
  intros (d & s & Hc & Hs & Hk & Htk & Hp) Hcu Hcs E.
  destruct (uart_irq_ok o c d s k cs cur Hc Hs Hk Htk Hcu Hcs) as (c1 & s1 & k1 & E1 & Hc1 & Hq1 & Hs1 & Hk1 & Htk1 & Hsig).
  rewrite E in E1. simplify_eq. exists d, s1. split_and!; try done.
  destruct (queue s1) as [|x q] eqn:Eq.
  - destruct Hsig as [-> ->]. destruct p; simpl in *; [done|by destruct Hp|]. destruct Hp as [|[-> _]]; auto.
  - unfold rx_signalled in Hsig. destruct p; simpl in *.
    + rewrite Hp in Hsig. apply Hsig.
    + destruct Hp as [Hw _]. rewrite Hw in Hsig. destruct Hsig. by split.
    + left. destruct Hp as [Hw|[Hw _]]; rewrite Hw in Hsig; apply Hsig.
Qed.

Lemma reader_take t o c k cth r c' k' : reader_inv t o (Taking, c, k) -> can_block k t cth ->
  getchar_take rx_sem_at c k = Some (r, c', k') ->
  reader_inv t o (match r with Returned _ => Fetching | Waiting => Dozing end, c', k').
Proof.
  intros (d & s & Hc & Hs & Hk & Htk & Hw & Hv) Hcb. unfold getchar_take. pose proof (so_value _ _ _ Hs) as Hb.
  destruct (Z.ltb_spec 0 (value (rx_sem c))) as [Hpos|Hz].
  - rewrite (sem_take_now _ _ _ t cth) by auto. rewrite (proj2 (Z.ltb_lt _ _) Hpos), some_bind. intros [= <- <- <-].
    exists d, s. split; [by destruct Hc|]. split; [|by split_and!]. apply sem_set_value; [done|unfold RT_SEM_VALUE_MAX in *; lia|by intros _].
  - destruct (sem_wait_ok _ _ k t cth RT_WAITING_FOREVER Hs Hcb ltac:(done) ltac:(lia) ltac:(done)) as (k1 & l' & -> & Hpl & Hb1 & Hs1).
    rewrite some_bind. intros [= <- <- <-]. exists d, s. split; [by destruct Hc|]. split; [done|]. split; [apply Hb1|]. split; [apply Hb1|].
    right. unfold rx_waiters. rewrite (bl_queue _ _ _ _ _ Hb1). split.
    + apply placed_permutation in Hpl. unfold rx_waiters in Hw. rewrite Hw in Hpl. by apply Permutation_singleton_r in Hpl.
    + destruct (queue s) as [|x q] eqn:Eq; [done|]. specialize (Hv ltac:(done)). lia.
Qed.

Lemma reader_step_ok t o x l x' : never_refuses -> reader_inv t o x -> reader_step t o x l x' -> reader_inv t o x'.
Proof.
  intros Hn Hx Hs. destruct Hs as [c k l c' k' Hcu E|c k cth r c' k' Hcb E|c k e Hcu Hnw E|p c k cur cs c' k' Hcu Hcs E|
    p c k buf r c' k' E|p c k k' Hk' Htk' Hq He].
  - destruct Hx as (d & s & Hc & Hs & Hk & Htk & Hp). destruct (getchar_read_ok o c d s k Hc) as (s' & E1 & Hc' & Hq').
    rewrite E in E1. simplify_eq. exists d, s'. split; [done|]. split; [by destruct Hs|]. split; [done|]. split; [done|].
    destruct (queue s) as [|y q]; simpl in *; [|done]. split; [done|]. by rewrite Hq'.
  - by eapply reader_take.
  - destruct Hx as (d & s & Hc & Hs & Hk & Htk & Hp). exists d, s. split_and!; try done. simpl in *.
    destruct Hp as [|[Hw _]]; [done|]. rewrite Hw in Hnw. exfalso. apply Hnw. left.
  - by eapply reader_irq.
  - destruct Hx as (d & s & Hc & Hs & Hk & Htk & Hp). destruct (console_write_ok o c d s buf k Hn Hc) as (s' & E1 & _ & Hr & Hq').
    rewrite E in E1. simplify_eq. exists d, s'. split; [|by rewrite Hq'; destruct Hs].
    apply (with_driver_ok o c d s); try done. apply (cn_polled _ _ _ _ Hc).
  - destruct Hx as (d & s & Hc & Hs & Hk & Htk & Hp). exists d, s. rewrite Hq. split_and!; try done.
    apply (sem_ok_mono _ _ k); [done|unfold rx_waiters in Hq; by rewrite Hq|]. unfold rx_waiters in *. rewrite Hq. done.
Qed.

(** A shell that finds nothing and no permit goes to sleep. *)
Lemma shell_dozes t o c d s k cth : reader_inv t o (Fetching, c, k) -> console_ok o c d s -> queue s = [] ->
  value (rx_sem c) = 0 -> can_block k t cth ->
  exists c2 k2 cur, reader_reach t o (Fetching, c, k) [] (Dozing, c2, k2) /\ t ∈ rx_waiters k2 /\ current_thread k2 = Some cur.
Proof.
  intros (_ & _ & _ & Hs & _ & _ & _) Hc Hq Hv Hcb.
  destruct (getchar_read_ok o c d s k Hc) as (s1 & E1 & _ & _). rewrite Hq in E1.
  destruct (sem_wait_ok _ _ k t cth RT_WAITING_FOREVER Hs Hcb ltac:(done) Hv ltac:(done)) as (k2 & l' & E2 & Hpl & Hb & _).
  destruct (bl_next _ _ _ _ _ Hb) as (cur & nth & Hcur & _).
  exists {| (with_driver o d s1 c) with rx_sem := rx_sem c |}, k2, cur. split; [|split; [|done]].
  - eapply (rr_next t o _ [] _ [] _); [eapply (rr_next t o _ [] _ [] _); [constructor|]|].
    + eapply rs_read; [apply Hcb|exact E1].
    + eapply (rs_take t o _ k cth Waiting); [done|]. unfold getchar_take. simpl. by rewrite E2.
  - unfold rx_waiters. rewrite (bl_queue _ _ _ _ _ Hb). apply placed_permutation in Hpl. rewrite Hpl. left.
Qed.
End Ready.

(** ** Choosing the device *)

(** A device that is not found leaves the console as it is, and is answered with
    the console's device, as a change is. *)
Lemma console_set_device_not_found {U} `{!Uart U} nm (c : console U) o k k1 :
  rt_device_find nm (devs c) k = Some (None, k1) -> _console_device c = Some o ->
  rt_console_set_device nm c k = Some (Some o, c, k1).
Proof. intros Hf Ho. unfold rt_console_set_device. by rewrite Hf, some_bind, Ho, bool_decide_false. Qed.

Section Choosing.
Context {U : Type} `{!Uart U} `{!UartLaws U} (finsh_rx_ind_at : Z).
Implicit Types c : console U.

Definition shell_oflag : Z := Z.lor (Z.lor RT_DEVICE_OFLAG_RDWR RT_DEVICE_FLAG_INT_RX) RT_DEVICE_FLAG_STREAM.

Lemma open_rx_tx_flag oflag d (s : rt_serial_device U) k d1 s1 k1 : open_rx oflag d s k = Some (d1, s1, k1) ->
  has_flag (open_flag d1) RT_DEVICE_FLAG_INT_TX = has_flag (open_flag d) RT_DEVICE_FLAG_INT_TX /\ rx_indicate d1 = rx_indicate d.
Proof.
  unfold open_rx. destruct (serial_rx s).
  { intros [= <- <- <-]. destruct (has_flag oflag _); [|done]. split; [|done]. by apply has_flag_lor_ne. }
  destruct (has_flag oflag _); [|by intros [= <- <- <-]]. destruct (rt_malloc _ _) as [[[p|] h]|]; [|done..].
  rewrite !some_bind. destruct (uart_do _ _ _); [|done]. rewrite some_bind. intros [= <- <- <-].
  split; [|done]. by apply has_flag_lor_ne.
Qed.

(** The shell's open leaves the sending side polled. *)
Lemma shell_open_polled d (s : rt_serial_device U) k d1 s1 k1 :
  rt_serial_open shell_oflag d s k = Some (RT_EOK, d1, s1, k1) -> has_flag (open_flag d1) RT_DEVICE_FLAG_INT_TX = false.
Proof.
  unfold rt_serial_open. repeat (destruct (lacks _ _ _); [done|]). cbv zeta.
  destruct (open_rx shell_oflag _ s k) as [[[d2 s2] k2]|] eqn:E2; [|done]. rewrite some_bind.
  apply open_rx_tx_flag in E2 as [H2 _]. unfold open_tx. change (has_flag shell_oflag RT_DEVICE_FLAG_INT_TX) with false.
  assert (has_flag (open_flag d2) RT_DEVICE_FLAG_INT_TX = false) as Hd2 by (by rewrite H2).
  destruct (serial_tx s2); rewrite some_bind; intros E;
    (assert (open_flag d1 = Z.lor (open_flag d2) (if has_flag shell_oflag RT_DEVICE_FLAG_STREAM || has_flag (open_flag d) RT_DEVICE_FLAG_STREAM
                     then RT_DEVICE_FLAG_STREAM else 0)) as -> by (by injection E as <- <- <-));
    by rewrite has_flag_lor_ne.
Qed.

Lemma shell_open_ready d (s : rt_serial_device U) k d1 s1 k1 : device_ok d -> uart_able d s -> serial_rx s = None ->
  2 <= bufsz (config s) < 2 ^ 16 -> line (hw s) = [] ->
  rt_device_open serial_ops shell_oflag d s k = Some (RT_EOK, d1, s1, k1) -> receiving d1 s1 /\ queue s1 = [] /\ has_flag (open_flag d1) RT_DEVICE_FLAG_INT_TX = false.
Proof.
  intros Hd Ha Hn Hb Hl E. destruct (device_open_receiving shell_oflag d s k d1 s1 k1 Hd Ha Hn eq_refl Hb Hl E) as (Hr & Hq & _).
  destruct (device_open_serial shell_oflag d s k d1 s1 k1 (do_class _ Hd) E) as (d2 & s2 & k2 & d3 & E3 & _ & _ & _ & Hof & _ & _).
  split; [done|]. split; [done|]. rewrite Hof, has_flag_lor_ne by done. by eapply shell_open_polled.
Qed.

(** The shell takes the console's device: after that the console is ready. *)
Lemma finsh_set_device_ready nm o c d s k k1 c' k' : rt_device_find nm (devs c) k = Some (Some o, k1) ->
  shell_device c = None -> _console_device c = Some o -> devs c !! o = Some d -> drivers c !! o = Some s ->
  device_ok d -> uart_able d s -> serial_rx s = None -> 2 <= bufsz (config s) < 2 ^ 16 -> line (hw s) = [] ->
  finsh_set_device finsh_rx_ind_at nm c k = Some (c', k') -> shell_device c' = Some o ->
  exists d' s', console_ok finsh_rx_ind_at o c' d' s' /\ queue s' = [].
Proof.
  intros Hf Hsd Hcd Hd Hs Hdo Ha Hn Hb Hl. unfold finsh_set_device. rewrite Hf, some_bind, bool_decide_false by (by rewrite Hsd).
  rewrite (on_device_eq _ _ _ _ d s) by done. fold shell_oflag.
  destruct (rt_device_open serial_ops shell_oflag d s k1) as [[[[e d1] s1] k2]|] eqn:E; [|done]. rewrite !some_bind.
  destruct (Z.eqb_spec e RT_EOK) as [->|He]; [|by intros [= <- <-]; simpl; rewrite Hsd].
  change (shell_device (with_driver o d1 s1 c)) with (shell_device c). rewrite Hsd, some_bind. cbv zeta.
  unfold set_rx_indicate. cbn [devs with_driver]. rewrite lookup_insert_eq, some_bind. unfold rt_device_set_rx_indicate.
  destruct (is_device d1) eqn:Hcl; [|done]. cbn [assert]. rewrite !some_bind. intros E' _. injection E' as <- <-.
  destruct (shell_open_ready d s k1 d1 s1 k2 Hdo Ha Hn Hb Hl E) as (Hr & Hq & Hp).
  exists {| d1 with rx_indicate := Some finsh_rx_ind_at |}, s1. split; [|done].
  split; try done; try apply lookup_insert_eq. by destruct Hr.
Qed.
End Choosing.

(** ** Properties *)
Section Properties.
Context {U : Type} `{!Uart U} `{!UartLaws U} (finsh_rx_ind_at rx_sem_at : Z).
Implicit Types c : console U.

(** C6: input always reaches the shell.  Whatever happened before, when
    characters come over the line the interrupt leaves them in the FIFO and
    the shell thread is not left waiting: if it was waiting it is ready to
    run, if it was about to wait it will not, and its next read gets the
    oldest character. *)
Theorem input_wakes_shell t o x0 got p c k cur cs :
  never_refuses (U := U) -> reader_inv finsh_rx_ind_at rx_sem_at t o x0 ->
  reader_reach finsh_rx_ind_at rx_sem_at t o x0 got (p, c, k) ->
  current_thread k = Some cur -> Forall (fits 8) cs -> cs <> [] ->
  exists c' k' x q, uart_irq finsh_rx_ind_at rx_sem_at o (S (length cs)) (line_arrives o cs c) k = Some (c', k') /\
    (forall s, drivers c' !! o = Some s -> queue s = x :: q) /\
    t ∉ rx_waiters rx_sem_at k' /\ (t ∈ rx_waiters rx_sem_at k -> runs k' t) /\
    (p = Taking -> 0 < value (rx_sem c')) /\
    exists c'', getchar_read c' k' = Some ([x], c'', k') /\ kernel_ok k'.
Proof.
  intros Hn H0 Hr Hcu Hcs Hne.
  assert (reader_inv finsh_rx_ind_at rx_sem_at t o (p, c, k)) as (d & s & Hc & Hs & Hk & Htk & Hp).
  { induction Hr as [|got x l x' _ IH Hstep]; [done|]. by eapply reader_step_ok. }
  destruct (uart_irq_ok _ _ o c d s k cs cur Hc Hs Hk Htk Hcu Hcs) as (c1 & s1 & k1 & E1 & Hc1 & Hq1 & Hs1 & Hk1 & Htk1 & Hsig).
  destruct (rc_serial _ _ (cn_receiving _ _ _ _ _ Hc)) as (f & Ef & Hf). pose proof (fo_size _ _ Hf) as Hsz.
  destruct (queue s1) as [|x q] eqn:Eq.
  { exfalso. apply (f_equal lenZ) in Hq1. unfold keep, capacity, lenZ in Hq1. rewrite length_lastn, length_app, length_take in Hq1.
    pose proof depth_pos. destruct cs; [done|]. simpl in Hq1. lia. }
  exists c1, k1, x, q. split; [done|]. split; [intros s2 Hs2; rewrite (cn_driver _ _ _ _ _ Hc1) in Hs2; by simplify_eq|].
  destruct (getchar_read_ok _ o c1 d s1 k1 Hc1) as (s2 & Er & _). rewrite Eq in Er.
  unfold rx_signalled in Hsig. split_and!; [..|by eexists]; destruct p; simpl in Hp.
  - rewrite Hp in Hsig. destruct Hsig as [_ ->]. apply not_elem_of_nil.
  - destruct Hp as [Hp _]. rewrite Hp in Hsig. destruct Hsig as [_ ->]. apply not_elem_of_nil.
  - destruct Hp as [Hp|[Hp _]]; rewrite Hp in Hsig; destruct Hsig as [_ ->]; apply not_elem_of_nil.
  - rewrite Hp. intros Hin. by apply not_elem_of_nil in Hin.
  - destruct Hp as [-> _]. intros Hin. by apply not_elem_of_nil in Hin.
  - destruct Hp as [Hp|[Hp _]]; rewrite Hp in *; intros Hin; [by apply not_elem_of_nil in Hin|]. apply Hsig.
  - done.
  - destruct Hp as [Hp _]. rewrite Hp in Hsig. intros _. apply Hsig.
  - done.
Qed.

(** What is printed arrives.  A text of less than 255 characters printed
    with rt_kprintf while the console is ready is sent over the UART byte by
    byte, with a carriage return in front of every line feed, and the device
    and the characters received are as before. *)
Lemma kprintf_reaches_uart buf fmt args m text o c d s k :
  never_refuses (U := U) -> console_ok finsh_rx_ind_at o c d s ->
  0 <= buf -> buf + RT_CONSOLEBUF_SIZE < 2 ^ 32 -> text_of fmt args = Some text -> lenZ text < 255 ->
  exists m' s', kprintf_console buf fmt args m c k = Some (Moved (lenZ text), m', with_driver o d s' c, k) /\
    sent (hw s') = sent (hw s) ++ crlf (map u8 text) /\ queue s' = queue s /\ receiving d s'.
Proof.
  intros Hn Hc Hb He Ht Hl. destruct (rt_kprintf_sends buf fmt args m text Hb He Ht ltac:(lia)) as (m' & E).
  rewrite (proj2 (Z.ltb_lt _ _) Hl) in E. unfold kprintf_console. rewrite E, some_bind.
  destruct (console_write_ok _ o c d s (map u8 text) k Hn Hc) as (s' & -> & Hs & Hr & Hq). rewrite some_bind.
  exists m', s'. unfold lenZ. rewrite length_map. split; [done|]. split; [|done]. by rewrite Hs, crlf_bytes.
Qed.
End Properties.

(** ** A system that has booted

    The UART of the board: it takes every byte, and keeps one that came. *)
Record board_uart := { bu_line : list Z; bu_sent : list Z }.

#[global] Instance board_uart_ops : Uart board_uart := {
  uart_configure := Some (fun _ u => Some (RT_EOK, u));
  uart_control := fun _ _ u => Some (RT_EOK, u);
  uart_putc := fun c u => Some (1, {| u with bu_sent := bu_sent u ++ [u8 c] |});
  uart_getc := fun u => match bu_line u with [] => (-1, u) | c :: l => (u8 c, {| u with bu_line := l |}) end
}.

#[global] Instance board_uart_laws : UartLaws board_uart.
Proof.
  refine (Build_UartLaws board_uart _ (fun u => wrap 8 <$> bu_line u) bu_sent (fun cs u => {| u with bu_line := take 1 (bu_line u ++ cs) |})
    1 (fun _ => True) (fun _ _ => True) _ _ _ _ _ _ _ _ _ _).
  - intros u. apply Forall_fmap, Forall_true. intros c. by apply wrap_fits.
  - intros [[|c l] x]; done.
  - done.
  - intros c u _. by eexists _, _.
  - by intros cmd arg u r u' [= <- <-].
  - by intros f c u r u' [= <-] [= <- <-].
  - by intros f c u u' [= <-] [= <-].
  - done.
  - lia.
  - intros cs [[|c l] x] _ Hcs Hl; [|done]. exact (map_wrap_id 8 (take 1 cs) (Forall_take _ _ _ Hcs)).
Defined.

Lemma board_never_refuses : never_refuses (U := board_uart).
Proof. by intros x u r u' _ [= <- _]. Qed.

(** One serial device at address 900; finsh_rx_ind is function 77 and the
    semaphore is at 800. *)
Definition boot_console : console board_uart :=
  {| devs := {[900 := null_device]};
     drivers := {[900 := {| config := RT_SERIAL_CONFIG_DEFAULT; serial_rx := None; serial_tx := None; already_output := false;
                            hw := {| bu_line := []; bu_sent := [] |} |}]};
     _console_device := None; shell := finsh_system_init; shell_device := None; rx_sem := null_sem |}.

Definition boot_steps : option (console board_uart * kernel) :=
  '(_, ds, k) ← rt_hw_serial_register 900 (bytes "uart1") (Z.lor RT_DEVICE_FLAG_RDWR (Z.lor RT_DEVICE_FLAG_INT_RX RT_DEVICE_FLAG_INT_TX)) 0
    (devs boot_console) demo_kernel;
  '(_, c, k) ← rt_console_set_device (bytes "uart1") {| boot_console with devs := ds |} k;
  '(c, k) ← finsh_rx_init 800 c k;
  finsh_thread_start 77 c k.

Definition booted : console board_uart := default boot_console (fst <$> boot_steps).

Definition booted_device : rt_device := default null_device (devs booted !! 900).
Definition booted_driver : rt_serial_device board_uart :=
  default {| config := RT_SERIAL_CONFIG_DEFAULT; serial_rx := None; serial_tx := None; already_output := false;
             hw := {| bu_line := []; bu_sent := [] |} |} (drivers booted !! 900).

(** A FIFO as it is right after the open, decided. *)
Definition fresh_fifo (s : rt_serial_device board_uart) : bool :=
  match serial_rx s with
  | Some f => bool_decide (2 <= bufsz (config s) < 2 ^ 16) && (lenZ (buffer f) =? bufsz (config s)) &&
      forallb (fun x => bool_decide (fits 8 x)) (buffer f) && (put_index f =? 0) && (get_index f =? 0) && negb (is_full f)
  | None => false
  end.

Lemma fresh_fifo_ok s : fresh_fifo s = true -> serial_ok s.
Proof.
  unfold fresh_fifo, serial_ok. destruct (serial_rx s) as [f|]; [|done]. rewrite !andb_true_iff.
  intros [[[[[H1%bool_decide_eq_true_1 H2%Z.eqb_eq] H3] H4%Z.eqb_eq] H5%Z.eqb_eq] H6]. exists f. split; [done|].
  split; rewrite ?H4, ?H5; try lia; try done.
  - apply Forall_forall. intros x Hx. rewrite forallb_forall in H3. apply list_elem_of_In in Hx.
    by apply (bool_decide_eq_true_1 _), H3.
  - intros Hf. by rewrite Hf in H6.
Qed.

Lemma booted_ok : console_ok 77 900 booted booted_device booted_driver /\ queue booted_driver = [].
Proof.
  split; [|vm_compute; reflexivity].
  assert (receiving booted_device booted_driver) as Hr; [|by split; [vm_compute; reflexivity..|exact Hr|vm_compute; reflexivity|vm_compute; reflexivity]].
  split; [vm_compute; reflexivity|vm_compute; reflexivity|vm_compute; reflexivity| |vm_compute; reflexivity|exact I].
  apply fresh_fifo_ok. vm_compute. reflexivity.
Qed.

Lemma booted_reader : reader_inv 77 800 1 900 (Fetching, booted, demo_kernel).
Proof.
  destruct booted_ok as [H1 H2]. exists booted_device, booted_driver. split; [exact H1|].
  assert (queues demo_kernel (QSuspend 800) = []) as Hq by (vm_compute; reflexivity). split; [|split; [exact demo_kernel_ok|split; [exact demo_timing|exact Hq]]].
  split; [vm_compute; reflexivity|left; vm_compute; reflexivity|vm_compute; split; discriminate|done|by apply waiting_fine_nil].
Qed.

(** The shell finds nothing, waits, and a character arrives. *)
Lemma input_wakes_shell_witness : exists c k c' k',
  reader_reach 77 800 1 900 (Fetching, booted, demo_kernel) [] (Dozing, c, k) /\ 1 ∈ rx_waiters 800 k /\
  uart_irq 77 800 900 2 (line_arrives 900 [104] c) k = Some (c', k') /\ runs k' 1.
Proof.
  destruct (shell_dozes 77 800 1 900 booted booted_device booted_driver demo_kernel demo_current booted_reader (proj1 booted_ok)
    (proj2 booted_ok)) as (c2 & k2 & cur & Hr & Hin & Hcur).
  - vm_compute. reflexivity.
  - exact demo_can_block.
  - destruct (input_wakes_shell 77 800 1 900 _ _ Dozing c2 k2 cur [104] board_never_refuses booted_reader Hr Hcur)
      as (c' & k' & x & q & E & _ & _ & Hw & _).
    + apply Forall_cons. split; [|exact (Forall_nil_2 _)]. unfold fits. lia.
    + discriminate.
    + exists c2, k2, c', k'. split; [exact Hr|]. split; [exact Hin|]. split; [exact E|exact (Hw Hin)].
Defined.

Lemma kprintf_reaches_uart_witness : exists m' s',
  kprintf_console 5000 (bytes "lap %d" ++ [10]) [AInt 7] (fun _ => 0) booted demo_kernel =
    Some (Moved 6, m', with_driver 900 booted_device s' booted, demo_kernel) /\
  sent (hw s') = bytes "lap 7" ++ [13; 10].
Proof.
  destruct booted_ok as [Hc _].
  destruct (kprintf_reaches_uart 77 5000 (bytes "lap %d" ++ [10]) [AInt 7] (fun _ => 0) (bytes "lap 7" ++ [10]) 900 booted
    booted_device booted_driver demo_kernel board_never_refuses Hc ltac:(lia) ltac:(reflexivity) ltac:(vm_compute; reflexivity)
    ltac:(reflexivity)) as (m' & s' & E & Hs & _).
  exists m', s'. split; [exact E|]. rewrite Hs. vm_compute. reflexivity.
Defined.
