(* ===== verification/Usart.v ===== *)
(** * The UART driver (drivers/drv_usart.c) on the registers of USART1

    The driver below serial.c, and what it calls of the HAL: stm32f1xx_hal_uart.c (HAL_UART_Init and the macros of its
    header), the clock frequencies of stm32f1xx_hal_rcc.c, and GPIO and NVIC of [Gpio].  A control register holds
    what was written to it.  What is behind the status and the data register is the hardware's: the interface [Usart]
    with the laws of the reference manual ([UsartLaws]): the receiver holds one character and loses those that come while it does;
    a frame that is sent takes time, which passes between steps and when the status register is read.  The driver implements the
    interface [Uart] of [Serial] and keeps its laws.  Sending is followed from register access to register access, so that interrupts
    and reads can come in between.  The configuration is the board's: USART1 only, no DMA. *)
From S2P Require Import Prelude Gpio Ring Mem Kernel Sched Timer Ipc Completion Device Serial.

(** ** Registers and their bits *)
Record usart_regs := { BRR : Z; CR1 : Z; CR2 : Z; CR3 : Z }.

Definition USART_CR1_RE : Z := 0x00000004.
Definition USART_CR1_TE : Z := 0x00000008.
Definition USART_CR1_RXNEIE : Z := 0x00000020.
Definition USART_CR1_PS : Z := 0x00000200.
Definition USART_CR1_PCE : Z := 0x00000400.
Definition USART_CR1_M : Z := 0x00001000.
Definition USART_CR1_UE : Z := 0x00002000.
Definition USART_CR2_CLKEN : Z := 0x00000800.
Definition USART_CR2_STOP : Z := 0x00003000.
Definition USART_CR2_STOP_1 : Z := 0x00002000.
Definition USART_CR2_LINEN : Z := 0x00004000.
Definition USART_CR3_IREN : Z := 0x00000002.
Definition USART_CR3_HDSEL : Z := 0x00000008.
Definition USART_CR3_SCEN : Z := 0x00000020.
Definition USART_CR3_RTSE : Z := 0x00000100.
Definition USART_CR3_CTSE : Z := 0x00000200.

Definition UART_FLAG_CTS : Z := 0x00000200.
Definition UART_FLAG_LBD : Z := 0x00000100.
Definition UART_FLAG_TXE : Z := 0x00000080.
Definition UART_FLAG_TC : Z := 0x00000040.
Definition UART_FLAG_RXNE : Z := 0x00000020.
Definition UART_FLAG_ORE : Z := 0x00000008.
Definition UART_FLAG_NE : Z := 0x00000004.
Definition UART_FLAG_FE : Z := 0x00000002.
Definition UART_FLAG_PE : Z := 0x00000001.

Definition UART_WORDLENGTH_8B : Z := 0.
Definition UART_WORDLENGTH_9B : Z := USART_CR1_M.
Definition UART_STOPBITS_1 : Z := 0.
Definition UART_STOPBITS_2 : Z := USART_CR2_STOP_1.
Definition UART_PARITY_NONE : Z := 0.
Definition UART_PARITY_EVEN : Z := USART_CR1_PCE.
Definition UART_PARITY_ODD : Z := Z.lor USART_CR1_PCE USART_CR1_PS.
Definition UART_HWCONTROL_NONE : Z := 0.
Definition UART_MODE_TX_RX : Z := Z.lor USART_CR1_TE USART_CR1_RE.
Definition UART_OVERSAMPLING_16 : Z := 0.

Definition UART_CR1_REG_INDEX : Z := 1.
Definition UART_CR2_REG_INDEX : Z := 2.
Definition UART_IT_MASK : Z := 0x0000FFFF.
Definition UART_IT_RXNE : Z := Z.lor (Z.shiftl UART_CR1_REG_INDEX 28) USART_CR1_RXNEIE.

Definition USART1_IRQn : Z := 37.
Definition RCC_APB2ENR_USART1EN : Z := 0x00004000.
Definition AFIO_MAPR_USART1_REMAP : Z := 0x00000004.
Definition AFIO_MAPR_USART2_REMAP : Z := 0x00000008.
Definition AFIO_MAPR_USART3_REMAP_PARTIALREMAP : Z := 0x00000010.
Definition AFIO_MAPR_USART3_REMAP_FULLREMAP : Z := 0x00000030.
Definition AFIO_MAPR_SWJ_CFG : Z := 0x07000000.
Definition RCC_CFGR_PPRE1 : Z := 0x00000700.
Definition RCC_CFGR_PPRE2 : Z := 0x00003800.

Definition HAL_OK : Z := 0.
Definition HAL_UART_STATE_RESET : Z := 0x00.
Definition HAL_UART_STATE_READY : Z := 0x20.
Definition HAL_UART_STATE_BUSY : Z := 0x24.
Definition HAL_UNLOCKED : Z := 0.

(** What is behind the status and the data register: what a read of either returns and what it does, what a write
    does, what a character that has come over the line does, and what time does. *)
Class Usart := {
  port : Type;
  frame_time : nat;                         (** reads of the status register a frame takes at most *)
  SR : port -> Z;
  sr_read : port -> port;
  sr_write : Z -> port -> port;
  DR : port -> Z;
  dr_read : port -> port;
  dr_write : usart_regs -> Z -> port -> port;
  wire_in : Z -> port -> port;
  elapse : port -> port
}.

(** Sender, receiver and the whole are switched on; the bits of data in a frame. *)
Definition running (r : usart_regs) : bool := Z.testbit (CR1 r) 13 && Z.testbit (CR1 r) 3 && Z.testbit (CR1 r) 2.
Definition frame_bits (r : usart_regs) : Z :=
  (if Z.testbit (CR1 r) 12 then 9 else 8) - (if Z.testbit (CR1 r) 10 then 1 else 0).

(** The flags RXNE and TC. *)
Definition rxne {W : Usart} (p : port) : bool := Z.testbit (SR p) 5.
Definition tc {W : Usart} (p : port) : bool := Z.testbit (SR p) 6.

(** The reference manual: the character received and not read, the characters sent, and what the frame
    that is being sent still takes.  A character that has come while the one before is not read is lost (overrun). *)
Class UsartLaws {W : Usart} := {
  rx : port -> list Z;
  tx : port -> list Z;
  busy : port -> option nat;
  rx_chars p : Forall (fits 9) (rx p);
  rx_one p : (length (rx p) <= 1)%nat;
  rxne_rx p : rxne p = match rx p with [] => false | _ => true end;
  dr_first p c l : rx p = c :: l -> DR p = c;
  sr_read_rx p : rx (sr_read p) = rx p;
  sr_read_tx p : tx (sr_read p) = tx p;
  sr_read_busy p : busy (sr_read p) = match busy p with Some (S n) => Some n | _ => None end;
  sr_read_tc p : tc (sr_read p) = match busy p with Some O => true | _ => tc p end;
  sr_write_rx v p : rx (sr_write v p) = if Z.testbit v 5 then rx p else [];
  sr_write_tx v p : tx (sr_write v p) = tx p;
  sr_write_busy v p : busy (sr_write v p) = busy p;
  sr_write_tc v p : tc (sr_write v p) = tc p && Z.testbit v 6;
  dr_read_rx p : rx (dr_read p) = [];
  dr_read_tx p : tx (dr_read p) = tx p;
  dr_read_busy p : busy (dr_read p) = busy p;
  dr_read_tc p : tc (dr_read p) = tc p;
  dr_write_rx r v p : rx (dr_write r v p) = rx p;
  dr_write_tx r v p : running r = true -> busy p = None -> tx (dr_write r v p) = tx p ++ [v mod 2 ^ frame_bits r];
  dr_write_busy r v p : running r = true -> busy p = None -> exists n, busy (dr_write r v p) = Some n /\ (n <= frame_time)%nat;
  dr_write_tc r v p : tc p = false -> tc (dr_write r v p) = false;
  wire_rx c p : fits 9 c -> rx (wire_in c p) = match rx p with [] => [c] | l => l end;
  wire_tx c p : tx (wire_in c p) = tx p;
  wire_busy c p : busy (wire_in c p) = busy p;
  wire_tc c p : tc (wire_in c p) = tc p;
  elapse_rx p : rx (elapse p) = rx p;
  elapse_tx p : tx (elapse p) = tx p;
  elapse_busy p : busy (elapse p) = match busy p with Some (S n) => Some n | _ => None end;
  elapse_tc p : tc (elapse p) = match busy p with Some O => true | _ => tc p end
}.

(** ** The driver's state *)

(** [UART_InitTypeDef] and [UART_HandleTypeDef]. *)
Record UART_InitTypeDef := {
  BaudRate : Z; WordLength : Z; StopBits : Z; Parity : Z; UartMode : Z; HwFlowCtl : Z; OverSampling : Z
}.
Record UART_HandleTypeDef := { Init : UART_InitTypeDef; Lock : Z; gState : Z; RxState : Z; ErrorCode : Z }.

Record stm32_uart_config := { cfg_name : list Z; irq_type : Z; tx_pin_name : list Z; rx_pin_name : list Z }.

Definition UART1_CONFIG : stm32_uart_config :=
  {| cfg_name := bytes "uart1"; irq_type := USART1_IRQn; tx_pin_name := bytes "PA9"; rx_pin_name := bytes "PA10" |}.

(** The handle, the registers of USART1 and what is behind them, the pins with the clock enables and the interrupt
    controller, AFIO_MAPR, and the clocks. *)
Record stm32_uart {W : Usart} := {
  handle : UART_HandleTypeDef;
  usart : usart_regs;
  wire : port;
  pins : gpio;
  MAPR : Z;
  SystemCoreClock : Z;
  CFGR : Z
}.

Definition set_usart {W : Usart} (r : usart_regs) (u : stm32_uart) : stm32_uart := {| u with usart := r |}.
Definition set_wire {W : Usart} (p : port) (u : stm32_uart) : stm32_uart := {| u with wire := p |}.
Definition set_pins {W : Usart} (g : gpio) (u : stm32_uart) : stm32_uart := {| u with pins := g |}.
Definition set_handle {W : Usart} (h : UART_HandleTypeDef) (u : stm32_uart) : stm32_uart := {| u with handle := h |}.
Definition set_clocks (v : Z) (g : gpio) : gpio := {| g with APB2ENR := v |}.

(** ** Clock frequencies (stm32f1xx_hal_rcc.c) *)
Definition APBPrescTable : list Z := [0; 0; 0; 0; 1; 2; 3; 4].

Section Driver.
Context {H : Hardware} {W : Usart}.
Implicit Types u : stm32_uart.

Definition HAL_RCC_GetHCLKFreq (u : stm32_uart) : Z := SystemCoreClock u.

Definition HAL_RCC_GetPCLK1Freq (u : stm32_uart) : option Z :=
  n ← APBPrescTable !! Z.to_nat (Z.shiftr (Z.land (CFGR u) RCC_CFGR_PPRE1) 8);
  Some (Z.shiftr (HAL_RCC_GetHCLKFreq u) n).

Definition HAL_RCC_GetPCLK2Freq (u : stm32_uart) : option Z :=
  n ← APBPrescTable !! Z.to_nat (Z.shiftr (Z.land (CFGR u) RCC_CFGR_PPRE2) 11);
  Some (Z.shiftr (HAL_RCC_GetHCLKFreq u) n).

(** ** HAL_UART_Init (stm32f1xx_hal_uart.c)

    A division by zero has no result. *)
Definition UART_DIV_SAMPLING16 (pclk baud : Z) : option Z :=
  _ ← assert (negb (u32 (4 * baud) =? 0)); Some (u32 (pclk * 25) / u32 (4 * baud)).

Definition UART_DIVMANT_SAMPLING16 (div : Z) : Z := div / 100.

Definition UART_DIVFRAQ_SAMPLING16 (div : Z) : Z :=
  u32 (u32 (u32 (div - u32 (UART_DIVMANT_SAMPLING16 div * 100)) * 16) + 50) / 100.

Definition UART_BRR_SAMPLING16 (pclk baud : Z) : option Z :=
  div ← UART_DIV_SAMPLING16 pclk baud;
  let fraq := UART_DIVFRAQ_SAMPLING16 div in
  Some (u32 (u32 (u32 (Z.shiftl (UART_DIVMANT_SAMPLING16 div) 4) + Z.land fraq 0xF0) + Z.land fraq 0x0F)).

Definition set_config_regs (i : UART_InitTypeDef) (brr : Z) (r : usart_regs) : usart_regs :=
  let tmpreg := Z.lor (Z.lor (WordLength i) (Parity i)) (UartMode i) in
  {| CR2 := MODIFY_REG (CR2 r) USART_CR2_STOP (StopBits i);
     CR1 := MODIFY_REG (CR1 r)
       (Z.lor (Z.lor (Z.lor (Z.lor USART_CR1_M USART_CR1_PCE) USART_CR1_PS) USART_CR1_TE) USART_CR1_RE) tmpreg;
     CR3 := MODIFY_REG (CR3 r) (Z.lor USART_CR3_RTSE USART_CR3_CTSE) (HwFlowCtl i);
     BRR := brr |}.

Definition UART_SetConfig u : option stm32_uart :=
  pclk ← HAL_RCC_GetPCLK2Freq u;
  brr ← UART_BRR_SAMPLING16 pclk (BaudRate (Init (handle u)));
  Some (set_usart (set_config_regs (Init (handle u)) brr (usart u)) u).

(** Before the call of UART_SetConfig: the state of the handle, and the UART is switched off. *)
Definition uart_init_begin u : stm32_uart :=
  let h := handle u in
  let h := if gState h =? HAL_UART_STATE_RESET then {| h with Lock := HAL_UNLOCKED |} else h in
  let u := set_handle {| h with gState := HAL_UART_STATE_BUSY |} u in
  let r := usart u in
  set_usart {| r with CR1 := CLEAR_BIT (CR1 r) USART_CR1_UE |} u.

(** After it: asynchronous mode, and the UART is switched on. *)
Definition uart_init_end u : stm32_uart :=
  let r := usart u in
  let r := {| r with CR2 := CLEAR_BIT (CR2 r) (Z.lor USART_CR2_LINEN USART_CR2_CLKEN) |} in
  let r := {| r with CR3 := CLEAR_BIT (CR3 r) (Z.lor (Z.lor USART_CR3_SCEN USART_CR3_HDSEL) USART_CR3_IREN) |} in
  let r := {| r with CR1 := SET_BIT (CR1 r) USART_CR1_UE |} in
  let u := set_usart r u in
  set_handle {| (handle u) with ErrorCode := 0; gState := HAL_UART_STATE_READY; RxState := HAL_UART_STATE_READY |} u.

Definition HAL_UART_Init u : option (Z * stm32_uart) :=
  u ← UART_SetConfig (uart_init_begin u); Some (HAL_OK, uart_init_end u).

(** ** Macros of stm32f1xx_hal_uart.h *)
Definition __HAL_UART_GET_FLAG (flag : Z) u : bool * stm32_uart :=
  (Z.land (SR (wire u)) flag =? flag, set_wire (sr_read (wire u)) u).

Definition __HAL_UART_CLEAR_FLAG (flag : Z) u : stm32_uart := set_wire (sr_write (u32 (Z.lnot flag)) (wire u)) u.

Definition __HAL_UART_CLEAR_PEFLAG u : stm32_uart := set_wire (dr_read (sr_read (wire u))) u.

Definition on_it_reg (it : Z) (f : Z -> Z) (r : usart_regs) : usart_regs :=
  if Z.shiftr it 28 =? UART_CR1_REG_INDEX then {| r with CR1 := f (CR1 r) |}
  else if Z.shiftr it 28 =? UART_CR2_REG_INDEX then {| r with CR2 := f (CR2 r) |}
  else {| r with CR3 := f (CR3 r) |}.

Definition __HAL_UART_ENABLE_IT (it : Z) u : stm32_uart :=
  set_usart (on_it_reg it (fun reg => SET_BIT reg (Z.land it UART_IT_MASK)) (usart u)) u.

Definition __HAL_UART_DISABLE_IT (it : Z) u : stm32_uart :=
  set_usart (on_it_reg it (fun reg => CLEAR_BIT reg (Z.land it UART_IT_MASK)) (usart u)) u.

Definition __HAL_UART_GET_IT_SOURCE (it : Z) u : Z :=
  let r := usart u in
  Z.land (if Z.shiftr it 28 =? UART_CR1_REG_INDEX then CR1 r
          else if Z.shiftr it 28 =? UART_CR2_REG_INDEX then CR2 r else CR3 r) (Z.land it UART_IT_MASK).

(** ** Pins (drv_usart.c)

    A port is its number, as in [Gpio]; [atoi] on a string of digits. *)
Definition stm32_uart_clk_enable (c : stm32_uart_config) u : Z * stm32_uart :=
  (RT_EOK, set_pins (set_clocks (SET_BIT (APB2ENR (pins u)) RCC_APB2ENR_USART1EN) (pins u)) u).

Definition stm32_gpio_clk_enable (gpiox : Z) u : option (Z * stm32_uart) :=
  _ ← assert ((0 <=? gpiox) && (gpiox <? 5));
  Some (RT_EOK, set_pins (set_clocks (SET_BIT (APB2ENR (pins u)) (Z.shiftl 1 (2 + gpiox))) (pins u)) u).

Definition up_char (c : Z) : Z := if (97 <=? c) && (c <=? 122) then c - 32 else c.

Fixpoint atoi_digits (acc : Z) (l : list Z) : Z :=
  match l with
  | [] => acc
  | c :: l => if (48 <=? c) && (c <=? 57) then atoi_digits (10 * acc + (c - 48)) l else acc
  end.

Definition get_pin_by_name (pin_name : list Z) : option (Z * Z) :=
  let pin_num := atoi_digits 0 (drop 2 pin_name) in
  port_name ← pin_name !! 1%nat;
  let port_name := up_char (up_char port_name) in
  Some (port_name - 65, u16 (Z.shiftl 1 pin_num)).

Definition stm32_get_pin (pin_port pin_num : Z) : Z := u16 (16 * (pin_port * 0x400 / 0x400) + (__rt_ffs pin_num - 1)).

Record gpio_uart_remap := { remap_pin : Z; normal_uart : Z; remap_uart : Z }.

Definition remap (x n normal r : Z) : gpio_uart_remap :=
  {| remap_pin := 16 * (x * 0x400 / 0x400) + n; normal_uart := normal; remap_uart := r |}.

Definition uart_remaps : list gpio_uart_remap :=
  [remap 0 9 1 (-1); remap 0 10 1 (-1); remap 1 6 (-1) 1; remap 1 7 (-1) 1;
   remap 0 2 2 (-1); remap 0 3 2 (-1); remap 3 5 (-1) 2; remap 3 6 (-1) 2;
   remap 1 10 3 (-1); remap 1 11 3 (-1); remap 3 8 (-1) 3; remap 3 9 (-1) 3; remap 2 10 4 3; remap 2 11 4 3].

(** The loop over the table: the indices of both pins, 0 for a pin that is not in it. *)
Fixpoint remap_loop (l : list gpio_uart_remap) (index tx_pin rx_pin : Z) (found : Z * Z) : Z * Z :=
  match l with
  | [] => found
  | m :: l =>
      let found := if remap_pin m =? tx_pin then (index, snd found)
                   else if remap_pin m =? rx_pin then (fst found, index) else found in
      remap_loop l (index + 1) tx_pin rx_pin found
  end.

Definition AFIO_REMAP_ENABLE (b : Z) u : stm32_uart := {| u with MAPR := Z.lor (Z.lor (MAPR u) AFIO_MAPR_SWJ_CFG) b |}.
Definition AFIO_REMAP_PARTIAL (b mask : Z) u : stm32_uart :=
  {| u with MAPR := Z.lor (Z.lor (Z.ldiff (MAPR u) mask) AFIO_MAPR_SWJ_CFG) b |}.

Definition remap_uart_pins (uart_num normal : Z) u : option stm32_uart :=
  let u := set_pins (set_clocks (SET_BIT (APB2ENR (pins u)) RCC_APB2ENR_AFIOEN) (pins u)) u in
  if uart_num =? 1 then Some (AFIO_REMAP_ENABLE AFIO_MAPR_USART1_REMAP u)
  else if uart_num =? 2 then Some (AFIO_REMAP_ENABLE AFIO_MAPR_USART2_REMAP u)
  else if uart_num =? 3 then
    Some (if normal <? 0 then AFIO_REMAP_PARTIAL AFIO_MAPR_USART3_REMAP_FULLREMAP AFIO_MAPR_USART3_REMAP_FULLREMAP u
          else AFIO_REMAP_PARTIAL AFIO_MAPR_USART3_REMAP_PARTIALREMAP AFIO_MAPR_USART3_REMAP_FULLREMAP u)
  else None.

Definition init_gpio (x : Z) (i : GPIO_InitTypeDef) u : option stm32_uart := g ← HAL_GPIO_Init x i (pins u); Some (set_pins g u).

(** The first part of stm32_gpio_configure: port and pin of TX and of RX, the number of the UART, and the entry of the table. *)
Definition uart_pin_config (c : stm32_uart_config) : option (Z * Z * Z * Z * Z * gpio_uart_remap) :=
  '(rx_port, rx_pin) ← get_pin_by_name (rx_pin_name c);
  '(tx_port, tx_pin) ← get_pin_by_name (tx_pin_name c);
  let '(tx_index, rx_index) := remap_loop uart_remaps 0 (stm32_get_pin tx_port tx_pin) (stm32_get_pin rx_port rx_pin) (0, 0) in
  t ← uart_remaps !! Z.to_nat tx_index;
  r ← uart_remaps !! Z.to_nat rx_index;
  _ ← assert (normal_uart t =? normal_uart r);
  _ ← assert (remap_uart t =? remap_uart r);
  digit ← cfg_name c !! 4%nat;
  Some (tx_port, tx_pin, rx_port, rx_pin, digit - 48, t).

Definition stm32_gpio_configure (c : stm32_uart_config) u : option (Z * stm32_uart) :=
  '(tx_port, tx_pin, rx_port, rx_pin, uart_num, t) ← uart_pin_config c;
  let uart_is_remap := remap_uart t =? uart_num in
  '(_, u) ← stm32_gpio_clk_enable tx_port u;
  '(_, u) ← (if negb (tx_port =? rx_port) then stm32_gpio_clk_enable rx_port u else Some (RT_EOK, u));
  u ← init_gpio tx_port {| Pin := tx_pin; Mode := GPIO_MODE_AF_PP; Pull := 0; Speed := GPIO_SPEED_FREQ_HIGH |} u;
  u ← init_gpio rx_port {| Pin := rx_pin; Mode := GPIO_MODE_INPUT; Pull := GPIO_NOPULL; Speed := GPIO_SPEED_FREQ_HIGH |} u;
  u ← (if uart_is_remap then remap_uart_pins uart_num (normal_uart t) u else Some u);
  Some (RT_EOK, u).

(** ** The operations for serial.c (drv_usart.c) *)
Definition uart_setting (c : serial_configure) : UART_InitTypeDef :=
  {| BaudRate := baud_rate c;
     WordLength := if data_bits c =? 8 then UART_WORDLENGTH_8B
                   else if data_bits c =? 9 then UART_WORDLENGTH_9B else UART_WORDLENGTH_8B;
     StopBits := if stop_bits c =? 0 then UART_STOPBITS_1
                 else if stop_bits c =? 1 then UART_STOPBITS_2 else UART_STOPBITS_1;
     Parity := if parity c =? 0 then UART_PARITY_NONE
               else if parity c =? 1 then UART_PARITY_ODD
               else if parity c =? 2 then UART_PARITY_EVEN else UART_PARITY_NONE;
     UartMode := UART_MODE_TX_RX; HwFlowCtl := UART_HWCONTROL_NONE; OverSampling := UART_OVERSAMPLING_16 |}.

Definition stm32_configure (cfg : serial_configure) u : option (Z * stm32_uart) :=
  let '(_, u) := stm32_uart_clk_enable UART1_CONFIG u in
  '(_, u) ← stm32_gpio_configure UART1_CONFIG u;
  let u := set_handle {| (handle u) with Init := uart_setting cfg |} u in
  '(e, u) ← HAL_UART_Init u;
  if negb (e =? HAL_OK) then Some (- RT_ERROR, u) else Some (RT_EOK, u).

Definition stm32_control (cmd : Z) (arg : serial_arg) u : option (Z * stm32_uart) :=
  if cmd =? RT_DEVICE_CTRL_CLR_INT then
    g ← HAL_NVIC_DisableIRQ (irq_type UART1_CONFIG) (pins u);
    Some (RT_EOK, __HAL_UART_DISABLE_IT UART_IT_RXNE (set_pins g u))
  else if cmd =? RT_DEVICE_CTRL_SET_INT then
    g ← HAL_NVIC_EnableIRQ (irq_type UART1_CONFIG) (pins u);
    Some (RT_EOK, __HAL_UART_ENABLE_IT UART_IT_RXNE (set_pins g u))
  else Some (RT_EOK, u).

(** Where a thread is in stm32_putc, between two accesses to the registers: it clears TC, writes the character, and reads
    the status register in the loop until TC is set. *)
Inductive putc_pc := PutClear | PutWrite | PutWait | PutReturned.

Definition putc_step (c : Z) (pc : putc_pc) u : putc_pc * stm32_uart :=
  match pc with
  | PutClear => (PutWrite, __HAL_UART_CLEAR_FLAG UART_FLAG_TC u)
  | PutWrite => (PutWait, set_wire (dr_write (usart u) (u8 c) (wire u)) u)
  | PutWait => let '(set, u) := __HAL_UART_GET_FLAG UART_FLAG_TC u in (if set : bool then PutReturned else PutWait, u)
  | PutReturned => (PutReturned, u)
  end.

Fixpoint putc_run (fuel : nat) (c : Z) (pc : putc_pc) u : option stm32_uart :=
  match pc with
  | PutReturned => Some u
  | _ =>
      match fuel with
      | O => None
      | S fuel => let '(pc, u) := putc_step c pc u in putc_run fuel c pc u
      end
  end.

(** A frame is over after [frame_time] reads of the status register, and one more sees it. *)
Definition stm32_putc (c : Z) u : option (Z * stm32_uart) :=
  u ← putc_run (4 + frame_time) c PutClear u; Some (1, u).

Definition stm32_getc u : Z * stm32_uart :=
  let '(set, u) := __HAL_UART_GET_FLAG UART_FLAG_RXNE u in
  if set then (Z.land (DR (wire u)) 0xff, set_wire (dr_read (wire u)) u) else (-1, u).

#[export] Instance putc_pc_dec : EqDecision putc_pc.
Proof. solve_decision. Defined.

#[export] Instance stm32_uart_ops : Uart stm32_uart := {
  uart_configure := Some stm32_configure;
  uart_control := stm32_control;
  uart_putc := stm32_putc;
  uart_getc := stm32_getc
}.

(** ** The interrupt handler *)

(** [if (__HAL_UART_GET_FLAG(h, flag) != RESET) clear] *)
Definition if_flag (flag : Z) (clear : stm32_uart -> stm32_uart) u : stm32_uart :=
  let '(set, u) := __HAL_UART_GET_FLAG flag u in if set then clear u else u.

(** What it does when there is no character to take. *)
Definition uart_isr_clear u : stm32_uart :=
  let u := if_flag UART_FLAG_ORE __HAL_UART_CLEAR_PEFLAG u in
  let u := if_flag UART_FLAG_NE __HAL_UART_CLEAR_PEFLAG u in
  let u := if_flag UART_FLAG_FE __HAL_UART_CLEAR_PEFLAG u in
  let u := if_flag UART_FLAG_PE __HAL_UART_CLEAR_PEFLAG u in
  let u := if_flag UART_FLAG_LBD (__HAL_UART_CLEAR_FLAG UART_FLAG_LBD) u in
  let u := if_flag UART_FLAG_CTS (__HAL_UART_CLEAR_FLAG UART_FLAG_CTS) u in
  let u := if_flag UART_FLAG_TXE (__HAL_UART_CLEAR_FLAG UART_FLAG_TXE) u in
  let u := if_flag UART_FLAG_TC (__HAL_UART_CLEAR_FLAG UART_FLAG_TC) u in
  if_flag UART_FLAG_RXNE (__HAL_UART_CLEAR_FLAG UART_FLAG_RXNE) u.

(** The interrupt source is read only if the flag is set. *)
Definition uart_isr (fuel : nat) (d : rt_device) (s : rt_serial_device stm32_uart) (k : kernel)
  : option (option (Z * Z) * rt_serial_device stm32_uart * kernel) :=
  let '(set, u) := __HAL_UART_GET_FLAG UART_FLAG_RXNE (hw s) in
  let s := {| s with hw := u |} in
  if set && negb (__HAL_UART_GET_IT_SOURCE UART_IT_RXNE u =? 0) then rt_hw_serial_isr fuel RT_SERIAL_EVENT_RX_IND d s k
  else Some (None, {| s with hw := uart_isr_clear (hw s) |}, k).

Definition USART1_IRQHandler (fuel : nat) (d : rt_device) (s : rt_serial_device stm32_uart) (k : kernel)
  : option (option (Z * Z) * rt_serial_device stm32_uart * kernel) :=
  let k := rt_interrupt_enter k in
  '(call, s, k) ← uart_isr fuel d s k;
  Some (call, s, rt_interrupt_leave k).

(** ** rt_hw_usart_init, for the device at [o] *)
Definition rt_hw_usart_init (o : Z) (s : rt_serial_device stm32_uart) (ds : devices) (k : kernel)
  : option (Z * rt_serial_device stm32_uart * devices * kernel) :=
  let s := {| s with config := RT_SERIAL_CONFIG_DEFAULT |} in
  '(result, ds, k) ← rt_hw_serial_register o (cfg_name UART1_CONFIG)
    (Z.lor (Z.lor RT_DEVICE_FLAG_RDWR RT_DEVICE_FLAG_INT_RX) RT_DEVICE_FLAG_INT_TX) 0 ds k;
  _ ← assert (result =? RT_EOK);
  Some (result, s, ds, k).
End Driver.

(** ** The driver keeps the laws of serial.c *)
Lemma modify_bit r mask v n : Z.testbit mask n = true -> Z.testbit (MODIFY_REG r mask v) n = Z.testbit v n.
Proof. intros Hm. unfold MODIFY_REG. by rewrite Z.lor_spec, Z.ldiff_spec, Hm, andb_false_r. Qed.

Lemma modify_bit_ne r mask v n : Z.testbit mask n = false -> Z.testbit v n = false ->
  Z.testbit (MODIFY_REG r mask v) n = Z.testbit r n.
Proof. intros Hm Hv. unfold MODIFY_REG. by rewrite Z.lor_spec, Z.ldiff_spec, Hm, Hv, andb_true_r, orb_false_r. Qed.

(** A flag of one bit. *)
Lemma flag_set v n : 0 <= n -> (Z.land v (2 ^ n) =? 2 ^ n) = Z.testbit v n.
Proof.
  intros Hn. rewrite land_bit by done. destruct (Z.testbit v n); [apply Z.eqb_refl|].
  apply Z.eqb_neq. pose proof (pow2_pos n Hn). lia.
Qed.

(** Clearing one flag writes ones to the others. *)
Lemma not_flag n m : 0 <= n < 32 -> 0 <= m < 32 -> Z.testbit (u32 (Z.lnot (2 ^ n))) m = negb (m =? n).
Proof.
  intros Hn Hm. unfold wrap. rewrite <- Z.land_ones by lia. rewrite Z.land_spec, Z.testbit_ones_nonneg by lia.
  rewrite (proj2 (Z.ltb_lt m 32)), andb_true_r by lia. rewrite Z.lnot_spec, Z.pow2_bits_eqb by lia. by rewrite (Z.eqb_sym n m).
Qed.

Section Laws.
Context {H : Hardware} {HL : HardwareLaws} {W : Usart} {WL : UsartLaws}.
Implicit Types u : stm32_uart.

(** Switched on, with eight bits of data at least, and no frame under way. *)
Record uart_ready u : Prop := {
  ur_running : running (usart u) = true;
  ur_bits : 8 <= frame_bits (usart u);
  ur_idle : busy (wire u) = None;
  ur_shape : gpio_shape (pins u)
}.

(** The characters that wait, as the driver reads them. *)
Definition uart_line u : list Z := map (fun c => Z.land c 0xff) (rx (wire u)).

(** A parity bit has to be asked for together with nine bits; the registers are there and no frame is under way. *)
Definition uart_configurable (c : serial_configure) u : Prop :=
  (parity c = 1 \/ parity c = 2 -> data_bits c = 9) /\ busy (wire u) = None /\ gpio_shape (pins u).

Lemma get_tc u : __HAL_UART_GET_FLAG UART_FLAG_TC u = (tc (wire u), set_wire (sr_read (wire u)) u).
Proof. unfold __HAL_UART_GET_FLAG. change UART_FLAG_TC with (2 ^ 6). by rewrite flag_set. Qed.

Lemma get_rxne u : __HAL_UART_GET_FLAG UART_FLAG_RXNE u = (rxne (wire u), set_wire (sr_read (wire u)) u).
Proof. unfold __HAL_UART_GET_FLAG. change UART_FLAG_RXNE with (2 ^ 5). by rewrite flag_set. Qed.

(** What a thread in stm32_putc relies on, what makes its wait end, how many steps it takes at most, and what it is to send. *)
Definition putc_inv (pc : putc_pc) (p : port) : Prop :=
  match pc with
  | PutClear | PutReturned => busy p = None
  | PutWrite => busy p = None /\ tc p = false
  | PutWait => match busy p with Some n => (n <= frame_time)%nat /\ tc p = false | None => True end
  end.

Definition putc_ends (pc : putc_pc) (p : port) : Prop :=
  match pc with PutWait => busy p = None -> tc p = true | _ => True end.

Definition putc_left (pc : putc_pc) (p : port) : nat :=
  match pc with
  | PutClear => 5 + frame_time
  | PutWrite => 4 + frame_time
  | PutWait => match busy p with Some n => 3 + n | None => 2 end
  | PutReturned => 1
  end.

Definition putc_bytes (c : Z) (pc : putc_pc) : list Z :=
  match pc with PutClear | PutWrite => [u8 c] | _ => [] end.

(** The UART is switched on, with eight bits of data at least. *)
Definition uart_on u : Prop := running (usart u) = true /\ 8 <= frame_bits (usart u).

(** A step of stm32_putc gets it further, and if it ends nearer to its end. *)
Record putc_steps (c : Z) (pc : putc_pc) u (pc' : putc_pc) u' : Prop := {
  ps_inv : putc_inv pc' (wire u');
  ps_sent : exists l, tx (wire u') = tx (wire u) ++ l /\ putc_bytes c pc = l ++ putc_bytes c pc';
  ps_rx : rx (wire u') = rx (wire u);
  ps_usart : usart u' = usart u;
  ps_pins : pins u' = pins u;
  ps_ends : putc_ends pc (wire u) -> putc_ends pc' (wire u');
  ps_left : putc_ends pc (wire u) -> pc <> PutReturned -> (putc_left pc' (wire u') < putc_left pc (wire u))%nat
}.

Lemma putc_clear_step c u : putc_inv PutClear (wire u) ->
  putc_steps c PutClear u PutWrite (__HAL_UART_CLEAR_FLAG UART_FLAG_TC u).
Proof.
  intros Hb. unfold __HAL_UART_CLEAR_FLAG. change UART_FLAG_TC with (2 ^ 6). split; cbn [wire set_wire]; try done; simpl.
  - by rewrite sr_write_busy, sr_write_tc, not_flag, andb_false_r by lia.
  - exists []. by rewrite sr_write_tx, app_nil_r.
  - by rewrite sr_write_rx, not_flag by lia.
  - lia.
Qed.

Lemma putc_write_step c u : uart_on u -> putc_inv PutWrite (wire u) ->
  putc_steps c PutWrite u PutWait (set_wire (dr_write (usart u) (u8 c) (wire u)) u).
Proof.
  intros [Hr Hf] [Hb Ht]. destruct (dr_write_busy (usart u) (u8 c) (wire u) Hr Hb) as (n & Hn & Hle).
  split; cbn [wire set_wire]; try done; cbn [putc_inv putc_bytes putc_ends putc_left].
  - rewrite Hn. split; [done|]. by apply dr_write_tc.
  - exists [u8 c]. split; [|done]. rewrite dr_write_tx by done. do 2 f_equal. apply Z.mod_small. pose proof (wrap_bound 8 c ltac:(lia)). split; [lia|].
    apply Z.lt_le_trans with (2 ^ 8); [lia|]. by apply Z.pow_le_mono_r.
  - apply dr_write_rx.
  - by rewrite Hn.
  - rewrite Hn. lia.
Qed.

Lemma putc_wait_step c u : putc_inv PutWait (wire u) ->
  putc_steps c PutWait u (if tc (wire u) then PutReturned else PutWait) (set_wire (sr_read (wire u)) u).
Proof.
  cbn [putc_inv]. intros Hi. destruct (busy (wire u)) as [n|] eqn:Eb.
  - destruct Hi as [Hn Et]. rewrite Et. split; cbn [wire set_wire]; try done; cbn [putc_inv putc_bytes putc_ends putc_left];
      rewrite ?sr_read_tx, ?sr_read_rx, ?sr_read_busy, ?sr_read_tc, ?Eb; destruct n;
      (done || lia || (by split; [lia|]) || (exists []; by rewrite app_nil_r)).
  - destruct (tc (wire u)) eqn:Et; split; cbn [wire set_wire]; try done; cbn [putc_inv putc_bytes putc_ends putc_left];
      rewrite ?sr_read_tx, ?sr_read_rx, ?sr_read_busy, ?sr_read_tc, ?Eb, ?Et; (done || lia || (exists []; by rewrite app_nil_r) || idtac).
    intros Hc. by specialize (Hc eq_refl).
Qed.

Lemma putc_step_ok c pc u : uart_on u -> putc_inv pc (wire u) ->
  putc_steps c pc u (fst (putc_step c pc u)) (snd (putc_step c pc u)).
Proof.
  intros Hu Hi. destruct pc; cbn [putc_step fst snd].
  - by apply putc_clear_step.
  - by apply putc_write_step.
  - rewrite get_tc. by apply putc_wait_step.
  - split; try done. exists []. by rewrite app_nil_r.
Qed.

Lemma putc_run_ok c fuel pc u : uart_on u -> putc_inv pc (wire u) -> putc_ends pc (wire u) -> (putc_left pc (wire u) <= S fuel)%nat ->
  exists u', putc_run fuel c pc u = Some u' /\ busy (wire u') = None /\ tx (wire u') = tx (wire u) ++ putc_bytes c pc /\
    rx (wire u') = rx (wire u) /\ usart u' = usart u /\ pins u' = pins u.
Proof.
  revert pc u. induction fuel as [|fuel IH]; intros pc u Hu Hi He Hl.
  { destruct pc; cbn [putc_left] in Hl; try lia; [destruct (busy (wire u)); lia|]. exists u. by rewrite app_nil_r. }
  destruct (decide (pc = PutReturned)) as [->|Hne]; [exists u; by rewrite app_nil_r|].
  replace (putc_run (S fuel) c pc u) with (let '(pc, u) := putc_step c pc u in putc_run fuel c pc u) by (by destruct pc).
  destruct (putc_step_ok c pc u Hu Hi) as [H1 (l & H2 & Hl') H3 H4 H5 H6 H7]. destruct (putc_step c pc u) as [pc' u1]. cbn [fst snd] in *.
  destruct (IH pc' u1) as (u2 & -> & E1 & E2 & E3 & E4 & E5); [unfold uart_on; by rewrite H4|done|by apply H6|specialize (H7 He Hne); lia|].
  exists u2. split_and!; (done || congruence || by rewrite E2, H2, Hl', app_assoc).
Qed.

Lemma stm32_putc_ok c u : uart_ready u -> exists u', stm32_putc c u = Some (1, u') /\ uart_ready u' /\
  rx (wire u') = rx (wire u) /\ tx (wire u') = tx (wire u) ++ [u8 c] /\ usart u' = usart u /\ pins u' = pins u.
Proof.
  intros [Hr Hb Hi Hg]. unfold stm32_putc.
  destruct (putc_run_ok c (4 + frame_time) PutClear u) as (u' & -> & E1 & E2 & E3 & E4 & E5); try done.
  rewrite some_bind. exists u'. split; [done|]. split; [|done]. split; by rewrite ?E4, ?E5.
Qed.

(** Characters as the driver reads them are bytes. *)
Lemma line_byte c : fits 8 (Z.land c 0xff).
Proof. change 0xff with (Z.ones 8). rewrite Z.land_ones by lia. by apply (wrap_fits 8). Qed.

Lemma stm32_getc_ok u :
  usart (snd (stm32_getc u)) = usart u /\ pins (snd (stm32_getc u)) = pins u /\ tx (wire (snd (stm32_getc u))) = tx (wire u) /\
  (busy (wire u) = None -> busy (wire (snd (stm32_getc u))) = None) /\
  fst (stm32_getc u) = match uart_line u with [] => -1 | c :: _ => c end /\
  uart_line (snd (stm32_getc u)) = drop 1 (uart_line u).
Proof.
  unfold stm32_getc, uart_line. rewrite get_rxne, rxne_rx. pose proof (sr_read_rx (wire u)) as Hx.
  pose proof (rx_one (wire u)) as H1. destruct (rx (wire u)) as [|c [|]] eqn:E; [| |simpl in H1; lia]; cbn [fst snd usart pins wire set_wire].
  - rewrite sr_read_tx, sr_read_rx, E. split_and!; try done. intros Hb. by rewrite sr_read_busy, Hb.
  - rewrite dr_read_tx, sr_read_tx, dr_read_rx, (dr_first _ c []) by done. split_and!; try done.
    intros Hb. by rewrite dr_read_busy, sr_read_busy, Hb.
Qed.

(** The interrupt enable is no part of what makes the UART run. *)
Lemma cr1_kept (r r' : usart_regs) : (forall n, n <> 5 -> 0 <= n -> Z.testbit (CR1 r') n = Z.testbit (CR1 r) n) ->
  running r' = running r /\ frame_bits r' = frame_bits r.
Proof. intros Hn. unfold running, frame_bits. by rewrite !Hn. Qed.

Lemma disable_rxne u : usart (__HAL_UART_DISABLE_IT UART_IT_RXNE u) = {| (usart u) with CR1 := CLEAR_BIT (CR1 (usart u)) (2 ^ 5) |}.
Proof. done. Qed.

Lemma enable_rxne u : usart (__HAL_UART_ENABLE_IT UART_IT_RXNE u) = {| (usart u) with CR1 := SET_BIT (CR1 (usart u)) (2 ^ 5) |}.
Proof. done. Qed.

Lemma stm32_control_ok cmd arg u r u' : stm32_control cmd arg u = Some (r, u') -> uart_ready u ->
  uart_ready u' /\ wire u' = wire u /\ BRR (usart u') = BRR (usart u).
Proof.
  intros E [Hr Hb Hi Hg]. revert E. unfold stm32_control. change (irq_type UART1_CONFIG) with USART1_IRQn.
  destruct (cmd =? RT_DEVICE_CTRL_CLR_INT); [|destruct (cmd =? RT_DEVICE_CTRL_SET_INT); [|by intros [= <- <-]]].
  - destruct (nvic_set_ok USART1_IRQn (pins u) false Hg ltac:(done)) as (g & Eg & Hg' & _). cbv iota in Eg. rewrite Eg, some_bind.
    intros [= <- <-]. destruct (cr1_kept (usart u) (usart (__HAL_UART_DISABLE_IT UART_IT_RXNE (set_pins g u)))) as [E1 E2].
    { intros n Hn Hp. rewrite disable_rxne. cbn [CR1 usart set_pins]. rewrite clear_bit_at by done. by rewrite (proj2 (Z.eqb_neq n 5) Hn). }
    split; [|done]. by split; rewrite ?E1, ?E2.
  - destruct (nvic_set_ok USART1_IRQn (pins u) true Hg ltac:(done)) as (g & Eg & Hg' & _). cbv iota in Eg. rewrite Eg, some_bind.
    intros [= <- <-]. destruct (cr1_kept (usart u) (usart (__HAL_UART_ENABLE_IT UART_IT_RXNE (set_pins g u)))) as [E1 E2].
    { intros n Hn Hp. rewrite enable_rxne. cbn [CR1 usart set_pins]. rewrite set_bit_at by done. by rewrite (proj2 (Z.eqb_neq n 5) Hn). }
    split; [|done]. by split; rewrite ?E1, ?E2.
Qed.

(** ** Configuring *)

(** The bits of data in a frame of the configuration. *)
Definition setting_bits (c : serial_configure) : Z :=
  (if data_bits c =? 9 then 9 else 8) - (if (parity c =? 1) || (parity c =? 2) then 1 else 0).

Lemma setting_cr1 c r : let v := SET_BIT (MODIFY_REG r
    (Z.lor (Z.lor (Z.lor (Z.lor USART_CR1_M USART_CR1_PCE) USART_CR1_PS) USART_CR1_TE) USART_CR1_RE)
    (Z.lor (Z.lor (WordLength (uart_setting c)) (Parity (uart_setting c))) (UartMode (uart_setting c)))) USART_CR1_UE in
  Z.testbit v 13 && Z.testbit v 3 && Z.testbit v 2 = true /\
  (if Z.testbit v 12 then 9 else 8) - (if Z.testbit v 10 then 1 else 0) = setting_bits c.
Proof.
  intros v. unfold v. change USART_CR1_UE with (2 ^ 13). rewrite !set_bit_at by done. cbn [Z.eqb Pos.eqb orb andb]. rewrite !modify_bit by done.
  unfold setting_bits. cbn [WordLength Parity UartMode uart_setting]. split.
  - rewrite !Z.lor_spec. change (Z.testbit UART_MODE_TX_RX 3) with true. change (Z.testbit UART_MODE_TX_RX 2) with true.
    by rewrite !orb_true_r.
  - destruct (Z.eqb_spec (data_bits c) 8) as [->|_]; destruct (Z.eqb_spec (parity c) 0) as [->|_]; try done;
      try (destruct (Z.eqb_spec (data_bits c) 9)); try done;
      destruct (Z.eqb_spec (parity c) 1) as [->|_]; try done; by destruct (parity c =? 2).
Qed.

Lemma uart_init_ok c u e u' : Init (handle u) = uart_setting c -> HAL_UART_Init u = Some (e, u') ->
  e = HAL_OK /\ wire u' = wire u /\ pins u' = pins u /\ running (usart u') = true /\ frame_bits (usart u') = setting_bits c /\
  exists pclk, HAL_RCC_GetPCLK2Freq u = Some pclk /\ UART_BRR_SAMPLING16 pclk (baud_rate c) = Some (BRR (usart u')).
Proof.
  intros Hi. unfold HAL_UART_Init, UART_SetConfig.
  replace (Init (handle (uart_init_begin u))) with (uart_setting c) by (unfold uart_init_begin; by destruct (gState _ =? _)).
  change (HAL_RCC_GetPCLK2Freq (uart_init_begin u)) with (HAL_RCC_GetPCLK2Freq u).
  destruct (HAL_RCC_GetPCLK2Freq u) as [pclk|]; [|done]. rewrite some_bind.
  change (BaudRate (uart_setting c)) with (baud_rate c).
  destruct (UART_BRR_SAMPLING16 pclk (baud_rate c)) as [brr|] eqn:Eb; [|done]. rewrite !some_bind. intros [= <- <-].
  destruct (setting_cr1 c (CR1 (usart (uart_init_begin u)))) as [H1 H2].
  split_and!; [done|done|done|exact H1|exact H2|]. exists pclk. by split.
Qed.

(** The pins of the UART: PA9 is its output, PA10 its input. *)
Definition tx_init : GPIO_InitTypeDef := {| Pin := 2 ^ 9; Mode := GPIO_MODE_AF_PP; Pull := 0; Speed := GPIO_SPEED_FREQ_HIGH |}.
Definition rx_init : GPIO_InitTypeDef :=
  {| Pin := 2 ^ 10; Mode := GPIO_MODE_INPUT; Pull := GPIO_NOPULL; Speed := GPIO_SPEED_FREQ_HIGH |}.

Lemma init_gpio_ok i u : gpio_shape (pins u) -> fits 2 (Speed i) -> fits 16 (Pin i) -> Mode i = GPIO_MODE_AF_PP \/ Mode i = GPIO_MODE_INPUT ->
  exists g, init_gpio 0 i u = Some (set_pins g u) /\ gpio_shape g /\ same_control (pins u) g /\
    (forall y m, 0 <= y -> 0 <= m < 16 ->
       view g y m = if (y =? 0) && Z.testbit (Pin i) m then asked i <$> view (pins u) y m else view (pins u) y m) /\
    (forall m, 0 <= m < 16 -> line_of g m = line_of (pins u) m).
Proof.
  intros Hg Hs Hp Hm. unfold init_gpio. destruct (gpio_init_ok 0 i (pins u) Hg ltac:(lia) Hs Hp) as (g & -> & Hg' & Hc & Hv & Hl).
  rewrite some_bind. exists g. split_and!; try done. intros m Hr. rewrite Hl by done.
  destruct Hm as [-> | ->]; by rewrite andb_false_r.
Qed.

Lemma uart1_pins : uart_pin_config UART1_CONFIG = Some (0, 512, 0, 1024, 1, remap 0 9 1 (-1)).
Proof. vm_compute. reflexivity. Qed.

Lemma gpio_configure_ok u : gpio_shape (pins u) -> exists g, stm32_gpio_configure UART1_CONFIG u = Some (RT_EOK, set_pins g u) /\
  gpio_shape g /\ same_control (pins u) g /\
  (forall y m, 0 <= y -> 0 <= m < 16 -> view g y m =
     if (y =? 0) && (m =? 9) then asked tx_init <$> view (pins u) y m
     else if (y =? 0) && (m =? 10) then asked rx_init <$> view (pins u) y m else view (pins u) y m) /\
  (forall m, 0 <= m < 16 -> line_of g m = line_of (pins u) m).
Proof.
  intros Hg. unfold stm32_gpio_configure. rewrite uart1_pins, some_bind. cbv zeta. unfold stm32_gpio_clk_enable.
  cbn [assert andb Z.leb Z.ltb Z.compare negb Z.eqb remap_uart remap]. rewrite !some_bind.
  set (u1 := set_pins _ u). change {| Pin := 512; Mode := _; Pull := 0; Speed := _ |} with tx_init.
  change {| Pin := 1024; Mode := _; Pull := _; Speed := _ |} with rx_init.
  assert (gpio_shape (pins u1)) as Hg1 by (by destruct Hg).
  destruct (init_gpio_ok tx_init u1 Hg1 ltac:(done) ltac:(done) ltac:(by left)) as (g2 & -> & Hg2 & Hc2 & Hv2 & Hl2). rewrite some_bind.
  destruct (init_gpio_ok rx_init (set_pins g2 u1) Hg2 ltac:(done) ltac:(done) ltac:(by right)) as (g3 & -> & Hg3 & Hc3 & Hv3 & Hl3).
  rewrite some_bind. rewrite some_bind. exists g3.
  split; [done|]. split; [done|]. split; [destruct Hc2, Hc3; split; simpl in *; congruence|]. split; [|intros m Hm; rewrite Hl3 by done; by apply Hl2].
  intros y m Hy Hm. rewrite Hv3 by done. cbn [pins set_pins]. rewrite Hv2 by done. cbn [Pin tx_init rx_init].
  rewrite !Z.pow2_bits_eqb, (Z.eqb_sym 9 m), (Z.eqb_sym 10 m) by lia.
  destruct (y =? 0); [|done]. cbn [andb]. destruct (Z.eqb_spec m 9) as [->|]; [done|]. done.
Qed.

Lemma stm32_configure_ok c u e u' : gpio_shape (pins u) -> stm32_configure c u = Some (e, u') ->
  e = RT_EOK /\ wire u' = wire u /\ gpio_shape (pins u') /\ running (usart u') = true /\ frame_bits (usart u') = setting_bits c /\
  (exists pclk, HAL_RCC_GetPCLK2Freq u = Some pclk /\ UART_BRR_SAMPLING16 pclk (baud_rate c) = Some (BRR (usart u'))) /\
  (forall x, (view (pins u') 0 9 = Some x -> v_config x = 0xB) /\ (view (pins u') 0 10 = Some x -> v_config x = 4)).
Proof.
  intros Hg. unfold stm32_configure. destruct (stm32_uart_clk_enable UART1_CONFIG u) as [e0 u0] eqn:E0.
  injection E0 as <- <-. set (u0 := set_pins _ u). assert (gpio_shape (pins u0)) as Hg0 by (by destruct Hg).
  destruct (gpio_configure_ok u0 Hg0) as (g & -> & Hg' & _ & Hv & _). rewrite some_bind. cbv zeta.
  set (u1 := set_handle _ _). destruct (HAL_UART_Init u1) as [[e1 u2]|] eqn:E1; [|done]. rewrite some_bind.
  apply (uart_init_ok c) in E1 as (-> & Hw & Hp & Hr & Hf & Hb); [|done]. cbn [Z.eqb negb HAL_OK]. intros [= <- <-].
  rewrite Hp, Hw. split_and!; try done.
  pose proof (Hv 0 9 ltac:(lia) ltac:(lia)) as H9. pose proof (Hv 0 10 ltac:(lia) ltac:(lia)) as H10.
  intros x. change (pins u1) with g. rewrite H9, H10.
  split; cbn [Z.eqb andb Pos.eqb].
  - by destruct (view (pins u0) 0 9); [intros [= <-]|].
  - by destruct (view (pins u0) 0 10); [intros [= <-]|].
Qed.

Lemma line_nil u : uart_line u = [] -> rx (wire u) = [].
Proof. unfold uart_line. by destruct (rx (wire u)). Qed.

(** Characters that come one after the other: the first is kept. *)
Definition wires_in (cs : list Z) (p : port) : port := foldl (fun p c => wire_in c p) p cs.

Lemma wires_busy cs p : busy (wires_in cs p) = busy p.
Proof. revert p. induction cs as [|c cs IH]; intros p; [done|]. unfold wires_in in *. cbn [foldl]. by rewrite IH, wire_busy. Qed.

Lemma byte_char c : fits 8 c -> fits 9 c.
Proof. unfold fits. lia. Qed.

Lemma byte_land c : fits 8 c -> Z.land c 0xff = c.
Proof. intros Hc. change 0xff with (Z.ones 8). rewrite Z.land_ones by lia. by apply Z.mod_small. Qed.

Lemma wires_full c cs p : Forall (fits 8) cs -> rx p = [c] -> rx (wires_in cs p) = [c].
Proof.
  intros Hcs. revert p. induction Hcs as [|c' cs Hc _ IH]; intros p Hx; [done|]. apply IH. by rewrite wire_rx, Hx by (by apply byte_char).
Qed.

Lemma wires_line cs p : Forall (fits 8) cs -> rx p = [] -> map (fun c => Z.land c 0xff) (rx (wires_in cs p)) = take 1 cs.
Proof.
  intros Hcs Hx. destruct Hcs as [|c cs Hc Hcs]; [unfold wires_in; cbn [foldl]; by rewrite Hx|].
  change (wires_in (c :: cs) p) with (wires_in cs (wire_in c p)). rewrite (wires_full c) by (done || (rewrite wire_rx, Hx; [done|by apply byte_char])).
  cbn [map]. by rewrite byte_land.
Qed.

#[export] Instance stm32_uart_laws : Serial.UartLaws stm32_uart.
Proof.
  refine (Serial.Build_UartLaws stm32_uart _ uart_line (fun u => tx (wire u)) (fun cs u => set_wire (wires_in cs (wire u)) u)
    1 uart_ready uart_configurable _ _ _ _ _ _ _ _ _ _).
  - intros u. unfold uart_line. apply Forall_map, Forall_true. apply line_byte.
  - intros u. cbn [uart_getc stm32_uart_ops]. destruct (stm32_getc_ok u) as (_ & _ & _ & _ & Hf & Hl).
    rewrite Hf, Hl. by destruct (uart_line u).
  - intros u [Hr Hb Hi Hg]. cbn [uart_getc stm32_uart_ops]. destruct (stm32_getc_ok u) as (Hu & Hp & _ & Hbu & _).
    split; rewrite ?Hu, ?Hp; auto.
  - intros c u Hu. destruct (stm32_putc_ok c u Hu) as (u' & E & Hu' & Hx & Ht & _). exists 1, u'.
    split; [exact E|]. split; [done|]. split; [unfold uart_line; by rewrite Hx|exact Ht].
  - intros cmd arg u r u' E Hu. destruct (stm32_control_ok cmd arg u r u' E Hu) as (Hu' & Hw & _).
    split; [done|]. unfold uart_line. by rewrite Hw.
  - intros f c u r u' [= <-] E. assert (r = RT_EOK \/ r = - RT_ERROR) as [-> | ->]; [|done..].
    revert E. unfold stm32_configure. destruct (stm32_uart_clk_enable _ _). destruct (stm32_gpio_configure _ _) as [[]|]; [|done].
    rewrite some_bind. cbv zeta. destruct (HAL_UART_Init _) as [[]|]; [|done]. rewrite some_bind.
    destruct (negb _); intros [= <- _]; auto.
  - intros f c u u' [= <-] E (Hp & Hb & Hg). destruct (stm32_configure_ok c u _ u' Hg E) as (_ & Hw & Hg' & Hr & Hf & _).
    clear E. split; [|unfold uart_line; by rewrite Hw]. split; [done| |by rewrite Hw|done]. rewrite Hf. unfold setting_bits.
    destruct (Z.eqb_spec (parity c) 1) as [H1|H1]; destruct (Z.eqb_spec (parity c) 2) as [H2|H2]; simpl;
      try (rewrite Hp by auto; done); destruct (data_bits c =? 9); lia.
  - intros cs u [Hr Hb Hi Hg]. split; try done. cbn [wire set_wire]. by rewrite wires_busy.
  - lia.
  - intros cs u _ Hcs Hl. apply line_nil in Hl. unfold uart_line. cbn [wire set_wire]. by apply wires_line.
Defined.
End Laws.

(** ** The device, open for interrupt reception and polled sending *)
Section Open.
Context {H : Hardware} {HL : HardwareLaws} {W : Usart} {WL : UsartLaws}.
Implicit Types u : stm32_uart.
Implicit Types s : rt_serial_device stm32_uart.

(** The interrupt of a character that came reaches the processor. *)
Definition listening u : Prop := Z.testbit (CR1 (usart u)) 5 = true /\ enabled (pins u) USART1_IRQn = true.

Lemma uart_never_refuses : never_refuses (U := stm32_uart).
Proof.
  intros x u r u' Hu E. destruct (stm32_putc_ok x u Hu) as (u1 & E1 & _). cbn [uart_putc stm32_uart_ops] in E.
  rewrite E1 in E. by injection E as <- _.
Qed.

(** RT_DEVICE_CTRL_SET_INT makes it listen. *)
Lemma set_int_listens arg u r u' : uart_ready u -> stm32_control RT_DEVICE_CTRL_SET_INT arg u = Some (r, u') ->
  listening u' /\ wire u' = wire u.
Proof.
  intros [Hr Hb Hi Hg]. unfold stm32_control. change (RT_DEVICE_CTRL_SET_INT =? RT_DEVICE_CTRL_CLR_INT) with false.
  change (RT_DEVICE_CTRL_SET_INT =? RT_DEVICE_CTRL_SET_INT) with true. cbv iota. change (irq_type UART1_CONFIG) with USART1_IRQn.
  destruct (nvic_set_ok USART1_IRQn (pins u) true Hg ltac:(done)) as (g & Eg & Hg' & _ & He). cbv iota in Eg. rewrite Eg, some_bind.
  intros [= <- <-]. split; [|done]. split.
  - rewrite enable_rxne. cbn [CR1]. by rewrite set_bit_at.
  - change (enabled g USART1_IRQn = true). by rewrite He.
Qed.

Lemma open_listens oflag d s k d1 s1 k1 : serial_rx s = None -> has_flag oflag RT_DEVICE_FLAG_INT_RX = true ->
  has_flag oflag RT_DEVICE_FLAG_INT_TX = false -> uart_ready (hw s) -> rt_serial_open oflag d s k = Some (RT_EOK, d1, s1, k1) ->
  listening (hw s1) /\ wire (hw s1) = wire (hw s) /\ has_flag (open_flag d1) RT_DEVICE_FLAG_INT_TX = false.
Proof.
  intros Hn Hrx Htx Hu. unfold rt_serial_open. repeat (destruct (lacks _ _ _); [done|]). cbv zeta. unfold open_rx. rewrite Hn, Hrx.
  destruct (rt_malloc _ _) as [[[p|] h]|]; [|done..]. rewrite !some_bind. unfold uart_do. cbn [hw uart_control stm32_uart_ops].
  destruct (stm32_control _ _ (hw s)) as [[r u]|] eqn:E; [|done]. rewrite !some_bind.
  apply set_int_listens in E as [Hl Hw]; [|done]. unfold open_tx. rewrite Htx.
  assert (forall fl x, Z.land x RT_DEVICE_FLAG_INT_TX = 0 ->
    has_flag (Z.lor (Z.lor (Z.land fl 0xff) RT_DEVICE_FLAG_INT_RX) x) RT_DEVICE_FLAG_INT_TX = false) as Hf.
  { intros fl x Hx. rewrite !has_flag_lor_ne by done. unfold has_flag. rewrite <- Z.land_assoc.
    change (Z.land 255 RT_DEVICE_FLAG_INT_TX) with 0. by rewrite Z.land_0_r. }
  cbn [serial_tx]. destruct (serial_tx s); rewrite some_bind; intros [= <- <- <-];
    (split; [exact Hl|split; [exact Hw|]]); apply Hf; by destruct (_ || _).
Qed.

(** The device after rt_device_open. *)
Record uart_open (d : rt_device) s : Prop := {
  uo_receiving : receiving d s;
  uo_polled : has_flag (open_flag d) RT_DEVICE_FLAG_INT_TX = false;
  uo_listening : listening (hw s)
}.

Lemma device_open_uart oflag d s k d1 s1 k1 : device_ok d -> uart_able d s -> serial_rx s = None ->
  has_flag oflag RT_DEVICE_FLAG_INT_RX = true -> has_flag oflag RT_DEVICE_FLAG_INT_TX = false ->
  2 <= bufsz (config s) < 2 ^ 16 -> rx (wire (hw s)) = [] ->
  rt_device_open serial_ops oflag d s k = Some (RT_EOK, d1, s1, k1) ->
  uart_open d1 s1 /\ queue s1 = [] /\ config s1 = config s.
Proof.
  intros Hd Ha Hn Hrx Htx Hb Hx E.
  destruct (device_open_receiving oflag d s k d1 s1 k1 Hd Ha Hn Hrx Hb) as (Hr & Hq & Hc); [|exact E|].
  { change (uart_line (hw s) = []). unfold uart_line. by rewrite Hx. }
  split; [|done]. destruct (device_open_serial oflag d s k d1 s1 k1 (do_class _ Hd) E) as (d2 & s2 & k2 & d3 & E3 & _ & Hn2 & _ & Hof & _ & Hr2).
  destruct (Hr2 Ha) as [Hu2 _]. destruct (open_listens oflag d2 s2 k2 d3 s1 k1 (Hn2 Hn) Hrx Htx Hu2 E3) as (Hl & _ & Hp).
  split; [done| |done]. rewrite Hof, has_flag_lor_ne by done. done.
Qed.

(** ** The interrupt handler *)
Lemma enter_leave k : fits 8 (interrupt_nest k) -> rt_interrupt_leave (rt_interrupt_enter k) = k.
Proof.
  intros Hn. unfold rt_interrupt_leave, rt_interrupt_enter. cbn [interrupt_nest].
  replace (u8 (u8 (interrupt_nest k + 1) - 1)) with (interrupt_nest k); [by destruct k|].
  rewrite wrap_sub_l. symmetry. replace (interrupt_nest k + 1 - 1) with (interrupt_nest k) by lia. by apply wrap_id.
Qed.

(** What everything but the sending thread does to the sender: nothing is sent, and a frame that is under way comes nearer to its
    end.  If TC is [kept], it is set from the end of the frame on. *)
Record drift (kept : bool) (p p' : port) : Prop := {
  df_tx : tx p' = tx p;
  df_idle : busy p = None -> busy p' = None /\ (tc p = false -> tc p' = false) /\ (kept = true -> tc p' = tc p);
  df_busy n : busy p = Some n -> tc p = false ->
    match busy p' with Some m => (m <= n)%nat /\ tc p' = false | None => kept = true -> tc p' = true end
}.

#[export] Instance drift_preorder kept : PreOrder (drift kept).
Proof.
  split; [intros p; split; [done|done|by intros n -> Ht]|]. intros p1 p2 p3 [H1 H2 H3] [H4 H5 H6]. split; [congruence| |].
  - intros Hb. destruct (H2 Hb) as (Hb2 & Ht & Hk). destruct (H5 Hb2) as (Hb3 & Ht3 & Hk3). split; [done|]. split; [auto|].
    intros Hkept. by rewrite Hk3, Hk.
  - intros n Hb Ht. specialize (H3 n Hb Ht). destruct (busy p2) as [m|] eqn:Eb.
    + destruct H3 as [Hm Ht2]. specialize (H6 m eq_refl Ht2). destruct (busy p3); [|done]. destruct H6. split; [lia|done].
    + destruct (H5 eq_refl) as (-> & _ & Hk3). intros Hkept. by rewrite Hk3, H3.
Qed.

(** Time that passes, and reading the status register, which takes time. *)
Lemma passing_drift kept p p' : tx p' = tx p -> busy p' = match busy p with Some (S n) => Some n | _ => None end ->
  tc p' = match busy p with Some O => true | _ => tc p end -> drift kept p p'.
Proof.
  intros H1 H2 H3. split; [done|intros Hb; by rewrite H2, H3, Hb|].
  intros n Hb Ht. rewrite H2, H3, Hb. destruct n; [done|]. split; [lia|done].
Qed.

Lemma sr_read_drift kept p : drift kept p (sr_read p).
Proof. apply passing_drift; [apply sr_read_tx|apply sr_read_busy|apply sr_read_tc]. Qed.

Lemma elapse_drift kept p : drift kept p (elapse p).
Proof. apply passing_drift; [apply elapse_tx|apply elapse_busy|apply elapse_tc]. Qed.

Lemma same_drift kept p p' : tx p' = tx p -> busy p' = busy p -> tc p' = tc p -> drift kept p p'.
Proof. intros H1 H2 H3. split; [done|by rewrite H2, H3|]. intros n Hb Ht. by rewrite H2, H3, Hb. Qed.

Lemma dr_read_drift kept p : drift kept p (dr_read p).
Proof. apply same_drift; [apply dr_read_tx|apply dr_read_busy|apply dr_read_tc]. Qed.

Lemma wire_drift kept c p : drift kept p (wire_in c p).
Proof. apply same_drift; [apply wire_tx|apply wire_busy|apply wire_tc]. Qed.

Lemma sr_write_drift v p : drift false p (sr_write v p).
Proof.
  split; [apply sr_write_tx|intros Hb|intros n Hb Ht]; rewrite sr_write_busy, ?sr_write_tc, Hb, ?Ht; [|done].
  split; [done|]. split; [by intros ->|done].
Qed.

(** The registers [r] and the pins [g] stay, and the port drifts from [p]. *)
Definition drifted (kept : bool) (r : usart_regs) (g : gpio) (p : port) u : Prop :=
  usart u = r /\ pins u = g /\ drift kept p (wire u).

Lemma drifted_by kept r g p u p' : drifted kept r g p u -> drift kept (wire u) p' -> drifted kept r g p (set_wire p' u).
Proof. intros (H1 & H2 & H3) H4. split_and!; try done. cbn [wire set_wire]. by transitivity (wire u). Qed.

Lemma getc_drifted kept r g p u : drifted kept r g p u -> drifted kept r g p (snd (uart_getc u)).
Proof.
  intros Hd. cbn [uart_getc stm32_uart_ops]. unfold stm32_getc. rewrite get_rxne.
  pose proof (drifted_by _ _ _ _ _ _ Hd (sr_read_drift _ _)) as Hd1. destruct (rxne (wire u)); [|done].
  exact (drifted_by _ _ _ _ _ _ Hd1 (dr_read_drift _ _)).
Qed.

(** Clearing the flags when there is no character may clear TC. *)
Definition quiet (r : usart_regs) (g : gpio) (p : port) u : Prop := rx (wire u) = [] /\ drifted false r g p u.

Lemma if_flag_quiet r g p flag clear u : (forall u, quiet r g p u -> quiet r g p (clear u)) ->
  quiet r g p u -> quiet r g p (if_flag flag clear u).
Proof.
  intros Hc [H1 H2]. unfold if_flag, __HAL_UART_GET_FLAG.
  assert (quiet r g p (set_wire (sr_read (wire u)) u)) as Hq.
  { split; [cbn [wire set_wire]; by rewrite sr_read_rx|]. apply drifted_by; [done|apply sr_read_drift]. }
  destruct (_ =? _); auto.
Qed.

Lemma clear_pe_quiet r g p u : quiet r g p u -> quiet r g p (__HAL_UART_CLEAR_PEFLAG u).
Proof.
  intros [H1 H2]. split; [apply dr_read_rx|]. apply drifted_by; [done|]. transitivity (sr_read (wire u)); [apply sr_read_drift|apply dr_read_drift].
Qed.

Lemma clear_flag_quiet r g p flag u : quiet r g p u -> quiet r g p (__HAL_UART_CLEAR_FLAG flag u).
Proof.
  intros [H1 H2]. split; [|apply drifted_by; [done|apply sr_write_drift]].
  unfold __HAL_UART_CLEAR_FLAG. cbn [wire set_wire]. rewrite sr_write_rx. by destruct (Z.testbit _ 5).
Qed.

Lemma isr_clear_quiet r g p u : quiet r g p u -> quiet r g p (uart_isr_clear u).
Proof. intros Hq. unfold uart_isr_clear. repeat (apply if_flag_quiet; [intros; by apply clear_pe_quiet || by apply clear_flag_quiet|]). done. Qed.

(** The device in use: open for interrupt reception and polled sending, with a frame under way or not. *)
Record live (d : rt_device) s : Prop := {
  lv_class : is_device d = true;
  lv_open : 0 < ref_count d;
  lv_mode : has_flag (open_flag d) RT_DEVICE_FLAG_INT_RX = true;
  lv_polled : has_flag (open_flag d) RT_DEVICE_FLAG_INT_TX = false;
  lv_serial : serial_ok s;
  lv_listening : listening (hw s);
  lv_on : uart_on (hw s)
}.

Lemma open_live d s : uart_open d s -> live d s /\ rx (wire (hw s)) = [] /\ busy (wire (hw s)) = None.
Proof.
  intros [[H1 H2 H3 H4 H5 [R1 R2 R3 R4]] Hp Hl]. split; [by split|]. split; [|done]. by apply line_nil.
Qed.

(** What the driver and the UART keep, when [hw] drifts. *)
Lemma live_keeps d s s' : live d s -> serial_ok s' -> usart (hw s') = usart (hw s) -> pins (hw s') = pins (hw s) -> live d s'.
Proof. intros [H1 H2 H3 H4 H5 H6 H7] Hs Hu Hp. split; try done; unfold listening, uart_on in *; by rewrite Hu, ?Hp. Qed.

(** What the interrupt handler calls when [cs] came. *)
Definition irq_call (g : option Z) (cs q : list Z) : option (Z * Z) :=
  match cs with [] => None | _ => indication g q end.

Lemma queue_fits s : serial_ok s -> lenZ (queue s) <= capacity s.
Proof.
  intros (f & Ef & Hf). unfold queue, capacity. rewrite Ef.
  rewrite length_received by done. pose proof (fifo_len_range _ f Hf). lia.
Qed.

(** A character waits or not. *)
Lemma rxne_line u : rxne (wire u) = match uart_line u with [] => false | _ => true end.
Proof. rewrite rxne_rx. unfold uart_line. by destruct (rx (wire u)). Qed.

Lemma line_one u : (length (uart_line u) <= 1)%nat.
Proof. unfold uart_line. rewrite length_map. apply rx_one. Qed.

Lemma irq_ok d s k : live d s -> fits 8 (interrupt_nest k) -> exists s',
  USART1_IRQHandler 2 d s k = Some (irq_call (rx_indicate d) (uart_line (hw s)) (queue s'), s', k) /\
  live d s' /\ queue s' = keep (capacity s) (queue s ++ uart_line (hw s)) /\ config s' = config s /\ rx (wire (hw s')) = [] /\
  drifted (rxne (wire (hw s))) (usart (hw s)) (pins (hw s)) (wire (hw s)) (hw s').
Proof.
  intros Hv Hk. unfold USART1_IRQHandler, uart_isr. cbv zeta. rewrite get_rxne. set (u1 := set_wire (sr_read (wire (hw s))) (hw s)).
  assert (forall kept, drifted kept (usart (hw s)) (pins (hw s)) (wire (hw s)) u1) as Hd1 by (intros; split_and!; [done|done|apply sr_read_drift]).
  assert (uart_line u1 = uart_line (hw s)) as Hline by (unfold uart_line, u1; cbn [wire set_wire]; by rewrite sr_read_rx).
  pose proof (line_one (hw s)) as H1. rewrite rxne_line. destruct (uart_line (hw s)) as [|c l] eqn:El; cbn [andb].
  - rewrite some_bind, enter_leave by done. eexists. split; [done|]. cbn [hw].
    destruct (isr_clear_quiet (usart (hw s)) (pins (hw s)) (wire (hw s)) u1) as [Hx Hd].
    { split; [|done]. by apply line_nil. }
    split; [apply (live_keeps d s); [done|exact (lv_serial _ _ Hv)|exact (proj1 Hd)|exact (proj1 (proj2 Hd))]|].
    split; [|exact (conj eq_refl (conj Hx Hd))]. rewrite app_nil_r.
    exact (eq_sym (keep_short _ _ (queue_fits s (lv_serial _ _ Hv)))).
  - assert ((__HAL_UART_GET_IT_SOURCE UART_IT_RXNE u1 =? 0) = false) as ->.
    { change (__HAL_UART_GET_IT_SOURCE UART_IT_RXNE u1) with (Z.land (CR1 (usart (hw s))) (2 ^ 5)).
      by rewrite land_bit, (proj1 (lv_listening _ _ Hv)). }
    cbn [negb]. set (s1 := {| s with hw := u1 |}).
    destruct (isr_rx_ok 2 d s1 (rt_interrupt_enter k)) as (s2 & E & Hs2 & Hq2 & Hl & Hc2 & _).
    { by destruct (lv_serial _ _ Hv) as (f & Ef & Hf); exists f. }
    { change (line (hw s1)) with (uart_line u1). rewrite Hline. lia. }
    change {| config := _; hw := _ |} with s1. rewrite E, some_bind, enter_leave by done. exists s2. split; [done|].
    change (line (hw s1)) with (uart_line u1) in Hq2. rewrite Hline in Hq2.
    assert (drifted true (usart (hw s)) (pins (hw s)) (wire (hw s)) (hw s2)) as Hd.
    { revert E. unfold rt_hw_serial_isr. change (Z.land RT_SERIAL_EVENT_RX_IND 0xff =? RT_SERIAL_EVENT_RX_IND) with true.
      cbv zeta iota. destruct (serial_rx s1); [|done]. rewrite some_bind.
      destruct (rx_ind_loop _ s1) as [s3|] eqn:E3; [|done]. rewrite some_bind. destruct (serial_rx s3); [|done]. rewrite some_bind.
      intros [= _ <-]. apply (rx_ind_keeps _ _ _ _ (getc_drifted true (usart (hw s)) (pins (hw s)) (wire (hw s)))) in E3; [exact E3|apply Hd1]. }
    split; [apply (live_keeps d s); [done|done|apply Hd|apply Hd]|]. split; [done|]. split; [done|]. split; [by apply line_nil|done].
Qed.

(** The arithmetic of the divisor: it does not overflow, and it rounds. *)
Lemma brr_rounds p b : p * 25 < 2 ^ 32 -> 0 < b -> 16 * b <= p <= 65535 * b -> exists B, UART_BRR_SAMPLING16 p b = Some B /\
  - 66 * b < 100 * (B * b - p) <= 50 * b /\ 16 <= B < 2 ^ 16.
Proof.
  intros Hp Hb Hr. unfold UART_BRR_SAMPLING16, UART_DIV_SAMPLING16. rewrite !wrap_id by (unfold fits; lia).
  rewrite (proj2 (Z.eqb_neq _ _)) by lia. cbn [negb assert]. rewrite !some_bind.
  set (D := p * 25 / (4 * b)). assert (0 <= D < 2 ^ 28) as HD by (unfold D; split; [apply Z.div_pos; lia|apply Z.div_lt_upper_bound; lia]).
  assert (4 * b * D <= p * 25 < 4 * b * D + 4 * b) as HDb.
  { pose proof (Z.div_mod (p * 25) (4 * b) ltac:(lia)) as Hdm. pose proof (Z.mod_pos_bound (p * 25) (4 * b) ltac:(lia)). fold D in Hdm. lia. }
  unfold UART_DIVFRAQ_SAMPLING16, UART_DIVMANT_SAMPLING16. cbv zeta. set (M := D / 100).
  assert (0 <= M /\ 100 * M <= D < 100 * M + 100) as [HM HMD] by (unfold M; dlia).
  rewrite !(wrap_id 32 (M * 100)), !(wrap_id 32 (D - M * 100)), !(wrap_id 32 ((D - M * 100) * 16)),
    !(wrap_id 32 ((D - M * 100) * 16 + 50)) by (unfold fits; lia).
  set (F := ((D - M * 100) * 16 + 50) / 100). assert (100 * F <= (D - M * 100) * 16 + 50 < 100 * F + 100) as HF by (unfold F; dlia).
  assert (Z.land F 0xF0 + Z.land F 0x0F = F) as HFs.
  { assert (0 <= F < 17) as HF17 by lia. assert (all_below 17 (fun F => Z.land F 0xF0 + Z.land F 0x0F =? F) = true) as Ha by (vm_compute; reflexivity).
    apply Z.eqb_eq. exact (all_below_spec 17 (fun F => Z.land F 0xF0 + Z.land F 0x0F =? F) F Ha HF17). }
  rewrite Z.shiftl_mul_pow2 by lia. change (2 ^ 4) with 16.
  assert (0 <= Z.land F 240 /\ 0 <= Z.land F 15) as [HF1 HF2] by (split; apply Z.land_nonneg; lia).
  rewrite !(wrap_id 32 (M * 16)), !(wrap_id 32 (M * 16 + Z.land F 240)), !(wrap_id 32 (M * 16 + Z.land F 240 + Z.land F 15)) by (unfold fits; lia).
  exists (M * 16 + F). split; [f_equal; lia|]. assert (16 * D - 50 < 100 * (M * 16 + F) <= 16 * D + 50) as HB by lia.
  assert (- 66 * b < 100 * ((M * 16 + F) * b - p) <= 50 * b) as Hc by nia. split; [exact Hc|]. nia.
Qed.

Lemma view_some g x n : gpio_shape g -> 0 <= x < 5 -> exists v, view g x n = Some v.
Proof. intros Hg Hx. unfold view. destruct (port_some g x Hg Hx) as [p ->]. by eexists. Qed.

Lemma stm32_configure_total c u pclk brr : gpio_shape (pins u) -> HAL_RCC_GetPCLK2Freq u = Some pclk ->
  UART_BRR_SAMPLING16 pclk (baud_rate c) = Some brr -> exists u', stm32_configure c u = Some (RT_EOK, u').
Proof.
  intros Hg Hp Hb. unfold stm32_configure. destruct (stm32_uart_clk_enable UART1_CONFIG u) as [e0 u0] eqn:E0.
  injection E0 as <- <-. set (u0 := set_pins _ u). assert (gpio_shape (pins u0)) as Hg0 by (by destruct Hg).
  destruct (gpio_configure_ok u0 Hg0) as (g & -> & _). rewrite some_bind. cbv zeta. unfold HAL_UART_Init, UART_SetConfig.
  set (u1 := set_handle _ (set_pins g u0)). change (HAL_RCC_GetPCLK2Freq (uart_init_begin u1)) with (HAL_RCC_GetPCLK2Freq u).
  rewrite Hp, some_bind. replace (BaudRate (Init (handle (uart_init_begin u1)))) with (baud_rate c)
    by (unfold uart_init_begin; by destruct (gState _ =? _)).
  rewrite Hb, !some_bind. by eexists.
Qed.

End Open.

(** ** Sending by polling, access by access

    Where a thread is in _serial_poll_tx: at the head of the loop with [data] left, or in the call of putc for the carriage
    return or for the first byte of [data]. *)
Inductive poll_pc := PollNext (data : list Z) | PollCr (pc : putc_pc) (data : list Z) | PollPut (pc : putc_pc) (data : list Z).

#[export] Instance poll_pc_dec : EqDecision poll_pc.
Proof. solve_decision. Defined.

Definition poll_step {H : Hardware} {W : Usart} (stream : bool) (x : poll_pc) (u : stm32_uart) : poll_pc * stm32_uart :=
  match x with
  | PollNext [] => (x, u)
  | PollNext (c :: data) => (if (c =? 10) && stream then PollCr PutClear (c :: data) else PollPut PutClear (c :: data), u)
  | PollCr PutReturned data => (PollPut PutClear data, u)
  | PollCr pc data => let '(pc, u) := putc_step 13 pc u in (PollCr pc data, u)
  | PollPut _ [] => (PollNext [], u)
  | PollPut PutReturned (_ :: data) => (PollNext data, u)
  | PollPut pc (c :: data) => let '(pc, u) := putc_step c pc u in (PollPut pc (c :: data), u)
  end.

Section Polling.
Context {H : Hardware} {HL : HardwareLaws} {W : Usart} {WL : UsartLaws}.
Implicit Types u : stm32_uart.

Definition poll_inv (x : poll_pc) (p : port) : Prop :=
  match x with PollNext _ => busy p = None | PollCr pc l | PollPut pc l => l <> [] /\ putc_inv pc p end.

Definition poll_ends (x : poll_pc) (p : port) : Prop :=
  match x with PollNext _ => True | PollCr pc _ | PollPut pc _ => putc_ends pc p end.

(** The steps of a byte of data: with a carriage return. *)
Definition byte_steps : nat := 2 * (6 + frame_time).

Definition poll_left (x : poll_pc) (p : port) : nat :=
  match x with
  | PollNext data => byte_steps * length data + 2
  | PollCr pc data => putc_left pc p + (6 + frame_time) + byte_steps * length (drop 1 data) + 2
  | PollPut pc data => putc_left pc p + byte_steps * length (drop 1 data) + 2
  end.

(** What a call of [data] sends: in stream mode with a carriage return before every line feed. *)
Definition sent_bytes (stream : bool) (data : list Z) : list Z := map (wrap 8) (if stream then crlf data else data).

Definition poll_bytes (stream : bool) (x : poll_pc) : list Z :=
  match x with
  | PollNext data => sent_bytes stream data
  | PollCr pc data => putc_bytes 13 pc ++ map (wrap 8) (take 1 data) ++ sent_bytes stream (drop 1 data)
  | PollPut pc [] => []
  | PollPut pc (c :: data) => putc_bytes c pc ++ sent_bytes stream data
  end.

Record poll_steps (stream : bool) (x : poll_pc) u (x' : poll_pc) u' : Prop := {
  po_inv : poll_inv x' (wire u');
  po_sent : exists l, tx (wire u') = tx (wire u) ++ l /\ poll_bytes stream x = l ++ poll_bytes stream x';
  po_rx : rx (wire u') = rx (wire u);
  po_usart : usart u' = usart u;
  po_pins : pins u' = pins u;
  po_ends : poll_ends x (wire u) -> poll_ends x' (wire u');
  po_left : poll_ends x (wire u) -> x <> PollNext [] -> (poll_left x' (wire u') < poll_left x (wire u))%nat
}.

Lemma sent_bytes_cons stream c data : sent_bytes stream (c :: data) =
  (if (c =? 10) && stream then [13] else []) ++ u8 c :: sent_bytes stream data.
Proof. unfold sent_bytes. destruct stream; cbn [crlf]; rewrite ?andb_true_r, ?andb_false_r; [by destruct (c =? 10)|done]. Qed.

(** A step within putc. *)
Lemma poll_cr_step stream pc data u : uart_on u -> pc <> PutReturned -> poll_inv (PollCr pc data) (wire u) ->
  poll_steps stream (PollCr pc data) u (PollCr (fst (putc_step 13 pc u)) data) (snd (putc_step 13 pc u)).
Proof.
  intros Hu Hne [Hd Hi]. destruct (putc_step_ok 13 pc u Hu Hi) as [H1 (l & H2 & Hl) H3 H4 H5 H6 H7]. split; try done.
  - exists l. split; [done|]. cbn [poll_bytes]. by rewrite Hl, <- app_assoc.
  - intros He _. cbn [poll_left]. specialize (H7 He Hne). lia.
Qed.

Lemma poll_put_step stream pc c data u : uart_on u -> pc <> PutReturned -> poll_inv (PollPut pc (c :: data)) (wire u) ->
  poll_steps stream (PollPut pc (c :: data)) u (PollPut (fst (putc_step c pc u)) (c :: data)) (snd (putc_step c pc u)).
Proof.
  intros Hu Hne [Hd Hi]. destruct (putc_step_ok c pc u Hu Hi) as [H1 (l & H2 & Hl) H3 H4 H5 H6 H7]. split; try done.
  - exists l. split; [done|]. cbn [poll_bytes]. by rewrite Hl, <- app_assoc.
  - intros He _. cbn [poll_left]. specialize (H7 He Hne). lia.
Qed.

Lemma poll_next_step stream c data u : busy (wire u) = None ->
  poll_steps stream (PollNext (c :: data)) u (if (c =? 10) && stream then PollCr PutClear (c :: data) else PollPut PutClear (c :: data)) u.
Proof.
  intros Hb. split; try done.
  - by destruct (_ && _).
  - exists []. split; [by rewrite app_nil_r|]. cbn [poll_bytes app]. rewrite sent_bytes_cons. by destruct (_ && _).
  - by destruct (_ && _).
  - intros _ _. assert (byte_steps = 12 + 2 * frame_time)%nat as Hb' by (unfold byte_steps; lia).
    cbn [poll_left length]. rewrite Nat.mul_succ_r. destruct (_ && _); cbn [poll_left putc_left drop]; rewrite drop_0; lia.
Qed.

Lemma poll_step_ok stream x u : uart_on u -> poll_inv x (wire u) ->
  poll_steps stream x u (fst (poll_step stream x u)) (snd (poll_step stream x u)).
Proof.
  intros Hu Hi. destruct x as [[|c data]|pc data|pc [|c data]].
  - split; try done. exists []. by rewrite app_nil_r.
  - by apply poll_next_step.
  - destruct (decide (pc = PutReturned)) as [->|Hne].
    + destruct Hi as [Hd Hb]. split; try done; cbn [poll_step fst snd]; [exists []; rewrite app_nil_r; by destruct data|].
      intros _ _. cbn [poll_left putc_left]. lia.
    + replace (poll_step stream (PollCr pc data) u) with (let '(pc, u) := putc_step 13 pc u in (PollCr pc data, u)) by (by destruct pc).
      pose proof (poll_cr_step stream pc data u Hu Hne Hi) as Hs. by destruct (putc_step 13 pc u).
  - by destruct Hi as [Hd _].
  - destruct (decide (pc = PutReturned)) as [->|Hne].
    + destruct Hi as [Hd Hb]. split; try done; cbn [poll_step fst snd]; [exists []; by rewrite app_nil_r|].
      intros _ _. cbn [poll_left putc_left drop]. rewrite ?drop_0. lia.
    + replace (poll_step stream (PollPut pc (c :: data)) u) with (let '(pc, u) := putc_step c pc u in (PollPut pc (c :: data), u)) by (by destruct pc).
      pose proof (poll_put_step stream pc c data u Hu Hne Hi) as Hs. by destruct (putc_step c pc u).
Qed.

(** What others do does not disturb it, and if TC is kept its wait ends. *)
Lemma drift_putc kept pc p p' : drift kept p p' -> putc_inv pc p ->
  putc_inv pc p' /\ (kept = true -> putc_ends pc p -> putc_ends pc p' /\ (putc_left pc p' <= putc_left pc p)%nat).
Proof.
  intros [H1 H2 H3] Hi. destruct pc; cbn [putc_inv putc_ends putc_left] in *.
  - destruct (H2 Hi) as [-> _]. done.
  - destruct Hi as [Hb Ht]. destruct (H2 Hb) as (-> & Hk & _). split; [split; [done|auto]|done].
  - destruct (busy p) as [n|] eqn:Eb.
    + destruct Hi as [Hn Ht]. specialize (H3 n eq_refl Ht). destruct (busy p') as [m|].
      * destruct H3 as [Hm Ht']. split; [split; [lia|done]|]. intros _ _. split; [done|lia].
      * split; [done|]. intros Hkept _. split; [auto|lia].
    + destruct (H2 eq_refl) as (-> & _ & Hk). split; [done|]. intros Hkept He. split; [|lia]. intros _. rewrite Hk by done. auto.
  - destruct (H2 Hi) as [-> _]. done.
Qed.

Lemma drift_poll kept x p p' : drift kept p p' -> poll_inv x p ->
  poll_inv x p' /\ (kept = true -> poll_ends x p -> poll_ends x p' /\ (poll_left x p' <= poll_left x p)%nat).
Proof.
  intros Hd Hi. destruct x as [data|pc data|pc data]; cbn [poll_inv poll_ends poll_left] in *.
  - split; [exact (proj1 (df_idle _ _ _ Hd Hi))|done].
  - destruct Hi as [Hne Hi]. destruct (drift_putc kept pc p p' Hd Hi) as [H1 H2]. split; [done|]. intros Hk He. destruct (H2 Hk He). split; [done|lia].
  - destruct Hi as [Hne Hi]. destruct (drift_putc kept pc p p' Hd Hi) as [H1 H2]. split; [done|]. intros Hk He. destruct (H2 Hk He). split; [done|lia].
Qed.

(** A thread that is not interrupted does what _serial_poll_tx does with stm32_putc as one operation. *)
Fixpoint poll_run (fuel : nat) (stream : bool) (x : poll_pc) u : option stm32_uart :=
  match x with
  | PollNext [] => Some u
  | _ =>
      match fuel with
      | O => None
      | S fuel => let '(x, u) := poll_step stream x u in poll_run fuel stream x u
      end
  end.

Lemma putc_run_S fuel c pc u : pc <> PutReturned ->
  putc_run (S fuel) c pc u = putc_run fuel c (fst (putc_step c pc u)) (snd (putc_step c pc u)).
Proof. destruct pc; [done|done| |done]. intros _. cbn [putc_run]. by destruct (putc_step c PutWait u). Qed.

Lemma poll_run_cr fuel stream pc data u u' : putc_run fuel 13 pc u = Some u' -> exists n, forall m,
  poll_run (n + m) stream (PollCr pc data) u = poll_run m stream (PollPut PutClear data) u'.
Proof.
  revert pc u. induction fuel as [|fuel IH]; intros pc u; (destruct (decide (pc = PutReturned)) as [->|Hne]; [intros [= <-]; by exists 1%nat|]).
  { by destruct pc. }
  rewrite putc_run_S by done. intros E. destruct (IH _ _ E) as (n & Hn). exists (S n). intros m. rewrite <- Hn. clear E Hn.
  cbn [Nat.add]. destruct pc; [done|done| |done]. cbn [poll_run poll_step]. by destruct (putc_step 13 PutWait u).
Qed.

Lemma poll_run_put fuel stream pc c data u u' : putc_run fuel c pc u = Some u' -> exists n, forall m,
  poll_run (n + m) stream (PollPut pc (c :: data)) u = poll_run m stream (PollNext data) u'.
Proof.
  revert pc u. induction fuel as [|fuel IH]; intros pc u; (destruct (decide (pc = PutReturned)) as [->|Hne]; [intros [= <-]; by exists 1%nat|]).
  { by destruct pc. }
  rewrite putc_run_S by done. intros E. destruct (IH _ _ E) as (n & Hn). exists (S n). intros m. rewrite <- Hn. clear E Hn.
  cbn [Nat.add]. destruct pc; [done|done| |done]. cbn [poll_run poll_step]. by destruct (putc_step c PutWait u).
Qed.

Lemma poll_tx_loop_cons stream c data u : poll_tx_loop stream (c :: data) u =
  (u ← (if (c =? 10) && stream then '(_, u) ← stm32_putc 13 u; Some u else Some u);
   '(_, u) ← stm32_putc c u;
   poll_tx_loop stream data u).
Proof. done. Qed.

Lemma stm32_putc_run c u r u' : stm32_putc c u = Some (r, u') -> putc_run (4 + frame_time) c PutClear u = Some u'.
Proof. unfold stm32_putc. destruct (putc_run _ _ _ _); [|done]. rewrite some_bind. by intros [= _ <-]. Qed.

Lemma poll_run_is_loop stream data u u' : poll_tx_loop stream data u = Some u' -> exists n, poll_run n stream (PollNext data) u = Some u'.
Proof.
  revert u. induction data as [|c data IH]; intros u; [intros [= <-]; by exists 0%nat|]. rewrite poll_tx_loop_cons.
  assert (forall u1, ('(_, u) ← stm32_putc c u1; poll_tx_loop stream data u) = Some u' ->
    exists n, poll_run n stream (PollPut PutClear (c :: data)) u1 = Some u') as Hput.
  { intros u1. destruct (stm32_putc c u1) as [[r u2]|] eqn:E; [|done]. rewrite some_bind. intros [n Hn]%IH.
    apply stm32_putc_run in E. destruct (poll_run_put _ stream _ _ data _ _ E) as (m & Hm). exists (m + n)%nat. by rewrite Hm. }
  destruct ((c =? 10) && stream) eqn:Ec.
  - destruct (stm32_putc 13 u) as [[r u1]|] eqn:E; [|done]. rewrite !some_bind. intros [n Hn]%Hput.
    apply stm32_putc_run in E. destruct (poll_run_cr _ stream _ (c :: data) _ _ E) as (m & Hm). exists (S (m + n)).
    cbn [poll_run poll_step]. by rewrite Ec, Hm.
  - rewrite some_bind. intros [n Hn]%Hput. exists (S n). cbn [poll_run poll_step]. by rewrite Ec.
Qed.
End Polling.

(** ** The device in use

    A character has come over the line, the UART interrupts, time passes, a thread reads, and the one thread that writes makes its
    next step: it begins the next of its calls of rt_device_write, accesses a register, or returns.  (One thread writes: the driver has
    no lock.)  The handler and a read are one step.  An interrupt can come at any moment, also when no character waits. *)
Inductive usart_event := Incoming (c : Z) | Interrupt | Elapsed | Reading (n : Z) | Proceed.
Inductive usart_out := Nothing | Called (call : option (Z * Z)) | Got (l : list Z) | Wrote (r : transfer).

Definition usart_event_ok (e : usart_event) : Prop :=
  match e with Incoming c => fits 8 c | Reading n => 0 <= n | _ => True end.

(** The call the writing thread is in, with its data, and the data of the calls it has still to make. *)
Record writer := { w_call : option (list Z * poll_pc); w_next : list (list Z) }.

Definition pending_calls (w : writer) : list (list Z) :=
  match w_call w with Some (data, _) => data :: w_next w | None => w_next w end.

(** The call gets to the loop of _serial_poll_tx. *)
Definition polls (d : rt_device) (data : list Z) : bool :=
  is_device d && negb (ref_count d =? 0) && negb (lenZ data =? 0) && negb (has_flag (open_flag d) RT_DEVICE_FLAG_INT_TX).

Section Steps.
Context {H : Hardware} {W : Usart}.
Abbreviation serial := (rt_serial_device stm32_uart).

Definition writer_do (d : rt_device) (w : writer) (s : serial) (k : kernel) : option (usart_out * writer * serial * kernel) :=
match w_call w with
| Some (data, PollNext []) => Some (Wrote (Moved (lenZ data)), {| w_call := None; w_next := w_next w |}, s, k)
| Some (data, x) =>
    let '(x, u) := poll_step (stream_mode d) x (hw s) in
    Some (Nothing, {| w_call := Some (data, x); w_next := w_next w |}, {| s with hw := u |}, k)
| None =>
    match w_next w with
    | [] => Some (Nothing, w, s, k)
    | data :: next =>
        if polls d data then Some (Nothing, {| w_call := Some (data, PollNext data); w_next := next |}, s, k)
        else
          '(r, _, s, k) ← rt_device_write serial_ops 0 data d s k;
          Some (Wrote r, {| w_call := None; w_next := next |}, s, k)
    end
end.

Definition usart_do (d : rt_device) (e : usart_event) (w : writer) (s : serial) (k : kernel)
: option (usart_out * writer * serial * kernel) :=
match e with
| Incoming c => Some (Nothing, w, {| s with hw := set_wire (wire_in c (wire (hw s))) (hw s) |}, k)
| Interrupt => '(call, s, k) ← USART1_IRQHandler 2 d s k; Some (Called call, w, s, k)
| Elapsed => Some (Nothing, w, {| s with hw := set_wire (elapse (wire (hw s))) (hw s) |}, k)
| Reading n => '(l, _, s, k) ← rt_device_read serial_ops 0 n d s k; Some (Got l, w, s, k)
| Proceed => writer_do d w s k
end.

Fixpoint usart_run (d : rt_device) (es : list usart_event) (w : writer) (s : serial) (k : kernel)
: option (list usart_out * writer * serial * kernel) :=
match es with
| [] => Some ([], w, s, k)
| e :: es => '(o, w, s, k) ← usart_do d e w s k; '(os, w, s, k) ← usart_run d es w s k; Some (o :: os, w, s, k)
end.

(** The thread waits for TC. *)
Definition waits_for_tc (w : writer) : bool :=
match w_call w with Some (_, PollCr PutWait _) | Some (_, PollPut PutWait _) => true | _ => false end.

(** No interrupt without a character comes while the thread waits for TC. *)
Definition disturbs (e : usart_event) (w : writer) (s : serial) : bool :=
match e with Interrupt => waits_for_tc w && negb (rxne (wire (hw s))) | _ => false end.

Fixpoint undisturbed (d : rt_device) (es : list usart_event) (w : writer) (s : serial) (k : kernel) : bool :=
match es with
| [] => true
| e :: es =>
    negb (disturbs e w s) && match usart_do d e w s k with Some (_, w, s, k) => undisturbed d es w s k | None => false end
end.
End Steps.

(** The specification of receiving: the one character the UART holds, and a queue of [cap] characters that forgets the oldest. *)
Definition lines_do (g : option Z) (cap : Z) (e : usart_event) (x : list Z * list Z) : usart_out * (list Z * list Z) :=
  let '(held, q) := x in
  match e with
  | Incoming c => (Nothing, (match held with [] => [c] | _ => held end, q))
  | Interrupt => let q := keep cap (q ++ held) in (Called (irq_call g held q), ([], q))
  | Reading n => (Got (take (Z.to_nat n) q), (held, drop (Z.to_nat n) q))
  | Elapsed | Proceed => (Nothing, x)
  end.

Fixpoint lines_run (g : option Z) (cap : Z) (es : list usart_event) (x : list Z * list Z) : list usart_out * (list Z * list Z) :=
  match es with
  | [] => ([], x)
  | e :: es => let '(o, x) := lines_do g cap e x in let '(os, x) := lines_run g cap es x in (o :: os, x)
  end.

(** What is heard of receiving, and what a call of write returned. *)
Definition heard (o : usart_out) : usart_out := match o with Wrote _ => Nothing | _ => o end.
Definition wrote (o : usart_out) : option transfer := match o with Wrote r => Some r | _ => None end.

(** What the calls send. *)
Definition all_sent (stream : bool) (calls : list (list Z)) : list Z := concat (sent_bytes stream <$> calls).

Section Use.
Context {H : Hardware} {HL : HardwareLaws} {W : Usart} {WL : UsartLaws}.
Implicit Types u : stm32_uart.
Implicit Types s : rt_serial_device stm32_uart.

(** The steps the calls take at most. *)
Definition call_steps (data : list Z) : nat := byte_steps * length data + 3.
Definition write_steps (calls : list (list Z)) : nat := sum_list (call_steps <$> calls).

Definition writer_inv (w : writer) (p : port) : Prop :=
  match w_call w with Some (_, x) => poll_inv x p | None => busy p = None end.
Definition writer_ends (w : writer) (p : port) : Prop :=
  match w_call w with Some (_, x) => poll_ends x p | None => True end.
Definition writer_left (w : writer) (p : port) : nat :=
  match w_call w with Some (_, x) => poll_left x p | None => 0 end + write_steps (w_next w).

(** What the call under way sends, and what it has still to send. *)
Definition call_bytes (stream : bool) (w : writer) : list Z :=
  match w_call w with Some (data, _) => sent_bytes stream data | None => [] end.
Definition call_left (stream : bool) (w : writer) : list Z :=
  match w_call w with Some (_, x) => poll_bytes stream x | None => [] end.

(** The device in use: [sent0] was sent before, and then the calls that are [finished] and a part of the one under way. *)
Record in_use (d : rt_device) (sent0 : list Z) (finished : list (list Z)) (w : writer) s : Prop := {
  iu_live : live d s;
  iu_writer : writer_inv w (wire (hw s));
  iu_sent : exists part, tx (wire (hw s)) = sent0 ++ all_sent (stream_mode d) finished ++ part /\
    part ++ call_left (stream_mode d) w = call_bytes (stream_mode d) w
}.

Lemma all_sent_snoc stream l data : all_sent stream (l ++ [data]) = all_sent stream l ++ sent_bytes stream data.
Proof. unfold all_sent. rewrite fmap_app, concat_app. cbn [fmap list_fmap concat]. by rewrite app_nil_r. Qed.

(** A step of the writing thread: it finishes the calls [new]. *)
Record writer_steps (d : rt_device) (finished : list (list Z)) (w : writer) s (o : usart_out) (w' : writer) s' (new : list (list Z)) : Prop := {
  ws_out : heard o = Nothing;
  ws_wrote : option_list (wrote o) = (fun data => Moved (lenZ data)) <$> new;
  ws_calls : new ++ pending_calls w' = pending_calls w;
  ws_line : uart_line (hw s') = uart_line (hw s);
  ws_queue : queue s' = queue s;
  ws_config : config s' = config s;
  ws_usart : usart (hw s') = usart (hw s);
  ws_ends : writer_ends w (wire (hw s)) -> writer_ends w' (wire (hw s'));
  ws_left : writer_ends w (wire (hw s)) -> (writer_left w' (wire (hw s')) <= writer_left w (wire (hw s)))%nat /\
    (pending_calls w <> [] -> (writer_left w' (wire (hw s')) < writer_left w (wire (hw s)))%nat)
}.

Lemma stay_out d fin w s : writer_ends w (wire (hw s)) -> pending_calls w = [] -> writer_steps d fin w s Nothing w s [].
Proof. intros He Hp. by split. Qed.

Lemma writer_begin_ok d sent0 fin data next s k : in_use d sent0 fin {| w_call := None; w_next := data :: next |} s ->
  exists o w' s' new, writer_do d {| w_call := None; w_next := data :: next |} s k = Some (o, w', s', k) /\
    writer_steps d fin {| w_call := None; w_next := data :: next |} s o w' s' new /\ in_use d sent0 (fin ++ new) w' s'.
Proof.
  intros [Hl Hb (part & Ht & Hp)]. cbn [call_left call_bytes w_call] in Hp. rewrite app_nil_r in Hp. subst part.
  cbn [writer_do w_call w_next]. unfold polls. rewrite (lv_class _ _ Hl), (lv_polled _ _ Hl), (proj2 (Z.eqb_neq (ref_count d) 0))
    by (pose proof (lv_open _ _ Hl); lia).
  cbn [negb andb]. rewrite andb_true_r. destruct (Z.eqb_spec (lenZ data) 0) as [Hz|Hz]; cbn [negb].
  - destruct data; [|done]. unfold rt_device_write. rewrite (lv_class _ _ Hl). cbn [assert]. rewrite some_bind.
    rewrite (proj2 (Z.eqb_neq (ref_count d) 0)) by (pose proof (lv_open _ _ Hl); lia). cbn [op_write serial_ops]. unfold rt_serial_write.
    change (lenZ [] =? 0) with true. cbv iota. rewrite some_bind. eexists _, _, _, [[]]. split; [done|]. split.
    + split; try done. intros _. unfold writer_left, write_steps, call_steps. cbn. lia.
    + split; [done|done|]. exists []. split; [|done]. rewrite all_sent_snoc. unfold sent_bytes. destruct (stream_mode d); by rewrite app_nil_r.
  - eexists _, _, _, []. split; [done|]. split.
    + split; try done. intros _. unfold writer_left, write_steps, call_steps. cbn. lia.
    + rewrite app_nil_r. split; [done|done|]. by exists [].
Qed.

Lemma writer_poll_ok d sent0 fin data x next s k : in_use d sent0 fin {| w_call := Some (data, x); w_next := next |} s ->
  exists o w' s' new, writer_do d {| w_call := Some (data, x); w_next := next |} s k = Some (o, w', s', k) /\
    writer_steps d fin {| w_call := Some (data, x); w_next := next |} s o w' s' new /\ in_use d sent0 (fin ++ new) w' s'.
Proof.
  intros [Hl Hi (part & Ht & Hp)]. cbn [writer_inv call_left call_bytes w_call] in *.
  destruct (decide (x = PollNext [])) as [->|Hne].
  - eexists _, _, _, [data]. split; [done|]. split.
    + split; try done. intros _. unfold writer_left. cbn. lia.
    + split; [done|done|]. exists []. split; [|done]. rewrite all_sent_snoc, app_nil_r, <- Hp. cbn [poll_bytes]. rewrite Ht. f_equal.
      f_equal. unfold sent_bytes. destruct (stream_mode d); by rewrite app_nil_r.
  - destruct (poll_step_ok (stream_mode d) x (hw s) (lv_on _ _ Hl) Hi) as [H1 (l & H2 & Hb) H3 H4 H5 H6 H7].
    replace (writer_do d {| w_call := Some (data, x); w_next := next |} s k) with
      (let '(x, u) := poll_step (stream_mode d) x (hw s) in
       Some (Nothing, {| w_call := Some (data, x); w_next := next |}, {| s with hw := u |}, k)) by (by destruct x as [[]| |]).
    destruct (poll_step (stream_mode d) x (hw s)) as [x' u']. cbn [fst snd] in *. eexists _, _, _, []. split; [done|]. split.
    + split; try done.
      * cbn [hw]. unfold uart_line. by rewrite H3.
      * intros He. unfold writer_left. cbn [w_call w_next hw]. specialize (H7 He Hne). lia.
    + rewrite app_nil_r. split; [by apply (live_keeps d s); try done; apply (lv_serial _ _ Hl)|done|]. exists (part ++ l).
      cbn [hw call_left call_bytes w_call]. rewrite <- app_assoc, <- Hb. split; [|done]. by rewrite H2, Ht, <- !app_assoc.
Qed.

Lemma writer_do_ok d sent0 fin w s k : in_use d sent0 fin w s -> exists o w' s' new,
  writer_do d w s k = Some (o, w', s', k) /\ writer_steps d fin w s o w' s' new /\ in_use d sent0 (fin ++ new) w' s'.
Proof.
  destruct w as [[[data x]|] [|c next]]; intros Hu; try by apply writer_poll_ok.
  - eexists _, _, _, []. split; [done|]. split; [by apply stay_out|by rewrite app_nil_r].
  - by apply writer_begin_ok.
Qed.

(** What the others do to the writing thread. *)
Lemma in_use_drift kept d sent0 fin w s s' : in_use d sent0 fin w s -> live d s' -> drift kept (wire (hw s)) (wire (hw s')) ->
  in_use d sent0 fin w s' /\ (kept = true -> writer_ends w (wire (hw s)) ->
    writer_ends w (wire (hw s')) /\ (writer_left w (wire (hw s')) <= writer_left w (wire (hw s)))%nat).
Proof.
  intros [_ Hi (part & Ht & Hp)] Hl Hd. unfold writer_inv, writer_ends, writer_left in *.
  assert (exists part, tx (wire (hw s')) = sent0 ++ all_sent (stream_mode d) fin ++ part /\
    part ++ call_left (stream_mode d) w = call_bytes (stream_mode d) w) as Hs by (exists part; by rewrite (df_tx _ _ _ Hd)).
  destruct (w_call w) as [[data x]|] eqn:Ec.
  - destruct (drift_poll kept x _ _ Hd Hi) as [Hi' He]. split; [split; [done|by unfold writer_inv; rewrite Ec|done]|].
    intros Hk Hx. destruct (He Hk Hx). split; [done|lia].
  - destruct (df_idle _ _ _ Hd Hi) as [Hb _]. split; [split; [done|by unfold writer_inv; rewrite Ec|done]|]. intros _ _. split; [done|lia].
Qed.

Lemma not_waiting w p p' : waits_for_tc w = false -> writer_ends w p' /\ writer_left w p' = writer_left w p.
Proof. unfold waits_for_tc, writer_ends, writer_left. by destruct (w_call w) as [[data [l|[]l|[]l]]|]. Qed.

(** What a step does: what is heard, what becomes of the calls, and that it goes on. *)
Record event_steps (d : rt_device) (sent0 : list Z) (fin : list (list Z)) (e : usart_event) (w : writer) s
    (o : usart_out) (w' : writer) s' (new : list (list Z)) : Prop := {
  es_heard : heard o = fst (lines_do (rx_indicate d) (capacity s) e (uart_line (hw s), queue s));
  es_lines : (uart_line (hw s'), queue s') = snd (lines_do (rx_indicate d) (capacity s) e (uart_line (hw s), queue s));
  es_wrote : option_list (wrote o) = (fun data => Moved (lenZ data)) <$> new;
  es_calls : new ++ pending_calls w' = pending_calls w;
  es_config : config s' = config s;
  es_usart : usart (hw s') = usart (hw s);
  es_use : in_use d sent0 (fin ++ new) w' s';
  es_ends : disturbs e w s = false -> writer_ends w (wire (hw s)) ->
    writer_ends w' (wire (hw s')) /\ (writer_left w' (wire (hw s')) <= writer_left w (wire (hw s)))%nat
}.

(** A step that is not the writing thread's. *)
Lemma other_steps kept d sent0 fin e w s o s' : in_use d sent0 fin w s -> live d s' -> drift kept (wire (hw s)) (wire (hw s')) ->
  heard o = fst (lines_do (rx_indicate d) (capacity s) e (uart_line (hw s), queue s)) ->
  (uart_line (hw s'), queue s') = snd (lines_do (rx_indicate d) (capacity s) e (uart_line (hw s), queue s)) ->
  wrote o = None -> config s' = config s -> usart (hw s') = usart (hw s) ->
  (disturbs e w s = false -> kept = true \/ waits_for_tc w = false) -> event_steps d sent0 fin e w s o w s' [].
Proof.
  intros Hu Hl Hd H1 H2 H3 H4 H5 H6. destruct (in_use_drift kept d sent0 fin w s s' Hu Hl Hd) as [Hu' He].
  split; try done; [by rewrite H3|by rewrite app_nil_r|]. intros Hdi Hx. destruct (H6 Hdi) as [Hk|Hw]; [by apply He|].
  destruct (not_waiting w (wire (hw s)) (wire (hw s')) Hw) as [? ->]. done.
Qed.

Lemma incoming_ok d sent0 fin c w s : in_use d sent0 fin w s -> fits 8 c ->
  event_steps d sent0 fin (Incoming c) w s Nothing w {| s with hw := set_wire (wire_in c (wire (hw s))) (hw s) |} [].
Proof.
  intros Hu Hc. apply (other_steps true); try done; [|apply wire_drift| |by left].
  - apply (live_keeps d s); try done; [by destruct Hu|]. exact (lv_serial _ _ (iu_live _ _ _ _ _ Hu)).
  - cbn [hw lines_do snd]. unfold uart_line. cbn [wire set_wire]. rewrite wire_rx by (by apply byte_char). f_equal.
    destruct (rx (wire (hw s))); [|done]. cbn [map]. by rewrite byte_land.
Qed.

Lemma elapsed_ok d sent0 fin w s : in_use d sent0 fin w s ->
  event_steps d sent0 fin Elapsed w s Nothing w {| s with hw := set_wire (elapse (wire (hw s))) (hw s) |} [].
Proof.
  intros Hu. apply (other_steps true); try done; [|apply elapse_drift| |by left].
  - apply (live_keeps d s); try done; [by destruct Hu|]. exact (lv_serial _ _ (iu_live _ _ _ _ _ Hu)).
  - cbn [hw lines_do snd]. unfold uart_line. cbn [wire set_wire]. by rewrite elapse_rx.
Qed.

Lemma usart_do_ok d sent0 fin e w s k : in_use d sent0 fin w s -> usart_event_ok e -> fits 8 (interrupt_nest k) ->
  exists o w' s' new, usart_do d e w s k = Some (o, w', s', k) /\ event_steps d sent0 fin e w s o w' s' new.
Proof.
  intros Hu He Hk. pose proof (iu_live _ _ _ _ _ Hu) as Hl. destruct e as [c| | |n|]; cbn [usart_do].
  - eexists _, _, _, _. split; [done|by apply incoming_ok].
  - destruct (irq_ok d s k Hl Hk) as (s' & -> & Hl' & Hq & Hc & Hx & E1 & E2 & Hd). rewrite some_bind.
    eexists _, _, _, _. split; [done|]. apply (other_steps (rxne (wire (hw s)))); try done; cbn [lines_do fst snd heard]; rewrite <- ?Hq; [done| |].
    + f_equal. unfold uart_line. by rewrite Hx.
    + cbn [disturbs]. destruct (waits_for_tc w), (rxne (wire (hw s))); auto.
  - eexists _, _, _, _. split; [done|by apply elapsed_ok].
  - destruct (device_read_fifo 0 n d s k) as (s' & -> & Hs & Hq & Hc & Hh); [by destruct Hl..|done|]. rewrite some_bind.
    eexists _, _, _, _. split; [done|]. apply (other_steps true); try done; [| |cbn [lines_do snd]; by rewrite Hh, Hq|by rewrite Hh|by left].
    + apply (live_keeps d s); try done; by rewrite Hh.
    + by rewrite Hh.
  - destruct (writer_do_ok d sent0 fin w s k Hu) as (o & w' & s' & new & -> & [W1 W2 W3 W4 W5 W6 W7 W8 W9] & Hu').
    eexists _, _, _, _. split; [done|]. split; try done; [cbn [lines_do snd]; by rewrite W4, W5|]. intros _ Hx. split; [by apply W8|]. by apply W9.
Qed.

Lemma omap_cons_list (o : usart_out) os : omap wrote (o :: os) = option_list (wrote o) ++ omap wrote os.
Proof. cbn [omap list_omap]. by destruct (wrote o). Qed.

Lemma usart_run_ok d sent0 es k : Forall usart_event_ok es -> fits 8 (interrupt_nest k) -> forall fin w s, in_use d sent0 fin w s ->
  exists os w' s' new, usart_run d es w s k = Some (os, w', s', k) /\
    heard <$> os = fst (lines_run (rx_indicate d) (capacity s) es (uart_line (hw s), queue s)) /\
    (uart_line (hw s'), queue s') = snd (lines_run (rx_indicate d) (capacity s) es (uart_line (hw s), queue s)) /\
    omap wrote os = (fun data => Moved (lenZ data)) <$> new /\ new ++ pending_calls w' = pending_calls w /\
    usart (hw s') = usart (hw s) /\ in_use d sent0 (fin ++ new) w' s' /\
    (undisturbed d es w s k = true -> writer_ends w (wire (hw s)) ->
       writer_ends w' (wire (hw s')) /\ (writer_left w' (wire (hw s')) <= writer_left w (wire (hw s)))%nat).
Proof.
  intros Hes Hk. induction Hes as [|e es He _ IH]; intros fin w s Hu.
  { exists [], w, s, []. rewrite app_nil_r. by split_and!. }
  destruct (usart_do_ok d sent0 fin e w s k Hu He Hk) as (o & w1 & s1 & new1 & E1 & [H1 H2 H3 H4 H5 H6 H7 H8]).
  destruct (IH _ _ _ H7) as (os & w2 & s2 & new2 & E2 & I1 & I2 & I3 & I4 & I5 & I6 & I7).
  cbn [usart_run lines_run undisturbed]. rewrite E1, some_bind, E2, some_bind. unfold capacity in *. rewrite H5 in *.
  destruct (lines_do _ _ e _) as [o' x]. cbn [fst snd] in *. subst o' x. rewrite <- app_assoc in I6.
  destruct (lines_run _ _ es _) as [os' x']. cbn [fst snd] in *. subst os' x'.
  exists (o :: os), w2, s2, (new1 ++ new2). split; [done|]. split; [done|]. split; [done|].
  split; [by rewrite omap_cons_list, H3, I3, fmap_app|]. split; [by rewrite <- app_assoc, I4|]. split; [congruence|]. split; [done|].
  intros [Hd Hrest]%andb_true_iff Hx. apply negb_true_iff in Hd. destruct (H8 Hd Hx) as [Hx1 Hl1]. destruct (I7 Hrest Hx1) as [Hx2 Hl2].
  split; [done|lia].
Qed.

(** The writing thread alone: it makes all its calls. *)
Lemma writer_finishes d sent0 k n : forall fin w s, in_use d sent0 fin w s -> writer_ends w (wire (hw s)) ->
  (writer_left w (wire (hw s)) <= n)%nat -> exists m os s', (m <= n)%nat /\
  usart_run d (replicate m Proceed) w s k = Some (os, {| w_call := None; w_next := [] |}, s', k) /\
  tx (wire (hw s')) = sent0 ++ all_sent (stream_mode d) (fin ++ pending_calls w).
Proof.
  induction n as [|n IH]; intros fin w s Hu Hx Hn; (destruct (decide (pending_calls w = [])) as [Hp|Hp]).
  1, 3: exists 0%nat, [], s; destruct w as [[[data x]|] [|c next]]; try done; (split; [lia|]); (split; [done|]);
    destruct Hu as [_ _ (part & Ht & Hpart)]; cbn in Hpart; apply app_nil in Hpart as [-> _]; by rewrite Hp, app_nil_r in *.
  - destruct (writer_do_ok d sent0 fin w s k Hu) as (o & w1 & s1 & new & E & [W1 W2 W3 W4 W5 W6 W7 W8 W9] & Hu1).
    specialize (proj2 (W9 Hx) Hp). lia.
  - destruct (writer_do_ok d sent0 fin w s k Hu) as (o & w1 & s1 & new & E & [W1 W2 W3 W4 W5 W6 W7 W8 W9] & Hu1).
    destruct (IH _ w1 s1 Hu1 (W8 Hx)) as (m & os & s2 & Hm & E2 & Ht); [specialize (proj2 (W9 Hx) Hp); lia|].
    exists (S m), (o :: os), s2. split; [lia|]. split; [|by rewrite Ht, <- W3, app_assoc].
    cbn [replicate usart_run usart_do]. by rewrite E, some_bind, E2, some_bind.
Qed.
End Use.

(** ** What the code does not intend *)
Section Unintended.
Context {H : Hardware} {HL : HardwareLaws} {W : Usart} {WL : UsartLaws}.
Implicit Types u : stm32_uart.

(** A parity bit takes one of the eight bits of data. *)
Lemma parity_takes_a_data_bit c u e u' : gpio_shape (pins u) -> data_bits c = 8 -> parity c = 1 \/ parity c = 2 ->
  stm32_configure c u = Some (e, u') -> frame_bits (usart u') = 7.
Proof.
  intros Hg Hd Hp E. destruct (stm32_configure_ok c u e u' Hg E) as (_ & _ & _ & _ & Hf & _).
  rewrite Hf. unfold setting_bits. rewrite Hd. by destruct Hp as [-> | ->].
Qed.

(** Nothing sets TC again once it was cleared while no frame is under way. *)
Lemma tc_cleared_hangs fuel c u : busy (wire u) = None -> tc (wire u) = false -> putc_run fuel c PutWait u = None.
Proof.
  revert u. induction fuel as [|fuel IH]; intros u Hb Ht; [done|]. cbn [putc_run putc_step]. rewrite get_tc, Ht.
  apply IH; cbn [wire set_wire]; [by rewrite sr_read_busy, Hb|by rewrite sr_read_tc, Hb].
Qed.

(** An interrupt without a character (an overrun is one) that comes after the frame was finished and before stm32_putc
    has seen it clears TC, and stm32_putc waits for ever. *)
Lemma isr_stalls_putc c u : rx (wire u) = [] -> busy (wire u) = None -> forall fuel, putc_run fuel c PutWait (uart_isr_clear u) = None.
Proof.
  intros Hx Hb fuel. unfold uart_isr_clear. set (u1 := if_flag UART_FLAG_TXE _ _).
  assert (quiet (usart u) (pins u) (wire u) u1) as (_ & _ & _ & Hd).
  { unfold u1. repeat (apply if_flag_quiet; [intros; by apply clear_pe_quiet || by apply clear_flag_quiet|]). done. }
  destruct (df_idle _ _ _ Hd Hb) as [Hb1 _].
  set (u2 := if_flag UART_FLAG_TC _ u1). assert (busy (wire u2) = None /\ tc (wire u2) = false) as [Hb2 Ht2].
  { unfold u2, if_flag. rewrite get_tc. destruct (tc (wire u1)) eqn:Et; cbn [wire set_wire __HAL_UART_CLEAR_FLAG].
    - rewrite sr_write_busy, sr_read_busy, Hb1, sr_write_tc. change UART_FLAG_TC with (2 ^ 6).
      by rewrite not_flag, andb_false_r by lia.
    - by rewrite sr_read_busy, sr_read_tc, Hb1, Et. }
  unfold if_flag at 1. rewrite get_rxne. destruct (rxne (wire u2)); apply tc_cleared_hangs;
    cbn [wire set_wire __HAL_UART_CLEAR_FLAG]; rewrite ?sr_write_busy, ?sr_write_tc, ?sr_read_busy, ?sr_read_tc, ?Hb2, ?Ht2; done.
Qed.

End Unintended.

(** ** Properties *)
Section Properties.
Context {H : Hardware} {HL : HardwareLaws} {W : Usart} {WL : UsartLaws}.
Implicit Types u : stm32_uart.
Implicit Types s : rt_serial_device stm32_uart.

(** C14: on the registers of USART1, the opened device is exact in both directions, while characters come, interrupts are taken
    and a thread reads at any moment between two register accesses of the thread that writes.  No call fails.  The UART holds the first
    character that came since the last interrupt, every interrupt puts it behind the queue, which forgets its oldest characters when it is full,
    and reports what it should to rx_indicate, and the reads get what is in the queue, in order.  The transmitter sends the bytes of
    the writing thread's calls, in order, each after the one before it was finished: those of the calls that have returned,
    which report their length, and a beginning of those of the call under way.  The UART's configuration stays.  And if no interrupt without a character
    came while the thread waited for TC, then from any moment on it makes the rest of its calls in a bounded number of steps, and everything is sent.
    (An interrupt without a character can leave it waiting for ever: [isr_stalls_putc].) *)
Theorem usart_exact oflag d s k d1 s1 k1 calls es :
  device_ok d -> uart_able d s -> serial_rx s = None -> has_flag oflag RT_DEVICE_FLAG_INT_RX = true ->
  has_flag oflag RT_DEVICE_FLAG_INT_TX = false -> 2 <= bufsz (config s) < 2 ^ 16 -> rx (wire (hw s)) = [] ->
  rt_device_open serial_ops oflag d s k = Some (RT_EOK, d1, s1, k1) -> fits 8 (interrupt_nest k1) -> Forall usart_event_ok es ->
  let w1 := {| w_call := None; w_next := calls |} in
  let received := lines_run (rx_indicate d1) (bufsz (config s) - 1) es ([], []) in
  let st := stream_mode d1 in
  exists os w2 s2 done part, usart_run d1 es w1 s1 k1 = Some (os, w2, s2, k1) /\
    heard <$> os = fst received /\ (uart_line (hw s2), queue s2) = snd received /\
    calls = done ++ pending_calls w2 /\ omap wrote os = (fun data => Moved (lenZ data)) <$> done /\
    tx (wire (hw s2)) = tx (wire (hw s1)) ++ all_sent st done ++ part /\
    part `prefix_of` default [] (sent_bytes st <$> head (pending_calls w2)) /\
    usart (hw s2) = usart (hw s1) /\
    (undisturbed d1 es w1 s1 k1 = true -> exists n os' s3, (n <= write_steps calls)%nat /\
       usart_run d1 (replicate n Proceed) w2 s2 k1 = Some (os', {| w_call := None; w_next := [] |}, s3, k1) /\
       tx (wire (hw s3)) = tx (wire (hw s1)) ++ all_sent st calls).
Proof.
  intros Hd Ha Hn Hrx Htx Hb Hx E Hk Hes w1 received st.
  destruct (device_open_uart oflag d s k d1 s1 k1 Hd Ha Hn Hrx Htx Hb Hx E) as (Ho & Hq & Hc).
  destruct (open_live d1 s1 Ho) as (Hl & Hx1 & Hb1).
  assert (in_use d1 (tx (wire (hw s1))) [] w1 s1) as Hu by (split; [done|done|exists []; by rewrite app_nil_r]).
  destruct (usart_run_ok d1 _ es k1 Hes Hk [] w1 s1 Hu) as (os & w2 & s2 & new & E2 & I1 & I2 & I3 & I4 & I5 & Hu2 & I7).
  assert (uart_line (hw s1) = []) as Hline by (unfold uart_line; by rewrite Hx1).
  unfold capacity in *. rewrite Hline, Hq, Hc in *. destruct (iu_sent _ _ _ _ _ Hu2) as (part & Ht & Hpart).
  exists os, w2, s2, new, part. split_and!; try done.
  - clear - Hpart. unfold call_bytes, call_left, pending_calls in *. destruct w2 as [[[data x]|] next]; cbn in *; [by exists (poll_bytes st x)|].
    apply app_nil in Hpart as [-> _]. apply prefix_nil.
  - intros Hun. destruct (I7 Hun I) as [Hx2 Hl2]. destruct (writer_finishes d1 _ k1 _ _ w2 s2 Hu2 Hx2 Hl2) as (n & os' & s3 & Hm & E3 & Ht3).
    exists n, os', s3. split; [exact Hm|]. split; [done|]. rewrite Ht3. cbn [app]. by rewrite I4.
Qed.

(** C34: configuring makes the UART run at the rate asked for.  For a rate between 1/65535 and 1/16 of the clock of the bus, stm32_configure
    succeeds, no intermediate result overflows, the divisor fits its register and is the quotient of clock and rate rounded
    to within 0.66, the frame has the bits of the configuration, the UART is switched on, and its pins are an alternate
    function output and a floating input. *)
Theorem uart_baud_rate c u pclk : gpio_shape (pins u) -> HAL_RCC_GetPCLK2Freq u = Some pclk ->
  pclk * 25 < 2 ^ 32 -> 0 < baud_rate c -> 16 * baud_rate c <= pclk <= 65535 * baud_rate c ->
  exists u', stm32_configure c u = Some (RT_EOK, u') /\ wire u' = wire u /\
    - 66 * baud_rate c < 100 * (BRR (usart u') * baud_rate c - pclk) <= 50 * baud_rate c /\ 16 <= BRR (usart u') < 2 ^ 16 /\
    running (usart u') = true /\ frame_bits (usart u') = setting_bits c /\
    (v_config <$> view (pins u') 0 9) = Some 0xB /\ (v_config <$> view (pins u') 0 10) = Some 4.
Proof.
  intros Hg Hp Hov Hb Hr. destruct (brr_rounds pclk (baud_rate c) Hov Hb Hr) as (B & EB & Hround & Hfit).
  destruct (stm32_configure_total c u pclk B Hg Hp EB) as (u' & E). exists u'. split; [done|].
  destruct (stm32_configure_ok c u _ u' Hg E) as (_ & Hw & Hg' & Hrun & Hf & (p & Ep & EB') & Hv).
  clear E. assert (BRR (usart u') = B) as -> by (rewrite Ep in Hp; congruence). split_and!; try assumption; try lia.
  - destruct (view_some (pins u') 0 9 Hg' ltac:(lia)) as [x Ex]. rewrite Ex. simpl. f_equal. by apply Hv.
  - destruct (view_some (pins u') 0 10 Hg' ltac:(lia)) as [x Ex]. rewrite Ex. simpl. f_equal. by apply Hv.
Qed.
End Properties.

(** ** Hardware that follows the manual: a frame takes two reads of the status register *)
Record demo_port := { dp_rx : option Z; dp_tx : list Z; dp_busy : option nat; dp_tc : bool }.

Definition demo_pass (p : demo_port) : demo_port :=
  match dp_busy p with
  | None => p
  | Some O => {| p with dp_busy := None; dp_tc := true |}
  | Some (S n) => {| p with dp_busy := Some n |}
  end.

Definition demo_usart : Usart := {|
  port := demo_port;
  frame_time := 2;
  SR p := Z.lor (if dp_tc p then 64 else 0) (match dp_rx p with None => 128 | _ => 160 end);
  sr_read := demo_pass;
  sr_write v p := {| p with dp_rx := if Z.testbit v 5 then dp_rx p else None; dp_tc := dp_tc p && Z.testbit v 6 |};
  DR p := match dp_rx p with None => 0 | Some c => wrap 9 c end;
  dr_read p := {| p with dp_rx := None |};
  dr_write r v p := if running r then {| p with dp_tx := dp_tx p ++ [v mod 2 ^ frame_bits r]; dp_busy := Some 1%nat |} else p;
  wire_in c p := match dp_rx p with None => {| p with dp_rx := Some c |} | Some _ => p end;
  elapse := demo_pass
|}.

Lemma demo_usart_laws : @UsartLaws demo_usart.
Proof.
  refine (@Build_UsartLaws demo_usart (fun p => match dp_rx p with None => [] | Some c => [wrap 9 c] end) dp_tx dp_busy
    _ _ _ _ _ _ _ _ _ _ _ _ _ _ _ _ _ _ _ _ _ _ _ _ _ _ _ _); cbn -[Z.testbit wrap]; unfold rxne, tc, demo_pass; cbn -[Z.testbit wrap].
  - intros p. destruct (dp_rx p); [|done]. apply Forall_cons. split; [by apply wrap_fits|done].
  - intros p. destruct (dp_rx p); simpl; lia.
  - intros [[] x b []]; done.
  - intros [[c'|] x b []] c l [=]; subst; done.
  - by intros [l x [[|n]|] b].
  - by intros [l x [[|n]|] b].
  - by intros [l x [[|n]|] b].
  - by intros [[c|] x [[|n]|] []].
  - intros v p. by destruct (Z.testbit v 5).
  - done.
  - done.
  - intros v [l x b t]. cbn -[Z.testbit]. by destruct (Z.testbit v 5), l, t, (Z.testbit v 6).
  - done.
  - done.
  - done.
  - intros [[c|] x b []]; done.
  - intros r v p. by destruct (running r).
  - intros r v p Hr _. by rewrite Hr.
  - intros r v p Hr _. rewrite Hr. eexists. split; [done|]. simpl. lia.
  - intros r v p Ht. by destruct (running r).
  - intros c [[c'|] x b t] Hc; [done|]. cbn -[wrap]. by rewrite wrap_id.
  - by intros c [[c'|] x b t].
  - by intros c [[c'|] x b t].
  - by intros c [[c'|] x b []].
  - by intros [l x [[|n]|] b].
  - by intros [l x [[|n]|] b].
  - by intros [l x [[|n]|] b].
  - by intros [[c|] x [[|n]|] []].
Defined.

(** USART1 after a reset, with the clocks as system_clock_config sets them; rt_hw_usart_init has registered it as the device at 900. *)
#[local] Existing Instance demo_hardware.
#[local] Existing Instance demo_hardware_laws.
#[local] Existing Instance demo_usart.
#[local] Existing Instance demo_usart_laws.

Definition reset_uart : stm32_uart :=
  {| handle := {| Init := {| BaudRate := 0; WordLength := 0; StopBits := 0; Parity := 0; UartMode := 0; HwFlowCtl := 0; OverSampling := 0 |};
                  Lock := 0; gState := 0; RxState := 0; ErrorCode := 0 |};
     usart := {| BRR := 0; CR1 := 0; CR2 := 0; CR3 := 0 |};
     wire := {| dp_rx := None; dp_tx := []; dp_busy := None; dp_tc := true |};
     pins := reset_regs; MAPR := 0; SystemCoreClock := 64000000; CFGR := 0x38040A |}.

Definition reset_serial : rt_serial_device stm32_uart :=
  {| config := RT_SERIAL_CONFIG_DEFAULT; serial_rx := None; serial_tx := None; already_output := false; hw := reset_uart |}.

Definition usart_booted : option (rt_device * rt_serial_device stm32_uart * kernel) :=
  '(_, s, ds, k) ← rt_hw_usart_init 900 reset_serial {[900 := null_device]} demo_kernel;
  d ← ds !! 900;
  Some ({| d with rx_indicate := Some 7 |}, s, k).

Definition usart_device : rt_device := match usart_booted with Some (d, _, _) => d | None => null_device end.
Definition usart_kernel : kernel := match usart_booted with Some (_, _, k) => k | None => demo_kernel end.
Definition usart_oflag : Z := Z.lor (Z.lor RT_DEVICE_OFLAG_RDWR RT_DEVICE_FLAG_INT_RX) RT_DEVICE_FLAG_STREAM.

Lemma usart_able : uart_able usart_device reset_serial.
Proof.
  assert (has_flag (dev_flag usart_device) RT_DEVICE_FLAG_ACTIVATED = false) as Hf by (vm_compute; reflexivity).
  unfold uart_able. rewrite Hf. split; [|discriminate]. split; [intros [Hp|Hp]; discriminate|]. split; [reflexivity|exact reset_regs_shape].
Qed.

Lemma usart_device_ok : device_ok usart_device.
Proof. split; vm_compute; [reflexivity|split; [discriminate|reflexivity]|discriminate|discriminate]. Qed.

(** While the thread prints OK, two characters come and are taken in the wait for the second byte; of three that come before the next
    interrupt the first is kept. *)
Definition usart_events : list usart_event :=
  replicate 12 Proceed ++ [Incoming 104; Interrupt; Proceed; Incoming 105; Interrupt; Proceed; Elapsed; Reading 1;
                           Incoming 33; Incoming 34; Incoming 35; Proceed; Interrupt; Reading 5].

Lemma usart_events_ok : Forall usart_event_ok usart_events.
Proof.
  unfold usart_events. repeat (apply Forall_cons; split; [first [exact I|discriminate|apply (bool_decide_eq_true_1 _); vm_compute; reflexivity]|]).
  exact (Forall_nil_2 _).
Qed.

Definition usart_calls : list (list Z) := [[79; 75; 10]; []; [33]].

(** What the witness needs of the opened device. *)
Definition usart_opened (e : Z) (d1 : rt_device) (s1 : rt_serial_device stm32_uart) (k1 : kernel) : Z * option Z * bool * list Z * Z * bool * bool :=
  (e, rx_indicate d1, stream_mode d1, dp_tx (wire (hw s1)), BRR (usart (hw s1)), bool_decide (0 <= interrupt_nest k1 < 2 ^ 8),
   undisturbed d1 usart_events {| w_call := None; w_next := usart_calls |} s1 k1).

Lemma usart_exact_witness : exists d1 s1 k1,
  rt_device_open serial_ops usart_oflag usart_device reset_serial usart_kernel = Some (RT_EOK, d1, s1, k1) /\
  exists os w2 s2, usart_run d1 usart_events {| w_call := None; w_next := usart_calls |} s1 k1 = Some (os, w2, s2, k1) /\
    omap (fun o => match o with Nothing => None | _ => Some o end) (heard <$> os) =
      [Called (Some (7, 1)); Called (Some (7, 2)); Got [104]; Called (Some (7, 2)); Got [105; 33]] /\ BRR (usart (hw s2)) = 556 /\
    exists n os' s3, usart_run d1 (replicate n Proceed) w2 s2 k1 = Some (os', {| w_call := None; w_next := [] |}, s3, k1) /\
      dp_tx (wire (hw s3)) = [79; 75; 13; 10; 33].
Proof.
  destruct (rt_device_open serial_ops usart_oflag usart_device reset_serial usart_kernel) as [[[[e d1] s1] k1]|] eqn:E.
  - assert (usart_opened e d1 s1 k1 = (0, Some 7, true, [], 556, true, true)) as Hv.
    { assert (match rt_device_open serial_ops usart_oflag usart_device reset_serial usart_kernel with
              | Some (e, d1, s1, k1) => usart_opened e d1 s1 k1 = (0, Some 7, true, [], 556, true, true)
              | None => False end) as Hm by (vm_compute; reflexivity).
      rewrite E in Hm. exact Hm. }
    unfold usart_opened in Hv. injection Hv as -> Hi Hs Ht Hb Hk Hun. apply bool_decide_eq_true_1 in Hk.
    exists d1, s1, k1. split; [reflexivity|].
    destruct (usart_exact usart_oflag usart_device reset_serial usart_kernel d1 s1 k1 usart_calls usart_events
      usart_device_ok usart_able eq_refl eq_refl eq_refl ltac:(split; [discriminate|reflexivity]) eq_refl E Hk usart_events_ok)
      as (os & w2 & s2 & fin & part & E2 & Hh & _ & _ & _ & _ & _ & Hu & Hall).
    destruct (Hall Hun) as (n & os' & s3 & _ & E3 & Htx). rewrite Hs in Htx. rewrite Hi in Hh.
    exists os, w2, s2. split; [exact E2|]. split; [rewrite Hh; vm_compute; reflexivity|]. split; [rewrite Hu; exact Hb|].
    exists n, os', s3. split; [exact E3|].
    change (dp_tx (wire (hw s3)) = dp_tx (wire (hw s1)) ++ all_sent true usart_calls) in Htx. rewrite Htx, Ht. vm_compute. reflexivity.
  - exfalso. assert (match rt_device_open serial_ops usart_oflag usart_device reset_serial usart_kernel with
      | Some _ => True | None => False end) as Hm by (vm_compute; exact I). rewrite E in Hm. exact Hm.
Defined.

Lemma uart_baud_rate_witness : exists u', stm32_configure RT_SERIAL_CONFIG_DEFAULT reset_uart = Some (RT_EOK, u') /\
  100 * (BRR (usart u') * 115200 - 64000000) <= 50 * 115200 /\ frame_bits (usart u') = 8.
Proof.
  destruct (uart_baud_rate RT_SERIAL_CONFIG_DEFAULT reset_uart 64000000 reset_regs_shape eq_refl ltac:(reflexivity) ltac:(reflexivity)
    ltac:(split; discriminate)) as (u' & E & _ & [_ Hb] & _ & _ & Hf & _).
  exists u'. split; [exact E|]. split; [exact Hb|exact Hf].
Defined.
