(* ===== verification/Startup.v ===== *)
(** * Start-up of the firmware (rt-thread/src/components.c, applications/main.c)

    From the reset to the loop of [main]: the heap, the threads of the kernel,
    the main thread, and the threads that the shell and the application create.
    What the drivers do meanwhile takes no memory of the heap and creates no
    thread; it is modelled with them ([Board], [Usart], [Console]).

    [firmware] is the code from rtthread_startup on.  The stages ([stage1] to
    [stage10]) are the same code with the addresses that the heap gives out
    ([packed_after]) put in: they can be evaluated, for any heap, and
    [firmware_staged] says that they are [firmware]. *)
From S2P Require Import Prelude Mem Owner Kernel Sched Timer Ipc Kcall Thread Semaphore Mutex.

Definition RT_MAIN_THREAD_STACK_SIZE : Z := 2048.
Definition RT_MAIN_THREAD_PRIORITY : Z := 10.
Definition FINSH_THREAD_STACK_SIZE : Z := 4096.
Definition FINSH_THREAD_PRIORITY : Z := 20.

(** The size of struct finsh_shell on the target. *)
Definition SIZEOF_FINSH_SHELL : Z := 528.

Section Firmware.
(** Where the linker puts the entries of the threads and the static stacks. *)
Context (main_thread_entry rt_thread_timer_entry_at rt_thread_idle_entry_at finsh_thread_entry
         indicator_led_entry ui_entry light_thread_entry : Z).
Context (timer_thread_stack rt_thread_stack : Z).

(** ** components.c *)
Definition rt_application_init (k : kernel) : option kernel :=
  '(tid, k) ← rt_thread_create (bytes "main") main_thread_entry 0 RT_MAIN_THREAD_STACK_SIZE RT_MAIN_THREAD_PRIORITY 20 k;
  tid ← tid;
  '(_, k) ← rt_thread_startup tid k;
  Some k.

(** The heap, which rt_hw_board_init initialises, lies from [heap_begin] to [heap_end]. *)
Definition rtthread_startup (heap_begin heap_end : Z) (k : kernel) : option kernel :=
  let k := {| k with kheap := rt_system_heap_init heap_begin heap_end (kheap k) |} in
  let k := rt_system_timer_init k in
  let k := rt_system_scheduler_init k in
  k ← rt_application_init k;
  k ← rt_system_timer_thread_init rt_thread_timer_entry_at timer_thread_stack k;
  k ← rt_thread_idle_init rt_thread_idle_entry_at rt_thread_stack k;
  rt_system_scheduler_start k.

(** ** shell.c: finsh_system_init, which rt_components_init calls *)
Definition finsh_thread_init (k : kernel) : option (Z * kernel) :=
  '(p, h, _) ← rt_calloc (fun _ _ d => d) 1 SIZEOF_FINSH_SHELL (kheap k) tt;
  let k := {| k with kheap := h |} in
  match p with
  | None => Some (-1, k)
  | Some shell =>
      '(tid, k) ← rt_thread_create (bytes "tshell") finsh_thread_entry 0 FINSH_THREAD_STACK_SIZE FINSH_THREAD_PRIORITY 10 k;
      '(_, _, k) ← rt_sem_init shell {| sem_parent := null_object; value := 0 |} (bytes "shrx") 0 0 k;
      match tid with
      | Some tid => '(_, k) ← rt_thread_startup tid k; Some (0, k)
      | None => Some (0, k)
      end
  end.

(** ** The application: main.c and the initialisation of its modules *)

(** stopwatch_init: the lock. *)
Definition stopwatch_lock_init (k : kernel) : option (Z * kernel) :=
  '(lock, k) ← rt_mutex_create (bytes "swlock") RT_IPC_FLAG_PRIO k;
  Some (match lock with Some _ => RT_EOK | None => - RT_ENOMEM end, k).

(** A module's thread, as indicator_led_init, ui_oled_init and
    sensor_light_init of the application create it. *)
Definition module_thread (nm : list Z) (ent size prio : Z) (k : kernel) : option (Z * kernel) :=
  '(tid, k) ← rt_thread_create nm ent 0 size prio 10 k;
  match tid with
  | None => Some (- RT_ENOMEM, k)
  | Some tid => '(_, k) ← rt_thread_startup tid k; Some (RT_EOK, k)
  end.

Definition indicator_led_start : kernel -> option (Z * kernel) :=
  module_thread (bytes "led_ind") indicator_led_entry 768 (RT_THREAD_PRIORITY_MAX - 3).

Definition ui_oled_start : kernel -> option (Z * kernel) :=
  module_thread (bytes "ui_oled") ui_entry 1024 (RT_THREAD_PRIORITY_MAX - 4).

Definition sensor_light_start : kernel -> option (Z * kernel) :=
  module_thread (bytes "light") light_thread_entry 768 (RT_THREAD_PRIORITY_MAX - 3).

(** main up to its loop: it does not look at the results.  notifier_buzzer_init,
    between the LEDs and the display, only sets a pin ([Board.buz_set_pin]). *)
Definition main_init (k : kernel) : option kernel :=
  '(_, k) ← stopwatch_lock_init k;
  '(_, k) ← indicator_led_start k;
  '(_, k) ← ui_oled_start k;
  '(_, k) ← sensor_light_start k;
  Some k.

(** One round of the loop. *)
Definition main_loop (k : kernel) : option kernel := rt_thread_mdelay 1000 k.

(** The main thread up to the loop of main. *)
Definition main_thread_start (k : kernel) : option kernel := '(_, k) ← finsh_thread_init k; main_init k.

(** From the reset on: the timer thread has the highest priority, finds no soft
    timer and suspends itself; the main thread runs. *)
Definition firmware (heap_begin heap_end : Z) (k : kernel) : option kernel :=
  k ← rtthread_startup heap_begin heap_end k;
  k ← rt_thread_timer_entry k;
  main_thread_start k.

End Firmware.

(** ** Creating objects when the memory is there *)
Definition allocated (cls a : Z) (h : heap) (k : kernel) : kernel :=
  {| (list_of_class cls (Obj a :: object_list k cls) k) with kheap := h |}.

Lemma object_allocate_at cls size a h nm k : interrupt_nest k = 0 -> rt_object_get_information cls = Some (cls, size) ->
  rt_malloc size (kheap k) = Some (Some a, h) ->
  rt_object_allocate cls nm k = Some (Some (a, {| name := object_name nm; type := cls; flag := 0 |}), allocated cls a h k).
Proof.
  intros Hn Hi E. assert (RT_DEBUG_NOT_IN_INTERRUPT k = Some tt) as Hd
    by (unfold RT_DEBUG_NOT_IN_INTERRUPT, rt_interrupt_get_nest; by rewrite Hn).
  unfold rt_object_allocate. rewrite Hd, Hi, !some_bind. cbn [snd]. rewrite E. cbn [mbind option_bind]. reflexivity.
Qed.

Definition create_at (t stack : Z) (h : heap) (nm : list Z) (ent par size prio tick : Z) (k : kernel) : option kernel :=
  _rt_thread_init t {| null_thread with th_parent := {| name := object_name nm; type := RT_Object_Class_Thread; flag := 0 |} |}
    ent par stack size prio tick (allocated RT_Object_Class_Thread t h k).

Lemma thread_create_at t stack h1 h2 nm ent par size prio tick k : interrupt_nest k = 0 ->
  rt_malloc SIZEOF_STRUCT_THREAD (kheap k) = Some (Some t, h1) -> rt_malloc size h1 = Some (Some stack, h2) ->
  rt_thread_create nm ent par size prio tick k = k ← create_at t stack h2 nm ent par size prio tick k; Some (Some t, k).
Proof.
  intros Hn E1 E2. unfold rt_thread_create. rewrite (object_allocate_at _ SIZEOF_STRUCT_THREAD t h1) by done.
  cbn [mbind option_bind]. cbv beta iota zeta. change (kheap (allocated _ _ _ k)) with h1.
  rewrite E2. cbn [mbind option_bind]. cbv beta iota zeta. reflexivity.
Qed.

(** ** The heap during start-up: nothing is freed *)
Definition after (sizes : list Z) (h : heap) : heap :=
  foldl (fun h s => match rt_malloc s h with Some (_, h') => h' | None => h end) h sizes.

Definition taken_by (sizes : list Z) : Z := foldr (fun s n => SIZEOF_STRUCT_MEM + request s + n) 0 sizes.

Lemma after_app s1 s2 h : after (s1 ++ s2) h = after s2 (after s1 h).
Proof. apply foldl_app. Qed.

Lemma taken_by_app s1 s2 : taken_by (s1 ++ s2) = taken_by s1 + taken_by s2.
Proof. induction s1 as [|s s1 IH]; [done|]. simpl. rewrite IH. lia. Qed.

Lemma request_pos s : 0 < request s.
Proof. unfold request, MIN_SIZE_ALIGNED. lia. Qed.

Lemma taken_by_nonneg sizes : Forall (fun s => 0 < s) sizes -> 0 <= taken_by sizes.
Proof.
  induction 1 as [|s l Hs Hl IH]; simpl; [done|]. pose proof (request_pos s). unfold SIZEOF_STRUCT_MEM. lia.
Qed.

Lemma packed_after sizes : forall h u n, packed h u n -> Forall (fun s => 0 < s <= 2 ^ 32 - 4) sizes ->
  SIZEOF_STRUCT_MEM + MIN_SIZE_ALIGNED + taken_by sizes <= n ->
  packed (after sizes h) (u + taken_by sizes) (n - taken_by sizes).
Proof.
  induction sizes as [|s l IH]; intros h u n Hp Hs Hn; [simpl; by rewrite Z.add_0_r, Z.sub_0_r|].
  apply Forall_cons in Hs as [Hs Hl]. simpl in *.
  assert (0 <= taken_by l) by (apply taken_by_nonneg; eapply Forall_impl; [exact Hl|]; simpl; lia).
  destruct (packed_malloc h u n s Hp Hs) as (h' & E & Hp'); [lia|]. rewrite E.
  replace (u + _) with (u + SIZEOF_STRUCT_MEM + request s + taken_by l) by lia.
  replace (n - _) with (n - SIZEOF_STRUCT_MEM - request s - taken_by l) by lia. apply IH; [done|done|lia].
Qed.

Lemma malloc_after sizes s h u n : packed h u n -> Forall (fun s => 0 < s <= 2 ^ 32 - 4) (sizes ++ [s]) ->
  SIZEOF_STRUCT_MEM + MIN_SIZE_ALIGNED + taken_by (sizes ++ [s]) <= n ->
  rt_malloc s (after sizes h) = Some (Some (u + taken_by sizes + SIZEOF_STRUCT_MEM), after (sizes ++ [s]) h).
Proof.
  intros Hp Hs Hn. rewrite taken_by_app in Hn. apply Forall_app in Hs as [Hs H1]. rewrite Forall_singleton in H1.
  simpl in Hn. pose proof (request_pos s).
  destruct (packed_malloc (after sizes h) (u + taken_by sizes) (n - taken_by sizes) s) as (h' & E & _).
  - apply packed_after; [done|done|unfold SIZEOF_STRUCT_MEM in *; lia].
  - exact H1.
  - lia.
  - rewrite after_app. simpl. by rewrite E.
Qed.

(** ** The stages of the start-up

    The heap after the first [i] blocks is [hp i]; what is allocated in a
    stage lies where [packed_after] says. *)
Definition startup_sizes : list Z := [128; 2048; 528; 128; 4096; 36; 128; 768; 128; 1024; 128; 768].

Section Stages.
Context (main_at timer_at idle_at shell_at led_at ui_at light_at timer_stack idle_stack : Z) (hp : nat -> heap).

Definition stage1 : option kernel :=
  k ← create_at 12 152 (hp 2%nat) (bytes "main") main_at 0 RT_MAIN_THREAD_STACK_SIZE RT_MAIN_THREAD_PRIORITY 20
        (rt_system_scheduler_init (rt_system_timer_init (boot_kernel (hp 0%nat))));
  '(_, k) ← rt_thread_startup 12 k; Some k.
Definition stage2 : option kernel := k ← stage1; rt_system_timer_thread_init timer_at timer_stack k.
Definition stage3 : option kernel := k ← stage2; rt_thread_idle_init idle_at idle_stack k.
Definition stage4 : option kernel := k ← stage3; rt_system_scheduler_start k.
Definition stage5 : option kernel := k ← stage4; rt_thread_timer_entry k.

(** The shell: its block, with the semaphore at its beginning, is at 2212. *)
Definition stage6a : option kernel :=
  k ← stage5;
  create_at 2752 2892 (hp 5%nat) (bytes "tshell") shell_at 0 FINSH_THREAD_STACK_SIZE FINSH_THREAD_PRIORITY 10
    {| k with kheap := hp 3%nat |}.
Definition stage6b : option kernel :=
  k ← stage6a;
  '(_, _, k) ← rt_sem_init 2212 {| sem_parent := null_object; value := 0 |} (bytes "shrx") 0 0 k; Some k.
Definition stage6 : option kernel := k ← stage6b; '(_, k) ← rt_thread_startup 2752 k; Some k.

Definition stage7 : option kernel :=
  k ← stage6; Some (set_queue (QSuspend 7000) [] (allocated RT_Object_Class_Mutex 7000 (hp 6%nat) k)).

Definition thread_stage (t stack : Z) (h : heap) (nm : list Z) (ent size prio : Z) (k : kernel) : option kernel :=
  k ← create_at t stack h nm ent 0 size prio 10 k; '(_, k) ← rt_thread_startup t k; Some k.

Definition stage8 : option kernel := k ← stage7; thread_stage 7048 7188 (hp 8%nat) (bytes "led_ind") led_at 768 29 k.
Definition stage9 : option kernel := k ← stage8; thread_stage 7968 8108 (hp 10%nat) (bytes "ui_oled") ui_at 1024 28 k.
Definition stage10 : option kernel := k ← stage9; thread_stage 9144 9284 (hp 12%nat) (bytes "light") light_at 768 29 k.

Lemma no_timer_thread : (fun k => threads k !! timer_thread) <$> stage1 = Some None.
Proof. vm_compute. reflexivity. Qed.
Lemma no_idle_thread : (fun k => threads k !! idle) <$> stage2 = Some None.
Proof. vm_compute. reflexivity. Qed.
Lemma no_current_thread : current_thread <$> stage3 = Some None.
Proof. vm_compute. reflexivity. Qed.
Lemma no_shell_waits :
  (k ← stage6a; '(_, k) ← rt_object_init (Obj 2212) null_object RT_Object_Class_Semaphore (bytes "shrx") k;
   Some (queues k (QSuspend 2212))) = Some [].
Proof. vm_compute. reflexivity. Qed.
Lemma shell_priority : (fun k => init_priority <$> threads k !! 2752) <$> stage6b = Some (Some FINSH_THREAD_PRIORITY).
Proof. vm_compute. reflexivity. Qed.
Lemma no_lock_waits : (fun k => queues k (QSuspend 7000)) <$> stage6 = Some [].
Proof. vm_compute. reflexivity. Qed.

(** The ready lists that are not empty. *)
Definition ready_lists (k : kernel) : list (Z * list Z) :=
  List.filter (fun e => negb (length (snd e) =? 0)%nat) (map (fun p => (p, queues k (QReady p))) (seqZ 0 RT_THREAD_PRIORITY_MAX)).

Definition view (k : kernel) := (kheap k, interrupt_nest k, current_thread k, ready_lists k).

Lemma stage1_view : view <$> stage1 = Some (hp 2%nat, 0, None, [(10, [12])]).
Proof. vm_compute. reflexivity. Qed.
Lemma stage2_view : view <$> stage2 = Some (hp 2%nat, 0, None, [(4, [timer_thread]); (10, [12])]).
Proof. vm_compute. reflexivity. Qed.
Lemma stage3_view : view <$> stage3 = Some (hp 2%nat, 0, None, [(4, [timer_thread]); (10, [12]); (31, [idle])]).
Proof. vm_compute. reflexivity. Qed.
Lemma stage4_view : view <$> stage4 = Some (hp 2%nat, 0, Some timer_thread, [(10, [12]); (31, [idle])]).
Proof. vm_compute. reflexivity. Qed.
Lemma stage5_view : view <$> stage5 = Some (hp 2%nat, 0, Some 12, [(31, [idle])]).
Proof. vm_compute. reflexivity. Qed.
Lemma stage6a_view : view <$> stage6a = Some (hp 5%nat, 0, Some 12, [(31, [idle])]).
Proof. vm_compute. reflexivity. Qed.
Lemma stage6b_view : view <$> stage6b = Some (hp 5%nat, 0, Some 12, [(31, [idle])]).
Proof. vm_compute. reflexivity. Qed.
Lemma stage6_view : view <$> stage6 = Some (hp 5%nat, 0, Some 12, [(20, [2752]); (31, [idle])]).
Proof. vm_compute. reflexivity. Qed.
Lemma stage7_view : view <$> stage7 = Some (hp 6%nat, 0, Some 12, [(20, [2752]); (31, [idle])]).
Proof. vm_compute. reflexivity. Qed.
Lemma stage8_view : view <$> stage8 = Some (hp 8%nat, 0, Some 12, [(20, [2752]); (29, [7048]); (31, [idle])]).
Proof. vm_compute. reflexivity. Qed.
Lemma stage9_view : view <$> stage9 = Some (hp 10%nat, 0, Some 12, [(20, [2752]); (28, [7968]); (29, [7048]); (31, [idle])]).
Proof. vm_compute. reflexivity. Qed.
Lemma stage10_view : view <$> stage10 = Some (hp 12%nat, 0, Some 12, [(20, [2752]); (28, [7968]); (29, [7048; 9144]); (31, [idle])]).
Proof. vm_compute. reflexivity. Qed.

(** main sleeps: the shell runs. *)
Lemma main_sleeps : view <$> (k ← stage10; main_loop k) =
  Some (hp 12%nat, 0, Some 2752, [(28, [7968]); (29, [7048; 9144]); (31, [idle])]).
Proof. vm_compute. reflexivity. Qed.

End Stages.

(** ** The system stays in order *)

(** Kernels that differ in the lists of objects only. *)
Lemma same_lists_ok k k' : kernel_ok k -> (forall q, queues k' q = queues k q) -> threads k' = threads k ->
  timers k' = timers k -> ready_group k' = ready_group k -> current_thread k' = current_thread k -> kernel_ok k'.
Proof.
  intros [[[] Hc Ho] Hst Hcu] H1 H2 H3 H4 H5. split; [split; [split|..]|..].
  - by rewrite H4.
  - intros p. rewrite H4, H1. apply si_bit.
  - intros q t. rewrite H1, H2. apply si_queue.
  - intros t q. rewrite H1. apply si_exempt.
  - intros q q' t. rewrite !H1. apply si_once.
  - intros q. rewrite H1. apply si_nodup.
  - intros t th. rewrite H1, H2. apply si_listed.
  - intros t th. rewrite H2, H5. apply si_running.
  - intros t th. rewrite H2. apply si_prio.
  - intros c th. rewrite H5, H2. apply Hc.
  - apply (objs_same k); [done|done|]. by apply timers_ok_refl.
  - intros t th. rewrite H2. apply Hst.
  - intros c. rewrite H5, H2. apply Hcu.
Qed.

Lemma same_lists_system us k k' : system_ok us k -> (forall q, queues k' q = queues k q) -> threads k' = threads k ->
  timers k' = timers k -> ready_group k' = ready_group k -> current_thread k' = current_thread k -> kheap k' = kheap k ->
  (forall x, x ∈ listed k' -> x ∈ listed k) -> system_ok us k'.
Proof.
  intros [Hk Ht Hl] H1 H2 H3 H4 H5 H6 H7. split; [by apply (same_lists_ok k)|by rewrite H6, H2, H1, H3|].
  intros x Hx. unfold timer_at. rewrite H3. by apply Hl, H7.
Qed.

Lemma init_system h : heap_owns h [] -> system_ok [] (rt_system_scheduler_init (rt_system_timer_init (boot_kernel h))).
Proof.
  intros Ho. apply (same_lists_system [] (boot_kernel h)); try done; [by apply boot_system_ok|].
  intros q. simpl. destruct q; try done. by destruct (_ && _).
Qed.

(** Emptying a queue that is empty. *)
Lemma clear_system us q k : system_ok us k -> queues k q = [] -> system_ok us (set_queue q [] k).
Proof.
  intros Hs Hq. apply (same_lists_system us k); try done. intros q'. simpl. destruct (decide (q' = q)) as [->|]; [by rewrite Hq|done].
Qed.

(** An object of a client. *)
Lemma client_object_system us cls size a h k : system_ok us k -> 0 <= size <= 2 ^ 32 - 4 ->
  rt_malloc size (kheap k) = Some (Some a, h) -> system_ok ((a, size) :: us) (allocated cls a h k).
Proof.
  intros Hs Hsz E. pose proof (client_malloc_system us size (Some a) h k Hs Hsz E) as H.
  by apply (same_lists_system _ _ _ H).
Qed.

Lemma startup_system us t k r k' prio : system_ok us k -> 0 <= prio < RT_THREAD_PRIORITY_MAX ->
  (exists th, threads k !! t = Some th /\ init_priority th = prio) ->
  rt_thread_startup t k = Some (r, k') -> system_ok us k'.
Proof.
  intros Hs Hp (th & Ht & Hi) E. eapply safe_system; [|exact Hs]. eapply safe_startup; [|exact E].
  intros th'. rewrite Ht. intros [= <-]. by rewrite Hi.
Qed.

(** A static thread that is initialised and started. *)
Lemma init_startup_system us t nm ent stack size prio tick k k' :
  ('(_, k) ← rt_thread_init t nm ent 0 stack size prio tick k; '(_, k) ← rt_thread_startup t k; Some k) = Some k' ->
  system_ok us k -> threads k !! t = None ->
  t < 0 -> 0 <= stack -> 80 <= size -> stack + size < 2 ^ 32 -> 0 <= prio < RT_THREAD_PRIORITY_MAX -> system_ok us k'.
Proof.
  intros E Hs Hn Ht H0 H1 H2 Hp. destruct (rt_thread_init _ _ _ _ _ _ _ _ k) as [[r k1]|] eqn:E1; [|done].
  cbn [mbind option_bind] in E. destruct (rt_thread_startup t k1) as [[r2 k2]|] eqn:E2; [|done]. simpl in E. simplify_eq.
  destruct (thread_init_system us t nm ent 0 stack size prio tick r k k1 Hs Hn) as [Hs1 Hi]; try done.
  { unfold in_heap, SIZEOF_STRUCT_MEM. lia. }
  by eapply startup_system.
Qed.

(** A thread that is created and started. *)
Lemma create_startup us nm ent size prio tick k t stack h1 h2 k' :
  (k ← create_at t stack h2 nm ent 0 size prio tick k; '(_, k) ← rt_thread_startup t k; Some k) = Some k' ->
  system_ok us k -> interrupt_nest k = 0 -> 80 <= size <= 2 ^ 32 - 4 -> 0 <= prio < RT_THREAD_PRIORITY_MAX ->
  rt_malloc SIZEOF_STRUCT_THREAD (kheap k) = Some (Some t, h1) -> rt_malloc size h1 = Some (Some stack, h2) ->
  exists kc r, rt_thread_create nm ent 0 size prio tick k = Some (Some t, kc) /\
    rt_thread_startup t kc = Some (r, k') /\ system_ok us k'.
Proof.
  intros E Hs Hn Hsz Hp E1 E2. pose proof (thread_create_at t stack h1 h2 nm ent 0 size prio tick k Hn E1 E2) as Ec.
  destruct (create_at _ _ _ _ _ _ _ _ _ k) as [kc|]; [|done]. cbn [mbind option_bind] in E, Ec.
  destruct (rt_thread_startup t kc) as [[r k2]|] eqn:Es; [|done]. simpl in E. simplify_eq.
  exists kc, r. split; [done|]. split; [done|]. destruct (thread_create_system _ _ _ _ _ _ _ _ _ _ Hs Hsz Ec) as [Hc Hi].
  by eapply startup_system.
Qed.

(** ** From stage to stage *)
Definition heap_after (h : heap) (i : nat) : heap := after (take i startup_sizes) h.

Lemma heap_after_malloc h n i s : packed h 0 n -> SIZEOF_STRUCT_MEM + MIN_SIZE_ALIGNED + taken_by startup_sizes <= n ->
  startup_sizes !! i = Some s ->
  rt_malloc s (heap_after h i) = Some (Some (taken_by (take i startup_sizes) + SIZEOF_STRUCT_MEM), heap_after h (S i)).
Proof.
  intros Hp Hn Hi. assert (Forall (fun s => 0 < s <= 2 ^ 32 - 4) startup_sizes) as Hs by (repeat constructor; lia).
  pose proof (take_S_r _ _ _ Hi) as Et. unfold heap_after. rewrite Et. apply (malloc_after _ s h 0 n Hp); rewrite <- Et.
  - by apply Forall_take.
  - assert (0 <= taken_by (drop (S i) startup_sizes)).
    { apply taken_by_nonneg, Forall_drop. eapply Forall_impl; [exact Hs|]. simpl. lia. }
    pose proof (taken_by_app (take (S i) startup_sizes) (drop (S i) startup_sizes)) as E. rewrite take_drop in E. lia.
Qed.

Lemma viewed (o : option kernel) k h n c l : o = Some k -> view <$> o = Some (h, n, c, l) ->
  kheap k = h /\ interrupt_nest k = n /\ current_thread k = c /\ ready_lists k = l.
Proof. intros ->. intros H%(inj Some). unfold view in H. rewrite !pair_equal_spec in H. tauto. Qed.

Lemma fmap_at {A} (o : option kernel) k (f : kernel -> A) x : o = Some k -> f <$> o = Some x -> f k = x.
Proof. intros ->. by intros H%(inj Some). Qed.

(** A stage ends, in a system in order. *)
Definition stage_ok (us : blocks) (o : option kernel) : Prop := exists k, o = Some k /\ system_ok us k.

Lemma stage_next us us' o o' (f : kernel -> option kernel) v : o' = o ≫= f -> stage_ok us o ->
  view <$> o' = Some v ->
  (forall k k', o = Some k -> system_ok us k -> f k = Some k' -> system_ok us' k') -> stage_ok us' o'.
Proof.
  intros -> (k & -> & Hs) Hv Hf. cbn [mbind option_bind] in *. destruct (f k) as [k'|] eqn:E; [|done].
  exists k'. split; [done|]. by apply (Hf k k').
Qed.

Section Boot.
Context (main_at timer_at idle_at shell_at led_at ui_at light_at timer_stack idle_stack : Z) (h : heap) (n : Z).
Context (Hp : packed h 0 n) (Hn : SIZEOF_STRUCT_MEM + MIN_SIZE_ALIGNED + taken_by startup_sizes <= n)
        (Ho : heap_owns h []) (Hts : 0 <= timer_stack /\ timer_stack + 512 < 2 ^ 32)
        (His : 0 <= idle_stack /\ idle_stack + 256 < 2 ^ 32).

#[local] Opaque create_at rt_thread_startup rt_thread_create rt_thread_init rt_malloc after.
#[local] Abbreviation hp := (heap_after h).
#[local] Abbreviation st2 s := (s main_at timer_at timer_stack hp).
#[local] Abbreviation st4 s := (s main_at timer_at idle_at shell_at timer_stack idle_stack hp).
#[local] Abbreviation st3 s := (s main_at timer_at idle_at timer_stack idle_stack hp).

Lemma malloc_at i s a : startup_sizes !! i = Some s -> taken_by (take i startup_sizes) + SIZEOF_STRUCT_MEM = a ->
  rt_malloc s (hp i) = Some (Some a, hp (S i)).
Proof. intros Hi <-. by apply (heap_after_malloc h n). Qed.

Lemma boot1 : stage_ok [] (stage1 main_at hp) /\
  rt_application_init main_at (rt_system_scheduler_init (rt_system_timer_init (boot_kernel (hp 0%nat)))) = stage1 main_at hp.
Proof.
  destruct (stage1 main_at hp) as [k|] eqn:E; [|by pose proof (stage1_view main_at hp) as Hv; rewrite E in Hv].
  unfold stage1 in E. set (k0 := rt_system_scheduler_init _) in *.
  destruct (create_startup [] _ _ _ _ _ _ _ _ (hp 1%nat) _ _ E) as (kc & r & Ec & Es & Hs).
  - by apply init_system.
  - reflexivity.
  - unfold RT_MAIN_THREAD_STACK_SIZE. lia.
  - by split.
  - by apply (malloc_at 0 128).
  - by apply (malloc_at 1 2048).
  - split; [exists k; by split; [reflexivity|exact Hs]|]. unfold rt_application_init. rewrite Ec. cbn [mbind option_bind]. rewrite Es. reflexivity.
Qed.

Lemma boot2 : stage_ok [] (st2 stage2).
Proof.
  apply (stage_next [] [] _ (st2 stage2) _ _ eq_refl (proj1 boot1) (stage2_view main_at timer_at timer_stack hp)). intros k k' E Hs Ef.
  pose proof (fmap_at _ _ _ _ E (no_timer_thread main_at hp)) as Hnt.
  unfold rt_system_timer_thread_init in Ef. cbv zeta in Ef.
  apply (init_startup_system [] _ _ _ _ _ _ _ _ _ Ef); [|exact Hnt|done|lia|lia|lia|by split].
  apply (same_lists_system [] k _ Hs); try reflexivity. intros x. unfold listed. simpl. rewrite !elem_of_app. tauto.
Qed.

Lemma boot3 : stage_ok [] (st3 stage3).
Proof.
  apply (stage_next [] [] _ (st3 stage3) _ _ eq_refl boot2 (stage3_view main_at timer_at idle_at timer_stack idle_stack hp)).
  intros k k' E Hs Ef. pose proof (fmap_at _ _ _ _ E (no_idle_thread main_at timer_at timer_stack hp)) as Hnt.
  unfold rt_thread_idle_init in Ef. pose proof (init_startup_system [] _ _ _ _ _ _ _ _ _ Ef Hs Hnt) as H.
  clear -H His. apply H; unfold idle, RT_THREAD_PRIORITY_MAX; lia.
Qed.

Lemma boot4 : stage_ok [] (st3 stage4).
Proof.
  apply (stage_next [] [] _ (st3 stage4) _ _ eq_refl boot3 (stage4_view main_at timer_at idle_at timer_stack idle_stack hp)).
  intros k k' E Hs Ef. eapply safe_system; [|exact Hs]. apply start_safe; [|exact Ef].
  apply (fmap_at _ _ _ _ E (no_current_thread main_at timer_at idle_at timer_stack idle_stack hp)).
Qed.

Lemma boot5 : stage_ok [] (st3 stage5).
Proof.
  apply (stage_next [] [] _ (st3 stage5) _ _ eq_refl boot4 (stage5_view main_at timer_at idle_at timer_stack idle_stack hp)).
  intros k k' E Hs Ef. eapply safe_system; [|exact Hs]. by apply timer_entry_safe.
Qed.

(** The shell. *)
Lemma shell_heap k : st3 stage5 = Some k -> rt_malloc SIZEOF_FINSH_SHELL (kheap k) = Some (Some 2212, hp 3%nat).
Proof.
  intros E. destruct (viewed _ _ _ _ _ _ E (stage5_view main_at timer_at idle_at timer_stack idle_stack hp)) as (-> & _).
  by apply (malloc_at 2 528).
Qed.

Lemma shell_created k : st3 stage5 = Some k ->
  rt_thread_create (bytes "tshell") shell_at 0 FINSH_THREAD_STACK_SIZE FINSH_THREAD_PRIORITY 10 {| k with kheap := hp 3%nat |} =
  k ← create_at 2752 2892 (hp 5%nat) (bytes "tshell") shell_at 0 FINSH_THREAD_STACK_SIZE FINSH_THREAD_PRIORITY 10
    {| k with kheap := hp 3%nat |}; Some (Some 2752, k).
Proof.
  intros E. destruct (viewed _ _ _ _ _ _ E (stage5_view main_at timer_at idle_at timer_stack idle_stack hp)) as (_ & Hi & _).
  apply (thread_create_at _ _ (hp 4%nat)); [exact Hi|by apply (malloc_at 3 128)|by apply (malloc_at 4 4096)].
Qed.

Lemma boot6a : stage_ok [(2212, SIZEOF_FINSH_SHELL)] (st4 stage6a).
Proof.
  apply (stage_next [] _ _ (st4 stage6a) _ _ eq_refl boot5 (stage6a_view main_at timer_at idle_at shell_at timer_stack idle_stack hp)).
  intros k k' E Hs Ef. pose proof (shell_created k E) as Ec. cbv beta in Ef. setoid_rewrite Ef in Ec.
  apply (thread_create_system [(2212, SIZEOF_FINSH_SHELL)]) in Ec; [apply Ec| |unfold FINSH_THREAD_STACK_SIZE; lia].
  apply (client_malloc_system [] SIZEOF_FINSH_SHELL (Some 2212) _ k Hs); [unfold SIZEOF_FINSH_SHELL; lia|by apply shell_heap].
Qed.

Lemma boot6b : stage_ok [(2212, SIZEOF_FINSH_SHELL)] (st4 stage6b).
Proof.
  apply (stage_next _ _ _ (st4 stage6b) _ _ eq_refl boot6a (stage6b_view main_at timer_at idle_at shell_at timer_stack idle_stack hp)).
  intros k k' E Hs Ef. pose proof (no_shell_waits main_at timer_at idle_at shell_at timer_stack idle_stack hp) as Hq.
  rewrite E in Hq. unfold rt_sem_init in Ef. cbn [mbind option_bind] in Hq, Ef. cbn [sem_parent] in Ef.
  destruct (0 <? 0x10000); [|discriminate Ef]. cbn [assert mbind option_bind] in Ef.
  destruct (rt_object_init _ _ _ _ k) as [[ob k1]|] eqn:E1; [|discriminate Ef]. cbn [mbind option_bind] in Hq, Ef.
  injection Ef as <-. apply clear_system; [|by injection Hq].
  eapply safe_system; [|exact Hs]. by eapply object_init_safe.
Qed.

Lemma boot6 : stage_ok [(2212, SIZEOF_FINSH_SHELL)] (st4 stage6).
Proof.
  apply (stage_next _ _ _ (st4 stage6) _ _ eq_refl boot6b (stage6_view main_at timer_at idle_at shell_at timer_stack idle_stack hp)).
  intros k k' E Hs Ef. destruct (rt_thread_startup 2752 k) as [[r k1]|] eqn:E1; [|discriminate Ef].
  cbn [mbind option_bind] in Ef. injection Ef as <-. apply (startup_system _ _ _ _ _ FINSH_THREAD_PRIORITY Hs) in E1; [exact E1|by split|].
  pose proof (fmap_at _ _ _ _ E (shell_priority main_at timer_at idle_at shell_at timer_stack idle_stack hp)) as Hp'.
  cbv beta in Hp'. destruct (threads k !! 2752) as [th|]; [|discriminate Hp']. exists th. split; [reflexivity|by apply (inj Some)].
Qed.

Lemma shell_started k : st3 stage5 = Some k -> snd <$> finsh_thread_init shell_at k = st4 stage6.
Proof.
  intros E. unfold finsh_thread_init, rt_calloc. change (u32 (1 * SIZEOF_FINSH_SHELL)) with SIZEOF_FINSH_SHELL.
  rewrite (shell_heap k E). cbn [mbind option_bind]. rewrite (shell_created k E).
  unfold stage6, stage6b, stage6a. rewrite E. cbn [mbind option_bind].
  destruct (create_at _ _ _ _ _ _ _ _ _ _) as [k1|]; [|reflexivity]. cbn [mbind option_bind].
  destruct (rt_sem_init _ _ _ _ _ k1) as [[[r s] k2]|]; [|reflexivity]. cbn [mbind option_bind].
  destruct (rt_thread_startup 2752 k2) as [[r' k3]|]; reflexivity.
Qed.

(** The application. *)
Definition shell_and_lock : blocks := [(7000, 36); (2212, SIZEOF_FINSH_SHELL)].

Lemma lock_created k : st4 stage6 = Some k -> snd <$> stopwatch_lock_init k = st4 stage7.
Proof.
  intros E. destruct (viewed _ _ _ _ _ _ E (stage6_view main_at timer_at idle_at shell_at timer_stack idle_stack hp)) as (Hh & Hi & _).
  unfold stage7. rewrite E. unfold stopwatch_lock_init, rt_mutex_create, RT_DEBUG_NOT_IN_INTERRUPT, rt_interrupt_get_nest.
  rewrite Hi. cbn [Z.eqb assert mbind option_bind].
  rewrite (object_allocate_at _ 36 7000 (hp 6%nat)); [reflexivity|exact Hi|reflexivity|].
  rewrite Hh. by apply (malloc_at 5 36).
Qed.

Lemma boot7 : stage_ok shell_and_lock (st4 stage7).
Proof.
  apply (stage_next _ _ _ (st4 stage7) _ _ eq_refl boot6 (stage7_view main_at timer_at idle_at shell_at timer_stack idle_stack hp)).
  intros k k' E Hs Ef. destruct (viewed _ _ _ _ _ _ E (stage6_view main_at timer_at idle_at shell_at timer_stack idle_stack hp)) as (Hh & _).
  injection Ef as <-. apply clear_system.
  - apply (client_object_system _ RT_Object_Class_Mutex 36 7000 _ k Hs); [lia|]. rewrite Hh. by apply (malloc_at 5 36).
  - apply (fmap_at _ _ _ _ E (no_lock_waits main_at timer_at idle_at shell_at timer_stack idle_stack hp)).
Qed.

Lemma module_started us i t stack nm ent size prio k k' :
  thread_stage t stack (hp (S (S i))) nm ent size prio k = Some k' ->
  system_ok us k -> kheap k = hp i -> interrupt_nest k = 0 ->
  startup_sizes !! i = Some SIZEOF_STRUCT_THREAD -> startup_sizes !! S i = Some size ->
  taken_by (take i startup_sizes) + SIZEOF_STRUCT_MEM = t -> taken_by (take (S i) startup_sizes) + SIZEOF_STRUCT_MEM = stack ->
  80 <= size <= 2 ^ 32 - 4 -> 0 <= prio < RT_THREAD_PRIORITY_MAX ->
  module_thread nm ent size prio k = Some (RT_EOK, k') /\ system_ok us k'.
Proof.
  intros E Hs Hh Hi H1 H2 H3 H4 Hsz Hpr.
  destruct (create_startup us _ _ _ _ _ _ _ _ (hp (S i)) _ _ E Hs Hi Hsz Hpr) as (kc & r & Ec & Es & Hs').
  - rewrite Hh. by apply malloc_at.
  - by apply malloc_at.
  - split; [|exact Hs']. unfold module_thread. rewrite Ec. cbn [mbind option_bind]. rewrite Es. reflexivity.
Qed.

Lemma next_module us i o o' c l v t stack nm ent size prio :
  stage_ok us o -> view <$> o = Some (hp i, 0, c, l) -> view <$> o' = Some v ->
  o' = o ≫= thread_stage t stack (hp (S (S i))) nm ent size prio ->
  startup_sizes !! i = Some SIZEOF_STRUCT_THREAD -> startup_sizes !! S i = Some size ->
  taken_by (take i startup_sizes) + SIZEOF_STRUCT_MEM = t -> taken_by (take (S i) startup_sizes) + SIZEOF_STRUCT_MEM = stack ->
  80 <= size <= 2 ^ 32 - 4 -> 0 <= prio < RT_THREAD_PRIORITY_MAX ->
  stage_ok us o' /\ o ≫= (fun k => snd <$> module_thread nm ent size prio k) = o'.
Proof.
  intros (k & E & Hs) Hv Hv' -> H1 H2 H3 H4 Hsz Hpr. destruct (viewed _ _ _ _ _ _ E Hv) as (Hh & Hi & _).
  rewrite E in *. cbn [mbind option_bind] in *.
  destruct (thread_stage _ _ _ _ _ _ _ k) as [k'|] eqn:E'; [|discriminate Hv'].
  destruct (module_started us i t stack nm ent size prio k k' E' Hs Hh Hi H1 H2 H3 H4 Hsz Hpr) as [-> Hs'].
  split; [exists k'; by split|reflexivity].
Qed.

#[local] Abbreviation st8 := (stage8 main_at timer_at idle_at shell_at led_at timer_stack idle_stack hp).
#[local] Abbreviation st9 := (stage9 main_at timer_at idle_at shell_at led_at ui_at timer_stack idle_stack hp).
#[local] Abbreviation st10 := (stage10 main_at timer_at idle_at shell_at led_at ui_at light_at timer_stack idle_stack hp).

Lemma boot8 : stage_ok shell_and_lock st8 /\ st4 stage7 ≫= (fun k => snd <$> indicator_led_start led_at k) = st8.
Proof.
  apply (next_module _ 6 _ st8 _ _ _ 7048 7188 (bytes "led_ind") led_at 768 29 boot7 (stage7_view _ _ _ _ _ _ _) (stage8_view _ _ _ _ _ _ _ _) eq_refl);
    [reflexivity..|lia|by split].
Qed.

Lemma boot9 : stage_ok shell_and_lock st9 /\ st8 ≫= (fun k => snd <$> ui_oled_start ui_at k) = st9.
Proof.
  apply (next_module _ 8 _ st9 _ _ _ 7968 8108 (bytes "ui_oled") ui_at 1024 28 (proj1 boot8) (stage8_view _ _ _ _ _ _ _ _) (stage9_view _ _ _ _ _ _ _ _ _) eq_refl);
    [reflexivity..|lia|by split].
Qed.

Lemma boot10 : stage_ok shell_and_lock st10 /\ st9 ≫= (fun k => snd <$> sensor_light_start light_at k) = st10.
Proof.
  apply (next_module _ 10 _ st10 _ _ _ 9144 9284 (bytes "light") light_at 768 29 (proj1 boot9) (stage9_view _ _ _ _ _ _ _ _ _) (stage10_view _ _ _ _ _ _ _ _ _ _) eq_refl);
    [reflexivity..|lia|by split].
Qed.

Lemma bind_snd {A B} (o : option (A * kernel)) (f : kernel -> option B) : ('(_, k) ← o; f k) = (snd <$> o) ≫= f.
Proof. by destruct o as [[a k]|]. Qed.

(** main_thread_start is what the stages 6 to 10 are. *)
Lemma main_started : st3 stage5 ≫= main_thread_start shell_at led_at ui_at light_at = st10.
Proof.
  destruct boot5 as (k5 & E5 & _), boot6 as (k6 & E6 & _), boot7 as (k7 & E7 & _),
    boot8 as [(k8 & E8 & _) H8], boot9 as [(k9 & E9 & _) H9], boot10 as [_ H10].
  pose proof (shell_started k5 E5) as H6. pose proof (lock_created k6 E6) as H7.
  rewrite E6 in H6. rewrite E7 in H7, H8. rewrite E8 in H8, H9. rewrite E9 in H9, H10. cbn [mbind option_bind] in H8, H9, H10.
  rewrite E5. cbn [mbind option_bind]. unfold main_thread_start. rewrite bind_snd, H6. cbn [mbind option_bind].
  unfold main_init. rewrite bind_snd, H7. cbn [mbind option_bind]. rewrite bind_snd, H8. cbn [mbind option_bind].
  rewrite bind_snd, H9. cbn [mbind option_bind]. rewrite bind_snd, H10. by destruct st10.
Qed.

Lemma firmware_staged :
  (k ← (k ← rt_application_init main_at (rt_system_scheduler_init (rt_system_timer_init (boot_kernel (hp 0%nat))));
        k ← rt_system_timer_thread_init timer_at timer_stack k;
        k ← rt_thread_idle_init idle_at idle_stack k;
        rt_system_scheduler_start k);
   k ← rt_thread_timer_entry k; main_thread_start shell_at led_at ui_at light_at k) = st10.
Proof.
  rewrite <- main_started, (proj2 boot1). unfold stage5, stage4, stage3, stage2.
  destruct (stage1 _ _) as [k1|]; [|reflexivity]. cbn [mbind option_bind].
  destruct (rt_system_timer_thread_init _ _ k1) as [k2|]; [|reflexivity]. cbn [mbind option_bind].
  destruct (rt_thread_idle_init _ _ k2) as [k3|]; [|reflexivity]. cbn [mbind option_bind].
  by destruct (rt_system_scheduler_start k3).
Qed.
End Boot.

(** ** Properties *)

(** C4: when the heap has room for 10052 bytes, the firmware comes up: no
    assertion fails, all threads are created and started, and the state in which
    main has run up to its loop is in order.  The timer thread has run first and
    sleeps; main, the processor's thread, has not been interrupted by the threads
    it started, which are less urgent and wait in the lists of their priorities;
    the heap holds the shell's structure, the stopwatch's lock and the
    threads with their stacks, and nothing else.  When main sleeps, the
    shell runs. *)
Theorem firmware_starts main_at timer_at idle_at shell_at led_at ui_at light_at timer_stack idle_stack b e h0 :
  0 <= b <= 2 ^ 32 - 4 -> fits 32 e -> 10052 + 24 <= 4 * (e / 4) - 4 * ((b + 3) / 4) - 12 -> used_mem h0 = 0 ->
  0 <= timer_stack /\ timer_stack + 512 < 2 ^ 32 -> 0 <= idle_stack /\ idle_stack + 256 < 2 ^ 32 ->
  exists k, firmware main_at timer_at idle_at shell_at led_at ui_at light_at timer_stack idle_stack b e (boot_kernel h0) = Some k /\
    system_ok [(7000, 36); (2212, SIZEOF_FINSH_SHELL)] k /\ used_mem (kheap k) = 10052 /\
    current_thread k = Some 12 /\
    ready_lists k = [(20, [2752]); (28, [7968]); (29, [7048; 9144]); (31, [idle])] /\
    exists k', main_loop k = Some k' /\ current_thread k' = Some 2752 /\
      ready_lists k' = [(28, [7968]); (29, [7048; 9144]); (31, [idle])].
Proof.
  intros Hb He Hn Hu Hts His. set (h := rt_system_heap_init b e h0).
  assert (b + 3 + 36 <= e - 3) as Hbe by (pose proof (Z.mul_div_le e 4); pose proof (Z.mul_succ_div_gt (b + 3) 4); lia).
  assert (packed h 0 (4 * (e / 4) - 4 * ((b + 3) / 4) - 12)) as Hp by (apply packed_init; [done..]).
  assert (heap_owns h []) as Ho by (apply heap_owns_init; [done..]).
  set (n := 4 * (e / 4) - 4 * ((b + 3) / 4) - 12) in *.
  assert (SIZEOF_STRUCT_MEM + MIN_SIZE_ALIGNED + taken_by startup_sizes <= n) as Hroom by exact Hn.
  pose proof (firmware_staged main_at timer_at idle_at shell_at led_at ui_at light_at timer_stack idle_stack h n Hp Hroom Ho Hts His) as H10.
  destruct (boot10 main_at timer_at idle_at shell_at led_at ui_at light_at timer_stack idle_stack h n Hp Hroom Ho Hts His) as [(k & E & Hs) _].
  destruct (viewed _ _ _ _ _ _ E (stage10_view _ _ _ _ _ _ _ _ _ _)) as (Hh & _ & Hc & Hr).
  exists k. split; [|split; [exact Hs|split; [|split; [exact Hc|split; [exact Hr|]]]]].
  - rewrite <- E. exact H10.
  - rewrite Hh. unfold heap_after. eapply (packed_used _ (0 + taken_by startup_sizes)), packed_after; [exact Hp|repeat constructor; lia|exact Hroom].
  - pose proof (main_sleeps main_at timer_at idle_at shell_at led_at ui_at light_at timer_stack idle_stack (heap_after h)) as Hm.
    rewrite E in Hm. cbn [mbind option_bind] in Hm. destruct (main_loop k) as [k'|] eqn:E'; [|discriminate Hm].
    exists k'. split; [reflexivity|]. destruct (viewed _ k' _ _ _ _ eq_refl Hm) as (_ & _ & Hc' & Hr').
    split; [exact Hc'|exact Hr'].
Qed.

(** 20 kilobytes of memory, of which the heap has the upper 16. *)
Definition reset_heap : heap := {| hdrs := ∅; lfree := 0; mem_size_aligned := 0; used_mem := 0; max_mem := 0 |}.

Lemma firmware_starts_witness :
  exists k, firmware 0x08001000 0x08001100 0x08001200 0x08001300 0x08001400 0x08001500 0x08001600
      0x20000400 0x20000600 0x20001000 0x20005000 (boot_kernel reset_heap) = Some k /\
    system_ok [(7000, 36); (2212, SIZEOF_FINSH_SHELL)] k /\ used_mem (kheap k) = 10052 /\ current_thread k = Some 12.
Proof.
  destruct (firmware_starts 0x08001000 0x08001100 0x08001200 0x08001300 0x08001400 0x08001500 0x08001600
    0x20000400 0x20000600 0x20001000 0x20005000 reset_heap) as (k & E & Hs & Hu & Hc & _);
    [lia|unfold fits; lia|vm_compute; discriminate|reflexivity|lia|lia|].
  exists k. split; [exact E|]. split; [exact Hs|]. split; [exact Hu|exact Hc].
Defined.
